(* ===== verification/_CoqProject ===== *)
-Q . S2P
Prelude.v
ByteBuffer.v
Base64.v
Drive.v
Mbr.v
GptCodec.v
Gpt.v
EnumStateMachine.v
Bmc.v
OrdSet.v
Enums.v
ManyToMany.v
GenericManager.v
PortStateManager.v
GasTool.v
PortStateWorker.v
Mux.v
Routes.v
Mdr.v
SmbiosStructs.v
Smbios.v
Acpi.v
Database.v
IdPolicy.v
Sessions.v
Tasks.v
Json.v
JsonText.v
Regex.v
SchemaEnums.v
Eventing.v
ComponentUrl.v
Handlers.v
HandlerTables.v
HandlerRemoval.v
HandlerSync.v
Watcher.v
WatcherTasks.v
Validators.v
Schema.v
NumberCheck.v
RestSchemas.v
RequestSchemas.v
JsonRpc.v
JsonRpcCall.v
Commands.v
RestErrors.v
SubscriptionPost.v
Requests.v
Hoare.v
Fru.v
Ipmi.v
FruReader.v
SelRecord.v
Sel.v
MdrRegion.v
Iscsi.v
IscsiOob.v
Net.v
Uri.v
SsdpPacket.v
SsdpQueue.v
SsdpService.v
PncModel.v
PncStabilizer.v
PncReferences.v
PncInvariant.v
PncStable.v
PncTree.v
