(* ===== verification/Prelude.v ===== *)
(** * Verification of the Intel Rack Scale Design PSME

    The repository holds the Pooled System Management Engine (PSME, C++), the Pod
    Manager (Java), a conformance test suite (Python) and simulators.  This
    library models core parts of the PSME under src/PSME: the REST service
    (application/) that publishes the resource model, the agents (agent/) that
    discover and control hardware, and the libraries both use (common/).

    ** Parts and files

    The shared libraries:
    - [Prelude]: exceptions and results, the state-and-exception monad [M] of the
      modelled methods (an exception keeps the changes made before it), machine
      integers as [Z] with [wrap w], slices, little-endian numbers, tactics and
      the hint database [psme].
    - [ByteBuffer]: common/utils/src/byte_buffer.cpp and byte_swap.cpp, checked
      access to bytes and to little- and big-endian integers.
    - [Base64]: common/base64/src/base64.cpp, both alphabets.
    - [Drive]: common/partition/src/file_drive_interface.cpp; the class
      [DriveInterface] with [DriveLaws] states what the partition tables rely on
      (a write changes exactly its bytes, a read returns them), and the file
      implementation is an instance.
    - [Mbr]: common/partition/src/mbr_partition_table.cpp.
    - [GptCodec], [Gpt]: common/partition/src/gpt_partition_table.cpp with
      common/crc; the binary formats, then load, save, reset, update, allocation
      and removal of partitions.  zlib's crc32 is an argument.

    - [Mdr]: common/mdr, the generic parser of blobs of structures; [Traits],
      [EntryPoint] and their law classes are its interface to the
      instances.
    - [SmbiosStructs], [Smbios]: common/smbios, the structure layouts, the entry
      points, the instance of the parser and the control flow of its dump.
    - [Acpi]: common/acpi, the walk over the tables and the instance of the
      parser.
    - [Iscsi]: common/iscsi, the builder of the iSCSI boot options and the third
      instance of the parser, with put_ip and put_mac of common/ipmi and the
      printers of common/mdr; the address functions of the C library are the class
      [Inet] with [InetLaws].
    - [Hoare]: triples over the monad [M] and their rules.
    - [Fru]: common/fru_eeprom, the parser of the inventory of a device.
    - [Ipmi]: common/ipmi, the byte buffer, requests and responses, the controller
      that keeps an interface and the factory that shares them; the library below is
      the class [Bus].  [IpmiLink] is what the clients of a controller use,
      [Faithful] says that a link answers as the [Device] behind it does, and the
      controller is an instance of both.
    - [FruReader]: the FRU commands and agent/rmm/src/utils/fru_reader.cpp, against
      [IpmiLink].
    - [SelRecord], [Sel]: sel_record.cpp and sel.cpp with the commands of the system
      event log: records, the patterns that select events, and the mirror of the
      log.
    - [MdrRegion]: the accessors of MDR regions of both platforms with their guard and
      their commands; [MdrDevice] and [MdrWritable] say what a BMC promises about a
      region.

    - [Net]: common/net, IP addresses, socket addresses and network interfaces; the
      texts of addresses are the class [InetText] with [InetTextLaws], the list of
      interfaces of the system is the class [IfAddrs].
    - [Uri], [SsdpPacket], [SsdpQueue], [SsdpService]: common/ssdp, the URIs, the
      packets with their parser, validators and factory, the queue of scheduled
      messages with the notifications, and the service, over the class [Network] of
      the operating system ([Sockets] for the queue).

    - [Database]: common/database, the key-value store on files in a directory
      with validity and retention, and its iterators.

    The agent framework (common/agent-framework):
    - [EnumStateMachine]: state_machine/enum_state_machine.hpp, a table-driven
      machine whose guards and actions are computations over an environment.
    - [Bmc]: state_machine/bmc_state_machine.hpp, presence and online tracking of
      a BMC on top of it.
    - [OrdSet]: std::set and std::sort with std::unique as strictly sorted lists.
    - [Enums]: module/enum/common.hpp, the kinds of components and collections.
    - [ManyToMany]: module/managers/many_to_many_manager.hpp, the relations
      between resources, including the update that inserts while it iterates.
    - [GenericManager]: module/managers/generic_manager.hpp with
      module/model/resource.hpp and module/utils/hash.hpp, the resource tables.
    - [Tasks]: action/ and threading/, asynchronous tasks with their resources and
      results on a pool of threads.
    - [Json], [JsonText]: the interface of nlohmann::json, which the build
      fetches: the classes [Json] and [JsonText] of the operations the code calls
      and [JsonLaws] and [JsonTextLaws] of what is documented about them, with an
      instance on trees; [Regex]: std::regex for the patterns the code uses.
    - [Validators], [Schema], [NumberCheck]: validators/, the checkers and
      ProcedureValidator with its variadic constructor; the VALID_* macros as a
      data type [schema] with a meaning ([conforms]) that does not mention the
      checkers; for numbers it goes by the value after a conversion to 64 bits
      ([admits]).
    - [SchemaEnums], [RestSchemas], [RequestSchemas]: the declarations of the
      program, the 99 schemas of the REST server and the 89 of the agents'
      requests, as data; [Requests]: module/requests, the request classes with
      [to_json] and [from_json].
    - [JsonRpc], [JsonRpcCall]: common/json-rpc, both ends of a call and what it
      amounts to; [Commands]: command/, the commands of an agent and the servers
      that validate and run them.

    The PCIe (pnc) agent (agent/pnc):
    - [PortStateManager]: state_machine/port_state_manager.cpp, discovery of the
      device on a port.  Its worker is the class [PortStateWorkerOps].
    - [GasTool]: tools/gas_tool.cpp and the port queries of
      port_monitor_thread.cpp; the firmware commands are the class [Mrpc], and
      [MrpcLaws] states that a bound bridge cannot be bound again.
    - [PortStateWorker]: state_machine/port_state_worker.cpp with the parts of
      tools/model_tool.cpp it calls; an instance of [PortStateWorkerOps] over
      [Mrpc] and the tables.
    - [PncModel], [PncStabilizer]: tree_stability, the keys of resources, the
      persistent uuids made from them and the replacement of the old uuids in the
      model, with the templates of agent-framework tree_stability; the tables are
      those of [GenericManager] and [ManyToMany], indexed by the type of their
      resources.  [PncReferences] defines the references of this model,
      [PncInvariant] the invariant and the steps, [PncStable] follows every method
      and [PncTree] holds the theorem and an example.

    The compute agent (agent/compute):
    - [IscsiOob]: set_network_device_function_attributes.cpp and the parts of
      generic_discoverer.cpp that read MDR regions and discover the iSCSI options,
      on top of [Iscsi] and [MdrRegion].

    The REST service (application):
    - [Mux]: rest/server/multiplexer.cpp, mux/*.cpp, parameters.cpp and
      rest/endpoints/path_builder.cpp; std::regex is an argument.
    - [Routes]: rest/constants/routes.cpp and the registrations of
      rest/endpoints/endpoint_builder.cpp.
    - [Sessions]: rest/security, the session manager, the accounts, the
      authentication of requests and the session endpoints.
    - [IdPolicy]: rest/model/handlers/id_policy.hpp and id_memoizer.cpp, the REST
      identifiers, on top of [Database].
    - [Eventing]: rest/eventing, subscriptions with their JSON documents, the queue
      of event arrays and their delivery with retries.
    - [SubscriptionPost]: SubscriptionCollection::post of rest/endpoints, the one
      endpoint that is modelled from the text of the request to the answer.
    - [ComponentUrl]: rest/endpoints/utils.cpp and rest/model/find.hpp, the URLs of
      resources and the way back from the parameters of a URL to a resource.
    - [Handlers]: rest/model/handlers, the handlers that read the agents into the
      tables, with core/agent/json_agent.hpp and rpc_client.cpp; one definition per
      method, a handler is named by its component, and the overrides of the derived
      handlers are cases of it.  The agent, the clock and the id policies are the
      class [Service].  [HandlerTables], [HandlerRemoval] and [HandlerSync] hold the
      theorems about it.
    - [RestErrors]: rest/server/error, the errors and how exceptions become
      responses (rest/server/connector/connector.cpp), and the validation of
      request bodies (rest/validators/json_validator.cpp).
    - [Watcher], [WatcherTasks]: rest/model/watcher.cpp, the scheduler against the
      class [WatcherEnv], and its instance: polling, retention and the agents'
      notifications, with core/agent/agent_manager.cpp.

    ** What the theorems show

    - Synchronisation: a poll of an agent that does not change meanwhile leaves the
      tables with exactly what the agent has, tasks and metrics excepted
      ([poll_mirrors_agent]); whatever an
      agent answers the tables keep their type ([tables_keep_their_type]); weak
      collections follow the agent ([relation_follows_the_agent]); a removal takes
      exactly a subtree ([do_remove_removes_subtree]), the data of a lost agent is
      removed ([agent_data_is_removed]); a due task of the watcher is reached
      ([due_task_is_reached]).
    - Names: the URL of a resource is served by its endpoint and leads back to it
      ([url_resolves]); every registered route is reachable
      ([every_route_is_reachable]); identifiers are those of a table that is never
      forgotten within a run over an empty database ([stable_ids]).
    - Access: a request reaches its handler only with public access, credentials or
      a live session ([served_is_authorized], [session_accepted_in_time]); public
      access is limited to six documents and the creation of sessions
      ([public_access_is_limited]); the handler that runs is the one of the first
      registered match and of the method ([forward_to_first_match]).
    - Requests: a declaration means what it says and its validator accepts exactly
      the documents that conform ([accepts_conforming], for every schema of the
      REST server [rest_schemas_exact] and of the agents [request_schemas_exact]),
      numbers included ([number_check_exact]) and IPv4 addresses
      ([ipv4_pattern_exact]); what a request class writes is accepted and read back
      if the values are admitted ([requests_roundtrip]); a call over JSON-RPC is a call of the handler
      ([call_refines_handler]), batches are answered in order
      ([batch_answers_in_order]); commands of agents run only on conforming requests
      ([command_runs_on_conforming]); the bodies of REST requests are validated and
      a refusal is answered with an error ([rejected_body_answer]) that is complete
      and, but for values in a wrong format, points to the value at fault
      ([gami_error_document], [error_locates_value]); the POST of a subscription
      subscribes exactly for the documents that describe one ([post_subscribes]).
    - Tasks and events: the outcome of a task agrees with its subtasks
      ([task_outcome]), the pool is first in first out and a forced stop drains it
      ([pool_fifo], [stop_drains]); unreachable subscribers are removed after their
      retries ([unreachable_removed]), subscriptions with all their fields survive a
      restart ([subscriptions_survive_restart]).
    - Persistence: what the partition tables save is what they load
      ([gpt_save_load], [mbr_save_load], [gpt_codec_roundtrip]), a damaged primary
      copy is replaced by the backup ([gpt_recovers_from_backup]); the codecs
      below them are inverse ([set_get_roundtrip], [decode_encode]).
    - Allocation: partitions stay disjoint and in the usable area
      ([layout_preserved]), the first fit is found and nothing else
      ([get_empty_region_first_fit]), and the allocation sequence succeeds
      ([allocate_partition]).
    - Parsers: SMBIOS parsing never leaves the blob and ends whatever the bytes
      are ([smbios_parse_safe]), the same holds for ACPI once its tables were
      accepted ([acpi_parse_safe]); blobs laid out from structures are read back
      ([smbios_parse_laid_out], [acpi_parse_laid_out]); a changed byte of an SMBIOS
      entry point is noticed ([entry_point_change_detected]).
    - Devices: iSCSI boot options that were set are what discovery finds, as far as
      the region can hold them ([boot_options_survive]), because the region that was written is read back
      ([written_region_is_read]) and the structures that were built are parsed
      ([build_parse]); the inventory of a device is read in chunks and its fields are
      those of the device if its areas are within 256 bytes ([fru_is_read]), the FRU parser stays within blobs of the
      size it can address ([parse_in_bounds]); the first run over an event log
      mirrors it ([first_run_mirrors_log]); sending a request ends in an answer of the
      device or in an error that leaves the interfaces consistent
      ([do_send_outcome]).
    - Discovery of the service: a search is answered with the URL that the
      peer can reach ([search_is_answered]), the sockets follow the interfaces
      ([change_keeps_tracking]), the parser is safe on every datagram that leaves room
      for a zero ([packet_parse_safe]) and reads back what was printed
      ([packet_roundtrip]), messages are sent when they are due
      ([due_messages_are_sent]); URIs, socket addresses and notifications are read
      back ([uri_roundtrip], [socket_address_roundtrip],
      [network_change_roundtrip]), and masks compare the leading bits
      ([same_subnet_prefix]).
    - Persistent uuids: stabilizing the tree of the pnc agent returns and leaves the
      references of the model up to date, those of processors excepted
      ([stabilize_keeps_references], [processor_keeps_old_parent]).
    - Tables and relations: table keys stay distinct, updates are read back and
      reported correctly, queries on relations agree ([queries_agree]), and
      renaming terminates ([update_entry_spec]).
    - State machines: transitions follow the table; the BMC state follows its
      readings; a port has a device identifier exactly when it has a device, and
      the exact polls after which its state is wrong are characterised.
    - Defects: several theorems prove that the code differs from what its
      comments or callers expect: an agent that answers with errors is dropped as
      unreachable ([answering_agent_is_dropped]), one busy agent ends a polling
      round ([busy_agent_ends_round]), an interval of zero starves the watcher
      ([zero_interval_starves]), one unknown notification loses the events of its
      batch ([unknown_kind_loses_events]), links without an endpoint
      ([network_device_link_is_dead]), a request that every agent rejects
      ([add_switch_port_rejects_all]), request classes whose documents their own
      validators reject ([vlan_requests_rejected]), numbers that wrap before they
      are compared ([large_unsigned_wraps]), a failed initialisation of a port is final,
      multi-port endpoints cannot be bound, checksums that are never compared
      ([fresh_crc_error]), a reader that never gives up ([dead_device_never_ends]),
      events that are read twice ([second_run_duplicates]), a busy region that is not
      retried ([busy_region_is_not_retried]), IPv6 targets that are lost
      ([ipv6_target_is_lost]), boot options that count as set after a failed write
      ([failed_write_stays_enabled]), postponed messages that are never sent
      ([postponed_message_is_stuck]), a datagram that fills the buffer
      ([full_buffer_overread]), functions of one device that get one uuid
      ([functions_collide]), an index past an array, a lock that
      is not released, loops over blobs that never end, and others.

    ** Conventions

    An index that C++ does not check gives [undefined_behaviour]; the theorems
    show when it cannot happen.  Loops that poll hardware get a number of
    iterations and throw [out_of_fuel] beyond it.  Loops over containers are
    structural, except the renaming in [ManyToMany], whose fuel
    [S (2 * length d)] is proved to be enough, and the loops of the parsers, whose
    fuel [S (length buf)] is proved to be enough because every iteration advances
    the offset; the walk over ACPI tables and the SMBIOS dump take their fuel as an
    argument, since they can run forever.  The loops that read a device over IPMI take
    their fuel as an argument, because a device can keep them running; more than the
    number of bytes to read, or of entries of the log, is proved to be enough when the
    device answers.  URLs are built with the fuel [url_fuel],
    8, which is proved to be more than the depth of any resource; the recursion of
    the handlers through the tree of resources takes the depth of the tree as its
    fuel ([max_depth] for removals, an argument of [add]), and the theorems assume
    that the tree is no deeper.  The loops of the watcher and the service threads
    are iterated a given number of times.  Concurrency is modelled as
    atomic methods where the code holds a mutex around them.  Log output, sleeps
    and event texts are left out.

    ** Not modelled

    The other endpoint handlers and JSON rendering, the connectors to the HTTP library and
    the JSON-RPC transports, the bodies of most of the agents' commands, and the model
    attributes and responses, which copy fields between classes and JSON documents
    one by one; the codecs of the other IPMI commands; the texts of the dumps of
    SMBIOS, ACPI and iSCSI blobs; telemetry, the sockets and netlink code, the
    chassis, network, storage, nvme, spdk, rmm and fpga agents and the other parts of
    the compute agent, and device access of the pnc agent below the interfaces above,
    which drive hardware, sockets and system libraries that are not part of the
    repository; and everything that is not C++. *)

From Stdlib Require Import ZArith Lia.
From stdpp Require Export base list gmap strings numbers.

#[export] Set Default Goal Selector "!".

(** ** Exceptions and results *)

(** What a modelled C++ function throws.  [what] is the constant part of the
    message; [response_error] is an IPMI response error with its class and completion
    code; [undefined_behaviour] marks an access the C++ standard leaves
    undefined (an index past the end of an array reached through
    [operator[]]); [out_of_fuel] marks a loop that did not end within the number
    of iterations a model allows it. *)
Inductive exn : Type :=
  | runtime_error (what : string)
  | logic_error (what : string)
  | invalid_argument (what : string)
  | out_of_range
  | id_unavailable
  | invalid_uuid
  | not_found
  | invalid_value
  | server_exception (status : Z)
  | json_rpc_exception (code : Z)
  | agent_unreachable
  | stop_watching
  | unknown_error (what : string)
  | pnc_error (what : string)
  | key_value_missing (what : string)
  | response_error (kind : string) (code : Z)
  | undefined_behaviour
  | out_of_fuel.

Inductive result (A : Type) : Type :=
  | Ok (a : A)
  | Throw (e : exn).
Global Arguments Ok {A} a.
Global Arguments Throw {A} e.

#[global] Instance result_ret : MRet result := λ A a, Ok a.
#[global] Instance result_bind : MBind result := λ A B f r,
  match r with Ok a => f a | Throw e => Throw e end.
#[global] Instance result_fmap : FMap result := λ A B f r,
  match r with Ok a => Ok (f a) | Throw e => Throw e end.

#[global] Instance exn_eq_dec : EqDecision exn.
Proof. solve_decision. Defined.
#[global] Instance result_eq_dec `{EqDecision A} : EqDecision (result A).
Proof. solve_decision. Defined.

#[global] Instance Ok_inj {A} : Inj (=) (=) (@Ok A).
Proof. by intros ?? [= ?]. Qed.

Definition is_ok {A} (r : result A) : bool :=
  match r with Ok _ => true | Throw _ => false end.

(** ** State with exceptions

    A method of an object with state [S]: as in C++, an exception does not undo
    the changes made before it was thrown. *)
Definition M (S A : Type) : Type := S → result A * S.

#[global] Instance M_ret {S} : MRet (M S) := λ A a s, (Ok a, s).
#[global] Instance M_bind {S} : MBind (M S) := λ A B f m s,
  match m s with
  | (Ok a, s') => f a s'
  | (Throw e, s') => (Throw e, s')
  end.

Definition throw {S A} (e : exn) : M S A := λ s, (Throw e, s).
Definition get {S} : M S S := λ s, (Ok s, s).
Definition put {S} (s' : S) : M S unit := λ _, (Ok tt, s').
Definition modify {S} (f : S → S) : M S unit := λ s, (Ok tt, f s).
Definition lift {S A} (r : result A) : M S A := λ s, (r, s).
Definition when {S} (b : bool) (m : M S unit) : M S unit :=
  if b then m else mret tt.

(** [try { m } catch (e) { h(e) }] *)
Definition try_catch {S A} (m : M S A) (h : exn → M S A) : M S A := λ s,
  match m s with
  | (Ok a, s') => (Ok a, s')
  | (Throw e, s') => h e s'
  end.

(** Run a method of a sub-object. *)
Definition zoom {S T A} (proj : S → T) (inj : T → S → S) (m : M T A) : M S A := λ s,
  let '(r, t) := m (proj s) in (r, inj t s).

(** [for (x : l) body(x)] *)
Fixpoint for_each {S A} (l : list A) (body : A → M S unit) : M S unit :=
  match l with
  | [] => mret tt
  | x :: l' => body x ≫= λ _, for_each l' body
  end.

(** An invariant that a method keeps, also when it throws. *)
Definition preserves {S A} (I : S → Prop) (m : M S A) : Prop := ∀ s, I s → I (m s).2.

Lemma preserves_ret {S A} (I : S → Prop) (a : A) : preserves I (mret a).
Proof. by intros s Hs. Qed.
Lemma preserves_throw {S A} (I : S → Prop) e : preserves I (@throw S A e).
Proof. by intros s Hs. Qed.
Lemma preserves_get {S} (I : S → Prop) : preserves I get.
Proof. by intros s Hs. Qed.
Lemma preserves_lift {S A} (I : S → Prop) (r : result A) : preserves I (lift r).
Proof. by intros s Hs. Qed.
Lemma preserves_modify {S} (I : S → Prop) f : (∀ s, I s → I (f s)) → preserves I (modify f).
Proof. intros Hf s Hs. by apply Hf. Qed.
(** Steps of a sequence. *)
Lemma bind_run {S A B} (m : M S A) (f : A → M S B) s a s' : m s = (Ok a, s') → (m ≫= f) s = f a s'.
Proof. intros Hm. unfold mbind, M_bind. by rewrite Hm. Qed.

Lemma bind_throw {S A B} (m : M S A) (f : A → M S B) s e s' :
  m s = (Throw e, s') → (m ≫= f) s = (Throw e, s').
Proof. intros Hm. unfold mbind, M_bind. by rewrite Hm. Qed.

Lemma bind_Ok_inv {S A B} (m : M S A) (f : A → M S B) s b s' :
  (m ≫= f) s = (Ok b, s') → ∃ a s1, m s = (Ok a, s1) ∧ f a s1 = (Ok b, s').
Proof. unfold mbind, M_bind. destruct (m s) as [[a|e] s1]; [|done]. intros Hm1. by exists a, s1. Qed.

Lemma preserves_bind {S A B} (I : S → Prop) (m : M S A) (f : A → M S B) :
  preserves I m → (∀ a, preserves I (f a)) → preserves I (m ≫= f).
Proof.
  intros Hm Hf s Hs. unfold mbind, M_bind. specialize (Hm s Hs).
  destruct (m s) as [[a|x] s1]; [|done]. by apply Hf.
Qed.
Lemma preserves_try {S A} (I : S → Prop) (m : M S A) h :
  preserves I m → (∀ x, preserves I (h x)) → preserves I (try_catch m h).
Proof.
  intros Hm Hh s Hs. unfold try_catch. specialize (Hm s Hs).
  destruct (m s) as [[a|x] s1]; [done|]. by apply Hh.
Qed.
Lemma preserves_if {S A} (I : S → Prop) (b : bool) (m n : M S A) :
  preserves I m → preserves I n → preserves I (if b then m else n).
Proof. by destruct b. Qed.
Lemma for_each_app {S A} (l k : list A) (f : A → M S unit) s :
  for_each (l ++ k) f s = (for_each l f ≫= λ _, for_each k f) s.
Proof.
  revert s. induction l as [|x l IH]; intros s; [done|]. cbn [for_each app].
  unfold mbind, M_bind in *. destruct (f x s) as [[]s1]; [apply IH|done].
Qed.

Lemma preserves_for_each {S A} (I : S → Prop) (l : list A) (f : A → M S unit) :
  (∀ x, preserves I (f x)) → preserves I (for_each l f).
Proof.
  intros Hf. induction l as [|x l IH]; [apply preserves_ret|]. apply preserves_bind; auto.
Qed.

(** A C++ [std::string]: the codes of its characters. *)
Definition chars (s : string) : list Z :=
  (λ a, Z.of_N (Ascii.N_of_ascii a)) <$> String.list_ascii_of_string s.

(** [v[i]] on a vector or array: no check, undefined past the end. *)
Definition index {A} (l : list A) (i : nat) : result A :=
  match l !! i with Some x => Ok x | None => Throw undefined_behaviour end.

(** ** Machine integers *)

Definition wrap (w x : Z) : Z := (x mod 2 ^ w)%Z.
Definition in_range (w x : Z) : Prop := (0 ≤ x < 2 ^ w)%Z.
Definition is_byte (b : Z) : Prop := (0 ≤ b < 256)%Z.

Lemma wrap_small w x : in_range w x → wrap w x = x.
Proof. intros H. apply Z.mod_small, H. Qed.

Lemma wrap_range w x : (0 ≤ w)%Z → in_range w (wrap w x).
Proof. intros H. apply Z.mod_pos_bound. lia. Qed.

(** ** Tactics and hints *)

Create HintDb psme.
Create Rewrite HintDb psme.
#[export] Hint Rewrite @length_app @length_take @length_drop @length_insert
  @length_replicate : psme.

#[export] Hint Resolve preserves_ret preserves_throw preserves_get preserves_lift preserves_bind
  preserves_try preserves_if preserves_for_each : psme.

(** Unfold one run of a monadic method. *)
Ltac run_monad :=
  repeat (unfold mbind, M_bind, result_bind, mret, M_ret, result_ret, throw, get, put,
            modify, lift, when, zoom in *; cbn beta iota in *).

(** Evaluate the powers of two with a constant exponent. *)
Ltac zpow :=
  repeat match goal with
  | |- context [Z.pow 2 (Zpos ?k)] =>
      let v := eval vm_compute in (Z.pow 2 (Zpos k)) in change (Z.pow 2 (Zpos k)) with v
  | H : context [Z.pow 2 (Zpos ?k)] |- _ =>
      let v := eval vm_compute in (Z.pow 2 (Zpos k)) in change (Z.pow 2 (Zpos k)) with v in H
  end.

(** [lia] with divisions and remainders by constants. *)
Ltac dlia := Z.to_euclidean_division_equations; lia.

Ltac len := autorewrite with psme in *; simpl in *; lia.

Lemma index_Forall {A} (P : A → Prop) l i x : Forall P l → index l i = Ok x → P x.
Proof.
  unfold index. intros Hl. destruct (l !! i) eqn:E; [|done]. intros [= <-].
  by eapply Forall_lookup_1.
Qed.

(** Take apart a sequence of calls that returned. *)
Ltac bind_inv H :=
  unfold mbind, result_bind in H;
  repeat match type of H with
  | match ?r with Ok _ => _ | Throw _ => _ end = Ok _ =>
      let v := fresh "v" in let E := fresh "E" in destruct r as [v|] eqn:E; [|done]
  end.

Lemma filter_all {A} (P : A → Prop) `{∀ x, Decision (P x)} l : Forall P l → filter P l = l.
Proof. induction 1 as [|x l Hx _ IH]; [done|]. by rewrite filter_cons_True, IH. Qed.

Lemma Forall_filter_weaken {A} (P Q : A → Prop) `{∀ x, Decision (P x)} l :
  Forall Q l → Forall Q (filter P l).
Proof.
  induction 1 as [|x l Hx _ IH]; [done|]. rewrite filter_cons. case_decide; [by constructor|done].
Qed.

Lemma Forall_sublist {A} (P : A → Prop) l k : sublist l k → Forall P k → Forall P l.
Proof.
  induction 1 as [|x l k Hlk IH|x l k Hlk IH]; [done| |]; rewrite !list.Forall_cons; intuition.
Qed.

Lemma filter_nothing {A} (P : A → Prop) `{∀ x, Decision (P x)} l : Forall (λ x, ¬ P x) l → filter P l = [].
Proof. induction 1 as [|x l Hx _ IH]; [done|]. by rewrite filter_cons_False. Qed.

(** The positions of the elements that pass a filter. *)
Lemma filter_positions {A} (P : A → Prop) `{∀ x, Decision (P x)} (l : list A) :
  ∃ J, NoDup J ∧ Forall2 (λ j x, l !! j = Some x ∧ P x) J (filter P l) ∧
    ∀ j x, l !! j = Some x → P x → j ∈ J.
Proof.
  induction l as [|x l (J & HJ & HF & Hin)].
  { exists []. split_and!; [constructor|constructor|]. by intros [|j]. }
  assert (Forall2 (λ j y, (x :: l) !! j = Some y ∧ P y) (S <$> J) (filter P l)) as HF'.
  { apply Forall2_fmap_l. eapply list.Forall2_impl; [exact HF|]. done. }
  assert (NoDup (S <$> J)) as HJ' by (by apply NoDup_fmap_2; [intros ?? [=]|]).
  rewrite filter_cons. case_decide as Hx.
  - exists (0 :: (S <$> J)). split_and!.
    + apply list.NoDup_cons. split; [|done]. by intros (j & [=] & _)%list_elem_of_fmap.
    + by constructor.
    + intros [|j] y Hj Hy; [apply list_elem_of_here|]. apply list_elem_of_further, list_elem_of_fmap. eauto.
  - exists (S <$> J). split_and!; [done|done|]. intros [|j] y Hj Hy; [by injection Hj as ->|].
    apply list_elem_of_fmap. eauto.
Qed.

(** ** Pairwise relations *)

Fixpoint pairwise {A} (R : A → A → Prop) (l : list A) : Prop :=
  match l with
  | [] => True
  | x :: l' => Forall (R x) l' ∧ pairwise R l'
  end.

Lemma pairwise_perm {A} (R : A → A → Prop) `{!Symmetric R} l l' :
  l ≡ₚ l' → pairwise R l → pairwise R l'.
Proof.
  induction 1 as [|x l l' Hp IH|x y l|l l' l'' _ IH1 _ IH2]; simpl; try tauto.
  - intros [Hx Hl]. split; [by rewrite <- Hp|by apply IH].
  - rewrite !list.Forall_cons. intros ((Hyx & Hy) & Hx & Hl). by split_and!.
Qed.

Lemma pairwise_fmap {A B} (R : B → B → Prop) (f : A → B) l :
  NoDup l → (∀ x y, x ∈ l → y ∈ l → x ≠ y → R (f x) (f y)) → pairwise R (f <$> l).
Proof.
  induction 1 as [|x l Hx Hl IH]; intros HR; [done|]. split.
  - apply list.Forall_fmap, list.Forall_forall. intros y Hy.
    apply HR; [apply list_elem_of_here|by apply list_elem_of_further|by intros ->].
  - apply IH. intros y z Hy Hz. apply HR; by apply list_elem_of_further.
Qed.

Lemma pairwise_app {A} (R : A → A → Prop) l k :
  pairwise R (l ++ k) ↔ pairwise R l ∧ pairwise R k ∧ Forall (λ x, Forall (R x) k) l.
Proof.
  induction l as [|x l IH]; simpl; [intuition|]. rewrite Forall_app, list.Forall_cons, IH. tauto.
Qed.

(** ** Slices of a list *)

Section slices.
Context {A : Type}.
Implicit Types l xs : list A.

(** The [n] elements from position [p]. *)
Definition slice (p n : nat) (l : list A) : list A := take n (drop p l).

(** [xs] written over the elements from position [p]. *)
Definition splice (p : nat) (xs l : list A) : list A :=
  take p l ++ xs ++ drop (p + length xs) l.

Lemma length_slice p n l : (p + n ≤ length l)%nat → length (slice p n l) = n.
Proof. intros H. unfold slice. len. Qed.

Lemma length_splice p xs l :
  (p + length xs ≤ length l)%nat → length (splice p xs l) = length l.
Proof. intros H. unfold splice. len. Qed.

Lemma slice_splice_same p xs l :
  (p + length xs ≤ length l)%nat → slice p (length xs) (splice p xs l) = xs.
Proof.
  intros H. unfold slice, splice.
  rewrite drop_app_ge, length_take, Nat.min_l, Nat.sub_diag, drop_0 by len.
  by rewrite take_app_length.
Qed.

Lemma slice_splice_before p n q xs l :
  (p + n ≤ q)%nat → (q + length xs ≤ length l)%nat →
  slice p n (splice q xs l) = slice p n l.
Proof.
  intros H1 H2. unfold slice, splice.
  rewrite drop_app_le by len. rewrite take_app_le by len.
  rewrite skipn_firstn_comm, take_take. f_equal. lia.
Qed.

Lemma slice_splice_after p n q xs l :
  (q + length xs ≤ p)%nat → (q + length xs ≤ length l)%nat →
  slice p n (splice q xs l) = slice p n l.
Proof.
  intros H1 H2. unfold slice, splice.
  rewrite drop_app_ge, drop_app_ge by len. rewrite drop_drop. f_equal. f_equal. len.
Qed.

Lemma lookup_splice_other p xs l i :
  (p + length xs ≤ length l)%nat → (i < p ∨ p + length xs ≤ i)%nat →
  splice p xs l !! i = l !! i.
Proof.
  intros H [Hi|Hi]; unfold splice.
  - rewrite lookup_app_l by len. by rewrite lookup_take_lt by lia.
  - rewrite lookup_app_r, lookup_app_r, lookup_drop by len. f_equal. len.
Qed.

(** Two adjacent writes are one. *)
Lemma splice_splice_adj p xs ys l :
  (p + length xs + length ys ≤ length l)%nat →
  splice (p + length xs) ys (splice p xs l) = splice p (xs ++ ys) l.
Proof.
  intros H. unfold splice at 1.
  assert (take (p + length xs) (splice p xs l) = take p l ++ xs) as ->.
  { unfold splice. rewrite app_assoc. rewrite take_app_length'; [done|len]. }
  assert (drop (p + length xs + length ys) (splice p xs l) =
          drop (p + length xs + length ys) l) as ->.
  { unfold splice. rewrite app_assoc, drop_app_ge by len. rewrite drop_drop. f_equal. len. }
  unfold splice. rewrite length_app, Nat.add_assoc, <- !app_assoc. done.
Qed.

Lemma insert_splice p x l :
  (p < length l)%nat → <[p := x]> l = splice p [x] l.
Proof. intros H. unfold splice. simpl. rewrite Nat.add_1_r. by apply insert_take_drop. Qed.

Lemma slice_all n l : length l = n → slice 0 n l = l.
Proof. intros <-. unfold slice. by rewrite drop_0, firstn_all. Qed.

Lemma slice_lookup p n i l :
  (i < n)%nat → slice p n l !! i = l !! (p + i)%nat.
Proof. intros H. unfold slice. by rewrite lookup_take_lt, lookup_drop. Qed.

Lemma slice_slice p n q m l :
  (q + m ≤ n)%nat → slice q m (slice p n l) = slice (p + q) m l.
Proof.
  intros H. unfold slice. rewrite skipn_firstn_comm, take_take, drop_drop.
  f_equal. lia.
Qed.

Lemma slice_take_app a b l : (a + b ≤ length l)%nat → take a l ++ slice a b l = take (a + b) l.
Proof.
  intros Hab. unfold slice. rewrite <- (take_drop a (take (a + b) l)) at 1.
  rewrite take_take, Nat.min_l by lia. by rewrite skipn_firstn_comm, Nat.add_comm, Nat.add_sub.
Qed.

Lemma slice_app_split p n m l :
  slice p (n + m) l = slice p n l ++ slice (p + n) m l.
Proof.
  unfold slice. rewrite <- drop_drop.
  rewrite <- (take_drop n (drop p l)) at 1. rewrite take_app.
  rewrite take_take, length_take, Nat.min_r by lia. f_equal.
  destruct (decide (n ≤ length (drop p l))%nat) as [Hle|Hgt].
  - rewrite Nat.min_l by lia. f_equal. lia.
  - rewrite (drop_ge (drop p l) n) by lia. by rewrite !take_nil.
Qed.

Lemma Forall_slice (P : A → Prop) p n l : Forall P l → Forall P (slice p n l).
Proof. intros H. by apply Forall_take, Forall_drop. Qed.

Lemma Forall_splice (P : A → Prop) p xs l :
  Forall P xs → Forall P l → Forall P (splice p xs l).
Proof.
  intros H1 H2. unfold splice. apply Forall_app; split; [by apply Forall_take|].
  apply Forall_app; split; [done|by apply Forall_drop].
Qed.

Lemma splice_decompose p n l :
  (p + n ≤ length l)%nat →
  ∃ pre mid post, l = pre ++ mid ++ post ∧ length pre = p ∧ length mid = n ∧
    slice p n l = mid ∧
    ∀ xs, length xs = n → splice p xs l = pre ++ xs ++ post.
Proof.
  intros H. exists (take p l), (take n (drop p l)), (drop (p + n) l).
  split_and!; [|len|len|done|].
  - rewrite <- drop_drop, take_drop. by rewrite take_drop.
  - intros xs Hxs. unfold splice. by rewrite Hxs.
Qed.

Lemma splice_splice_same p xs ys l :
  length xs = length ys → (p + length xs ≤ length l)%nat →
  splice p ys (splice p xs l) = splice p ys l.
Proof.
  intros Hl Hle. unfold splice at 1.
  assert (take p (splice p xs l) = take p l) as ->.
  { unfold splice. rewrite take_app_length'; [done|len]. }
  assert (drop (p + length ys) (splice p xs l) = drop (p + length ys) l) as ->; [|done].
  unfold splice. rewrite app_assoc, drop_app_length'; [by rewrite Hl|len].
Qed.

(** The [k]-th piece of a record laid out as consecutive pieces. *)
Lemma slice_concat k (ps : list (list A)) x p n :
  ps !! k = Some x → p = length (concat (take k ps)) → n = length x →
  slice p n (concat ps) = x.
Proof.
  intros Hk -> ->. rewrite <- (take_drop_middle ps k x Hk) at 2.
  rewrite concat_app. cbn [concat]. unfold slice. rewrite drop_app_length. apply take_app_length.
Qed.

(** A record laid out as pieces at given offsets. *)
Definition write_all (pieces : list (nat * list A)) (l : list A) : list A :=
  foldl (λ l pc, splice pc.1 pc.2 l) l pieces.

Definition apart (pc pc' : nat * list A) : Prop :=
  (pc.1 + length pc.2 ≤ pc'.1 ∨ pc'.1 + length pc'.2 ≤ pc.1)%nat.

Fixpoint layout (n : nat) (pieces : list (nat * list A)) : Prop :=
  match pieces with
  | [] => True
  | pc :: pieces' => (pc.1 + length pc.2 ≤ n)%nat ∧ Forall (apart pc) pieces' ∧ layout n pieces'
  end.

Lemma length_write_all pieces l :
  layout (length l) pieces → length (write_all pieces l) = length l.
Proof.
  revert l. induction pieces as [|pc pieces IH]; intros l; simpl; [done|].
  intros (Hle & _ & Hl). rewrite IH; rewrite length_splice; done.
Qed.

Lemma slice_write_all_apart p n pieces l :
  layout (length l) pieces →
  Forall (λ pc, p + n ≤ pc.1 ∨ pc.1 + length pc.2 ≤ p)%nat pieces →
  slice p n (write_all pieces l) = slice p n l.
Proof.
  revert l. induction pieces as [|pc pieces IH]; intros l; simpl; [done|].
  intros (Hle & _ & Hl) Hd. apply list.Forall_cons in Hd as [Hpc Hd].
  rewrite IH; [|by rewrite length_splice|done].
  destruct Hpc; [by apply slice_splice_before|by apply slice_splice_after].
Qed.

Lemma slice_write_all p xs pieces l :
  layout (length l) pieces → (p, xs) ∈ pieces →
  slice p (length xs) (write_all pieces l) = xs.
Proof.
  revert l. induction pieces as [|pc pieces IH]; intros l; simpl; [by intros _ ?%elem_of_nil|].
  intros (Hle & Hd & Hl) [<-|Hin]%elem_of_cons; simpl in *.
  - rewrite slice_write_all_apart; rewrite ?length_splice by done; [|done|].
    + by apply slice_splice_same.
    + eapply list.Forall_impl; [exact Hd|]. unfold apart. simpl. intros pc' H. tauto.
  - apply IH; [by rewrite length_splice|done].
Qed.
End slices.

(** ** Little-endian representation *)

Fixpoint le_bytes (n : nat) (v : Z) : list Z :=
  match n with
  | O => []
  | S n' => (v mod 256)%Z :: le_bytes n' (v / 256)%Z
  end.

Fixpoint le_val (bs : list Z) : Z :=
  match bs with
  | [] => 0
  | b :: bs' => (b + 256 * le_val bs')%Z
  end.

Lemma length_le_bytes n v : length (le_bytes n v) = n.
Proof. revert v; induction n as [|n IH]; intros v; simpl; [done|]. by rewrite IH. Qed.
#[export] Hint Rewrite length_le_bytes : psme.

Lemma le_bytes_byte n v : Forall is_byte (le_bytes n v).
Proof.
  revert v; induction n as [|n IH]; intros v; simpl; constructor; [|done].
  apply Z.mod_pos_bound. lia.
Qed.

Lemma le_val_bytes n v : le_val (le_bytes n v) = (v mod 2 ^ (8 * Z.of_nat n))%Z.
Proof.
  revert v; induction n as [|n IH]; intros v; cbn [le_bytes le_val].
  - by rewrite Z.mod_1_r.
  - rewrite IH. replace (8 * Z.of_nat (S n))%Z with (8 + 8 * Z.of_nat n)%Z by lia.
    rewrite Z.pow_add_r by lia. change (2 ^ 8)%Z with 256%Z.
    rewrite Z.rem_mul_r by lia. done.
Qed.

Lemma le_val_bound bs :
  Forall is_byte bs → (0 ≤ le_val bs < 2 ^ (8 * Z.of_nat (length bs)))%Z.
Proof.
  induction 1 as [|b bs Hb _ IH]; cbn [le_val length]; [lia|].
  replace (8 * Z.of_nat (S (length bs)))%Z with (8 + 8 * Z.of_nat (length bs))%Z by lia.
  rewrite Z.pow_add_r by lia. change (2 ^ 8)%Z with 256%Z. unfold is_byte in Hb. nia.
Qed.

Lemma le_bytes_val bs : Forall is_byte bs → le_bytes (length bs) (le_val bs) = bs.
Proof.
  induction 1 as [|b bs Hb Hbs IH]; cbn [le_val length le_bytes]; [done|].
  unfold is_byte in Hb.
  rewrite (Z.mul_comm 256), Z.mod_add, Z.mod_small by lia.
  rewrite Z.div_add, Z.div_small, Z.add_0_l by lia. by rewrite IH.
Qed.

Lemma le_val_app bs1 bs2 :
  le_val (bs1 ++ bs2) = (le_val bs1 + 2 ^ (8 * Z.of_nat (length bs1)) * le_val bs2)%Z.
Proof.
  induction bs1 as [|b bs1 IH]; [simpl; lia|].
  rewrite <- app_comm_cons. cbn [le_val length]. rewrite IH.
  replace (8 * Z.of_nat (S (length bs1)))%Z with (8 + 8 * Z.of_nat (length bs1))%Z by lia.
  rewrite Z.pow_add_r by lia. lia.
Qed.

Lemma le_bytes_app n m v :
  le_bytes (n + m) v = le_bytes n v ++ le_bytes m (v / 2 ^ (8 * Z.of_nat n))%Z.
Proof.
  revert v. induction n as [|n IH]; intros v; cbn [le_bytes Nat.add].
  - by rewrite Z.div_1_r.
  - rewrite IH, Z.div_div by lia. rewrite <- app_comm_cons. do 3 f_equal.
    replace (8 * Z.of_nat (S n))%Z with (8 + 8 * Z.of_nat n)%Z by lia.
    by rewrite Z.pow_add_r by lia.
Qed.

Lemma le_bytes_wrap n w v :
  (8 * Z.of_nat n ≤ w)%Z → le_bytes n (wrap w v) = le_bytes n v.
Proof.
  revert w v. induction n as [|n IH]; intros w v Hw; [done|]. cbn [le_bytes]. unfold wrap in *.
  assert (2 ^ w = 256 * 2 ^ (w - 8))%Z as Hp.
  { change 256%Z with (2 ^ 8)%Z. rewrite <- Z.pow_add_r by lia. f_equal. lia. }
  rewrite Hp, Z.rem_mul_r by lia. f_equal.
  - by rewrite Z.mul_comm, Z.mod_add, Z.mod_mod by lia.
  - rewrite Z.mul_comm, Z.div_add, Z.div_small by (pose proof (Z.mod_pos_bound v 256); lia).
    rewrite Z.add_0_l. apply (IH (w - 8)%Z). lia.
Qed.

(** ** Bits *)

(** An or of two numbers with no common bit is their sum. *)
Lemma lor_shiftl_add k lo hi :
  (0 ≤ k)%Z → (0 ≤ lo < 2 ^ k)%Z → Z.lor lo (Z.shiftl hi k) = (lo + hi * 2 ^ k)%Z.
Proof.
  intros Hk Hlo. rewrite <- Z.shiftl_mul_pow2 by done.
  assert (Z.land lo (Z.shiftl hi k) = 0)%Z as Hland.
  { apply Z.bits_inj'; intros n Hn. rewrite Z.land_spec, Z.bits_0.
    destruct (Z.lt_ge_cases n k) as [Hlt|Hge].
    - by rewrite (Z.shiftl_spec_low hi k n), andb_false_r.
    - by rewrite <- (Z.mod_small lo (2 ^ k)), Z.mod_pow2_bits_high by lia. }
  by rewrite <- Z.lxor_lor, Z.add_nocarry_lxor by done.
Qed.

(** ** A free key

    Of [size m + 1] different candidates one is not in use; the first of them. *)
Lemma first_free {A} (m : gmap Z A) (f : nat → Z) :
  (∀ i j, (i ≤ size m)%nat → (j ≤ size m)%nat → f i = f j → i = j) →
  ∃ k, (k ≤ size m)%nat ∧ m !! f k = None ∧ ∀ j, (j < k)%nat → is_Some (m !! f j).
Proof.
  intros Hf. destruct (list_find (λ k, m !! f k = None) (seq 0 (S (size m)))) as [[i k]|] eqn:E.
  - apply list_find_Some in E as (Hi & Hk & Hlt). apply lookup_seq in Hi as [-> Hi].
    exists i. split_and!; [lia|done|]. intros j Hj. apply not_eq_None_Some.
    apply (Hlt j j); [|done]. apply lookup_seq. lia.
  - exfalso. apply list_find_None in E.
    assert (list_to_set (f <$> seq 0 (S (size m))) ⊆ (dom m : gset Z)) as Hsub.
    { intros x Hx. apply elem_of_list_to_set in Hx. apply list_elem_of_fmap in Hx as (k & -> & Hk).
      apply elem_of_dom, not_eq_None_Some. rewrite list.Forall_forall in E. by apply E. }
    apply subseteq_size in Hsub.
    rewrite size_list_to_set, size_dom, length_fmap, length_seq in Hsub; [lia|].
    apply NoDup_fmap_2_strong; [|apply NoDup_seq].
    intros i j Hi%elem_of_seq Hj%elem_of_seq. apply Hf; lia.
Qed.
