(* ===== verification/ByteBuffer.v ===== *)
(** [utils::ByteBuffer] (PSME/common/utils/src/byte_buffer.cpp) and
    [utils::byte_swap_*] (byte_swap.cpp).

    A buffer is its [m_vec], a list of bytes kept as integers of [0, 256).  The
    accessors are translated with their list of (shift, position) pairs, in the
    order of the source; [at_] and [set_at] are [std::vector::at], which throws
    [std::out_of_range].  The theorems say that every accessor reads or writes
    exactly the slice of its width, with the endianness in its name. *)

From Stdlib Require Import ZArith Lia.
From S2P Require Import Prelude.

Local Open Scope nat_scope.

Module ByteBuffer.

Definition at_ (pos : nat) (bb : list Z) : result Z :=
  match bb !! pos with Some b => Ok b | None => Throw out_of_range end.

Definition set_at (pos : nat) (b : Z) : M (list Z) unit := λ bb,
  if decide (pos < length bb) then (Ok tt, <[pos := b]> bb) else (Throw out_of_range, bb).

(** [ByteBuffer(len)] *)
Definition make (len : nat) : list Z := replicate len 0%Z.

(** [T(in << BITS)] for an unsigned [T] of [w] bits *)
Definition typed_shift (w bits in_ : Z) : Z := wrap w (Z.shiftl in_ bits).

(** [uint8_t((in >> BITS) & 0xFF)] *)
Definition typed_mask (bits in_ : Z) : Z := wrap 8 (Z.land (Z.shiftr in_ bits) 255).

(** [typed_shift<T, b0>(at(pos + o0)) | typed_shift<T, b1>(at(pos + o1)) | ...] *)
Fixpoint gather (w acc : Z) (pos : nat) (parts : list (nat * nat)) (bb : list Z) : result Z :=
  match parts with
  | [] => Ok acc
  | (bits, off) :: parts' =>
      b ← at_ (pos + off) bb;
      gather w (Z.lor acc (typed_shift w (Z.of_nat bits) b)) pos parts' bb
  end.

(** [at(pos + o0) = typed_mask<T, b0>(value); at(pos + o1) = ...; ...] *)
Fixpoint scatter (pos : nat) (parts : list (nat * nat)) (value : Z) : M (list Z) unit :=
  match parts with
  | [] => mret tt
  | (bits, off) :: parts' =>
      set_at (pos + off) (typed_mask (Z.of_nat bits) value) ≫= λ _, scatter pos parts' value
  end.

Definition le16 : list (nat * nat) := [(0, 0); (8, 1)].
Definition le32 : list (nat * nat) := [(0, 0); (8, 1); (16, 2); (24, 3)].
Definition le48 : list (nat * nat) := [(0, 0); (8, 1); (16, 2); (24, 3); (32, 4); (40, 5)].
Definition le64 : list (nat * nat) :=
  [(0, 0); (8, 1); (16, 2); (24, 3); (32, 4); (40, 5); (48, 6); (56, 7)].
Definition be16 : list (nat * nat) := [(0, 1); (8, 0)].
Definition be32 : list (nat * nat) := [(0, 3); (8, 2); (16, 1); (24, 0)].
Definition be48 : list (nat * nat) := [(0, 5); (8, 4); (16, 3); (24, 2); (32, 1); (40, 0)].
Definition be64 : list (nat * nat) :=
  [(0, 7); (8, 6); (16, 5); (24, 4); (32, 3); (40, 2); (48, 1); (56, 0)].

Definition get_le16 (pos : nat) (bb : list Z) : result Z := gather 16 0 pos le16 bb.
Definition get_le32 (pos : nat) (bb : list Z) : result Z := gather 32 0 pos le32 bb.
Definition get_le48 (pos : nat) (bb : list Z) : result Z := gather 64 0 pos le48 bb.
Definition get_le64 (pos : nat) (bb : list Z) : result Z := gather 64 0 pos le64 bb.
Definition get_be16 (pos : nat) (bb : list Z) : result Z := gather 16 0 pos be16 bb.
Definition get_be32 (pos : nat) (bb : list Z) : result Z := gather 32 0 pos be32 bb.
Definition get_be48 (pos : nat) (bb : list Z) : result Z := gather 64 0 pos be48 bb.
Definition get_be64 (pos : nat) (bb : list Z) : result Z := gather 64 0 pos be64 bb.

(** The argument is converted to the parameter's type. *)
Definition set_le16 (pos : nat) (value : Z) : M (list Z) unit := scatter pos le16 (wrap 16 value).
Definition set_le32 (pos : nat) (value : Z) : M (list Z) unit := scatter pos le32 (wrap 32 value).
Definition set_le48 (pos : nat) (value : Z) : M (list Z) unit := scatter pos le48 (wrap 64 value).
Definition set_le64 (pos : nat) (value : Z) : M (list Z) unit := scatter pos le64 (wrap 64 value).
Definition set_be16 (pos : nat) (value : Z) : M (list Z) unit := scatter pos be16 (wrap 16 value).
Definition set_be32 (pos : nat) (value : Z) : M (list Z) unit := scatter pos be32 (wrap 32 value).
Definition set_be48 (pos : nat) (value : Z) : M (list Z) unit := scatter pos be48 (wrap 64 value).
Definition set_be64 (pos : nat) (value : Z) : M (list Z) unit := scatter pos be64 (wrap 64 value).

(** ** Bytes and shifts *)

Lemma typed_mask_spec k v : (0 ≤ k)%Z → typed_mask k v = ((v / 2 ^ k) mod 256)%Z.
Proof.
  intros Hk. unfold typed_mask, wrap. change 255%Z with (Z.ones 8).
  rewrite Z.land_ones, Z.shiftr_div_pow2 by lia. change (2 ^ 8)%Z with 256%Z.
  by rewrite Z.mod_mod.
Qed.

Lemma lor_typed_shift w k acc b :
  (0 ≤ k)%Z → (k + 8 ≤ w)%Z → (0 ≤ acc < 2 ^ k)%Z → is_byte b →
  Z.lor acc (typed_shift w k b) = (acc + b * 2 ^ k)%Z.
Proof.
  intros Hk Hw Hacc Hb. unfold is_byte in Hb. unfold typed_shift, wrap.
  assert (2 ^ w = 2 ^ (w - k - 8) * (256 * 2 ^ k))%Z as Hp.
  { change 256%Z with (2 ^ 8)%Z. rewrite <- !Z.pow_add_r by lia. f_equal. lia. }
  assert (0 < 2 ^ (w - k - 8))%Z by (apply Z.pow_pos_nonneg; lia).
  rewrite Z.shiftl_mul_pow2, Z.mod_small by nia.
  rewrite <- (Z.shiftl_mul_pow2 b k) at 1 by lia. by apply lor_shiftl_add.
Qed.

(** A gather over increasing shifts is the little-endian value of the bytes it
    reads, in the order it reads them. *)
Lemma gather_bytes w pos bb bs offs k acc :
  Forall is_byte bs → (0 ≤ acc < 2 ^ (8 * Z.of_nat k))%Z →
  (8 * (Z.of_nat k + Z.of_nat (length bs)) ≤ w)%Z →
  Forall2 (λ off b, bb !! (pos + off) = Some b) offs bs →
  gather w acc pos (zip ((λ i, 8 * i) <$> seq k (length bs)) offs) bb =
  Ok (acc + 2 ^ (8 * Z.of_nat k) * le_val bs)%Z.
Proof.
  intros Hb. revert offs k acc.
  induction Hb as [|b bs Hb Hbs IH]; intros offs k acc Hacc Hw Hoffs.
  { simpl. f_equal. lia. }
  inversion Hoffs as [|off b' offs' bs' Hoff Hoffs' E1 E2]; subst.
  cbn [length seq fmap list_fmap zip zip_with gather].
  unfold at_. rewrite Hoff. cbn [mbind result_bind].
  replace (Z.of_nat (8 * k)) with (8 * Z.of_nat k)%Z by lia.
  simpl in Hw. rewrite lor_typed_shift by (lia || done).
  assert (2 ^ (8 * Z.of_nat (S k)) = 256 * 2 ^ (8 * Z.of_nat k))%Z as Hp.
  { rewrite Nat2Z.inj_succ, Z.mul_succ_r, Z.pow_add_r by lia.
    change (2 ^ 8)%Z with 256%Z. lia. }
  unfold is_byte in Hb.
  rewrite IH; [|rewrite Hp; nia|lia|done].
  f_equal. rewrite Hp. cbn [le_val]. dlia.
Qed.

Section accessors.
Context (bb : list Z).

Lemma gather_le w n pos :
  Forall is_byte (slice pos n bb) → (8 * Z.of_nat n ≤ w)%Z → pos + n ≤ length bb →
  gather w 0 pos (zip ((λ i, 8 * i) <$> seq 0 n) (seq 0 n)) bb =
  Ok (le_val (slice pos n bb)).
Proof.
  intros Hbytes Hw Hlen. pose proof (length_slice pos n bb Hlen) as Hl.
  rewrite <- Hl at 1. rewrite gather_bytes.
  - f_equal; lia.
  - done.
  - lia.
  - lia.
  - apply Forall2_same_length_lookup. split; [by rewrite length_seq|].
    intros i x y Hi Hy. apply lookup_seq in Hi as [-> Hi].
    by rewrite <- Hy, slice_lookup.
Qed.

Lemma gather_be w n pos :
  Forall is_byte (slice pos n bb) → (8 * Z.of_nat n ≤ w)%Z → pos + n ≤ length bb →
  gather w 0 pos (zip ((λ i, 8 * i) <$> seq 0 n) (reverse (seq 0 n))) bb =
  Ok (le_val (reverse (slice pos n bb))).
Proof.
  intros Hbytes Hw Hlen. pose proof (length_slice pos n bb Hlen) as Hl.
  replace (seq 0 n) with (seq 0 (length (reverse (slice pos n bb)))) at 1
    by (by rewrite length_reverse, Hl).
  rewrite gather_bytes.
  - f_equal; lia.
  - by apply Forall_reverse.
  - lia.
  - rewrite length_reverse. lia.
  - apply Forall2_reverse, Forall2_same_length_lookup.
    split; [by rewrite length_seq|].
    intros i x y Hi Hy. apply lookup_seq in Hi as [-> Hi].
    by rewrite <- Hy, slice_lookup.
Qed.
End accessors.

(** ** Writes *)

Lemma set_at_app pre l i b :
  i < length l → set_at (length pre + i) b (pre ++ l) = (Ok tt, pre ++ <[i := b]> l).
Proof.
  intros H. unfold set_at. rewrite decide_True by len. by rewrite insert_app_r.
Qed.

(** A scatter that stays inside the [mid] part of a buffer leaves the rest. *)
Lemma scatter_app pre mid post parts v :
  Forall (λ p, p.2 < length mid) parts →
  scatter (length pre) parts v (pre ++ mid ++ post) =
  (Ok tt, pre ++ foldl (λ l p, <[p.2 := typed_mask (Z.of_nat p.1) v]> l) mid parts ++ post).
Proof.
  intros Hin. revert mid Hin. induction parts as [|[bits off] parts IH]; intros mid Hin; [done|].
  apply Forall_cons_1 in Hin as [Hoff Hin]. simpl in Hoff. cbn [scatter].
  unfold mbind, M_bind. rewrite set_at_app by len.
  rewrite insert_app_l by done. rewrite IH; [done|].
  eapply list.Forall_impl; [exact Hin|]. intros [??] ?; simpl in *. by rewrite length_insert.
Qed.

Lemma le_bytes_nth n v i :
  i < n → le_bytes n v !! i = Some (typed_mask (Z.of_nat (8 * i)) v).
Proof.
  revert v i. induction n as [|n IH]; intros v i Hi; [lia|]. destruct i as [|i]; simpl.
  - rewrite typed_mask_spec by lia. f_equal. by rewrite Z.div_1_r.
  - rewrite IH by lia. f_equal. rewrite !typed_mask_spec by lia. f_equal.
    rewrite Z.div_div by lia. f_equal.
    change 256%Z with (2 ^ 8)%Z. rewrite <- Z.pow_add_r by lia. f_equal. lia.
Qed.

Lemma le_bytes_masks n v :
  le_bytes n v = (λ i, typed_mask (Z.of_nat (8 * i)) v) <$> seq 0 n.
Proof.
  apply list_eq; intros i. rewrite list_lookup_fmap.
  destruct (decide (i < n)) as [Hi|Hi].
  - rewrite le_bytes_nth by done. by rewrite lookup_seq_lt.
  - rewrite lookup_ge_None_2 by len. by rewrite lookup_seq_ge by lia.
Qed.

(** Specialise [scatter_app] to a given width: the bytes written are those of
    [rhs]. *)
Ltac scatter_tac n :=
  let H := fresh in
  intros H;
  destruct (splice_decompose _ n _ H) as (pre & mid & post & -> & <- & ? & _ & Hs);
  rewrite Hs by (rewrite ?length_reverse, ?length_le_bytes; done);
  rewrite scatter_app by (repeat constructor; simpl; lia);
  f_equal; f_equal; f_equal;
  repeat (destruct mid as [|? mid]; [exfalso; simpl in *; lia|]);
  destruct mid; [|simpl in *; lia];
  rewrite le_bytes_masks; reflexivity.

Section writes.
Context (pos : nat) (bb : list Z).

Lemma scatter_le16 v :
  pos + 2 ≤ length bb → scatter pos le16 v bb = (Ok tt, splice pos (le_bytes 2 v) bb).
Proof. scatter_tac 2. Qed.
Lemma scatter_le32 v :
  pos + 4 ≤ length bb → scatter pos le32 v bb = (Ok tt, splice pos (le_bytes 4 v) bb).
Proof. scatter_tac 4. Qed.
Lemma scatter_le48 v :
  pos + 6 ≤ length bb → scatter pos le48 v bb = (Ok tt, splice pos (le_bytes 6 v) bb).
Proof. scatter_tac 6. Qed.
Lemma scatter_le64 v :
  pos + 8 ≤ length bb → scatter pos le64 v bb = (Ok tt, splice pos (le_bytes 8 v) bb).
Proof. scatter_tac 8. Qed.
Lemma scatter_be16 v :
  pos + 2 ≤ length bb → scatter pos be16 v bb = (Ok tt, splice pos (reverse (le_bytes 2 v)) bb).
Proof. scatter_tac 2. Qed.
Lemma scatter_be32 v :
  pos + 4 ≤ length bb → scatter pos be32 v bb = (Ok tt, splice pos (reverse (le_bytes 4 v)) bb).
Proof. scatter_tac 4. Qed.
Lemma scatter_be48 v :
  pos + 6 ≤ length bb → scatter pos be48 v bb = (Ok tt, splice pos (reverse (le_bytes 6 v)) bb).
Proof. scatter_tac 6. Qed.
Lemma scatter_be64 v :
  pos + 8 ≤ length bb → scatter pos be64 v bb = (Ok tt, splice pos (reverse (le_bytes 8 v)) bb).
Proof. scatter_tac 8. Qed.
End writes.

(** ** The accessors, one by one *)

Inductive accessor := LE16 | LE32 | LE48 | LE64 | BE16 | BE32 | BE48 | BE64.

Definition getter (a : accessor) : nat → list Z → result Z :=
  match a with
  | LE16 => get_le16 | LE32 => get_le32 | LE48 => get_le48 | LE64 => get_le64
  | BE16 => get_be16 | BE32 => get_be32 | BE48 => get_be48 | BE64 => get_be64
  end.

Definition setter (a : accessor) : nat → Z → M (list Z) unit :=
  match a with
  | LE16 => set_le16 | LE32 => set_le32 | LE48 => set_le48 | LE64 => set_le64
  | BE16 => set_be16 | BE32 => set_be32 | BE48 => set_be48 | BE64 => set_be64
  end.

(** Width in bytes, from the accessor's name. *)
Definition width (a : accessor) : nat :=
  match a with
  | LE16 | BE16 => 2 | LE32 | BE32 => 4 | LE48 | BE48 => 6 | LE64 | BE64 => 8
  end.

Definition big_endian (a : accessor) : bool :=
  match a with LE16 | LE32 | LE48 | LE64 => false | _ => true end.

(** Reference semantics of the two byte orders. *)
Definition encode (a : accessor) (v : Z) : list Z :=
  let bs := le_bytes (width a) v in if big_endian a then reverse bs else bs.
Definition decode (a : accessor) (bs : list Z) : Z :=
  le_val (if big_endian a then reverse bs else bs).

Lemma length_encode a v : length (encode a v) = width a.
Proof. unfold encode. destruct (big_endian a); rewrite ?length_reverse; len. Qed.

Lemma encode_byte a v : Forall is_byte (encode a v).
Proof.
  unfold encode. destruct (big_endian a); [apply Forall_reverse|]; apply le_bytes_byte.
Qed.

Lemma codec_decode_encode a v : decode a (encode a v) = (v mod 2 ^ (8 * Z.of_nat (width a)))%Z.
Proof.
  unfold decode, encode. destruct (big_endian a); rewrite ?reverse_involutive; apply le_val_bytes.
Qed.

Lemma getter_spec a pos bb :
  Forall is_byte (slice pos (width a) bb) → pos + width a ≤ length bb →
  getter a pos bb = Ok (decode a (slice pos (width a) bb)).
Proof.
  intros Hb Hlen. destruct a; simpl in Hlen.
  - exact (gather_le bb 16 2 pos Hb ltac:(lia) Hlen).
  - exact (gather_le bb 32 4 pos Hb ltac:(lia) Hlen).
  - exact (gather_le bb 64 6 pos Hb ltac:(lia) Hlen).
  - exact (gather_le bb 64 8 pos Hb ltac:(lia) Hlen).
  - exact (gather_be bb 16 2 pos Hb ltac:(lia) Hlen).
  - exact (gather_be bb 32 4 pos Hb ltac:(lia) Hlen).
  - exact (gather_be bb 64 6 pos Hb ltac:(lia) Hlen).
  - exact (gather_be bb 64 8 pos Hb ltac:(lia) Hlen).
Qed.

Lemma setter_spec a pos v bb :
  pos + width a ≤ length bb →
  setter a pos v bb = (Ok tt, splice pos (encode a v) bb).
Proof.
  intros Hlen. destruct a; simpl in Hlen; cbn [setter encode width big_endian];
    unfold set_le16, set_le32, set_le48, set_le64, set_be16, set_be32, set_be48, set_be64;
    rewrite ?scatter_le16, ?scatter_le32, ?scatter_le48, ?scatter_le64,
      ?scatter_be16, ?scatter_be32, ?scatter_be48, ?scatter_be64 by done;
    by rewrite le_bytes_wrap by lia.
Qed.

(** Reading a slice that holds an encoded value. *)
Lemma getter_slice a pos v bb :
  slice pos (width a) bb = encode a v → in_range (8 * Z.of_nat (width a)) v →
  getter a pos bb = Ok v.
Proof.
  intros Hs Hv. rewrite getter_spec; rewrite ?Hs.
  - rewrite codec_decode_encode. f_equal. by apply Z.mod_small.
  - apply encode_byte.
  - pose proof (length_encode a v) as Hl. rewrite <- Hs in Hl. unfold slice in Hl.
    rewrite length_take, length_drop in Hl. assert (0 < width a) by (destruct a; simpl; lia). lia.
Qed.

(** ** Programs that write

    [writes m p xs]: on a buffer that is long enough, [m] succeeds and its whole
    effect is to put the bytes [xs] at position [p]. *)
Definition writes (m : M (list Z) unit) (p : nat) (xs : list Z) : Prop :=
  ∀ bb, p + length xs ≤ length bb → m bb = (Ok tt, splice p xs bb).

Lemma writes_setter a pos p v : pos = p → writes (setter a pos v) p (encode a v).
Proof. intros <- bb H. rewrite length_encode in H. by apply setter_spec. Qed.

Lemma writes_seq m1 m2 p xs ys :
  writes m1 p xs → writes m2 (p + length xs) ys →
  writes (m1;; m2) p (xs ++ ys).
Proof.
  intros H1 H2 bb Hlen. rewrite length_app in Hlen.
  unfold mbind, M_bind. rewrite H1 by lia. rewrite H2 by (rewrite length_splice; lia).
  by rewrite splice_splice_adj by lia.
Qed.

Lemma writes_ret p : writes (mret tt) p [].
Proof.
  intros bb _. unfold splice. simpl. by rewrite Nat.add_0_r, take_drop.
Qed.

Lemma setter_out_of_range a pos v bb :
  length bb < pos + width a → (setter a pos v bb).1 = Throw out_of_range.
Proof.
  intros Hlen. destruct a; simpl in Hlen; unfold setter, set_le16, set_le32, set_le48, set_le64,
    set_be16, set_be32, set_be48, set_be64, scatter, le16, le32, le48, le64, be16, be32, be48, be64;
    unfold mbind, M_bind, set_at;
    repeat (case_decide; autorewrite with psme in *; [|done]); simpl; lia.
Qed.

Lemma at_None pos bb : length bb ≤ pos → at_ pos bb = Throw out_of_range.
Proof. intros H. unfold at_. by rewrite lookup_ge_None_2. Qed.

Lemma gather_out_of_range w pos parts bb : ∀ acc,
  Exists (λ p, length bb ≤ pos + p.2) parts →
  gather w acc pos parts bb = Throw out_of_range.
Proof.
  intros acc H. revert acc.
  induction H as [[bits off] parts H|[bits off] parts H IH]; intros acc; cbn [gather].
  - simpl in H. by rewrite at_None.
  - unfold at_. destruct (bb !! _); [apply IH|done].
Qed.

Lemma getter_out_of_range a pos bb :
  length bb < pos + width a → getter a pos bb = Throw out_of_range.
Proof.
  intros Hlen. destruct a; simpl in Hlen; apply gather_out_of_range;
    unfold le16, le32, le48, le64, be16, be32, be48, be64;
    solve [repeat first [apply Exists_cons_hd; simpl; lia | apply Exists_cons_tl]].
Qed.

(** What a reader returns fits its width. *)
Lemma getter_range a p l v :
  Forall is_byte l → getter a p l = Ok v → in_range (8 * Z.of_nat (width a)) v.
Proof.
  intros Hl Hg. destruct (decide (p + width a ≤ length l)) as [Hle|Hgt].
  - rewrite getter_spec in Hg by (done || by apply Forall_slice). injection Hg as <-.
    unfold decode. pose proof (Forall_slice _ p (width a) l Hl) as Hs.
    pose proof (length_slice p (width a) l Hle) as Hn. unfold in_range.
    destruct (big_endian a).
    + pose proof (le_val_bound _ (proj2 (Forall_reverse _ _) Hs)) as Hv.
      by rewrite length_reverse, Hn in Hv.
    + pose proof (le_val_bound _ Hs) as Hv. by rewrite Hn in Hv.
  - by rewrite getter_out_of_range in Hg by lia.
Qed.

(** ** [utils::byte_swap_*] *)

Definition byte_swap_16 (value : Z) : Z :=
  wrap 16 (Z.lor (Z.shiftl value 8) (Z.shiftr value 8)).

Definition byte_swap_32 (value : Z) : Z :=
  let low_bytes := byte_swap_16 (wrap 16 value) in
  let high_bytes := byte_swap_16 (wrap 16 (Z.shiftr value 16)) in
  Z.lor (wrap 32 (Z.shiftl low_bytes 16)) high_bytes.

Definition byte_swap_64 (value : Z) : Z :=
  let low_bytes := byte_swap_32 (wrap 32 value) in
  let high_bytes := byte_swap_32 (wrap 32 (Z.shiftr value 32)) in
  Z.lor (wrap 64 (Z.shiftl low_bytes 32)) high_bytes.

Lemma byte_swap_16_spec v :
  in_range 16 v → byte_swap_16 v = le_val (reverse (le_bytes 2 v)).
Proof.
  unfold in_range. intros Hv. unfold byte_swap_16, wrap.
  rewrite Z.shiftr_div_pow2 by lia. rewrite Z.lor_comm, lor_shiftl_add by (zpow; dlia). zpow.
  change (reverse (le_bytes 2 v)) with [(v / 256) mod 256; v mod 256]%Z. cbn [le_val]. dlia.
Qed.

Lemma swap_range n v : in_range (8 * Z.of_nat n) (le_val (reverse (le_bytes n v))).
Proof.
  pose proof (le_val_bound (reverse (le_bytes n v)) (proj2 (Forall_reverse _ _) (le_bytes_byte n v))) as H.
  by rewrite length_reverse, length_le_bytes in H.
Qed.

(** Swapping the halves and the bytes inside them reverses all the bytes. *)
Lemma swap_halves n w v :
  (w = 16 * Z.of_nat n)%Z → in_range w v →
  Z.lor (wrap w (Z.shiftl (le_val (reverse (le_bytes n (wrap (8 * Z.of_nat n) v)))) (8 * Z.of_nat n)))
    (le_val (reverse (le_bytes n (wrap (8 * Z.of_nat n) (Z.shiftr v (8 * Z.of_nat n)))))) =
  le_val (reverse (le_bytes (n + n) v)).
Proof.
  intros -> Hv. rewrite !le_bytes_wrap by lia. rewrite Z.shiftr_div_pow2 by lia.
  pose proof (swap_range n v) as H1. pose proof (swap_range n (v / 2 ^ (8 * Z.of_nat n))) as H2.
  unfold in_range in *. rewrite wrap_small.
  - rewrite Z.lor_comm, lor_shiftl_add by lia.
    rewrite le_bytes_app, reverse_app, le_val_app, length_reverse, length_le_bytes. lia.
  - unfold in_range. rewrite Z.shiftl_mul_pow2 by lia.
    replace (16 * Z.of_nat n)%Z with (8 * Z.of_nat n + 8 * Z.of_nat n)%Z by lia.
    rewrite Z.pow_add_r by lia. nia.
Qed.

Lemma byte_swap_32_spec v :
  in_range 32 v → byte_swap_32 v = le_val (reverse (le_bytes 4 v)).
Proof.
  intros Hv. unfold byte_swap_32. rewrite !byte_swap_16_spec by (apply wrap_range; lia).
  apply (swap_halves 2 32); [lia|done].
Qed.

Lemma byte_swap_64_spec v :
  in_range 64 v → byte_swap_64 v = le_val (reverse (le_bytes 8 v)).
Proof.
  intros Hv. unfold byte_swap_64. rewrite !byte_swap_32_spec by (apply wrap_range; lia).
  apply (swap_halves 4 64); [lia|done].
Qed.

(** ** Properties *)

(** Every pair of accessors [get_le16]/[set_le16] ... [get_be64]/[set_be64]
    of [ByteBuffer] is a codec of its width and byte order.  A [set] that fits in
    the buffer succeeds, keeps the buffer's length, stores exactly the bytes of
    the value in the byte order of its name, leaves every other byte alone, and
    the matching [get] returns the value truncated to its width. *)
Theorem set_get_roundtrip (a : accessor) (pos : nat) (v : Z) (bb : list Z)
    (Hbytes : Forall is_byte bb) (Hfit : pos + width a ≤ length bb) :
  ∃ bb', setter a pos v bb = (Ok tt, bb') ∧
    length bb' = length bb ∧ Forall is_byte bb' ∧
    slice pos (width a) bb' = encode a v ∧
    (∀ i, i < pos ∨ pos + width a ≤ i → bb' !! i = bb !! i) ∧
    getter a pos bb' = Ok (v mod 2 ^ (8 * Z.of_nat (width a)))%Z.
Proof.
  exists (splice pos (encode a v) bb). pose proof (length_encode a v) as Hl.
  assert (length (splice pos (encode a v) bb) = length bb) as Hlen by (apply length_splice; lia).
  assert (Forall is_byte (splice pos (encode a v) bb)) as Hb
    by (apply Forall_splice; [apply encode_byte|done]).
  assert (slice pos (width a) (splice pos (encode a v) bb) = encode a v) as Hs
    by (rewrite <- Hl; apply slice_splice_same; lia).
  split_and!; try done.
  - by apply setter_spec.
  - intros i Hi. apply lookup_splice_other; lia.
  - rewrite getter_spec, Hs; [by rewrite codec_decode_encode|by apply Forall_slice|lia].
Qed.

Lemma set_get_roundtrip_witness :
  ∃ bb', setter BE48 1 0xAABBCCDDEEFF (make 8) = (Ok tt, bb') ∧
    getter BE48 1 bb' = Ok (0xAABBCCDDEEFF mod 2 ^ 48)%Z.
Proof.
  destruct (set_get_roundtrip BE48 1 0xAABBCCDDEEFF (make 8)) as (bb' & H1 & _ & _ & _ & _ & H2).
  - repeat constructor; unfold is_byte; lia.
  - simpl; lia.
  - exists bb'. split; [exact H1|exact H2].
Defined.

(** An access that does not fit is refused with [std::out_of_range], by
    every reader and every writer. *)
Theorem accessors_out_of_range (a : accessor) (pos : nat) (v : Z) (bb : list Z)
    (Hover : length bb < pos + width a) :
  getter a pos bb = Throw out_of_range ∧ (setter a pos v bb).1 = Throw out_of_range.
Proof. split; [by apply getter_out_of_range|by apply setter_out_of_range]. Qed.

Lemma accessors_out_of_range_witness :
  getter LE32 1 (make 4) = Throw out_of_range ∧ (setter LE32 1 7 (make 4)).1 = Throw out_of_range.
Proof. apply (accessors_out_of_range LE32 1 7 (make 4)). simpl. lia. Defined.

(** [byte_swap_64] (and the 32 and 16 bit versions it is built from)
    reverses the bytes of its argument, so it converts between the two byte
    orders, and swapping twice is the identity. *)
Theorem byte_swap_correct (v16 v32 v64 : Z)
    (H16 : in_range 16 v16) (H32 : in_range 32 v32) (H64 : in_range 64 v64) :
  byte_swap_16 v16 = decode BE16 (encode LE16 v16) ∧
  byte_swap_32 v32 = decode BE32 (encode LE32 v32) ∧
  byte_swap_64 v64 = decode BE64 (encode LE64 v64) ∧
  byte_swap_64 (byte_swap_64 v64) = v64.
Proof.
  split_and!.
  - by apply byte_swap_16_spec.
  - by apply byte_swap_32_spec.
  - by apply byte_swap_64_spec.
  - rewrite (byte_swap_64_spec v64) by done. rewrite byte_swap_64_spec by apply (swap_range 8).
    pose proof (le_bytes_val (reverse (le_bytes 8 v64))
      (proj2 (Forall_reverse _ _) (le_bytes_byte 8 v64))) as E.
    rewrite length_reverse, length_le_bytes in E. rewrite E, reverse_involutive.
    rewrite le_val_bytes. by apply Z.mod_small.
Qed.

Lemma byte_swap_correct_witness :
  byte_swap_64 (byte_swap_64 0x0102030405060708) = 0x0102030405060708%Z ∧
  byte_swap_64 0x0102030405060708 = 0x0807060504030201%Z.
Proof.
  destruct (byte_swap_correct 1 1 0x0102030405060708) as (_ & _ & H & H').
  1-3: unfold in_range; lia.
  split; [exact H'|exact H].
Defined.

End ByteBuffer.
