(* ===== verification/Base64.v ===== *)
(** [base64::Base64] (PSME/common/base64/src/base64.cpp): RFC 4648 encoding with
    a caller-chosen alphabet and the lenient decoder.

    Strings are lists of characters, characters their codes in [0, 256).  The
    decoder's loop is a fold over the input of the state [(result, tmp, q, p)] of
    the source: the quadruplet buffer, the index in it and the number of padding
    characters seen.  The theorems: decoding an encoding gives the data back for
    both alphabets, also with ignored characters interspersed; the
    decoder never reads a cell of [tmp] it has not written when it returns. *)

From Stdlib Require Import ZArith Lia.
From S2P Require Import Prelude.

Local Open Scope Z_scope.

Module Base64.

Definition BASE64URL_ALPHABET : list Z :=
  Eval vm_compute in chars "ABCDEFGHIJKLMNOPQRSTUVWXYZabcdefghijklmnopqrstuvwxyz0123456789-_".
Definition BASE64_ALPHABET : list Z :=
  Eval vm_compute in chars "ABCDEFGHIJKLMNOPQRSTUVWXYZabcdefghijklmnopqrstuvwxyz0123456789+/".

Definition BASE64_PAD : Z := 61.

(** [alphabet[i]]; the indices computed below are always less than 64. *)
Definition alpha (alphabet : list Z) (i : Z) : Z := default 0 (alphabet !! Z.to_nat i).

(** The loop [for (; input_size > pos; pos += 3)] *)
Fixpoint encode (alphabet : list Z) (input : list Z) : list Z :=
  match input with
  | [] => []
  | b0 :: b1 :: b2 :: rest =>
      alpha alphabet (Z.shiftr (Z.land b0 0xfc) 2)
      :: alpha alphabet (Z.shiftl (Z.land b0 0x03) 4 + Z.shiftr (Z.land b1 0xf0) 4)
      :: alpha alphabet (Z.shiftl (Z.land b1 0x0f) 2 + Z.shiftr (Z.land b2 0xc0) 6)
      :: alpha alphabet (Z.land b2 0x3f)
      :: encode alphabet rest
  | [b0; b1] =>
      [alpha alphabet (Z.shiftr (Z.land b0 0xfc) 2);
       alpha alphabet (Z.shiftl (Z.land b0 0x03) 4 + Z.shiftr (Z.land b1 0xf0) 4);
       alpha alphabet (Z.shiftl (Z.land b1 0x0f) 2);
       BASE64_PAD]
  | [b0] =>
      [alpha alphabet (Z.shiftr (Z.land b0 0xfc) 2);
       alpha alphabet (Z.shiftl (Z.land b0 0x03) 4);
       BASE64_PAD;
       BASE64_PAD]
  end.

Definition encode_std (input : list Z) : list Z := encode BASE64_ALPHABET input.
Definition encodeUrl (input : list Z) : list Z := encode BASE64URL_ALPHABET input.

Definition BASE64_DICT : list Z :=
  replicate 0x28 0x80 ++
  [0x80; 0x80; 0x80; 0x3e; 0x80; 0x3e; 0x80; 0x3f; (* 0x28 *)
   0x34; 0x35; 0x36; 0x37; 0x38; 0x39; 0x3a; 0x3b; (* 0x30 *)
   0x3c; 0x3d; 0x80; 0x80; 0x80; 0x82; 0x80; 0x80; (* 0x38 *)
   0x80; 0x00; 0x01; 0x02; 0x03; 0x04; 0x05; 0x06; (* 0x40 *)
   0x07; 0x08; 0x09; 0x0a; 0x0b; 0x0c; 0x0d; 0x0e; (* 0x48 *)
   0x0f; 0x10; 0x11; 0x12; 0x13; 0x14; 0x15; 0x16; (* 0x50 *)
   0x17; 0x18; 0x19; 0x80; 0x80; 0x80; 0x80; 0x3f; (* 0x58 *)
   0x80; 0x1a; 0x1b; 0x1c; 0x1d; 0x1e; 0x1f; 0x20; (* 0x60 *)
   0x21; 0x22; 0x23; 0x24; 0x25; 0x26; 0x27; 0x28; (* 0x68 *)
   0x29; 0x2a; 0x2b; 0x2c; 0x2d; 0x2e; 0x2f; 0x30; (* 0x70 *)
   0x31; 0x32; 0x33; 0x80; 0x80; 0x80; 0x80; 0x80] (* 0x78 *)
  ++ replicate 0x80 0x80.

Definition dict (ch : Z) : Z := default 0x80 (BASE64_DICT !! Z.to_nat (wrap 8 ch)).

(** [uint8_t tmp[4]] starts uninitialised: a cell is [None] until it is written. *)
Record dstate := DState {
  result_ : list Z;
  tmp : list (option Z);
  q : nat;
  p : Z;
}.

Definition tmp_at (st : dstate) (i : nat) : result Z :=
  match tmp st !! i with
  | Some (Some v) => Ok v
  | _ => Throw undefined_behaviour
  end.

(** [result.push_back(e)] converts to [uint8_t]. *)
Definition push (b : Z) (st : dstate) : dstate :=
  DState (result_ st ++ [wrap 8 b]) (tmp st) (q st) (p st).

Definition out0 (st : dstate) : result Z :=
  t0 ← tmp_at st 0; t1 ← tmp_at st 1;
  Ok (Z.shiftl t0 2 + Z.shiftr (Z.land t1 0x30) 4).
Definition out1 (st : dstate) : result Z :=
  t1 ← tmp_at st 1; t2 ← tmp_at st 2;
  Ok (Z.shiftl (Z.land t1 0x0f) 4 + Z.shiftr (Z.land t2 0x3c) 2).
Definition out2 (st : dstate) : result Z :=
  t2 ← tmp_at st 2; t3 ← tmp_at st 3;
  Ok (Z.shiftl (Z.land t2 0x03) 6 + t3).

(** One iteration of [while (pos < input.size())] *)
Definition decode_step (st : dstate) (ch : Z) : result dstate :=
  let c := dict ch in
  if decide (p st = 0 ∧ c < 0x40) then
    let st1 := DState (result_ st) (<[q st := Some c]> (tmp st)) ((q st + 1) mod 4)%nat (p st) in
    if decide (q st1 = 0%nat) then
      b0 ← out0 st1; b1 ← out1 st1; b2 ← out2 st1;
      Ok (push b2 (push b1 (push b0 st1)))
    else Ok st1
  else if decide (c = 0x82) then
    Ok (DState (result_ st) (tmp st) (q st) (wrap 64 (p st + 1)))
  else Ok st.

Fixpoint decode_loop (st : dstate) (input : list Z) : result dstate :=
  match input with
  | [] => Ok st
  | ch :: input' => st' ← decode_step st ch; decode_loop st' input'
  end.

Definition decode_init : dstate := DState [] (replicate 4 None) 0 0.

Definition decode_finish (st : dstate) : result (list Z) :=
  if decide ((wrap 64 (Z.of_nat (q st) + p st)) mod 4 ≠ 0) then
    Throw (runtime_error "Failed to parse Base64 input.")
  else if decide (p st = 0) then Ok (result_ st)
  else if decide (p st = 1) then
    b0 ← out0 st; b1 ← out1 st; Ok (result_ (push b1 (push b0 st)))
  else if decide (p st = 2) then
    b0 ← out0 st; Ok (result_ (push b0 st))
  else Throw (runtime_error "Failed to parse Base64 input.").

Definition decode (input : list Z) : result (list Z) :=
  st ← decode_loop decode_init input; decode_finish st.

Example decode_ex : decode (chars "cGFz c3dv{cmQ=") = Ok (chars "password").
Proof. vm_compute. reflexivity. Qed.
Example encode_ex : encode_std (chars "password") = chars "cGFzc3dvcmQ=".
Proof. vm_compute. reflexivity. Qed.

(** ** Arithmetic of the bit manipulations *)

Lemma land_low b k : 0 ≤ k → Z.land b (Z.ones k) = b mod 2 ^ k.
Proof. intros; by rewrite Z.land_ones. Qed.

Lemma shiftr_land_high b k n :
  0 ≤ k → 0 ≤ n → Z.shiftr (Z.land b (Z.shiftl (Z.ones n) k)) k = (b / 2 ^ k) mod 2 ^ n.
Proof.
  intros Hk Hn. rewrite Z.shiftr_land, (Z.shiftr_shiftl_l _ _ _ Hk), Z.sub_diag, Z.shiftl_0_r.
  by rewrite Z.land_ones, Z.shiftr_div_pow2.
Qed.

Lemma high6 b : Z.shiftr (Z.land b 0xfc) 2 = (b / 4) mod 64.
Proof. apply (shiftr_land_high b 2 6); lia. Qed.
Lemma high4 b : Z.shiftr (Z.land b 0xf0) 4 = (b / 16) mod 16.
Proof. apply (shiftr_land_high b 4 4); lia. Qed.
Lemma high2 b : Z.shiftr (Z.land b 0xc0) 6 = (b / 64) mod 4.
Proof. apply (shiftr_land_high b 6 2); lia. Qed.
Lemma mid2 b : Z.shiftr (Z.land b 0x30) 4 = (b / 16) mod 4.
Proof. apply (shiftr_land_high b 4 2); lia. Qed.
Lemma mid4 b : Z.shiftr (Z.land b 0x3c) 2 = (b / 4) mod 16.
Proof. apply (shiftr_land_high b 2 4); lia. Qed.
Lemma low2 b : Z.land b 0x03 = b mod 4.
Proof. apply (land_low b 2); lia. Qed.
Lemma low4 b : Z.land b 0x0f = b mod 16.
Proof. apply (land_low b 4); lia. Qed.
Lemma low6 b : Z.land b 0x3f = b mod 64.
Proof. apply (land_low b 6); lia. Qed.

(** Rewrite the masks and shifts of the source into divisions and remainders. *)
Ltac bits :=
  rewrite ?high6, ?high4, ?high2, ?mid2, ?mid4, ?low2, ?low4, ?low6;
  rewrite ?Z.shiftl_mul_pow2 by lia; unfold wrap; zpow.

(** ** The encoder's sextets *)

(** An alphabet the decoder understands. *)
Definition decodable (alphabet : list Z) : Prop :=
  ∀ i, 0 ≤ i < 64 → dict (alpha alphabet i) = i.

Definition decodableb (alphabet : list Z) : bool :=
  forallb (λ i, bool_decide (dict (alpha alphabet (Z.of_nat i)) = Z.of_nat i)) (seq 0 64).

Lemma decodableb_spec alphabet : decodableb alphabet = true → decodable alphabet.
Proof.
  unfold decodableb. rewrite forallb_forall. intros H i Hi.
  specialize (H (Z.to_nat i)). rewrite Z2Nat.id in H by lia.
  eapply bool_decide_eq_true_1, H, in_seq. lia.
Qed.

Lemma decodable_std : decodable BASE64_ALPHABET.
Proof. apply decodableb_spec. vm_compute. reflexivity. Qed.
Lemma decodable_url : decodable BASE64URL_ALPHABET.
Proof. apply decodableb_spec. vm_compute. reflexivity. Qed.

(** The four sextets of three bytes, as numbers. *)
Definition sextets (b0 b1 b2 : Z) : list Z :=
  [b0 / 4; b0 mod 4 * 16 + b1 / 16; b1 mod 16 * 4 + b2 / 64; b2 mod 64].

Section groups.
Context (alphabet : list Z).

Lemma encode_triple b0 b1 b2 rest :
  is_byte b0 → is_byte b1 → is_byte b2 →
  encode alphabet (b0 :: b1 :: b2 :: rest) =
  (alpha alphabet <$> sextets b0 b1 b2) ++ encode alphabet rest.
Proof.
  unfold is_byte. intros H0 H1 H2. cbn [encode]. unfold sextets. simpl. bits.
  repeat f_equal; dlia.
Qed.

Lemma encode_pair b0 b1 :
  is_byte b0 → is_byte b1 →
  encode alphabet [b0; b1] = (alpha alphabet <$> take 3 (sextets b0 b1 0)) ++ [BASE64_PAD].
Proof.
  unfold is_byte. intros H0 H1. cbn [encode]. unfold sextets. simpl. bits.
  repeat f_equal; dlia.
Qed.

Lemma encode_single b0 :
  is_byte b0 →
  encode alphabet [b0] =
  (alpha alphabet <$> take 2 (sextets b0 0 0)) ++ [BASE64_PAD; BASE64_PAD].
Proof.
  unfold is_byte. intros H0. cbn [encode]. unfold sextets. simpl. bits.
  repeat f_equal; dlia.
Qed.
End groups.

Lemma sextets_range b0 b1 b2 :
  is_byte b0 → is_byte b1 → is_byte b2 → Forall (λ c, 0 ≤ c < 64) (sextets b0 b1 b2).
Proof.
  unfold is_byte, sextets. intros H0 H1 H2. repeat constructor; dlia.
Qed.

(** ** The decoder's loop *)

Lemma decode_loop_app st s1 s2 :
  decode_loop st (s1 ++ s2) = (st' ← decode_loop st s1; decode_loop st' s2).
Proof.
  revert st. induction s1 as [|ch s1 IH]; intros st; [done|]. simpl.
  destruct (decode_step st ch) as [st'|e]; [apply IH|done].
Qed.

(** A character of the alphabet, between two groups or inside one. *)
Lemma decode_step_data res tm qq ch c :
  dict ch = c → 0 ≤ c < 64 → (qq < 3)%nat →
  decode_step (DState res tm qq 0) ch = Ok (DState res (<[qq := Some c]> tm) (S qq) 0).
Proof.
  intros <- Hc Hq. unfold decode_step. cbn [p q tmp result_].
  rewrite decide_True by (split; lia). rewrite Nat.add_1_r, Nat.mod_small by lia.
  by rewrite decide_False by lia.
Qed.

Lemma decode_step_pad res tm qq pp ch :
  dict ch = 0x82 → 0 ≤ pp < 8 →
  decode_step (DState res tm qq pp) ch = Ok (DState res tm qq (pp + 1)).
Proof.
  intros Hch Hp. unfold decode_step. rewrite Hch. cbn [p q tmp result_].
  rewrite decide_False by lia. rewrite decide_True by done.
  by rewrite wrap_small by (unfold in_range; zpow; lia).
Qed.

Lemma dict_pad : dict BASE64_PAD = 0x82.
Proof. reflexivity. Qed.

Section decode_groups.
Context (alphabet : list Z) (Hdec : decodable alphabet).

(** One whole group of four characters yields its three bytes. *)
Lemma decode_triple res t0 t1 t2 t3 b0 b1 b2 :
  is_byte b0 → is_byte b1 → is_byte b2 →
  decode_loop (DState res [t0; t1; t2; t3] 0 0) (alpha alphabet <$> sextets b0 b1 b2) =
  Ok (DState (res ++ [b0; b1; b2]) (Some <$> sextets b0 b1 b2) 0 0).
Proof.
  intros H0 H1 H2. pose proof (sextets_range b0 b1 b2 H0 H1 H2) as Hr.
  unfold sextets in *. rewrite !list.Forall_cons in Hr. destruct Hr as (R0 & R1 & R2 & R3 & _).
  cbn [fmap list_fmap decode_loop].
  rewrite (decode_step_data _ _ _ _ _ (Hdec _ R0) R0) by lia. cbn [mbind result_bind decode_loop].
  rewrite (decode_step_data _ _ _ _ _ (Hdec _ R1) R1) by lia. cbn [mbind result_bind decode_loop].
  rewrite (decode_step_data _ _ _ _ _ (Hdec _ R2) R2) by lia. cbn [mbind result_bind decode_loop].
  unfold decode_step. rewrite (Hdec _ R3). cbn [p q tmp result_].
  rewrite decide_True by (split; lia). cbn. rewrite decide_True by done. cbn.
  unfold push. cbn. rewrite <- !app_assoc. cbn.
  unfold is_byte in *. bits. repeat f_equal; dlia.
Qed.

Lemma decode_pair res t0 t1 t2 t3 b0 b1 :
  is_byte b0 → is_byte b1 →
  (decode_loop (DState res [t0; t1; t2; t3] 0 0)
    ((alpha alphabet <$> take 3 (sextets b0 b1 0)) ++ [BASE64_PAD])
   ≫= decode_finish) = Ok (res ++ [b0; b1]).
Proof.
  intros H0 H1. assert (is_byte 0) as H2 by (unfold is_byte; lia).
  pose proof (sextets_range b0 b1 0 H0 H1 H2) as Hr.
  unfold sextets in *. rewrite !list.Forall_cons in Hr. destruct Hr as (R0 & R1 & R2 & R3 & _).
  cbn [fmap list_fmap decode_loop take app].
  rewrite (decode_step_data _ _ _ _ _ (Hdec _ R0) R0) by lia. cbn [mbind result_bind decode_loop].
  rewrite (decode_step_data _ _ _ _ _ (Hdec _ R1) R1) by lia. cbn [mbind result_bind decode_loop].
  rewrite (decode_step_data _ _ _ _ _ (Hdec _ R2) R2) by lia. cbn [mbind result_bind decode_loop].
  rewrite decode_step_pad by (apply dict_pad || lia). cbn [mbind result_bind decode_loop].
  unfold decode_finish. cbn. repeat case_decide; try (exfalso; done).
  rewrite <- !app_assoc. cbn. unfold is_byte in *. bits. repeat f_equal; dlia.
Qed.

Lemma decode_single res t0 t1 t2 t3 b0 :
  is_byte b0 →
  (decode_loop (DState res [t0; t1; t2; t3] 0 0)
    ((alpha alphabet <$> take 2 (sextets b0 0 0)) ++ [BASE64_PAD; BASE64_PAD])
   ≫= decode_finish) = Ok (res ++ [b0]).
Proof.
  intros H0. assert (is_byte 0) as H2 by (unfold is_byte; lia).
  pose proof (sextets_range b0 0 0 H0 H2 H2) as Hr.
  unfold sextets in *. rewrite !list.Forall_cons in Hr. destruct Hr as (R0 & R1 & R2 & R3 & _).
  cbn [fmap list_fmap decode_loop take app].
  rewrite (decode_step_data _ _ _ _ _ (Hdec _ R0) R0) by lia. cbn [mbind result_bind decode_loop].
  rewrite (decode_step_data _ _ _ _ _ (Hdec _ R1) R1) by lia. cbn [mbind result_bind decode_loop].
  rewrite decode_step_pad by (apply dict_pad || lia). cbn [mbind result_bind decode_loop].
  rewrite decode_step_pad by (apply dict_pad || lia). cbn [mbind result_bind decode_loop].
  unfold decode_finish. cbn. repeat case_decide; try (exfalso; done).
  cbn. unfold is_byte in *. bits. repeat f_equal; dlia.
Qed.

(** The whole encoding, from any state between two groups. *)
Lemma decode_loop_encode : ∀ n data res tm,
  (length data ≤ n)%nat → Forall is_byte data → length tm = 4%nat →
  (decode_loop (DState res tm 0 0) (encode alphabet data) ≫= decode_finish) = Ok (res ++ data).
Proof.
  induction n as [n IH] using lt_wf_ind. intros data res tm Hn Hb Ht.
  destruct tm as [|t0 [|t1 [|t2 [|t3 [|]]]]]; try done.
  destruct data as [|b0 [|b1 [|b2 rest]]]; rewrite ?list.Forall_cons in Hb.
  - simpl. by rewrite app_nil_r.
  - rewrite encode_single by tauto. apply decode_single; tauto.
  - rewrite encode_pair by tauto. apply decode_pair; tauto.
  - destruct Hb as (B0 & B1 & B2 & Hb). simpl in Hn.
    rewrite encode_triple, decode_loop_app, decode_triple by done. cbn [mbind result_bind].
    replace (b0 :: b1 :: b2 :: rest) with ([b0; b1; b2] ++ rest) by done.
    rewrite (app_assoc res). apply (IH (length rest)); [lia|done|done|done].
Qed.
End decode_groups.

(** Characters with no meaning are skipped, wherever they are. *)
Definition significant (ch : Z) : Prop := dict ch ≠ 0x80.

#[global] Instance significant_dec ch : Decision (significant ch) := decide _.

Lemma decode_loop_filter st s :
  decode_loop st s = decode_loop st (filter significant s).
Proof.
  revert st. induction s as [|ch s IH]; intros st; [done|].
  rewrite filter_cons. case_decide as Hs; simpl.
  - destruct (decode_step st ch); [apply IH|done].
  - assert (dict ch = 0x80) as Hd by (destruct (decide (dict ch = 0x80)); [done|by destruct Hs]).
    unfold decode_step. rewrite Hd, decide_False, decide_False by lia. apply IH.
Qed.

(** ** The quadruplet buffer *)

(** What the loop maintains: the cells below [q] hold sextets. *)
Definition dstate_ok (st : dstate) : Prop :=
  length (tmp st) = 4%nat ∧ (q st < 4)%nat ∧
  ∀ i, (i < q st)%nat → ∃ c, tmp st !! i = Some (Some c).

Lemma tmp_at_ok st i c : tmp st !! i = Some (Some c) → tmp_at st i = Ok c.
Proof. intros H. unfold tmp_at. by rewrite H. Qed.

Lemma decode_step_ok st ch :
  dstate_ok st → ∃ st', decode_step st ch = Ok st' ∧ dstate_ok st'.
Proof.
  destruct st as [res tm qq pp]. intros (Hl & Hq & Hi). cbn in Hl, Hq, Hi.
  unfold decode_step. cbn [p q tmp result_]. case_decide as Hc.
  - assert (∀ i, (i ≤ qq)%nat → ∃ c, <[qq := Some (dict ch)]> tm !! i = Some (Some c)) as Hi1.
    { intros i Hle. destruct (decide (i = qq)) as [->|Hne].
      - exists (dict ch). apply list_lookup_insert_eq. lia.
      - rewrite list_lookup_insert_ne by done. apply Hi. lia. }
    destruct (decide (qq = 3%nat)) as [->|Hq3].
    + rewrite decide_True by done.
      destruct (Hi1 0%nat) as [c0 T0], (Hi1 1%nat) as [c1 T1], (Hi1 2%nat) as [c2 T2],
        (Hi1 3%nat) as [c3 T3]; [lia..|].
      unfold out0, out1, out2, tmp_at. cbn [tmp]. rewrite T0, T1, T2, T3.
      cbn. eexists. split; [done|]. split_and!; cbn; [by rewrite length_insert|lia|lia].
    + rewrite Nat.mod_small by lia. rewrite decide_False by lia. eexists. split; [done|].
      split_and!; cbn; [by rewrite length_insert|lia|].
      intros i Hlt. apply Hi1. lia.
  - case_decide; eexists; (split; [done|]); by split_and!.
Qed.

Lemma decode_loop_ok st s :
  dstate_ok st → ∃ st', decode_loop st s = Ok st' ∧ dstate_ok st'.
Proof.
  revert st. induction s as [|ch s IH]; intros st Hok; [by eexists|].
  destruct (decode_step_ok st ch Hok) as (st' & E & Hok'). simpl. rewrite E. by apply IH.
Qed.

(** ** Properties *)

(** Decoding inverts encoding.  For any alphabet whose 64 characters
    the decoder's table maps back to their index, and for any text [s] whose
    meaningful characters are the encoding of [data], [decode] returns [data];
    characters the table marks as ignored may be interspersed anywhere. *)
Theorem decode_encode (alphabet data s : list Z)
    (Halpha : decodable alphabet) (Hbytes : Forall is_byte data)
    (Hs : filter significant s = encode alphabet data) :
  decode s = Ok data.
Proof.
  unfold decode. rewrite decode_loop_filter, Hs.
  by apply (decode_loop_encode alphabet Halpha (length data)).
Qed.

Lemma decode_encode_witness :
  decode (chars "cGFz c3dv{cmQ=") = Ok (chars "password") ∧
  decode (encodeUrl [0xff; 0xfe]) = Ok [0xff; 0xfe].
Proof.
  split.
  - apply (decode_encode BASE64_ALPHABET).
    + exact decodable_std.
    + vm_compute. repeat constructor; discriminate.
    + vm_compute. reflexivity.
  - apply (decode_encode BASE64URL_ALPHABET).
    + exact decodable_url.
    + repeat constructor; unfold is_byte; lia.
    + vm_compute. reflexivity.
Defined.

(** [decode] is total and memory safe: on every input it either returns
    or throws its own [std::runtime_error]; it never uses a cell of the
    uninitialised quadruplet buffer [tmp] that it has not written. *)
Theorem decode_safe (s : list Z) :
  (∃ data, decode s = Ok data) ∨
  decode s = Throw (runtime_error "Failed to parse Base64 input.").
Proof.
  destruct (decode_loop_ok decode_init s) as (st & E & Hl & Hq & Hi).
  { split_and!; [done|simpl; lia|simpl; lia]. }
  unfold decode. rewrite E. cbn [mbind result_bind]. unfold decode_finish.
  case_decide as Hmod; [by right|]. case_decide as H0; [left; by eexists|].
  assert (∀ k, p st = Z.of_nat k → (0 < k < 4)%nat → q st = (4 - k)%nat) as Hqk.
  { intros k Hk Hr. rewrite Hk in Hmod.
    rewrite wrap_small in Hmod by (unfold in_range; zpow; lia). clear Hi. dlia. }
  case_decide as H1.
  { rewrite (Hqk 1%nat H1) in Hi by lia.
    destruct (Hi 0%nat) as [c0 T0], (Hi 1%nat) as [c1 T1], (Hi 2%nat) as [c2 T2]; [simpl; lia..|].
    unfold out0, out1. rewrite (tmp_at_ok _ _ _ T0), (tmp_at_ok _ _ _ T1), (tmp_at_ok _ _ _ T2).
    left. by eexists. }
  case_decide as H2; [|by right].
  rewrite (Hqk 2%nat H2) in Hi by lia.
  destruct (Hi 0%nat) as [c0 T0], (Hi 1%nat) as [c1 T1]; [simpl; lia..|].
  unfold out0. rewrite (tmp_at_ok _ _ _ T0), (tmp_at_ok _ _ _ T1). left. by eexists.
Qed.

End Base64.
