(* ===== verification/Drive.v ===== *)
(** [partition::AbstractDriveInterface]
    (PSME/common/partition/include/partition/abstract_drive_interface.hpp): what
    the partition tables use to reach a drive, as a class of operations and a
    class of the laws its clients rely on, and [FileDriveInterface]
    (file_drive_interface.cpp) as an instance.

    In the instance a device file is a byte array of fixed size, as a block
    device is; [open] fails for a name with no file.  [fsync] is taken to
    succeed. *)

From Stdlib Require Import ZArith Lia.
From S2P Require Import Prelude.

Class DriveInterface (D : Type) := {
  drive_read : list Z → Z → nat → D → result (list Z);
  drive_write : list Z → Z → list Z → M D unit;
}.

Class DriveLaws (D : Type) `{DriveInterface D} := {
  read_written (t : list Z) (loc : Z) (data : list Z) (d d' : D) :
    drive_write t loc data d = (Ok tt, d') →
    drive_read t loc (length data) d' = Ok data;
  read_elsewhere (t : list Z) (loc loc' : Z) (data : list Z) (n : nat) (d d' : D) :
    drive_write t loc data d = (Ok tt, d') → (0 ≤ loc)%Z → (0 ≤ loc')%Z →
    (loc + Z.of_nat (length data) ≤ loc' ∨ loc' + Z.of_nat n ≤ loc)%Z →
    drive_read t loc' n d' = drive_read t loc' n d;
}.

Module FileDriveInterface.

(** The files of /dev by name. *)
Definition files : Type := list (list Z * list Z).

Fixpoint open_file (target : list Z) (fs : files) : option (list Z) :=
  match fs with
  | [] => None
  | (name, data) :: fs' => if decide (name = target) then Some data else open_file target fs'
  end.

Fixpoint update_file (target : list Z) (data : list Z) (fs : files) : files :=
  match fs with
  | [] => []
  | (name, old) :: fs' =>
      if decide (name = target) then (name, data) :: fs' else (name, old) :: update_file target data fs'
  end.

Definition read (target : list Z) (location : Z) (num_of_bytes : nat) (fs : files)
    : result (list Z) :=
  match open_file target fs with
  | None => Throw (runtime_error "Unable to open drive file for reading")
  | Some file =>
      let read_data := slice (Z.to_nat location) num_of_bytes file in
      if decide (length read_data ≠ num_of_bytes) then
        Throw (runtime_error "Unable to read desired number of bytes")
      else Ok read_data
  end.

Definition write (target : list Z) (location : Z) (data : list Z) : M files unit := λ fs,
  match open_file target fs with
  | None => (Throw (runtime_error "Unable to open drive file for writing"), fs)
  | Some file =>
      let written := take (length file - Z.to_nat location) data in
      let fs' := update_file target (splice (Z.to_nat location) written file) fs in
      if decide (length written ≠ length data) then
        (Throw (runtime_error "Unable to write desired number of bytes"), fs')
      else (Ok tt, fs')
  end.

#[global] Instance file_drive : DriveInterface files :=
  {| drive_read := read; drive_write := write |}.

Lemma open_update target data fs :
  open_file target fs ≠ None → open_file target (update_file target data fs) = Some data.
Proof.
  induction fs as [|[name old] fs IH]; simpl; [done|].
  case_decide as E; simpl; [by rewrite decide_True|]. rewrite decide_False by done. apply IH.
Qed.

Lemma write_Ok target loc data fs fs' :
  write target loc data fs = (Ok tt, fs') →
  ∃ file, open_file target fs = Some file ∧
    open_file target fs' = Some (splice (Z.to_nat loc) data file) ∧
    (Z.to_nat loc + length data ≤ length file ∨ data = []).
Proof.
  intros Hw. unfold write in Hw. destruct (open_file target fs) as [file|] eqn:Ho; [|done].
  case_decide as Hlen; [done|]. injection Hw as <-. exists file. split; [done|].
  rewrite open_update by (by rewrite Ho).
  assert (length data ≤ length file - Z.to_nat loc) as Hle.
  { rewrite length_take in Hlen. lia. }
  rewrite take_ge by lia. split; [done|]. destruct data; [by right|left; simpl in *; lia].
Qed.

(** A write that fits in the file succeeds and keeps its length. *)
Lemma write_fits target loc data fs file :
  open_file target fs = Some file → Z.to_nat loc + length data ≤ length file →
  ∃ fs' file', write target loc data fs = (Ok tt, fs') ∧ open_file target fs' = Some file' ∧
    length file' = length file.
Proof.
  intros Ho Hle. unfold write. rewrite Ho. rewrite take_ge by lia. rewrite decide_False by auto.
  eexists _, (splice (Z.to_nat loc) data file). split; [done|]. split.
  - apply open_update. by rewrite Ho.
  - by apply length_splice.
Qed.

#[global] Instance file_drive_laws : DriveLaws files.
Proof.
  split.
  - intros t loc data d d' Hw. apply write_Ok in Hw as (file & Ho & Ho' & Hlen).
    simpl. unfold read. rewrite Ho'. destruct Hlen as [Hlen| ->]; [|done].
    rewrite slice_splice_same by done. by rewrite decide_False by auto.
  - intros t loc loc' data n d d' Hw Hl Hl' Hdis.
    apply write_Ok in Hw as (file & Ho & Ho' & Hlen).
    simpl. unfold read. rewrite Ho', Ho.
    assert (slice (Z.to_nat loc') n (splice (Z.to_nat loc) data file) =
            slice (Z.to_nat loc') n file) as ->; [|done].
    destruct Hlen as [Hlen| ->].
    + destruct Hdis; [apply slice_splice_after|apply slice_splice_before]; lia.
    + unfold splice. simpl. by rewrite Nat.add_0_r, take_drop.
Qed.

End FileDriveInterface.
