(* ===== verification/Mbr.v ===== *)
(** [partition::MbrPartitionTable] (PSME/common/partition/src/mbr_partition_table.cpp).

    The table object is the record [t] of its [m_mbr] and the inherited
    [m_is_valid]; the drive is a state of its own, reached through
    [DriveInterface].  [memcpy_s] and [operator[]] on a buffer shorter than the
    layout would be undefined behaviour; every buffer here has 512 bytes. *)

From Stdlib Require Import ZArith Lia.
From S2P Require Import Prelude.
From S2P Require Import ByteBuffer.
From S2P Require Import Drive.
Import ByteBuffer.

(** ** abstract_partition_table.hpp *)

Inductive PartitionType := UNKNOWN | MBR_PROTECTIVE | LINUX.

#[global] Instance PartitionType_eq_dec : EqDecision PartitionType.
Proof. solve_decision. Defined.

Record PartitionData := mkPartitionData {
  pd_first_lba : Z;
  pd_size_lba : Z;
  pd_type : PartitionType;
  pd_name : list Z;
  pd_uuid : list Z;
}.

Definition PartitionData0 : PartitionData := mkPartitionData 0 0 UNKNOWN [] [].

Module Mbr.

Definition MBR_OFFSET : Z := 0.
Definition MBR_DATA_SIZE : nat := 512.
Definition MBR_BOOTSTRAP_SIZE : nat := 446.
Definition MBR_PARTITION_ENTRY_COUNT : nat := 4.
Definition MBR_PARTITION_ENTRY_OFFSET : list nat := [446; 462; 478; 494].
Definition MBR_BOOT_SIGNATURE_OFFSET : nat := 510.
Definition MBR_BOOT_SIGNATURE : Z := 0xAA55.
Definition MBR_PARTITION_TYPE_NONE : Z := 0x00.
Definition MBR_PARTITION_TYPE_PROTECTIVE : Z := 0xEE.
Definition MBR_PROTECTIVE_FIRST_SECTOR_CHS : list Z := [0x00; 0x01; 0x00]%Z.
Definition MBR_PROTECTIVE_LAST_SECTOR_CHS : list Z := [0xFE; 0xFF; 0xFF]%Z.
Definition MBR_PROTECTIVE_FIRST_AVAILABLE_LBA : Z := 0x00000001.

Record MbrPartitionData := mkMbrPartitionData {
  status : Z;
  first_sector_chs : list Z;
  partition_type : Z;
  last_sector_chs : list Z;
  first_sector_lba : Z;
  num_of_sectors : Z;
}.

Definition MbrPartitionData0 : MbrPartitionData :=
  mkMbrPartitionData 0 [0; 0; 0]%Z 0 [0; 0; 0]%Z 0 0.

Record MbrData := mkMbrData {
  bootstrap : list Z;
  partition_data : list MbrPartitionData;
  boot_signature : Z;
}.

Definition MbrData0 : MbrData :=
  mkMbrData (replicate MBR_BOOTSTRAP_SIZE 0%Z)
    (replicate MBR_PARTITION_ENTRY_COUNT MbrPartitionData0) 0.

Record t := mkMbr { m_mbr : MbrData; m_is_valid : bool }.

Definition mbr0 : t := mkMbr MbrData0 false.

(** *** Conversions *)

Definition bb_to_entry (bb : list Z) (offset : nat) : result MbrPartitionData :=
  st ← index bb (offset + 0);
  f0 ← index bb (offset + 1); f1 ← index bb (offset + 2); f2 ← index bb (offset + 3);
  ty ← index bb (offset + 4);
  l0 ← index bb (offset + 5); l1 ← index bb (offset + 6); l2 ← index bb (offset + 7);
  first ← get_le32 (offset + 8) bb;
  num ← get_le32 (offset + 12) bb;
  Ok (mkMbrPartitionData st [f0; f1; f2] ty [l0; l1; l2] first num).

Fixpoint bb_to_entries (bb : list Z) (offsets : list nat) : result (list MbrPartitionData) :=
  match offsets with
  | [] => Ok []
  | offset :: offsets' =>
      e ← bb_to_entry bb offset; es ← bb_to_entries bb offsets'; Ok (e :: es)
  end.

Definition bb_to_mbr (bb : list Z) : result MbrData :=
  if decide (length bb < MBR_BOOTSTRAP_SIZE) then Throw undefined_behaviour else
  let boot := slice 0 MBR_BOOTSTRAP_SIZE bb in
  sig ← get_le16 MBR_BOOT_SIGNATURE_OFFSET bb;
  es ← bb_to_entries bb MBR_PARTITION_ENTRY_OFFSET;
  Ok (mkMbrData boot es sig).

(** [bb[pos] = b] *)
Definition set_index (pos : nat) (b : Z) : M (list Z) unit := λ bb,
  if decide (pos < length bb) then (Ok tt, <[pos := b]> bb) else (Throw undefined_behaviour, bb).

Definition chs (l : list Z) (i : nat) : Z := default 0%Z (l !! i).

Definition entry_to_bb (offset : nat) (e : MbrPartitionData) : M (list Z) unit :=
  set_index (offset + 0) (status e);;
  set_index (offset + 1) (chs (first_sector_chs e) 0);;
  set_index (offset + 2) (chs (first_sector_chs e) 1);;
  set_index (offset + 3) (chs (first_sector_chs e) 2);;
  set_index (offset + 4) (partition_type e);;
  set_index (offset + 5) (chs (last_sector_chs e) 0);;
  set_index (offset + 6) (chs (last_sector_chs e) 1);;
  set_index (offset + 7) (chs (last_sector_chs e) 2);;
  set_le32 (offset + 8) (first_sector_lba e);;
  set_le32 (offset + 12) (num_of_sectors e).

Fixpoint entries_to_bb (offsets : list nat) (es : list MbrPartitionData) : M (list Z) unit :=
  match offsets, es with
  | offset :: offsets', e :: es' => entry_to_bb offset e;; entries_to_bb offsets' es'
  | _, _ => mret tt
  end.

Definition mbr_to_bb (mbr : MbrData) : result (list Z) :=
  let bb := splice 0 (bootstrap mbr) (make MBR_DATA_SIZE) in
  match (set_le16 MBR_BOOT_SIGNATURE_OFFSET (boot_signature mbr);;
         entries_to_bb MBR_PARTITION_ENTRY_OFFSET (partition_data mbr)) bb with
  | (Ok _, bb') => Ok bb'
  | (Throw e, _) => Throw e
  end.

(** *** Methods *)

Definition set_valid (b : bool) (s : t) : t := mkMbr (m_mbr s) b.
Definition set_mbr (d : MbrData) (s : t) : t := mkMbr d (m_is_valid s).

Section with_drive.
Context {D : Type} `{DriveInterface D}.

Definition load (target : list Z) (d : D) : M t unit :=
  modify (set_valid false);;
  data ← lift (drive_read target MBR_OFFSET MBR_DATA_SIZE d ≫= bb_to_mbr);
  modify (set_mbr data);;
  if decide (boot_signature data = MBR_BOOT_SIGNATURE) then modify (set_valid true)
  else throw (runtime_error "Unable to read MBR partition table: signature not present!").

(** Const: reads the table, changes the drive. *)
Definition save (target : list Z) (s : t) : M D unit :=
  if negb (m_is_valid s) then
    throw (logic_error "MBR partition table is not valid and will not be written!")
  else
    bb ← lift (mbr_to_bb (m_mbr s));
    drive_write target MBR_OFFSET bb.
End with_drive.

Definition entry (s : t) (i : nat) : MbrPartitionData :=
  default MbrPartitionData0 (partition_data (m_mbr s) !! i).

Definition get_partition_ids (s : t) : list nat :=
  filter (λ i, partition_type (entry s i) ≠ MBR_PARTITION_TYPE_NONE) (seq 0 MBR_PARTITION_ENTRY_COUNT).

Definition get_available_partition_id (s : t) : result nat :=
  match filter (λ i, partition_type (entry s i) = MBR_PARTITION_TYPE_NONE)
          (seq 0 MBR_PARTITION_ENTRY_COUNT) with
  | i :: _ => Ok i
  | [] => Throw id_unavailable
  end.

Definition get_partition (id : nat) (s : t) : result PartitionData :=
  if decide (MBR_PARTITION_ENTRY_COUNT ≤ id) then
    Throw (runtime_error "Invalid partition id: ")
  else
    let e := entry s id in
    if decide (partition_type e = MBR_PARTITION_TYPE_NONE) then
      Throw (runtime_error "No partition on slot ")
    else
      Ok (mkPartitionData (first_sector_lba e) (num_of_sectors e)
            (if decide (partition_type e = MBR_PARTITION_TYPE_PROTECTIVE)
             then MBR_PROTECTIVE else UNKNOWN) [] []).

Definition protective_entry (st size_lba : Z) : MbrPartitionData :=
  mkMbrPartitionData st MBR_PROTECTIVE_FIRST_SECTOR_CHS MBR_PARTITION_TYPE_PROTECTIVE
    MBR_PROTECTIVE_LAST_SECTOR_CHS MBR_PROTECTIVE_FIRST_AVAILABLE_LBA
    (if decide (size_lba > 0xFFFFFFFF)%Z then 0xFFFFFFFF else wrap 32 size_lba)%Z.

Definition set_entry (id : nat) (e : MbrPartitionData) (s : t) : t :=
  set_mbr (mkMbrData (bootstrap (m_mbr s)) (<[id := e]> (partition_data (m_mbr s)))
             (boot_signature (m_mbr s))) s.

Definition set_partition (id : nat) (pd : PartitionData) : M t unit :=
  if decide (MBR_PARTITION_ENTRY_COUNT ≤ id) then
    throw (runtime_error "Invalid partition id: ")
  else if decide (pd_type pd ≠ MBR_PROTECTIVE ∨ id ≠ 0) then
    throw (runtime_error "Not implemented, only MBR Protective partitions are supported!")
  else
    modify (set_valid false);;
    s ← get;
    modify (set_entry id (protective_entry (status (entry s id)) (pd_size_lba pd))).

Definition remove_partition (id : nat) : M t unit :=
  if decide (MBR_PARTITION_ENTRY_COUNT ≤ id) then
    throw (runtime_error "Invalid partition id: ")
  else
    modify (set_valid false);;
    modify (set_entry id MbrPartitionData0).

Definition update : M t unit :=
  modify (λ s, set_mbr (mkMbrData (bootstrap (m_mbr s)) (partition_data (m_mbr s))
                          MBR_BOOT_SIGNATURE) s);;
  modify (set_valid true).

Definition reset (drive_size_lba : Z) : M t unit :=
  modify (set_mbr MbrData0);; update.

Definition get_empty_region (size_lba : Z) : result Z := Throw (runtime_error "Not implemented").
Definition get_max_usable_blocks : result Z := Throw (runtime_error "Not implemented").

(** ** Well-formedness: the C++ field types *)

Record entry_ok (e : MbrPartitionData) : Prop := {
  ok_status : is_byte (status e);
  ok_first_chs : length (first_sector_chs e) = 3 ∧ Forall is_byte (first_sector_chs e);
  ok_type : is_byte (partition_type e);
  ok_last_chs : length (last_sector_chs e) = 3 ∧ Forall is_byte (last_sector_chs e);
  ok_lba : in_range 32 (first_sector_lba e);
  ok_num : in_range 32 (num_of_sectors e);
}.

Record data_ok (d : MbrData) : Prop := {
  ok_bootstrap : length (bootstrap d) = MBR_BOOTSTRAP_SIZE ∧ Forall is_byte (bootstrap d);
  ok_entries : length (partition_data d) = MBR_PARTITION_ENTRY_COUNT ∧
    Forall entry_ok (partition_data d);
  ok_signature : in_range 16 (boot_signature d);
}.

(** The sixteen bytes of an entry. *)
Definition entry_bytes (e : MbrPartitionData) : list Z :=
  [status e; chs (first_sector_chs e) 0; chs (first_sector_chs e) 1; chs (first_sector_chs e) 2;
   partition_type e;
   chs (last_sector_chs e) 0; chs (last_sector_chs e) 1; chs (last_sector_chs e) 2]
  ++ encode LE32 (first_sector_lba e) ++ encode LE32 (num_of_sectors e).

Lemma length_entry_bytes e : length (entry_bytes e) = 16.
Proof. unfold entry_bytes. by rewrite !length_app, !length_encode. Qed.

Lemma writes_index pos p b : pos = p → writes (set_index pos b) p [b].
Proof.
  intros <- bb H. simpl in H. unfold set_index. rewrite decide_True by lia.
  by rewrite insert_splice by lia.
Qed.

Lemma writes_entry offset e : writes (entry_to_bb offset e) offset (entry_bytes e).
Proof.
  unfold entry_to_bb, entry_bytes. cbn [app].
  do 8 (eapply (writes_seq _ _ _ [_]); [apply writes_index; simpl; lia|]).
  eapply writes_seq; [apply (writes_setter LE32); simpl; lia|].
  apply (writes_setter LE32). rewrite length_encode. simpl. lia.
Qed.

Lemma chs_list l : length l = 3 → [chs l 0; chs l 1; chs l 2] = l.
Proof. destruct l as [|? [|? [|? [|]]]]; by intros. Qed.

Lemma bb_to_entry_slice bb offset e :
  entry_ok e → slice offset 16 bb = entry_bytes e → bb_to_entry bb offset = Ok e.
Proof.
  intros [Hst [Hf _] Hty [Hl _] Hlba Hnum] Hs. unfold bb_to_entry.
  assert (∀ i, i < 16 → bb !! (offset + i) = entry_bytes e !! i) as Hi.
  { intros i Hi. by rewrite <- Hs, slice_lookup. }
  assert (∀ k v, k + 4 ≤ 16 → slice k 4 (entry_bytes e) = encode LE32 v → in_range 32 v →
            get_le32 (offset + k) bb = Ok v) as Hg.
  { intros k v Hk Hv Hr. apply (getter_slice LE32); [|done].
    by rewrite <- Hv, <- Hs, slice_slice by done. }
  unfold index. rewrite !Hi by lia. cbn -[get_le32 encode].
  rewrite (Hg 8 (first_sector_lba e)), (Hg 12 (num_of_sectors e)); try done; try lia.
  cbn. rewrite (chs_list _ Hf), (chs_list _ Hl). by destruct e.
Qed.

#[local] Hint Rewrite length_entry_bytes length_encode : psme.

Lemma length_make n : length (make n) = n.
Proof. apply length_replicate. Qed.

(** The image of the table, piece by piece, in the order it is written. *)
Definition pieces (boot : list Z) (sig : Z) (e0 e1 e2 e3 : MbrPartitionData) : list (nat * list Z) :=
  [(0, boot); (510, encode LE16 sig); (446, entry_bytes e0); (462, entry_bytes e1);
   (478, entry_bytes e2); (494, entry_bytes e3)].

Lemma pieces_layout boot sig e0 e1 e2 e3 :
  length boot = 446 → layout (length (make MBR_DATA_SIZE)) (pieces boot sig e0 e1 e2 e3).
Proof.
  intros Hboot. rewrite length_make. unfold MBR_DATA_SIZE, pieces.
  cbn [layout fst snd].
  split_and!; try done; repeat (apply Forall_cons_2); try apply Forall_nil_2;
    unfold apart; cbn [fst snd]; rewrite ?length_entry_bytes, ?length_encode, ?Hboot;
    cbn [width]; lia.
Qed.

Lemma mbr_to_bb_pieces boot sig e0 e1 e2 e3 :
  length boot = 446 →
  mbr_to_bb (mkMbrData boot [e0; e1; e2; e3] sig) =
  Ok (write_all (pieces boot sig e0 e1 e2 e3) (make MBR_DATA_SIZE)).
Proof.
  intros Hboot. unfold mbr_to_bb, pieces, write_all.
  cbn [bootstrap partition_data boot_signature foldl fst snd].
  unfold MBR_DATA_SIZE, MBR_BOOT_SIGNATURE_OFFSET, MBR_PARTITION_ENTRY_OFFSET.
  assert (length (splice 0 boot (make 512)) = 512) as Hlen
    by (rewrite length_splice; rewrite length_make, ?Hboot; lia).
  cbn [entries_to_bb]. unfold mbind, M_bind.
  rewrite (setter_spec LE16) by (rewrite Hlen; simpl; lia).
  repeat rewrite writes_entry
    by (rewrite length_entry_bytes; repeat rewrite length_splice;
        rewrite ?Hlen, ?length_entry_bytes, ?length_encode; simpl; lia).
  done.
Qed.

Ltac member := unfold pieces; repeat first [apply list_elem_of_here | apply list_elem_of_further].

(** Writing a well-formed table gives 512 bytes that read back as the table. *)
Lemma mbr_to_bb_spec d :
  data_ok d → ∃ bb, mbr_to_bb d = Ok bb ∧ length bb = MBR_DATA_SIZE ∧ bb_to_mbr bb = Ok d.
Proof.
  intros [[Hboot _] [Hn Hes] Hsig]. destruct d as [boot es sig]; simpl in *.
  destruct es as [|e0 [|e1 [|e2 [|e3 [|]]]]]; try done.
  rewrite !list.Forall_cons in Hes. destruct Hes as (H0 & H1 & H2 & H3 & _).
  pose proof (pieces_layout boot sig e0 e1 e2 e3 Hboot) as Hlay.
  rewrite mbr_to_bb_pieces by done. eexists; split; [done|].
  pose proof (length_write_all _ _ Hlay) as Hlen. rewrite length_make in Hlen. split; [done|].
  set (bb := write_all _ _) in *.
  assert (∀ p xs, (p, xs) ∈ pieces boot sig e0 e1 e2 e3 → slice p (length xs) bb = xs) as Hsl
    by (intros; by apply slice_write_all).
  assert (∀ p e, (p, entry_bytes e) ∈ pieces boot sig e0 e1 e2 e3 → entry_ok e →
            bb_to_entry bb p = Ok e) as He.
  { intros p e Hin Hok. apply bb_to_entry_slice; [done|].
    rewrite <- (length_entry_bytes e). by apply Hsl. }
  unfold bb_to_mbr. rewrite decide_False by (rewrite Hlen; unfold MBR_DATA_SIZE, MBR_BOOTSTRAP_SIZE; lia).
  assert (get_le16 MBR_BOOT_SIGNATURE_OFFSET bb = Ok sig) as ->.
  { apply (getter_slice LE16); [|done]. rewrite <- (length_encode LE16 sig). apply Hsl.
    member. }
  cbn [mbind result_bind bb_to_entries MBR_PARTITION_ENTRY_OFFSET].
  rewrite (He 446 e0), (He 462 e1), (He 478 e2), (He 494 e3) by (done || member).
  cbn. do 2 f_equal. unfold MBR_BOOTSTRAP_SIZE. rewrite <- Hboot at 1. apply Hsl. member.
Qed.

(** ** Invariant: the field types, and a valid table carries the boot signature *)

Record wf (s : t) : Prop := {
  wf_data : data_ok (m_mbr s);
  wf_valid : m_is_valid s = true → boot_signature (m_mbr s) = MBR_BOOT_SIGNATURE;
}.

Lemma bb_to_entry_ok bb offset e :
  Forall is_byte bb → bb_to_entry bb offset = Ok e → entry_ok e.
Proof.
  intros Hbb He. unfold bb_to_entry in He. bind_inv He. injection He as <-.
  repeat match goal with
  | H : index _ _ = Ok _ |- _ => apply (index_Forall is_byte) in H; [|done]
  end.
  split; simpl; try done.
  - split; [done|]. rewrite !list.Forall_cons. by split_and!.
  - split; [done|]. rewrite !list.Forall_cons. by split_and!.
  - by apply (getter_range LE32) in E7.
  - by apply (getter_range LE32) in E8.
Qed.

Lemma bb_to_entries_ok bb offsets es :
  Forall is_byte bb → bb_to_entries bb offsets = Ok es →
  length es = length offsets ∧ Forall entry_ok es.
Proof.
  intros Hbb. revert es. induction offsets as [|o offsets IH]; intros es He; simpl in He.
  - by injection He as <-.
  - bind_inv He. injection He as <-. destruct (IH _ eq_refl) as [Hl Hok].
    split; [simpl; by rewrite Hl|]. constructor; [by eapply bb_to_entry_ok|done].
Qed.

Lemma bb_to_mbr_ok bb d : Forall is_byte bb → bb_to_mbr bb = Ok d → data_ok d.
Proof.
  intros Hbb Hd. unfold bb_to_mbr in Hd. case_decide as Hlen; [done|]. bind_inv Hd.
  injection Hd as <-. split; simpl.
  - split; [apply length_slice; lia|by apply Forall_slice].
  - by apply bb_to_entries_ok in E0.
  - by apply (getter_range LE16) in E.
Qed.

Lemma MbrPartitionData0_ok : entry_ok MbrPartitionData0.
Proof. split; simpl; unfold is_byte, in_range; try lia; split; try done; repeat constructor; lia. Qed.

Lemma MbrData0_ok : data_ok MbrData0.
Proof.
  split; cbn [bootstrap partition_data boot_signature MbrData0].
  - split; [apply length_replicate|]. apply Forall_replicate. unfold is_byte; lia.
  - split; [done|]. apply Forall_replicate, MbrPartitionData0_ok.
  - unfold in_range. lia.
Qed.

Lemma entry_lookup_ok s id : data_ok (m_mbr s) → entry_ok (entry s id).
Proof.
  intros [_ [_ H] _]. unfold entry. destruct (_ !! id) eqn:E; simpl.
  - by eapply Forall_lookup_1.
  - apply MbrPartitionData0_ok.
Qed.

Lemma protective_ok st size :
  is_byte st → (0 ≤ size)%Z → entry_ok (protective_entry st size).
Proof.
  intros Hst Hs. split; simpl; try done; unfold is_byte, in_range; try lia.
  - split; [done|]. repeat constructor; unfold is_byte; lia.
  - split; [done|]. repeat constructor; unfold is_byte; lia.
  - zpow. case_decide; [lia|]. rewrite wrap_small; unfold in_range; zpow; lia.
Qed.

Lemma set_entry_ok id e s : data_ok (m_mbr s) → entry_ok e → data_ok (m_mbr (set_entry id e s)).
Proof.
  intros [Hb [Hn He] Hs] Hok. split; simpl; [done| |done].
  split; [by rewrite length_insert|]. by apply Forall_insert.
Qed.

(** The calls that change a table. *)
Inductive op :=
  | Load (target : list Z)
  | SetPartition (id : nat) (pd : PartitionData)
  | RemovePartition (id : nat)
  | Reset (drive_size_lba : Z)
  | Update.

Section invariants.
Context {D : Type} `{DriveInterface D} (d : D).

Definition run_op (o : op) : M t unit :=
  match o with
  | Load target => load target d
  | SetPartition id pd => set_partition id pd
  | RemovePartition id => remove_partition id
  | Reset n => reset n
  | Update => update
  end.

Definition op_ok (o : op) : Prop :=
  match o with
  | Load target => ∀ n bb, drive_read target MBR_OFFSET n d = Ok bb → Forall is_byte bb
  | SetPartition _ pd => (0 ≤ pd_size_lba pd)%Z
  | _ => True
  end.

Lemma update_ok s : data_ok (m_mbr s) → wf (update s).2.
Proof.
  intros [Hb He Hs]. split; [|done]. split; simpl; try done.
Qed.

Lemma load_wf target s : op_ok (Load target) → wf s → wf (load target d s).2.
Proof.
  intros Hd [Hs _]. unfold load. run_monad.
  destruct (drive_read _ _ _ _) as [bb|e] eqn:Hr; simpl; [|by split].
  destruct (bb_to_mbr bb) as [data|e] eqn:Hbb; simpl; [|by split].
  apply bb_to_mbr_ok in Hbb; [|by eapply Hd].
  case_decide; by split.
Qed.

(** Every call on an MBR table, also one that throws part way, keeps the
    field types of the C++ structs (bytes, 16- and 32-bit values, four entries,
    446 bootstrap bytes) and the fact that a table marked valid carries the boot
    signature 0xAA55; so save only ever writes a signed table. *)
Theorem mbr_ops_wf o s : op_ok o → wf s → wf (run_op o s).2.
Proof.
  intros Ho Hs. pose proof Hs as [Hd Hv]. destruct o; simpl in *.
  - by apply load_wf.
  - unfold set_partition. case_decide; [done|]. case_decide; [done|]. run_monad. split; [|done].
    apply set_entry_ok; [done|]. apply protective_ok; [|done].
    by apply ok_status, (entry_lookup_ok (set_valid false s)).
  - unfold remove_partition. case_decide; [done|]. run_monad. split; [|done].
    apply set_entry_ok; [done|apply MbrPartitionData0_ok].
  - apply (update_ok (set_mbr MbrData0 s)), MbrData0_ok.
  - by apply update_ok.
Qed.

Context `{!DriveLaws D}.

Lemma mbr_save_inv target s d' :
  wf s → save target s d = (Ok tt, d') →
  m_is_valid s = true ∧
  ∃ bb, length bb = MBR_DATA_SIZE ∧ drive_write target MBR_OFFSET bb d = (Ok tt, d') ∧
    ∀ d'' s', drive_read target MBR_OFFSET MBR_DATA_SIZE d'' = Ok bb →
      load target d'' s' = (Ok tt, s).
Proof.
  intros [Hd Hv] Hsave. unfold save in Hsave. destruct (m_is_valid s) eqn:Hval; [|done].
  split; [done|]. simpl in Hsave. run_monad.
  destruct (mbr_to_bb_spec _ Hd) as (bb & Hbb & Hlen & Hback). rewrite Hbb in Hsave.
  exists bb. split_and!; [done|done|]. intros d'' s' Hread.
  unfold load. run_monad. rewrite Hread, Hback. simpl.
  rewrite decide_True by auto. destruct s; simpl in *. by rewrite Hval.
Qed.

(** A table that save accepts and whose write succeeds is read back by
    load of any other MbrPartitionTable object, field by field, and is then
    valid; a table that is not valid is never written. *)
Theorem mbr_save_load target s s' d' :
  wf s → save target s d = (Ok tt, d') →
  m_is_valid s = true ∧ load target d' s' = (Ok tt, s).
Proof.
  intros Hs Hsave. destruct (mbr_save_inv target s d' Hs Hsave) as (Hv & bb & Hl & Hw & Hload).
  split; [done|]. apply Hload. rewrite <- Hl. by eapply read_written.
Qed.
End invariants.

(** The sequence by which a drive is prepared for a GPT, reset then
    set_partition(0, protective) then update, gives a valid table with exactly
    one partition, slot 0, of the protective type, from LBA 1, whose size is the
    requested one clamped to 32 bits; the other slots stay free and the next
    available id is 1. *)
Theorem mbr_protective size name uuid drive_size s :
  in_range 64 size →
  ∃ s', (reset drive_size;;
         set_partition 0 (mkPartitionData 0 size MBR_PROTECTIVE name uuid);;
         update) s = (Ok tt, s') ∧
    m_is_valid s' = true ∧ wf s' ∧
    get_partition_ids s' = [0] ∧
    get_partition 0 s' = Ok (mkPartitionData 1 (Z.min size 0xFFFFFFFF) MBR_PROTECTIVE [] []) ∧
    get_available_partition_id s' = Ok 1 ∧
    ∀ id, 1 ≤ id → is_ok (get_partition id s') = false.
Proof.
  unfold in_range. zpow. intros Hsize. eexists. split; [reflexivity|].
  assert (num_of_sectors (protective_entry 0 size) = Z.min size 0xFFFFFFFF) as Hn.
  { simpl. case_decide; [lia|]. rewrite wrap_small; unfold in_range; zpow; lia. }
  split_and!; [done| |done| |done|].
  - apply update_ok, set_entry_ok.
    { apply (update_ok (set_mbr MbrData0 s)), MbrData0_ok. }
    apply protective_ok; [cbn; unfold is_byte; lia|simpl; lia].
  - unfold get_partition. simpl. simpl in Hn. by rewrite Hn.
  - intros id Hid. unfold get_partition. case_decide; [done|].
    unfold MBR_PARTITION_ENTRY_COUNT in *. by destruct id as [|[|[|[|]]]]; try lia.
Qed.

(** The rejections of the MBR table: an id past the four slots, a type
    other than protective or a slot other than 0 leave the table as it was; an
    empty slot cannot be read; regions are not implemented. *)
Theorem mbr_rejects id pd s :
  (4 ≤ id →
     set_partition id pd s = (Throw (runtime_error "Invalid partition id: "), s) ∧
     remove_partition id s = (Throw (runtime_error "Invalid partition id: "), s) ∧
     get_partition id s = Throw (runtime_error "Invalid partition id: ")) ∧
  (id < 4 → pd_type pd ≠ MBR_PROTECTIVE ∨ id ≠ 0 →
     set_partition id pd s =
       (Throw (runtime_error "Not implemented, only MBR Protective partitions are supported!"), s)) ∧
  (id < 4 → (id ∈ get_partition_ids s ↔ is_ok (get_partition id s) = true)) ∧
  (get_available_partition_id s = Throw id_unavailable ↔ get_partition_ids s = [0; 1; 2; 3]).
Proof.
  split_and!.
  - intros Hid. unfold set_partition, remove_partition, get_partition.
    by rewrite !(decide_True _ _ (Hid : MBR_PARTITION_ENTRY_COUNT ≤ id)).
  - intros Hid Hpd. unfold set_partition.
    rewrite decide_False by (unfold MBR_PARTITION_ENTRY_COUNT; lia). by rewrite decide_True.
  - intros Hid. unfold get_partition_ids, get_partition. rewrite list_elem_of_filter, elem_of_seq.
    rewrite decide_False by (unfold MBR_PARTITION_ENTRY_COUNT; lia).
    unfold MBR_PARTITION_ENTRY_COUNT. case_decide; simpl; split; try done; try tauto. lia.
  - unfold get_available_partition_id, get_partition_ids, MBR_PARTITION_ENTRY_COUNT.
    cbn [seq filter list_filter]. repeat case_decide; split; done.
Qed.

(** ** The theorems on a 2 KiB device *)

Definition sda : list Z := chars "sda".
Definition disk : FileDriveInterface.files := [(sda, replicate 2048 7%Z)].
Definition protective_pd : PartitionData := mkPartitionData 0 4 MBR_PROTECTIVE [] [].
Definition prepared : t :=
  ((reset 4;; set_partition 0 protective_pd;; update) mbr0).2.

Lemma prepared_wf : wf prepared.
Proof.
  unfold prepared. apply update_ok, set_entry_ok.
  - apply (update_ok (set_mbr MbrData0 mbr0)), MbrData0_ok.
  - apply protective_ok; [cbn; unfold is_byte; lia|simpl; lia].
Qed.

Lemma mbr_ops_wf_witness :
  wf (run_op disk (SetPartition 0 protective_pd) prepared).2 ∧
  wf (run_op disk (Load sda) prepared).2.
Proof.
  split; apply (mbr_ops_wf disk); try exact prepared_wf.
  - simpl. lia.
  - simpl. intros n bb Hr. unfold FileDriveInterface.read in Hr.
    cbn [FileDriveInterface.open_file disk] in Hr. rewrite decide_True in Hr by done.
    case_decide; [done|]. apply (inj Ok) in Hr as <-. apply Forall_slice, Forall_replicate.
    unfold is_byte. lia.
Defined.

Lemma mbr_save_load_witness :
  m_is_valid prepared = true ∧
  load sda (save sda prepared disk).2 mbr0 = (Ok tt, prepared).
Proof.
  apply (mbr_save_load disk sda prepared mbr0 (save sda prepared disk).2).
  - exact prepared_wf.
  - vm_compute. reflexivity.
Defined.

Lemma mbr_protective_witness :
  ∃ s', (reset 4;; set_partition 0 protective_pd;; update) mbr0 = (Ok tt, s') ∧
    get_partition_ids s' = [0].
Proof.
  destruct (mbr_protective 4 [] [] 4 mbr0) as (s' & Hs & _ & _ & Hids & _).
  - unfold in_range. lia.
  - exists s'. by split.
Defined.

End Mbr.
