(* ===== verification/GptCodec.v ===== *)
(** The on-disk format of [partition::GptPartitionTable]
    (PSME/common/partition/src/gpt_partition_table.cpp): the header and entry
    structs, GUID and name fields, and the conversions between the structs and
    [ByteBuffer].

    Strings are lists of character codes; [char] is signed, so a code of 128 or
    more widens to a 16-bit unit with a high byte of 0xFF.  The GUID
    [std::regex] of [set_guid] is written out as [guid_match]: 36 characters,
    dashes at 8, 13, 18 and 23, hexadecimal digits elsewhere.  The theorems are
    the round trips: what is written is read back, up to the normal form the
    format has (upper case GUIDs, names cut to 36 characters without NULs). *)

From Stdlib Require Import ZArith Lia.
From S2P Require Import Prelude.
From S2P Require Import ByteBuffer.
Import ByteBuffer.

Module GptCodec.

Definition GPT_HEADER_DATA_SIZE : nat := 92.
Definition GPT_PARTITION_DATA_SIZE : nat := 128.
Definition GPT_PARTITION_COUNT : nat := 128.
Definition GPT_PARTITION_NAME_SIZE : nat := 72.
Definition GPT_SIGNATURE : Z := 0x5452415020494645.
Definition GPT_REVISION_1_0 : Z := 0x00010000.
Definition GPT_EMPTY_GUID : list Z := chars "00000000-0000-0000-0000-000000000000".
Definition GPT_PARTITION_TYPE_UUID_LINUX : list Z := chars "0FC63DAF-8483-4772-8E79-3D69D8477DE4".

(** [reserved_20] is neither read nor written: it is left out. *)
Record GptHeaderData := mkHeader {
  signature : Z;
  revision : Z;
  header_size : Z;
  header_crc : Z;
  current_lba : Z;
  backup_lba : Z;
  first_usable_lba : Z;
  last_usable_lba : Z;
  disk_guid : list Z;
  partition_table_lba : Z;
  num_of_partitions : Z;
  partition_entry_size : Z;
  partition_table_crc : Z;
}.

Definition GptHeaderData0 : GptHeaderData := mkHeader 0 0 0 0 0 0 0 0 GPT_EMPTY_GUID 0 0 0 0.

Record GptPartitionData := mkEntry {
  type_guid : list Z;
  guid : list Z;
  first_lba : Z;
  last_lba : Z;
  flags : Z;
  name : list Z;
}.

Definition GptPartitionData0 : GptPartitionData :=
  mkEntry GPT_EMPTY_GUID GPT_EMPTY_GUID 0 0 0 [].

(** ** Hexadecimal text *)

(** The value of a character of [[0-9a-fA-F]]. *)
Definition hex_value (c : Z) : option Z :=
  if decide (48 ≤ c ≤ 57)%Z then Some (c - 48)%Z
  else if decide (65 ≤ c ≤ 70)%Z then Some (c - 55)%Z
  else if decide (97 ≤ c ≤ 102)%Z then Some (c - 87)%Z
  else None.

Definition is_hex (c : Z) : bool := bool_decide (is_Some (hex_value c)).

(** [std::stoul(s, nullptr, 16)] on a string of hexadecimal digits *)
Definition stoul16 (s : list Z) : Z :=
  foldl (λ acc c, (acc * 16 + default 0 (hex_value c))%Z) 0%Z s.

(** A digit as [std::uppercase << std::hex] prints it. *)
Definition hex_char (d : Z) : Z := if decide (d < 10)%Z then (d + 48)%Z else (d + 55)%Z.

(** [std::hex << v]: no leading zeros; [fuel] bounds the number of digits. *)
Fixpoint print_hex (fuel : nat) (v : Z) : list Z :=
  match fuel with
  | O => []
  | S fuel' =>
      if decide (v < 16)%Z then [hex_char v]
      else print_hex fuel' (v / 16)%Z ++ [hex_char (v mod 16)%Z]
  end.

(** [std::setfill('0') << std::setw(w) << std::hex << std::uppercase << v]; a
    64-bit value has at most 16 digits. *)
Definition setw_hex (w : nat) (v : Z) : list Z :=
  let digits := print_hex 16 v in replicate (w - length digits) 48%Z ++ digits.

Definition dash : Z := 45.

(** [std::regex_match] of the GUID expression: the five groups. *)
Definition guid_match (s : list Z) : option (list Z * list Z * list Z * list Z * list Z) :=
  let g1 := slice 0 8 s in let g2 := slice 9 4 s in let g3 := slice 14 4 s in
  let g4 := slice 19 4 s in let g5 := slice 24 12 s in
  if (bool_decide (length s = 36)
      && forallb is_hex (g1 ++ g2 ++ g3 ++ g4 ++ g5)
      && bool_decide (s !! 8 = Some dash) && bool_decide (s !! 13 = Some dash)
      && bool_decide (s !! 18 = Some dash) && bool_decide (s !! 23 = Some dash))
  then Some (g1, g2, g3, g4, g5) else None.

Definition get_guid (bb : list Z) (offset : nat) : result (list Z) :=
  v1 ← get_le32 (offset + 0) bb;
  v2 ← get_le16 (offset + 4) bb;
  v3 ← get_le16 (offset + 6) bb;
  v4 ← get_be16 (offset + 8) bb;
  v5 ← get_be48 (offset + 10) bb;
  Ok (setw_hex 8 v1 ++ [dash] ++ setw_hex 4 v2 ++ [dash] ++ setw_hex 4 v3 ++ [dash]
      ++ setw_hex 4 v4 ++ [dash] ++ setw_hex 12 v5).

Definition set_guid (offset : nat) (g : list Z) : M (list Z) unit :=
  match guid_match g with
  | None => throw (runtime_error "Invalid GUID format: ")
  | Some (g1, g2, g3, g4, g5) =>
      set_le32 (offset + 0) (stoul16 g1);;
      set_le16 (offset + 4) (stoul16 g2);;
      set_le16 (offset + 6) (stoul16 g3);;
      set_be16 (offset + 8) (stoul16 g4);;
      set_be48 (offset + 10) (stoul16 g5)
  end.

(** ** Names *)

(** [uint16_t(c)] for a signed [char] *)
Definition char_to_u16 (c : Z) : Z := if decide (c < 128)%Z then c else (c + 0xFF00)%Z.

Fixpoint get_name_from (bb : list Z) (offset i n : nat) : result (list Z) :=
  match n with
  | O => Ok []
  | S n' =>
      u ← get_le16 (offset + i * 2) bb;
      rest ← get_name_from bb offset (S i) n';
      let ch := wrap 8 u in
      Ok (if decide (ch ≠ 0)%Z then ch :: rest else rest)
  end.

Definition get_name (bb : list Z) (offset : nat) : result (list Z) :=
  get_name_from bb offset 0 (Nat.div GPT_PARTITION_NAME_SIZE 2).

Definition set_name (offset : nat) (nm : list Z) : M (list Z) unit :=
  let chars_to_write := Nat.min (length nm) (Nat.div GPT_PARTITION_NAME_SIZE 2) in
  for_each (zip (seq 0 chars_to_write) nm) (λ '(i, c), set_le16 (offset + i * 2) (char_to_u16 c));;
  for_each (seq chars_to_write (Nat.div GPT_PARTITION_NAME_SIZE 2 - chars_to_write))
    (λ i, set_le16 (offset + i * 2) 0).

(** ** Conversions *)

Definition bb_to_gpt_header (bb : list Z) : result GptHeaderData :=
  sig ← get_le64 0 bb; rev ← get_le32 8 bb; size ← get_le32 12 bb; crc ← get_le32 16 bb;
  cur ← get_le64 24 bb; bak ← get_le64 32 bb; first ← get_le64 40 bb; last ← get_le64 48 bb;
  g ← get_guid bb 56; tbl ← get_le64 72 bb; num ← get_le32 80 bb; esize ← get_le32 84 bb;
  tcrc ← get_le32 88 bb;
  Ok (mkHeader sig rev size crc cur bak first last g tbl num esize tcrc).

(** Run the writes of a conversion on a fresh buffer. *)
Definition build (size : nat) (m : M (list Z) unit) : result (list Z) :=
  match m (make size) with (Ok _, bb) => Ok bb | (Throw e, _) => Throw e end.

Definition gpt_header_to_bb (h : GptHeaderData) : result (list Z) :=
  build GPT_HEADER_DATA_SIZE (
    set_le64 0 (signature h);; set_le32 8 (revision h);;
    set_le32 12 (header_size h);; set_le32 16 (header_crc h);;
    set_le64 24 (current_lba h);; set_le64 32 (backup_lba h);;
    set_le64 40 (first_usable_lba h);; set_le64 48 (last_usable_lba h);;
    set_guid 56 (disk_guid h);; set_le64 72 (partition_table_lba h);;
    set_le32 80 (num_of_partitions h);; set_le32 84 (partition_entry_size h);;
    set_le32 88 (partition_table_crc h)).

Definition bb_to_gpt_entry (bb : list Z) (offset : nat) : result GptPartitionData :=
  ty ← get_guid bb offset; g ← get_guid bb (offset + 16);
  first ← get_le64 (offset + 32) bb; last ← get_le64 (offset + 40) bb;
  fl ← get_le64 (offset + 48) bb; nm ← get_name bb (offset + 56);
  Ok (mkEntry ty g first last fl nm).

Fixpoint bb_to_entries (bb : list Z) (i n : nat) : result (list GptPartitionData) :=
  match n with
  | O => Ok []
  | S n' =>
      e ← bb_to_gpt_entry bb (i * GPT_PARTITION_DATA_SIZE);
      es ← bb_to_entries bb (S i) n';
      Ok (e :: es)
  end.

Definition bb_to_gpt_table (bb : list Z) : result (list GptPartitionData) :=
  bb_to_entries bb 0 GPT_PARTITION_COUNT.

Definition gpt_entry_to_bb (offset : nat) (e : GptPartitionData) : M (list Z) unit :=
  set_guid offset (type_guid e);; set_guid (offset + 16) (guid e);;
  set_le64 (offset + 32) (first_lba e);; set_le64 (offset + 40) (last_lba e);;
  set_le64 (offset + 48) (flags e);; set_name (offset + 56) (name e).

Fixpoint entries_to_bb (i : nat) (es : list GptPartitionData) : M (list Z) unit :=
  match es with
  | [] => mret tt
  | e :: es' => gpt_entry_to_bb (i * GPT_PARTITION_DATA_SIZE) e;; entries_to_bb (S i) es'
  end.

Definition gpt_table_to_bb (tbl : list GptPartitionData) : result (list Z) :=
  build (GPT_PARTITION_COUNT * GPT_PARTITION_DATA_SIZE) (entries_to_bb 0 tbl).

(** ** Hexadecimal round trip *)

(** The upper-case form of a hexadecimal character; other characters stay. *)
Definition upper (c : Z) : Z := if decide (97 ≤ c ≤ 102)%Z then (c - 32)%Z else c.

Fixpoint hex_fixed (n : nat) (v : Z) : list Z :=
  match n with
  | O => []
  | S n' => hex_fixed n' (v / 16)%Z ++ [hex_char (v mod 16)%Z]
  end.

Lemma length_hex_fixed n v : length (hex_fixed n v) = n.
Proof. revert v. induction n as [|n IH]; intros v; simpl; [done|]. rewrite length_app, IH. simpl. lia. Qed.

Lemma hex_fixed_0 n : hex_fixed n 0 = replicate n 48%Z.
Proof.
  induction n as [|n IH]; [done|]. cbn [hex_fixed]. change (0 / 16)%Z with 0%Z. rewrite IH.
  symmetry. apply replicate_S_end.
Qed.

Lemma print_hex_fixed n fuel v :
  n ≤ fuel → (0 ≤ v < 16 ^ Z.of_nat (S n))%Z →
  length (print_hex (S fuel) v) ≤ S n ∧
  replicate (S n - length (print_hex (S fuel) v)) 48%Z ++ print_hex (S fuel) v = hex_fixed (S n) v.
Proof.
  revert fuel v. induction n as [|n IH]; intros fuel v Hf Hv; cbn [print_hex].
  - rewrite decide_True by lia. simpl. split; [lia|]. by rewrite Z.mod_small by lia.
  - case_decide as Hsmall.
    + simpl. split; [lia|]. cbn [hex_fixed].
      rewrite (Z.div_small v 16), (Z.mod_small v 16) by lia.
      change (0 / 16)%Z with 0%Z. change (0 mod 16)%Z with 0%Z. rewrite hex_fixed_0.
      change (hex_char 0) with 48%Z. by rewrite <- replicate_S_end.
    + destruct fuel as [|fuel]; [lia|].
      rewrite Nat2Z.inj_succ, Z.pow_succ_r in Hv by lia.
      destruct (IH fuel (v / 16)%Z) as [Hlen Heq]; [lia|dlia|].
      rewrite length_app. cbn [length]. split; [lia|].
      change (hex_fixed (S (S n)) v) with (hex_fixed (S n) (v / 16)%Z ++ [hex_char (v mod 16)]).
      rewrite <- Heq, app_assoc. do 2 f_equal. f_equal. lia.
Qed.

Lemma setw_hex_fixed w v :
  0 < w ≤ 16 → (0 ≤ v < 16 ^ Z.of_nat w)%Z → setw_hex w v = hex_fixed w v.
Proof.
  intros Hw Hv. destruct w as [|w]; [lia|]. unfold setw_hex.
  destruct (print_hex_fixed w 15 v) as [_ H]; [lia|done|]. exact H.
Qed.

Lemma is_hex_spec c : is_hex c = true → ∃ d, hex_value c = Some d ∧ (0 ≤ d < 16)%Z ∧ hex_char d = upper c.
Proof.
  unfold is_hex. rewrite bool_decide_eq_true. intros [d Hd]. exists d. split; [done|].
  unfold hex_value in Hd. unfold hex_char, upper.
  repeat case_decide; simplify_eq; split; lia.
Qed.

Lemma stoul16_snoc s c : stoul16 (s ++ [c]) = (stoul16 s * 16 + default 0 (hex_value c))%Z.
Proof. unfold stoul16. by rewrite foldl_app. Qed.

Lemma stoul16_range s :
  Forall (λ c, is_hex c = true) s → (0 ≤ stoul16 s < 16 ^ Z.of_nat (length s))%Z.
Proof.
  induction s as [|c s IH] using rev_ind; intros Hs; [done|].
  apply Forall_app in Hs as [Hs Hc]. apply Forall_cons_1 in Hc as [Hc _].
  apply is_hex_spec in Hc as (d & Hd & Hr & _). specialize (IH Hs).
  rewrite stoul16_snoc, Hd, length_app. simpl default. cbn [length].
  rewrite Nat.add_1_r, Nat2Z.inj_succ, Z.pow_succ_r by lia. lia.
Qed.

Lemma hex_fixed_stoul16 s :
  Forall (λ c, is_hex c = true) s → hex_fixed (length s) (stoul16 s) = upper <$> s.
Proof.
  induction s as [|c s IH] using rev_ind; intros Hs; [done|].
  apply Forall_app in Hs as [Hs Hc]. apply Forall_cons_1 in Hc as [Hc _].
  apply is_hex_spec in Hc as (d & Hd & Hr & Hu). specialize (IH Hs).
  rewrite stoul16_snoc, Hd, length_app. cbn [length default].
  rewrite Nat.add_1_r. cbn [hex_fixed id]. rewrite fmap_app. f_equal.
  - rewrite <- IH. f_equal. rewrite Z.div_add_l, Z.div_small by lia. lia.
  - cbn. do 2 f_equal. rewrite <- Hu. f_equal.
    rewrite Z.add_comm, Z.mod_add, Z.mod_small by lia. done.
Qed.

Lemma setw_stoul16 w s :
  length s = w → 0 < w ≤ 16 → Forall (λ c, is_hex c = true) s →
  setw_hex w (stoul16 s) = upper <$> s.
Proof.
  intros Hl Hw Hs. pose proof (stoul16_range s Hs) as Hr. rewrite Hl in Hr.
  rewrite setw_hex_fixed by done. rewrite <- Hl. by apply hex_fixed_stoul16.
Qed.

Lemma upper_dash : upper dash = dash.
Proof. done. Qed.

Lemma hex_value_upper c : hex_value (upper c) = hex_value c.
Proof.
  unfold hex_value, upper. repeat case_decide; try lia; try (f_equal; lia); done.
Qed.

Lemma stoul16_upper s : stoul16 (upper <$> s) = stoul16 s.
Proof.
  induction s as [|c s IH] using rev_ind; [done|].
  rewrite fmap_app. cbn [fmap list_fmap]. by rewrite !stoul16_snoc, IH, hex_value_upper.
Qed.

(** ** GUID fields *)

(** A GUID the format accepts, taken apart. *)
Definition guid_ok (g : list Z) : Prop := is_Some (guid_match g).

#[global] Instance guid_ok_dec g : Decision (guid_ok g).
Proof. unfold guid_ok. apply _. Defined.

Lemma guid_match_spec g g1 g2 g3 g4 g5 :
  guid_match g = Some (g1, g2, g3, g4, g5) ↔
  g = g1 ++ [dash] ++ g2 ++ [dash] ++ g3 ++ [dash] ++ g4 ++ [dash] ++ g5 ∧
  (length g1 = 8 ∧ length g2 = 4 ∧ length g3 = 4 ∧ length g4 = 4 ∧ length g5 = 12) ∧
  Forall (λ c, is_hex c = true) (g1 ++ g2 ++ g3 ++ g4 ++ g5).
Proof.
  unfold guid_match. split.
  - intros H. destruct (_ && _) eqn:Hb; [|done]. injection H as <- <- <- <- <-.
    rewrite !andb_true_iff, !bool_decide_eq_true, forallb_forall in Hb.
    destruct Hb as [[[[[Hlen Hhex] H8] H13] H18] H23].
    assert (∀ i x, g !! i = Some x → slice i 1 g = [x]) as H1.
    { intros i x Hi. unfold slice. by rewrite (drop_S g x i Hi). }
    split_and!; try (apply length_slice; lia).
    + rewrite <- (slice_all 36 g Hlen) at 1.
      rewrite <- (H1 _ _ H8) at 1. rewrite <- (H1 _ _ H13) at 1.
      rewrite <- (H1 _ _ H18) at 1. rewrite <- (H1 _ _ H23) at 1.
      rewrite (slice_app_split 0 8 28 g : slice 0 36 g = _),
        (slice_app_split 8 1 27 g : slice (0 + 8) 28 g = _),
        (slice_app_split 9 4 23 g : slice (8 + 1) 27 g = _),
        (slice_app_split 13 1 22 g : slice (9 + 4) 23 g = _),
        (slice_app_split 14 4 18 g : slice (13 + 1) 22 g = _),
        (slice_app_split 18 1 17 g : slice (14 + 4) 18 g = _),
        (slice_app_split 19 4 13 g : slice (18 + 1) 17 g = _),
        (slice_app_split 23 1 12 g : slice (19 + 4) 13 g = _). done.
    + apply list.Forall_forall. intros x Hx. apply Hhex. by apply list_elem_of_In.
  - intros (-> & (H1 & H2 & H3 & H4 & H5) & Hhex).
    do 9 (destruct g1 as [|? g1]; try done). do 5 (destruct g2 as [|? g2]; try done).
    do 5 (destruct g3 as [|? g3]; try done). do 5 (destruct g4 as [|? g4]; try done).
    do 13 (destruct g5 as [|? g5]; try done).
    cbn [slice take drop app]. apply forallb_forall in Hhex || idtac.
    rewrite (proj2 (forallb_forall _ _)); [done|].
    intros x Hx. rewrite list.Forall_forall in Hhex. apply Hhex. by apply list_elem_of_In.
Qed.

Definition guid_bytes (g : list Z) : list Z :=
  match guid_match g with
  | Some (g1, g2, g3, g4, g5) =>
      concat [encode LE32 (stoul16 g1); encode LE16 (stoul16 g2); encode LE16 (stoul16 g3);
              encode BE16 (stoul16 g4); encode BE48 (stoul16 g5)]
  | None => []
  end.

Lemma length_guid_bytes g : guid_ok g → length (guid_bytes g) = 16.
Proof. intros [[[[[g1 g2] g3] g4] g5] H]. unfold guid_bytes. by rewrite H. Qed.

Lemma writes_guid off p g : off = p → guid_ok g → writes (set_guid off g) p (guid_bytes g).
Proof.
  intros <- [[[[[g1 g2] g3] g4] g5] H]. unfold set_guid, guid_bytes. rewrite H.
  cbn [concat]. rewrite app_nil_r.
  eapply writes_seq; [apply (writes_setter LE32); lia|].
  eapply writes_seq; [apply (writes_setter LE16); simpl; lia|].
  eapply writes_seq; [apply (writes_setter LE16); simpl; lia|].
  eapply writes_seq; [apply (writes_setter BE16); simpl; lia|].
  apply (writes_setter BE48). simpl. lia.
Qed.

(** Reading a piece of a record whose image is a slice of the buffer. *)
Lemma getter_piece a off p k n bb ps v :
  slice off n bb = concat ps → ps !! k = Some (encode a v) →
  p = length (concat (take k ps)) → p + width a ≤ n →
  in_range (8 * Z.of_nat (width a)) v →
  getter a (off + p) bb = Ok v.
Proof.
  intros Hs Hk Hp Hle Hv. apply getter_slice; [|done].
  rewrite <- (slice_slice off n p (width a) bb) by done. rewrite Hs.
  apply (slice_concat k); [done|done|by rewrite length_encode].
Qed.

Ltac to_getter :=
  change get_le16 with (getter LE16); change get_le32 with (getter LE32);
  change get_le64 with (getter LE64); change get_be16 with (getter BE16);
  change get_be48 with (getter BE48).

(** Evaluate the next read, of the [k]-th piece of the record in the context. *)
Ltac piece a k :=
  match goal with
  | Hs : slice ?off ?n ?bb = concat ?ps |- context [getter a (?off + ?p) ?bb] =>
      let x := eval cbv beta iota zeta delta [lookup list_lookup] in (ps !! k) in
      match x with
      | Some (encode a ?v) =>
          rewrite (getter_piece a off p k n bb ps v Hs) by
            first [reflexivity | done | simpl; lia]
      end
  end; cbn [mbind result_bind].

Lemma get_guid_slice bb off g :
  guid_ok g → slice off 16 bb = guid_bytes g → get_guid bb off = Ok (upper <$> g).
Proof.
  intros [[[[[g1 g2] g3] g4] g5] H] Hs. unfold guid_bytes in Hs. rewrite H in Hs.
  apply guid_match_spec in H as (-> & (H1 & H2 & H3 & H4 & H5) & Hhex).
  rewrite !Forall_app in Hhex. destruct Hhex as (X1 & X2 & X3 & X4 & X5).
  pose proof (stoul16_range _ X1) as R1. pose proof (stoul16_range _ X2) as R2.
  pose proof (stoul16_range _ X3) as R3. pose proof (stoul16_range _ X4) as R4.
  pose proof (stoul16_range _ X5) as R5. rewrite H1, H2, H3, H4, H5 in *.
  unfold get_guid. to_getter. piece LE32 0. piece LE16 1. piece LE16 2. piece BE16 3. piece BE48 4.
  cbn [mbind result_bind]. f_equal.
  rewrite !setw_stoul16 by (done || lia). by rewrite !fmap_app.
Qed.

(** ** Name fields *)

Definition name_units (nm : list Z) : list Z :=
  (char_to_u16 <$> take 36 nm) ++ replicate (36 - length nm) 0%Z.

Definition name_bytes (nm : list Z) : list Z := concat (encode LE16 <$> name_units nm).

(** What survives in the field: 36 characters, no NUL. *)
Definition norm_name (nm : list Z) : list Z := filter (λ c, c ≠ 0%Z) (take 36 nm).

Lemma length_units us : length (concat (encode LE16 <$> us)) = 2 * length us.
Proof. induction us as [|u us IH]; [done|]. cbn [fmap list_fmap concat]. rewrite length_app, IH, length_encode. simpl. lia. Qed.

Lemma length_name_units nm : length (name_units nm) = 36.
Proof. unfold name_units. rewrite length_app, length_fmap, length_take, length_replicate. lia. Qed.

Lemma length_name_bytes nm : length (name_bytes nm) = 72.
Proof. unfold name_bytes. by rewrite length_units, length_name_units. Qed.

Lemma writes_chars off i n nm :
  n ≤ length nm →
  writes (for_each (zip (seq i n) nm) (λ '(i, c), set_le16 (off + i * 2) (char_to_u16 c)))
    (off + i * 2) (concat (encode LE16 <$> (char_to_u16 <$> take n nm))).
Proof.
  revert i nm. induction n as [|n IH]; intros i nm Hn; [apply writes_ret|].
  destruct nm as [|c nm]; simpl in Hn; [lia|].
  cbn [seq zip zip_with for_each take fmap list_fmap concat].
  apply writes_seq; [by apply (writes_setter LE16)|].
  rewrite length_encode. replace (off + i * 2 + width LE16) with (off + S i * 2) by (simpl; lia).
  apply IH. lia.
Qed.

Lemma writes_zeros off i n :
  writes (for_each (seq i n) (λ i, set_le16 (off + i * 2) 0))
    (off + i * 2) (concat (encode LE16 <$> replicate n 0%Z)).
Proof.
  revert i. induction n as [|n IH]; intros i; [apply writes_ret|].
  cbn [seq for_each replicate fmap list_fmap concat].
  apply writes_seq; [by apply (writes_setter LE16)|].
  rewrite length_encode. replace (off + i * 2 + width LE16) with (off + S i * 2) by (simpl; lia).
  apply IH.
Qed.

Lemma writes_name off p nm : off = p → writes (set_name off nm) p (name_bytes nm).
Proof.
  intros <-. unfold set_name, name_bytes, name_units.
  change (Nat.div GPT_PARTITION_NAME_SIZE 2) with 36.
  replace (take 36 nm) with (take (length nm `min` 36) nm); last first.
  { destruct (decide (length nm ≤ 36)); [by rewrite Nat.min_l, !take_ge by lia|].
    by rewrite Nat.min_r by lia. }
  rewrite fmap_app, concat_app. apply writes_seq.
  - pose proof (writes_chars off 0 (length nm `min` 36) nm) as Hw. rewrite Nat.add_0_r in Hw.
    apply Hw. lia.
  - replace (36 - length nm) with (36 - length nm `min` 36) by lia.
    rewrite length_units, length_fmap.
    replace (off + 2 * length (take (length nm `min` 36) nm)) with (off + (length nm `min` 36) * 2)
      by (rewrite length_take; lia).
    apply writes_zeros.
Qed.

Lemma get_name_from_slice bb off i us :
  Forall (in_range 16) us →
  slice (off + i * 2) (2 * length us) bb = concat (encode LE16 <$> us) →
  get_name_from bb off i (length us) = Ok (filter (λ c, c ≠ 0%Z) (wrap 8 <$> us)).
Proof.
  intros Hus. revert i. induction Hus as [|u us Hu Hus IH]; intros i Hs; [done|].
  cbn [length fmap list_fmap concat] in Hs.
  replace (2 * S (length us)) with (2 + 2 * length us) in Hs by lia.
  rewrite slice_app_split in Hs. apply app_inj_1 in Hs as [Hs1 Hs2]; last first.
  { pose proof (f_equal length Hs) as Hl. rewrite !length_app, length_units, length_encode in Hl.
    rewrite length_encode. unfold slice in Hl |- *. rewrite !length_take, !length_drop in Hl.
    rewrite length_take, length_drop. change (width LE16) with 2 in *. lia. }
  cbn [length get_name_from]. change (get_le16 (off + i * 2) bb) with (getter LE16 (off + i * 2) bb).
  rewrite (getter_slice LE16 _ u) by done. cbn [mbind result_bind].
  rewrite IH by (rewrite <- Hs2; f_equal; lia).
  cbn [fmap list_fmap]. rewrite filter_cons. by case_decide.
Qed.

Lemma char_to_u16_range c : is_byte c → in_range 16 (char_to_u16 c) ∧ wrap 8 (char_to_u16 c) = c.
Proof.
  unfold is_byte, in_range, wrap, char_to_u16. zpow. intros Hc. case_decide; split; dlia.
Qed.

Lemma filter_zeros n : filter (λ c, c ≠ 0%Z) (replicate n 0%Z) = [].
Proof. induction n as [|n IH]; [done|]. cbn [replicate]. rewrite filter_cons_False by auto. done. Qed.

Lemma get_name_slice bb off nm :
  Forall is_byte nm → slice off 72 bb = name_bytes nm → get_name bb off = Ok (norm_name nm).
Proof.
  intros Hnm Hs. unfold get_name.
  change (Nat.div GPT_PARTITION_NAME_SIZE 2) with 36. rewrite <- (length_name_units nm).
  assert (Forall is_byte (take 36 nm)) as Ht by by apply Forall_take.
  rewrite get_name_from_slice.
  - f_equal. unfold name_units, norm_name. rewrite fmap_app, list.filter_app, <- list_fmap_compose.
    rewrite fmap_replicate. change (wrap 8 0) with 0%Z. rewrite filter_zeros, app_nil_r. f_equal.
    rewrite <- (list_fmap_id (take 36 nm)) at 2. apply list_fmap_ext. intros i c Hc.
    apply char_to_u16_range. by eapply Forall_lookup_1.
  - unfold name_units. apply Forall_app; split.
    + apply list.Forall_fmap. eapply list.Forall_impl; [exact Ht|]. intros c Hc. by apply char_to_u16_range.
    + apply Forall_replicate. unfold in_range. lia.
  - rewrite length_name_units, Nat.add_0_r. exact Hs.
Qed.

(** ** The header *)

(** The C++ field types, and a disk GUID the format accepts. *)
Record header_ok (h : GptHeaderData) : Prop := {
  hok_signature : in_range 64 (signature h);
  hok_revision : in_range 32 (revision h);
  hok_header_size : in_range 32 (header_size h);
  hok_header_crc : in_range 32 (header_crc h);
  hok_current_lba : in_range 64 (current_lba h);
  hok_backup_lba : in_range 64 (backup_lba h);
  hok_first_usable_lba : in_range 64 (first_usable_lba h);
  hok_last_usable_lba : in_range 64 (last_usable_lba h);
  hok_disk_guid : guid_ok (disk_guid h);
  hok_partition_table_lba : in_range 64 (partition_table_lba h);
  hok_num_of_partitions : in_range 32 (num_of_partitions h);
  hok_partition_entry_size : in_range 32 (partition_entry_size h);
  hok_partition_table_crc : in_range 32 (partition_table_crc h);
}.

Definition header_pieces (h : GptHeaderData) : list (list Z) :=
  [encode LE64 (signature h); encode LE32 (revision h); encode LE32 (header_size h);
   encode LE32 (header_crc h); replicate 4 0%Z;
   encode LE64 (current_lba h); encode LE64 (backup_lba h); encode LE64 (first_usable_lba h);
   encode LE64 (last_usable_lba h); guid_bytes (disk_guid h); encode LE64 (partition_table_lba h);
   encode LE32 (num_of_partitions h); encode LE32 (partition_entry_size h);
   encode LE32 (partition_table_crc h)].

Definition header_bytes (h : GptHeaderData) : list Z := concat (header_pieces h).

Lemma length_header_bytes h : guid_ok (disk_guid h) → length (header_bytes h) = 92.
Proof.
  intros Hg. unfold header_bytes, header_pieces. cbn [concat].
  rewrite !length_app, length_guid_bytes, !length_encode by done. done.
Qed.

Ltac writes_next a := eapply writes_seq; [apply (writes_setter a); simpl; rewrite ?length_app, ?length_encode; simpl; lia|].

Lemma build_assoc4 n (m1 m2 m3 m4 m5 : M (list Z) unit) :
  build n (m1;; m2;; m3;; m4;; m5) = build n ((m1;; m2;; m3;; m4);; m5).
Proof.
  unfold build, mbind, M_bind.
  by repeat match goal with |- context [?m ?s] => is_var m; destruct (m s) as [[] ?] end.
Qed.

Lemma splice_0_make n xs : length xs ≤ n → splice 0 xs (make n) = xs ++ make (n - length xs).
Proof. intros H. unfold splice, make. simpl. by rewrite drop_replicate. Qed.

(** Two groups of writes with a gap between them, on a fresh buffer. *)
Lemma build_gap n m1 m2 xs ys g :
  writes m1 0 xs → writes m2 (length xs + g) ys → length xs + g + length ys = n →
  build n (m1;; m2) = Ok (xs ++ replicate g 0%Z ++ ys).
Proof.
  intros H1 H2 Hn. unfold build, mbind, M_bind.
  rewrite H1 by (unfold make; rewrite length_replicate; lia).
  rewrite splice_0_make by lia.
  rewrite H2 by (unfold make; rewrite length_app, length_replicate; lia). f_equal.
  unfold splice. rewrite take_app_add'; [|done]. rewrite <- app_assoc. f_equal.
  unfold make. replace (n - length xs) with (g + length ys) by lia. rewrite replicate_add.
  rewrite take_app_length' by (by rewrite length_replicate). f_equal.
  rewrite drop_ge; [by rewrite app_nil_r|]. rewrite !length_app, !length_replicate. lia.
Qed.

Lemma gpt_header_to_bb_eq h :
  guid_ok (disk_guid h) → gpt_header_to_bb h = Ok (header_bytes h).
Proof.
  intros Hg. unfold gpt_header_to_bb. rewrite build_assoc4. change set_le64 with (setter LE64).
  change set_le32 with (setter LE32).
  erewrite (build_gap _ _ _ _ _ 4).
  2:{ writes_next LE64. writes_next LE32. writes_next LE32. apply (writes_setter LE32). done. }
  2:{ writes_next LE64. writes_next LE64. writes_next LE64. writes_next LE64.
      eapply writes_seq; [by apply writes_guid|].
      rewrite length_guid_bytes by done.
      writes_next LE64. writes_next LE32. writes_next LE32. by apply (writes_setter LE32). }
  - unfold header_bytes, header_pieces. cbn [concat]. by rewrite <- !app_assoc, app_nil_r.
  - rewrite !length_app, length_guid_bytes, !length_encode by done. done.
Qed.

(** Reading the bytes of a header gives the header, with the GUID in upper case. *)
Definition norm_header (h : GptHeaderData) : GptHeaderData :=
  mkHeader (signature h) (revision h) (header_size h) (header_crc h) (current_lba h)
    (backup_lba h) (first_usable_lba h) (last_usable_lba h) (upper <$> disk_guid h)
    (partition_table_lba h) (num_of_partitions h) (partition_entry_size h) (partition_table_crc h).

(** The side conditions of one header field. *)
Ltac side := first
  [ reflexivity | cbn [width]; lia | match goal with H : header_ok _ |- _ => by destruct H end
  | match goal with H : ∀ k p, 10 ≤ k → _ |- _ => by apply H; [lia|] end ].

Lemma bb_to_gpt_header_bytes h :
  header_ok h → bb_to_gpt_header (header_bytes h) = Ok (norm_header h).
Proof.
  intros Hok. pose proof (hok_disk_guid h Hok) as Hg.
  pose proof (length_header_bytes h Hg) as Hl.
  assert (slice 0 92 (header_bytes h) = concat (header_pieces h)) as Hs by by apply slice_all.
  assert (∀ a p k v, header_pieces h !! k = Some (encode a v) →
     p = length (concat (take k (header_pieces h))) → p + width a ≤ 92 →
     in_range (8 * Z.of_nat (width a)) v → getter a p (header_bytes h) = Ok v) as Hp
    by (intros a p k v; by apply (getter_piece a 0 p k 92)).
  assert (get_guid (header_bytes h) 56 = Ok (upper <$> disk_guid h)) as HG.
  { apply get_guid_slice; [done|]. rewrite <- (slice_slice 0 92 56 16), Hs by lia.
    by apply (slice_concat 9); rewrite ?length_guid_bytes. }
  assert (∀ k, 10 ≤ k → length (concat (take k (header_pieces h))) =
            72 + length (concat (drop 10 (take k (header_pieces h))))) as Hlen.
  { intros k Hk. rewrite <- (take_drop 10 (take k _)) at 1. rewrite concat_app, length_app.
    rewrite take_take, Nat.min_l by lia. cbn [take header_pieces concat].
    rewrite !length_app, length_guid_bytes, !length_encode by done. done. }
  assert (∀ k p, 10 ≤ k → p = 72 + length (concat (drop 10 (take k (header_pieces h)))) →
            p = length (concat (take k (header_pieces h)))) as Hlen' by (intros k p Hk ->; by rewrite Hlen).
  unfold bb_to_gpt_header. to_getter. rewrite HG.
  rewrite (Hp LE64 0 0 (signature h)) by side.
  rewrite (Hp LE32 8 1 (revision h)) by side.
  rewrite (Hp LE32 12 2 (header_size h)) by side.
  rewrite (Hp LE32 16 3 (header_crc h)) by side.
  rewrite (Hp LE64 24 5 (current_lba h)) by side.
  rewrite (Hp LE64 32 6 (backup_lba h)) by side.
  rewrite (Hp LE64 40 7 (first_usable_lba h)) by side.
  rewrite (Hp LE64 48 8 (last_usable_lba h)) by side.
  rewrite (Hp LE64 72 10 (partition_table_lba h)) by side.
  rewrite (Hp LE32 80 11 (num_of_partitions h)) by side.
  rewrite (Hp LE32 84 12 (partition_entry_size h)) by side.
  rewrite (Hp LE32 88 13 (partition_table_crc h)) by side.
  done.
Qed.

(** ** The partition entries *)

Record entry_ok (e : GptPartitionData) : Prop := {
  eok_type_guid : guid_ok (type_guid e);
  eok_guid : guid_ok (guid e);
  eok_first_lba : in_range 64 (first_lba e);
  eok_last_lba : in_range 64 (last_lba e);
  eok_flags : in_range 64 (flags e);
  eok_name : Forall is_byte (name e);
}.

Definition norm_entry (e : GptPartitionData) : GptPartitionData :=
  mkEntry (upper <$> type_guid e) (upper <$> guid e) (first_lba e) (last_lba e) (flags e)
    (norm_name (name e)).

Definition entry_bytes (e : GptPartitionData) : list Z :=
  (guid_bytes (type_guid e) ++ guid_bytes (guid e)) ++
  (encode LE64 (first_lba e) ++ encode LE64 (last_lba e) ++ encode LE64 (flags e)) ++
  name_bytes (name e).

Lemma length_gpt_entry_bytes e :
  guid_ok (type_guid e) → guid_ok (guid e) → length (entry_bytes e) = 128.
Proof.
  intros H1 H2. unfold entry_bytes.
  by rewrite !length_app, !length_guid_bytes, !length_encode, length_name_bytes by done.
Qed.

Lemma writes_gpt_entry off p e :
  off = p → guid_ok (type_guid e) → guid_ok (guid e) →
  writes (gpt_entry_to_bb off e) p (entry_bytes e).
Proof.
  intros <- H1 H2. unfold gpt_entry_to_bb, entry_bytes. rewrite <- !app_assoc.
  change set_le64 with (setter LE64).
  eapply writes_seq; [by apply writes_guid|]. rewrite length_guid_bytes by done.
  eapply writes_seq; [by apply writes_guid|]. rewrite length_guid_bytes by done.
  writes_next LE64. writes_next LE64. writes_next LE64.
  apply writes_name. simpl. lia.
Qed.

Lemma slice_take_inv {A} off n m (bb xs ys : list A) :
  slice off (n + m) bb = xs ++ ys → length xs = n →
  slice off n bb = xs ∧ slice (off + n) m bb = ys.
Proof.
  intros Hs Hl. split.
  - pose proof (slice_slice off (n + m) 0 n bb ltac:(lia)) as H0.
    rewrite Hs, Nat.add_0_r in H0. rewrite <- H0. unfold slice. rewrite drop_0.
    by rewrite take_app_length' by done.
  - rewrite <- (slice_slice off (n + m) n m bb), Hs by lia. unfold slice.
    rewrite drop_app_length' by done. apply take_ge.
    pose proof (f_equal length Hs) as Hl'. rewrite length_app in Hl'. unfold slice in Hl'.
    rewrite length_take in Hl'. lia.
Qed.

Lemma bb_to_gpt_entry_slice bb off e :
  entry_ok e → slice off 128 bb = entry_bytes e → bb_to_gpt_entry bb off = Ok (norm_entry e).
Proof.
  intros [H1 H2 H3 H4 H5 H6] Hs. unfold entry_bytes in Hs. rewrite <- !app_assoc in Hs.
  apply (slice_take_inv off 16 112) in Hs as [Hty Hs]; [|by apply length_guid_bytes].
  apply (slice_take_inv _ 16 96) in Hs as [Hg Hs]; [|by apply length_guid_bytes].
  apply (slice_take_inv _ 8 88) in Hs as [Hf Hs]; [|by apply length_encode].
  apply (slice_take_inv _ 8 80) in Hs as [Hl Hs]; [|by apply length_encode].
  apply (slice_take_inv _ 8 72) in Hs as [Hfl Hn]; [|by apply length_encode].
  rewrite <- !Nat.add_assoc in *. simpl Nat.add in *. unfold bb_to_gpt_entry. to_getter.
  rewrite (get_guid_slice _ _ _ H1 Hty), (get_guid_slice _ _ _ H2 Hg).
  rewrite (getter_slice LE64 _ _ _ Hf H3), (getter_slice LE64 _ _ _ Hl H4),
    (getter_slice LE64 _ _ _ Hfl H5), (get_name_slice _ _ _ H6 Hn). done.
Qed.

Definition table_bytes (es : list GptPartitionData) : list Z := concat (entry_bytes <$> es).

Lemma length_table_bytes es : Forall entry_ok es → length (table_bytes es) = 128 * length es.
Proof.
  induction 1 as [|e es He _ IH]; [done|].
  change (table_bytes (e :: es)) with (entry_bytes e ++ table_bytes es). cbn [length].
  rewrite length_app, IH, length_gpt_entry_bytes by apply He. lia.
Qed.

Lemma writes_entries i es :
  Forall entry_ok es → writes (entries_to_bb i es) (i * 128) (table_bytes es).
Proof.
  intros Hes. revert i. induction Hes as [|e es He _ IH]; intros i; [apply writes_ret|].
  change (table_bytes (e :: es)) with (entry_bytes e ++ table_bytes es). cbn [entries_to_bb].
  eapply writes_seq; [apply writes_gpt_entry; [done|apply He|apply He]|].
  rewrite length_gpt_entry_bytes by apply He.
  replace (i * 128 + 128) with (S i * 128) by lia. apply IH.
Qed.

Lemma bb_to_entries_slice bb i es :
  Forall entry_ok es → slice (i * 128) (128 * length es) bb = table_bytes es →
  bb_to_entries bb i (length es) = Ok (norm_entry <$> es).
Proof.
  intros Hes. revert i. induction Hes as [|e es He Hes IH]; intros i Hs; [done|].
  change (table_bytes (e :: es)) with (entry_bytes e ++ table_bytes es) in Hs. cbn [length] in Hs.
  replace (128 * S (length es)) with (128 + 128 * length es) in Hs by lia.
  apply slice_take_inv in Hs as [Hs1 Hs2]; [|apply length_gpt_entry_bytes; apply He].
  cbn [length bb_to_entries]. rewrite (bb_to_gpt_entry_slice _ _ e) by done.
  cbn [mbind result_bind]. rewrite IH; [done|]. rewrite <- Hs2. f_equal. lia.
Qed.

(** A table the format accepts: 128 entries of the C++ types. *)
Definition table_ok (es : list GptPartitionData) : Prop :=
  length es = GPT_PARTITION_COUNT ∧ Forall entry_ok es.

Lemma gpt_table_to_bb_eq es : table_ok es → gpt_table_to_bb es = Ok (table_bytes es).
Proof.
  intros [Hn Hes]. unfold gpt_table_to_bb, build.
  pose proof (length_table_bytes es Hes) as Hl. rewrite Hn in Hl.
  unfold GPT_PARTITION_COUNT, GPT_PARTITION_DATA_SIZE in *.
  rewrite (writes_entries 0) by (done || unfold make; rewrite length_replicate; lia).
  f_equal. change (0 * 128) with 0. rewrite splice_0_make by lia.
  rewrite Hl, Nat.sub_diag. by rewrite app_nil_r.
Qed.

Lemma bb_to_gpt_table_bytes es :
  table_ok es → bb_to_gpt_table (table_bytes es) = Ok (norm_entry <$> es).
Proof.
  intros [Hn Hes]. unfold bb_to_gpt_table. rewrite <- Hn. apply bb_to_entries_slice; [done|].
  apply slice_all. by apply length_table_bytes.
Qed.

(** ** Normal forms have the same bytes *)

Lemma is_hex_upper c : is_hex (upper c) = is_hex c.
Proof. unfold is_hex. by rewrite hex_value_upper. Qed.

Lemma guid_match_upper g g1 g2 g3 g4 g5 :
  guid_match g = Some (g1, g2, g3, g4, g5) →
  guid_match (upper <$> g) = Some (upper <$> g1, upper <$> g2, upper <$> g3, upper <$> g4, upper <$> g5).
Proof.
  rewrite !guid_match_spec. intros (-> & Hl & Hhex). split_and!; rewrite ?length_fmap; try tauto.
  - by rewrite !fmap_app.
  - rewrite <- !fmap_app. apply list.Forall_fmap. eapply list.Forall_impl; [exact Hhex|].
    intros c Hc. simpl. by rewrite is_hex_upper.
Qed.

Lemma guid_ok_upper g : guid_ok g → guid_ok (upper <$> g).
Proof. intros [[[[[g1 g2] g3] g4] g5] H]. eexists. by apply guid_match_upper. Qed.

Lemma guid_bytes_upper g : guid_ok g → guid_bytes (upper <$> g) = guid_bytes g.
Proof.
  intros [[[[[g1 g2] g3] g4] g5] H]. unfold guid_bytes.
  by rewrite (guid_match_upper _ _ _ _ _ _ H), H, !stoul16_upper.
Qed.

Lemma upper_idemp (g : list Z) : upper <$> (upper <$> g) = upper <$> g.
Proof.
  rewrite <- list_fmap_compose. apply list_fmap_ext. intros i c _. simpl. unfold upper.
  repeat case_decide; lia.
Qed.

Lemma norm_header_bytes h : guid_ok (disk_guid h) → header_bytes (norm_header h) = header_bytes h.
Proof.
  intros Hg. unfold header_bytes, header_pieces, norm_header.
  cbn [signature revision header_size header_crc current_lba backup_lba first_usable_lba
       last_usable_lba disk_guid partition_table_lba num_of_partitions partition_entry_size
       partition_table_crc]. by rewrite guid_bytes_upper.
Qed.

Lemma norm_header_ok h : header_ok h → header_ok (norm_header h).
Proof. intros []. split; try done. by apply guid_ok_upper. Qed.

(** A name without NUL characters. *)
Definition name_ok (nm : list Z) : Prop := Forall (λ c, c ≠ 0%Z) nm.

Lemma norm_name_ok nm : name_ok nm → norm_name nm = take 36 nm.
Proof.
  intros H. apply filter_all. by apply Forall_take.
Qed.

Lemma norm_entry_bytes e :
  entry_ok e → name_ok (name e) → entry_bytes (norm_entry e) = entry_bytes e.
Proof.
  intros [] Hn. unfold entry_bytes, norm_entry. cbn [type_guid guid first_lba last_lba flags name].
  rewrite !guid_bytes_upper by done. do 2 f_equal. unfold name_bytes, name_units.
  rewrite norm_name_ok, take_take, Nat.min_id by done. do 4 f_equal. rewrite length_take. lia.
Qed.

Lemma norm_entry_ok e : entry_ok e → entry_ok (norm_entry e).
Proof.
  intros []. split; try done; simpl; try by apply guid_ok_upper.
  by apply Forall_filter_weaken, Forall_take.
Qed.

Lemma norm_table_ok es : table_ok es → table_ok (norm_entry <$> es).
Proof.
  intros [Hn Hes]. split; [by rewrite length_fmap|]. apply list.Forall_fmap.
  eapply list.Forall_impl; [exact Hes|]. intros e. apply norm_entry_ok.
Qed.

Lemma norm_table_bytes es :
  table_ok es → Forall (λ e, name_ok (name e)) es → table_bytes (norm_entry <$> es) = table_bytes es.
Proof.
  intros [_ Hes] Hn. unfold table_bytes. f_equal. rewrite <- list_fmap_compose.
  apply list_fmap_ext. intros i e He. simpl. apply norm_entry_bytes.
  - by eapply Forall_lookup_1 in Hes.
  - by eapply Forall_lookup_1 in Hn.
Qed.

(** ** Theorems *)

(** [set_guid] accepts exactly the strings of the GUID expression and
    throws on every other one without touching the buffer; on a buffer long
    enough it writes the 16 bytes of the mixed-endian GUID layout at the offset
    and nothing else, and get_guid at the same offset returns the GUID in upper
    case, which is itself stable under another set and get. *)
Theorem guid_roundtrip bb offset g :
  (guid_match g = None →
     set_guid offset g bb = (Throw (runtime_error "Invalid GUID format: "), bb)) ∧
  (guid_ok g → offset + 16 ≤ length bb →
     ∃ bb', set_guid offset g bb = (Ok tt, bb') ∧ length bb' = length bb ∧
       get_guid bb' offset = Ok (upper <$> g) ∧
       (∀ i, i < offset ∨ offset + 16 ≤ i → bb' !! i = bb !! i) ∧
       set_guid offset (upper <$> g) bb' = (Ok tt, bb')).
Proof.
  split; [intros H; unfold set_guid; by rewrite H|]. intros Hg Hlen.
  pose proof (length_guid_bytes g Hg) as Hl.
  assert (length (splice offset (guid_bytes g) bb) = length bb) as Hl2 by (apply length_splice; lia).
  pose proof (writes_guid offset offset g eq_refl Hg) as W1.
  pose proof (writes_guid offset offset _ eq_refl (guid_ok_upper g Hg)) as W2.
  rewrite guid_bytes_upper in W2 by done.
  exists (splice offset (guid_bytes g) bb). rewrite W1 by lia. rewrite W2 by lia. split_and!.
  - done.
  - done.
  - apply get_guid_slice; [done|]. rewrite <- Hl at 1. apply slice_splice_same. lia.
  - intros i Hi. apply lookup_splice_other; lia.
  - f_equal. apply splice_splice_same; lia.
Qed.

(** A header whose fields have their C++ types is serialised to 92 bytes
    that parse back to it, a table of 128 such entries to 16384 bytes that parse
    back to it, up to the case of GUIDs, the NULs and the 36-character limit of
    names; a header or entry that has been parsed once serialises to the same
    bytes again, so checksums computed over re-serialised data are stable. *)
Theorem gpt_codec_roundtrip h es :
  header_ok h → table_ok es →
  (∃ hb, gpt_header_to_bb h = Ok hb ∧ length hb = GPT_HEADER_DATA_SIZE ∧
     bb_to_gpt_header hb = Ok (norm_header h) ∧ gpt_header_to_bb (norm_header h) = Ok hb) ∧
  (∃ tb, gpt_table_to_bb es = Ok tb ∧ length tb = GPT_PARTITION_COUNT * GPT_PARTITION_DATA_SIZE ∧
     bb_to_gpt_table tb = Ok (norm_entry <$> es) ∧
     (Forall (λ e, name_ok (name e)) es → gpt_table_to_bb (norm_entry <$> es) = Ok tb)).
Proof.
  intros Hh Hes. pose proof (hok_disk_guid h Hh) as Hg. split.
  - exists (header_bytes h). split_and!.
    + by apply gpt_header_to_bb_eq.
    + by apply length_header_bytes.
    + by apply bb_to_gpt_header_bytes.
    + rewrite gpt_header_to_bb_eq by apply norm_header_ok, Hh. by rewrite norm_header_bytes.
  - exists (table_bytes es). split_and!.
    + by apply gpt_table_to_bb_eq.
    + destruct Hes as [Hn Hes]. rewrite length_table_bytes, Hn by done. apply Nat.mul_comm.
    + by apply bb_to_gpt_table_bytes.
    + intros Hn. rewrite gpt_table_to_bb_eq by by apply norm_table_ok.
      by rewrite norm_table_bytes by done.
Qed.

Lemma GptHeaderData0_ok : header_ok GptHeaderData0.
Proof. split; try done; by eexists. Qed.

Lemma GptPartitionData0_ok : entry_ok GptPartitionData0.
Proof. split; try done; by eexists. Qed.

Definition sample_entry : GptPartitionData :=
  mkEntry GPT_PARTITION_TYPE_UUID_LINUX (chars "6ba7b810-9dad-11d1-80b4-00c04fd430c8") 40 49 0
    (chars "data").

Lemma sample_entry_ok : entry_ok sample_entry ∧ name_ok (name sample_entry).
Proof.
  split; [split|]; try done; try (by eexists).
  - cbn. repeat (apply Forall_cons_2; [unfold is_byte; lia|]). apply Forall_nil_2.
  - cbn. unfold name_ok. repeat (apply Forall_cons_2; [lia|]). apply Forall_nil_2.
Qed.

Lemma gpt_codec_roundtrip_witness :
  (∃ hb, gpt_header_to_bb GptHeaderData0 = Ok hb ∧ bb_to_gpt_header hb = Ok GptHeaderData0) ∧
  ∃ tb, gpt_table_to_bb (sample_entry :: replicate 127 GptPartitionData0) = Ok tb ∧
    bb_to_gpt_table tb = Ok (norm_entry <$> (sample_entry :: replicate 127 GptPartitionData0)).
Proof.
  destruct (gpt_codec_roundtrip GptHeaderData0 (sample_entry :: replicate 127 GptPartitionData0))
    as [(hb & H1 & _ & H2 & _) (tb & H3 & _ & H4 & _)].
  - exact GptHeaderData0_ok.
  - split; [done|]. apply Forall_cons_2; [apply sample_entry_ok|].
    apply Forall_replicate, GptPartitionData0_ok.
  - split; [exists hb; by split|exists tb; by split].
Defined.

End GptCodec.
