(* ===== verification/Gpt.v ===== *)
(** [partition::GptPartitionTable] (PSME/common/partition/src/gpt_partition_table.cpp)
    and [crc::Crc32] (PSME/common/crc/src/crc32.cpp).

    The object is the record [t]; the drive is the state of a [DriveInterface];
    zlib's [crc32] and the UUID generator are not in the repository: the first
    is a variable of the section, the second's result is an argument of the two
    methods that call it.  [std::sort] is [merge_sort] on the first LBA; the
    theorems on regions hold for every sorted permutation, so they do not depend
    on how equal keys are ordered.  [uint64_t] arithmetic wraps. *)

From Stdlib Require Import ZArith Lia.
From stdpp Require Import sorting.
From S2P Require Import Prelude.
From S2P Require Import ByteBuffer.
From S2P Require Import Drive.
From S2P Require Import Mbr.
From S2P Require Import GptCodec.
Import GptCodec.

Module Gpt.

Definition GPT_HEADER_LOCATION : Z := 1.
Definition GPT_HEADER_LBA : Z := 1.
Definition GPT_HEADER_SIZE_LBA : Z := 1.
Definition GPT_TABLE_SIZE_BYTES : Z := 16384.

Record t := mkGpt {
  m_gpt_header : GptHeaderData;
  m_gpt_table : list GptPartitionData;
  m_mbr : Mbr.t;
  m_bytes_per_lba : Z;
  m_is_valid : bool;
}.

(** [GptPartitionTable(lba_size)] *)
Definition gpt0 (lba_size : Z) : t :=
  mkGpt GptHeaderData0 (replicate GPT_PARTITION_COUNT GptPartitionData0) Mbr.mbr0 lba_size false.

Definition set_header (h : GptHeaderData) (s : t) : t :=
  mkGpt h (m_gpt_table s) (m_mbr s) (m_bytes_per_lba s) (m_is_valid s).
Definition set_table (es : list GptPartitionData) (s : t) : t :=
  mkGpt (m_gpt_header s) es (m_mbr s) (m_bytes_per_lba s) (m_is_valid s).
Definition set_mbr (m : Mbr.t) (s : t) : t :=
  mkGpt (m_gpt_header s) (m_gpt_table s) m (m_bytes_per_lba s) (m_is_valid s).
Definition set_valid (b : bool) (s : t) : t :=
  mkGpt (m_gpt_header s) (m_gpt_table s) (m_mbr s) (m_bytes_per_lba s) b.

Definition on_mbr {A} : M Mbr.t A → M t A := zoom m_mbr set_mbr.

Definition with_crc (crc : Z) (h : GptHeaderData) : GptHeaderData :=
  mkHeader (signature h) (revision h) (header_size h) crc (current_lba h)
    (backup_lba h) (first_usable_lba h) (last_usable_lba h) (disk_guid h)
    (partition_table_lba h) (num_of_partitions h) (partition_entry_size h) (partition_table_crc h).

(** [location * m_bytes_per_lba], a [uint64_t] *)
Definition byte_address (s : t) (lba : Z) : Z := wrap 64 (lba * m_bytes_per_lba s).

Definition integer_divide_and_ceil (a b : Z) : result Z :=
  if decide (b = 0)%Z then Throw (runtime_error "Division by zero!")
  else Ok (wrap 64 (a + b - 1) / b)%Z.

Definition entry (s : t) (i : nat) : GptPartitionData :=
  default GptPartitionData0 (m_gpt_table s !! i).

(** ** Queries *)

Definition get_partition_ids (s : t) : list nat :=
  filter (λ i, type_guid (entry s i) ≠ GPT_EMPTY_GUID) (seq 0 GPT_PARTITION_COUNT).

Definition get_available_partition_id (s : t) : result nat :=
  match filter (λ i, type_guid (entry s i) = GPT_EMPTY_GUID) (seq 0 GPT_PARTITION_COUNT) with
  | i :: _ => Ok i
  | [] => Throw id_unavailable
  end.

Definition get_partition (id : nat) (s : t) : result PartitionData :=
  if decide (GPT_PARTITION_COUNT ≤ id) then Throw (runtime_error "Invalid partition id: ")
  else
    let e := entry s id in
    if decide (type_guid e = GPT_EMPTY_GUID) then Throw (runtime_error "No partition on slot ")
    else
      let ty := if decide (type_guid e = GPT_PARTITION_TYPE_UUID_LINUX) then LINUX else UNKNOWN in
      if decide (last_lba e < first_lba e)%Z then
        Throw (runtime_error "Invalid partition data: last LBA < first LBA")
      else Ok (mkPartitionData (first_lba e) (wrap 64 (last_lba e - first_lba e + 1)) ty
                 (name e) (guid e)).

Definition get_max_usable_blocks (s : t) : Z :=
  wrap 64 (last_usable_lba (m_gpt_header s) - first_usable_lba (m_gpt_header s) + 1).

(** *** get_empty_region *)

(** A section is a pair of its first and last LBA. *)

Definition sections (s : t) : list (Z * Z) :=
  ((λ id, (first_lba (entry s id), last_lba (entry s id))) <$> get_partition_ids s) ++
  [(0, wrap 64 (first_usable_lba (m_gpt_header s) - 1));
   (wrap 64 (last_usable_lba (m_gpt_header s) + 1), wrap 64 (backup_lba (m_gpt_header s) + 1))]%Z.

Definition section_le (lhs rhs : (Z * Z)) : Prop := (lhs.1 ≤ rhs.1)%Z.

#[global] Instance section_le_dec : RelDecision section_le.
Proof. intros x y. unfold section_le. apply _. Defined.

#[global] Instance section_le_total : Total section_le.
Proof. intros x y. unfold section_le. lia. Qed.
#[global] Instance section_le_trans : Transitive section_le.
Proof. intros x y z. unfold section_le. lia. Qed.

(** [std::sort] with the comparison of the first LBAs *)
Definition sort_sections (l : list (Z * Z)) : list (Z * Z) := merge_sort section_le l.

(** The loop over neighbours. *)
Fixpoint scan (size_lba : Z) (prev : (Z * Z)) (rest : list (Z * Z)) : result Z :=
  match rest with
  | [] => Throw (runtime_error "No free regions of size ")
  | cur :: rest' =>
      let diff := wrap 64 (cur.1 - prev.2 - 1) in
      if decide (size_lba ≤ diff)%Z then Ok (wrap 64 (prev.2 + 1)) else scan size_lba cur rest'
  end.

Definition scan_sections (size_lba : Z) (l : list (Z * Z)) : result Z :=
  match l with
  | [] => Throw (runtime_error "No free regions of size ")
  | prev :: rest => scan size_lba prev rest
  end.

Definition get_empty_region (size_lba : Z) (s : t) : result Z :=
  if decide (size_lba = 0)%Z then
    Throw (runtime_error "Invalid size (0) of the requested region!")
  else if decide (size_lba > get_max_usable_blocks s)%Z then
    Throw (runtime_error "Requested size is larger than the size of the drive")
  else scan_sections size_lba (sort_sections (sections s)).

(** ** Changes of the table *)

(** [uuid] is the result of [make_v1_uuid()]. *)
Definition get_linux_partition_entry (uuid : list Z) (pd : PartitionData) : GptPartitionData :=
  let last := wrap 64 (pd_first_lba pd + pd_size_lba pd - 1) in
  mkEntry GPT_PARTITION_TYPE_UUID_LINUX uuid (pd_first_lba pd)
    (if decide (last < pd_first_lba pd)%Z then pd_first_lba pd else last) 0 (pd_name pd).

(** The overlap condition of [set_partition]. *)
Definition overlaps (first last : Z) (e : GptPartitionData) : bool :=
  bool_decide (first_lba e ≤ first ∧ first ≤ last_lba e)%Z
  || bool_decide (first_lba e ≤ last ∧ last ≤ last_lba e)%Z
  || bool_decide (first < first_lba e ∧ last_lba e < last)%Z.

Definition set_partition (id : nat) (pd : PartitionData) (uuid : list Z) : M t unit :=
  s ← get;
  let last := wrap 64 (pd_first_lba pd + pd_size_lba pd - 1) in
  if decide (GPT_PARTITION_COUNT < id) then
    throw (runtime_error "Unsupported (too large) partition ID!")
  else if decide (Nat.div GPT_PARTITION_NAME_SIZE 2 < length (pd_name pd)) then
    throw (runtime_error "Too long partition name!")
  else if decide (pd_type pd ≠ LINUX) then
    throw (runtime_error "Unsupported partition type!")
  else if decide (pd_size_lba pd = 0)%Z then
    throw (runtime_error "Partition size cannot be 0!")
  else if decide (pd_first_lba pd < first_usable_lba (m_gpt_header s))%Z then
    throw (runtime_error "Unable to create partition, it would overwrite GPT table!")
  else if decide (last > last_usable_lba (m_gpt_header s))%Z then
    throw (runtime_error "Unable to create partition, it would overwrite backup GPT table!")
  else if existsb (λ i, negb (bool_decide (i = id)) && overlaps (pd_first_lba pd) last (entry s i))
            (seq 0 GPT_PARTITION_COUNT) then
    throw (runtime_error "Unable to create partition, it would overwrite another partition!")
  else
    modify (set_valid false);;
    if decide (id < GPT_PARTITION_COUNT) then
      modify (set_table (<[id := get_linux_partition_entry uuid pd]> (m_gpt_table s)))
    else throw undefined_behaviour.

Definition remove_partition (id : nat) : M t unit :=
  s ← get;
  if decide (GPT_PARTITION_COUNT < id) then
    throw (runtime_error "Unsupported (too large) partition ID!")
  else
    modify (set_valid false);;
    if decide (id < GPT_PARTITION_COUNT) then
      modify (set_table (<[id := GptPartitionData0]> (m_gpt_table s)))
    else throw undefined_behaviour.

Definition is_valid (s : t) : bool := m_is_valid s && Mbr.m_is_valid (m_mbr s).

(** ** Checksums, load and save *)

Section with_zlib.
(** zlib's [crc32(crc, buf, len)]; [None] is a null buffer. *)
Variable zlib_crc32 : Z → option (list Z) → Z.

Definition Crc32_init : result Z :=
  let zlib_crc := zlib_crc32 0 None in
  if decide (zlib_crc > 0xFFFFFFFF)%Z then
    Throw (runtime_error "CRC32: calculated initial CRC is too large!")
  else Ok (wrap 32 zlib_crc).

Definition Crc32_calculate (seed_crc : Z) (buffer : list Z) : result Z :=
  if decide (Z.of_nat (length buffer) > 0xFFFFFFFF)%Z then
    Throw (runtime_error "CRC32: too many bytes in the buffer!")
  else
    let zlib_crc := zlib_crc32 seed_crc (Some buffer) in
    if decide (zlib_crc > 0xFFFFFFFF)%Z then
      Throw (runtime_error "CRC32: calculated CRC is too large!")
    else Ok (wrap 32 zlib_crc).

(** [Crc32(buffer, size)] *)
Definition Crc32 (buffer : list Z) : result Z :=
  seed ← Crc32_init; Crc32_calculate seed buffer.

Definition check_crc (s : t) : result bool :=
  header_buffer ← gpt_header_to_bb (with_crc 0 (m_gpt_header s));
  table_buffer ← gpt_table_to_bb (m_gpt_table s);
  calculated_header_crc ← Crc32 header_buffer;
  calculated_table_crc ← Crc32 table_buffer;
  Ok (bool_decide (header_crc (m_gpt_header s) = calculated_header_crc)
      && bool_decide (partition_table_crc (m_gpt_header s) = calculated_table_crc)).

(** The fields [update] sets before the checksums. *)
Definition stamp (h : GptHeaderData) : GptHeaderData :=
  mkHeader GPT_SIGNATURE GPT_REVISION_1_0 (header_size h) (header_crc h) (current_lba h)
    (backup_lba h) (first_usable_lba h) (last_usable_lba h) (disk_guid h)
    (partition_table_lba h) (num_of_partitions h) (partition_entry_size h) (partition_table_crc h).

Definition with_table_crc (crc : Z) (h : GptHeaderData) : GptHeaderData :=
  mkHeader (signature h) (revision h) (header_size h) (header_crc h) (current_lba h)
    (backup_lba h) (first_usable_lba h) (last_usable_lba h) (disk_guid h)
    (partition_table_lba h) (num_of_partitions h) (partition_entry_size h) crc.

Definition on_header (f : GptHeaderData → GptHeaderData) : M t unit :=
  modify (λ s, set_header (f (m_gpt_header s)) s).

Definition update : M t unit :=
  on_mbr Mbr.update;;
  on_header stamp;;
  s ← get;
  table_buffer ← lift (gpt_table_to_bb (m_gpt_table s));
  table_crc ← lift (Crc32 table_buffer);
  on_header (with_table_crc table_crc);;
  on_header (with_crc 0);;
  s ← get;
  header_buffer ← lift (gpt_header_to_bb (m_gpt_header s));
  hcrc ← lift (Crc32 header_buffer);
  on_header (with_crc hcrc);;
  modify (set_valid true).

(** The default and the calculated values of [reset]; [uuid] is the result of
    [make_v1_uuid()]. *)
Definition reset_defaults (h : GptHeaderData) : GptHeaderData :=
  mkHeader (signature h) (revision h) (Z.of_nat GPT_HEADER_DATA_SIZE) (header_crc h) GPT_HEADER_LBA
    (backup_lba h) (first_usable_lba h) (last_usable_lba h) (disk_guid h)
    (GPT_HEADER_LBA + GPT_HEADER_SIZE_LBA) (Z.of_nat GPT_PARTITION_COUNT)
    (Z.of_nat GPT_PARTITION_DATA_SIZE) (partition_table_crc h).

Definition with_backup_lba (lba : Z) (h : GptHeaderData) : GptHeaderData :=
  mkHeader (signature h) (revision h) (header_size h) (header_crc h) (current_lba h)
    lba (first_usable_lba h) (last_usable_lba h) (disk_guid h)
    (partition_table_lba h) (num_of_partitions h) (partition_entry_size h) (partition_table_crc h).

Definition with_usable (first last : Z) (uuid : list Z) (h : GptHeaderData) : GptHeaderData :=
  mkHeader (signature h) (revision h) (header_size h) (header_crc h) (current_lba h)
    (backup_lba h) first last uuid
    (partition_table_lba h) (num_of_partitions h) (partition_entry_size h) (partition_table_crc h).

Definition reset (drive_size_lba : Z) (uuid : list Z) : M t unit :=
  modify (set_valid false);;
  on_mbr (Mbr.reset drive_size_lba);;
  on_mbr (Mbr.set_partition 0 (mkPartitionData 0 0 MBR_PROTECTIVE [] []));;
  on_header reset_defaults;;
  on_header (with_backup_lba (wrap 64 (drive_size_lba - 1)));;
  s ← get;
  gpt_table_size_lba ← lift (integer_divide_and_ceil GPT_TABLE_SIZE_BYTES (m_bytes_per_lba s));
  on_header (with_usable
    (wrap 64 (GPT_HEADER_LBA + GPT_HEADER_SIZE_LBA + gpt_table_size_lba + 1))
    (wrap 64 (drive_size_lba - 1 - GPT_HEADER_SIZE_LBA - gpt_table_size_lba)) uuid);;
  modify (set_table (replicate GPT_PARTITION_COUNT GptPartitionData0));;
  update.

Context {D : Type} `{DriveInterface D}.

Definition load_gpt (target : list Z) (header_lba : Z) (is_primary : bool) (d : D) : M t unit :=
  s ← get;
  h ← lift (drive_read target (byte_address s header_lba) GPT_HEADER_DATA_SIZE d ≫= bb_to_gpt_header);
  modify (set_header h);;
  if decide (signature h ≠ GPT_SIGNATURE) then throw (runtime_error "No GPT signature")
  else
    let table_lba := if is_primary then partition_table_lba h else wrap 64 (last_usable_lba h + 1) in
    es ← lift (drive_read target (byte_address s table_lba)
                 (GPT_PARTITION_DATA_SIZE * GPT_PARTITION_COUNT) d ≫= bb_to_gpt_table);
    modify (set_table es);;
    s ← get;
    ok ← lift (check_crc s);
    if negb ok then throw (runtime_error "CRC check fail") else mret tt.

Definition load_mbr (target : list Z) (d : D) : M t unit :=
  on_mbr (Mbr.load target d);;
  s ← get;
  if negb (Mbr.m_is_valid (m_mbr s)) then
    throw (runtime_error "Unable to read GPT partition table: MBR subpart is not valid!")
  else
    match Mbr.get_partition_ids (m_mbr s) with
    | [id] =>
        if decide (id ≠ 0) then
          throw (runtime_error "Unable to read GPT partition table: no partition on MBR slot 0")
        else
          pd ← lift (Mbr.get_partition id (m_mbr s));
          if decide (pd_type pd ≠ MBR_PROTECTIVE) then
            throw (runtime_error "Unable to read GPT partition table: no MBR protective partition")
          else mret tt
    | _ => throw (runtime_error "Unable to read GPT partition table: no MBR partitions present")
    end.

Definition load (target : list Z) (d : D) : M t unit :=
  modify (set_valid false);;
  load_mbr target d;;
  try_catch (load_gpt target GPT_HEADER_LOCATION true d) (λ e,
    s ← get;
    try_catch (load_gpt target (backup_lba (m_gpt_header s)) false d) (λ ee,
      throw (runtime_error "Unable to read GPT partition table: primary table is invalid, reading backup failed")));;
  modify (set_valid true).

Definition backup_of (h : GptHeaderData) : GptHeaderData :=
  mkHeader (signature h) (revision h) (header_size h) 0 (backup_lba h)
    (current_lba h) (first_usable_lba h) (last_usable_lba h) (disk_guid h)
    (wrap 64 (last_usable_lba h + 1)) (num_of_partitions h) (partition_entry_size h)
    (partition_table_crc h).

(** Const: reads the table, changes the drive. *)
Definition save (target : list Z) (s : t) : M D unit :=
  if negb (m_is_valid s) then
    throw (runtime_error "Trying to save invalid GPT partition table, operation aborted!")
  else
    Mbr.save target (m_mbr s);;
    let h := m_gpt_header s in
    let table_location_lba := wrap 64 (current_lba h + GPT_HEADER_SIZE_LBA) in
    let table_backup_location_lba := wrap 64 (last_usable_lba h + 1) in
    hb ← lift (gpt_header_to_bb h);
    drive_write target (byte_address s (current_lba h)) hb;;
    tb ← lift (gpt_table_to_bb (m_gpt_table s));
    drive_write target (byte_address s table_location_lba) tb;;
    backup_buffer ← lift (gpt_header_to_bb (backup_of h));
    bcrc ← lift (Crc32 backup_buffer);
    bb ← lift (gpt_header_to_bb (with_crc bcrc (backup_of h)));
    drive_write target (byte_address s (backup_lba h)) bb;;
    tb' ← lift (gpt_table_to_bb (m_gpt_table s));
    drive_write target (byte_address s table_backup_location_lba) tb'.
End with_zlib.

(** ** Free regions *)

(** Two sections have no common LBA. *)
Definition sep (x y : Z * Z) : Prop := (x.2 < y.1 ∨ y.2 < x.1)%Z.

#[local] Instance sep_sym : Symmetric sep.
Proof. intros x y. unfold sep. tauto. Qed.

(** Sorted, non-empty, disjoint sections: each ends before the next begins. *)
Fixpoint chain (prev : Z * Z) (rest : list (Z * Z)) : Prop :=
  match rest with
  | [] => True
  | cur :: rest' => (prev.2 < cur.1)%Z ∧ chain cur rest'
  end.

Definition in_u64 (x : Z * Z) : Prop := (0 ≤ x.1 ≤ x.2)%Z ∧ (x.2 < 2 ^ 64)%Z.

Lemma sorted_chain prev rest :
  StronglySorted section_le (prev :: rest) → Forall in_u64 (prev :: rest) →
  pairwise sep (prev :: rest) → chain prev rest.
Proof.
  revert prev. induction rest as [|cur rest IH]; intros prev Hs Hw Hp; [done|].
  inversion Hs as [|?? Hs' Hall]; subst. apply Forall_cons_1 in Hw as [Hprev Hw].
  destruct Hp as [Hsep Hp]. split; [|by apply IH].
  apply Forall_cons_1 in Hall as [Hle _]. apply Forall_cons_1 in Hsep as [Hsep _].
  apply Forall_cons_1 in Hw as [Hcur _].
  unfold section_le, sep, in_u64 in *. lia.
Qed.

Lemma chain_lower prev rest x :
  Forall in_u64 rest → chain prev rest → x ∈ rest → (prev.2 < x.1)%Z.
Proof.
  intros Hw. revert prev. induction Hw as [|cur rest Hcur Hw IH]; intros prev Hc Hx.
  - by apply elem_of_nil in Hx.
  - destruct Hc as [Hlt Hc]. apply elem_of_cons in Hx as [->|Hx]; [done|].
    specialize (IH cur Hc Hx). unfold in_u64 in Hcur. lia.
Qed.

Lemma scan_sound size prev rest lba :
  (0 < size)%Z → in_u64 prev → Forall in_u64 rest → chain prev rest →
  scan size prev rest = Ok lba →
  (prev.2 < lba)%Z ∧ (∀ x, x ∈ rest → x.2 < lba ∨ lba + size ≤ x.1)%Z ∧
  (∃ x, x ∈ rest ∧ lba + size ≤ x.1)%Z.
Proof.
  intros Hsize. revert prev. induction rest as [|cur rest IH]; intros prev Hprev Hw Hc Hs; [done|].
  apply Forall_cons_1 in Hw as [Hcur Hw]. destruct Hc as [Hlt Hc]. simpl in Hs.
  pose proof Hprev as [Hp1 Hp2]. pose proof Hcur as [Hc1 Hc2].
  rewrite (wrap_small 64 (cur.1 - prev.2 - 1)) in Hs by (unfold in_range; lia).
  case_decide as Hfit.
  - injection Hs as <-. rewrite wrap_small by (unfold in_range; lia). split; [lia|]. split.
    + intros x [->|Hx]%elem_of_cons; [lia|].
      pose proof (chain_lower _ _ _ Hw Hc Hx). lia.
    + exists cur. split; [apply list_elem_of_here|lia].
  - destruct (IH cur Hcur Hw Hc Hs) as (H1 & H2 & x & Hx & H3). split; [lia|]. split.
    + intros y [->|Hy]%elem_of_cons; [lia|by apply H2].
    + exists x. split; [by apply list_elem_of_further|done].
Qed.

Lemma scan_complete size prev rest a :
  (0 < size)%Z → in_u64 prev → Forall in_u64 rest → chain prev rest →
  (prev.2 < a)%Z → (∀ x, x ∈ rest → x.2 < a ∨ a + size ≤ x.1)%Z →
  (∃ x, x ∈ rest ∧ a + size ≤ x.1)%Z →
  ∃ lba, scan size prev rest = Ok lba ∧ (lba ≤ a)%Z.
Proof.
  intros Hsize. revert prev.
  induction rest as [|cur rest IH]; intros prev Hprev Hw Hc Ha Hfree (x & Hx & Hfit).
  { by apply elem_of_nil in Hx. }
  apply Forall_cons_1 in Hw as [Hcur Hw]. destruct Hc as [Hlt Hc]. simpl.
  pose proof Hprev as [Hp1 Hp2]. pose proof Hcur as [Hc1 Hc2].
  rewrite (wrap_small 64 (cur.1 - prev.2 - 1)) by (unfold in_range; lia).
  case_decide as Hd.
  - exists (prev.2 + 1)%Z. split; [|lia]. by rewrite wrap_small by (unfold in_range; lia).
  - destruct (Hfree cur) as [Hl|Hr]; [apply list_elem_of_here| |lia].
    apply IH; try done.
    + intros y Hy. apply Hfree. by apply list_elem_of_further.
    + exists x. split; [|done]. apply elem_of_cons in Hx as [->|]; [lia|done].
Qed.

(** ** The layout invariant *)

Definition used (s : t) (i : nat) : Prop :=
  i < GPT_PARTITION_COUNT ∧ type_guid (entry s i) ≠ GPT_EMPTY_GUID.

Definition extent (e : GptPartitionData) : Z * Z := (first_lba e, last_lba e).

(** The usable area lies strictly between the two copies of the metadata, every
    partition lies in it, and no two partitions share an LBA; free slots are
    zeroed. *)
Record layout_wf (s : t) : Prop := {
  lw_length : length (m_gpt_table s) = GPT_PARTITION_COUNT;
  lw_first : (0 < first_usable_lba (m_gpt_header s))%Z;
  lw_order : (first_usable_lba (m_gpt_header s) ≤ last_usable_lba (m_gpt_header s) + 1)%Z;
  lw_backup : (last_usable_lba (m_gpt_header s) ≤ backup_lba (m_gpt_header s) < 2 ^ 64 - 1)%Z;
  lw_inside i : used s i →
    (first_usable_lba (m_gpt_header s) ≤ first_lba (entry s i) ≤ last_lba (entry s i))%Z ∧
    (last_lba (entry s i) ≤ last_usable_lba (m_gpt_header s))%Z;
  lw_disjoint i j : used s i → used s j → i ≠ j → sep (extent (entry s i)) (extent (entry s j));
  lw_clean i : i < GPT_PARTITION_COUNT → type_guid (entry s i) = GPT_EMPTY_GUID →
    extent (entry s i) = (0, 0)%Z;
}.

(** [size] free LBAs from [a] on. *)
Definition free (s : t) (a size : Z) : Prop :=
  (first_usable_lba (m_gpt_header s) ≤ a)%Z ∧
  (a + size ≤ last_usable_lba (m_gpt_header s) + 1)%Z ∧
  ∀ i, used s i → (last_lba (entry s i) < a ∨ a + size ≤ first_lba (entry s i))%Z.

Lemma elem_ids s i : i ∈ get_partition_ids s ↔ used s i.
Proof.
  unfold get_partition_ids, used. rewrite list_elem_of_filter, elem_of_seq. split; intros []; split; try done; lia.
Qed.

Lemma NoDup_ids s : NoDup (get_partition_ids s).
Proof. apply list.NoDup_filter, NoDup_ListNoDup, seq_NoDup. Qed.

Section regions.
Context (s : t) (Hs : layout_wf s).

Let fu := first_usable_lba (m_gpt_header s).
Let lu := last_usable_lba (m_gpt_header s).
Let bl := backup_lba (m_gpt_header s).

Lemma sections_eq :
  sections s = ((λ id, extent (entry s id)) <$> get_partition_ids s) ++ [(0, fu - 1); (lu + 1, bl + 1)]%Z.
Proof.
  destruct Hs. unfold sections, extent. rewrite !wrap_small by (unfold in_range; lia). done.
Qed.

Lemma sections_u64 : Forall in_u64 (sections s).
Proof.
  rewrite sections_eq. apply Forall_app. destruct Hs. split.
  - apply list.Forall_fmap, list.Forall_forall. intros i Hi%elem_ids.
    pose proof (lw_inside0 i Hi). unfold in_u64, extent; simpl. lia.
  - rewrite !list.Forall_cons. subst fu lu bl. unfold in_u64; simpl. split_and!; try done; lia.
Qed.

Lemma sections_pairwise : pairwise sep (sections s).
Proof.
  rewrite sections_eq. destruct Hs. rewrite pairwise_app. split_and!.
  - apply pairwise_fmap; [apply NoDup_ids|]. intros i j Hi Hj. apply lw_disjoint0; by apply elem_ids.
  - simpl. rewrite !list.Forall_cons. subst fu lu bl. unfold sep; simpl. split_and!; try done; lia.
  - apply list.Forall_fmap, list.Forall_forall. intros i Hi%elem_ids.
    pose proof (lw_inside0 i Hi). simpl. rewrite !list.Forall_cons. subst fu lu bl.
    unfold sep, extent; simpl. split_and!; try done; lia.
Qed.

(** The section before the first usable LBA comes first in every sorted order. *)
Lemma sorted_head l :
  l ≡ₚ sections s → StronglySorted section_le l → ∃ rest, l = (0, fu - 1)%Z :: rest.
Proof.
  intros Hp Hl. destruct l as [|x rest].
  { rewrite sections_eq in Hp. apply Permutation_nil_l in Hp. symmetry in Hp. by apply app_nil in Hp as [_ ?]. }
  exists rest. f_equal.
  assert (∀ y, y ∈ sections s → (y = (0, fu - 1) ∨ 0 < y.1)%Z) as Hall.
  { intros y. rewrite sections_eq. destruct Hs.
    rewrite elem_of_app, list_elem_of_fmap, !elem_of_cons, elem_of_nil.
    intros [(i & -> & Hi%elem_ids)|[->|[->|[]]]]; [|by left|]; right; subst fu lu bl; simpl; [|lia].
    pose proof (lw_inside0 i Hi). lia. }
  destruct (Hall x) as [->|Hpos]; [rewrite <- Hp; apply list_elem_of_here|done|].
  assert ((0, fu - 1)%Z ∈ x :: rest) as Hin.
  { rewrite Hp, sections_eq. apply elem_of_app. right. apply list_elem_of_here. }
  apply elem_of_cons in Hin as [->|Hin]; [done|].
  inversion Hl as [|?? _ Hle]; subst. rewrite list.Forall_forall in Hle.
  specialize (Hle _ Hin). unfold section_le in Hle. simpl in *. lia.
Qed.

Lemma free_sections a size :
  (0 < size)%Z →
  free s a size ↔
  (fu ≤ a)%Z ∧ (a + size ≤ lu + 1)%Z ∧
  ∀ x, x ∈ sections s → (x.2 < a ∨ a + size ≤ x.1)%Z.
Proof.
  intros Hsize. destruct Hs. unfold free. fold fu lu. split; intros (H1 & H2 & H3); split_and!; try done.
  - intros x. rewrite sections_eq.
    rewrite elem_of_app, list_elem_of_fmap, !elem_of_cons, elem_of_nil.
    intros [(i & -> & Hi%elem_ids)|[->|[->|[]]]]; simpl; [by apply H3|lia|lia].
  - intros i Hi. apply (H3 (extent (entry s i))). rewrite sections_eq.
    apply elem_of_app. left. apply list_elem_of_fmap. exists i. split; [done|]. by apply elem_ids.
Qed.

(** First fit, for every order [std::sort] may return. *)
Lemma scan_first_fit size l :
  (0 < size)%Z → l ≡ₚ sections s → StronglySorted section_le l →
  match scan_sections size l with
  | Ok lba => free s lba size ∧ ∀ a, free s a size → (lba ≤ a)%Z
  | Throw e => e = runtime_error "No free regions of size " ∧ ∀ a, ¬ free s a size
  end.
Proof.
  intros Hsize Hp Hl. destruct (sorted_head l Hp Hl) as [rest ->]. cbn [scan_sections].
  assert (Forall in_u64 ((0, fu - 1)%Z :: rest)) as Hw by (rewrite Hp; apply sections_u64).
  assert (chain (0, fu - 1)%Z rest) as Hc.
  { apply sorted_chain; [done|done|]. apply (pairwise_perm sep (sections s)); [by symmetry|apply sections_pairwise]. }
  apply Forall_cons_1 in Hw as [Hw0 Hw].
  assert (∀ x, x ∈ sections s ↔ x = (0, fu - 1)%Z ∨ x ∈ rest) as Hmem.
  { intros x. by rewrite <- Hp, elem_of_cons. }
  assert (∀ a, free s a size → ∃ lba, scan size (0, fu - 1)%Z rest = Ok lba ∧ lba ≤ a)%Z as Hcomp.
  { intros a (H1 & H2 & H3)%free_sections; [|done]. apply scan_complete; try done; [simpl; lia| |].
    - intros x Hx. apply H3, Hmem. by right.
    - exists (lu + 1, bl + 1)%Z. split; [|simpl; lia].
      assert ((lu + 1, bl + 1)%Z ∈ sections s) as [Heq|Hin]%Hmem; [|destruct Hs; exfalso|done].
      { rewrite sections_eq. apply elem_of_app. right. apply list_elem_of_further, list_elem_of_here. }
      injection Heq. subst fu lu bl. lia. }
  destruct (scan size _ rest) as [lba|e] eqn:Hscan.
  - destruct (scan_sound _ _ _ _ Hsize Hw0 Hw Hc Hscan) as (H1 & H2 & x & Hx & H3). split.
    + apply free_sections; [done|]. simpl in H1. split_and!; [lia| |].
      * assert (x.1 ≤ lu + 1)%Z; [|lia].
        assert (x ∈ sections s) as Hxs by (apply Hmem; by right).
        rewrite sections_eq, elem_of_app, list_elem_of_fmap, !elem_of_cons, elem_of_nil in Hxs.
        destruct Hs. destruct Hxs as [(i & -> & Hi%elem_ids)|[->|[->|[]]]]; simpl;
          subst fu lu bl; [pose proof (lw_inside0 i Hi)|..]; lia.
      * intros y [->|Hy]%Hmem; [simpl; lia|by apply H2].
    + intros a Ha. destruct (Hcomp a Ha) as (lba' & [= <-] & Hle). done.
  - split.
    + clear -Hscan. generalize dependent (0, fu - 1)%Z. induction rest as [|c rest IH]; intros p Hp; simpl in Hp.
      * by injection Hp.
      * case_decide; [done|by eapply IH].
    + intros a Ha. destruct (Hcomp a Ha) as (lba' & ? & _). done.
Qed.
End regions.

Lemma get_empty_region_spec s size :
  layout_wf s → (0 ≤ size)%Z → size ≠ 0%Z →
  match get_empty_region size s with
  | Ok lba => free s lba size ∧ ∀ a, free s a size → (lba ≤ a)%Z
  | Throw _ => ∀ a, ¬ free s a size
  end.
Proof.
  intros Hs Hsize Hnz. unfold get_empty_region. rewrite decide_False by done.
  case_decide as Hmax.
  - intros a (H1 & H2 & _). pose proof (lw_first s Hs). pose proof (lw_order s Hs).
    pose proof (lw_backup s Hs). unfold get_max_usable_blocks in Hmax.
    rewrite wrap_small in Hmax by (unfold in_range; lia). lia.
  - pose proof (scan_first_fit s Hs size (sort_sections (sections s))) as H.
    destruct (scan_sections size _) as [lba|e].
    + apply H; [lia|apply merge_sort_Permutation|apply (StronglySorted_merge_sort section_le)].
    + apply H; [lia|apply merge_sort_Permutation|apply (StronglySorted_merge_sort section_le)].
Qed.

(** On a table that satisfies the layout invariant, get_empty_region of
    a non-zero size is first fit: it returns the lowest LBA from which that many
    consecutive LBAs are inside the usable area and in no partition, and it
    throws exactly when there is no such region; so it neither misses a free
    region nor hands out an occupied one, whatever order std::sort gives to equal
    keys. *)
Theorem get_empty_region_first_fit s size :
  layout_wf s → in_range 64 size → size ≠ 0%Z →
  match get_empty_region size s with
  | Ok lba => free s lba size ∧ ∀ a, free s a size → (lba ≤ a)%Z
  | Throw _ => ∀ a, ¬ free s a size
  end.
Proof. intros Hs [Hsize _]. by apply get_empty_region_spec. Qed.

(** ** Changing partitions *)

Lemma entry_set id e s i :
  length (m_gpt_table s) = GPT_PARTITION_COUNT → id < GPT_PARTITION_COUNT →
  entry (set_table (<[id := e]> (m_gpt_table s)) s) i = if decide (i = id) then e else entry s i.
Proof.
  intros Hl Hid. unfold entry. simpl. case_decide as Hi.
  - subst. by rewrite list_lookup_insert_eq by lia.
  - by rewrite list_lookup_insert_ne.
Qed.

Lemma linux_not_empty : GPT_PARTITION_TYPE_UUID_LINUX ≠ GPT_EMPTY_GUID.
Proof. by vm_compute. Qed.

Lemma overlaps_false first last e :
  overlaps first last e = false → (first ≤ last)%Z → (first_lba e ≤ last_lba e)%Z →
  sep (first, last) (extent e).
Proof.
  unfold overlaps, sep, extent. rewrite !orb_false_iff, !bool_decide_eq_false. simpl. lia.
Qed.

Lemma layout_wf_valid b s : layout_wf s → layout_wf (set_valid b s).
Proof. intros []. by split. Qed.

(** Writing one slot: what the new entry must satisfy. *)
Lemma layout_wf_set id e s :
  layout_wf s → id < GPT_PARTITION_COUNT →
  (if decide (type_guid e = GPT_EMPTY_GUID) then extent e = (0, 0)%Z else
     (first_usable_lba (m_gpt_header s) ≤ first_lba e ≤ last_lba e)%Z ∧
     (last_lba e ≤ last_usable_lba (m_gpt_header s))%Z ∧
     ∀ i, used s i → i ≠ id → sep (extent e) (extent (entry s i))) →
  layout_wf (set_table (<[id := e]> (m_gpt_table s)) s).
Proof.
  intros Hs Hid He. pose proof (lw_length s Hs) as Hl.
  assert (∀ i, entry (set_table (<[id := e]> (m_gpt_table s)) s) i =
               if decide (i = id) then e else entry s i) as HE by (intros; by apply entry_set).
  destruct Hs. split; try done.
  - simpl. by rewrite length_insert.
  - intros i [Hi Hu]. rewrite HE in *. case_decide; [|by apply lw_inside0].
    rewrite decide_False in He by done. tauto.
  - intros i j [Hi Hui] [Hj Huj] Hij. rewrite HE in Hui. rewrite HE in Huj. rewrite !HE.
    destruct (decide (i = id)), (decide (j = id)); subst; try done.
    + rewrite decide_False in He by done. by apply He.
    + rewrite decide_False in He by done. symmetry. by apply He.
    + by apply lw_disjoint0.
  - intros i Hi Hu. rewrite HE in *. case_decide; [|by apply lw_clean0].
    by rewrite decide_True in He by done.
Qed.

Definition fits (pd : PartitionData) : Prop :=
  in_range 64 (pd_first_lba pd) ∧ (0 ≤ pd_size_lba pd)%Z ∧
  (pd_first_lba pd + pd_size_lba pd ≤ 2 ^ 64)%Z.

(** What [set_partition] has checked when it writes the slot. *)
Lemma set_partition_cases id pd uuid s :
  let r := set_partition id pd uuid s in
  let e := get_linux_partition_entry uuid pd in
  (∃ w, r = (Throw (runtime_error w), s)) ∨
  (r = (Throw undefined_behaviour, set_valid false s) ∧ id = GPT_PARTITION_COUNT) ∨
  (r = (Ok tt, set_table (<[id := e]> (m_gpt_table s)) (set_valid false s)) ∧
   id < GPT_PARTITION_COUNT ∧ pd_size_lba pd ≠ 0%Z ∧
   (first_usable_lba (m_gpt_header s) ≤ pd_first_lba pd)%Z ∧
   (wrap 64 (pd_first_lba pd + pd_size_lba pd - 1) ≤ last_usable_lba (m_gpt_header s))%Z ∧
   ∀ i, i < GPT_PARTITION_COUNT → i ≠ id →
     overlaps (pd_first_lba pd) (wrap 64 (pd_first_lba pd + pd_size_lba pd - 1)) (entry s i) = false).
Proof.
  intros r e. subst r. unfold set_partition. run_monad.
  repeat (case_decide; [left; by eexists|]).
  destruct (existsb _ _) eqn:Hex; [left; by eexists|]. right.
  case_decide as Hid; [right|left; split; [done|]; unfold GPT_PARTITION_COUNT in *; lia].
  split_and!; try done; try lia. intros i Hi Hne.
  destruct (overlaps _ _ _) eqn:Ho; [|done]. exfalso.
  assert (existsb (λ i, negb (bool_decide (i = id)) &&
    overlaps (pd_first_lba pd) (wrap 64 (pd_first_lba pd + pd_size_lba pd - 1)) (entry s i))
    (seq 0 GPT_PARTITION_COUNT) = true) as Ht; [|by rewrite Ht in Hex].
  apply existsb_exists. exists i. split; [apply in_seq; lia|].
  rewrite Ho, bool_decide_eq_false_2 by done. done.
Qed.

Lemma linux_entry_extent uuid pd :
  fits pd → pd_size_lba pd ≠ 0%Z →
  extent (get_linux_partition_entry uuid pd) =
    (pd_first_lba pd, pd_first_lba pd + pd_size_lba pd - 1)%Z ∧
  wrap 64 (pd_first_lba pd + pd_size_lba pd - 1) = (pd_first_lba pd + pd_size_lba pd - 1)%Z.
Proof.
  intros ([Hf _] & Hs & Hle) Hnz.
  assert (wrap 64 (pd_first_lba pd + pd_size_lba pd - 1) = pd_first_lba pd + pd_size_lba pd - 1)%Z as Hw
    by (apply wrap_small; unfold in_range; lia).
  split; [|done]. unfold get_linux_partition_entry, extent. simpl. rewrite Hw.
  by rewrite decide_False by lia.
Qed.

Lemma layout_preserved_set s id pd uuid :
  layout_wf s → fits pd → layout_wf (set_partition id pd uuid s).2.
Proof.
  intros Hs Hfit.
  destruct (set_partition_cases id pd uuid s)
    as [(w & Hr)|[[Hr _]|(Hr & Hid & Hnz & Hf & Hl & Ho)]]; rewrite Hr; simpl; [done|by apply layout_wf_valid|].
  destruct (linux_entry_extent uuid pd Hfit Hnz) as [He Hw]. rewrite Hw in *.
  apply (layout_wf_set id _ (set_valid false s)); [by apply layout_wf_valid|done|].
  rewrite decide_False by apply linux_not_empty. pose proof (f_equal snd He) as He2.
  unfold extent in He2. cbn [snd] in He2. destruct Hfit as (_ & Hsz & _).
  split_and!; [done|simpl first_lba; lia|simpl m_gpt_header; lia|].
  intros i [Hi Hu] Hne. rewrite He.
  apply overlaps_false; [by apply Ho|lia|].
  apply (lw_inside s Hs i). by split.
Qed.

(** C25: set_partition with a range whose end fits in 64 bits ([fits]) and
    remove_partition keep the layout invariant on every outcome, also when they throw:
    partitions stay inside the usable area, so the GPT copies are never overwritten, and
    no two partitions ever share an LBA. Without [fits] the end of the range wraps and
    the check passes ([set_partition_size_wraps]). *)
Theorem layout_preserved s id pd uuid :
  layout_wf s → fits pd →
  layout_wf (set_partition id pd uuid s).2 ∧ layout_wf (remove_partition id s).2.
Proof.
  intros Hs Hfit. split.
  - by apply layout_preserved_set.
  - unfold remove_partition. run_monad. case_decide; [done|]. case_decide as Hid; simpl.
    + apply (layout_wf_set id _ (set_valid false s)); [by apply layout_wf_valid|done|].
      by rewrite decide_True by done.
    + by apply layout_wf_valid.
Qed.

Lemma get_partition_linux s id e :
  id < GPT_PARTITION_COUNT → entry s id = e → type_guid e = GPT_PARTITION_TYPE_UUID_LINUX →
  (0 ≤ last_lba e - first_lba e < 2 ^ 64 - 1)%Z →
  get_partition id s =
  Ok (mkPartitionData (first_lba e) (last_lba e - first_lba e + 1) LINUX (name e) (guid e)).
Proof.
  intros Hid He Hty Hle. unfold get_partition. rewrite He.
  rewrite (decide_False (P := GPT_PARTITION_COUNT ≤ id)) by lia.
  rewrite (decide_False (P := type_guid e = GPT_EMPTY_GUID)) by (rewrite Hty; apply linux_not_empty).
  rewrite (decide_True (P := type_guid e = _)) by done.
  rewrite decide_False by lia. rewrite wrap_small by (unfold in_range; lia). done.
Qed.

Lemma get_available_Ok s id :
  get_available_partition_id s = Ok id →
  id < GPT_PARTITION_COUNT ∧ type_guid (entry s id) = GPT_EMPTY_GUID.
Proof.
  unfold get_available_partition_id. destruct (filter _ _) as [|i l] eqn:E; [done|]. intros [= <-].
  assert (i ∈ i :: l) as Hi by apply list_elem_of_here. rewrite <- E in Hi.
  apply list_elem_of_filter in Hi as [Ht Hi]. apply elem_of_seq in Hi. split; [lia|done].
Qed.

(** A free region passes the checks of [set_partition]. *)
Lemma set_partition_passes s id pd uuid :
  layout_wf s → id ≤ GPT_PARTITION_COUNT → fits pd → pd_size_lba pd ≠ 0%Z → pd_type pd = LINUX →
  length (pd_name pd) ≤ 36 → free s (pd_first_lba pd) (pd_size_lba pd) →
  set_partition id pd uuid s =
  if decide (id < GPT_PARTITION_COUNT) then
    (Ok tt, set_table (<[id := get_linux_partition_entry uuid pd]> (m_gpt_table s)) (set_valid false s))
  else (Throw undefined_behaviour, set_valid false s).
Proof.
  intros Hs Hid Hfit Hnz Hty Hname (Hf1 & Hf2 & Hfree).
  destruct (linux_entry_extent uuid pd Hfit Hnz) as [_ Hw]. destruct Hfit as (_ & Hsz & _).
  unfold set_partition. run_monad. rewrite Hw.
  rewrite (decide_False (P := GPT_PARTITION_COUNT < id)) by lia.
  rewrite (decide_False (P := Nat.div GPT_PARTITION_NAME_SIZE 2 < _))
    by (change (Nat.div GPT_PARTITION_NAME_SIZE 2) with 36; lia).
  rewrite (decide_False (P := pd_type pd ≠ LINUX)) by (rewrite Hty; auto).
  rewrite !(decide_False (P := _ = 0%Z)) by done.
  rewrite (decide_False (P := (_ < _)%Z)) by lia. rewrite (decide_False (P := (_ > _)%Z)) by lia.
  destruct (existsb _ _) eqn:Hex; [exfalso|by case_decide].
  apply existsb_exists in Hex as (i & Hi & Ho). apply in_seq in Hi.
  apply andb_true_iff in Ho as [_ Ho]. unfold overlaps in Ho.
  rewrite !orb_true_iff, !bool_decide_eq_true in Ho. pose proof (lw_first s Hs).
  destruct (decide (type_guid (entry s i) = GPT_EMPTY_GUID)) as [He|Hu].
  - pose proof (lw_clean s Hs i ltac:(lia) He) as Hext. unfold extent in Hext.
    injection Hext as H1 H2. lia.
  - assert (used s i) as Hui by (split; [lia|done]).
    pose proof (Hfree i Hui). pose proof (lw_inside s Hs i Hui). lia.
Qed.

Lemma set_partition_free s id pd uuid :
  layout_wf s → id < GPT_PARTITION_COUNT → fits pd → pd_size_lba pd ≠ 0%Z → pd_type pd = LINUX →
  length (pd_name pd) ≤ 36 → free s (pd_first_lba pd) (pd_size_lba pd) →
  set_partition id pd uuid s =
  (Ok tt, set_table (<[id := get_linux_partition_entry uuid pd]> (m_gpt_table s)) (set_valid false s)).
Proof. intros. rewrite set_partition_passes by (done || lia). by rewrite decide_True by done. Qed.

(** The allocation sequence get_empty_region, get_available_partition_id,
    set_partition always succeeds: the slot then reads back as a Linux
    partition at that LBA with that size, name and UUID, every other slot reads
    as before, the set of ids grows by the new one and the layout invariant
    holds, so allocations can be repeated. *)
Theorem allocate_partition s size id lba nm uuid :
  layout_wf s → in_range 64 size → length nm ≤ 36 →
  get_empty_region size s = Ok lba → get_available_partition_id s = Ok id →
  ∃ s', set_partition id (mkPartitionData lba size LINUX nm []) uuid s = (Ok tt, s') ∧
    get_partition id s' = Ok (mkPartitionData lba size LINUX nm uuid) ∧
    (∀ j, j ≠ id → get_partition j s' = get_partition j s) ∧
    (∀ j, used s' j ↔ used s j ∨ j = id) ∧ ¬ used s id ∧ layout_wf s'.
Proof.
  intros Hs [Hsize Hsz] Hn Hr Hid. destruct (get_available_Ok s id Hid) as [Hlt Hempty].
  assert (size ≠ 0%Z) as Hnz by (intros ->; by unfold get_empty_region in Hr).
  pose proof (get_empty_region_spec s size Hs ltac:(done) Hnz) as Hspec. rewrite Hr in Hspec.
  destruct Hspec as [Hfree _]. pose proof Hfree as (Hf1 & Hf2 & _). 
  pose proof (lw_length s Hs) as Hl. pose proof (lw_first s Hs). pose proof (lw_backup s Hs).
  set (pd := mkPartitionData lba size LINUX nm []).
  assert (fits pd) as Hfit by (unfold fits, in_range; simpl; lia).
  destruct (linux_entry_extent uuid pd Hfit Hnz) as [He Hw].
  rewrite (set_partition_free s id pd uuid) by done. eexists; split; [done|].
  set (s' := set_table _ _).
  assert (∀ j, entry s' j = if decide (j = id) then get_linux_partition_entry uuid pd else entry s j) as HE
    by (intros j; by apply (entry_set id _ (set_valid false s))).
  split_and!.
  - assert (entry s' id = get_linux_partition_entry uuid pd) as He' by (rewrite HE; by rewrite decide_True).
    pose proof (f_equal snd He) as He2. unfold extent in He2. cbn [snd] in He2.
    rewrite (get_partition_linux s' id _ Hlt He'); [|done|rewrite He2; simpl; lia].
    rewrite He2. simpl. do 2 f_equal. lia.
  - intros j Hj. unfold get_partition. rewrite HE. by rewrite (decide_False (P := j = id)) by done.
  - intros j. unfold used. rewrite HE. case_decide as Hj; [|split; [by left|by intros [?|?]]].
    subst. split; [by right|]. intros _. split; [done|apply linux_not_empty].
  - intros [_ Hu]. done.
  - pose proof (layout_preserved_set s id pd uuid Hs Hfit) as Hp.
    by rewrite (set_partition_free s id pd uuid) in Hp by done.
Qed.

(** the bound check of set_partition uses first_lba + size_lba - 1 modulo
    2^64, so a request for an enormous size is accepted on a table with one free
    LBA and creates a partition of a single LBA instead of being rejected. *)
Theorem set_partition_size_wraps s id a nm uuid :
  layout_wf s → (2 ≤ first_usable_lba (m_gpt_header s))%Z → free s a 1 →
  id < GPT_PARTITION_COUNT → length nm ≤ 36 →
  ∃ s', set_partition id (mkPartitionData a (2 ^ 64 - a + 2) LINUX nm []) uuid s = (Ok tt, s') ∧
    get_partition id s' = Ok (mkPartitionData a 1 LINUX nm uuid).
Proof.
  intros Hs Hfu (Hf1 & Hf2 & Hfree) Hid Hn. pose proof (lw_backup s Hs) as Hb.
  pose proof (lw_order s Hs) as Hord. pose proof (lw_length s Hs) as Hl.
  assert (wrap 64 (a + (2 ^ 64 - a + 2) - 1) = 1)%Z as Hw.
  { unfold wrap. replace (a + (2 ^ 64 - a + 2) - 1)%Z with (1 + 1 * 2 ^ 64)%Z by lia.
    rewrite Z.mod_add by lia. apply Z.mod_small. lia. }
  unfold set_partition. run_monad. cbn [pd_first_lba pd_size_lba pd_type pd_name]. rewrite Hw.
  rewrite (decide_False (P := GPT_PARTITION_COUNT < id)) by lia.
  rewrite (decide_False (P := Nat.div GPT_PARTITION_NAME_SIZE 2 < _))
    by (change (Nat.div GPT_PARTITION_NAME_SIZE 2) with 36; lia).
  rewrite (decide_False (P := LINUX ≠ LINUX)) by auto.
  rewrite (decide_False (P := (_ = 0)%Z)) by lia.
  rewrite (decide_False (P := (_ < _)%Z)) by lia. rewrite (decide_False (P := (_ > _)%Z)) by lia.
  destruct (existsb _ _) eqn:Hex.
  - exfalso. apply existsb_exists in Hex as (i & Hi & Ho). apply in_seq in Hi.
    apply andb_true_iff in Ho as [_ Ho]. unfold overlaps in Ho.
    rewrite !orb_true_iff, !bool_decide_eq_true in Ho.
    destruct (decide (type_guid (entry s i) = GPT_EMPTY_GUID)) as [He|Hu].
    + pose proof (lw_clean s Hs i ltac:(lia) He) as Hext. unfold extent in Hext.
      injection Hext as H1 H2. lia.
    + assert (used s i) as Hui by (split; [lia|done]).
      pose proof (Hfree i Hui). pose proof (lw_inside s Hs i Hui). lia.
  - rewrite decide_True by done. eexists; split; [done|].
    erewrite get_partition_linux; [|done| | |].
    2:{ rewrite (entry_set id _ (set_valid false s)) by done. by rewrite decide_True. }
    + unfold get_linux_partition_entry. cbn. rewrite Hw. rewrite decide_True by lia.
      by rewrite Z.sub_diag.
    + done.
    + unfold get_linux_partition_entry. cbn. rewrite Hw. rewrite decide_True by lia. lia.
Qed.

(** ** Checksums, save and load *)

Section persistence.
Context (zlib_crc32 : Z → option (list Z) → Z).
(** zlib documents [crc32] as returning a 32-bit CRC. *)
Hypothesis zlib_u32 : ∀ seed buf, in_range 32 (zlib_crc32 seed buf).

Definition crc_of (buf : list Z) : Z := zlib_crc32 (zlib_crc32 0 None) (Some buf).

Lemma Crc32_small buf :
  (Z.of_nat (length buf) ≤ 0xFFFFFFFF)%Z → Crc32 zlib_crc32 buf = Ok (crc_of buf).
Proof.
  intros Hl. unfold Crc32, Crc32_init, Crc32_calculate.
  pose proof (zlib_u32 0 None) as [H1 H2]. zpow.
  rewrite decide_False by lia. cbn [mbind result_bind]. rewrite wrap_small by apply zlib_u32.
  pose proof (zlib_u32 (zlib_crc32 0 None) (Some buf)) as [H3 H4]. zpow.
  rewrite decide_False by lia. rewrite decide_False by lia. by rewrite wrap_small by apply zlib_u32.
Qed.

(** The object's fields have their C++ types, GUIDs are well formed and names
    have no NULs. *)
Record typed (s : t) : Prop := {
  ty_header : header_ok (m_gpt_header s);
  ty_table : table_ok (m_gpt_table s);
  ty_names : Forall (λ e, name_ok (name e)) (m_gpt_table s);
  ty_mbr : Mbr.wf (m_mbr s);
}.

Lemma Crc32_header h :
  guid_ok (disk_guid h) → Crc32 zlib_crc32 (header_bytes h) = Ok (crc_of (header_bytes h)).
Proof. intros Hg. apply Crc32_small. rewrite length_header_bytes by done. lia. Qed.

Lemma Crc32_table es : table_ok es → Crc32 zlib_crc32 (table_bytes es) = Ok (crc_of (table_bytes es)).
Proof.
  intros [Hn Hes]. apply Crc32_small. rewrite length_table_bytes, Hn by done.
  unfold GPT_PARTITION_COUNT. lia.
Qed.

(** What [check_crc] compares. *)
Lemma check_crc_eq s :
  guid_ok (disk_guid (m_gpt_header s)) → table_ok (m_gpt_table s) →
  check_crc zlib_crc32 s = Ok (
    bool_decide (header_crc (m_gpt_header s) = crc_of (header_bytes (with_crc 0 (m_gpt_header s))))
    && bool_decide (partition_table_crc (m_gpt_header s) = crc_of (table_bytes (m_gpt_table s)))).
Proof.
  intros Hg Ht. unfold check_crc.
  rewrite gpt_header_to_bb_eq, gpt_table_to_bb_eq by done. cbn [mbind result_bind].
  rewrite Crc32_header, Crc32_table by done. done.
Qed.

Lemma header_ok_stamp h : header_ok h → header_ok (stamp h).
Proof. intros []. split; try done; simpl; unfold in_range, GPT_SIGNATURE, GPT_REVISION_1_0; zpow; lia. Qed.

Lemma header_ok_crc c h : header_ok h → in_range 32 c → header_ok (with_crc c h).
Proof. intros [] Hc. by split. Qed.

Lemma header_ok_table_crc c h : header_ok h → in_range 32 c → header_ok (with_table_crc c h).
Proof. intros [] Hc. by split. Qed.

(** The header after [update]. *)
Definition sealed (h : GptHeaderData) (es : list GptPartitionData) : GptHeaderData :=
  let h' := with_crc 0 (with_table_crc (crc_of (table_bytes es)) (stamp h)) in
  with_crc (crc_of (header_bytes h')) h'.

Lemma sealed_ok h es : header_ok h → header_ok (sealed h es).
Proof.
  intros Hh. apply header_ok_crc; [|apply zlib_u32]. apply header_ok_crc; [|unfold in_range; lia].
  apply header_ok_table_crc; [|apply zlib_u32]. by apply header_ok_stamp.
Qed.

Lemma update_eq s :
  guid_ok (disk_guid (m_gpt_header s)) → table_ok (m_gpt_table s) →
  update zlib_crc32 s =
  (Ok tt, mkGpt (sealed (m_gpt_header s) (m_gpt_table s)) (m_gpt_table s) (Mbr.update (m_mbr s)).2
            (m_bytes_per_lba s) true).
Proof.
  intros Hg Ht. unfold update, on_mbr, on_header, Mbr.update. run_monad.
  cbn [m_gpt_table set_mbr set_header].
  rewrite gpt_table_to_bb_eq by done. cbn [mbind result_bind]. rewrite Crc32_table by done.
  cbn [m_gpt_header m_gpt_table set_mbr set_header]. rewrite gpt_header_to_bb_eq by done.
  rewrite Crc32_header by done. done.
Qed.

(** update on a table whose GUIDs are well formed succeeds: the table is
    then valid, carries the GPT signature and revision 1.0, its entries and
    geometry are unchanged, and check_crc accepts both checksums. *)
Theorem update_check_crc s :
  typed s →
  ∃ s', update zlib_crc32 s = (Ok tt, s') ∧ is_valid s' = true ∧ typed s' ∧
    check_crc zlib_crc32 s' = Ok true ∧
    signature (m_gpt_header s') = GPT_SIGNATURE ∧ revision (m_gpt_header s') = GPT_REVISION_1_0 ∧
    m_gpt_table s' = m_gpt_table s ∧ (layout_wf s → layout_wf s').
Proof.
  intros [Hh Ht Hn Hm]. pose proof (hok_disk_guid _ Hh) as Hg.
  rewrite update_eq by done. eexists; split; [done|]. split_and!; try done.
  - split; try done; [by apply sealed_ok|]. apply Mbr.update_ok, Hm.
  - rewrite check_crc_eq by done. cbn [m_gpt_header m_gpt_table].
    rewrite !bool_decide_eq_true_2 by done. done.
  - intros []. by split.
Qed.

Definition empty_table : list GptPartitionData := replicate GPT_PARTITION_COUNT GptPartitionData0.

Lemma empty_entry h m b v i : entry (mkGpt h empty_table m b v) i = GptPartitionData0.
Proof.
  unfold entry, empty_table. cbn [m_gpt_table].
  destruct (decide (i < GPT_PARTITION_COUNT)); [by rewrite lookup_replicate_2|].
  by rewrite lookup_ge_None_2 by (rewrite length_replicate; lia).
Qed.

Lemma empty_table_ok :
  table_ok empty_table ∧ Forall (λ e, name_ok (name e)) empty_table ∧
  ∀ h m b v, get_partition_ids (mkGpt h empty_table m b v) = [].
Proof.
  unfold table_ok, empty_table. split_and!; [by rewrite length_replicate| | |].
  - apply Forall_replicate, GptPartitionData0_ok.
  - by apply Forall_replicate, Forall_nil.
  - done.
Qed.

(** *** Where the copies are *)

Record placed (s : t) : Prop := {
  pl_bps : (512 ≤ m_bytes_per_lba s < 2 ^ 32)%Z;
  pl_current : current_lba (m_gpt_header s) = 1%Z;
  pl_table : partition_table_lba (m_gpt_header s) = 2%Z;
  pl_last : (0 ≤ last_usable_lba (m_gpt_header s))%Z;
  pl_primary : (2 * m_bytes_per_lba s + 16384 ≤
                (last_usable_lba (m_gpt_header s) + 1) * m_bytes_per_lba s)%Z;
  pl_backup : ((last_usable_lba (m_gpt_header s) + 1) * m_bytes_per_lba s + 16384 ≤
               backup_lba (m_gpt_header s) * m_bytes_per_lba s)%Z;
  pl_end : ((backup_lba (m_gpt_header s) + 1) * m_bytes_per_lba s ≤ 2 ^ 64)%Z;
}.

(** The MBR part is a valid protective MBR. *)
Definition protective (m : Mbr.t) : Prop :=
  Mbr.m_is_valid m = true ∧ Mbr.get_partition_ids m = [0] ∧
  ∃ pd, Mbr.get_partition 0 m = Ok pd ∧ pd_type pd = MBR_PROTECTIVE.

Lemma reset_spec n uuid s :
  guid_ok uuid → (0 < m_bytes_per_lba s < 2 ^ 32)%Z → header_ok (m_gpt_header s) →
  let entries := ((16384 + m_bytes_per_lba s - 1) / m_bytes_per_lba s)%Z in
  (4 + 2 * entries ≤ n < 2 ^ 64)%Z →
  ∃ s', reset zlib_crc32 n uuid s = (Ok tt, s') ∧ is_valid s' = true ∧ typed s' ∧ layout_wf s' ∧
    check_crc zlib_crc32 s' = Ok true ∧ get_partition_ids s' = [] ∧ protective (m_mbr s') ∧
    backup_lba (m_gpt_header s') = (n - 1)%Z ∧
    first_usable_lba (m_gpt_header s') = (3 + entries)%Z ∧
    last_usable_lba (m_gpt_header s') = (n - 2 - entries)%Z ∧
    signature (m_gpt_header s') = GPT_SIGNATURE ∧
    m_bytes_per_lba s' = m_bytes_per_lba s ∧
    ((512 ≤ m_bytes_per_lba s)%Z → (n * m_bytes_per_lba s ≤ 2 ^ 64)%Z → placed s').
Proof.
  intros Hu Hb Hh entries Hn.
  set (b := m_bytes_per_lba s) in *.
  assert (0 ≤ entries)%Z as He by (apply Z.div_pos; lia).
  pose proof empty_table_ok as (Ht & Hnames & Hids).
  assert (integer_divide_and_ceil GPT_TABLE_SIZE_BYTES b = Ok entries) as Hdiv.
  { unfold integer_divide_and_ceil. rewrite decide_False by lia.
    by rewrite wrap_small by (unfold in_range, GPT_TABLE_SIZE_BYTES; lia). }
  set (h' := with_usable (3 + entries) (n - 2 - entries) uuid
               (with_backup_lba (n - 1) (reset_defaults (m_gpt_header s)))).
  set (m' := (Mbr.set_partition 0 (mkPartitionData 0 0 MBR_PROTECTIVE [] [])
                (Mbr.reset n (m_mbr s)).2).2).
  assert (reset zlib_crc32 n uuid s =
    (Ok tt, mkGpt (sealed h' empty_table) empty_table (Mbr.update m').2 b true)) as ->.
  { unfold reset, on_mbr, on_header. run_monad.
    change (Mbr.reset n ?m) with (Ok (A := unit) tt, (Mbr.reset n m).2). cbn beta iota.
    change (Mbr.set_partition 0 ?pd ?m) with (Ok (A := unit) tt, (Mbr.set_partition 0 pd m).2).
    cbn -[Mbr.set_partition Mbr.reset update Z.sub Z.add wrap replicate integer_divide_and_ceil]. fold b. rewrite Hdiv.
    unfold GPT_HEADER_LBA, GPT_HEADER_SIZE_LBA.
    rewrite !wrap_small by (unfold in_range; lia).
    replace (1 + 1 + entries + 1)%Z with (3 + entries)%Z by lia.
    replace (n - 1 - 1 - entries)%Z with (n - 2 - entries)%Z by lia.
    rewrite update_eq by done. done. }
  assert (header_ok h') as Hh'.
  { destruct Hh. split; try done; simpl; unfold in_range, GPT_HEADER_LBA, GPT_HEADER_SIZE_LBA,
      GPT_HEADER_DATA_SIZE, GPT_PARTITION_COUNT, GPT_PARTITION_DATA_SIZE; zpow; lia. }
  eexists; split; [done|]. split_and!; try done.
  - split; [by apply sealed_ok|done|done|]. apply Mbr.update_ok.
    apply Mbr.set_entry_ok; [apply (Mbr.update_ok (Mbr.set_mbr Mbr.MbrData0 (m_mbr s))), Mbr.MbrData0_ok|].
    apply Mbr.protective_ok; [change (is_byte 0); unfold is_byte; lia|simpl; lia].
  - assert (∀ i, entry (mkGpt (sealed h' empty_table) empty_table (Mbr.update m').2 b true) i
                 = GptPartitionData0) as HE by (intros i; apply empty_entry).
    split; simpl; try lia; try done.
    + intros i [_ Hi]. by rewrite HE in Hi.
    + intros i j [_ Hi]. by rewrite HE in Hi.
    + intros i _ _. by rewrite HE.
  - rewrite check_crc_eq by done. cbn [m_gpt_header m_gpt_table].
    rewrite !bool_decide_eq_true_2 by done. done.
  - split_and!; [done|done|]. by eexists.
  - intros Hb1 Hb2.
    pose proof (Z.div_mod (16384 + b - 1) b ltac:(lia)) as Hd.
    pose proof (Z.mod_pos_bound (16384 + b - 1) b ltac:(lia)) as Hm.
    fold entries in Hd. assert (16384 ≤ entries * b)%Z by lia.
    split; simpl; try done; try lia; nia.
Qed.

(** Reset of an empty object for a drive of [n] LBAs that has room for
    both copies of the metadata gives a valid table with right checksums, a
    protective MBR and no partition, that satisfies the layout invariant; the usable area starts after the primary
    entries and ends right before the backup entries, which end right before the
    backup header on the last LBA. *)
Theorem reset_layout n uuid s :
  guid_ok uuid → (0 < m_bytes_per_lba s < 2 ^ 32)%Z → header_ok (m_gpt_header s) →
  let entries := ((16384 + m_bytes_per_lba s - 1) / m_bytes_per_lba s)%Z in
  (4 + 2 * entries ≤ n < 2 ^ 64)%Z →
  ∃ s', reset zlib_crc32 n uuid s = (Ok tt, s') ∧ is_valid s' = true ∧ typed s' ∧ layout_wf s' ∧
    check_crc zlib_crc32 s' = Ok true ∧ get_partition_ids s' = [] ∧
    protective (m_mbr s') ∧
    backup_lba (m_gpt_header s') = (n - 1)%Z ∧
    first_usable_lba (m_gpt_header s') = (3 + entries)%Z ∧
    last_usable_lba (m_gpt_header s') = (n - 2 - entries)%Z.
Proof.
  intros Hu Hb Hh entries Hn. destruct (reset_spec n uuid s Hu Hb Hh Hn) as (s' & H).
  exists s'. tauto.
Qed.

(** The checksums are right: what [check_crc] tests. *)
Record checked (h : GptHeaderData) (es : list GptPartitionData) : Prop := {
  ck_signature : signature h = GPT_SIGNATURE;
  ck_header : header_crc h = crc_of (header_bytes (with_crc 0 h));
  ck_table : partition_table_crc h = crc_of (table_bytes es);
}.

(** The backup header [save] writes. *)
Definition backup_header (h : GptHeaderData) : GptHeaderData :=
  with_crc (crc_of (header_bytes (backup_of h))) (backup_of h).

Lemma backup_of_ok h : header_ok h → header_ok (backup_of h).
Proof.
  intros []. split; try done. simpl. apply wrap_range. lia.
Qed.

Lemma backup_header_ok h : header_ok h → header_ok (backup_header h).
Proof. intros Hh. apply header_ok_crc; [by apply backup_of_ok|apply zlib_u32]. Qed.

Lemma backup_checked h es : checked h es → checked (backup_header h) es.
Proof. intros [H1 H2 H3]. by split. Qed.

Context {D : Type} `{DriveInterface D}.

Lemma load_gpt_eq target hl (is_primary : bool) (d : D) s h es :
  header_ok h → table_ok es → Forall (λ e, name_ok (name e)) es → checked h es →
  drive_read target (byte_address s hl) GPT_HEADER_DATA_SIZE d = Ok (header_bytes h) →
  drive_read target (byte_address s (if is_primary then partition_table_lba h
                                     else wrap 64 (last_usable_lba h + 1)))
    (GPT_PARTITION_DATA_SIZE * GPT_PARTITION_COUNT) d = Ok (table_bytes es) →
  load_gpt zlib_crc32 target hl is_primary d s =
  (Ok tt, mkGpt (norm_header h) (norm_entry <$> es) (m_mbr s) (m_bytes_per_lba s) (m_is_valid s)).
Proof.
  intros Hh He Hn [Hc1 Hc2 Hc3] Hr1 Hr2. unfold load_gpt. run_monad. rewrite Hr1. cbn [mbind result_bind].
  rewrite bb_to_gpt_header_bytes by done. rewrite decide_False by (simpl; auto).
  cbn [partition_table_lba last_usable_lba norm_header]. rewrite Hr2.
  rewrite bb_to_gpt_table_bytes by done.
  rewrite check_crc_eq; [|by apply guid_ok_upper, Hh|by apply norm_table_ok].
  cbn [m_gpt_header m_gpt_table set_table set_header header_crc partition_table_crc norm_header].
  change (with_crc 0 (norm_header h)) with (norm_header (with_crc 0 h)).
  rewrite norm_header_bytes by apply Hh. rewrite norm_table_bytes by done.
  rewrite !bool_decide_eq_true_2 by done. done.
Qed.

Lemma save_inv target s d d' :
  typed s → save zlib_crc32 target s d = (Ok tt, d') →
  m_is_valid s = true ∧
  ∃ d1 d2 d3 d4,
    Mbr.save target (m_mbr s) d = (Ok tt, d1) ∧
    drive_write target (byte_address s (current_lba (m_gpt_header s)))
      (header_bytes (m_gpt_header s)) d1 = (Ok tt, d2) ∧
    drive_write target (byte_address s (wrap 64 (current_lba (m_gpt_header s) + 1)))
      (table_bytes (m_gpt_table s)) d2 = (Ok tt, d3) ∧
    drive_write target (byte_address s (backup_lba (m_gpt_header s)))
      (header_bytes (backup_header (m_gpt_header s))) d3 = (Ok tt, d4) ∧
    drive_write target (byte_address s (wrap 64 (last_usable_lba (m_gpt_header s) + 1)))
      (table_bytes (m_gpt_table s)) d4 = (Ok tt, d').
Proof.
  intros [Hh Ht Hn Hm] Hs. unfold save in Hs. destruct (m_is_valid s); [|done]. split; [done|].
  simpl in Hs. run_monad. pose proof (hok_disk_guid _ Hh) as Hg.
  destruct (Mbr.save _ _ _) as [[[]|] d1] eqn:E1; [|done]. exists d1.
  rewrite gpt_header_to_bb_eq, gpt_table_to_bb_eq in Hs by done.
  rewrite (gpt_header_to_bb_eq (backup_of _)) in Hs by done.
  rewrite Crc32_header in Hs by done. rewrite gpt_header_to_bb_eq in Hs by done.
  destruct (drive_write _ _ _ d1) as [[[]|] d2] eqn:E2; [|done]. exists d2.
  destruct (drive_write _ _ _ d2) as [[[]|] d3] eqn:E3; [|done]. exists d3.
  destruct (drive_write _ _ _ d3) as [[[]|] d4] eqn:E4; [|done]. exists d4. done.
Qed.

Lemma load_mbr_eq target (d : D) s m :
  protective m → Mbr.load target d (m_mbr s) = (Ok tt, m) →
  load_mbr target d s = (Ok tt, set_mbr m s).
Proof.
  intros (Hv & Hids & pd & Hpd & Hty) Hl. unfold load_mbr, on_mbr. run_monad. rewrite Hl.
  cbn [m_mbr set_mbr]. rewrite Hv, Hids. cbn [negb]. rewrite decide_False by auto.
  rewrite Hpd. rewrite decide_False by auto. done.
Qed.

(** The bytes of all the entries. *)
Definition table_size : nat := GPT_PARTITION_DATA_SIZE * GPT_PARTITION_COUNT.

Lemma table_size_Z : Z.of_nat table_size = 16384%Z.
Proof. done. Qed.

(** The five areas of a drive that hold the table. *)
Record on_disk (target : list Z) (s : t) (d : D) : Prop := {
  od_mbr d'' s' : drive_read target 0 512 d'' = drive_read target 0 512 d →
    Mbr.load target d'' s' = (Ok tt, m_mbr s);
  od_header : drive_read target (m_bytes_per_lba s) 92 d = Ok (header_bytes (m_gpt_header s));
  od_table : drive_read target (2 * m_bytes_per_lba s) table_size d = Ok (table_bytes (m_gpt_table s));
  od_backup_header : drive_read target (backup_lba (m_gpt_header s) * m_bytes_per_lba s) 92 d =
    Ok (header_bytes (backup_header (m_gpt_header s)));
  od_backup_table :
    drive_read target ((last_usable_lba (m_gpt_header s) + 1) * m_bytes_per_lba s) table_size d =
    Ok (table_bytes (m_gpt_table s));
}.

Lemma placed_addresses s :
  placed s →
  byte_address s 1 = m_bytes_per_lba s ∧ byte_address s 2 = (2 * m_bytes_per_lba s)%Z ∧
  byte_address s (wrap 64 (last_usable_lba (m_gpt_header s) + 1)) =
    ((last_usable_lba (m_gpt_header s) + 1) * m_bytes_per_lba s)%Z ∧
  byte_address s (backup_lba (m_gpt_header s)) =
    (backup_lba (m_gpt_header s) * m_bytes_per_lba s)%Z.
Proof.
  intros []. unfold byte_address. zpow.
  rewrite (wrap_small 64 (last_usable_lba (m_gpt_header s) + 1)) by (unfold in_range; zpow; nia).
  rewrite !wrap_small by (unfold in_range; zpow; nia). split_and!; lia.
Qed.

Context `{!DriveLaws D}.

(** After two writes elsewhere... the reads of the five areas. *)
Lemma save_on_disk target s d d' :
  typed s → placed s → save zlib_crc32 target s d = (Ok tt, d') → on_disk target s d'.
Proof.
  intros Hty Hpl Hsave. destruct (save_inv _ _ _ _ Hty Hsave) as (_ & d1 & d2 & d3 & d4 & W1 & W2 & W3 & W4 & W5).
  destruct (placed_addresses s Hpl) as (A1 & A2 & A3 & A4).
  destruct Hpl as [[Hb _] Hc _ _ Hp1 Hp2 _].
  rewrite Hc in *. change (wrap 64 (1 + 1)) with 2%Z in *. rewrite A1, A2, A3, A4 in *.
  destruct (Mbr.mbr_save_inv d target _ d1 (ty_mbr s Hty) W1) as (_ & bb & Hlbb & W0 & Hload).
  pose proof (length_header_bytes _ (hok_disk_guid _ (ty_header s Hty))) as Lh.
  pose proof (length_header_bytes (backup_header (m_gpt_header s)) (hok_disk_guid _ (ty_header s Hty))) as Lb.
  assert (length (table_bytes (m_gpt_table s)) = table_size) as Lt.
  { destruct (ty_table s Hty) as [Hn He]. by rewrite length_table_bytes, Hn by done. }
  pose proof table_size_Z as Ht.
  unfold Mbr.MBR_OFFSET, Mbr.MBR_DATA_SIZE in *.
  pose proof (read_written _ _ _ _ _ W0) as R0. pose proof (read_written _ _ _ _ _ W2) as R2.
  pose proof (read_written _ _ _ _ _ W3) as R3. pose proof (read_written _ _ _ _ _ W4) as R4.
  pose proof (read_written _ _ _ _ _ W5) as R5. rewrite Hlbb, Lh, Lt, Lb in *.
  set (b := m_bytes_per_lba s) in *. set (X := ((_ + 1) * b)%Z) in *. set (Y := (_ * b)%Z) in *.
  assert (∀ loc n, (0 ≤ loc)%Z → (loc + Z.of_nat n ≤ X)%Z → drive_read target loc n d' = drive_read target loc n d3) as F45.
  { intros loc n H1 H2. rewrite (read_elsewhere _ _ _ _ _ _ _ W5) by (rewrite ?Lt; lia).
    by rewrite (read_elsewhere _ _ _ _ _ _ _ W4) by (rewrite ?Lb; lia). }
  split; fold b; try fold X; try fold Y.
  - intros d'' s' Hr. apply Hload. rewrite Hr, F45 by lia.
    rewrite (read_elsewhere _ _ _ _ _ _ _ W3) by (rewrite ?Lt; lia).
    by rewrite (read_elsewhere _ _ _ _ _ _ _ W2) by (rewrite ?Lh; lia).
  - rewrite F45 by lia. by rewrite (read_elsewhere _ _ _ _ _ _ _ W3) by (rewrite ?Lt; lia).
  - by rewrite F45 by lia.
  - by rewrite (read_elsewhere _ _ _ _ _ _ _ W5) by (rewrite ?Lt; lia).
  - done.
Qed.

Lemma checked_of_check s :
  typed s → signature (m_gpt_header s) = GPT_SIGNATURE → check_crc zlib_crc32 s = Ok true →
  checked (m_gpt_header s) (m_gpt_table s).
Proof.
  intros [Hh Ht _ _] Hsig Hc. rewrite check_crc_eq in Hc by (assumption || by apply hok_disk_guid).
  injection Hc as Hc. rewrite andb_true_iff, !bool_decide_eq_true in Hc.
  destruct Hc. by split.
Qed.

(** A primary load of a drive whose header is intact: what it leaves behind. *)
Lemma load_gpt_primary target (d : D) s h :
  header_ok h → signature h = GPT_SIGNATURE →
  drive_read target (byte_address s GPT_HEADER_LOCATION) GPT_HEADER_DATA_SIZE d = Ok (header_bytes h) →
  let r := load_gpt zlib_crc32 target GPT_HEADER_LOCATION true d s in
  m_gpt_header r.2 = norm_header h ∧ m_mbr r.2 = m_mbr s ∧ m_bytes_per_lba r.2 = m_bytes_per_lba s ∧
  (r.1 = Ok tt → check_crc zlib_crc32 r.2 = Ok true).
Proof.
  intros Hh Hsig Hr. unfold load_gpt. run_monad. rewrite Hr. cbn [mbind result_bind].
  rewrite bb_to_gpt_header_bytes by done. rewrite decide_False by (simpl; auto).
  destruct (drive_read _ _ (_ * _) _) as [tb|]; [|done]. cbn [mbind result_bind].
  destruct (bb_to_gpt_table tb) as [es|]; [|done].
  destruct (check_crc _ _) as [[]|] eqn:Hc; by split_and!.
Qed.

(** C3: a table that save wrote with valid checksums is read back by load of
    any object for the same block size: the same entries, header and MBR, up to
    the upper case of GUIDs and the 36-character limit of names. *)
Theorem gpt_save_load target s d d' s0 :
  typed s → placed s → protective (m_mbr s) →
  signature (m_gpt_header s) = GPT_SIGNATURE → check_crc zlib_crc32 s = Ok true →
  m_bytes_per_lba s0 = m_bytes_per_lba s →
  save zlib_crc32 target s d = (Ok tt, d') →
  load zlib_crc32 target d' s0 =
  (Ok tt, mkGpt (norm_header (m_gpt_header s)) (norm_entry <$> m_gpt_table s) (m_mbr s)
            (m_bytes_per_lba s) true).
Proof.
  intros Hty Hpl Hprot Hsig Hcrc Hb Hsave.
  pose proof (checked_of_check s Hty Hsig Hcrc) as Hck.
  destruct (save_on_disk _ _ _ _ Hty Hpl Hsave) as [Hm Hh Ht _ _].
  destruct (placed_addresses s Hpl) as (A1 & A2 & _ & _). destruct Hty as [Hhok Htok Hn _].
  unfold load. unfold mbind, M_bind, modify.
  rewrite (load_mbr_eq _ _ _ (m_mbr s)) by (assumption || by apply Hm).
  unfold try_catch. rewrite (load_gpt_eq _ _ true d' _ (m_gpt_header s) (m_gpt_table s)); try assumption.
  - cbn. by rewrite Hb.
  - unfold byte_address in *. simpl. rewrite Hb. unfold GPT_HEADER_LOCATION. rewrite A1. apply Hh.
  - rewrite (pl_table s Hpl). unfold byte_address in *. simpl. rewrite Hb, A2. apply Ht.
Qed.

(** C30: if the primary entries of a saved table are overwritten with any
    other bytes, load still returns: either the new entries carry the recorded
    checksums (a CRC collision), or the object gets every entry of the saved
    table from the backup copy. *)
Theorem gpt_recovers_from_backup target s d d' d'' junk s0 :
  typed s → placed s → protective (m_mbr s) →
  signature (m_gpt_header s) = GPT_SIGNATURE → check_crc zlib_crc32 s = Ok true →
  m_bytes_per_lba s0 = m_bytes_per_lba s →
  save zlib_crc32 target s d = (Ok tt, d') →
  length junk = table_size →
  drive_write target (2 * m_bytes_per_lba s) junk d' = (Ok tt, d'') →
  ∃ s', load zlib_crc32 target d'' s0 = (Ok tt, s') ∧ m_is_valid s' = true ∧
    ((m_gpt_header s' = norm_header (m_gpt_header s) ∧ check_crc zlib_crc32 s' = Ok true) ∨
     (m_gpt_header s' = norm_header (backup_header (m_gpt_header s)) ∧
      m_gpt_table s' = norm_entry <$> m_gpt_table s)).
Proof.
  intros Hty Hpl Hprot Hsig Hcrc Hb Hsave Hjunk Hw.
  pose proof (checked_of_check s Hty Hsig Hcrc) as Hck.
  destruct (save_on_disk _ _ _ _ Hty Hpl Hsave) as [Hm Hh Ht Hbh Hbt].
  destruct (placed_addresses s Hpl) as (A1 & A2 & A3 & A4).
  destruct Hpl as [[Hbps _] _ Htl Hlu Hp1 Hp2 _]. destruct Hty as [Hhok Htok Hn _].
  pose proof table_size_Z as Hts. unfold byte_address in *. fold table_size in *.
  unfold GPT_HEADER_DATA_SIZE.
  assert (∀ loc n, (0 ≤ loc)%Z →
    (loc + Z.of_nat n ≤ 2 * m_bytes_per_lba s ∨ 2 * m_bytes_per_lba s + 16384 ≤ loc)%Z →
    drive_read target loc n d'' = drive_read target loc n d') as F.
  { intros loc n H1 H2. apply (read_elsewhere _ _ _ _ _ _ _ Hw); rewrite ?Hjunk; lia. }
  unfold load. unfold mbind, M_bind, modify.
  rewrite (load_mbr_eq _ _ _ (m_mbr s)) by (assumption || (apply Hm; apply F; lia)).
  set (s1 := set_mbr (m_mbr s) (set_valid false s0)). unfold try_catch.
  destruct (load_gpt_primary target d'' s1 (m_gpt_header s) Hhok Hsig) as (P1 & P2 & P3 & P4).
  { unfold byte_address, s1. simpl. rewrite Hb. unfold GPT_HEADER_LOCATION, GPT_HEADER_DATA_SIZE.
    rewrite A1, F by lia. done. }
  change (m_bytes_per_lba s1) with (m_bytes_per_lba s0) in P3. rewrite Hb in P3.
  destruct (load_gpt zlib_crc32 target GPT_HEADER_LOCATION true d'' s1) as [[[]|e] s2] eqn:E1; cbn [fst snd] in *.
  - eexists; split; [done|]. split; [done|]. left.
    split; [done|]. by apply P4.
  - unfold get. rewrite P1. cbn [backup_lba norm_header].
    rewrite (load_gpt_eq _ _ false d'' s2 (backup_header (m_gpt_header s)) (m_gpt_table s)).
    + eexists; split; [reflexivity|]. split; [reflexivity|]. right. split; reflexivity.
    + by apply backup_header_ok.
    + assumption.
    + assumption.
    + by apply backup_checked.
    + unfold byte_address. rewrite P3, A4, F by lia. done.
    + cbn. unfold byte_address. rewrite P3, A3, F by lia. done.
Qed.
End persistence.

(** ** On a device file *)

Section on_file.
Import FileDriveInterface.
Context (zlib_crc32 : Z → option (list Z) → Z).
Hypothesis zlib_u32 : ∀ seed buf, in_range 32 (zlib_crc32 seed buf).

Lemma mbr_save_file target m fs file :
  Mbr.wf m → Mbr.m_is_valid m = true → open_file target fs = Some file → 512 ≤ length file →
  ∃ fs' file', Mbr.save target m fs = (Ok tt, fs') ∧ open_file target fs' = Some file' ∧
    length file' = length file.
Proof.
  intros [Hd _] Hv Ho Hl. destruct (Mbr.mbr_to_bb_spec _ Hd) as (bb & Hbb & Hlen & _).
  unfold Mbr.save. rewrite Hv. simpl. run_monad. rewrite Hbb.
  apply (write_fits target 0 bb fs file Ho). unfold Mbr.MBR_DATA_SIZE in Hlen. simpl. lia.
Qed.

Lemma save_file_ok target s fs file :
  typed s → placed s → is_valid s = true → open_file target fs = Some file →
  ((backup_lba (m_gpt_header s) + 1) * m_bytes_per_lba s ≤ Z.of_nat (length file))%Z →
  ∃ fs' file', save zlib_crc32 target s fs = (Ok tt, fs') ∧
    open_file target fs' = Some file' ∧ length file' = length file.
Proof.
  intros Hty Hpl Hval Ho Hlen. unfold is_valid in Hval. apply andb_true_iff in Hval as [Hv Hmv].
  destruct (placed_addresses s Hpl) as (A1 & A2 & A3 & A4).
  destruct Hpl as [[Hb _] Hc _ Hlu Hp1 Hp2 _]. destruct Hty as [Hh Ht Hn Hm].
  pose proof (hok_disk_guid _ Hh) as Hg. pose proof table_size_Z as Hts.
  assert (length (table_bytes (m_gpt_table s)) = table_size) as Lt.
  { destruct Ht as [Hn' He]. by rewrite length_table_bytes, Hn' by done. }
  destruct (mbr_save_file target (m_mbr s) fs file) as (fs1 & f1 & E1 & O1 & L1); try done; [lia|].
  unfold save. rewrite Hv. cbn [negb]. unfold mbind, M_bind, lift. rewrite E1.
  rewrite (gpt_header_to_bb_eq (m_gpt_header s)), gpt_table_to_bb_eq by done.
  rewrite (gpt_header_to_bb_eq (backup_of _)) by done.
  rewrite Crc32_header by done. rewrite gpt_header_to_bb_eq by done.
  rewrite Hc. change (wrap 64 (1 + GPT_HEADER_SIZE_LBA)) with 2%Z. rewrite A1, A2, A3, A4.
  cbn [drive_write file_drive].
  destruct (write_fits target (m_bytes_per_lba s) (header_bytes (m_gpt_header s)) fs1 f1)
    as (fs2 & f2 & -> & O2 & L2); [done|rewrite length_header_bytes by done; lia|].
  destruct (write_fits target (2 * m_bytes_per_lba s) (table_bytes (m_gpt_table s)) fs2 f2)
    as (fs3 & f3 & -> & O3 & L3); [done|lia|].
  destruct (write_fits target (backup_lba (m_gpt_header s) * m_bytes_per_lba s)
      (header_bytes (with_crc (crc_of zlib_crc32 (header_bytes (backup_of (m_gpt_header s))))
         (backup_of (m_gpt_header s)))) fs3 f3)
    as (fs4 & f4 & -> & O4 & L4); [done|rewrite length_header_bytes by done; lia|].
  destruct (write_fits target ((last_usable_lba (m_gpt_header s) + 1) * m_bytes_per_lba s)
      (table_bytes (m_gpt_table s)) fs4 f4)
    as (fs5 & f5 & -> & O5 & L5); [done|lia|]. exists fs5, f5.
  split_and!; [done|done|congruence].
Qed.

(** Save of a valid, well-placed table to a device file as large as
    the table says (its last LBA is the backup header's) succeeds: all five
    areas are written. *)
Theorem gpt_save_succeeds target s fs file :
  typed s → placed s → is_valid s = true → open_file target fs = Some file →
  ((backup_lba (m_gpt_header s) + 1) * m_bytes_per_lba s ≤ Z.of_nat (length file))%Z →
  ∃ fs', save zlib_crc32 target s fs = (Ok tt, fs').
Proof.
  intros Hty Hpl Hv Ho Hl.
  destruct (save_file_ok _ _ _ _ Hty Hpl Hv Ho Hl) as (fs' & _ & Hs & _). by exists fs'.
Qed.

(** A table that was recovered from the backup copy keeps the backup
    header's swapped LBAs, so its next save on a device that ends with that
    header puts the entries past the end and throws: the damaged primary copy is
    never repaired. *)
Theorem recovered_table_cannot_be_saved target h es m b fs file :
  header_ok h → table_ok es → Mbr.wf m → (512 ≤ b)%Z →
  (0 ≤ backup_lba h)%Z → ((backup_lba h + 1) * b < 2 ^ 64)%Z →
  open_file target fs = Some file → Z.of_nat (length file) = ((backup_lba h + 1) * b)%Z →
  Forall (λ e, name_ok (name e)) es →
  let recovered := mkGpt (norm_header (backup_header zlib_crc32 h)) (norm_entry <$> es) m b true in
  is_ok (save zlib_crc32 target recovered fs).1 = false.
Proof.
  intros Hh Hes Hm Hb Hbl Hend Ho Hlen Hn recovered.
  assert (typed recovered) as Hty.
  { split; simpl; [apply norm_header_ok; by apply backup_header_ok|by apply norm_table_ok| |done].
    apply list.Forall_fmap. eapply list.Forall_impl; [exact Hn|]. intros e He. simpl.
    unfold name_ok. by apply Forall_filter_weaken, Forall_take. }
  destruct (save zlib_crc32 target recovered fs) as [[[]|e] fs'] eqn:E; [exfalso|done].
  destruct (save_inv zlib_crc32 zlib_u32 _ _ _ _ Hty E)
    as (_ & d1 & d2 & d3 & d4 & W1 & W2 & W3 & _).
  destruct (Mbr.mbr_save_inv fs target m d1 Hm W1) as (_ & bb & Hlbb & W0 & _).
  apply write_Ok in W0 as (f0 & O0 & O1 & L0). apply write_Ok in W2 as (f1 & O1' & O2 & L1).
  apply write_Ok in W3 as (f2 & O2' & _ & L2).
  rewrite O0 in Ho. injection Ho as ->. rewrite O1 in O1'. injection O1' as <-.
  rewrite O2 in O2'. injection O2' as <-.
  assert (length (table_bytes (m_gpt_table recovered)) = table_size) as Lt.
  { destruct (ty_table _ Hty) as [Hn' He']. by rewrite length_table_bytes, Hn' by done. }
  pose proof table_size_Z as Hts.
  assert (Z.to_nat (byte_address recovered (wrap 64 (current_lba (m_gpt_header recovered) + 1)))
          = length file) as Ha.
  { unfold byte_address. cbn [current_lba m_gpt_header recovered norm_header backup_header with_crc
      backup_of m_bytes_per_lba].
    rewrite (wrap_small 64 (backup_lba h + 1)) by (unfold in_range; zpow; nia).
    rewrite wrap_small by (unfold in_range; lia). lia. }
  rewrite Ha, Lt in L2. destruct L2 as [L2|L2]; [|rewrite L2 in Lt; simpl in Lt; lia].
  assert (length (splice (Z.to_nat Mbr.MBR_OFFSET) bb file) = length file) as S0.
  { destruct L0 as [L0| ->]; [by apply length_splice|done]. }
  destruct L1 as [L1|L1].
  - rewrite length_splice, S0 in L2 by done. lia.
  - pose proof (length_header_bytes _ (hok_disk_guid _ (ty_header _ Hty))) as Lh.
    rewrite L1 in Lh. done.
Qed.
End on_file.

(** The id checks of set_partition and remove_partition let through the id
    128, one past the last slot: both then write outside the array after they
    have already marked the table invalid. *)
Theorem id_128_out_of_bounds s pd uuid :
  layout_wf s → fits pd → pd_size_lba pd ≠ 0%Z → pd_type pd = LINUX →
  length (pd_name pd) ≤ 36 → free s (pd_first_lba pd) (pd_size_lba pd) →
  set_partition 128 pd uuid s = (Throw undefined_behaviour, set_valid false s) ∧
  remove_partition 128 s = (Throw undefined_behaviour, set_valid false s) ∧
  get_partition 128 s = Throw (runtime_error "Invalid partition id: ").
Proof.
  intros Hs Hfit Hnz Hty Hname Hfree. split; [|by split].
  by rewrite set_partition_passes.
Qed.

(** ** The theorems on a device of 100 blocks of 512 bytes *)

Definition sum_crc (seed : Z) (buf : option (list Z)) : Z :=
  match buf with None => 0 | Some l => wrap 32 (foldl Z.add seed l) end.

Lemma sum_crc_u32 seed buf : in_range 32 (sum_crc seed buf).
Proof. destruct buf; simpl; [apply wrap_range; lia|unfold in_range; lia]. Qed.

Definition sda : list Z := chars "sda".
Definition disk : FileDriveInterface.files := [(sda, replicate (100 * 512) 7%Z)].
Definition uuid1 : list Z := chars "6ba7b810-9dad-11d1-80b4-00c04fd430c8".
Definition formatted : t := (reset sum_crc 100 uuid1 (gpt0 512)).2.

(** An unsaved table: LBAs 35 to 66 are usable, 40 to 49 are taken. *)
Definition small : t :=
  let s := mkGpt (with_usable 35 66 uuid1 (with_backup_lba 99 GptHeaderData0)) empty_table
             Mbr.mbr0 512 false in
  set_table (<[3 := sample_entry]> (m_gpt_table s)) s.

Definition root_pd : PartitionData := mkPartitionData 50 6 LINUX (chars "root") [].

Lemma formatted_spec :
  is_valid formatted = true ∧ typed formatted ∧ placed formatted ∧ protective (m_mbr formatted) ∧
  signature (m_gpt_header formatted) = GPT_SIGNATURE ∧ check_crc sum_crc formatted = Ok true ∧
  m_bytes_per_lba formatted = 512%Z ∧ backup_lba (m_gpt_header formatted) = 99%Z.
Proof.
  destruct (reset_spec sum_crc sum_crc_u32 100 uuid1 (gpt0 512)) as (s' & Hr & H).
  - by eexists.
  - simpl. lia.
  - apply GptHeaderData0_ok.
  - by vm_compute.
  - unfold formatted. rewrite Hr. cbn [snd].
    destruct H as (H1 & H2 & _ & H3 & _ & H4 & H5 & _ & _ & H6 & H7 & H8).
    split_and!; try assumption. apply H8; by vm_compute.
Qed.

Lemma disk_file : FileDriveInterface.open_file sda disk = Some (replicate (100 * 512) 7%Z).
Proof. unfold disk. cbn [FileDriveInterface.open_file]. by destruct (decide (sda = sda)). Qed.

Lemma disk_length : Z.of_nat (length (replicate (100 * 512) 7%Z)) = 51200%Z.
Proof. rewrite length_replicate. lia. Qed.

Lemma small_wf : layout_wf small.
Proof.
  unfold small. apply layout_wf_set; [|unfold GPT_PARTITION_COUNT; lia|].
  - split; simpl; try lia; try done.
    + intros i [_ Hi]. by rewrite empty_entry in Hi.
    + intros i j [_ Hi]. by rewrite empty_entry in Hi.
    + intros i _ _. by rewrite empty_entry.
  - rewrite decide_False by apply linux_not_empty. simpl. split_and!; try lia.
    intros i [_ Hi]. by rewrite empty_entry in Hi.
Qed.

Lemma small_free a : (50 ≤ a ≤ 66)%Z → free small a (67 - a).
Proof.
  intros Ha. unfold free. simpl. split_and!; try lia. intros i [Hi Hu].
  unfold small in *. rewrite entry_set in * by (done || unfold GPT_PARTITION_COUNT; lia).
  case_decide; [simpl; lia|]. by rewrite empty_entry in Hu.
Qed.

Lemma get_empty_region_first_fit_witness :
  get_empty_region 6 small = Ok 50%Z ∧ free small 50 6.
Proof.
  pose proof (get_empty_region_first_fit small 6 small_wf) as H.
  assert (get_empty_region 6 small = Ok 50%Z) as Hr by (vm_compute; reflexivity).
  rewrite Hr in H. split; [done|]. apply H; [unfold in_range; lia|lia].
Defined.

Lemma layout_preserved_witness : layout_wf (set_partition 7 root_pd uuid1 small).2.
Proof.
  apply (layout_preserved small 7 root_pd uuid1 small_wf).
  unfold fits, in_range, root_pd. simpl. lia.
Defined.

Lemma allocate_partition_witness :
  ∃ s', set_partition 0 (mkPartitionData 50 6 LINUX (chars "root") []) uuid1 small = (Ok tt, s') ∧
    get_partition 0 s' = Ok (mkPartitionData 50 6 LINUX (chars "root") uuid1).
Proof.
  destruct (allocate_partition small 6 0 50 (chars "root") uuid1 small_wf) as (s' & H1 & H2 & _).
  - unfold in_range. lia.
  - vm_compute. lia.
  - vm_compute. reflexivity.
  - vm_compute. reflexivity.
  - exists s'. by split.
Defined.

Lemma set_partition_size_wraps_witness :
  ∃ s', set_partition 0 (mkPartitionData 66 (2 ^ 64 - 66 + 2) LINUX [] []) uuid1 small = (Ok tt, s') ∧
    get_partition 0 s' = Ok (mkPartitionData 66 1 LINUX [] uuid1).
Proof.
  apply (set_partition_size_wraps small 0 66 [] uuid1 small_wf).
  - simpl. lia.
  - apply (small_free 66). lia.
  - unfold GPT_PARTITION_COUNT. lia.
  - simpl. lia.
Defined.

Lemma id_128_out_of_bounds_witness :
  (set_partition 128 (mkPartitionData 50 17 LINUX [] []) uuid1 small).1 = Throw undefined_behaviour.
Proof.
  destruct (id_128_out_of_bounds small (mkPartitionData 50 17 LINUX [] []) uuid1 small_wf) as (H & _).
  - unfold fits, in_range. simpl. lia.
  - done.
  - done.
  - simpl. lia.
  - apply (small_free 50). lia.
  - by rewrite H.
Defined.

Lemma update_check_crc_witness :
  ∃ s', update sum_crc formatted = (Ok tt, s') ∧ check_crc sum_crc s' = Ok true.
Proof.
  destruct (update_check_crc sum_crc sum_crc_u32 formatted) as (s' & H1 & _ & _ & H2 & _).
  - apply formatted_spec.
  - exists s'. by split.
Defined.

Lemma reset_layout_witness :
  ∃ s', reset sum_crc 100 uuid1 (gpt0 512) = (Ok tt, s') ∧ layout_wf s' ∧
    first_usable_lba (m_gpt_header s') = 35%Z.
Proof.
  destruct (reset_layout sum_crc sum_crc_u32 100 uuid1 (gpt0 512)) as (s' & H).
  - by eexists.
  - simpl. lia.
  - apply GptHeaderData0_ok.
  - by vm_compute.
  - exists s'. split_and!; apply H.
Defined.

Lemma gpt_save_succeeds_witness : ∃ fs', save sum_crc sda formatted disk = (Ok tt, fs').
Proof.
  destruct formatted_spec as (Hv & Hty & Hpl & _ & _ & _ & Hb & Hbl).
  apply (gpt_save_succeeds sum_crc sum_crc_u32 sda formatted disk _ Hty Hpl Hv disk_file).
  rewrite disk_length, Hb, Hbl. lia.
Defined.

Lemma formatted_saved :
  ∃ fs', save sum_crc sda formatted disk = (Ok tt, fs') ∧
    ∃ file', FileDriveInterface.open_file sda fs' = Some file' ∧ length file' = 100 * 512.
Proof.
  destruct formatted_spec as (Hv & Hty & Hpl & _ & _ & _ & Hb & Hbl).
  destruct (save_file_ok sum_crc sum_crc_u32 sda formatted disk _ Hty Hpl Hv disk_file)
    as (fs' & file' & Hs & Ho & Hl).
  - rewrite disk_length, Hb, Hbl. lia.
  - exists fs'. split; [done|]. exists file'. split; [done|]. rewrite Hl. apply length_replicate.
Qed.

Lemma gpt_save_load_witness :
  ∃ fs', save sum_crc sda formatted disk = (Ok tt, fs') ∧
    m_gpt_table (load sum_crc sda fs' (gpt0 512)).2 = norm_entry <$> m_gpt_table formatted.
Proof.
  destruct formatted_spec as (Hv & Hty & Hpl & Hpr & Hsig & Hck & Hb & _).
  destruct formatted_saved as (fs' & Hs & _). exists fs'. split; [exact Hs|].
  rewrite (gpt_save_load sum_crc sum_crc_u32 sda formatted disk fs' (gpt0 512)
             Hty Hpl Hpr Hsig Hck (eq_sym Hb) Hs). reflexivity.
Defined.

(** The primary entries of the saved table, overwritten with zeros. *)
Lemma gpt_recovers_from_backup_witness :
  ∃ fs' fs'', save sum_crc sda formatted disk = (Ok tt, fs') ∧
    drive_write sda (2 * m_bytes_per_lba formatted) (replicate table_size 0%Z) fs' = (Ok tt, fs'') ∧
    (load sum_crc sda fs'' (gpt0 512)).1 = Ok tt.
Proof.
  destruct formatted_spec as (Hv & Hty & Hpl & Hpr & Hsig & Hck & Hb & _).
  destruct formatted_saved as (fs' & Hs & file' & Hf & Hl).
  destruct (FileDriveInterface.write_fits sda (2 * m_bytes_per_lba formatted)
              (replicate table_size 0%Z) fs' file' Hf) as (fs'' & _ & Hw & _ & _).
  { rewrite Hl, Hb, length_replicate. pose proof table_size_Z. lia. }
  exists fs', fs''. split; [exact Hs|]. split; [exact Hw|].
  destruct (gpt_recovers_from_backup sum_crc sum_crc_u32 sda formatted disk fs' fs''
    (replicate table_size 0%Z) (gpt0 512) Hty Hpl Hpr Hsig Hck (eq_sym Hb) Hs
    (length_replicate _ _) Hw) as (s' & H & _). rewrite H. reflexivity.
Defined.

Lemma recovered_table_cannot_be_saved_witness :
  is_ok (save sum_crc sda
    (mkGpt (norm_header (backup_header sum_crc (m_gpt_header formatted)))
       (norm_entry <$> m_gpt_table formatted) (m_mbr formatted) 512 true) disk).1 = false.
Proof.
  destruct formatted_spec as (_ & Hty & _ & _ & _ & _ & _ & Hbl).
  apply (recovered_table_cannot_be_saved sum_crc sum_crc_u32 sda (m_gpt_header formatted)
    (m_gpt_table formatted) (m_mbr formatted) 512 disk (replicate (100 * 512) 7%Z)).
  - apply Hty.
  - apply Hty.
  - apply Hty.
  - lia.
  - rewrite Hbl. lia.
  - rewrite Hbl. lia.
  - exact disk_file.
  - rewrite disk_length, Hbl. lia.
  - apply Hty.
Defined.

End Gpt.
