(* ===== verification/EnumStateMachine.v ===== *)
(** [EnumStateMachine<STATE, EVENT>], a table-driven state machine
    (PSME/common/agent-framework/include/agent-framework/state_machine/enum_state_machine.hpp,
    with an identical copy in PSME/agent/pnc/include/state_machine/).

    Guards and actions are [std::function]s that capture the object that owns the
    machine: they are computations over an environment [E].  They receive the
    transition, of which they can use the two states and the event. *)

From Stdlib Require Import ZArith Lia.
From S2P Require Import Prelude.

Module EnumStateMachine.

Section machine.
Context {STATE EVENT E : Type} `{EqDecision STATE, EqDecision EVENT}.

Definition StateMachineFunction : Type := STATE → EVENT → STATE → M E bool.

Definition do_nothing : StateMachineFunction := λ _ _ _, mret true.
Definition always : StateMachineFunction := λ _ _ _, mret true.

Record Transition := mkTransition {
  init_state : STATE;
  event : EVENT;
  end_state : STATE;
  action : StateMachineFunction;
  guard : StateMachineFunction;
}.

Record t := mkMachine {
  m_current_state : STATE;
  m_transition_table : list Transition;
}.

(** [EnumStateMachine(init_state)] *)
Definition make (init : STATE) : t := mkMachine init [].

Definition add_transition (i : STATE) (e : EVENT) (f : STATE) (a g : StateMachineFunction) (m : t) : t :=
  mkMachine (m_current_state m) (m_transition_table m ++ [mkTransition i e f a g]).

Definition get_current_state (m : t) : STATE := m_current_state m.

Definition set_current_state (s : STATE) (m : t) : t := mkMachine s (m_transition_table m).

Definition in_env {A} (m : M E A) : M (t * E) A := zoom snd (λ e st, (st.1, e)) m.

Definition do_guard_check (tr : Transition) : M E bool :=
  guard tr (init_state tr) (event tr) (end_state tr).

Definition do_transition (tr : Transition) : M E bool :=
  action tr (init_state tr) (event tr) (end_state tr).

(** The loop of [send_event]. *)
Fixpoint dispatch (ev : EVENT) (rows : list Transition) : M (t * E) bool :=
  match rows with
  | [] => mret true
  | tr :: rows' =>
      st ← get;
      if decide (init_state tr = m_current_state st.1 ∧ event tr = ev) then
        g ← in_env (do_guard_check tr);
        if (g : bool) then
          ok ← in_env (do_transition tr);
          if (ok : bool) then
            modify (λ st, (set_current_state (end_state tr) st.1, st.2));; mret true
          else mret false
        else dispatch ev rows'
      else dispatch ev rows'
  end.

Definition send_event (ev : EVENT) : M (t * E) bool :=
  st ← get; dispatch ev (m_transition_table st.1).

(** ** Properties *)

(** A row the machine may take for an event in a state. *)
Definition enabled (s : STATE) (ev : EVENT) (tr : Transition) : Prop := init_state tr = s ∧ event tr = ev.

#[global] Instance enabled_dec s ev tr : Decision (enabled s ev tr).
Proof. unfold enabled. apply _. Defined.

Definition unguarded (tr : Transition) : Prop := guard tr = always.

(** The first row for the event, when no row is guarded. *)
Definition row (s : STATE) (ev : EVENT) (rows : list Transition) : option Transition :=
  list.head (filter (enabled s ev) rows).

(** Run one row: the state changes only after the action has returned true. *)
Definition take (tr : Transition) : M (t * E) bool := λ st,
  match do_transition tr st.2 with
  | (Ok true, e) => (Ok true, (set_current_state (end_state tr) st.1, e))
  | (Ok false, e) => (Ok false, (st.1, e))
  | (Throw x, e) => (Throw x, (st.1, e))
  end.

Lemma dispatch_unguarded ev rows st :
  Forall unguarded rows →
  dispatch ev rows st =
  match row (m_current_state st.1) ev rows with
  | Some tr => take tr st
  | None => (Ok true, st)
  end.
Proof.
  intros Hg. induction Hg as [|tr rows Htr Hg IH]; [done|]. cbn [dispatch]. unfold row in *.
  run_monad. rewrite filter_cons. unfold enabled at 1.
  destruct (decide (init_state tr = m_current_state st.1 ∧ event tr = ev)) as [He|He].
  - unfold in_env, do_guard_check. unfold unguarded in Htr. rewrite Htr. run_monad. cbn.
    unfold take. destruct st as [m e]; cbn.
    destruct (do_transition tr e) as [[[]|] e'] eqn:Ha; cbn; done.
  - rewrite IH. done.
Qed.

Lemma send_event_unguarded ev st :
  Forall unguarded (m_transition_table st.1) →
  send_event ev st =
  match row (m_current_state st.1) ev (m_transition_table st.1) with
  | Some tr => take tr st
  | None => (Ok true, st)
  end.
Proof. intros Hg. unfold send_event. run_monad. by apply dispatch_unguarded. Qed.

Lemma row_Some s ev rows tr : row s ev rows = Some tr → tr ∈ rows ∧ enabled s ev tr.
Proof.
  unfold row. intros Hh%list.head_Some_elem_of. apply list_elem_of_filter in Hh. tauto.
Qed.

(** A run of the loop, whatever the guards and actions do. *)
Lemma dispatch_outcome ev rows st r st' :
  dispatch ev rows st = (r, st') →
  m_transition_table st'.1 = m_transition_table st.1 ∧
  (m_current_state st'.1 = m_current_state st.1 ∨
   (r = Ok true ∧ ∃ tr, tr ∈ rows ∧ enabled (m_current_state st.1) ev tr ∧
      m_current_state st'.1 = end_state tr)).
Proof.
  revert st. induction rows as [|tr rows IH]; intros [m e] Hd; cbn [dispatch] in Hd.
  - injection Hd as <- <-. auto.
  - run_monad. destruct (decide _) as [He|He].
    + unfold in_env in Hd. run_monad. cbn in Hd.
      destruct (do_guard_check tr e) as [[[]|x] e1]; [| |injection Hd as <- <-; by auto].
      * cbn in Hd. destruct (do_transition tr e1) as [[[]|x] e2]; injection Hd as <- <-; cbn; auto.
        split; [done|]. right. split; [done|]. exists tr. split; [apply list_elem_of_here|done].
      * destruct (IH (m, e1) Hd) as [H1 H2]. split; [done|].
        destruct H2 as [H2|(H2 & tr' & H3 & H4)]; [by left|right].
        split; [done|]. exists tr'. split; [by apply list_elem_of_further|done].
    + destruct (IH (m, e) Hd) as [H1 H2]. split; [done|].
      destruct H2 as [H2|(H2 & tr' & H3 & H4)]; [by left|right].
      split; [done|]. exists tr'. split; [by apply list_elem_of_further|done].
Qed.

(** Whatever the guards and actions do, send_event keeps the transition
    table and moves the machine, if at all, along a row of the table for that
    event from the current state; when it returns false or throws the state is
    the old one, and an event with no row for the current state changes nothing. *)
Theorem send_event_follows_table ev st r st' :
  send_event ev st = (r, st') →
  m_transition_table st'.1 = m_transition_table st.1 ∧
  (m_current_state st'.1 ≠ m_current_state st.1 →
     r = Ok true ∧ ∃ tr, tr ∈ m_transition_table st.1 ∧ enabled (m_current_state st.1) ev tr ∧
       m_current_state st'.1 = end_state tr) ∧
  (r ≠ Ok true → m_current_state st'.1 = m_current_state st.1) ∧
  ((∀ tr, tr ∈ m_transition_table st.1 → ¬ enabled (m_current_state st.1) ev tr) →
     r = Ok true ∧ st' = st).
Proof.
  intros Hs. unfold send_event in Hs. run_monad.
  destruct (dispatch_outcome _ _ _ _ _ Hs) as [H1 H2]. split; [done|]. split_and!.
  - destruct H2 as [H2|H2]; [done|by intros _].
  - intros Hr. destruct H2 as [H2|[H2 _]]; [done|]. done.
  - intros Hno. clear H1 H2. revert Hs. generalize (m_transition_table st.1) Hno.
    intros rows. induction rows as [|tr rows IH]; intros Hn Hd; cbn [dispatch] in Hd.
    + by injection Hd as <- <-.
    + run_monad. destruct (decide _) as [He|_].
      * exfalso. eapply (Hn tr); [apply list_elem_of_here|done].
      * apply IH; [|done]. intros tr' Htr'. apply Hn. by apply list_elem_of_further.
Qed.

(** With unguarded rows send_event runs the action of the first row for
    the event and the current state, once, and commits the end state exactly
    when the action returned true; an action that throws or returns false leaves
    the state but keeps its own effects. *)
Theorem send_event_first_row ev st :
  Forall unguarded (m_transition_table st.1) →
  send_event ev st =
  match row (m_current_state st.1) ev (m_transition_table st.1) with
  | Some tr =>
      let '(r, e) := do_transition tr st.2 in
      (r, (if decide (r = Ok true) then set_current_state (end_state tr) st.1 else st.1, e))
  | None => (Ok true, st)
  end.
Proof.
  intros Hg. rewrite send_event_unguarded by done. destruct (row _ _ _) as [tr|]; [|done].
  unfold take. destruct (do_transition tr st.2) as [[[]|] e]; done.
Qed.

End machine.

(** ** A two-state machine *)

Definition toggle_table : list (@Transition bool unit nat) :=
  [mkTransition false tt true (λ _ _ _ n, (Ok true, S n)) always;
   mkTransition true tt false (λ _ _ _ n, (Ok false, S n)) always].

Lemma send_event_follows_table_witness :
  m_current_state (send_event tt (mkMachine false toggle_table, 0)).2.1 = true ∧
  m_current_state (send_event tt (mkMachine true toggle_table, 0)).2.1 = true.
Proof.
  split; [reflexivity|].
  destruct (send_event_follows_table tt (mkMachine true toggle_table, 0) (Ok false)
              (mkMachine true toggle_table, 1)) as (_ & _ & H & _); [reflexivity|].
  exact (H ltac:(discriminate)).
Defined.

Lemma send_event_first_row_witness :
  send_event tt (mkMachine false toggle_table, 0) = (Ok true, (mkMachine true toggle_table, 1)).
Proof.
  rewrite (send_event_first_row tt (mkMachine false toggle_table, 0)); [reflexivity|].
  unfold toggle_table. simpl. repeat (apply Forall_cons_2; [reflexivity|]). apply Forall_nil_2.
Defined.

End EnumStateMachine.
