(* ===== verification/Bmc.v ===== *)
(** [agent_framework::state_machine::BmcStateMachine]
    (PSME/common/agent-framework/include/agent-framework/state_machine/bmc_state_machine.hpp):
    the presence and online tracking of a sled's BMC.

    The functors that read presence and online status and the four virtual
    actions, which an agent overrides, are computations over an environment [E]
    that may throw; they are the variables of the section.  Logging is left out. *)

From Stdlib Require Import ZArith Lia.
From S2P Require Import Prelude.
From S2P Require Import EnumStateMachine.
Import EnumStateMachine.

Module Bmc.

Inductive BmcState := ABSENT | OFFLINE | ONLINE.
Inductive BmcEvent := Inserted | Extracted | BecameOnline | BecameOffline.

#[global] Instance BmcState_eq_dec : EqDecision BmcState.
Proof. solve_decision. Defined.
#[global] Instance BmcEvent_eq_dec : EqDecision BmcEvent.
Proof. solve_decision. Defined.

Section bmc.
Context {E : Type}.
Variables (m_read_presence m_read_online_status : M E bool).
Variables (on_insertion on_extraction on_become_online on_become_offline : M E bool).

Definition wrap (f : M E bool) : @StateMachineFunction BmcState BmcEvent E := λ _ _ _, f.

Definition table : list (@Transition BmcState BmcEvent E) :=
  [mkTransition ABSENT Inserted OFFLINE (wrap on_insertion) always;
   mkTransition OFFLINE BecameOnline ONLINE (wrap on_become_online) always;
   mkTransition OFFLINE Extracted ABSENT (wrap on_extraction) always;
   mkTransition ONLINE BecameOffline OFFLINE (wrap on_become_offline) always;
   mkTransition ONLINE Extracted ABSENT (wrap on_extraction) always].

Record t := mkBmc {
  m_sm : @EnumStateMachine.t BmcState BmcEvent E;
  m_is_present : bool;
  m_is_online : bool;
}.

(** The constructor. *)
Definition bmc0 : t := mkBmc (mkMachine ABSENT table) false false.

Definition get_state (s : t) : BmcState := get_current_state (m_sm s).

Definition in_env {A} (m : M E A) : M (t * E) A := zoom snd (λ e st, (st.1, e)) m.

Definition on_sm {A} (m : M (EnumStateMachine.t * E) A) : M (t * E) A :=
  zoom (λ st, (m_sm st.1, st.2))
       (λ me st, (mkBmc me.1 (m_is_present st.1) (m_is_online st.1), me.2)) m.

Definition set_present (b : bool) : M (t * E) unit :=
  modify (λ st, (mkBmc (m_sm st.1) b (m_is_online st.1), st.2)).
Definition set_online (b : bool) : M (t * E) unit :=
  modify (λ st, (mkBmc (m_sm st.1) (m_is_present st.1) b, st.2)).

Definition update_presence : M (t * E) unit :=
  is_present ← in_env m_read_presence;
  st ← get;
  if bool_decide (is_present ≠ m_is_present st.1) then
    on_sm (send_event (if (is_present : bool) then Inserted else Extracted));;
    set_present is_present
  else mret tt.

Definition update_online_state : M (t * E) unit :=
  st ← get;
  if m_is_present st.1 then
    is_online ← in_env m_read_online_status;
    if bool_decide (is_online ≠ m_is_online st.1) then
      on_sm (send_event (if (is_online : bool) then BecameOnline else BecameOffline));;
      set_online is_online
    else mret tt
  else set_online false.

Definition update_state : M (t * E) unit :=
  try_catch (update_presence;; update_online_state) (λ _, mret tt).

(** ** The flags mirror the state *)

(** The state the flags stand for. *)
Definition state_of (present online : bool) : BmcState :=
  if present then (if online then ONLINE else OFFLINE) else ABSENT.

Record sync (s : t) : Prop := {
  sync_table : m_transition_table (m_sm s) = table;
  sync_state : get_state s = state_of (m_is_present s) (m_is_online s);
  sync_absent : m_is_present s = false → m_is_online s = false;
}.

(** An action that succeeds or throws, but does not report failure by false. *)
Definition never_false (a : M E bool) : Prop := ∀ e, (a e).1 ≠ Ok false.

Lemma table_unguarded : Forall unguarded table.
Proof. unfold table. repeat (apply Forall_cons_2; [done|]). apply Forall_nil_2. Qed.

(** The action of an event in a state, and where it leads. *)
Definition step (s : BmcState) (ev : BmcEvent) : option (M E bool * BmcState) :=
  match s, ev with
  | ABSENT, Inserted => Some (on_insertion, OFFLINE)
  | OFFLINE, BecameOnline => Some (on_become_online, ONLINE)
  | OFFLINE, Extracted => Some (on_extraction, ABSENT)
  | ONLINE, BecameOffline => Some (on_become_offline, OFFLINE)
  | ONLINE, Extracted => Some (on_extraction, ABSENT)
  | _, _ => None
  end.

Lemma row_step s ev :
  row s ev table =
  match step s ev with
  | Some (a, s') => Some (mkTransition s ev s' (wrap a) always)
  | None => None
  end.
Proof. by destruct s, ev. Qed.

Lemma send_event_step s ev e :
  m_transition_table (m_sm s) = table →
  on_sm (send_event ev) (s, e) =
  match step (get_state s) ev with
  | None => (Ok true, (s, e))
  | Some (a, s') =>
      match a e with
      | (Ok true, e') => (Ok true, (mkBmc (mkMachine s' table) (m_is_present s) (m_is_online s), e'))
      | (r, e') => (r, (s, e'))
      end
  end.
Proof.
  intros Ht. unfold on_sm, zoom. cbn [fst snd].
  rewrite send_event_unguarded by (cbn; rewrite Ht; apply table_unguarded).
  destruct s as [[st tb] p o]. unfold get_state, get_current_state. cbn [fst snd m_sm m_current_state m_transition_table] in *.
  subst tb. rewrite row_step. destruct (step st ev) as [[a s']|]; [|done].
  unfold take, do_transition, wrap. cbn. by destruct (a e) as [[[]|] e'].
Qed.

(** One event, then the flag it stands for. *)
Lemma update_presence_eq s e :
  m_transition_table (m_sm s) = table →
  update_presence (s, e) =
  match m_read_presence e with
  | (Throw x, e1) => (Throw x, (s, e1))
  | (Ok p, e1) =>
      if bool_decide (p = m_is_present s) then (Ok tt, (s, e1)) else
      match step (get_state s) (if p then Inserted else Extracted) with
      | None => (Ok tt, (mkBmc (m_sm s) p (m_is_online s), e1))
      | Some (a, s') =>
          match a e1 with
          | (Ok ok, e2) =>
              (Ok tt, (mkBmc (if ok then mkMachine s' table else m_sm s) p (m_is_online s), e2))
          | (Throw x, e2) => (Throw x, (s, e2))
          end
      end
  end.
Proof.
  intros Ht. unfold update_presence, in_env. run_monad. cbn.
  destruct (m_read_presence e) as [[p|x] e1]; [|done]. cbn.
  destruct (decide (p = m_is_present s)) as [Hp|Hp].
  - rewrite (bool_decide_eq_true_2 _ Hp), bool_decide_eq_false_2 by auto. done.
  - rewrite (bool_decide_eq_false_2 _ Hp), bool_decide_eq_true_2 by auto.
    rewrite send_event_step by done. destruct (step _ _) as [[a s']|]; [|done].
    by destruct (a e1) as [[[]|] e2].
Qed.

Lemma update_online_eq s e :
  m_transition_table (m_sm s) = table →
  update_online_state (s, e) =
  if m_is_present s then
    match m_read_online_status e with
    | (Throw x, e1) => (Throw x, (s, e1))
    | (Ok o, e1) =>
        if bool_decide (o = m_is_online s) then (Ok tt, (s, e1)) else
        match step (get_state s) (if o then BecameOnline else BecameOffline) with
        | None => (Ok tt, (mkBmc (m_sm s) (m_is_present s) o, e1))
        | Some (a, s') =>
            match a e1 with
            | (Ok ok, e2) =>
                (Ok tt, (mkBmc (if ok then mkMachine s' table else m_sm s) (m_is_present s) o, e2))
            | (Throw x, e2) => (Throw x, (s, e2))
            end
        end
    end
  else (Ok tt, (mkBmc (m_sm s) (m_is_present s) false, e)).
Proof.
  intros Ht. unfold update_online_state, in_env, set_online. run_monad. cbn.
  destruct (m_is_present s) eqn:Hpr; cbn; [|by rewrite ?Hpr].
  destruct (m_read_online_status e) as [[o|x] e1]; cbn; [|done].
  destruct (decide (o = m_is_online s)) as [Hp|Hp].
  - rewrite (bool_decide_eq_true_2 _ Hp), bool_decide_eq_false_2 by auto. done.
  - rewrite (bool_decide_eq_false_2 _ Hp), bool_decide_eq_true_2 by auto.
    rewrite send_event_step by done. destruct (step _ _) as [[a s']|]; [|cbn; by rewrite ?Hpr].
    destruct (a e1) as [[[]|] e2]; cbn; by rewrite ?Hpr.
Qed.

Section no_false.
Hypothesis Hnf : ∀ st ev a s', step st ev = Some (a, s') → ∀ e e', a e ≠ (Ok false, e').

Lemma update_presence_sync s e :
  sync s →
  let '(r, st) := update_presence (s, e) in
  match r with
  | Throw _ => st.1 = s
  | Ok _ => m_transition_table (m_sm st.1) = table ∧
            get_state st.1 = state_of (m_is_present st.1) (m_is_online st.1)
  end.
Proof.
  intros [Ht Hst Hab]. rewrite update_presence_eq by done.
  destruct (m_read_presence e) as [[p|x] e1]; [|done].
  case_bool_decide as Hp; [by split|].
  destruct (step _ _) as [[a s']|] eqn:Hs.
  - pose proof (Hnf _ _ _ _ Hs e1) as Hf.
    destruct (a e1) as [[[]|x] e2]; [|by destruct (Hf e2)|done]. split; [done|]. cbn.
    unfold get_state in *. rewrite Hst in Hs. cbn.
    destruct p, (m_is_present s), (m_is_online s); cbn in *; try done; try (by injection Hs as _ <-).
    by specialize (Hab eq_refl).
  - split; [done|]. unfold get_state in *. cbn. rewrite Hst in *.
    destruct p, (m_is_present s), (m_is_online s); done.
Qed.

Lemma update_online_sync s e :
  m_transition_table (m_sm s) = table →
  get_state s = state_of (m_is_present s) (m_is_online s) →
  sync (update_online_state (s, e)).2.1.
Proof.
  intros Ht Hst. rewrite update_online_eq by done.
  destruct (m_is_present s) eqn:Hp; [|by split].
  assert (sync s) as Hs by (split; [done|by rewrite Hp|by rewrite Hp]).
  destruct (m_read_online_status e) as [[o|x] e1]; [|done].
  case_bool_decide as Ho; [done|].
  destruct (step _ _) as [[a s']|] eqn:Hstep.
  - pose proof (Hnf _ _ _ _ Hstep e1) as Hf.
    destruct (a e1) as [[[]|x] e2]; [|by destruct (Hf e2)|done].
    split; cbn; try done. unfold get_state in *. rewrite Hst in Hstep. cbn.
    destruct o, (m_is_online s); cbn in *; try done; by injection Hstep as _ <-.
  - rewrite Hst in Hstep. destruct o, (m_is_online s); done.
Qed.

Lemma update_sync s e : sync s → sync (update_state (s, e)).2.1.
Proof.
  intros Hs. unfold update_state, try_catch, mbind, M_bind.
  pose proof (update_presence_sync s e Hs) as H1.
  destruct (update_presence (s, e)) as [[[]|x] [s1 e1]]; cbn in H1.
  - pose proof (update_online_sync s1 e1 (proj1 H1) (proj2 H1)) as H2.
    by destruct (update_online_state (s1, e1)) as [[[]|] [s2 e2]].
  - cbn. by subst.
Qed.
End no_false.

(** C31: as long as the actions signal failure by throwing and not by
    returning false, every update_state, whatever is read and whatever throws,
    keeps the machine in the state that its presence and online flags stand
    for: ABSENT, OFFLINE or ONLINE. *)
Theorem bmc_sync_preserved s e :
  never_false on_insertion → never_false on_extraction →
  never_false on_become_online → never_false on_become_offline →
  sync s → sync (update_state (s, e)).2.1.
Proof.
  intros N1 N2 N3 N4 Hs.
  assert (∀ a, a = on_insertion ∨ a = on_extraction ∨ a = on_become_online ∨ a = on_become_offline →
            ∀ e e', a e ≠ (Ok false, e')) as Hnf.
  { intros a [->|[->|[->| ->]]] e0 e' Heq;
      [apply (N1 e0)|apply (N2 e0)|apply (N3 e0)|apply (N4 e0)]; by rewrite Heq. }
  apply update_sync; try done. intros st ev a s' Hstep. apply Hnf.
  destruct st, ev; inversion Hstep; auto.
Qed.

(** When the readings are stable and the actions succeed, a single
    update_state brings a synchronised machine to the state the readings stand
    for, whatever state it was in (from ABSENT to ONLINE it passes through
    OFFLINE), and a second one changes nothing. *)
Theorem bmc_converges s e present online :
  (∀ e, m_read_presence e = (Ok present, e)) →
  (∀ e, m_read_online_status e = (Ok online, e)) →
  (∀ e, ∃ e', on_insertion e = (Ok true, e')) → (∀ e, ∃ e', on_extraction e = (Ok true, e')) →
  (∀ e, ∃ e', on_become_online e = (Ok true, e')) → (∀ e, ∃ e', on_become_offline e = (Ok true, e')) →
  sync s →
  ∃ e', update_state (s, e) = (Ok tt, (mkBmc (mkMachine (state_of present online) table) present
                                         (present && online), e')) ∧
    update_state (update_state (s, e)).2 = update_state (s, e).
Proof.
  intros Hp Ho A1 A2 A3 A4 Hs.
  assert (∀ s e, m_transition_table (m_sm s) = table → m_is_present s = present →
            m_is_online s = present && online → update_state (s, e) = (Ok tt, (s, e))) as Hfix.
  { intros s' e' Ht H1 H2. unfold update_state, try_catch, mbind, M_bind.
    rewrite update_presence_eq, Hp by done. rewrite bool_decide_eq_true_2 by done.
    rewrite update_online_eq, Ho, H1 by done. destruct present; cbn in H2.
    - by rewrite bool_decide_eq_true_2 by done.
    - destruct s' as [m p o]; cbn in *. by subst. }
  assert (∃ e', update_state (s, e) =
    (Ok tt, (mkBmc (mkMachine (state_of present online) table) present (present && online), e'))) as [e' He'].
  { destruct s as [[st tb] p o]. destruct Hs as [Ht Hst Hab]. cbn in *. subst tb.
    unfold get_state, get_current_state in Hst. cbn in Hst. subst st.
    assert (∃ o1 e1, update_presence (mkBmc (mkMachine (state_of p o) table) p o, e) =
      (Ok tt, (mkBmc (mkMachine (state_of present o1) table) present o1, e1))) as (o1 & e1 & H1).
    { rewrite update_presence_eq, Hp by done. cbn. case_bool_decide as Heq; [subst; by exists o, e|].
      destruct (A1 e) as [e1 E1], (A2 e) as [e2 E2]. unfold get_state. cbn.
      destruct present, p; try done; cbn.
      - rewrite E1. rewrite (Hab eq_refl). by exists false, e1.
      - destruct o; cbn; rewrite E2; [by exists true, e2|by exists false, e2]. }
    unfold update_state, try_catch, mbind, M_bind. rewrite H1. rewrite update_online_eq by done. cbn.
    destruct present; cbn; [|by eexists].
    rewrite Ho. case_bool_decide as Heq; [subst; by eexists|].
    destruct (A3 e1) as [e3 E3], (A4 e1) as [e4 E4]. unfold get_state.
    destruct online, o1; try done; cbn; rewrite ?E3, ?E4; by eexists. }
  exists e'. split; [done|]. rewrite He'. cbn. by apply Hfix.
Qed.

(** the flags follow the readings even when an action returns false,
    contrary to the comment that they are updated only when the action succeeds:
    after one failed on_insertion the machine stays ABSENT for as long as the
    sled stays present, however many updates follow and whatever the action
    would return later. *)
Theorem bmc_failed_insertion_is_final e e1 n :
  (∀ e, m_read_presence e = (Ok true, e)) →
  on_insertion e = (Ok false, e1) →
  let after := Nat.iter (S n) (λ st, (update_state st).2) (bmc0, e) in
  get_state after.1 = ABSENT ∧ m_is_present after.1 = true.
Proof.
  intros Hp Hi after.
  assert (∀ s e, m_transition_table (m_sm s) = table → get_state s = ABSENT → m_is_present s = true →
    let s' := (update_state (s, e)).2.1 in
    m_transition_table (m_sm s') = table ∧ get_state s' = ABSENT ∧ m_is_present s' = true) as Hstep.
  { intros s e0 Ht Hs Hpr. unfold update_state, try_catch, mbind, M_bind.
    rewrite update_presence_eq, Hp by done. rewrite bool_decide_eq_true_2 by done.
    rewrite update_online_eq, Hpr, Hs by done.
    destruct (m_read_online_status e0) as [[o|x] e2]; [|done].
    case_bool_decide; [done|]. by destruct o. }
  assert (let s' := (Nat.iter (S n) (λ st, (update_state st).2) (bmc0, e)).1 in
    m_transition_table (m_sm s') = table ∧ get_state s' = ABSENT ∧ m_is_present s' = true) as H;
    [|subst after; by destruct H as (_ & H1 & H2)]. clear after.
  induction n as [|n IH].
  - cbn [Nat.iter nat_rect]. unfold update_state, try_catch, mbind, M_bind.
    rewrite update_presence_eq, Hp by done. rewrite bool_decide_eq_false_2 by done.
    cbn -[update_online_state]. rewrite Hi. cbn -[update_online_state].
    rewrite update_online_eq by done. cbn.
    destruct (m_read_online_status e1) as [[o|x] e2]; [|done]. by destruct o.
  - change (Nat.iter (S (S n)) ?f ?x) with (f (Nat.iter (S n) f x)). cbn beta.
    destruct (Nat.iter (S n) _ _) as [s1 e2]. destruct IH as (I1 & I2 & I3).
    by apply Hstep.
Qed.
End bmc.

(** ** An agent whose sled is present and online *)

Definition yes : M nat bool := λ e, (Ok true, S e).
Definition reads (b : bool) : M nat bool := λ e, (Ok b, e).
Definition flaky : M nat bool := λ e, match e with O => (Ok false, 1) | _ => (Ok true, e) end.

Lemma bmc_sync_preserved_witness :
  get_state (update_state (reads true) (reads true) (bmc0 yes yes yes yes, 0)).2.1 = ONLINE ∧
  sync yes yes yes yes (update_state (reads true) (reads true) (bmc0 yes yes yes yes, 0)).2.1.
Proof.
  split; [reflexivity|].
  apply (bmc_sync_preserved (reads true) (reads true) yes yes yes yes (bmc0 yes yes yes yes) 0);
    try (intros e; discriminate). split; reflexivity.
Defined.

Lemma bmc_converges_witness :
  ∃ e', update_state (reads true) (reads true) (bmc0 yes yes yes yes, 0) =
    (Ok tt, (mkBmc (mkMachine ONLINE (table yes yes yes yes)) true true, e')).
Proof.
  destruct (bmc_converges (reads true) (reads true) yes yes yes yes (bmc0 yes yes yes yes) 0 true true)
    as (e' & H & _); try reflexivity; try (intros e; exists (S e); reflexivity).
  - split; reflexivity.
  - exists e'. exact H.
Defined.

Lemma bmc_failed_insertion_is_final_witness :
  get_state (Nat.iter 10 (λ st, (update_state (reads true) (reads true) st).2)
               (bmc0 flaky yes yes yes, 0)).1 = ABSENT.
Proof.
  apply (bmc_failed_insertion_is_final (reads true) (reads true) flaky yes yes yes 0 1 9);
    [intros e|]; reflexivity.
Defined.

End Bmc.
