(* ===== verification/OrdSet.v ===== *)
(** [std::set] and [std::sort]/[std::unique]: strictly sorted lists over a
    strict total order, with the lexicographic orders of [std::string] and of
    tuples.  Two sorted lists with the same members are equal, so the clients
    reason by membership. *)

From Stdlib Require Import ZArith Lia.
From stdpp Require Import sorting.
From S2P Require Import Prelude.

(** UUIDs and identifiers are strings. *)
Definition uuid : Type := string.

Class StrictTotal (A : Type) := {
  olt : A → A → Prop;
  olt_dec :: RelDecision olt;
  olt_eq_dec :: EqDecision A;
  olt_irrefl (x : A) : ¬ olt x x;
  olt_trans :: Transitive olt;
  olt_total (x y : A) : olt x y ∨ x = y ∨ olt y x;
}.

#[global] Arguments olt {A _} _ _ : simpl never.

(** ** Orders *)

Lemma ascii_compare_N a b :
  Ascii.compare a b = N.compare (Ascii.N_of_ascii a) (Ascii.N_of_ascii b).
Proof. done. Qed.

Lemma string_compare_refl s : String.compare s s = Eq.
Proof. induction s as [|a s IH]; simpl; [done|]. rewrite ascii_compare_N, N.compare_refl. done. Qed.

Lemma string_lt_trans s1 s2 s3 :
  String.compare s1 s2 = Lt → String.compare s2 s3 = Lt → String.compare s1 s3 = Lt.
Proof.
  revert s2 s3. induction s1 as [|a s1 IH]; intros [|b s2] [|c s3]; simpl; try done.
  rewrite !ascii_compare_N.
  destruct (N.compare_spec (Ascii.N_of_ascii a) (Ascii.N_of_ascii b)) as [H1|H1|H1];
  destruct (N.compare_spec (Ascii.N_of_ascii b) (Ascii.N_of_ascii c)) as [H2|H2|H2]; try done;
  destruct (N.compare_spec (Ascii.N_of_ascii a) (Ascii.N_of_ascii c)) as [H3|H3|H3]; try done; try lia.
  apply IH.
Qed.

#[global] Instance string_lt_dec : RelDecision (λ s t : string, String.compare s t = Lt).
Proof. intros s t. destruct (String.compare s t) eqn:E; [right|left|right]; congruence. Defined.

#[global] Instance string_order : StrictTotal string.
Proof.
  refine {| olt := λ s t, String.compare s t = Lt |}.
  - intros s. rewrite string_compare_refl. done.
  - intros s1 s2 s3. apply string_lt_trans.
  - intros s t. destruct (String.compare s t) eqn:E; [|by left|].
    + right; left. by apply String.compare_eq_iff.
    + right; right. rewrite String.compare_antisym, E. done.
Defined.

#[global] Instance prod_order `{StrictTotal A, StrictTotal B} : StrictTotal (A * B).
Proof.
  refine {| olt := λ p q, olt p.1 q.1 ∨ (p.1 = q.1 ∧ olt p.2 q.2) |}.
  - intros p q. apply _.
  - intros [a b] [Ha|[_ Hb]]; [exact (olt_irrefl a Ha)|exact (olt_irrefl b Hb)].
  - intros [a b] [c d] [e f]; simpl. intros [H1|[-> H1]] [H2|[-> H2]].
    + left. by etrans.
    + by left.
    + by left.
    + right. split; [done|]. by etrans.
  - intros [a b] [c d]; simpl. destruct (olt_total a c) as [Ha|[->|Ha]]; [by auto| |by auto].
    destruct (olt_total b d) as [Hb|[->|Hb]]; auto.
Defined.

Section ordset.
Context `{StrictTotal A}.
Implicit Types l k : list A.

Abbreviation sorted := (StronglySorted olt).

(** [std::set::insert] *)
Fixpoint oinsert (x : A) (l : list A) : list A :=
  match l with
  | [] => [x]
  | y :: l' => if decide (olt x y) then x :: y :: l'
               else if decide (x = y) then y :: l' else y :: oinsert x l'
  end.

Lemma elem_of_oinsert x y l : y ∈ oinsert x l ↔ y = x ∨ y ∈ l.
Proof.
  induction l as [|z l IH]; simpl; [by rewrite list_elem_of_singleton, elem_of_nil; tauto|].
  destruct (decide _); [by rewrite elem_of_cons|]. destruct (decide _) as [->|].
  - rewrite elem_of_cons. tauto.
  - rewrite !elem_of_cons, IH. tauto.
Qed.

Lemma sorted_oinsert x l : sorted l → sorted (oinsert x l).
Proof.
  induction 1 as [|y l Hs IH Hy]; simpl; [repeat constructor|].
  destruct (decide _) as [Hlt|Hnlt].
  - constructor; [by constructor|]. constructor; [done|].
    eapply list.Forall_impl; [exact Hy|]. intros z Hz. by etrans.
  - destruct (decide _) as [->|Hne]; [by constructor|].
    constructor; [done|]. apply list.Forall_forall. intros z Hz%elem_of_oinsert.
    destruct Hz as [->|Hz]; [|by rewrite list.Forall_forall in Hy; apply Hy].
    destruct (olt_total x y) as [?|[?|?]]; done.
Qed.

Lemma sorted_filter (P : A → Prop) `{∀ x, Decision (P x)} l : sorted l → sorted (filter P l).
Proof.
  induction 1 as [|x l Hs IH Hx]; [constructor|]. rewrite filter_cons. case_decide; [|done].
  constructor; [done|]. by apply Forall_filter_weaken.
Qed.

Lemma sorted_NoDup l : sorted l → NoDup l.
Proof.
  induction 1 as [|x l Hs IH Hx]; constructor; [|done].
  intros Hin. rewrite list.Forall_forall in Hx. by apply (olt_irrefl x), Hx.
Qed.

(** Extensionality. *)
Lemma sorted_ext l k : sorted l → sorted k → (∀ x, x ∈ l ↔ x ∈ k) → l = k.
Proof.
  intros Hl. revert k. induction Hl as [|x l Hs IH Hx]; intros k Hk Heq.
  - destruct k as [|y k]; [done|]. exfalso. assert (y ∈ @nil A) as []%elem_of_nil.
    apply Heq, list_elem_of_here.
  - destruct Hk as [|y k Hk Hy].
    { assert (x ∈ @nil A) as []%elem_of_nil. apply Heq, list_elem_of_here. }
    rewrite list.Forall_forall in Hx, Hy.
    assert (x = y) as ->.
    { destruct (olt_total x y) as [Hlt|[->|Hlt]]; [exfalso|done|exfalso].
      - assert (x ∈ y :: k) as [->|Hin]%elem_of_cons by apply Heq, list_elem_of_here.
        + exact (olt_irrefl _ Hlt).
        + apply (olt_irrefl x). etrans; [exact Hlt|by apply Hy].
      - assert (y ∈ x :: l) as [->|Hin]%elem_of_cons by apply Heq, list_elem_of_here.
        + exact (olt_irrefl _ Hlt).
        + apply (olt_irrefl y). etrans; [exact Hlt|by apply Hx]. }
    f_equal. apply IH; [done|]. intros z. split; intros Hz.
    + assert (z ∈ y :: k) as [->|?]%elem_of_cons; [|exfalso; by apply (olt_irrefl y), Hx|done].
      apply Heq. by apply list_elem_of_further.
    + assert (z ∈ y :: l) as [->|?]%elem_of_cons; [|exfalso; by apply (olt_irrefl y), Hy|done].
      apply Heq. by apply list_elem_of_further.
Qed.

(** [std::set] of a range, which is also [std::sort] followed by [std::unique]. *)
Definition oset (l : list A) : list A := foldr oinsert [] l.

Lemma elem_of_oset x l : x ∈ oset l ↔ x ∈ l.
Proof. induction l as [|y l IH]; simpl; [done|]. by rewrite elem_of_oinsert, elem_of_cons, IH. Qed.

Lemma sorted_oset l : sorted (oset l).
Proof. induction l; simpl; [constructor|by apply sorted_oinsert]. Qed.

End ordset.
