(* ===== verification/Enums.v ===== *)
(** The enumerations of the resource model (agent-framework
    module/enum/common.hpp) that the REST side dispatches on.  The enumerator
    [None] is [None_] here. *)

From Stdlib Require Import Lia.
From S2P Require Import Prelude.
From S2P Require Import OrdSet.

Module Component.

(** [enums::Component] *)
Inductive t :=
  | None_ | Root | AuthorizationCertificate | Chassis | Drive | Fan | Manager | Memory
  | MemoryDomain | MemoryChunks | NetworkInterface | NetworkDevice | PowerZone | Processor
  | PSU | EthernetSwitch | RemoteEthernetSwitch | NetworkDeviceFunction | StorageController
  | StorageService | EthernetSwitchPort | System | ThermalZone | Vlan | EthernetSwitchPortVlan
  | PortMember | NeighborSwitch | Switch | PcieDevice | Zone | PcieFunction | Port | Acl
  | AclRule | StaticMac | StorageSubsystem | Task | Fabric | Endpoint | ChassisSensor | Metric
  | MetricDefinition | TrustedModule | StoragePool | Volume | LogService | LogEntry.

(** The enumerators in the order of their values. *)
Definition all : list t :=
  [None_; Root; AuthorizationCertificate; Chassis; Drive; Fan; Manager; Memory; MemoryDomain;
   MemoryChunks; NetworkInterface; NetworkDevice; PowerZone; Processor; PSU; EthernetSwitch;
   RemoteEthernetSwitch; NetworkDeviceFunction; StorageController; StorageService;
   EthernetSwitchPort; System; ThermalZone; Vlan; EthernetSwitchPortVlan; PortMember;
   NeighborSwitch; Switch; PcieDevice; Zone; PcieFunction; Port; Acl; AclRule; StaticMac;
   StorageSubsystem; Task; Fabric; Endpoint; ChassisSensor; Metric; MetricDefinition;
   TrustedModule; StoragePool; Volume; LogService; LogEntry].

Definition value (c : t) : nat :=
  match c with
  | None_ => 0 | Root => 1 | AuthorizationCertificate => 2 | Chassis => 3 | Drive => 4
  | Fan => 5 | Manager => 6 | Memory => 7 | MemoryDomain => 8 | MemoryChunks => 9
  | NetworkInterface => 10 | NetworkDevice => 11 | PowerZone => 12 | Processor => 13
  | PSU => 14 | EthernetSwitch => 15 | RemoteEthernetSwitch => 16
  | NetworkDeviceFunction => 17 | StorageController => 18 | StorageService => 19
  | EthernetSwitchPort => 20 | System => 21 | ThermalZone => 22 | Vlan => 23
  | EthernetSwitchPortVlan => 24 | PortMember => 25 | NeighborSwitch => 26 | Switch => 27
  | PcieDevice => 28 | Zone => 29 | PcieFunction => 30 | Port => 31 | Acl => 32
  | AclRule => 33 | StaticMac => 34 | StorageSubsystem => 35 | Task => 36 | Fabric => 37
  | Endpoint => 38 | ChassisSensor => 39 | Metric => 40 | MetricDefinition => 41
  | TrustedModule => 42 | StoragePool => 43 | Volume => 44 | LogService => 45 | LogEntry => 46
  end.

Lemma all_value c : all !! value c = Some c.
Proof. by destruct c. Qed.

#[global] Instance value_inj : Inj (=) (=) value.
Proof. intros c d H. apply (inj Some). by rewrite <- !all_value, H. Qed.

Definition of_value (n : nat) : t := default None_ (all !! n).

Lemma of_value_value c : of_value (value c) = c.
Proof. destruct c; reflexivity. Defined.

(** The proof of equality computes, so that tables indexed by the enumeration do. *)
#[global] Instance t_eq_dec : EqDecision t.
Proof.
  refine (λ c d, match decide (value c = value d) with
                 | left H => left (eq_trans (eq_sym (of_value_value c))
                                     (eq_trans (f_equal of_value H) (of_value_value d)))
                 | right H => right _
                 end).
  intros ->. by apply H.
Defined.

(** [std::less] of the enumeration class compares the values. *)
#[global] Instance t_order : StrictTotal t.
Proof.
  refine {| olt := λ c d, value c < value d |}.
  - intros c d. apply _.
  - intros c. lia.
  - intros c d e. lia.
  - intros c d. destruct (Nat.lt_trichotomy (value c) (value d)) as [|[|]]; [by left| |by right; right].
    right; left. by apply (inj value).
Defined.

(** [to_string]: the enumerator's name. *)
Definition to_string (c : t) : string :=
  match c with
  | None_ => "None" | Root => "Root" | AuthorizationCertificate => "AuthorizationCertificate"
  | Chassis => "Chassis" | Drive => "Drive" | Fan => "Fan" | Manager => "Manager"
  | Memory => "Memory" | MemoryDomain => "MemoryDomain" | MemoryChunks => "MemoryChunks"
  | NetworkInterface => "NetworkInterface" | NetworkDevice => "NetworkDevice"
  | PowerZone => "PowerZone" | Processor => "Processor" | PSU => "PSU"
  | EthernetSwitch => "EthernetSwitch" | RemoteEthernetSwitch => "RemoteEthernetSwitch"
  | NetworkDeviceFunction => "NetworkDeviceFunction"
  | StorageController => "StorageController" | StorageService => "StorageService"
  | EthernetSwitchPort => "EthernetSwitchPort" | System => "System"
  | ThermalZone => "ThermalZone" | Vlan => "Vlan"
  | EthernetSwitchPortVlan => "EthernetSwitchPortVlan" | PortMember => "PortMember"
  | NeighborSwitch => "NeighborSwitch" | Switch => "Switch" | PcieDevice => "PcieDevice"
  | Zone => "Zone" | PcieFunction => "PcieFunction" | Port => "Port" | Acl => "Acl"
  | AclRule => "AclRule" | StaticMac => "StaticMac" | StorageSubsystem => "StorageSubsystem"
  | Task => "Task" | Fabric => "Fabric" | Endpoint => "Endpoint"
  | ChassisSensor => "ChassisSensor" | Metric => "Metric"
  | MetricDefinition => "MetricDefinition" | TrustedModule => "TrustedModule"
  | StoragePool => "StoragePool" | Volume => "Volume" | LogService => "LogService"
  | LogEntry => "LogEntry"
  end.

End Component.

Module CollectionType.

(** [enums::CollectionType] *)
Inductive t :=
  | None_ | Chassis | Systems | EthernetSwitches | StorageServices | Processors | Memory
  | StorageControllers | NetworkInterfaces | NetworkDevices | Drives | EthernetSwitchPorts
  | Vlans | NeighborSwitches | EthernetSwitchPortVlans | NetworkDeviceFunctions | PortMembers
  | PowerZones | ThermalZones | PSUs | Fans | Managers | Ports | PCIeDevices | Zones
  | PCIeFunctions | Switches | Acls | Rules | StaticMacs | StorageSubsystems | Tasks | Fabrics
  | Endpoints | ChassisSensors | MetricDefinitions | Metrics | TrustedModules | StoragePools
  | Volumes | ReconfigurationSlots | MemoryChunks | MemoryDomains | LogServices | LogEntries.

(** The enumerators in the order of their values. *)
Definition all : list t :=
  [None_; Chassis; Systems; EthernetSwitches; StorageServices; Processors; Memory;
   StorageControllers; NetworkInterfaces; NetworkDevices; Drives; EthernetSwitchPorts; Vlans;
   NeighborSwitches; EthernetSwitchPortVlans; NetworkDeviceFunctions; PortMembers; PowerZones;
   ThermalZones; PSUs; Fans; Managers; Ports; PCIeDevices; Zones; PCIeFunctions; Switches;
   Acls; Rules; StaticMacs; StorageSubsystems; Tasks; Fabrics; Endpoints; ChassisSensors;
   MetricDefinitions; Metrics; TrustedModules; StoragePools; Volumes; ReconfigurationSlots;
   MemoryChunks; MemoryDomains; LogServices; LogEntries].

Definition value (c : t) : nat :=
  match c with
  | None_ => 0 | Chassis => 1 | Systems => 2 | EthernetSwitches => 3 | StorageServices => 4
  | Processors => 5 | Memory => 6 | StorageControllers => 7 | NetworkInterfaces => 8
  | NetworkDevices => 9 | Drives => 10 | EthernetSwitchPorts => 11 | Vlans => 12
  | NeighborSwitches => 13 | EthernetSwitchPortVlans => 14 | NetworkDeviceFunctions => 15
  | PortMembers => 16 | PowerZones => 17 | ThermalZones => 18 | PSUs => 19 | Fans => 20
  | Managers => 21 | Ports => 22 | PCIeDevices => 23 | Zones => 24 | PCIeFunctions => 25
  | Switches => 26 | Acls => 27 | Rules => 28 | StaticMacs => 29 | StorageSubsystems => 30
  | Tasks => 31 | Fabrics => 32 | Endpoints => 33 | ChassisSensors => 34
  | MetricDefinitions => 35 | Metrics => 36 | TrustedModules => 37 | StoragePools => 38
  | Volumes => 39 | ReconfigurationSlots => 40 | MemoryChunks => 41 | MemoryDomains => 42
  | LogServices => 43 | LogEntries => 44
  end.

Lemma all_types_value c : all !! value c = Some c.
Proof. by destruct c. Qed.

#[global] Instance value_inj : Inj (=) (=) value.
Proof. intros c d H. apply (inj Some). by rewrite <- !all_types_value, H. Qed.

#[global] Instance t_eq_dec : EqDecision t.
Proof.
  refine (λ c d, match decide (value c = value d) with left H => left _ | right H => right _ end).
  - by apply (inj value).
  - intros ->. by apply H.
Defined.

(** [std::less] of the enumeration class compares the values. *)
#[global] Instance t_order : StrictTotal t.
Proof.
  refine {| olt := λ c d, value c < value d |}.
  - intros c d. apply _.
  - intros c. lia.
  - intros c d e. lia.
  - intros c d. destruct (Nat.lt_trichotomy (value c) (value d)) as [|[|]]; [by left| |by right; right].
    right; left. by apply (inj value).
Defined.

End CollectionType.

(** [enums::Health] *)
Module Health.

Inductive t := OK | Warning | Critical.

#[global] Instance t_eq_dec : EqDecision t.
Proof. solve_decision. Defined.

End Health.

(** [enums::Notification] *)
Module Notification.

Inductive t := Add | Remove | Update.

End Notification.
