(* ===== verification/ManyToMany.v ===== *)
(** [agent_framework::module::managers::ManyToManyManager]
    (PSME/common/agent-framework/include/agent-framework/module/managers/many_to_many_manager.hpp):
    the parent/child relations of the resource model.

    [m_manager_data] is a [std::set] of (parent, child, agent) tuples, here a
    strictly sorted list; [update_entry] erases and inserts while it iterates,
    which is modelled by the part of the set before the iterator and the part
    from it on.  The mutex makes every operation atomic, so a history of calls is
    a sequence of these functions. *)

From Stdlib Require Import ZArith Lia.
From stdpp Require Import sorting.
From S2P Require Import Prelude.
From S2P Require Import OrdSet.

Module ManyToMany.

(** [std::tuple<Uuid, Uuid, std::string>]: parent, child, agent *)
Definition IdPair : Type := uuid * uuid * string.

Definition parent_of (x : IdPair) : uuid := x.1.1.
Definition child_of (x : IdPair) : uuid := x.1.2.
Definition agent_of (x : IdPair) : string := x.2.

(** [m_manager_data] *)
Definition t : Type := list IdPair.

Definition add_entry (parent child : uuid) (gami_id : string) (d : t) : t :=
  oinsert (parent, child, gami_id) d.

(** [std::find_if] and [erase] of what it found. *)
Fixpoint remove_entry (parent child : uuid) (d : t) : t :=
  match d with
  | [] => []
  | x :: d' => if decide (parent = parent_of x ∧ child = child_of x) then d'
               else x :: remove_entry parent child d'
  end.

Definition do_remove_if (predicate : uuid → uuid → string → bool) (d : t) : t :=
  filter (λ x, predicate (parent_of x) (child_of x) (agent_of x) = false) d.

Definition remove_if (predicate : uuid → uuid → string → bool) (d : t) : t :=
  do_remove_if predicate d.

Definition remove_parent (removed_parent : uuid) (d : t) : t :=
  remove_if (λ parent _ _, bool_decide (removed_parent = parent)) d.

Definition remove_child (removed_child : uuid) (d : t) : t :=
  remove_if (λ _ child _, bool_decide (removed_child = child)) d.

Definition entry_exists (parent child : uuid) (d : t) : bool :=
  existsb (λ x, bool_decide (parent = parent_of x) && bool_decide (child = child_of x)) d.

Definition parent_exists (parent : uuid) (d : t) : bool :=
  existsb (λ x, bool_decide (parent = parent_of x)) d.

Definition child_exists (child : uuid) (d : t) : bool :=
  existsb (λ x, bool_decide (child = child_of x)) d.

Definition clear_entries (d : t) : t := [].

Definition get_children (parent : uuid) (d : t) : list uuid :=
  child_of <$> filter (λ x, parent = parent_of x) d.

Definition get_parents (child : uuid) (d : t) : list uuid :=
  parent_of <$> filter (λ x, child = child_of x) d.

Definition get_all_unique_parents (d : t) : list uuid := oset (parent_of <$> d).

Definition clean_resources_for_agent (gami_id : string) (d : t) : t :=
  do_remove_if (λ _ _ removed_gami_id, bool_decide (removed_gami_id = gami_id)) d.

Definition clean_resources_with_no_agent (d : t) : t :=
  do_remove_if (λ _ _ removed_gami_id, bool_decide (removed_gami_id = ""%string)) d.

(** [std::get<P>] and its assignment. *)
Inductive position := P0 | P1 | P2.

Definition component (p : position) (x : IdPair) : string :=
  match p with P0 => parent_of x | P1 => child_of x | P2 => agent_of x end.

Definition set_component (p : position) (v : string) (x : IdPair) : IdPair :=
  match p with
  | P0 => (v, child_of x, agent_of x)
  | P1 => (parent_of x, v, agent_of x)
  | P2 => (parent_of x, child_of x, v)
  end.

(** The loop: [before] is the set before the iterator, [from] the set from the
    iterator on.  An inserted
    entry lands before the iterator unless it is greater than the entry the
    iterator is at. *)
Fixpoint update_loop (p : position) (old_id new_id : string) (fuel : nat)
    (before from : list IdPair) : option t :=
  match fuel with
  | O => None
  | S fuel' =>
      match from with
      | [] => Some before
      | x :: from' =>
          if decide (old_id = component p x) then
            let updated_entry := set_component p new_id x in
            match from' with
            | [] => update_loop p old_id new_id fuel' (oinsert updated_entry before) []
            | next :: _ =>
                if decide (olt updated_entry next) then
                  update_loop p old_id new_id fuel' (oinsert updated_entry before) from'
                else update_loop p old_id new_id fuel' before (oinsert updated_entry from')
            end
          else update_loop p old_id new_id fuel' (oinsert x before) from'
      end
  end.

Definition update_entry (p : position) (old_id new_id : string) (d : t) : option t :=
  update_loop p old_id new_id (S (2 * length d)) [] d.

Definition update_parent (parent_uuid parent_new_uuid : uuid) (d : t) : option t :=
  update_entry P0 parent_uuid parent_new_uuid d.
Definition update_child (child_uuid child_new_uuid : uuid) (d : t) : option t :=
  update_entry P1 child_uuid child_new_uuid d.
Definition update_agent (agent_uuid agent_new_uuid : string) (d : t) : option t :=
  update_entry P2 agent_uuid agent_new_uuid d.

(** ** Membership *)

Abbreviation sorted := (StronglySorted (olt (A := IdPair))).

Lemma component_set p v x : component p (set_component p v x) = v.
Proof. by destruct p. Qed.

Lemma set_component_same p x : set_component p (component p x) x = x.
Proof. destruct x as [[a b] c]. by destruct p. Qed.

Lemma elem_of_do_remove_if f x d :
  x ∈ do_remove_if f d ↔ f (parent_of x) (child_of x) (agent_of x) = false ∧ x ∈ d.
Proof. unfold do_remove_if. by rewrite list_elem_of_filter. Qed.

Lemma elem_of_remove_entry parent child x d :
  sorted d → x ∈ remove_entry parent child d → x ∈ d.
Proof.
  intros _. induction d as [|y d IH]; simpl; [done|].
  destruct (decide _); [by apply list_elem_of_further|].
  rewrite !elem_of_cons. intros [->|Hx]; [by left|right; by apply IH].
Qed.

Lemma sorted_remove_entry parent child d : sorted d → sorted (remove_entry parent child d).
Proof.
  induction 1 as [|x d Hs IH Hx]; simpl; [constructor|].
  destruct (decide _); [done|]. constructor; [done|].
  apply list.Forall_forall. intros y Hy. apply elem_of_remove_entry in Hy; [|done].
  rewrite list.Forall_forall in Hx. by apply Hx.
Qed.

(** The set after [update_entry], as a condition on members. *)
Definition renamed (p : position) (old_id new_id : string) (d : t) (y : IdPair) : Prop :=
  ∃ x, x ∈ d ∧ y = if decide (old_id = component p x) then set_component p new_id x else x.

Definition matches (p : position) (old_id : string) (d : list IdPair) : nat :=
  length (filter (λ x, old_id = component p x) d).

Lemma length_oinsert (y : IdPair) d : length (oinsert y d) ≤ S (length d).
Proof. induction d as [|x d IH]; simpl; [lia|]. repeat case_decide; simpl; lia. Qed.

Lemma matches_oinsert p old_id y d :
  old_id ≠ component p y → matches p old_id (oinsert y d) = matches p old_id d.
Proof.
  intros Hy. unfold matches. induction d as [|x d IH]; cbn [oinsert].
  - by rewrite filter_cons_False.
  - destruct (decide (olt y x)); [by rewrite filter_cons_False|]. destruct (decide (y = x)); [done|].
    rewrite !filter_cons. case_decide; simpl; by rewrite IH.
Qed.

Lemma renamed_cons p old_id new_id x d y :
  renamed p old_id new_id (x :: d) y ↔
  y = (if decide (old_id = component p x) then set_component p new_id x else x) ∨
  renamed p old_id new_id d y.
Proof.
  unfold renamed. split.
  - intros (z & [->|Hz]%elem_of_cons & Hy); [by left|right]. by exists z.
  - intros [->|(z & Hz & Hy)].
    + exists x. split; [apply list_elem_of_here|done].
    + exists z. split; [by apply list_elem_of_further|done].
Qed.

Lemma renamed_oinsert p old_id new_id x d y :
  renamed p old_id new_id (oinsert x d) y ↔
  y = (if decide (old_id = component p x) then set_component p new_id x else x) ∨
  renamed p old_id new_id d y.
Proof.
  unfold renamed. split.
  - intros (z & [->|Hz]%elem_of_oinsert & Hy); [by left|right]. by exists z.
  - intros [->|(z & Hz & Hy)].
    + exists x. split; [apply elem_of_oinsert; by left|done].
    + exists z. split; [apply elem_of_oinsert; by right|done].
Qed.

Lemma update_loop_spec p old_id new_id fuel before from :
  sorted before → sorted from → length from + matches p old_id from < fuel →
  ∃ r, update_loop p old_id new_id fuel before from = Some r ∧ sorted r ∧
    ∀ y, y ∈ r ↔ y ∈ before ∨ renamed p old_id new_id from y.
Proof.
  revert before from. induction fuel as [|fuel IH]; intros before from Hb Hf Hfuel; [lia|].
  destruct from as [|x from].
  { exists before. split_and!; [done|done|]. intros y. split; [by left|].
    intros [?|(z & []%elem_of_nil & _)]; done. }
  cbn [update_loop]. inversion Hf as [|?? Hf' Hx]; subst.
  unfold matches in Hfuel. rewrite filter_cons in Hfuel. simpl length in Hfuel. fold (matches p old_id from) in Hfuel.
  setoid_rewrite renamed_cons.
  destruct (decide (old_id = component p x)) as [Hm|Hm].
  - set (y0 := set_component p new_id x) in *. simpl in Hfuel.
    assert (∃ r, update_loop p old_id new_id fuel (oinsert y0 before) from = Some r ∧ sorted r ∧
      ∀ y, y ∈ r ↔ y ∈ before ∨ y = y0 ∨ renamed p old_id new_id from y) as Hbefore.
    { destruct (IH (oinsert y0 before) from) as (r & Hr & Hs & Hy).
      - by apply sorted_oinsert.
      - done.
      - unfold matches. lia.
      - exists r. split_and!; [done|done|]. intros y. rewrite Hy, elem_of_oinsert. tauto. }
    destruct from as [|next from]; [exact Hbefore|].
    destruct (decide (olt y0 next)) as [Hlt|Hnlt]; [exact Hbefore|].
    assert (old_id ≠ component p y0) as Hne.
    { subst y0. rewrite component_set. intros ->. apply Hnlt. rewrite Hm, set_component_same.
      rewrite list.Forall_forall in Hx. apply Hx, list_elem_of_here. }
    destruct (IH before (oinsert y0 (next :: from))) as (r & Hr & Hs & Hy).
    + done.
    + by apply sorted_oinsert.
    + rewrite matches_oinsert by done. pose proof (length_oinsert y0 (next :: from)).
      unfold matches. lia.
    + exists r. split_and!; [done|done|]. intros y. rewrite Hy, renamed_oinsert.
      by rewrite decide_False.
  - destruct (IH (oinsert x before) from) as (r & Hr & Hs & Hy).
    + by apply sorted_oinsert.
    + done.
    + unfold matches. lia.
    + exists r. split_and!; [done|done|]. intros y. rewrite Hy, elem_of_oinsert. tauto.
Qed.

Lemma filter_length_le {A} (P : A → Prop) `{∀ x, Decision (P x)} l : length (filter P l) ≤ length l.
Proof. induction l as [|x l IH]; [done|]. rewrite filter_cons. case_decide; simpl; lia. Qed.

(** [update_parent], update_child and update_agent terminate although they
    insert into the set they iterate over, and the result is the set in which
    the identifier has been replaced in every entry that had it, and nothing
    else has changed. *)
Lemma update_entry_spec p old_id new_id d :
  sorted d →
  ∃ r, update_entry p old_id new_id d = Some r ∧ sorted r ∧
    ∀ y, y ∈ r ↔ renamed p old_id new_id d y.
Proof.
  intros Hd. destruct (update_loop_spec p old_id new_id (S (2 * length d)) [] d) as (r & Hr & Hs & Hy).
  - constructor.
  - done.
  - unfold matches. pose proof (filter_length_le (λ x, old_id = component p x) d). lia.
  - exists r. split_and!; [done|done|]. intros y. rewrite Hy, elem_of_nil. tauto.
Qed.

(** ** Operations and their abstract specification

    The manager as a relation: which agents have reported a pair. *)

Inductive op :=
  | AddEntry (parent child : uuid) (gami_id : string)
  | RemoveEntry (parent child : uuid)
  | RemoveParent (parent : uuid)
  | RemoveChild (child : uuid)
  | ClearEntries
  | CleanAgent (gami_id : string)
  | CleanNoAgent.

Definition run_op (o : op) (d : t) : t :=
  match o with
  | AddEntry p c g => add_entry p c g d
  | RemoveEntry p c => remove_entry p c d
  | RemoveParent p => remove_parent p d
  | RemoveChild c => remove_child c d
  | ClearEntries => clear_entries d
  | CleanAgent g => clean_resources_for_agent g d
  | CleanNoAgent => clean_resources_with_no_agent d
  end.

Definition run_ops (os : list op) (d : t) : t := foldl (λ d o, run_op o d) d os.

Lemma run_op_sorted o d : sorted d → sorted (run_op o d).
Proof.
  intros Hd. destruct o; simpl.
  - by apply sorted_oinsert.
  - by apply sorted_remove_entry.
  - by apply sorted_filter.
  - by apply sorted_filter.
  - constructor.
  - by apply sorted_filter.
  - by apply sorted_filter.
Qed.

Lemma run_ops_sorted os d : sorted d → sorted (run_ops os d).
Proof.
  revert d. induction os as [|o os IH]; intros d Hd; [done|]. by apply IH, run_op_sorted.
Qed.

(** After any history of calls on an empty manager the queries agree
    with each other and with the set of tuples: a child is listed for a parent
    exactly when that parent is listed for the child, exactly when the pair
    exists; the unique parents are those that exist, each listed once; removing
    a parent, a child or an agent leaves no trace of it and keeps every other
    tuple. *)
Theorem queries_agree os p c g :
  let d := run_ops os [] in
  (c ∈ get_children p d ↔ entry_exists p c d = true) ∧
  (p ∈ get_parents c d ↔ entry_exists p c d = true) ∧
  (entry_exists p c d = true ↔ ∃ a, (p, c, a) ∈ d) ∧
  (p ∈ get_all_unique_parents d ↔ parent_exists p d = true) ∧
  NoDup (get_all_unique_parents d) ∧
  (∀ x, x ∈ remove_parent p d ↔ x ∈ d ∧ parent_of x ≠ p) ∧
  (∀ x, x ∈ remove_child c d ↔ x ∈ d ∧ child_of x ≠ c) ∧
  (∀ x, x ∈ clean_resources_for_agent g d ↔ x ∈ d ∧ agent_of x ≠ g) ∧
  (∀ x, x ∈ add_entry p c g d ↔ x = (p, c, g) ∨ x ∈ d).
Proof.
  intros d. assert (sorted d) as Hd by (apply run_ops_sorted; constructor).
  assert (entry_exists p c d = true ↔ ∃ a, (p, c, a) ∈ d) as He.
  { unfold entry_exists. rewrite existsb_exists. split.
    - intros ([[p' c'] a] & Hin & [H1 H2]%andb_true_iff).
      apply bool_decide_eq_true in H1. apply bool_decide_eq_true in H2. simpl in *. subst.
      exists a. by apply list_elem_of_In.
    - intros (a & Hin). exists (p, c, a). split; [by apply list_elem_of_In|].
      by rewrite !bool_decide_eq_true_2. }
  split_and!.
  - rewrite He. unfold get_children. rewrite list_elem_of_fmap. split.
    + intros ([[p' c'] a] & -> & [-> Hin]%list_elem_of_filter). by exists a.
    + intros (a & Hin). exists (p, c, a). split; [done|]. by apply list_elem_of_filter.
  - rewrite He. unfold get_parents. rewrite list_elem_of_fmap. split.
    + intros ([[p' c'] a] & -> & [-> Hin]%list_elem_of_filter). by exists a.
    + intros (a & Hin). exists (p, c, a). split; [done|]. by apply list_elem_of_filter.
  - done.
  - unfold get_all_unique_parents, parent_exists. rewrite elem_of_oset, list_elem_of_fmap, existsb_exists.
    split; intros (x & H1 & H2); exists x.
    + split; [by apply list_elem_of_In|]. by apply bool_decide_eq_true_2.
    + split; [by apply bool_decide_eq_true in H2|by apply list_elem_of_In].
  - apply sorted_NoDup, sorted_oset.
  - intros x. unfold remove_parent, remove_if. rewrite elem_of_do_remove_if, bool_decide_eq_false.
    split; intros []; split; auto.
  - intros x. unfold remove_child, remove_if. rewrite elem_of_do_remove_if, bool_decide_eq_false.
    split; intros []; split; auto.
  - intros x. unfold clean_resources_for_agent. rewrite elem_of_do_remove_if, bool_decide_eq_false. tauto.
  - intros x. apply elem_of_oinsert.
Qed.

Lemma entry_exists_false parent child (d : list IdPair) :
  entry_exists parent child d = false ↔
  filter (λ x, parent = parent_of x ∧ child = child_of x) d = [].
Proof.
  induction d as [|x d IH]; [done|]. unfold entry_exists in *. cbn [existsb]. rewrite filter_cons.
  case_decide as Hm.
  - destruct Hm as [H1 H2]. by rewrite !bool_decide_eq_true_2.
  - rewrite orb_false_iff, IH. split; [tauto|]. intros ->. split; [|done].
    apply andb_false_iff. destruct (decide (parent = parent_of x)).
    + right. apply bool_decide_eq_false_2. tauto.
    + left. by apply bool_decide_eq_false_2.
Qed.

(** remove_entry removes one tuple of the pair, the one of the least
    agent identifier: the pair is gone exactly when a single agent had reported
    it, and after both agents A and B have added it the pair still exists. *)
Theorem remove_entry_one_agent (d : list IdPair) parent child :
  sorted d →
  (entry_exists parent child (remove_entry parent child d) = false ↔
   length (filter (λ x, parent = parent_of x ∧ child = child_of x) d) ≤ 1) ∧
  (entry_exists parent child d = true →
   length d = S (length (remove_entry parent child d))) ∧
  (∀ x, x ∈ d → parent_of x ≠ parent ∨ child_of x ≠ child → x ∈ remove_entry parent child d).
Proof.
  intros _. induction d as [|x d IH].
  { split_and!; [simpl; split; [lia|done]|done|by intros ? ?%elem_of_nil]. }
  destruct IH as (IH1 & IH2 & IH3). cbn [remove_entry]. rewrite filter_cons.
  destruct (decide (parent = parent_of x ∧ child = child_of x)) as [[H1 H2]|Hn].
  - split_and!.
    + rewrite entry_exists_false. cbn [length]. destruct (filter _ d); simpl; split; try done; lia.
    + done.
    + intros y [->|Hy]%elem_of_cons Hne; [|done]. destruct Hne as [Hne|Hne]; by destruct Hne.
  - assert (∀ d', entry_exists parent child (x :: d') = entry_exists parent child d') as Hskip.
    { intros d'. unfold entry_exists. cbn [existsb].
      destruct (bool_decide (parent = parent_of x)) eqn:E1; [|done].
      destruct (bool_decide (child = child_of x)) eqn:E2; [|done].
      apply bool_decide_eq_true in E1. apply bool_decide_eq_true in E2. by destruct Hn. }
    rewrite !Hskip. split_and!.
    + exact IH1.
    + intros He. simpl. by rewrite IH2.
    + intros y [->|Hy]%elem_of_cons Hne; [apply list_elem_of_here|].
      apply list_elem_of_further. by apply IH3.
Qed.

(** ** Two agents and one pair *)

Definition sample : t :=
  run_ops [AddEntry "zone" "ep" "agentB"; AddEntry "zone" "ep" "agentA"; AddEntry "zone2" "ep" "agentA"] [].

Lemma update_entry_sample :
  ∃ r, update_entry P0 "zone" "zone3" sample = Some r ∧
    ∀ y, y ∈ r ↔ renamed P0 "zone" "zone3" sample y.
Proof.
  destruct (update_entry_spec P0 "zone" "zone3" sample) as (r & H1 & _ & H2).
  - apply run_ops_sorted. constructor.
  - exists r. split; [exact H1|exact H2].
Defined.

Lemma remove_entry_one_agent_witness :
  entry_exists "zone" "ep" (remove_entry "zone" "ep" sample) = true ∧
  entry_exists "zone2" "ep" (remove_entry "zone2" "ep" sample) = false.
Proof.
  split; [vm_compute; reflexivity|].
  apply (remove_entry_one_agent sample "zone2" "ep").
  - apply run_ops_sorted. constructor.
  - vm_compute. lia.
Defined.

End ManyToMany.
