(* ===== verification/GenericManager.v ===== *)
(** [agent_framework::model::Resource] (module/model/resource.hpp, resource.cpp),
    [model::utils::Hash] (module/utils/hash.hpp) and
    [agent_framework::module::GenericManager<T>]
    (module/managers/generic_manager.hpp): the tables of the resource model.

    A resource is its base-class fields and its JSON form, split as [Hash] splits
    it: the status, if the type has one, and the rest.  JSON values are a type
    variable, [compute_hash] (a digest of the serialised text) a variable; the
    UUID generators' results are arguments.  The table is the vector
    [m_manager_data] and the epoch counter, a [uint64_t].  The recursive mutex
    makes every method atomic. *)

From Stdlib Require Import ZArith Lia.
From S2P Require Import Prelude.
From S2P Require Import OrdSet.
From S2P Require Import Enums.

Module GenericManager.

(** [attribute::Collection] (module/model/attributes/collection.hpp) *)
Record Collection := mkCollection { collection_name : string; collection_type : CollectionType.t }.

Section manager.
Context {J : Type} `{EqDecision J}.

Record Resource := mkResource {
  m_collections : list Collection;
  m_parent_type : Component.t;
  m_temporary_uuid : uuid;
  m_persistent_uuid : uuid;
  m_parent_uuid : uuid;
  m_unique_key : option string;
  m_is_uuid_persistent : bool;
  m_id : Z;
  m_agent_id : string;
  m_touched_at : Z;
  json_status : option J;
  json_rest : J;
}.

(** ** Resource *)

Definition get_uuid (r : Resource) : uuid :=
  if m_is_uuid_persistent r then m_persistent_uuid r else m_temporary_uuid r.

Definition set_uuid (u : uuid) (r : Resource) : Resource :=
  mkResource (m_collections r) (m_parent_type r) u (m_persistent_uuid r) (m_parent_uuid r) (m_unique_key r) false (m_id r)
    (m_agent_id r) (m_touched_at r) (json_status r) (json_rest r).

(** [make_v5_uuid(namespace_uuid, key)] is a variable function. *)
Definition make_persistent_uuid (make_v5_uuid : string → uuid) (r : Resource) : Resource :=
  match m_unique_key r with
  | Some key => mkResource (m_collections r) (m_parent_type r) (m_temporary_uuid r) (make_v5_uuid key) (m_parent_uuid r) (m_unique_key r)
                  true (m_id r) (m_agent_id r) (m_touched_at r) (json_status r) (json_rest r)
  | None => r
  end.

(** [v1] is the result of [make_v1_uuid()]. *)
Definition make_random_uuid (v1 : uuid) (r : Resource) : Resource := set_uuid v1 r.

Definition touch (epoch : Z) (r : Resource) : Resource :=
  mkResource (m_collections r) (m_parent_type r) (m_temporary_uuid r) (m_persistent_uuid r) (m_parent_uuid r) (m_unique_key r)
    (m_is_uuid_persistent r) (m_id r) (m_agent_id r) epoch (json_status r) (json_rest r).

Definition set_parent_uuid (p : uuid) (r : Resource) : Resource :=
  mkResource (m_collections r) (m_parent_type r) (m_temporary_uuid r) (m_persistent_uuid r) p
    (m_unique_key r) (m_is_uuid_persistent r) (m_id r) (m_agent_id r) (m_touched_at r)
    (json_status r) (json_rest r).

Definition set_parent_type (c : Component.t) (r : Resource) : Resource :=
  mkResource (m_collections r) c (m_temporary_uuid r) (m_persistent_uuid r) (m_parent_uuid r)
    (m_unique_key r) (m_is_uuid_persistent r) (m_id r) (m_agent_id r) (m_touched_at r)
    (json_status r) (json_rest r).

Definition set_id (id : Z) (r : Resource) : Resource :=
  mkResource (m_collections r) (m_parent_type r) (m_temporary_uuid r) (m_persistent_uuid r)
    (m_parent_uuid r) (m_unique_key r) (m_is_uuid_persistent r) id (m_agent_id r) (m_touched_at r)
    (json_status r) (json_rest r).

Definition set_agent_id (gami_id : string) (r : Resource) : Resource :=
  mkResource (m_collections r) (m_parent_type r) (m_temporary_uuid r) (m_persistent_uuid r)
    (m_parent_uuid r) (m_unique_key r) (m_is_uuid_persistent r) (m_id r) gami_id (m_touched_at r)
    (json_status r) (json_rest r).

Definition was_touched_after (epoch : Z) (r : Resource) : bool := bool_decide (m_touched_at r > epoch)%Z.

(** ** Hash *)

Variable compute_hash : J → string.

Record Hash := mkHash { h_status : string; h_resource_without_status : string }.

Definition from_resource (r : Resource) : Hash :=
  match json_status r with
  | Some status => mkHash (compute_hash status) (compute_hash (json_rest r))
  | None => mkHash ""%string (compute_hash (json_rest r))
  end.

(** ** GenericManager *)

Inductive UpdateStatus := NoUpdate | StatusChanged | Updated | Added.

Record t := mkManager { m_manager_data : list Resource; m_current_epoch : Z }.

Definition manager0 : t := mkManager [] 1.

(** The predicate of [find_entry]. *)
Definition has_key (u : uuid) (r : Resource) : bool :=
  (m_is_uuid_persistent r && bool_decide (m_persistent_uuid r = u))
  || bool_decide (m_temporary_uuid r = u).

(** The predicate of [get_entry_reference] and [find_id_by_uuid]. *)
Definition has_any_uuid (u : uuid) (r : Resource) : bool :=
  bool_decide (m_persistent_uuid r = u) || bool_decide (m_temporary_uuid r = u).

(** [std::find_if], as an index. *)
Fixpoint find_if (f : Resource → bool) (l : list Resource) : option (nat * Resource) :=
  match l with
  | [] => None
  | r :: l' => if f r then Some (0, r) else prod_map S id <$> find_if f l'
  end.

Definition find_entry (u : uuid) (s : t) : option (nat * Resource) := find_if (has_key u) (m_manager_data s).

Definition next_epoch (s : t) : Z := wrap 64 (m_current_epoch s + 1).

Definition add_entry (entry : Resource) : M t unit :=
  s ← get;
  match find_entry (get_uuid entry) s with
  | Some _ => throw invalid_uuid
  | None => put (mkManager (m_manager_data s ++ [touch (next_epoch s) entry]) (next_epoch s))
  end.

Definition add_or_update_entry (entry_r : Resource) : M t UpdateStatus :=
  s ← get;
  let entry := touch (next_epoch s) entry_r in
  put (mkManager (m_manager_data s) (next_epoch s));;
  match find_entry (get_uuid entry) s with
  | Some (i, it) =>
      if decide (m_parent_uuid it ≠ m_parent_uuid entry) then throw invalid_uuid
      else
        let db_hash := from_resource it in
        let entry_hash := from_resource entry in
        put (mkManager (<[i := entry]> (m_manager_data s)) (next_epoch s));;
        mret (if decide (h_status db_hash ≠ h_status entry_hash) then StatusChanged
              else if decide (h_resource_without_status db_hash ≠ h_resource_without_status entry_hash)
              then Updated else NoUpdate)
  | None =>
      put (mkManager (m_manager_data s ++ [entry]) (next_epoch s));;
      mret Added
  end.

Definition get_entry (u : uuid) (s : t) : result Resource :=
  match find_entry u s with Some (_, it) => Ok it | None => Throw invalid_uuid end.

Definition get_entries (flt : Resource → bool) (s : t) : list Resource :=
  filter (λ r, flt r = true) (m_manager_data s).

Definition get_entries_of (parent : uuid) (flt : Resource → bool) (s : t) : list Resource :=
  get_entries (λ r, bool_decide (parent = m_parent_uuid r) && flt r) s.

(** The entry a [Reference] points to. *)
Definition get_entry_reference (u : uuid) (s : t) : result nat :=
  match find_if (has_any_uuid u) (m_manager_data s) with
  | Some (i, _) => Ok i
  | None => Throw invalid_uuid
  end.

(** [pre_delete_hook] may throw, which leaves the entry in place; its effects on
    the rest of the system are left out. *)
Definition remove_entry (u : uuid) (pre_delete_hook : Resource → result unit) : M t unit :=
  s ← get;
  match find_entry u s with
  | Some (i, it) =>
      lift (pre_delete_hook it);;
      put (mkManager (delete i (m_manager_data s)) (m_current_epoch s))
  | None => mret tt
  end.

Definition remove_if (predicate : Resource → bool) : M t nat :=
  s ← get;
  let kept := filter (λ r, predicate r = false) (m_manager_data s) in
  put (mkManager kept (m_current_epoch s));;
  mret (length (m_manager_data s) - length kept).

Definition remove_by_parent (u : uuid) : M t unit :=
  remove_if (λ r, bool_decide (m_parent_uuid r = u));; mret tt.

Definition clean_resources_for_agent (gami_id : string) : M t unit :=
  remove_if (λ r, bool_decide (m_agent_id r = gami_id));; mret tt.

Definition clear_entries : M t unit := modify (λ s, mkManager [] (m_current_epoch s)).

Definition get_keys (flt : Resource → bool) (s : t) : list uuid :=
  get_uuid <$> filter (λ r, flt r = true) (m_manager_data s).

Definition get_keys_of (parent : uuid) (flt : Resource → bool) (s : t) : list uuid :=
  get_keys (λ r, bool_decide (parent = m_parent_uuid r) && flt r) s.

Definition get_ids (s : t) : list Z := m_id <$> m_manager_data s.

Definition get_ids_of (parent : uuid) (s : t) : list Z :=
  m_id <$> filter (λ r, m_parent_uuid r = parent) (m_manager_data s).

Definition entry_exists (u : uuid) (s : t) : bool := bool_decide (is_Some (find_entry u s)).

Definition get_entry_count (s : t) : nat := length (m_manager_data s).

Definition get_entry_count_of (parent : uuid) (s : t) : nat :=
  length (filter (λ r, m_parent_uuid r = parent) (m_manager_data s)).

Definition find_uuid_by_id (id : Z) (s : t) : result uuid :=
  match find_if (λ r, bool_decide (m_id r = id)) (m_manager_data s) with
  | Some (_, r) => Ok (get_uuid r)
  | None => Throw not_found
  end.

Definition find_uuid_by_id_and_parent (id : Z) (parent : uuid) (s : t) : result uuid :=
  match find_if (λ r, bool_decide (m_parent_uuid r = parent) && bool_decide (m_id r = id))
          (m_manager_data s) with
  | Some (_, r) => Ok (get_uuid r)
  | None => Throw not_found
  end.

Definition rest_id_to_uuid (id : Z) (parent : uuid) (s : t) : result uuid :=
  if decide (parent = ""%string) then find_uuid_by_id id s else find_uuid_by_id_and_parent id parent s.

Definition find_id_by_uuid (u : uuid) (s : t) : result Z :=
  match find_if (has_any_uuid u) (m_manager_data s) with
  | Some (_, r) => Ok (m_id r)
  | None => Throw invalid_uuid
  end.

Definition uuid_to_rest_id (u : uuid) (s : t) : result Z := find_id_by_uuid u s.

Definition get_current_epoch (s : t) : Z := m_current_epoch s.

(** ** Searching *)

Lemma find_if_Some f l i r :
  find_if f l = Some (i, r) → l !! i = Some r ∧ f r = true ∧ ∀ j r', j < i → l !! j = Some r' → f r' = false.
Proof.
  revert i. induction l as [|x l IH]; intros i; simpl; [done|].
  destruct (f x) eqn:Hx.
  - intros [= <- <-]. split_and!; [done|done|]. intros j r' Hj. lia.
  - destruct (find_if f l) as [[k y]|] eqn:E; [|done]. intros [= <- <-].
    destruct (IH k eq_refl) as (H1 & H2 & H3). split_and!; [done|done|].
    intros [|j] r' Hj Hr'; simpl in *; [congruence|]. apply (H3 j); [lia|done].
Qed.

Lemma find_if_None f l : find_if f l = None ↔ Forall (λ r, f r = false) l.
Proof.
  induction l as [|x l IH]; simpl; [done|]. rewrite list.Forall_cons, <- IH.
  destruct (f x); [|destruct (find_if f l) as [[]|]]; simpl; split; try done; intros []; done.
Qed.

Lemma find_if_app f l k :
  find_if f (l ++ k) =
  match find_if f l with
  | Some p => Some p
  | None => prod_map (Nat.add (length l)) id <$> find_if f k
  end.
Proof.
  induction l as [|x l IH]; simpl; [by destruct (find_if f k) as [[]|]|].
  destruct (f x); [done|]. rewrite IH. destruct (find_if f l) as [[]|]; [done|].
  by destruct (find_if f k) as [[]|].
Qed.

Lemma find_if_insert f l i r r0 :
  find_if f l = Some (i, r0) → f r = true → find_if f (<[i := r]> l) = Some (i, r).
Proof.
  revert i. induction l as [|x l IH]; intros i; simpl; [done|].
  destruct (f x) eqn:Hx.
  - intros [= <- <-] Hr. simpl. by rewrite Hr.
  - destruct (find_if f l) as [[k y]|] eqn:E; [|done]. intros [= <- <-] Hr. simpl.
    rewrite Hx. by rewrite (IH k).
Qed.

Lemma has_key_own r : has_key (get_uuid r) r = true.
Proof.
  unfold has_key, get_uuid. destruct (m_is_uuid_persistent r); simpl.
  - by rewrite bool_decide_eq_true_2.
  - by rewrite bool_decide_eq_true_2.
Qed.

Lemma has_key_touch u e r : has_key u (touch e r) = has_key u r.
Proof. done. Qed.

(** ** Theorems *)

(** [add_entry] of a resource whose uuid is a key of no entry succeeds: the
    resource can be read back under its uuid with the new epoch, every entry
    that could be read before reads the same, and the count grows by one; if the
    uuid is taken it throws InvalidUuid and nothing changes, not even the
    epoch. *)
Theorem add_entry_get entry s :
  (entry_exists (get_uuid entry) s = true ∧ add_entry entry s = (Throw invalid_uuid, s)) ∨
  (entry_exists (get_uuid entry) s = false ∧
   ∃ s', add_entry entry s = (Ok tt, s') ∧
     get_entry (get_uuid entry) s' = Ok (touch (next_epoch s) entry) ∧
     (∀ u r, get_entry u s = Ok r → get_entry u s' = Ok r) ∧
     get_entry_count s' = S (get_entry_count s) ∧
     get_keys (λ _, true) s' = get_keys (λ _, true) s ++ [get_uuid entry]).
Proof.
  unfold add_entry, entry_exists, get_entry. run_monad.
  destruct (find_entry (get_uuid entry) s) as [p|] eqn:Hf; [left|right].
  - split; [|done]. by apply bool_decide_eq_true_2.
  - split; [apply bool_decide_eq_false_2; by intros []|]. eexists; split; [done|].
    unfold find_entry in *. cbn [m_manager_data]. split_and!.
    + rewrite find_if_app, Hf. simpl. rewrite has_key_touch, has_key_own. done.
    + intros u r Hr. rewrite find_if_app. by destruct (find_if (has_key u) _) as [[]|].
    + unfold get_entry_count. simpl. rewrite length_app. simpl. lia.
    + unfold get_keys. cbn [m_manager_data]. rewrite list.filter_app, fmap_app. done.
Qed.

(** Add_or_update_entry advances the epoch in every case.  For a new uuid
    it appends and returns Added; for a known one it replaces that entry and
    returns StatusChanged, Updated or NoUpdate according to the hashes of the
    status and of the rest; in both cases the resource is read back under its
    uuid as it was given, touched with the new epoch.  A change of parent throws
    InvalidUuid and leaves the entries as they were. *)
Theorem add_or_update_get entry s r s' :
  add_or_update_entry entry s = (r, s') →
  m_current_epoch s' = next_epoch s ∧
  match r with
  | Throw e => e = invalid_uuid ∧ m_manager_data s' = m_manager_data s ∧
      ∃ old, get_entry (get_uuid entry) s = Ok old ∧ m_parent_uuid old ≠ m_parent_uuid entry
  | Ok res =>
      get_entry (get_uuid entry) s' = Ok (touch (next_epoch s) entry) ∧
      match get_entry (get_uuid entry) s with
      | Throw _ => res = Added ∧ get_entry_count s' = S (get_entry_count s)
      | Ok old =>
          get_entry_count s' = get_entry_count s ∧ m_parent_uuid old = m_parent_uuid entry ∧
          (res = NoUpdate ↔ from_resource old = from_resource entry) ∧
          (res = StatusChanged ↔ h_status (from_resource old) ≠ h_status (from_resource entry))
      end
  end.
Proof.
  unfold add_or_update_entry, get_entry. run_monad. unfold find_entry.
  change (get_uuid (touch (next_epoch s) entry)) with (get_uuid entry).
  destruct (find_if (has_key (get_uuid entry)) (m_manager_data s)) as [[i old]|] eqn:Hf.
  - case_decide as Hp; intros [= <- <-].
    + split; [done|]. split_and!; [done|done|]. by exists old.
    + split; [done|]. cbn [m_manager_data].
      assert (has_key (get_uuid entry) (touch (next_epoch s) entry) = true) as Hk
        by (rewrite has_key_touch; apply has_key_own).
      rewrite (find_if_insert _ _ _ _ _ Hf Hk). split; [done|].
      change (from_resource (touch (next_epoch s) entry)) with (from_resource entry).
      split_and!.
      * unfold get_entry_count. simpl. by rewrite length_insert.
      * simpl in Hp. tauto.
      * destruct (from_resource old) as [a b], (from_resource entry) as [c d]. simpl.
        repeat case_decide; split; try done; congruence.
      * repeat case_decide; split; try done; congruence.
  - intros [= <- <-]. split; [done|]. cbn [m_manager_data].
    rewrite find_if_app, Hf. simpl. rewrite has_key_touch, has_key_own. split; [done|].
    split; [done|]. unfold get_entry_count. simpl. rewrite length_app. simpl. lia.
Qed.

(** No uuid is a key of two entries. *)
Definition distinct (l : list Resource) : Prop :=
  pairwise (λ r r', ∀ u, has_key u r = true → has_key u r' = false) l.

Lemma find_if_delete u l i r :
  distinct l → find_if (has_key u) l = Some (i, r) → find_if (has_key u) (delete i l) = None.
Proof.
  revert i. induction l as [|x l IH]; intros i Hd Hf; simpl in Hf; [done|]. destruct Hd as [Hx Hd].
  destruct (has_key u x) eqn:E.
  - injection Hf as <- <-. simpl. apply find_if_None.
    eapply list.Forall_impl; [exact Hx|]. intros r Hr. by apply Hr.
  - destruct (find_if (has_key u) l) as [[k y]|] eqn:E'; [|done]. injection Hf as <- <-. simpl.
    rewrite E. by rewrite (IH k).
Qed.

Lemma find_if_delete_other u l i r u' :
  distinct l → find_if (has_key u) l = Some (i, r) → has_key u' r = false →
  snd <$> find_if (has_key u') (delete i l) = snd <$> find_if (has_key u') l.
Proof.
  revert i. induction l as [|x l IH]; intros i Hd Hf Hu'; simpl in Hf; [done|]. destruct Hd as [Hx Hd].
  destruct (has_key u x) eqn:E.
  - injection Hf as <- <-. simpl. rewrite Hu'. by destruct (find_if (has_key u') l) as [[]|].
  - destruct (find_if (has_key u) l) as [[k y]|] eqn:E'; [|done]. injection Hf as <- <-. simpl.
    destruct (has_key u' x); [done|]. specialize (IH k Hd eq_refl Hu').
    destruct (find_if (has_key u') (delete k l)) as [[]|], (find_if (has_key u') l) as [[]|];
      simpl in *; congruence.
Qed.

Lemma distinct_sublist l k : sublist k l → distinct l → distinct k.
Proof.
  unfold distinct. induction 1 as [|x k l Hs IH|x k l Hs IH]; simpl; try tauto.
  intros [Hx Hl]. split; [|by apply IH].
  rewrite list.Forall_forall in Hx |- *. intros y Hy. apply Hx. by eapply sublist_subseteq.
Qed.

(** The methods keep the keys of the table distinct: add_entry does if
    the temporary uuid of the new resource is fresh, as a generated uuid is, and
    the removals always do, also when they throw. *)
Theorem distinct_preserved entry u hook parent gami_id s :
  distinct (m_manager_data s) →
  (entry_exists (m_temporary_uuid entry) s = false → distinct (m_manager_data (add_entry entry s).2)) ∧
  distinct (m_manager_data (remove_entry u hook s).2) ∧
  distinct (m_manager_data (remove_by_parent parent s).2) ∧
  distinct (m_manager_data (clean_resources_for_agent gami_id s).2) ∧
  distinct (m_manager_data (clear_entries s).2).
Proof.
  intros Hd. split_and!.
  - intros Ht. unfold add_entry, entry_exists, find_entry in *. run_monad.
    apply bool_decide_eq_false, eq_None_not_Some, find_if_None in Ht.
    destruct (find_if _ _) as [|] eqn:Hf; [done|]. apply find_if_None in Hf. simpl.
    unfold distinct. rewrite pairwise_app. split_and!; [done|simpl; split; [apply Forall_nil_2|done]|].
    apply list.Forall_forall. intros r Hr. apply Forall_cons_2; [|apply Forall_nil_2].
    rewrite list.Forall_forall in Ht, Hf. specialize (Ht r Hr). specialize (Hf r Hr). simpl in *.
    intros u' Hu'. rewrite has_key_touch. destruct (has_key u' entry) eqn:E; [|done]. exfalso.
    unfold has_key in E at 1. apply orb_true_iff in E as [[Ep E]%andb_true_iff|E];
      apply bool_decide_eq_true in E; subst u'.
    + unfold get_uuid in Hf. rewrite Ep in Hf. congruence.
    + congruence.
  - unfold remove_entry. run_monad. destruct (find_entry u s) as [[i it]|]; [|done].
    destruct (hook it); [|done]. simpl. eapply distinct_sublist; [apply sublist_delete|done].
  - simpl. eapply distinct_sublist; [apply sublist_filter|done].
  - simpl. eapply distinct_sublist; [apply sublist_filter|done].
  - done.
Qed.

(** In a table whose keys are distinct, remove_entry of a known uuid,
    with a hook that does not throw, removes exactly that resource: none of its keys finds an entry any more, and
    every key of another resource still finds that resource; an unknown uuid
    changes nothing. *)
Theorem remove_entry_exact u hook s :
  distinct (m_manager_data s) → (∀ r, get_entry u s = Ok r → hook r = Ok tt) →
  ∃ s', remove_entry u hook s = (Ok tt, s') ∧ entry_exists u s' = false ∧
    match get_entry u s with
    | Throw _ => s' = s
    | Ok r => (∀ u', has_key u' r = false → get_entry u' s' = get_entry u' s) ∧
              S (get_entry_count s') = get_entry_count s
    end.
Proof.
  intros Hd Hh. unfold remove_entry, get_entry, entry_exists in *. run_monad. unfold find_entry in *.
  destruct (find_if (has_key u) (m_manager_data s)) as [[i r]|] eqn:Hf.
  - rewrite (Hh r eq_refl). eexists; split; [done|]. cbn [m_manager_data]. split_and!.
    + rewrite (find_if_delete _ _ _ _ Hd Hf). done.
    + intros u' Hu'. pose proof (find_if_delete_other _ _ _ _ _ Hd Hf Hu') as H.
      destruct (find_if (has_key u') (delete i _)) as [[]|], (find_if (has_key u') _) as [[]|];
        simpl in *; congruence.
    + apply find_if_Some in Hf as (Hl & _). unfold get_entry_count. simpl.
      pose proof (length_delete (m_manager_data s) i ltac:(by eexists)) as Hlen.
      assert (i < length (m_manager_data s)) by (by eapply lookup_lt_Some). lia.
  - exists s. split_and!; [done| |done]. by rewrite Hf.
Qed.

(** The epoch protocol by which stale resources are found: if every
    entry was touched at or before the current epoch, then after
    add_or_update_entry was_touched_after the old epoch holds for the entry
    just given and for no other, and the premise holds again. *)
Theorem epoch_separates entry s s' res :
  (0 ≤ m_current_epoch s < 2 ^ 64 - 1)%Z →
  Forall (λ r, (m_touched_at r ≤ m_current_epoch s)%Z) (m_manager_data s) →
  add_or_update_entry entry s = (Ok res, s') →
  Forall (λ r, (m_touched_at r ≤ m_current_epoch s')%Z) (m_manager_data s') ∧
  ∃ i, ∀ j r, m_manager_data s' !! j = Some r →
    was_touched_after (m_current_epoch s) r = bool_decide (j = i).
Proof.
  intros He Ht. unfold add_or_update_entry. run_monad. unfold find_entry.
  assert (next_epoch s = m_current_epoch s + 1)%Z as Hn by (apply wrap_small; unfold in_range; lia).
  assert (Forall (λ r, (m_touched_at r ≤ m_current_epoch s + 1)%Z) (m_manager_data s)) as Ht'.
  { eapply list.Forall_impl; [exact Ht|]. simpl. lia. }
  assert (∀ j r, m_manager_data s !! j = Some r → was_touched_after (m_current_epoch s) r = false) as Hold.
  { intros j r Hr. apply bool_decide_eq_false_2. eapply Forall_lookup_1 in Ht; [|exact Hr]. simpl in Ht. lia. }
  assert (was_touched_after (m_current_epoch s) (touch (next_epoch s) entry) = true) as Hnew.
  { apply bool_decide_eq_true_2. simpl. lia. }
  destruct (find_if _ _) as [[i old]|] eqn:Hf.
  - case_decide; [done|]. intros [= _ <-]. cbn [m_current_epoch m_manager_data]. rewrite Hn in *. split.
    + apply Forall_insert; [done|]. simpl. lia.
    + exists i. intros j r Hr. destruct (decide (j = i)) as [->|Hne].
      * apply find_if_Some in Hf as (Hl & _).
        rewrite list_lookup_insert_eq in Hr by (by eapply lookup_lt_Some). injection Hr as <-.
        by rewrite bool_decide_eq_true_2.
      * rewrite list_lookup_insert_ne in Hr by auto.
        rewrite bool_decide_eq_false_2 by done. by eapply Hold.
  - intros [= _ <-]. cbn [m_current_epoch m_manager_data]. rewrite Hn in *. split.
    + apply Forall_app. split; [done|]. apply Forall_cons_2; [simpl; lia|apply Forall_nil_2].
    + exists (length (m_manager_data s)). intros j r Hr. apply lookup_app_Some in Hr as [Hr|[Hle Hr]].
      * rewrite bool_decide_eq_false_2 by (apply lookup_lt_Some in Hr; lia). by eapply Hold.
      * apply list_lookup_singleton_Some in Hr as [Hj <-].
        by rewrite bool_decide_eq_true_2 by lia.
Qed.

(** uuid_to_rest_id and get_entry_reference compare with the persistent
    uuid even when the entry has none: the empty uuid is not in the table, and
    yet both find the first entry without a persistent uuid instead of throwing
    InvalidUuid. *)
Theorem empty_uuid_found r l epoch :
  m_persistent_uuid r = ""%string → m_is_uuid_persistent r = false →
  Forall (λ x, m_temporary_uuid x ≠ ""%string) (r :: l) →
  Forall (λ x, m_is_uuid_persistent x = true → m_persistent_uuid x ≠ ""%string) (r :: l) →
  let s := mkManager (r :: l) epoch in
  entry_exists "" s = false ∧ get_entry "" s = Throw invalid_uuid ∧
  uuid_to_rest_id "" s = Ok (m_id r) ∧ get_entry_reference "" s = Ok 0.
Proof.
  intros Hp Hb Ht Hq s.
  assert (find_entry "" s = None) as Hf.
  { apply find_if_None. apply list.Forall_forall. intros x Hx. unfold has_key.
    rewrite list.Forall_forall in Ht, Hq. specialize (Ht x Hx). specialize (Hq x Hx).
    rewrite (bool_decide_eq_false_2 (m_temporary_uuid x = _)) by done.
    destruct (m_is_uuid_persistent x); [|done].
    by rewrite bool_decide_eq_false_2 by auto. }
  unfold entry_exists, get_entry. rewrite Hf. split_and!; [done|done| |].
  - unfold uuid_to_rest_id, find_id_by_uuid, s. simpl. unfold has_any_uuid.
    by rewrite bool_decide_eq_true_2.
  - unfold get_entry_reference, s. simpl. unfold has_any_uuid. by rewrite bool_decide_eq_true_2.
Qed.
End manager.

(** ** A table of two resources *)

Definition res (tmp per : uuid) (persistent : bool) (id : Z) : @Resource Z :=
  mkResource [] Component.Manager tmp per "chassis" None persistent id "agent" 1 (Some 0%Z) 5%Z.

Definition two : @t Z := mkManager [res "t1" "p1" true 1; res "t2" "" false 2] 1.

Definition digest (j : Z) : string := if decide (j = 0)%Z then "a" else "b".

Lemma two_distinct : distinct (m_manager_data two).
Proof.
  split; [|split; [apply Forall_nil_2|done]]. apply Forall_cons_2; [|apply Forall_nil_2].
  intros u. unfold has_key. simpl. rewrite !orb_true_iff, !bool_decide_eq_true.
  intros [<-|<-]; reflexivity.
Qed.

Lemma distinct_preserved_witness :
  distinct (m_manager_data (add_entry (res "t3" "p3" true 3) two).2).
Proof.
  apply (distinct_preserved (res "t3" "p3" true 3) "t1" (λ _, Ok tt) "x" "y" two two_distinct).
  vm_compute. reflexivity.
Defined.

Lemma add_or_update_get_witness :
  get_entry "p1" (add_or_update_entry digest (res "t9" "p1" true 7) two).2 =
  Ok (touch 2 (res "t9" "p1" true 7)).
Proof.
  destruct (add_or_update_get digest (res "t9" "p1" true 7) two
    (Ok NoUpdate) (add_or_update_entry digest (res "t9" "p1" true 7) two).2) as (_ & H & _).
  - vm_compute. reflexivity.
  - exact H.
Defined.

Lemma remove_entry_exact_witness :
  ∃ s', remove_entry "t1" (λ _, Ok tt) two = (Ok tt, s') ∧ entry_exists "t1" s' = false.
Proof.
  destruct (remove_entry_exact "t1" (λ _, Ok tt) two two_distinct ltac:(done)) as (s' & H1 & H2 & _).
  exists s'. split; [exact H1|exact H2].
Defined.

Lemma epoch_separates_witness :
  ∃ i, ∀ j r, m_manager_data (add_or_update_entry digest (res "t2" "" false 9) two).2 !! j = Some r →
    was_touched_after 1 r = bool_decide (j = i).
Proof.
  apply (epoch_separates digest (res "t2" "" false 9) two
    (add_or_update_entry digest (res "t2" "" false 9) two).2 NoUpdate).
  - simpl. lia.
  - simpl. repeat (apply Forall_cons_2; [simpl; lia|]). apply Forall_nil_2.
  - vm_compute. reflexivity.
Defined.

Lemma empty_uuid_found_witness :
  uuid_to_rest_id "" (mkManager [res "t2" "" false 2] 1) = Ok 2%Z.
Proof.
  apply (empty_uuid_found (res "t2" "" false 2) [] 1); try reflexivity;
    (apply Forall_cons_2; [done|apply Forall_nil_2]).
Defined.

End GenericManager.
