(* ===== verification/PortStateManager.v ===== *)
(** [agent::pnc::state_machine::PortStateManager]
    (PSME/agent/pnc/src/state_machine/port_state_manager.cpp with
    port_state_machine.cpp): discovery of the device on a downstream port of a
    PCIe switch, as a state machine driven by the polled presence and binding of
    the port.

    The worker that carries out the actions is the class [PortStateWorkerOps]: its
    operations are computations over a state [W] that may throw.  PortStateWorker.v
    has the instance that models port_state_worker.cpp.  Log output is left out. *)

From Stdlib Require Import ZArith Lia.
From S2P Require Import Prelude.
From S2P Require Import OrdSet.
From S2P Require Import EnumStateMachine.
Import EnumStateMachine.

(** (zone, endpoint) *)
Definition ZoneEndpointPair : Type := uuid * uuid.

Class PortStateWorkerOps (W : Type) := {
  get_bridge_id : uuid → uuid → M W Z;
  ib_discovery : uuid → uuid → Z → uuid → M W unit;
  bind_to_host : uuid → uuid → M W Z;
  unbind_from_host : uuid → Z → M W unit;
  full_discovery : uuid → uuid → Z → M W unit;
  oob_discovery : uuid → uuid → M W uuid;
  remove : uuid → uuid → M W unit;
  get_device_uuid_by_dsp_port : uuid → M W uuid;
  lock_port : uuid → M W unit;
  unlock_port : uuid → M W unit;
  get_bindings_on_port : uuid → M W (list ZoneEndpointPair);
  get_enabled_endpoints_on_port : uuid → M W (list uuid);
  attach_endpoint_to_zone : uuid → uuid → uuid → M W unit;
  unbind_port : uuid → uuid → M W unit;
  is_port_in_valid_zone : uuid → M W bool;
}.

Module PortStateManager.

Inductive PortState :=
  | Initial | Init_MgmtHost | Init_NonMgmtHost | Oob_Busy | Full_Standby | NoDevice | NoDevice_Busy.

Inductive PortEvent :=
  | BindingToMgmtHostDetected | BindingToNonMgmtHostDetected | BindingNotDetected
  | DeviceFound | DeviceNotFound | DeviceUnbound | DeviceHotPlugged | DeviceHotUnplugged
  | ModelBindingNotDetected | IllegalBindingDetected.

#[global] Instance PortState_eq_dec : EqDecision PortState.
Proof. solve_decision. Defined.
#[global] Instance PortEvent_eq_dec : EqDecision PortEvent.
Proof. solve_decision. Defined.

Section manager.
Context {W : Type} `{!PortStateWorkerOps W}.
Variables (m_switch_uuid m_port_uuid : uuid).

(** What the actions can change: two members of the manager and the worker. *)
Record env := mkEnv {
  m_device_uuid : uuid;
  m_recoverable_bindings : list ZoneEndpointPair;
  m_worker : W;
}.

Definition worker {A} (m : M W A) : M env A :=
  zoom m_worker (λ w e, mkEnv (m_device_uuid e) (m_recoverable_bindings e) w) m.

Definition set_device_uuid (u : uuid) : M env unit :=
  modify (λ e, mkEnv u (m_recoverable_bindings e) (m_worker e)).
Definition set_recoverable_bindings (bs : list ZoneEndpointPair) : M env unit :=
  modify (λ e, mkEnv (m_device_uuid e) bs (m_worker e)).

(** [try { m; return true; } catch (std::exception e) { return false; }] *)
Definition guarded (m : M env unit) : M env bool :=
  try_catch (m;; mret true) (λ _, mret false).

Definition action_oob : M env bool :=
  guarded (
    u ← worker (oob_discovery m_switch_uuid m_port_uuid);
    set_device_uuid u).

Definition action_remove : M env bool :=
  guarded (
    bindings ← worker (get_bindings_on_port m_port_uuid);
    modify (λ e, mkEnv (m_device_uuid e) (oset (m_recoverable_bindings e ++ bindings)) (m_worker e));;
    worker (remove m_switch_uuid m_port_uuid);;
    set_device_uuid "").

Definition action_ib_bind_unbind : M env bool :=
  guarded (
    worker (lock_port m_port_uuid);;
    bridge_id ← worker (bind_to_host m_switch_uuid m_port_uuid);
    e ← get;
    worker (ib_discovery m_switch_uuid m_port_uuid bridge_id (m_device_uuid e));;
    worker (unbind_from_host m_switch_uuid bridge_id);;
    worker (unlock_port m_port_uuid)).

Definition action_bind : M env bool :=
  guarded (worker (bind_to_host m_switch_uuid m_port_uuid);; mret tt).

Definition action_unbind : M env bool :=
  guarded (
    bridge_id ← worker (get_bridge_id m_switch_uuid m_port_uuid);
    worker (unbind_from_host m_switch_uuid bridge_id)).

(** The second [try] of the two full discovery actions. *)
Definition read_device_uuid : M env unit :=
  try_catch (u ← worker (get_device_uuid_by_dsp_port m_port_uuid); set_device_uuid u)
            (λ _, mret tt).

Definition action_full_unbind : M env bool :=
  ok ← guarded (
    bridge_id ← worker (get_bridge_id m_switch_uuid m_port_uuid);
    worker (full_discovery m_switch_uuid m_port_uuid bridge_id);;
    worker (unbind_from_host m_switch_uuid bridge_id));
  if (ok : bool) then read_device_uuid;; mret true else mret false.

(** The inner loop over the recoverable bindings, for one endpoint. *)
Fixpoint recover_endpoint (endpoint_uuid : uuid) (bindings new_bindings : list ZoneEndpointPair)
    : M env (list ZoneEndpointPair) :=
  match bindings with
  | [] => mret new_bindings
  | binding :: bindings' =>
      if decide (binding.2 = endpoint_uuid) then
        worker (attach_endpoint_to_zone m_switch_uuid endpoint_uuid binding.1);;
        recover_endpoint endpoint_uuid bindings' new_bindings
      else recover_endpoint endpoint_uuid bindings' (new_bindings ++ [binding])
  end.

(** The loop over the endpoints. *)
Fixpoint recover_loop (endpoints : list uuid) (bindings new_bindings : list ZoneEndpointPair)
    : M env (list ZoneEndpointPair) :=
  match endpoints with
  | [] => mret new_bindings
  | endpoint_uuid :: endpoints' =>
      new_bindings' ← recover_endpoint endpoint_uuid bindings new_bindings;
      recover_loop endpoints' bindings new_bindings'
  end.

Definition action_full_bind_unbind_recover : M env bool :=
  ok ← guarded (
    bridge_id ← worker (bind_to_host m_switch_uuid m_port_uuid);
    worker (full_discovery m_switch_uuid m_port_uuid bridge_id);;
    worker (unbind_from_host m_switch_uuid bridge_id);;
    endpoints ← worker (get_enabled_endpoints_on_port m_port_uuid);
    e ← get;
    new_bindings ← recover_loop endpoints (m_recoverable_bindings e) [];
    set_recoverable_bindings new_bindings);
  if (ok : bool) then read_device_uuid;; mret true else mret false.

Definition action_bindings_recover : M env bool :=
  guarded (
    bindings ← worker (get_bindings_on_port m_port_uuid);
    for_each bindings (λ binding,
      worker (attach_endpoint_to_zone m_switch_uuid binding.2 binding.1))).

Definition action_unbind_nonmgmt : M env bool :=
  guarded (worker (unbind_port m_switch_uuid m_port_uuid)).

Definition action_unbind_nonmgmt_ib_discovery : M env bool :=
  guarded (
    worker (lock_port m_port_uuid);;
    worker (unbind_port m_switch_uuid m_port_uuid);;
    bridge_id ← worker (bind_to_host m_switch_uuid m_port_uuid);
    e ← get;
    worker (ib_discovery m_switch_uuid m_port_uuid bridge_id (m_device_uuid e));;
    worker (unbind_from_host m_switch_uuid bridge_id);;
    worker (unlock_port m_port_uuid)).

Definition wrap (f : M env bool) : @StateMachineFunction PortState PortEvent env := λ _ _ _, f.

Definition table : list (@Transition PortState PortEvent env) :=
  [mkTransition Initial BindingToMgmtHostDetected Init_MgmtHost do_nothing always;
   mkTransition Initial BindingToNonMgmtHostDetected Init_NonMgmtHost do_nothing always;
   mkTransition Initial BindingNotDetected Init_MgmtHost (wrap action_bind) always;
   mkTransition Init_MgmtHost DeviceFound Full_Standby (wrap action_full_unbind) always;
   mkTransition Init_MgmtHost DeviceNotFound NoDevice (wrap action_unbind) always;
   mkTransition Init_NonMgmtHost DeviceFound Oob_Busy (wrap action_oob) always;
   mkTransition Init_NonMgmtHost DeviceNotFound NoDevice_Busy do_nothing always;
   mkTransition Oob_Busy DeviceUnbound Full_Standby (wrap action_ib_bind_unbind) always;
   mkTransition NoDevice_Busy DeviceUnbound NoDevice do_nothing always;
   mkTransition Oob_Busy DeviceHotUnplugged NoDevice (wrap action_remove) always;
   mkTransition Full_Standby DeviceHotUnplugged NoDevice (wrap action_remove) always;
   mkTransition NoDevice_Busy DeviceHotPlugged Oob_Busy (wrap action_oob) always;
   mkTransition NoDevice DeviceHotPlugged Full_Standby (wrap action_full_bind_unbind_recover) always;
   mkTransition Full_Standby ModelBindingNotDetected Full_Standby (wrap action_bindings_recover) always;
   mkTransition Full_Standby IllegalBindingDetected Full_Standby (wrap action_unbind_nonmgmt) always;
   mkTransition Oob_Busy IllegalBindingDetected Full_Standby (wrap action_unbind_nonmgmt_ib_discovery) always].

Record t := mkManager {
  m_sm : @EnumStateMachine.t PortState PortEvent env;
  m_prev_bound : bool;
  m_prev_present : bool;
  m_env : env;
}.

(** The constructor. *)
Definition manager0 (w : W) : t := mkManager (mkMachine Initial table) false false (mkEnv "" [] w).

Definition state (s : t) : PortState := get_current_state (m_sm s).

Definition is_initialized (s : t) : bool := bool_decide (state s ≠ Initial).

Definition get_device_uuid (s : t) : uuid := m_device_uuid (m_env s).

Definition is_device_present (s : t) : bool :=
  (bool_decide (state s = Oob_Busy) || bool_decide (state s = Full_Standby))
  && bool_decide (get_device_uuid s ≠ "").

Definition sm_send_event (ev : PortEvent) : M t bool :=
  zoom (λ s, (m_sm s, m_env s))
       (λ me s, mkManager me.1 (m_prev_bound s) (m_prev_present s) me.2) (send_event ev).

Definition on_worker {A} (m : M W A) : M t A :=
  zoom m_env (λ e s, mkManager (m_sm s) (m_prev_bound s) (m_prev_present s) e) (worker m).

Definition set_prev_bound (b : bool) : M t unit :=
  modify (λ s, mkManager (m_sm s) b (m_prev_present s) (m_env s)).
Definition set_prev_present (b : bool) : M t unit :=
  modify (λ s, mkManager (m_sm s) (m_prev_bound s) b (m_env s)).

Definition init_binding (is_bound is_bound_to_host : bool) : M t unit :=
  set_prev_bound is_bound;;
  sm_send_event (if is_bound then
                   if is_bound_to_host then BindingToMgmtHostDetected else BindingToNonMgmtHostDetected
                 else BindingNotDetected);;
  mret tt.

Definition init_presence (is_present : bool) : M t unit :=
  set_prev_present is_present;;
  sm_send_event (if is_present then DeviceFound else DeviceNotFound);;
  mret tt.

Definition generate_events (is_present is_bound is_bound_to_host is_being_erased : bool) : M t unit :=
  let is_used := is_bound || is_being_erased in
  s ← get;
  (if negb is_used && m_prev_bound s then sm_send_event DeviceUnbound;; mret tt
   else if bool_decide (m_prev_present s ≠ is_present) then
     sm_send_event (if is_present then DeviceHotPlugged else DeviceHotUnplugged);; mret tt
   else
     (* the operands of && are evaluated from left to right *)
     c1 ← (if negb is_used && negb is_bound_to_host && is_present
           then on_worker (is_port_in_valid_zone m_port_uuid) else mret false);
     if (c1 : bool) then sm_send_event ModelBindingNotDetected;; mret tt
     else
       c2 ← (if is_bound && negb is_bound_to_host && negb is_being_erased && is_present
             then v ← on_worker (is_port_in_valid_zone m_port_uuid); mret (negb v) else mret false);
       if (c2 : bool) then sm_send_event IllegalBindingDetected;; mret tt
       else mret tt);;
  set_prev_present is_present;;
  set_prev_bound is_used.

Definition update (is_present is_bound is_bound_to_host is_being_erased : bool) : M t unit :=
  s ← get;
  if negb (is_initialized s) then
    init_binding is_bound is_bound_to_host;;
    init_presence is_present
  else generate_events is_present is_bound is_bound_to_host is_being_erased.

(** ** One event *)

Lemma port_table_unguarded : Forall unguarded table.
Proof. unfold table. repeat (apply Forall_cons_2; [done|]). apply Forall_nil_2. Qed.

(** The table as a function. *)
Definition step (s : PortState) (ev : PortEvent) : option (M env bool * PortState) :=
  match s, ev with
  | Initial, BindingToMgmtHostDetected => Some (mret true, Init_MgmtHost)
  | Initial, BindingToNonMgmtHostDetected => Some (mret true, Init_NonMgmtHost)
  | Initial, BindingNotDetected => Some (action_bind, Init_MgmtHost)
  | Init_MgmtHost, DeviceFound => Some (action_full_unbind, Full_Standby)
  | Init_MgmtHost, DeviceNotFound => Some (action_unbind, NoDevice)
  | Init_NonMgmtHost, DeviceFound => Some (action_oob, Oob_Busy)
  | Init_NonMgmtHost, DeviceNotFound => Some (mret true, NoDevice_Busy)
  | Oob_Busy, DeviceUnbound => Some (action_ib_bind_unbind, Full_Standby)
  | NoDevice_Busy, DeviceUnbound => Some (mret true, NoDevice)
  | Oob_Busy, DeviceHotUnplugged => Some (action_remove, NoDevice)
  | Full_Standby, DeviceHotUnplugged => Some (action_remove, NoDevice)
  | NoDevice_Busy, DeviceHotPlugged => Some (action_oob, Oob_Busy)
  | NoDevice, DeviceHotPlugged => Some (action_full_bind_unbind_recover, Full_Standby)
  | Full_Standby, ModelBindingNotDetected => Some (action_bindings_recover, Full_Standby)
  | Full_Standby, IllegalBindingDetected => Some (action_unbind_nonmgmt, Full_Standby)
  | Oob_Busy, IllegalBindingDetected => Some (action_unbind_nonmgmt_ib_discovery, Full_Standby)
  | _, _ => None
  end.

Lemma port_row_step s ev :
  row s ev table =
  match step s ev with
  | Some (a, s') => Some (mkTransition s ev s' (wrap a) always)
  | None => None
  end.
Proof. by destruct s, ev. Qed.

Definition with_machine (st : PortState) (e : env) (s : t) : t :=
  mkManager (mkMachine st table) (m_prev_bound s) (m_prev_present s) e.

Lemma sm_send_event_step ev s :
  m_transition_table (m_sm s) = table →
  sm_send_event ev s =
  match step (state s) ev with
  | None => (Ok true, s)
  | Some (a, st') =>
      match a (m_env s) with
      | (Ok true, e') => (Ok true, with_machine st' e' s)
      | (r, e') => (r, with_machine (state s) e' s)
      end
  end.
Proof.
  intros Ht. unfold sm_send_event, zoom.
  rewrite send_event_unguarded by (cbn; rewrite Ht; apply port_table_unguarded).
  destruct s as [[st tb] b p e]. unfold state, get_current_state, with_machine.
  cbn [fst snd m_sm m_env m_current_state m_transition_table m_prev_bound m_prev_present] in *.
  subst tb. rewrite port_row_step. destruct (step st ev) as [[a s']|]; [|done].
  unfold take, do_transition, wrap. cbn. by destruct (a e) as [[[]|] e'].
Qed.

(** ** What the actions do to the device identifier *)

Definition keeps_device {A} (m : M env A) : Prop :=
  ∀ e, m_device_uuid (m e).2 = m_device_uuid e.

Lemma keeps_worker {A} (m : M W A) : keeps_device (worker m).
Proof. intros e. unfold worker, zoom. by destruct (m (m_worker e)). Qed.

Lemma keeps_ret {A} (a : A) : keeps_device (mret a).
Proof. done. Qed.

Lemma keeps_bind {A B} (m : M env A) (f : A → M env B) :
  keeps_device m → (∀ a, keeps_device (f a)) → keeps_device (m ≫= f).
Proof.
  intros Hm Hf e. unfold mbind, M_bind. specialize (Hm e).
  destruct (m e) as [[a|x] e1]; simpl in *; [|done]. by rewrite Hf.
Qed.

Lemma keeps_get : keeps_device (@get env).
Proof. done. Qed.

Lemma keeps_recoverable bs : keeps_device (set_recoverable_bindings bs).
Proof. done. Qed.

Lemma keeps_guarded (m : M env unit) : keeps_device m → keeps_device (guarded m).
Proof.
  intros Hm e. unfold guarded, try_catch, mbind, M_bind. specialize (Hm e).
  by destruct (m e) as [[a|x] e1].
Qed.

Lemma keeps_for_each {A} (l : list A) (f : A → M env unit) :
  (∀ x, keeps_device (f x)) → keeps_device (for_each l f).
Proof.
  intros Hf. induction l as [|x l IH]; [apply keeps_ret|]. apply keeps_bind; auto.
Qed.

Lemma keeps_recover_endpoint ep bs acc : keeps_device (recover_endpoint ep bs acc).
Proof.
  revert acc. induction bs as [|b bs IH]; intros acc; simpl; [apply keeps_ret|].
  case_decide; [|apply IH]. apply keeps_bind; [apply keeps_worker|auto].
Qed.

Lemma keeps_recover_loop eps bs acc : keeps_device (recover_loop eps bs acc).
Proof.
  revert acc. induction eps as [|ep eps IH]; intros acc; simpl; [apply keeps_ret|].
  apply keeps_bind; [apply keeps_recover_endpoint|auto].
Qed.

Hint Resolve keeps_worker keeps_ret keeps_bind keeps_get keeps_recoverable keeps_guarded
  keeps_for_each keeps_recover_loop : psme.

(** A guarded sequence that ends by an assignment to the identifier: nothing is
    assigned when it fails. *)
Lemma guarded_set {A} (m : M env A) (f : A → uuid) e :
  keeps_device m →
  match guarded (m ≫= λ a, set_device_uuid (f a)) e with
  | (Ok false, e') => m_device_uuid e' = m_device_uuid e
  | (Ok true, e') => ∃ a e1, m e = (Ok a, e1) ∧ m_device_uuid e' = f a
  | (Throw _, _) => False
  end.
Proof.
  intros Hm. unfold guarded, try_catch, mbind, M_bind. specialize (Hm e).
  destruct (m e) as [[a|x] e1]; simpl; [|done]. by exists a, e1.
Qed.

(** The states in which no device is known. *)
Definition bare (s : PortState) : bool :=
  match s with Oob_Busy | Full_Standby => false | _ => true end.

Definition no_stale_device (st : PortState) (e : env) : Prop :=
  bare st = true → m_device_uuid e = "".

(** An action taken from [st] to [st']. *)
Definition action_ok (st st' : PortState) (a : M env bool) : Prop :=
  ∀ e, no_stale_device st e →
    match a e with
    | (Ok true, e') => no_stale_device st' e'
    | (Ok false, e') => no_stale_device st e'
    | (Throw _, _) => False
    end.

Lemma guarded_no_throw m e : ∃ b e', guarded m e = (Ok b, e').
Proof.
  unfold guarded, try_catch, mbind, M_bind.
  destruct (m e) as [[a|x] e1]; simpl; eauto.
Qed.

Lemma action_ok_keeps st st' m :
  keeps_device m → (bare st' = true → bare st = true) → action_ok st st' (guarded m).
Proof.
  intros Hm Hb e He. pose proof (keeps_guarded m Hm e) as Hk.
  destruct (guarded_no_throw m e) as (b & e' & Hg). rewrite Hg in Hk |- *. simpl in Hk.
  unfold no_stale_device in *. destruct b; rewrite Hk; auto.
Qed.

(** The two full discovery actions. *)
Lemma action_ok_full st m :
  keeps_device m →
  action_ok st Full_Standby (ok ← guarded m; if (ok : bool) then read_device_uuid;; mret true else mret false).
Proof.
  intros Hm e He. pose proof (keeps_guarded m Hm e) as Hk.
  destruct (guarded_no_throw m e) as (b & e' & Hg). unfold mbind, M_bind. rewrite Hg in Hk |- *.
  destruct b.
  - unfold read_device_uuid, try_catch, mbind, M_bind.
    destruct (worker _ e') as [[u|x] e2]; simpl; intros [=].
  - unfold no_stale_device in *. simpl in *. rewrite Hk. auto.
Qed.

Lemma step_ok st ev a st' : step st ev = Some (a, st') → action_ok st st' a.
Proof.
  assert (∀ st1 st2, (bare st2 = true → bare st1 = true) → action_ok st1 st2 (mret true)) as Hret.
  { intros st1 st2 Hb e He. unfold no_stale_device in *. simpl. auto. }
  assert (∀ st1 st2, bare st2 = false → action_ok st1 st2 action_oob) as Hoob.
  { intros st1 st2 Hb e He. pose proof (guarded_set (worker (oob_discovery m_switch_uuid m_port_uuid))
      id e ltac:(auto with psme)) as H. unfold action_oob.
    change (λ a0, set_device_uuid (id a0)) with (λ a0 : uuid, set_device_uuid a0) in H.
    destruct (guarded _ e) as [[[]|] e']; [| |done]; unfold no_stale_device in *.
    - rewrite Hb. done.
    - rewrite H. exact He. }
  assert (∀ st1 st2, bare st1 = false → action_ok st1 st2 action_remove) as Hrem.
  { intros st1 st2 Hb e _. unfold action_remove, guarded, try_catch. run_monad. unfold no_stale_device.
    destruct (worker _ e) as [[bs|] e1]; simpl; [|by rewrite Hb].
    destruct (worker _ _) as [[u|] e2]; simpl; [done|by rewrite Hb]. }
  intros Hs. destruct st, ev; simpl in Hs; try done; injection Hs as <- <-; auto;
    try (apply action_ok_keeps; [|simpl; tauto]; auto 20 with psme; fail);
    try (apply action_ok_full; auto 20 with psme).
Qed.

(** ** The invariant *)

Record inv (s : t) : Prop := {
  inv_table : m_transition_table (m_sm s) = table;
  inv_device : no_stale_device (state s) (m_env s);
}.

Lemma sm_send_event_total ev s :
  inv s → ∃ b s', sm_send_event ev s = (Ok b, s') ∧ inv s' ∧
    m_prev_bound s' = m_prev_bound s ∧ m_prev_present s' = m_prev_present s.
Proof.
  intros [Ht Hd]. rewrite sm_send_event_step by done.
  destruct (step (state s) ev) as [[a st']|] eqn:Es; [|by exists true, s].
  pose proof (step_ok _ _ _ _ Es (m_env s) Hd) as Ha.
  destruct (a (m_env s)) as [[[]|] e']; [| |done]; do 2 eexists; (split; [done|]); by split.
Qed.

Lemma preserves_send ev : preserves inv (sm_send_event ev).
Proof. intros s Hs. destruct (sm_send_event_total ev s Hs) as (b & s' & -> & Hi & _). done. Qed.

Lemma preserves_on_worker {A} (m : M W A) : preserves inv (on_worker m).
Proof.
  intros s [Ht Hd]. unfold on_worker, zoom.
  pose proof (keeps_worker m (m_env s)) as Hk. destruct (worker m (m_env s)) as [r e'].
  split; [done|]. unfold no_stale_device in *. simpl in *. rewrite Hk. exact Hd.
Qed.

Lemma preserves_set_prev_bound b : preserves inv (set_prev_bound b).
Proof. by intros s [Ht Hd]. Qed.
Lemma preserves_set_prev_present b : preserves inv (set_prev_present b).
Proof. by intros s [Ht Hd]. Qed.

Hint Resolve preserves_send preserves_on_worker preserves_set_prev_bound
  preserves_set_prev_present : psme.

Lemma preserves_update p b h er : preserves inv (update p b h er).
Proof. unfold update, init_binding, init_presence, generate_events. auto 25 with psme. Qed.

(** One poll of the port: (present, bound, bound to host, being erased). *)
Definition poll : Type := bool * bool * bool * bool.

Definition run_poll (s : t) (q : poll) : t :=
  let '(p, b, h, er) := q in (update p b h er s).2.

Definition run_polls (qs : list poll) (s : t) : t := foldl run_poll s qs.

Lemma run_polls_inv (I : t → Prop) qs s :
  (∀ p b h er, preserves I (update p b h er)) → I s → I (run_polls qs s).
Proof.
  intros Hu. revert s. induction qs as [|[[[p b] h] er] qs IH]; intros s Hs; [done|].
  apply IH. by apply Hu.
Qed.

Lemma manager0_inv w : inv (manager0 w).
Proof. by split. Qed.

Lemma run_polls_manager0 w qs : inv (run_polls qs (manager0 w)).
Proof. apply run_polls_inv; [apply preserves_update|apply manager0_inv]. Qed.

(** Whatever the worker does, after any sequence of polls the manager
    holds a device identifier only in the states Oob_Busy and Full_Standby, so
    that is_device_present is true exactly when get_device_uuid is not empty. *)
Theorem device_uuid_iff_present w qs :
  let s := run_polls qs (manager0 w) in
  is_device_present s = true ↔ get_device_uuid s ≠ "".
Proof.
  intros s. destruct (run_polls_manager0 w qs) as [_ Hd]. fold s in Hd.
  unfold is_device_present, get_device_uuid, no_stale_device, bare in *.
  rewrite andb_true_iff, orb_true_iff, !bool_decide_eq_true.
  split; [tauto|]. intros Hne. split; [|done]. destruct (state s); auto; by destruct Hne, Hd.
Qed.

(** ** A failed initialisation *)

Definition stuck (s : t) : Prop :=
  m_transition_table (m_sm s) = table ∧ (state s = Init_MgmtHost ∨ state s = Init_NonMgmtHost).

(** The events generate_events sends. *)
Definition update_event (ev : PortEvent) : Prop :=
  ev ∈ [DeviceUnbound; DeviceHotPlugged; DeviceHotUnplugged; ModelBindingNotDetected; IllegalBindingDetected].

Lemma stuck_step s ev : stuck s → update_event ev → step (state s) ev = None.
Proof.
  intros [_ [->| ->]]; unfold update_event; rewrite !elem_of_cons, elem_of_nil;
    intuition; by subst.
Qed.

Lemma stuck_update s0 d p b h er :
  preserves (λ s, stuck s ∧ state s = s0 ∧ m_device_uuid (m_env s) = d) (update p b h er).
Proof.
  set (I := λ s, stuck s ∧ state s = s0 ∧ m_device_uuid (m_env s) = d).
  assert (∀ ev, update_event ev → preserves I (sm_send_event ev)) as Hsend.
  { intros ev Hev s Hs. destruct Hs as (Hs & Hrest). rewrite sm_send_event_step by apply Hs.
    by rewrite stuck_step. }
  assert (∀ A (m : M W A), preserves I (on_worker m)) as Hw.
  { intros A m s (Hs & Hst & Hd). unfold on_worker, zoom.
    pose proof (keeps_worker m (m_env s)) as Hk. destruct (worker m (m_env s)) as [r e'].
    split_and!; [done|done|]. by rewrite <- Hd. }
  assert (preserves I (set_prev_bound (b || er)) ∧ preserves I (set_prev_present p)) as [Hb Hp]
    by (split; by intros s Hs).
  assert (preserves I (generate_events p b h er)) as Hg.
  { unfold update_event in Hsend. unfold generate_events. destruct p; auto 25 with psme;
      repeat first [apply preserves_bind; [|intros ?]|apply preserves_if|apply Hsend; set_solver|eauto with psme]. }
  intros s Hs. unfold update, mbind, M_bind, get. unfold is_initialized.
  rewrite bool_decide_eq_true_2 by (destruct Hs as ([_ [Hs|Hs]] & _); by rewrite Hs).
  by apply Hg.
Qed.

(** When the second initialisation event fails (in Init_MgmtHost or
    Init_NonMgmtHost), no later poll, whatever it reports and whatever the
    worker does, moves the machine again or discovers a device. *)
Theorem failed_init_is_final s qs :
  m_transition_table (m_sm s) = table →
  state s = Init_MgmtHost ∨ state s = Init_NonMgmtHost →
  state (run_polls qs s) = state s ∧ get_device_uuid (run_polls qs s) = get_device_uuid s ∧
  is_device_present (run_polls qs s) = false.
Proof.
  intros Ht Hst.
  destruct (run_polls_inv (λ s', stuck s' ∧ state s' = state s ∧
      m_device_uuid (m_env s') = m_device_uuid (m_env s)) qs s) as (H1 & H2 & H3).
  - intros. apply stuck_update.
  - by split_and!.
  - split_and!; [done|done|]. unfold is_device_present. rewrite H2.
    destruct Hst as [-> | ->]; done.
Qed.

(** ** A worker whose operations succeed *)

Definition returns {S A} (m : M S A) : Prop := ∀ s, ∃ a s', m s = (Ok a, s').

Record reliable : Prop := {
  rel_get_bridge_id sw p : returns (get_bridge_id sw p);
  rel_ib_discovery sw p b d : returns (ib_discovery sw p b d);
  rel_bind_to_host sw p : returns (bind_to_host sw p);
  rel_unbind_from_host sw b : returns (unbind_from_host sw b);
  rel_full_discovery sw p b : returns (full_discovery sw p b);
  rel_oob_discovery sw p : returns (oob_discovery sw p);
  rel_remove sw p : returns (remove sw p);
  rel_lock_port p : returns (lock_port p);
  rel_unlock_port p : returns (unlock_port p);
  rel_get_bindings_on_port p : returns (get_bindings_on_port p);
  rel_get_enabled_endpoints_on_port p : returns (get_enabled_endpoints_on_port p);
  rel_attach_endpoint_to_zone sw e z : returns (attach_endpoint_to_zone sw e z);
  rel_unbind_port sw p : returns (unbind_port sw p);
  rel_is_port_in_valid_zone p : returns (is_port_in_valid_zone p);
}.

Lemma returns_ret {S A} (a : A) : returns (S := S) (mret a).
Proof. intros s. by exists a, s. Qed.
Lemma returns_get {S} : returns (@get S).
Proof. intros s. by exists s, s. Qed.
Lemma returns_modify {S} (f : S → S) : returns (modify f).
Proof. intros s. by exists tt, (f s). Qed.
Lemma returns_bind {S A B} (m : M S A) (f : A → M S B) :
  returns m → (∀ a, returns (f a)) → returns (m ≫= f).
Proof.
  intros Hm Hf s. destruct (Hm s) as (a & s1 & Hs). destruct (Hf a s1) as (b & s2 & Hs2).
  exists b, s2. unfold mbind, M_bind. by rewrite Hs.
Qed.
Lemma returns_worker {A} (m : M W A) : returns m → returns (worker m).
Proof.
  intros Hm e. destruct (Hm (m_worker e)) as (a & w & Hw). unfold worker, zoom. rewrite Hw. eauto.
Qed.
Lemma returns_for_each {S A} (l : list A) (f : A → M S unit) :
  (∀ x, returns (f x)) → returns (for_each l f).
Proof.
  intros Hf. induction l as [|x l IH]; [apply returns_ret|]. apply returns_bind; auto.
Qed.

Section reliable.
Hypothesis R : reliable.

Hint Resolve rel_get_bridge_id rel_ib_discovery rel_bind_to_host rel_unbind_from_host
  rel_full_discovery rel_oob_discovery rel_remove rel_lock_port rel_unlock_port
  rel_get_bindings_on_port rel_get_enabled_endpoints_on_port rel_attach_endpoint_to_zone
  rel_unbind_port rel_is_port_in_valid_zone
  returns_ret returns_get returns_modify returns_bind returns_worker returns_for_each : psme.

Lemma returns_recover_loop eps bs acc : returns (recover_loop eps bs acc).
Proof using R.
  assert (∀ ep acc, returns (recover_endpoint ep bs acc)) as He.
  { intros ep. induction bs as [|b bs' IH]; intros acc'; simpl; [apply returns_ret|].
    case_decide; auto with psme. }
  revert acc. induction eps as [|ep eps IH]; intros acc; simpl; auto with psme.
Qed.

Lemma guarded_true m e : returns m → ∃ e', guarded m e = (Ok true, e').
Proof.
  intros Hm. destruct (Hm e) as ([] & e' & He). exists e'.
  unfold guarded, try_catch, mbind, M_bind. by rewrite He.
Qed.

Lemma full_true m e :
  returns m →
  ∃ e', (ok ← guarded m; if (ok : bool) then read_device_uuid;; mret true else mret false) e = (Ok true, e').
Proof.
  intros Hm. destruct (guarded_true m e Hm) as (e1 & He). unfold mbind, M_bind. rewrite He.
  unfold read_device_uuid, try_catch, mbind, M_bind.
  destruct (worker _ e1) as [[u|x] e2]; simpl; eauto.
Qed.

Lemma step_true st ev a st' e : step st ev = Some (a, st') → ∃ e', a e = (Ok true, e').
Proof using R.
  pose proof returns_recover_loop.
  intros Hs. destruct st, ev; simpl in Hs; try done; injection Hs as <- <-;
    try (by eexists);
    try (apply guarded_true; unfold set_device_uuid; auto 25 with psme; fail);
    apply full_true; unfold set_recoverable_bindings; auto 25 with psme.
Qed.

Definition next (st : PortState) (ev : PortEvent) : PortState :=
  match step st ev with Some (_, st') => st' | None => st end.

Lemma send_next ev s :
  m_transition_table (m_sm s) = table →
  ∃ e', sm_send_event ev s = (Ok true, with_machine (next (state s) ev) e' s).
Proof using R.
  intros Ht. rewrite sm_send_event_step by done. unfold next.
  destruct (step (state s) ev) as [[a st']|] eqn:Es.
  - destruct (step_true _ _ _ _ (m_env s) Es) as (e' & ->). by exists e'.
  - exists (m_env s). destruct s as [[st tb] ???]. simpl in Ht. by rewrite Ht.
Qed.

(** The machine has been initialised, and its state says whether a device is
    present. *)
Definition settled_state (st : PortState) : bool :=
  match st with Initial | Init_MgmtHost | Init_NonMgmtHost => false | _ => true end.

Definition settled (s : t) : Prop :=
  m_transition_table (m_sm s) = table ∧ settled_state (state s) = true.

Definition tracks (s : t) : Prop := bare (state s) = negb (m_prev_present s).

(** A poll in which the port turns out to be unbound and its presence changed. *)
Definition both_changed (p b er : bool) (s : t) : bool :=
  negb (b || er) && m_prev_bound s && negb (eqb p (m_prev_present s)).

Lemma on_worker_returns {A} (m : M W A) s :
  returns m → ∃ a e', on_worker m s = (Ok a, mkManager (m_sm s) (m_prev_bound s) (m_prev_present s) e').
Proof.
  intros Hm. destruct (returns_worker m Hm (m_env s)) as (a & e' & He).
  exists a, e'. unfold on_worker, zoom. by rewrite He.
Qed.

(** The event of a poll; the two synchronisation events come last. *)
Definition poll_event (p b er : bool) (s : t) (ev : option PortEvent) : Prop :=
  if negb (b || er) && m_prev_bound s then ev = Some DeviceUnbound
  else if negb (eqb p (m_prev_present s)) then
    ev = Some (if p then DeviceHotPlugged else DeviceHotUnplugged)
  else ev = None ∨ ev = Some ModelBindingNotDetected ∨ ev = Some IllegalBindingDetected.

Definition next_opt (st : PortState) (ev : option PortEvent) : PortState :=
  match ev with Some ev => next st ev | None => st end.

Lemma generate_events_next p b h er s :
  m_transition_table (m_sm s) = table →
  ∃ ev e', poll_event p b er s ev ∧
    generate_events p b h er s =
      (Ok tt, mkManager (mkMachine (next_opt (state s) ev) table) (b || er) p e').
Proof using R.
  intros Ht. unfold generate_events, poll_event. cbv zeta.
  assert (∀ ev s1, m_transition_table (m_sm s1) = table → state s1 = state s →
    ∃ e', ((sm_send_event ev;; mret tt);; set_prev_present p;; set_prev_bound (b || er)) s1 =
      (Ok tt, mkManager (mkMachine (next_opt (state s) (Some ev)) table) (b || er) p e')) as Hsend.
  { intros ev s1 Ht1 Hs1. destruct (send_next ev s1 Ht1) as (e' & He). exists e'.
    unfold mbind, M_bind. rewrite He. simpl. by rewrite Hs1. }
  assert (∀ s1, m_transition_table (m_sm s1) = table → state s1 = state s →
    (set_prev_present p;; set_prev_bound (b || er)) s1 =
      (Ok tt, mkManager (mkMachine (state s) table) (b || er) p (m_env s1))) as Hnone.
  { intros [[st tb] ? ? e] Ht1 Hs1. unfold state, get_current_state in *. simpl in *.
    rewrite Ht1 in *. cbn in Hs1 |- *. by rewrite Hs1. }
  set (G := λ s1 : t, m_transition_table (m_sm s1) = table ∧ state s1 = state s).
  assert (∀ s1, G s1 →
    ∃ v s2, on_worker (is_port_in_valid_zone m_port_uuid) s1 = (Ok v, s2) ∧ G s2) as Hw.
  { intros s1 Hs1. destruct (on_worker_returns (is_port_in_valid_zone m_port_uuid) s1) as (v & e' & Hv);
      [apply R|]. by eexists _, _. }
  unfold mbind, M_bind, get in *.
  destruct (negb (b || er) && m_prev_bound s).
  { destruct (Hsend DeviceUnbound s Ht eq_refl) as (e' & He). by exists (Some DeviceUnbound), e'. }
  assert (bool_decide (m_prev_present s ≠ p) = negb (eqb p (m_prev_present s))) as ->
    by (by destruct p, (m_prev_present s)).
  destruct (negb (eqb p (m_prev_present s))).
  { destruct (Hsend (if p then DeviceHotPlugged else DeviceHotUnplugged) s Ht eq_refl) as (e' & He).
    eexists _, e'. split; [done|]. exact He. }
  cbn beta. match goal with |- context [if ?g then on_worker _ else _] => set (g1 := g) end.
  assert (∃ c1 s1, (if g1 then on_worker (is_port_in_valid_zone m_port_uuid) else mret false) s =
    (Ok c1, s1) ∧ G s1) as (c1 & s1 & -> & Hs1).
  { destruct g1; [by apply Hw|by exists false, s]. }
  destruct c1.
  { destruct (Hsend ModelBindingNotDetected s1) as (e' & He); [apply Hs1..|].
    exists (Some ModelBindingNotDetected), e'. split; [by auto|]. exact He. }
  destruct (b && negb h && negb er && p).
  - destruct (Hw s1 Hs1) as (v & s2 & -> & Hs2). destruct v; cbn [mret M_ret negb].
    + exists None, (m_env s2). split; [by auto|]. apply Hnone; apply Hs2.
    + destruct (Hsend IllegalBindingDetected s2) as (e' & He); [apply Hs2..|].
      exists (Some IllegalBindingDetected), e'. split; [by auto|]. exact He.
  - cbn [mret M_ret]. exists None, (m_env s1). split; [by auto|]. apply Hnone; apply Hs1.
Qed.

Lemma next_opt_settled p b er s ev :
  settled_state (state s) = true → poll_event p b er s ev →
  settled_state (next_opt (state s) ev) = true ∧
  (bare (next_opt (state s) ev) =
   if negb (b || er) && m_prev_bound s then bare (state s)
   else if negb (eqb p (m_prev_present s)) then negb p
   else bare (state s)).
Proof.
  unfold poll_event. intros Hs.
  destruct (negb (b || er) && m_prev_bound s), (negb (eqb p (m_prev_present s))), p;
    intros Hev; destruct_or?; subst ev; by destruct (state s).
Qed.

(** C26: with a worker whose operations succeed, the first poll leads to a settled state
    that says whether a device is present; and from a settled state that says so, the
    next poll leads to one that says so exactly unless the port is found unbound and its
    presence has changed as well: then only DeviceUnbound is sent, the new presence is
    recorded as handled, and the state is wrong. Nothing is said about the polls after
    that, which start from a wrong state. *)
Theorem presence_tracked_unless_unbound p b h er s :
  m_transition_table (m_sm s) = table →
  (state s = Initial →
     ∃ s', update p b h er s = (Ok tt, s') ∧ settled s' ∧ tracks s' ∧ m_prev_present s' = p) ∧
  (settled s → tracks s →
     ∃ s', update p b h er s = (Ok tt, s') ∧ settled s' ∧ m_prev_present s' = p ∧
       (tracks s' ↔ both_changed p b er s = false)).
Proof using R.
  intros Ht. split.
  - intros Hi. unfold update, init_binding, init_presence, mbind, M_bind, get, is_initialized.
    rewrite Hi. simpl.
    set (ev := if b then _ else _).
    set (s0 := mkManager (m_sm s) b (m_prev_present s) (m_env s)).
    destruct (send_next ev s0 Ht) as (e1 & ->). cbn [mret M_ret].
    set (ev2 := if p then DeviceFound else DeviceNotFound).
    match goal with |- context [sm_send_event ev2 ?x] => destruct (send_next ev2 x) as (e2 & ->); [done|] end.
    eexists. split; [reflexivity|]. change (state s0) with (state s). rewrite Hi.
    subst ev ev2. unfold settled, tracks, state. destruct b, h, p; simpl; done.
  - intros (_ & Hst) Htr. destruct (generate_events_next p b h er s Ht) as (ev & e' & Hev & He).
    unfold update, mbind, M_bind, get, is_initialized.
    rewrite bool_decide_eq_true_2 by (by destruct (state s)).
    simpl. rewrite He. eexists. split; [done|].
    destruct (next_opt_settled p b er s ev Hst Hev) as [H1 H2]. split; [by split|]. split; [done|].
    unfold tracks, both_changed in *. unfold state at 1.
    cbn [m_sm get_current_state m_current_state m_prev_present]. rewrite H2, Htr.
    by destruct (negb (b || er) && m_prev_bound s), p, (m_prev_present s).
Qed.

End reliable.

(** ** Recovering the bindings after a hot plug *)

(** The attachments the two loops make, in order, and the list they leave. *)
Definition attachments (eps : list uuid) (bs : list ZoneEndpointPair) : list ZoneEndpointPair :=
  eps ≫= λ ep, filter (λ b, b.2 = ep) bs.
Definition leftover (eps : list uuid) (bs : list ZoneEndpointPair) : list ZoneEndpointPair :=
  eps ≫= λ ep, filter (λ b, b.2 ≠ ep) bs.

Definition attach (b : ZoneEndpointPair) : M env unit :=
  worker (attach_endpoint_to_zone m_switch_uuid b.2 b.1).

Lemma recover_endpoint_spec ep bs acc e :
  recover_endpoint ep bs acc e =
  (for_each (filter (λ b, b.2 = ep) bs) attach ≫= λ _, mret (acc ++ filter (λ b, b.2 ≠ ep) bs)) e.
Proof.
  revert acc e. induction bs as [|b bs IH]; intros acc e.
  { cbn. by rewrite app_nil_r. }
  cbn [recover_endpoint]. rewrite !filter_cons. destruct (decide (b.2 = ep)) as [Hb|Hb].
  - rewrite (decide_False (P := b.2 ≠ ep)) by tauto. cbn [for_each].
    assert (attach b = worker (attach_endpoint_to_zone m_switch_uuid ep b.1)) as ->
      by (unfold attach; by rewrite Hb).
    unfold mbind, M_bind in *. destruct (worker _ e) as [[u|x] e1]; [apply IH|done].
  - rewrite (decide_True (P := b.2 ≠ ep)) by done. rewrite IH, <- app_assoc. done.
Qed.

Lemma recover_loop_spec eps bs acc e :
  recover_loop eps bs acc e =
  (for_each (attachments eps bs) attach ≫= λ _, mret (acc ++ leftover eps bs)) e.
Proof.
  revert acc e. induction eps as [|ep eps IH]; intros acc e.
  { cbn. by rewrite app_nil_r. }
  cbn [recover_loop].
  change (attachments (ep :: eps) bs) with (filter (λ b, b.2 = ep) bs ++ attachments eps bs).
  change (leftover (ep :: eps) bs) with (filter (λ b, b.2 ≠ ep) bs ++ leftover eps bs).
  unfold mbind, M_bind. rewrite for_each_app, recover_endpoint_spec. unfold mbind, M_bind.
  destruct (for_each _ attach e) as [[u|x] e1]; [|done].
  cbn [mret M_ret]. rewrite IH, <- app_assoc. done.
Qed.

(** The recovery loops of action_full_bind_unbind_recover attach exactly
    the recoverable bindings of the enabled endpoints, stopping at the first
    failure; afterwards a binding is still recoverable exactly when some enabled
    endpoint is not its own: with no enabled endpoint every binding is dropped,
    with one the recovered ones are dropped and the others kept once, and with
    two different ones the recovered bindings are kept too. *)
Theorem recovery_attaches eps bs e :
  recover_loop eps bs [] e =
    (for_each (attachments eps bs) attach ≫= λ _, mret (leftover eps bs)) e ∧
  (∀ b, b ∈ attachments eps bs ↔ b ∈ bs ∧ b.2 ∈ eps) ∧
  (∀ b, b ∈ leftover eps bs ↔ b ∈ bs ∧ ∃ ep, ep ∈ eps ∧ ep ≠ b.2) ∧
  leftover [] bs = [] ∧
  (∀ ep, leftover [ep] bs = filter (λ b, b.2 ≠ ep) bs).
Proof.
  split_and!.
  - apply recover_loop_spec.
  - intros b. unfold attachments. rewrite list_elem_of_bind. split.
    + intros (ep & [-> Hb]%list_elem_of_filter & Hep). done.
    + intros [Hb Hep]. exists b.2. split; [|done]. by apply list_elem_of_filter.
  - intros b. unfold leftover. rewrite list_elem_of_bind. split.
    + intros (ep & [Hne Hb]%list_elem_of_filter & Hep). split; [done|]. by exists ep.
    + intros (Hb & ep & Hep & Hne). exists ep. split; [|done]. apply list_elem_of_filter. split; [by auto|done].
  - done.
  - intros ep. apply app_nil_r.
Qed.

End manager.

(** ** A worker that logs *)

Section sample.
Variable fails : bool.

Definition log (x : string) : M (list string) unit := modify (λ l, l ++ [x]).

#[local] Instance sample_worker : PortStateWorkerOps (list string) := {|
  get_bridge_id _ _ := mret 1%Z;
  ib_discovery _ _ _ _ := log "ib";
  bind_to_host _ _ := log "bind";; mret 1%Z;
  unbind_from_host _ _ := log "unbind";
  full_discovery _ _ _ := if fails then throw (runtime_error "discovery") else log "full";
  oob_discovery _ _ := mret "drive"%string;
  remove _ _ := log "remove";
  get_device_uuid_by_dsp_port _ := mret "drive"%string;
  lock_port _ := log "lock";
  unlock_port _ := log "unlock";
  get_bindings_on_port _ := mret [("z1", "e1"); ("z2", "e2")]%string;
  get_enabled_endpoints_on_port _ := mret ["e1"]%string;
  attach_endpoint_to_zone _ e z := log ("attach " ++ e ++ " " ++ z);
  unbind_port _ _ := log "unbind_port";
  is_port_in_valid_zone _ := mret false;
|}.
End sample.

Lemma sample_reliable : @reliable _ (sample_worker false).
Proof. split; intros; intros s; by do 2 eexists. Defined.

(** The first full discovery fails; the device is never discovered, although the
    worker would succeed now. *)
Lemma failed_init_is_final_witness :
  let s := run_polls (PortStateWorkerOps0 := sample_worker true) "port" [(true, true, true, false)]
             (manager0 (PortStateWorkerOps0 := sample_worker true) "sw" "port" []) in
  is_device_present (run_polls (PortStateWorkerOps0 := sample_worker true) "port"
    [(false, true, true, false); (true, true, true, false)] s) = false.
Proof.
  intros s. apply (failed_init_is_final (PortStateWorkerOps0 := sample_worker true) "sw" "port" s).
  - apply run_polls_manager0.
  - left. vm_compute. reflexivity.
Defined.

(** Unplugged and unbound in the same poll: the device stays in the model. *)
Lemma presence_tracked_unless_unbound_witness :
  let s := run_polls (PortStateWorkerOps0 := sample_worker false) "port"
             [(true, true, false, false)]
             (manager0 (PortStateWorkerOps0 := sample_worker false) "sw" "port" []) in
  ∃ s', update (PortStateWorkerOps0 := sample_worker false) "port" false false false false s = (Ok tt, s')
    ∧ ¬ tracks s'.
Proof.
  intros s. assert (m_transition_table (m_sm s) = @table _ (sample_worker false) "sw" "port") as Ht
    by apply run_polls_manager0.
  destruct (presence_tracked_unless_unbound (PortStateWorkerOps0 := sample_worker false) "sw" "port"
    sample_reliable false false false false s Ht) as [_ H].
  destruct H as (s' & H1 & _ & _ & H2).
  - split; [exact Ht|]. vm_compute. reflexivity.
  - vm_compute. reflexivity.
  - exists s'. split; [exact H1|]. intros Hs. apply H2 in Hs. vm_compute in Hs. discriminate.
Defined.

End PortStateManager.
