(* ===== verification/GasTool.v ===== *)
(** [agent::pnc::tools::GasTool] (PSME/agent/pnc/src/tools/gas_tool.cpp) and the
    helpers of the port monitor that read its results
    (PSME/agent/pnc/src/port_monitor_thread.cpp): presence and binding of the
    ports of a PCIe switch, and the commands that bind a port to a partition.

    The firmware commands (MRPC) run on the switch: they are the class [Mrpc] over
    a state [G].  A command answers whether its status was DONE and its output
    fields; bytes are [Z].  A polling loop is given [polls] iterations. *)

From Stdlib Require Import ZArith Lia.
From S2P Require Import Prelude.
From S2P Require Import OrdSet.
From S2P Require Import ManyToMany.

(** [port_binding_info_t], [partition_binding_info_t] *)
Record port_binding_info_t := mkPortBinding {
  pb_phy_port_id : Z;
  pb_partition_id : Z;
  pb_logical_bridge_id : Z;
  pb_state_operation_result : Z;
}.
Record partition_binding_info_t := mkPartitionBinding {
  tb_phy_port_id : Z;
  tb_state_operation_result : Z;
}.

Record PortBindingInfo := mkPortBindingInfo {
  pbi_ret_value : Z;
  info_count : Z;
  port_binding_info : list port_binding_info_t;
}.
Record PartitionBindingInfo := mkPartitionBindingInfo {
  tbi_ret_value : Z;
  logical_bridge_count : Z;
  partition_binding_info : list partition_binding_info_t;
}.

Class Mrpc (G : Type) := {
  exec_port_binding_info : Z → M G (bool * PortBindingInfo);
  exec_partition_binding_info : Z → M G (bool * PartitionBindingInfo);
  (** bridge, partition, port; the return value *)
  exec_bind_port : Z → Z → Z → M G (bool * Z);
  (** partition, bridge *)
  exec_unbind_port : Z → Z → M G (bool * Z);
}.

Module GasTool.

(** ** Presence *)

Definition reverse_byte (lsb_byte : Z) : Z :=
  foldl (λ msb i, if Z.testbit lsb_byte (Z.of_nat i) then Z.setbit msb (7 - Z.of_nat i)
                  else Z.clearbit msb (7 - Z.of_nat i)) 0%Z (seq 0 8).

(** [uint64_t(~all_ports)]: the operand of [~] is promoted to [int], and the
    negative result is extended to 64 bits. *)
Definition get_presence_bitmask (ports_0_14 ports_32_46 : Z) : Z :=
  let all_ports := wrap 16 (Z.lor (reverse_byte ports_0_14) (Z.shiftl (reverse_byte ports_32_46) 8)) in
  wrap 64 (Z.lnot all_ports).

Definition get_is_present (bitmask phys_port_id : Z) : bool :=
  let phys_port_bit := wrap 8 (phys_port_id / 2) in
  let phys_port_bit := wrap 8 (if decide (phys_port_bit > 7)%Z then phys_port_bit - 8 else phys_port_bit) in
  negb (bool_decide (Z.land bitmask (wrap 64 (Z.shiftl 1 phys_port_bit)) = 0%Z)).

(** ** Binding info *)

Definition NO_PORT_ASSIGNED : Z := 255.
Definition PM85X6_PHY_PORTS_NUMBER : nat := 48.

(** The loop of [get_is_bound], at index [i] with [n] iterations left. *)
Fixpoint is_bound_loop (current_partition_id : Z) (pbi : PortBindingInfo) (port_id : Z) (n i : nat)
    : result (bool * bool) :=
  match n with
  | O => Throw (runtime_error "Port Id not in list while checking port binding info")
  | S n' =>
      b ← index (port_binding_info pbi) i;
      if decide (pb_phy_port_id b = port_id) then
        Ok (bool_decide (pb_partition_id b ≠ 255%Z), bool_decide (pb_partition_id b = current_partition_id))
      else is_bound_loop current_partition_id pbi port_id n' (S i)
  end.

(** [i <= info_count] *)
Definition get_is_bound (current_partition_id : Z) (pbi : PortBindingInfo) (port_id : Z)
    : result (bool * bool) :=
  is_bound_loop current_partition_id pbi port_id (S (Z.to_nat (info_count pbi))) 0.

Definition get_logical_bridge_for_port (pbi : PortBindingInfo) : result Z :=
  if decide (info_count pbi ≠ 1)%Z then Throw (runtime_error "Incorrect port binding info")
  else
    b ← index (port_binding_info pbi) 0;
    if decide (pb_partition_id b = 255 ∨ pb_logical_bridge_id b = 255)%Z
    then Throw (runtime_error "Incorrect port binding info")
    else Ok (pb_logical_bridge_id b).

(** The loop of [get_available_bridge_id]. *)
Fixpoint available_bridge_loop (pbi : PartitionBindingInfo) (n bridge_id : nat) : result Z :=
  match n with
  | O => Throw (pnc_error "No logical bridge available in the partition.")
  | S n' =>
      b ← index (partition_binding_info pbi) bridge_id;
      if decide (tb_phy_port_id b = NO_PORT_ASSIGNED) then Ok (wrap 8 (Z.of_nat bridge_id))
      else available_bridge_loop pbi n' (S bridge_id)
  end.

Definition get_available_bridge_id (pbi : PartitionBindingInfo) : result Z :=
  available_bridge_loop pbi (Z.to_nat (logical_bridge_count pbi) - 1) 1.

(** The loop of [get_available_bridges_count]. *)
Fixpoint count_bridges_loop (pbi : PartitionBindingInfo) (n bridge_id : nat) (available : Z) : result Z :=
  match n with
  | O => Ok available
  | S n' =>
      b ← index (partition_binding_info pbi) bridge_id;
      count_bridges_loop pbi n' (S bridge_id)
        (if decide (tb_phy_port_id b = NO_PORT_ASSIGNED) then wrap 8 (available + 1) else available)
  end.

Definition get_available_bridges_count (pbi : PartitionBindingInfo) : result Z :=
  count_bridges_loop pbi (Z.to_nat (logical_bridge_count pbi) - 1) 1 0.

(** ** Commands *)

Inductive OperationResult := SUCCESS | FAILED | IN_PROGRESS | OTHER (v : Z).

#[global] Instance OperationResult_eq_dec : EqDecision OperationResult.
Proof. solve_decision. Defined.

Definition get_operation_result_enum (operation_state : Z) : OperationResult :=
  let v := Z.land 15 operation_state in
  if decide (v = 0)%Z then SUCCESS else if decide (v = 1)%Z then FAILED
  else if decide (v = 2)%Z then IN_PROGRESS else OTHER v.

Section commands.
Context {G : Type} `{!Mrpc G}.
Variable polls : nat.

Definition get_port_binding_info (physical_id : Z) : M G PortBindingInfo :=
  '(done, info) ← exec_port_binding_info physical_id;
  if negb done then throw (pnc_error "Cannot execute PartitionBindingInfo command. MRPC status code")
  else if decide (pbi_ret_value info ≠ 0)%Z
  then throw (pnc_error "Cannot execute PortBindingInfo command. Command status code")
  else mret info.

Definition get_all_port_binding_info : M G PortBindingInfo := get_port_binding_info 255.

Definition get_partition_binding_info (partition_id : Z) : M G PartitionBindingInfo :=
  '(done, info) ← exec_partition_binding_info partition_id;
  if negb done then throw (pnc_error "Cannot execute PartitionBindingInfo command. MRPC status code")
  else if decide (tbi_ret_value info ≠ 0)%Z
  then throw (pnc_error "Cannot execute PartitionBindingInfo command. Command status code")
  else mret info.

(** [do { result = read(); } while (IN_PROGRESS == result);] *)
Fixpoint poll_result (n : nat) (read : M G OperationResult) : M G OperationResult :=
  match n with
  | O => throw out_of_fuel
  | S n' =>
      r ← read;
      if decide (r = IN_PROGRESS) then poll_result n' read else mret r
  end.

Definition check_port_binding_result (partition_id bridge_id : Z) : M G unit :=
  get_partition_binding_info partition_id;;
  r ← poll_result polls (
    info ← get_partition_binding_info partition_id;
    b ← lift (index (partition_binding_info info) (Z.to_nat bridge_id));
    mret (get_operation_result_enum (tb_state_operation_result b)));
  if decide (r ≠ SUCCESS) then throw (pnc_error "Binding port failed. Command result") else mret tt.

Definition check_port_unbinding_result (phys_port_id : Z) : M G unit :=
  get_port_binding_info phys_port_id;;
  r ← poll_result polls (
    info ← get_port_binding_info phys_port_id;
    b ← lift (index (port_binding_info info) 0);
    mret (get_operation_result_enum (pb_state_operation_result b)));
  if decide (r ≠ SUCCESS) then throw (pnc_error "Unbinding port failed. Command result") else mret tt.

Definition bind_to_partition (phys_port_id partition_id bridge_id : Z) : M G unit :=
  '(done, ret) ← exec_bind_port bridge_id partition_id phys_port_id;
  if negb done then throw (pnc_error "Cannot bind function to partition. MRPC status code")
  else if decide (ret ≠ 0)%Z
  then throw (pnc_error "Cannot bind function to partition. Command status code")
  else check_port_binding_result partition_id bridge_id.

Definition unbind_from_partition (partition_id bridge_id : Z) : M G unit :=
  partition_info ← get_partition_binding_info partition_id;
  b ← lift (index (partition_binding_info partition_info) (Z.to_nat bridge_id));
  '(done, ret) ← exec_unbind_port partition_id bridge_id;
  if negb done then throw (pnc_error "Cannot execute UnbindPort command. MRPC status code")
  else if decide (ret ≠ 0)%Z
  then throw (pnc_error "Cannot execute UnbindPort command. Command status code")
  else check_port_unbinding_result (tb_phy_port_id b).

(** ** Endpoints and zones

    The resource model is constant during a call: the physical id of a port
    ([get_manager<Port>().get_entry(u).get_phys_port_id()], which throws for an
    unknown port), the connected roles of an endpoint, the known zones and the
    relation tables. *)

Inductive EntityRole := Initiator | Target | Both.
#[global] Instance EntityRole_eq_dec : EqDecision EntityRole.
Proof. solve_decision. Defined.

Variables (phys_port_id : uuid → result Z) (roles : uuid → result (list EntityRole)) (zone_exists : uuid → bool).
Variables (m2m_zone_endpoint m2m_endpoint_port : ManyToMany.t).

(** The loops of [get_partition_id_by_zone]. *)
Fixpoint find_partition (ids : list port_binding_info_t) (phys : Z) : option Z :=
  match ids with
  | [] => None
  | b :: ids' => if decide (pb_phy_port_id b = phys) then Some (pb_partition_id b) else find_partition ids' phys
  end.

Fixpoint find_port_partition (ids : list port_binding_info_t) (ports : list uuid) : result (option Z) :=
  match ports with
  | [] => Ok None
  | port_uuid :: ports' =>
      phys ← phys_port_id port_uuid;
      match find_partition ids phys with
      | Some p => Ok (Some p)
      | None => find_port_partition ids ports'
      end
  end.

Fixpoint find_zone_partition (ids : list port_binding_info_t) (endpoints : list uuid) : result (option Z) :=
  match endpoints with
  | [] => Ok None
  | endpoint_uuid :: endpoints' =>
      rs ← roles endpoint_uuid;
      match rs with
      | Initiator :: _ =>
          r ← find_port_partition ids (ManyToMany.get_children endpoint_uuid m2m_endpoint_port);
          match r with
          | Some p => Ok (Some p)
          | None => find_zone_partition ids endpoints'
          end
      | _ => find_zone_partition ids endpoints'
      end
  end.

Definition get_partition_id_by_zone (zone_uuid : uuid) : M G (option Z) :=
  if negb (zone_exists zone_uuid) then throw invalid_uuid
  else
    cmd ← try_catch (info ← get_all_port_binding_info; mret (Some info)) (λ _, mret None);
    match cmd with
    | None => mret None
    | Some info =>
        lift (find_zone_partition (port_binding_info info)
                (ManyToMany.get_children zone_uuid m2m_zone_endpoint))
    end.

(** The loop over the ports of the endpoint: [part_bi] is the one read before it. *)
Definition bind_port_loop (partition_id : Z) (part_bi : PartitionBindingInfo) (ports : list uuid) : M G unit :=
  for_each ports (λ port_uuid,
    phys ← lift (phys_port_id port_uuid);
    get_port_binding_info (wrap 8 phys);;
    bridge ← lift (get_available_bridge_id part_bi);
    bind_to_partition (wrap 8 phys) partition_id bridge).

Definition bind_endpoint_to_zone (zone_uuid endpoint_uuid : uuid) : M G unit :=
  if negb (zone_exists zone_uuid) then throw invalid_uuid
  else
    partition ← get_partition_id_by_zone zone_uuid;
    match partition with
    | None => mret tt
    | Some partition_id =>
        part_bi ← get_partition_binding_info partition_id;
        free_bridges ← lift (get_available_bridges_count part_bi);
        let ports := ManyToMany.get_children endpoint_uuid m2m_endpoint_port in
        if decide (free_bridges < Z.of_nat (length ports))%Z
        then throw (pnc_error "Not enough empty bridges available in the partition")
        else bind_port_loop partition_id part_bi ports
    end.

Definition unbind_endpoint_from_zone (zone_uuid endpoint_uuid : uuid) : M G unit :=
  if negb (zone_exists zone_uuid) then throw invalid_uuid
  else
    for_each (ManyToMany.get_children endpoint_uuid m2m_endpoint_port) (λ port_uuid,
      phys ← lift (phys_port_id port_uuid);
      pbi ← get_port_binding_info (wrap 8 phys);
      b ← lift (index (port_binding_info pbi) 0);
      unbind_from_partition (pb_partition_id b) (pb_logical_bridge_id b)).

(** ** The bridge of every port of an endpoint *)

(** What the firmware promises: a bridge that has been bound stays bound through
    queries, and binding it again fails (LOGICAL_BRIDGE_BINDING_INSTANCE_ALREADY_BOUND). *)
Class MrpcLaws := {
  bridge_bound : Z → Z → G → Prop;
  bind_binds br pid p g g' :
    exec_bind_port br pid p g = (Ok (true, 0%Z), g') → bridge_bound pid br g';
  bind_refused br pid p g : bridge_bound pid br g → (exec_bind_port br pid p g).1 ≠ Ok (true, 0%Z);
  port_query_keeps pid br q : preserves (bridge_bound pid br) (exec_port_binding_info q);
  partition_query_keeps pid br q : preserves (bridge_bound pid br) (exec_partition_binding_info q);
}.

Section laws.
Context `{!MrpcLaws}.

Lemma get_port_binding_info_keeps pid br q : preserves (bridge_bound pid br) (get_port_binding_info q).
Proof.
  unfold get_port_binding_info. apply preserves_bind; [apply port_query_keeps|].
  intros [d info]. repeat case_match; auto with psme.
Qed.

Lemma get_partition_binding_info_keeps pid br q :
  preserves (bridge_bound pid br) (get_partition_binding_info q).
Proof.
  unfold get_partition_binding_info. apply preserves_bind; [apply partition_query_keeps|].
  intros [d info]. repeat case_match; auto with psme.
Qed.

Hint Resolve get_port_binding_info_keeps get_partition_binding_info_keeps : psme.

Lemma poll_result_keeps pid br n read :
  preserves (bridge_bound pid br) read → preserves (bridge_bound pid br) (poll_result n read).
Proof.
  intros Hr. induction n as [|n IH]; simpl; auto with psme.
  apply preserves_bind; [done|]. intros r. case_decide; auto with psme.
Qed.

Lemma check_port_binding_result_keeps pid br pid' br' :
  preserves (bridge_bound pid br) (check_port_binding_result pid' br').
Proof.
  unfold check_port_binding_result. apply preserves_bind; [auto with psme|]. intros _.
  apply preserves_bind; [apply poll_result_keeps; auto with psme|].
  intros r. case_decide; auto with psme.
Qed.

(** A bind that returns has bound the bridge, and the next one on it throws. *)
Lemma bind_to_partition_binds p pid br g g' :
  bind_to_partition p pid br g = (Ok tt, g') → bridge_bound pid br g'.
Proof.
  unfold bind_to_partition, mbind, M_bind.
  destruct (exec_bind_port br pid p g) as [[[d ret]|] g1] eqn:E; [|done].
  destruct d; cbn [negb]; [|done]. case_decide; [done|].
  destruct (decide (ret = 0%Z)) as [->|]; [|done].
  intros Hc. pose proof (check_port_binding_result_keeps pid br pid br g1 (bind_binds _ _ _ _ _ E)) as Hk.
  by rewrite Hc in Hk.
Qed.

Lemma bind_to_partition_refused p pid br g :
  bridge_bound pid br g → (bind_to_partition p pid br g).1 ≠ Ok tt.
Proof.
  intros Hb. pose proof (bind_refused br pid p g Hb) as Hr. unfold bind_to_partition, mbind, M_bind.
  destruct (exec_bind_port br pid p g) as [[[d ret]|] g1]; [|done].
  destruct d; simpl; [|done]. case_decide; [done|]. destruct (decide (ret = 0%Z)) as [->|]; done.
Qed.

Lemma bind_port_loop_refused pid part_bi br u v ports g :
  get_available_bridge_id part_bi = Ok br →
  (bind_port_loop pid part_bi (u :: v :: ports) g).1 ≠ Ok tt.
Proof.
  intros Hbr. unfold bind_port_loop. cbn [for_each]. unfold mbind, M_bind, lift. rewrite Hbr.
  destruct (phys_port_id u) as [pu|]; [|done].
  destruct (get_port_binding_info (wrap 8 pu) g) as [[i1|] g1]; [|done].
  destruct (bind_to_partition (wrap 8 pu) pid br g1) as [[[]|] g2] eqn:E1; [|done].
  apply bind_to_partition_binds in E1.
  destruct (phys_port_id v) as [pv|]; [|done].
  pose proof (get_port_binding_info_keeps pid br (wrap 8 pv) g2 E1) as Hk.
  destruct (get_port_binding_info (wrap 8 pv) g2) as [[i2|] g3]; [|done].
  pose proof (bind_to_partition_refused (wrap 8 pv) pid br g3 Hk) as Hr.
  by destruct (bind_to_partition (wrap 8 pv) pid br g3) as [[[]|] g4].
Qed.

(** Every port of an endpoint is bound to the bridge that was free
    before the first one was bound, so binding an endpoint with two or more
    ports to a zone that has a partition never succeeds, however many bridges
    are free. *)
Theorem multi_port_endpoint_not_bound zone endpoint pid g g1 :
  get_partition_id_by_zone zone g = (Ok (Some pid), g1) →
  2 ≤ length (ManyToMany.get_children endpoint m2m_endpoint_port) →
  (bind_endpoint_to_zone zone endpoint g).1 ≠ Ok tt.
Proof.
  intros Hp Hl. unfold bind_endpoint_to_zone.
  destruct (zone_exists zone) eqn:Ez; [|done]. cbn [negb].
  unfold mbind, M_bind. rewrite Hp.
  destruct (get_partition_binding_info pid g1) as [[bi|] g2]; [|done]. unfold lift.
  destruct (get_available_bridges_count bi) as [free|]; [|done].
  destruct (ManyToMany.get_children endpoint m2m_endpoint_port) as [|u [|v ports]]; [simpl in Hl; lia..|].
  case_decide; [done|]. destruct (get_available_bridge_id bi) as [br|] eqn:Ebr.
  - by apply (bind_port_loop_refused pid bi br).
  - unfold bind_port_loop. cbn [for_each]. unfold mbind, M_bind, lift. rewrite Ebr.
    destruct (phys_port_id u); [|done]. by destruct (get_port_binding_info _ g2) as [[] ].
Qed.
End laws.
End commands.

(** ** A switch with one partition

    Bridge [i] of partition 0 is bound to the port [table !! i]; bridge 0 is the
    upstream one. *)
Section sim.
Abbreviation sim := (list (option Z)).

Definition sim_entry (x : option Z) : partition_binding_info_t :=
  mkPartitionBinding (default 255%Z x) 16.

Definition sim_port_entry (i : nat) (x : option Z) : port_binding_info_t :=
  match x with
  | Some p => mkPortBinding p 0 (Z.of_nat i) 16
  | None => mkPortBinding 254 255 255 0
  end.

#[local] Instance sim_mrpc : Mrpc sim := {|
  exec_port_binding_info q := λ g,
    (Ok (true, mkPortBindingInfo 0 (Z.of_nat (length g)) (imap sim_port_entry g)), g);
  exec_partition_binding_info q := λ g,
    (Ok (true, mkPartitionBindingInfo 0 (Z.of_nat (length g)) (sim_entry <$> g)), g);
  exec_bind_port br pid p := λ g,
    match g !! Z.to_nat br with
    | Some None => (Ok (true, 0%Z), <[Z.to_nat br := Some p]> g)
    | Some (Some _) => (Ok (true, 2%Z), g)
    | None => (Ok (true, 6%Z), g)
    end;
  exec_unbind_port pid br := λ g,
    match g !! Z.to_nat br with
    | Some (Some _) => (Ok (true, 0%Z), <[Z.to_nat br := None]> g)
    | _ => (Ok (true, 11%Z), g)
    end;
|}.

#[local] Instance sim_laws : @MrpcLaws sim sim_mrpc.
Proof.
  refine {| bridge_bound pid br := λ g : sim, ∃ p, g !! Z.to_nat br = Some (Some p) |}.
  - intros br pid p g g'. unfold exec_bind_port, sim_mrpc. destruct (g !! Z.to_nat br) as [[x|]|] eqn:E; try done.
    intros [= <-]. exists p. rewrite list_lookup_insert_eq; [done|]. by eapply lookup_lt_Some.
  - intros br pid p g (x & Hx). unfold exec_bind_port, sim_mrpc. by rewrite Hx.
  - by intros pid br q g Hg.
  - by intros pid br q g Hg.
Defined.

Definition sample_phys (u : uuid) : result Z :=
  if decide (u = "usp"%string) then Ok 0%Z else if decide (u = "p1"%string) then Ok 2%Z
  else if decide (u = "p2"%string) then Ok 4%Z else Throw invalid_uuid.
Definition sample_roles (u : uuid) : result (list EntityRole) :=
  if decide (u = "init"%string) then Ok [Initiator] else Ok [Target].
Definition sample_ports : ManyToMany.t :=
  ManyToMany.run_ops [ManyToMany.AddEntry "init" "usp" ""; ManyToMany.AddEntry "e1" "p1" "";
                      ManyToMany.AddEntry "e2" "p1" ""; ManyToMany.AddEntry "e2" "p2" ""] [].
Definition sample_zone : ManyToMany.t := ManyToMany.run_ops [ManyToMany.AddEntry "zone" "init" ""] [].

(** Three bridges are free; the endpoint with one port is bound, the one with two
    is not. *)
Lemma multi_port_endpoint_not_bound_witness :
  let bind e := bind_endpoint_to_zone (G := sim) 3 sample_phys sample_roles
    (λ z, bool_decide (z = "zone"%string)) sample_zone sample_ports "zone" e [Some 0%Z; None; None; None] in
  (bind "e1"%string).1 = Ok tt ∧ (bind "e2"%string).1 ≠ Ok tt.
Proof.
  split; [vm_compute; reflexivity|].
  apply (multi_port_endpoint_not_bound 3 sample_phys sample_roles
    (λ z, bool_decide (z = "zone"%string)) sample_zone sample_ports "zone" "e2" 0
    [Some 0%Z; None; None; None] [Some 0%Z; None; None; None]).
  - vm_compute. reflexivity.
  - vm_compute. lia.
Defined.
End sim.

(** ** Free bridges *)

Section bridges.
Variable pbi : PartitionBindingInfo.
Hypothesis Hcount : (0 ≤ logical_bridge_count pbi ≤ 48)%Z.
Hypothesis Hlen : length (partition_binding_info pbi) = PM85X6_PHY_PORTS_NUMBER.

Definition is_free (b : partition_binding_info_t) : Prop := tb_phy_port_id b = NO_PORT_ASSIGNED.

#[local] Instance is_free_dec b : Decision (is_free b).
Proof. unfold is_free. apply _. Defined.

(** The bridges of the partition other than its upstream one. *)
Definition bridges : list partition_binding_info_t :=
  slice 1 (Z.to_nat (logical_bridge_count pbi) - 1) (partition_binding_info pbi).

Lemma index_drop {A} (l : list A) i x l' : drop i l = x :: l' → index l i = Ok x.
Proof. intros H. unfold index. rewrite <- (Nat.add_0_r i), <- lookup_drop, H. done. Qed.

Lemma count_bridges_loop_spec n i acc :
  i + n ≤ length (partition_binding_info pbi) → (0 ≤ acc)%Z → (acc + Z.of_nat n < 256)%Z →
  count_bridges_loop pbi n i acc =
  Ok (acc + Z.of_nat (length (filter is_free (slice i n (partition_binding_info pbi)))))%Z.
Proof.
  revert i acc. induction n as [|n IH]; intros i acc Hi Ha Hb.
  { unfold slice. rewrite take_0. simpl. f_equal. lia. }
  cbn [count_bridges_loop]. unfold slice.
  destruct (drop i (partition_binding_info pbi)) as [|x l] eqn:Ed.
  { apply (f_equal length) in Ed. rewrite length_drop in Ed. simpl in Ed. lia. }
  assert (drop (S i) (partition_binding_info pbi) = l) as El.
  { rewrite <- Nat.add_1_r, <- drop_drop, Ed. done. }
  rewrite (index_drop _ _ _ _ Ed). cbn [mbind result_bind]. cbn [take]. rewrite filter_cons.
  unfold slice in IH. unfold is_free at 1. destruct (decide (tb_phy_port_id x = NO_PORT_ASSIGNED)).
  - rewrite wrap_small by (split; zpow; lia). rewrite IH by lia. rewrite El. simpl length. f_equal. lia.
  - rewrite IH by lia. by rewrite El.
Qed.

Lemma available_bridge_loop_spec n i :
  i + n ≤ length (partition_binding_info pbi) → i + n < 256 →
  match available_bridge_loop pbi n i with
  | Ok b => ∃ k x, b = Z.of_nat k ∧ i ≤ k < i + n ∧ partition_binding_info pbi !! k = Some x ∧ is_free x ∧
      ∀ j y, i ≤ j < k → partition_binding_info pbi !! j = Some y → ¬ is_free y
  | Throw e => e = pnc_error "No logical bridge available in the partition." ∧
      filter is_free (slice i n (partition_binding_info pbi)) = []
  end.
Proof.
  revert i. induction n as [|n IH]; intros i Hi Hb; [done|].
  cbn [available_bridge_loop].
  destruct (drop i (partition_binding_info pbi)) as [|x l] eqn:Ed.
  { apply (f_equal length) in Ed. rewrite length_drop in Ed. simpl in Ed. lia. }
  assert (drop (S i) (partition_binding_info pbi) = l) as El.
  { rewrite <- Nat.add_1_r, <- drop_drop, Ed. done. }
  assert (partition_binding_info pbi !! i = Some x) as Hx.
  { rewrite <- (Nat.add_0_r i), <- lookup_drop, Ed. done. }
  rewrite (index_drop _ _ _ _ Ed). cbn [mbind result_bind].
  destruct (decide (tb_phy_port_id x = NO_PORT_ASSIGNED)) as [Hf|Hf].
  - exists i, x. rewrite wrap_small by (split; zpow; lia). split_and!; try done; try lia.
  - specialize (IH (S i)). destruct (available_bridge_loop pbi n (S i)).
    + destruct IH as (k & y & -> & Hk & Hy & Hfy & Hall); [lia..|]. exists k, y.
      split_and!; try done; try lia. intros j z Hj Hz.
      destruct (decide (j = i)) as [->|]; [by simplify_eq|]. apply (Hall j); [lia|done].
    + destruct IH as [-> IH]; [lia..|]. split; [done|]. unfold slice in *. rewrite Ed. cbn [take].
      rewrite filter_cons, decide_False by done. by rewrite <- El.
Qed.

(** Get_available_bridges_count is the number of free bridges after the
    upstream one, and get_available_bridge_id returns the first of them; it
    throws exactly when the count is zero. *)
Theorem available_bridges_agree :
  ∃ n, get_available_bridges_count pbi = Ok n ∧ n = Z.of_nat (length (filter is_free bridges)) ∧
  (n = 0%Z → get_available_bridge_id pbi =
     Throw (pnc_error "No logical bridge available in the partition.")) ∧
  ((0 < n)%Z → ∃ b x, get_available_bridge_id pbi = Ok (Z.of_nat b) ∧
     (1 ≤ Z.of_nat b < logical_bridge_count pbi)%Z ∧ partition_binding_info pbi !! b = Some x ∧ is_free x ∧
     ∀ j y, 1 ≤ j < b → partition_binding_info pbi !! j = Some y → ¬ is_free y).
Proof using Hcount Hlen.
  unfold PM85X6_PHY_PORTS_NUMBER in Hlen.
  exists (Z.of_nat (length (filter is_free bridges))).
  unfold get_available_bridges_count, get_available_bridge_id, bridges.
  rewrite count_bridges_loop_spec by lia.
  pose proof (available_bridge_loop_spec (Z.to_nat (logical_bridge_count pbi) - 1) 1 ltac:(lia) ltac:(lia)) as Ha.
  destruct (available_bridge_loop _ _ _) as [b|e].
  - destruct Ha as (k & x & -> & Hk & Hx & Hf & Hall).
    assert (x ∈ filter is_free (slice 1 (Z.to_nat (logical_bridge_count pbi) - 1) (partition_binding_info pbi))) as Hin.
    { apply list_elem_of_filter. split; [done|]. apply (list_elem_of_lookup_2 _ (k - 1)).
      rewrite slice_lookup by lia. rewrite <- Hx. f_equal. lia. }
    destruct (filter _ _); [by apply elem_of_nil in Hin|]. split_and!; [done|done|simpl; lia|].
    intros _. exists k, x. split_and!; try done; lia.
  - destruct Ha as [-> ->]. split_and!; [done|done|done|simpl; lia].
Qed.
End bridges.

Lemma available_bridges_agree_witness :
  ∃ n, get_available_bridges_count
    (mkPartitionBindingInfo 0 4 (sim_entry <$> [Some 0%Z; Some 2%Z; None; None] ++ replicate 44 None)) = Ok n ∧ n = 2%Z.
Proof.
  destruct (available_bridges_agree
    (mkPartitionBindingInfo 0 4 (sim_entry <$> [Some 0%Z; Some 2%Z; None; None] ++ replicate 44 None)))
    as (n & H1 & H2 & _).
  - simpl. lia.
  - reflexivity.
  - exists n. split; [exact H1|]. rewrite H2. vm_compute. reflexivity.
Defined.

(** ** Presence of a device *)

Lemma reverse_byte_spec x i :
  is_byte x → (0 ≤ i < 8)%Z →
  is_byte (reverse_byte x) ∧ Z.testbit (reverse_byte x) i = Z.testbit x (7 - i).
Proof.
  intros Hx Hi.
  assert (forallb (λ a, forallb (λ j,
    (0 <=? reverse_byte (Z.of_nat a))%Z && (reverse_byte (Z.of_nat a) <? 256)%Z &&
    Bool.eqb (Z.testbit (reverse_byte (Z.of_nat a)) (Z.of_nat j)) (Z.testbit (Z.of_nat a) (7 - Z.of_nat j)))
    (seq 0 8)) (seq 0 256) = true) as Hall by (vm_compute; reflexivity).
  rewrite forallb_forall in Hall.
  specialize (Hall (Z.to_nat x)). rewrite Z2Nat.id in Hall by apply Hx.
  rewrite forallb_forall in Hall. specialize (Hall ltac:(apply in_seq; destruct Hx; lia) (Z.to_nat i)).
  rewrite Z2Nat.id in Hall by lia. specialize (Hall ltac:(apply in_seq; lia)).
  apply andb_true_iff in Hall as [[H1 H2]%andb_true_iff H3].
  apply Bool.eqb_prop in H3. split; [split; lia|done].
Qed.

(** A mask with one bit selects it. *)
Lemma land_pow2 m k : (0 ≤ k)%Z → negb (bool_decide (Z.land m (Z.shiftl 1 k) = 0%Z)) = Z.testbit m k.
Proof.
  intros Hk. destruct (Z.testbit m k) eqn:Ht.
  - rewrite bool_decide_eq_false_2; [done|]. intros H0.
    assert (Z.testbit (Z.land m (Z.shiftl 1 k)) k = true) as H; [|by rewrite H0, Z.bits_0 in H].
    rewrite Z.land_spec, Ht, Z.shiftl_spec, Z.sub_diag by lia. done.
  - rewrite bool_decide_eq_true_2; [done|]. apply Z.bits_inj. intros j. rewrite Z.bits_0, Z.land_spec.
    destruct (decide (j = k)) as [->|Hj]; [by rewrite Ht|].
    rewrite Z.shiftl_mul_pow2, Z.mul_1_l, Z.pow2_bits_false by lia. apply andb_false_r.
Qed.

Lemma presence_bit a b k :
  is_byte a → is_byte b → (0 ≤ k < 16)%Z →
  Z.testbit (get_presence_bitmask a b) k =
  negb (if decide (k < 8)%Z then Z.testbit a (7 - k) else Z.testbit b (15 - k)).
Proof.
  intros Ha Hb Hk. unfold get_presence_bitmask, wrap.
  rewrite Z.mod_pow2_bits_low, Z.lnot_spec, Z.mod_pow2_bits_low, Z.lor_spec, Z.shiftl_spec by lia.
  f_equal. destruct (decide (k < 8)%Z) as [Hlt|Hge].
  - rewrite (Z.testbit_neg_r _ (k - 8)) by lia. rewrite orb_false_r. apply (reverse_byte_spec a k Ha ltac:(lia)).
  - destruct (reverse_byte_spec a 0 Ha ltac:(lia)) as [Hr _].
    assert (Z.testbit (reverse_byte a) k = false) as ->.
    { destruct (decide (reverse_byte a = 0%Z)) as [->|Hn]; [apply Z.bits_0|].
      apply Z.bits_above_log2; [apply Hr|]. apply Z.log2_lt_pow2; [destruct Hr; lia|].
      apply Z.lt_le_trans with (2 ^ 8)%Z; [apply Hr|apply Z.pow_le_mono_r; lia]. }
    destruct (reverse_byte_spec b (k - 8) Hb ltac:(lia)) as [_ ->]. simpl. f_equal. lia.
Qed.

(** for the downstream ports (0, 2, ..., 14 and 32, 34, ..., 46), the
    mask that get_presence_bitmask makes of the two presence bytes and the bit
    that get_is_present picks from it answer whether the port's own bit, counted
    from the most significant one, is zero in its byte. *)
Theorem presence_reads_own_bit a b n :
  is_byte a → is_byte b → (0 ≤ n < 8)%Z →
  get_is_present (get_presence_bitmask a b) (2 * n) = negb (Z.testbit a (7 - n)) ∧
  get_is_present (get_presence_bitmask a b) (32 + 2 * n) = negb (Z.testbit b (7 - n)).
Proof.
  intros Ha Hb Hn. unfold get_is_present.
  assert (∀ k, (0 ≤ k < 16)%Z → wrap 64 (Z.shiftl 1 k) = Z.shiftl 1 k) as Hw.
  { intros k Hk. apply wrap_small. rewrite Z.shiftl_mul_pow2, Z.mul_1_l by lia.
    split; [lia|]. apply Z.pow_lt_mono_r; lia. }
  split.
  - replace (2 * n / 2)%Z with n by dlia. rewrite (wrap_small 8 n) by (split; zpow; lia).
    rewrite decide_False by lia. rewrite (wrap_small 8 n), Hw, land_pow2, presence_bit by (first [lia|assumption|split; zpow; lia]).
    by rewrite decide_True by lia.
  - replace ((32 + 2 * n) / 2)%Z with (16 + n)%Z by dlia.
    rewrite (wrap_small 8 (16 + n)) by (split; zpow; lia). rewrite decide_True by lia.
    replace (16 + n - 8)%Z with (8 + n)%Z by lia.
    rewrite (wrap_small 8 (8 + n)), Hw, land_pow2, presence_bit by (first [lia|assumption|split; zpow; lia]).
    rewrite decide_False by lia. do 2 f_equal. lia.
Qed.

Lemma presence_reads_own_bit_witness :
  get_is_present (get_presence_bitmask 127 255) 0 = true ∧
  get_is_present (get_presence_bitmask 127 255) 32 = false.
Proof.
  destruct (presence_reads_own_bit 127 255 0) as [H1 H2]; [split; lia|split; lia|lia|].
  split; [exact H1|exact H2].
Defined.

(** ** Binding of a port *)

Section bound.
Variables (current port : Z) (pbi : PortBindingInfo).

Definition answer (b : port_binding_info_t) : bool * bool :=
  (bool_decide (pb_partition_id b ≠ 255%Z), bool_decide (pb_partition_id b = current)).

Definition of_port (b : port_binding_info_t) : Prop := pb_phy_port_id b = port.

#[local] Instance of_port_dec b : Decision (of_port b).
Proof. unfold of_port. apply _. Defined.

Definition not_in_list : exn := runtime_error "Port Id not in list while checking port binding info".

Lemma is_bound_loop_app n m i :
  i + n ≤ length (port_binding_info pbi) →
  is_bound_loop current pbi port (n + m) i =
  match list.head (filter of_port (slice i n (port_binding_info pbi))) with
  | Some b => Ok (answer b)
  | None => is_bound_loop current pbi port m (i + n)
  end.
Proof.
  revert i. induction n as [|n IH]; intros i Hi; [by rewrite Nat.add_0_r|].
  cbn [is_bound_loop Nat.add]. unfold slice in *.
  destruct (drop i (port_binding_info pbi)) as [|x l] eqn:Ed.
  { apply (f_equal length) in Ed. rewrite length_drop in Ed. simpl in Ed. lia. }
  assert (drop (S i) (port_binding_info pbi) = l) as El.
  { rewrite <- Nat.add_1_r, <- drop_drop, Ed. done. }
  rewrite (index_drop _ _ _ _ Ed). cbn [mbind result_bind take]. rewrite filter_cons.
  destruct (decide (pb_phy_port_id x = port)) as [Hp|Hp].
  { by rewrite (decide_True (P := of_port x)). }
  rewrite (decide_False (P := of_port x)), IH, El by (done || lia). by rewrite Nat.add_succ_r.
Qed.

(** get_is_bound answers from the first of the listed entries that is
    for the port; for a port that is not listed the entry after the list decides,
    which is outside the array when all 48 entries are listed. *)
Theorem get_is_bound_reads_past n :
  info_count pbi = Z.of_nat n → length (port_binding_info pbi) = PM85X6_PHY_PORTS_NUMBER →
  n ≤ PM85X6_PHY_PORTS_NUMBER →
  get_is_bound current pbi port =
  match list.head (filter of_port (take n (port_binding_info pbi))) with
  | Some b => Ok (answer b)
  | None =>
      match port_binding_info pbi !! n with
      | None => Throw undefined_behaviour
      | Some b => if decide (of_port b) then Ok (answer b) else Throw not_in_list
      end
  end.
Proof.
  intros Hn Hl Hle. unfold get_is_bound. rewrite Hn, Nat2Z.id.
  rewrite <- Nat.add_1_r, is_bound_loop_app by lia. unfold slice. rewrite drop_0.
  destruct (list.head _) as [b|]; [done|]. cbn [is_bound_loop Nat.add]. unfold index.
  destruct (port_binding_info pbi !! n) as [b|]; reflexivity.
Qed.
End bound.

(** A full list without the port. *)
Lemma get_is_bound_reads_past_witness :
  get_is_bound 0 (mkPortBindingInfo 0 48 (replicate 48 (mkPortBinding 1 255 255 0))) 2 =
  Throw undefined_behaviour.
Proof.
  rewrite (get_is_bound_reads_past 0 2 (mkPortBindingInfo 0 48 (replicate 48 (mkPortBinding 1 255 255 0))) 48).
  - vm_compute. reflexivity.
  - reflexivity.
  - reflexivity.
  - unfold PM85X6_PHY_PORTS_NUMBER. lia.
Defined.

End GasTool.
