(* ===== verification/PortStateWorker.v ===== *)
(** [agent::pnc::state_machine::PortStateWorker]
    (PSME/agent/pnc/src/state_machine/port_state_worker.cpp), the implementation of
    the worker interface of PortStateManager.v, with the parts of
    [ModelTool] (src/tools/model_tool.cpp, include/tools/model_tool.hpp),
    [Zone] and [Endpoint] (common/agent-framework) it calls.

    The state is the switch [G] and the tables of the resource model the worker
    reads and writes.  The steps that leave the modelled code are variables:
    reading the GAS registers of a switch (which yields the management
    partition), unbinding the host's NVMe driver through sysfs, and the discovery
    manager.  Sleeps and log output are left out. *)

From Stdlib Require Import ZArith Lia.
From S2P Require Import Prelude.
From S2P Require Import OrdSet.
From S2P Require Import ManyToMany.
From S2P Require Import EnumStateMachine.
From S2P Require Import PortStateManager.
From S2P Require Import GasTool.
Import GasTool.

Module PortStateWorker.

Inductive State := Enabled | Disabled | StandbyOffline | Starting | UnavailableOffline.
Inductive Health := OK | Warning | Critical.
Definition Status : Type := State * Health.

#[global] Instance State_eq_dec : EqDecision State.
Proof. solve_decision. Defined.
#[global] Instance Health_eq_dec : EqDecision Health.
Proof. solve_decision. Defined.

Record Endpoint := mkEndpoint { ep_status : Status; ep_roles : list EntityRole }.

Record Drive := mkDrive {
  dr_dsp_ports : list uuid;
  dr_parent : uuid;
  dr_status : Status;
  dr_last_smart_health : Health;
  dr_is_being_erased : bool;
  dr_is_in_critical_discovery_state : bool;
  dr_is_in_warning_state : bool;
  dr_is_being_discovered : bool;
  dr_media_life_left : option Z;
  dr_failure_predicted : bool;
}.

Record Processor := mkProcessor { pr_dsp_ports : list uuid; pr_is_being_discovered : bool }.

Record Switch := mkSwitch { sw_bridge_path : string; sw_memory_path : string }.

Inductive Component := CDrive | CEndpoint | CZone.

(** Tables are association lists in the order of the managers' vectors, with
    one entry per identifier. *)
Section worker.
Context {G : Type} `{!Mrpc G}.

Record world := mkWorld {
  w_gas : G;
  w_switches : list (uuid * Switch);
  w_ports : list (uuid * Z);
  w_endpoints : list (uuid * Endpoint);
  w_drives : list (uuid * Drive);
  w_processors : list (uuid * Processor);
  w_zones : list uuid;
  w_fabrics : list uuid;
  w_chassis : list uuid;
  w_zone_endpoint : ManyToMany.t;
  w_endpoint_port : ManyToMany.t;
  w_events : list (uuid * Component * uuid);
}.

Variable polls : nat.
Variable read_gas : string → M G Z.
Variable unbind_management_host_driver : string → Z → M G unit.
Variable ib_port_device_discovery : uuid → uuid → Z → uuid → M world bool.
Variable oob_port_device_discovery : Z → uuid → M world bool.
Variable remove_devices_on_port : Z → uuid → M world bool.

(** ** Access to the state *)

Definition set_gas (g : G) (w : world) : world :=
  mkWorld g (w_switches w) (w_ports w) (w_endpoints w) (w_drives w) (w_processors w) (w_zones w)
    (w_fabrics w) (w_chassis w) (w_zone_endpoint w) (w_endpoint_port w) (w_events w).
Definition set_endpoints (x : list (uuid * Endpoint)) (w : world) : world :=
  mkWorld (w_gas w) (w_switches w) (w_ports w) x (w_drives w) (w_processors w) (w_zones w)
    (w_fabrics w) (w_chassis w) (w_zone_endpoint w) (w_endpoint_port w) (w_events w).
Definition set_drives (x : list (uuid * Drive)) (w : world) : world :=
  mkWorld (w_gas w) (w_switches w) (w_ports w) (w_endpoints w) x (w_processors w) (w_zones w)
    (w_fabrics w) (w_chassis w) (w_zone_endpoint w) (w_endpoint_port w) (w_events w).
Definition set_processors (x : list (uuid * Processor)) (w : world) : world :=
  mkWorld (w_gas w) (w_switches w) (w_ports w) (w_endpoints w) (w_drives w) x (w_zones w)
    (w_fabrics w) (w_chassis w) (w_zone_endpoint w) (w_endpoint_port w) (w_events w).
Definition set_zone_endpoint (x : ManyToMany.t) (w : world) : world :=
  mkWorld (w_gas w) (w_switches w) (w_ports w) (w_endpoints w) (w_drives w) (w_processors w) (w_zones w)
    (w_fabrics w) (w_chassis w) x (w_endpoint_port w) (w_events w).

Definition on_gas {A} (m : M G A) : M world A := zoom w_gas set_gas m.

Definition lookup_entry {A} (u : uuid) (l : list (uuid * A)) : option A :=
  snd <$> list.head (filter (λ p, p.1 = u) l).

(** [get_manager<T>().get_entry(u)] *)
Definition get_entry {A} (table : world → list (uuid * A)) (u : uuid) : M world A :=
  w ← get;
  match lookup_entry u (table w) with Some x => mret x | None => throw invalid_uuid end.

(** [send_event(u, component, Update, parent)] *)
Definition send_event (u : uuid) (c : Component) (parent : uuid) : M world unit :=
  modify (λ w, mkWorld (w_gas w) (w_switches w) (w_ports w) (w_endpoints w) (w_drives w)
    (w_processors w) (w_zones w) (w_fabrics w) (w_chassis w) (w_zone_endpoint w) (w_endpoint_port w)
    (w_events w ++ [(u, c, parent)])).

(** Write through [get_entry_reference(u)]. *)
Definition update_entry {A} (u : uuid) (f : A → A) (l : list (uuid * A)) : list (uuid * A) :=
  (λ p, if decide (p.1 = u) then (p.1, f p.2) else p) <$> l.

(** ** ModelTool *)

Definition generic_get_uuid (keys : list uuid) : result uuid :=
  match keys with
  | [] => Throw (runtime_error "none found!")
  | [k] => Ok k
  | _ => Throw (runtime_error "too many entries!")
  end.

Definition get_fabric_uuid : M world uuid := w ← get; lift (generic_get_uuid (w_fabrics w)).
Definition get_chassis_uuid : M world uuid := w ← get; lift (generic_get_uuid (w_chassis w)).

(** Drives first, then processors. *)
Definition get_devices_by_dsp_port_uuid (port_uuid : uuid) (w : world) : list uuid :=
  (fst <$> filter (λ p, port_uuid ∈ dr_dsp_ports p.2) (w_drives w))
  ++ (fst <$> filter (λ p, port_uuid ∈ pr_dsp_ports p.2) (w_processors w)).

Definition set_device_is_being_discovered (device_uuid : uuid) (b : bool) : M world unit :=
  w ← get;
  match lookup_entry device_uuid (w_drives w) with
  | Some _ =>
      put (set_drives (update_entry device_uuid (λ d,
        mkDrive (dr_dsp_ports d) (dr_parent d) (dr_status d) (dr_last_smart_health d) (dr_is_being_erased d)
          (dr_is_in_critical_discovery_state d) (dr_is_in_warning_state d) b (dr_media_life_left d)
          (dr_failure_predicted d)) (w_drives w)) w)
  | None =>
      match lookup_entry device_uuid (w_processors w) with
      | Some _ =>
          put (set_processors (update_entry device_uuid (λ p, mkProcessor (pr_dsp_ports p) b) (w_processors w)) w)
      | None => mret tt
      end
  end.

(** The new drive and whether it has changed. *)
Definition updated_drive (status : Status) (media_life_left : Z) (d : Drive) : Drive * bool :=
  if dr_is_being_erased d || dr_is_in_critical_discovery_state d then
    (mkDrive (dr_dsp_ports d) (dr_parent d) (dr_status d) status.2 (dr_is_being_erased d)
       (dr_is_in_critical_discovery_state d) (dr_is_in_warning_state d) (dr_is_being_discovered d)
       (dr_media_life_left d) (dr_failure_predicted d), false)
  else
    let life_changed := bool_decide (dr_media_life_left d ≠ Some media_life_left) in
    let status_changed := negb (dr_is_in_warning_state d) && bool_decide (dr_status d ≠ status) in
    (mkDrive (dr_dsp_ports d) (dr_parent d) (if status_changed then status else dr_status d) status.2
       (dr_is_being_erased d) (dr_is_in_critical_discovery_state d) (dr_is_in_warning_state d)
       (dr_is_being_discovered d)
       (if life_changed then Some media_life_left else dr_media_life_left d)
       (if life_changed then bool_decide (media_life_left ≤ 0)%Z else dr_failure_predicted d),
     life_changed || status_changed).

Definition update_drive_status (drive_uuid : uuid) (status : Status) (media_life_left : Z) : M world unit :=
  d ← get_entry w_drives drive_uuid;
  let '(d', changed) := updated_drive status media_life_left d in
  modify (λ w, set_drives (update_entry drive_uuid (λ _, d') (w_drives w)) w);;
  when changed (send_event drive_uuid CDrive (dr_parent d)).

(** Reading an [OptionalField] without a value throws. *)
Definition set_drive_status (drive_uuid : uuid) (status : Status) : M world unit :=
  d ← get_entry w_drives drive_uuid;
  match dr_media_life_left d with
  | None => throw (runtime_error "no value")
  | Some life => update_drive_status drive_uuid status life
  end.

(** ** Zone and Endpoint *)

Definition is_in_role (role : EntityRole) (e : Endpoint) : bool :=
  existsb (λ r, bool_decide (role = r)) (ep_roles e).

Definition is_initiator (e : Endpoint) : bool := is_in_role Initiator e || is_in_role Both e.

(** [find_if] over the endpoints of the zone; an unknown endpoint throws. *)
Fixpoint find_initiator (endpoints : list uuid) : M world bool :=
  match endpoints with
  | [] => mret false
  | u :: endpoints' =>
      e ← get_entry w_endpoints u;
      if is_initiator e then mret true else find_initiator endpoints'
  end.

Definition is_initiator_in_zone (zone : uuid) : M world bool :=
  w ← get; find_initiator (ManyToMany.get_children zone (w_zone_endpoint w)).

(** ** PortStateWorker *)

(** [get_gas(switch_uuid)]: the management partition. *)
Definition get_gas (switch_uuid : uuid) : M world Z :=
  sw ← get_entry w_switches switch_uuid;
  on_gas (read_gas (sw_memory_path sw)).

Definition get_bridge_id (switch_uuid port_uuid : uuid) : M world Z :=
  phys ← get_entry w_ports port_uuid;
  get_gas switch_uuid;;
  pbi ← on_gas (get_port_binding_info (wrap 8 phys));
  lift (get_logical_bridge_for_port pbi).

Definition ib_discovery (switch_uuid port_uuid : uuid) (bridge_id : Z) (device_uuid : uuid) : M world unit :=
  ok ← ib_port_device_discovery switch_uuid port_uuid bridge_id device_uuid;
  if negb ok then throw (runtime_error "In-band discovery procedure failed") else mret tt.

Definition bind_to_host (switch_uuid port_uuid : uuid) : M world Z :=
  phys ← get_entry w_ports port_uuid;
  current ← get_gas switch_uuid;
  pbi ← on_gas (get_partition_binding_info current);
  bridge_id ← lift (get_available_bridge_id pbi);
  on_gas (bind_to_partition polls (wrap 8 phys) current bridge_id);;
  mret bridge_id.

Definition unbind_from_host (switch_uuid : uuid) (bridge_id : Z) : M world unit :=
  sw ← get_entry w_switches switch_uuid;
  current ← get_gas switch_uuid;
  on_gas (unbind_management_host_driver (sw_bridge_path sw) bridge_id);;
  on_gas (unbind_from_partition polls current bridge_id).

Definition get_device_uuid_by_dsp_port (port_uuid : uuid) : M world uuid :=
  w ← get;
  match get_devices_by_dsp_port_uuid port_uuid w with
  | [d] => mret d
  | _ => throw (invalid_argument "Invalid number of devices using specified dsp port")
  end.

Definition oob_discovery (switch_uuid port_uuid : uuid) : M world uuid :=
  get_entry w_ports port_uuid;;
  current ← get_gas switch_uuid;
  ok ← oob_port_device_discovery current port_uuid;
  if negb ok then throw (runtime_error "Out-of-band discovery procedure failed")
  else try_catch (get_device_uuid_by_dsp_port port_uuid) (λ e,
    match e with invalid_argument _ => mret ""%string | _ => throw e end).

Definition full_discovery (switch_uuid port_uuid : uuid) (bridge_id : Z) : M world unit :=
  device_uuid ← oob_discovery switch_uuid port_uuid;
  ib_discovery switch_uuid port_uuid bridge_id device_uuid.

Definition remove (switch_uuid port_uuid : uuid) : M world unit :=
  current ← get_gas switch_uuid;
  ok ← remove_devices_on_port current port_uuid;
  if negb ok then throw (runtime_error "Remove procedure failed") else mret tt.

(** The loop over the endpoints of the port in [lock_port] and [unlock_port]. *)
Definition set_endpoints_status (status : Status) (port_uuid : uuid) : M world unit :=
  fabric_uuid ← get_fabric_uuid;
  w ← get;
  for_each (ManyToMany.get_parents port_uuid (w_endpoint_port w)) (λ endpoint_uuid,
    get_entry w_endpoints endpoint_uuid;;
    modify (λ w, set_endpoints (update_entry endpoint_uuid (λ e, mkEndpoint status (ep_roles e)) (w_endpoints w)) w);;
    send_event endpoint_uuid CEndpoint fabric_uuid).

Definition lock_port (port_uuid : uuid) : M world unit :=
  try_catch (
    device_uuid ← get_device_uuid_by_dsp_port port_uuid;
    set_device_is_being_discovered device_uuid true;;
    w ← get;
    match lookup_entry device_uuid (w_drives w) with
    | Some _ =>
        try_catch (
          set_drive_status device_uuid (Starting, OK);;
          chassis ← get_chassis_uuid;
          send_event device_uuid CDrive chassis)
        (λ _, mret tt)
    | None => mret tt
    end)
  (λ _, mret tt);;
  set_endpoints_status (Starting, OK) port_uuid.

Definition unlock_port (port_uuid : uuid) : M world unit :=
  try_catch (
    device_uuid ← get_device_uuid_by_dsp_port port_uuid;
    set_device_is_being_discovered device_uuid false)
  (λ _, mret tt);;
  set_endpoints_status (Enabled, OK) port_uuid.

(** The loop of [get_enabled_endpoints_on_port]. *)
Fixpoint enabled_endpoints (endpoints : list uuid) : M world (list uuid) :=
  match endpoints with
  | [] => mret []
  | u :: endpoints' =>
      e ← get_entry w_endpoints u;
      rest ← enabled_endpoints endpoints';
      mret (if decide ((ep_status e).1 = Enabled) then u :: rest else rest)
  end.

Definition get_enabled_endpoints_on_port (port_uuid : uuid) : M world (list uuid) :=
  w ← get; enabled_endpoints (ManyToMany.get_parents port_uuid (w_endpoint_port w)).

Definition get_bindings_on_port (port_uuid : uuid) : M world (list ZoneEndpointPair) :=
  endpoints ← get_enabled_endpoints_on_port port_uuid;
  w ← get;
  mret (endpoints ≫= λ endpoint_uuid,
    (λ zone_uuid, (zone_uuid, endpoint_uuid)) <$> oset (ManyToMany.get_parents endpoint_uuid (w_zone_endpoint w))).

Definition attach_endpoint_to_zone (switch_uuid endpoint_uuid zone_uuid : uuid) : M world unit :=
  get_gas switch_uuid;;
  w ← get;
  on_gas (bind_endpoint_to_zone polls
    (λ u, match lookup_entry u (w_ports w) with Some p => Ok p | None => Throw invalid_uuid end)
    (λ u, match lookup_entry u (w_endpoints w) with Some e => Ok (ep_roles e) | None => Throw invalid_uuid end)
    (λ z, bool_decide (z ∈ w_zones w)) (w_zone_endpoint w) (w_endpoint_port w) zone_uuid endpoint_uuid);;
  modify (λ w, set_zone_endpoint (ManyToMany.add_entry zone_uuid endpoint_uuid "" (w_zone_endpoint w)) w);;
  fabric_uuid ← get_fabric_uuid;
  send_event zone_uuid CZone fabric_uuid.

Definition unbind_port (switch_uuid port_uuid : uuid) : M world unit :=
  get_gas switch_uuid;;
  phys ← get_entry w_ports port_uuid;
  port_info ← on_gas (get_port_binding_info (wrap 8 phys));
  b ← lift (index (port_binding_info port_info) 0);
  on_gas (unbind_from_partition polls (pb_partition_id b) (pb_logical_bridge_id b)).

(** [std::adjacent_find(..., pred) == end], [pred(p1, p2) = get<0>(p1) != get<1>(p2)] *)
Fixpoint no_adjacent_differ (bindings : list ZoneEndpointPair) : bool :=
  match bindings with
  | p1 :: ((p2 :: _) as rest) => if decide (p1.1 ≠ p2.2) then false else no_adjacent_differ rest
  | _ => true
  end.

Definition is_port_in_valid_zone (port_uuid : uuid) : M world bool :=
  bindings ← get_bindings_on_port port_uuid;
  match bindings with
  | [] => mret false
  | b :: _ =>
      if negb (no_adjacent_differ bindings)
      then throw (runtime_error "Port exists in several zones by different endpoints")
      else is_initiator_in_zone b.1
  end.

#[local] Instance port_state_worker : PortStateWorkerOps world := {|
  PortStateManager.get_bridge_id := get_bridge_id;
  PortStateManager.ib_discovery := ib_discovery;
  PortStateManager.bind_to_host := bind_to_host;
  PortStateManager.unbind_from_host := unbind_from_host;
  PortStateManager.full_discovery := full_discovery;
  PortStateManager.oob_discovery := oob_discovery;
  PortStateManager.remove := remove;
  PortStateManager.get_device_uuid_by_dsp_port := get_device_uuid_by_dsp_port;
  PortStateManager.lock_port := lock_port;
  PortStateManager.unlock_port := unlock_port;
  PortStateManager.get_bindings_on_port := get_bindings_on_port;
  PortStateManager.get_enabled_endpoints_on_port := get_enabled_endpoints_on_port;
  PortStateManager.attach_endpoint_to_zone := attach_endpoint_to_zone;
  PortStateManager.unbind_port := unbind_port;
  PortStateManager.is_port_in_valid_zone := is_port_in_valid_zone;
|}.

(** ** Valid zones *)

(** is_port_in_valid_zone looks for an initiator in the zone of a port
    that has one (zone, endpoint) binding; for a port with two or more bindings
    it throws, even when all of them are to the same zone, because it compares
    the zone of a binding with the endpoint of the next one. *)
Theorem valid_zone_needs_one_binding port w bs w' :
  get_bindings_on_port port w = (Ok bs, w') →
  (∀ b b', b ∈ bs → b' ∈ bs → b.1 ≠ b'.2) →
  is_port_in_valid_zone port w =
  match bs with
  | [] => (Ok false, w')
  | [b] => is_initiator_in_zone b.1 w'
  | _ => (Throw (runtime_error "Port exists in several zones by different endpoints"), w')
  end.
Proof using Type.
  intros Hb Hd. unfold is_port_in_valid_zone, mbind, M_bind. rewrite Hb.
  destruct bs as [|b1 [|b2 bs]]; [done|done|]. cbn [no_adjacent_differ].
  rewrite decide_True; [done|].
  apply Hd; [apply list_elem_of_here|apply list_elem_of_further, list_elem_of_here].
Qed.

(** ** Locking *)

Lemma lookup_update_entry {A} u v (f : A → A) l :
  lookup_entry u (update_entry v f l) = (if decide (u = v) then f else id) <$> lookup_entry u l.
Proof using Type.
  unfold lookup_entry, update_entry. induction l as [|[k x] l IH]; [by case_decide|].
  rewrite fmap_cons, !filter_cons. cbn [fst snd].
  destruct (decide (k = v)) as [Hkv|Hkv]; cbn [fst snd]; destruct (decide (k = u)) as [Hku|Hku];
    try exact IH; subst; cbn; by rewrite ?decide_True, ?decide_False by done.
Qed.

(** What locking does not change. *)
Definition same_relations (w1 w2 : world) : Prop :=
  w_endpoint_port w1 = w_endpoint_port w2 ∧ w_zone_endpoint w1 = w_zone_endpoint w2 ∧
  w_fabrics w1 = w_fabrics w2 ∧ w_ports w1 = w_ports w2 ∧ w_switches w1 = w_switches w2.

Definition same_endpoints (w1 w2 : world) : Prop :=
  same_relations w1 w2 ∧ w_endpoints w1 = w_endpoints w2.

Definition with_status (st : Status) (e : Endpoint) : Endpoint := mkEndpoint st (ep_roles e).

Definition set_one (st : Status) (fabric u : uuid) : M world unit :=
  get_entry w_endpoints u;;
  modify (λ w, set_endpoints (update_entry u (λ e, mkEndpoint st (ep_roles e)) (w_endpoints w)) w);;
  send_event u CEndpoint fabric.

Lemma set_loop st fabric us w :
  (∀ u, u ∈ us → is_Some (lookup_entry u (w_endpoints w))) →
  ∃ w', for_each us (set_one st fabric) w = (Ok tt, w') ∧ same_relations w w' ∧
    ∀ u, lookup_entry u (w_endpoints w') =
      (if decide (u ∈ us) then with_status st else id) <$> lookup_entry u (w_endpoints w).
Proof using Type.
  revert w. induction us as [|v us IH]; intros w Hex.
  { exists w. split_and!; try done. intros u. rewrite decide_False by (by intros ?%elem_of_nil).
    by destruct (lookup_entry u _). }
  destruct (Hex v) as [e He]; [apply list_elem_of_here|].
  set (w1 := set_endpoints (update_entry v (with_status st) (w_endpoints w)) w).
  set (w2 := (send_event v CEndpoint fabric w1).2).
  assert (for_each (v :: us) (set_one st fabric) w = for_each us (set_one st fabric) w2) as ->.
  { cbn [for_each]. unfold mbind, M_bind.
    assert (set_one st fabric v w = (Ok tt, w2)) as ->; [|done].
    unfold set_one, get_entry, mbind, M_bind, get. by rewrite He. }
  destruct (IH w2) as (w' & Hw' & Hs & Hl).
  { intros u Hu. change (w_endpoints w2) with (update_entry v (with_status st) (w_endpoints w)).
    rewrite lookup_update_entry. apply fmap_is_Some, Hex. by apply list_elem_of_further. }
  exists w'. split_and!; [done|exact Hs|]. intros u. rewrite Hl.
  change (w_endpoints w2) with (update_entry v (with_status st) (w_endpoints w)).
  rewrite lookup_update_entry. destruct (lookup_entry u (w_endpoints w)) as [x|]; [|done].
  simpl. f_equal. pose proof (elem_of_cons us u v) as Hc. clear -Hc.
  destruct (decide (u = v)), (decide (u ∈ us)), (decide (u ∈ v :: us)); try done; tauto.
Qed.

Lemma set_loop_exists st fabric us w w' :
  for_each us (set_one st fabric) w = (Ok tt, w') →
  ∀ u, u ∈ us → is_Some (lookup_entry u (w_endpoints w)).
Proof using Type.
  revert w. induction us as [|v us IH]; intros w Hw u Hu; [by apply elem_of_nil in Hu|].
  cbn [for_each] in Hw. unfold mbind, M_bind in Hw.
  destruct (set_one st fabric v w) as [[[]|x] w2] eqn:E; [|done].
  unfold set_one, get_entry, mbind, M_bind, get in E.
  destruct (lookup_entry v (w_endpoints w)) as [e|] eqn:Ev; [|done]. injection E as <-.
  apply elem_of_cons in Hu as [->|Hu]; [by eexists|].
  pose proof (IH _ Hw u Hu) as He. cbn [w_endpoints set_endpoints] in He.
  rewrite lookup_update_entry in He. by apply fmap_is_Some in He.
Qed.

(** The endpoints of the port exist and have got the status. *)
Lemma set_endpoints_status_ok st port w w' :
  set_endpoints_status st port w = (Ok tt, w') →
  same_relations w w' ∧
  (∀ u, u ∈ ManyToMany.get_parents port (w_endpoint_port w) → is_Some (lookup_entry u (w_endpoints w))) ∧
  (∃ f, generic_get_uuid (w_fabrics w) = Ok f) ∧
  ∀ u, lookup_entry u (w_endpoints w') =
    (if decide (u ∈ ManyToMany.get_parents port (w_endpoint_port w)) then with_status st else id)
    <$> lookup_entry u (w_endpoints w).
Proof using Type.
  unfold set_endpoints_status, get_fabric_uuid, mbind, M_bind, get, lift.
  destruct (generic_get_uuid (w_fabrics w)) as [f|e]; [|done].
  change (for_each _ _) with (for_each (ManyToMany.get_parents port (w_endpoint_port w)) (set_one st f)).
  intros Hw. pose proof (set_loop_exists _ _ _ _ _ Hw) as Hex.
  destruct (set_loop st f _ w Hex) as (w2 & Hw2 & Hs & Hl).
  rewrite Hw in Hw2. injection Hw2 as <-. split; [done|]. split; [done|]. split; [by exists f|done].
Qed.

Lemma set_endpoints_status_total st port w f :
  generic_get_uuid (w_fabrics w) = Ok f →
  (∀ u, u ∈ ManyToMany.get_parents port (w_endpoint_port w) → is_Some (lookup_entry u (w_endpoints w))) →
  ∃ w', set_endpoints_status st port w = (Ok tt, w').
Proof using Type.
  intros Hf Hex. unfold set_endpoints_status, get_fabric_uuid, mbind, M_bind, get, lift. rewrite Hf.
  change (for_each _ _) with (for_each (ManyToMany.get_parents port (w_endpoint_port w)) (set_one st f)).
  destruct (set_loop st f _ w Hex) as (w2 & Hw2 & _). by exists w2.
Qed.

(** The device part of locking leaves the endpoints and relations. *)
Definition keeps_endpoints {A} (m : M world A) : Prop := ∀ w0, preserves (same_endpoints w0) m.

Lemma keeps_get_device port : keeps_endpoints (get_device_uuid_by_dsp_port port).
Proof using Type.
  intros w0. unfold get_device_uuid_by_dsp_port. apply preserves_bind; [auto with psme|].
  intros w. repeat case_match; auto with psme.
Qed.

Lemma keeps_set_discovered d b : keeps_endpoints (set_device_is_being_discovered d b).
Proof using Type.
  intros w0 w Hw. unfold set_device_is_being_discovered, mbind, M_bind, get, put.
  repeat case_match; exact Hw.
Qed.

Lemma keeps_get_entry {A} (tbl : world → list (uuid * A)) u : keeps_endpoints (get_entry tbl u).
Proof using Type.
  intros w0 w Hw. unfold get_entry, mbind, M_bind, get. by destruct (lookup_entry u (tbl w)).
Qed.

Lemma keeps_send_event u c p : keeps_endpoints (send_event u c p).
Proof using Type. by intros w0 w Hw. Qed.

Lemma keeps_set_drive_status d st : keeps_endpoints (set_drive_status d st).
Proof using Type.
  intros w0. unfold set_drive_status, update_drive_status.
  apply preserves_bind; [apply keeps_get_entry|]. intros x. case_match; [|auto with psme].
  apply preserves_bind; [apply keeps_get_entry|]. intros y. case_match.
  apply preserves_bind; [by intros w Hw|]. intros _. unfold when. case_match; [apply keeps_send_event|auto with psme].
Qed.

Hint Resolve keeps_get_device keeps_set_discovered keeps_send_event keeps_set_drive_status : psme.

Lemma lock_device_keeps port w0 :
  preserves (same_endpoints w0) (try_catch (
    device_uuid ← get_device_uuid_by_dsp_port port;
    set_device_is_being_discovered device_uuid true;;
    w ← get;
    match lookup_entry device_uuid (w_drives w) with
    | Some _ =>
        try_catch (
          set_drive_status device_uuid (Starting, OK);;
          chassis ← get_chassis_uuid;
          send_event device_uuid CDrive chassis)
        (λ _, mret tt)
    | None => mret tt
    end)
  (λ _, mret tt)).
Proof using Type.
  apply preserves_try; [|auto with psme]. apply preserves_bind; [apply keeps_get_device|]. intros d.
  apply preserves_bind; [apply keeps_set_discovered|]. intros _.
  apply preserves_bind; [auto with psme|]. intros w. case_match; [|auto with psme].
  apply preserves_try; [|auto with psme]. apply preserves_bind; [apply keeps_set_drive_status|]. intros _.
  unfold get_chassis_uuid. apply preserves_bind; [auto with psme|]. intros c. apply keeps_send_event.
Qed.

Lemma try_unit_ok (m : M world unit) w : ∃ w', try_catch m (λ _, mret tt) w = (Ok tt, w').
Proof using Type. unfold try_catch. destruct (m w) as [[[]|] w']; by eexists. Qed.

(** The endpoints a port has, after its endpoints got a status. *)
Definition all_have (st : Status) (port : uuid) (w w' : world) : Prop :=
  same_relations w w' ∧
  (∀ u, u ∈ ManyToMany.get_parents port (w_endpoint_port w) → is_Some (lookup_entry u (w_endpoints w))) ∧
  (∃ f, generic_get_uuid (w_fabrics w) = Ok f) ∧
  ∀ u, lookup_entry u (w_endpoints w') =
    (if decide (u ∈ ManyToMany.get_parents port (w_endpoint_port w)) then with_status st else id)
    <$> lookup_entry u (w_endpoints w).

Lemma same_endpoints_all_have st port w w1 w' :
  same_endpoints w w1 → all_have st port w1 w' → all_have st port w w'.
Proof using Type.
  intros [(E1 & E2 & E3 & E4 & E5) E6] [(F1 & F2 & F3 & F4 & F5) F6].
  unfold all_have, same_relations. rewrite E1, E2, E3, E4, E5, E6. by split.
Qed.

Lemma lock_port_ok port w w' : lock_port port w = (Ok tt, w') → all_have (Starting, OK) port w w'.
Proof using Type.
  unfold lock_port. intros H. unfold mbind at 1, M_bind at 1 in H.
  destruct (try_unit_ok (device_uuid ← get_device_uuid_by_dsp_port port;
    set_device_is_being_discovered device_uuid true;;
    w ← get;
    match lookup_entry device_uuid (w_drives w) with
    | Some _ => try_catch (set_drive_status device_uuid (Starting, OK);;
          chassis ← get_chassis_uuid; send_event device_uuid CDrive chassis) (λ _, mret tt)
    | None => mret tt
    end) w) as (w1 & Hw1).
  pose proof (lock_device_keeps port w w ltac:(done)) as Hk. rewrite Hw1 in Hk, H.
  eapply same_endpoints_all_have; [exact Hk|]. by apply set_endpoints_status_ok.
Qed.

Lemma unlock_port_total port w :
  (∀ u, u ∈ ManyToMany.get_parents port (w_endpoint_port w) → is_Some (lookup_entry u (w_endpoints w))) →
  (∃ f, generic_get_uuid (w_fabrics w) = Ok f) →
  ∃ w', unlock_port port w = (Ok tt, w') ∧ all_have (Enabled, OK) port w w'.
Proof using Type.
  intros Hex [f Hf]. unfold unlock_port. unfold mbind at 1, M_bind at 1.
  destruct (try_unit_ok (device_uuid ← get_device_uuid_by_dsp_port port;
    set_device_is_being_discovered device_uuid false) w) as (w1 & Hw1). rewrite Hw1.
  assert (same_endpoints w w1) as Hk.
  { change w1 with (Ok tt : result unit, w1).2. rewrite <- Hw1.
    apply preserves_try; [|auto with psme|done]. apply preserves_bind; [apply keeps_get_device|].
    intros d. apply keeps_set_discovered. }
  pose proof Hk as [(E1 & E2 & E3 & E4 & E5) E6].
  destruct (set_endpoints_status_total (Enabled, OK) port w1 f) as (w' & Hw').
  { by rewrite <- E3. }
  { intros u. rewrite <- E1, <- E6. apply Hex. }
  exists w'. split; [done|]. eapply same_endpoints_all_have; [exact Hk|]. by apply set_endpoints_status_ok.
Qed.

(** A port that has been locked can be unlocked, and then every endpoint
    of the port is Enabled and OK; the endpoints of other ports, the roles and the
    relations are as before the lock. *)
Theorem lock_then_unlock port w w1 :
  lock_port port w = (Ok tt, w1) →
  (∀ u e, u ∈ ManyToMany.get_parents port (w_endpoint_port w1) →
     lookup_entry u (w_endpoints w1) = Some e → ep_status e = (Starting, OK)) ∧
  ∃ w2, unlock_port port w1 = (Ok tt, w2) ∧ same_relations w w2 ∧
    ∀ u, lookup_entry u (w_endpoints w2) =
      (if decide (u ∈ ManyToMany.get_parents port (w_endpoint_port w)) then with_status (Enabled, OK) else id)
      <$> lookup_entry u (w_endpoints w).
Proof using Type.
  intros (Hr & Hex & Hf & Hl)%lock_port_ok. pose proof Hr as (E1 & E2 & E3 & E4 & E5). split.
  { intros u e. rewrite <- E1. intros Hu. rewrite Hl, decide_True by done.
    destruct (lookup_entry u (w_endpoints w)); [|done]. by intros [= <-]. }
  destruct (unlock_port_total port w1) as (w2 & Hw2 & (Hr2 & _ & _ & Hl2)).
  - rewrite <- E1. intros u Hu. rewrite Hl. by apply fmap_is_Some, Hex.
  - by rewrite <- E3.
  - exists w2. split_and!; [done| |].
    + destruct Hr2 as (F1 & F2 & F3 & F4 & F5). unfold same_relations.
      by rewrite E1, E2, E3, E4, E5, F1, F2, F3, F4, F5.
    + intros u. rewrite Hl2, Hl, E1. destruct (lookup_entry u (w_endpoints w)); [|done]. by case_decide.
Qed.

(** ** A failure after locking *)

Lemma enabled_endpoints_none us w :
  (∀ u, u ∈ us → ∃ e, lookup_entry u (w_endpoints w) = Some e ∧ ep_status e ≠ (Enabled, (ep_status e).2)) →
  enabled_endpoints us w = (Ok [], w).
Proof using Type.
  induction us as [|u us IH]; intros Hus; [done|]. cbn [enabled_endpoints].
  destruct (Hus u) as (e & He & Hne); [apply list_elem_of_here|].
  unfold get_entry, mbind, M_bind, get in *. rewrite He. cbn [mret M_ret].
  rewrite IH by (intros v Hv; apply Hus; by apply list_elem_of_further).
  rewrite decide_False; [done|]. intros Hst. apply Hne. by rewrite <- Hst, <- surjective_pairing.
Qed.

(** Only the switch changes. *)
Definition only_gas (w0 w : world) : Prop := ∃ g, w = set_gas g w0.

Lemma on_gas_only {A} (m : M G A) w0 : preserves (only_gas w0) (on_gas m).
Proof using Type. intros w [g ->]. unfold on_gas, zoom. destruct (m _) as [r g']. by exists g'. Qed.

Lemma get_entry_only {A} (tbl : world → list (uuid * A)) u w0 : preserves (only_gas w0) (get_entry tbl u).
Proof using Type.
  intros w Hw. unfold get_entry, mbind, M_bind, get. by destruct (lookup_entry u (tbl w)).
Qed.

Lemma bind_to_host_only sw port w0 : preserves (only_gas w0) (bind_to_host sw port).
Proof using Type.
  pose proof (@on_gas_only). pose proof (@get_entry_only).
  unfold bind_to_host, get_gas. auto 20 with psme.
Qed.

(** When binding to the management host fails in action_ib_bind_unbind
    after the port was locked, the action reports failure with the port still
    locked: all its endpoints are Starting, and the port has no enabled endpoint
    and no bindings any more as far as the recovery of bindings can see. *)
Theorem failed_bind_leaves_port_locked sw port e w1 :
  lock_port port (PortStateManager.m_worker e) = (Ok tt, w1) →
  is_ok (bind_to_host sw port w1).1 = false →
  ∃ e', PortStateManager.action_ib_bind_unbind sw port e = (Ok false, e') ∧
    get_enabled_endpoints_on_port port (PortStateManager.m_worker e') = (Ok [], PortStateManager.m_worker e') ∧
    get_bindings_on_port port (PortStateManager.m_worker e') = (Ok [], PortStateManager.m_worker e').
Proof using Type.
  intros Hlock Hbind.
  pose proof (bind_to_host_only sw port w1 w1) as Hg.
  destruct (bind_to_host sw port w1) as [[b|x] w2] eqn:Eb; [done|].
  set (e' := PortStateManager.mkEnv (PortStateManager.m_device_uuid e)
               (PortStateManager.m_recoverable_bindings e) w2).
  assert (get_enabled_endpoints_on_port port w2 = (Ok [], w2)) as Hen.
  { destruct Hg as [g Hg]; [by exists (w_gas w1); destruct w1|]. simpl in Hg.
    destruct (lock_port_ok _ _ _ Hlock) as ((E1 & _) & Hex & _ & Hl).
    unfold get_enabled_endpoints_on_port, mbind, M_bind, get. apply enabled_endpoints_none.
    subst w2. cbn [w_endpoint_port w_endpoints set_gas]. rewrite <- E1. intros u Hu.
    destruct (Hex u Hu) as [ep Hep]. exists (with_status (Starting, OK) ep).
    rewrite Hl, decide_True, Hep by done. done. }
  exists e'. split_and!; [|exact Hen|].
  - unfold PortStateManager.action_ib_bind_unbind, PortStateManager.guarded, try_catch.
    unfold PortStateManager.worker, zoom, mbind, M_bind, PortStateManager.lock_port,
      PortStateManager.bind_to_host, port_state_worker.
    rewrite Hlock. cbn [PortStateManager.m_worker]. by rewrite Eb.
  - unfold get_bindings_on_port, mbind at 1, M_bind at 1. cbn [PortStateManager.m_worker e'].
    by rewrite Hen.
Qed.

End worker.

(** ** A switch whose bridges are all taken, and a port with two endpoints *)

Section sample.
#[local] Existing Instance GasTool.sim_mrpc.

Definition sample_world : world (G := list (option Z)) :=
  mkWorld [Some 0%Z; Some 8%Z] [("sw", mkSwitch "/bridge" "/mem")]%string [("p1", 2%Z)]%string
    [("e1", mkEndpoint (Enabled, OK) [Target]); ("e2", mkEndpoint (Enabled, OK) [Target]);
     ("init", mkEndpoint (Enabled, OK) [Initiator])]%string
    [] [] ["z"]%string ["fabric"]%string ["chassis"]%string
    (ManyToMany.run_ops [ManyToMany.AddEntry "z" "e1" ""; ManyToMany.AddEntry "z" "e2" "";
                         ManyToMany.AddEntry "z" "init" ""] [])
    (ManyToMany.run_ops [ManyToMany.AddEntry "e1" "p1" ""; ManyToMany.AddEntry "e2" "p1" ""] [])
    [].

(** Both endpoints of the port are in the zone "z". *)
Lemma valid_zone_needs_one_binding_witness :
  get_bindings_on_port "p1" sample_world = (Ok [("z", "e1"); ("z", "e2")]%string, sample_world) ∧
  is_port_in_valid_zone "p1" sample_world =
    (Throw (runtime_error "Port exists in several zones by different endpoints"), sample_world).
Proof.
  split; [vm_compute; reflexivity|].
  rewrite (valid_zone_needs_one_binding "p1" sample_world [("z", "e1"); ("z", "e2")]%string sample_world).
  - reflexivity.
  - vm_compute. reflexivity.
  - intros b b' Hb Hb'. rewrite !elem_of_cons, elem_of_nil in Hb, Hb'.
    destruct Hb as [->|[->|[]]], Hb' as [->|[->|[]]]; discriminate.
Defined.

Lemma lock_then_unlock_witness :
  ∃ w2, unlock_port "p1" (lock_port "p1" sample_world).2 = (Ok tt, w2) ∧ same_relations sample_world w2.
Proof.
  destruct (lock_then_unlock "p1" sample_world (lock_port "p1" sample_world).2) as (_ & w2 & H1 & H2 & _).
  - vm_compute. reflexivity.
  - exists w2. split; [exact H1|exact H2].
Defined.

Lemma failed_bind_leaves_port_locked_witness :
  let w := PortStateManager.mkEnv "" [] sample_world in
  let read_gas : string → M (list (option Z)) Z := λ _, mret 0%Z in
  ∃ e', PortStateManager.action_ib_bind_unbind
          (PortStateWorkerOps0 := port_state_worker 3 read_gas (λ _ _, mret tt) (λ _ _ _ _, mret true)
             (λ _ _, mret true) (λ _ _, mret true)) "sw" "p1" w = (Ok false, e') ∧
    get_bindings_on_port "p1" (PortStateManager.m_worker e') = (Ok [], PortStateManager.m_worker e').
Proof.
  intros w read_gas.
  destruct (failed_bind_leaves_port_locked 3 read_gas (λ _ _, mret tt) (λ _ _ _ _, mret true)
             (λ _ _, mret true) (λ _ _, mret true) "sw" "p1" w (lock_port "p1" sample_world).2)
    as (e' & H1 & _ & H2).
  - vm_compute. reflexivity.
  - vm_compute. reflexivity.
  - exists e'. split; [exact H1|exact H2].
Defined.
End sample.

End PortStateWorker.
