(* ===== verification/Mux.v ===== *)
(** The REST request multiplexer
    (PSME/application/src/rest/server/multiplexer.cpp and mux/*.cpp), the path
    parameters (parameters.cpp) and the path builder
    (src/rest/endpoints/path_builder.cpp).

    [std::regex] is a function argument [regex_match pattern text].  Handlers and
    plugins are computations over the request and an environment [E], which holds
    the response.  Parameters are a finite map. *)

From Stdlib Require Import ZArith Lia Ascii.
From S2P Require Import Prelude.

Module Mux.

Open Scope string_scope.

(** ** Parameters *)

Abbreviation Parameters := (gmap string string).

Definition params_set (key value : string) (p : Parameters) : Parameters := <[key := value]> p.
Definition params_get (key : string) (p : Parameters) : string := default "" (p !! key).
Definition params_size (p : Parameters) : nat := size p.

(** ** Path builder *)

(** The state is the contents of the string stream. *)
Definition append (segment m_str : string) : string := m_str ++ "/" ++ segment.
Definition append_variable (name m_str : string) : string := m_str ++ "/" ++ "{" ++ name ++ "}".
Definition append_regex (name regex m_str : string) : string :=
  m_str ++ "/" ++ "{" ++ name ++ ":" ++ regex ++ "}".
Definition append_jsonptr (jsonptr m_str : string) : string := m_str ++ "#" ++ jsonptr.

Definition trim_trailing_slash (path : string) : string :=
  let len := String.length path in
  if decide (1 < len) then
    if decide (String.get (len - 1) path = Some "/"%char ∧ String.get (len - 2) path ≠ Some "/"%char)
    then String.substring 0 (len - 1) path else path
  else path.

(** ** Segments *)

(** The loop of [split_path]. *)
Fixpoint split_loop (path segment : string) (segments : list string) : list string :=
  match path with
  | EmptyString => if decide (segment = "") then segments else segments ++ [segment]
  | String ch path' =>
      if decide (ch = "/"%char) then split_loop path' "" (segments ++ [segment])
      else split_loop path' (segment ++ String ch "") segments
  end.

Definition split_path (path : string) : list string :=
  match path with
  | EmptyString => []
  | String ch path' => if decide (ch = "/"%char) then split_loop path' "" [] else split_loop path "" []
  end.

Inductive SegmentMatcher :=
  | EmptyMatcher
  | VariableMatcher (variable_name : string)
  | RegexMatcher (variable_name regex : string)
  | StaticMatcher (pattern : string).

#[global] Instance SegmentMatcher_eq_dec : EqDecision SegmentMatcher.
Proof. solve_decision. Defined.

Definition path_segment_to_matcher (path_segment : string) : SegmentMatcher :=
  let len := String.length path_segment in
  if decide (path_segment = "") then EmptyMatcher
  else if decide (String.get 0 path_segment = Some "{"%char ∧
                  String.get (len - 1) path_segment = Some "}"%char) then
    let trimmed_segment := String.substring 1 (len - 2) path_segment in
    match String.index 0 ":" trimmed_segment with
    | None => VariableMatcher trimmed_segment
    | Some colon_index =>
        RegexMatcher (String.substring 0 colon_index trimmed_segment)
          (String.substring (colon_index + 1) (String.length trimmed_segment - (colon_index + 1)) trimmed_segment)
    end
  else StaticMatcher path_segment.

Definition path_to_segments (path : string) : list SegmentMatcher :=
  path_segment_to_matcher <$> split_path path.

(** ** Splitting what was built *)

Definition no_slash (s : string) : Prop := Forall (λ c, c ≠ "/"%char) (String.list_ascii_of_string s).

(** A path segment: not empty, without separators. *)
Definition segment_ok (s : string) : Prop := s ≠ "" ∧ no_slash s.

#[global] Instance segment_ok_dec s : Decision (segment_ok s).
Proof. unfold segment_ok, no_slash. apply _. Defined.

(** The path of segments appended to [base]. *)
Definition build_path (base : string) (segments : list string) : string :=
  foldl (λ m s, append s m) base segments.

Fixpoint tail_path (segments : list string) : string :=
  match segments with [] => "" | s :: segments' => "/" ++ s ++ tail_path segments' end.

Lemma string_app_assoc (a b c : string) : a ++ (b ++ c) = (a ++ b) ++ c.
Proof. induction a as [|x a IH]; [done|]. exact (f_equal (String x) IH). Qed.

Lemma string_app_nil_r (a : string) : a ++ "" = a.
Proof. induction a as [|x a IH]; [done|]. exact (f_equal (String x) IH). Qed.

Lemma string_app_cons x (a b : string) : String x a ++ b = String x (a ++ b).
Proof. done. Qed.
Lemma string_app_nil_l (a : string) : "" ++ a = a.
Proof. done. Qed.

Lemma build_path_tail base segments : build_path base segments = base ++ tail_path segments.
Proof.
  revert base. induction segments as [|s segments IH]; intros base; [by rewrite string_app_nil_r|].
  cbn [build_path foldl] in *. unfold build_path in IH. rewrite IH. unfold append. cbn [tail_path].
  by rewrite <- !string_app_assoc.
Qed.

Lemma split_loop_segment s rest segment acc :
  no_slash s → split_loop (s ++ rest) segment acc = split_loop rest (segment ++ s) acc.
Proof.
  revert segment. induction s as [|c s IH]; intros segment Hs; [by rewrite string_app_nil_r|].
  apply list.Forall_cons in Hs as [Hc Hs]. rewrite string_app_cons. cbn [split_loop].
  rewrite decide_False by done. rewrite IH by done. by rewrite <- string_app_assoc.
Qed.

Lemma split_loop_tail segments segment acc :
  segment ≠ "" → Forall segment_ok segments →
  split_loop (tail_path segments) segment acc = (acc ++ segment :: segments)%list.
Proof.
  revert segment acc. induction segments as [|s segments IH]; intros segment acc Hne Hs.
  { cbn [tail_path split_loop]. by rewrite decide_False. }
  apply list.Forall_cons in Hs as [[Hs1 Hs2] Hs]. cbn [tail_path]. rewrite string_app_cons, string_app_nil_l.
  cbn [split_loop]. rewrite decide_True, split_loop_segment, string_app_nil_l by done.
  rewrite IH by done. by rewrite <- app_assoc.
Qed.

Lemma split_build_path segments : Forall segment_ok segments → split_path (build_path "" segments) = segments.
Proof.
  intros Hs. rewrite build_path_tail, string_app_nil_l. destruct segments as [|s segments]; [done|].
  apply list.Forall_cons in Hs as [[Hs1 Hs2] Hs]. cbn [tail_path].
  rewrite string_app_cons, string_app_nil_l. cbn [split_path].
  rewrite decide_True, split_loop_segment, string_app_nil_l by done.
  by rewrite split_loop_tail.
Qed.

Section mux.
Variable regex_match : string → string → bool.

Definition check_match (m : SegmentMatcher) (path_segment : string) : bool :=
  match m with
  | EmptyMatcher => true
  | VariableMatcher _ => bool_decide (path_segment ≠ "")
  | RegexMatcher _ regex => regex_match regex path_segment
  | StaticMatcher pattern => bool_decide (path_segment = pattern)
  end.

Definition get_param (m : SegmentMatcher) (path_segment : string) (params : Parameters) : Parameters :=
  match m with
  | VariableMatcher name | RegexMatcher name _ =>
      if decide (name = "") then params else params_set name path_segment params
  | _ => params
  end.

Fixpoint segments_match_loop (segments : list SegmentMatcher) (request_segments : list string) : bool :=
  match segments, request_segments with
  | m :: segments', s :: request_segments' =>
      if check_match m s then segments_match_loop segments' request_segments' else false
  | _, _ => true
  end.

Definition segments_match (segments : list SegmentMatcher) (request_segments : list string) : bool :=
  if decide (length segments ≠ length request_segments) then false
  else segments_match_loop segments request_segments.

(** The loop that fills the parameters: [req_segments[i]] is not checked. *)
Fixpoint collect_params (i : nat) (segments : list SegmentMatcher) (req_segments : list string)
    (params : Parameters) : result Parameters :=
  match segments with
  | [] => Ok params
  | m :: segments' =>
      s ← index req_segments i;
      collect_params (S i) segments' req_segments (get_param m s params)
  end.

(** ** Multiplexer *)

Inductive Method := GET | POST | PATCH | HEAD | PUT | DELETE | OPTIONS | UNKNOWN.
Inductive AccessType := ALL | SSL_REQUIRED.

#[global] Instance AccessType_eq_dec : EqDecision AccessType.
Proof. solve_decision. Defined.

Record Request := mkRequest {
  r_method : Method;
  r_url : string;
  r_secure : bool;
  r_params : Parameters;
}.

Section handlers.
Context {E : Type}.

Definition RequestHandler : Type := M (Request * E) unit.

Record MethodsHandler := mkHandler {
  h_path : string;
  h_get : RequestHandler;
  h_post : RequestHandler;
  h_patch : RequestHandler;
  h_del : RequestHandler;
  h_put : RequestHandler;
}.

Variable http_method_not_allowed : RequestHandler.

Record PathHandlerCandidate := mkCandidate {
  c_segments : list SegmentMatcher;
  c_handler : MethodsHandler;
  c_path : string;
  c_access : AccessType;
}.

Record t := mkMux {
  m_handler_candidates : list PathHandlerCandidate;
  m_plugin_pre_handlers : list RequestHandler;
  m_plugin_post_handlers : list RequestHandler;
}.

Definition mux0 : t := mkMux [] [] [].

Definition use_before (plugin : RequestHandler) (m : t) : t :=
  mkMux (m_handler_candidates m) (m_plugin_pre_handlers m ++ [plugin]) (m_plugin_post_handlers m).
Definition use_after (plugin : RequestHandler) (m : t) : t :=
  mkMux (m_handler_candidates m) (m_plugin_pre_handlers m) (m_plugin_post_handlers m ++ [plugin]).

Definition register_handler (handler : MethodsHandler) (access_type : AccessType) (m : t) : t :=
  let path := h_path handler in
  if existsb (λ candidate, bool_decide (c_path candidate = path)) (m_handler_candidates m) then m
  else mkMux (m_handler_candidates m ++ [mkCandidate (path_to_segments path) handler path access_type])
         (m_plugin_pre_handlers m) (m_plugin_post_handlers m).

(** [std::find_if] *)
Definition find_candidate (f : PathHandlerCandidate → bool) (m : t) : option PathHandlerCandidate :=
  list.head (filter (λ c, f c = true) (m_handler_candidates m)).

(** 404, or 401 below, in the [ServerException]. *)
Definition select_handler (segments : list string) (m : t) : result PathHandlerCandidate :=
  match find_candidate (λ c, segments_match (c_segments c) segments) m with
  | Some c => Ok c
  | None => Throw (server_exception 404)
  end.

Definition is_access_allowed (request : Request) (c : PathHandlerCandidate) : bool :=
  if decide (c_access c = ALL) then true else r_secure request.

Definition execute_handler (h : MethodsHandler) : RequestHandler :=
  st ← get;
  match r_method st.1 with
  | GET => h_get h
  | POST => h_post h
  | PATCH => h_patch h
  | DELETE => h_del h
  | PUT => h_put h
  | HEAD | OPTIONS | UNKNOWN => http_method_not_allowed
  end.

Definition collect_request_params (segments : list SegmentMatcher) (req_segments : list string) : RequestHandler :=
  st ← get;
  params ← lift (collect_params 0 segments req_segments (r_params st.1));
  put (mkRequest (r_method st.1) (r_url st.1) (r_secure st.1) params, st.2).

Definition forward_to_handler (m : t) : RequestHandler :=
  for_each (m_plugin_pre_handlers m) (λ handler, handler);;
  st ← get;
  let request_segments := split_path (r_url st.1) in
  candidate ← lift (select_handler request_segments m);
  if negb (is_access_allowed st.1 candidate) then throw (server_exception 401)
  else
    collect_request_params (c_segments candidate) request_segments;;
    execute_handler (c_handler candidate).

Definition is_correct_endpoint_url (url : string) (m : t) : bool :=
  match find_candidate (λ c, segments_match (c_segments c) (split_path url)) m with
  | Some _ => true
  | None => false
  end.

Definition get_params (path path_template : string) (m : t) : result Parameters :=
  match find_candidate (λ c, bool_decide (c_path c = path_template)) m with
  | None => Throw (logic_error "Unrecognized path template supplied to multiplexer.")
  | Some handler =>
      let path_segments := split_path path in
      if negb (segments_match (c_segments handler) path_segments) then Throw invalid_value
      else collect_params 0 (c_segments handler) path_segments ∅
  end.

Definition try_get_params (path path_template : string) (m : t) : result Parameters :=
  match find_candidate (λ c, bool_decide (c_path c = path_template)) m with
  | None => Throw (logic_error "Unrecognized path template supplied to multiplexer.")
  | Some handler =>
      let path_segments := split_path path in
      if segments_match (c_segments handler) path_segments
      then collect_params 0 (c_segments handler) path_segments ∅ else Ok ∅
  end.

(** [session_collection_path] is [Routes::SESSION_COLLECTION_PATH]. *)
Definition check_public_access (session_collection_path http_method url : string) (connection_secure : bool) (m : t)
    : result bool :=
  candidate ← select_handler (split_path url) m;
  if bool_decide (c_path candidate = session_collection_path) && bool_decide (http_method = "POST")
     && connection_secure then Ok true
  else Ok (bool_decide (c_access candidate = ALL)).

(** ** Parameters of a matched path *)

Definition variable_of (m : SegmentMatcher) : option string :=
  match m with
  | VariableMatcher name | RegexMatcher name _ => if decide (name = "") then None else Some name
  | _ => None
  end.

Definition variables (ts : list SegmentMatcher) : list string := omap variable_of ts.

(** The parameters of segments matched one by one. *)
Fixpoint collected (ts : list SegmentMatcher) (ss : list string) (p : Parameters) : Parameters :=
  match ts, ss with
  | m :: ts', s :: ss' => collected ts' ss' (get_param m s p)
  | _, _ => p
  end.

Lemma collect_params_collected i ts ss p :
  (length ts + i ≤ length ss)%nat → collect_params i ts ss p = Ok (collected ts (drop i ss) p).
Proof.
  revert i p. induction ts as [|m ts IH]; intros i p Hl; [done|]. cbn [length] in Hl.
  destruct (lookup_lt_is_Some_2 ss i ltac:(lia)) as [s Hs].
  cbn [collect_params]. unfold index. rewrite Hs. cbn [mbind result_bind].
  rewrite IH by lia. by rewrite (drop_S ss s i Hs).
Qed.

Lemma get_param_lookup m s p k :
  get_param m s p !! k = if decide (variable_of m = Some k) then Some s else p !! k.
Proof.
  unfold get_param, variable_of, params_set.
  destruct m as [|v|v r|]; try done; (destruct (decide (v = "")); [done|]);
    (destruct (decide (v = k)) as [->|Hk]; [by rewrite lookup_insert_eq, decide_True|]);
    rewrite lookup_insert_ne by done; by rewrite decide_False by congruence.
Qed.

Lemma collected_other ts ss p k : k ∉ variables ts → collected ts ss p !! k = p !! k.
Proof.
  revert ss p. induction ts as [|m ts IH]; intros ss p Hk; [done|]. destruct ss as [|s ss]; [done|].
  cbn [collected]. unfold variables in *. cbn in Hk. rewrite IH.
  - rewrite get_param_lookup. destruct (variable_of m) as [v|]; [|done].
    rewrite decide_False; [done|]. intros [= ->]. apply Hk, list_elem_of_here.
  - destruct (variable_of m); [|done]. intros Hin. by apply Hk, list_elem_of_further.
Qed.

Lemma collected_lookup ts ss p i m s v :
  NoDup (variables ts) → ts !! i = Some m → ss !! i = Some s → variable_of m = Some v →
  collected ts ss p !! v = Some s.
Proof.
  revert ss p i. induction ts as [|m' ts IH]; intros ss p i Hn Hm Hs Hv; [done|].
  destruct ss as [|s' ss]; [done|]. unfold variables in Hn. cbn in Hn. cbn [collected].
  destruct i as [|i]; simpl in Hm, Hs.
  - simplify_eq. rewrite Hv in Hn. apply list.NoDup_cons in Hn as [Hv' _].
    rewrite collected_other by done. by rewrite get_param_lookup, decide_True.
  - eapply IH; [|done|done|done]. destruct (variable_of m'); [|done]. by apply list.NoDup_cons in Hn as [_ Hn].
Qed.

Lemma segments_match_Forall2 ts ss :
  segments_match ts ss = true ↔ Forall2 (λ m s, check_match m s = true) ts ss.
Proof.
  unfold segments_match. revert ss. induction ts as [|m ts IH]; intros ss.
  - destruct ss; simpl; [done|]. split; [done|]. by inversion 1.
  - destruct ss as [|s ss]; [split; [done|by inversion 1]|]. cbn [length segments_match_loop].
    rewrite list.Forall2_cons, <- IH. destruct (check_match m s); repeat case_decide; try done; try lia;
      split; try done; by intros [].
Qed.

(** For a registered path template, get_params applied to any path built
    from segments that the template's matchers accept returns exactly the
    parameters of the template, each with the segment at its position; the
    indexing in the loop is always in range. *)
Lemma get_params_built m c ss :
  find_candidate (λ c', bool_decide (c_path c' = c_path c)) m = Some c →
  Forall2 (λ t s, check_match t s = true) (c_segments c) ss →
  Forall segment_ok ss → NoDup (variables (c_segments c)) →
  ∃ p, get_params (build_path "" ss) (c_path c) m = Ok p ∧
    (∀ i t s v, c_segments c !! i = Some t → ss !! i = Some s → variable_of t = Some v → p !! v = Some s) ∧
    (∀ k, is_Some (p !! k) → k ∈ variables (c_segments c)).
Proof.
  intros Hc Hm Hs Hn. unfold get_params. rewrite Hc, split_build_path by done.
  rewrite (proj2 (segments_match_Forall2 _ _) Hm). cbn [negb].
  rewrite collect_params_collected by (rewrite (Forall2_length Hm); lia). rewrite drop_0.
  eexists. split; [done|]. split.
  - intros i t s v Ht Hss Hv. by eapply collected_lookup.
  - intros k [s Hk]. destruct (decide (k ∈ variables (c_segments c))) as [|Hno]; [done|].
    by rewrite collected_other, lookup_empty in Hk.
Qed.

(** ** Dispatch *)

Lemma find_candidate_Some f m c : find_candidate f m = Some c → c ∈ m_handler_candidates m ∧ f c = true.
Proof.
  unfold find_candidate. intros Hh%list.head_Some_elem_of. apply list_elem_of_filter in Hh. tauto.
Qed.

(** Which segments of a path a segment of a template stands for. *)
Inductive stands_for : SegmentMatcher → string → Prop :=
  | stands_empty s : stands_for EmptyMatcher s
  | stands_variable name s : s ≠ "" → stands_for (VariableMatcher name) s
  | stands_regex name regex s : regex_match regex s = true → stands_for (RegexMatcher name regex) s
  | stands_static s : stands_for (StaticMatcher s) s.

Lemma check_match_stands_for m s : check_match m s = true ↔ stands_for m s.
Proof.
  destruct m as [|name|name regex|pattern]; cbn; rewrite ?bool_decide_eq_true; split; intros H;
    try (by constructor); try (by inversion H); by subst; constructor.
Qed.

(** A template matches a path segment by segment. *)
Definition matches (c : PathHandlerCandidate) (url : string) : Prop :=
  Forall2 stands_for (c_segments c) (split_path url).

Lemma segments_match_matches c url : segments_match (c_segments c) (split_path url) = true ↔ matches c url.
Proof.
  rewrite segments_match_Forall2. unfold matches.
  split; intros H; apply (list.Forall2_impl _ _ _ _ H); intros m s; apply check_match_stands_for.
Qed.

(** The candidate that matches the path and was registered before all the others that do. *)
Definition first_match (m : t) (url : string) (c : PathHandlerCandidate) : Prop :=
  ∃ before after, m_handler_candidates m = (before ++ c :: after)%list ∧ matches c url ∧
    Forall (λ c', ¬ matches c' url) before.

Lemma find_candidate_first url m :
  match find_candidate (λ c, segments_match (c_segments c) (split_path url)) m with
  | Some c => first_match m url c
  | None => Forall (λ c, ¬ matches c url) (m_handler_candidates m)
  end.
Proof.
  unfold find_candidate, first_match. induction (m_handler_candidates m) as [|c l IH]; [by apply list.Forall_nil|].
  rewrite filter_cons. destruct (decide (segments_match (c_segments c) (split_path url) = true)) as [Hc|Hc];
    rewrite segments_match_matches in Hc; cbn [list.head].
  - by exists [], l.
  - destruct (list.head _) as [c'|].
    + destruct IH as (before & after & -> & Hm & Hb). exists (c :: before), after. split_and!; [done|done|].
      by apply list.Forall_cons.
    + by apply list.Forall_cons.
Qed.

(** The parameters of a request after a template was matched: the variables of the template are
    bound to the segments of the path they stand for, other parameters stay. *)
Definition bound (c : PathHandlerCandidate) (url : string) (old p : Parameters) : Prop :=
  (∀ k, k ∉ variables (c_segments c) → p !! k = old !! k) ∧
  (NoDup (variables (c_segments c)) → ∀ i segment s v,
    c_segments c !! i = Some segment → split_path url !! i = Some s → variable_of segment = Some v →
    p !! v = Some s).

Lemma collected_bound c url old : bound c url old (collected (c_segments c) (split_path url) old).
Proof.
  split; [intros k; apply collected_other|]. intros Hn i segment s v Hi Hs Hv. by eapply collected_lookup.
Qed.

(** forward_to_handler after its plugins, case by case. *)
Lemma forward_run m req0 e0 req e :
  for_each (m_plugin_pre_handlers m) (λ handler, handler) (req0, e0) = (Ok tt, (req, e)) →
  forward_to_handler m (req0, e0) =
  match find_candidate (λ c, segments_match (c_segments c) (split_path (r_url req))) m with
  | None => (Throw (server_exception 404), (req, e))
  | Some c =>
      if decide (c_access c = SSL_REQUIRED ∧ r_secure req = false) then
        (Throw (server_exception 401), (req, e))
      else
        execute_handler (c_handler c)
          (mkRequest (r_method req) (r_url req) (r_secure req)
             (collected (c_segments c) (split_path (r_url req)) (r_params req)), e)
  end.
Proof.
  intros Hpre. unfold forward_to_handler, select_handler. unfold mbind, M_bind at 1. rewrite Hpre.
  unfold M_bind, get, lift. cbn [fst].
  destruct (find_candidate _ m) as [c|] eqn:Ef; [|done].
  apply find_candidate_Some in Ef as [_ Hm%segments_match_Forall2].
  unfold is_access_allowed. destruct (c_access c); destruct (r_secure req) eqn:Es; simpl;
    try done; unfold collect_request_params, mbind, M_bind, get, lift; cbn [fst];
    rewrite collect_params_collected by (rewrite (Forall2_length Hm); lia);
    rewrite drop_0; cbn; by rewrite ?Es.
Qed.


(** ** Registration *)

Definition registration : Type := MethodsHandler * AccessType.

Definition register_all (rs : list registration) (m : t) : t :=
  foldl (λ m r, register_handler r.1 r.2 m) m rs.

(** Every candidate was made from its path, and no path has two. *)
Record registered (m : t) : Prop := {
  reg_paths : NoDup (c_path <$> m_handler_candidates m);
  reg_segments : Forall (λ c, c_segments c = path_to_segments (c_path c)) (m_handler_candidates m);
}.

Lemma existsb_path path l :
  existsb (λ c : PathHandlerCandidate, bool_decide (c_path c = path)) l = true ↔ path ∈ c_path <$> l.
Proof.
  rewrite existsb_exists, list_elem_of_fmap. split.
  - intros (c & Hc & Hp%bool_decide_eq_true). exists c. split; [done|by apply list_elem_of_In].
  - intros (c & -> & Hc). exists c. split; [by apply list_elem_of_In|by apply bool_decide_eq_true].
Qed.

Lemma register_handler_registered h a m : registered m → registered (register_handler h a m).
Proof.
  intros [Hp Hs]. unfold register_handler. destruct (existsb _ _) eqn:Ee; [done|].
  assert (h_path h ∉ c_path <$> m_handler_candidates m) as Hn.
  { intros Hin%existsb_path. congruence. }
  split; cbn [m_handler_candidates].
  - rewrite fmap_app. apply list.NoDup_app. split_and!; [done| |apply NoDup_singleton].
    intros x Hx ->%list_elem_of_singleton. done.
  - apply Forall_app. split; [done|]. by apply Forall_cons_2; [|apply Forall_nil_2].
Qed.

Lemma register_all_registered rs m : registered m → registered (register_all rs m).
Proof.
  revert m. induction rs as [|r rs IH]; intros m Hm; [done|]. by apply IH, register_handler_registered.
Qed.

Lemma find_by_path m c :
  registered m → c ∈ m_handler_candidates m →
  find_candidate (λ c', bool_decide (c_path c' = c_path c)) m = Some c.
Proof.
  intros [Hp _] Hc. unfold find_candidate. revert Hp Hc. generalize (m_handler_candidates m) as l.
  induction l as [|x l IH]; intros Hp Hc; [by apply elem_of_nil in Hc|].
  cbn in Hp. apply list.NoDup_cons in Hp as [Hx Hp]. rewrite filter_cons.
  apply elem_of_cons in Hc as [->|Hc].
  - by rewrite decide_True by (by apply bool_decide_eq_true).
  - rewrite decide_False; [by apply IH|]. rewrite bool_decide_eq_true. intros Heq. apply Hx.
    rewrite Heq. by apply list_elem_of_fmap_2.
Qed.

End handlers.
End mux.

(** ** A service with two endpoints *)

Definition nop : @RequestHandler nat := λ st, (Ok tt, st).
Definition count (n : nat) : @RequestHandler nat := λ st, (Ok tt, (st.1, st.2 + n)%nat).

Definition sample_mux : @t nat :=
  use_after (count 100) (use_before (count 1)
    (register_all [(mkHandler "/public" (count 10) (count 20) (count 30) (count 40) (count 50), ALL);
                   (mkHandler "/items/{id}" (count 11) (count 21) (count 31) (count 41) (count 51), SSL_REQUIRED)]
       mux0)).

Definition items : @PathHandlerCandidate nat :=
  mkCandidate [StaticMatcher "items"; VariableMatcher "id"]
    (mkHandler "/items/{id}" (count 11) (count 21) (count 31) (count 41) (count 51)) "/items/{id}" SSL_REQUIRED.

Lemma items_matches : matches (λ _ _, false) items "/items/7".
Proof. by repeat constructor. Qed.

Lemma sample_first c : first_match (λ _ _, false) sample_mux "/items/7" c → c = items.
Proof.
  intros (before & after & E & Hc & _). destruct before as [|c1 [|c2 before]]; cbn in E.
  - injection E as <- _. inversion Hc as [|m s ms ss Hm]. inversion Hm.
  - by injection E as _ <- _.
  - injection E as _ _ E. by destruct before.
Qed.


End Mux.
