(* ===== verification/Routes.v ===== *)
(** The routes of the Redfish service
    (PSME/application/src/rest/constants/routes.cpp), the order in which
    EndpointBuilder::build_endpoints registers them
    (src/rest/endpoints/endpoint_builder.cpp), and the proof that the multiplexer
    finds every endpoint.

    The string constants of src/rest/constants are written out.  The endpoints
    registered only in debug builds (without NDEBUG) are marked.  [std::regex] is
    a function argument of which the laws for the three patterns in use are
    assumed. *)

From Stdlib Require Import ZArith Lia Ascii.
From S2P Require Import Prelude.
From S2P Require Import Mux.
Import Mux.

Module Routes.

Open Scope string_scope.

(** ** Paths *)

Definition REDFISH_PATH : string := append "redfish" "".
Definition ROOT_PATH : string := "/redfish/v1".
Definition ODATA_SERVICE_DOCUMENT : string := append "odata" "/redfish/v1".
Definition METADATA_ROOT_PATH : string := append "$metadata" "/redfish/v1".
Definition METADATA_PATH : string := append_regex "metadataFile" ".*.xml" (append "metadata" "/redfish/v1").
Definition UPDATE_SERVICE_PATH : string := append "UpdateService" "/redfish/v1".
Definition SIMPLE_UPDATE_PATH : string := append "SimpleUpdate" (append "Actions" (append "UpdateService" "/redfish/v1")).
Definition SIMPLE_UPDATE_ACTION_INFO_PATH : string := append "SimpleUpdateActionInfo" (append "UpdateService" "/redfish/v1").
Definition EVENT_SERVICE_PATH : string := append "EventService" "/redfish/v1".
Definition SUBSCRIPTION_COLLECTION_PATH : string := append "Subscriptions" EVENT_SERVICE_PATH.
Definition SUBSCRIPTION_PATH : string := append_regex "subscriptionId" "[0-9]+" SUBSCRIPTION_COLLECTION_PATH.
Definition SESSION_SERVICE_PATH : string := append "SessionService" "/redfish/v1".
Definition SESSION_COLLECTION_PATH : string := append "Sessions" SESSION_SERVICE_PATH.
Definition SESSION_PATH : string := append_regex "sessionId" "[0-9]+" SESSION_COLLECTION_PATH.
Definition MESSAGE_REGISTRY_FILE_COLLECTION_PATH : string := append "Registries" "/redfish/v1".
Definition MESSAGE_REGISTRY_FILE_PATH : string := append_regex "messageRegistryFileId" "[0-9]+" MESSAGE_REGISTRY_FILE_COLLECTION_PATH.
Definition TASK_SERVICE_PATH : string := append "TaskService" "/redfish/v1".
Definition TASK_COLLECTION_PATH : string := append "Tasks" (append "TaskService" "/redfish/v1").
Definition TASK_PATH : string := append_regex "taskId" "[0-9]+" TASK_COLLECTION_PATH.
Definition MONITOR_PATH : string := append "Monitor" TASK_PATH.
Definition CHASSIS_COLLECTION_PATH : string := append "Chassis" "/redfish/v1".
Definition CHASSIS_PATH : string := append_regex "chassisId" "[0-9]+" CHASSIS_COLLECTION_PATH.
Definition CHASSIS_RESET_PATH : string := append "Chassis.Reset" (append "Actions" CHASSIS_PATH).
Definition DRIVES_COLLECTION_PATH : string := append "Drives" CHASSIS_PATH.
Definition DRIVE_PATH : string := append_regex "driveId" "[0-9]+" DRIVES_COLLECTION_PATH.
Definition DRIVE_METRICS_PATH : string := append "Metrics" DRIVE_PATH.
Definition DRIVE_SECURE_ERASE_PATH : string := append "Drive.SecureErase" (append "Actions" DRIVE_PATH).
Definition PCIE_DEVICES_COLLECTION_PATH : string := append "PCIeDevices" CHASSIS_PATH.
Definition PCIE_DEVICE_PATH : string := append_regex "deviceId" "[0-9]+" PCIE_DEVICES_COLLECTION_PATH.
Definition PCIE_FUNCTIONS_COLLECTION_PATH : string := append "Functions" PCIE_DEVICE_PATH.
Definition PCIE_FUNCTION_PATH : string := append_regex "functionId" "[0-9]+" PCIE_FUNCTIONS_COLLECTION_PATH.
Definition THERMAL_PATH : string := append "Thermal" CHASSIS_PATH.
Definition POWER_PATH : string := append "Power" CHASSIS_PATH.
Definition POWER_SUPPLY_REQUEST_STATE_CHANGE_PATH : string := append "Intel.Oem.RequestPowerSupplyStateChange" (append "Actions" (append "Intel_RackScale" (append "Oem" POWER_PATH))).
Definition NETWORK_ADAPTERS_COLLECTION_PATH : string := append "NetworkAdapters" CHASSIS_PATH.
Definition NETWORK_ADAPTER_PATH : string := append_regex "networkAdapterId" "[0-9]+" NETWORK_ADAPTERS_COLLECTION_PATH.
Definition CHASSIS_NETWORK_DEVICE_FUNCTIONS_COLLECTION_PATH : string := append "NetworkDeviceFunctions" NETWORK_ADAPTER_PATH.
Definition CHASSIS_NETWORK_DEVICE_FUNCTION_PATH : string := append_regex "networkDeviceFunctionId" "[0-9]+" CHASSIS_NETWORK_DEVICE_FUNCTIONS_COLLECTION_PATH.
Definition MANAGER_COLLECTION_PATH : string := append "Managers" "/redfish/v1".
Definition MANAGER_PATH : string := append_regex "managerId" "[0-9]+" MANAGER_COLLECTION_PATH.
Definition MANAGER_RESET_PATH : string := append "Manager.Reset" (append "Actions" MANAGER_PATH).
Definition MANAGER_LOAD_FACTORY_DEFAULTS_PATH : string := append "Intel_RackScale.LoadFactoryDefaults" (append "Oem" (append "Actions" MANAGER_PATH)).
Definition MANAGER_NETWORK_INTERFACE_COLLECTION_PATH : string := append "EthernetInterfaces" MANAGER_PATH.
Definition MANAGER_NETWORK_INTERFACE_PATH : string := append_regex "nicId" "[0-9]+" MANAGER_NETWORK_INTERFACE_COLLECTION_PATH.
Definition MANAGER_VLAN_NETWORK_INTERFACE_COLLECTION_PATH : string := append "VLANs" MANAGER_NETWORK_INTERFACE_PATH.
Definition MANAGER_VLAN_NETWORK_INTERFACE_PATH : string := append_regex "vlanId" "[0-9]+" MANAGER_VLAN_NETWORK_INTERFACE_COLLECTION_PATH.
Definition NETWORK_PROTOCOL_PATH : string := append "NetworkProtocol" MANAGER_PATH.
Definition MANAGER_LOG_SERVICES_COLLECTION_PATH : string := append "LogServices" MANAGER_PATH.
Definition MANAGER_LOG_SERVICE_PATH : string := append_regex "logServiceId" "[0-9]+" MANAGER_LOG_SERVICES_COLLECTION_PATH.
Definition MANAGER_LOG_ENTRY_COLLECTION_PATH : string := append "Entries" MANAGER_LOG_SERVICE_PATH.
Definition MANAGER_LOG_ENTRY_PATH : string := append_regex "logEntryId" "[0-9]+" MANAGER_LOG_ENTRY_COLLECTION_PATH.
Definition SYSTEMS_COLLECTION_PATH : string := append "Systems" "/redfish/v1".
Definition SYSTEM_PATH : string := append_regex "systemId" "[0-9]+" SYSTEMS_COLLECTION_PATH.
Definition SYSTEM_RESET_PATH : string := append "ComputerSystem.Reset" (append "Actions" SYSTEM_PATH).
Definition SYSTEM_CHANGE_TPM_STATE_PATH : string := append "Intel.Oem.ChangeTPMState" (append "Oem" (append "Actions" SYSTEM_PATH)).
Definition MEMORY_ERASE_DCPMEM_PATH : string := append "Intel.Oem.EraseOptaneDCPersistentMemory" (append "Oem" (append "Actions" SYSTEM_PATH)).
Definition STORAGE_SUBSYSTEMS_COLLECTION_PATH : string := append "Storage" SYSTEM_PATH.
Definition STORAGE_SUBSYSTEM_PATH : string := append_regex "storageId" "[0-9]+" STORAGE_SUBSYSTEMS_COLLECTION_PATH.
Definition VOLUMES_COLLECTION_PATH : string := append "Volumes" STORAGE_SUBSYSTEM_PATH.
Definition SYSTEM_ETHERNET_INTERFACES_COLLECTION_PATH : string := append "EthernetInterfaces" SYSTEM_PATH.
Definition SYSTEM_ETHERNET_INTERFACE_PATH : string := append_regex "nicId" "[0-9]+" SYSTEM_ETHERNET_INTERFACES_COLLECTION_PATH.
Definition MEMORY_COLLECTION_PATH : string := append "Memory" SYSTEM_PATH.
Definition MEMORY_PATH : string := append_regex "memoryId" "[0-9]+" MEMORY_COLLECTION_PATH.
Definition MEMORY_METRICS_PATH : string := append "Metrics" MEMORY_PATH.
Definition PROCESSORS_COLLECTION_PATH : string := append "Processors" SYSTEM_PATH.
Definition PROCESSOR_PATH : string := append_regex "processorId" "[0-9]+" PROCESSORS_COLLECTION_PATH.
Definition PROCESSORS_METRICS_PATH : string := append "Metrics" PROCESSOR_PATH.
Definition PROCESSORS_SECURE_ERASE_PATH : string := append "Intel.Oem.SecureErase" (append "Oem" (append "Actions" PROCESSOR_PATH)).
Definition SYSTEM_METRICS_PATH : string := append "Metrics" SYSTEM_PATH.
Definition SYSTEM_STORAGE_SERVICES_PATH : string := append "StorageServices" SYSTEM_PATH.
Definition ETHERNET_SWITCHES_COLLECTION_PATH : string := append "EthernetSwitches" "/redfish/v1".
Definition ETHERNET_SWITCH_PATH : string := append_regex "ethernetSwitchId" "[0-9]+" ETHERNET_SWITCHES_COLLECTION_PATH.
Definition ACL_COLLECTION_PATH : string := append "ACLs" ETHERNET_SWITCH_PATH.
Definition ACL_PATH : string := append_regex "aclId" "[0-9]+" ACL_COLLECTION_PATH.
Definition ACL_BIND_PATH : string := append "EthernetSwitchACL.Bind" (append "Actions" ACL_PATH).
Definition ACL_UNBIND_PATH : string := append "EthernetSwitchACL.Unbind" (append "Actions" ACL_PATH).
Definition RULES_COLLECTION_PATH : string := append "Rules" ACL_PATH.
Definition RULE_PATH : string := append_regex "ruleId" "[0-9]+" RULES_COLLECTION_PATH.
Definition ETHERNET_SWITCH_METRICS_PATH : string := append "Metrics" ETHERNET_SWITCH_PATH.
Definition ETHERNET_SWITCH_PORT_COLLECTION_PATH : string := append "Ports" ETHERNET_SWITCH_PATH.
Definition ETHERNET_SWITCH_PORT_PATH : string := append_regex "switchPortId" "[0-9]+" ETHERNET_SWITCH_PORT_COLLECTION_PATH.
Definition ETHERNET_SWITCH_PORT_METRICS_PATH : string := append "Metrics" ETHERNET_SWITCH_PORT_PATH.
Definition STATIC_MAC_COLLECTION_PATH : string := append "StaticMACs" ETHERNET_SWITCH_PORT_PATH.
Definition STATIC_MAC_PATH : string := append_regex "staticMacId" "[0-9]+" STATIC_MAC_COLLECTION_PATH.
Definition VLAN_NETWORK_INTERFACE_COLLECTION_PATH : string := append "VLANs" ETHERNET_SWITCH_PORT_PATH.
Definition VLAN_NETWORK_INTERFACE_PATH : string := append_regex "vlanId" "[0-9]+" VLAN_NETWORK_INTERFACE_COLLECTION_PATH.
Definition STORAGE_SERVICES_COLLECTION_PATH : string := append "StorageServices" "/redfish/v1".
Definition STORAGE_SERVICE_PATH : string := append_regex "serviceId" "[0-9]+" STORAGE_SERVICES_COLLECTION_PATH.
Definition STORAGE_POOL_COLLECTION_PATH : string := append "StoragePools" STORAGE_SERVICE_PATH.
Definition STORAGE_POOL_PATH : string := append_regex "storagePoolId" "[0-9]+" STORAGE_POOL_COLLECTION_PATH.
Definition ALLOCATED_VOLUMES_COLLECTION_PATH : string := append "AllocatedVolumes" STORAGE_POOL_PATH.
Definition ALLOCATED_POOLS_COLLECTION_PATH : string := append "AllocatedPools" STORAGE_POOL_PATH.
Definition STORAGE_POOL_CAPACITY_SOURCE : string := append_regex "capacitySourceId" "[0-9]+" (append "CapacitySources" STORAGE_POOL_PATH).
Definition STORAGE_POOL_PROVIDING_DRIVES_COLLECTION : string := append "ProvidingDrives" STORAGE_POOL_CAPACITY_SOURCE.
Definition STORAGE_POOL_PROVIDING_POOLS_COLLECTION : string := append "ProvidingPools" STORAGE_POOL_CAPACITY_SOURCE.
Definition STORAGE_POOL_PROVIDING_VOLUMES_COLLECTION : string := append "ProvidingVolumes" STORAGE_POOL_CAPACITY_SOURCE.
Definition VOLUME_COLLECTION_PATH : string := append "Volumes" STORAGE_SERVICE_PATH.
Definition VOLUME_PATH : string := append_regex "volumeId" "[0-9]+" VOLUME_COLLECTION_PATH.
Definition VOLUME_METRICS_PATH : string := append "Metrics" VOLUME_PATH.
Definition VOLUME_CAPACITY_SOURCE : string := append_regex "capacitySourceId" "[0-9]+" (append "CapacitySources" VOLUME_PATH).
Definition VOLUME_PROVIDING_POOLS_COLLECTION : string := append "ProvidingPools" VOLUME_CAPACITY_SOURCE.
Definition VOLUME_PROVIDING_VOLUMES_COLLECTION : string := append "ProvidingVolumes" VOLUME_CAPACITY_SOURCE.
Definition VOLUME_PROVIDING_DRIVES_COLLECTION : string := append "ProvidingDrives" VOLUME_CAPACITY_SOURCE.
Definition VOLUME_INITIALIZE_PATH : string := append "Volume.Initialize" (append "Actions" VOLUME_PATH).
Definition DRIVE_COLLECTION_PATH : string := append "Drives" STORAGE_SERVICE_PATH.
Definition FABRICS_COLLECTION_PATH : string := append "Fabrics" "/redfish/v1".
Definition FABRIC_PATH : string := append_regex "fabricId" "[0-9]+" FABRICS_COLLECTION_PATH.
Definition ENDPOINTS_COLLECTION_PATH : string := append "Endpoints" FABRIC_PATH.
Definition ENDPOINT_PATH : string := append_regex "endpointId" "[0-9]+" ENDPOINTS_COLLECTION_PATH.
Definition SWITCHES_COLLECTION_PATH : string := append "Switches" FABRIC_PATH.
Definition SWITCH_PATH : string := append_regex "switchId" "[0-9]+" SWITCHES_COLLECTION_PATH.
Definition SWITCH_RESET_PATH : string := append "Switch.Reset" (append "Actions" SWITCH_PATH).
Definition ZONES_COLLECTION_PATH : string := append "Zones" FABRIC_PATH.
Definition ZONE_PATH : string := append_regex "zoneId" "[0-9]+" ZONES_COLLECTION_PATH.
Definition PORTS_COLLECTION_PATH : string := append "Ports" SWITCH_PATH.
Definition PORT_PATH : string := append_regex "portId" "[0-9]+" PORTS_COLLECTION_PATH.
Definition PORT_METRICS_PATH : string := append "Metrics" PORT_PATH.
Definition PORT_RESET_PATH : string := append "Port.Reset" (append "Actions" PORT_PATH).
Definition TELEMETRY_SERVICE_PATH : string := append "TelemetryService" "/redfish/v1".
Definition METRIC_DEFINITIONS_COLLECTION_PATH : string := append "MetricDefinitions" TELEMETRY_SERVICE_PATH.
Definition METRIC_DEFINITION_PATH : string := append_regex "metricDefinitionId" "[0-9]+" METRIC_DEFINITIONS_COLLECTION_PATH.
Definition METRIC_REPORT_DEFINITIONS_COLLECTION_PATH : string := append "MetricReportDefinitions" TELEMETRY_SERVICE_PATH.
Definition METRIC_REPORT_DEFINITION_PATH : string := append_regex "metricReportDefinitionId" "[0-9]+" METRIC_REPORT_DEFINITIONS_COLLECTION_PATH.
Definition TRIGGERS_COLLECTION_PATH : string := append "Triggers" TELEMETRY_SERVICE_PATH.
Definition TRIGGER_PATH : string := append_regex "triggerId" "[0-9]+" TRIGGERS_COLLECTION_PATH.
Definition ACCOUNT_SERVICE_PATH : string := append "AccountService" "/redfish/v1".
Definition ACCOUNTS_COLLECTION_PATH : string := append "Accounts" ACCOUNT_SERVICE_PATH.
Definition ACCOUNT_PATH : string := append_regex "accountId" "[0-9]+" ACCOUNTS_COLLECTION_PATH.
Definition ROLES_COLLECTION_PATH : string := append "Roles" ACCOUNT_SERVICE_PATH.
Definition ROLE_PATH : string := append_regex "roleId" "[A-Za-z]+" ROLES_COLLECTION_PATH.
Definition INTEL_RACKSCALE_REGISTRY_PATH : string := "/registries/Intel_RackScale.1.0.0.json".

(** ** Registration *)

(** Path, access, and whether only a debug build registers it. *)
Abbreviation route := (string * AccessType * bool)%type.

Definition build_endpoints_1 : list route :=
  [(REDFISH_PATH, ALL, false);
   (ROOT_PATH, ALL, false);
   (ODATA_SERVICE_DOCUMENT, ALL, false);
   (METADATA_ROOT_PATH, ALL, false);
   (METADATA_PATH, ALL, false);
   (UPDATE_SERVICE_PATH, SSL_REQUIRED, false);
   (SIMPLE_UPDATE_ACTION_INFO_PATH, SSL_REQUIRED, false);
   (SIMPLE_UPDATE_PATH, SSL_REQUIRED, false);
   (EVENT_SERVICE_PATH, SSL_REQUIRED, false);
   (SUBSCRIPTION_COLLECTION_PATH, SSL_REQUIRED, false);
   (SUBSCRIPTION_PATH, SSL_REQUIRED, false);
   (SESSION_SERVICE_PATH, SSL_REQUIRED, false);
   (SESSION_COLLECTION_PATH, SSL_REQUIRED, false);
   (SESSION_PATH, SSL_REQUIRED, false);
   (MESSAGE_REGISTRY_FILE_COLLECTION_PATH, SSL_REQUIRED, false);
   (MESSAGE_REGISTRY_FILE_PATH, SSL_REQUIRED, false);
   (TASK_SERVICE_PATH, SSL_REQUIRED, false);
   (TASK_COLLECTION_PATH, SSL_REQUIRED, false);
   (TASK_PATH, SSL_REQUIRED, false);
   (MONITOR_PATH, SSL_REQUIRED, false);
   (CHASSIS_COLLECTION_PATH, SSL_REQUIRED, false);
   (CHASSIS_PATH, SSL_REQUIRED, false);
   (CHASSIS_RESET_PATH, SSL_REQUIRED, false);
   (DRIVES_COLLECTION_PATH, SSL_REQUIRED, true);
   (DRIVE_PATH, SSL_REQUIRED, false);
   (DRIVE_METRICS_PATH, SSL_REQUIRED, false);
   (DRIVE_SECURE_ERASE_PATH, SSL_REQUIRED, false);
   (PCIE_DEVICES_COLLECTION_PATH, SSL_REQUIRED, true);
   (PCIE_DEVICE_PATH, SSL_REQUIRED, false);
   (PCIE_FUNCTIONS_COLLECTION_PATH, SSL_REQUIRED, true);
   (PCIE_FUNCTION_PATH, SSL_REQUIRED, false);
   (POWER_PATH, SSL_REQUIRED, false);
   (POWER_SUPPLY_REQUEST_STATE_CHANGE_PATH, SSL_REQUIRED, false);
   (THERMAL_PATH, SSL_REQUIRED, false);
   (NETWORK_ADAPTERS_COLLECTION_PATH, SSL_REQUIRED, false);
   (NETWORK_ADAPTER_PATH, SSL_REQUIRED, false);
   (CHASSIS_NETWORK_DEVICE_FUNCTIONS_COLLECTION_PATH, SSL_REQUIRED, false);
   (CHASSIS_NETWORK_DEVICE_FUNCTION_PATH, SSL_REQUIRED, false);
   (MANAGER_COLLECTION_PATH, SSL_REQUIRED, false);
   (MANAGER_PATH, SSL_REQUIRED, false);
   (MANAGER_RESET_PATH, SSL_REQUIRED, false)].

Definition build_endpoints_2 : list route :=
  [(MANAGER_LOAD_FACTORY_DEFAULTS_PATH, SSL_REQUIRED, false);
   (MANAGER_NETWORK_INTERFACE_COLLECTION_PATH, SSL_REQUIRED, false);
   (MANAGER_NETWORK_INTERFACE_PATH, SSL_REQUIRED, false);
   (MANAGER_VLAN_NETWORK_INTERFACE_COLLECTION_PATH, SSL_REQUIRED, false);
   (MANAGER_VLAN_NETWORK_INTERFACE_PATH, SSL_REQUIRED, false);
   (NETWORK_PROTOCOL_PATH, SSL_REQUIRED, false);
   (MANAGER_LOG_SERVICES_COLLECTION_PATH, SSL_REQUIRED, false);
   (MANAGER_LOG_SERVICE_PATH, SSL_REQUIRED, false);
   (MANAGER_LOG_ENTRY_COLLECTION_PATH, SSL_REQUIRED, false);
   (MANAGER_LOG_ENTRY_PATH, SSL_REQUIRED, false);
   (SYSTEMS_COLLECTION_PATH, SSL_REQUIRED, false);
   (SYSTEM_PATH, SSL_REQUIRED, false);
   (SYSTEM_RESET_PATH, SSL_REQUIRED, false);
   (SYSTEM_CHANGE_TPM_STATE_PATH, SSL_REQUIRED, false);
   (STORAGE_SUBSYSTEMS_COLLECTION_PATH, SSL_REQUIRED, false);
   (STORAGE_SUBSYSTEM_PATH, SSL_REQUIRED, false);
   (VOLUMES_COLLECTION_PATH, SSL_REQUIRED, false);
   (SYSTEM_ETHERNET_INTERFACES_COLLECTION_PATH, SSL_REQUIRED, false);
   (SYSTEM_ETHERNET_INTERFACE_PATH, SSL_REQUIRED, false);
   (MEMORY_COLLECTION_PATH, SSL_REQUIRED, false);
   (MEMORY_PATH, SSL_REQUIRED, false);
   (MEMORY_METRICS_PATH, SSL_REQUIRED, false);
   (MEMORY_ERASE_DCPMEM_PATH, SSL_REQUIRED, false);
   (PROCESSORS_COLLECTION_PATH, SSL_REQUIRED, false);
   (PROCESSOR_PATH, SSL_REQUIRED, false);
   (PROCESSORS_SECURE_ERASE_PATH, SSL_REQUIRED, false);
   (PROCESSORS_METRICS_PATH, SSL_REQUIRED, false);
   (SYSTEM_METRICS_PATH, SSL_REQUIRED, false);
   (SYSTEM_STORAGE_SERVICES_PATH, SSL_REQUIRED, false);
   (ETHERNET_SWITCHES_COLLECTION_PATH, SSL_REQUIRED, false);
   (ETHERNET_SWITCH_PATH, SSL_REQUIRED, false);
   (ACL_COLLECTION_PATH, SSL_REQUIRED, false);
   (ACL_PATH, SSL_REQUIRED, false);
   (ACL_BIND_PATH, SSL_REQUIRED, false);
   (ACL_UNBIND_PATH, SSL_REQUIRED, false);
   (RULES_COLLECTION_PATH, SSL_REQUIRED, false);
   (RULE_PATH, SSL_REQUIRED, false);
   (ETHERNET_SWITCH_PORT_COLLECTION_PATH, SSL_REQUIRED, false);
   (ETHERNET_SWITCH_PORT_PATH, SSL_REQUIRED, false);
   (STATIC_MAC_COLLECTION_PATH, SSL_REQUIRED, false);
   (STATIC_MAC_PATH, SSL_REQUIRED, false)].

Definition build_endpoints_3 : list route :=
  [(VLAN_NETWORK_INTERFACE_COLLECTION_PATH, SSL_REQUIRED, false);
   (VLAN_NETWORK_INTERFACE_PATH, SSL_REQUIRED, false);
   (STORAGE_SERVICES_COLLECTION_PATH, SSL_REQUIRED, false);
   (STORAGE_SERVICE_PATH, SSL_REQUIRED, false);
   (STORAGE_POOL_COLLECTION_PATH, SSL_REQUIRED, false);
   (STORAGE_POOL_PATH, SSL_REQUIRED, false);
   (ALLOCATED_VOLUMES_COLLECTION_PATH, SSL_REQUIRED, false);
   (ALLOCATED_POOLS_COLLECTION_PATH, SSL_REQUIRED, false);
   (STORAGE_POOL_CAPACITY_SOURCE, SSL_REQUIRED, false);
   (VOLUME_CAPACITY_SOURCE, SSL_REQUIRED, false);
   (STORAGE_POOL_PROVIDING_DRIVES_COLLECTION, SSL_REQUIRED, false);
   (STORAGE_POOL_PROVIDING_POOLS_COLLECTION, SSL_REQUIRED, false);
   (STORAGE_POOL_PROVIDING_VOLUMES_COLLECTION, SSL_REQUIRED, false);
   (VOLUME_PROVIDING_POOLS_COLLECTION, SSL_REQUIRED, false);
   (VOLUME_PROVIDING_DRIVES_COLLECTION, SSL_REQUIRED, false);
   (VOLUME_PROVIDING_VOLUMES_COLLECTION, SSL_REQUIRED, false);
   (VOLUME_COLLECTION_PATH, SSL_REQUIRED, false);
   (VOLUME_PATH, SSL_REQUIRED, false);
   (VOLUME_METRICS_PATH, SSL_REQUIRED, false);
   (VOLUME_INITIALIZE_PATH, SSL_REQUIRED, false);
   (DRIVE_COLLECTION_PATH, SSL_REQUIRED, false);
   (FABRICS_COLLECTION_PATH, SSL_REQUIRED, false);
   (FABRIC_PATH, SSL_REQUIRED, false);
   (ENDPOINTS_COLLECTION_PATH, SSL_REQUIRED, false);
   (ENDPOINT_PATH, SSL_REQUIRED, false);
   (SWITCHES_COLLECTION_PATH, SSL_REQUIRED, false);
   (SWITCH_PATH, SSL_REQUIRED, false);
   (SWITCH_RESET_PATH, SSL_REQUIRED, false);
   (ZONES_COLLECTION_PATH, SSL_REQUIRED, false);
   (ZONE_PATH, SSL_REQUIRED, false);
   (PORTS_COLLECTION_PATH, SSL_REQUIRED, false);
   (PORT_PATH, SSL_REQUIRED, false);
   (PORT_METRICS_PATH, SSL_REQUIRED, false);
   (PORT_RESET_PATH, SSL_REQUIRED, false);
   (TELEMETRY_SERVICE_PATH, SSL_REQUIRED, false);
   (METRIC_DEFINITIONS_COLLECTION_PATH, SSL_REQUIRED, false);
   (METRIC_DEFINITION_PATH, SSL_REQUIRED, false);
   (ACCOUNT_SERVICE_PATH, SSL_REQUIRED, false);
   (ACCOUNTS_COLLECTION_PATH, SSL_REQUIRED, false);
   (ACCOUNT_PATH, SSL_REQUIRED, false)].

Definition build_endpoints_4 : list route :=
  [(ROLES_COLLECTION_PATH, SSL_REQUIRED, false);
   (ROLE_PATH, SSL_REQUIRED, false);
   (INTEL_RACKSCALE_REGISTRY_PATH, ALL, false)].

(** [EndpointBuilder::build_endpoints] *)
Definition build_endpoints : list route :=
  build_endpoints_1 ++ build_endpoints_2 ++ build_endpoints_3 ++ build_endpoints_4.

Definition routes (debug : bool) : list route :=
  filter (λ r, r.2 = true → debug = true) build_endpoints.

(** ** Patterns *)

Definition ID_REGEX : string := "[0-9]+".
Definition STRING_ID_REGEX : string := "[A-Za-z]+".
Definition XML_REGEX : string := ".*.xml".

Definition between (a b c : ascii) : bool :=
  (N_of_ascii a <=? N_of_ascii c)%N && (N_of_ascii c <=? N_of_ascii b)%N.

Definition all_chars (f : ascii → bool) (s : string) : bool := forallb f (String.list_ascii_of_string s).

Definition is_digits (s : string) : bool := negb (String.eqb s "") && all_chars (between "0" "9") s.
Definition is_letters (s : string) : bool :=
  negb (String.eqb s "") && all_chars (λ c, between "A" "Z" c || between "a" "z" c) s.

(** Any characters but line breaks, one more of them, then "xml". *)
Definition is_xml (s : string) : bool :=
  let n := String.length s in
  (4 <=? n)%nat && String.eqb (String.substring (n - 3) 3 s) "xml"
  && all_chars (λ c, negb (Ascii.eqb c (ascii_of_N 10)) && negb (Ascii.eqb c (ascii_of_N 13))) s.

(** What the three patterns match (ECMAScript, the default of [std::regex]). *)
Class RegexLaws (regex_match : string → string → bool) := {
  id_regex s : regex_match ID_REGEX s = is_digits s;
  string_id_regex s : regex_match STRING_ID_REGEX s = is_letters s;
  xml_regex s : regex_match XML_REGEX s = is_xml s;
}.

(** ** Templates that cannot match the same path *)

(** A pattern that does not accept the string. *)
Definition rejects (r s : string) : bool :=
  (String.eqb r ID_REGEX && negb (is_digits s)) || (String.eqb r STRING_ID_REGEX && negb (is_letters s))
  || (String.eqb r XML_REGEX && negb (is_xml s)).

Definition incompatible (m n : SegmentMatcher) : bool :=
  match m, n with
  | StaticMatcher a, StaticMatcher b => negb (String.eqb a b)
  | StaticMatcher a, RegexMatcher _ r | RegexMatcher _ r, StaticMatcher a => rejects r a
  | _, _ => false
  end.

Fixpoint clash (ts us : list SegmentMatcher) : bool :=
  match ts, us with
  | [], [] => false
  | m :: ts', n :: us' => incompatible m n || clash ts' us'
  | _, _ => true
  end.

Fixpoint all_clash (tss : list (list SegmentMatcher)) : bool :=
  match tss with
  | [] => true
  | ts :: tss' => forallb (clash ts) tss' && all_clash tss'
  end.

Section regex.
Context (regex_match : string → string → bool) `{!RegexLaws regex_match}.

Abbreviation matches := (λ m s, check_match regex_match m s = true).

Lemma rejects_sound r s : rejects r s = true → regex_match r s = false.
Proof using Type*.
  unfold rejects. rewrite !orb_true_iff, !andb_true_iff, !negb_true_iff, !String.eqb_eq.
  intros [[[-> H]|[-> H]]|[-> H]]; by rewrite ?id_regex, ?string_id_regex, ?xml_regex.
Qed.

Lemma incompatible_sound m n s : incompatible m n = true → matches m s → matches n s → False.
Proof using Type*.
  destruct m as [|v|v r|a], n as [|v'|v' r'|b]; simpl; try done.
  - intros H Hm Hn. apply rejects_sound in H. apply bool_decide_eq_true in Hn. by subst; rewrite Hm in H.
  - intros H Hm Hn. apply rejects_sound in H. apply bool_decide_eq_true in Hm. by subst; rewrite Hn in H.
  - intros H Hm Hn. apply bool_decide_eq_true in Hm. apply bool_decide_eq_true in Hn. subst.
    by rewrite String.eqb_refl in H.
Qed.

Lemma clash_sound ts us ss :
  clash ts us = true → Forall2 matches ts ss → Forall2 matches us ss → False.
Proof using Type*.
  revert us ss. induction ts as [|m ts IH]; intros us ss Hc Ht Hu.
  - inversion Ht; subst. by inversion Hu; subst.
  - inversion Ht as [|? s ? ss' Hm Hts]; subst. inversion Hu as [|n ? us' ? Hn Hus]; subst.
    cbn [clash] in Hc. apply orb_true_iff in Hc as [Hc|Hc]; [by eapply incompatible_sound|by eapply IH].
Qed.

Lemma all_clash_unique tss i j ts us ss :
  all_clash tss = true → tss !! i = Some ts → tss !! j = Some us →
  Forall2 matches ts ss → Forall2 matches us ss → i = j.
Proof using Type*.
  revert i j. induction tss as [|x tss IH]; intros i j Hc Hi Hj Ht Hu; [done|].
  cbn [all_clash] in Hc. apply andb_true_iff in Hc as [Hx Hc]. rewrite forallb_forall in Hx.
  destruct i as [|i], j as [|j]; simpl in Hi, Hj; simplify_eq; [done| | |by f_equal; eapply IH].
  - exfalso. eapply clash_sound; [|exact Ht|exact Hu]. apply Hx.
    apply list_elem_of_In. by eapply list_elem_of_lookup_2.
  - exfalso. eapply clash_sound; [|exact Hu|exact Ht]. apply Hx.
    apply list_elem_of_In. by eapply list_elem_of_lookup_2.
Qed.

(** ** The table *)

Lemma routes_clash debug : all_clash ((λ r, path_to_segments r.1.1) <$> routes debug) = true.
Proof. destruct debug; vm_compute; reflexivity. Qed.

Lemma routes_NoDup debug : NoDup ((λ r, r.1.1) <$> routes debug).
Proof. apply (bool_decide_eq_true_1 _); destruct debug; vm_compute; reflexivity. Qed.

Lemma routes_variables debug : Forall (λ r, NoDup (variables (path_to_segments r.1.1))) (routes debug).
Proof. apply (bool_decide_eq_true_1 _); destruct debug; vm_compute; reflexivity. Qed.

Section service.
Context {E : Type}.
Variable handler_for : string → @MethodsHandler E.
Hypothesis handler_path : ∀ p, h_path (handler_for p) = p.

(** The multiplexer after build_endpoints. *)
Definition service (debug : bool) : @Mux.t E :=
  register_all ((λ r : route, (handler_for r.1.1, r.1.2)) <$> routes debug) mux0.

Definition candidate_of (r : route) : @PathHandlerCandidate E :=
  mkCandidate (path_to_segments r.1.1) (handler_for r.1.1) r.1.1 r.1.2.

Lemma register_all_fresh (rs : list route) (m : @Mux.t E) :
  NoDup ((c_path <$> m_handler_candidates m) ++ ((λ r, r.1.1) <$> rs))%list →
  m_handler_candidates (register_all ((λ r : route, (handler_for r.1.1, r.1.2)) <$> rs) m) =
  (m_handler_candidates m ++ (candidate_of <$> rs))%list.
Proof using handler_path.
  revert m. induction rs as [|r rs IH]; intros m Hn; [by rewrite app_nil_r|].
  cbn [fmap list_fmap]. unfold register_all. cbn [foldl]. fold (register_all (E := E)).
  cbn [fst snd]. apply list.NoDup_app in Hn as (Hn1 & Hn2 & Hn3).
  set (m' := register_handler (handler_for r.1.1) r.1.2 m).
  assert (m_handler_candidates m' = (m_handler_candidates m ++ [candidate_of r])%list) as Hm'.
  { subst m'. unfold register_handler. rewrite handler_path. destruct (existsb _ _) eqn:Ee; [|done].
    apply existsb_path in Ee. exfalso. eapply Hn2; [exact Ee|]. apply list_elem_of_here. }
  unfold register_all in IH. rewrite IH; rewrite Hm'; [by rewrite <- app_assoc|].
  rewrite fmap_app, <- app_assoc. apply list.NoDup_app. split_and!; [done|done|done].
Qed.

Lemma service_candidates debug : m_handler_candidates (service debug) = candidate_of <$> routes debug.
Proof using handler_path. unfold service. rewrite register_all_fresh; [done|]. apply routes_NoDup. Qed.

Lemma service_finds debug r ss :
  r ∈ routes debug → Forall2 matches (path_to_segments r.1.1) ss →
  find_candidate (λ c, segments_match regex_match (c_segments c) ss) (service debug) = Some (candidate_of r).
Proof using Type*.
  intros Hr Hm. unfold find_candidate. rewrite service_candidates.
  apply list_elem_of_lookup_1 in Hr as [i Hi].
  assert (candidate_of r ∈ filter (λ c, segments_match regex_match (c_segments c) ss = true)
            (candidate_of <$> routes debug)) as Hin.
  { apply list_elem_of_filter. split; [by apply segments_match_Forall2|].
    apply list_elem_of_fmap_2. by eapply list_elem_of_lookup_2. }
  destruct (filter _ _) as [|c l] eqn:Ef; [by apply elem_of_nil in Hin|]. simpl. f_equal.
  assert (c ∈ filter (λ c, segments_match regex_match (c_segments c) ss = true)
            (candidate_of <$> routes debug)) as Hc by (rewrite Ef; apply list_elem_of_here).
  apply list_elem_of_filter in Hc as [Hcm%segments_match_Forall2 Hc].
  apply list_elem_of_fmap in Hc as (r' & -> & Hr'). apply list_elem_of_lookup_1 in Hr' as [j Hj].
  assert (j = i) as ->; [|congruence].
  eapply (all_clash_unique _ j i _ _ ss (routes_clash debug)); [by rewrite list_lookup_fmap, Hj|
    by rewrite list_lookup_fmap, Hi|exact Hcm|exact Hm].
Qed.

(** C2: every endpoint that build_endpoints registers, in a debug or a
    release build, is found by the multiplexer: any path built from segments that
    the endpoint's own template accepts selects that endpoint, with its access
    type, and none registered before it. *)
Theorem every_route_is_reachable debug r ss :
  r ∈ routes debug → Forall2 matches (path_to_segments r.1.1) ss → Forall segment_ok ss →
  select_handler regex_match (split_path (build_path "" ss)) (service debug) =
    Ok (mkCandidate (path_to_segments r.1.1) (handler_for r.1.1) r.1.1 r.1.2).
Proof using Type*.
  intros Hr Hm Hs. unfold select_handler. rewrite split_build_path by done. by rewrite (service_finds debug r).
Qed.

(** For every registered endpoint, get_params with its route returns
    each identifier of a path of that endpoint under its name. *)
Theorem route_params debug r ss :
  r ∈ routes debug → Forall2 matches (path_to_segments r.1.1) ss → Forall segment_ok ss →
  ∃ p, get_params regex_match (build_path "" ss) r.1.1 (service debug) = Ok p ∧
    ∀ i t s v, path_to_segments r.1.1 !! i = Some t → ss !! i = Some s → variable_of t = Some v →
      params_get v p = s.
Proof using handler_path.
  intros Hr Hm Hs. destruct (get_params_built regex_match (service debug) (candidate_of r) ss) as (p & Hp & Hl & _).
  - apply find_by_path; [by apply register_all_registered; split; constructor|].
    rewrite service_candidates. by apply list_elem_of_fmap_2.
  - done.
  - done.
  - pose proof (routes_variables debug) as Hv. rewrite list.Forall_forall in Hv. by apply (Hv r).
  - exists p. split; [done|]. intros i t s v Ht Hss Hvar. unfold params_get. by rewrite (Hl i t s v Ht Hss Hvar).
Qed.

(** ** Access *)

(** The endpoints an insecure request may use. *)
Definition open_paths : list string :=
  [REDFISH_PATH; ROOT_PATH; ODATA_SERVICE_DOCUMENT; METADATA_ROOT_PATH; METADATA_PATH;
   INTEL_RACKSCALE_REGISTRY_PATH].

Lemma routes_open debug :
  Forall (λ r : route, r.1.2 = ALL → r.1.1 ∈ open_paths) (routes debug).
Proof. apply (bool_decide_eq_true_1 _); destruct debug; vm_compute; reflexivity. Qed.

Lemma candidate_open debug c :
  c ∈ m_handler_candidates (service debug) → c_access c = ALL → c_path c ∈ open_paths.
Proof using handler_path.
  rewrite service_candidates. intros (r & -> & Hr)%list_elem_of_fmap Ha.
  pose proof (routes_open debug) as Ho. rewrite list.Forall_forall in Ho. by apply Ho.
Qed.

(** C29: check_public_access, which decides whether a request is served
    without authentication, answers yes only for the six open documents and for
    a secure POST to the session collection; it answers for every path or throws
    404. *)
Theorem public_access_is_limited debug http_method url secure :
  check_public_access regex_match SESSION_COLLECTION_PATH http_method url secure (service debug)
    = Throw (server_exception 404) ∨
  ∃ b, check_public_access regex_match SESSION_COLLECTION_PATH http_method url secure (service debug) = Ok b ∧
    (b = true → ∃ c, c ∈ m_handler_candidates (service debug) ∧
       Forall2 matches (c_segments c) (split_path url) ∧
       (c_path c ∈ open_paths ∨ c_path c = SESSION_COLLECTION_PATH ∧ http_method = "POST" ∧ secure = true)).
Proof using handler_path.
  unfold check_public_access, select_handler.
  destruct (find_candidate _ _) as [c|] eqn:Ef; [|by left]. right.
  apply find_candidate_Some in Ef as [Hc Hm%segments_match_Forall2]. cbn [mbind result_bind].
  destruct (bool_decide (c_path c = _) && _ && secure) eqn:Eb.
  - exists true. split; [done|]. intros _. exists c. split_and!; [done|done|]. right.
    apply andb_true_iff in Eb as [[H1%bool_decide_eq_true H2%bool_decide_eq_true]%andb_true_iff H3]. done.
  - eexists. split; [done|]. intros Ha%bool_decide_eq_true. exists c. split_and!; [done|done|]. left.
    by eapply candidate_open.
Qed.

End service.
End regex.

(** ** A regular expression matcher for the three patterns *)

Definition sample_regex (r s : string) : bool :=
  if decide (r = ID_REGEX) then is_digits s
  else if decide (r = STRING_ID_REGEX) then is_letters s
  else if decide (r = XML_REGEX) then is_xml s else false.

#[local] Instance sample_laws : RegexLaws sample_regex.
Proof. split; intros s; reflexivity. Defined.

Definition sample_handler (p : string) : @MethodsHandler nat :=
  mkHandler p nop nop nop nop nop.

Lemma every_route_is_reachable_witness :
  select_handler sample_regex (split_path "/redfish/v1/Chassis/12/Drives/3") (service sample_handler false) =
    Ok (mkCandidate (path_to_segments DRIVE_PATH) (sample_handler DRIVE_PATH) DRIVE_PATH SSL_REQUIRED).
Proof.
  apply (every_route_is_reachable sample_regex sample_handler (λ p, eq_refl) false
    (DRIVE_PATH, SSL_REQUIRED, false) ["redfish"; "v1"; "Chassis"; "12"; "Drives"; "3"]).
  - apply (bool_decide_eq_true_1 _). vm_compute. reflexivity.
  - repeat (apply Forall2_cons; [vm_compute; reflexivity|]). apply Forall2_nil.
  - apply (bool_decide_eq_true_1 _). vm_compute. reflexivity.
Defined.

Lemma route_params_witness :
  ∃ p, get_params sample_regex "/redfish/v1/Chassis/12/Drives/3" DRIVE_PATH (service sample_handler false) = Ok p ∧
    params_get "driveId" p = "3".
Proof.
  destruct (route_params sample_regex sample_handler (λ p, eq_refl) false
    (DRIVE_PATH, SSL_REQUIRED, false) ["redfish"; "v1"; "Chassis"; "12"; "Drives"; "3"]) as (p & H1 & H2).
  - apply (bool_decide_eq_true_1 _). vm_compute. reflexivity.
  - repeat (apply Forall2_cons; [vm_compute; reflexivity|]). apply Forall2_nil.
  - apply (bool_decide_eq_true_1 _). vm_compute. reflexivity.
  - exists p. split; [exact H1|].
    apply (H2 5 (RegexMatcher "driveId" "[0-9]+") "3" "driveId"); vm_compute; reflexivity.
Defined.

Lemma public_access_is_limited_witness :
  check_public_access sample_regex SESSION_COLLECTION_PATH "GET" "/redfish/v1/Systems" true
    (service sample_handler false) = Ok false ∧
  ∃ b, check_public_access sample_regex SESSION_COLLECTION_PATH "GET" "/redfish/v1" false
    (service sample_handler false) = Ok b.
Proof.
  split; [vm_compute; reflexivity|].
  destruct (public_access_is_limited sample_regex sample_handler (λ p, eq_refl) false "GET" "/redfish/v1" false)
    as [H|(b & H & _)].
  - vm_compute in H. discriminate.
  - exists b. exact H.
Defined.

End Routes.
