(* ===== verification/Mdr.v ===== *)
(** The parser of managed data regions (PSME/common/mdr): the loop
    [GenericParser<Traits>::get_all] over a blob of consecutive structures, each a
    packed header, its data and, in SMBIOS blobs, a list of zero-terminated
    strings ended by a double null.

    The blob is a list of bytes; an offset is a 64-bit number and sums of offsets
    wrap.  A read outside the blob gives [undefined_behaviour].  The compile-time
    parameter [Traits] is the class [Traits], the entry point interface the class
    [EntryPoint]; SMBIOS and ACPI give the instances.  The lemmas proved
    here against the laws of the two classes: the loop ends within the fuel and
    never leaves the blob, whatever the bytes are ([get_all_safe]), and on a blob
    that was laid out from a list of structures it returns exactly the matching
    ones, in order, with their strings ([get_all_laid_out]). *)

From Stdlib Require Import ZArith Lia.
From S2P Require Import Prelude.

Local Open Scope Z_scope.

Module Mdr.

Definition size {A} (l : list A) : Z := Z.of_nat (length l).

(** [buf + offset] dereferenced as one byte. *)
Definition byte_at (buf : list Z) (offset : Z) : result Z :=
  if (0 <=? offset) && (offset <? size buf) then index buf (Z.to_nat offset)
  else Throw undefined_behaviour.

(** A reference to a packed structure of [n] bytes at [buf + offset]. *)
Definition bytes_at (buf : list Z) (offset : Z) (n : nat) : result (list Z) :=
  if (0 <=? offset) && (offset + Z.of_nat n <=? size buf) then Ok (slice (Z.to_nat offset) n buf)
  else Throw undefined_behaviour.

(** [std::accumulate(first, last, uint8_t(0))] *)
Definition accumulate (bs : list Z) : Z := foldl (λ sum b, wrap 8 (sum + b)) 0 bs.

(** A packed [struct T { static constexpr ID; header; data; }]: the identifier and
    the fields of [data] with their sizes. *)
Record Struct := mkStruct { ID : Z; fields : list (string * nat) }.

(** The fields as the headers declare them; enumerations have their underlying
    width. *)
Definition u8 (name : string) : string * nat := (name, 1%nat).
Definition u16 (name : string) : string * nat := (name, 2%nat).
Definition u32 (name : string) : string * nat := (name, 4%nat).
Definition u64 (name : string) : string * nat := (name, 8%nat).
Definition bytes (n : nat) (name : string) : string * nat := (name, n).

#[global] Instance Struct_eq_dec : EqDecision Struct.
Proof. solve_decision. Defined.

Definition sizeof_data (T : Struct) : nat := sum_list (snd <$> fields T).

(** The offset and the size of field [name] of a packed structure whose fields [fs]
    start at [offset]. *)
Fixpoint offsetof (fs : list (string * nat)) (name : string) (offset : nat) : option (nat * nat) :=
  match fs with
  | [] => None
  | (f, n) :: fs' =>
      if bool_decide (f = name) then Some (offset, n) else offsetof fs' name (offset + n)
  end.

(** The bytes of field [name]. *)
Definition field_bytes (fs : list (string * nat)) (name : string) (data : list Z) : option (list Z) :=
  '(p, n) ← offsetof fs name 0; Some (slice p n data).

(** [s.data.name] of an integer field. *)
Definition field (T : Struct) (name : string) (data : list Z) : option Z :=
  le_val <$> field_bytes (fields T) name data.

(** ** Strings after a structure *)

(** [offset + 1 < buf_size && uint8_t(buf[offset + 1] | buf[offset]) != 0] *)
Definition more_strings (buf : list Z) (offset : Z) : result bool :=
  if wrap 64 (offset + 1) <? size buf then
    b1 ← byte_at buf (wrap 64 (offset + 1));
    b0 ← byte_at buf offset;
    mret (negb (Z.lor b1 b0 =? 0))
  else mret false.

(** [while (str_len < buf_size && buf[str_len] != 0) str_len++] *)
Fixpoint string_end (fuel : nat) (buf : list Z) (str_len : Z) : result Z :=
  match fuel with
  | O => Throw out_of_fuel
  | S fuel' =>
      if str_len <? size buf then
        b ← byte_at buf str_len;
        if b =? 0 then mret str_len else string_end fuel' buf (wrap 64 (str_len + 1))
      else mret str_len
  end.

Fixpoint read_strings_loop (fuel : nat) (buf : list Z) (offset : Z) (strings : list (list Z))
    : result (list (list Z) * Z) :=
  match fuel with
  | O => Throw out_of_fuel
  | S fuel' =>
      more ← more_strings buf offset;
      if more : bool then
        str_len ← string_end (S (length buf)) buf offset;
        s ← bytes_at buf offset (Z.to_nat (str_len - offset));
        let offset := str_len in
        another ← more_strings buf offset;
        let offset := if another : bool then wrap 64 (offset + 1) else offset in
        read_strings_loop fuel' buf offset (strings ++ [s])
      else mret (strings, offset)
  end.

Definition read_auxiliary_strings (buf : list Z) (offset : Z) : result (list (list Z) * Z) :=
  '(strings, offset) ← read_strings_loop (S (length buf)) buf offset [];
  (* skip two null bytes *)
  mret (strings, wrap 64 (offset + 2)).

(** Get past trailing string-list - double-null *)
Fixpoint skip_strings_loop (fuel : nat) (buf : list Z) (offset : Z) : result Z :=
  match fuel with
  | O => Throw out_of_fuel
  | S fuel' =>
      more ← more_strings buf offset;
      if more : bool then skip_strings_loop fuel' buf (wrap 64 (offset + 1)) else mret offset
  end.

Definition skip_strings (buf : list Z) (offset : Z) : result Z :=
  offset ← skip_strings_loop (S (length buf)) buf offset;
  mret (wrap 64 (offset + 2)).

(** ** A parsed structure *)

(** [BufferBasedStruct<T>]: the header, the bytes of [T::data] and the strings. *)
Record BufferBasedStruct (H : Type) :=
  mkBufferBasedStruct { header : H; data : list Z; strings : list (list Z) }.
Arguments mkBufferBasedStruct {H} header data strings.
Arguments header {H} b.
Arguments data {H} b.
Arguments strings {H} b.

(** [get_string]: indices start from 1. *)
Definition get_string {H} (b : BufferBasedStruct H) (idx : Z) : list Z :=
  if (0 <? idx) && (idx <=? size (strings b)) then default [] (strings b !! Z.to_nat (idx - 1))
  else [].

(** ** Interfaces *)

(** [mdr::GenericEntryPoint]: what the parser asks of it. *)
Class EntryPoint (E : Type) := {
  get_struct_table_address : E → Z;
  get_struct_table_end_address : E → Z;
  get_table_data_offset : E → string → result Z;
  get_table_data_end_offset : E → string → result Z;
  set_struct_table_address : Z → E → result E;
  set_struct_table_end_address : Z → E → result E;
}.

(** The packed header type of a kind of blob. *)
Class HeaderType (H : Type) := {
  sizeof_header : nat;
  header_of : list Z → H;
  header_length : H → Z;
}.

(** The traits of a kind of blob: how a header matches a structure type and how a
    structure is read ([mdr::parse_struct<T>] with its specialisations). *)
Class Traits (H Enhanced : Type) := {
  table_length : H → Z;
  header_type_equal : Struct → H → option Z → bool;
  parse_struct_of : Struct → list Z → Z → bool → result (Enhanced * Z);
}.

(** [GenericParser<Traits>] *)
Record GenericParser (E : Type) :=
  mkParser { buf : list Z; auxiliary_string_present : bool; entry_point : E }.
Arguments mkParser {E} buf auxiliary_string_present entry_point.
Arguments buf {E} g.
Arguments auxiliary_string_present {E} g.
Arguments entry_point {E} g.

Section parse_struct.
Context {H : Type} `{!HeaderType H}.

Definition sizeof (T : Struct) : nat := sizeof_header + sizeof_data T.

(** The header at [buf + offset]. *)
Definition header_at (b : list Z) (offset : Z) : result H :=
  header_of <$> bytes_at b offset sizeof_header.

(** [mdr::parse_struct<T>], the general case. *)
Definition parse_struct (T : Struct) (b : list Z) (offset : Z) (has_auxiliary_string : bool)
    : result (BufferBasedStruct H * Z) :=
  structure ← bytes_at b offset (sizeof T);
  let h := header_of (take sizeof_header structure) in
  let offset := wrap 64 (offset + header_length h) in
  '(strs, offset) ← (if has_auxiliary_string then read_auxiliary_strings b offset
                     else mret ([], offset));
  mret (mkBufferBasedStruct h (drop sizeof_header structure) strs, offset).

End parse_struct.
Arguments header_at {H _} b offset.

Section parser.
Context {H Enhanced E : Type} `{!HeaderType H} `{!Traits H Enhanced} `{!EntryPoint E}.

Definition read_struct (p : GenericParser E) (T : Struct) (offset : Z) : result (Enhanced * Z) :=
  parse_struct_of T (buf p) offset (auxiliary_string_present p).

(** The [while] of [get_all]. The header reference is bound before the test of the
    end address but read only after it. *)
Fixpoint get_all_loop (fuel : nat) (p : GenericParser E) (T : Struct) (handle : option Z)
    (offset : Z) (collection : list Enhanced) : result (list Enhanced) :=
  match fuel with
  | O => Throw out_of_fuel
  | S fuel' =>
      if negb (wrap 64 (offset + Z.of_nat sizeof_header) <? size (buf p)) then mret collection
      else if get_struct_table_end_address (entry_point p) <=? offset then mret collection
      else
        h ← header_at (buf p) offset;
        if size (buf p) <? wrap 64 (offset + table_length h) then
          Throw (runtime_error "Unexpectedly reached end of MDR blob")
        else if header_length h <? Z.of_nat sizeof_header then
          Throw (runtime_error "Invalid entry length")
        else if header_type_equal T h handle then
          '(s, offset) ← read_struct p T offset;
          get_all_loop fuel' p T handle offset (collection ++ [s])
        else
          let offset := wrap 64 (offset + table_length h) in
          offset ← (if auxiliary_string_present p then skip_strings (buf p) offset
                    else mret offset);
          get_all_loop fuel' p T handle offset collection
  end.

Definition get_all (p : GenericParser E) (T : Struct) (handle : option Z) : result (list Enhanced) :=
  get_all_loop (S (length (buf p))) p T handle
    (get_struct_table_address (entry_point p)) [].

Definition prepare_if_structure_supported (structure_signature : string)
    : M (GenericParser E) bool :=
  p ← get;
  first ← lift (get_table_data_offset (entry_point p) structure_signature);
  last ← lift (get_table_data_end_offset (entry_point p) structure_signature);
  if negb (first =? 0) && negb (last =? 0) then
    e ← lift (set_struct_table_address first (entry_point p));
    put (mkParser (buf p) (auxiliary_string_present p) e) ;;
    e ← lift (set_struct_table_end_address last e);
    put (mkParser (buf p) (auxiliary_string_present p) e) ;;
    mret true
  else mret false.
End parser.

(** ** Reads inside the blob *)

Section reads.
Context (b : list Z) (Hsz : size b < 2 ^ 63).

Lemma wrap64_add o n : 0 ≤ o → 0 ≤ n → o + n < 2 ^ 64 → wrap 64 (o + n) = o + n.
Proof using Type. intros. apply wrap_small. split; lia. Qed.

Lemma byte_at_ok o : 0 ≤ o < size b → ∃ x, byte_at b o = Ok x.
Proof using Type.
  intros Ho. unfold byte_at, size in *. rewrite (proj2 (Z.leb_le 0 o)), (proj2 (Z.ltb_lt _ _)) by lia.
  simpl. unfold index. destruct (lookup_lt_is_Some_2 b (Z.to_nat o)) as [x ->]; [lia|by exists x].
Qed.

Lemma bytes_at_ok o n :
  0 ≤ o → o + Z.of_nat n ≤ size b → bytes_at b o n = Ok (slice (Z.to_nat o) n b).
Proof using Type.
  intros Ho Hn. unfold bytes_at. by rewrite (proj2 (Z.leb_le 0 o)), (proj2 (Z.leb_le _ _)) by lia.
Qed.

Lemma more_strings_ok o :
  0 ≤ o < 2 ^ 64 - 1 → ∃ m, more_strings b o = Ok m ∧ (m = true → o + 1 < size b).
Proof using Type.
  intros Ho. unfold more_strings. rewrite wrap64_add by lia.
  destruct (Z.ltb_spec (o + 1) (size b)) as [Hlt|Hge]; [|by exists false].
  destruct (byte_at_ok (o + 1)) as [x ->]; [lia|]. destruct (byte_at_ok o) as [y ->]; [lia|].
  run_monad. eauto.
Qed.

Lemma string_end_ok fuel o :
  0 ≤ o ≤ size b → size b < o + Z.of_nat fuel →
  ∃ e, string_end fuel b o = Ok e ∧ o ≤ e ≤ size b ∧
    (e = o → e = size b ∨ byte_at b o = Ok 0).
Proof using Hsz.
  revert o. induction fuel as [|fuel IH]; intros o Ho Hf; [lia|]. cbn [string_end].
  destruct (Z.ltb_spec o (size b)) as [Hlt|Hge]; [|exists o; split; [done|lia]].
  destruct (byte_at_ok o) as [x Hx]; [lia|]. rewrite Hx. run_monad.
  destruct (Z.eqb_spec x 0) as [->|Hnz]; [exists o; split; [done|auto with lia]|].
  rewrite wrap64_add by lia. destruct (IH (o + 1)) as (e & -> & He & _); [lia..|].
  exists e. split; [done|]. lia.
Qed.

Lemma read_strings_loop_ok fuel o ss :
  0 ≤ o ≤ size b + 1 → size b < o + Z.of_nat fuel → (0 < fuel)%nat →
  ∃ ss' o', read_strings_loop fuel b o ss = Ok (ss', o') ∧ o ≤ o' ≤ Z.max o (size b).
Proof using Hsz.
  revert o ss. induction fuel as [|fuel IH]; intros o ss Ho Hf Hpos; [lia|].
  cbn [read_strings_loop].
  destruct (more_strings_ok o) as (m & Hm & Hmt); [lia|]. rewrite Hm. run_monad.
  destruct m; [|exists ss, o; split; [done|lia]]. specialize (Hmt eq_refl).
  destruct (string_end_ok (S (length b)) o) as (e & -> & He & Hstop); [lia|unfold size in *; lia|].
  rewrite bytes_at_ok by lia. run_monad.
  destruct (more_strings_ok e) as (m' & Hm' & Hm't); [lia|]. rewrite Hm'.
  destruct m'.
  - specialize (Hm't eq_refl). rewrite wrap64_add by lia.
    destruct (IH (e + 1) (ss ++ [slice (Z.to_nat o) (Z.to_nat (e - o)) b])) as (ss' & o' & -> & ?);
      [lia..|]. exists ss', o'. split; [done|lia].
  - assert (e ≠ o) as Hne. { intros ->. congruence. }
    destruct (IH e (ss ++ [slice (Z.to_nat o) (Z.to_nat (e - o)) b])) as (ss' & o' & -> & ?);
      [lia..|]. exists ss', o'. split; [done|lia].
Qed.

Lemma skip_strings_loop_ok fuel o :
  0 ≤ o ≤ size b + 1 → size b < o + Z.of_nat fuel → (0 < fuel)%nat →
  ∃ o', skip_strings_loop fuel b o = Ok o' ∧ o ≤ o' ≤ Z.max o (size b).
Proof using Hsz.
  revert o. induction fuel as [|fuel IH]; intros o Ho Hf Hpos; [lia|]. cbn [skip_strings_loop].
  destruct (more_strings_ok o) as (m & -> & Hmt); [lia|]. run_monad.
  destruct m; [|exists o; split; [done|lia]]. specialize (Hmt eq_refl).
  rewrite wrap64_add by lia. destruct (IH (o + 1)) as (o' & -> & ?); [lia..|].
  exists o'. split; [done|lia].
Qed.

Lemma read_auxiliary_strings_ok o :
  0 ≤ o ≤ size b →
  ∃ ss o', read_auxiliary_strings b o = Ok (ss, o') ∧ o + 2 ≤ o' ≤ size b + 2.
Proof using Hsz.
  intros Ho. unfold read_auxiliary_strings.
  destruct (read_strings_loop_ok (S (length b)) o []) as (ss & o' & -> & ?); [unfold size in *; lia..|].
  run_monad. rewrite wrap64_add by lia. eexists _, _. split; [done|lia].
Qed.

Lemma skip_strings_ok o :
  0 ≤ o ≤ size b → ∃ o', skip_strings b o = Ok o' ∧ o + 2 ≤ o' ≤ size b + 2.
Proof using Hsz.
  intros Ho. unfold skip_strings.
  destruct (skip_strings_loop_ok (S (length b)) o) as (o' & -> & ?); [unfold size in *; lia..|].
  run_monad. rewrite wrap64_add by lia. eexists _. split; [done|lia].
Qed.
End reads.

(** ** Any blob: no read outside it, and an end *)

(** What the loop relies on: a header is not empty, its two lengths agree and fit
    32 bits, and a structure whose header matches is read without leaving the
    blob when the length its header gives lies inside. *)
Class TraitsLaws (H Enhanced : Type) `{!HeaderType H} `{!Traits H Enhanced} : Prop := {
  sizeof_header_pos : (0 < sizeof_header)%nat;
  sizeof_header_small : Z.of_nat sizeof_header < 2 ^ 32;
  header_length_range bs :
    Forall is_byte bs → 0 ≤ header_length (header_of bs) < 2 ^ 32;
  table_length_eq (h : H) : table_length h = header_length h;
  parse_struct_of_ok T (b : list Z) offset handle aux h :
    Forall is_byte b → size b < 2 ^ 63 → 0 ≤ offset →
    header_at b offset = Ok h → header_type_equal T h handle = true →
    offset + header_length h ≤ size b →
    ∃ s offset', parse_struct_of T b offset aux = Ok (s, offset') ∧
      offset + header_length h ≤ offset' ≤ size b + 2;
}.

(** The result of a parse that did not leave the blob. *)
Definition parsed {A} (r : result A) : Prop :=
  match r with
  | Ok _ | Throw (runtime_error _) => True
  | Throw _ => False
  end.

Lemma header_at_inv {H} `{!HeaderType H} b o (h : H) :
  header_at b o = Ok h →
  h = header_of (slice (Z.to_nat o) sizeof_header b) ∧
  0 ≤ o ∧ o + Z.of_nat sizeof_header ≤ size b.
Proof.
  unfold header_at, bytes_at, fmap, result_fmap.
  destruct (Z.leb_spec 0 o), (Z.leb_spec (o + Z.of_nat sizeof_header) (size b));
    simpl; intros [= <-]; split; auto with lia.
Qed.

Lemma header_at_ok {H} `{!HeaderType H} b o :
  0 ≤ o → o + Z.of_nat sizeof_header ≤ size b →
  header_at b o = Ok (header_of (slice (Z.to_nat o) sizeof_header b) : H).
Proof. intros. unfold header_at. by rewrite bytes_at_ok. Qed.

(** The general [parse_struct] inside the blob. *)
Lemma parse_struct_ok {H} `{!HeaderType H} T b offset aux (h : H) :
  size b < 2 ^ 63 → 0 ≤ offset → header_at b offset = Ok h →
  Z.of_nat (sizeof T) ≤ header_length h → offset + header_length h ≤ size b →
  ∃ ss offset',
    parse_struct T b offset aux =
      Ok (mkBufferBasedStruct h (slice (Z.to_nat offset + sizeof_header) (sizeof_data T) b) ss,
          offset') ∧
    offset + header_length h ≤ offset' ≤ size b + 2.
Proof.
  intros Hsz Ho Hh HT Hlen. unfold parse_struct. rewrite bytes_at_ok by lia. run_monad.
  apply header_at_inv in Hh as (-> & _ & _). unfold sizeof in *.
  rewrite (slice_app_split _ sizeof_header (sizeof_data T)).
  rewrite take_app_length', drop_app_length' by (rewrite length_slice; unfold size in *; lia).
  rewrite wrap64_add by lia. destruct aux.
  - edestruct (read_auxiliary_strings_ok b Hsz) as (ss & o' & -> & ?); [|run_monad]; [lia|].
    eexists _, _. split; [done|lia].
  - eexists _, _. split; [done|lia].
Qed.

Section safe.
Context {H Enhanced E : Type} `{!HeaderType H} `{!Traits H Enhanced} `{!EntryPoint E}.
Context `{!TraitsLaws H Enhanced}.
Context (p : GenericParser E) (Hbytes : Forall is_byte (buf p)) (Hsz : size (buf p) < 2 ^ 63).
Context (Hend : get_struct_table_end_address (entry_point p) ≤ size (buf p)).

Lemma get_all_loop_safe fuel T handle offset collection :
  0 ≤ offset < 2 ^ 64 → size (buf p) < offset + Z.of_nat fuel → (0 < fuel)%nat →
  parsed (get_all_loop fuel p T handle offset collection).
Proof using All.
  revert offset collection.
  induction fuel as [|fuel IH]; intros offset collection Ho Hf Hpos; [lia|].
  cbn [get_all_loop]. pose proof sizeof_header_pos as Hhp.
  destruct (Z.ltb_spec (wrap 64 (offset + Z.of_nat sizeof_header)) (size (buf p))) as [Hlt|];
    [simpl|done].
  destruct (Z.leb_spec (get_struct_table_end_address (entry_point p)) offset) as [|Hoe]; [done|].
  assert (offset + Z.of_nat sizeof_header < 2 ^ 64) as Hsum by (pose proof sizeof_header_small; lia).
  rewrite wrap64_add in Hlt by lia.
  rewrite header_at_ok by lia. run_monad.
  set (h := header_of _) in *.
  assert (0 ≤ header_length h < 2 ^ 32) as Hh by (by apply header_length_range, Forall_slice).
  rewrite !table_length_eq. rewrite !wrap64_add by lia.
  destruct (Z.ltb_spec (size (buf p)) (offset + header_length h)); [done|].
  destruct (Z.ltb_spec (header_length h) (Z.of_nat sizeof_header)); [done|].
  destruct (header_type_equal T h handle) eqn:Eq.
  - unfold read_struct.
    destruct (parse_struct_of_ok T (buf p) offset handle (auxiliary_string_present p) h)
      as (s & o' & -> & ?); [done|done|lia|by rewrite header_at_ok by lia|done|lia|].
    apply IH; lia.
  - destruct (auxiliary_string_present p); [|apply IH; lia].
    destruct (skip_strings_ok (buf p) Hsz (offset + header_length h)) as (o' & -> & ?); [lia|].
    apply IH; lia.
Qed.

Lemma get_all_safe T handle :
  0 ≤ get_struct_table_address (entry_point p) < 2 ^ 64 → parsed (get_all p T handle).
Proof using All. intros. apply get_all_loop_safe; [done|unfold size; lia|lia]. Qed.
End safe.

(** ** Blobs laid out from structures *)

(** The strings after a structure, each ended by a null, and a final null; two
    nulls when there are none. *)
Fixpoint aux_bytes (ss : list (list Z)) : list Z :=
  match ss with
  | [] => [0; 0]
  | s :: ss' => s ++ 0 :: match ss' with [] => [0] | _ => aux_bytes ss' end
  end.

(** A string of a string list: not empty and without a null. *)
Definition wf_string (s : list Z) : Prop := s ≠ [] ∧ Forall (λ c, c ≠ 0) s.

Lemma size_app {A} (l k : list A) : size (l ++ k) = size l + size k.
Proof. unfold size. rewrite length_app. lia. Qed.
Lemma size_cons {A} (x : A) l : size (x :: l) = 1 + size l.
Proof. unfold size. cbn [length]. lia. Qed.
Lemma size_nonneg {A} (l : list A) : 0 ≤ size l.
Proof. unfold size. lia. Qed.
Lemma size_nil {A} : size (@nil A) = 0.
Proof. done. Qed.

(** Arithmetic on the sizes of concatenations. *)
Ltac size_nonnegs :=
  repeat match goal with
  | |- context [size ?l] =>
      lazymatch goal with H : 0 ≤ size l |- _ => fail | _ => pose proof (size_nonneg l) end
  | H : context [size ?l] |- _ =>
      lazymatch goal with H' : 0 ≤ size l |- _ => fail | _ => pose proof (size_nonneg l) end
  end.
Ltac szlia :=
  repeat progress rewrite ?size_app, ?size_cons, ?size_nil in *; size_nonnegs; lia.

Lemma bytes_at_app pre l post n :
  n = length l → bytes_at (pre ++ l ++ post) (size pre) n = Ok l.
Proof.
  intros ->. rewrite bytes_at_ok; [|szlia|unfold size; rewrite !length_app; lia].
  unfold size. rewrite Nat2Z.id. unfold slice. by rewrite drop_app_length, take_app_length.
Qed.

Lemma byte_at_app pre x post : byte_at (pre ++ x :: post) (size pre) = Ok x.
Proof.
  unfold byte_at. rewrite (proj2 (Z.leb_le _ _)), (proj2 (Z.ltb_lt _ _)) by szlia.
  simpl. unfold index, size. by rewrite Nat2Z.id, list_lookup_middle.
Qed.

Lemma more_strings_app pre x y post :
  size (pre ++ x :: y :: post) < 2 ^ 63 →
  more_strings (pre ++ x :: y :: post) (size pre) = Ok (negb ((y =? 0) && (x =? 0))).
Proof.
  intros Hsz. unfold more_strings. rewrite wrap64_add by szlia.
  rewrite (proj2 (Z.ltb_lt _ _)) by szlia. rewrite byte_at_app.
  replace (size pre + 1) with (size (pre ++ [x])) by szlia.
  replace (pre ++ x :: y :: post) with ((pre ++ [x]) ++ y :: post) by (by rewrite <- app_assoc).
  rewrite byte_at_app. run_monad. do 2 f_equal. apply eq_true_iff_eq.
  rewrite andb_true_iff, !Z.eqb_eq. apply Z.lor_eq_0_iff.
Qed.

Lemma string_end_app fuel pre s post :
  size (pre ++ s ++ 0 :: post) < 2 ^ 63 → Forall (λ c, c ≠ 0) s → (length s < fuel)%nat →
  string_end fuel (pre ++ s ++ 0 :: post) (size pre) = Ok (size (pre ++ s)).
Proof.
  revert pre fuel. induction s as [|c s IH]; intros pre fuel Hsz Hs Hf;
    (destruct fuel as [|fuel]; [simpl in Hf; lia|]); cbn [string_end app];
    rewrite (proj2 (Z.ltb_lt _ _)) by szlia; rewrite byte_at_app; run_monad.
  - by rewrite Z.eqb_refl, app_nil_r.
  - apply list.Forall_cons in Hs as [Hc Hs]. rewrite (proj2 (Z.eqb_neq c 0)) by done.
    rewrite wrap64_add by szlia. replace (size pre + 1) with (size (pre ++ [c])) by szlia.
    replace (pre ++ c :: s ++ 0 :: post) with ((pre ++ [c]) ++ s ++ 0 :: post)
      by (by rewrite <- app_assoc).
    rewrite IH; [f_equal; szlia|szlia|done|simpl in Hf; lia].
Qed.

(** The bytes from the first string on. *)
Lemma aux_bytes_cons s ss :
  ∃ c rest, wf_string s → aux_bytes (s :: ss) = c :: rest ∧ c ≠ 0 ∧ rest ≠ [].
Proof.
  destruct s as [|c s]; [exists 0, []; by intros []|].
  exists c, (s ++ 0 :: match ss with [] => [0] | _ => aux_bytes ss end). intros [_ Hs].
  apply list.Forall_cons in Hs as [Hc _]. split_and!; [done|done|by destruct s].
Qed.

Lemma size_aux_bytes ss : 2 ≤ size (aux_bytes ss).
Proof.
  induction ss as [|s ss IH]; [done|]. cbn [aux_bytes]. destruct ss; szlia.
Qed.

(** At the start of a list of strings: another string follows. *)
Lemma more_strings_at pre s ss post :
  size (pre ++ aux_bytes (s :: ss) ++ post) < 2 ^ 63 → wf_string s →
  more_strings (pre ++ aux_bytes (s :: ss) ++ post) (size pre) = Ok true.
Proof.
  intros Hsz Hs. destruct (aux_bytes_cons s ss) as (c & [|d rest] & Hw);
    destruct (Hw Hs) as (E & Hc & Hr); [done|]. rewrite E in *. cbn [app] in *.
  rewrite more_strings_app by done. by rewrite (proj2 (Z.eqb_neq c 0)), andb_false_r.
Qed.

(** At the null that ends a string. *)
Lemma more_strings_null pre ss post :
  size (pre ++ 0 :: match ss with [] => [0] | _ => aux_bytes ss end ++ post) < 2 ^ 63 →
  Forall wf_string ss →
  more_strings (pre ++ 0 :: match ss with [] => [0] | _ => aux_bytes ss end ++ post) (size pre) =
    Ok (match ss with [] => false | _ => true end).
Proof.
  intros Hsz Hs. destruct ss as [|s ss]; cbn [app] in *; [by rewrite more_strings_app|].
  apply list.Forall_cons in Hs as [Hs _].
  destruct (aux_bytes_cons s ss) as (c & rest & Hw). destruct (Hw Hs) as (E & Hc & Hr).
  rewrite E in *. cbn [app] in *. rewrite more_strings_app by done.
  by rewrite (proj2 (Z.eqb_neq c 0)).
Qed.

Lemma read_strings_loop_app fuel pre ss post acc :
  size (pre ++ aux_bytes ss ++ post) < 2 ^ 63 → Forall wf_string ss →
  (length ss < fuel)%nat →
  read_strings_loop fuel (pre ++ aux_bytes ss ++ post) (size pre) acc =
    Ok (acc ++ ss, size pre + size (aux_bytes ss) - 2).
Proof.
  revert pre ss acc. induction fuel as [|fuel IH]; intros pre ss acc Hsz Hs Hf; [lia|].
  cbn [read_strings_loop]. destruct ss as [|s ss].
  - cbn [aux_bytes app]. rewrite more_strings_app by done. run_monad. cbn [Z.eqb andb negb].
    rewrite app_nil_r. do 2 f_equal. rewrite !size_cons, size_nil. lia.
  - apply list.Forall_cons in Hs as [Hs Hss]. rewrite more_strings_at by done. run_monad.
    cbn [aux_bytes] in *. rewrite <- app_assoc in *. cbn [app] in *.
    set (next := match ss with [] => [0] | _ => aux_bytes ss end) in *.
    rewrite string_end_app; [|done|apply Hs|unfold size in *; rewrite !length_app; lia].
    rewrite bytes_at_app by (unfold size; rewrite length_app; lia).
    pose proof (more_strings_null (pre ++ s) ss post) as Hn. fold next in Hn.
    rewrite <- app_assoc in Hn. rewrite Hn by done. clear Hn.
    destruct ss as [|s' ss]; unfold next in *.
    + destruct fuel as [|fuel]; [simpl in Hf; lia|]. cbn [read_strings_loop].
      replace (pre ++ s ++ 0 :: [0] ++ post) with ((pre ++ s) ++ 0 :: 0 :: post)
        by (by rewrite <- app_assoc). rewrite more_strings_app by szlia. run_monad.
      cbn [Z.eqb andb negb]. do 2 f_equal. szlia.
    + rewrite wrap64_add by szlia.
      replace (size (pre ++ s) + 1) with (size (pre ++ s ++ [0])) by szlia.
      replace (pre ++ s ++ 0 :: aux_bytes (s' :: ss) ++ post)
        with ((pre ++ s ++ [0]) ++ aux_bytes (s' :: ss) ++ post) by (by rewrite <- !app_assoc).
      rewrite IH; [|szlia|done|simpl in *; lia].
      rewrite <- app_assoc. do 2 f_equal. szlia.
Qed.

Lemma skip_strings_loop_app n fuel pre s post :
  size (pre ++ s ++ post) < 2 ^ 63 → post ≠ [] → Forall (λ c, c ≠ 0) s → n = length s →
  skip_strings_loop (n + fuel) (pre ++ s ++ post) (size pre) =
    skip_strings_loop fuel (pre ++ s ++ post) (size (pre ++ s)).
Proof.
  intros Hsz Hp Hs ->. revert pre Hsz. induction Hs as [|c s Hc _ IH]; intros pre Hsz.
  - cbn [length Nat.add app]. by rewrite app_nil_r.
  - cbn [length Nat.add app skip_strings_loop].
    assert (∃ y r, s ++ post = y :: r) as (y & r & E)
      by (destruct s; [destruct post; [done|]|]; eexists _, _; reflexivity).
    cbn [app] in Hsz. rewrite E in Hsz |- *. rewrite more_strings_app by done. rewrite <- E in Hsz |- *.
    rewrite (proj2 (Z.eqb_neq c 0)), andb_false_r by done. run_monad. cbn [negb].
    rewrite wrap64_add by szlia. replace (size pre + 1) with (size (pre ++ [c])) by szlia.
    replace (pre ++ c :: s ++ post) with ((pre ++ [c]) ++ s ++ post) by (by rewrite <- app_assoc).
    rewrite IH by (by rewrite <- app_assoc). f_equal. by rewrite <- app_assoc.
Qed.

Lemma skip_strings_loop_aux fuel pre ss post :
  size (pre ++ aux_bytes ss ++ post) < 2 ^ 63 → Forall wf_string ss →
  size (aux_bytes ss) ≤ Z.of_nat fuel →
  skip_strings_loop fuel (pre ++ aux_bytes ss ++ post) (size pre) =
    Ok (size pre + size (aux_bytes ss) - 2).
Proof.
  intros Hsz Hs. revert pre fuel Hsz. induction Hs as [|s ss Hs Hss IH]; intros pre fuel Hsz Hf.
  - destruct fuel as [|fuel]; [done|]. cbn [aux_bytes app skip_strings_loop].
    rewrite more_strings_app by done. run_monad. cbn [Z.eqb andb negb]. f_equal.
    rewrite !size_cons, size_nil. lia.
  - cbn [aux_bytes] in *. rewrite <- app_assoc in *. cbn [app] in *.
    set (next := match ss with [] => [0] | _ => aux_bytes ss end) in *.
    replace fuel with (length s + (fuel - length s))%nat
      by (rewrite size_app, size_cons in Hf; unfold size in Hf; lia).
    rewrite skip_strings_loop_app by (done || apply Hs).
    destruct (fuel - length s)%nat as [|fuel'] eqn:Ef;
      [rewrite size_app, size_cons in Hf; unfold size in Hf; lia|].
    cbn [skip_strings_loop].
    pose proof (more_strings_null (pre ++ s) ss post) as Hn. fold next in Hn.
    rewrite <- app_assoc in Hn. rewrite Hn by done. clear Hn. run_monad.
    destruct ss as [|s' ss]; unfold next in *.
    + f_equal. szlia.
    + rewrite wrap64_add by szlia.
      replace (size (pre ++ s) + 1) with (size (pre ++ s ++ [0])) by szlia.
      replace (pre ++ s ++ 0 :: aux_bytes (s' :: ss) ++ post)
        with ((pre ++ s ++ [0]) ++ aux_bytes (s' :: ss) ++ post) by (by rewrite <- !app_assoc).
      rewrite IH; [f_equal; szlia|szlia|].
      rewrite size_app, size_cons in Hf. unfold size in Hf |- *. lia.
Qed.

Lemma read_auxiliary_strings_app pre ss post :
  size (pre ++ aux_bytes ss ++ post) < 2 ^ 63 → Forall wf_string ss →
  read_auxiliary_strings (pre ++ aux_bytes ss ++ post) (size pre) =
    Ok (ss, size pre + size (aux_bytes ss)).
Proof.
  intros Hsz Hs. unfold read_auxiliary_strings. rewrite read_strings_loop_app; [|done..|].
  - pose proof (size_aux_bytes ss). run_monad. rewrite wrap64_add by szlia. do 2 f_equal. lia.
  - assert (∀ ss : list (list Z), length ss ≤ length (aux_bytes ss))%nat as Hl.
    { clear. induction ss as [|s ss IH]; [simpl; lia|]. cbn [aux_bytes].
      rewrite length_app. destruct ss; simpl in *; lia. }
    specialize (Hl ss). rewrite !length_app. lia.
Qed.

Lemma skip_strings_app pre ss post :
  size (pre ++ aux_bytes ss ++ post) < 2 ^ 63 → Forall wf_string ss →
  skip_strings (pre ++ aux_bytes ss ++ post) (size pre) = Ok (size pre + size (aux_bytes ss)).
Proof.
  intros Hsz Hs. unfold skip_strings. rewrite skip_strings_loop_aux; [|done..|].
  - pose proof (size_aux_bytes ss). run_monad. rewrite wrap64_add by szlia. f_equal. lia.
  - unfold size. rewrite !length_app. lia.
Qed.

(** A structure of a blob. *)
Record Laid (H : Type) :=
  mkLaid { laid_header : H; laid_body : list Z; laid_strings : list (list Z) }.
Arguments mkLaid {H} laid_header laid_body laid_strings.
Arguments laid_header {H} l.
Arguments laid_body {H} l.
Arguments laid_strings {H} l.

(** How a header is laid out. *)
Class HeaderLayout (H : Type) `{!HeaderType H} := {
  header_bytes : H → list Z;
  wf_header : H → Prop;
  length_header_bytes h : length (header_bytes h) = sizeof_header;
  header_of_bytes h : wf_header h → header_of (header_bytes h) = h;
}.

Section layout.
Context {H : Type} `{!HeaderType H} `{!HeaderLayout H}.

Definition aux_part (aux : bool) (s : Laid H) : list Z :=
  if aux then aux_bytes (laid_strings s) else [].

Definition laid_bytes (aux : bool) (s : Laid H) : list Z :=
  header_bytes (laid_header s) ++ laid_body s ++ aux_part aux s.

(** A structure that can stand in a blob: its header tells its length, and its
    strings are proper ones; without strings it has some data. *)
Definition wf_laid (aux : bool) (s : Laid H) : Prop :=
  wf_header (laid_header s) ∧
  header_length (laid_header s) = Z.of_nat sizeof_header + size (laid_body s) ∧
  if aux then Forall wf_string (laid_strings s) else laid_body s ≠ [] ∧ laid_strings s = [].

Lemma size_header_bytes h : size (header_bytes h) = Z.of_nat sizeof_header.
Proof. unfold size. by rewrite length_header_bytes. Qed.

Lemma header_at_laid aux s pre post :
  wf_header (laid_header s) →
  header_at (pre ++ laid_bytes aux s ++ post) (size pre) = Ok (laid_header s).
Proof.
  intros Hw. unfold header_at, laid_bytes. rewrite <- app_assoc.
  rewrite bytes_at_app by (by rewrite length_header_bytes). run_monad.
  unfold fmap, result_fmap. by rewrite header_of_bytes.
Qed.

(** The strings of a laid out structure, read or skipped. *)
Lemma aux_part_read aux (s : Laid H) pre post :
  size (pre ++ aux_part aux s ++ post) < 2 ^ 63 → wf_laid aux s →
  (if aux then read_auxiliary_strings (pre ++ aux_part aux s ++ post) (size pre)
   else mret ([], size pre)) =
    Ok (laid_strings s, size pre + size (aux_part aux s)).
Proof.
  intros Hsz (_ & _ & Hs). destruct aux; cbn [aux_part] in *.
  - by apply read_auxiliary_strings_app.
  - destruct Hs as [_ ->]. rewrite size_nil, Z.add_0_r. done.
Qed.

Lemma aux_part_skip aux (s : Laid H) pre post :
  size (pre ++ aux_part aux s ++ post) < 2 ^ 63 → wf_laid aux s →
  (if aux then skip_strings (pre ++ aux_part aux s ++ post) (size pre) else mret (size pre)) =
    Ok (size pre + size (aux_part aux s)).
Proof.
  intros Hsz (_ & _ & Hs). destruct aux; cbn [aux_part] in *.
  - by apply skip_strings_app.
  - by rewrite size_nil, Z.add_0_r.
Qed.

Lemma parse_struct_laid T aux (s : Laid H) pre post :
  size (pre ++ laid_bytes aux s ++ post) < 2 ^ 63 → wf_laid aux s →
  Z.of_nat (sizeof T) ≤ header_length (laid_header s) →
  parse_struct T (pre ++ laid_bytes aux s ++ post) (size pre) aux =
    Ok (mkBufferBasedStruct (laid_header s) (take (sizeof_data T) (laid_body s)) (laid_strings s),
        size pre + size (laid_bytes aux s)).
Proof.
  intros Hsz Hw HT. pose proof Hw as (Hwh & Hlen & _). unfold parse_struct, laid_bytes in *.
  set (hb := header_bytes _) in *. assert (size hb = Z.of_nat sizeof_header) as Hhb
    by apply size_header_bytes.
  rewrite <- !app_assoc in *.
  rewrite bytes_at_ok by (unfold sizeof in *; szlia). run_monad.
  unfold sizeof in *. rewrite (slice_app_split _ sizeof_header).
  assert (slice (Z.to_nat (size pre)) sizeof_header (pre ++ hb ++ laid_body s ++ aux_part aux s ++ post)
          = hb) as ->.
  { unfold slice, size. rewrite Nat2Z.id, drop_app_length.
    apply take_app_length'. unfold size in Hhb. lia. }
  assert (slice (Z.to_nat (size pre) + sizeof_header) (sizeof_data T)
           (pre ++ hb ++ laid_body s ++ aux_part aux s ++ post) = take (sizeof_data T) (laid_body s)) as ->.
  { unfold slice. rewrite (app_assoc pre), drop_app_length' by (unfold size in *; rewrite length_app; lia).
    apply take_app_le. unfold size in *. lia. }
  rewrite take_app_length', drop_app_length' by (unfold size in *; lia).
  assert (header_of hb = laid_header s) as -> by (by apply header_of_bytes).
  rewrite wrap64_add by szlia.
  replace (size pre + header_length (laid_header s)) with (size (pre ++ hb ++ laid_body s)) by szlia.
  rewrite (app_assoc hb), (app_assoc pre).
  rewrite aux_part_read by (szlia || done). run_monad. do 2 f_equal. szlia.
Qed.
End layout.

(** What a kind of blob promises of its structures: the one a header matches
    is read as [enhance] says. *)
Class LayoutLaws (H Enhanced : Type) `{!HeaderType H} `{!HeaderLayout H} `{!Traits H Enhanced} := {
  enhance : Struct → Laid H → Enhanced;
  parse_struct_of_laid T aux (s : Laid H) handle pre post :
    size (pre ++ laid_bytes aux s ++ post) < 2 ^ 63 → wf_laid aux s →
    header_type_equal T (laid_header s) handle = true →
    parse_struct_of T (pre ++ laid_bytes aux s ++ post) (size pre) aux =
      Ok (enhance T s, size pre + size (laid_bytes aux s));
}.

Section laid_out.
Context {H Enhanced E : Type} `{!HeaderType H} `{!HeaderLayout H} `{!Traits H Enhanced}.
Context `{!TraitsLaws H Enhanced} `{!LayoutLaws H Enhanced} `{!EntryPoint E}.

(** The structures a call asks for. *)
Definition wanted (T : Struct) (handle : option Z) (ss : list (Laid H)) : list Enhanced :=
  enhance T <$> filter (λ s, header_type_equal T (laid_header s) handle = true) ss.

Lemma wanted_cons T handle s ss :
  wanted T handle (s :: ss) =
    if header_type_equal T (laid_header s) handle then enhance T s :: wanted T handle ss
    else wanted T handle ss.
Proof using Type.
  unfold wanted. rewrite filter_cons. by destruct (header_type_equal T (laid_header s) handle).
Qed.

(** A laid out structure is longer than the header: the loop does not miss it. *)
Lemma size_laid_bytes aux (s : Laid H) :
  wf_laid aux s → Z.of_nat sizeof_header < size (laid_bytes aux s).
Proof using Type.
  intros (_ & _ & Hs). unfold laid_bytes. rewrite !size_app, size_header_bytes.
  destruct aux; cbn [aux_part].
  - pose proof (size_aux_bytes (laid_strings s)). szlia.
  - destruct Hs as [Hb _]. destruct (laid_body s); [done|szlia].
Qed.

Lemma get_all_loop_laid_out fuel aux (e : E) T handle ss pre post collection :
  size (pre ++ concat (laid_bytes aux <$> ss) ++ post) < 2 ^ 63 → Forall (wf_laid aux) ss →
  get_struct_table_end_address e = size (pre ++ concat (laid_bytes aux <$> ss)) →
  (length ss < fuel)%nat →
  get_all_loop fuel (mkParser (pre ++ concat (laid_bytes aux <$> ss) ++ post) aux e) T handle
    (size pre) collection = Ok (collection ++ wanted T handle ss).
Proof using All.
  revert pre ss collection. induction fuel as [|fuel IH]; intros pre ss collection Hsz Hw He Hf; [lia|].
  cbn [get_all_loop buf entry_point auxiliary_string_present].
  destruct ss as [|s ss].
  { rewrite He. cbn [fmap list_fmap concat app]. rewrite app_nil_r, (proj2 (Z.leb_le _ _)) by lia.
    destruct (negb _); by rewrite app_nil_r. }
  apply list.Forall_cons in Hw as [Hs Hw].
  cbn [fmap list_fmap concat] in *. rewrite <- app_assoc in *.
  fold (fmap (M:=list) (laid_bytes aux) ss) in *.
  set (rest := concat (laid_bytes aux <$> ss)) in *.
  pose proof (size_laid_bytes aux s Hs) as Hbig.
  pose proof Hs as (Hwh & Hlen & _).
  rewrite wrap64_add by szlia. rewrite (proj2 (Z.ltb_lt _ _)) by szlia. cbn [negb].
  rewrite He, (proj2 (Z.leb_gt _ _)) by szlia.
  rewrite header_at_laid by done. run_monad. rewrite !table_length_eq.
  assert (size (laid_bytes aux s) = header_length (laid_header s) + size (aux_part aux s)) as Hbytes
    by (unfold laid_bytes; rewrite !size_app, size_header_bytes; lia).
  rewrite wrap64_add by szlia. rewrite (proj2 (Z.ltb_ge _ _)) by szlia.
  rewrite (proj2 (Z.ltb_ge _ _)) by szlia. rewrite wanted_cons.
  assert (∀ c, get_all_loop fuel (mkParser (pre ++ laid_bytes aux s ++ rest ++ post) aux e) T handle
    (size pre + size (laid_bytes aux s)) c = Ok (c ++ wanted T handle ss)) as Hnext.
  { intros c. specialize (IH (pre ++ laid_bytes aux s) ss c). fold rest in IH.
    rewrite <- !app_assoc in IH. rewrite <- size_app. apply IH; [done..|simpl in Hf; lia]. }
  destruct (header_type_equal T (laid_header s) handle) eqn:Eq.
  - unfold read_struct. cbn [buf auxiliary_string_present].
    rewrite (parse_struct_of_laid T aux s handle) by done.
    rewrite Hnext. by rewrite <- app_assoc.
  - pose proof (aux_part_skip aux s (pre ++ header_bytes (laid_header s) ++ laid_body s) (rest ++ post))
      as Hskip.
    unfold laid_bytes in Hsz, Hskip, Hnext |- *. rewrite <- !app_assoc in *.
    replace (size pre + header_length (laid_header s))
      with (size (pre ++ header_bytes (laid_header s) ++ laid_body s))
      by (rewrite !size_app, size_header_bytes; lia).
    run_monad. rewrite Hskip by done. rewrite <- Hnext. f_equal. szlia.
Qed.

Lemma get_all_laid_out aux (e : E) T handle ss pre post :
  size (pre ++ concat (laid_bytes aux <$> ss) ++ post) < 2 ^ 63 → Forall (wf_laid aux) ss →
  get_struct_table_address e = size pre →
  get_struct_table_end_address e = size (pre ++ concat (laid_bytes aux <$> ss)) →
  get_all (mkParser (pre ++ concat (laid_bytes aux <$> ss) ++ post) aux e) T handle =
    Ok (wanted T handle ss).
Proof using All.
  intros Hsz Hw Hb He. unfold get_all. cbn [buf entry_point]. rewrite Hb.
  rewrite get_all_loop_laid_out; [done..|].
  rewrite !length_app. clear -Hw TraitsLaws0. induction Hw as [|s ss Hs _ IH]; [simpl; lia|].
  cbn [fmap list_fmap concat length]. rewrite length_app. pose proof (size_laid_bytes aux s Hs).
  unfold size in *. change (list_fmap _ _ (laid_bytes aux) ss) with (laid_bytes aux <$> ss). lia.
Qed.
End laid_out.

End Mdr.
