(* ===== verification/SmbiosStructs.v ===== *)
(** The SMBIOS structures the agents know (PSME/common/smbios/include/smbios/structs):
    the identifier of each and the fields of its packed data. *)

From Stdlib Require Import ZArith.
From S2P Require Import Prelude Mdr.
Import Mdr.

Local Open Scope Z_scope.

Module SmbiosStructs.

Definition SMBIOS_BIOS_INFO_DATA : Struct := mkStruct 0
  [u8 "vendor"; u8 "version"; u16 "starting_address_segment"; u8 "release_date";
   u8 "rom_size"; u64 "characteristics"; bytes 2 "characteristics_extension";
   u8 "system_bios_version.major_release"; u8 "system_bios_version.minor_release";
   u8 "embedded_controller_firmware_version.major_release";
   u8 "embedded_controller_firmware_version.minor_release"].

Definition SMBIOS_SYSTEM_ENCLOSURE_OR_CHASSIS : Struct := mkStruct 3
  [u8 "manufacturer"; u8 "type"; u8 "version"; u8 "serial_number"; u8 "asset_tag_number";
   u8 "boot_up_state"; u8 "power_supply_state"; u8 "thermal_state"; u8 "security_status";
   u32 "oem_defined"; u8 "height"; u8 "number_of_power_cords"; u8 "contained_element_count";
   u8 "contained_element_record_length"; u8 "first_byte_of_the_rest_data"].

Definition SMBIOS_CPUID_DATA : Struct := mkStruct 193
  [u8 "socket_designation"; u8 "sub_type"; bytes 16 "eax_00"; bytes 16 "eax_01";
   bytes 16 "eax_02"; bytes 16 "eax_03"; bytes 16 "eax_04"; bytes 16 "eax_05";
   bytes 16 "eax_06"; bytes 16 "eax_07"; bytes 16 "eax_09"; bytes 16 "eax_0a";
   bytes 16 "eax_0b"; bytes 16 "eax_0d"; bytes 16 "eax_0f"; bytes 16 "eax_10"].

Definition SMBIOS_CPUID_DATA_V2 : Struct := mkStruct 193
  [u8 "socket_designation"; u8 "sub_type"; bytes 16 "eax_14"; bytes 16 "eax_15";
   bytes 16 "eax_16"; bytes 16 "eax_17_00"; bytes 16 "eax_17_01"; bytes 16 "eax_17_02";
   bytes 16 "eax_17_03"; bytes 16 "eax_80000000"; bytes 16 "eax_80000001";
   bytes 16 "eax_80000002"; bytes 16 "eax_80000003"; bytes 16 "eax_80000004";
   bytes 16 "eax_80000006"; bytes 16 "eax_80000007"; bytes 16 "eax_80000008"].

Definition SMBIOS_FPGA_DATA : Struct := mkStruct 198
  [u8 "fpga_index"; u8 "fpga_type"; u8 "fpga_status"; u8 "socket_identifier";
   u8 "fpga_vendor"; u8 "fpga_family"; u8 "fpga_model"; u8 "fpga_bit_stream_version";
   u8 "fpga_hps_core_count"; u8 "reserved"; u8 "fpga_hps_isa";
   u8 "fpga_hssi_configuration"; u8 "fpga_hssi_port_count"; u8 "fpga_hssi_port_speed";
   u8 "fpga_hssi_side_band_configuration"; u8 "fpga_reconfiguration_slots";
   u16 "fpga_pcie_slot_number"; u8 "fpga_pcie_bus_identifier";
   u8 "fpga_pcie_device_identifier"; u8 "fpga_pcie_function_identifier";
   u32 "thermal_design_power"; u8 "memory_technology"; u32 "integrated_memory_capacity";
   u16 "integrated_memory_speed"].

Definition SMBIOS_FPGA_DATA_OEM : Struct := mkStruct 198
  [u8 "fpga_index"; u8 "fpga_type"; u8 "fpga_status"; u8 "socket_identifier";
   u8 "fpga_vendor"; u8 "fpga_family"; u8 "fpga_model"; u8 "fpga_bit_stream_version";
   u8 "fpga_hps_core_count"; u8 "fpga_hps_isa"; u8 "fpga_hssi_configuration";
   u8 "fpga_hssi_port_count"; u8 "fpga_hssi_port_speed";
   u8 "fpga_hssi_side_band_configuration"; u8 "fpga_reconfiguration_slots";
   u16 "fpga_pcie_slot_number"; u8 "fpga_pcie_bus_identifier";
   u8 "fpga_pcie_device_identifier"; u8 "fpga_pcie_function_identifier";
   u32 "thermal_design_power"; u8 "memory_technology"; u32 "integrated_memory_capacity";
   u16 "integrated_memory_speed"].

Definition SMBIOS_PHYSICAL_MEMORY_ARRAY : Struct := mkStruct 16
  [u8 "location"; u8 "use"; u8 "memory_error_correction"; u32 "capacity";
   u16 "memory_error_information_handle"; u16 "number_of_memory_devices"].

Definition SMBIOS_MEMORY_DEVICE : Struct := mkStruct 17
  [u16 "physical_memory_array_handle"; u16 "memory_error_info_handle"; u16 "total_width";
   u16 "data_width"; u16 "size"; u8 "form_factor"; u8 "device_set"; u8 "device_locator";
   u8 "bank_locator"; u8 "memory_type"; u16 "type_detail"; u16 "speed"; u8 "manufacturer";
   u8 "serial_number"; u8 "asset_tag"; u8 "part_number"; u8 "attributes"; u32 "extended_size";
   u16 "configured_memory_clock_speed"; u16 "voltage_min"; u16 "voltage_max";
   u16 "voltage_configured"].

Definition SMBIOS_MEMORY_DEVICE_EXTENDED_INFO_DATA : Struct := mkStruct 197
  [u16 "memory_device_handle"; u8 "type"; u8 "media"; u8 "firmware_revision";
   u8 "firmware_api_version"; u32 "max_tdp"; u8 "smbus_address"].

Definition SMBIOS_MODULE_INFO_DATA : Struct := mkStruct 2
  [u8 "manufacturer"; u8 "product"; u8 "version"; u8 "serial_number"; u8 "asset_tag";
   u8 "feature_flags"; u8 "location_in_chassis"; u16 "chassis_handle"; u8 "board_type";
   u8 "number_of_contained_object_handles"].

Definition SMBIOS_PCIE_PORT_INFO_DATA : Struct := mkStruct 199
  [u16 "slot_id"; u8 "cable_port_link_width"; u8 "cable_index_count"; u8 "cable_port_index_0";
   u8 "cable_port_index_0_start_lane"; u8 "cable_port_index_1";
   u8 "cable_port_index_1_start_lane"; u8 "cable_port_index_2";
   u8 "cable_port_index_2_start_lane"; u8 "cable_port_index_3";
   u8 "cable_port_index_3_start_lane"].

Definition SMBIOS_PROCESSOR_INFO_DATA : Struct := mkStruct 4
  [u8 "socket_designation"; u8 "processor_type"; u8 "processor_family";
   u8 "processor_manufacturer"; u32 "processor_id.eax"; u32 "processor_id.edx";
   u8 "processor_version"; u8 "voltage"; u16 "external_clock"; u16 "max_speed_mhz";
   u16 "current_speed"; u8 "status"; u8 "processor_update"; u16 "l1_cache_handle";
   u16 "l2_cache_handle"; u16 "l3_cache_handle"; u8 "serial_number"; u8 "asset_tag";
   u8 "part_number"; u8 "core_count"; u8 "core_enabled"; u8 "thread_count";
   u16 "processor_characteristics"; u16 "processor_family_2"; u16 "core_count_2";
   u16 "core_enabled_2"; u16 "thread_count_2"].

Definition SMBIOS_NIC_INFO_DATA : Struct := mkStruct 190
  [u8 "PciClassCode"; u16 "SlotNo"; u16 "VendorID"; u16 "DeviceID"; u16 "SubVendorID";
   u16 "SubDeviceID"; u32 "LinkSpeed"; u32 "LinkWidth"; u16 "PortData.PortIndex";
   bytes 32 "PortData.Mac"].

Definition SMBIOS_NIC_INFO_DATA_V2 : Struct := mkStruct 190
  [u8 "PciClassCode"; u16 "SlotNo"; u16 "VendorID"; u16 "DeviceID"; u16 "SubVendorID";
   u16 "SubDeviceID"; u32 "LinkSpeed"; u32 "LinkWidth"; u16 "PortData.PortIndex";
   bytes 32 "PortData.Mac"; u8 "FirmwareVersion"].

Definition SMBIOS_STORAGE_INFO_DATA : Struct := mkStruct 191
  [u8 "PciClassCode"; u16 "VendorID"; u16 "DeviceID"; u16 "SubVendorID"; u16 "SubDeviceID";
   u8 "RsaHddInfoData.HDDIndex"; bytes 39 "RsaHddInfoData.HDDName";
   u8 "RsaHddInfoData.HDDType"; u32 "RsaHddInfoData.HDDSizeInGB"].

Definition SMBIOS_STORAGE_INFO_DATA_V2 : Struct := mkStruct 191
  [u8 "PciClassCode"; u8 "PciSubClassCode"; u16 "VendorID"; u16 "DeviceID"; u16 "SubVendorID";
   u16 "SubDeviceID"; u8 "RsaHddInfoData.HDDIndex"; bytes 40 "RsaHddInfoData.HDDName";
   bytes 20 "RsaHddInfoData.HDDSerialNumber"; u8 "RsaHddInfoData.HDDType";
   u32 "RsaHddInfoData.HDDSizeInGB"].

Definition SMBIOS_PCIE_INFO_DATA : Struct := mkStruct 192
  [u8 "ClassCode"; u16 "SlotNo"; u16 "VendorID"; u16 "DeviceID"; u16 "SubVendorID";
   u16 "SubDeviceID"; u32 "LinkSpeed"; u32 "LinkWidth"].

Definition SMBIOS_TXT_INFO_DATA : Struct := mkStruct 196
  [u8 "status"].

Definition SMBIOS_SPEED_SELECT_INFO_DATA : Struct := mkStruct 210
  [u8 "socket_number"; u8 "structure_version"; u8 "number_of_configs"; u8 "current_config";
   bytes 8 "reserved"].

Definition SMBIOS_STORAGE_DEVICE_INFO_DATA : Struct := mkStruct 194
  [u8 "port_designation"; u8 "device_index"; u8 "connector_type"; u8 "device_protocol";
   u8 "device_type"; u32 "device_capacity"; u16 "device_rpm"; u8 "device_model";
   u8 "device_serial"; u8 "pci_class_code"; u16 "vendor_id"; u16 "device_id";
   u16 "sub_vendor_id"; u16 "sub_device_id"; u8 "firmware_version"].

Definition SMBIOS_SYSTEM_INFO_DATA : Struct := mkStruct 1
  [u8 "manufacturer"; u8 "product_name"; u8 "version"; u8 "serial_number"; bytes 16 "uuid";
   u8 "wakeup_type"; u8 "sku_number"; u8 "family"].

Definition SMBIOS_TPM_INFO_DATA : Struct := mkStruct 195
  [u8 "tpm_configuration_index"; u8 "tpm_version"; u8 "tpm_status"].

(** One configuration after a speed select structure. *)
Definition SPEED_SELECT_CONFIGURATION : list (string * nat) :=
  [u8 "configuration_number"; bytes 3 "reserved"; u8 "high_priority_core_count";
   u8 "high_priority_base_frequency"; u8 "low_priority_core_count";
   u8 "low_priority_base_frequency"; u16 "max_tdp"; u8 "max_junction_temperature";
   u8 "high_priority_code_apic_ids"; bytes 20 "reserved_2"].

(** [Smbios21EntryPoint::EntryPointStructure] *)
Definition EntryPointStructure21 : list (string * nat) :=
  [bytes 4 "anchor"; u8 "checksum"; u8 "length"; u8 "major"; u8 "minor"; u16 "max_struct_size";
   u8 "revision"; bytes 5 "formatted_area"; bytes 5 "intermediate_anchor";
   u8 "intermediate_checksum"; u16 "struct_table_length"; u32 "struct_table_address";
   u16 "struct_count"; u8 "bcd_revision"].

(** [Smbios30EntryPoint::EntryPointStructure] *)
Definition EntryPointStructure30 : list (string * nat) :=
  [bytes 5 "anchor"; u8 "checksum"; u8 "length"; u8 "major"; u8 "minor"; u8 "docrev";
   u8 "revision"; u8 "reserved"; u32 "struct_table_max_size"; u64 "struct_table_address"].

End SmbiosStructs.
