(* ===== verification/Smbios.v ===== *)
(** The SMBIOS parser (PSME/common/smbios): entry points, the traits of the generic
    parser of [Mdr] and the dump of a whole blob.

    [create], [Smbios21EntryPoint] and [Smbios30EntryPoint] are the constructors
    with their checksum and anchor tests; [SmbiosParser] is the constructor of
    [mdr::GenericParser<SmbiosMdrTraits>]; the speed select structure
    has its own [parse_struct].  [print_loop] is the loop of the stream operator of
    the parser; what it writes is the list of structures it reads.  Theorems: the parser is
    safe on every blob, it returns what a blob was laid out from, a changed byte
    of an entry point is noticed, and the dump can run forever. *)

From Stdlib Require Import ZArith Lia.
From S2P Require Import Prelude Mdr SmbiosStructs.
Import Mdr SmbiosStructs.

Local Open Scope Z_scope.

Module Smbios.

Record SMBIOS_OOB_HEADER := mkHeader { type : Z; hlength : Z; handle : Z }.

#[global] Instance SMBIOS_OOB_HEADER_type : HeaderType SMBIOS_OOB_HEADER := {
  sizeof_header := 4;
  header_of bs := mkHeader (le_val (slice 0 1 bs)) (le_val (slice 1 1 bs)) (le_val (slice 2 2 bs));
  header_length := hlength;
}.

Abbreviation Buffered := (BufferBasedStruct SMBIOS_OOB_HEADER).

(** [StructEnhanced<T>]: [SpeedSelectEnhanced] for the speed select structure. *)
Inductive StructEnhanced :=
  | Enhanced (s : Buffered)
  | SpeedSelectEnhanced (s : Buffered) (configs : list (list Z)).

Definition sizeof_config : nat := sum_list (snd <$> SPEED_SELECT_CONFIGURATION).

Definition OEM_START : Z := 0x80.
Definition OEM_END : Z := 0xff.

(** [is_valid_structure_length<T>] and its specialisation: variable length
    structure, contains zero or more Speed Select Configurations *)
Definition is_valid_structure_length (T : Struct) (length : Z) : bool :=
  if bool_decide (T = SMBIOS_SPEED_SELECT_INFO_DATA) then
    (Z.of_nat (sizeof T) <=? length) &&
    ((length - Z.of_nat (sizeof T)) mod Z.of_nat sizeof_config =? 0)
  else if (OEM_START <=? ID T) && (ID T <=? OEM_END) then length =? Z.of_nat (sizeof T)
  else Z.of_nat (sizeof T) <=? length.

Definition header_type_equal (T : Struct) (h : SMBIOS_OOB_HEADER) (wanted : option Z) : bool :=
  (ID T =? type h) && (match wanted with None => true | Some w => w =? handle h end) &&
  is_valid_structure_length T (hlength h).

(** The [for (uint8_t i = 0; i < number_of_configs; ++i)] *)
Fixpoint read_configs (n : nat) (b : list Z) (offset : Z) (configs : list (list Z))
    : result (list (list Z) * Z) :=
  match n with
  | O => mret (configs, offset)
  | S n' =>
      config ← bytes_at b offset sizeof_config;
      read_configs n' b (wrap 64 (offset + Z.of_nat sizeof_config)) (configs ++ [config])
  end.

(** [mdr::parse_struct<SMBIOS_SPEED_SELECT_INFO_DATA>] *)
Definition parse_speed_select (b : list Z) (offset : Z) (has_auxiliary_string : bool)
    : result (StructEnhanced * Z) :=
  let T := SMBIOS_SPEED_SELECT_INFO_DATA in
  structure ← bytes_at b offset (sizeof T);
  let h := header_of (take sizeof_header structure) in
  let data := drop sizeof_header structure in
  let number_of_configs := default 0 (field T "number_of_configs" data) in
  let offset := wrap 64 (offset + Z.of_nat (sizeof T)) in
  let rest := wrap 64 (hlength h - Z.of_nat (sizeof T)) in
  '(configs, offset) ←
    (if negb (rest / Z.of_nat sizeof_config =? number_of_configs) then
       mret ([], wrap 64 (offset + rest))
     else read_configs (Z.to_nat number_of_configs) b offset []);
  '(strs, offset) ← (if has_auxiliary_string then read_auxiliary_strings b offset
                     else mret ([], offset));
  mret (SpeedSelectEnhanced (mkBufferBasedStruct h data strs) configs, offset).

Definition parse_smbios_struct (T : Struct) (b : list Z) (offset : Z) (aux : bool)
    : result (StructEnhanced * Z) :=
  if bool_decide (T = SMBIOS_SPEED_SELECT_INFO_DATA) then parse_speed_select b offset aux
  else '(s, offset) ← parse_struct T b offset aux; mret (Enhanced s, offset).

(** [SmbiosMdrTraits] *)
#[global] Instance SmbiosMdrTraits : Traits SMBIOS_OOB_HEADER StructEnhanced := {
  table_length := hlength;
  Mdr.header_type_equal := header_type_equal;
  parse_struct_of := parse_smbios_struct;
}.

(** ** Entry points *)

(** The classes derived from [SmbiosEntryPoint]: the bytes of [m_entry_point] and
    [m_region_length]. *)
Inductive SmbiosEntryPoint :=
  | Smbios21 (m_entry_point : list Z) (m_region_length : Z)
  | Smbios30 (m_entry_point : list Z) (m_region_length : Z).

Definition sizeof_eps21 : nat := sum_list (snd <$> EntryPointStructure21).
Definition sizeof_eps30 : nat := sum_list (snd <$> EntryPointStructure30).

Definition eps_field (fs : list (string * nat)) (name : string) (eps : list Z) : list Z :=
  default [] (field_bytes fs name eps).

Definition entry_error (what : string) : exn :=
  runtime_error ("Smbios entry point - " +:+ what).

Definition Smbios21EntryPoint (b : list Z) : result SmbiosEntryPoint :=
  let eps := take sizeof_eps21 b in
  if size b <? Z.of_nat sizeof_eps21 then Throw (entry_error "SMBIOS entry point too small")
  else if negb (accumulate eps =? 0) then Throw (entry_error "Incorrect checksum")
  else if negb (bool_decide (eps_field EntryPointStructure21 "anchor" eps = chars "_SM_")) then
    Throw (entry_error "Invalid anchor string")
  else if negb (bool_decide
      (eps_field EntryPointStructure21 "intermediate_anchor" eps = chars "_DMI_")) then
    Throw (entry_error "Invalid intermediate anchor string")
  else if negb (accumulate (slice 0x10 0x0F b) =? 0) then
    Throw (entry_error "Incorrect intermediate checksum")
  else mret (Smbios21 eps (wrap 32 (size b))).

Definition Smbios30EntryPoint (b : list Z) : result SmbiosEntryPoint :=
  let eps := take sizeof_eps30 b in
  if size b <? Z.of_nat sizeof_eps30 then Throw (entry_error "SMBIOS entry point too small")
  else if negb (accumulate eps =? 0) then Throw (entry_error "Incorrect checksum")
  else if negb (bool_decide (eps_field EntryPointStructure30 "anchor" eps = chars "_SM3_")) then
    Throw (entry_error "Invalid anchor string")
  else mret (Smbios30 eps (wrap 32 (size b))).

Definition EPS_REVISION_OFFSET : Z := 0x0a.

Definition create (b : list Z) : result SmbiosEntryPoint :=
  if size b <=? EPS_REVISION_OFFSET then Throw (entry_error "Entry Point Structure too small")
  else
    version ← byte_at b EPS_REVISION_OFFSET;
    if version =? 0x00 then Smbios21EntryPoint b
    else if version =? 0x01 then Smbios30EntryPoint b
    else Throw (entry_error "Unknown Entry Point Structure Version").

Definition struct_table_address (e : SmbiosEntryPoint) : Z :=
  match e with
  | Smbios21 eps _ => le_val (eps_field EntryPointStructure21 "struct_table_address" eps)
  | Smbios30 eps _ => le_val (eps_field EntryPointStructure30 "struct_table_address" eps)
  end.

Definition get_length (e : SmbiosEntryPoint) : Z :=
  match e with Smbios21 _ n | Smbios30 _ n => n end.

(** The methods of [GenericEntryPoint] that SMBIOS does not implement throw. *)
#[global] Instance SmbiosEntryPoint_ops : EntryPoint SmbiosEntryPoint := {
  get_struct_table_address := struct_table_address;
  get_struct_table_end_address := get_length;
  get_table_data_offset _ _ := Throw (entry_error "Method not implemented: get_table_data_offset()");
  get_table_data_end_offset _ _ :=
    Throw (entry_error "Method not implemented: get_table_data_end_offset()");
  set_struct_table_address _ _ :=
    Throw (entry_error "Method not implemented: set_struct_table_address()");
  set_struct_table_end_address _ _ :=
    Throw (entry_error "Method not implemented: set_struct_table_end_address()");
}.

(** The constructor of the parser; [None] is the null pointer. *)
Definition SmbiosParser (_buf : option (list Z)) (aux_string : bool)
    : result (GenericParser SmbiosEntryPoint) :=
  match _buf with
  | None => Throw (runtime_error "Smbios parser - Invalid SMBIOS blob pointer")
  | Some b => e ← create b; mret (mkParser b aux_string e)
  end.

(** Parse a blob and collect the structures of one type. *)
Definition parse_all (blob : list Z) (aux : bool) (T : Struct) (wanted : option Z)
    : result (list StructEnhanced) :=
  p ← SmbiosParser (Some blob) aux; get_all p T wanted.

(** ** The dump of a blob *)

(** A case of the [switch] over [header.type]. *)
Inductive print_case :=
  | Read (T : Struct)
  | Break
  | Default.

Definition by_length (h : SMBIOS_OOB_HEADER) (T T_V2 : Struct) : print_case :=
  if Z.of_nat (sizeof T) =? hlength h then Read T
  else if Z.of_nat (sizeof T_V2) =? hlength h then Read T_V2
  else Break.

Definition print_switch (h : SMBIOS_OOB_HEADER) : print_case :=
  let same (T : Struct) := type h =? ID T in
  if same SMBIOS_BIOS_INFO_DATA then Read SMBIOS_BIOS_INFO_DATA
  else if same SMBIOS_SYSTEM_INFO_DATA then Read SMBIOS_SYSTEM_INFO_DATA
  else if same SMBIOS_MODULE_INFO_DATA then Read SMBIOS_MODULE_INFO_DATA
  else if same SMBIOS_NIC_INFO_DATA then by_length h SMBIOS_NIC_INFO_DATA SMBIOS_NIC_INFO_DATA_V2
  else if same SMBIOS_STORAGE_INFO_DATA then
    by_length h SMBIOS_STORAGE_INFO_DATA SMBIOS_STORAGE_INFO_DATA_V2
  else if same SMBIOS_PROCESSOR_INFO_DATA then Read SMBIOS_PROCESSOR_INFO_DATA
  else if same SMBIOS_CPUID_DATA then by_length h SMBIOS_CPUID_DATA SMBIOS_CPUID_DATA_V2
  else if same SMBIOS_PCIE_INFO_DATA then Read SMBIOS_PCIE_INFO_DATA
  else if same SMBIOS_FPGA_DATA then by_length h SMBIOS_FPGA_DATA SMBIOS_FPGA_DATA_OEM
  else if same SMBIOS_STORAGE_DEVICE_INFO_DATA then Read SMBIOS_STORAGE_DEVICE_INFO_DATA
  else if same SMBIOS_TPM_INFO_DATA then Read SMBIOS_TPM_INFO_DATA
  else if same SMBIOS_TXT_INFO_DATA then Read SMBIOS_TXT_INFO_DATA
  else if same SMBIOS_MEMORY_DEVICE then Read SMBIOS_MEMORY_DEVICE
  else if same SMBIOS_MEMORY_DEVICE_EXTENDED_INFO_DATA then
    Read SMBIOS_MEMORY_DEVICE_EXTENDED_INFO_DATA
  else if same SMBIOS_PCIE_PORT_INFO_DATA then Read SMBIOS_PCIE_PORT_INFO_DATA
  else if same SMBIOS_SPEED_SELECT_INFO_DATA then Read SMBIOS_SPEED_SELECT_INFO_DATA
  else Default.

Fixpoint print_loop (fuel : nat) (p : GenericParser SmbiosEntryPoint) (offset : Z)
    (os : list StructEnhanced) : result (list StructEnhanced) :=
  match fuel with
  | O => Throw out_of_fuel
  | S fuel' =>
      if wrap 64 (offset + 4) <? size (buf p) then
        h ← header_at (buf p) offset;
        if size (buf p) <? wrap 64 (offset + hlength h) then
          Throw (runtime_error "Smbios parser - Unexpectedly reached end of smbios blob")
        else
          match print_switch h with
          | Read T =>
              '(s, offset) ← read_struct p T offset;
              print_loop fuel' p offset (os ++ [s])
          | Break => print_loop fuel' p offset os
          | Default =>
              offset ← skip_strings (buf p) (wrap 64 (offset + hlength h));
              print_loop fuel' p offset os
          end
      else mret os
  end.

Definition print (fuel : nat) (p : GenericParser SmbiosEntryPoint) : result (list StructEnhanced) :=
  print_loop fuel p (struct_table_address (entry_point p)) [].

(** ** The traits keep the promises of the parser *)

Lemma le_val_slice_bound p n bs :
  Forall is_byte bs → 0 ≤ le_val (slice p n bs) < 2 ^ (8 * Z.of_nat n).
Proof.
  intros Hb. pose proof (le_val_bound (slice p n bs) (Forall_slice _ _ _ _ Hb)) as [H0 H1].
  split; [done|]. eapply Z.lt_le_trans; [exact H1|]. apply Z.pow_le_mono_r; [lia|].
  unfold slice. rewrite length_take. lia.
Qed.

Lemma valid_length_sizeof T n :
  is_valid_structure_length T n = true → Z.of_nat (sizeof T) ≤ n.
Proof.
  unfold is_valid_structure_length. case_bool_decide.
  - rewrite andb_true_iff, Z.leb_le. tauto.
  - destruct (_ && _); rewrite ?Z.leb_le, ?Z.eqb_eq; lia.
Qed.

Lemma header_type_equal_sizeof T h w :
  header_type_equal T h w = true → Z.of_nat (sizeof T) ≤ hlength h.
Proof.
  unfold header_type_equal. rewrite !andb_true_iff. intros [_ Hv].
  by apply valid_length_sizeof.
Qed.

Lemma header_type_equal_speed_select h w :
  header_type_equal SMBIOS_SPEED_SELECT_INFO_DATA h w = true →
  (hlength h - 16) mod Z.of_nat sizeof_config = 0.
Proof.
  unfold header_type_equal, is_valid_structure_length.
  rewrite bool_decide_true, !andb_true_iff by done. intros (_ & _ & Hm%Z.eqb_eq). exact Hm.
Qed.

Lemma read_configs_ok n b o acc :
  size b < 2 ^ 63 → 0 ≤ o → o + Z.of_nat n * Z.of_nat sizeof_config ≤ size b →
  ∃ cs, read_configs n b o acc = Ok (cs, o + Z.of_nat n * Z.of_nat sizeof_config).
Proof.
  change (Z.of_nat sizeof_config) with 32. intros Hsz. revert o acc.
  induction n as [|n IH]; intros o acc Ho Hn; cbn [read_configs].
  - exists acc. run_monad. do 2 f_equal. lia.
  - rewrite bytes_at_ok by (change (Z.of_nat sizeof_config) with 32; lia). run_monad.
    change (Z.of_nat sizeof_config) with 32. rewrite wrap64_add by lia.
    edestruct IH as [cs ->]; [..|exists cs; do 2 f_equal]; lia.
Qed.

Lemma parse_speed_select_ok b o aux h :
  size b < 2 ^ 63 → 0 ≤ o → header_at b o = Ok h →
  16 ≤ hlength h → (hlength h - 16) mod 32 = 0 → o + hlength h ≤ size b →
  ∃ s o', parse_speed_select b o aux = Ok (s, o') ∧ o + hlength h ≤ o' ≤ size b + 2.
Proof.
  intros Hsz Ho Hh H16 Hmod Hlen. unfold parse_speed_select.
  change (sizeof SMBIOS_SPEED_SELECT_INFO_DATA) with 16%nat.
  change (Z.of_nat sizeof_config) with 32.
  rewrite bytes_at_ok by lia. run_monad. change (Z.of_nat 16) with 16.
  apply header_at_inv in Hh as (Hh & _ & _).
  assert (header_of (take sizeof_header (slice (Z.to_nat o) 16 b)) = h) as ->.
  { rewrite Hh. unfold slice. rewrite take_take. done. }
  set (n := default 0 _). rewrite (wrap64_add o 16) by lia.
  rewrite (wrap_small 64 (hlength h - 16)) by (split; lia).
  assert (∃ cs, (if negb ((hlength h - 16) / 32 =? n) then
       Ok ([], wrap 64 (o + 16 + (hlength h - 16)))
     else read_configs (Z.to_nat n) b (o + 16) []) = Ok (cs, o + hlength h)) as [cs ->].
  { destruct (Z.eqb_spec ((hlength h - 16) / 32) n) as [Hn|Hn]; cbn [negb].
    - destruct (read_configs_ok (Z.to_nat n) b (o + 16) []) as [cs ->];
        change (Z.of_nat sizeof_config) with 32; [done|lia|dlia|].
      exists cs. do 2 f_equal. dlia.
    - exists []. rewrite wrap64_add by lia. do 2 f_equal. lia. }
  destruct aux.
  - destruct (read_auxiliary_strings_ok b Hsz (o + hlength h)) as (ss & o' & -> & ?); [lia|].
    eexists _, _. split; [done|lia].
  - eexists _, _. split; [done|lia].
Qed.

#[global] Instance SmbiosMdrTraits_laws : TraitsLaws SMBIOS_OOB_HEADER StructEnhanced.
Proof.
  split; [simpl; lia|simpl; lia| |done|].
  - intros bs Hb. cbn. pose proof (le_val_slice_bound 1 1 bs Hb). lia.
  - cbn [parse_struct_of SmbiosMdrTraits Mdr.header_type_equal header_length SMBIOS_OOB_HEADER_type].
    intros T b o w aux h _ Hsz Ho Hh He Hlen. unfold parse_smbios_struct.
    pose proof (header_type_equal_sizeof _ _ _ He) as Hs.
    case_bool_decide as HT.
    + subst T. apply header_type_equal_speed_select in He.
      by apply parse_speed_select_ok.
    + destruct (parse_struct_ok T b o aux h) as (ss & o' & -> & ?); [done..|].
      run_monad. eexists _, _. split; [done|]. done.
Qed.

Lemma create_inv b e :
  create b = Ok e → Forall is_byte b →
  0 ≤ struct_table_address e < 2 ^ 64 ∧ get_length e = wrap 32 (size b).
Proof.
  unfold create. intros Hc Hb.
  destruct (size b <=? EPS_REVISION_OFFSET); [done|]. bind_inv Hc.
  assert (∀ p n k (l : list Z), Forall is_byte l → 8 * Z.of_nat n ≤ 64 →
    0 ≤ le_val (slice p n (take k l)) < 2 ^ 64) as Hbound.
  { intros q n k l Hl Hn. pose proof (le_val_slice_bound q n (take k l) (Forall_take _ _ _ Hl)) as [? ?].
    split; [done|]. eapply Z.lt_le_trans; [done|]. by apply Z.pow_le_mono_r. }
  destruct (v =? 0).
  - unfold Smbios21EntryPoint in Hc. repeat (case_match; [done|]). injection Hc as <-.
    split; [|done]. by apply (Hbound 24%nat 4%nat).
  - destruct (v =? 1); [|done]. unfold Smbios30EntryPoint in Hc. repeat (case_match; [done|]).
    injection Hc as <-. split; [|done]. by apply (Hbound 16%nat 8%nat).
Qed.

Lemma SmbiosParser_inv b aux p :
  SmbiosParser (Some b) aux = Ok p →
  ∃ e, create b = Ok e ∧ p = mkParser b aux e.
Proof. simpl. intros Hp. bind_inv Hp. injection Hp as <-. eauto. Qed.

Lemma create_parsed b : parsed (create b).
Proof.
  unfold create. destruct (Z.leb_spec (size b) EPS_REVISION_OFFSET) as [|Hs]; [done|].
  destruct (byte_at_ok b EPS_REVISION_OFFSET) as [v ->]; [unfold EPS_REVISION_OFFSET in *; lia|].
  run_monad. unfold Smbios21EntryPoint, Smbios30EntryPoint. repeat (case_match; try done).
Qed.

(** C27: Reading the structures of any type from any blob of bytes, with or without
    strings, either returns or throws the parser's exception: the loops end, and
    no byte outside the blob is ever read, whatever lengths, addresses, counts
    and strings the blob claims. *)
Theorem smbios_parse_safe blob aux T wanted :
  Forall is_byte blob → size blob < 2 ^ 63 → parsed (parse_all blob aux T wanted).
Proof.
  intros Hb Hsz. unfold parse_all. pose proof (create_parsed blob) as Hc.
  simpl. unfold mbind, result_bind. destruct (create blob) as [e|x] eqn:E; [|by destruct x].
  run_monad. destruct (create_inv _ _ E Hb) as [Ha Hl].
  apply get_all_safe; cbn [buf entry_point]; [done..| |done].
  cbn. rewrite Hl. unfold wrap. apply Z.mod_le; [|done]. unfold size. lia.
Qed.

(** ** Blobs laid out from structures *)

#[global] Program Instance SMBIOS_OOB_HEADER_layout : HeaderLayout SMBIOS_OOB_HEADER := {
  header_bytes h := le_bytes 1 (type h) ++ le_bytes 1 (hlength h) ++ le_bytes 2 (handle h);
  wf_header h := in_range 8 (type h) ∧ in_range 8 (hlength h) ∧ in_range 16 (handle h);
}.
Next Obligation. done. Qed.
Next Obligation.
  intros [ty n ha] (Ht & Hn & Hh).
  transitivity (mkHeader (le_val (le_bytes 1 ty)) (le_val (le_bytes 1 n)) (le_val (le_bytes 2 ha)));
    [reflexivity|].
  rewrite !le_val_bytes. unfold in_range in *. cbn [type hlength handle] in *.
  by rewrite !Z.mod_small.
Qed.

(** [n] pieces of [k] bytes. *)
Fixpoint chunks (n k : nat) (l : list Z) : list (list Z) :=
  match n with
  | O => []
  | S n' => take k l :: chunks n' k (drop k l)
  end.

(** The configurations a speed select structure holds: none when their number does
    not agree with the length. *)
Definition speed_select_configs (body : list Z) : list (list Z) :=
  let n := default 0 (field SMBIOS_SPEED_SELECT_INFO_DATA "number_of_configs" body) in
  if size body - 12 =? 32 * n then chunks (Z.to_nat n) 32 (drop 12 body) else [].

(** What a call of [get_all<T>] gives for a structure of the blob. *)
Definition enhance (T : Struct) (s : Laid SMBIOS_OOB_HEADER) : StructEnhanced :=
  let b := mkBufferBasedStruct (laid_header s) (take (sizeof_data T) (laid_body s))
             (laid_strings s) in
  if bool_decide (T = SMBIOS_SPEED_SELECT_INFO_DATA) then
    SpeedSelectEnhanced b (speed_select_configs (laid_body s))
  else Enhanced b.

Lemma read_configs_app n pre l post acc :
  size (pre ++ l ++ post) < 2 ^ 63 → length l = (n * 32)%nat →
  read_configs n (pre ++ l ++ post) (size pre) acc =
    Ok (acc ++ chunks n 32 l, size (pre ++ l)).
Proof.
  revert pre l acc. induction n as [|n IH]; intros pre l acc Hsz Hl; cbn [read_configs chunks].
  - apply length_zero_iff_nil in Hl as ->. by rewrite !app_nil_r.
  - assert (pre ++ l ++ post = pre ++ take 32 l ++ drop 32 l ++ post) as E
      by (by rewrite (app_assoc (take 32 l)), take_drop).
    assert (length (take 32 l) = 32%nat) as Ht by (rewrite length_take, Hl; lia).
    rewrite E in *. rewrite bytes_at_app by (by rewrite Ht). run_monad.
    change (Z.of_nat sizeof_config) with 32.
    rewrite wrap64_add by (unfold size in *; rewrite !length_app in *; lia).
    replace (size pre + 32) with (size (pre ++ take 32 l))
      by (unfold size; rewrite length_app; lia).
    rewrite (app_assoc pre (take 32 l)) in *.
    rewrite IH; [|done|rewrite length_drop, Hl; lia].
    rewrite <- !app_assoc, take_drop. done.
Qed.

(** The configurations are read, or skipped when their number is wrong. *)
Lemma speed_select_configs_read pre body post len n :
  size (pre ++ drop 12 body ++ post) < 2 ^ 63 → size body = len - 4 → 16 ≤ len →
  (len - 16) mod 32 = 0 →
  n = default 0 (field SMBIOS_SPEED_SELECT_INFO_DATA "number_of_configs" body) →
  (if negb ((len - 16) / 32 =? n) then Ok ([], wrap 64 (size pre + (len - 16)))
   else read_configs (Z.to_nat n) (pre ++ drop 12 body ++ post) (size pre) []) =
    Ok (speed_select_configs body, size (pre ++ drop 12 body)).
Proof.
  intros Hsz Hb H16 Hmod ->. unfold speed_select_configs. set (n := default 0 _).
  assert (size (drop 12 body) = len - 16) as Hd by (unfold size in *; rewrite length_drop; lia).
  replace (size body - 12 =? 32 * n) with ((len - 16) / 32 =? n)
    by (apply eq_true_iff_eq; rewrite !Z.eqb_eq; dlia).
  destruct (Z.eqb_spec ((len - 16) / 32) n) as [Hc|Hc]; cbn [negb].
  - rewrite read_configs_app; [done|done|unfold size in Hd; dlia].
  - rewrite wrap64_add by szlia. do 2 f_equal. szlia.
Qed.

Lemma parse_speed_select_laid aux (s : Laid SMBIOS_OOB_HEADER) pre post :
  size (pre ++ laid_bytes aux s ++ post) < 2 ^ 63 → wf_laid aux s →
  16 ≤ hlength (laid_header s) → (hlength (laid_header s) - 16) mod 32 = 0 →
  parse_speed_select (pre ++ laid_bytes aux s ++ post) (size pre) aux =
    Ok (enhance SMBIOS_SPEED_SELECT_INFO_DATA s, size pre + size (laid_bytes aux s)).
Proof.
  intros Hsz Hw H16 Hmod. pose proof Hw as (Hwh & Hlen & _).
  cbn [header_length SMBIOS_OOB_HEADER_type sizeof_header] in Hlen. change (Z.of_nat 4) with 4 in Hlen.
  pose proof (header_at_laid aux s pre post Hwh) as Hh.
  apply header_at_inv in Hh as (Hh & _ & Hin). cbn [sizeof_header SMBIOS_OOB_HEADER_type] in Hin.
  unfold parse_speed_select.
  change (sizeof SMBIOS_SPEED_SELECT_INFO_DATA) with 16%nat. change (Z.of_nat sizeof_config) with 32.
  unfold laid_bytes in *. set (hb := header_bytes (laid_header s)) in *.
  assert (length hb = 4%nat) as Hhb by done.
  set (first := take 12 (laid_body s)). set (more := drop 12 (laid_body s)).
  assert (laid_body s = first ++ more) as Hbody by (symmetry; apply take_drop).
  assert (length first = 12%nat) as Hfirst
    by (unfold first; rewrite length_take; unfold size in Hlen; lia).
  assert (size more = hlength (laid_header s) - 16) as Hmore.
  { unfold more, size in *. rewrite length_drop. lia. }
  assert (pre ++ (hb ++ laid_body s ++ aux_part aux s) ++ post
          = pre ++ (hb ++ first) ++ more ++ aux_part aux s ++ post) as Eall
    by (rewrite Hbody, <- !app_assoc; done).
  rewrite Eall in *.
  rewrite bytes_at_app by (rewrite length_app, Hhb, Hfirst; done). run_monad.
  change sizeof_header with 4%nat.
  rewrite take_app_length', drop_app_length' by done.
  assert (header_of hb = laid_header s) as -> by (by apply header_of_bytes).
  change (Z.of_nat 16) with 16.
  rewrite (wrap_small 64 (hlength _ - 16)) by (split; unfold size in *; rewrite ?length_app in *; lia).
  replace (size pre + 16) with (size (pre ++ hb ++ first))
    by (unfold size; rewrite !length_app; lia).
  rewrite (wrap_small 64 (size (pre ++ hb ++ first))) by (split; szlia).
  set (n := default 0 _).
  assert (default 0 (field SMBIOS_SPEED_SELECT_INFO_DATA "number_of_configs" (laid_body s)) = n) as Hn.
  { transitivity (le_val (slice 2 1 (laid_body s))); [reflexivity|].
    transitivity (le_val (slice 2 1 first)); [|reflexivity].
    unfold first, slice. by rewrite skipn_firstn_comm, take_take. }
  rewrite (app_assoc pre (hb ++ first)). unfold more.
  rewrite speed_select_configs_read by (done || (fold more; szlia)). fold more.
  rewrite (app_assoc (pre ++ hb ++ first)).
  pose proof (aux_part_read aux s ((pre ++ hb ++ first) ++ more) post) as Hr. run_monad.
  rewrite Hr; [|szlia|done]. do 2 f_equal.
  unfold size. rewrite !length_app, Hbody, !length_app. lia.
Qed.

#[global] Program Instance SmbiosMdrTraits_layout : LayoutLaws SMBIOS_OOB_HEADER StructEnhanced := {
  Mdr.enhance := enhance;
}.
Next Obligation.
  cbn [parse_struct_of SmbiosMdrTraits Mdr.header_type_equal].
  intros T aux s w pre post Hsz Hw He. unfold parse_smbios_struct.
  pose proof (header_type_equal_sizeof _ _ _ He) as Hs. case_bool_decide as HT.
  - subst T. apply header_type_equal_speed_select in He. by apply parse_speed_select_laid.
  - rewrite parse_struct_laid by done. run_monad. unfold enhance. by rewrite bool_decide_false.
Qed.

(** C28: A blob that consists of an accepted entry point followed, at the address the
    entry point gives, by structures with their strings is read back exactly: [get_all<T>] returns, in
    order, the structures whose identifier, handle and length match [T], each with
    its header, the bytes of its data and all its strings, and for speed select
    structures their configurations when their number agrees with the length. *)
Theorem smbios_parse_laid_out pre ss e T wanted :
  create (pre ++ concat (laid_bytes true <$> ss)) = Ok e →
  struct_table_address e = size pre →
  size (pre ++ concat (laid_bytes true <$> ss)) < 2 ^ 32 →
  Forall (wf_laid true) ss →
  parse_all (pre ++ concat (laid_bytes true <$> ss)) true T wanted =
    Ok (enhance T <$> filter (λ s, header_type_equal T (laid_header s) wanted = true) ss).
Proof.
  intros Hc Ha Hsz Hw. unfold parse_all. simpl. rewrite Hc. run_monad.
  assert (get_length e = size (pre ++ concat (laid_bytes true <$> ss))) as He.
  { clear Ha. revert Hc. set (b := pre ++ _) in *. unfold create.
    destruct (_ <=? _); [done|]. intros Hc. bind_inv Hc.
    destruct (v =? 0); [|destruct (v =? 1); [|done]];
      unfold Smbios21EntryPoint, Smbios30EntryPoint in Hc; repeat (case_match; [done|]);
      injection Hc as <-; apply wrap_small; split; szlia. }
  pose proof (get_all_laid_out true e T wanted ss pre []) as Hg.
  rewrite app_nil_r in Hg. by rewrite Hg by (done || lia).
Qed.

(** A blob to try the theorems on: a version 2.1 entry point and two structures, a TPM
    structure and a speed select structure with one configuration. *)
Definition sample_entry : list Z :=
  [95; 83; 77; 95; 121; 31; 2; 8; 0; 0; 0; 0; 0; 0; 0; 0;
   95; 68; 77; 73; 95; 31; 0; 0; 31; 0; 0; 0; 2; 0; 40].
Definition sample_structs : list (Laid SMBIOS_OOB_HEADER) :=
  [mkLaid (mkHeader 195 7 5) [1; 2; 1] [[65; 66]; [67]];
   mkLaid (mkHeader 210 48 6) ([0; 0; 1; 0] ++ replicate 8 0 ++ replicate 32 7) []].
Definition sample_blob : list Z := sample_entry ++ concat (laid_bytes true <$> sample_structs).

Lemma smbios_parse_laid_out_witness :
  parse_all sample_blob true SMBIOS_SPEED_SELECT_INFO_DATA (Some 6) =
    Ok [SpeedSelectEnhanced
          (mkBufferBasedStruct (mkHeader 210 48 6) ([0; 0; 1; 0] ++ replicate 8 0) [])
          [replicate 32 7]].
Proof.
  apply (smbios_parse_laid_out sample_entry sample_structs
    (Smbios21 sample_entry (size sample_blob)) SMBIOS_SPEED_SELECT_INFO_DATA (Some 6)).
  - vm_compute. reflexivity.
  - reflexivity.
  - vm_compute. reflexivity.
  - repeat constructor; try done; repeat constructor; done.
Defined.

Lemma smbios_parse_safe_witness :
  parsed (parse_all sample_blob true SMBIOS_TPM_INFO_DATA None) ∧
  parsed (parse_all (take 40 sample_blob) true SMBIOS_TPM_INFO_DATA None).
Proof.
  split; apply smbios_parse_safe; first [apply (bool_decide_eq_true_1 _); vm_compute; reflexivity | vm_compute; reflexivity].
Defined.

(** ** Entry points *)

Lemma accumulate_sum l : accumulate l = wrap 8 (foldr Z.add 0 l).
Proof.
  unfold accumulate. assert (∀ a, foldl (λ sum b, wrap 8 (sum + b)) (wrap 8 a) l =
    wrap 8 (a + foldr Z.add 0 l)) as Hg; [|apply (Hg 0)].
  induction l as [|x l IH]; intros a; cbn [foldl foldr]; [f_equal; lia|].
  replace (wrap 8 (wrap 8 a + x)) with (wrap 8 (a + x)); [rewrite IH; f_equal; lia|].
  unfold wrap. by rewrite Zplus_mod_idemp_l.
Qed.

Lemma sum_insert (l : list Z) i x y :
  l !! i = Some y → foldr Z.add 0 (<[i := x]> l) = foldr Z.add 0 l - y + x.
Proof.
  revert i. induction l as [|z l IH]; intros [|i]; simpl; try done.
  - intros [= ->]. lia.
  - intros Hi. rewrite (IH i Hi). lia.
Qed.

(** A byte sum notices a changed byte. *)
Lemma accumulate_insert l i x y :
  l !! i = Some y → is_byte x → is_byte y → x ≠ y → accumulate l = 0 →
  accumulate (<[i := x]> l) ≠ 0.
Proof.
  unfold is_byte. intros Hi Hx Hy Hne. rewrite !accumulate_sum, (sum_insert _ _ _ _ Hi).
  unfold wrap. change (2 ^ 8) with 256. intros. dlia.
Qed.

(** What an accepted entry point is. *)
Lemma create_accepted b e :
  create b = Ok e →
  ∃ n version anchor, (n = 31%nat ∧ version = 0 ∧ anchor = chars "_SM_" ∧ e = Smbios21 (take n b) (wrap 32 (size b)) ∨
    n = 24%nat ∧ version = 1 ∧ anchor = chars "_SM3_" ∧ e = Smbios30 (take n b) (wrap 32 (size b))) ∧
  (n ≤ length b)%nat ∧ b !! 10%nat = Some version ∧ accumulate (take n b) = 0 ∧
  take (length anchor) b = anchor.
Proof.
  unfold create. destruct (Z.leb_spec (size b) EPS_REVISION_OFFSET); [done|]. intros Hc.
  bind_inv Hc. assert (b !! 10%nat = Some v) as Hv.
  { revert E. unfold byte_at, index. destruct (_ && _); [|done].
    change (Z.to_nat EPS_REVISION_OFFSET) with 10%nat. by destruct (b !! 10%nat) as [?|]; intros [= ->]. }
  destruct (Z.eqb_spec v 0) as [->|]; [|destruct (Z.eqb_spec v 1) as [->|]; [|done]].
  - exists 31%nat, 0, (chars "_SM_"). unfold Smbios21EntryPoint in Hc.
    destruct (Z.ltb_spec (size b) (Z.of_nat sizeof_eps21)) as [|Hl]; [done|].
    destruct (Z.eqb_spec (accumulate (take sizeof_eps21 b)) 0) as [Hs|]; [|done].
    case_bool_decide as Ha; [|done]. case_bool_decide; [|done].
    destruct (accumulate (slice 16 15 b) =? 0); [|done].
    injection Hc as <-. split_and!; [by left|change (Z.of_nat sizeof_eps21) with 31 in Hl; unfold size in Hl; lia|done|done|].
    change (slice 0 4 (take 31 b) = chars "_SM_") in Ha. rewrite <- Ha at 2.
    unfold slice. by rewrite drop_0, take_take.
  - exists 24%nat, 1, (chars "_SM3_"). unfold Smbios30EntryPoint in Hc.
    destruct (Z.ltb_spec (size b) (Z.of_nat sizeof_eps30)) as [|Hl]; [done|].
    destruct (Z.eqb_spec (accumulate (take sizeof_eps30 b)) 0) as [Hs|]; [|done].
    case_bool_decide as Ha; [|done].
    injection Hc as <-. split_and!; [by right|change (Z.of_nat sizeof_eps30) with 24 in Hl; unfold size in Hl; lia|done|done|].
    change (slice 0 5 (take 24 b) = chars "_SM3_") in Ha. rewrite <- Ha at 2.
    unfold slice. by rewrite drop_0, take_take.
Qed.

(** The bytes of the entry point structure. *)
Definition entry_point_structure (e : SmbiosEntryPoint) : list Z :=
  match e with Smbios21 eps _ | Smbios30 eps _ => eps end.

(** An entry point with one byte changed is never accepted: whichever byte of
    the entry point structure is replaced by another value, [create] throws the
    entry point exception. *)
Theorem entry_point_change_detected b e i x y :
  Forall is_byte b → create b = Ok e → (i < length (entry_point_structure e))%nat →
  b !! i = Some y → is_byte x → x ≠ y →
  ∃ what, create (<[i := x]> b) = Throw (runtime_error what).
Proof.
  intros Hb Hc Hi Hy Hx Hne. pose proof (create_parsed (<[i := x]> b)) as Hp.
  destruct (create (<[i := x]> b)) as [e'|[]] eqn:Hc'; try done; [|by eexists]. exfalso.
  assert (is_byte y) as Hby by (by eapply Forall_lookup_1).
  apply create_accepted in Hc as (n & v & anchor & Hcase & Hn & Hv & Hs & Ha).
  apply create_accepted in Hc' as (n' & v' & anchor' & Hcase' & Hn' & Hv' & Hs' & Ha').
  assert (i < n)%nat as Hin.
  { destruct Hcase as [(_ & _ & _ & ->)|(_ & _ & _ & ->)]; simpl in Hi;
      rewrite length_take in Hi; lia. }
  destruct (decide (v = v')) as [<-|Hvv].
  - assert (n' = n) as ->.
    { destruct Hcase as [(-> & -> & _)|(-> & -> & _)], Hcase' as [(-> & ? & _)|(-> & ? & _)]; done. }
    rewrite take_insert_lt in Hs' by done. revert Hs'.
    apply (accumulate_insert _ _ _ y); [by rewrite lookup_take_lt|done..].
  - assert (i = 10%nat) as ->.
    { destruct (decide (i = 10%nat)); [done|]. rewrite list_lookup_insert_ne in Hv' by done.
      congruence. }
    assert (b !! 3%nat = anchor !! 3%nat ∧ b !! 3%nat = anchor' !! 3%nat) as [E E'].
    { rewrite <- Ha, <- Ha'.
      destruct Hcase as [(_ & _ & -> & _)|(_ & _ & -> & _)],
        Hcase' as [(_ & _ & -> & _)|(_ & _ & -> & _)];
      rewrite !lookup_take_lt by (cbn; lia); by rewrite list_lookup_insert_ne. }
    destruct Hcase as [(_ & -> & -> & _)|(_ & -> & -> & _)],
      Hcase' as [(_ & -> & -> & _)|(_ & -> & -> & _)]; try done; rewrite E in E'; discriminate E'.
Qed.

Lemma entry_point_change_detected_witness :
  ∃ what, create (<[10%nat := 1]> sample_blob) = Throw (runtime_error what).
Proof.
  apply (entry_point_change_detected sample_blob (Smbios21 sample_entry (size sample_blob)) 10 1 0).
  - unfold is_byte. apply (bool_decide_eq_true_1 _). vm_compute. reflexivity.
  - vm_compute. reflexivity.
  - apply (bool_decide_eq_true_1 _). vm_compute. reflexivity.
  - reflexivity.
  - split; reflexivity || discriminate.
  - discriminate.
Defined.

(** ** The dump *)

Lemma by_length_break h T T_V2 :
  hlength h ≠ Z.of_nat (sizeof T) → hlength h ≠ Z.of_nat (sizeof T_V2) → by_length h T T_V2 = Break.
Proof. intros. unfold by_length. by rewrite !(proj2 (Z.eqb_neq _ _)) by done. Qed.

(** When the dump reaches a network, storage, CPUID or FPGA structure whose
    length is none of the two it knows, it makes no progress: it never ends,
    however long it runs. *)
Theorem print_never_ends p offset h os :
  0 ≤ offset → offset + 4 < size (buf p) → size (buf p) < 2 ^ 63 →
  header_at (buf p) offset = Ok h →
  offset + hlength h ≤ size (buf p) → 0 ≤ hlength h →
  type h ∈ [ID SMBIOS_NIC_INFO_DATA; ID SMBIOS_STORAGE_INFO_DATA; ID SMBIOS_CPUID_DATA;
            ID SMBIOS_FPGA_DATA] →
  hlength h ∉ [35; 36; 57; 58; 80; 230; 246] →
  ∀ fuel, print_loop fuel p offset os = Throw out_of_fuel.
Proof.
  intros Ho Hin Hsz Hh Hlen H0 Hty Hl.
  assert (print_switch h = Break) as Hb.
  { destruct h as [ty n ha]. cbn [type hlength] in *. rewrite !list.elem_of_cons, elem_of_nil in Hty.
    rewrite !not_elem_of_cons in Hl. destruct Hl as (? & ? & ? & ? & ? & ? & ? & _). destruct Hty as [->|[->|[->|[->|[]]]]].
    - apply (by_length_break (mkHeader 190 n ha) SMBIOS_NIC_INFO_DATA
        SMBIOS_NIC_INFO_DATA_V2); [change (n ≠ 57)|change (n ≠ 58)]; lia.
    - apply (by_length_break (mkHeader 191 n ha) SMBIOS_STORAGE_INFO_DATA
        SMBIOS_STORAGE_INFO_DATA_V2); [change (n ≠ 58)|change (n ≠ 80)]; lia.
    - apply (by_length_break (mkHeader 193 n ha) SMBIOS_CPUID_DATA
        SMBIOS_CPUID_DATA_V2); [change (n ≠ 230)|change (n ≠ 246)]; lia.
    - apply (by_length_break (mkHeader 198 n ha) SMBIOS_FPGA_DATA
        SMBIOS_FPGA_DATA_OEM); [change (n ≠ 36)|change (n ≠ 35)]; lia. }
  intros fuel. induction fuel as [|fuel IH]; [done|]. cbn [print_loop].
  rewrite wrap64_add, (proj2 (Z.ltb_lt _ _)) by lia. rewrite Hh. run_monad.
  rewrite wrap64_add, (proj2 (Z.ltb_ge _ _)) by lia. by rewrite Hb.
Qed.

(** The entry point and a network structure of six bytes. *)
Definition short_nic_blob : list Z := sample_entry ++ [190; 6; 1; 0; 0; 0; 0; 0].
Definition short_nic_parser : GenericParser SmbiosEntryPoint :=
  mkParser short_nic_blob true (Smbios21 sample_entry (size short_nic_blob)).

Lemma print_never_ends_witness :
  SmbiosParser (Some short_nic_blob) true = Ok short_nic_parser ∧
  ∀ fuel, print fuel short_nic_parser = Throw out_of_fuel.
Proof.
  split; [vm_compute; reflexivity|].
  apply (print_never_ends _ 31 (mkHeader 190 6 1)); try (vm_compute; congruence).
  - apply (bool_decide_eq_true_1 _). vm_compute. reflexivity.
  - apply (bool_decide_eq_true_1 _). vm_compute. reflexivity.
Defined.

End Smbios.
