(* ===== verification/Acpi.v ===== *)
(** The ACPI parser (PSME/common/acpi): the entry point that walks the tables of a
    blob and the traits of the generic parser of [Mdr].

    [read_tables] is the [while] of the constructor of [AcpiTableEntryPoint] with its
    length, checksum and signature tests; [AcpiParser] is the constructor of
    [mdr::GenericParser<AcpiTraits>].  Theorems: a blob laid out from tables and
    subtables is read back; once the entry point was accepted no read leaves the
    blob; the walk itself can read past the end of the blob and can run forever,
    because it checks the length of a table against the whole blob only and does
    not refuse a length of zero. *)

From Stdlib Require Import ZArith Lia.
From S2P Require Import Prelude Mdr.
Import Mdr.

Local Open Scope Z_scope.

Module Acpi.

(** ** Structures *)

(** [NFIT_SUBTABLE_HEADER] and [PCAT_SUBTABLE_HEADER], which have the same layout. *)
Record SUBTABLE_HEADER := mkHeader { type : Z; hlength : Z }.

#[global] Instance SUBTABLE_HEADER_type : HeaderType SUBTABLE_HEADER := {
  sizeof_header := 4;
  header_of bs := mkHeader (le_val (slice 0 2 bs)) (le_val (slice 2 2 bs));
  header_length := hlength;
}.

Definition NFIT_SPA_RANGE_STRUCTURE : Struct := mkStruct 0
  [u16 "SpaRangeStructureIndex"; u16 "Flags"; bytes 4 "Rsvd0"; u32 "ProximityDomain";
   bytes 16 "AddressRangeTypeGuid"; u64 "SystemPhysicalAddressRangeBase";
   u64 "SystemPhysicalAddressRangeLength"; u64 "AddressRangeMemoryMappingAttribute"].

Definition NFIT_NVDIMM_REGION_MAPPING_STRUCTURE : Struct := mkStruct 1
  [u32 "NfitDeviceHandle"; u16 "NvdimmPhysicalID"; u16 "NvdimmRegionID";
   u16 "SpaRangeStructureIndex"; u16 "NvdimmControlRegionStructureIndex";
   u64 "NvdimmRegionSize"; u64 "RegionOffset"; u64 "NvdimmPhysicalAddressRegionBase";
   u16 "InterleaveStructureIndex"; u16 "InterleaveWays"; u16 "NvdimmStateFlags";
   bytes 2 "Rsvd0"].

Definition NFIT_NVDIMM_CONTROL_REGION_STRUCTURE : Struct := mkStruct 4
  [u16 "NvdimmControlRegionStructureIndex"; u16 "VendorID"; u16 "DeviceID"; u16 "RevisionID";
   u16 "SubsystemVendorID"; u16 "SubsystemDeviceID"; u16 "SubsystemRevisionID";
   u8 "ValidFields"; u8 "ManufacturingLocation"; u16 "ManufacturingDate"; bytes 2 "Rsvd0";
   u32 "SerialNumber"; u16 "RegionFormatInterfaceCode"; u16 "NumberOfBlockControlWindows"].

Definition NFIT_NVDIMM_BLOCK_DATA_WINDOW_REGION_STRUCTURE : Struct := mkStruct 5
  [u16 "NvdimmControlRegionStructureIndex"; u16 "NumberOfBlockDataWindows";
   u64 "BlockDataWindowStartOffset"; u64 "SizeOfBlockDataWindow";
   u64 "BlockAccessibleMemoryCapacity";
   u64 "BeginningAddressOfFirstBlockInBlockAccessibleMemory"].

Definition NFIT_PLATFORM_CAPABILITIES_STRUCTURE : Struct := mkStruct 7
  [u8 "HighestValidCapability"; bytes 3 "Rsvs0"; u32 "Capabilities"; bytes 4 "Rsvd1"].

Definition PCAT_PLATFORM_CAPABILITY_INFORMATION_STRUCTURE : Struct := mkStruct 0
  [u8 "IntelNvdimmManagementSwConfigInputSupport"; u8 "MemoryModeCapabilities";
   u8 "CurrentMemoryMode"; u8 "PersistentMemoryRasCapability"; bytes 8 "Rsvd0"].

Definition PCAT_SOCKET_SKU_INFORMATION_STRUCTURE : Struct := mkStruct 6
  [u16 "SocketID"; bytes 2 "Rsvd0"; u64 "MappedMemorySizeLimit";
   u64 "TotalMemorySizeMappedIntoSpa";
   u64 "MemorySizeExcludedInLimitCalculationsWhenIn2LmMode"].

Definition ACPI_TABLE_HEADER : list (string * nat) :=
  [bytes 4 "Signature"; u32 "Length"; u8 "Revision"; u8 "Checksum"; bytes 6 "OemID";
   bytes 8 "OemTableID"; u32 "OemRevision"; u32 "CreatorId"; u32 "CreatorRevision";
   bytes 4 "Rsvd0"].

Definition sizeof_table_header : nat := sum_list (snd <$> ACPI_TABLE_HEADER).

(** [NFIT], [PCAT], [SRAT], [HMAT] and [PMTT] *)
Definition signatures : list string := ["NFIT"; "PCAT"; "SRAT"; "HMAT"; "PMTT"].

(** ** Traits *)

Definition header_type_equal (T : Struct) (h : SUBTABLE_HEADER) (_ : option Z) : bool :=
  (ID T =? type h) && (hlength h =? Z.of_nat (sizeof T)).

Abbreviation StructEnhanced := (BufferBasedStruct SUBTABLE_HEADER).

#[global] Instance AcpiTraits : Traits SUBTABLE_HEADER StructEnhanced := {
  table_length := hlength;
  Mdr.header_type_equal := header_type_equal;
  parse_struct_of := parse_struct;
}.

(** ** The entry point *)

Record AcpiTableType := mkTableType {
  signature : list Z;
  data_start_offset : Z;
  data_end_offset : Z;
}.

(** [AcpiTableEntryPoint]; [m_entry_point], which the parser does not use once the
    tables have been walked, is left out. *)
Record AcpiTableEntryPoint := mkEntryPoint {
  m_acpi_table_type_list : list AcpiTableType;
  m_struct_table_address : Z;
  m_struct_table_end_address : Z;
}.

Definition entry_error (what : string) : exn := runtime_error ("ACPI entry point - " +:+ what).

Definition supported (sig : list Z) : bool := bool_decide (sig ∈ chars <$> signatures).

(** The [while (table_start < buffer_end)] of the constructor; [table_start] is the
    distance of the pointer from the start of the buffer. *)
Fixpoint read_tables (fuel : nat) (b : list Z) (table_start data_offset data_end_offset : Z)
    (tables : list AcpiTableType) : result (list AcpiTableType) :=
  match fuel with
  | O => Throw out_of_fuel
  | S fuel' =>
      if table_start <? size b then
        current_table_length ← le_val <$> bytes_at b (table_start + 4) 4;
        if size b <? current_table_length then Throw (entry_error "Invalid length of ACPI table")
        else
          table ← bytes_at b table_start (Z.to_nat current_table_length);
          if negb (accumulate table =? 0) then Throw (entry_error "Incorrect ACPI table checksum")
          else
            acpi_signature ← bytes_at b table_start 4;
            if negb (supported acpi_signature) then
              Throw (entry_error "Invalid ACPI table signature")
            else
              let data_end_offset := wrap 32 (data_end_offset + current_table_length) in
              read_tables fuel' b (table_start + current_table_length)
                (wrap 32 (data_offset + current_table_length)) data_end_offset
                (tables ++ [mkTableType acpi_signature data_offset data_end_offset])
      else mret tables
  end.

(** The constructor; [fuel] bounds the number of tables walked. *)
Definition AcpiTableEntryPoint_new (fuel : nat) (b : list Z) : result AcpiTableEntryPoint :=
  if size b <? Z.of_nat sizeof_table_header then Throw (entry_error "ACPI entry point too small")
  else
    tables ← read_tables fuel b 0 (Z.of_nat sizeof_table_header) 0 [];
    mret (mkEntryPoint tables 0 0).

(** [AcpiEntryPoint::create] *)
Definition create (fuel : nat) (b : list Z) : result AcpiTableEntryPoint :=
  if size b <? Z.of_nat sizeof_table_header then Throw (entry_error "Invalid ACPI table size")
  else AcpiTableEntryPoint_new fuel b.

(** The first table with the signature. *)
Definition find_table (e : AcpiTableEntryPoint) (sig : string) : option AcpiTableType :=
  list_find (λ t, signature t = chars sig) (m_acpi_table_type_list e) ≫= λ '(_, t), Some t.

#[global] Instance AcpiTableEntryPoint_ops : EntryPoint AcpiTableEntryPoint := {
  get_struct_table_address := m_struct_table_address;
  get_struct_table_end_address := m_struct_table_end_address;
  get_table_data_offset e sig :=
    Ok (match find_table e sig with Some t => data_start_offset t | None => 0 end);
  get_table_data_end_offset e sig :=
    Ok (match find_table e sig with Some t => data_end_offset t | None => 0 end);
  set_struct_table_address o e :=
    Ok (mkEntryPoint (m_acpi_table_type_list e) o (m_struct_table_end_address e));
  set_struct_table_end_address o e :=
    Ok (mkEntryPoint (m_acpi_table_type_list e) (m_struct_table_address e) o);
}.

(** The constructor of the parser; [None] is the null pointer. *)
Definition AcpiParser (fuel : nat) (_buf : option (list Z)) (aux_string : bool)
    : result (GenericParser AcpiTableEntryPoint) :=
  match _buf with
  | None => Throw (runtime_error "ACPI parser - Invalid ACPI blob pointer")
  | Some b => e ← create fuel b; mret (mkParser b aux_string e)
  end.

(** ** The traits keep the promises of the parser *)

Lemma subtable_type_equal_sizeof T h w :
  header_type_equal T h w = true → hlength h = Z.of_nat (sizeof T).
Proof. unfold header_type_equal. rewrite andb_true_iff, !Z.eqb_eq. tauto. Qed.

#[global] Instance AcpiTraits_laws : TraitsLaws SUBTABLE_HEADER StructEnhanced.
Proof.
  split; [simpl; lia|simpl; lia| |done|].
  - intros bs Hb. cbn. pose proof (le_val_bound (slice 2 2 bs) (Forall_slice _ _ _ _ Hb)) as [H0 H1].
    split; [done|]. eapply Z.lt_le_trans; [exact H1|]. apply Z.pow_le_mono_r; [lia|].
    unfold slice. rewrite length_take. lia.
  - cbn [parse_struct_of AcpiTraits Mdr.header_type_equal]. intros T b o w aux h _ Hsz Ho Hh He Hlen.
    apply subtable_type_equal_sizeof in He.
    destruct (parse_struct_ok T b o aux h) as (ss & o' & -> & ?); [done..| |done|eauto].
    cbn [header_length SUBTABLE_HEADER_type]. lia.
Qed.

#[global] Program Instance SUBTABLE_HEADER_layout : HeaderLayout SUBTABLE_HEADER := {
  header_bytes h := le_bytes 2 (type h) ++ le_bytes 2 (hlength h);
  wf_header h := in_range 16 (type h) ∧ in_range 16 (hlength h);
}.
Next Obligation. done. Qed.
Next Obligation.
  intros [ty n] (Ht & Hn).
  transitivity (mkHeader (le_val (le_bytes 2 ty)) (le_val (le_bytes 2 n))); [reflexivity|].
  rewrite !le_val_bytes. unfold in_range in *. cbn [type hlength] in *. by rewrite !Z.mod_small.
Qed.

(** What a call of [get_all<T>] gives for a subtable. *)
Definition enhance (T : Struct) (s : Laid SUBTABLE_HEADER) : StructEnhanced :=
  mkBufferBasedStruct (laid_header s) (take (sizeof_data T) (laid_body s)) (laid_strings s).

#[global] Program Instance AcpiTraits_layout : LayoutLaws SUBTABLE_HEADER StructEnhanced := {
  Mdr.enhance := enhance;
}.
Next Obligation.
  cbn [parse_struct_of AcpiTraits Mdr.header_type_equal].
  intros T aux s w pre post Hsz Hw He. apply subtable_type_equal_sizeof in He.
  rewrite parse_struct_laid; [done|done|done|]. cbn [header_length SUBTABLE_HEADER_type]. lia.
Qed.

(** ** The walk over the tables *)

(** A table that can stand in a blob. *)
Definition wf_table (l : list Z) : Prop :=
  (sizeof_table_header ≤ length l)%nat ∧ le_val (slice 4 4 l) = size l ∧
  accumulate l = 0 ∧ supported (take 4 l) = true.

(** What the walk records of the tables from offset [o] on. *)
Fixpoint table_types (o : Z) (ts : list (list Z)) : list AcpiTableType :=
  match ts with
  | [] => []
  | l :: ts' => mkTableType (take 4 l) (o + 40) (o + size l) :: table_types (o + size l) ts'
  end.

Lemma read_tables_laid_out fuel pre ts acc :
  size (pre ++ concat ts) < 2 ^ 32 - 40 → Forall wf_table ts → (length ts < fuel)%nat →
  read_tables fuel (pre ++ concat ts) (size pre) (size pre + 40) (size pre) acc =
    Ok (acc ++ table_types (size pre) ts).
Proof.
  revert pre ts acc. induction fuel as [|fuel IH]; intros pre ts acc Hsz Hw Hf; [lia|].
  destruct ts as [|l ts]; cbn [read_tables concat table_types].
  { rewrite !app_nil_r, Z.ltb_irrefl. done. }
  apply list.Forall_cons in Hw as [(H40 & Hlen & Hsum & Hsig) Hw].
  cbn [concat] in Hsz. change sizeof_table_header with 40%nat in H40.
  rewrite (proj2 (Z.ltb_lt _ _)) by (rewrite !size_app; unfold size; lia).
  assert (bytes_at (pre ++ l ++ concat ts) (size pre + 4) 4 = Ok (slice 4 4 l)) as ->.
  { rewrite bytes_at_ok; [|unfold size; lia|rewrite !size_app; unfold size; lia]. f_equal.
    unfold size, slice. replace (Z.to_nat _) with (length pre + 4)%nat by lia.
    rewrite <- drop_drop, drop_app_length, drop_app_le, take_app_le by (rewrite ?length_drop; lia).
    done. }
  cbn [fmap result_fmap]. rewrite Hlen. run_monad.
  rewrite (proj2 (Z.ltb_ge _ _)) by szlia.
  rewrite bytes_at_app by (unfold size; lia). rewrite Hsum. cbn [Z.eqb negb].
  assert (bytes_at (pre ++ l ++ concat ts) (size pre) 4 = Ok (take 4 l)) as ->.
  { rewrite <- (take_drop 4 l) at 1. rewrite <- app_assoc. apply bytes_at_app.
    rewrite length_take. lia. }
  rewrite Hsig. cbn [negb].
  rewrite !wrap_small by (split; szlia).
  rewrite (app_assoc pre) in *.
  replace (size pre + size l) with (size (pre ++ l)) by szlia.
  replace (size pre + 40 + size l) with (size (pre ++ l) + 40) by szlia.
  rewrite IH; [|done|done|simpl in Hf; lia]. by rewrite <- app_assoc.
Qed.

(** The tables a walk that returned has recorded lie inside the blob. *)
Definition inside (b : list Z) (t : AcpiTableType) : Prop :=
  0 ≤ data_start_offset t < 2 ^ 32 ∧ 0 ≤ data_end_offset t ≤ size b.

Lemma read_tables_inside fuel b o start acc tables :
  size b < 2 ^ 32 → Forall is_byte b → 0 ≤ o → 0 ≤ start < 2 ^ 32 → Forall (inside b) acc →
  read_tables fuel b o start o acc = Ok tables → Forall (inside b) tables.
Proof.
  intros Hsz Hb. revert o start acc.
  induction fuel as [|fuel IH]; intros o start acc Ho Hst Hacc; [done|]. cbn [read_tables].
  destruct (Z.ltb_spec o (size b)); [|by intros [= <-]]. intros Hr. bind_inv Hr.
  assert (0 ≤ v) as Hv.
  { revert E. unfold bytes_at. destruct (_ && _); [|done]. intros [= <-].
    apply le_val_bound, Forall_slice, Hb. }
  destruct (Z.ltb_spec (size b) v); [done|]. bind_inv Hr.
  assert (o + v ≤ size b) as Hov.
  { revert E0. unfold bytes_at. destruct (Z.leb_spec (o + Z.of_nat (Z.to_nat v)) (size b)); [lia|].
    by rewrite andb_false_r. }
  destruct (negb _); [done|]. bind_inv Hr. destruct (negb _); [done|].
  rewrite (wrap_small 32 (o + v)) in Hr by (split; lia).
  eapply IH; [| | |exact Hr]; [lia|by apply wrap_range|].
  apply Forall_app. split; [done|]. repeat constructor; simpl; lia.
Qed.

Lemma AcpiParser_laid_out fuel ts aux :
  ts ≠ [] → size (concat ts) < 2 ^ 32 - 40 → Forall wf_table ts → (length ts < fuel)%nat →
  AcpiParser fuel (Some (concat ts)) aux =
    Ok (mkParser (concat ts) aux (mkEntryPoint (table_types 0 ts) 0 0)).
Proof.
  intros Hne Hsz Hw Hf. unfold AcpiParser, create, AcpiTableEntryPoint_new.
  assert (Z.of_nat sizeof_table_header ≤ size (concat ts)) as Hge.
  { destruct ts as [|l ts]; [done|]. apply list.Forall_cons in Hw as [[Hl _] _].
    cbn [concat]. unfold size. rewrite length_app. lia. }
  rewrite (proj2 (Z.ltb_ge _ _)) by done.
  assert (read_tables fuel (concat ts) 0 (Z.of_nat sizeof_table_header) 0 [] =
    Ok (table_types 0 ts)) as -> by (by apply (read_tables_laid_out fuel [] ts [])). done.
Qed.

(** The first table with the signature is found. *)
Lemma find_table_types o ts1 t ts2 sig a z :
  Forall (λ l, take 4 l ≠ chars sig) ts1 → take 4 t = chars sig →
  find_table (mkEntryPoint (table_types o (ts1 ++ t :: ts2)) a z) sig =
    Some (mkTableType (take 4 t) (o + size (concat ts1) + 40) (o + size (concat ts1) + size t)).
Proof.
  unfold find_table. cbn [m_acpi_table_type_list]. intros Hne Ht. revert o.
  induction Hne as [|l ts1 Hl _ IH]; intros o; cbn [table_types app concat list_find signature].
  - rewrite decide_True by done. cbn. by rewrite !Z.add_0_r.
  - rewrite decide_False by done. specialize (IH (o + size l)). revert IH.
    destruct (list_find _ _) as [[n t']|]; cbn; intros [= ->]; do 2 f_equal; szlia.
Qed.

(** [prepare_if_structure_supported] points the parser at the table it finds. *)
Lemma prepare_found b aux e sig t :
  find_table e sig = Some t → data_start_offset t ≠ 0 → data_end_offset t ≠ 0 →
  prepare_if_structure_supported sig (mkParser b aux e) =
    (Ok true, mkParser b aux
       (mkEntryPoint (m_acpi_table_type_list e) (data_start_offset t) (data_end_offset t))).
Proof.
  intros Hf H1 H2. unfold prepare_if_structure_supported. run_monad.
  cbn [get_table_data_offset get_table_data_end_offset AcpiTableEntryPoint_ops entry_point].
  by rewrite Hf, !(proj2 (Z.eqb_neq _ _)) by done.
Qed.

Lemma prepare_not_found b aux e sig :
  (∀ t, find_table e sig = Some t → data_start_offset t = 0 ∨ data_end_offset t = 0) →
  prepare_if_structure_supported sig (mkParser b aux e) = (Ok false, mkParser b aux e).
Proof.
  intros Hf. unfold prepare_if_structure_supported. run_monad.
  cbn [get_table_data_offset get_table_data_end_offset AcpiTableEntryPoint_ops entry_point].
  destruct (find_table e sig) as [t|]; [|done].
  destruct (Hf t eq_refl) as [->| ->]; [done|]. by rewrite andb_false_r.
Qed.

(** A blob that consists of tables with correct lengths, checksums and known
    signatures is accepted, and the first table with a given signature, when it
    consists of subtables, is read back: after [prepare_if_structure_supported]
    the subtables of type [T] are returned in order with their headers and data,
    and no subtable of another table is. *)
Theorem acpi_parse_laid_out fuel ts1 header ss ts2 sig T wanted :
  let t := header ++ concat (laid_bytes false <$> ss) in
  let blob := concat (ts1 ++ t :: ts2) in
  length header = sizeof_table_header → take 4 header = chars sig →
  Forall wf_table (ts1 ++ t :: ts2) → Forall (λ l, take 4 l ≠ chars sig) ts1 →
  Forall (wf_laid false) ss → size blob < 2 ^ 32 - 40 →
  (length (ts1 ++ t :: ts2) < fuel)%nat →
  ∃ p p', AcpiParser fuel (Some blob) false = Ok p ∧
    prepare_if_structure_supported sig p = (Ok true, p') ∧
    get_all p' T wanted =
      Ok (enhance T <$> filter (λ s, header_type_equal T (laid_header s) wanted = true) ss).
Proof.
  intros t blob Hh Hsig Hw Hne Hss Hsz Hf.
  assert (take 4 t = chars sig) as Ht.
  { unfold t. rewrite take_app_le; [done|]. rewrite Hh. by apply Nat.leb_le. }
  assert (size header = 40) as Hh' by (unfold size; by rewrite Hh).
  pose proof (size_nonneg (concat ts1)). pose proof (size_nonneg t).
  assert (size t = 40 + size (concat (laid_bytes false <$> ss))) as Hst
    by (unfold t; rewrite size_app; lia).
  eexists _, _. split; [apply AcpiParser_laid_out; [by destruct ts1|done..]|].
  split.
  { apply prepare_found; [by apply find_table_types|cbn; szlia..]. }
  assert (concat (ts1 ++ t :: ts2)
    = (concat ts1 ++ header) ++ concat (laid_bytes false <$> ss) ++ concat ts2) as Eb.
  { rewrite concat_app. cbn [concat]. unfold t. by rewrite <- !app_assoc. }
  unfold blob in Hsz. rewrite Eb in *.
  etrans; [apply (get_all_laid_out false _ T wanted ss (concat ts1 ++ header))|done]; [szlia|done|cbn; szlia|cbn; szlia].
Qed.

(** A blob to try the theorems on: a PCAT table and an NFIT table. *)
Definition sample_pcat : list Z :=
  [80; 67; 65; 84; 56; 0; 0; 0; 1; 133; 0; 0; 0; 0; 0; 0; 0; 0; 0; 0; 0; 0; 0; 0; 0; 0; 0;
   0; 0; 0; 0; 0; 0; 0; 0; 0; 0; 0; 0; 0] ++
  laid_bytes false (mkLaid (mkHeader 0 16) [1; 2; 3; 4; 0; 0; 0; 0; 0; 0; 0; 0] []).
Definition sample_nfit_header : list Z :=
  [78; 70; 73; 84; 56; 0; 0; 0; 1; 121; 0; 0; 0; 0; 0; 0; 0; 0; 0; 0; 0; 0; 0; 0; 0; 0; 0;
   0; 0; 0; 0; 0; 0; 0; 0; 0; 0; 0; 0; 0].
Definition sample_nfit_subtables : list (Laid SUBTABLE_HEADER) :=
  [mkLaid (mkHeader 7 16) [1; 0; 0; 0; 5; 0; 0; 0; 0; 0; 0; 0] []].
Definition sample_nfit : list Z :=
  sample_nfit_header ++ concat (laid_bytes false <$> sample_nfit_subtables).
Definition sample_blob : list Z := concat [sample_pcat; sample_nfit].

Lemma acpi_parse_laid_out_witness :
  ∃ p p', AcpiParser 3 (Some sample_blob) false = Ok p ∧
    prepare_if_structure_supported "NFIT" p = (Ok true, p') ∧
    get_all p' NFIT_PLATFORM_CAPABILITIES_STRUCTURE None =
      Ok [mkBufferBasedStruct (mkHeader 7 16) [1; 0; 0; 0; 5; 0; 0; 0; 0; 0; 0; 0] []].
Proof.
  apply (acpi_parse_laid_out 3 [sample_pcat] sample_nfit_header sample_nfit_subtables [] "NFIT"
    NFIT_PLATFORM_CAPABILITIES_STRUCTURE None).
  - reflexivity.
  - reflexivity.
  - repeat apply Forall_cons_2; [| |apply Forall_nil_2];
      (split_and!; [apply Nat.leb_le|..]; vm_compute; reflexivity).
  - repeat constructor. vm_compute. discriminate.
  - repeat constructor; done.
  - vm_compute. reflexivity.
  - simpl. lia.
Defined.

(** Once the entry point of a blob has been accepted, looking up any table and
    reading subtables of any type, with or without strings, either returns or
    throws the parser's exception: no byte outside the blob is read. *)
Theorem acpi_parse_safe fuel blob aux p sig T wanted :
  Forall is_byte blob → size blob < 2 ^ 32 → AcpiParser fuel (Some blob) aux = Ok p →
  is_ok (prepare_if_structure_supported sig p).1 = true ∧
  parsed (get_all (prepare_if_structure_supported sig p).2 T wanted).
Proof.
  intros Hb Hsz. unfold AcpiParser, create, AcpiTableEntryPoint_new.
  destruct (_ <? _); [done|]. intros Hp. bind_inv Hp. injection Hp as <-. bind_inv E.
  injection E as <-.
  apply read_tables_inside in E0; [|done|done|lia|vm_compute; split; congruence|done].
  destruct (find_table (mkEntryPoint v0 0 0) sig) as [t|] eqn:Ef;
    [destruct (decide (data_start_offset t = 0 ∨ data_end_offset t = 0)) as [Hz|Hz]|].
  - rewrite prepare_not_found by (intros ? [= ->]%(eq_trans (eq_sym Ef)); done). split; [done|].
    apply get_all_safe; cbn; (done || szlia).
  - assert (inside blob t) as [Hs He].
    { revert Ef. unfold find_table. cbn [m_acpi_table_type_list].
      destruct (list_find _ v0) as [[n t']|] eqn:El; cbn; [|done]. intros [= ->].
      apply list_find_Some in El as (El & _). by eapply Forall_lookup_1. }
    rewrite (prepare_found _ _ _ _ t) by (done || tauto). split; [done|].
    apply get_all_safe; cbn; (done || szlia).
  - rewrite prepare_not_found by (by rewrite Ef). split; [done|].
    apply get_all_safe; cbn; (done || szlia).
Qed.

Lemma acpi_parse_safe_witness :
  ∃ p, AcpiParser 3 (Some sample_blob) false = Ok p ∧
    parsed (get_all (prepare_if_structure_supported "NFIT" p).2
      NFIT_PLATFORM_CAPABILITIES_STRUCTURE None).
Proof.
  eexists. split; [vm_compute; reflexivity|].
  eapply (acpi_parse_safe 3 sample_blob false); [|vm_compute; reflexivity|vm_compute; reflexivity].
  unfold is_byte. apply (bool_decide_eq_true_1 _). vm_compute. reflexivity.
Defined.

(** A table with a known signature and a length of zero makes the constructor
    of the entry point run forever. *)
Theorem acpi_zero_length_never_ends b o start stop acc :
  0 ≤ o → o + 8 ≤ size b → slice (Z.to_nat o + 4) 4 b = [0; 0; 0; 0] →
  supported (slice (Z.to_nat o) 4 b) = true →
  in_range 32 start → in_range 32 stop →
  ∀ fuel, read_tables fuel b o start stop acc = Throw out_of_fuel.
Proof.
  intros Ho Hsz Hlen Hsig Hst Hen fuel. revert acc. induction fuel as [|fuel IH]; intros acc; [done|].
  cbn [read_tables]. rewrite (proj2 (Z.ltb_lt _ _)) by lia.
  rewrite (bytes_at_ok b (o + 4)) by lia. replace (Z.to_nat (o + 4)) with (Z.to_nat o + 4)%nat by lia.
  rewrite Hlen. cbn [fmap result_fmap le_val]. run_monad.
  change (0 + 256 * (0 + 256 * (0 + 256 * (0 + 256 * 0)))) with 0.
  rewrite (proj2 (Z.ltb_ge _ _)) by lia. rewrite !bytes_at_ok by lia.
  change (accumulate (slice (Z.to_nat o) (Z.to_nat 0) b)) with 0. cbn [Z.eqb negb].
  rewrite Hsig. cbn [negb]. rewrite !Z.add_0_r, !wrap_small by done. apply IH.
Qed.

Lemma acpi_zero_length_never_ends_witness :
  supported (chars "NFIT") = true ∧
  ∀ fuel, AcpiParser fuel (Some (chars "NFIT" ++ replicate 36 0)) false = Throw out_of_fuel.
Proof.
  split; [reflexivity|]. intros fuel. unfold AcpiParser, create, AcpiTableEntryPoint_new.
  rewrite (acpi_zero_length_never_ends _ 0 (Z.of_nat sizeof_table_header) 0 []);
    [reflexivity|lia|vm_compute; discriminate|reflexivity|reflexivity|
     split; vm_compute; congruence|split; vm_compute; congruence].
Defined.

(** The length of a table is compared with the size of the whole blob, not
    with what is left of it: for a table that claims more bytes than are left but not
    more than the blob has, the checksum is computed over bytes past the end. *)
Theorem acpi_checksum_reads_past fuel b o n start stop acc :
  0 ≤ o → o + 8 ≤ size b → le_val (slice (Z.to_nat o + 4) 4 b) = n →
  size b - o < n ≤ size b →
  read_tables (S fuel) b o start stop acc = Throw undefined_behaviour.
Proof.
  intros Ho Hsz Hlen Hn. cbn [read_tables]. rewrite (proj2 (Z.ltb_lt _ _)) by lia.
  rewrite (bytes_at_ok b (o + 4)) by lia. replace (Z.to_nat (o + 4)) with (Z.to_nat o + 4)%nat by lia.
  cbn [fmap result_fmap]. rewrite Hlen. run_monad. rewrite (proj2 (Z.ltb_ge _ _)) by lia.
  unfold bytes_at at 1. rewrite (proj2 (Z.leb_gt (o + _) _)) by lia.
  by rewrite andb_false_r.
Qed.

Lemma acpi_checksum_reads_past_witness :
  read_tables 1 (sample_pcat ++ chars "NFIT" ++ [56; 0; 0; 0]) 56 96 56 [] =
    Throw undefined_behaviour.
Proof.
  apply (acpi_checksum_reads_past 0 _ _ 56).
  - lia.
  - vm_compute. discriminate.
  - reflexivity.
  - split; vm_compute; congruence.
Defined.

End Acpi.
