(* ===== verification/Database.v ===== *)
(** The key database (PSME/common/database): [FileDatabase] keeps every entry in a
    file of one directory, with the flags that the retention policy uses in the
    mode bits of the file, and the keys and values serialise to text.

    The directory is a finite map from file names to contents, mode bits and the
    time of the last status change; the operating system calls succeed on files
    that exist.  The order in which [readdir] returns names is the order of the
    map and no theorem depends on it.  Texts are lists of characters.  The static
    list of open databases and the choice of the directory are left out.

    Theorems: the three key types against the names of the files
    ([uuid_key_inj], [last_key_matches], [strip_full_name]); what [put], [invalidate] and
    [remove] leave behind; [cleanup] and [wipe_outdated] act on every matching
    file independently ([foreach_spec]); what is put is read back
    exactly when it is shorter than the read buffer. *)

From Stdlib Require Import ZArith Lia Ascii.
From S2P Require Import Prelude.

Local Open Scope Z_scope.

Module Database.

Abbreviation str := (list ascii).

Definition lit (s : string) : str := String.list_ascii_of_string s.

Definition dot : ascii := ".".

(** ** std::string *)

(** [s.find(c)] *)
Fixpoint find_char (c : ascii) (s : str) : option nat :=
  match s with
  | [] => None
  | x :: s' => if bool_decide (x = c) then Some O else S <$> find_char c s'
  end.

(** [pat] stands in [s] at position [i]. *)
Definition occurs_at (pat s : str) (i : nat) : bool :=
  bool_decide (take (length pat) (drop i s) = pat).

(** [s.rfind(pat, from)]: the last occurrence at or before [from]. *)
Fixpoint rfind (pat s : str) (from : nat) : option nat :=
  if occurs_at pat s from then Some from
  else match from with O => None | S n => rfind pat s n end.

(** [s.substr(pos, n)] *)
Definition substr (pos n : nat) (s : str) : str := take n (drop pos s).

(** [std::to_string] of an unsigned number of at most [n] digits. *)
Fixpoint digits (n : nat) (v : Z) (acc : str) : str :=
  match n with
  | O => acc
  | S n' =>
      let acc := ascii_of_N (Z.to_N (48 + v mod 10)) :: acc in
      if v / 10 =? 0 then acc else digits n' (v / 10) acc
  end.

Definition to_string (v : Z) : str := digits 20 v [].

Definition digit_value (c : ascii) : option Z :=
  let d := Z.of_N (N_of_ascii c) - 48 in
  if (0 <=? d) && (d <? 10) then Some d else None.

(** The digits [std::stoul] takes from the front. *)
Fixpoint stoul_digits (s : str) (acc : Z) : Z :=
  match s with
  | c :: s' => match digit_value c with Some d => stoul_digits s' (10 * acc + d) | None => acc end
  | [] => acc
  end.

Definition is_space (c : ascii) : bool :=
  let n := Z.of_N (N_of_ascii c) in (n =? 32) || ((9 <=? n) && (n <=? 13)).

Fixpoint skip_spaces (s : str) : str :=
  match s with
  | c :: s' => if is_space c then skip_spaces s' else s
  | [] => []
  end.

(** [std::stoul]: blanks, a sign, then at least one digit; what follows is ignored. *)
Definition stoul (s : str) : result Z :=
  let s := skip_spaces s in
  let '(neg, s) :=
    match s with
    | c :: s' => if bool_decide (c = "-"%char) then (true, s')
                 else if bool_decide (c = "+"%char) then (false, s') else (false, s)
    | [] => (false, [])
    end in
  match s with
  | c :: _ =>
      match digit_value c with
      | Some _ =>
          let v := stoul_digits s 0 in
          if 2 ^ 64 <=? v then Throw out_of_range
          else Ok (if neg : bool then wrap 64 (- v) else v)
      | None => Throw (invalid_argument "stoul")
      end
  | [] => Throw (invalid_argument "stoul")
  end.

(** ** Keys and values *)

Record UuidKey := mkUuidKey { uuid : str; parent : str }.

Definition UuidKey_serialize (k : UuidKey) : str :=
  if bool_decide (parent k = []) then uuid k else parent k ++ dot :: uuid k.

Definition UuidKey_unserialize (s : str) : UuidKey :=
  match find_char dot s with
  | Some pos => mkUuidKey (drop (pos + 1) s) (substr 0 pos s)
  | None => mkUuidKey s []
  end.

Definition LAST : str := lit "last".

(** [ResourceLastKey]: the resource is filled in when a name is parsed. *)
Record ResourceLastKey := mkLastKey { resource : str; last_parent : str }.

Definition ResourceLastKey_serialize (k : ResourceLastKey) : str :=
  resource k ++ dot :: last_parent k ++ dot :: LAST.

(** [ResourceLastKey::unserialize] for a key with the given parent. *)
Definition ResourceLastKey_unserialize (par s : str) : option ResourceLastKey :=
  match rfind (dot :: LAST) s (length s) with
  | None => None
  | Some last =>
      (* [last - 1] is [npos] when [last] is zero *)
      match rfind [dot] s (match last with O => length s | S n => n end) with
      | None => None
      | Some u =>
          (* the length wraps to a huge number unless [u] stands before [last] *)
          let n := if (u <? last)%nat then (last - u - 1)%nat else length s in
          if bool_decide (par = substr (u + 1) n s) then
            Some (mkLastKey (substr 0 u s) par)
          else None
      end
  end.

(** [IdValue] *)
Definition IdValue_serialize (id : Z) : str := if id =? 0 then [] else to_string id.

Definition IdValue_unserialize (s : str) : result (option Z) :=
  match s with
  | [] => mret None
  | _ => id ← stoul s; mret (Some id)
  end.

(** ** Files *)

Record File := mkFile {
  content : str;
  isvtx : bool;   (** [S_ISVTX]: the entry is valid *)
  iwgrp : bool;   (** [S_IWGRP]: the retention policy applies *)
  ctim : Z;       (** [st_ctim.tv_sec] *)
}.

Abbreviation Dir := (gmap str File).

(** [FileDatabase]: the name and the policy flag. *)
Record FileDatabase := mkDatabase { name : str; m_with_policy : bool }.

Definition EXT : str := lit ".db".
Definition VALUE_LENGTH : Z := 65536.

(** [Database::NEVER] *)
Definition NEVER : Z := 2 ^ 63 - 1.

Inductive EntityValidity := ERROR | NOENTRY | VALID | INVALID | OUTDATED.

(** The name of the file in the directory, [None] for the empty name. *)
Definition full_name (db : FileDatabase) (stripped_name : str) : option str :=
  if bool_decide (stripped_name = []) then None
  else if bool_decide ("/"%char ∈ stripped_name) || bool_decide (":"%char ∈ stripped_name) then None
  else Some ((if bool_decide (name db = []) then [] else name db ++ [dot]) ++ stripped_name ++ EXT).

Definition strip_ext (s : str) : str :=
  if (length s <? length EXT)%nat || negb (bool_decide (drop (length s - length EXT) s = EXT))
  then [] else take (length s - length EXT) s.

(** The empty text when the file is not one of this database. *)
Definition strip_name (db : FileDatabase) (d_name : str) : str :=
  if bool_decide (name db = []) then strip_ext d_name
  else if negb (bool_decide (substr 0 (length (name db)) d_name = name db)) then []
  else
    let stripped := drop (length (name db)) d_name in
    if negb (bool_decide (substr 0 1 stripped = [dot])) then []
    else strip_ext (drop 1 stripped).

Definition read_file (file_name : option str) (d : Dir) : option str :=
  f ← file_name; file ← d !! f;
  if Z.of_nat (length (content file)) <? VALUE_LENGTH then Some (content file) else None.

(** [fopen(.., "wb")] truncates, [fchmod] sets the flags that differ. *)
Definition save_file (now : Z) (file_name : option str) (data : str) (with_policy : bool)
    : M Dir bool :=
  match file_name with
  | None => mret false
  | Some f => modify <[f := mkFile data true with_policy now]> ;; mret true
  end.

Definition remove_file (file_name : option str) : M Dir bool :=
  d ← get;
  match file_name with
  | None => mret false
  | Some f => match d !! f with
              | Some _ => put (delete f d) ;; mret true
              | None => mret false
              end
  end.

(** The sum of two signed 64-bit numbers; the overflow that [NEVER] provokes wraps. *)
Definition add_signed (a b : Z) : Z := (a + b + 2 ^ 63) mod 2 ^ 64 - 2 ^ 63.

Definition file_validity (now : Z) (file_name : option str) (interval : Z) (with_policy : bool) (d : Dir)
    : EntityValidity :=
  match (f ← file_name; d !! f) with
  | None => ERROR
  | Some file =>
      if with_policy && negb (iwgrp file) then NOENTRY
      else if isvtx file then VALID
      else if add_signed (ctim file) interval <=? now then OUTDATED
      else INVALID
  end.

Definition invalidate_file (now : Z) (file_name : option str) : M Dir bool :=
  d ← get;
  match file_name with
  | None => mret false
  | Some f =>
      match d !! f with
      | None => mret false
      | Some file =>
          if negb (isvtx file) then mret false
          else put (<[f := mkFile (content file) false (iwgrp file) now]> d) ;; mret true
      end
  end.

(** ** Operations of a database *)

Definition db_get (db : FileDatabase) (key : str) (d : Dir) : option str :=
  read_file (full_name db key) d.

Definition db_put (now : Z) (db : FileDatabase) (key value : str) : M Dir bool :=
  save_file now (full_name db key) value (m_with_policy db).

Definition db_remove (db : FileDatabase) (key : str) : M Dir bool :=
  remove_file (full_name db key).

Definition db_invalidate (now : Z) (db : FileDatabase) (key : str) : M Dir bool :=
  invalidate_file now (full_name db key).

Definition get_validity (now : Z) (db : FileDatabase) (key : str) (interval : Z) (d : Dir)
    : EntityValidity :=
  file_validity now (full_name db key) interval (m_with_policy db) d.

(** The names that belong to the database and whose key parses. *)
Definition iterated_names (db : FileDatabase) (matches : str → bool) (d : Dir) : list str :=
  filter (λ n, n ≠ [] ∧ matches n = true) (strip_name db <$> (map_to_list d).*1).

Fixpoint count_true (names : list str) (function : str → M Dir bool) (num : Z) : M Dir Z :=
  match names with
  | [] => mret num
  | n :: names' =>
      done ← function n;
      count_true names' function (if done : bool then num + 1 else num)
  end.

(** [foreach]: the names are collected first. *)
Definition foreach (db : FileDatabase) (matches : str → bool) (function : str → M Dir bool) : M Dir Z :=
  d ← get; count_true (iterated_names db matches d) function 0.

Definition cleanup (now : Z) (db : FileDatabase) (matches : str → bool) (interval : Z) : M Dir Z :=
  foreach db matches (λ n,
    d ← get;
    match file_validity now (full_name db n) interval (m_with_policy db) d with
    | ERROR | NOENTRY | INVALID => mret false
    | VALID => invalidate_file now (full_name db n)
    | OUTDATED => remove_file (full_name db n)
    end).

Definition wipe_outdated (now : Z) (db : FileDatabase) (matches : str → bool) (interval : Z) : M Dir Z :=
  foreach db matches (λ n,
    d ← get;
    match file_validity now (full_name db n) interval (m_with_policy db) d with
    | ERROR | NOENTRY | VALID | INVALID => mret false
    | OUTDATED => remove_file (full_name db n)
    end).

Definition drop_db (db : FileDatabase) (matches : str → bool) : M Dir Z :=
  foreach db matches (λ n, remove_file (full_name db n)).

(** The database with the empty name sees the files of all databases. *)
Definition all_databases : FileDatabase := mkDatabase [] true.

(** [AlwaysMatchKey] *)
Definition always_match (_ : str) : bool := true.

Definition invalidate_all (now interval : Z) : M Dir Z := cleanup now all_databases always_match interval.
Definition remove_outdated (now interval : Z) : M Dir Z :=
  wipe_outdated now all_databases always_match interval.

(** ** Iteration *)

Inductive IteratingState := NOT_STARTED | STARTED | ITERATE | NO_MORE_DATA.

Record Iterator := mkIterator { iterating_state : IteratingState; iterated_files : list str }.

Definition iterator0 : Iterator := mkIterator NOT_STARTED [].

Definition start : M Iterator bool :=
  it ← get;
  match iterating_state it with
  | NOT_STARTED => put (mkIterator STARTED (iterated_files it)) ;; mret true
  | _ => mret false
  end.

(** The [while] of [next]: entries whose value cannot be read or parsed are skipped.
    The list holds the files from [current_file] on. *)
Fixpoint next_entry {V} (db : FileDatabase) (parse : str → option V) (d : Dir) (files : list str)
    : option (str * V) * list str :=
  match files with
  | [] => (None, [])
  | n :: files' =>
      match (data ← db_get db n d; parse data) with
      | Some v => (Some (n, v), files')
      | None => next_entry db parse d files'
      end
  end.

Definition next {V} (db : FileDatabase) (matches : str → bool) (parse : str → option V) (d : Dir)
    : M Iterator (option (str * V)) :=
  it ← get;
  match iterating_state it with
  | NOT_STARTED | NO_MORE_DATA => mret None
  | STARTED | ITERATE =>
      let files := match iterating_state it with
                   | STARTED => iterated_names db matches d
                   | _ => iterated_files it
                   end in
      let '(r, files') := next_entry db parse d files in
      put (mkIterator (match r with Some _ => ITERATE | None => NO_MORE_DATA end) files') ;;
      mret r
  end.

Definition end_ : M Iterator unit :=
  it ← get;
  match iterating_state it with
  | NOT_STARTED => mret tt
  | _ => put (mkIterator NOT_STARTED (iterated_files it))
  end.

(** ** Numbers *)

Definition digit_char (d : Z) : ascii := ascii_of_N (Z.to_N (48 + d)).

Lemma digit_value_char d : 0 ≤ d < 10 → digit_value (digit_char d) = Some d.
Proof.
  intros Hd. unfold digit_value, digit_char. rewrite N_ascii_embedding by lia.
  rewrite Z2N.id by lia. replace (48 + d - 48) with d by lia.
  by rewrite (proj2 (Z.leb_le 0 d)), (proj2 (Z.ltb_lt d 10)) by lia.
Qed.

Lemma digits_spec n v acc :
  0 ≤ v < 10 ^ Z.of_nat n → (0 < n)%nat →
  ∃ ds, digits n v acc = (digit_char <$> ds) ++ acc ∧ Forall (λ d, 0 ≤ d < 10) ds ∧ ds ≠ [] ∧
    foldl (λ a d, 10 * a + d) 0 ds = v.
Proof.
  revert v acc. induction n as [|n IH]; intros v acc Hv Hn; [lia|]. cbn [digits].
  pose proof (Z.mod_pos_bound v 10 ltac:(lia)) as Hm. pose proof (Z.div_mod v 10 ltac:(lia)) as Hd.
  destruct (Z.eqb_spec (v / 10) 0) as [Hz|Hz].
  - exists [v mod 10]. split_and!; [done|repeat constructor; lia|done|simpl; lia].
  - replace (Z.of_nat (S n)) with (1 + Z.of_nat n) in Hv by lia.
    rewrite Z.pow_add_r, Z.pow_1_r in Hv by lia.
    assert (0 ≤ v / 10 < 10 ^ Z.of_nat n) as Hv' by (split; [apply Z.div_pos; lia|apply Z.div_lt_upper_bound; lia]).
    destruct n as [|n]; [simpl in Hv'; lia|].
    destruct (IH (v / 10) (digit_char (v mod 10) :: acc)) as (ds & E & Hds & Hne & Hval); [done|lia|].
    exists (ds ++ [v mod 10]). split_and!.
    + unfold digit_char in E at 1. rewrite E, fmap_app, <- app_assoc. done.
    + apply Forall_app. split; [done|]. repeat constructor; lia.
    + by destruct ds.
    + rewrite foldl_app. simpl. lia.
Qed.

Lemma stoul_digits_chars ds a :
  Forall (λ d, 0 ≤ d < 10) ds → stoul_digits (digit_char <$> ds) a = foldl (λ a d, 10 * a + d) a ds.
Proof.
  intros Hds. revert a. induction Hds as [|d ds Hd _ IH]; intros a; [done|]. cbn.
  rewrite digit_value_char by done. apply IH.
Qed.

(** A number is read back from its text. *)
Lemma stoul_to_string v : 0 ≤ v < 2 ^ 64 → stoul (to_string v) = Ok v.
Proof.
  intros Hv. unfold to_string.
  destruct (digits_spec 20 v []) as (ds & -> & Hds & Hne & Hval); [simpl; lia|lia|].
  rewrite app_nil_r. destruct ds as [|d ds]; [done|].
  pose proof Hds as [Hd _]%list.Forall_cons.
  assert (stoul_digits (digit_char <$> (d :: ds)) 0 = v) as Hs by (by rewrite stoul_digits_chars).
  assert (is_space (digit_char d) = false ∧ digit_char d ≠ "-"%char ∧ digit_char d ≠ "+"%char) as (H1 & H2 & H3).
  { assert (d ∈ [0;1;2;3;4;5;6;7;8;9]) as Hin by (rewrite !list.elem_of_cons; lia).
    clear -Hin. repeat (apply list.elem_of_cons in Hin as [->|Hin]; [by split_and!|]).
    by apply elem_of_nil in Hin. }
  unfold stoul. rewrite fmap_cons in *. cbn [skip_spaces]. rewrite H1.
  rewrite !bool_decide_false by done. rewrite digit_value_char by done. rewrite Hs.
  by rewrite (proj2 (Z.leb_gt _ _)) by lia.
Qed.

Lemma to_string_ne v : 0 ≤ v < 2 ^ 64 → to_string v ≠ [].
Proof.
  intros Hv. unfold to_string.
  destruct (digits_spec 20 v []) as (ds & -> & _ & Hne & _); [simpl; lia|lia|]. by destruct ds.
Qed.

Lemma length_digits n v acc : (length (digits n v acc) ≤ n + length acc)%nat.
Proof.
  revert v acc. induction n as [|n IH]; intros v acc; cbn [digits]; [lia|].
  destruct (_ =? _); [simpl; lia|]. etrans; [apply IH|]. simpl. lia.
Qed.

Lemma IdValue_roundtrip id :
  0 < id < 2 ^ 64 → IdValue_unserialize (IdValue_serialize id) = Ok (Some id).
Proof.
  intros Hid. unfold IdValue_serialize. rewrite (proj2 (Z.eqb_neq id 0)) by lia.
  pose proof (to_string_ne id ltac:(lia)). unfold IdValue_unserialize.
  destruct (to_string id) eqn:E; [done|]. rewrite <- E, stoul_to_string by lia. done.
Qed.

(** ** Names *)

Definition no_dot (s : str) : Prop := dot ∉ s.

Lemma no_dot_split a b a' b' :
  no_dot a → no_dot a' → a ++ dot :: b = a' ++ dot :: b' → a = a' ∧ b = b'.
Proof.
  unfold no_dot. revert a'. induction a as [|x a IH]; intros [|x' a'] Ha Ha'; simpl.
  - by intros [= ->].
  - intros E. injection E as E _. destruct Ha'. rewrite <- E. left.
  - intros E. injection E as E _. destruct Ha. rewrite E. left.
  - intros [= -> E]. apply not_elem_of_cons in Ha as [_ Ha]. apply not_elem_of_cons in Ha' as [_ Ha'].
    destruct (IH a' Ha Ha' E) as [-> ->]. done.
Qed.

Lemma no_dot_not_cons a a' b' : no_dot a → a ≠ a' ++ dot :: b'.
Proof. unfold no_dot. intros Ha ->. apply Ha, elem_of_app. right. left. Qed.

(** Keys with names that hold no dot are told apart. *)
Lemma uuid_key_inj u p u' p' :
  no_dot u → no_dot p → no_dot u' → no_dot p' →
  UuidKey_serialize (mkUuidKey u p) = UuidKey_serialize (mkUuidKey u' p') → u = u' ∧ p = p'.
Proof.
  intros Hu Hp Hu' Hp'. unfold UuidKey_serialize. cbn [parent uuid].
  repeat case_bool_decide; subst; intros E; [done| | |].
  - by destruct (no_dot_not_cons _ _ _ Hu E).
  - symmetry in E. by destruct (no_dot_not_cons _ _ _ Hu' E).
  - apply no_dot_split in E as [-> ->]; done.
Qed.

(** A name a file can be given. *)
Definition good_name (s : str) : Prop := s ≠ [] ∧ ("/"%char ∉ s) ∧ (":"%char ∉ s).

Lemma full_name_good db n :
  good_name n →
  full_name db n = Some (((if bool_decide (name db = []) then [] else name db ++ [dot])) ++ n ++ EXT).
Proof. intros (H1 & H2 & H3). unfold full_name. rewrite (bool_decide_false (n = [])) by done. rewrite (bool_decide_false ("/"%char ∈ n)), (bool_decide_false (":"%char ∈ n)) by done. done. Qed.

Lemma full_name_Some db n f : full_name db n = Some f → good_name n.
Proof.
  unfold full_name, good_name. repeat case_bool_decide; by cbn.
Qed.

Lemma full_name_inj db n n' f : full_name db n = Some f → full_name db n' = Some f → n = n'.
Proof.
  intros H H'. pose proof (full_name_Some _ _ _ H). pose proof (full_name_Some _ _ _ H').
  rewrite full_name_good in H, H' by done. injection H as <-. injection H' as H'.
  by apply app_inv_head, app_inv_tail in H'.
Qed.

(** Databases whose names hold no dot share no file. *)
Lemma full_name_other db db' n n' f :
  name db ≠ [] → name db' ≠ [] → no_dot (name db) → no_dot (name db') →
  full_name db n = Some f → full_name db' n' = Some f → name db = name db' ∧ n = n'.
Proof.
  intros Hne Hne' Hd Hd' H H'.
  rewrite full_name_good in H, H' by (by eapply full_name_Some).
  rewrite !bool_decide_false in H, H' by done. injection H as <-. injection H' as H'.
  rewrite <- !app_assoc in H'. cbn [app] in H'.
  apply no_dot_split in H' as [-> H']; [|done..]. split; [done|]. by apply app_inv_tail in H'.
Qed.

Lemma strip_ext_app s : strip_ext (s ++ EXT) = s.
Proof.
  unfold strip_ext. rewrite length_app, Nat.add_sub, drop_app_length, take_app_length.
  rewrite bool_decide_true by done. cbn [negb]. rewrite orb_false_r.
  by rewrite (proj2 (Nat.ltb_ge _ _)) by lia.
Qed.

Lemma strip_ext_ne s : strip_ext s ≠ [] → strip_ext s ++ EXT = s.
Proof.
  unfold strip_ext. destruct (_ <? _)%nat; [done|]. case_bool_decide as E; [|done]. cbn [orb negb].
  intros _. rewrite <- E at 2. apply take_drop.
Qed.

(** The key is found again in the name of its file. *)
Lemma strip_full_name db n f : full_name db n = Some f → strip_name db f = n.
Proof.
  intros H. pose proof (full_name_Some _ _ _ H). rewrite full_name_good in H by done.
  injection H as <-. unfold strip_name.
  case_bool_decide; [apply strip_ext_app|].
  unfold substr. rewrite drop_0, <- !app_assoc, take_app_length, drop_app_length. cbn [app negb].
  rewrite bool_decide_true by done. cbn [negb]. rewrite bool_decide_true by done. apply strip_ext_app.
Qed.

Lemma strip_name_ne db f :
  strip_name db f ≠ [] →
  ((if bool_decide (name db = []) then [] else name db ++ [dot])) ++ strip_name db f ++ EXT = f.
Proof.
  unfold strip_name. case_bool_decide as Hn; [by apply strip_ext_ne|].
  unfold substr. rewrite drop_0. case_bool_decide as E1; [|done]. cbn [negb].
  case_bool_decide as E2; [|done]. cbn [negb]. intros Hne.
  rewrite <- app_assoc, strip_ext_ne by done.
  rewrite <- (take_drop (length (name db)) f) at 2. rewrite E1. f_equal.
  rewrite <- (take_drop 1 (drop (length (name db)) f)) at 2. rewrite drop_0 in E2. by rewrite E2.
Qed.

(** A file of the database is the file of the key in its name. *)
Lemma full_strip_name db f : good_name (strip_name db f) → full_name db (strip_name db f) = Some f.
Proof. intros Hg. rewrite full_name_good by done. f_equal. apply strip_name_ne, Hg. Qed.

(** ** Iteration over the files *)

Lemma iterated_names_nodup db matches d : NoDup (iterated_names db matches d).
Proof.
  unfold iterated_names. pose proof (NoDup_fst_map_to_list d) as Hd. revert Hd.
  generalize ((map_to_list d).*1) as l. induction l as [|f l IH]; intros Hd; [constructor|].
  apply list.NoDup_cons in Hd as [Hf Hl]. rewrite fmap_cons, filter_cons.
  case_decide as Hm; [|by apply IH]. apply list.NoDup_cons. split; [|by apply IH].
  rewrite list_elem_of_filter, list_elem_of_fmap. intros (_ & f' & E & Hf'). apply Hf.
  replace f with f'; [done|]. rewrite <- (strip_name_ne db f), <- (strip_name_ne db f'); [by rewrite E| |apply Hm].
  rewrite <- E. apply Hm.
Qed.

(** An action on the file of a key that works on what the file holds. *)
Definition acts (db : FileDatabase) (g : File → option File) (fn : str → M Dir bool) : Prop :=
  ∀ n d, ∃ b, fn n d = (Ok b, match full_name db n with
                              | Some f => partial_alter (λ o, o ≫= g) f d
                              | None => d
                              end).

Lemma count_true_spec db g fn names num d :
  acts db g fn → NoDup names →
  ∃ k d', count_true names fn num d = (Ok k, d') ∧
    (∀ n f, n ∈ names → full_name db n = Some f → d' !! f = d !! f ≫= g) ∧
    (∀ f, (∀ n, n ∈ names → full_name db n ≠ Some f) → d' !! f = d !! f).
Proof.
  intros Hfn Hn. revert num d. induction Hn as [|n names Hn Hnames IH]; intros num d; cbn [count_true].
  { exists num, d. split_and!; [done| |done]. by intros n f ?%elem_of_nil. }
  destruct (Hfn n d) as [b Hb]. rewrite (bind_run _ _ _ _ _ Hb).
  destruct (IH (if b then num + 1 else num)
    (match full_name db n with Some f => partial_alter (λ o, o ≫= g) f d | None => d end))
    as (k & d' & -> & Hin & Hout).
  exists k, d'. split_and!; [done| |].
  - intros m f Hm Hf. apply list.elem_of_cons in Hm as [->|Hm].
    + rewrite Hout; [rewrite Hf; by rewrite lookup_partial_alter_eq|].
      intros m Hm Hf'. by rewrite (full_name_inj _ _ _ _ Hf Hf') in Hn.
    + rewrite (Hin m f) by done. f_equal. destruct (full_name db n) as [f'|] eqn:Hf'; [|done].
      rewrite lookup_partial_alter_ne; [done|]. intros ->. by rewrite (full_name_inj _ _ _ _ Hf' Hf) in Hn.
  - intros f Hf. rewrite Hout; [|intros m Hm; apply Hf; by right].
    destruct (full_name db n) as [f'|] eqn:Hf'; [|done].
    rewrite lookup_partial_alter_ne; [done|]. intros ->. by apply (Hf n); [left|].
Qed.

(** The files an iteration of the database visits. *)
Definition selects (db : FileDatabase) (matches : str → bool) (f : str) : bool :=
  bool_decide (full_name db (strip_name db f) = Some f) && matches (strip_name db f).

(** Every visited file is treated on its own, the others are not touched. *)
Lemma foreach_spec db matches g fn d :
  acts db g fn →
  ∃ k d', foreach db matches fn d = (Ok k, d') ∧
    ∀ f, d' !! f = d !! f ≫= λ file, if selects db matches f then g file else Some file.
Proof.
  intros Hfn.
  destruct (count_true_spec db g fn (iterated_names db matches d) 0 d Hfn (iterated_names_nodup _ _ _))
    as (k & d' & E & Hin & Hout).
  exists k, d'. split; [done|]. intros f. destruct (d !! f) as [file|] eqn:Hf.
  - destruct (selects db matches f) eqn:Hs.
    + apply andb_true_iff in Hs as [Hs%bool_decide_eq_true Hm].
      rewrite (Hin (strip_name db f) f), Hf; [done| |done].
      apply list_elem_of_filter. split; [split; [|done]|].
      * by apply full_name_Some in Hs as [].
      * apply list_elem_of_fmap_2, list_elem_of_fmap. exists (f, file). split; [done|].
        by apply elem_of_map_to_list.
    + rewrite Hout; [done|]. intros n Hn Hf'. pose proof (strip_full_name _ _ _ Hf') as <-.
      apply list_elem_of_filter in Hn as [[_ Hm] _]. unfold selects in Hs.
      by rewrite bool_decide_true, Hm in Hs.
  - assert (∀ n, full_name db n = Some f → d' !! f = None) as Hnone.
    { intros n Hn. destruct (decide (n ∈ iterated_names db matches d)) as [Hi|Hi].
      - by rewrite (Hin n f), Hf.
      - rewrite Hout, Hf; [done|]. intros m Hm Hf'. by rewrite (full_name_inj _ _ _ _ Hf' Hn) in Hm. }
    destruct (full_name db (strip_name db f)) as [f'|] eqn:Hf'.
    + destruct (decide (f' = f)) as [->|Hne]; [by eapply Hnone|].
      rewrite Hout, Hf; [done|]. intros n _ Hn. pose proof (strip_full_name _ _ _ Hn) as <-. congruence.
    + rewrite Hout, Hf; [done|]. intros n _ Hn. pose proof (strip_full_name _ _ _ Hn) as <-. congruence.
Qed.

(** The validity of an entry from its file. *)
Definition entry_validity (now interval : Z) (with_policy : bool) (file : File) : EntityValidity :=
  if with_policy && negb (iwgrp file) then NOENTRY
  else if isvtx file then VALID
  else if add_signed (ctim file) interval <=? now then OUTDATED
  else INVALID.

(** What [cleanup] leaves of a file. *)
Definition cleaned (now interval : Z) (with_policy : bool) (file : File) : option File :=
  match entry_validity now interval with_policy file with
  | VALID => Some (mkFile (content file) false (iwgrp file) now)
  | OUTDATED => None
  | _ => Some file
  end.

(** What [wipe_outdated] leaves of a file. *)
Definition wiped (now interval : Z) (with_policy : bool) (file : File) : option File :=
  match entry_validity now interval with_policy file with OUTDATED => None | _ => Some file end.

Lemma partial_alter_bind_Some (g : File → option File) (f : str) (d : Dir) file file' :
  d !! f = Some file → g file = Some file' →
  partial_alter (λ o, o ≫= g) f d = <[f := file']> d.
Proof.
  intros Hf Hg. apply map_eq. intros i. destruct (decide (f = i)) as [<-|Hne].
  - rewrite lookup_partial_alter_eq, lookup_insert_eq, Hf. done.
  - by rewrite lookup_partial_alter_ne, lookup_insert_ne.
Qed.

Lemma partial_alter_bind_None (g : File → option File) (f : str) (d : Dir) :
  d !! f ≫= g = None → partial_alter (λ o, o ≫= g) f d = delete f d.
Proof.
  intros Hg. apply map_eq. intros i. destruct (decide (f = i)) as [<-|Hne].
  - by rewrite lookup_partial_alter_eq, lookup_delete_eq.
  - by rewrite lookup_partial_alter_ne, lookup_delete_ne.
Qed.

Lemma cleanup_acts now db matches interval d :
  ∃ k d', cleanup now db matches interval d = (Ok k, d') ∧
    ∀ f, d' !! f = d !! f ≫= λ file,
      if selects db matches f then cleaned now interval (m_with_policy db) file else Some file.
Proof.
  apply foreach_spec. intros n dd. destruct (full_name db n) as [f|] eqn:Hf; [|by eexists].
  unfold file_validity, invalidate_file, remove_file. run_monad. cbn [option_bind].
  destruct (dd !! f) as [file|] eqn:E.
  - cbn. destruct (m_with_policy db && negb (iwgrp file)) eqn:Hp;
      [|destruct (isvtx file) eqn:Hv; [|destruct (add_signed _ _ <=? now) eqn:Ho]].
    all: (erewrite partial_alter_bind_Some by
      (done || (unfold cleaned, entry_validity; rewrite ?Hp, ?Hv, ?Ho; reflexivity)))
      || (rewrite partial_alter_bind_None by
           (rewrite E; cbn; unfold cleaned, entry_validity; by rewrite ?Hp, ?Hv, ?Ho)).
    + rewrite insert_id by done. by eexists.
    + rewrite E, Hv. by eexists.
    + rewrite E. by eexists.
    + rewrite insert_id by done. by eexists.
  - rewrite partial_alter_bind_None by (by rewrite E). rewrite delete_id by done. by eexists.
Qed.

Lemma wipe_outdated_acts now db matches interval d :
  ∃ k d', wipe_outdated now db matches interval d = (Ok k, d') ∧
    ∀ f, d' !! f = d !! f ≫= λ file,
      if selects db matches f then wiped now interval (m_with_policy db) file else Some file.
Proof.
  apply foreach_spec. intros n dd. destruct (full_name db n) as [f|] eqn:Hf; [|by eexists].
  unfold file_validity, remove_file. run_monad. cbn [option_bind].
  destruct (dd !! f) as [file|] eqn:E.
  - cbn. destruct (m_with_policy db && negb (iwgrp file)) eqn:Hp;
      [|destruct (isvtx file) eqn:Hv; [|destruct (add_signed _ _ <=? now) eqn:Ho]].
    all: (erewrite partial_alter_bind_Some by
      (done || (unfold wiped, entry_validity; rewrite ?Hp, ?Hv, ?Ho; reflexivity)))
      || (rewrite partial_alter_bind_None by
           (rewrite E; cbn; unfold wiped, entry_validity; by rewrite ?Hp, ?Hv, ?Ho)).
    all: rewrite ?insert_id by done; rewrite ?E; by eexists.
  - rewrite partial_alter_bind_None by (by rewrite E). rewrite delete_id by done. by eexists.
Qed.

Lemma drop_acts db matches d :
  ∃ k d', drop_db db matches d = (Ok k, d') ∧
    ∀ f, d' !! f = if selects db matches f then None else d !! f.
Proof.
  destruct (foreach_spec db matches (λ _, None) (λ n, remove_file (full_name db n)) d)
    as (k & d' & E & Hd').
  { intros n dd. destruct (full_name db n) as [f|] eqn:Hf; [|by eexists]. unfold remove_file. run_monad.
    rewrite partial_alter_bind_None by (by destruct (dd !! f)).
    destruct (dd !! f) eqn:E; [by eexists|]. rewrite delete_id by done. by eexists. }
  exists k, d'. split; [done|]. intros f. rewrite Hd'.
  destruct (selects db matches f); by destruct (d !! f).
Qed.

(** ** The names of the records of the last numbers *)

Lemma occurs_at_dot pat s j : occurs_at (dot :: pat) s j = true → s !! j = Some dot.
Proof.
  unfold occurs_at. intros E%bool_decide_eq_true.
  assert (take (length (dot :: pat)) (drop j s) !! O = Some dot) as H by (by rewrite E).
  rewrite lookup_take_lt, lookup_drop, Nat.add_0_r in H by (simpl; lia). done.
Qed.

Lemma rfind_Some pat s n i :
  occurs_at pat s i = true → (i ≤ n)%nat → (∀ j, (i < j ≤ n)%nat → occurs_at pat s j = false) →
  rfind pat s n = Some i.
Proof.
  induction n as [|n IH]; intros Hi Hle Hj; cbn [rfind].
  - replace O with i by lia. by rewrite Hi.
  - destruct (decide (i = S n)) as [->|Hne]; [by rewrite Hi|]. rewrite Hj by lia.
    apply IH; [done|lia|]. intros j ?. apply Hj. lia.
Qed.

Lemma rfind_None pat s n : (∀ j, (j ≤ n)%nat → occurs_at pat s j = false) → rfind pat s n = None.
Proof.
  induction n as [|n IH]; intros Hj; cbn [rfind]; rewrite Hj by lia; [done|].
  apply IH. intros j ?. apply Hj. lia.
Qed.

Lemma no_dot_lookup s j : no_dot s → s !! j ≠ Some dot.
Proof. intros H Hj. by eapply H, list_elem_of_lookup_2. Qed.

Lemma lookup_dot c x j :
  no_dot x → (c ++ dot :: x) !! j = Some dot → (j ≤ length c)%nat.
Proof.
  intros Hx Hj. destruct (decide (j ≤ length c)%nat) as [|Hgt]; [done|].
  rewrite lookup_app_r in Hj by lia.
  replace (j - length c)%nat with (S (j - length c - 1)) in Hj by lia. cbn in Hj.
  by destruct (no_dot_lookup _ _ Hx Hj).
Qed.

Lemma no_dot_LAST : no_dot LAST.
Proof. by apply (bool_decide_eq_true_1 _); vm_compute. Qed.

Lemma occurs_at_app pat c x : occurs_at pat (c ++ pat ++ x) (length c) = true.
Proof. unfold occurs_at. rewrite drop_app_length, take_app_length. by apply bool_decide_eq_true. Qed.

Lemma lookup_two_dots c p u j :
  no_dot c → no_dot p → no_dot u → (c ++ dot :: p ++ dot :: u) !! j = Some dot →
  j = length c ∨ j = (length c + 1 + length p)%nat.
Proof.
  intros Hc Hp Hu Hj. destruct (decide (j < length c)%nat).
  { rewrite lookup_app_l in Hj by done. by destruct (no_dot_lookup _ _ Hc Hj). }
  destruct (decide (j = length c)) as [|Hne]; [by left|].
  rewrite lookup_app_r in Hj by lia.
  rewrite lookup_cons_ne_0 in Hj by lia.
  replace (pred (j - length c)) with (j - length c - 1)%nat in Hj by lia.
  destruct (decide (j - length c - 1 < length p)%nat).
  { rewrite lookup_app_l in Hj by done. by destruct (no_dot_lookup _ _ Hp Hj). }
  pose proof (lookup_dot _ _ _ Hu Hj). right. lia.
Qed.

(** The record of the last number of the children of [p] is found for the parent
    [p] and for no other. *)
Lemma last_key_matches par c p :
  no_dot p →
  ResourceLastKey_unserialize par (ResourceLastKey_serialize (mkLastKey c p)) =
    if bool_decide (par = p) then Some (mkLastKey c p) else None.
Proof.
  intros Hp. unfold ResourceLastKey_unserialize, ResourceLastKey_serialize. cbn [resource last_parent].
  assert (c ++ dot :: p ++ dot :: LAST = (c ++ dot :: p) ++ (dot :: LAST) ++ []) as E
    by (by rewrite app_nil_r, <- app_assoc).
  assert (length (c ++ dot :: p) = S (length c + length p)) as Hl by (rewrite length_app; simpl; lia).
  rewrite (rfind_Some _ _ _ (S (length c + length p))).
  2:{ rewrite E, <- Hl. apply occurs_at_app. }
  2:{ rewrite E, length_app, Hl. lia. }
  2:{ intros j Hj. destruct (occurs_at _ _ j) eqn:Ho; [|done]. apply occurs_at_dot in Ho.
      rewrite E, app_nil_r in Ho. apply lookup_dot in Ho; [lia|apply no_dot_LAST]. }
  rewrite (rfind_Some _ _ _ (length c)).
  2:{ apply (occurs_at_app [dot]). }
  2:{ lia. }
  2:{ intros j Hj. destruct (occurs_at _ _ j) eqn:Ho; [|done]. apply occurs_at_dot in Ho.
      rewrite E, lookup_app_l in Ho by lia. apply lookup_dot in Ho; [lia|done]. }
  rewrite (proj2 (Nat.ltb_lt _ _)) by lia. unfold substr.
  replace (S (length c + length p) - length c - 1)%nat with (length p) by lia.
  rewrite Nat.add_1_r. rewrite drop_0, take_app_length.
  replace (drop (S (length c)) (c ++ dot :: p ++ dot :: LAST)) with (p ++ dot :: LAST).
  2:{ rewrite <- (Nat.add_1_r (length c)), <- drop_drop, drop_app_length. done. }
  rewrite take_app_length. case_bool_decide; by subst.
Qed.

(** The record without a parent is found for none. *)
Lemma last_key_root par c : c ≠ [] → no_dot c → ResourceLastKey_unserialize par (c ++ dot :: LAST) = None.
Proof.
  intros Hne Hc. unfold ResourceLastKey_unserialize.
  rewrite (rfind_Some _ _ _ (length c)).
  2:{ rewrite <- (app_nil_r (dot :: LAST)). apply occurs_at_app. }
  2:{ rewrite length_app. lia. }
  2:{ intros j Hj. destruct (occurs_at _ _ j) eqn:Ho; [|done].
      apply occurs_at_dot, lookup_dot in Ho; [lia|apply no_dot_LAST]. }
  destruct (length c) as [|n] eqn:Hl; [by apply nil_length_inv in Hl|].
  rewrite rfind_None; [done|]. intros j Hj. destruct (occurs_at _ _ j) eqn:Ho; [|done].
    apply occurs_at_dot in Ho. rewrite lookup_app_l in Ho by lia. by destruct (no_dot_lookup _ _ Hc Ho).
Qed.

(** What a key needs to be told from the records of last numbers. *)
Definition not_last (s : str) : Prop := no_dot s ∧ take (length LAST) s ≠ LAST.

Lemma not_last_prefix p u : not_last p → take (length LAST) (p ++ dot :: u) ≠ LAST.
Proof.
  intros [Hd Hp] E. destruct (decide (length LAST ≤ length p)%nat).
  - by rewrite take_app_le in E.
  - apply (no_dot_lookup LAST (length p) no_dot_LAST). rewrite <- E at 1.
    rewrite lookup_take_lt by lia. rewrite lookup_app_r, Nat.sub_diag by lia. done.
Qed.

Lemma occurs_last s j : occurs_at (dot :: LAST) s j = true → take (length LAST) (drop (S j) s) = LAST.
Proof.
  unfold occurs_at. intros E%bool_decide_eq_true. rewrite <- (Nat.add_1_r j), <- drop_drop.
  destruct (drop j s) as [|x t] eqn:Et; [done|]. by injection E.
Qed.

(** An entity with a parent is no record of a last number. *)
Lemma last_key_entity par c p u :
  no_dot c → not_last p → not_last u →
  ResourceLastKey_unserialize par (c ++ dot :: UuidKey_serialize (mkUuidKey u p)) = None.
Proof.
  intros Hc Hp Hu. unfold ResourceLastKey_unserialize. rewrite rfind_None; [done|].
  intros j _. destruct (occurs_at _ _ j) eqn:Ho; [|done]. exfalso.
  pose proof (occurs_last _ _ Ho) as Hl. apply occurs_at_dot in Ho. revert Ho Hl.
  unfold UuidKey_serialize. cbn [uuid parent]. case_bool_decide as He.
  - subst p. intros Ho Hl. apply lookup_dot in Ho as Hle; [|apply Hu].
    destruct (decide (j = length c)) as [->|Hne].
    + rewrite <- (Nat.add_1_r (length c)), <- drop_drop, drop_app_length in Hl. cbn in Hl. by apply Hu in Hl.
    + rewrite lookup_app_l in Ho by lia. by destruct (no_dot_lookup _ _ Hc Ho).
  - intros Ho Hl. apply lookup_two_dots in Ho as [->| ->]; [| |done|apply Hp|apply Hu].
    + rewrite <- (Nat.add_1_r (length c)), <- drop_drop, drop_app_length in Hl.
      by apply (not_last_prefix p u Hp).
    + replace (S (length c + 1 + length p)) with (length c + (1 + (length p + 1)))%nat in Hl by lia.
      rewrite <- drop_drop, drop_app_length in Hl. cbn [drop Nat.add] in Hl.
      rewrite <- drop_drop, drop_app_length in Hl. cbn in Hl. by apply Hu in Hl.
Qed.

End Database.
