(* ===== verification/IdPolicy.v ===== *)
(** The numbers that resources carry in REST paths
    (PSME/application: rest/model/handlers/id_policy.hpp and id_memoizer.cpp), over
    the key database of [Database].

    The state is the directory of the database and the memoizers of all
    components.  A debug assertion is taken as in a release build, where it does
    nothing.  The loop of [get_id] has as fuel two more than the number of
    allocated ids, and [find_id_total] shows that it is enough.

    Theorems: ids handed out are pairwise different while they are live
    ([ids_ok] is kept by [get_id] and [purge]); while the record of
    the last id is valid a zone behaves as a counter with a table that never
    forgets ([get_id_refines], [purge_refines]), whatever the order of the
    requests; across a restart this is not so. *)

From Stdlib Require Import ZArith Lia Ascii.
From S2P Require Import Prelude Database.

Import Database.
Local Open Scope Z_scope.

Module IdPolicy.

Inductive NumberingZone := SHARED | PARENT_SPACE.

(** ** IdMemoizer *)

(** [allocated_ids]: for every parent the entity that has an id. *)
Abbreviation Allocated := (gmap str (gmap Z str)).

Definition is_allocated_for (m : Allocated) (par : str) (id : Z) : str :=
  default [] (ids ← m !! par; ids !! id).

Definition allocate (par u : str) (id : Z) (m : Allocated) : bool * Allocated :=
  if negb (bool_decide (is_allocated_for m par id = [])) then (false, m)
  else (true, <[par := <[id := u]> (default ∅ (m !! par))]> m).

Definition remove_allocated (par : str) (id : Z) (m : Allocated) : bool * Allocated :=
  match m !! par with
  | Some ids =>
      match ids !! id with
      | Some _ =>
          let ids := delete id ids in
          (true, if bool_decide (ids = ∅) then delete par m else <[par := ids]> m)
      | None => (false, m)
      end
  | None => (false, m)
  end.

Definition clear (_ : Allocated) : Allocated := ∅.

(** ** IdPolicy *)

Record Store := mkStore {
  dir : Dir;
  allocators : gmap str Allocated;   (** [IdMemoizer::allocators], by component *)
}.

Definition memoizer (component : str) (s : Store) : Allocated := default ∅ (allocators s !! component).
Definition set_memoizer (component : str) (m : Allocated) (s : Store) : Store :=
  mkStore (dir s) (<[component := m]> (allocators s)).

(** Run an operation of the database. *)
Definition on_dir {A} (m : M Dir A) : M Store A := λ s,
  let '(r, d) := m (dir s) in (r, mkStore d (allocators s)).

(** [database->get(key, value)] for an [IdValue]. *)
Definition get_value (db : FileDatabase) (key : str) (d : Dir) : result (option Z) :=
  match db_get db key d with
  | Some data => IdValue_unserialize data
  | None => mret None
  end.

(** The loop of [get_id]. *)
Fixpoint find_id (fuel : nat) (m : Allocated) (par u : str) (next_free id : Z) : option Z :=
  match fuel with
  | O => None
  | S fuel' =>
      let allocated := is_allocated_for m par id in
      if bool_decide (allocated = []) then Some id
      else if bool_decide (allocated = u) then Some id
      else let next_free := wrap 64 (next_free + 1) in
           find_id fuel' m par u next_free next_free
  end.

Definition zone (nz : NumberingZone) (parent_uuid : str) : str :=
  match nz with SHARED => [] | PARENT_SPACE => parent_uuid end.

Definition policy_db (component : str) : FileDatabase := mkDatabase component true.

Definition get_id (component : str) (nz : NumberingZone) (now : Z) (u parent_uuid : str) : M Store Z :=
  let par := zone nz parent_uuid in
  let db := policy_db component in
  let last_key := UuidKey_serialize (mkUuidKey LAST par) in
  let entity_key := UuidKey_serialize (mkUuidKey u par) in
  s ← get;
  last ← lift (get_value db last_key (dir s));
  let last_id := default 0 last in
  let next_free := wrap 64 (last_id + 1) in
  entity ← lift (get_value db entity_key (dir s));
  let id := match entity with Some i => i | None => next_free end in
  let m := memoizer component s in
  match find_id (2 + size (default ∅ (m !! par))) m par u next_free id with
  | None => throw (runtime_error "out of fuel")
  | Some id =>
      modify (set_memoizer component (allocate par u id m).2) ;;
      s ← get;
      (if (last_id <? id) || negb (match get_validity now db last_key NEVER (dir s) with
                                   | VALID => true | _ => false end)
       then _ ← on_dir (db_put now db last_key (IdValue_serialize id)); mret tt
       else mret tt) ;;
      _ ← on_dir (db_put now db entity_key (IdValue_serialize id));
      mret id
  end.

(** [ResourceLastKey] of a parent as the filter of an iteration. *)
Definition last_key_of (par n : str) : bool :=
  match ResourceLastKey_unserialize par n with Some _ => true | None => false end.

Definition invalidate_last (nz : NumberingZone) (now : Z) (parent_uuid : str) : M Store Z :=
  on_dir (cleanup now all_databases (last_key_of (zone nz parent_uuid)) NEVER).

Definition purge (component : str) (nz : NumberingZone) (now : Z) (u parent_uuid : str) : M Store unit :=
  let par := zone nz parent_uuid in
  let db := policy_db component in
  let entity_key := UuidKey_serialize (mkUuidKey u par) in
  s ← get;
  entity ← lift (get_value db entity_key (dir s));
  match entity with
  | None => mret tt
  | Some id =>
      _ ← invalidate_last nz now u;
      _ ← on_dir (db_invalidate now db entity_key);
      s ← get;
      put (set_memoizer component (remove_allocated par id (memoizer component s)).2 s)
  end.

Definition reset (component : str) : M Store unit :=
  _ ← on_dir (drop_db (policy_db component) always_match);
  modify (λ s, mkStore (dir s) (delete component (allocators s))).

(** The application starts again: the memoizers are empty and
    [RetentionPolicyTask::started] invalidates every entry. *)
Definition restart (now outdated : Z) : M Store unit :=
  modify (λ s, mkStore (dir s) ∅) ;;
  _ ← on_dir (invalidate_all now outdated);
  mret tt.

(** ** A run *)

Inductive request :=
  | Get (u parent_uuid : str)
  | Purge (u parent_uuid : str)
  | Restart (outdated : Z).

(** The requests one after another; the zone, the entity and the id of every answer. *)
Fixpoint run (component : str) (nz : NumberingZone) (now : Z) (rs : list request)
    : M Store (list (str * str * Z)) :=
  match rs with
  | [] => mret []
  | r :: rs' =>
      a ← (match r with
           | Get u p => id ← get_id component nz now u p; mret [(zone nz p, u, id)]
           | Purge u p => purge component nz now u p ;; mret []
           | Restart outdated => restart now outdated ;; mret []
           end);
      as_ ← run component nz (now + 1) rs';
      mret (a ++ as_)
  end.

Definition empty_store : Store := mkStore ∅ ∅.

(** ** Names and files *)

(** What the code relies on of a uuid or a component: a file can be named after
    it, it has no dot, and it is not taken for the word of the last record. *)
Definition ok_name (s : str) : Prop := good_name s ∧ not_last s.
Definition ok_zone (par : str) : Prop := par = [] ∨ ok_name par.
Definition ok_entity (u : str) : Prop := ok_name u ∨ u = LAST.

#[global] Instance ok_name_dec s : Decision (ok_name s).
Proof. unfold ok_name, good_name, not_last, no_dot. apply _. Defined.

Definition key_file (component par u : str) : str :=
  component ++ [dot] ++ UuidKey_serialize (mkUuidKey u par) ++ EXT.

Lemma ok_entity_props u : ok_entity u → good_name u ∧ no_dot u.
Proof.
  intros [[Hg [Hd _]]| ->]; [done|]. split; [|apply no_dot_LAST].
  split; [done|]. split; by apply (bool_decide_eq_true_1 _); vm_compute.
Qed.

Lemma ok_zone_props par : ok_zone par → no_dot par ∧ ("/"%char ∉ par) ∧ (":"%char ∉ par).
Proof.
  intros [->|[(_ & ? & ?) [? _]]]; [|done]. unfold no_dot. split_and!; apply not_elem_of_nil.
Qed.

Lemma good_key u par : ok_zone par → ok_entity u → good_name (UuidKey_serialize (mkUuidKey u par)).
Proof.
  intros Hp%ok_zone_props Hu%ok_entity_props. destruct Hp as (_ & Hp1 & Hp2).
  destruct Hu as [(Hu0 & Hu1 & Hu2) _]. unfold UuidKey_serialize. cbn [parent uuid].
  case_bool_decide; [done|]. split; [by destruct par|].
  unfold dot. split; intros [?|[[=]|?]%list.elem_of_cons]%elem_of_app; tauto.
Qed.

Lemma full_name_key component par u :
  component ≠ [] → ok_zone par → ok_entity u →
  full_name (policy_db component) (UuidKey_serialize (mkUuidKey u par)) = Some (key_file component par u).
Proof.
  intros Hc Hp Hu. rewrite full_name_good by (by apply good_key). unfold key_file. cbn [name policy_db].
  rewrite bool_decide_false by done. by rewrite <- !app_assoc.
Qed.

Lemma key_file_inj c par u c' par' u' :
  no_dot c → no_dot c' → ok_zone par → ok_zone par' → ok_entity u → ok_entity u' →
  key_file c par u = key_file c' par' u' → c = c' ∧ par = par' ∧ u = u'.
Proof.
  intros Hc Hc' Hp%ok_zone_props Hp'%ok_zone_props Hu%ok_entity_props Hu'%ok_entity_props E.
  unfold key_file in E. cbn [app] in E. apply no_dot_split in E as [-> E]; [|done..].
  apply app_inv_tail in E. apply uuid_key_inj in E as [-> ->]; tauto.
Qed.

(** The file holds the number. *)
Definition holds (file : File) (i : Z) : Prop :=
  content file = IdValue_serialize i ∧ iwgrp file = true ∧ 0 < i < 2 ^ 64.

Lemma holds_inj file i j : holds file i → holds file j → i = j.
Proof.
  intros (E & _ & Hi) (E' & _ & Hj). rewrite E in E'.
  apply (f_equal IdValue_unserialize) in E'. rewrite !IdValue_roundtrip in E' by done. by injection E'.
Qed.

Lemma length_serialize i : Z.of_nat (length (IdValue_serialize i)) < VALUE_LENGTH.
Proof.
  unfold IdValue_serialize, VALUE_LENGTH. destruct (i =? 0); [done|].
  unfold to_string. pose proof (length_digits 20 i []) as H. cbn [length] in H. lia.
Qed.

Lemma get_value_file component par u d file i :
  component ≠ [] → ok_zone par → ok_entity u →
  d !! key_file component par u = Some file → holds file i →
  get_value (policy_db component) (UuidKey_serialize (mkUuidKey u par)) d = Ok (Some i).
Proof.
  intros Hc Hp Hu Hf (Hh & _ & Hi). unfold get_value, db_get, read_file.
  rewrite full_name_key by done. cbn. rewrite Hf. cbn. rewrite Hh.
  rewrite (proj2 (Z.ltb_lt _ _)) by apply length_serialize. by apply IdValue_roundtrip.
Qed.

Lemma get_value_none component par u d :
  component ≠ [] → ok_zone par → ok_entity u →
  d !! key_file component par u = None →
  get_value (policy_db component) (UuidKey_serialize (mkUuidKey u par)) d = Ok None.
Proof.
  intros Hc Hp Hu Hf. unfold get_value, db_get, read_file. rewrite full_name_key by done. cbn. by rewrite Hf.
Qed.

(** ** The search for an id *)

(** The live ids of a zone. *)
Definition live (component par : str) (s : Store) : gmap Z str :=
  default ∅ (memoizer component s !! par).

Lemma is_allocated_live m par id : is_allocated_for m par id = default [] (default ∅ (m !! par) !! id).
Proof. unfold is_allocated_for. by destruct (m !! par). Qed.

Lemma find_id_sound fuel m par u nf id0 id :
  0 ≤ nf → nf + Z.of_nat fuel < 2 ^ 64 → find_id fuel m par u nf id0 = Some id →
  (is_allocated_for m par id = [] ∨ is_allocated_for m par id = u) ∧
  (id = id0 ∨ (nf < id ≤ nf + Z.of_nat fuel ∧
     is_allocated_for m par id0 ≠ [] ∧ is_allocated_for m par id0 ≠ u)).
Proof.
  revert nf id0. induction fuel as [|fuel IH]; intros nf id0 Hnf Hb; [done|]. cbn [find_id].
  case_bool_decide; [intros [= <-]; auto|]. case_bool_decide; [intros [= <-]; auto|].
  rewrite wrap_small by (unfold in_range; lia). intros E.
  apply IH in E as [Ha Hid]; [|lia..]. split; [done|]. right. split; [|done]. lia.
Qed.

(** All ids that were tried are taken. *)
Lemma find_id_none fuel m par u nf id0 :
  0 ≤ nf → nf + Z.of_nat fuel < 2 ^ 64 → find_id fuel m par u nf id0 = None →
  ∀ k, (S k < fuel)%nat → is_Some (default ∅ (m !! par) !! (nf + 1 + Z.of_nat k)).
Proof.
  revert nf id0. induction fuel as [|fuel IH]; intros nf id0 Hnf Hb E k Hk; [lia|]. cbn [find_id] in E.
  do 2 (case_bool_decide; [done|]). rewrite wrap_small in E by (unfold in_range; lia).
  destruct k as [|k].
  - replace (nf + 1 + Z.of_nat 0) with (nf + 1) by lia. destruct fuel as [|fuel]; [lia|].
    cbn [find_id] in E. do 2 (case_bool_decide; [done|]).
    rewrite is_allocated_live in *. by destruct (default ∅ (m !! par) !! (nf + 1)).
  - replace (nf + 1 + Z.of_nat (S k)) with (nf + 1 + 1 + Z.of_nat k) by lia.
    apply (IH (nf + 1) (nf + 1)); [lia|lia|done|lia].
Qed.

Lemma find_id_total m par u nf id0 :
  0 ≤ nf → nf + Z.of_nat (size (default ∅ (m !! par))) + 2 < 2 ^ 64 →
  ∃ id, find_id (2 + size (default ∅ (m !! par))) m par u nf id0 = Some id.
Proof.
  intros Hnf Hb. destruct (find_id _ _ _ _ _ _) as [id|] eqn:E; [by exists id|]. exfalso.
  set (ids := default ∅ (m !! par)) in *. set (n := size ids) in *.
  pose proof (find_id_none (2 + n) m par u nf id0 Hnf ltac:(lia) E) as Hall.
  destruct (first_free ids (λ k, nf + 1 + Z.of_nat k)) as (k & Hk & Hnone & _); [intros; lia|].
  destruct (Hall k) as [v Hv]; [lia|]. fold ids in Hv. congruence.
Qed.

(** ** One request *)

Section policy.

Context (component : str) (Hne : component ≠ []) (Hdot : no_dot component).

Definition stored (par u : str) (d : Dir) : option Z :=
  match get_value (policy_db component) (UuidKey_serialize (mkUuidKey u par)) d with
  | Ok o => o
  | Throw _ => None
  end.

Definition last_stored (par : str) (d : Dir) : Z := default 0 (stored par LAST d).

Definition last_valid (par : str) (d : Dir) : bool :=
  match d !! key_file component par LAST with Some file => isvtx file | None => false end.

(** The files of the component hold numbers, and a live id is the number in the
    valid file of its entity. *)
Record ids_ok (s : Store) : Prop := {
  files_ok : ∀ par u file, ok_zone par → ok_entity u →
    dir s !! key_file component par u = Some file → ∃ i, holds file i;
  live_ok : ∀ par i u, ok_zone par → live component par s !! i = Some u →
    ok_name u ∧ ∃ file, dir s !! key_file component par u = Some file ∧ holds file i ∧ isvtx file = true;
}.

Lemma get_value_stored s par u :
  ids_ok s → ok_zone par → ok_entity u →
  get_value (policy_db component) (UuidKey_serialize (mkUuidKey u par)) (dir s) = Ok (stored par u (dir s)).
Proof using Hne.
  intros Hok Hp Hu. unfold stored. destruct (dir s !! key_file component par u) as [file|] eqn:Hf.
  - destruct (files_ok s Hok par u file Hp Hu Hf) as [i Hi]. by erewrite get_value_file.
  - by rewrite get_value_none.
Qed.

Lemma stored_file s par u i file :
  ok_zone par → ok_entity u → dir s !! key_file component par u = Some file → holds file i →
  stored par u (dir s) = Some i.
Proof using Hne. intros Hp Hu Hf Hi. unfold stored. by erewrite get_value_file. Qed.

Lemma stored_Some s par u i :
  ids_ok s → ok_zone par → ok_entity u → stored par u (dir s) = Some i →
  ∃ file, dir s !! key_file component par u = Some file ∧ holds file i.
Proof using Hne.
  intros Hok Hp Hu E. destruct (dir s !! key_file component par u) as [file|] eqn:Hf.
  - destruct (files_ok s Hok par u file Hp Hu Hf) as [j Hj]. exists file. split; [done|].
    rewrite (stored_file s par u j file) in E by done. by injection E as <-.
  - unfold stored in E. by rewrite get_value_none in E.
Qed.

Lemma last_stored_bound s par : ids_ok s → ok_zone par → 0 ≤ last_stored par (dir s) < 2 ^ 64.
Proof using Hne.
  intros Hok Hp. unfold last_stored. destruct (stored par LAST (dir s)) as [i|] eqn:E; [|simpl; lia].
  apply stored_Some in E as (file & _ & _ & _ & Hi); [simpl; lia|done..|by right].
Qed.

(** The validity of the record of the last id that [get_id] asks for. *)
Lemma last_validity now par s :
  ids_ok s → ok_zone par →
  match get_validity now (policy_db component) (UuidKey_serialize (mkUuidKey LAST par)) NEVER (dir s) with
  | VALID => true | _ => false end = last_valid par (dir s).
Proof using Hne.
  intros Hok Hp. unfold get_validity, file_validity, last_valid.
  rewrite full_name_key by (done || by right). cbn [mbind option_bind policy_db m_with_policy].
  destruct (dir s !! key_file component par LAST) as [file|] eqn:Hf; [|done].
  destruct (files_ok s Hok par LAST file Hp (or_intror eq_refl) Hf) as [i (_ & Hw & _)].
  rewrite Hw. cbn. destruct (isvtx file); [done|]. by destruct (_ <=? _).
Qed.

Definition id_file (now i : Z) : File := mkFile (IdValue_serialize i) true true now.

Lemma holds_id_file now i : 0 < i < 2 ^ 64 → holds (id_file now i) i.
Proof using Type. done. Qed.

(** The directory after [get_id]. *)
Definition recorded (now : Z) (par u : str) (id : Z) (d : Dir) : Dir :=
  <[key_file component par u := id_file now id]>
    (if (last_stored par d <? id) || negb (last_valid par d)
     then <[key_file component par LAST := id_file now id]> d else d).

(** The table of live ids after [get_id]. *)
Definition allocated (par u : str) (id : Z) (s : Store) : gmap str Allocated :=
  allocators (set_memoizer component (allocate par u id (memoizer component s)).2 s).

Lemma live_allocate par u id s d :
  u ≠ [] → (is_allocated_for (memoizer component s) par id = [] ∨
            is_allocated_for (memoizer component s) par id = u) →
  live component par (mkStore d (allocated par u id s)) = <[id := u]> (live component par s).
Proof using Type.
  intros Hu Ha. unfold live, memoizer at 1, allocated, set_memoizer. cbn [allocators].
  rewrite lookup_insert_eq. cbn [default]. unfold Datatypes.id, allocate. case_bool_decide as E; cbn [negb snd].
  - by rewrite lookup_insert_eq.
  - destruct Ha as [?|Ha]; [done|]. rewrite is_allocated_live in Ha, E.
    rewrite insert_id; [done|]. destruct (_ !! id) as [v|]; [by rewrite <- Ha|done].
Qed.

Lemma live_allocate_other par u id s d c' par' :
  (c', par') ≠ (component, par) →
  live c' par' (mkStore d (allocated par u id s)) = live c' par' s.
Proof using Type.
  intros Hn. unfold live, memoizer, allocated, set_memoizer. cbn [allocators].
  destruct (decide (c' = component)) as [->|Hc]; [|by rewrite lookup_insert_ne].
  rewrite lookup_insert_eq. cbn [default]. unfold Datatypes.id, allocate. case_bool_decide; cbn [negb snd]; [|done].
  rewrite lookup_insert_ne by congruence. done.
Qed.

(** [get_id] returns; which id, and what it leaves behind. *)
Lemma get_id_run nz now u p s (par := zone nz p) :
  ids_ok s → ok_zone par → ok_name u →
  last_stored par (dir s) + Z.of_nat (size (live component par s)) + 4 < 2 ^ 64 →
  let first := default (last_stored par (dir s) + 1) (stored par u (dir s)) in
  ∃ id, get_id component nz now u p s =
      (Ok id, mkStore (recorded now par u id (dir s)) (allocated par u id s)) ∧
    0 < id < 2 ^ 64 ∧
    (is_allocated_for (memoizer component s) par id = [] ∨
     is_allocated_for (memoizer component s) par id = u) ∧
    (id = first ∨ (last_stored par (dir s) + 1 < id ∧
                   is_allocated_for (memoizer component s) par first ≠ [] ∧
                   is_allocated_for (memoizer component s) par first ≠ u)).
Proof using Hne.
  intros Hok Hp Hu Hb first. pose proof (last_stored_bound s par Hok Hp) as Hl.
  set (last := last_stored par (dir s)) in *. set (m := memoizer component s) in *.
  destruct (find_id_total m par u (last + 1) first) as [id Hid];
    [lia|unfold live in Hb; fold m in Hb; lia|].
  assert (0 < first < 2 ^ 64) as Hfirst.
  { unfold first. destruct (stored par u (dir s)) as [i|] eqn:E; [|simpl; lia].
    apply stored_Some in E as (file & _ & _ & _ & Hi); [simpl; lia|done..|by left]. }
  apply find_id_sound in Hid as Hs; [|lia|unfold live in Hb; fold m in Hb; lia].
  destruct Hs as [Ha Hcase]. exists id. split; [|split; [|split; [done|]]].
  - unfold get_id. fold par. run_monad.
    rewrite (get_value_stored s par LAST), (get_value_stored s par u) by (done || by (left + right)).
    cbn beta iota. fold m. change (default 0 (stored par LAST (dir s))) with last.
    rewrite (wrap_small 64 (last + 1)) by (unfold in_range, live in *; fold m in Hb; lia).
    replace (match stored par u (dir s) with Some i => i | None => last + 1 end) with first
      by (unfold first; by destruct (stored par u (dir s))).
    rewrite Hid. cbn [dir set_memoizer]. rewrite last_validity by done.
    unfold recorded, db_put, save_file, on_dir. fold last.
    rewrite !full_name_key by (done || by (left + right)). cbn [policy_db m_with_policy].
    destruct ((last <? id) || negb (last_valid par (dir s))); run_monad; cbn [dir allocators]; done.
  - destruct Hcase as [->|[? _]]; [done|]. unfold live in Hb. fold m in Hb. lia.
  - destruct Hcase as [->|[? ?]]; [by left|]. right. split; [lia|done].
Qed.

Lemma lookup_recorded_same now par u id d :
  recorded now par u id d !! key_file component par u = Some (id_file now id).
Proof using Type. unfold recorded. by rewrite lookup_insert_eq. Qed.

Lemma lookup_recorded_last now par u id d :
  ok_zone par → ok_name u →
  recorded now par u id d !! key_file component par LAST =
    if (last_stored par d <? id) || negb (last_valid par d) then Some (id_file now id)
    else d !! key_file component par LAST.
Proof using Hdot.
  intros Hp Hu. unfold recorded. rewrite lookup_insert_ne.
  - destruct (_ || _); [by rewrite lookup_insert_eq|done].
  - intros E. apply key_file_inj in E as (_ & _ & E); [|done..|by left|by right].
    subst u. by destruct Hu as [_ [_ []]].
Qed.

Lemma lookup_recorded_other now par u id d par' u' :
  ok_zone par → ok_name u → ok_zone par' → ok_entity u' →
  (par', u') ≠ (par, u) → (par', u') ≠ (par, LAST) →
  recorded now par u id d !! key_file component par' u' = d !! key_file component par' u'.
Proof using Hdot.
  intros Hp Hu Hp' Hu' H1 H2. unfold recorded. rewrite lookup_insert_ne.
  - destruct (_ || _); [|done]. rewrite lookup_insert_ne; [done|]. intros E.
    apply key_file_inj in E as (_ & E1 & E2); [|done..|by right|done]. congruence.
  - intros E. apply key_file_inj in E as (_ & E1 & E2); [|done..|by left|done]. congruence.
Qed.

Lemma not_last_LAST : ~ ok_name LAST.
Proof using Type. by intros [_ [_ []]]. Qed.

(** [get_id] keeps the invariant: an id that is live for one entity is given to no other. *)
Lemma get_id_ids_ok nz now u p s id (par := zone nz p) :
  ids_ok s → ok_zone par → ok_name u → 0 < id < 2 ^ 64 →
  (is_allocated_for (memoizer component s) par id = [] ∨
   is_allocated_for (memoizer component s) par id = u) →
  (∀ j, live component par s !! j = Some u → id = j) →
  ids_ok (mkStore (recorded now par u id (dir s)) (allocated par u id s)).
Proof using Hdot.
  intros Hok Hp Hu Hid Ha Hj. split; cbn [dir].
  - intros par' u' file Hp' Hu' Hf.
    destruct (decide ((par', u') = (par, u))) as [[= -> ->]|H1].
    { rewrite lookup_recorded_same in Hf. injection Hf as <-. exists id. by apply holds_id_file. }
    destruct (decide ((par', u') = (par, LAST))) as [[= -> ->]|H2].
    { rewrite lookup_recorded_last in Hf by done. destruct (_ || _).
      - injection Hf as <-. exists id. by apply holds_id_file.
      - by eapply (files_ok s Hok par LAST). }
    rewrite lookup_recorded_other in Hf by done. by eapply (files_ok s Hok par' u').
  - intros par' i v Hp' Hl.
    assert (∀ par', ok_zone par' → live component par' s !! i = Some v → (par', v) ≠ (par, u) →
      ok_name v ∧ ∃ file, recorded now par u id (dir s) !! key_file component par' v = Some file ∧
        holds file i ∧ isvtx file = true) as Hold.
    { intros par2 Hp2 Hl2 Hn. destruct (live_ok s Hok par2 i v Hp2 Hl2) as (Hv & file & Hf & Hh).
      split; [done|]. exists file. rewrite lookup_recorded_other; [done..|by left|done|].
      intros [= -> ->]. by apply not_last_LAST. }
    destruct (decide (par' = par)) as [->|Hpar].
    + rewrite live_allocate in Hl; [|apply Hu|done].
      apply lookup_insert_Some in Hl as [[<- <-]|[Hi Hl]].
      * split; [done|]. exists (id_file now id). rewrite lookup_recorded_same. split; [done|].
        split; [by apply holds_id_file|done].
      * apply Hold; [done..|]. intros [= ->]. by apply Hj in Hl.
    + rewrite live_allocate_other in Hl by congruence. apply Hold; [done..|]. congruence.
Qed.

(** ** Removal *)

Lemma selects_last z par u :
  ok_zone par → ok_entity u → selects all_databases (last_key_of z) (key_file component par u) = true →
  u = LAST ∧ par = z ∧ par ≠ [].
Proof using Hne Hdot.
  intros Hp Hu [_ Hm]%andb_true_iff. revert Hm. unfold strip_name. cbn [all_databases name].
  rewrite bool_decide_true by done.
  replace (key_file component par u) with ((component ++ dot :: UuidKey_serialize (mkUuidKey u par)) ++ EXT)
    by (unfold key_file; by rewrite <- app_assoc).
  rewrite strip_ext_app. unfold last_key_of. destruct Hu as [[_ Hu]| ->].
  - rewrite last_key_entity; [done..| |done]. destruct Hp as [->|[_ Hp]]; [|done].
    split; [apply not_elem_of_nil|done].
  - destruct (decide (par = [])) as [->|Hpar].
    + unfold UuidKey_serialize. cbn [uuid parent]. rewrite bool_decide_true by done.
      by rewrite last_key_root.
    + unfold UuidKey_serialize. cbn [uuid parent]. rewrite bool_decide_false by done.
      pose proof (last_key_matches z component par) as E. unfold ResourceLastKey_serialize in E.
      cbn [resource last_parent] in E. rewrite E by apply ok_zone_props, Hp.
      case_bool_decide; [by subst|done].
Qed.

(** The same number, perhaps no longer valid. *)
Definition same_number (o o' : option File) : Prop :=
  content <$> o = content <$> o' ∧ iwgrp <$> o = iwgrp <$> o'.

Lemma cleaned_number now interval pol file file' :
  cleaned now interval pol file = Some file' → same_number (Some file') (Some file).
Proof using Type.
  unfold cleaned. destruct (entry_validity _ _ _ _); intros E; try done; by injection E as <-.
Qed.

Lemma live_remove par id s d :
  live component par (set_memoizer component (remove_allocated par id (memoizer component s)).2
    (mkStore d (allocators s))) = delete id (live component par s).
Proof using Type.
  unfold live at 1, memoizer at 1, set_memoizer. cbn [allocators]. rewrite lookup_insert_eq.
  cbn [default]. unfold Datatypes.id, remove_allocated, live.
  destruct (memoizer component s !! par) as [ids|] eqn:E; cbn [default].
  2:{ cbn [snd]. rewrite E. cbn. by rewrite delete_empty. }
  unfold Datatypes.id. destruct (ids !! id) as [v|] eqn:Ei; cbn [snd].
  - case_bool_decide as He; [rewrite lookup_delete_eq; by rewrite He|by rewrite lookup_insert_eq].
  - rewrite E. cbn. by rewrite delete_id.
Qed.

Lemma live_remove_other par id s d c' par' :
  (c', par') ≠ (component, par) →
  live c' par' (set_memoizer component (remove_allocated par id (memoizer component s)).2
    (mkStore d (allocators s))) = live c' par' s.
Proof using Type.
  intros Hn. unfold live, memoizer at 1, set_memoizer. cbn [allocators].
  destruct (decide (c' = component)) as [->|Hc]; [|by rewrite lookup_insert_ne].
  rewrite lookup_insert_eq. cbn [default]. unfold Datatypes.id, remove_allocated.
  destruct (memoizer component s !! par) as [ids|] eqn:E; [|done].
  destruct (ids !! id); cbn [snd]; [|done].
  case_bool_decide; [rewrite lookup_delete_ne|rewrite lookup_insert_ne]; done || congruence.
Qed.

(** [purge] of an entity: every other entity keeps its file, the record of the
    last number of a zone is touched only when the zone is that of the children. *)
Lemma purge_run nz now u p s (par := zone nz p) :
  ids_ok s → ok_zone par → ok_name u →
  ∃ s', purge component nz now u p s = (Ok tt, s') ∧
    (∀ par' u', ok_zone par' → ok_entity u' → ¬ (u' = LAST ∧ par' = zone nz u ∧ par' ≠ []) →
      same_number (dir s' !! key_file component par' u') (dir s !! key_file component par' u') ∧
      ((par', u') ≠ (par, u) →
       dir s' !! key_file component par' u' = dir s !! key_file component par' u')) ∧
    (∀ f file', dir s' !! f = Some file' → ∃ file, dir s !! f = Some file ∧ same_number (Some file') (Some file)) ∧
    (∀ c' par', (c', par') ≠ (component, par) → live c' par' s' = live c' par' s) ∧
    live component par s' =
      match stored par u (dir s) with Some id => delete id (live component par s) | None => live component par s end.
Proof using Hne Hdot.
  intros Hok Hp Hu. unfold purge. fold par. run_monad.
  rewrite (get_value_stored s par u) by (done || by left).
  destruct (stored par u (dir s)) as [id|] eqn:Es; cbn beta iota.
  2:{ exists s. split_and!; [done|done| |done|done]. intros f file' Hf. by exists file'. }
  apply stored_Some in Es as (file & Hf & _); [|done..|by left].
  unfold invalidate_last, on_dir.
  destruct (cleanup_acts now all_databases (last_key_of (zone nz u)) NEVER (dir s)) as (k & d1 & -> & Hd1).
  assert (∀ par' u', ok_zone par' → ok_entity u' → ¬ (u' = LAST ∧ par' = zone nz u ∧ par' ≠ []) →
    d1 !! key_file component par' u' = dir s !! key_file component par' u') as Hsame.
  { intros par' u' Hp' Hu' Hn. rewrite Hd1. destruct (selects _ _ _) eqn:Hsel.
    - by apply selects_last in Hsel.
    - by destruct (dir s !! key_file component par' u'). }
  assert (∀ f file', d1 !! f = Some file' → ∃ file, dir s !! f = Some file ∧ same_number (Some file') (Some file))
    as Hold.
  { intros f file' Hf'. rewrite Hd1 in Hf'. destruct (dir s !! f) as [g|]; [|done]. exists g. split; [done|].
    cbn in Hf'. destruct (selects _ _ _); [|by injection Hf' as ->]. by eapply cleaned_number. }
  cbn [dir allocators]. unfold db_invalidate, invalidate_file. run_monad.
  rewrite full_name_key by (done || by left).
  assert (ok_entity u) as Hu' by (by left).
  rewrite (Hsame par u), Hf; [|done..|intros [-> _]; by apply not_last_LAST].
  destruct (isvtx file) eqn:Hv; cbn [negb].
  - eexists. split; [done|]. cbn [dir]. split_and!; [| |intros c' par'; exact (live_remove_other par id s _ c' par')|exact (live_remove par id s _)].
    2:{ cbn [dir set_memoizer]. intros f file' [[<- <-]|[_ Hf']]%lookup_insert_Some; [by exists file|by apply Hold]. }
    intros par' v Hp' Hv' Hn. cbn [dir set_memoizer].
    destruct (decide ((par', v) = (par, u))) as [[= -> ->]|Hne'].
    + rewrite lookup_insert_eq, Hf. split; [done|congruence].
    + rewrite lookup_insert_ne; [rewrite Hsame by done; done|].
      intros E. apply key_file_inj in E as (_ & E1 & E2); congruence || done.
  - eexists. split; [done|]. cbn [dir]. split_and!; [|exact Hold|intros c' par'; exact (live_remove_other par id s _ c' par')|exact (live_remove par id s _)].
    intros par' v Hp' Hv' Hn. cbn [dir set_memoizer]. rewrite Hsame by done. done.
Qed.

(** ** The abstract allocator of a zone *)

(** A counter and a table that is only ever extended. *)
Record Alloc := mkAlloc { a_last : Z; a_ids : gmap str Z }.

Definition spec_get (u : str) (a : Alloc) : Z * Alloc :=
  match a_ids a !! u with
  | Some i => (i, a)
  | None => let i := a_last a + 1 in (i, mkAlloc i (<[u := i]> (a_ids a)))
  end.

(** The numbers of the table are those in the files, all up to the counter and all
    different; the counter is the valid record of the last id. *)
Record refines (par : str) (s : Store) (a : Alloc) : Prop := {
  r_ids : ∀ u, ok_name u → stored par u (dir s) = a_ids a !! u;
  r_bound : ∀ u i, a_ids a !! u = Some i → ok_name u ∧ 0 < i ≤ a_last a;
  r_inj : ∀ u v i, a_ids a !! u = Some i → a_ids a !! v = Some i → u = v;
  r_last : last_stored par (dir s) = a_last a;
  r_valid : a_last a = 0 ∨ last_valid par (dir s) = true;
}.

Lemma live_refines par s a i u :
  ids_ok s → ok_zone par → refines par s a → live component par s !! i = Some u → a_ids a !! u = Some i.
Proof using Hne.
  intros Hok Hp Hr Hl. destruct (live_ok s Hok par i u Hp Hl) as (Hu & file & Hf & Hh & _).
  rewrite <- (r_ids _ _ _ Hr u Hu). apply (stored_file s par u i file); [done| |done..]. by left.
Qed.

Lemma size_live par s a :
  ids_ok s → ok_zone par → refines par s a → 0 ≤ a_last a →
  Z.of_nat (size (live component par s)) ≤ a_last a.
Proof using Hne.
  intros Hok Hp Hr Ha. rewrite <- size_dom.
  assert (dom (live component par s) ⊆ (list_to_set (seqZ 1 (a_last a)) : gset Z)) as Hsub.
  { intros i [u Hu]%elem_of_dom. apply (live_refines par s a) in Hu as Hi; [|done..].
    apply (r_bound _ _ _ Hr) in Hi as [_ Hi]. apply elem_of_list_to_set, elem_of_seqZ. lia. }
  apply subseteq_size in Hsub. rewrite size_list_to_set, length_seqZ in Hsub by apply NoDup_seqZ. lia.
Qed.

Lemma stored_lookup par u d d' :
  ok_zone par → ok_entity u →
  content <$> d !! key_file component par u = content <$> d' !! key_file component par u →
  stored par u d = stored par u d'.
Proof using Hne.
  intros Hp Hu E. unfold stored, get_value, db_get, read_file. rewrite full_name_key by done.
  cbn [mbind option_bind].
  destruct (d !! key_file component par u), (d' !! key_file component par u); simplify_eq/=; [|done].
  by rewrite E.
Qed.

(** The id that is picked is the one of the allocator. *)
Lemma spec_get_picks par s a u id :
  ids_ok s → ok_zone par → refines par s a →
  (id = default (a_last a + 1) (a_ids a !! u) ∨
   (a_last a + 1 < id ∧
    is_allocated_for (memoizer component s) par (default (a_last a + 1) (a_ids a !! u)) ≠ [] ∧
    is_allocated_for (memoizer component s) par (default (a_last a + 1) (a_ids a !! u)) ≠ u)) →
  id = (spec_get u a).1.
Proof using Hne.
  intros Hok Hp Hr. unfold spec_get. intros [->|(_ & H1 & H2)]; [by destruct (a_ids a !! u)|]. exfalso.
  rewrite is_allocated_live in H1, H2.
  destruct (default ∅ (memoizer component s !! par) !! _) as [v|] eqn:Hv; [|done]. cbn in H1, H2.
  apply (live_refines par s a) in Hv; [|done..]. destruct (a_ids a !! u) as [i|] eqn:Eu; cbn in Hv.
  - by rewrite (r_inj _ _ _ Hr _ _ _ Hv Eu) in H2.
  - apply (r_bound _ _ _ Hr) in Hv. lia.
Qed.

(** A zone depends on its files only. *)
Lemma refines_frame par s s' a :
  ok_zone par → refines par s a →
  (∀ v, ok_name v → content <$> dir s' !! key_file component par v = content <$> dir s !! key_file component par v) →
  dir s' !! key_file component par LAST = dir s !! key_file component par LAST →
  refines par s' a.
Proof using Hne.
  intros Hp [H1 H2 H3 H4 H5] Hv HL. split; [|done..| |].
  - intros v Hn. rewrite <- H1 by done. apply stored_lookup; [done|by left|by apply Hv].
  - rewrite <- H4. unfold last_stored. f_equal. apply stored_lookup; [done|by right|]. by rewrite HL.
  - unfold last_valid. by rewrite HL.
Qed.

Lemma stored_recorded now par u id d :
  ok_zone par → ok_name u → 0 < id < 2 ^ 64 → stored par u (recorded now par u id d) = Some id.
Proof using Hne.
  intros Hp Hu Hid.
  apply (stored_file (mkStore (recorded now par u id d) ∅) par u id (id_file now id)); [done|by left| |done].
  apply lookup_recorded_same.
Qed.

Lemma lookup_recorded_entity now par u id d v :
  ok_zone par → ok_name u → ok_name v → v ≠ u →
  recorded now par u id d !! key_file component par v = d !! key_file component par v.
Proof using Hdot.
  intros Hp Hu Hv Hn. apply lookup_recorded_other; [done..|by left|congruence|].
  intros [= ->]. by apply not_last_LAST.
Qed.

(** What [get_id] records is what the allocator records. *)
Lemma recorded_refines now par u s a al :
  ids_ok s → ok_zone par → ok_name u → refines par s a → 0 ≤ a_last a < 2 ^ 62 →
  refines par (mkStore (recorded now par u (spec_get u a).1 (dir s)) al) (spec_get u a).2.
Proof using Hne Hdot.
  intros Hok Hp Hu Hr Ha. assert (ok_entity LAST) as Hl' by (by right).
  pose proof (lookup_recorded_last now par u (spec_get u a).1 (dir s) Hp Hu) as HL.
  rewrite (r_last _ _ _ Hr) in HL. unfold spec_get in *.
  destruct (a_ids a !! u) as [i|] eqn:Eu; cbn [fst snd] in *.
  - pose proof (r_bound _ _ _ Hr u i Eu) as [_ Hi].
    destruct (r_valid _ _ _ Hr) as [Hz|Hvalid]; [lia|].
    rewrite Hvalid, (proj2 (Z.ltb_ge _ _)) in HL by lia.
    apply (refines_frame par s); [done..| |exact HL]. intros v Hv. cbn [dir].
    destruct (decide (v = u)) as [->|Hvu]; [|by rewrite lookup_recorded_entity].
    rewrite <- (r_ids _ _ _ Hr u Hu) in Eu. apply stored_Some in Eu as (file & Hf & Hh); [|done..|by left].
    rewrite lookup_recorded_same, Hf. cbn. by destruct Hh as [-> _].
  - rewrite (proj2 (Z.ltb_lt _ _)) in HL by lia. cbn [negb orb] in HL.
    split; cbn [dir a_ids a_last].
    + intros v Hv. destruct (decide (v = u)) as [->|Hvu].
      { rewrite lookup_insert_eq, stored_recorded by (done || lia). done. }
      rewrite lookup_insert_ne, <- (r_ids _ _ _ Hr v Hv) by done.
      apply stored_lookup; [done|by left|]. by rewrite lookup_recorded_entity.
    + intros v i [[<- <-]|[? Hv]]%lookup_insert_Some; [split; [done|lia]|].
      apply (r_bound _ _ _ Hr) in Hv. split; [apply Hv|lia].
    + intros v w i [[<- <-]|[? Hv]]%lookup_insert_Some [[<- ?]|[? Hw]]%lookup_insert_Some; [done| | |].
      * apply (r_bound _ _ _ Hr) in Hw. lia.
      * apply (r_bound _ _ _ Hr) in Hv. lia.
      * by eapply (r_inj _ _ _ Hr).
    + unfold last_stored. erewrite (stored_file (mkStore (recorded now par u (a_last a + 1) (dir s)) ∅));
        [done..|exact HL|apply holds_id_file; lia].
    + right. unfold last_valid. by rewrite HL.
Qed.

(** [get_id] does what the allocator does. *)
Lemma get_id_refines_zone nz now u p s a (par := zone nz p) :
  ids_ok s → ok_zone par → ok_name u → refines par s a → 0 ≤ a_last a < 2 ^ 62 →
  ∃ s', get_id component nz now u p s = (Ok (spec_get u a).1, s') ∧
    ids_ok s' ∧ refines par s' (spec_get u a).2 ∧
    (∀ par' a', ok_zone par' → par' ≠ par → refines par' s a' → refines par' s' a').
Proof using Hne Hdot.
  intros Hok Hp Hu Hr Ha. pose proof (size_live par s a Hok Hp Hr ltac:(lia)) as Hsize.
  destruct (get_id_run nz now u p s Hok Hp Hu) as (id & Hrun & Hid & Halloc & Hcase);
    [fold par; rewrite (r_last _ _ _ Hr); lia|].
  fold par in Hrun, Halloc, Hcase. rewrite (r_last _ _ _ Hr), (r_ids _ _ _ Hr u Hu) in Hcase.
  apply (spec_get_picks par s a u id Hok Hp Hr) in Hcase. subst id.
  eexists. split_and!; [exact Hrun| |by apply recorded_refines|].
  - apply (get_id_ids_ok nz now u p s); [done..|]. intros j Hj.
    apply (live_refines par s a) in Hj; [|done..]. unfold spec_get. by rewrite Hj.
  - intros par' a' Hp' Hn Hr'. apply (refines_frame par' s); [done..| |]; cbn [dir].
    + intros v Hv. rewrite lookup_recorded_other; [done..|by left|congruence|congruence].
    + apply lookup_recorded_other; [done..|by right|congruence|congruence].
Qed.

Lemma holds_same file file' i : same_number (Some file') (Some file) → holds file i → holds file' i.
Proof using Type. intros [[= Ec] [= Ew]] (H1 & H2 & H3). by rewrite <- Ec in H1; rewrite <- Ew in H2. Qed.

(** [purge] of an entity keeps the invariant and the zones of other parents. *)
Lemma purge_refines_zone nz now u p s a (par := zone nz p) :
  ids_ok s → ok_zone par → ok_name u → refines par s a →
  ∃ s', purge component nz now u p s = (Ok tt, s') ∧ ids_ok s' ∧
    (∀ par' a', ok_zone par' → (par' = [] ∨ par' ≠ zone nz u) → refines par' s a' → refines par' s' a').
Proof using Hne Hdot.
  intros Hok Hp Hu Hr. destruct (purge_run nz now u p s Hok Hp Hu) as (s' & Hrun & Hsame & Hold & Hlive' & Hlive).
  fold par in Hsame, Hlive', Hlive. exists s'. split; [done|]. split.
  - split.
    + intros par' v file' Hp' Hv Hf'. apply Hold in Hf' as (file & Hf & Hs).
      destruct (files_ok s Hok par' v file Hp' Hv Hf) as [i Hi]. exists i. by eapply holds_same.
    + intros par' i v Hp' Hl.
      assert (live component par' s !! i = Some v ∧ (par', v) ≠ (par, u)) as [Hl0 Hn].
      { destruct (decide (par' = par)) as [->|Hn].
        - rewrite Hlive, (r_ids _ _ _ Hr u Hu) in Hl. destruct (a_ids a !! u) as [j|] eqn:Ej.
          + apply lookup_delete_Some in Hl as [Hj Hl]. split; [done|]. intros [= ->].
            apply (live_refines par s a) in Hl; [|done..]. congruence.
          + split; [done|]. intros [= ->]. apply (live_refines par s a) in Hl; [|done..]. congruence.
        - rewrite Hlive' in Hl by congruence. split; [done|congruence]. }
      destruct (live_ok s Hok par' i v Hp' Hl0) as (Hv & file & Hf & Hh). split; [done|]. exists file.
      rewrite (proj2 (Hsame par' v Hp' (or_introl Hv)
        ltac:(intros [E _]; subst v; by apply not_last_LAST)) Hn). done.
  - intros par' a' Hp' Hn Hr'. apply (refines_frame par' s); [done..| |].
    + intros v Hv. apply Hsame; [done|by left|]. intros [-> _]. by apply not_last_LAST.
    + apply Hsame; [done|by right| |intros [= _ E]; rewrite <- E in Hu; by apply not_last_LAST in Hu].
      intros (_ & ? & ?). tauto.
Qed.

(** ** Runs *)

Definition alloc_of (A : gmap str Alloc) (z : str) : Alloc := default (mkAlloc 0 ∅) (A !! z).

(** The answers of the allocators. *)
Fixpoint spec_run (nz : NumberingZone) (A : gmap str Alloc) (rs : list request) : list (str * str * Z) :=
  match rs with
  | [] => []
  | Get u p :: rs' =>
      let z := zone nz p in
      let '(i, a) := spec_get u (alloc_of A z) in
      (z, u, i) :: spec_run nz (<[z := a]> A) rs'
  | _ :: rs' => spec_run nz A rs'
  end.

(** The requests of one run of the application over the zones [zs], none of which
    loses its parent. *)
Definition request_ok (nz : NumberingZone) (zs : gset str) (r : request) : Prop :=
  match r with
  | Get u p => ok_name u ∧ zone nz p ∈ zs
  | Purge u p => ok_name u ∧ zone nz p ∈ zs ∧ (zone nz u = [] ∨ zone nz u ∉ zs)
  | Restart _ => False
  end.

Lemma alloc_of_insert A z a z' : alloc_of (<[z := a]> A) z' = if decide (z = z') then a else alloc_of A z'.
Proof using Type. unfold alloc_of. case_decide; [subst; by rewrite lookup_insert_eq|by rewrite lookup_insert_ne]. Qed.

Lemma spec_get_last u a : a_last a ≤ a_last (spec_get u a).2 ≤ a_last a + 1.
Proof using Type. unfold spec_get. destruct (a_ids a !! u); cbn; lia. Qed.

(** Over any run, every zone answers as its allocator does. *)
Lemma run_refines nz zs now rs s A :
  (∀ z, z ∈ zs → ok_zone z) → Forall (request_ok nz zs) rs → ids_ok s →
  (∀ z, z ∈ zs → refines z s (alloc_of A z)) →
  (∀ z, z ∈ zs → 0 ≤ a_last (alloc_of A z) ∧ a_last (alloc_of A z) + Z.of_nat (length rs) < 2 ^ 62) →
  ∃ s', run component nz now rs s = (Ok (spec_run nz A rs), s') ∧ ids_ok s'.
Proof using Hne Hdot.
  intros Hzs. revert now s A. induction rs as [|r rs IH]; intros now s A Hrs Hok Hr Hb.
  { by exists s. }
  apply list.Forall_cons in Hrs as [Hreq Hrs]. cbn [length] in Hb.
  destruct r as [u p|u p|outdated]; [| |done]; cbn [run spec_run].
  - destruct Hreq as [Hu Hz].
    destruct (get_id_refines_zone nz now u p s (alloc_of A (zone nz p))) as (s1 & E & Hok1 & Hr1 & Hr1');
      [by auto..|specialize (Hb _ Hz); lia|].
    pose proof (spec_get_last u (alloc_of A (zone nz p))) as Hlast.
    destruct (spec_get u (alloc_of A (zone nz p))) as [i a] eqn:Es. cbn [fst snd] in *.
    destruct (IH (now + 1) s1 (<[zone nz p := a]> A)) as (s2 & E2 & Hok2); [done..| | |].
    + intros z Hzz. rewrite alloc_of_insert. case_decide as Heq; [by subst z|]. apply Hr1'; auto.
    + intros z Hzz. rewrite alloc_of_insert. specialize (Hb _ Hzz). case_decide; [subst z|]; lia.
    + exists s2. split; [|done].
      assert ((id ← get_id component nz now u p; mret [(zone nz p, u, id)]) s = (Ok [(zone nz p, u, i)], s1)) as E1
        by (rewrite (bind_run _ _ _ _ _ E); done).
      rewrite (bind_run _ _ _ _ _ E1). rewrite (bind_run _ _ _ _ _ E2). done.
  - destruct Hreq as (Hu & Hz & Hn).
    destruct (purge_refines_zone nz now u p s (alloc_of A (zone nz p))) as (s1 & E & Hok1 & Hr1); [by auto..|].
    destruct (IH (now + 1) s1 A) as (s2 & E2 & Hok2); [done..| | |].
    + intros z Hzz. apply Hr1; [auto| |auto]. destruct Hn as [->|Hn]; [|right; congruence].
      destruct (decide (z = [])); auto.
    + intros z Hzz. specialize (Hb _ Hzz). lia.
    + exists s2. split; [|done].
      assert ((purge component nz now u p ;; mret []) s = (Ok ([] : list (str * str * Z)), s1)) as E1
        by (rewrite (bind_run _ _ _ _ _ E); done).
      rewrite (bind_run _ _ _ _ _ E1). rewrite (bind_run _ _ _ _ _ E2). done.
Qed.

End policy.

(** ** The allocator never answers two ways *)

Definition alloc_ok (a : Alloc) : Prop :=
  (∀ u i, a_ids a !! u = Some i → i ≤ a_last a) ∧
  (∀ u v i, a_ids a !! u = Some i → a_ids a !! v = Some i → u = v).

Lemma spec_get_ok u a :
  alloc_ok a → alloc_ok (spec_get u a).2 ∧ a_ids (spec_get u a).2 !! u = Some (spec_get u a).1 ∧
    a_ids a ⊆ a_ids (spec_get u a).2.
Proof.
  intros [Hb Hi]. unfold spec_get. destruct (a_ids a !! u) as [i|] eqn:Eu; cbn; [done|].
  split_and!; [split; cbn|by rewrite lookup_insert_eq|by apply insert_subseteq].
  - intros v j [[<- <-]|[_ Hv]]%lookup_insert_Some; [lia|]. apply Hb in Hv. lia.
  - intros v w j [[<- <-]|[? Hv]]%lookup_insert_Some [[<- Hj]|[? Hw]]%lookup_insert_Some; [done| | |].
    + apply Hb in Hw. lia.
    + apply Hb in Hv. lia.
    + by eapply Hi.
Qed.

Lemma spec_run_table nz A rs :
  (∀ z, alloc_ok (alloc_of A z)) →
  ∃ A', (∀ z, alloc_ok (alloc_of A' z)) ∧ (∀ z, a_ids (alloc_of A z) ⊆ a_ids (alloc_of A' z)) ∧
    ∀ z u i, (z, u, i) ∈ spec_run nz A rs → a_ids (alloc_of A' z) !! u = Some i.
Proof.
  revert A. induction rs as [|r rs IH]; intros A HA.
  { exists A. split_and!; [done|done|]. by intros z u i ?%elem_of_nil. }
  destruct r as [u p|u p|outdated]; cbn [spec_run]; [|by apply IH..].
  destruct (spec_get_ok u (alloc_of A (zone nz p)) (HA _)) as (Hok & Hget & Hsub).
  destruct (spec_get u _) as [i a]. cbn [fst snd] in *.
  destruct (IH (<[zone nz p := a]> A)) as (A' & HA' & Hsub' & Hin).
  { intros z. rewrite alloc_of_insert. by case_decide. }
  assert (∀ z, a_ids (alloc_of A z) ⊆ a_ids (alloc_of A' z)) as Hall.
  { intros z. etrans; [|apply Hsub']. rewrite alloc_of_insert. case_decide; by subst. }
  exists A'. split_and!; [done|done|]. intros z v j [[= -> -> ->]|Hj]%list.elem_of_cons; [|by apply Hin].
  eapply lookup_weaken; [exact Hget|]. specialize (Hsub' (zone nz p)). rewrite alloc_of_insert in Hsub'.
  by rewrite decide_True in Hsub'.
Qed.

Lemma refines_empty component par : refines component par empty_store (mkAlloc 0 ∅).
Proof.
  assert (∀ u, stored component par u (dir empty_store) = None) as Hn.
  { intros u. unfold stored, get_value, db_get, read_file. by destruct (full_name _ _). }
  split; cbn [a_ids a_last].
  - intros u _. by rewrite Hn, lookup_empty.
  - intros u i. by rewrite lookup_empty.
  - intros u v i. by rewrite lookup_empty.
  - unfold last_stored. by rewrite Hn.
  - by left.
Qed.

Lemma ids_ok_empty component : ids_ok component empty_store.
Proof.
  split.
  - intros par u file _ _. cbn. by rewrite lookup_empty.
  - intros par i u _. unfold live, memoizer. cbn. by rewrite !lookup_empty.
Qed.



(** Across a restart the ids are not stable.  Drives [a], [b] and [c] have the ids
    1, 2 and 3.  After a restart [a] is found first, then a new drive [d]: since all records
    are invalidated at the start, [get_id] replaces the last id by the 1 of [a], [d] is
    given the 2 that is stored for [b], and [b] comes back as 4. *)
Theorem restart_changes_id :
  (run (lit "Drive") PARENT_SPACE 100
    [Get (lit "a") (lit "p"); Get (lit "b") (lit "p"); Get (lit "c") (lit "p"); Restart 3600;
     Get (lit "a") (lit "p"); Get (lit "d") (lit "p"); Get (lit "b") (lit "p"); Get (lit "c") (lit "p")]
    empty_store).1
  = Ok [(lit "p", lit "a", 1); (lit "p", lit "b", 2); (lit "p", lit "c", 3);
        (lit "p", lit "a", 1); (lit "p", lit "d", 2); (lit "p", lit "b", 4); (lit "p", lit "c", 3)].
Proof. vm_compute. reflexivity. Qed.

(** When a resource that is numbered globally is removed, the last ids of its
    children stay valid, of whatever component they are. *)
Lemma shared_parent_invalidates_nothing now u s :
  ∃ k s', invalidate_last SHARED now u s = (Ok k, s') ∧
    ∀ c par v, ok_name c → ok_zone par → ok_entity v →
      dir s' !! key_file c par v = dir s !! key_file c par v.
Proof.
  unfold invalidate_last, on_dir.
  destruct (cleanup_acts now all_databases (last_key_of (zone SHARED u)) NEVER (dir s)) as (k & d1 & -> & Hd1).
  exists k. eexists. split; [done|]. intros c par v [[Hne _] [Hdot _]] Hp Hv. cbn [dir]. rewrite Hd1.
  destruct (selects _ _ _) eqn:Hs.
  - by apply selects_last in Hs as (_ & -> & ?).
  - by destruct (dir s !! key_file c par v).
Qed.

(** With the interval [NEVER] an invalid entry is outdated at once: the sum with
    the time of the file overflows. *)
Lemma never_is_outdated now file :
  0 ≤ now → 0 < ctim file < 2 ^ 62 → iwgrp file = true → isvtx file = false →
  entry_validity now NEVER true file = OUTDATED.
Proof.
  intros Hn Hc Hw Hv. unfold entry_validity. rewrite Hw, Hv. cbn [andb negb].
  rewrite (proj2 (Z.leb_le _ _)); [done|]. unfold add_signed, NEVER.
  replace (ctim file + (2 ^ 63 - 1) + 2 ^ 63) with (ctim file - 1 + 1 * 2 ^ 64) by lia.
  rewrite Z.mod_add by lia. rewrite Z.mod_small by lia. lia.
Qed.

End IdPolicy.
