(* ===== verification/Sessions.v ===== *)
(** Who is let in (PSME/application: rest/security, the session endpoints and the
    authentication of rest/server/connector).

    [SessionManager], [SessionServiceManager] and [AccountManager] with their
    operations, the endpoints that create and delete sessions and set the
    timeout, the two kinds of authentication, and the callback that decides
    whether a request reaches its handler.  Texts are lists of characters.  Time is the
    steady clock in nanoseconds, an argument of the operations.  Parameters: the key
    derivation of the crypto library, the check of a client certificate, the
    fresh token, the credentials and headers the HTTP library extracts.

    Theorems: the search for a free id ends and finds one while one
    is left ([update_next_id_total]); a configured account accepts
    exactly the passwords with its digest; over any history only the
    holder of a token that was handed out for valid credentials to the same origin,
    and was neither deleted nor left unused for longer than the timeout, is
    authenticated; the callback serves no other requests. *)

From Stdlib Require Import ZArith Lia Ascii.
From stdpp Require Import sorting.
From S2P Require Import Prelude Database.

Import Database.
Local Open Scope Z_scope.

Module Sessions.

(** ** utils: hexadecimal texts *)

Definition char_code (c : ascii) : Z := Z.of_N (N_of_ascii c).
Definition code_char (n : Z) : ascii := ascii_of_N (Z.to_N (n mod 256)).

Definition hex_char (d : Z) : ascii := code_char (if d <? 10 then 48 + d else 55 + d).

Definition string_to_hex_string (s : str) : str :=
  s ≫= λ c, [hex_char (char_code c / 16); hex_char (char_code c mod 16)].

Definition hex_digit (c : ascii) : option Z :=
  let n := char_code c in
  if (48 <=? n) && (n <=? 57) then Some (n - 48)
  else if (65 <=? n) && (n <=? 70) then Some (n - 55)
  else if (97 <=? n) && (n <=? 102) then Some (n - 87)
  else None.

Fixpoint hex_digits (s : str) (acc : Z) : Z :=
  match s with
  | c :: s' => match hex_digit c with Some d => hex_digits s' (16 * acc + d) | None => acc end
  | [] => acc
  end.

(** [ss >> std::hex >> int]: zero when there is no number. *)
Definition read_hex (s : str) : Z :=
  match skip_spaces s with
  | c :: s' => if bool_decide (c = "-"%char) then - hex_digits s' 0
               else if bool_decide (c = "+"%char) then hex_digits s' 0
               else hex_digits (c :: s') 0
  | [] => 0
  end.

Fixpoint hex_string_to_string (s : str) : str :=
  match s with
  | a :: b :: s' => code_char (read_hex [a; b]) :: hex_string_to_string s'
  | [a] => [code_char (read_hex [a])]
  | [] => []
  end.

Definition toupper (c : ascii) : ascii :=
  let n := char_code c in if (97 <=? n) && (n <=? 122) then code_char (n - 32) else c.

(** ** A free id *)

(** The [while] of [update_next_id]: the new value of [m_id]. *)
Fixpoint next_id {A} (fuel : nat) (m : gmap Z A) (old_id m_id : Z) : result unit * Z :=
  match fuel with
  | O => (Throw out_of_fuel, m_id)
  | S fuel' =>
      let m_id := wrap 64 (m_id + 1) in
      if bool_decide (m !! m_id = None) then (Ok tt, m_id)
      else if m_id =? old_id then (Throw invalid_value, m_id)
      else next_id fuel' m old_id m_id
  end.

Definition update_next_id {A} (m : gmap Z A) (m_id : Z) : result unit * Z :=
  next_id (S (size m)) m m_id m_id.

(** ** Sessions *)

Record Session := mkSession {
  s_id : Z;
  s_user_name : str;
  s_token : str;
  s_origin : str;
  s_last_used : Z;
}.

(** [Session::from_json], with the origin the endpoint sets. *)
Definition session0 (user_name origin : str) : Session := mkSession 0 user_name [] origin 0.

Record SessionManager := mkSessionManager { m_sessions : gmap Z Session; m_id : Z }.
Record SessionServiceManager := mkService { m_session_timeout : Z; m_service_enabled : bool }.

(** A duration in seconds, in the unit of the clock. *)
Definition seconds (n : Z) : Z := n * 1000000000.

Definition is_valid (now timeout : Z) (s : Session) : bool := now <=? s_last_used s + seconds timeout.

Definition get_session (session_id : Z) (m : SessionManager) : result Session :=
  match m_sessions m !! session_id with Some s => Ok s | None => Throw not_found end.

Definition add_session (now : Z) (token : str) (session : Session) : M SessionManager Z :=
  m ← get;
  let '(r, id) := update_next_id (m_sessions m) (m_id m) in
  put (mkSessionManager (m_sessions m) id) ;;
  lift r ;;
  put (mkSessionManager
    (<[id := mkSession id (s_user_name session) token (s_origin session) now]> (m_sessions m)) id) ;;
  mret id.

Definition del_session (session_id : Z) : M SessionManager unit :=
  m ← get;
  match m_sessions m !! session_id with
  | None => throw not_found
  | Some _ => put (mkSessionManager (delete session_id (m_sessions m)) (m_id m))
  end.

Definition remove_outdated_sessions (now timeout : Z) : M SessionManager unit :=
  m ← get;
  put (mkSessionManager
    (filter (λ p, ¬ s_last_used p.2 + seconds timeout < now) (m_sessions m)) (m_id m)).

(** The entries of a [std::map], by key. *)
Definition key_le {A} (a b : Z * A) : Prop := a.1 ≤ b.1.

#[global] Instance key_le_dec {A} : RelDecision (@key_le A).
Proof. intros a b. unfold key_le. apply _. Defined.

Definition in_order {A} (m : gmap Z A) : list (Z * A) := merge_sort key_le (map_to_list m).

Definition find_session (token http_origin : str) (m : gmap Z Session) : option (Z * Session) :=
  list.head (filter (λ p, s_token p.2 = token ∧ s_origin p.2 = http_origin) (in_order m)).

Definition is_session_valid (now timeout : Z) (token http_origin : str) : M SessionManager bool :=
  m ← get;
  match find_session token http_origin (m_sessions m) with
  | Some (id, s) =>
      if is_valid now timeout s then
        put (mkSessionManager
          (<[id := mkSession (s_id s) (s_user_name s) (s_token s) (s_origin s) now]> (m_sessions m)) (m_id m)) ;;
        mret true
      else put (mkSessionManager (delete id (m_sessions m)) (m_id m)) ;; mret false
  | None => mret false
  end.

(** ** Accounts *)

Record Account := mkAccount {
  a_id : Z;
  a_user_name : str;
  a_password_hash : str;
  a_enabled : bool;
  a_locked : bool;
}.

Record AccountManager := mkAccountManager { m_accounts : gmap Z Account; a_m_id : Z }.

Definition add_account (account : Account) : M AccountManager Z :=
  m ← get;
  let '(r, id) := update_next_id (m_accounts m) (a_m_id m) in
  put (mkAccountManager (m_accounts m) id) ;;
  lift r ;;
  put (mkAccountManager
    (<[id := mkAccount id (a_user_name account) (a_password_hash account) (a_enabled account) (a_locked account)]>
      (m_accounts m)) id) ;;
  mret id.

Definition get_account (account_id : Z) (m : AccountManager) : result Account :=
  match m_accounts m !! account_id with Some a => Ok a | None => Throw not_found end.

Definition accounts0 : AccountManager := mkAccountManager ∅ 0.

(** The constructor, from the configuration. *)
Definition AccountManager_new (user_name password_hash : str) : result unit * AccountManager :=
  if bool_decide (user_name = []) then (Ok tt, accounts0)
  else (_ ← add_account (mkAccount 0 user_name password_hash true false); mret tt) accounts0.

Definition SALT_SIZE : nat := 16.
Definition KEY_SIZE : nat := 64.

Section authentication.

(** [utils::salted_hash password salt], the PBKDF2 of the crypto library. *)
Context (salted_hash : str → str → str).

Definition calculate_hash (password salt : str) : str := string_to_hex_string (salted_hash password salt).

Definition account_accepts (user_name password : str) (a : Account) : bool :=
  let salt_and_hash := toupper <$> a_password_hash a in
  let salt_size := (SALT_SIZE * 2)%nat in
  let hash_size := (KEY_SIZE * 2)%nat in
  let salt := substr 0 salt_size salt_and_hash in
  let password_hash := substr salt_size hash_size salt_and_hash in
  bool_decide (a_user_name a = user_name) &&
  bool_decide (password_hash = calculate_hash password (hex_string_to_string salt)).

(** [std::find_if]; [substr] with a position past the end throws. *)
Fixpoint find_account (user_name password : str) (l : list (Z * Account)) : result bool :=
  match l with
  | [] => Ok false
  | (_, a) :: l' =>
      if (length (a_password_hash a) <? SALT_SIZE * 2)%nat then Throw out_of_range
      else if account_accepts user_name password a then Ok true else find_account user_name password l'
  end.

Definition validate_credentials (user_name password : str) (m : AccountManager) : result bool :=
  if bool_decide (user_name = []) then Ok false
  else find_account user_name password (in_order (m_accounts m)).

(** ** The endpoints *)

Record Security := mkSecurity {
  sessions : SessionManager;
  service : SessionServiceManager;
  accounts : AccountManager;
}.

Definition on_sessions {A} (m : M SessionManager A) : M Security A :=
  zoom sessions (λ t s, mkSecurity t (service s) (accounts s)) m.

(** The response to a new session: its id and token. *)
Definition post_session (now : Z) (token : str) (user_name password : option str) (origin : str)
    : M Security (Z * str) :=
  s ← get;
  if negb (m_service_enabled (service s)) then throw (server_exception 400)
  else
    match password, user_name with
    | Some password, Some user_name =>
        valid ← lift (validate_credentials user_name password (accounts s));
        if valid : bool then
          id ← on_sessions (add_session now token (session0 user_name origin));
          s ← get;
          new_session ← lift (get_session id (sessions s));
          mret (id, s_token new_session)
        else throw (server_exception 401)
    | _, _ => throw (server_exception 401)
    end.

Definition delete_session (session_id : Z) : M Security unit :=
  s ← get;
  if negb (m_service_enabled (service s)) then throw (server_exception 400)
  else on_sessions (del_session session_id).

(** The range of the timeout is checked by the schema of the request. *)
Definition patch_service (service_enabled : option bool) (session_timeout : option Z) : M Security unit :=
  match session_timeout with
  | Some t => if (30 <=? t) && (t <=? 86400) then mret tt else throw (server_exception 400)
  | None => mret tt
  end ;;
  modify (λ s, mkSecurity (sessions s)
    (mkService (default (m_session_timeout (service s)) session_timeout)
               (default (m_service_enabled (service s)) service_enabled)) (accounts s)).

(** [SessionService::handle_sessions], one turn. *)
Definition cleanup_sessions (now : Z) : M Security unit :=
  s ← get;
  on_sessions (remove_outdated_sessions now (m_session_timeout (service s))).

(** ** Authentication of a request *)

Inductive AuthenticationType := NONE | BASIC_AUTH | REDFISH_SESSION_AUTH | BASIC_AUTH_OR_REDFISH_SESSION_AUTH.

(** What the HTTP library gives of a connection. *)
Record Connection := mkConnection {
  c_basic : option str * option str;   (** user and password of the basic scheme *)
  c_token : str;                       (** [X-Auth-Token], empty when absent *)
  c_origin : str;                      (** [Origin], empty when absent *)
}.

Inductive Authentication := BasicAuthentication | SessionAuthentication.

Definition new_authentication (type : AuthenticationType) : list Authentication :=
  match type with
  | REDFISH_SESSION_AUTH => [SessionAuthentication]
  | BASIC_AUTH => [BasicAuthentication]
  | BASIC_AUTH_OR_REDFISH_SESSION_AUTH => [BasicAuthentication; SessionAuthentication]
  | NONE => []
  end.

Definition is_nil {A} (l : list A) : bool := match l with [] => true | _ => false end.

Definition credentials_valid (c : Connection) : M Security bool :=
  s ← get;
  match c_basic c with
  | (Some user, Some pass) => lift (validate_credentials user pass (accounts s))
  | _ => mret false
  end.

(** [true] for [AuthStatus::SUCCESS]. *)
Definition perform (now : Z) (a : Authentication) (c : Connection) : M Security bool :=
  match a with
  | BasicAuthentication => credentials_valid c
  | SessionAuthentication =>
      s ← get;
      on_sessions (is_session_valid now (m_session_timeout (service s)) (c_token c) (c_origin c))
  end.

Fixpoint authenticate (now : Z) (as_ : list Authentication) (c : Connection) : M Security bool :=
  match as_ with
  | [] => mret false
  | a :: as' =>
      status ← perform now a c;
      if status : bool then mret true else authenticate now as' c
  end.

(** [unauthenticated_access_feasible]: an exception of the callback counts as no. *)
Definition unauthenticated_access_feasible (public : result bool) : bool :=
  match public with Ok b => b | Throw _ => false end.

Record Options := mkOptions {
  o_authentication : AuthenticationType;
  o_client_cert_required : bool;
}.

(** The last call of [access_handler_callback] for a request, when the body is
    complete: [true] when the request is given to [Connector::handle], [false] when
    the answer is the 401 of an authentication. *)
Definition access_handler_callback (now : Z) (o : Options) (cert_ok : bool) (public : result bool)
    (c : Connection) : M Security bool :=
  if o_client_cert_required o && negb cert_ok then mret false
  else
    let m_authentication := new_authentication (o_authentication o) in
    if negb (unauthenticated_access_feasible public) && negb (is_nil m_authentication) then
      authenticate now m_authentication c
    else mret true.

(** ** Histories *)

Inductive event :=
  | Post (now : Z) (token : str) (user_name password : option str) (origin : str)
  | Delete (session_id : Z)
  | Patch (service_enabled : option bool) (session_timeout : option Z)
  | Cleanup (now : Z)
  | Request (now : Z) (o : Options) (cert_ok : bool) (public : result bool) (c : Connection).

(** What came of an event: the id for a new session; whether a request is served. *)
Inductive outcome := Done (id : Z) | Denied.

Definition step (e : event) (s : Security) : outcome * Security :=
  match e with
  | Post now token user_name password origin =>
      match post_session now token user_name password origin s with
      | (Ok (id, _), s') => (Done id, s')
      | (Throw _, s') => (Denied, s')
      end
  | Delete session_id =>
      match delete_session session_id s with (Ok _, s') => (Done 0, s') | (Throw _, s') => (Denied, s') end
  | Patch service_enabled session_timeout =>
      match patch_service service_enabled session_timeout s with
      | (Ok _, s') => (Done 0, s') | (Throw _, s') => (Denied, s') end
  | Cleanup now =>
      match cleanup_sessions now s with (Ok _, s') => (Done 0, s') | (Throw _, s') => (Denied, s') end
  | Request now o cert_ok public c =>
      match access_handler_callback now o cert_ok public c s with
      | (Ok true, s') => (Done 0, s') | (_, s') => (Denied, s') end
  end.

(** The application starts with the accounts of the configuration and no session. *)
Inductive reachable (acc : AccountManager) : list (event * outcome) → Security → Prop :=
  | reachable_start svc : reachable acc [] (mkSecurity (mkSessionManager ∅ 0) svc acc)
  | reachable_step h s e r s' :
      reachable acc h s → step e s = (r, s') → reachable acc (h ++ [(e, r)]) s'.

End authentication.

(** ** The search for a free id *)

Lemma next_id_walk {A} (m : gmap Z A) old k fuel :
  in_range 64 old → (k ≤ fuel)%nat →
  (∀ j, (1 ≤ j ≤ k)%nat → is_Some (m !! wrap 64 (old + Z.of_nat j)) ∧ wrap 64 (old + Z.of_nat j) ≠ old) →
  next_id fuel m old old = next_id (fuel - k) m old (wrap 64 (old + Z.of_nat k)).
Proof.
  intros Ho. induction k as [|k IH]; intros Hk Hj.
  { rewrite Z.add_0_r, wrap_small, Nat.sub_0_r by done. done. }
  rewrite IH by (lia || (intros j ?; apply Hj; lia)).
  replace (fuel - k)%nat with (S (fuel - S k)) by lia. cbn [next_id].
  replace (wrap 64 (wrap 64 (old + Z.of_nat k) + 1)) with (wrap 64 (old + Z.of_nat (S k)))
    by (unfold wrap; rewrite Z.add_mod_idemp_l by lia; f_equal; lia).
  destruct (Hj (S k)) as [[x Hx] Hne]; [lia|]. rewrite bool_decide_false by (by rewrite Hx).
  by rewrite (proj2 (Z.eqb_neq _ _)).
Qed.

Lemma wrap_add_inj old i j :
  wrap 64 (old + i) = wrap 64 (old + j) → 0 ≤ i ≤ 2 ^ 64 → 0 ≤ j ≤ 2 ^ 64 → Z.abs (i - j) < 2 ^ 64 → i = j.
Proof.
  unfold wrap. intros E Hi Hj Hd.
  pose proof (Z.div_mod (old + i) (2 ^ 64) ltac:(lia)). pose proof (Z.div_mod (old + j) (2 ^ 64) ltac:(lia)).
  rewrite E in *. nia.
Qed.

(** While an id is left the search ends with one that is not in use; else it throws. *)
Lemma update_next_id_total {A} (m : gmap Z A) old :
  in_range 64 old →
  (Z.of_nat (size m) < 2 ^ 64 →
    ∃ id, update_next_id m old = (Ok tt, id) ∧ in_range 64 id ∧ m !! id = None) ∧
  ((∀ id, in_range 64 id → is_Some (m !! id)) → update_next_id m old = (Throw invalid_value, old)).
Proof.
  intros Ho. unfold update_next_id.
  assert (∀ k, 0 < k < 2 ^ 64 → wrap 64 (old + k) ≠ old) as Hother.
  { intros k Hk E. assert (k = 0); [|lia].
    apply (wrap_add_inj old k 0); [|lia..]. rewrite Z.add_0_r. by rewrite (wrap_small 64 old). }
  split.
  - intros Hs. destruct (first_free m (λ k, wrap 64 (old + Z.of_nat (S k)))) as (k & Hk & Hnone & Hlt).
    { intros i j Hi Hj E. apply wrap_add_inj in E; lia. }
    exists (wrap 64 (old + Z.of_nat (S k))). split; [|split; [apply wrap_range; lia|done]].
    rewrite (next_id_walk m old k).
    + replace (S (size m) - k)%nat with (S (size m - k)) by lia. cbn [next_id].
      replace (wrap 64 (wrap 64 (old + Z.of_nat k) + 1)) with (wrap 64 (old + Z.of_nat (S k)))
        by (unfold wrap; rewrite Z.add_mod_idemp_l by lia; f_equal; lia).
      by rewrite bool_decide_true.
    + done.
    + lia.
    + intros j Hj. split; [|apply Hother; lia].
      replace (Z.of_nat j) with (Z.of_nat (S (j - 1))) by lia. apply Hlt. lia.
  - intros Hall.
    assert (2 ^ 64 ≤ Z.of_nat (size m)) as Hs.
    { destruct (Z.lt_ge_cases (Z.of_nat (size m)) (2 ^ 64)) as [Hlt|]; [|done]. exfalso.
      destruct (first_free m (λ k, wrap 64 (0 + Z.of_nat k))) as (k & Hk & Hnone & _).
      { intros i j Hi Hj E. apply wrap_add_inj in E; lia. }
      destruct (Hall (wrap 64 (0 + Z.of_nat k))) as [x Hx]; [apply wrap_range; lia|]. congruence. }
    set (n := Z.to_nat (2 ^ 64 - 1)). rewrite (next_id_walk m old n); [|done|lia|].
    + replace (S (size m) - n)%nat with (S (size m - n)) by lia. cbn [next_id].
      replace (wrap 64 (wrap 64 (old + Z.of_nat n) + 1)) with old.
      * destruct (Hall old Ho) as [x Hx]. rewrite bool_decide_false by (by rewrite Hx). by rewrite Z.eqb_refl.
      * unfold wrap. rewrite Z.add_mod_idemp_l by lia.
        replace (old + Z.of_nat n + 1) with (old + 1 * 2 ^ 64) by lia.
        rewrite Z.mod_add by lia. symmetry. apply Z.mod_small, Ho.
    + intros j Hj. split; [apply Hall, wrap_range; lia|apply Hother; lia].
Qed.

(** ** Hexadecimal texts *)

Lemma char_code_range c : 0 ≤ char_code c < 256.
Proof. unfold char_code. pose proof (N_ascii_bounded c). lia. Qed.

Lemma code_char_code c : code_char (char_code c) = c.
Proof.
  pose proof (char_code_range c). unfold code_char, char_code in *.
  by rewrite Z.mod_small, N2Z.id, ascii_N_embedding by lia.
Qed.

Lemma nibbles c : 0 ≤ char_code c / 16 < 16 ∧ 0 ≤ char_code c mod 16 < 16.
Proof. pose proof (char_code_range c). split; dlia. Qed.

(** The digits are read back; none is a blank or a sign. *)
Lemma hex_char_facts d :
  0 ≤ d < 16 →
  hex_digit (hex_char d) = Some d ∧ toupper (hex_char d) = hex_char d ∧ is_space (hex_char d) = false ∧
  hex_char d ≠ "-"%char ∧ hex_char d ≠ "+"%char.
Proof.
  intros Hd. assert (d ∈ seqZ 0 16) as Hin by (apply elem_of_seqZ; lia). clear Hd.
  revert d Hin. apply list.Forall_forall. 
  repeat (apply Forall_cons_2 || apply Forall_nil_2 || split_and!); by vm_compute.
Qed.

Lemma read_hex_pair x y : 0 ≤ x < 16 → 0 ≤ y < 16 → read_hex [hex_char x; hex_char y] = 16 * x + y.
Proof.
  intros (Hx1 & _ & Hx2 & Hx3 & Hx4)%hex_char_facts (Hy1 & _)%hex_char_facts.
  unfold read_hex. cbn [skip_spaces]. rewrite Hx2, !bool_decide_false by done.
  cbn [hex_digits]. rewrite Hx1, Hy1. lia.
Qed.

Lemma hex_roundtrip s : hex_string_to_string (string_to_hex_string s) = s.
Proof.
  induction s as [|c s IH]; [done|]. cbn. f_equal; [|apply IH].
  destruct (nibbles c). rewrite read_hex_pair by done.
  rewrite <- Z.div_mod by lia. apply code_char_code.
Qed.

Lemma length_hex s : length (string_to_hex_string s) = (2 * length s)%nat.
Proof. induction s as [|c s IH]; [done|]. cbn in *. unfold string_to_hex_string in IH. rewrite IH. lia. Qed.

Lemma toupper_hex s : toupper <$> string_to_hex_string s = string_to_hex_string s.
Proof.
  induction s as [|c s IH]; [done|]. destruct (nibbles c) as [Hd Hm].
  change (string_to_hex_string (c :: s)) with
    (hex_char (char_code c / 16) :: hex_char (char_code c mod 16) :: string_to_hex_string s).
  rewrite !fmap_cons, IH. by rewrite (proj1 (proj2 (hex_char_facts _ Hd))), (proj1 (proj2 (hex_char_facts _ Hm))).
Qed.

Lemma hex_inj s t : string_to_hex_string s = string_to_hex_string t → s = t.
Proof. intros E. by rewrite <- (hex_roundtrip s), E, hex_roundtrip. Qed.

(** ** The entries of a map in order *)

Lemma elem_of_in_order {A} (m : gmap Z A) i x : (i, x) ∈ in_order m ↔ m !! i = Some x.
Proof. unfold in_order. rewrite merge_sort_Permutation. apply elem_of_map_to_list. Qed.

Lemma in_order_singleton {A} i (x : A) : in_order ({[ i := x ]} : gmap Z A) = [(i, x)].
Proof. unfold in_order. by rewrite map_to_list_singleton. Qed.

Lemma find_session_Some token origin m i s :
  find_session token origin m = Some (i, s) → m !! i = Some s ∧ s_token s = token ∧ s_origin s = origin.
Proof.
  unfold find_session. intros E. apply head_Some_elem_of in E. apply list_elem_of_filter in E as [[Ht Ho] E].
  by apply elem_of_in_order in E.
Qed.

Lemma find_session_None token origin m i s :
  find_session token origin m = None → m !! i = Some s → s_token s = token → s_origin s = origin → False.
Proof.
  unfold find_session. intros E Hi Ht Ho. apply head_None in E.
  assert ((i, s) ∈ filter (λ p, s_token p.2 = token ∧ s_origin p.2 = origin) (in_order m)) as Hin.
  { apply list_elem_of_filter. split; [done|]. by apply elem_of_in_order. }
  rewrite E in Hin. by apply elem_of_nil in Hin.
Qed.

Section facts.

Context (salted_hash : str → str → str).

(** ** Credentials *)

Lemma account_accepts_hex user salt digest u p i en lo :
  length salt = SALT_SIZE → length digest = KEY_SIZE →
  account_accepts salted_hash u p
    (mkAccount i user (string_to_hex_string salt ++ string_to_hex_string digest) en lo) =
  bool_decide (user = u ∧ salted_hash p salt = digest).
Proof using Type.
  intros Hs Hd. unfold account_accepts. cbn [a_password_hash a_user_name].
  rewrite fmap_app, !toupper_hex. unfold substr. rewrite drop_0.
  replace (SALT_SIZE * 2)%nat with (length (string_to_hex_string salt)) by (rewrite length_hex, Hs; done).
  rewrite take_app_length, drop_app_length, hex_roundtrip.
  rewrite take_ge by (rewrite length_hex, Hd; done). unfold calculate_hash.
  rewrite bool_decide_and. f_equal. apply bool_decide_ext. split; [intros E; symmetry; by apply hex_inj|by intros ->].
Qed.

(** The constructor of the account manager takes from the configuration a user name and
    the hexadecimal salt and digest.  Afterwards exactly the name with a password
    that the key derivation maps to that digest is accepted. *)
Theorem configured_account user salt digest :
  user ≠ [] → length salt = SALT_SIZE → length digest = KEY_SIZE →
  ∃ m, AccountManager_new user (string_to_hex_string salt ++ string_to_hex_string digest) = (Ok tt, m) ∧
    ∀ u p, validate_credentials salted_hash u p m = Ok (bool_decide (u = user ∧ salted_hash p salt = digest)).
Proof using Type.
  intros Hu Hs Hd. unfold AccountManager_new. rewrite bool_decide_false by done.
  eexists. split; [reflexivity|]. intros u p. unfold validate_credentials.
  case_bool_decide as Hempty.
  { rewrite bool_decide_false; [done|]. intros [-> _]. done. }
  match goal with |- context [in_order ?m] => change m with ({[ 1 := mkAccount 1 user
    (string_to_hex_string salt ++ string_to_hex_string digest) true false ]} : gmap Z Account) end.
  rewrite in_order_singleton. cbn [find_account a_password_hash].
  rewrite length_app, length_hex, Hs.
  rewrite account_accepts_hex by done. cbn.
  rewrite (bool_decide_ext (user = u ∧ salted_hash p salt = digest) (u = user ∧ salted_hash p salt = digest))
    by (split; intros [? ?]; by split).
  by destruct (bool_decide _).
Qed.

(** With a configured hash shorter than the salt (a missing one counts as empty) every
    attempt to log in ends in an exception, which the callback does not catch. *)
Lemma short_hash_throws user hash u p :
  user ≠ [] → u ≠ [] → (length hash < SALT_SIZE * 2)%nat →
  ∃ m, AccountManager_new user hash = (Ok tt, m) ∧ validate_credentials salted_hash u p m = Throw out_of_range.
Proof using Type.
  intros Hu Hn Hs. unfold AccountManager_new. rewrite bool_decide_false by done.
  eexists. split; [reflexivity|]. unfold validate_credentials. rewrite bool_decide_false by done.
  match goal with |- context [in_order ?m] =>
    change m with ({[ 1 := mkAccount 1 user hash true false ]} : gmap Z Account) end.
  rewrite in_order_singleton. cbn [find_account a_password_hash].
  by rewrite (proj2 (Nat.ltb_lt _ _)).
Qed.

(** ** Only the holder of a session is let in *)

(** The session [i] goes back to a request with valid credentials from the same
    origin, answered with this token; it was not deleted since; its last use
    is the creation or a served request with the token. *)
Definition explained (acc : AccountManager) (h : list (event * outcome)) (i : Z) (token origin : str) (last : Z) : Prop :=
  ∃ h1 h2 now user password,
    h = h1 ++ (Post now token (Some user) (Some password) origin, Done i) :: h2 ∧
    validate_credentials salted_hash user password acc = Ok true ∧
    ((Delete i, Done 0) ∉ h2) ∧
    (last = now ∨ ∃ o cert_ok public c, (Request last o cert_ok public c, Done 0) ∈ h2 ∧
      c_token c = token ∧ c_origin c = origin).

Lemma explained_app acc h e r i token origin last :
  explained acc h i token origin last → (e, r) ≠ (Delete i, Done 0) →
  explained acc (h ++ [(e, r)]) i token origin last.
Proof using Type.
  intros (h1 & h2 & now & user & pw & -> & Hv & Hd & Hlast) Hne.
  exists h1, (h2 ++ [(e, r)]), now, user, pw. split_and!; [by rewrite <- app_assoc|done| |].
  - intros [?|E%list_elem_of_singleton]%elem_of_app; congruence.
  - destruct Hlast as [?|(o & ck & pb & c & Hin & Hc)]; [by left|right]. exists o, ck, pb, c.
    split; [|done]. apply elem_of_app. by left.
Qed.

(** A served request counts as the last use. *)
Lemma explained_used acc h i token origin last now o ck pb c :
  explained acc h i token origin last → c_token c = token → c_origin c = origin →
  explained acc (h ++ [(Request now o ck pb c, Done 0)]) i token origin now.
Proof using Type.
  intros (h1 & h2 & now0 & user & pw & -> & Hv & Hd & Hlast) Ht Ho.
  exists h1, (h2 ++ [(Request now o ck pb c, Done 0)]), now0, user, pw.
  split_and!; [by rewrite <- app_assoc|done| |].
  - intros [?|E%list_elem_of_singleton]%elem_of_app; congruence.
  - right. exists o, ck, pb, c. split; [|done]. apply elem_of_app. right. left.
Qed.

Definition all_explained (acc : AccountManager) (h : list (event * outcome)) (s : Security) : Prop :=
  accounts s = acc ∧
  ∀ i ses, m_sessions (sessions s) !! i = Some ses →
    explained acc h i (s_token ses) (s_origin ses) (s_last_used ses).

(** What a session authentication does. *)
Lemma session_auth_run now c s r s' :
  perform salted_hash now SessionAuthentication c s = (r, s') →
  accounts s' = accounts s ∧ service s' = service s ∧ 
  ((r = Ok false ∧ m_sessions (sessions s') ⊆ m_sessions (sessions s)) ∨
   ∃ i ses, r = Ok true ∧ m_sessions (sessions s) !! i = Some ses ∧ s_token ses = c_token c ∧
     s_origin ses = c_origin c ∧ now ≤ s_last_used ses + seconds (m_session_timeout (service s)) ∧
     m_sessions (sessions s') =
       <[i := mkSession (s_id ses) (s_user_name ses) (s_token ses) (s_origin ses) now]> (m_sessions (sessions s))).
Proof using Type.
  unfold perform, on_sessions, is_session_valid. run_monad.
  destruct (find_session _ _ _) as [[i ses]|] eqn:E; run_monad.
  - apply find_session_Some in E as (Hi & Ht & Ho).
    destruct (is_valid _ _ ses) eqn:Hv; intros [= <- <-]; cbn; split_and!; try done.
    + right. exists i, ses. split_and!; try done. by apply Z.leb_le.
    + left. split; [done|]. apply delete_subseteq.
  - intros [= <- <-]. cbn. split_and!; [done..|]. by left.
Qed.

(** What [authenticate] can come to. *)
Lemma authenticate_run now as_ c s r s' :
  authenticate salted_hash now as_ c s = (r, s') →
  accounts s' = accounts s ∧
  ((m_sessions (sessions s') ⊆ m_sessions (sessions s) ∧
    (r = Ok true → ∃ user pw, c_basic c = (Some user, Some pw) ∧
       validate_credentials salted_hash user pw (accounts s) = Ok true)) ∨
   ∃ i ses, r = Ok true ∧ SessionAuthentication ∈ as_ ∧ m_sessions (sessions s) !! i = Some ses ∧
     s_token ses = c_token c ∧ s_origin ses = c_origin c ∧
     now ≤ s_last_used ses + seconds (m_session_timeout (service s)) ∧
     m_sessions (sessions s') ⊆
       <[i := mkSession (s_id ses) (s_user_name ses) (s_token ses) (s_origin ses) now]> (m_sessions (sessions s))).
Proof using Type.
  revert s. induction as_ as [|a as_ IH]; intros s; cbn [authenticate].
  { intros [= <- <-]. split; [done|]. by left. }
  intros E. unfold mbind, M_bind in E. destruct (perform salted_hash now a c s) as [ra sa] eqn:Ea.
  destruct a.
  - cbn [perform] in Ea. unfold credentials_valid in Ea. run_monad.
    assert (sa = s ∧ (ra = Ok true → ∃ user pw, c_basic c = (Some user, Some pw) ∧
       validate_credentials salted_hash user pw (accounts s) = Ok true)) as [-> Hra].
    { destruct (c_basic c) as [[user|] [pw|]]; injection Ea as <- <-; (split; [done|]); try done.
      intros Hr. by exists user, pw. }
    destruct ra as [[]|e].
    + injection E as <- <-. split; [done|]. left. by split.
    + apply IH in E as [Hacc [?|(i & ses & -> & Hin & H)]]; (split; [done|]); [by left|].
      right. exists i, ses. split_and!; try apply H; [done|by right].
    + injection E as <- <-. split; [done|]. by left.
  - apply session_auth_run in Ea as (Hacc & Hsvc & [(-> & Hsub)|(i & ses & -> & Hi & Ht & Ho & Hn & Hs')]).
    + apply IH in E as [Hacc' [[Hsub' Hb]|(i & ses & -> & Hin & Hi & Ht & Ho & Hn & Hs')]].
      * split; [congruence|]. left. split; [by etrans|]. by rewrite <- Hacc.
      * split; [congruence|]. right. exists i, ses. rewrite Hsvc in Hn.
        split_and!; try done; [by right|by eapply lookup_weaken|].
        etrans; [exact Hs'|]. by apply insert_mono.
    + injection E as <- <-. split; [done|]. right. exists i, ses. split_and!; try done; [left|].
      by rewrite Hs'.
Qed.

(** No new session and the same history behind the old ones. *)
Lemma all_explained_subset acc h s s' e r :
  all_explained acc h s → accounts s' = accounts s →
  m_sessions (sessions s') ⊆ m_sessions (sessions s) →
  (∀ i ses, m_sessions (sessions s') !! i = Some ses → (e, r) ≠ (Delete i, Done 0)) →
  all_explained acc (h ++ [(e, r)]) s'.
Proof using Type.
  intros [Hacc Hex] Ha Hsub Hne. split; [congruence|]. intros i ses Hi.
  apply explained_app; [|by eapply Hne]. apply Hex. by eapply lookup_weaken.
Qed.

Lemma post_explained acc h s now token user pw origin r s' :
  all_explained acc h s →
  step salted_hash (Post now token user pw origin) s = (r, s') →
  all_explained acc (h ++ [(Post now token user pw origin, r)]) s'.
Proof using Type.
  intros Hex Hs. pose proof Hex as [Hacc Hexi]. cbn [step] in Hs. unfold post_session, on_sessions, add_session in Hs.
  run_monad.
  assert (r = Denied → sessions s' = sessions s ∨ m_sessions (sessions s') = m_sessions (sessions s) →
    accounts s' = accounts s → all_explained acc (h ++ [(Post now token user pw origin, r)]) s') as Hden.
  { intros -> Hss Ha. apply (all_explained_subset acc h s); [done..| |done].
    destruct Hss as [->| ->]; done. }
  destruct (m_service_enabled (service s)); cbn [negb] in Hs; [|injection Hs as <- <-; auto].
  destruct pw as [pw|], user as [user|]; try (injection Hs as <- <-; by auto).
  destruct (validate_credentials salted_hash user pw (accounts s)) as [[]|e] eqn:Hv;
    try (injection Hs as <- <-; by auto).
  destruct (update_next_id _ _) as [[[]|e] id] eqn:Hid; cbn in Hs; [|injection Hs as <- <-; auto].
  unfold get_session in Hs. cbn in Hs. rewrite lookup_insert_eq in Hs. injection Hs as <- <-.
  split; [done|]. cbn. intros i ses [[<- <-]|[Hne Hi]]%lookup_insert_Some.
  - exists h, [], now, user, pw. cbn. split_and!; [done|by rewrite <- Hacc|apply not_elem_of_nil|by left].
  - apply explained_app; [by apply Hexi|done].
Qed.

Lemma step_explained acc h s e r s' :
  all_explained acc h s → step salted_hash e s = (r, s') → all_explained acc (h ++ [(e, r)]) s'.
Proof using Type.
  intros Hex Hs. destruct e as [now token user pw origin|i|en t|now|now o ck pb c].
  - by eapply post_explained.
  - cbn [step] in Hs. unfold delete_session, on_sessions, del_session in Hs. run_monad.
    destruct (m_service_enabled (service s)); cbn [negb] in Hs.
    2:{ injection Hs as <- <-. by apply (all_explained_subset acc h s). }
    destruct (m_sessions (sessions s) !! i) eqn:Hi; cbn in Hs; injection Hs as <- <-;
      apply (all_explained_subset acc h s); try done; cbn; [apply delete_subseteq|].
    intros j ses [Hj _]%lookup_delete_Some. congruence.
  - cbn [step] in Hs. unfold patch_service in Hs. run_monad.
    destruct t as [t|]; [destruct (_ && _)|]; injection Hs as <- <-; by apply (all_explained_subset acc h s).
  - cbn [step] in Hs. unfold cleanup_sessions, on_sessions, remove_outdated_sessions in Hs. run_monad.
    injection Hs as <- <-. apply (all_explained_subset acc h s); try done. cbn. apply map_filter_subseteq.
  - cbn [step] in Hs. unfold access_handler_callback in Hs.
    destruct (o_client_cert_required o && negb ck).
    { injection Hs as <- <-. by apply (all_explained_subset acc h s). }
    destruct (negb (unauthenticated_access_feasible pb) && _).
    2:{ injection Hs as <- <-. by apply (all_explained_subset acc h s). }
    destruct (authenticate _ _ _ _ _) as [ra sa] eqn:Ea.
    apply authenticate_run in Ea as [Ha [[Hsub Hb]|(i & ses & -> & Hin & Hi & Ht & Ho & Hn & Hs')]].
    + assert (sa = s') as -> by (by destruct ra as [[]|]; injection Hs).
      by apply (all_explained_subset acc h s).
    + injection Hs as <- <-. destruct Hex as [Hacc Hex]. split; [congruence|]. intros j ses' Hj.
      eapply lookup_weaken in Hj; [|exact Hs']. apply lookup_insert_Some in Hj as [[<- <-]|[Hne Hj]]; cbn.
      * eapply explained_used; [by apply Hex|done..].
      * apply explained_app; [by apply Hex|done].
Qed.

Lemma reachable_explained acc h s : reachable salted_hash acc h s → all_explained acc h s.
Proof using Type.
  induction 1 as [svc|h s e r s' _ IH Hs]; [|by eapply step_explained].
  split; [done|]. intros i ses. cbn. by rewrite lookup_empty.
Qed.

(** C7: in whatever way sessions were created, deleted, used and cleaned up
    and the service was configured, a request is given to its handler only when the client
    certificate was accepted (where one is required) and: the resource is
    public, or the connector has no authentication, or the request carries the name
    and password of an account, or it carries a token that was the answer to an earlier
    request with valid credentials from the same origin, whose session was not
    deleted since and was last used no longer ago than the session timeout. *)
Theorem served_is_authorized acc h s now o cert_ok public c s' :
  reachable salted_hash acc h s →
  access_handler_callback salted_hash now o cert_ok public c s = (Ok true, s') →
  (o_client_cert_required o = true → cert_ok = true) ∧
  (public = Ok true ∨ o_authentication o = NONE ∨
   (∃ user pw, c_basic c = (Some user, Some pw) ∧ validate_credentials salted_hash user pw acc = Ok true) ∨
   (∃ i last, explained acc h i (c_token c) (c_origin c) last ∧
      now ≤ last + seconds (m_session_timeout (service s)))).
Proof using Type.
  intros Hr Hc. apply reachable_explained in Hr as [Hacc Hex]. unfold access_handler_callback in Hc.
  destruct (o_client_cert_required o), cert_ok; cbn in Hc; try done. all: split; [done|].
  all: destruct public as [[]|e]; cbn in Hc; [by left| |].
  all: right; destruct (is_nil (new_authentication (o_authentication o))) eqn:Hnil;
    [left; by destruct (o_authentication o)|right]; cbn in Hc.
  all: apply authenticate_run in Hc as [_ [[_ Hb]|(i & ses & _ & _ & Hi & Ht & Ho & Hn & _)]];
    [left; rewrite <- Hacc; by apply Hb|right; exists i, (s_last_used ses); split; [|done]].
  all: rewrite <- Ht, <- Ho; by apply Hex.
Qed.

(** ** A session in time is accepted *)

(** No two sessions share a token. *)
Definition tokens_unique (m : gmap Z Session) : Prop :=
  ∀ i j s1 s2, m !! i = Some s1 → m !! j = Some s2 → s_token s1 = s_token s2 → i = j.

(** A session whose token is its own is accepted up to and including the moment its timeout
    ends, counted from its last use, and its time starts anew; later it
    is refused and forgotten. *)
Theorem session_accepted_in_time s now c i ses :
  tokens_unique (m_sessions (sessions s)) → m_sessions (sessions s) !! i = Some ses →
  c_token c = s_token ses → c_origin c = s_origin ses →
  ∃ s', perform salted_hash now SessionAuthentication c s =
      (Ok (bool_decide (now ≤ s_last_used ses + seconds (m_session_timeout (service s)))), s') ∧
    m_sessions (sessions s') !! i =
      if bool_decide (now ≤ s_last_used ses + seconds (m_session_timeout (service s)))
      then Some (mkSession (s_id ses) (s_user_name ses) (s_token ses) (s_origin ses) now) else None.
Proof using Type.
  intros Hu Hi Ht Ho. unfold perform, on_sessions, is_session_valid. run_monad.
  destruct (find_session _ _ _) as [[j ses']|] eqn:E.
  2:{ exfalso. by eapply find_session_None. }
  apply find_session_Some in E as (Hj & Ht' & Ho'). assert (i = j) as <- by (eapply Hu; [done..|congruence]).
  rewrite Hi in Hj. injection Hj as <-. unfold is_valid.
  destruct (Z.leb_spec now (s_last_used ses + seconds (m_session_timeout (service s)))) as [Hle|Hgt]; run_monad.
  - rewrite !bool_decide_true by done. eexists. split; [done|]. cbn. by rewrite lookup_insert_eq.
  - rewrite !bool_decide_false by lia. eexists. split; [done|]. cbn. by rewrite lookup_delete_eq.
Qed.

End facts.

(** ** A run *)

(** A stand-in for the key derivation. *)
Definition sample_hash (password salt : str) : str :=
  take KEY_SIZE (password ++ salt ++ replicate KEY_SIZE "0"%char).

Definition sample_salt : str := lit "0123456789abcdef".

Definition sample_accounts : AccountManager :=
  (AccountManager_new (lit "admin")
    (string_to_hex_string sample_salt ++ string_to_hex_string (sample_hash (lit "pw") sample_salt))).2.

Definition sample_start : Security := mkSecurity (mkSessionManager ∅ 0) (mkService 30 true) sample_accounts.

Definition sample_post : event := Post 0 (lit "tok") (Some (lit "admin")) (Some (lit "pw")) (lit "here").

Definition sample_state : Security := (step sample_hash sample_post sample_start).2.

Definition sample_connection : Connection := mkConnection (None, None) (lit "tok") (lit "here").

Lemma configured_account_witness :
  ∃ m, AccountManager_new (lit "admin")
      (string_to_hex_string sample_salt ++ string_to_hex_string (sample_hash (lit "pw") sample_salt)) = (Ok tt, m) ∧
    validate_credentials sample_hash (lit "admin") (lit "pw") m = Ok true ∧
    validate_credentials sample_hash (lit "admin") (lit "pv") m = Ok false.
Proof.
  destruct (configured_account sample_hash (lit "admin") sample_salt (sample_hash (lit "pw") sample_salt))
    as (m & E & H); [done|reflexivity|reflexivity|].
  exists m. split; [exact E|]. rewrite !H. split; vm_compute; reflexivity.
Defined.

Lemma served_is_authorized_witness :
  (access_handler_callback sample_hash (seconds 30) (mkOptions REDFISH_SESSION_AUTH false) false (Ok false)
    sample_connection sample_state).1 = Ok true ∧
  ∃ i last, explained sample_hash sample_accounts [(sample_post, Done 1)] i (lit "tok") (lit "here") last ∧
    seconds 30 ≤ last + seconds 30.
Proof.
  split; [vm_compute; reflexivity|].
  destruct (served_is_authorized sample_hash sample_accounts [(sample_post, Done 1)] sample_state (seconds 30)
    (mkOptions REDFISH_SESSION_AUTH false) false (Ok false) sample_connection
    (access_handler_callback sample_hash (seconds 30) (mkOptions REDFISH_SESSION_AUTH false) false (Ok false)
      sample_connection sample_state).2) as [_ [?|[?|[(user & pw & ? & _)|(i & last & He & Hn)]]]]; [| |done..|].
  - apply (reachable_step sample_hash sample_accounts [] sample_start sample_post); [constructor|].
    vm_compute. reflexivity.
  - vm_compute. reflexivity.
  - exists i, last. split; [exact He|]. revert Hn. by vm_compute (m_session_timeout _).
Defined.

Lemma session_accepted_in_time_witness :
  ∃ s', perform sample_hash (seconds 31) SessionAuthentication sample_connection sample_state = (Ok false, s') ∧
    m_sessions (sessions s') !! 1 = None.
Proof.
  destruct (session_accepted_in_time sample_hash sample_state (seconds 31) sample_connection 1
    (mkSession 1 (lit "admin") (lit "tok") (lit "here") 0)) as (s' & E & H).
  - intros i j s1 s2 Hi Hj _.
    assert (m_sessions (sessions sample_state) = {[ 1 := mkSession 1 (lit "admin") (lit "tok") (lit "here") 0 ]}) as Hm
      by (vm_compute; reflexivity).
    rewrite Hm in Hi, Hj. apply lookup_singleton_Some in Hi as [<- _], Hj as [<- _]. done.
  - vm_compute. reflexivity.
  - reflexivity.
  - reflexivity.
  - exists s'. split; [exact E|exact H].
Defined.

End Sessions.
