(* ===== verification/Tasks.v ===== *)
(** Asynchronous tasks (PSME/common/agent-framework: action/ and threading/).

    [Task] with its lists of actions, [TaskCreator], which builds a task that keeps
    its own resource and result up to date, [TaskResultManager], the queue of
    the thread pool and the pool.

    An action is a computation over a world: the task resources, the results, the events sent
    so far, a clock, and whatever else the user's actions work on.
    An exception that leaves [Task::operator()] ends the process, since the loop of
    a pool thread does not catch it: it is the outcome [Throw] of [operator_call].
    The pool is a step relation; a step is what a thread does while it
    holds the mutex of the queue, or the end of a task.

    Theorems: a task made with the creator ends with its resource and its
    result in agreement ([task_outcome]); what happens when the response
    cannot be built or the task was deleted; the pool starts every task exactly once
    in the order of submission ([pool_fifo]) and after [stop] comes to rest
    with all of them done ([stop_drains]). *)

From Stdlib Require Import ZArith Lia.
From S2P Require Import Prelude.

Local Open Scope Z_scope.

Module Tasks.

Abbreviation uuid := string.

(** [model::enums::TaskState] *)
Inductive TaskState :=
  New | Starting | Running | Suspended | Interrupted | Pending | Stopping | Completed | Killed | Exception | Service.

(** The fields of [model::Task] that change. *)
Record TaskResource := mkResource {
  t_state : TaskState;
  m_start_time : option Z;
  m_end_time : option Z;
}.

Definition resource0 : TaskResource := mkResource New None None.

Definition start (now : Z) (t : TaskResource) : result TaskResource :=
  match m_start_time t, m_end_time t with
  | None, None => Ok (mkResource (t_state t) (Some now) None)
  | _, _ => Throw (logic_error "Cannot start task")
  end.

Definition stop_task (now : Z) (t : TaskResource) : result TaskResource :=
  match m_start_time t, m_end_time t with
  | Some s, None => Ok (mkResource (t_state t) (Some s) (Some now))
  | _, _ => Throw (logic_error "Cannot end task")
  end.

Definition set_state (st : TaskState) (t : TaskResource) : TaskResource :=
  mkResource st (m_start_time t) (m_end_time t).

Section tasks.

(** The JSON of a response, and the rest of the world. *)
Context {J Rest : Type}.

(** [TaskResultValue]: the flag tells which of the two is meant. *)
Inductive TaskResultValue := Value (result : J) | Error (exception : exn).

Record World := mkWorld {
  tasks : gmap uuid TaskResource;
  m_results : gmap uuid TaskResultValue;
  events : list uuid;                (** updates sent, oldest first *)
  clock : Z;
  env : Rest;
}.

Abbreviation Action := (M World unit).

Definition set_tasks (t : gmap uuid TaskResource) (w : World) : World :=
  mkWorld t (m_results w) (events w) (clock w) (env w).
Definition set_results (r : gmap uuid TaskResultValue) (w : World) : World :=
  mkWorld (tasks w) r (events w) (clock w) (env w).

(** ** TaskResultManager *)

Definition task_exists (u : uuid) (w : World) : bool := bool_decide (is_Some (m_results w !! u)).

Definition get_result (u : uuid) : M World J :=
  w ← get;
  match m_results w !! u with
  | None => throw invalid_uuid
  | Some (Error e) => throw e
  | Some (Value j) => mret j
  end.

(** [std::map::insert] keeps an entry that is there. *)
Definition insert_result (u : uuid) (v : TaskResultValue) : Action :=
  modify (λ w, match m_results w !! u with
               | Some _ => w
               | None => set_results (<[u := v]> (m_results w)) w
               end).

Definition set_result (u : uuid) (j : J) : Action := insert_result u (Value j).
Definition set_exception (u : uuid) (e : exn) : Action := insert_result u (Error e).

(** ** The task resource *)

(** Work on the resource through [get_entry_reference]. *)
Definition with_task (u : uuid) (f : TaskResource → result unit * TaskResource) : Action :=
  w ← get;
  match tasks w !! u with
  | None => throw invalid_uuid
  | Some t => let '(r, t') := f t in put (set_tasks (<[u := t']> (tasks w)) w) ;; lift r
  end.

(** [set_state(st)] and then [start()] or [stop()]: the state is changed also when the second throws. *)
Definition set_and (st : TaskState) (f : TaskResource → result TaskResource) (t : TaskResource)
    : result unit * TaskResource :=
  match f (set_state st t) with
  | Ok t' => (Ok tt, t')
  | Throw e => (Throw e, set_state st t)
  end.

(** [getTaskResultInfo] *)
Definition get_task_result_info (u : uuid) : M World J :=
  w ← get;
  match tasks w !! u with
  | None => throw invalid_uuid
  | Some _ => if task_exists u w then get_result u else throw invalid_uuid
  end.

(** [deleteTask] *)
Definition delete_task (u : uuid) : Action :=
  w ← get;
  match tasks w !! u with
  | None => throw invalid_uuid
  | Some _ => put (set_tasks (delete u (tasks w)) w)
  end.

Definition send_task_update_event (u : uuid) : Action :=
  modify (λ w, mkWorld (tasks w) (m_results w) (events w ++ [u]) (clock w) (env w)).

(** ** Task *)

Record Task := mkTask {
  m_subtasks : list Action;
  m_completion_callbacks : list Action;
  m_exception_callbacks : list (exn → Action);
  m_exception_handlers : list (exn → Action);
  m_prerun_actions : list Action;
  m_postrun_actions : list Action;
}.

Definition task0 : Task := mkTask [] [] [] [] [] [].

(** A [GamiException] is passed on, all else becomes an unknown error. *)
Definition gami_exception (e : exn) : exn :=
  match e with
  | not_found | invalid_value | invalid_uuid | pnc_error _ | unknown_error _ => e
  | runtime_error what | logic_error what | invalid_argument what => unknown_error what
  | _ => unknown_error ""
  end.

Definition run (t : Task) : Action := for_each (m_subtasks t) (λ subtask, subtask).
Definition prerun (t : Task) : Action := for_each (m_prerun_actions t) (λ a, a).
Definition postrun (t : Task) : Action := for_each (m_postrun_actions t) (λ a, a).
Definition run_completion_callbacks (t : Task) : Action := for_each (m_completion_callbacks t) (λ c, c).
Definition run_exception_callbacks (e : exn) (t : Task) : Action :=
  for_each (m_exception_callbacks t) (λ c, c e).
Definition run_exception_handlers (e : exn) (t : Task) : Action :=
  for_each (m_exception_handlers t) (λ h, h e).

Definition operator_call (t : Task) : Action :=
  try_catch (prerun t ;; run t ;; run_completion_callbacks t)
    (λ e, run_exception_callbacks (gami_exception e) t ;; run_exception_handlers (gami_exception e) t) ;;
  postrun t.

(** *** Lists of actions *)

Definition move_at {A} (old_position new_position : nat) (l : list A) : result (list A) :=
  match l !! old_position with
  | Some x =>
      if (length l <=? new_position)%nat then Throw out_of_range
      else let l := base.delete old_position l in
           Ok (take new_position l ++ x :: drop new_position l)
  | None => Throw out_of_range
  end.

Definition remove_at {A} (position : nat) (l : list A) : result (list A) :=
  if (length l <=? position)%nat then Throw out_of_range else Ok (base.delete position l).

Inductive CallbackType := Completion | ExceptionCallback.

Definition add_subtask (a : Action) (t : Task) : Task :=
  mkTask (m_subtasks t ++ [a]) (m_completion_callbacks t) (m_exception_callbacks t) (m_exception_handlers t)
    (m_prerun_actions t) (m_postrun_actions t).
Definition add_completion_callback (a : Action) (t : Task) : Task :=
  mkTask (m_subtasks t) (m_completion_callbacks t ++ [a]) (m_exception_callbacks t) (m_exception_handlers t)
    (m_prerun_actions t) (m_postrun_actions t).
Definition add_exception_callback (a : exn → Action) (t : Task) : Task :=
  mkTask (m_subtasks t) (m_completion_callbacks t) (m_exception_callbacks t ++ [a]) (m_exception_handlers t)
    (m_prerun_actions t) (m_postrun_actions t).
Definition add_exception_handler (a : exn → Action) (t : Task) : Task :=
  mkTask (m_subtasks t) (m_completion_callbacks t) (m_exception_callbacks t) (m_exception_handlers t ++ [a])
    (m_prerun_actions t) (m_postrun_actions t).
Definition add_prerun_action (a : Action) (t : Task) : Task :=
  mkTask (m_subtasks t) (m_completion_callbacks t) (m_exception_callbacks t) (m_exception_handlers t)
    (m_prerun_actions t ++ [a]) (m_postrun_actions t).
Definition add_postrun_action (a : Action) (t : Task) : Task :=
  mkTask (m_subtasks t) (m_completion_callbacks t) (m_exception_callbacks t) (m_exception_handlers t)
    (m_prerun_actions t) (m_postrun_actions t ++ [a]).

Definition move_subtask (i j : nat) (t : Task) : result Task :=
  l ← move_at i j (m_subtasks t);
  Ok (mkTask l (m_completion_callbacks t) (m_exception_callbacks t) (m_exception_handlers t)
        (m_prerun_actions t) (m_postrun_actions t)).
Definition move_callback (c : CallbackType) (i j : nat) (t : Task) : result Task :=
  match c with
  | Completion =>
      l ← move_at i j (m_completion_callbacks t);
      Ok (mkTask (m_subtasks t) l (m_exception_callbacks t) (m_exception_handlers t)
            (m_prerun_actions t) (m_postrun_actions t))
  | ExceptionCallback =>
      l ← move_at i j (m_exception_callbacks t);
      Ok (mkTask (m_subtasks t) (m_completion_callbacks t) l (m_exception_handlers t)
            (m_prerun_actions t) (m_postrun_actions t))
  end.
Definition move_prerun_action (i j : nat) (t : Task) : result Task :=
  l ← move_at i j (m_prerun_actions t);
  Ok (mkTask (m_subtasks t) (m_completion_callbacks t) (m_exception_callbacks t) (m_exception_handlers t)
        l (m_postrun_actions t)).
Definition move_postrun_action (i j : nat) (t : Task) : result Task :=
  l ← move_at i j (m_postrun_actions t);
  Ok (mkTask (m_subtasks t) (m_completion_callbacks t) (m_exception_callbacks t) (m_exception_handlers t)
        (m_prerun_actions t) l).

Definition remove_subtask (i : nat) (t : Task) : result Task :=
  l ← remove_at i (m_subtasks t);
  Ok (mkTask l (m_completion_callbacks t) (m_exception_callbacks t) (m_exception_handlers t)
        (m_prerun_actions t) (m_postrun_actions t)).
Definition remove_callback (c : CallbackType) (i : nat) (t : Task) : result Task :=
  match c with
  | Completion =>
      l ← remove_at i (m_completion_callbacks t);
      Ok (mkTask (m_subtasks t) l (m_exception_callbacks t) (m_exception_handlers t)
            (m_prerun_actions t) (m_postrun_actions t))
  | ExceptionCallback =>
      l ← remove_at i (m_exception_callbacks t);
      Ok (mkTask (m_subtasks t) (m_completion_callbacks t) l (m_exception_handlers t)
            (m_prerun_actions t) (m_postrun_actions t))
  end.

(** The iterator that is erased belongs to another vector. *)
Definition remove_prerun_action (i : nat) (t : Task) : result Task :=
  if (length (m_prerun_actions t) <=? i)%nat then Throw out_of_range else Throw undefined_behaviour.
Definition remove_postrun_action (i : nat) (t : Task) : result Task :=
  l ← remove_at i (m_postrun_actions t);
  Ok (mkTask (m_subtasks t) (m_completion_callbacks t) (m_exception_callbacks t) (m_exception_handlers t)
        (m_prerun_actions t) l).

(** ** TaskCreator *)

Record TaskCreator := mkCreator {
  m_is_task_prepared : bool;
  m_is_task_registered : bool;
  m_task : Task;
  m_task_uuid : uuid;            (** of [m_task_resource], whose other fields are still unset *)
}.

Definition creator0 (u : uuid) : TaskCreator := mkCreator false false task0 u.

Definition set_task (t : Task) (c : TaskCreator) : TaskCreator :=
  mkCreator (m_is_task_prepared c) (m_is_task_registered c) t (m_task_uuid c).

Definition prerun_action_unbound (u : uuid) : Action :=
  w ← get; with_task u (set_and Running (start (clock w))).
Definition completion_callback_unbound (u : uuid) : Action :=
  w ← get; with_task u (set_and Completed (stop_task (clock w))).
Definition exception_callback_unbound (u : uuid) : Action :=
  w ← get; with_task u (set_and Exception (stop_task (clock w))).

Definition prepare_task (c : TaskCreator) : result TaskCreator :=
  if m_is_task_prepared c then Throw (logic_error "Cannot prepare an already prepared task")
  else if m_is_task_registered c then Throw (logic_error "Cannot prepare an already registered task")
  else
    let u := m_task_uuid c in
    let t := add_prerun_action (prerun_action_unbound u) (m_task c) in
    let t := add_completion_callback (completion_callback_unbound u) t in
    let t := add_completion_callback (send_task_update_event u) t in
    let t := add_exception_callback (λ _, exception_callback_unbound u) t in
    let t := add_exception_callback (λ _, send_task_update_event u) t in
    Ok (mkCreator true (m_is_task_registered c) t u).

(** [add_entry] throws when the uuid is taken. *)
Definition register_task (c : TaskCreator) : M World TaskCreator :=
  if negb (m_is_task_prepared c) then throw (logic_error "Cannot register an unprepared task")
  else if m_is_task_registered c then throw (logic_error "Cannot register an already registered task")
  else
    let u := m_task_uuid c in
    let t := add_postrun_action (send_task_update_event u) (m_task c) in
    let t := add_exception_handler (λ e, set_exception u e) t in
    w ← get;
    match tasks w !! u with
    | Some _ => throw invalid_uuid
    | None =>
        put (set_tasks (<[u := set_state Pending resource0]> (tasks w)) w) ;;
        mret (mkCreator true true t u)
    end.

Definition set_promised_response (promised_response : M World J) (c : TaskCreator) : TaskCreator :=
  let u := m_task_uuid c in
  set_task (add_completion_callback (response ← promised_response; set_result u response) (m_task c)) c.

Definition set_promised_error_thrower (promised_error_thrower : exn → M World exn) (c : TaskCreator) : TaskCreator :=
  let u := m_task_uuid c in
  set_task (add_exception_callback
    (λ ex, promised_error ← promised_error_thrower ex; set_exception u promised_error) (m_task c)) c.

(** What the commands do to make a task, without and with an error thrower. *)
Definition make_task (u : uuid) (subtasks : list Action) (response : M World J)
    (thrower : option (exn → M World exn)) : M World Task :=
  c ← lift (prepare_task (creator0 u));
  let c := set_task (foldl (λ t a, add_subtask a t) (m_task c) subtasks) c in
  let c := set_promised_response response c in
  let c := match thrower with Some f => set_promised_error_thrower f c | None => c end in
  c ← register_task c;
  mret (m_task c).

(** ** What becomes of a task *)

(** The task that [make_task] returns. *)
Definition built (u : uuid) (subtasks : list Action) (response : M World J)
    (thrower : option (exn → M World exn)) : Task :=
  mkTask subtasks
    [completion_callback_unbound u; send_task_update_event u; response ≫= set_result u]
    ([(λ _, exception_callback_unbound u); (λ _, send_task_update_event u)] ++
      match thrower with Some f => [λ ex, f ex ≫= set_exception u] | None => [] end)
    [λ e, set_exception u e] [prerun_action_unbound u] [send_task_update_event u].

Definition pending (w : World) (u : uuid) : Prop :=
  tasks w !! u = Some (set_state Pending resource0) ∧ m_results w !! u = None.

Lemma make_task_built u subtasks response thrower w :
  tasks w !! u = None → m_results w !! u = None →
  ∃ w', make_task u subtasks response thrower w = (Ok (built u subtasks response thrower), w') ∧ pending w' u.
Proof using Type.
  intros Ht Hr. eexists. split.
  - unfold make_task, register_task. run_monad. cbn [prepare_task creator0 m_is_task_prepared m_is_task_registered].
    assert (∀ t : Task, foldl (λ t a, add_subtask a t) t subtasks =
      mkTask (m_subtasks t ++ subtasks) (m_completion_callbacks t) (m_exception_callbacks t)
        (m_exception_handlers t) (m_prerun_actions t) (m_postrun_actions t)) as Hfold.
    { induction subtasks as [|a l IH]; intros t; cbn [foldl].
      - rewrite app_nil_r. by destruct t.
      - rewrite IH. cbn. by rewrite <- app_assoc. }
    rewrite Hfold. destruct thrower; cbn; rewrite Ht; reflexivity.
  - split; cbn; [by rewrite lookup_insert_eq|done].
Qed.

(** An action of the user that does not touch the entries of the task. *)
Definition keeps {A} (u : uuid) (m : M World A) : Prop :=
  ∀ w r w', m w = (r, w') → tasks w' !! u = tasks w !! u ∧ m_results w' !! u = m_results w !! u.

Lemma keeps_subtasks u l : Forall (keeps u) l → keeps u (for_each l (λ a, a)).
Proof using Type.
  induction 1 as [|a l Ha _ IH]; intros w r w'; cbn [for_each].
  - by intros [= <- <-].
  - unfold mbind, M_bind. destruct (a w) as [[[]|e] w1] eqn:E; intros H.
    + apply IH in H as [-> ->]. by apply Ha in E.
    + injection H as <- <-. by apply Ha in E.
Qed.

Lemma keeps_send u v : keeps u (send_task_update_event v).
Proof using Type. by intros w r w' [= <- <-]. Qed.

(** The world after the state of the task was set. *)
Definition with_resource (u : uuid) (t : TaskResource) (w : World) : World := set_tasks (<[u := t]> (tasks w)) w.

Lemma with_task_run u f w t :
  tasks w !! u = Some t → with_task u f w = ((f t).1, with_resource u (f t).2 w).
Proof using Type. intros Ht. unfold with_task. run_monad. rewrite Ht. by destruct (f t) as [[|] ?]. Qed.

Definition sent (u : uuid) (w : World) : World :=
  mkWorld (tasks w) (m_results w) (events w ++ [u]) (clock w) (env w).

Lemma bind_result {A B} (m : M World A) (k : A → M World B) w r w' :
  m w = (r, w') → (m ≫= k) w = match r with Ok a => k a w' | Throw e => (Throw e, w') end.
Proof using Type. intros Em. unfold mbind, M_bind. by rewrite Em. Qed.

Lemma insert_result_new u v w :
  m_results w !! u = None → insert_result u v w = (Ok tt, set_results (<[u := v]> (m_results w)) w).
Proof using Type. intros H. unfold insert_result. run_monad. by rewrite H. Qed.

Lemma insert_result_old u v w :
  is_Some (m_results w !! u) → insert_result u v w = (Ok tt, w).
Proof using Type. intros [x H]. unfold insert_result. run_monad. by rewrite H. Qed.

(** The world in which the first subtask runs. *)
Definition started (u : uuid) (w : World) : World :=
  with_resource u (mkResource Running (Some (clock w)) None) w.

(** The world in which the response is built, from the one after the subtasks. *)
Definition completed (u : uuid) (s : Z) (w : World) : World :=
  sent u (with_resource u (mkResource Completed (Some s) (Some (clock w))) w).

Section one.

Context (u : uuid) (subtasks : list Action) (response : M World J) (thrower : option (exn → M World exn)).
Context (Hsub : Forall (keeps u) subtasks) (Hresp : keeps u response).

Abbreviation t := (built u subtasks response thrower).

Lemma prerun_run w : pending w u → prerun t w = (Ok tt, started u w).
Proof using Type.
  intros [Ht _]. unfold prerun, t. cbn [m_prerun_actions for_each built]. unfold prerun_action_unbound. run_monad.
  by rewrite (with_task_run _ _ _ _ Ht).
Qed.

(** The resource and the result while the subtasks ran. *)
Lemma subtasks_frame w r w2 :
  pending w u → run t (started u w) = (r, w2) →
  tasks w2 !! u = Some (mkResource Running (Some (clock w)) None) ∧ m_results w2 !! u = None.
Proof using Hsub.
  intros [Ht Hr] Hrun. apply (keeps_subtasks u subtasks Hsub) in Hrun as [-> ->]. cbn.
  by rewrite lookup_insert_eq.
Qed.

(** The course of [operator()] once the subtasks are over. *)
Lemma operator_call_run w w2 r :
  pending w u → run t (started u w) = (r, w2) →
  operator_call t w =
    match r with
    | Ok _ =>
        match run_completion_callbacks t w2 with
        | (Ok _, w3) => postrun t w3
        | (Throw e, w3) =>
            ((run_exception_callbacks (gami_exception e) t ;; run_exception_handlers (gami_exception e) t) ;;
             postrun t) w3
        end
    | Throw e =>
        ((run_exception_callbacks (gami_exception e) t ;; run_exception_handlers (gami_exception e) t) ;;
         postrun t) w2
    end.
Proof using Type.
  intros Hp Hrun. unfold operator_call, try_catch. unfold mbind at 1, M_bind at 1.
  rewrite (bind_result (prerun t) _ _ _ _ (prerun_run w Hp)). cbn iota.
  rewrite (bind_result (run t) _ _ _ _ Hrun). destruct r as [[]|e]; [|done]. cbn iota.
  by destruct (run_completion_callbacks t w2) as [[[]|e] w3].
Qed.

(** *** All goes well *)
Lemma run_completes w w2 j w3 :
  pending w u → run t (started u w) = (Ok tt, w2) →
  response (completed u (clock w) w2) = (Ok j, w3) →
  ∃ w', operator_call t w = (Ok tt, w') ∧
    tasks w' !! u = Some (mkResource Completed (Some (clock w)) (Some (clock w2))) ∧
    m_results w' !! u = Some (Value j).
Proof using Hsub Hresp.
  intros Hp Hrun Hr. destruct (subtasks_frame w _ _ Hp Hrun) as [Ht2 Hr2].
  pose proof (Hresp _ _ _ Hr) as [Ht3 Hr3]. cbn in Ht3, Hr3. rewrite lookup_insert_eq in Ht3. rewrite Hr2 in Hr3.
  assert (run_completion_callbacks t w2 =
    (Ok tt, set_results (<[u := Value j]> (m_results w3)) w3)) as Hc.
  { unfold run_completion_callbacks. cbn [built m_completion_callbacks for_each].
    unfold completion_callback_unbound at 1. run_monad.
    rewrite (with_task_run _ _ _ _ Ht2). cbn [fst snd set_and set_state stop_task m_start_time m_end_time t_state].
    unfold completed, sent, with_resource, set_tasks in Hr. cbn in Hr |- *. rewrite Hr. unfold set_result. by rewrite insert_result_new. }
  exists (sent u (set_results (<[u := Value j]> (m_results w3)) w3)).
  split; [|split; [done|cbn; by rewrite lookup_insert_eq]].
  rewrite (operator_call_run w w2 (Ok tt)) by done. cbn iota. by rewrite Hc.
Qed.

(** *** A subtask throws *)

(** The exception callbacks up to the event. *)
Definition failed (s : Z) (w : World) : World :=
  sent u (with_resource u (mkResource Exception (Some s) (Some (clock w))) w).

(** What the thrower makes of an exception. *)
Definition thrown (e : exn) (w : World) : result exn * World :=
  match thrower with Some f => f e w | None => (Ok e, w) end.

Lemma run_fails w w2 e ex w3 :
  pending w u → run t (started u w) = (Throw e, w2) →
  (∀ f, thrower = Some f → keeps u (f (gami_exception e))) →
  thrown (gami_exception e) (failed (clock w) w2) = (Ok ex, w3) →
  ∃ w', operator_call t w = (Ok tt, w') ∧
    tasks w' !! u = Some (mkResource Exception (Some (clock w)) (Some (clock w2))) ∧
    m_results w' !! u = Some (Error ex).
Proof using Hsub.
  intros Hp Hrun Hf Hth. destruct (subtasks_frame w _ _ Hp Hrun) as [Ht2 Hr2].
  remember (gami_exception e) as g eqn:Hg.
  assert (tasks w3 !! u = Some (mkResource Exception (Some (clock w)) (Some (clock w2))) ∧ m_results w3 !! u = None)
    as [Ht3 Hr3].
  { assert (tasks (failed (clock w) w2) !! u = Some (mkResource Exception (Some (clock w)) (Some (clock w2))) ∧
      m_results (failed (clock w) w2) !! u = None) as [H1 H2] by (cbn; by rewrite lookup_insert_eq).
    unfold thrown in Hth. destruct thrower as [f|]; [|by injection Hth as <- <-].
    apply (Hf f eq_refl) in Hth as [-> ->]. done. }
  assert (run_exception_callbacks g t w2 =
    (Ok tt, match thrower with Some _ => set_results (<[u := Error ex]> (m_results w3)) w3 | None => w3 end)) as Hc.
  { unfold run_exception_callbacks. cbn [built m_exception_callbacks for_each app].
    unfold exception_callback_unbound at 1. run_monad.
    rewrite (with_task_run _ _ _ _ Ht2). cbn [fst snd set_and set_state stop_task m_start_time m_end_time t_state].
    unfold thrown in Hth. destruct thrower as [f|]; cbn.
    - unfold failed, sent, with_resource, set_tasks in Hth. cbn in Hth. run_monad. rewrite Hth. unfold set_exception. by rewrite insert_result_new.
    - by injection Hth as <- <-. }
  exists (sent u (set_results (<[u := Error ex]> (m_results w3)) w3)).
  split; [|split; [done|cbn; by rewrite lookup_insert_eq]].
  rewrite (operator_call_run w w2 (Throw e)) by done. cbn iota. rewrite <- Hg.
  rewrite (bind_result _ _ _ _ _ (bind_result _ _ _ _ _ Hc)). cbn iota.
  unfold thrown in Hth. destruct thrower as [f|]; cbn [m_results set_results].
  - by rewrite lookup_insert_eq.
  - injection Hth as <- <-. by rewrite Hr3.
Qed.

(** *** The response cannot be built *)
Lemma response_fails w w2 e w3 :
  pending w u → run t (started u w) = (Ok tt, w2) →
  response (completed u (clock w) w2) = (Throw e, w3) →
  ∃ w', operator_call t w = (Throw (logic_error "Cannot end task"), w') ∧
    tasks w' !! u = Some (mkResource Exception (Some (clock w)) (Some (clock w2))) ∧
    m_results w' !! u = None.
Proof using Hsub Hresp.
  intros Hp Hrun Hr. destruct (subtasks_frame w _ _ Hp Hrun) as [Ht2 Hr2].
  pose proof (Hresp _ _ _ Hr) as [Ht3 Hr3]. cbn in Ht3, Hr3. rewrite lookup_insert_eq in Ht3. rewrite Hr2 in Hr3.
  assert (run_completion_callbacks t w2 = (Throw e, w3)) as Hc.
  { unfold run_completion_callbacks. cbn [built m_completion_callbacks for_each].
    unfold completion_callback_unbound at 1. run_monad.
    rewrite (with_task_run _ _ _ _ Ht2). cbn [fst snd set_and set_state stop_task m_start_time m_end_time t_state].
    unfold completed, sent, with_resource, set_tasks in Hr. cbn in Hr |- *. by rewrite Hr. }
  rewrite (operator_call_run w w2 (Ok tt)) by done. cbn iota. rewrite Hc.
  unfold run_exception_callbacks. cbn [built m_exception_callbacks for_each app].
  unfold exception_callback_unbound at 1. run_monad. rewrite (with_task_run _ _ _ _ Ht3).
  eexists. split; [reflexivity|]. cbn. by rewrite lookup_insert_eq.
Qed.

(** *** The task is deleted while it runs *)
Lemma deleted_fails w w2 :
  pending w u → run t (started u w) = (Ok tt, w2) → tasks w2 !! u = None →
  operator_call t w = (Throw invalid_uuid, w2).
Proof using Type.
  intros Hp Hrun Hd. rewrite (operator_call_run w w2 (Ok tt)) by done. cbn iota.
  assert (run_completion_callbacks t w2 = (Throw invalid_uuid, w2)) as ->.
  { unfold run_completion_callbacks. cbn [built m_completion_callbacks for_each].
    unfold completion_callback_unbound at 1, with_task at 1. run_monad. by rewrite Hd. }
  unfold run_exception_callbacks. cbn [built m_exception_callbacks for_each app gami_exception].
  unfold exception_callback_unbound at 1, with_task at 1. run_monad. by rewrite Hd.
Qed.

End one.

(** C22: a task made with the creator, whose subtasks and response leave its own entries
    alone (so that the task is not deleted meanwhile), whose response can be built in
    every world and whose error thrower does not fail, runs to its end: when all
    subtasks succeed the resource is Completed and the result is the response; when one
    throws, the resource is in state Exception and the result is the exception, as the
    error thrower turned it; start and end times are set in both cases. Without the
    condition on the response the task may end as Exception with no result
    ([failing_response_escapes]). *)
Theorem task_outcome u subtasks response thrower w w0 (g : exn → exn) :
  tasks w0 !! u = None → m_results w0 !! u = None →
  Forall (keeps u) subtasks → keeps u response →
  (∀ v, ∃ j v', response v = (Ok j, v')) →
  (∀ f e v, thrower = Some f → f e v = (Ok (g e), v)) →
  ∃ t w1, make_task u subtasks response thrower w0 = (Ok t, w1) ∧ pending w1 u ∧
  (pending w u →
   ∃ w', operator_call t w = (Ok tt, w') ∧
    match for_each subtasks (λ a, a) (started u w) with
    | (Ok _, w2) =>
        tasks w' !! u = Some (mkResource Completed (Some (clock w)) (Some (clock w2))) ∧
        ∃ j, (response (completed u (clock w) w2)).1 = Ok j ∧ m_results w' !! u = Some (Value j)
    | (Throw e, w2) =>
        tasks w' !! u = Some (mkResource Exception (Some (clock w)) (Some (clock w2))) ∧
        m_results w' !! u = Some (Error (match thrower with
                                         | Some _ => g (gami_exception e) | None => gami_exception e end))
    end).
Proof using Type.
  intros Ht Hr Hsub Hresp Hok Hg.
  destruct (make_task_built u subtasks response thrower w0 Ht Hr) as (w1 & Hmake & Hp1).
  exists (built u subtasks response thrower), w1. split; [done|]. split; [done|]. intros Hp.
  destruct (for_each subtasks (λ a, a) (started u w)) as [[[]|e] w2] eqn:Hrun.
  - destruct (Hok (completed u (clock w) w2)) as (j & w3 & Hj).
    destruct (run_completes u subtasks response thrower Hsub Hresp w w2 j w3 Hp Hrun Hj) as (w' & E & H1 & H2).
    exists w'. split; [done|]. split; [done|]. exists j. by rewrite Hj.
  - destruct (run_fails u subtasks response thrower Hsub w w2 e
      (match thrower with Some _ => g (gami_exception e) | None => gami_exception e end)
      (failed u (clock w) w2) Hp Hrun) as (w' & E & H).
    + intros f Hf v r v' Hv. rewrite (Hg f (gami_exception e) v Hf) in Hv. by injection Hv as <- <-.
    + unfold thrown. destruct thrower as [f|] eqn:Hf; [|done]. by apply Hg.
    + by exists w'.
Qed.

(** When the response of a finished task cannot be built (it throws, since it looks
    up a resource that is gone), the exception leaves the task: the callback for
    exceptions tries to end the task a second time, which throws inside the
    handler.  The resource is left in state Exception with no result, the
    final event is not sent, and the thread of the pool is not prepared for an
    exception. *)
Theorem failing_response_escapes u subtasks response thrower w w2 e w3 :
  Forall (keeps u) subtasks → keeps u response → pending w u →
  for_each subtasks (λ a, a) (started u w) = (Ok tt, w2) →
  response (completed u (clock w) w2) = (Throw e, w3) →
  ∃ w', operator_call (built u subtasks response thrower) w = (Throw (logic_error "Cannot end task"), w') ∧
    tasks w' !! u = Some (mkResource Exception (Some (clock w)) (Some (clock w2))) ∧
    m_results w' !! u = None.
Proof using Type. intros Hsub Hresp Hp Hrun Hr. by eapply response_fails. Qed.

(** A task that is deleted while its subtasks run (the command [deleteTask] does
    this in two agents) ends with an exception that leaves it, too. *)
Lemma deleted_task_escapes u subtasks response thrower w w2 :
  pending w u → for_each subtasks (λ a, a) (started u w) = (Ok tt, w2) → tasks w2 !! u = None →
  operator_call (built u subtasks response thrower) w = (Throw invalid_uuid, w2).
Proof using Type. apply deleted_fails. Qed.

(** The first result stays. *)
Lemma set_result_once u j v w :
  m_results w !! u = Some v → set_result u j w = (Ok tt, w).
Proof using Type. intros H. unfold set_result. apply insert_result_old. by rewrite H. Qed.

End tasks.

(** Moving an action permutes the list and puts it at its new place. *)
Lemma move_at_spec {A} i j (l : list A) :
  (i < length l)%nat → (j < length l)%nat →
  ∃ l', move_at i j l = Ok l' ∧ l' ≡ₚ l ∧ l' !! j = l !! i.
Proof.
  intros Hi Hj. destruct (lookup_lt_is_Some_2 _ _ Hi) as [x Hx]. unfold move_at. rewrite Hx.
  rewrite (proj2 (Nat.leb_gt _ _)) by lia. eexists. split; [reflexivity|].
  assert (length (base.delete i l) = (length l - 1)%nat) as Hlen.
  { rewrite delete_take_drop, length_app, length_take, length_drop. lia. }
  split.
  - rewrite <- Permutation_middle, take_drop. symmetry. by apply delete_Permutation.
  - rewrite lookup_app_r by (rewrite length_take; lia).
    replace (j - length (take j (base.delete i l)))%nat with O by (rewrite length_take; lia). done.
Qed.

(** ** ThreadQueue *)

Section queue.

Context {T : Type}.

(** Both append at the end. *)
Definition push_front (value : T) (m_data : list T) : list T := m_data ++ [value].
Definition push_back (value : T) (m_data : list T) : list T := m_data ++ [value].

Definition try_pop (m_data : list T) : option T * list T :=
  match m_data with [] => (None, []) | x :: l => (Some x, l) end.

(** [None] while the caller waits. *)
Definition wait_and_pop (m_data : list T) : option (T * list T) :=
  match m_data with [] => None | x :: l => Some (x, l) end.

(** The overload with a reference: the value that is stored through it, and the answer. *)
Definition wait_for_and_pop_ref (m_data : list T) : option T * bool * list T :=
  match m_data with [] => (None, false, []) | x :: l => (Some x, false, l) end.

Definition wait_for_and_pop (m_data : list T) : option T * list T := try_pop m_data.

End queue.

(** ** Threadpool *)

(** [threading::Task]: a number stands for a submitted function. *)
Inductive item := STOP | REGULAR (k : nat).

Inductive thread := Idle | Busy (k : nat) | Stopped.

(** The last three fields record the history: the functions given to [run], those a thread
    has begun and those that have returned. *)
Record Pool := mkPool {
  m_tasks : list item;
  m_threads : list thread;
  submitted : list nat;
  begun : list nat;
  returned : list nat;
}.

Definition pool0 (thread_count : nat) : Pool := mkPool [] (replicate thread_count Idle) [] [] [].

Definition pool_run (k : nat) (p : Pool) : Pool :=
  mkPool (push_back (REGULAR k) (m_tasks p)) (m_threads p) (submitted p ++ [k]) (begun p) (returned p).

Definition push_stop (p : Pool) : Pool :=
  mkPool (push_front STOP (m_tasks p)) (m_threads p) (submitted p) (begun p) (returned p).

(** [stop_threads] *)
Definition stop_threads (p : Pool) : Pool := Nat.iter (length (m_threads p)) push_stop p.

(** A turn of [run_loop] up to the call of the task, and the return of the task. *)
Inductive worker_step : Pool → Pool → Prop :=
  | take_stop i p l :
      m_threads p !! i = Some Idle → wait_and_pop (m_tasks p) = Some (STOP, l) →
      worker_step p (mkPool l (<[i := Stopped]> (m_threads p)) (submitted p) (begun p) (returned p))
  | take_task i p k l :
      m_threads p !! i = Some Idle → wait_and_pop (m_tasks p) = Some (REGULAR k, l) →
      worker_step p (mkPool l (<[i := Busy k]> (m_threads p)) (submitted p) (begun p ++ [k]) (returned p))
  | task_returns i p k :
      m_threads p !! i = Some (Busy k) →
      worker_step p (mkPool (m_tasks p) (<[i := Idle]> (m_threads p)) (submitted p) (begun p) (returned p ++ [k])).

Inductive pool_step : Pool → Pool → Prop :=
  | step_worker p p' : worker_step p p' → pool_step p p'
  | step_run k p : pool_step p (pool_run k p)
  | step_stop p : pool_step p (push_stop p).

Definition task_of (x : item) : option nat := match x with REGULAR k => Some k | STOP => None end.
Definition busy_of (t : thread) : option nat := match t with Busy k => Some k | _ => None end.

(** What is begun, then what waits, is what was submitted, in order; what is
    begun has returned or is running in one thread. *)
Definition pool_inv (p : Pool) : Prop :=
  begun p ++ omap task_of (m_tasks p) = submitted p ∧
  returned p ++ omap busy_of (m_threads p) ≡ₚ begun p.

Lemma omap_insert_perm {A B} (f : A → option B) l i x y :
  l !! i = Some x →
  ∃ r, omap f l ≡ₚ option_list (f x) ++ r ∧ omap f (<[i := y]> l) ≡ₚ option_list (f y) ++ r.
Proof.
  intros Hi. exists (omap f (take i l) ++ omap f (drop (S i) l)).
  assert (i < length l)%nat by (by eapply lookup_lt_Some).
  split.
  - rewrite <- (take_drop_middle l i x) at 1 by done. rewrite omap_app. cbn.
    destruct (f x); cbn; [by rewrite Permutation_middle|done].
  - rewrite insert_take_drop by done. rewrite omap_app. cbn.
    destruct (f y); cbn; [by rewrite Permutation_middle|done].
Qed.

Lemma wait_and_pop_Some {T} (l : list T) x l' : wait_and_pop l = Some (x, l') → l = x :: l'.
Proof. destruct l; [done|]. by intros [= -> ->]. Qed.

Lemma worker_step_inv p p' : worker_step p p' → pool_inv p → pool_inv p'.
Proof.
  intros Hs [Hq Hb]. destruct Hs as [i p l Hi Hl|i p k l Hi Hl|i p k Hi].
  - apply wait_and_pop_Some in Hl. rewrite Hl in Hq. split; [done|]. cbn.
    destruct (omap_insert_perm busy_of _ _ _ Stopped Hi) as (r & E1 & E2). rewrite E2, <- Hb, E1. done.
  - apply wait_and_pop_Some in Hl. rewrite Hl in Hq. split; cbn.
    + rewrite <- Hq, <- app_assoc. done.
    + destruct (omap_insert_perm busy_of _ _ _ (Busy k) Hi) as (r & E1 & E2). rewrite E2. rewrite E1 in Hb. cbn in *.
      by rewrite <- Hb, <- Permutation_cons_append, <- Permutation_middle.
  - split; [done|]. cbn.
    destruct (omap_insert_perm busy_of _ _ _ Idle Hi) as (r & E1 & E2). rewrite E2. rewrite E1 in Hb. cbn in *.
    by rewrite <- Hb, <- app_assoc.
Qed.

Lemma pool_step_inv p p' : pool_step p p' → pool_inv p → pool_inv p'.
Proof.
  intros Hs Hp. destruct Hs as [p p' Hs|k p|p]; [by eapply worker_step_inv| |]; destruct Hp as [Hq Hb]; split; try done; cbn.
  - unfold push_back. rewrite omap_app. cbn. by rewrite app_assoc, Hq.
  - unfold push_front. rewrite omap_app. cbn. by rewrite app_nil_r.
Qed.

Lemma pool_reachable_inv n p : rtc pool_step (pool0 n) p → pool_inv p.
Proof.
  assert (pool_inv (pool0 n)) as H0.
  { split; [done|]. cbn. induction n as [|n IH]; [done|]. cbn. exact IH. }
  intros Hr. revert H0. induction Hr as [p|p p1 p' Hs _ IH]; [done|]. intros Hp. apply IH. by eapply pool_step_inv.
Qed.


(** ** The end of the pool *)

(** While the pool is in use. *)
Inductive running_step : Pool → Pool → Prop :=
  | running_worker p p' : worker_step p p' → running_step p p'
  | running_run k p : running_step p (pool_run k p).

(** While [stop_threads] pushes, [c] of its turns are done; nothing more is submitted. *)
Inductive drain (n : nat) : Pool * nat → Pool * nat → Prop :=
  | drain_worker p p' c : worker_step p p' → drain n (p, c) (p', c)
  | drain_stop p c : (c < n)%nat → drain n (p, c) (push_stop p, S c).

#[global] Instance thread_eq_dec : EqDecision thread.
Proof. solve_decision. Defined.

Definition stopped (l : list thread) : nat := length (filter (λ t, t = Stopped) l).
Definition busy (l : list thread) : nat := length (omap busy_of l).
#[local] Arguments stopped : simpl never.
#[local] Arguments busy : simpl never.

(** First tasks, then requests to stop; every request is in the queue or has stopped a
    thread, and none has while tasks wait. *)
Definition drain_inv (n : nat) (pc : Pool * nat) : Prop :=
  ∃ ks m, m_tasks pc.1 = (REGULAR <$> ks) ++ replicate m STOP ∧
    (m + stopped (m_threads pc.1) = pc.2)%nat ∧ (pc.2 ≤ n)%nat ∧ length (m_threads pc.1) = n ∧
    (ks ≠ [] → stopped (m_threads pc.1) = O).

Definition stop_count (t : thread) : nat := match t with Stopped => 1 | _ => 0 end.

Lemma stopped_insert l i x y :
  l !! i = Some x →
  (stopped (<[i := y]> l) + stop_count x = stopped l + stop_count y)%nat.
Proof.
  intros Hi. unfold stopped. assert (i < length l)%nat by (by eapply lookup_lt_Some).
  rewrite insert_take_drop by done. rewrite <- (take_drop_middle l i x) at 3 by done.
  rewrite !list.filter_app, !length_app, !filter_cons. destruct x, y; repeat case_decide; cbn; done || lia.
Qed.

Lemma busy_insert l i x y :
  l !! i = Some x →
  (busy (<[i := y]> l) + length (option_list (busy_of x)) = busy l + length (option_list (busy_of y)))%nat.
Proof.
  intros Hi. unfold busy. destruct (omap_insert_perm busy_of l i x y Hi) as (r & E1 & E2).
  rewrite E1, E2, !length_app. lia.
Qed.

(** A queue that starts with a request to stop holds no task. *)
Lemma queue_head ks m x l :
  (REGULAR <$> ks) ++ replicate m STOP = x :: l →
  (∃ k ks', x = REGULAR k ∧ ks = k :: ks' ∧ l = (REGULAR <$> ks') ++ replicate m STOP) ∨
  (∃ m', x = STOP ∧ ks = [] ∧ m = S m' ∧ l = replicate m' STOP).
Proof.
  destruct ks as [|k ks]; cbn.
  - destruct m as [|m]; [done|]. intros [= <- <-]. right. by exists m.
  - intros [= <- <-]. left. by exists k, ks.
Qed.

Lemma drain_step_inv n pc pc' : drain n pc pc' → drain_inv n pc → drain_inv n pc'.
Proof.
  intros Hs (ks & m & Hq & Hm & Hc & Hn & Hk). destruct Hs as [p p' c Hs|p c Hlt]; cbn in *.
  - destruct Hs as [i p l Hi Hl|i p k l Hi Hl|i p k Hi].
    + apply wait_and_pop_Some in Hl. rewrite Hq in Hl.
      apply queue_head in Hl as [(k & ks' & ? & _)|(m' & _ & -> & -> & ->)]; [done|].
      pose proof (stopped_insert _ _ _ Stopped Hi) as Hst. cbn in Hst.
      exists [], m'. cbn. rewrite length_insert. split_and!; try done; lia.
    + apply wait_and_pop_Some in Hl. rewrite Hq in Hl.
      apply queue_head in Hl as [(k' & ks' & [= <-] & -> & ->)|(m' & ? & _)]; [|done].
      pose proof (stopped_insert _ _ _ (Busy k) Hi) as Hst. cbn in Hst.
      exists ks', m. cbn. rewrite length_insert. specialize (Hk ltac:(done)). split_and!; try done; lia.
    + pose proof (stopped_insert _ _ _ Idle Hi) as Hst. cbn in Hst.
      exists ks, m. cbn. rewrite length_insert. split_and!; try done; [lia|]. intros Hks. specialize (Hk Hks). lia.
  - exists ks, (S m). cbn. unfold push_front. rewrite Hq, <- app_assoc, <- replicate_cons_app.
    split_and!; try done; lia.
Qed.

(** The number of steps that are left. *)
Definition work_left (n : nat) (pc : Pool * nat) : nat :=
  (3 * (n - pc.2) + 2 * length (m_tasks pc.1) + busy (m_threads pc.1))%nat.

Lemma drain_decreases n pc pc' : drain n pc pc' → (work_left n pc' < work_left n pc)%nat.
Proof.
  unfold work_left. intros [p p' c Hs|p c Hlt]; cbn.
  - destruct Hs as [i p l Hi Hl|i p k l Hi Hl|i p k Hi]; cbn.
    + apply wait_and_pop_Some in Hl as ->. pose proof (busy_insert _ _ _ Stopped Hi) as Hb. cbn in *. lia.
    + apply wait_and_pop_Some in Hl as ->. pose proof (busy_insert _ _ _ (Busy k) Hi) as Hb. cbn in *. lia.
    + pose proof (busy_insert _ _ _ Idle Hi) as Hb. cbn in *. lia.
  - unfold push_front. rewrite length_app. cbn. lia.
Qed.

Lemma drain_bounded n k pc q : nsteps (drain n) k pc q → (k ≤ work_left n pc)%nat.
Proof. induction 1 as [pc|k pc pc1 q Hs _ IH]; [lia|]. apply drain_decreases in Hs. lia. Qed.

Lemma drain_invariant {n} (I : Pool * nat → Prop) a b :
  (∀ x y, drain n x y → I x → I y) → rtc (drain n) a b → I a → I b.
Proof. intros HI. induction 1 as [a|a a1 b Hs _ IH]; [done|]. intros Ha. by eapply IH, HI. Qed.

(** Without a request to stop no thread stops: [stop(false)] would wait for ever. *)
Lemma running_no_stop n p :
  rtc running_step (pool0 n) p →
  stopped (m_threads p) = O ∧ length (m_threads p) = n ∧ ∃ ks, m_tasks p = REGULAR <$> ks.
Proof.
  assert (∀ q, stopped (m_threads q) = O ∧ length (m_threads q) = n ∧ (∃ ks, m_tasks q = REGULAR <$> ks) →
    rtc running_step q p → stopped (m_threads p) = O ∧ length (m_threads p) = n ∧ ∃ ks, m_tasks p = REGULAR <$> ks) as H.
  { intros q Hq Hr. revert Hq. induction Hr as [q|q q1 p Hs _ IH]; [done|]. intros (H1 & H2 & ks & H3). apply IH.
    destruct Hs as [q q1 Hs|k q]; cbn.
    - destruct Hs as [i q l Hi Hl|i q k l Hi Hl|i q k Hi]; cbn; rewrite ?length_insert.
      + apply wait_and_pop_Some in Hl. rewrite H3 in Hl. by destruct ks.
      + apply wait_and_pop_Some in Hl. rewrite H3 in Hl. destruct ks as [|k' ks]; [done|]. injection Hl as -> <-.
        pose proof (stopped_insert _ _ _ (Busy k) Hi) as Hst. cbn in Hst. split_and!; [lia|done|by exists ks].
      + pose proof (stopped_insert _ _ _ Idle Hi) as Hst. cbn in Hst. split_and!; [lia|done|by exists ks].
    - split_and!; [done|done|]. exists (ks ++ [k]). unfold push_back. by rewrite H3, fmap_app. }
  apply H. cbn. split_and!; [|by rewrite length_replicate|by exists []].
  clear. unfold stopped. induction n as [|n IH]; [done|]. cbn [replicate]. by rewrite filter_cons_False.
Qed.

Lemma drain_pool_step n pc pc' : drain n pc pc' → pool_step pc.1 pc'.1.
Proof. intros [p p' c Hs|p c Hlt]; by constructor. Qed.

Lemma not_all_stopped l : stopped l ≠ length l → ∃ i t, l !! i = Some t ∧ t ≠ Stopped.
Proof.
  induction l as [|t l IH]; [done|]. unfold stopped. rewrite filter_cons. case_decide as Ht; cbn.
  - intros Hne. destruct IH as (i & t' & Hi & Ht'); [unfold stopped; lia|]. by exists (S i), t'.
  - intros _. by exists O, t.
Qed.

Lemma all_stopped l : stopped l = length l → Forall (λ t, t = Stopped) l ∧ omap busy_of l = [].
Proof.
  induction l as [|t l IH]; [done|]. unfold stopped. rewrite filter_cons. case_decide as Ht; cbn.
  - intros [= H]. destruct (IH H) as [H1 H2]. subst t. split; [by constructor|done].
  - intros H. pose proof (length_filter (λ t, t = Stopped) l). lia.
Qed.

(** Stopping the pool.  However the threads and the loop of [stop_threads] interleave,
    the remaining steps are bounded, so all executions end, given that the tasks
    return; and where no step is left every thread has ended and every task
    that was submitted before has been run, the queued ones included. *)
Theorem stop_drains n p0 p c :
  (0 < n)%nat → rtc running_step (pool0 n) p0 → rtc (drain n) (p0, O) (p, c) →
  (∀ k q, nsteps (drain n) k (p, c) q → (k ≤ work_left n (p, c))%nat) ∧
  ((∀ q, ¬ drain n (p, c) q) →
    Forall (λ t, t = Stopped) (m_threads p) ∧ m_tasks p = [] ∧ returned p ≡ₚ submitted p).
Proof.
  intros Hn Hr0 Hr. split; [intros k q; apply drain_bounded|]. intros Hend. destruct (running_no_stop n p0 Hr0) as (Hs0 & Hn0 & ks0 & Hq0).
  assert (drain_inv n (p, c)) as (ks & m & Hq & Hm & Hc & Hlen & Hk).
  { eapply (drain_invariant _ _ _ (drain_step_inv n) Hr).
    exists ks0, O. cbn. rewrite app_nil_r. split_and!; try done; lia. }
  cbn in Hq, Hm, Hc, Hlen, Hk.
  assert (c = n) as ->.
  { destruct (decide (c < n)%nat) as [Hlt|]; [|lia]. destruct (Hend (push_stop p, S c)). by constructor. }
  assert (stopped (m_threads p) = n) as Hall.
  { destruct (decide (stopped (m_threads p) = n)) as [|Hne]; [done|]. exfalso.
    destruct (not_all_stopped (m_threads p)) as (i & t & Hi & Ht); [lia|].
    destruct t as [|k|]; [|eapply Hend; apply drain_worker; by eapply task_returns|done].
    destruct (m_tasks p) as [|x l] eqn:El.
    - assert (m = O) by (destruct m; [done|]; destruct ks; done). lia.
    - destruct x as [|k]; eapply Hend; apply drain_worker; [eapply take_stop|eapply take_task]; try done; by rewrite El. }
  destruct (all_stopped (m_threads p)) as [Hst Hbusy]; [lia|]. split; [done|].
  assert (m = O) as -> by lia. assert (ks = []) as ->.
  { destruct ks; [done|]. specialize (Hk ltac:(done)). lia. }
  split; [done|].
  assert (pool_inv p) as [Hq' Hb].
  { apply (drain_invariant (n:=n) (λ x, pool_inv x.1) (p0, O) (p, n)); [|done|].
    - intros x y Hs. apply pool_step_inv. by eapply drain_pool_step.
    - apply (pool_reachable_inv n). eapply rtc_congruence with (f := λ x, x); [|exact Hr0].
      intros x y [? ? Hw|]; by constructor. }
  rewrite Hq in Hq'. cbn in Hq'. rewrite app_nil_r in Hq'. rewrite Hbusy, app_nil_r in Hb. by rewrite Hb, Hq'.
Qed.

(** ** Runs *)

Definition sample_world : World (J := Z) (Rest := Z) := mkWorld ∅ ∅ [] 10 0.

(** A subtask that takes time and counts. *)
Definition tick : M (World (J := Z) (Rest := Z)) unit :=
  modify (λ w, mkWorld (tasks w) (m_results w) (events w) (clock w + 1) (env w + 1)).
Definition sample_response : M (World (J := Z) (Rest := Z)) Z := w ← get; mret (env w).
Definition sample_pending : World (J := Z) (Rest := Z) :=
  mkWorld {["t" := set_state Pending resource0]} ∅ [] 10 0.

Lemma keeps_tick : keeps "t" tick.
Proof. intros w r w' [= <- <-]. done. Qed.
Lemma keeps_throw e : keeps "t" (@throw (World (J := Z) (Rest := Z)) unit e).
Proof. intros w r w' [= <- <-]. done. Qed.

Lemma task_outcome_witness :
  ∃ t w1, make_task "t" [tick; throw not_found] sample_response None sample_world = (Ok t, w1) ∧
    ∃ w', operator_call t sample_pending = (Ok tt, w') ∧
      tasks w' !! "t" = Some (mkResource Exception (Some 10) (Some 11)) ∧
      m_results w' !! "t" = Some (Error not_found).
Proof.
  destruct (task_outcome "t" [tick; throw not_found] sample_response None sample_pending sample_world (λ e, e))
    as (t & w1 & E & _ & H).
  - reflexivity.
  - reflexivity.
  - apply Forall_cons_2; [exact keeps_tick|]. apply Forall_cons_2; [exact (keeps_throw _)|apply Forall_nil_2].
  - intros w r w' Hw. injection Hw as <- <-. done.
  - intros v. by eexists _, _.
  - intros f e v Hf. discriminate Hf.
  - exists t, w1. split; [exact E|]. apply H. split; reflexivity.
Defined.

Lemma failing_response_escapes_witness :
  ∃ w', operator_call (built "t" [tick] (throw not_found) None) sample_pending =
      (Throw (logic_error "Cannot end task"), w') ∧
    tasks w' !! "t" = Some (mkResource Exception (Some 10) (Some 11)) ∧ m_results w' !! "t" = None.
Proof.
  apply (failing_response_escapes "t" [tick] (throw not_found) None sample_pending
    (for_each [tick] (λ a, a) (started "t" sample_pending)).2 not_found
    (completed "t" 10 (for_each [tick] (λ a, a) (started "t" sample_pending)).2)).
  - apply Forall_cons_2; [exact keeps_tick|apply Forall_nil_2].
  - intros w r w' Hw. injection Hw as <- <-. done.
  - split; reflexivity.
  - reflexivity.
  - reflexivity.
Defined.


Lemma stop_drains_witness :
  (∀ k q, nsteps (drain 1) k (pool_run 7 (pool0 1), O) q → (k ≤ 5)%nat) ∧
  ((∀ q, ¬ drain 1 (mkPool [] [Stopped] [] [] [], 1%nat) q) →
    Forall (λ t, t = Stopped) [Stopped] ∧ ([] : list nat) ≡ₚ []).
Proof.
  split.
  - apply (stop_drains 1 (pool_run 7 (pool0 1)) (pool_run 7 (pool0 1)) O).
    + lia.
    + apply rtc_once, (running_run 7).
    + apply rtc_refl.
  - intros Hend.
    destruct (stop_drains 1 (pool0 1) (mkPool [] [Stopped] [] [] []) 1) as [_ H].
    + lia.
    + apply rtc_refl.
    + eapply rtc_l; [apply drain_stop; lia|]. apply rtc_once, drain_worker. by apply (take_stop O).
    + destruct (H Hend) as (H1 & _ & H2). split; [exact H1|exact H2].
Defined.

End Tasks.
