(* ===== verification/Json.v ===== *)
(** The values the program exchanges: IEEE doubles, as far as the code computes
    with them, and the interface of the JSON library.

    json::Json (common/json/include/json-wrapper/json-wrapper.hpp) is
    nlohmann::json 2.1.1, which is fetched at build time; it is a class [Json] of
    the operations the code calls, with the documented behaviour the proofs rely
    on as the class [JsonLaws].  [model] is an instance of both, a tree of
    values, for the witnesses. *)

From Stdlib Require Import ZArith Lia Ascii.
From S2P Require Import Prelude.

Open Scope string_scope.
Open Scope Z_scope.

(** ** Doubles

    A finite double is [m * 2 ^ e].  The operations below are the ones the code
    uses: comparison, [modf], the conversion of a double to an integer and the
    conversion of an integer to the nearest double. *)

Inductive double :=
  | finite (m e : Z)
  | infinite (negative : bool)
  | nan.

#[global] Instance double_eq_dec : EqDecision double.
Proof. solve_decision. Defined.

Module Double.

(** [x < y] *)
Definition ltb (x y : double) : bool :=
  match x, y with
  | finite m1 e1, finite m2 e2 =>
      let e := Z.min e1 e2 in m1 * 2 ^ (e1 - e) <? m2 * 2 ^ (e2 - e)
  | infinite true, finite _ _ | finite _ _, infinite false | infinite true, infinite false => true
  | _, _ => false
  end.

(** The value without its fraction. *)
Definition trunc (m e : Z) : Z :=
  if 0 <=? e then m * 2 ^ e else Z.quot m (2 ^ (- e)).

(** [modf(x, &integral) != 0.0] *)
Definition has_fraction (x : double) : bool :=
  match x with
  | finite m e => (e <? 0) && negb (Z.rem m (2 ^ (- e)) =? 0)
  | infinite _ => false
  | nan => true
  end.

(** The double nearest to an integer, ties to even. *)
Definition of_integer (z : Z) : double :=
  let a := Z.abs z in
  let e := Z.log2 a - 52 in
  if e <=? 0 then finite z 0
  else
    let q := a / 2 ^ e in
    let r := a mod 2 ^ e in
    let half := 2 ^ (e - 1) in
    let q' := if (half <? r) || ((half =? r) && Z.odd q) then q + 1 else q in
    finite (Z.sgn z * q') e.

(** A double that is an integer. *)
Definition integral (x : double) : option Z :=
  match x with
  | finite m e => if has_fraction x then None else Some (trunc m e)
  | _ => None
  end.

End Double.

(** ** The interface of nlohmann::json *)

(** [nlohmann::json::value_t] *)
Inductive value_t :=
  | null | object | array | string_ | boolean | number_integer | number_unsigned | number_float.

#[global] Instance value_t_eq_dec : EqDecision value_t.
Proof. solve_decision. Defined.

Class Json (J : Type) := {
  json_type : J → value_t;                 (** [type()] *)
  json_find : J → string → option J;       (** [find(key)] *)
  json_erase : J → string → J;             (** [erase(key)] *)
  json_insert : J → string → J → J;        (** [o[key] = v] *)
  json_empty : J → bool;                   (** [empty()] *)
  json_first_key : J → string;             (** [begin().key()] *)
  json_elements : J → list J;              (** the elements of an array *)
  json_string : J → string;                (** the string a string value holds *)
  json_boolean : J → bool;
  json_integer : J → Z;                    (** the stored 64-bit integer *)
  json_double : J → double;                (** the stored double *)
  json_dump : J → string;                  (** [dump()] *)
  json_null : J;                           (** [json::Json()] *)
  json_of_string : string → J;
  json_of_boolean : bool → J;
  json_of_unsigned : Z → J;
  json_of_integer : Z → J;                 (** of a signed integer type *)
  json_of_array : list J → J;
  json_object : J;                         (** [Json::object()] *)
}.

Section queries.
Context `{Json J}.
Implicit Types v : J.

Definition is_null v : bool := bool_decide (json_type v = null).
Definition is_object v : bool := bool_decide (json_type v = object).
Definition is_array v : bool := bool_decide (json_type v = array).
Definition is_string v : bool := bool_decide (json_type v = string_).
Definition is_boolean v : bool := bool_decide (json_type v = boolean).

(** [is_number_integer]: signed or unsigned. *)
Definition is_number_integer v : bool :=
  bool_decide (json_type v = number_integer) || bool_decide (json_type v = number_unsigned).
Definition is_number_float v : bool := bool_decide (json_type v = number_float).
Definition is_number v : bool := is_number_integer v || is_number_float v.

(** [count(key)] *)
Definition json_count v (key : string) : nat :=
  match json_find v key with Some _ => 1 | None => 0 end.

(** [size()] of an array *)
Definition json_size v : nat := length (json_elements v).

End queries.

Class JsonLaws (J : Type) `{Json J} := {
  find_object (o v : J) k : json_find o k = Some v → json_type o = object;
  find_erase (o : J) k k' :
    json_find (json_erase o k) k' = if decide (k = k') then None else json_find o k';
  type_erase (o : J) k : json_type (json_erase o k) = json_type o;
  find_insert (o v : J) k k' :
    json_type o = object ∨ json_type o = null →
    json_find (json_insert o k v) k' = if decide (k = k') then Some v else json_find o k';
  type_insert (o v : J) k :
    json_type o = object ∨ json_type o = null → json_type (json_insert o k v) = object;
  empty_object (o : J) :
    json_type o = object → json_empty o = true ↔ ∀ k, json_find o k = None;
  empty_array (v : J) :
    json_type v = array → json_empty v = true ↔ json_elements v = [];
  empty_null (v : J) : json_type v = null → json_empty v = true;
  empty_string (v : J) : json_type v = string_ → json_empty v = false;
  first_key_found (o : J) :
    json_type o = object → json_empty o = false → is_Some (json_find o (json_first_key o));
  integer_range (v : J) :
    json_type v = number_integer → - 2 ^ 63 ≤ json_integer v < 2 ^ 63;
  unsigned_range (v : J) :
    json_type v = number_unsigned → 0 ≤ json_integer v < 2 ^ 64;
  type_null : json_type (J:=J) json_null = null;
  type_of_string s : json_type (J:=J) (json_of_string s) = string_;
  string_of_string s : json_string (J:=J) (json_of_string s) = s;
  type_of_boolean b : json_type (J:=J) (json_of_boolean b) = boolean;
  boolean_of_boolean b : json_boolean (J:=J) (json_of_boolean b) = b;
  type_of_unsigned z : json_type (J:=J) (json_of_unsigned z) = number_unsigned;
  integer_of_unsigned z :
    0 ≤ z < 2 ^ 64 → json_integer (J:=J) (json_of_unsigned z) = z;
  type_of_integer z : json_type (J:=J) (json_of_integer z) = number_integer;
  integer_of_integer z :
    - 2 ^ 63 ≤ z < 2 ^ 63 → json_integer (J:=J) (json_of_integer z) = z;
  type_of_array l : json_type (J:=J) (json_of_array l) = array;
  elements_of_array l : json_elements (J:=J) (json_of_array l) = l;
  type_of_object : json_type (J:=J) json_object = object;
  find_empty_object k : json_find (J:=J) json_object k = None;
}.

Section facts.
Context `{JsonLaws J}.

Lemma find_null (v : J) k : json_type v = null → json_find v k = None.
Proof.
  intros Hv. destruct (json_find v k) eqn:E; [|done]. apply find_object in E. by rewrite Hv in E.
Qed.

(** An object holds a key at most once. *)
Lemma count_le_1 (v : J) k : (json_count v k ≤ 1)%nat.
Proof. unfold json_count. destruct (json_find v k); lia. Qed.

End facts.

(** ** A model of the interface

    A tree of values; an object is a list of members in the order of the keys. *)

Module Tree.

Inductive t :=
  | Null
  | Boolean (b : bool)
  | Integer (z : Z)
  | Unsigned (z : Z)
  | Float (d : double)
  | String (s : string)
  | Array (l : list t)
  | Object (members : list (string * t)).

Definition type (v : t) : value_t :=
  match v with
  | Null => null | Boolean _ => boolean | Integer _ => number_integer
  | Unsigned _ => number_unsigned | Float _ => number_float | String _ => string_
  | Array _ => array | Object _ => object
  end.

Definition members (v : t) : list (string * t) :=
  match v with Object l => l | _ => [] end.

Fixpoint assoc (l : list (string * t)) (k : string) : option t :=
  match l with
  | [] => None
  | (k', v) :: l' => if decide (k' = k) then Some v else assoc l' k
  end.

Fixpoint put_member (l : list (string * t)) (k : string) (v : t) : list (string * t) :=
  match l with
  | [] => [(k, v)]
  | (k', v') :: l' =>
      if decide (k' = k) then (k, v) :: l'
      else if String.ltb k k' then (k, v) :: l
      else (k', v') :: put_member l' k v
  end.

Definition erase (v : t) (k : string) : t :=
  match v with Object l => Object (filter (λ m, m.1 ≠ k) l) | _ => v end.

Definition empty (v : t) : bool :=
  match v with
  | Null => true
  | Array l => bool_decide (length l = 0%nat)
  | Object l => bool_decide (length l = 0%nat)
  | _ => false
  end.

Definition first_key (v : t) : string :=
  match members v with (k, _) :: _ => k | [] => EmptyString end.

(** The stored integers have 64 bits. *)
Definition integer (v : t) : Z :=
  match v with
  | Integer z => (z + 2 ^ 63) mod 2 ^ 64 - 2 ^ 63
  | Unsigned z => z mod 2 ^ 64
  | _ => 0
  end.

(** *** A text of a tree

    Not the syntax of JSON: a code from which [parse] finds the tree again. *)

#[global] Instance double_eq_dec : EqDecision double.
Proof. solve_decision. Defined.

#[global] Instance double_countable : Countable double.
Proof.
  refine (inj_countable'
    (λ d, match d with finite m e => inl (m, e) | infinite n => inr (Some n) | nan => inr None end)
    (λ c, match c with inl (m, e) => finite m e | inr (Some n) => infinite n | inr None => nan end) _).
  by intros [].
Defined.

Abbreviation leaf := (unit + bool + Z + Z + double + string)%type.

Fixpoint to_code (v : t) : gen_tree leaf :=
  match v with
  | Null => GenLeaf (inl (inl (inl (inl (inl ())))))
  | Boolean b => GenLeaf (inl (inl (inl (inl (inr b)))))
  | Integer z => GenLeaf (inl (inl (inl (inr z))))
  | Unsigned z => GenLeaf (inl (inl (inr z)))
  | Float d => GenLeaf (inl (inr d))
  | String s => GenLeaf (inr s)
  | Array l => GenNode 0 (map to_code l)
  | Object l =>
      GenNode 1 ((fix go (l : list (string * t)) :=
        match l with [] => [] | (k, v') :: l' => GenLeaf (inr k) :: to_code v' :: go l' end) l)
  end.

(** The members of an object, from the codes of the keys and values in turn. *)
Fixpoint pair_up (l : list t) : list (string * t) :=
  match l with
  | String k :: v :: l' => (k, v) :: pair_up l'
  | _ => []
  end.

Fixpoint of_code (c : gen_tree leaf) : t :=
  match c with
  | GenLeaf (inl (inl (inl (inl (inl ()))))) => Null
  | GenLeaf (inl (inl (inl (inl (inr b))))) => Boolean b
  | GenLeaf (inl (inl (inl (inr z)))) => Integer z
  | GenLeaf (inl (inl (inr z))) => Unsigned z
  | GenLeaf (inl (inr d)) => Float d
  | GenLeaf (inr s) => String s
  | GenNode O l => Array (map of_code l)
  | GenNode (S _) l => Object (pair_up (map of_code l))
  end.

Lemma of_to_code v : of_code (to_code v) = v.
Proof.
  revert v. fix IH 1. intros [|b|z|z|d|s|l|l]; [reflexivity..| |]; simpl; f_equal.
  - induction l as [|v l IHl]; [done|]. simpl. by rewrite IH, IHl.
  - induction l as [|[k v] l IHl]; [done|]. simpl. by rewrite IH, IHl.
Qed.

Fixpoint digits_of (p : positive) : string :=
  match p with
  | xH => EmptyString
  | xO p' => String.String "0" (digits_of p')
  | xI p' => String.String "1" (digits_of p')
  end.

Fixpoint of_digits (s : string) : positive :=
  match s with
  | EmptyString => xH
  | String.String c s' => if decide (c = "0"%char) then xO (of_digits s') else xI (of_digits s')
  end.

Lemma of_digits_of p : of_digits (digits_of p) = p.
Proof. induction p as [p IH|p IH|]; simpl; by rewrite ?IH. Qed.

Definition dump (v : t) : string := digits_of (encode (to_code v)).

Definition parse (text : string) : string + t :=
  match decode (of_digits text) with
  | Some c => inr (of_code c)
  | None => inl "parse error"
  end.

Lemma parse_of_dump v : parse (dump v) = inr v.
Proof. unfold parse, dump. by rewrite of_digits_of, decode_encode, of_to_code. Qed.

#[global] Instance tree_json : Json t := {|
  json_type := type;
  json_find v k := assoc (members v) k;
  json_erase := erase;
  json_insert o k v := Object (put_member (members o) k v);
  json_empty := empty;
  json_first_key := first_key;
  json_elements v := match v with Array l => l | _ => [] end;
  json_string v := match v with String s => s | _ => EmptyString end;
  json_boolean v := match v with Boolean b => b | _ => false end;
  json_integer := integer;
  json_double v := match v with Float d => d | _ => finite 0 0 end;
  json_dump := dump;
  json_null := Null;
  json_of_string := String;
  json_of_boolean := Boolean;
  json_of_unsigned := Unsigned;
  json_of_integer := Integer;
  json_of_array := Array;
  json_object := Object [] |}.

Lemma assoc_filter l k k' :
  assoc (filter (λ m, m.1 ≠ k) l) k' = if decide (k = k') then None else assoc l k'.
Proof.
  induction l as [|[j v] l IH]; [by case_decide|]. rewrite filter_cons. simpl.
  destruct (decide (j ≠ k)) as [Hj|Hj]; simpl; rewrite IH; repeat case_decide; subst; try done.
Qed.

Lemma assoc_put l k v k' :
  assoc (put_member l k v) k' = if decide (k = k') then Some v else assoc l k'.
Proof.
  induction l as [|[j w] l IH]; simpl; [done|].
  destruct (decide (j = k)) as [->|Hj]; simpl; [by repeat case_decide|].
  destruct (String.ltb k j); simpl; [done|]. rewrite IH. repeat case_decide; subst; done.
Qed.

#[global] Instance tree_laws : JsonLaws t.
Proof.
  split; try by intros [].
  - intros [| | | | | | |l] k k'; simpl; try by case_decide. apply assoc_filter.
  - intros o v k k' Ho. apply assoc_put.
  - intros [| | | | | | |[|[k v] l]] Ho; try done. simpl. split; [done|]. intros Hk.
    specialize (Hk k). simpl in Hk. by rewrite decide_True in Hk.
  - by intros [| | | | | |[]|] Hv.
  - intros [| | | | | | |[|[k v] l]] Ho; try done. intros _. simpl. by rewrite decide_True.
  - intros [] Hv; try done. simpl.
    pose proof (Z.mod_pos_bound (z + 2 ^ 63) (2 ^ 64)). lia.
  - intros [] Hv; try done. simpl. apply Z.mod_pos_bound. lia.
  - done.
  - intros z Hz. by apply Z.mod_small.
  - intros z Hz. cbn. rewrite Z.mod_small; lia.
  - done.
Qed.

End Tree.

(** ** Facts about doubles *)

Module DoubleFacts.
Import Double.

(** Rounding an integer to a double does not cross a power of two. *)
Lemma of_integer_bound z k :
  0 ≤ k → Z.abs z ≤ 2 ^ k →
  ∃ m e, of_integer z = finite m e ∧ 0 ≤ e ∧ Z.abs m * 2 ^ e ≤ 2 ^ k ∧ Z.sgn m = Z.sgn z.
Proof.
  intros Hk Hz. unfold of_integer.
  destruct (Z.leb_spec (Z.log2 (Z.abs z) - 52) 0) as [He|He].
  { exists z, 0. split_and!; try done; try lia. }
  set (a := Z.abs z) in *. set (e := Z.log2 a - 52) in *.
  match goal with |- context [finite (Z.sgn z * ?x) _] => set (q' := x) end.
  assert (0 < a) as Ha.
  { destruct (Z.eq_dec a 0) as [Ea|]; [|lia]. unfold e in He. by rewrite Ea in He. }
  pose proof (Z.log2_spec a Ha) as [Hl _].
  assert (Z.log2 a ≤ k) as Hlk by (apply (Z.pow_le_mono_r_iff 2); lia).
  assert (2 ^ k = 2 ^ (k - e) * 2 ^ e) as Hp by (rewrite <- Z.pow_add_r by lia; f_equal; lia).
  assert (0 < 2 ^ e) as He0 by (apply Z.pow_pos_nonneg; lia).
  assert (0 < 2 ^ (e - 1)) as Hh0 by (apply Z.pow_pos_nonneg; lia).
  assert (0 < q' ∧ q' * 2 ^ e ≤ 2 ^ k) as [Hq1 Hq2].
  { pose proof (Z.div_mod a (2 ^ e)) as Hdm. pose proof (Z.mod_pos_bound a (2 ^ e) He0) as Hm.
    assert (1 ≤ a / 2 ^ e) as Hq.
    { apply Z.div_le_lower_bound; [lia|]. rewrite Z.mul_1_r.
      etransitivity; [|exact Hl]. apply Z.pow_le_mono_r; lia. }
    assert (0 < q' ∧ q' ≤ 2 ^ (k - e)) as [? ?]; [|split; nia].
    unfold q'. destruct (_ || _) eqn:E; split; [lia| |lia|].
    - assert (0 < a mod 2 ^ e); [|nia].
      apply orb_true_iff in E as [E|[E _]%andb_true_iff]; lia.
    - nia. }
  exists (Z.sgn z * q'), e. split_and!; [done|lia| |].
  - rewrite Z.abs_mul, (Z.abs_eq q') by lia.
    assert (Z.abs (Z.sgn z) = 1) as -> by lia. lia.
  - rewrite Z.sgn_mul, Z.sgn_sgn, (Z.sgn_pos q') by lia. lia.
Qed.

Lemma ltb_finite m1 e1 m2 :
  0 ≤ e1 → ltb (finite m1 e1) (finite m2 0) = (m1 * 2 ^ e1 <? m2) ∧
  ltb (finite m2 0) (finite m1 e1) = (m2 <? m1 * 2 ^ e1).
Proof. intros He. unfold ltb. rewrite Z.min_r, Z.min_l, !Z.sub_0_r, !Z.mul_1_r by lia. done. Qed.

(** The comparison of two finite doubles at any exponent that is not above theirs. *)
Lemma ltb_at m1 e1 m2 e2 e :
  e ≤ e1 → e ≤ e2 → ltb (finite m1 e1) (finite m2 e2) = (m1 * 2 ^ (e1 - e) <? m2 * 2 ^ (e2 - e)).
Proof.
  intros H1 H2. unfold ltb. set (k := Z.min e1 e2).
  assert (0 < 2 ^ (k - e)) as Hp by (apply Z.pow_pos_nonneg; lia).
  replace (e1 - e) with ((e1 - k) + (k - e)) by lia. replace (e2 - e) with ((e2 - k) + (k - e)) by lia.
  rewrite !Z.pow_add_r by lia. apply Bool.eq_true_iff_eq. rewrite !Z.ltb_lt. nia.
Qed.

(** A power of two may stand in the mantissa or in the exponent. *)
Lemma ltb_scale_r d m k e : 0 ≤ k → ltb d (finite (m * 2 ^ k) e) = ltb d (finite m (k + e)).
Proof.
  intros Hk. destruct d as [m1 e1|[]|]; [|done..]. set (a := Z.min e1 e).
  rewrite (ltb_at _ _ _ _ a), (ltb_at _ _ _ _ a) by lia.
  by rewrite <- Z.mul_assoc, <- Z.pow_add_r, Z.add_sub_assoc by lia.
Qed.

Lemma ltb_scale_l d m k e : 0 ≤ k → ltb (finite (m * 2 ^ k) e) d = ltb (finite m (k + e)) d.
Proof.
  intros Hk. destruct d as [m1 e1|[]|]; [|done..]. set (a := Z.min e1 e).
  rewrite (ltb_at _ _ _ _ a), (ltb_at _ _ _ _ a) by lia.
  by rewrite <- Z.mul_assoc, <- Z.pow_add_r, Z.add_sub_assoc by lia.
Qed.

(** A double below an integer is below it after the fraction is cut off, when there is none. *)
Lemma ltb_trunc m e z :
  has_fraction (finite m e) = false →
  ltb (finite m e) (finite z 0) = (trunc m e <? z) ∧
  ltb (finite z 0) (finite m e) = (z <? trunc m e).
Proof.
  unfold has_fraction, trunc. destruct (Z.leb_spec 0 e) as [He|He].
  { intros _. by apply ltb_finite. }
  destruct (Z.ltb_spec e 0) as [_|]; [|lia]. simpl. intros Hr.
  apply negb_false_iff, Z.eqb_eq in Hr.
  assert (0 < 2 ^ (- e)) as Hp by (apply Z.pow_pos_nonneg; lia).
  assert (m = 2 ^ (- e) * Z.quot m (2 ^ (- e))) as Hm.
  { rewrite (Z.quot_rem' m (2 ^ (- e))) at 1. lia. }
  unfold ltb. rewrite Z.min_l, Z.min_r, Z.sub_diag, Z.mul_1_r by lia.
  replace (0 - e) with (- e) by lia. set (q := Z.quot m (2 ^ (- e))) in *.
  split; apply Bool.eq_true_iff_eq; rewrite !Z.ltb_lt; nia.
Qed.

End DoubleFacts.
