(* ===== verification/JsonText.v ===== *)
(** The text of JSON documents: [dump], [parse] and [operator==] of the JSON
    library, and what survives a document's way through a connection.

    [JsonText] adds these operations to the interface of Json.  A document that
    is printed and read back is not the same value, since an integer that is not
    negative is read as unsigned; it is the same document, the equivalence
    [json_same] that [JsonTextLaws] states and that the queries respect. *)

From Stdlib Require Import ZArith Lia Ascii.
From stdpp Require Import countable.
From S2P Require Import Prelude.
From S2P Require Import Json.

Open Scope string_scope.
Open Scope list_scope.
Open Scope Z_scope.

Class JsonText (J : Type) `{Json J} := {
  json_parse : string → string + J;   (** [Json::parse]; the text of its exception on the left *)
  json_eqb : J → J → bool;            (** [operator==] *)
  json_keys : J → list string;        (** the keys of an object *)
}.

(** [size()] of an object *)
Definition json_members `{JsonText J} (v : J) : nat := length (json_keys v).

(** [is_structured()] *)
Definition is_structured `{Json J} (v : J) : bool := is_array v || is_object v.

(** The types up to the two kinds of integers. *)
Definition text_type (t : value_t) : value_t :=
  match t with number_unsigned => number_integer | t' => t' end.

(** A text of seven-bit characters. *)
Definition seven_bit (s : string) : bool :=
  forallb (λ c, (N_of_ascii c <? 128)%N) (String.list_ascii_of_string s).

Class JsonTextLaws (J : Type) `{JsonText J} := {
  json_same :: Equiv J;               (** the same document *)
  printable : J → Prop;               (** [parse] reads what [dump] writes *)
  printable_string : string → Prop;   (** well-formed UTF-8 *)
  json_same_equivalence :: Equivalence (≡@{J});
  parse_dump (v : J) : printable v → ∃ v', json_parse (json_dump v) = inr v' ∧ v' ≡ v;
  eqb_same (a b : J) : printable a → b ≡ a → json_eqb b a = true;
  keys_spec (o : J) k : json_type o = object → k ∈ json_keys o ↔ is_Some (json_find o k);
  keys_NoDup (o : J) : NoDup (json_keys o);
  same_null (v : J) : json_type v = null → v ≡ json_null;
  same_find (a b : J) k : a ≡ b → json_find a k ≡ json_find b k;
  same_type (a b : J) : a ≡ b → text_type (json_type a) = text_type (json_type b);
  same_keys (a b : J) : a ≡ b → json_keys a = json_keys b;
  same_elements (a b : J) : a ≡ b → json_elements a ≡ json_elements b;
  same_string (a b : J) : a ≡ b → json_string a = json_string b;
  same_integer (a b : J) :
    a ≡ b → is_number_integer a = true → json_integer a = json_integer b;
  printable_same (a b : J) : a ≡ b → printable a → printable b;
  printable_find (o v : J) k : printable o → json_find o k = Some v → printable v;
  printable_null : printable json_null;
  printable_of_string s : printable_string s → printable (json_of_string s);
  printable_of_integer z : printable (json_of_integer z);
  printable_of_array l : Forall printable l → printable (json_of_array l);
  printable_insert (o v : J) k :
    json_type o = object ∨ json_type o = null → printable o → printable_string k → printable v →
    printable (json_insert o k v);
  printable_ascii s : seven_bit s = true → printable_string s;
  printable_append s s' :
    printable_string s → printable_string s' → printable_string (s +:+ s');
}.

Section facts.
Context `{JsonLaws J, !JsonText J, !JsonTextLaws J}.
Implicit Types a b : J.

(** A query of the type that does not tell the kinds of integers apart. *)
Ltac by_type :=
  intros a b E%same_type;
  unfold is_object, is_array, is_null, is_string, is_number_integer, is_number_float; destruct (json_type a), (json_type b); try done; by simpl in E.

#[global] Instance is_object_proper : Proper ((≡) ==> (=)) (is_object (J:=J)).
Proof. by_type. Qed.

#[global] Instance is_array_proper : Proper ((≡) ==> (=)) (is_array (J:=J)).
Proof. by_type. Qed.

#[global] Instance is_null_proper : Proper ((≡) ==> (=)) (is_null (J:=J)).
Proof. by_type. Qed.

#[global] Instance is_string_proper : Proper ((≡) ==> (=)) (is_string (J:=J)).
Proof. by_type. Qed.

#[global] Instance is_number_integer_proper : Proper ((≡) ==> (=)) (is_number_integer (J:=J)).
Proof. by_type. Qed.

#[global] Instance is_number_float_proper : Proper ((≡) ==> (=)) (is_number_float (J:=J)).
Proof. by_type. Qed.

#[global] Instance is_number_proper : Proper ((≡) ==> (=)) (is_number (J:=J)).
Proof. intros a b E. unfold is_number. by rewrite E. Qed.

#[global] Instance is_structured_proper : Proper ((≡) ==> (=)) (is_structured (J:=J)).
Proof. intros a b E. unfold is_structured. by rewrite E. Qed.

#[global] Instance json_find_proper : Proper ((≡) ==> (=) ==> (≡)) (json_find (J:=J)).
Proof. intros a b E k k' <-. by apply same_find. Qed.

#[global] Instance json_string_proper : Proper ((≡) ==> (=)) (json_string (J:=J)).
Proof. intros a b E. by apply same_string. Qed.

#[global] Instance json_elements_proper : Proper ((≡) ==> (≡)) (json_elements (J:=J)).
Proof. intros a b E. by apply same_elements. Qed.

#[global] Instance json_members_proper : Proper ((≡) ==> (=)) (json_members (J:=J)).
Proof. intros a b E. unfold json_members. by rewrite (same_keys a b E). Qed.

#[global] Instance printable_proper : Proper ((≡) ==> iff) printable.
Proof. intros a b E. split; apply printable_same; [done|by symmetry]. Qed.

(** The number of members, from the keys that are found. *)
Lemma members_count (o : J) (ks : list string) :
  json_type o = object → NoDup ks → (∀ k, is_Some (json_find o k) ↔ k ∈ ks) → json_members o = length ks.
Proof.
  intros Ho Hks Hf. unfold json_members. apply Permutation_length, NoDup_Permutation; [apply keys_NoDup|done|].
  intros k. by rewrite keys_spec, Hf.
Qed.

End facts.

(** ** A model of the interface: trees and their codes *)

Module TreeText.
Import Tree.

#[global] Instance tree_eq_dec : EqDecision t.
Proof.
  refine (λ a b, cast_if (decide (to_code a = to_code b))).
  - abstract by rewrite <- (of_to_code a), e, of_to_code.
  - abstract congruence.
Defined.

#[global] Instance tree_text : JsonText t := {|
  json_parse := parse;
  json_eqb a b := bool_decide (a = b);
  json_keys v := remove_dups (members v).*1 |}.

Lemma assoc_elem l k : is_Some (assoc l k) ↔ k ∈ l.*1.
Proof.
  induction l as [|[j v] l IH]; simpl.
  - split; [by intros []|by intros ?%not_elem_of_nil].
  - rewrite list.elem_of_cons, <- IH. case_decide; split; [by left|by eexists|by right|].
    intros [->|]; done.
Qed.

#[global] Instance tree_text_laws : JsonTextLaws t.
Proof.
  refine {| json_same := (=); printable _ := True; printable_string _ := True |}; try done.
  - intros v _. exists v. split; [apply parse_of_dump|done].
  - intros a b _ ->. by apply bool_decide_eq_true.
  - intros o k Ho. cbn. by rewrite elem_of_remove_dups, assoc_elem.
  - intros o. apply NoDup_remove_dups.
  - by intros [].
  - intros a b k ->. by destruct (json_find b k); constructor.
  - by intros a b ->.
  - by intros a b ->.
  - intros a b ->. induction (json_elements b); by constructor.
  - by intros a b ->.
  - by intros a b -> _.
Defined.

End TreeText.
