(* ===== verification/Regex.v ===== *)
(** [std::regex_match] with the default ECMAScript grammar, for the patterns of
    agent-framework module/constants/regular_expressions.hpp.

    [parse] reads a pattern; [ends] computes the positions where a match of a
    parsed pattern that starts at a given position can end, and [spans] is the
    relation it decides ([elem_of_ends]).  The patterns use no back references,
    so which of several matches is preferred does not matter for [regex_match],
    which asks for a match of the whole text. *)

From Stdlib Require Import ZArith Lia Ascii.
From S2P Require Import Prelude.

Open Scope string_scope.
Open Scope list_scope.
Open Scope nat_scope.

(** ** Patterns *)

(** A bracket expression: characters from some ranges, or all others. *)
Record charset := { negated : bool; ranges : list (Z * Z) }.

Inductive regex :=
  | Epsilon
  | Chars (c : charset)
  | Seq (r1 r2 : regex)
  | Alt (r1 r2 : regex)
  | Repeat (r : regex) (min : nat) (max : option nat)
  | Begin                                     (** [^] *)
  | End_                                      (** [$] *)
  | NotAhead (r : regex).                     (** [(?!...)] *)

Definition in_charset (c : charset) (x : Z) : bool :=
  xorb (negated c) (existsb (λ r, (r.1 <=? x)%Z && (x <=? r.2)%Z) (ranges c)).

(** ** The positions where a match can end *)

Section match_text.
Variable text : list Z.

(** The positions reached from [i] by any number of steps, with each step
    going forward. *)
Fixpoint closure (step : nat → list nat) (fuel i : nat) : list nat :=
  match fuel with
  | O => [i]
  | S fuel' => i :: (filter (λ j, i < j) (step i) ≫= closure step fuel')
  end.

(** The positions reached by at most [k] steps. *)
Fixpoint up_to (step : nat → list nat) (k i : nat) : list nat :=
  match k with
  | O => [i]
  | S k' => remove_dups (i :: (step i ≫= up_to step k'))
  end.

(** The positions reached by exactly [k] steps. *)
Fixpoint exactly (step : nat → list nat) (k i : nat) : list nat :=
  match k with
  | O => [i]
  | S k' => remove_dups (step i ≫= exactly step k')
  end.

Fixpoint ends (r : regex) (i : nat) : list nat :=
  match r with
  | Epsilon => [i]
  | Chars c =>
      match text !! i with
      | Some x => if in_charset c x then [S i] else []
      | None => []
      end
  | Seq r1 r2 => remove_dups (ends r1 i ≫= ends r2)
  | Alt r1 r2 => ends r1 i ++ ends r2 i
  | Repeat r min max =>
      exactly (ends r) min i ≫= λ j,
        match max with
        | None => closure (ends r) (length text - j) j
        | Some m => up_to (ends r) (m - min) j
        end
  | Begin => if decide (i = 0) then [i] else []
  | End_ => if decide (i = length text) then [i] else []
  | NotAhead r => if decide (ends r i = []) then [i] else []
  end.

(** ** The relation *)

Fixpoint steps (R : nat → nat → Prop) (n i j : nat) : Prop :=
  match n with
  | O => i = j
  | S n' => ∃ k, R i k ∧ steps R n' k j
  end.

Fixpoint spans (r : regex) (i j : nat) : Prop :=
  match r with
  | Epsilon => i = j
  | Chars c => j = S i ∧ ∃ x, text !! i = Some x ∧ in_charset c x = true
  | Seq r1 r2 => ∃ k, spans r1 i k ∧ spans r2 k j
  | Alt r1 r2 => spans r1 i j ∨ spans r2 i j
  | Repeat r min max =>
      ∃ n, min ≤ n ∧ (match max with Some m => n ≤ Nat.max min m | None => True end)
           ∧ steps (spans r) n i j
  | Begin => i = 0 ∧ i = j
  | End_ => i = length text ∧ i = j
  | NotAhead r => i = j ∧ ∀ k, ¬ spans r i k
  end.

Lemma steps_add R n m i j :
  steps R (n + m) i j ↔ ∃ k, steps R n i k ∧ steps R m k j.
Proof.
  revert i. induction n as [|n IH]; intros i; simpl; [naive_solver|].
  setoid_rewrite IH. naive_solver.
Qed.

(** A match goes forward and stays in the text. *)
Lemma spans_bounds r i j : i ≤ length text → spans r i j → i ≤ j ≤ length text.
Proof.
  revert i j. induction r as [|c|r1 IH1 r2 IH2|r1 IH1 r2 IH2|r IH min max| | |r IH];
    intros i j Hi; simpl; try lia.
  - intros (-> & x & Hx & _). apply lookup_lt_Some in Hx. lia.
  - intros (k & H1 & H2). apply IH1 in H1; [|done]. apply IH2 in H2; lia.
  - intros [H|H]; [by apply IH1|by apply IH2].
  - intros (n & _ & _ & Hn). revert i Hi Hn. induction n as [|n IHn]; intros i Hi; simpl; [lia|].
    intros (k & Hk & Hn). apply IH in Hk; [|done]. apply IHn in Hn; lia.
Qed.

Section step.
Context (step : nat → list nat) (R : nat → nat → Prop).
Hypothesis step_spec : ∀ i j, i ≤ length text → j ∈ step i ↔ R i j.
Hypothesis R_bounds : ∀ i j, i ≤ length text → R i j → i ≤ j ≤ length text.

Lemma elem_of_exactly k i j :
  i ≤ length text → j ∈ exactly step k i ↔ steps R k i j.
Proof using All.
  revert i. induction k as [|k IH]; intros i Hi; simpl.
  { rewrite list_elem_of_singleton. split; by intros ->. }
  rewrite elem_of_remove_dups, list_elem_of_bind.
  split; [intros (h & Hj & Hh)|intros (h & Hh & Hj)]; exists h; apply step_spec in Hh as Hh'; try done.
  - split; [done|]. apply IH; [|done]. apply R_bounds in Hh'; lia.
  - split; [|done]. apply IH; [|done]. apply R_bounds in Hh; lia.
Qed.

Lemma elem_of_up_to k i j :
  i ≤ length text → j ∈ up_to step k i ↔ ∃ n, n ≤ k ∧ steps R n i j.
Proof using All.
  revert i. induction k as [|k IH]; intros i Hi; cbn [up_to].
  { rewrite list_elem_of_singleton. split; [intros ->; by exists 0|].
    intros (n & Hn & Hs). destruct n; [by simpl in Hs|lia]. }
  rewrite elem_of_remove_dups, list.elem_of_cons, list_elem_of_bind. split.
  - intros [->|(h & Hj & Hh)]; [exists 0; split; [lia|done]|].
    apply step_spec in Hh; [|done]. apply IH in Hj as (n & Hn & Hs); [|apply R_bounds in Hh; lia].
    exists (S n). split; [lia|]. by exists h.
  - intros ([|n] & Hn & Hs); [by left|right]. destruct Hs as (h & Hh & Hs). exists h.
    split; [|by apply step_spec]. apply IH; [apply R_bounds in Hh; lia|].
    exists n. split; [lia|done].
Qed.

Lemma elem_of_closure fuel i j :
  i ≤ length text → length text - i ≤ fuel → j ∈ closure step fuel i ↔ ∃ n, steps R n i j.
Proof using All.
  revert i. induction fuel as [|fuel IH]; intros i Hi Hf; simpl.
  { rewrite list_elem_of_singleton. split; [intros ->; by exists 0|].
    intros (n & Hs). revert i Hi Hf Hs. induction n as [|n IHn]; intros i Hi Hf; [done|].
    intros (h & Hh & Hs). apply R_bounds in Hh; [|done].
    assert (h = i) as -> by lia. by apply IHn. }
  rewrite list.elem_of_cons, list_elem_of_bind. split.
  - intros [->|(h & Hj & Hh)]; [by exists 0|].
    apply list_elem_of_filter in Hh as [Hlt Hh]. apply step_spec in Hh; [|done].
    apply R_bounds in Hh as Hb; [|done].
    apply IH in Hj as (n & Hs); [|lia..]. exists (S n), h. done.
  - intros (n & Hs). revert Hs. induction n as [|n IHn]; [by left|].
    intros (h & Hh & Hs). apply R_bounds in Hh as Hb; [|done].
    destruct (decide (h = i)) as [->|Hne]; [by apply IHn|]. right. exists h. split.
    + apply IH; [lia..|]. by exists n.
    + apply list_elem_of_filter. split; [lia|by apply step_spec].
Qed.
End step.

Theorem elem_of_ends r i j : i ≤ length text → j ∈ ends r i ↔ spans r i j.
Proof.
  revert i j. induction r as [|c|r1 IH1 r2 IH2|r1 IH1 r2 IH2|r IH min max| | |r IH];
    intros i j Hi; simpl.
  - rewrite list_elem_of_singleton. split; by intros ->.
  - destruct (text !! i) as [x|]; [destruct (in_charset c x) eqn:E|].
    + rewrite list_elem_of_singleton. split; [intros ->|by intros [-> _]]. eauto.
    + rewrite elem_of_nil. split; [done|]. intros (_ & y & [= <-] & Hy). congruence.
    + rewrite elem_of_nil. split; [done|]. by intros (_ & y & Hy & _).
  - rewrite elem_of_remove_dups, list_elem_of_bind. split.
    + intros (k & Hj & Hk). apply IH1 in Hk; [|done]. exists k. split; [done|].
      apply IH2; [|done]. apply spans_bounds in Hk; lia.
    + intros (k & Hk & Hj). exists k. split; [|by apply IH1].
      apply IH2; [|done]. apply spans_bounds in Hk; lia.
  - rewrite elem_of_app, IH1, IH2; done.
  - rewrite list_elem_of_bind.
    assert (∀ k, k ∈ exactly (ends r) min i ↔ steps (spans r) min i k) as He.
    { intros k. apply elem_of_exactly; [done|apply spans_bounds|done]. }
    assert (∀ k, steps (spans r) min i k → k ≤ length text) as Hb.
    { intros k Hk. refine (proj2 (spans_bounds (Repeat r min (Some min)) i k Hi _)).
      exists min. split_and!; [done|lia|done]. }
    assert (∀ k, k ≤ length text → j ∈ match max with
        | Some m => up_to (ends r) (m - min) k | None => closure (ends r) (length text - k) k end ↔
        ∃ n, match max with Some m => n ≤ m - min | None => True end ∧ steps (spans r) n k j) as Hm.
    { intros k Hk. destruct max as [m|].
      - apply elem_of_up_to; [done|apply spans_bounds|done].
      - rewrite elem_of_closure; [|done|apply spans_bounds|done|lia]. naive_solver. }
    split.
    + intros (k & Hj & Hk%He). apply Hm in Hj as (n & Hn & Hs); [|by apply Hb].
      exists (min + n). split_and!; [lia|destruct max; lia|]. apply steps_add. by exists k.
    + intros (n & Hn & Hmax & Hs). replace n with (min + (n - min)) in Hs by lia.
      apply steps_add in Hs as (k & Hk & Hs). exists k. split; [|by apply He].
      apply Hm; [by apply Hb|]. exists (n - min). split; [destruct max; lia|done].
  - case_decide; [rewrite list_elem_of_singleton|rewrite elem_of_nil]; intuition congruence.
  - case_decide; [rewrite list_elem_of_singleton|rewrite elem_of_nil]; intuition congruence.
  - case_decide as E; [rewrite list_elem_of_singleton|rewrite elem_of_nil].
    + split; [|naive_solver]. intros ->. split; [done|]. intros k Hk.
      apply IH in Hk; [|done]. rewrite E in Hk. by apply elem_of_nil in Hk.
    + split; [done|]. intros [_ Hno]. destruct (ends r i) as [|k l] eqn:El; [done|].
      destruct (Hno k). apply IH; [done|]. rewrite El. apply list_elem_of_here.
Qed.

End match_text.

(** ** Reading a pattern *)

Definition code (c : ascii) : Z := Z.of_nat (nat_of_ascii c).

Definition single (x : Z) : charset := {| negated := false; ranges := [(x, x)] |}.

(** The class escapes, as ranges of character codes. *)
Definition digits : list (Z * Z) := [(48, 57)%Z].
Definition spaces : list (Z * Z) := [(9, 13); (32, 32)]%Z.
Definition non_spaces : list (Z * Z) := [(0, 8); (14, 31); (33, 255)]%Z.

Definition escape (c : Z) : list (Z * Z) :=
  if decide (c = code "d") then digits
  else if decide (c = code "s") then spaces
  else if decide (c = code "S") then non_spaces
  else [(c, c)].

(** The rest of a bracket expression, up to its [']']. *)
Fixpoint parse_set (fuel : nat) (s : list Z) (acc : list (Z * Z)) : option (list (Z * Z) * list Z) :=
  match fuel with
  | O => None
  | S fuel' =>
      match s with
      | [] => None
      | c :: rest =>
          if decide (c = code "]") then Some (acc, rest)
          else if decide (c = code "\") then
            match rest with
            | e :: rest' => parse_set fuel' rest' (acc ++ escape e)
            | [] => None
            end
          else
            match rest with
            | dash :: hi :: rest' =>
                if decide (dash = code "-" ∧ hi ≠ code "]") then
                  if (c <=? hi)%Z then parse_set fuel' rest' (acc ++ [(c, hi)]) else None
                else parse_set fuel' rest (acc ++ [(c, c)])
            | _ => parse_set fuel' rest (acc ++ [(c, c)])
            end
      end
  end.

Definition is_digit (c : Z) : bool := (48 <=? c)%Z && (c <=? 57)%Z.

(** A number of a [{...}] quantifier. *)
Fixpoint parse_number (s : list Z) (acc : nat) : nat * list Z :=
  match s with
  | c :: rest =>
      if is_digit c then parse_number rest (10 * acc + Z.to_nat (c - 48)) else (acc, s)
  | [] => (acc, s)
  end.

(** The quantifier that may follow an atom. *)
Definition parse_quantifier (a : regex) (s : list Z) : option (regex * list Z) :=
  match s with
  | c :: rest =>
      if decide (c = code "?") then Some (Repeat a 0 (Some 1), rest)
      else if decide (c = code "*") then Some (Repeat a 0 None, rest)
      else if decide (c = code "+") then Some (Repeat a 1 None, rest)
      else if decide (c = code "{") then
        let '(min, rest1) := parse_number rest 0 in
        match rest1 with
        | d :: rest2 =>
            if decide (d = code "}") then Some (Repeat a min (Some min), rest2)
            else if decide (d = code ",") then
              match rest2 with
              | e :: rest3 =>
                  if decide (e = code "}") then Some (Repeat a min None, rest3)
                  else
                    let '(max, rest4) := parse_number rest2 0 in
                    match rest4 with
                    | f :: rest5 =>
                        if decide (f = code "}" ∧ min ≤ max)
                        then Some (Repeat a min (Some max), rest5) else None
                    | [] => None
                    end
              | [] => None
              end
            else None
        | [] => None
        end
      else Some (a, s)
  | [] => Some (a, s)
  end.

Definition closing (r : option (regex * list Z)) (k : regex → regex) : option (regex * list Z) :=
  match r with
  | Some (r, c :: rest) => if decide (c = code ")") then Some (k r, rest) else None
  | _ => None
  end.

(** Any character but a line terminator. *)
Definition any : charset := {| negated := true; ranges := [(10, 10); (13, 13)]%Z |}.

Fixpoint parse_alt (fuel : nat) (s : list Z) : option (regex * list Z) :=
  match fuel with
  | O => None
  | S fuel' =>
      match parse_seq fuel' s with
      | Some (r, c :: rest) =>
          if decide (c = code "|") then
            match parse_alt fuel' rest with
            | Some (r', rest') => Some (Alt r r', rest')
            | None => None
            end
          else Some (r, c :: rest)
      | other => other
      end
  end
with parse_seq (fuel : nat) (s : list Z) : option (regex * list Z) :=
  match fuel with
  | O => None
  | S fuel' =>
      match s with
      | [] => Some (Epsilon, s)
      | c :: _ =>
          if decide (c = code "|" ∨ c = code ")") then Some (Epsilon, s)
          else
            match parse_atom fuel' s with
            | Some (a, rest) =>
                match parse_quantifier a rest with
                | Some (a', rest') =>
                    match parse_seq fuel' rest' with
                    | Some (r, rest'') => Some (Seq a' r, rest'')
                    | None => None
                    end
                | None => None
                end
            | None => None
            end
      end
  end
with parse_atom (fuel : nat) (s : list Z) : option (regex * list Z) :=
  match fuel with
  | O => None
  | S fuel' =>
      match s with
      | [] => None
      | c :: rest =>
          if decide (c = code "(") then
            match rest with
            | q :: b :: rest' =>
                if decide (q = code "?") then
                  if decide (b = code "!") then closing (parse_alt fuel' rest') NotAhead else None
                else closing (parse_alt fuel' rest) id
            | _ => closing (parse_alt fuel' rest) id
            end
          else if decide (c = code "[") then
            match rest with
            | n :: rest' =>
                let neg := bool_decide (n = code "^") in
                match parse_set (S (length rest)) (if neg then rest' else rest) [] with
                | Some (rs, rest'') => Some (Chars {| negated := neg; ranges := rs |}, rest'')
                | None => None
                end
            | [] => None
            end
          else if decide (c = code "\") then
            match rest with
            | e :: rest' => Some (Chars {| negated := false; ranges := escape e |}, rest')
            | [] => None
            end
          else if decide (c = code "^") then Some (Begin, rest)
          else if decide (c = code "$") then Some (End_, rest)
          else if decide (c = code ".") then Some (Chars any, rest)
          else if decide (c ∈ [code "?"; code "*"; code "+"; code "{"; code "}"; code "]"]) then None
          else Some (Chars (single c), rest)
      end
  end.

(** [std::regex(pattern)]; [None] is a [std::regex_error]. *)
Definition parse (pattern : string) : option regex :=
  let s := chars pattern in
  match parse_alt (4 * S (length s)) s with
  | Some (r, []) => Some r
  | _ => None
  end.

(** [std::regex_match(text, regex)]: a match of the whole text. *)
Definition regex_match (text : string) (r : regex) : bool :=
  let t := chars text in bool_decide (length t ∈ ends t r 0).

Lemma regex_match_spans text r :
  regex_match text r = true ↔ spans (chars text) r 0 (length (chars text)).
Proof. unfold regex_match. rewrite bool_decide_eq_true. apply elem_of_ends. lia. Qed.

(** ** Languages

    A pattern without assertions matches the same strings wherever they stand. *)

Fixpoint plain (r : regex) : bool :=
  match r with
  | Epsilon | Chars _ => true
  | Seq r1 r2 | Alt r1 r2 => plain r1 && plain r2
  | Repeat r _ _ => plain r
  | Begin | End_ | NotAhead _ => false
  end.

Fixpoint power (L : list Z → Prop) (n : nat) (w : list Z) : Prop :=
  match n with
  | O => w = []
  | S n' => ∃ w1 w2, w = w1 ++ w2 ∧ L w1 ∧ power L n' w2
  end.

Fixpoint lang (r : regex) (w : list Z) : Prop :=
  match r with
  | Epsilon => w = []
  | Chars c => ∃ x, w = [x] ∧ in_charset c x = true
  | Seq r1 r2 => ∃ w1 w2, w = w1 ++ w2 ∧ lang r1 w1 ∧ lang r2 w2
  | Alt r1 r2 => lang r1 w ∨ lang r2 w
  | Repeat r min max =>
      ∃ n, min ≤ n ∧ (match max with Some m => n ≤ Nat.max min m | None => True end)
           ∧ power (lang r) n w
  | Begin | End_ | NotAhead _ => False
  end.

Section language.
Variable text : list Z.

(** [R] relates the ends of the substrings in [L]. *)
Definition locates (R : nat → nat → Prop) (L : list Z → Prop) : Prop :=
  ∀ i j, i ≤ length text → R i j ↔ i ≤ j ≤ length text ∧ L (slice i (j - i) text).

Lemma slice_join i k j : i ≤ k ≤ j → slice i (j - i) text = slice i (k - i) text ++ slice k (j - k) text.
Proof.
  intros H. replace (j - i) with ((k - i) + (j - k)) by lia. rewrite slice_app_split.
  do 2 f_equal. lia.
Qed.

Lemma slice_cut i j w1 w2 :
  i ≤ j ≤ length text → slice i (j - i) text = w1 ++ w2 →
  let k := i + length w1 in
  i ≤ k ≤ j ∧ slice i (k - i) text = w1 ∧ slice k (j - k) text = w2.
Proof.
  intros H E k. assert (length w1 + length w2 = j - i) as Hl.
  { rewrite <- length_app, <- E. apply length_slice. lia. }
  assert (i ≤ k ≤ j) as Hk by lia. split; [done|].
  rewrite (slice_join i k j Hk) in E. apply app_inj_1 in E; [done|]. rewrite length_slice; lia.
Qed.

(** Two adjacent substrings. *)
Lemma locates_seq R1 R2 L1 L2 :
  locates R1 L1 → locates R2 L2 →
  locates (λ i j, ∃ k, R1 i k ∧ R2 k j) (λ w, ∃ w1 w2, w = w1 ++ w2 ∧ L1 w1 ∧ L2 w2).
Proof.
  intros H1 H2 i j Hi. split.
  - intros (k & [Hk Hw1]%H1 & Hj); [|done]. apply H2 in Hj as [Hj Hw2]; [|lia].
    split; [lia|]. exists (slice i (k - i) text), (slice k (j - k) text).
    split; [apply slice_join; lia|done].
  - intros (Hj & w1 & w2 & E & Hw1 & Hw2).
    destruct (slice_cut i j w1 w2 Hj E) as (Hk & E1 & E2). exists (i + length w1).
    split; [apply H1|apply H2]; try lia; (split; [lia|]); congruence.
Qed.

Lemma slice_nil i j : i ≤ j ≤ length text → slice i (j - i) text = [] ↔ i = j.
Proof.
  intros H. rewrite <- length_zero_iff_nil, length_slice; lia.
Qed.

Lemma locates_steps R L n : locates R L → locates (steps R n) (power L n).
Proof.
  intros HR. induction n as [|n IH]; [|by apply locates_seq].
  intros i j Hi. simpl. split; [intros <-|intros [Hj H]]; [split; [lia|]|]; by apply slice_nil.
Qed.

Theorem spans_lang r : plain r = true → locates (spans text r) (lang r).
Proof.
  induction r as [|c|r1 IH1 r2 IH2|r1 IH1 r2 IH2|r IH min max| | |r IH]; simpl;
    rewrite ?andb_true_iff; try done.
  - intros _ i j Hi. split; [intros <-|intros [Hj H]]; [split; [lia|]|]; by apply slice_nil.
  - intros _ i j Hi. split.
    + intros (-> & x & Hx & Hc). pose proof (lookup_lt_Some _ _ _ Hx). split; [lia|].
      exists x. split; [|done]. unfold slice. replace (S i - i) with 1 by lia.
      by rewrite (drop_S _ _ _ Hx).
    + intros (Hj & x & Hw & Hc). assert (j = S i) as ->.
      { assert (j - i = 1); [|lia]. rewrite <- (length_slice i (j - i) text) by lia. by rewrite Hw. }
      split; [done|]. exists x. split; [|done].
      assert (slice i (S i - i) text !! 0 = Some x) as Hx by (by rewrite Hw).
      rewrite slice_lookup, Nat.add_0_r in Hx by lia. done.
  - intros [??]. apply locates_seq; auto.
  - intros [H1 H2] i j Hi. rewrite (IH1 H1 i j Hi), (IH2 H2 i j Hi). tauto.
  - intros H i j Hi. setoid_rewrite (locates_steps _ _ _ (IH H) i j Hi).
    split; [intros (n & Hn & Hm & Hj & Hw)|intros (Hj & n & Hn & Hm & Hw)]; eauto 10.
Qed.

End language.

(** A pattern between [^] and [$], matched against a whole text. *)
Lemma regex_match_anchored s r1 r2 :
  plain r1 = true → plain r2 = true →
  regex_match s (Seq Begin (Seq r1 (Seq r2 (Seq End_ Epsilon)))) = true ↔
  ∃ w1 w2, chars s = w1 ++ w2 ∧ lang r1 w1 ∧ lang r2 w2.
Proof.
  intros H1 H2. rewrite regex_match_spans. set (t := chars s).
  assert (plain (Seq r1 r2) = true) as H by (simpl; by rewrite H1, H2).
  pose proof (spans_lang t _ H 0 (length t) ltac:(lia)) as Hs.
  rewrite Nat.sub_0_r, slice_all in Hs by done. split.
  - intros (? & [_ <-] & k & Hk & l & Hl & ? & [-> <-] & Hj). simpl in Hj. subst.
    destruct Hs as [Hs _]. apply Hs. by exists k.
  - intros Hw. destruct Hs as [_ Hs]. destruct Hs as (k & Hk & Hl); [by split; [lia|]|].
    exists 0. split; [done|]. exists k. split; [done|]. exists (length t). split; [done|].
    exists (length t). by split.
Qed.

Lemma lang_chars_cons c r w :
  lang (Seq (Chars c) r) w ↔ ∃ x w', w = x :: w' ∧ in_charset c x = true ∧ lang r w'.
Proof.
  split; [intros (? & w' & -> & (x & -> & Hx) & Hw); by exists x, w'|].
  intros (x & w' & -> & Hx & Hw). exists [x], w'. split_and!; [done|by exists x|done].
Qed.

Lemma lang_epsilon_r r w : lang (Seq r Epsilon) w ↔ lang r w.
Proof.
  split; [intros (w1 & ? & -> & Hw & ->); by rewrite app_nil_r|].
  intros Hw. exists w, []. by rewrite app_nil_r.
Qed.

Lemma lang_optional r w : lang (Repeat r 0 (Some 1)) w ↔ w = [] ∨ lang r w.
Proof.
  split.
  - intros ([|[|n]] & _ & Hn & Hw); [by left| |lia]. right.
    destruct Hw as (w1 & ? & -> & Hw & ->). by rewrite app_nil_r.
  - intros [->|Hw]; [exists 0|exists 1]; split_and!; try lia; [done|].
    exists w, []. by rewrite app_nil_r.
Qed.

Lemma lang_seq_assoc r1 r2 r3 w : lang (Seq (Seq r1 r2) r3) w ↔ lang (Seq r1 (Seq r2 r3)) w.
Proof.
  split.
  - intros (? & w3 & -> & (w1 & w2 & -> & H1 & H2) & H3). exists w1, (w2 ++ w3).
    split_and!; [by rewrite app_assoc|done|]. by exists w2, w3.
  - intros (w1 & ? & -> & H1 & (w2 & w3 & -> & H2 & H3)). exists (w1 ++ w2), w3.
    split_and!; [by rewrite app_assoc| |done]. by exists w1, w2.
Qed.

Lemma lang_epsilon_l r w : lang (Seq Epsilon r) w ↔ lang r w.
Proof. split; [by intros (? & w2 & -> & -> & Hw)|]. intros Hw. by exists [], w. Qed.

Lemma lang_optional_seq r1 r2 w :
  lang (Seq (Repeat r1 0 (Some 1)) r2) w ↔ lang r2 w ∨ lang (Seq r1 r2) w.
Proof.
  split.
  - intros (w1 & w2 & -> & [->|H1]%lang_optional & H2); [by left|right]. by exists w1, w2.
  - intros [H|(w1 & w2 & -> & H1 & H2)]; [exists [], w|exists w1, w2]; split_and!; try done;
      apply lang_optional; auto.
Qed.

Lemma lang_exactly r n w : lang (Repeat r n (Some n)) w ↔ power (lang r) n w.
Proof.
  split; [intros (m & ? & ? & Hw); by assert (m = n) as -> by lia|].
  intros Hw. exists n. split_and!; [lia..|done].
Qed.

(** ** agent-framework module/constants/regular_expressions.hpp *)

Module patterns.

Definition RemoteTarget_TARGET_IQN := "^iqn\.[a-z0-9.:-]{1,200}".
Definition RemoteTarget_INITIATOR_IQN := "^iqn\.[a-z0-9.:-]{1,200}".
Definition EthernetInterface_MAC_ADDRESS := "^([0-9A-Fa-f]{2}[:-]){5}([0-9A-Fa-f]{2})$".
Definition Common_NO_WHITESPACE_STRING := "^[\S]+$".
Definition Common_EMPTY_OR_NO_WHITESPACE_STRING := "^$|^[\S]+$".
Definition IPAddresses_ADDRESS :=
  "^(((([1]?\d)?\d|2[0-4]\d|25[0-5])\.){3})((([1]?\d)?\d|2[0-4]\d|25[0-5]))$".
Definition IPAddresses_GATEWAY :=
  "^(((([1]?\d)?\d|2[0-4]\d|25[0-5])\.){3})((([1]?\d)?\d|2[0-4]\d|25[0-5]))$".
Definition IPAddresses_SUBNET_MASK :=
  "^(((([1]?\d)?\d|2[0-4]\d|25[0-5])\.){3})((([1]?\d)?\d|2[0-4]\d|25[0-5]))$".
Definition IPv6Addresses_ADDRESS :=
  "(([0-9a-fA-F]{1,4}:){7,7}[0-9a-fA-F]{1,4}|([0-9a-fA-F]{1,4}:){1,7}:|([0-9a-fA-F]{1,4}:){1,6}:[0-9a-fA-F]{1,4}|([0-9a-fA-F]{1,4}:){1,5}(:[0-9a-fA-F]{1,4}){1,2}|([0-9a-fA-F]{1,4}:){1,4}(:[0-9a-fA-F]{1,4}){1,3}|([0-9a-fA-F]{1,4}:){1,3}(:[0-9a-fA-F]{1,4}){1,4}|([0-9a-fA-F]{1,4}:){1,2}(:[0-9a-fA-F]{1,4}){1,5}|[0-9a-fA-F]{1,4}:((:[0-9a-fA-F]{1,4}){1,6})|:((:[0-9a-fA-F]{1,4}){1,7}|:)|fe80:(:[0-9a-fA-F]{0,4}){0,4}%[0-9a-zA-Z]{1,}|::(ffff(:0{1,4}){0,1}:){0,1}((25[0-5]|(2[0-4]|1{0,1}[0-9]){0,1}[0-9])\.){3,3}(25[0-5]|(2[0-4]|1{0,1}[0-9]){0,1}[0-9])|([0-9a-fA-F]{1,4}:){1,4}:((25[0-5]|(2[0-4]|1{0,1}[0-9]){0,1}[0-9])\.){3,3}(25[0-5]|(2[0-4]|1{0,1}[0-9]){0,1}[0-9]))".
Definition Chassis_LOCATION_ID := "^(?!\s*$).+".

End patterns.

(** Every pattern of the schemas is one [parse] reads, so no validator is built
    from a malformed expression. *)
Lemma patterns_parse :
  Forall (λ p, is_Some (parse p))
    [patterns.RemoteTarget_TARGET_IQN; patterns.RemoteTarget_INITIATOR_IQN;
     patterns.EthernetInterface_MAC_ADDRESS; patterns.Common_NO_WHITESPACE_STRING;
     patterns.Common_EMPTY_OR_NO_WHITESPACE_STRING; patterns.IPAddresses_ADDRESS;
     patterns.IPAddresses_GATEWAY; patterns.IPAddresses_SUBNET_MASK;
     patterns.IPv6Addresses_ADDRESS; patterns.Chassis_LOCATION_ID].
Proof. apply (bool_decide_eq_true_1 _). vm_compute. reflexivity. Qed.

(** *** The IPv4 pattern *)

(** The decimal value of a string of digits. *)
Definition decimal (w : list Z) : Z := foldl (λ acc c, 10 * acc + (c - 48))%Z 0%Z w.

(** An octet of a dotted address: one to three digits with a value up to 255,
    and no three digits that start with a zero. *)
Definition octet (w : list Z) : Prop :=
  Forall (λ c, 48 ≤ c ≤ 57)%Z w ∧ 1 ≤ length w ≤ 3 ∧ (decimal w ≤ 255)%Z ∧
  (length w = 3 → head w ≠ Some 48%Z).

Definition octet_pattern : regex :=
  let d := Chars {| negated := false; ranges := digits |} in
  let rng a b := Chars {| negated := false; ranges := [(a, b)] |} in
  Alt (Seq (Repeat (Seq (Repeat (rng 49 49)%Z 0 (Some 1)) (Seq d Epsilon)) 0 (Some 1)) (Seq d Epsilon))
    (Alt (Seq (rng 50 50)%Z (Seq (rng 48 52)%Z (Seq d Epsilon)))
         (Seq (rng 50 50)%Z (Seq (rng 53 53)%Z (Seq (rng 48 53)%Z Epsilon)))).

Lemma in_range_charset a b x :
  in_charset {| negated := false; ranges := [(a, b)] |} x = true ↔ (a ≤ x ≤ b)%Z.
Proof.
  unfold in_charset. cbn. rewrite orb_false_r. destruct (Z.leb_spec a x), (Z.leb_spec x b);
    simpl; split; try done; lia.
Qed.

Lemma lang_chars_range a b r w :
  lang (Seq (Chars {| negated := false; ranges := [(a, b)] |}) r) w ↔
  ∃ x w', w = x :: w' ∧ (a ≤ x ≤ b)%Z ∧ lang r w'.
Proof. rewrite lang_chars_cons. by setoid_rewrite in_range_charset. Qed.

(** The shapes of an octet, digit by digit. *)
Inductive octet_shape : list Z → Prop :=
  | one_digit c : (48 ≤ c ≤ 57)%Z → octet_shape [c]
  | two_digits b c : (48 ≤ b ≤ 57)%Z → (48 ≤ c ≤ 57)%Z → octet_shape [b; c]
  | below_200 b c : (48 ≤ b ≤ 57)%Z → (48 ≤ c ≤ 57)%Z → octet_shape [49%Z; b; c]
  | below_250 b c : (48 ≤ b ≤ 52)%Z → (48 ≤ c ≤ 57)%Z → octet_shape [50%Z; b; c]
  | below_256 c : (48 ≤ c ≤ 53)%Z → octet_shape [50%Z; 53%Z; c].

Lemma lang_octet_shape w : lang octet_pattern w ↔ octet_shape w.
Proof.
  unfold octet_pattern, digits. cbn zeta.
  match goal with |- lang (Alt ?a (Alt ?b ?c)) w ↔ _ =>
    change (lang a w ∨ lang b w ∨ lang c w ↔ octet_shape w) end.
  rewrite lang_optional_seq, lang_seq_assoc, lang_optional_seq, !lang_seq_assoc.
  repeat (setoid_rewrite lang_chars_range || setoid_rewrite lang_epsilon_l ||
          setoid_rewrite lang_seq_assoc). cbn [lang].
  split.
  - intros [[H|[H|H]]|[H|H]]; decompose [ex and] H; clear H; subst; simpl.
    + by constructor.
    + by constructor.
    + assert (x = 49)%Z as -> by lia. by constructor.
    + assert (x = 50)%Z as -> by lia. by constructor.
    + assert (x = 50)%Z as -> by lia. assert (x1 = 53)%Z as -> by lia. by constructor.
  - destruct 1; [left; left|left; right; left|left; right; right|right; left|right; right];
      repeat (eexists _, _; split; [reflexivity|split; [lia|]]); done.
Qed.

Lemma octet_shape_spec w : octet_shape w ↔ octet w.
Proof.
  split.
  - destruct 1; (split_and!; [repeat (apply Forall_cons_2; [lia|]); apply Forall_nil_2|simpl; lia|simpl; lia|unfold decimal; simpl; lia|]);
      simpl; intros; try lia; congruence.
  - intros (Hd & Hl & Hv & Hz). unfold decimal in Hv.
    destruct w as [|a [|b [|c [|]]]]; simpl in *; try lia; rewrite ?list.Forall_cons in Hd.
    + apply one_digit; lia.
    + apply two_digits; lia.
    + assert (a ≠ 48)%Z by (intros ->; by apply Hz).
      assert (a = 49 ∨ a = 50)%Z as [-> | ->] by lia; [apply below_200; lia|].
      destruct (decide (b ≤ 52)%Z); [apply below_250; lia|]. assert (b = 53)%Z as -> by lia.
      apply below_256. lia.
Qed.

Lemma power_ext (L L' : list Z → Prop) n w : (∀ w, L w ↔ L' w) → power L n w ↔ power L' n w.
Proof.
  intros HL. revert w. induction n as [|n IH]; intros w; simpl; [done|].
  by setoid_rewrite HL; setoid_rewrite IH.
Qed.

Lemma parse_ipv4 :
  parse patterns.IPAddresses_ADDRESS =
  Some (Seq Begin
    (Seq (Seq (Repeat (Seq octet_pattern (Seq (Chars (single 46)) Epsilon)) 3 (Some 3)) Epsilon)
      (Seq (Seq octet_pattern Epsilon) (Seq End_ Epsilon)))).
Proof. vm_compute. reflexivity. Qed.

(** The pattern used for IPv4 addresses, gateways and masks
    (regular_expressions.hpp) is a valid regular expression, and a text matches
    it exactly when it is four octets, each a decimal number up to 255 of at
    most three digits, with dots between them. *)
Theorem ipv4_pattern_exact s :
  ∃ r, parse patterns.IPAddresses_ADDRESS = Some r ∧
  (regex_match s r = true ↔
   ∃ a b c d, Forall octet [a; b; c; d] ∧
     chars s = a ++ [46%Z] ++ b ++ [46%Z] ++ c ++ [46%Z] ++ d).
Proof.
  eexists. split; [apply parse_ipv4|]. rewrite regex_match_anchored by done.
  assert (∀ w, lang octet_pattern w ↔ octet w) as Ho.
  { intros w. by rewrite lang_octet_shape, octet_shape_spec. }
  assert (∀ w, lang (Seq octet_pattern (Seq (Chars (single 46)) Epsilon)) w ↔
               ∃ a, octet a ∧ w = a ++ [46%Z]) as Hd.
  { intros w. cbn [lang]. setoid_rewrite Ho. split.
    - intros (a & ? & -> & Ha & ? & ? & -> & (x & -> & Hx) & ->). exists a.
      apply in_range_charset in Hx. by assert (x = 46)%Z as -> by lia.
    - intros (a & Ha & ->). exists a, [46%Z]. split_and!; [done..|]. exists [46%Z], [].
      split_and!; [done|by exists 46%Z|done]. }
  setoid_rewrite lang_epsilon_r. setoid_rewrite lang_exactly. setoid_rewrite (power_ext _ _ _ _ Hd).
  setoid_rewrite Ho. cbn [power]. split.
  - intros (w1 & d & -> & (? & ? & -> & (a & Ha & ->) & ? & ? & -> & (b & Hb & ->) & ? & ? & -> &
      (c & Hc & ->) & ->) & Hd'). exists a, b, c, d. split; [|by rewrite app_nil_r, <- !app_assoc].
    by repeat apply Forall_cons_2.
  - intros (a & b & c & d & H & ->). rewrite !list.Forall_cons in H. destruct H as (Ha & Hb & Hc & Hd' & _).
    exists (a ++ [46%Z] ++ b ++ [46%Z] ++ c ++ [46%Z]), d. split_and!; [by rewrite <- !app_assoc| |done].
    exists (a ++ [46%Z]), (b ++ [46%Z] ++ c ++ [46%Z]). split_and!; [by rewrite <- !app_assoc|eauto|].
    exists (b ++ [46%Z]), (c ++ [46%Z]). split_and!; [by rewrite <- !app_assoc|eauto|].
    exists (c ++ [46%Z]), []. split_and!; [by rewrite app_nil_r|eauto|done].
Qed.
