(* ===== verification/SchemaEnums.v ===== *)
(** The enumerations of agent_framework::model::enums and of the REST server that
    the schemas refer to, as the ENUM macro of enum_builder.hpp declares them: the
    texts of the values in the order of declaration, and the conversions. *)

From Stdlib Require Import Ascii.
From S2P Require Import Prelude.
From S2P Require Import Regex.

Open Scope string_scope.
Open Scope list_scope.

(** What strcmp reads of [str.c_str()]: the characters before the first NUL. *)
Fixpoint c_str (s : string) : string :=
  match s with
  | EmptyString => EmptyString
  | String c s' => if decide (c = "000"%char) then EmptyString else String c (c_str s')
  end.

(** [from_string]: the index of the first name that compares equal; [None] for
    the InvalidValue exception. *)
Fixpoint from_string (g_names : list string) (str : string) : option nat :=
  match g_names with
  | [] => None
  | name :: names =>
      if decide (name = c_str str) then Some 0%nat else S <$> from_string names str
  end.

(** [to_string]: the values are 0, 1, ... in the order of the names; [None] for
    the exception of a value that is not declared. *)
Definition to_string (g_names : list string) (m_value : nat) : option string := g_names !! m_value.

Fixpoint is_allowable_value (g_names : list string) (str : string) : bool :=
  match g_names with
  | [] => false
  | name :: names => if decide (name = c_str str) then true else is_allowable_value names str
  end.

(** OemProtocol is written out by hand and compares whole strings. *)
Fixpoint is_allowable_string (names : list string) (string : string) : bool :=
  match names with
  | [] => false
  | name :: names' => if decide (string = name) then true else is_allowable_string names' string
  end.

Lemma allowable_from_string names s :
  is_allowable_value names s = bool_decide (is_Some (from_string names s)).
Proof.
  induction names as [|n names IH]; [done|]. simpl. case_decide; [done|]. rewrite IH.
  by destruct (from_string names s).
Qed.

Lemma from_string_to_string names s i :
  from_string names s = Some i → to_string names i = Some (c_str s).
Proof.
  revert i. induction names as [|n names IH]; intros i; [done|]. simpl. case_decide as E.
  - intros [= <-]. by rewrite <- E.
  - destruct (from_string names s) as [j|]; [|done]. intros [= <-]. by apply IH.
Qed.

(** The names of an enumeration are different and hold no NUL. *)
Definition proper (names : list string) : bool :=
  bool_decide (NoDup names) && forallb (λ n, bool_decide (c_str n = n)) names.

Lemma to_string_from_string names i s :
  proper names = true → to_string names i = Some s → from_string names s = Some i.
Proof.
  intros [Hd%bool_decide_eq_true Hn]%andb_true_iff. revert i. unfold to_string.
  induction Hd as [|n names Hnot Hd IH]; intros i; [done|]. simpl in Hn. apply andb_true_iff in Hn as [H1 Hn].
  apply bool_decide_eq_true in H1. intros Hs.
  assert (c_str s = s) as Hc.
  { destruct i as [|i]; simpl in Hs; [by injection Hs as <-|]. apply list_elem_of_lookup_2 in Hs.
    pose proof Hn as Hn2. rewrite forallb_forall in Hn2. specialize (Hn2 s (proj1 (list_elem_of_In _ _) Hs)).
    by apply bool_decide_eq_true in Hn2. }
  simpl. rewrite Hc. destruct i as [|i]; simpl in Hs.
  - injection Hs as <-. by rewrite decide_True.
  - rewrite decide_False; [by rewrite (IH Hn i)|]. intros ->. by apply Hnot, (list_elem_of_lookup_2 _ i).
Qed.

(** ** The enumerations *)

Definition AccessCapability : list string :=
  ["Read"; "Write"; "WriteOnce"; "Append"; "Streaming"].

Definition AclAction : list string :=
  ["Permit"; "Deny"; "Forward"; "Mirror"].

Definition AclMirrorType : list string :=
  ["Egress"; "Ingress"; "Bidirectional"; "Redirect"].

Definition AdministrativeState : list string :=
  ["Up"; "Down"].

Definition BootOverride : list string :=
  ["Disabled"; "Once"; "Continuous"].

Definition BootOverrideMode : list string :=
  ["Legacy"; "UEFI"].

Definition BootOverrideTarget : list string :=
  ["None"; "Pxe"; "Floppy"; "Cd"; "Usb"; "Hdd"; "BiosSetup"; "Utilities"; "Diags"; "UefiTarget";
   "SDCard"; "UefiHttp"; "RemoteDrive"].

Definition Component : list string :=
  ["None"; "Root"; "AuthorizationCertificate"; "Chassis"; "Drive"; "Fan"; "Manager"; "Memory";
   "MemoryDomain"; "MemoryChunks"; "NetworkInterface"; "NetworkDevice"; "PowerZone"; "Processor";
   "PSU"; "EthernetSwitch"; "RemoteEthernetSwitch"; "NetworkDeviceFunction"; "StorageController";
   "StorageService"; "EthernetSwitchPort"; "System"; "ThermalZone"; "Vlan";
   "EthernetSwitchPortVlan"; "PortMember"; "NeighborSwitch"; "Switch"; "PcieDevice"; "Zone";
   "PcieFunction"; "Port"; "Acl"; "AclRule"; "StaticMac"; "StorageSubsystem"; "Task"; "Fabric";
   "Endpoint"; "ChassisSensor"; "Metric"; "MetricDefinition"; "TrustedModule"; "StoragePool";
   "Volume"; "LogService"; "LogEntry"].

Definition DcbxState : list string :=
  ["Disabled"; "EnabledIEEE"; "EnabledCEE"].

Definition EntityRole : list string :=
  ["Initiator"; "Target"; "Both"].

Definition EventType : list string :=
  ["Alert"; "ResourceAdded"; "ResourceRemoved"; "ResourceUpdated"; "StatusChange"].

Definition FunctionAuthenticationMethod : list string :=
  ["None"; "CHAP"; "MutualCHAP"].

Definition IPAddressType : list string :=
  ["IPv4"; "IPv6"].

Definition IdentifierType : list string :=
  ["NAA"; "iQN"; "FC_WWN"; "UUID"; "EUI"; "NQN"; "NSID"].

Definition InterfaceType : list string :=
  ["TPM1_2"; "TPM2_0"; "TCM1_0"].

Definition Ipv4AddressOrigin : list string :=
  ["DHCP"; "Static"].

Definition Ipv6AddressOrigin : list string :=
  ["DHCP"; "Static"; "SLAAC"].

Definition Ipv6AddressState : list string :=
  ["Preferred"; "Deprecated"; "Tentative"; "Failed"].

Definition Notification : list string :=
  ["Add"; "Remove"; "Update"].

Definition PortMode : list string :=
  ["Unknown"; "LinkAggregationStatic"; "LinkAggregationDynamic"].

Definition ReplicaReadOnlyAccess : list string :=
  ["SourceElement"; "ReplicaElement"; "Both"].

Definition ReplicaRole : list string :=
  ["Source"; "Target"].

Definition ReplicaType : list string :=
  ["Mirror"; "Snapshot"; "Clone"; "TokenizedClone"].

Definition ResetType : list string :=
  ["None"; "On"; "ForceOff"; "GracefulShutdown"; "GracefulRestart"; "ForceRestart"; "Nmi";
   "ForceOn"; "PushPowerButton"].

Definition State : list string :=
  ["Enabled"; "Disabled"; "StandbyOffline"; "StandbySpare"; "InTest"; "Starting"; "Absent";
   "UnavailableOffline"; "Deferring"; "Quiesced"; "Updating"].

Definition SubscriptionProtocol : list string :=
  ["Redfish"].

Definition TransferProtocol : list string :=
  ["CIFS"; "FTP"; "SFTP"; "HTTP"; "HTTPS"; "NSF"; "SCP"; "TFTP"; "OEM"].

Definition TransportLayerProtocol : list string :=
  ["TCP"; "UDP"; "L2"].

Definition TransportProtocol : list string :=
  ["PCIe"; "AHCI"; "UHCI"; "SAS"; "SATA"; "USB"; "NVMe"; "FC"; "iSCSI"; "FCoE"; "FCP"; "FICON";
   "NVMeOverFabrics"; "SMB"; "NFSv3"; "NFSv4"; "HTTP"; "HTTPS"; "FTP"; "SFTP"; "iWARP"; "RoCE";
   "RoCEv2"; "OEM"].

Definition VolumeInitializationType : list string :=
  ["Fast"; "Slow"].

Definition VolumeType : list string :=
  ["RawDevice"; "NonRedundant"; "Mirrored"; "StripedWithParity"; "SpannedMirrors";
   "SpannedStripesWithParity"].

Definition OemProtocol : list string := ["FPGA-oF"].

(** Every enumeration made with the ENUM macro. *)
Definition enumerations : list (list string) :=
  [AccessCapability; AclAction; AclMirrorType; AdministrativeState; BootOverride; BootOverrideMode;
   BootOverrideTarget; Component; DcbxState; EntityRole; EventType; FunctionAuthenticationMethod;
   IPAddressType; IdentifierType; InterfaceType; Ipv4AddressOrigin; Ipv6AddressOrigin;
   Ipv6AddressState; Notification; PortMode; ReplicaReadOnlyAccess; ReplicaRole; ReplicaType;
   ResetType; State; SubscriptionProtocol; TransferProtocol; TransportLayerProtocol;
   TransportProtocol; VolumeInitializationType; VolumeType].

Lemma enumerations_proper : forallb proper enumerations = true.
Proof. vm_compute. reflexivity. Qed.
