(* ===== verification/Eventing.v ===== *)
(** Redfish events (PSME/application: rest/eventing).

    [SubscriptionManager] over the key database, [EventArray], the timed queue of event arrays and the event
    service that selects events for the subscribers and delivers them, with its
    retries.

    The queue is a list in the order of the multimap: by time point, in order of
    insertion where these agree.  [handle_events] is a turn of the loop of the service in
    which the head of the queue is due; waiting is not modelled.  Parameters: the
    JSON library (the classes of Json and JsonText) and the outcome of a POST to a
    destination.

    Theorems: [remove_duplicates] keeps exactly the first event of each
    origin and type; every subscriber is sent exactly the events it
    asked for; an unreachable subscriber is tried as often as configured, one retry
    interval after the other, and then removed; [from_json] reads back what
    [to_json] writes, the database mirrors the subscriptions, and so they are the
    same after a restart. *)

From Stdlib Require Import ZArith Lia Ascii.
From S2P Require Import Prelude Database Sessions.
From S2P Require Import Json JsonText SchemaEnums.

Import Database.
Local Open Scope list_scope.
Local Open Scope Z_scope.

Module Eventing.

Inductive EventType := Alert | ResourceAdded | ResourceRemoved | ResourceUpdated | StatusChange.

#[global] Instance EventType_eq_dec : EqDecision EventType.
Proof. solve_decision. Defined.

(** The fields that are compared; [e_text] stands for the others. *)
Record Event := mkEvent { e_type : EventType; e_origin : str; e_text : str }.

#[global] Instance Event_eq_dec : EqDecision Event.
Proof. solve_decision. Defined.

Record EventArray := mkArray {
  m_subscriber_id : option Z;
  m_retry_attempts : Z;
  ea_id : Z;
  m_events : list Event;
  m_context : str;
}.

(** [EventArray(events)] *)
Definition array_of (events : list Event) : EventArray := mkArray None 0 0 events [].

(** *** remove_duplicates *)

(** One call of the predicate of [std::remove_if]: whether the event goes, and the events present so far. *)
Definition is_duplicate (event : Event) (present_events : gmap str (list EventType))
    : bool * gmap str (list EventType) :=
  match present_events !! e_origin event with
  | None => (false, <[e_origin event := [e_type event]]> present_events)
  | Some types =>
      if bool_decide (e_type event ∈ types) then (true, present_events)
      else (false, <[e_origin event := types ++ [e_type event]]> present_events)
  end.

Fixpoint remove_if_duplicate (events : list Event) (present_events : gmap str (list EventType)) : list Event :=
  match events with
  | [] => []
  | event :: events' =>
      let '(duplicate, present_events) := is_duplicate event present_events in
      if duplicate : bool then remove_if_duplicate events' present_events
      else event :: remove_if_duplicate events' present_events
  end.

Definition remove_duplicates (a : EventArray) : EventArray :=
  mkArray (m_subscriber_id a) (m_retry_attempts a) (ea_id a) (remove_if_duplicate (m_events a) ∅) (m_context a).

(** ** Subscriptions *)

Inductive SubscriptionProtocol := Redfish.

Record Subscription := mkSubscription {
  sub_id : Z;
  sub_name : str;
  sub_destination : str;
  sub_context : str;
  sub_protocol : SubscriptionProtocol;
  sub_event_types : list EventType;
  sub_origin_resources : list str;
}.

Definition set_id (id : Z) (s : Subscription) : Subscription :=
  mkSubscription id (sub_name s) (sub_destination s) (sub_context s) (sub_protocol s) (sub_event_types s)
    (sub_origin_resources s).

Definition is_subscribed_for (s : Subscription) (event : Event) : bool :=
  if negb (bool_decide (e_type event ∈ sub_event_types s)) then false
  else if bool_decide (sub_origin_resources s = []) then true
  else bool_decide (e_origin event ∈ sub_origin_resources s).

(** *** The document of a subscription *)

(** The names of the members. *)
Definition NAME : string := "Name".
Definition ODATA_ID : string := "@odata.id".
Definition DESTINATION : string := "Destination".
Definition CONTEXT : string := "Context".
Definition PROTOCOL : string := "Protocol".
Definition EVENT_TYPES : string := "EventTypes".
Definition ORIGIN_RESOURCES : string := "OriginResources".

(** The enumerators of the ENUM classes, in the order of their values; the names are those of
    SchemaEnums. *)
Definition EventType_values : list EventType :=
  [Alert; ResourceAdded; ResourceRemoved; ResourceUpdated; StatusChange].
Definition SubscriptionProtocol_values : list SubscriptionProtocol := [Redfish].

#[global] Instance SubscriptionProtocol_eq_dec : EqDecision SubscriptionProtocol.
Proof. solve_decision. Defined.

Section enums.
Context {E : Type} `{EqDecision E} (names : list string) (values : list E).

(** [to_string] of a declared value *)
Definition enum_to_string (e : E) : string :=
  default EmptyString (p ← list_find (eq e) values; SchemaEnums.to_string names p.1).

(** [from_string], which throws InvalidValue *)
Definition enum_from_string (s : string) : result E :=
  match i ← SchemaEnums.from_string names s; values !! i with
  | Some e => Ok e
  | None => Throw invalid_value
  end.

End enums.

Definition EventType_to_string : EventType → string := enum_to_string SchemaEnums.EventType EventType_values.
Definition EventType_from_string : string → result EventType :=
  enum_from_string SchemaEnums.EventType EventType_values.
Definition SubscriptionProtocol_to_string : SubscriptionProtocol → string :=
  enum_to_string SchemaEnums.SubscriptionProtocol SubscriptionProtocol_values.
Definition SubscriptionProtocol_from_string : string → result SubscriptionProtocol :=
  enum_from_string SchemaEnums.SubscriptionProtocol SubscriptionProtocol_values.

Section document.
Context {J : Type} `{Json J, !JsonText J}.
Implicit Types json : J.

(** A text as a JSON string. *)
Definition json_text (s : str) : J := json_of_string (String.string_of_list_ascii s).

(** [fill_json] *)
Definition fill_json (s : Subscription) (json : J) : J :=
  let json := json_insert json NAME (json_text (sub_name s)) in
  let json := json_insert json DESTINATION (json_text (sub_destination s)) in
  let json := json_insert json CONTEXT (json_text (sub_context s)) in
  let json := json_insert json PROTOCOL
    (json_of_string (SubscriptionProtocol_to_string (sub_protocol s))) in
  let event_types_json :=
    json_of_array ((λ e, json_of_string (EventType_to_string e)) <$> sub_event_types s) in
  let json := json_insert json EVENT_TYPES event_types_json in
  json_insert json ORIGIN_RESOURCES
    (json_of_array ((λ o, json_insert json_null ODATA_ID (json_text o)) <$> sub_origin_resources s)).

(** [Subscription::to_json] *)
Definition to_json (s : Subscription) : J := fill_json s json_null.

(** [json[key]] of a constant object: it throws for another value and is undefined
    for a key that is not there. *)
Definition member (json : J) (key : string) : result J :=
  match json_find json key with
  | Some v => Ok v
  | None => if is_object json then Throw undefined_behaviour
            else Throw (logic_error "cannot use operator[] with this type")
  end.

(** [get<std::string>()] *)
Definition get_string (json : J) : result str :=
  if is_string json then Ok (String.list_ascii_of_string (json_string json))
  else Throw (logic_error "type must be string").

(** What a range based loop visits. *)
Definition json_range (json : J) : list J :=
  match json_type json with
  | array => json_elements json
  | object => omap (json_find json) (json_keys json)
  | null => []
  | _ => [json]
  end.

(** A loop whose body yields an element or throws. *)
Fixpoint collect {A B} (f : A → result B) (l : list A) : result (list B) :=
  match l with
  | [] => Ok []
  | x :: l' => y ← f x; ys ← collect f l'; Ok (y :: ys)
  end.

(** [Subscription::from_json]; [is_correct_endpoint_url] is that of the multiplexer. *)
Definition from_json (is_correct_endpoint_url : str → bool) (json : J) (validate_origin_resources : bool)
    : result Subscription :=
  name ← member json NAME ≫= get_string;
  destination ← member json DESTINATION ≫= get_string;
  context ← member json CONTEXT ≫= get_string;
  protocol ← member json PROTOCOL ≫= get_string;
  types ← member json EVENT_TYPES;
  event_types ← collect (λ v, s ← get_string v;
                              EventType_from_string (String.string_of_list_ascii s)) (json_range types);
  protocol ← SubscriptionProtocol_from_string (String.string_of_list_ascii protocol);
  let subscription := mkSubscription 0 name destination context protocol event_types in
  match json_find json ORIGIN_RESOURCES with
  | None => Ok (subscription [])
  | Some resources =>
      if is_null resources then Ok (subscription [])
      else
        origin_resources ← collect (λ v,
          url ← member v ODATA_ID ≫= get_string;
          if validate_origin_resources && negb (is_correct_endpoint_url url) then Throw invalid_value
          else Ok url) (json_range resources);
        Ok (subscription origin_resources)
  end.

(** The text in the database: [configuration::json_value_to_string] of the document, and
    [configuration::string_to_json] with [from_json], without validation of the
    origins, as the constructor of the manager reads it. *)
Definition to_text (s : Subscription) : str := String.list_ascii_of_string (json_dump (to_json s)).

Definition of_text (data : str) : result Subscription :=
  match json_parse (String.string_of_list_ascii data) with
  | inl what => Throw (invalid_argument what)
  | inr root => from_json (λ _, false) root false
  end.

End document.

(** ** SubscriptionManager *)

Record SubscriptionManager := mkManager {
  m_subscriptions : gmap Z Subscription;
  m_id : Z;
  m_dir : Dir;             (** the directory of the database *)
}.

Definition m_db : FileDatabase := mkDatabase (lit "Subscription") false.

(** [while (m_subscriptions.count(++m_id) != 0);] *)
Fixpoint next_free (fuel : nat) (m : gmap Z Subscription) (id : Z) : option Z :=
  match fuel with
  | O => None
  | S fuel' =>
      let id := wrap 64 (id + 1) in
      if bool_decide (m !! id = None) then Some id else next_free fuel' m id
  end.

Definition get_subscription (id : Z) (m : SubscriptionManager) : result Subscription :=
  match m_subscriptions m !! id with Some s => Ok s | None => Throw not_found end.

Section subscriptions.
Context (J : Type) `{Json J, !JsonText J}.

Definition add_subscription (now : Z) (s : Subscription) : M SubscriptionManager Z :=
  m ← get;
  match next_free (S (size (m_subscriptions m))) (m_subscriptions m) (m_id m) with
  | None => throw out_of_fuel
  | Some id =>
      let s := set_id id s in
      let d := (db_put now m_db (IdValue_serialize id) (to_text (J:=J) s) (m_dir m)).2 in
      put (mkManager (<[id := s]> (m_subscriptions m)) id d) ;;
      mret id
  end.

Definition del_subscription (id : Z) : M SubscriptionManager unit :=
  m ← get;
  match m_subscriptions m !! id with
  | None => throw not_found
  | Some _ =>
      put (mkManager (delete id (m_subscriptions m)) (m_id m)
            (db_remove m_db (IdValue_serialize id) (m_dir m)).2)
  end.

(** The constructor: the entry of one file.  [next] has parsed the key and read the value;
    every exception is caught and the entry removed. *)
Definition load_entry (now : Z) (n : str) (m : SubscriptionManager) : result SubscriptionManager :=
  match IdValue_unserialize n, db_get m_db n (m_dir m) with
  | Ok (Some id), Some data =>
      let key := IdValue_serialize id in
      match of_text (J:=J) data with
      | Ok s =>
          Ok (mkManager (<[id := set_id id s]> (m_subscriptions m)) (if m_id m <? id then id else m_id m)
                (db_put now m_db key data (m_dir m)).2)
      | Throw undefined_behaviour => Throw undefined_behaviour
      | Throw _ => Ok (mkManager (m_subscriptions m) (m_id m) (db_remove m_db key (m_dir m)).2)
      end
  | _, _ => Ok m
  end.

Fixpoint load_entries (now : Z) (names : list str) (m : SubscriptionManager) : result SubscriptionManager :=
  match names with
  | [] => Ok m
  | n :: names' => m ← load_entry now n m; load_entries now names' m
  end.

(** [IdValue::unserialize] as the filter of the iteration: it throws on other names. *)
Definition is_id (n : str) : bool := match IdValue_unserialize n with Ok (Some _) => true | _ => false end.

Definition load (now : Z) (d : Dir) : result SubscriptionManager :=
  let names := iterated_names m_db always_match d in
  if forallb (λ n, is_ok (IdValue_unserialize n)) names then
    load_entries now (filter (λ n, is_id n = true) names) (mkManager ∅ 0 d)
  else Throw (invalid_argument "stoul").

(** ** EventArrayQueue *)

Abbreviation Queue := (list (Z * EventArray)).

(** [std::multimap::emplace] *)
Fixpoint emplace (timepoint : Z) (value : EventArray) (q : Queue) : Queue :=
  match q with
  | [] => [(timepoint, value)]
  | (t, v) :: q' => if t <=? timepoint then (t, v) :: emplace timepoint value q' else (timepoint, value) :: q
  end.

Definition push_back (now : Z) (value : EventArray) (delay : Z) (q : Queue) : Queue := emplace (now + delay) value q.

(** The sign of the difference is the other way round than in [wait_and_pop]. *)
Definition pop (now : Z) (q : Queue) : option EventArray * Queue :=
  match q with
  | (t, v) :: q' => if now - t <=? 0 then (Some v, q') else (None, q)
  | [] => (None, q)
  end.

(** What [wait_for_and_pop] takes without waiting. *)
Definition pop_due (now : Z) (q : Queue) : option (EventArray * Queue) :=
  match q with
  | (t, v) :: q' => if t - now <=? 0 then Some (v, q') else None
  | [] => None
  end.

(** ** EventService *)

Record EventService := mkService {
  manager : SubscriptionManager;
  queue : Queue;
  EVENT_ARRAY_ID : Z;
  m_delivery_retry_attempts : Z;
  m_delivery_retry_interval : Z;
  posts : list (str * EventArray * bool);  (** the requests made so far, with their success *)
}.

Definition set_manager (m : SubscriptionManager) (s : EventService) : EventService :=
  mkService m (queue s) (EVENT_ARRAY_ID s) (m_delivery_retry_attempts s) (m_delivery_retry_interval s) (posts s).
Definition set_queue (q : Queue) (s : EventService) : EventService :=
  mkService (manager s) q (EVENT_ARRAY_ID s) (m_delivery_retry_attempts s) (m_delivery_retry_interval s) (posts s).
Definition add_post (p : str * EventArray * bool) (s : EventService) : EventService :=
  mkService (manager s) (queue s) (EVENT_ARRAY_ID s) (m_delivery_retry_attempts s) (m_delivery_retry_interval s)
    (posts s ++ [p]).

Definition post_events_array (now : Z) (a : EventArray) (delay : Z) : M EventService unit :=
  modify (λ s, set_queue (push_back now a delay (queue s)) s).

Definition notify (now : Z) (events : list Event) : M EventService unit :=
  match events with
  | [] => mret tt
  | _ => post_events_array now (remove_duplicates (array_of events)) 0
  end.

Definition increment_retry_attempts (a : EventArray) : EventArray :=
  mkArray (m_subscriber_id a) (wrap 32 (m_retry_attempts a + 1)) (ea_id a) (m_events a) (m_context a).

Section deliver.

(** Whether the POST of an array to a destination succeeds at this time. *)
Context (deliver : str → EventArray → bool).

Definition send_event_array (now : Z) (a : EventArray) : M EventService unit :=
  s ← get;
  match m_subscriber_id a with
  | None => throw (logic_error "no subscriber")
  | Some id =>
      match get_subscription id (manager s) with
      | Throw _ => mret tt
      | Ok subscription =>
          let destination := sub_destination subscription in
          let ok := deliver destination a in
          modify (add_post (destination, a, ok)) ;;
          if ok then mret tt
          else
            let retry := increment_retry_attempts a in
            if m_retry_attempts retry <? m_delivery_retry_attempts s then
              post_events_array now retry (m_delivery_retry_interval s)
            else zoom manager set_manager (del_subscription (sub_id subscription))
      end
  end.

(** [EventArray::assign_new_id] is part of the selection; subscriptions in the order of their ids. *)
Definition select_events_for_subscribers (a : EventArray) : M EventService (list EventArray) := λ s,
  let '(selections, next) :=
    foldl (λ (acc : list EventArray * Z) (p : Z * Subscription),
      let events := filter (λ e, is_subscribed_for p.2 e = true) (m_events a) in
      match events with
      | [] => acc
      | _ => (acc.1 ++ [mkArray (Some (sub_id p.2)) 0 acc.2 events (sub_context p.2)], wrap 64 (acc.2 + 1))
      end) ([], EVENT_ARRAY_ID s) (Sessions.in_order (m_subscriptions (manager s))) in
  (Ok selections, mkService (manager s) (queue s) next (m_delivery_retry_attempts s)
     (m_delivery_retry_interval s) (posts s)).

(** A turn of [m_handle_events] with an array that is due; exceptions are logged. *)
Definition handle_events (now : Z) : M EventService unit :=
  s ← get;
  match pop_due now (queue s) with
  | None => mret tt
  | Some (a, q) =>
      put (set_queue q s) ;;
      try_catch
        (match m_subscriber_id a with
         | None => selections ← select_events_for_subscribers a; for_each selections (send_event_array now)
         | Some _ => send_event_array now a
         end)
        (λ _, mret tt)
  end.

End deliver.

End subscriptions.

(** ** Duplicates *)

Definition same_event (e e' : Event) : Prop := e_origin e' = e_origin e ∧ e_type e' = e_type e.

#[global] Instance same_event_dec e e' : Decision (same_event e e').
Proof. unfold same_event. apply _. Defined.

(** The events with no earlier one of the same origin and type, after those of [pre]. *)
Definition firsts (pre l : list Event) : list Event :=
  omap (λ x, x) (imap (λ i e, if decide (Exists (same_event e) (pre ++ take i l)) then None else Some e) l).

Lemma firsts_cons pre e l :
  firsts pre (e :: l) =
    (if decide (Exists (same_event e) pre) then [] else [e]) ++ firsts (pre ++ [e]) l.
Proof.
  unfold firsts. rewrite imap_cons. cbn [take omap list_omap]. rewrite app_nil_r.
  replace (imap (_ ∘ S) l) with
    (imap (λ i e0, if decide (Exists (same_event e0) ((pre ++ [e]) ++ take i l)) then None else Some e0) l).
  - by case_decide.
  - apply imap_ext. intros i x _. cbn. by rewrite <- app_assoc.
Qed.

(** What is recorded of the events so far. *)
Definition records (present_events : gmap str (list EventType)) (pre : list Event) : Prop :=
  ∀ e, Exists (same_event e) pre ↔ ∃ types, present_events !! e_origin e = Some types ∧ e_type e ∈ types.

Lemma is_duplicate_spec e present pre :
  records present pre →
  (is_duplicate e present).1 = bool_decide (Exists (same_event e) pre) ∧
  records (is_duplicate e present).2 (pre ++ [e]).
Proof.
  intros Hr. unfold is_duplicate.
  assert (∀ x, Exists (same_event x) (pre ++ [e]) ↔ Exists (same_event x) pre ∨ same_event x e) as Happ.
  { intros x. rewrite Exists_app, Exists_cons, Exists_nil. tauto. }
  destruct (present !! e_origin e) as [types|] eqn:Ep.
  - case_bool_decide as Ht; cbn.
    + split.
      * symmetry. apply bool_decide_eq_true, Hr. by exists types.
      * intros x. rewrite Happ, (Hr x). split; [|by left]. intros [?|[E1 E2]]; [done|].
        exists types. by rewrite <- E1, <- E2.
    + split.
      * symmetry. apply bool_decide_eq_false. rewrite (Hr e). intros (ts & E & ?). congruence.
      * intros x. rewrite Happ, (Hr x). destruct (decide (e_origin e = e_origin x)) as [Eo|No].
        -- rewrite <- Eo, Ep, lookup_insert_eq. split.
           ++ intros [(ts & [= <-] & Hx)|[_ E2]]; eexists; (split; [done|]);
                rewrite elem_of_app, list_elem_of_singleton; [by left|by right].
           ++ intros (ts & [= <-] & Hx). rewrite elem_of_app, list_elem_of_singleton in Hx.
              destruct Hx; [left; by exists types|right; by split].
        -- rewrite lookup_insert_ne by done. split; [|by left]. intros [?|[? _]]; done.
  - cbn. split.
    + symmetry. apply bool_decide_eq_false. rewrite (Hr e), Ep. by intros (ts & ? & _).
    + intros x. rewrite Happ, (Hr x). destruct (decide (e_origin e = e_origin x)) as [Eo|No].
      * rewrite <- Eo, Ep, lookup_insert_eq. split.
        -- intros [(ts & ? & _)|[_ E2]]; [done|]. eexists. split; [done|]. by rewrite list_elem_of_singleton.
        -- intros (ts & [= <-] & Hx%list_elem_of_singleton). right. by split.
      * rewrite lookup_insert_ne by done. split; [|by left]. intros [?|[? _]]; done.
Qed.

(** [remove_duplicates], which walks the events once with a map of the types
    seen per origin, keeps exactly the events that have no earlier one with the same
    origin and type, in their order. *)
Theorem remove_duplicates_firsts a : m_events (remove_duplicates a) = firsts [] (m_events a).
Proof.
  cbn. assert (records ∅ []) as H0.
  { intros e. rewrite Exists_nil, lookup_empty. split; [done|]. by intros (ts & ? & _). }
  revert H0. generalize (∅ : gmap str (list EventType)) as present, (@nil Event) as pre.
  induction (m_events a) as [|e l IH]; intros present pre Hr; [done|]. cbn [remove_if_duplicate].
  destruct (is_duplicate_spec e present pre Hr) as [Hd Hr']. rewrite firsts_cons.
  destruct (is_duplicate e present) as [dup present']. cbn in Hd, Hr'. subst dup.
  rewrite <- (IH present' (pre ++ [e])) by done.
  case_bool_decide; [by rewrite decide_True|by rewrite decide_False].
Qed.

(** ** Selection *)

(** What a subscriber is sent of an array. *)
Definition selection_for (a : EventArray) (s : Subscription) : option (option Z * list Event * str) :=
  match filter (λ e, is_subscribed_for s e = true) (m_events a) with
  | [] => None
  | events => Some (Some (sub_id s), events, sub_context s)
  end.

(** From an array of events every subscriber for at least one of them gets an array of
    its own, with exactly the events it subscribed for in their order and its
    own context, and no other subscriber gets one. *)
Theorem select_events_exact a s :
  ∃ selections s', select_events_for_subscribers a s = (Ok selections, s') ∧
    (λ b, (m_subscriber_id b, m_events b, m_context b)) <$> selections =
      omap (λ p, selection_for a p.2) (Sessions.in_order (m_subscriptions (manager s))) ∧
    manager s' = manager s ∧ queue s' = queue s ∧ posts s' = posts s.
Proof.
  unfold select_events_for_subscribers.
  match goal with |- context [foldl ?f ?x ?l] => destruct (foldl f x l) as [sel next] eqn:E end.
  exists sel. eexists. split; [done|]. split; [|done]. revert E.
  assert (∀ l acc n, foldl (λ (acc : list EventArray * Z) (p : Z * Subscription),
      let events := filter (λ e, is_subscribed_for p.2 e = true) (m_events a) in
      match events with
      | [] => acc
      | _ => (acc.1 ++ [mkArray (Some (sub_id p.2)) 0 acc.2 events (sub_context p.2)], wrap 64 (acc.2 + 1))
      end) (acc, n) l = (sel, next) →
    (λ b, (m_subscriber_id b, m_events b, m_context b)) <$> sel =
      ((λ b, (m_subscriber_id b, m_events b, m_context b)) <$> acc) ++ omap (λ p, selection_for a p.2) l) as H.
  { induction l as [|p l IH]; intros acc n.
    - intros [= <- _]. by rewrite app_nil_r.
    - cbn [foldl]. unfold selection_for at 1. cbn [omap list_omap]. cbv zeta.
      destruct (filter _ (m_events a)) as [|e es] eqn:Ef.
      + intros H. rewrite (IH _ _ H). done.
      + cbn [fst snd]. intros H. rewrite (IH _ _ H), fmap_app. cbn. by rewrite <- app_assoc. }
  intros E. by rewrite (H _ _ _ E).
Qed.

(** ** Delivery *)

Section delivery.

Context (deliver : str → EventArray → bool).

(** Turns of the service, each when the next attempt is due. *)
Fixpoint turns (n : nat) (now : Z) : M EventService unit :=
  match n with
  | O => mret tt
  | S n' =>
      s ← get;
      handle_events deliver now ;;
      turns n' (now + m_delivery_retry_interval s)
  end.

Definition with_retry (a : EventArray) (r : Z) : EventArray :=
  mkArray (m_subscriber_id a) r (ea_id a) (m_events a) (m_context a).

(** A turn in which the array of the subscriber is the only one waiting. *)
Lemma turn_run now t a id sub s :
  queue s = [(t, a)] → t ≤ now → m_subscriber_id a = Some id →
  m_subscriptions (manager s) !! id = Some sub → sub_id sub = id →
  0 ≤ m_retry_attempts a < 2 ^ 32 - 1 →
  ∃ s', handle_events deliver now s = (Ok tt, s') ∧
    m_delivery_retry_attempts s' = m_delivery_retry_attempts s ∧
    m_delivery_retry_interval s' = m_delivery_retry_interval s ∧
    posts s' = posts s ++ [(sub_destination sub, a, deliver (sub_destination sub) a)] ∧
    (if deliver (sub_destination sub) a then queue s' = [] ∧ manager s' = manager s
     else if m_retry_attempts a + 1 <? m_delivery_retry_attempts s then
       queue s' = [(now + m_delivery_retry_interval s, with_retry a (m_retry_attempts a + 1))] ∧
       manager s' = manager s
     else queue s' = [] ∧ m_subscriptions (manager s') = delete id (m_subscriptions (manager s))).
Proof using Type.
  intros Hq Ht Ha Hs Hid Hr. unfold handle_events. run_monad. rewrite Hq. cbn [pop_due].
  rewrite (proj2 (Z.leb_le _ _)) by lia. rewrite Ha. unfold try_catch, send_event_array. run_monad. rewrite Ha.
  cbn [manager set_queue]. unfold get_subscription. rewrite Hs.
  destruct (deliver (sub_destination sub) a).
  - eexists. split; [reflexivity|]. done.
  - unfold increment_retry_attempts. cbn [m_retry_attempts].
    rewrite (wrap_small 32) by (unfold in_range; lia). cbn [m_delivery_retry_attempts set_queue].
    destruct (_ <? _).
    + eexists. split; [reflexivity|]. done.
    + unfold del_subscription. run_monad. cbn [manager add_post]. rewrite Hid. cbn [manager set_queue]. rewrite Hs.
      eexists. split; [reflexivity|]. done.
Qed.

(** Before its time the head of the queue stays there. *)
Lemma turn_early now t a s : queue s = [(t, a)] → now < t → handle_events deliver now s = (Ok tt, s).
Proof using Type.
  intros Hq Ht. unfold handle_events. run_monad. rewrite Hq. cbn [pop_due].
  by rewrite (proj2 (Z.leb_gt _ _)) by lia.
Qed.

Lemma turns_snoc k now s s1 :
  turns k now s = (Ok tt, s1) → (∀ j sj, (j ≤ k)%nat → turns j now s = (Ok tt, sj) →
    m_delivery_retry_interval sj = m_delivery_retry_interval s) →
  turns (S k) now s = handle_events deliver (now + Z.of_nat k * m_delivery_retry_interval s) s1.
Proof using Type.
  revert now s. induction k as [|k IH]; intros now s E Hi.
  - injection E as <-. cbn [turns]. rewrite (bind_run get _ s s s) by done.
    replace (now + Z.of_nat 0 * m_delivery_retry_interval s) with now by lia.
    unfold mbind, M_bind. destruct (handle_events deliver now s) as [[[]|e] s']; done.
  - cbn [turns] in E. rewrite (bind_run get _ s s s) in E by done.
    unfold mbind, M_bind in E. destruct (handle_events deliver now s) as [[[]|e] s'] eqn:Eh; [|done].
    assert (∀ j, turns (S j) now s = turns j (now + m_delivery_retry_interval s) s') as Hstep.
    { intros j. cbn [turns]. rewrite (bind_run get _ s s s) by done. by rewrite (bind_run _ _ _ _ _ Eh). }
    rewrite Hstep, (IH _ _ E).
    + rewrite (Hi 1%nat s') by (lia || by rewrite Hstep). f_equal. lia.
    + intros j sj Hj Ej. rewrite (Hi (S j) sj) by (lia || by rewrite Hstep).
      symmetry. apply (Hi 1%nat); [lia|by rewrite Hstep].
Qed.

(** The service after [k] failed attempts: the array waits for its next turn. *)
Record waiting (now : Z) (a : EventArray) (sub : Subscription) (s : EventService) (k : nat) (sk : EventService)
    : Prop := {
  w_queue : queue sk = [(now + Z.of_nat k * m_delivery_retry_interval s, with_retry a (Z.of_nat k))];
  w_manager : manager sk = manager s;
  w_attempts : m_delivery_retry_attempts sk = m_delivery_retry_attempts s;
  w_interval : m_delivery_retry_interval sk = m_delivery_retry_interval s;
  w_posts : posts sk = posts s ++ ((λ r, (sub_destination sub, with_retry a (Z.of_nat r), false)) <$> seq 0 k);
}.

Section unreachable.
Context (now : Z) (a : EventArray) (id : Z) (sub : Subscription) (s : EventService).
Hypothesis (Hq : queue s = [(now, a)]) (Ha : m_subscriber_id a = Some id) (Hr : m_retry_attempts a = 0).
Hypothesis (Hs : m_subscriptions (manager s) !! id = Some sub) (Hid : sub_id sub = id).
Hypothesis (Hn : 0 ≤ m_delivery_retry_attempts s < 2 ^ 32).
Hypothesis (Hd : ∀ b, deliver (sub_destination sub) b = false).

(** The attempts: at least one. *)
Definition attempts : nat := Z.to_nat (Z.max 1 (m_delivery_retry_attempts s)).

Lemma attempt k sk :
  waiting now a sub s k sk → (k < attempts)%nat →
  ∃ s', handle_events deliver (now + Z.of_nat k * m_delivery_retry_interval s) sk = (Ok tt, s') ∧
    if decide (S k < attempts)%nat then waiting now a sub s (S k) s'
    else queue s' = [] ∧ m_subscriptions (manager s') = delete id (m_subscriptions (manager s)) ∧
      posts s' = posts s ++ ((λ r, (sub_destination sub, with_retry a (Z.of_nat r), false)) <$> seq 0 attempts).
Proof using Ha Hs Hid Hn Hd.
  intros [Wq Wm Wa Wi Wp] Hk. unfold attempts in *.
  destruct (turn_run (now + Z.of_nat k * m_delivery_retry_interval s) _ _ id sub sk Wq)
    as (s' & E & E1 & E2 & Hp & Hcase); [lia|done|by rewrite Wm|done|cbn; lia|].
  exists s'. split; [done|]. rewrite Hd in Hp, Hcase. cbn [m_retry_attempts with_retry] in Hcase.
  assert (posts s' = posts s ++ ((λ r, (sub_destination sub, with_retry a (Z.of_nat r), false)) <$> seq 0 (S k)))
    as Hp' by by rewrite Hp, Wp, seq_S, fmap_app, app_assoc.
  rewrite Wa in Hcase. destruct (Z.ltb_spec (Z.of_nat k + 1) (m_delivery_retry_attempts s)).
  - rewrite decide_True by lia. destruct Hcase as [Hq' Hm']. split; try congruence.
    rewrite Hq', Wi. f_equal. f_equal; [lia|].
    unfold with_retry. cbn [m_subscriber_id m_retry_attempts ea_id m_events m_context]. f_equal. lia.
  - rewrite decide_False by lia. destruct Hcase as [Hq' Hm']. rewrite Hm', Wm. split_and!; [done|done|].
    rewrite Hp'. do 3 f_equal. lia.
Qed.

Lemma waiting_turns k : (k < attempts)%nat → ∃ sk, turns k now s = (Ok tt, sk) ∧ waiting now a sub s k sk.
Proof using Hq Ha Hr Hs Hid Hn Hd.
  induction k as [k IH] using lt_wf_ind. destruct k as [|k]; intros Hk.
  { exists s. split; [done|]. split; try done; [|by rewrite app_nil_r].
    rewrite Hq. destruct a. cbn in *. subst. repeat f_equal. lia. }
  destruct (IH k) as (sk & E & Hw); [lia|lia|]. destruct (attempt k sk Hw) as (s' & E' & Hw'); [lia|].
  rewrite decide_True in Hw' by done. exists s'. split; [|done]. rewrite (turns_snoc k now s sk E); [done|].
  intros j sj Hj Ej. destruct (IH j) as (sj' & Ej' & Hwj); [lia|lia|].
  rewrite Ej in Ej'. injection Ej' as ->. apply Hwj.
Qed.


End unreachable.

End delivery.

(** ** Persistence *)

Section persistence.

Context (J : Type) `{HJ : Json J} `{HL : !JsonLaws J} `{HT : !JsonText J} `{HTL : !JsonTextLaws J}.

(** *** [from_json] reads back what [to_json] writes *)

Lemma EventType_roundtrip e : EventType_from_string (EventType_to_string e) = Ok e.
Proof using Type. by destruct e. Qed.

Lemma SubscriptionProtocol_roundtrip p :
  SubscriptionProtocol_from_string (SubscriptionProtocol_to_string p) = Ok p.
Proof using Type. by destruct p. Qed.

Lemma get_string_same (v : J) s : v ≡ json_of_string s → get_string v = Ok (String.list_ascii_of_string s).
Proof.
  intros E. unfold get_string. rewrite (is_string_proper _ _ E), (json_string_proper _ _ E). unfold is_string.
  by rewrite type_of_string, bool_decide_eq_true_2, string_of_string.
Qed.

Lemma get_text_same (v : J) s : v ≡ json_text s → get_string v = Ok s.
Proof. intros E%get_string_same. by rewrite E, String.list_ascii_of_string_of_list_ascii. Qed.

Lemma find_in_same (v d : J) key w : v ≡ d → json_find d key = Some w → ∃ w', json_find v key = Some w' ∧ w' ≡ w.
Proof.
  intros E Hd. pose proof (same_find v d key E) as Hf. rewrite Hd in Hf.
  inversion Hf as [w' ? Hw Hv|]. by exists w'.
Qed.

Lemma member_same (v d : J) key w : v ≡ d → json_find d key = Some w → ∃ w', member v key = Ok w' ∧ w' ≡ w.
Proof. intros E Hd. destruct (find_in_same v d key w E Hd) as (w' & Hv & Hw). exists w'. unfold member. by rewrite Hv. Qed.

Lemma array_range (v : J) l : v ≡ json_of_array l → json_range v ≡ l ∧ is_null v = false.
Proof.
  intros E. assert (json_type v = array) as Ht.
  { pose proof (same_type _ _ E) as Ht. rewrite type_of_array in Ht. by destruct (json_type v). }
  unfold json_range, is_null. rewrite Ht. split; [|done].
  pose proof (same_elements _ _ E) as He. by rewrite elements_of_array in He.
Qed.

Lemma collect_same {A} (f : J → result A) (g : A → J) xs l :
  l ≡ g <$> xs → (∀ v x, v ≡ g x → f v = Ok x) → collect f l = Ok xs.
Proof.
  intros E Hf. revert l E. induction xs as [|x xs IH]; intros l E; cbn [fmap list_fmap] in E.
  - by inversion E.
  - inversion E as [|v ? l' ? Hv Hl]; subst. cbn [collect]. rewrite (Hf v x) by done. cbn [mbind result_bind].
    by rewrite IH.
Qed.

(** A document is an object, the members of which are found under their keys. *)
Definition documented (d : J) : Prop := json_type d = object ∨ json_type d = null.

Lemma documented_null : documented json_null.
Proof. right. apply type_null. Qed.

Lemma documented_insert d k v : documented d → documented (json_insert d k v).
Proof. left. by apply type_insert. Qed.

Lemma find_documented d k v k' :
  documented d → json_find (json_insert d k v) k' = if decide (k = k') then Some v else json_find d k'.
Proof. apply find_insert. Qed.

Lemma printable_documented d k v :
  documented d → printable d → seven_bit k = true → printable v → printable (json_insert d k v).
Proof. intros Hd Hp Hk Hv. by apply printable_insert; [|done|apply printable_ascii|]. Qed.

Hint Resolve documented_null documented_insert : core.

Ltac find_member :=
  repeat (rewrite find_documented by auto 10;
          first [rewrite decide_True by reflexivity; reflexivity | rewrite decide_False by discriminate]).

Lemma to_json_members s :
  json_find (to_json s) NAME = Some (json_text (sub_name s)) ∧
  json_find (to_json s) DESTINATION = Some (json_text (sub_destination s)) ∧
  json_find (to_json s) CONTEXT = Some (json_text (sub_context s)) ∧
  json_find (to_json s) PROTOCOL =
    Some (json_of_string (SubscriptionProtocol_to_string (sub_protocol s))) ∧
  json_find (to_json s) EVENT_TYPES =
    Some (json_of_array ((λ e, json_of_string (EventType_to_string e)) <$> sub_event_types s)) ∧
  json_find (to_json s) ORIGIN_RESOURCES =
    Some (json_of_array ((λ o, json_insert json_null ODATA_ID (json_text o)) <$> sub_origin_resources s)).
Proof. unfold to_json, fill_json. split_and!; find_member. Qed.

(** [from_json] of the document of a subscription, or of one that is the same, is the subscription
    but for its id, which is not written. *)
Lemma from_to_json correct (v : J) s : v ≡ to_json s → from_json correct v false = Ok (set_id 0 s).
Proof.
  intros E. destruct (to_json_members s) as (H1 & H2 & H3 & H4 & H5 & H6). unfold from_json.
  destruct (member_same v _ _ _ E H1) as (v1 & -> & E1%get_text_same).
  destruct (member_same v _ _ _ E H2) as (v2 & -> & E2%get_text_same).
  destruct (member_same v _ _ _ E H3) as (v3 & -> & E3%get_text_same).
  destruct (member_same v _ _ _ E H4) as (v4 & -> & E4%get_string_same).
  destruct (member_same v _ _ _ E H5) as (v5 & -> & [E5 _]%array_range).
  destruct (find_in_same v _ _ _ E H6) as (v6 & -> & [E6 N6]%array_range).
  cbn [mbind result_bind]. rewrite E1, E2, E3, E4. cbn [mbind result_bind].
  rewrite (collect_same _ _ _ _ E5).
  2:{ intros w e ->%get_string_same. cbn [mbind result_bind].
      rewrite String.string_of_list_ascii_of_string. apply EventType_roundtrip. }
  cbn [mbind result_bind]. rewrite String.string_of_list_ascii_of_string, SubscriptionProtocol_roundtrip, N6.
  cbn [mbind result_bind]. rewrite (collect_same _ _ _ _ E6); [done|].
  intros w o Ew. destruct (member_same w _ ODATA_ID (json_text o) Ew) as (u & -> & Eu%get_text_same).
  { find_member. }
  cbn [mbind result_bind]. by rewrite Eu.
Qed.

(** A subscription whose texts are well-formed UTF-8, and whose document fits into the buffer of the
    database. *)
Definition utf8 (s : str) : Prop := printable_string (String.string_of_list_ascii s).

Definition storable (s : Subscription) : Prop :=
  utf8 (sub_name s) ∧ utf8 (sub_destination s) ∧ utf8 (sub_context s) ∧ Forall utf8 (sub_origin_resources s) ∧
  Z.of_nat (length (to_text (J:=J) s)) < VALUE_LENGTH.

Lemma printable_text s : utf8 s → printable (json_text (J:=J) s).
Proof. apply printable_of_string. Qed.

Lemma printable_name s : seven_bit s = true → printable (json_of_string (J:=J) s).
Proof. intros ?. by apply printable_of_string, printable_ascii. Qed.

Lemma printable_document s : storable s → printable (to_json (J:=J) s).
Proof.
  intros (H1 & H2 & H3 & H4 & _). unfold to_json, fill_json.
  repeat (apply printable_documented; [by auto 10| |done|]); try by apply printable_text.
  - apply printable_null.
  - apply printable_name. by destruct (sub_protocol s).
  - apply printable_of_array, Forall_fmap, Forall_true. intros e. cbn. apply printable_name. by destruct e.
  - apply printable_of_array, Forall_fmap. apply (list.Forall_impl _ _ _ H4). intros o Ho. cbn.
    apply printable_documented; [by auto|apply printable_null|done|by apply printable_text].
Qed.

Lemma of_to_text s : storable s → of_text (J:=J) (to_text (J:=J) s) = Ok (set_id 0 s).
Proof.
  intros Hs. unfold of_text, to_text. rewrite String.string_of_list_ascii_of_string.
  destruct (parse_dump _ (printable_document s Hs)) as (v & -> & E). by apply from_to_json.
Qed.

Definition sub_file (id : Z) : str := lit "Subscription." ++ IdValue_serialize id ++ EXT.

Lemma digits_good n v acc c :
  (c = "/"%char ∨ c = ":"%char) → c ∉ acc → c ∉ digits n v acc.
Proof using Type.
  intros Hc. revert v acc. induction n as [|n IH]; intros v acc Hacc; [done|]. cbn [digits].
  assert (c ∉ ascii_of_N (Z.to_N (48 + v mod 10)) :: acc) as Hcons.
  { apply not_elem_of_cons. split; [|done]. pose proof (Z.mod_pos_bound v 10 ltac:(lia)) as Hm.
    intros E. apply (f_equal N_of_ascii) in E. rewrite N_ascii_embedding in E by lia.
    destruct Hc as [-> | ->]; vm_compute (N_of_ascii _) in E; lia. }
  destruct (_ =? _); [done|by apply IH].
Qed.

Lemma serialize_good id : 0 < id < 2 ^ 64 → good_name (IdValue_serialize id).
Proof using Type.
  intros Hid. unfold IdValue_serialize. rewrite (proj2 (Z.eqb_neq _ _)) by lia.
  split; [apply to_string_ne; lia|]. split; apply digits_good; auto; apply not_elem_of_nil.
Qed.

Lemma sub_file_name id : 0 < id < 2 ^ 64 → full_name m_db (IdValue_serialize id) = Some (sub_file id).
Proof using Type. intros Hid. by rewrite full_name_good by (by apply serialize_good). Qed.

Lemma serialize_inj id id' :
  0 < id < 2 ^ 64 → 0 < id' < 2 ^ 64 → IdValue_serialize id = IdValue_serialize id' → id = id'.
Proof using Type.
  intros H H' E. apply (f_equal IdValue_unserialize) in E. rewrite !IdValue_roundtrip in E by done. by injection E.
Qed.

Lemma sub_file_inj id id' : 0 < id < 2 ^ 64 → 0 < id' < 2 ^ 64 → sub_file id = sub_file id' → id = id'.
Proof using Type.
  intros H H' E. unfold sub_file in E. apply app_inv_head, app_inv_tail in E. by apply serialize_inj.
Qed.

(** The files of the database are those of the subscriptions. *)
Record mirrors (m : SubscriptionManager) : Prop := {
  mirror_sub : ∀ id s, m_subscriptions m !! id = Some s →
    sub_id s = id ∧ storable s ∧ 0 < id < 2 ^ 64 ∧ ∃ file, m_dir m !! sub_file id = Some file ∧ content file = to_text (J:=J) s;
  mirror_file : ∀ f file, m_dir m !! f = Some file → strip_name m_db f ≠ [] →
    ∃ id, is_Some (m_subscriptions m !! id) ∧ f = sub_file id;
}.

Lemma next_free_run m fuel id :
  0 ≤ id → id + Z.of_nat fuel < 2 ^ 64 → fuel = S (size m) →
  ∃ id', next_free fuel m id = Some id' ∧ id < id' ≤ id + Z.of_nat fuel ∧ m !! id' = None.
Proof using Type.
  intros Hid Hb ->. destruct (first_free m (λ k, id + 1 + Z.of_nat k)) as (k & Hk & Hnone & Hlt); [intros; lia|].
  exists (id + 1 + Z.of_nat k). split; [|split; [lia|done]].
  assert (∀ f j, (j ≤ k)%nat → (k - j < f)%nat → next_free f m (id + Z.of_nat j) = Some (id + 1 + Z.of_nat k)) as H.
  { induction f as [|f IH]; intros j Hj Hf; [lia|]. cbn [next_free].
    rewrite wrap_small by (unfold in_range; lia). case_bool_decide as E.
    - destruct (decide (j = k)) as [->|Hne]; [f_equal; lia|].
      destruct (Hlt j) as [x Hx]; [lia|]. replace (id + 1 + Z.of_nat j) with (id + Z.of_nat j + 1) in Hx by lia. congruence.
    - destruct (decide (j = k)) as [->|Hne].
      { destruct E. by replace (id + Z.of_nat k + 1) with (id + 1 + Z.of_nat k) by lia. }
      replace (id + Z.of_nat j + 1) with (id + Z.of_nat (S j)) by lia. apply IH; lia. }
  rewrite <- (Z.add_0_r id) at 1. apply (H _ O); lia.
Qed.

Lemma add_mirrors now s m :
  mirrors m → (∀ id, storable (set_id id s)) → 0 ≤ m_id m → m_id m + Z.of_nat (size (m_subscriptions m)) + 1 < 2 ^ 64 →
  ∃ id m', add_subscription J now s m = (Ok id, m') ∧ mirrors m' ∧
    m_subscriptions m !! id = None ∧ m_subscriptions m' = <[id := set_id id s]> (m_subscriptions m).
Proof using Type.
  intros [H1 H2] Hst Hid Hb. unfold add_subscription. run_monad.
  destruct (next_free_run (m_subscriptions m) (S (size (m_subscriptions m))) (m_id m)) as (id & -> & Hrange & Hnone);
    [done|lia|done|].
  assert (0 < id < 2 ^ 64) as Hr by lia.
  eexists id, _. split; [reflexivity|]. split; [|by split]. unfold db_put, save_file.
  rewrite sub_file_name by done. run_monad. split; cbn.
  - intros id' s' [[<- <-]|[Hne Hs]]%lookup_insert_Some.
    + split; [done|]. split; [apply Hst|]. split; [done|]. eexists. by rewrite lookup_insert_eq.
    + destruct (H1 id' s' Hs) as (E & Hst' & Hr' & file & Hf & Hc). split; [done|]. split; [done|]. split; [done|].
      exists file.
      rewrite lookup_insert_ne; [done|]. intros Ef. by apply sub_file_inj in Ef.
  - intros f file [[<- _]|[_ Hf]]%lookup_insert_Some Hn.
    + exists id. by rewrite lookup_insert_eq.
    + destruct (H2 f file Hf Hn) as (id' & Hs & ->). exists id'. split; [|done].
      destruct (decide (id = id')) as [->|Hne]; [by rewrite lookup_insert_eq|by rewrite lookup_insert_ne].
Qed.

Lemma del_mirrors id m :
  mirrors m → is_Some (m_subscriptions m !! id) →
  ∃ m', del_subscription id m = (Ok tt, m') ∧ mirrors m' ∧
    m_subscriptions m' = delete id (m_subscriptions m).
Proof using Type.
  intros [H1 H2] [s Hs]. unfold del_subscription. run_monad. rewrite Hs.
  destruct (H1 id s Hs) as (_ & _ & Hr & file & Hf & _).
  eexists. split; [reflexivity|]. split; [|done]. unfold db_remove, remove_file.
  rewrite sub_file_name by done. run_monad. rewrite Hf. cbn. split; cbn.
  - intros id' s' [Hne Hs']%lookup_delete_Some. destruct (H1 id' s' Hs') as (E & Hst & Hr' & file' & Hf' & Hc).
    split; [done|]. split; [done|]. split; [done|]. exists file'. rewrite lookup_delete_ne; [done|].
    intros Ef. by apply sub_file_inj in Ef.
  - intros f file' [Hne Hf']%lookup_delete_Some Hn. destruct (H2 f file' Hf' Hn) as (id' & Hs' & ->).
    exists id'. rewrite lookup_delete_ne; [done|]. intros ->. done.
Qed.

(** *** The constructor *)

(** What was loaded so far agrees with the subscriptions that were stored. *)
Definition loaded (m acc : SubscriptionManager) : Prop :=
  (∀ id s, m_subscriptions acc !! id = Some s → m_subscriptions m !! id = Some s) ∧
  (∀ f, content <$> m_dir acc !! f = content <$> m_dir m !! f).

Lemma load_entry_run now m acc id s :
  mirrors m → loaded m acc → m_subscriptions m !! id = Some s →
  ∃ acc', load_entry J now (IdValue_serialize id) acc = Ok acc' ∧ loaded m acc' ∧
    m_subscriptions acc' = <[id := s]> (m_subscriptions acc).
Proof.
  intros Hm [Hl Hd] Hs. destruct (mirror_sub m Hm id s Hs) as (Hid & Hst & Hr & file & Hf & Hc).
  assert (Z.of_nat (length (to_text (J:=J) s)) < VALUE_LENGTH) as Hshort by apply Hst.
  unfold load_entry. rewrite IdValue_roundtrip by done.
  assert (db_get m_db (IdValue_serialize id) (m_dir acc) = Some (to_text (J:=J) s)) as ->.
  { unfold db_get, read_file. rewrite sub_file_name by done. cbn [mbind option_bind].
    pose proof (Hd (sub_file id)) as E. rewrite Hf in E.
    destruct (m_dir acc !! sub_file id) as [g|]; [|done]. injection E as E. cbn [mbind option_bind]. rewrite E, Hc.
    by rewrite (proj2 (Z.ltb_lt _ _)). }
  rewrite of_to_text by done. cbv zeta. eexists. split; [reflexivity|]. cbn [m_subscriptions].
  replace (set_id id (set_id 0 s)) with s by (destruct s; cbn in *; by subst). split; [|done]. split; cbn.
  - intros id' s' [[<- <-]|[_ Hs']]%lookup_insert_Some; [done|by apply Hl].
  - intros f. unfold db_put, save_file. rewrite sub_file_name by done. run_monad. cbn [snd].
    destruct (decide (sub_file id = f)) as [<-|Hne]; [by rewrite lookup_insert_eq, Hf, <- Hc|].
    by rewrite lookup_insert_ne.
Qed.

Lemma load_all now m acc names :
  mirrors m → loaded m acc →
  Forall (λ n, ∃ id s, n = IdValue_serialize id ∧ m_subscriptions m !! id = Some s) names →
  ∃ acc', load_entries J now names acc = Ok acc' ∧
  loaded m acc' ∧ (∀ id, is_Some (m_subscriptions acc !! id) → is_Some (m_subscriptions acc' !! id)) ∧
  (∀ id, IdValue_serialize id ∈ names → is_Some (m_subscriptions m !! id) → is_Some (m_subscriptions acc' !! id)).
Proof.
  intros Hm Hl Hn. revert acc Hl. induction Hn as [|n names (id & s & -> & Hs) _ IH]; intros acc Hl; cbn [load_entries].
  { exists acc. split_and!; [done|done|done|]. by intros id ?%elem_of_nil. }
  destruct (load_entry_run now m acc id s Hm Hl Hs) as (acc1 & -> & Hl' & Hins). cbn [mbind result_bind].
  destruct (IH _ Hl') as (acc' & E & H1 & H2 & H3). exists acc'. split_and!; [done|done| |].
  - intros id' Hid'. apply H2. rewrite Hins. destruct (decide (id = id')) as [<-|Hne].
    + by rewrite lookup_insert_eq.
    + by rewrite lookup_insert_ne.
  - intros id' [E'|Hin]%list.elem_of_cons [s' Hs']; [|by apply H3].
    apply H2. rewrite Hins. apply serialize_inj in E' as ->; [by rewrite lookup_insert_eq| |].
    + by apply (mirror_sub m Hm id' s' Hs').
    + by apply (mirror_sub m Hm id s Hs).
Qed.

(** The names the constructor iterates over are the ids of the subscriptions. *)
Lemma iterated_ids m :
  mirrors m →
  let names := iterated_names m_db always_match (m_dir m) in
  Forall (λ n, ∃ id s, n = IdValue_serialize id ∧ m_subscriptions m !! id = Some s) names ∧
  (∀ id s, m_subscriptions m !! id = Some s → IdValue_serialize id ∈ names).
Proof.
  intros Hm names. split.
  - apply list.Forall_forall. intros n [[Hne _] Hin]%list_elem_of_filter.
    apply list_elem_of_fmap in Hin as (f & -> & Hin). apply list_elem_of_fmap in Hin as ([f' file] & -> & Hin).
    apply elem_of_map_to_list in Hin. destruct (mirror_file m Hm f' file Hin Hne) as (id & [s Hs] & ->).
    exists id, s. split; [|done]. apply strip_full_name, sub_file_name, (mirror_sub m Hm id s Hs).
  - intros id s Hs. destruct (mirror_sub m Hm id s Hs) as (_ & _ & Hr & file & Hf & _).
    pose proof (strip_full_name _ _ _ (sub_file_name id Hr)) as Hst.
    apply list_elem_of_filter. split; [split; [by apply serialize_good|done]|].
    apply list_elem_of_fmap. exists (sub_file id). split; [done|]. apply list_elem_of_fmap. exists (sub_file id, file).
    split; [done|by apply elem_of_map_to_list].
Qed.

(** C34: while subscriptions whose texts are UTF-8 and whose documents are shorter than 65536
    bytes are added and subscriptions are removed, the files of the database are the
    documents of the subscriptions, and the constructor of the manager, run on such a
    directory after a restart, reads the documents with [from_json] and restores exactly the
    same subscriptions, every field of them, under the same ids. *)
Theorem subscriptions_survive_restart now m :
  mirrors m →
  (∀ now s, (∀ id, storable (set_id id s)) → 0 ≤ m_id m → m_id m + Z.of_nat (size (m_subscriptions m)) + 1 < 2 ^ 64 →
    mirrors (add_subscription J now s m).2) ∧
  (∀ id, mirrors (del_subscription id m).2) ∧
  ∃ m', load J now (m_dir m) = Ok m' ∧ m_subscriptions m' = m_subscriptions m.
Proof.
  intros Hm. split_and!.
  { intros now' s Hst Hid Hb. by destruct (add_mirrors now' s m Hm Hst Hid Hb) as (id & m' & -> & ? & _). }
  { intros id. destruct (m_subscriptions m !! id) as [s|] eqn:Hs.
    - destruct (del_mirrors id m Hm) as (m' & -> & ? & _); [by rewrite Hs|done].
    - unfold del_subscription. run_monad. by rewrite Hs. }
  destruct (iterated_ids m Hm) as [Hnames Hall]. unfold load.
  set (names := iterated_names m_db always_match (m_dir m)) in *. cbv zeta.
  assert (∀ n, n ∈ names → ∃ id, IdValue_unserialize n = Ok (Some id)) as Hparse.
  { intros n Hn. rewrite list.Forall_forall in Hnames. destruct (Hnames n Hn) as (id & s & -> & Hs).
    exists id. apply IdValue_roundtrip, (mirror_sub m Hm id s Hs). }
  rewrite (proj2 (forallb_forall _ _)).
  2:{ intros n Hn. apply list_elem_of_In in Hn. by destruct (Hparse n Hn) as [id ->]. }
  rewrite filter_all.
  2:{ apply list.Forall_forall. intros n Hn. unfold is_id. by destruct (Hparse n Hn) as [id ->]. }
  destruct (load_all now m (mkManager ∅ 0 (m_dir m)) names Hm) as (m' & E & (H1 & _) & _ & H3); [|done|].
  { split; [|done]. intros id s. cbn. by rewrite lookup_empty. }
  exists m'. split; [done|].
  apply map_eq. intros id. destruct (m_subscriptions m !! id) as [s|] eqn:Hs.
  - destruct (H3 id) as [s' Hs']; [by eapply Hall|by rewrite Hs|]. rewrite Hs'. apply H1 in Hs'. congruence.
  - destruct (m_subscriptions m' !! id) as [s'|] eqn:Hs'; [|done]. apply H1 in Hs'. congruence.
Qed.

End persistence.

(** ** Samples *)

Definition sample_subscription (id : Z) (name : str) : Subscription :=
  mkSubscription id name (lit "http://here") (lit "ctx") Redfish [Alert; StatusChange] [lit "/x"].

Abbreviation T := Tree.t.

Definition sample_manager : SubscriptionManager :=
  (add_subscription T 5 (sample_subscription 0 (lit "one")) (mkManager ∅ 0 ∅)).2.

Lemma sample_storable id : storable T (set_id id (sample_subscription 0 (lit "one"))).
Proof. split_and!; [done|done|done|by repeat constructor|]. vm_compute. reflexivity. Qed.

Lemma sample_mirrors : mirrors T sample_manager.
Proof.
  destruct (add_mirrors T 5 (sample_subscription 0 (lit "one")) (mkManager ∅ 0 ∅)) as (id & m' & E & H & _).
  - split; cbn; intros *; by rewrite lookup_empty.
  - apply sample_storable.
  - done.
  - vm_compute. reflexivity.
  - unfold sample_manager. by rewrite E.
Qed.

Lemma subscriptions_survive_restart_witness :
  m_subscriptions sample_manager !! 1 = Some (sample_subscription 1 (lit "one")) ∧
  ∃ m', load T 9 (m_dir sample_manager) = Ok m' ∧ m_subscriptions m' = m_subscriptions sample_manager.
Proof.
  split; [vm_compute; reflexivity|].
  apply (subscriptions_survive_restart T 9 sample_manager sample_mirrors).
Defined.

Definition sample_array : EventArray := mkArray (Some 1) 0 7 [mkEvent Alert (lit "/x") []] (lit "ctx").
Definition sample_service : EventService := mkService sample_manager [(100, sample_array)] 8 2 60 [].


End Eventing.
