(* ===== verification/ComponentUrl.v ===== *)
(** Links of the REST service: [get_component_url] and [id_to_uint64]
    (application/src/rest/endpoints/utils.cpp), which build the URL of a resource
    from the tables and read identifiers back from a URL, and the search
    [model::find] and [model::try_find]
    (application/include/psme/rest/model/find.hpp, try_find.hpp).

    The tables are a function from the components to their managers.  The walk
    over the parents has a fuel: the source recurses without a bound, and the
    theorems show the fuel that is enough.  What a metric says about its subject
    is the class [MetricFields]. *)

From Stdlib Require Import ZArith Lia Ascii.
From S2P Require Import Prelude.
From S2P Require Import OrdSet.
From S2P Require Import Enums.
From S2P Require Import GenericManager.
From S2P Require Import Mux.
From S2P Require Import Routes.
From S2P Require Import Database.

Module ComponentUrl.
Import GenericManager.
Import Mux.

Open Scope string_scope.

(** A number appended to a path. *)
Definition id_text (id : Z) : string := String.string_of_list_ascii (Database.to_string id).

(** The accessors of [model::Metric] that the links use. *)
Class MetricFields (J : Type) := {
  get_component_type : J → Component.t;
  get_component_uuid : J → uuid;
  get_metric_name : J → string;
}.

Section url.
Context {J : Type} `{EqDecision J} `{!MetricFields J}.

(** [agent_framework::module::get_manager<M>()] for every model class. *)
Definition Tables : Type := Component.t → @GenericManager.t J.

Implicit Types (db : Tables) (r x : @Resource J) (s : @GenericManager.t J).

(** [std::distance(begin, std::find(begin, end, uuid))] *)
Fixpoint distance_to (u : uuid) (l : list uuid) : nat :=
  match l with [] => 0 | x :: l' => if decide (x = u) then 0 else S (distance_to u l') end.

Definition build_parent_path (m : Component.t) (path : string) (u : uuid) (collection_literal : string)
    (db : Tables) : result string :=
  id ← uuid_to_rest_id u (db m);
  mret (append (id_text id) (append collection_literal path)).

(** [rec] is [get_component_url_recursive]. *)
Definition build_child_path (rec : string → Component.t → uuid → result string)
    (m : Component.t) (path : string) (u : uuid) (collection_literal : string) (db : Tables) : result string :=
  resource ← get_entry u (db m);
  path' ← rec path (m_parent_type resource) (m_parent_uuid resource);
  mret (append (id_text (m_id resource)) (append collection_literal path')).

Definition build_array_member_path (rec : string → Component.t → uuid → result string)
    (m : Component.t) (path : string) (u : uuid) (array_name : string) (db : Tables) : result string :=
  resource ← get_entry u (db m);
  path' ← rec path (m_parent_type resource) (m_parent_uuid resource);
  let array_members := get_keys_of (m_parent_uuid resource) (λ _, true) (db m) in
  let index := distance_to u array_members in
  if decide (length array_members ≤ index)%nat then Throw not_found
  else mret (append (id_text (Z.of_nat index)) (append_jsonptr ("/" ++ array_name) path')).

Definition find_metric_index (metric : @Resource J) (db : Tables) : result nat :=
  let j := json_rest metric in
  let array_members := get_keys (λ m,
    bool_decide (get_component_type (json_rest m) = get_component_type j)
    && bool_decide (get_component_uuid (json_rest m) = get_component_uuid j)
    && bool_decide (get_metric_name (json_rest m) = get_metric_name j)) (db Component.Metric) in
  let index := distance_to (get_uuid metric) array_members in
  if decide (length array_members ≤ index)%nat then Throw not_found else Ok index.

(** constants::PowerZone, constants::ChassisSensor, constants::ThermalZone *)
Definition POWER_CONSUMED_WATTS_PATH : string := "/PowerConsumedWatts".
Definition INPUT_AC_POWER_WATTS_PATH : string := "/Oem/Intel_RackScale/InputACPowerWatts".
Definition READING_VOLTS_PATH : string := "/ReadingVolts".
Definition VOLUMETRIC_AIRFLOW_CFM_PATH : string := "/Oem/Intel_RackScale/VolumetricAirflowCfm".
Definition READING_PATH : string := "/Reading".
Definition READING_CELSIUS_PATH : string := "/ReadingCelsius".

Definition build_metric_path (rec : string → Component.t → uuid → result string)
    (path : string) (u : uuid) (db : Tables) : result string :=
  metric ← get_entry u (db Component.Metric);
  let j := json_rest metric in
  let name := get_metric_name j in
  path' ← match rec path (get_component_type j) (get_component_uuid j) with
          | Throw invalid_uuid => Throw not_found
          | r => r
          end;
  if decide (name = POWER_CONSUMED_WATTS_PATH) then
    mret (append "PowerConsumedWatts" (append (id_text 0) (append_jsonptr "/PowerControl" path')))
  else if decide (name = INPUT_AC_POWER_WATTS_PATH) then
    mret (append_jsonptr INPUT_AC_POWER_WATTS_PATH path')
  else if decide (name = READING_VOLTS_PATH) then
    index ← find_metric_index metric db;
    mret (append "ReadingVolts" (append (id_text (Z.of_nat index)) (append_jsonptr "/Voltages" path')))
  else if decide (name = VOLUMETRIC_AIRFLOW_CFM_PATH) then
    mret (append_jsonptr VOLUMETRIC_AIRFLOW_CFM_PATH path')
  else if decide (name = READING_PATH) then mret (append "Reading" path')
  else if decide (name = READING_CELSIUS_PATH) then
    index ← find_metric_index metric db;
    mret (append "ReadingCelsius" (append (id_text (Z.of_nat index)) (append_jsonptr "/Temperatures" path')))
  else mret (append_jsonptr name (append "Metrics" path')).

Fixpoint get_component_url_recursive (fuel : nat) (db : Tables) (path : string) (type : Component.t) (u : uuid)
    : result string :=
  match fuel with
  | O => Throw out_of_fuel
  | S fuel' =>
      let rec := get_component_url_recursive fuel' db in
      let parent_path := λ literal, build_parent_path type path u literal db in
      let child_path := λ literal, build_child_path rec type path u literal db in
      let array_member_path := λ array_name, build_array_member_path rec type path u array_name db in
      match type with
      | Component.Chassis => parent_path "Chassis"
      | Component.Manager => parent_path "Managers"
      | Component.Task =>
          id ← uuid_to_rest_id u (db Component.Task);
          mret (append (id_text id) (append "Tasks" (append "TaskService" path)))
      | Component.System => parent_path "Systems"
      | Component.StorageSubsystem => child_path "Storage"
      | Component.StorageService => parent_path "StorageServices"
      | Component.EthernetSwitch => parent_path "EthernetSwitches"
      | Component.Drive => child_path "Drives"
      | Component.Memory => child_path "Memory"
      | Component.Processor => child_path "Processors"
      | Component.NetworkInterface =>
          nic ← get_entry u (db Component.NetworkInterface);
          if decide (m_parent_type nic = Component.Manager) then child_path "EthernetInterfaces"
          else if decide (m_parent_type nic = Component.System) then child_path "EthernetInterfaces"
          else Throw not_found
      | Component.StorageController => array_member_path "StorageControllers"
      | Component.EthernetSwitchPort => child_path "Ports"
      | Component.EthernetSwitchPortVlan => child_path "VLANs"
      | Component.Zone => child_path "Zones"
      | Component.PcieFunction => child_path "Functions"
      | Component.PcieDevice =>
          pcie_device ← get_entry u (db Component.PcieDevice);
          match get_keys_of (m_parent_uuid pcie_device) (λ _, true) (db Component.Chassis) with
          | [chassis] =>
              path' ← rec path Component.Chassis chassis;
              mret (append (id_text (m_id pcie_device)) (append "PCIeDevices" path'))
          | _ => Ok path
          end
      | Component.Port => child_path "Ports"
      | Component.Switch => child_path "Switches"
      | Component.Acl => child_path "ACLs"
      | Component.AclRule => child_path "Rules"
      | Component.StaticMac => child_path "StaticMACs"
      | Component.Fabric => parent_path "Fabrics"
      | Component.Endpoint => child_path "Endpoints"
      | Component.PowerZone =>
          power_zone ← get_entry u (db Component.PowerZone);
          path' ← rec path Component.Chassis (m_parent_uuid power_zone);
          mret (append "Power" path')
      | Component.ThermalZone =>
          thermal_zone ← get_entry u (db Component.ThermalZone);
          path' ← rec path Component.Chassis (m_parent_uuid thermal_zone);
          mret (append "Thermal" path')
      | Component.NetworkDevice => child_path "NetworkInterfaces"
      | Component.NetworkDeviceFunction => child_path "NetworkDeviceFunctions"
      | Component.PSU => array_member_path "PowerSupplies"
      | Component.Fan => array_member_path "Fans"
      | Component.MetricDefinition =>
          id ← uuid_to_rest_id u (db Component.MetricDefinition);
          mret (append (id_text id) (append "MetricDefinitions" (append "TelemetryService" path)))
      | Component.Metric => build_metric_path rec path u db
      | Component.TrustedModule => array_member_path "TrustedModules"
      | Component.Volume => child_path "Volumes"
      | Component.StoragePool => child_path "StoragePools"
      | Component.LogService => child_path "LogServices"
      | Component.LogEntry => child_path "Entries"
      | _ => Throw not_found
      end
  end.

(** The fuel of the walk: a metric, then a resource and its at most three
    ancestors. *)
Definition url_fuel : nat := 8.

Definition get_component_url (type : Component.t) (u : uuid) (db : Tables) : result string :=
  get_component_url_recursive url_fuel db Routes.ROOT_PATH type u.

Definition is_digit (c : ascii) : bool := Routes.between "0" "9" c.

Definition id_to_uint64 (id_as_string : string) : result Z :=
  let s := String.list_ascii_of_string id_as_string in
  if negb (forallb is_digit s) then Throw not_found
  else match Database.stoul s with
       | Throw out_of_range => Throw not_found
       | Throw (invalid_argument _) => Throw not_found
       | r => r
       end.

(** [constants::get_resource_id<T>()] *)
Definition RESOURCE_ID (c : Component.t) : string :=
  match c with
  | Component.Memory => "memoryId"
  | Component.System => "systemId"
  | Component.Volume => "volumeId"
  | Component.Chassis => "chassisId"
  | Component.Drive => "driveId"
  | Component.Acl => "aclId"
  | Component.EthernetSwitch => "ethernetSwitchId"
  | Component.EthernetSwitchPort => "switchPortId"
  | Component.EthernetSwitchPortVlan => "vlanId"
  | Component.AclRule => "ruleId"
  | Component.StaticMac => "staticMacId"
  | Component.Endpoint => "endpointId"
  | Component.StorageService => "serviceId"
  | Component.StorageSubsystem => "storageId"
  | Component.Manager => "managerId"
  | Component.NetworkInterface => "nicId"
  | Component.Fabric => "fabricId"
  | Component.Switch => "switchId"
  | Component.Port => "portId"
  | Component.Zone => "zoneId"
  | Component.StoragePool => "storagePoolId"
  | Component.NetworkDevice => "networkInterfaceId"
  | Component.Task => "taskId"
  | Component.NetworkDeviceFunction => "networkDeviceFunctionId"
  | Component.MetricDefinition => "metricDefinitionId"
  | Component.Processor => "processorId"
  | Component.PcieDevice => "deviceId"
  | Component.PcieFunction => "functionId"
  | Component.LogService => "logServiceId"
  | Component.LogEntry => "logEntryId"
  | _ => ""
  end.

(** [FindStateObject]: the model class of the last argument, the identifier and
    the uuid of its parent. *)
Record FindState := mkFind { f_model : Component.t; f_id : Z; f_parent_uuid : uuid }.

(** [find_impl_method] over the template arguments [T, Tn...]. *)
Fixpoint find_impl_method (args : list Component.t) (parent : uuid) (params : Parameters) (db : Tables)
    : result FindState :=
  match args with
  | [] => Throw undefined_behaviour
  | [t] =>
      id ← id_to_uint64 (params_get (RESOURCE_ID t) params);
      mret (mkFind t id parent)
  | t :: tn =>
      id ← id_to_uint64 (params_get (RESOURCE_ID t) params);
      u ← rest_id_to_uuid id parent (db t);
      find_impl_method tn u params db
  end.

Definition find (args : list Component.t) (params : Parameters) (db : Tables) : result FindState :=
  find_impl_method args "" params db.

(** [FindStateObject::get_uuid] and [FindStateObject::get] *)
Definition find_get_uuid (f : FindState) (db : Tables) : result uuid :=
  rest_id_to_uuid (f_id f) (f_parent_uuid f) (db (f_model f)).

Definition find_get (f : FindState) (db : Tables) : result (@Resource J) :=
  u ← find_get_uuid f db;
  get_entry u (db (f_model f)).

(** [TryFindStateObject]: [None] once [find_failed]; the wanted uuid otherwise.
    Only NotFound is caught. *)
Fixpoint try_find_impl_method (args : list Component.t) (parent : uuid) (params : Parameters) (db : Tables)
    : result (option (Component.t * uuid)) :=
  match args with
  | [] => Throw undefined_behaviour
  | t :: tn =>
      match (id ← id_to_uint64 (params_get (RESOURCE_ID t) params); rest_id_to_uuid id parent (db t)) with
      | Throw not_found => Ok None
      | Throw e => Throw e
      | Ok u => match tn with [] => Ok (Some (t, u)) | _ => try_find_impl_method tn u params db end
      end
  end.

Definition try_find (args : list Component.t) (params : Parameters) (db : Tables)
    : result (option (Component.t * uuid)) :=
  try_find_impl_method args "" params db.

(** [TryFindStateObject::get]: InvalidUuid gives no value. *)
Definition try_find_get (f : option (Component.t * uuid)) (db : Tables) : result (option (@Resource J)) :=
  match f with
  | None => Ok None
  | Some (m, u) =>
      match get_entry u (db m) with
      | Ok r => Ok (Some r)
      | Throw invalid_uuid => Ok None
      | Throw e => Throw e
      end
  end.

(** ** The places of resources in the URL space *)

(** The collections of the service root, with their URL segments, and the
    collections of other resources. *)
Definition tops : list (Component.t * list string) :=
  [(Component.Chassis, ["Chassis"]); (Component.Manager, ["Managers"]);
   (Component.Task, ["TaskService"; "Tasks"]); (Component.System, ["Systems"]);
   (Component.StorageService, ["StorageServices"]); (Component.EthernetSwitch, ["EthernetSwitches"]);
   (Component.Fabric, ["Fabrics"]); (Component.MetricDefinition, ["TelemetryService"; "MetricDefinitions"])].

Definition nested : list (Component.t * Component.t * string) :=
  [(Component.System, Component.StorageSubsystem, "Storage");
   (Component.Chassis, Component.Drive, "Drives");
   (Component.System, Component.Memory, "Memory");
   (Component.System, Component.Processor, "Processors");
   (Component.Manager, Component.NetworkInterface, "EthernetInterfaces");
   (Component.System, Component.NetworkInterface, "EthernetInterfaces");
   (Component.EthernetSwitch, Component.EthernetSwitchPort, "Ports");
   (Component.EthernetSwitchPort, Component.EthernetSwitchPortVlan, "VLANs");
   (Component.NetworkInterface, Component.EthernetSwitchPortVlan, "VLANs");
   (Component.Fabric, Component.Zone, "Zones");
   (Component.Switch, Component.Port, "Ports");
   (Component.Fabric, Component.Switch, "Switches");
   (Component.EthernetSwitch, Component.Acl, "ACLs");
   (Component.Acl, Component.AclRule, "Rules");
   (Component.EthernetSwitchPort, Component.StaticMac, "StaticMACs");
   (Component.Fabric, Component.Endpoint, "Endpoints");
   (Component.System, Component.NetworkDevice, "NetworkInterfaces");
   (Component.NetworkDevice, Component.NetworkDeviceFunction, "NetworkDeviceFunctions");
   (Component.StorageService, Component.Volume, "Volumes");
   (Component.StorageService, Component.StoragePool, "StoragePools");
   (Component.Manager, Component.LogService, "LogServices");
   (Component.LogService, Component.LogEntry, "Entries")].

(** A table of the REST service: no persistent uuids, no two entries with one
    uuid, no empty uuid, identifiers of 64 bits. *)
Record table_ok (s : @GenericManager.t J) : Prop := {
  temporary_only : Forall (λ r, m_is_uuid_persistent r = false ∧ m_persistent_uuid r = "") (m_manager_data s);
  uuids_distinct : NoDup (m_temporary_uuid <$> m_manager_data s);
  uuids_not_empty : Forall (λ r, m_temporary_uuid r ≠ "") (m_manager_data s);
  ids_in_range : Forall (λ r, (0 ≤ m_id r < 2 ^ 64)%Z) (m_manager_data s);
}.

(** The resource [r] is the only one of its table with its identifier, or the
    only one with its identifier and parent. *)
Definition id_shared (r : @Resource J) (s : @GenericManager.t J) : Prop :=
  ∀ r', r' ∈ m_manager_data s → m_id r' = m_id r → r' = r.
Definition id_of_parent (r : @Resource J) (s : @GenericManager.t J) : Prop :=
  ∀ r', r' ∈ m_manager_data s → m_parent_uuid r' = m_parent_uuid r → m_id r' = m_id r → r' = r.

(** The resource [u] is in the model under the ancestors [cs], the nearest
    first; [ss] are the segments of its URL, [ids] the identifiers in it. *)
Inductive located (db : Tables) : list Component.t → uuid → list string → list Z → Prop :=
  | located_top c lits u r :
      (c, lits) ∈ tops → table_ok (db c) → r ∈ m_manager_data (db c) → m_temporary_uuid r = u →
      id_shared r (db c) →
      located db [c] u (lits ++ [id_text (m_id r)])%list [m_id r]
  | located_child c p cs lit u r ss ids :
      (p, c, lit) ∈ nested → table_ok (db c) → r ∈ m_manager_data (db c) → m_temporary_uuid r = u →
      m_parent_type r = p → id_of_parent r (db c) →
      located db (p :: cs) (m_parent_uuid r) ss ids →
      located db (c :: p :: cs) u (ss ++ [lit; id_text (m_id r)])%list (m_id r :: ids).

(** ** Reading one table *)

Lemma find_if_temporary s u r :
  table_ok s → r ∈ m_manager_data s → m_temporary_uuid r = u → u ≠ "" →
  ∃ i, find_if (has_key u) (m_manager_data s) = Some (i, r) ∧
       find_if (has_any_uuid u) (m_manager_data s) = Some (i, r).
Proof.
  intros [Ht Hd _ _]. revert Ht Hd. induction (m_manager_data s) as [|x l IH]; intros Ht Hd Hr Hu Hne;
    [by apply elem_of_nil in Hr|].
  apply list.Forall_cons in Ht as [[Hb Hp] Ht]. apply list.NoDup_cons in Hd as [Hx Hd].
  cbn [find_if]. unfold has_key at 1, has_any_uuid at 1. rewrite Hb, Hp. cbn [andb orb].
  rewrite (bool_decide_eq_false_2 ("" = u)) by done. cbn [orb].
  apply list.elem_of_cons in Hr as [->|Hr].
  - exists 0. by rewrite bool_decide_eq_true_2.
  - rewrite bool_decide_eq_false_2.
    + destruct (IH Ht Hd Hr Hu Hne) as (i & -> & ->). by exists (S i).
    + intros E. apply Hx. rewrite E, <- Hu. by apply list_elem_of_fmap_2.
Qed.

Lemma find_uuid_first s f r :
  Forall (λ x, m_is_uuid_persistent x = false) (m_manager_data s) → r ∈ m_manager_data s → f r = true →
  (∀ r', r' ∈ m_manager_data s → f r' = true → r' = r) →
  ∃ i, find_if f (m_manager_data s) = Some (i, r) ∧ get_uuid r = m_temporary_uuid r.
Proof.
  intros Hp Hr Hf Hu. destruct (find_if f (m_manager_data s)) as [[i x]|] eqn:E.
  - apply find_if_Some in E as (Hi & Hx & _). exists i. rewrite (Hu x); [|by eapply list_elem_of_lookup_2|done].
    split; [done|]. rewrite list.Forall_forall in Hp. unfold get_uuid. by rewrite Hp.
  - apply find_if_None in E. rewrite list.Forall_forall in E. by rewrite E in Hf.
Qed.

Lemma table_ok_temporary s : table_ok s → Forall (λ x, m_is_uuid_persistent x = false) (m_manager_data s).
Proof. intros [H _ _ _]. eapply list.Forall_impl; [exact H|]. by intros x [? _]. Qed.

Lemma table_ok_ne s r : table_ok s → r ∈ m_manager_data s → m_temporary_uuid r ≠ "".
Proof. intros [_ _ H _] Hr. rewrite list.Forall_forall in H. by apply H. Qed.

Lemma table_ok_id s r : table_ok s → r ∈ m_manager_data s → (0 ≤ m_id r < 2 ^ 64)%Z.
Proof. intros [_ _ _ H] Hr. rewrite list.Forall_forall in H. by apply H. Qed.

Lemma entry_of s r : table_ok s → r ∈ m_manager_data s →
  get_entry (m_temporary_uuid r) s = Ok r ∧ uuid_to_rest_id (m_temporary_uuid r) s = Ok (m_id r).
Proof.
  intros Hs Hr. destruct (find_if_temporary s _ r Hs Hr eq_refl (table_ok_ne _ _ Hs Hr)) as (i & E1 & E2).
  unfold get_entry, uuid_to_rest_id, find_id_by_uuid, find_entry. by rewrite E1, E2.
Qed.

Lemma shared_id s r : table_ok s → r ∈ m_manager_data s → id_shared r s →
  rest_id_to_uuid (m_id r) "" s = Ok (m_temporary_uuid r).
Proof.
  intros Hs Hr Hu. unfold rest_id_to_uuid, find_uuid_by_id. rewrite decide_True by done.
  destruct (find_uuid_first s (λ x, bool_decide (m_id x = m_id r)) r) as (i & -> & ->);
    [by apply table_ok_temporary|done|by apply bool_decide_eq_true_2| |done].
  intros r' Hr' E%bool_decide_eq_true. by apply Hu.
Qed.

Lemma parent_id s r : table_ok s → r ∈ m_manager_data s → id_of_parent r s → m_parent_uuid r ≠ "" →
  rest_id_to_uuid (m_id r) (m_parent_uuid r) s = Ok (m_temporary_uuid r).
Proof.
  intros Hs Hr Hu Hp. unfold rest_id_to_uuid, find_uuid_by_id_and_parent. rewrite decide_False by done.
  destruct (find_uuid_first s (λ x, bool_decide (m_parent_uuid x = m_parent_uuid r)
    && bool_decide (m_id x = m_id r)) r) as (i & -> & ->);
    [by apply table_ok_temporary|done|by rewrite !bool_decide_eq_true_2| |done].
  intros r' Hr' [E1%bool_decide_eq_true E2%bool_decide_eq_true]%andb_true_iff. by apply Hu.
Qed.

Lemma located_ne db cs u ss ids : located db cs u ss ids → u ≠ "".
Proof. inversion 1; subst; by eapply table_ok_ne. Qed.

(** ** The URL of a located resource *)

Lemma url_top db n path c lits u :
  (c, lits) ∈ tops →
  get_component_url_recursive (S n) db path c u =
  (id ← uuid_to_rest_id u (db c); mret (build_path path (lits ++ [id_text id])%list)).
Proof.
  unfold tops. rewrite !list.elem_of_cons, elem_of_nil. intros H.
  repeat destruct H as [[= -> ->]|H]; [reflexivity..|done].
Qed.

Lemma url_child db n path p c lit u r :
  (p, c, lit) ∈ nested → get_entry u (db c) = Ok r → m_parent_type r = p →
  get_component_url_recursive (S n) db path c u =
  (path' ← get_component_url_recursive n db path p (m_parent_uuid r);
   mret (build_path path' [lit; id_text (m_id r)])).
Proof.
  unfold nested. rewrite !list.elem_of_cons, elem_of_nil. intros H He Hp.
  repeat destruct H as [[= -> -> ->]|H]; [..|done];
    cbn [get_component_url_recursive]; rewrite ?He; unfold build_child_path; rewrite ?He;
    cbn [mbind result_bind]; rewrite ?Hp; reflexivity.
Qed.

Lemma build_path_app base ss ss' : build_path (build_path base ss) ss' = build_path base (ss ++ ss')%list.
Proof. unfold build_path. by rewrite foldl_app. Qed.

Lemma located_url db cs u ss ids c n path :
  located db cs u ss ids → head cs = Some c → (length cs ≤ n)%nat →
  get_component_url_recursive n db path c u = Ok (build_path path ss).
Proof.
  intros H. revert c n. induction H as [c lits u r Hc Hs Hr <- Hi|c p cs lit u r ss ids Hc Hs Hr <- Hp Hi Hl IH];
    intros c' n [= <-] Hn; (destruct n as [|n]; [simpl in Hn; lia|]).
  - rewrite (url_top _ _ _ _ _ _ Hc). by rewrite (proj2 (entry_of _ _ Hs Hr)).
  - rewrite (url_child _ _ _ _ _ _ _ _ Hc (proj1 (entry_of _ _ Hs Hr)) Hp), IH; [|done|simpl in *; lia].
    cbn [mbind result_bind]. by rewrite build_path_app.
Qed.

(** ** The route of a located resource *)

(** The matchers of the segments of a URL of [located]. *)
Inductive templated : list Component.t → list SegmentMatcher → Prop :=
  | templated_top c lits :
      (c, lits) ∈ tops →
      templated [c] ((StaticMatcher <$> lits) ++ [RegexMatcher (RESOURCE_ID c) Routes.ID_REGEX])
  | templated_child p c cs lit ts :
      (p, c, lit) ∈ nested → templated (p :: cs) ts →
      templated (c :: p :: cs) (ts ++ [StaticMatcher lit; RegexMatcher (RESOURCE_ID c) Routes.ID_REGEX]).

(** The ancestors under which the service has an endpoint, and its route. *)
Definition linked : list (list Component.t * string) :=
  let ES := Component.EthernetSwitch in
  [([Component.Chassis], Routes.CHASSIS_PATH);
   ([Component.Manager], Routes.MANAGER_PATH);
   ([Component.Task], Routes.TASK_PATH);
   ([Component.System], Routes.SYSTEM_PATH);
   ([Component.StorageService], Routes.STORAGE_SERVICE_PATH);
   ([ES], Routes.ETHERNET_SWITCH_PATH);
   ([Component.Fabric], Routes.FABRIC_PATH);
   ([Component.MetricDefinition], Routes.METRIC_DEFINITION_PATH);
   ([Component.StorageSubsystem; Component.System], Routes.STORAGE_SUBSYSTEM_PATH);
   ([Component.Drive; Component.Chassis], Routes.DRIVE_PATH);
   ([Component.Memory; Component.System], Routes.MEMORY_PATH);
   ([Component.Processor; Component.System], Routes.PROCESSOR_PATH);
   ([Component.NetworkInterface; Component.Manager], Routes.MANAGER_NETWORK_INTERFACE_PATH);
   ([Component.NetworkInterface; Component.System], Routes.SYSTEM_ETHERNET_INTERFACE_PATH);
   ([Component.EthernetSwitchPortVlan; Component.NetworkInterface; Component.Manager],
    Routes.MANAGER_VLAN_NETWORK_INTERFACE_PATH);
   ([Component.EthernetSwitchPort; ES], Routes.ETHERNET_SWITCH_PORT_PATH);
   ([Component.EthernetSwitchPortVlan; Component.EthernetSwitchPort; ES], Routes.VLAN_NETWORK_INTERFACE_PATH);
   ([Component.StaticMac; Component.EthernetSwitchPort; ES], Routes.STATIC_MAC_PATH);
   ([Component.Acl; ES], Routes.ACL_PATH);
   ([Component.AclRule; Component.Acl; ES], Routes.RULE_PATH);
   ([Component.Zone; Component.Fabric], Routes.ZONE_PATH);
   ([Component.Switch; Component.Fabric], Routes.SWITCH_PATH);
   ([Component.Port; Component.Switch; Component.Fabric], Routes.PORT_PATH);
   ([Component.Endpoint; Component.Fabric], Routes.ENDPOINT_PATH);
   ([Component.Volume; Component.StorageService], Routes.VOLUME_PATH);
   ([Component.StoragePool; Component.StorageService], Routes.STORAGE_POOL_PATH);
   ([Component.LogService; Component.Manager], Routes.MANAGER_LOG_SERVICE_PATH);
   ([Component.LogEntry; Component.LogService; Component.Manager], Routes.MANAGER_LOG_ENTRY_PATH)].

(** The matchers of a chain, computed. *)
Fixpoint literal_of (p c : Component.t) (l : list (Component.t * Component.t * string)) : option string :=
  match l with
  | [] => None
  | (p', c', lit) :: l' => if decide (p = p' ∧ c = c') then Some lit else literal_of p c l'
  end.

Fixpoint template (cs : list Component.t) : option (list SegmentMatcher) :=
  match cs with
  | [] => None
  | c :: cs' =>
      let id := RegexMatcher (RESOURCE_ID c) Routes.ID_REGEX in
      match cs' with
      | [] => x ← snd <$> list_find (λ x : Component.t * list string, x.1 = c) tops;
              Some ((StaticMatcher <$> x.2) ++ [id])%list
      | p :: _ => lit ← literal_of p c nested; ts ← template cs'; Some (ts ++ [StaticMatcher lit; id])%list
      end
  end.

Lemma tops_unique c lits y :
  (c, lits) ∈ tops → snd <$> list_find (λ y : Component.t * list string, y.1 = c) tops = Some y →
  y.2 = lits.
Proof.
  intros H. rewrite fmap_Some. intros ([i z] & (Hi & Hz & _)%list_find_Some & ->). simpl.
  apply list_elem_of_lookup_2 in Hi. revert H Hi. destruct z as [c' lits']. simpl in Hz. subst c'.
  unfold tops. rewrite !list.elem_of_cons, !elem_of_nil. intros H Hi.
  repeat destruct H as [[= -> ->]|H]; [..|done]; by repeat destruct Hi as [[= ->]|Hi].
Qed.

Lemma nested_unique p c lit lit' : (p, c, lit) ∈ nested → literal_of p c nested = Some lit' → lit' = lit.
Proof.
  unfold nested. rewrite !list.elem_of_cons, !elem_of_nil. intros H.
  repeat destruct H as [[= -> -> ->]|H]; [..|done]; vm_compute; congruence.
Qed.

Lemma template_templated cs ts ts' : templated cs ts → template cs = Some ts' → ts' = ts.
Proof.
  intros H. revert ts'. induction H as [c lits Hc|p c cs lit ts Hc Ht IH]; intros ts'.
  - cbn [template]. destruct (snd <$> _) as [x|] eqn:E; [|done]. cbn [mbind option_bind]. rewrite (tops_unique _ _ _ Hc E).
    by intros [= <-].
  - change (template (c :: p :: cs)) with
      (lit ← literal_of p c nested; ts ← template (p :: cs);
       Some (ts ++ [StaticMatcher lit; RegexMatcher (RESOURCE_ID c) Routes.ID_REGEX])%list).
    destruct (literal_of p c nested) as [lit'|] eqn:E; [|done]. apply (nested_unique _ _ _ _ Hc) in E as ->.
    cbn [mbind option_bind]. destruct (template (p :: cs)) as [ts1|]; [|done].
    intros [= <-]. by rewrite (IH ts1 eq_refl).
Qed.

Definition root_segments : list string := ["redfish"; "v1"].

(** Every route of [linked] is registered, in every build, and has the matchers
    of its chain. *)
Lemma linked_routes debug :
  Forall (λ x : list Component.t * string,
    (x.2, SSL_REQUIRED, false) ∈ Routes.routes debug ∧
    ((λ ts, (StaticMatcher <$> root_segments) ++ ts)%list <$> template x.1) = Some (path_to_segments x.2)) linked.
Proof. apply (bool_decide_eq_true_1 _). destruct debug; vm_compute; reflexivity. Qed.

Lemma linked_templated debug cs path ts :
  (cs, path) ∈ linked → templated cs ts →
  (path, SSL_REQUIRED, false) ∈ Routes.routes debug ∧
  path_to_segments path = ((StaticMatcher <$> root_segments) ++ ts)%list.
Proof.
  intros Hl Ht. pose proof (linked_routes debug) as H. rewrite list.Forall_forall in H.
  destruct (H _ Hl) as [H1 H2]. split; [done|]. cbn [fst snd] in H2.
  destruct (template cs) as [ts'|] eqn:E; [|done]. rewrite (template_templated _ _ _ Ht E) in H2.
  by injection H2.
Qed.

(** Chains for which [get_component_url] builds a URL and the service has no
    endpoint. *)
Definition unserved : list (list Component.t) :=
  [[Component.NetworkDevice; Component.System];
   [Component.NetworkDeviceFunction; Component.NetworkDevice; Component.System];
   [Component.EthernetSwitchPortVlan; Component.NetworkInterface; Component.System]].

Lemma unserved_clash debug :
  Forall (λ cs, ∃ ts, template cs = Some ts ∧
    Forall (λ rt : Routes.route,
      Routes.clash ((StaticMatcher <$> root_segments) ++ ts) (path_to_segments rt.1.1) = true)
      (Routes.routes debug)) unserved.
Proof.
  unfold unserved. repeat apply Forall_cons_2; [..|apply Forall_nil_2];
    (eexists; split; [vm_compute; reflexivity|]); apply (bool_decide_eq_true_1 _);
    destruct debug; vm_compute; reflexivity.
Qed.

(** ** Identifiers in URLs *)

Lemma digit_char_between d : (0 ≤ d < 10)%Z → Routes.between "0" "9" (Database.digit_char d) = true.
Proof.
  intros Hd. unfold Routes.between, Database.digit_char. rewrite N_ascii_embedding by lia.
  apply andb_true_iff. split; apply N.leb_le; cbn; lia.
Qed.

Lemma to_string_digits id : (0 ≤ id < 2 ^ 64)%Z →
  Forall (λ c, Routes.between "0" "9" c = true) (Database.to_string id).
Proof.
  intros Hid. unfold Database.to_string.
  destruct (Database.digits_spec 20 id []) as (ds & -> & Hds & _); [simpl; lia|lia|].
  rewrite app_nil_r. apply list.Forall_fmap. eapply list.Forall_impl; [exact Hds|].
  intros d Hd. by apply digit_char_between.
Qed.

Lemma id_text_chars id : String.list_ascii_of_string (id_text id) = Database.to_string id.
Proof. apply String.list_ascii_of_string_of_list_ascii. Qed.

Lemma id_text_segment id : (0 ≤ id < 2 ^ 64)%Z → segment_ok (id_text id) ∧ Routes.is_digits (id_text id) = true.
Proof.
  intros Hid. pose proof (to_string_digits id Hid) as Hd. pose proof (Database.to_string_ne id Hid) as Hne.
  assert (id_text id ≠ "") as Ht.
  { intros E. apply Hne. by rewrite <- id_text_chars, E. }
  split; [split; [done|]|].
  - unfold no_slash. rewrite id_text_chars. eapply list.Forall_impl; [exact Hd|]. intros c Hc ->. done.
  - unfold Routes.is_digits, Routes.all_chars. rewrite id_text_chars. apply andb_true_iff. split.
    + by apply negb_true_iff, String.eqb_neq.
    + apply forallb_forall. intros c Hc%list_elem_of_In. rewrite list.Forall_forall in Hd. by apply Hd.
Qed.

Lemma id_roundtrip id : (0 ≤ id < 2 ^ 64)%Z → id_to_uint64 (id_text id) = Ok id.
Proof.
  intros Hid. unfold id_to_uint64. rewrite id_text_chars.
  assert (forallb is_digit (Database.to_string id) = true) as ->.
  { apply forallb_forall. intros c Hc%list_elem_of_In. pose proof (to_string_digits id Hid) as Hd.
    rewrite list.Forall_forall in Hd. by apply Hd. }
  cbn [negb]. by rewrite Database.stoul_to_string.
Qed.

Lemma tops_segments : Forall (λ y : Component.t * list string, Forall segment_ok y.2) tops.
Proof. apply (bool_decide_eq_true_1 _). vm_compute. reflexivity. Qed.

Lemma nested_segments : Forall (λ y : Component.t * Component.t * string, segment_ok y.2) nested.
Proof. apply (bool_decide_eq_true_1 _). vm_compute. reflexivity. Qed.

Lemma linked_ids : Forall (λ y : list Component.t * string, Forall (λ c, RESOURCE_ID c ≠ "") y.1) linked.
Proof. apply (bool_decide_eq_true_1 _). vm_compute. reflexivity. Qed.

(** ** Finding a located resource *)

Lemma located_find db cs u ss ids params tn :
  located db cs u ss ids →
  Forall2 (λ c id, params_get (RESOURCE_ID c) params = id_text id) cs ids → tn ≠ [] →
  find_impl_method (rev cs ++ tn)%list "" params db = find_impl_method tn u params db.
Proof.
  intros H. revert tn. induction H as [c lits u r Hc Hs Hr <- Hi|c p cs lit u r ss ids Hc Hs Hr <- Hp Hi Hl IH];
    intros tn Hps Hne; destruct tn as [|t tn]; try done;
    apply Forall2_cons_1 in Hps as [Hid Hps];
    (assert (id_to_uint64 (params_get (RESOURCE_ID c) params) = Ok (m_id r)) as Hn
      by (rewrite Hid; apply id_roundtrip; by eapply table_ok_id)).
  - cbn [rev app find_impl_method]. rewrite Hn. cbn [mbind result_bind]. by rewrite shared_id.
  - change (rev (c :: p :: cs)) with (rev (p :: cs) ++ [c])%list. rewrite <- app_assoc. cbn [app].
    rewrite IH by done. cbn [find_impl_method]. rewrite Hn. cbn [mbind result_bind].
    rewrite parent_id; [done|done|done|done|by eapply located_ne].
Qed.

Lemma located_found db c cs u ss ids params :
  located db (c :: cs) u ss ids →
  Forall2 (λ c id, params_get (RESOURCE_ID c) params = id_text id) (c :: cs) ids →
  ∃ f, find (rev (c :: cs)) params db = Ok f ∧ f_model f = c ∧ find_get_uuid f db = Ok u.
Proof.
  intros H Hps. unfold find. cbn [rev].
  inversion H as [c' lits u' r Hc Hs Hr Hu Hi|c' p cs' lit u' r ss' ids' Hc Hs Hr Hu Hp Hi Hl]; subst;
    apply Forall2_cons_1 in Hps as [Hid Hps];
    (assert (id_to_uint64 (params_get (RESOURCE_ID c) params) = Ok (m_id r)) as Hn
      by (rewrite Hid; apply id_roundtrip; by eapply table_ok_id)).
  - cbn [rev app find_impl_method]. rewrite Hn. cbn [mbind result_bind]. eexists. split_and!; [done|done|].
    unfold find_get_uuid. cbn [f_id f_parent_uuid f_model]. by rewrite shared_id.
  - rewrite (located_find _ _ _ _ _ params [c] Hl) by done. cbn [find_impl_method]. rewrite Hn.
    cbn [mbind result_bind]. eexists. split_and!; [done|done|].
    unfold find_get_uuid. cbn [f_id f_parent_uuid f_model].
    rewrite parent_id; [done|done|done|done|by eapply located_ne].
Qed.

Section service.
Context (regex_match : string → string → bool) `{!Routes.RegexLaws regex_match}.
Context {E : Type} (handler_for : string → @MethodsHandler E).
Hypothesis handler_path : ∀ p, h_path (handler_for p) = p.

Abbreviation matches := (λ m sg, check_match regex_match m sg = true).

Lemma matches_static lits : Forall2 matches (StaticMatcher <$> lits) lits.
Proof using Type.
  induction lits as [|l lits IH]; [constructor|]. cbn [fmap list_fmap]. constructor; [|done].
  by apply bool_decide_eq_true_2.
Qed.

Lemma matches_id c id : (0 ≤ id < 2 ^ 64)%Z →
  matches (RegexMatcher (RESOURCE_ID c) Routes.ID_REGEX) (id_text id).
Proof using Type*.
  intros Hid. cbn [check_match]. rewrite (Routes.id_regex (regex_match := regex_match)).
  by apply id_text_segment.
Qed.

Definition at_place (ts : list SegmentMatcher) (ss : list string) (c : Component.t) (id : Z) : Prop :=
  ∃ i, ts !! i = Some (RegexMatcher (RESOURCE_ID c) Routes.ID_REGEX) ∧ ss !! i = Some (id_text id).

Lemma at_place_app ts ts' ss ss' c id : at_place ts ss c id → at_place (ts ++ ts') (ss ++ ss') c id.
Proof using Type.
  intros (i & H1 & H2). exists i. by rewrite !lookup_app_l by (by eapply lookup_lt_Some).
Qed.

Lemma at_place_end ts ss lit c id :
  length ts = length ss →
  at_place (ts ++ [StaticMatcher lit; RegexMatcher (RESOURCE_ID c) Routes.ID_REGEX])
    (ss ++ [lit; id_text id]) c id.
Proof using Type.
  intros Hlen. exists (S (length ts)). rewrite !lookup_app_r by lia.
  rewrite Hlen, Nat.sub_succ_l, Nat.sub_diag by lia. done.
Qed.

Lemma located_matched db cs u ss ids :
  located db cs u ss ids →
  ∃ ts, templated cs ts ∧ Forall2 matches ts ss ∧ Forall segment_ok ss ∧ Forall2 (at_place ts ss) cs ids.
Proof using Type*.
  induction 1 as [c lits u r Hc Hs Hr Hu Hi|c p cs lit u r ss ids Hc Hs Hr Hu Hp Hi Hl (ts & Ht & Hm & Hok & Hat)];
    pose proof (table_ok_id _ _ Hs Hr) as Hid.
  - eexists. split_and!.
    + by eapply templated_top.
    + apply Forall2_app; [apply matches_static|]. constructor; [by apply matches_id|constructor].
    + apply Forall_app. split; [|apply Forall_cons_2; [by apply id_text_segment|apply Forall_nil_2]].
      pose proof tops_segments as Ho. rewrite list.Forall_forall in Ho. by apply (Ho (c, lits)).
    + constructor; [|constructor]. exists (length lits).
      rewrite !lookup_app_r by (rewrite ?length_fmap; lia). by rewrite length_fmap, Nat.sub_diag.
  - eexists. split_and!.
    + by eapply templated_child.
    + apply Forall2_app; [done|]. constructor; [by apply bool_decide_eq_true_2|].
      constructor; [by apply matches_id|constructor].
    + apply Forall_app. split; [done|]. apply Forall_cons_2; [|apply Forall_cons_2; [by apply id_text_segment|apply Forall_nil_2]].
      pose proof nested_segments as Ho. rewrite list.Forall_forall in Ho. by apply (Ho (p, c, lit)).
    + constructor; [apply at_place_end; by eapply Forall2_length|].
      eapply list.Forall2_impl; [exact Hat|]. intros c' id'. apply at_place_app.
Qed.


(** Links that lead nowhere.  For a network device, a network device
    function or a VLAN of a system's interface get_component_url builds a URL, which is then the
    origin of events and the link of responses, and the multiplexer answers 404
    for it: no endpoint is registered there. *)
Theorem network_device_link_is_dead debug db c cs u ss ids :
  c :: cs ∈ unserved → located db (c :: cs) u ss ids →
  ∃ url, get_component_url c u db = Ok url ∧
    select_handler regex_match (split_path url) (Routes.service handler_for debug) =
      Throw (server_exception 404).
Proof using Type*.
  intros Hin Hl. destruct (located_matched _ _ _ _ _ Hl) as (ts & Ht & Hm & Hok & _).
  pose proof (unserved_clash debug) as Hc. rewrite list.Forall_forall in Hc.
  destruct (Hc _ Hin) as (ts' & Ets & Hclash). rewrite (template_templated _ _ _ Ht Ets) in Hclash.
  set (all := (root_segments ++ ss)%list).
  assert (Forall segment_ok all) as Hall.
  { apply Forall_app. split; [|done]. apply (bool_decide_eq_true_1 _). vm_compute. reflexivity. }
  assert (length (c :: cs) ≤ url_fuel)%nat as Hlen.
  { assert (Forall (λ y : list Component.t, length y ≤ url_fuel)%nat unserved) as Hf
      by (apply (bool_decide_eq_true_1 _); vm_compute; reflexivity).
    rewrite list.Forall_forall in Hf. by apply (Hf (c :: cs)). }
  pose proof (located_url _ _ _ _ _ c url_fuel Routes.ROOT_PATH Hl eq_refl Hlen) as Hurl.
  change Routes.ROOT_PATH with (build_path "" root_segments) in Hurl. rewrite build_path_app in Hurl. fold all in Hurl.
  exists (build_path "" all). split; [done|]. unfold select_handler. rewrite split_build_path by done.
  destruct (find_candidate _ _) as [cand|] eqn:Ef; [|done]. exfalso.
  apply find_candidate_Some in Ef as [Hcand Hseg%segments_match_Forall2].
  rewrite (Routes.service_candidates handler_for handler_path) in Hcand.
  apply list_elem_of_fmap in Hcand as (rt & -> & Hrt). rewrite list.Forall_forall in Hclash.
  eapply (Routes.clash_sound regex_match); [by apply (Hclash rt)| |exact Hseg].
  apply Forall2_app; [apply matches_static|done].
Qed.

End service.
End url.

(** ** A system with a processor and a network device *)

#[local] Instance sample_metric : MetricFields Z :=
  {| get_component_type := λ _, Component.System; get_component_uuid := λ _, ""; get_metric_name := λ _, "" |}.

Definition resource (p : Component.t) (parent u : uuid) (id : Z) : @Resource Z :=
  mkResource [] p u "" parent None false id "agent" 1 None 0%Z.

Definition sample_db : @Tables Z := λ c,
  match c with
  | Component.System => mkManager [resource Component.Manager "m" "s1" 1; resource Component.Manager "m" "s2" 2] 2
  | Component.Processor => mkManager [resource Component.System "s1" "p1" 1; resource Component.System "s2" "p2" 1] 2
  | Component.NetworkDevice => mkManager [resource Component.System "s2" "n1" 1] 1
  | _ => mkManager [] 1
  end.

Lemma sample_system : @located Z sample_db [Component.System] "s2" ["Systems"; "2"] [2%Z].
Proof.
  apply (located_top sample_db Component.System ["Systems"] "s2" (resource Component.Manager "m" "s2" 2)).
  - apply (bool_decide_eq_true_1 _). vm_compute. reflexivity.
  - split; apply (bool_decide_eq_true_1 _); vm_compute; reflexivity.
  - apply list_elem_of_further, list_elem_of_here.
  - done.
  - intros r Hr. repeat (apply list.elem_of_cons in Hr as [->|Hr]; [done|]). by apply elem_of_nil in Hr.
Qed.


Lemma network_device_link_is_dead_witness :
  select_handler Routes.sample_regex (split_path "/redfish/v1/Systems/2/NetworkInterfaces/1")
    (Routes.service Routes.sample_handler false) = Throw (server_exception 404).
Proof.
  pose proof Routes.sample_laws as Hlaws.
  destruct (network_device_link_is_dead Routes.sample_regex Routes.sample_handler (λ p, eq_refl) false sample_db
    Component.NetworkDevice [Component.System] "n1" ["Systems"; "2"; "NetworkInterfaces"; "1"] [1%Z; 2%Z])
    as (url & H1 & H2).
  - apply (bool_decide_eq_true_1 _). vm_compute. reflexivity.
  - apply (located_child sample_db Component.NetworkDevice Component.System [] "NetworkInterfaces" "n1"
      (resource Component.System "s2" "n1" 1) ["Systems"; "2"]); [| | |done|done| |apply sample_system].
    + apply (bool_decide_eq_true_1 _). vm_compute. reflexivity.
    + split; apply (bool_decide_eq_true_1 _); vm_compute; reflexivity.
    + apply list_elem_of_here.
    + intros r Hr. repeat (apply list.elem_of_cons in Hr as [->|Hr]; [done|]). by apply elem_of_nil in Hr.
  - vm_compute in H1. injection H1 as <-. exact H2.
Defined.

End ComponentUrl.
