(* ===== verification/Handlers.v ===== *)
(** The resource model of the REST service
    (application/include/psme/rest/model/handlers): [GenericHandler], the
    handlers derived from it, [RootHandler] and [HandlerManager], together with
    the agent they talk to ([core::agent::JsonAgent], [RpcClient]).

    A handler is named by its key in [HandlerManager::m_component_handlers]; the
    root handler of the watcher is [Component.Root].  The state is one [World]:
    the resource tables, the sub-components every handler has learned, the
    relations, the identifiers of the id policies, the environment of the agent
    (its answers and the clock), the connection state and what was sent to the
    subscribers; the [Context] that the methods pass by reference is a field of
    it.  The agent's answers are a variable, as are the id policies, whose model
    is [IdPolicy].

    [do_remove] and [add] recurse through the tables and through what the agent
    reports; the fuel of the first is the variable [max_depth], the second takes
    a fuel.  A [catch (...)] of the source does not catch [out_of_fuel].  Log
    output and the indentation for it are left out, asserts are too. *)

From Stdlib Require Import ZArith Lia Ascii.
From S2P Require Import Prelude.
From S2P Require Import OrdSet.
From S2P Require Import Enums.
From S2P Require Import ManyToMany.
From S2P Require Import GenericManager.
From S2P Require Import Mux.
From S2P Require Import ComponentUrl.
From S2P Require Import Eventing.

Module Handlers.
Import GenericManager.
Import ComponentUrl.

Open Scope string_scope.

(** A total map with one entry replaced. *)
Definition update_at {A B} `{EqDecision A} (a : A) (b : B) (f : A → B) : A → B :=
  λ x, if decide (x = a) then b else f x.

(** ** HandlerManager *)

(** The keys of [m_component_handlers]. *)
Definition component_handlers : list Component.t :=
  [Component.Manager; Component.Chassis; Component.System; Component.Processor; Component.Memory;
   Component.NetworkInterface; Component.StorageController; Component.StorageSubsystem;
   Component.NetworkDevice; Component.NetworkDeviceFunction; Component.TrustedModule; Component.Drive;
   Component.EthernetSwitch; Component.EthernetSwitchPort; Component.EthernetSwitchPortVlan;
   Component.Vlan; Component.Acl; Component.AclRule; Component.StaticMac;
   Component.RemoteEthernetSwitch; Component.NeighborSwitch; Component.StorageService;
   Component.StoragePool; Component.Volume; Component.Switch; Component.Zone; Component.Port;
   Component.Endpoint; Component.Fabric; Component.PcieDevice; Component.PcieFunction; Component.Task;
   Component.MetricDefinition; Component.Metric; Component.PowerZone; Component.ThermalZone;
   Component.PSU; Component.Fan; Component.LogService; Component.LogEntry].

(** [m_collection_handlers] *)
Definition collection_handler (t : CollectionType.t) : option Component.t :=
  match t with
  | CollectionType.Systems => Some Component.System
  | CollectionType.Processors => Some Component.Processor
  | CollectionType.Memory => Some Component.Memory
  | CollectionType.NetworkInterfaces => Some Component.NetworkInterface
  | CollectionType.EthernetSwitchPortVlans => Some Component.EthernetSwitchPortVlan
  | CollectionType.StorageControllers => Some Component.StorageController
  | CollectionType.StorageSubsystems => Some Component.StorageSubsystem
  | CollectionType.NetworkDevices => Some Component.NetworkDevice
  | CollectionType.NetworkDeviceFunctions => Some Component.NetworkDeviceFunction
  | CollectionType.TrustedModules => Some Component.TrustedModule
  | CollectionType.Drives => Some Component.Drive
  | CollectionType.EthernetSwitches => Some Component.EthernetSwitch
  | CollectionType.NeighborSwitches => Some Component.NeighborSwitch
  | CollectionType.EthernetSwitchPorts => Some Component.EthernetSwitchPort
  | CollectionType.PortMembers => Some Component.EthernetSwitchPort
  | CollectionType.Vlans => Some Component.Vlan
  | CollectionType.Acls => Some Component.Acl
  | CollectionType.Rules => Some Component.AclRule
  | CollectionType.StaticMacs => Some Component.StaticMac
  | CollectionType.StorageServices => Some Component.StorageService
  | CollectionType.StoragePools => Some Component.StoragePool
  | CollectionType.Volumes => Some Component.Volume
  | CollectionType.Managers => Some Component.Manager
  | CollectionType.Fabrics => Some Component.Fabric
  | CollectionType.Chassis => Some Component.Chassis
  | CollectionType.Switches => Some Component.Switch
  | CollectionType.Zones => Some Component.Zone
  | CollectionType.Ports => Some Component.Port
  | CollectionType.Endpoints => Some Component.Endpoint
  | CollectionType.PCIeDevices => Some Component.PcieDevice
  | CollectionType.PCIeFunctions => Some Component.PcieFunction
  | CollectionType.Tasks => Some Component.Task
  | CollectionType.MetricDefinitions => Some Component.MetricDefinition
  | CollectionType.Metrics => Some Component.Metric
  | CollectionType.PowerZones => Some Component.PowerZone
  | CollectionType.ThermalZones => Some Component.ThermalZone
  | CollectionType.PSUs => Some Component.PSU
  | CollectionType.Fans => Some Component.Fan
  | CollectionType.LogServices => Some Component.LogService
  | CollectionType.LogEntries => Some Component.LogEntry
  | _ => None
  end.

Definition get_handler (component : Component.t) : result Component.t :=
  if decide (component ∈ component_handlers) then Ok component else Throw invalid_value.

Definition get_handler_of (collection_type : CollectionType.t) : result Component.t :=
  match collection_handler collection_type with Some h => Ok h | None => Throw invalid_value end.

(** Collections without a handler are skipped. *)
Definition get_handlers (collections : list Collection) : list (string * Component.t) :=
  omap (λ c, (collection_name c,.) <$> collection_handler (collection_type c)) collections.

(** [Model::get_component()]: the model class of a handler. *)
Definition model_of (h : Component.t) : Component.t :=
  match h with Component.NeighborSwitch => Component.RemoteEthernetSwitch | _ => h end.

Definition get_component (h : Component.t) : Component.t :=
  match h with Component.Root => Component.None_ | _ => model_of h end.

(** ** Relations *)

Inductive Relation :=
  | AclPort | PortMembers | StorageSubsystemDrives | StorageServiceDrives | DriveFunction
  | ProcessorFunction | EndpointPort | ZoneEndpoint | SystemStorageServices | StoragePoolVolumes.

#[global] Instance Relation_eq_dec : EqDecision Relation.
Proof. solve_decision. Defined.

(** What the overrides of [fetch_siblings] do for a parent of a given kind. *)
Inductive Siblings := Strong | Weak (rel : Relation) | Reverse | Ignored.

Definition sibling_kind (h parent : Component.t) : Siblings :=
  match h with
  | Component.Acl =>
      if decide (parent = Component.EthernetSwitch) then Strong
      else if decide (parent = Component.EthernetSwitchPort) then Reverse else Ignored
  | Component.Drive =>
      if decide (parent = Component.Chassis) then Strong
      else if decide (parent = Component.StorageSubsystem) then Weak StorageSubsystemDrives
      else if decide (parent = Component.StorageService) then Weak StorageServiceDrives else Ignored
  | Component.Endpoint =>
      if decide (parent = Component.Fabric) then Strong
      else if decide (parent = Component.Zone) then Weak ZoneEndpoint else Ignored
  | Component.EthernetSwitchPort =>
      if decide (parent = Component.EthernetSwitch) then Strong
      else if decide (parent = Component.EthernetSwitchPort) then Weak PortMembers
      else if decide (parent = Component.Acl) then Weak AclPort else Ignored
  | Component.PcieFunction =>
      if decide (parent = Component.PcieDevice) then Strong
      else if decide (parent = Component.Drive) then Weak DriveFunction
      else if decide (parent = Component.Processor) then Weak ProcessorFunction else Ignored
  | Component.Port =>
      if decide (parent = Component.Switch) then Strong
      else if decide (parent = Component.Endpoint) then Weak EndpointPort else Ignored
  | Component.StorageService =>
      if decide (parent = Component.Manager) then Strong
      else if decide (parent = Component.System) then Weak SystemStorageServices else Ignored
  | Component.Volume =>
      if decide (parent = Component.StorageService) then Strong
      else if decide (parent = Component.StoragePool) then Weak StoragePoolVolumes else Ignored
  | _ => Strong
  end.

(** The clean-up that an override of [do_remove] does before the base class's,
    as a change of every relation; [parent] is the component on top of the
    stack. *)
Definition unbind (h parent : Component.t) (u : uuid) (rel : Relation) (d : ManyToMany.t) : ManyToMany.t :=
  match h, rel with
  | Component.Acl, AclPort => ManyToMany.remove_parent u d
  | Component.Drive, StorageSubsystemDrives | Component.Drive, StorageServiceDrives =>
      ManyToMany.remove_child u d
  | Component.Drive, DriveFunction => ManyToMany.remove_parent u d
  | Component.Endpoint, EndpointPort => ManyToMany.remove_parent u d
  | Component.Endpoint, ZoneEndpoint => ManyToMany.remove_child u d
  | Component.EthernetSwitchPort, PortMembers =>
      ManyToMany.remove_if (λ p c _, bool_decide (p = u) || bool_decide (c = u)) d
  | Component.EthernetSwitchPort, AclPort => ManyToMany.remove_child u d
  | Component.PcieFunction, DriveFunction =>
      if decide (parent = Component.Drive) then ManyToMany.remove_child u d else d
  | Component.PcieFunction, ProcessorFunction =>
      if decide (parent = Component.Processor) then ManyToMany.remove_child u d else d
  | Component.Port, EndpointPort => ManyToMany.remove_child u d
  | Component.StorageService, SystemStorageServices => ManyToMany.remove_child u d
  | Component.StorageSubsystem, StorageSubsystemDrives => ManyToMany.remove_parent u d
  | Component.Volume, StoragePoolVolumes => ManyToMany.remove_child u d
  | Component.Zone, ZoneEndpoint => ManyToMany.remove_parent u d
  | _, _ => d
  end.

(** The relations that an override of [remove_agent_data] cleans. *)
Definition cleans (h parent : Component.t) (rel : Relation) : bool :=
  match h, rel with
  | Component.Acl, AclPort => true
  | Component.Drive, StorageSubsystemDrives | Component.Drive, StorageServiceDrives
  | Component.Drive, DriveFunction => true
  | Component.Endpoint, EndpointPort | Component.Endpoint, ZoneEndpoint => true
  | Component.EthernetSwitchPort, AclPort | Component.EthernetSwitchPort, PortMembers => true
  | Component.PcieFunction, DriveFunction => bool_decide (parent = Component.Drive)
  | Component.PcieFunction, ProcessorFunction => bool_decide (parent = Component.Processor)
  | Component.Port, EndpointPort => true
  | Component.StorageService, SystemStorageServices => true
  | Component.StorageSubsystem, StorageSubsystemDrives => true
  | Component.Volume, StoragePoolVolumes => true
  | Component.Zone, ZoneEndpoint => true
  | _, _ => false
  end.

(** Whether the override cleans the relations before it calls the base class. *)
Definition cleans_first (h : Component.t) : bool :=
  match h with
  | Component.Acl | Component.StorageSubsystem | Component.Zone => false
  | _ => true
  end.

(** ** Context *)

Module Mode.

Inductive t := EVENT | POLLING | LOADING | USER_ACTION | AGENT_DISAPPEARED.

#[global] Instance t_eq_dec : EqDecision t.
Proof. solve_decision. Defined.

End Mode.

(** [eventing::Event]: its type and the URL of its origin. *)
Record Event := mkEvent { e_type : Eventing.EventType; e_origin : string }.

Record Context := mkContext {
  mode : Mode.t;
  stack : list Component.t;
  events : list Event;
  num_added : Z;
  num_removed : Z;
  num_updated : Z;
  num_status_changed : Z;
  num_alerts : Z;
}.

(** A context as an entry point of the handlers creates it. *)
Definition context0 (m : Mode.t) (st : list Component.t) : Context := mkContext m st [] 0 0 0 0 0.

Definition get_parent_component (ctx : Context) : Component.t :=
  match stack ctx with c :: _ => c | [] => Component.None_ end.

Definition set_stack (st : list Component.t) (c : Context) : Context :=
  mkContext (mode c) st (events c) (num_added c) (num_removed c) (num_updated c) (num_status_changed c) (num_alerts c).
Definition push_event (e : Event) (c : Context) : Context :=
  mkContext (mode c) (stack c) (events c ++ [e])%list (num_added c) (num_removed c) (num_updated c)
    (num_status_changed c) (num_alerts c).
Definition count (dadd drem dupd dst dal : Z) (c : Context) : Context :=
  mkContext (mode c) (stack c) (events c) (wrap 32 (num_added c + dadd)) (wrap 32 (num_removed c + drem))
    (wrap 32 (num_updated c + dupd)) (wrap 32 (num_status_changed c + dst)) (wrap 32 (num_alerts c + dal)).

(** [url.find_first_of('#')] *)
Fixpoint find_hash (url : string) : option nat :=
  match url with
  | EmptyString => None
  | String c url' => if decide (c = "#"%char) then Some 0 else S <$> find_hash url'
  end.

(** ** The agent *)

(** The requests of the handlers. *)
Inductive Request :=
  | GetInfo (model : Component.t) (u : uuid)
  | GetCollection (parent : uuid) (name : string)
  | GetManagersCollection
  | GetTasksCollection
  | GetMetricDefinitionsCollection
  | GetMetrics (metric : option uuid)
  | GetTaskResultInfo (u : uuid).

(** json_rpc::common and exceptions::ErrorCode *)
Definition ERROR_CLIENT_CONNECTOR : Z := -32003.
Definition REMOVE_AGENT_AFTER_SECONDS : Z := 60.

Definition is_communication_error (error_code : Z) : bool :=
  bool_decide (error_code ∈ [(-32602)%Z; 15000%Z; 15200%Z; 15400%Z; 15500%Z]).

(** The HTTP status of [ErrorFactory::create_error_from_gami_exception]. *)
Definition gami_status (code : Z) : Z :=
  if decide (code ∈ [15100%Z; 15000%Z; 14100%Z; 14000%Z; 14300%Z; 14400%Z; 15500%Z; 15400%Z; 15300%Z; 15200%Z]) then 400
  else if decide (code ∈ [11000%Z; (-32601)%Z]) then 501
  else if decide (code = 12000%Z) then 405
  else if decide (code = 13000%Z) then 409
  else if decide (code = 10000%Z) then 404
  else 500.

(** What [catch (const json_rpc::JsonRpcException&)] catches: the GAMI exceptions
    are derived from it. *)
Definition is_json_rpc (e : exn) : bool :=
  match e with
  | json_rpc_exception _ | invalid_uuid | not_found | invalid_value | unknown_error _ => true
  | _ => false
  end.

(** [catch (...)] *)
Definition catch_all {S A} (m : M S A) (h : exn → M S A) : M S A :=
  try_catch m (λ e, if decide (e = out_of_fuel) then throw e else h e).

(** The accessors of [model::Status] and [model::Task] that the handlers use. *)
Class ModelFields (J : Type) := {
  get_health : J → option Health.t;
  copy_messages (old new : J) : J;
  is_exception : J → bool;
  messages_of_error (e : exn) (j : J) : J;
}.

(** What the handlers are given.  [call] sends a request to the agent and takes
    its answer, of the type [Raw] of JSON values, or throws JsonRpcException with
    the code of the error; [clock] is the time; [policy_get_id] and
    [policy_purge] are the id policies; [max_depth] is the depth of the recursion
    of [do_remove]; [handlers_order] is the order in which [get_handlers()] visits
    the unordered map, [tables_order] the one in which the tables were
    registered. *)
Class Service (J Env Raw Ids : Type) := {
  compute_hash : J → string;
  call : Request → M Env Raw;
  clock : Env → Z;
  entry_from_json : Raw → result (@Resource J);
  uuids_from_json : Raw → result (list uuid);
  metrics_from_json : Raw → result (list (@Resource J));
  gami_id : string;
  policy_get_id : Component.t → uuid → uuid → M Ids Z;
  policy_purge : Component.t → uuid → uuid → M Ids unit;
  max_depth : nat;
  handlers_order : list Component.t;
  tables_order : list Component.t;
}.

Section handlers.
Context {J : Type} `{EqDecision J} `{!MetricFields J} `{!ModelFields J}.
Context {Env Raw Ids : Type} `{!Service J Env Raw Ids}.

Record World := mkWorld {
  tables : @Tables J;
  m_sub_components : Component.t → list Component.t;
  relations : Relation → ManyToMany.t;
  ids : Ids;
  env : Env;
  m_connection_error_observed_at : option Z;
  registered : bool;
  notified : list Event;
  ctx : Context;
}.

Definition set_tables (x : @Tables J) (w : World) : World :=
  mkWorld x (m_sub_components w) (relations w) (ids w) (env w) (m_connection_error_observed_at w)
    (registered w) (notified w) (ctx w).
Definition set_sub_components (x : Component.t → list Component.t) (w : World) : World :=
  mkWorld (tables w) x (relations w) (ids w) (env w) (m_connection_error_observed_at w)
    (registered w) (notified w) (ctx w).
Definition set_relations (x : Relation → ManyToMany.t) (w : World) : World :=
  mkWorld (tables w) (m_sub_components w) x (ids w) (env w) (m_connection_error_observed_at w)
    (registered w) (notified w) (ctx w).
Definition set_ids (x : Ids) (w : World) : World :=
  mkWorld (tables w) (m_sub_components w) (relations w) x (env w) (m_connection_error_observed_at w)
    (registered w) (notified w) (ctx w).
Definition set_env (x : Env) (w : World) : World :=
  mkWorld (tables w) (m_sub_components w) (relations w) (ids w) x (m_connection_error_observed_at w)
    (registered w) (notified w) (ctx w).
Definition set_observed (x : option Z) (w : World) : World :=
  mkWorld (tables w) (m_sub_components w) (relations w) (ids w) (env w) x (registered w) (notified w) (ctx w).
Definition set_registered (x : bool) (w : World) : World :=
  mkWorld (tables w) (m_sub_components w) (relations w) (ids w) (env w) (m_connection_error_observed_at w)
    x (notified w) (ctx w).
Definition set_notified (x : list Event) (w : World) : World :=
  mkWorld (tables w) (m_sub_components w) (relations w) (ids w) (env w) (m_connection_error_observed_at w)
    (registered w) x (ctx w).
Definition set_ctx (x : Context) (w : World) : World :=
  mkWorld (tables w) (m_sub_components w) (relations w) (ids w) (env w) (m_connection_error_observed_at w)
    (registered w) (notified w) x.

Abbreviation W := (M World).

Definition on_table {A} (h : Component.t) (m : M (@GenericManager.t J) A) : W A :=
  zoom (λ w, tables w (model_of h)) (λ t w, set_tables (update_at (model_of h) t (tables w)) w) m.
Definition on_ids {A} (m : M Ids A) : W A := zoom ids set_ids m.
Definition on_env {A} (m : M Env A) : W A := zoom env set_env m.
Definition modify_ctx (f : Context → Context) : W unit := modify (λ w, set_ctx (f (ctx w)) w).

(** A method with a context of its own. *)
Definition with_context {A} (c : Context) (m : W A) : W A := λ w,
  let '(r, w') := m (set_ctx c w) in (r, set_ctx (ctx w) w').

(** [SubscriptionManager::notify] *)
Definition notify (es : list Event) : W unit := modify (λ w, set_notified (notified w ++ es)%list w).

Definition add_event (component : Component.t) (event_type : Eventing.EventType) (u : uuid) : W unit :=
  w ← get;
  match get_component_url component u (tables w) with
  | Throw not_found => mret tt
  | Throw e => throw e
  | Ok url =>
      modify_ctx (push_event
        match find_hash url with
        | Some position => mkEvent Eventing.ResourceUpdated (String.substring 0 position url)
        | None => mkEvent event_type url
        end)
  end.

(** ** Removal *)

Definition remove_single (h : Component.t) (u : uuid) : W unit :=
  add_event (get_component h) Eventing.ResourceRemoved u;;
  w ← get;
  entry ← lift (get_entry u (tables w (model_of h)));
  let parent_uuid := m_parent_uuid entry in
  lift (uuid_to_rest_id u (tables w (model_of h)));;
  on_table h (remove_entry u (λ _, Ok tt));;
  on_ids (policy_purge (model_of h) u parent_uuid).

(** [do_remove], with the overrides, and [remove_all]. *)
Fixpoint do_remove_within (fuel : nat) (h : Component.t) (u : uuid) : W unit :=
  match fuel with
  | O => throw out_of_fuel
  | S fuel' =>
      modify (λ w,
        set_relations (λ rel, unbind h (get_parent_component (ctx w)) u rel (relations w rel)) w);;
      w ← get;
      for_each (m_sub_components w h) (λ component,
        sub ← lift (get_handler component);
        w' ← get;
        for_each (get_keys_of u (λ _, true) (tables w' (model_of sub))) (do_remove_within fuel' sub));;
      remove_single h u
  end.

Definition do_remove (h : Component.t) (u : uuid) : W unit := do_remove_within max_depth h u.

Definition remove_all (h : Component.t) (parent : uuid) : W unit :=
  if decide (h = Component.Root) then throw (runtime_error "Logic error - should not be executed")
  else w ← get; for_each (get_keys_of parent (λ _, true) (tables w (model_of h))) (do_remove h).

Definition base_remove_agent_data (h : Component.t) (in_gami_id : string) : W unit :=
  w ← get;
  for_each (get_keys (λ entry, bool_decide (m_agent_id entry = in_gami_id)) (tables w (model_of h))) (do_remove h).

Definition clean_relations (h : Component.t) (in_gami_id : string) : W unit :=
  modify (λ w, set_relations (λ rel,
    if cleans h (get_parent_component (ctx w)) rel
    then ManyToMany.clean_resources_for_agent in_gami_id (relations w rel) else relations w rel) w).

Definition remove_agent_data (h : Component.t) (in_gami_id : string) : W unit :=
  if cleans_first h then clean_relations h in_gami_id;; base_remove_agent_data h in_gami_id
  else base_remove_agent_data h in_gami_id;; clean_relations h in_gami_id.

(** [HandlerManager::remove_agent_data] *)
Definition manager_remove_agent_data (in_gami_id : string) : W unit :=
  with_context (context0 Mode.AGENT_DISAPPEARED []) (
    for_each handlers_order (λ h, remove_agent_data h in_gami_id);;
    w ← get;
    notify (events (ctx w))).

(** [GenericHandler::remove] *)
Definition remove (h : Component.t) (u : uuid) : W unit :=
  if decide (h = Component.Root) then throw (runtime_error "Logic error - should not be executed")
  else with_context (context0 Mode.USER_ACTION []) (do_remove h u;; w ← get; notify (events (ctx w))).

Definition remove_untouched (h : Component.t) (parent_uuid : uuid) (epoch : Z) : W unit :=
  w ← get;
  if decide (mode (ctx w) = Mode.POLLING ∨ mode (ctx w) = Mode.LOADING) then
    for_each (get_keys_of parent_uuid (λ entry,
        bool_decide (m_agent_id entry = gami_id) && negb (was_touched_after epoch entry))
        (tables w (model_of h)))
      (λ u, do_remove h u;; modify_ctx (count 0 1 0 0 0))
  else mret tt.

(** ** JsonAgent *)

(** [RpcClient::CallMethod] *)
Definition CallMethod (req : Request) : W Raw :=
  try_catch (on_env (call req)) (λ e,
    match e with
    | json_rpc_exception code =>
        if is_communication_error code then throw (server_exception 500)
        else if decide (code = ERROR_CLIENT_CONNECTOR) then throw e
        else throw (server_exception (gami_status code))
    | _ => throw e
    end).

Definition clean_resource_for_agent : W unit := manager_remove_agent_data gami_id.

(** [AgentManager::remove_agent] *)
Definition unregister_agent : W unit := modify (set_registered false).

(** Nanoseconds in a second. *)
Definition second : Z := 1000000000.

Definition execute {A} (from_json : Raw → result A) (req : Request) : W A :=
  try_catch (
    res ← CallMethod req;
    modify (set_observed None);;
    lift (from_json res))
  (λ e,
    if negb (is_json_rpc e) then throw e
    else if decide (e = json_rpc_exception ERROR_CLIENT_CONNECTOR) then
      w ← get;
      let now := clock (env w) in
      match m_connection_error_observed_at w with
      | Some t =>
          let broken_seconds := Z.quot (now - t) second in
          if decide (REMOVE_AGENT_AFTER_SECONDS ≤ broken_seconds)%Z
          then clean_resource_for_agent;; unregister_agent else mret tt
      | None => modify (set_observed (Some now))
      end;;
      throw agent_unreachable
    else modify (set_observed None);; throw e).

(** ** Fetching *)

(** [fetch_entry], with the overrides of the metric and the task handlers. *)
Definition fetch_entry (h : Component.t) (parent u : uuid) : W (@Resource J) :=
  element ←
    match h with
    | Component.Metric =>
        metrics_array ← execute metrics_from_json (GetMetrics (Some u));
        match metrics_array with [] => throw invalid_uuid | element :: _ => mret element end
    | Component.Task =>
        elem ← execute entry_from_json (GetInfo h u);
        w ← get;
        let elem :=
          match get_entry u (tables w h) with
          | Ok task => mkResource (m_collections elem) (m_parent_type elem) (m_temporary_uuid elem)
              (m_persistent_uuid elem) (m_parent_uuid elem) (m_unique_key elem) (m_is_uuid_persistent elem)
              (m_id elem) (m_agent_id elem) (m_touched_at elem) (json_status elem)
              (copy_messages (json_rest task) (json_rest elem))
          | Throw _ => elem
          end in
        if is_exception (json_rest elem) then
          try_catch (execute (λ _, Ok tt) (GetTaskResultInfo u);; mret elem) (λ e,
            match e with
            | server_exception _ => mret (mkResource (m_collections elem) (m_parent_type elem)
                (m_temporary_uuid elem) (m_persistent_uuid elem) (m_parent_uuid elem) (m_unique_key elem)
                (m_is_uuid_persistent elem) (m_id elem) (m_agent_id elem) (m_touched_at elem)
                (json_status elem) (messages_of_error e (json_rest elem)))
            | _ => throw e
            end)
        else mret elem
    | _ => execute entry_from_json (GetInfo (model_of h) u)
    end;
  w ← get;
  mret (set_parent_type (get_parent_component (ctx w)) (set_uuid u (set_parent_uuid parent element))).

(** [fetch_sibling_uuid_list], with the overrides. *)
Definition fetch_sibling_uuid_list (h : Component.t) (parent_uuid : uuid) (collection_name : string)
    : W (list uuid) :=
  w ← get;
  let base := execute uuids_from_json (GetCollection parent_uuid collection_name) in
  let at_root := λ name (req : Request),
    if decide (get_parent_component (ctx w) = Component.None_ ∧ parent_uuid = "" ∧ collection_name = name)
    then execute uuids_from_json req else mret [] in
  try_catch
    match h with
    | Component.Manager =>
        if decide (get_parent_component (ctx w) = Component.None_)
        then execute uuids_from_json GetManagersCollection else base
    | Component.Task => at_root "Tasks" GetTasksCollection
    | Component.MetricDefinition => at_root "MetricDefinitions" GetMetricDefinitionsCollection
    | Component.Metric => at_root "Metrics" (GetMetrics None)
    | _ => base
    end
  (λ e, if is_json_rpc e then mret [] else throw e).

(** [what_to_add_what_to_remove]: the set differences. *)
Definition what_to_add_what_to_remove (fetched previous : list uuid) : list uuid * list uuid :=
  let new_set := oset fetched in
  let old_set := oset previous in
  (filter (λ u, u ∉ old_set) new_set, filter (λ u, u ∉ new_set) old_set).

Definition fetch_parent_children (h : Component.t) (parent_uuid : uuid) (collection_name : string)
    (rel : Relation) : W unit :=
  fetched ← fetch_sibling_uuid_list h parent_uuid collection_name;
  modify (λ w,
    let many2many := relations w rel in
    let '(to_add, to_remove) :=
      what_to_add_what_to_remove fetched (ManyToMany.get_children parent_uuid many2many) in
    let added := foldl (λ d u, ManyToMany.add_entry parent_uuid u gami_id d) many2many to_add in
    set_relations (update_at rel (foldl (λ d u, ManyToMany.remove_entry parent_uuid u d) added to_remove)
      (relations w)) w).

(** The branch of [AclHandler::fetch_siblings] for switch ports: the port is the
    child of its ACLs. *)
Definition fetch_acls_of_port (h : Component.t) (parent_uuid : uuid) (collection_name : string) : W unit :=
  fetched ← fetch_sibling_uuid_list h parent_uuid collection_name;
  modify (λ w,
    let manager := relations w AclPort in
    let '(to_add, to_remove) :=
      what_to_add_what_to_remove fetched (ManyToMany.get_parents parent_uuid manager) in
    let added := foldl (λ d u, ManyToMany.add_entry u parent_uuid gami_id d) manager to_add in
    set_relations (update_at AclPort (foldl (λ d u, ManyToMany.remove_entry u parent_uuid d) added to_remove)
      (relations w)) w).

Definition add_to_model (h : Component.t) (entry : @Resource J) : W UpdateStatus :=
  status ← on_table h (add_or_update_entry compute_hash entry);
  let u := get_uuid entry in
  let event := λ t, add_event (get_component h) t u in
  match status with
  | StatusChanged =>
      event Eventing.StatusChange;;
      modify_ctx (count 0 0 0 1 0);;
      (if decide ((json_status entry ≫= get_health) = Some Health.Critical) then
         event Eventing.Alert;; modify_ctx (count 0 0 0 0 1) else mret tt);;
      event Eventing.ResourceUpdated;;
      modify_ctx (count 0 0 1 0 0)
  | Updated => event Eventing.ResourceUpdated;; modify_ctx (count 0 0 1 0 0)
  | Added => event Eventing.ResourceAdded;; modify_ctx (count 1 0 0 0 0)
  | NoUpdate => mret tt
  end;;
  mret status.

Definition fetch (h : Component.t) (parent u : uuid) : W (@Resource J) :=
  entry ← fetch_entry h parent u;
  id ← on_ids (policy_get_id (model_of h) u parent);
  let entry := set_agent_id gami_id (set_id id entry) in
  add_to_model h entry;;
  mret entry.

Definition remember_sub_handler (h sub_handler : Component.t) : W unit :=
  modify (λ w, set_sub_components
    (update_at h (oinsert (get_component sub_handler) (m_sub_components w h)) (m_sub_components w)) w).

Definition rethrow_unreachable (e : exn) : W unit :=
  if decide (e = agent_unreachable) then throw e else mret tt.

Section subcomponents.
(** [add(ctx, parent, uuid, true)] *)
Variable add_recursively : Component.t → uuid → uuid → W Z.

Definition base_fetch_siblings (h : Component.t) (parent_uuid : uuid) (collection_name : string) : W unit :=
  subcomponents ← fetch_sibling_uuid_list h parent_uuid collection_name;
  for_each subcomponents (λ u,
    catch_all (add_recursively h parent_uuid u;; mret tt) rethrow_unreachable).

Definition fetch_siblings (h : Component.t) (parent_uuid : uuid) (collection_name : string) : W unit :=
  w ← get;
  match sibling_kind h (get_parent_component (ctx w)) with
  | Strong => base_fetch_siblings h parent_uuid collection_name
  | Weak rel => fetch_parent_children h parent_uuid collection_name rel
  | Reverse => fetch_acls_of_port h parent_uuid collection_name
  | Ignored => mret tt
  end.

(** The first loop of [fetch_subcomponents]; [epochs] maps components to the
    epochs before their first fetch. *)
Fixpoint fetch_collections (h : Component.t) (parent : uuid) (sub_handlers : list (string * Component.t))
    (epochs : list (Component.t * Z)) : W (list (Component.t * Z)) :=
  match sub_handlers with
  | [] => mret epochs
  | (name, sub_handler) :: sub_handlers' =>
      w ← get;
      let component := get_component sub_handler in
      let epochs' := if decide (component ∈ epochs.*1) then epochs
        else (epochs ++ [(component, get_current_epoch (tables w (model_of sub_handler)))])%list in
      catch_all (fetch_siblings sub_handler parent name;; remember_sub_handler h sub_handler)
        rethrow_unreachable;;
      fetch_collections h parent sub_handlers' epochs'
  end.

(** [epochs[component]] *)
Definition epoch_of (component : Component.t) (epochs : list (Component.t * Z)) : Z :=
  match list_find (λ x, x.1 = component) epochs with Some (_, x) => x.2 | None => 0 end.

Definition fetch_subcomponents (h : Component.t) (parent : uuid) (collections : list Collection) : W unit :=
  let sub_handlers := get_handlers collections in
  modify_ctx (λ c, set_stack (get_component h :: stack c) c);;
  epochs ← fetch_collections h parent sub_handlers [];
  for_each sub_handlers (λ '(_, sub_handler),
    remove_untouched sub_handler parent (epoch_of (get_component sub_handler) epochs));;
  modify_ctx (λ c, set_stack (tail (stack c)) c).

End subcomponents.

(** The collections of [RootHandler::add]. *)
Definition root_collections : list Collection :=
  [mkCollection "Managers" CollectionType.Managers; mkCollection "Tasks" CollectionType.Tasks;
   mkCollection "MetricDefinitions" CollectionType.MetricDefinitions;
   mkCollection "Metrics" CollectionType.Metrics].

Fixpoint add (fuel : nat) (h : Component.t) (parent u : uuid) (recursively : bool) : W Z :=
  match fuel with
  | O => throw out_of_fuel
  | S fuel' =>
      let add_recursively := λ h' p' u', add fuel' h' p' u' true in
      if decide (h = Component.Root) then
        fetch_subcomponents add_recursively h u root_collections;; mret 0%Z
      else
        entry ← fetch h parent u;
        (if recursively then fetch_subcomponents add_recursively h u (m_collections entry) else mret tt);;
        mret (m_id entry)
  end.

Definition do_load (fuel : nat) (h : Component.t) (parent u : uuid) (recursively : bool) : W Z :=
  add fuel h parent u recursively.

(** [update], with the override of the zone handler. *)
Definition update (fuel : nat) (h : Component.t) (parent u : uuid) : W Z :=
  do_load fuel h parent u (bool_decide (h = Component.Zone)).

(** ** Entry points *)

(** The first registered table with the uuid. *)
Definition find_component (u : uuid) (w : World) : Component.t :=
  match list_find (λ c, entry_exists u (tables w c) = true) tables_order with
  | Some (_, c) => c
  | None => Component.None_
  end.

(** [attribute::EventData] *)
Record EventData := mkEventData { notification : Notification.t; ev_component : uuid; ev_parent : uuid }.

(** [handle]: the status and the events for the subscribers. *)
Definition handle (fuel : nat) (h : Component.t) (event : EventData) : W (bool * list Event) :=
  if decide (h = Component.Root) then throw (runtime_error "Logic error - should not be executed") else
  w0 ← get;
  with_context (context0 Mode.EVENT [find_component (ev_parent event) w0]) (
    let collected := w ← get; mret (true, events (ctx w)) in
    catch_all
      match notification event with
      | Notification.Add =>
          try_catch (
            w ← get;
            if entry_exists (ev_component event) (tables w (model_of h)) then mret (true, [])
            else add fuel h (ev_parent event) (ev_component event) true;; collected)
          (λ e, if decide (e = agent_unreachable)
                then do_remove h (ev_component event);; mret (false, [])
                else throw e)
      | Notification.Remove =>
          try_catch (do_remove h (ev_component event);; collected)
          (λ e, if decide (e = invalid_value ∨ e = not_found) then mret (true, []) else throw e)
      | Notification.Update =>
          w ← get;
          if negb (entry_exists (ev_component event) (tables w (model_of h))) then mret (true, [])
          else update fuel h (ev_parent event) (ev_component event);; collected
      end
    (λ _, mret (false, []))).

Definition poll (fuel : nat) (h : Component.t) (parent_uuid : uuid) (parent_component : Component.t)
    (u : uuid) : W unit :=
  with_context (context0 Mode.POLLING [parent_component]) (
    try_catch (
      try_catch (add fuel h parent_uuid u true;; mret tt)
        (λ e, if is_json_rpc e then mret tt else throw e);;
      w ← get;
      notify (events (ctx w)))
    (λ e, if decide (e = agent_unreachable) then mret tt else throw e)).

Definition load (fuel : nat) (h : Component.t) (parent : uuid) (parent_component : Component.t)
    (u : uuid) (recursively : bool) : W Z :=
  if decide (h = Component.Root) then throw (runtime_error "Logic error - should not be executed")
  else with_context (context0 Mode.LOADING [parent_component]) (
    rest_id ← do_load fuel h parent u recursively;
    w ← get;
    notify (events (ctx w));;
    mret rest_id).

(** The loop of [load_collection] for a load that is not recursive. *)
Fixpoint load_siblings (fuel : nat) (parent : uuid) (collections : list Collection)
    (epochs : list (CollectionType.t * Z)) : W (list (CollectionType.t * Z)) :=
  match collections with
  | [] => mret epochs
  | collection :: collections' =>
      let t := collection_type collection in
      handler ← lift (get_handler_of t);
      w ← get;
      let epochs' := if decide (t ∈ epochs.*1) then epochs
        else (epochs ++ [(t, get_current_epoch (tables w (model_of handler)))])%list in
      siblings ← fetch_sibling_uuid_list handler parent (collection_name collection);
      for_each siblings (λ u, do_load fuel handler parent u false;; mret tt);;
      load_siblings fuel parent collections' epochs'
  end.

Definition load_collection (fuel : nat) (h : Component.t) (parent : uuid) (parent_component : Component.t)
    (type : CollectionType.t) (recursively : bool) : W unit :=
  with_context (context0 Mode.LOADING [parent_component]) (
    entry ← execute entry_from_json (GetInfo (model_of h) parent);
    let collections := filter (λ c, collection_type c = type) (m_collections entry) in
    (if recursively then
       fetch_subcomponents (λ h' p' u', add fuel h' p' u' true) h parent collections
     else
       epochs ← load_siblings fuel parent collections [];
       for_each epochs (λ '(t, epoch),
         handler ← lift (get_handler_of t);
         remove_untouched handler parent epoch));;
    w ← get;
    notify (events (ctx w))).

(** ** Visitors *)

Section visitor.
Context {V : Type}.
Variable visit : @Resource J → Component.t → V → bool * V.

(** [do_accept_recursively], with the overrides: the children in the model or in
    a relation; [None] where the override returns false. *)
Definition visited_children (h : Component.t) (parent_uuid : uuid) (parent_component : Component.t)
    (w : World) : option (list uuid) :=
  let strong := get_keys_of parent_uuid (λ _, true) (tables w (model_of h)) in
  let weak := λ rel, Some (ManyToMany.get_children parent_uuid (relations w rel)) in
  match h with
  | Component.Drive =>
      if decide (parent_component = Component.Chassis) then Some strong
      else if decide (parent_component = Component.StorageSubsystem) then weak StorageSubsystemDrives
      else if decide (parent_component = Component.StorageService) then weak StorageServiceDrives else None
  | Component.Endpoint =>
      if decide (parent_component = Component.Fabric) then Some strong else weak ZoneEndpoint
  | Component.PcieFunction =>
      if decide (parent_component = Component.PcieDevice) then Some strong
      else if decide (parent_component = Component.Drive) then weak DriveFunction
      else if decide (parent_component = Component.Processor) then weak ProcessorFunction else Some []
  | Component.Port =>
      if decide (parent_component = Component.Switch) then Some strong else weak EndpointPort
  | Component.StorageService =>
      if decide (parent_component = Component.Manager) then Some strong else weak SystemStorageServices
  | Component.Volume =>
      if decide (parent_component = Component.StorageService) then Some strong else weak StoragePoolVolumes
  | _ => Some strong
  end.

(** Visit all of a list until one says stop. *)
Fixpoint visit_all {X} (f : X → list uuid * V → result (bool * (list uuid * V))) (l : list X)
    (st : list uuid * V) : result (bool * (list uuid * V)) :=
  match l with
  | [] => Ok (true, st)
  | x :: l' => '(go, st') ← f x st; if (go : bool) then visit_all f l' st' else Ok (false, st')
  end.

(** [do_accept]: the state is the set of visited uuids and the visitor's own. *)
Fixpoint do_accept (fuel : nat) (w : World) (h : Component.t) (u : uuid) (st : list uuid * V)
    : result (bool * (list uuid * V)) :=
  match fuel with
  | O => Throw out_of_fuel
  | S fuel' =>
      if decide (u ∈ st.1) then Ok (true, st) else
      i ← get_entry_reference u (tables w (model_of h));
      resource ← index (m_manager_data (tables w (model_of h))) i;
      let '(go, v) := visit resource (get_component h) st.2 in
      if negb go then Ok (false, (st.1, v)) else
      visit_all (λ component st',
          sub ← get_handler component;
          match visited_children sub u (get_component h) w with
          | None => Ok (false, st')
          | Some children => visit_all (do_accept fuel' w sub) children st'
          end) (m_sub_components w h) (oinsert u st.1, v)
  end.

(** [accept] clears the set first. *)
Definition accept (fuel : nat) (w : World) (h : Component.t) (u : uuid) (v : V)
    : result (bool * (list uuid * V)) :=
  do_accept fuel w h u ([], v).

End visitor.

End handlers.
End Handlers.
