(* ===== verification/HandlerTables.v ===== *)
(** Properties of the handlers ([Handlers]) that hold whatever the agent
    answers: the tables keep their type, relations are brought up to date, and
    what the connection state does. *)

From Stdlib Require Import ZArith Lia Ascii.
From stdpp Require Import sorting.
From S2P Require Import Prelude.
From S2P Require Import OrdSet.
From S2P Require Import Enums.
From S2P Require Import ManyToMany.
From S2P Require Import GenericManager.
From S2P Require Import ComponentUrl.
From S2P Require Import Eventing.
From S2P Require Import Handlers.

Module HandlerTables.
Import GenericManager.
Import Handlers.

Open Scope string_scope.

(** ** One table *)

Section table.
Context {J : Type} `{EqDecision J}.
Implicit Types (r x : @Resource J) (s : @GenericManager.t J) (l : list (@Resource J)).

(** No entry has a persistent uuid, and no two have the same uuid. *)
Definition plain_list l : Prop :=
  Forall (λ r, m_is_uuid_persistent r = false) l ∧ NoDup (m_temporary_uuid <$> l).

Definition plain s : Prop := plain_list (m_manager_data s).

Lemma has_key_plain u r : m_is_uuid_persistent r = false → has_key u r = bool_decide (m_temporary_uuid r = u).
Proof. intros H. unfold has_key. by rewrite H. Qed.

Lemma get_uuid_plain r : m_is_uuid_persistent r = false → get_uuid r = m_temporary_uuid r.
Proof. intros H. unfold get_uuid. by rewrite H. Qed.

Lemma plain_unique l r r' : plain_list l → r ∈ l → r' ∈ l → m_temporary_uuid r = m_temporary_uuid r' → r = r'.
Proof.
  intros [_ Hd] (i & Hi)%list_elem_of_lookup (j & Hj)%list_elem_of_lookup E.
  assert (i = j) as ->; [|congruence].
  eapply (NoDup_lookup _ i j (m_temporary_uuid r) Hd); rewrite list_lookup_fmap; [by rewrite Hi|].
  by rewrite Hj, E.
Qed.

Lemma plain_find u s : plain s →
  match find_entry u s with
  | Some (i, r) => m_manager_data s !! i = Some r ∧ m_temporary_uuid r = u
  | None => ∀ r, r ∈ m_manager_data s → m_temporary_uuid r ≠ u
  end.
Proof.
  intros [Hp _]. unfold find_entry. rewrite list.Forall_forall in Hp.
  destruct (find_if _ _) as [[i r]|] eqn:E.
  - apply find_if_Some in E as (Hi & Hk & _). split; [done|].
    rewrite has_key_plain in Hk by (apply Hp; by eapply list_elem_of_lookup_2). by apply bool_decide_eq_true in Hk.
  - apply find_if_None in E. rewrite list.Forall_forall in E. intros r Hr Hu.
    specialize (E r Hr). rewrite has_key_plain in E by auto. by apply bool_decide_eq_false in E.
Qed.

Lemma plain_get_entry u s r : plain s → get_entry u s = Ok r ↔ r ∈ m_manager_data s ∧ m_temporary_uuid r = u.
Proof.
  intros Hp. pose proof (plain_find u s Hp) as H. unfold get_entry.
  destruct (find_entry u s) as [[i r']|].
  - destruct H as [Hi Hu]. apply list_elem_of_lookup_2 in Hi. split; [by intros [= <-]|].
    intros [Hr Hu']. f_equal. eapply plain_unique; [exact Hp|done..|congruence].
  - split; [done|]. intros [Hr Hu]. by apply H in Hr.
Qed.

Lemma plain_sublist l k : sublist k l → plain_list l → plain_list k.
Proof.
  intros Hs [Hp Hd]. split.
  - rewrite list.Forall_forall in Hp |- *. intros r Hr. apply Hp. by eapply sublist_subseteq.
  - eapply sublist_NoDup; [exact Hd|]. by apply fmap_sublist.
Qed.

Lemma plain_remove u s :
  plain s → ∃ s', remove_entry u (λ _, Ok tt) s = (Ok tt, s') ∧ plain s' ∧
    m_current_epoch s' = m_current_epoch s ∧
    (∀ r, r ∈ m_manager_data s' ↔ r ∈ m_manager_data s ∧ m_temporary_uuid r ≠ u).
Proof.
  intros Hp. pose proof (plain_find u s Hp) as H. unfold remove_entry. run_monad.
  destruct (find_entry u s) as [[i r]|].
  - destruct H as [Hi Hu]. eexists. split; [done|]. cbn [m_manager_data m_current_epoch].
    assert (plain_list (delete i (m_manager_data s))) as Hp' by (eapply plain_sublist; [apply sublist_delete|done]).
    split_and!; [done|done|]. intros x. destruct Hp as [_ Hd]. rewrite !list_elem_of_lookup. split.
    + intros (j & Hj). assert (∃ k, k ≠ i ∧ m_manager_data s !! k = Some x) as (k & Hk & Hx).
      { destruct (decide (j < i)) as [Hlt|Hge].
        - rewrite list_lookup_delete_lt in Hj by done. exists j. split; [lia|done].
        - rewrite list_lookup_delete_ge in Hj by lia. exists (S j). split; [lia|done]. }
      split; [by eexists|]. intros E. apply Hk.
      eapply (NoDup_lookup _ k i u Hd); rewrite list_lookup_fmap; [by rewrite Hx, <- E|by rewrite Hi, <- Hu].
    + intros [(j & Hj) Hne]. destruct (decide (j < i)) as [Hlt|Hge].
      * exists j. by rewrite list_lookup_delete_lt.
      * destruct (decide (j = i)) as [->|Hji]; [congruence|]. exists (j - 1).
        rewrite list_lookup_delete_ge by lia. by replace (S (j - 1)) with j by lia.
  - exists s. split_and!; [done|done|done|]. intros x. split; [|by intros []]. intros Hx. split; [done|by apply H].
Qed.

Variable compute_hash : J → string.

(** [add_or_update_entry] of an entry without a persistent uuid: it throws if the
    uuid is known under another parent; otherwise the entry takes the place of
    the one with its uuid, or is new. *)
Lemma plain_add_or_update entry s :
  plain s → m_is_uuid_persistent entry = false →
  (∃ old s', add_or_update_entry compute_hash entry s = (Throw invalid_uuid, s') ∧
     m_manager_data s' = m_manager_data s ∧ m_current_epoch s' = next_epoch s ∧
     old ∈ m_manager_data s ∧ m_temporary_uuid old = m_temporary_uuid entry ∧
     m_parent_uuid old ≠ m_parent_uuid entry) ∨
  (∃ status s', add_or_update_entry compute_hash entry s = (Ok status, s') ∧ plain s' ∧
     m_current_epoch s' = next_epoch s ∧
     (∀ old, old ∈ m_manager_data s → m_temporary_uuid old = m_temporary_uuid entry →
        m_parent_uuid old = m_parent_uuid entry) ∧
     (∀ r, r ∈ m_manager_data s' ↔
        r = touch (next_epoch s) entry ∨ r ∈ m_manager_data s ∧ m_temporary_uuid r ≠ m_temporary_uuid entry)).
Proof.
  intros Hp He. pose proof (plain_find (m_temporary_uuid entry) s Hp) as H.
  unfold add_or_update_entry. run_monad. change (get_uuid (touch (next_epoch s) entry)) with (get_uuid entry).
  rewrite get_uuid_plain by done. destruct (find_entry (m_temporary_uuid entry) s) as [[i old]|].
  - destruct H as [Hi Hu]. case_decide as Hpar; simpl in Hpar.
    + left. eexists old, _. split; [done|]. split_and!; [done|done|by eapply list_elem_of_lookup_2|done|done].
    + right. eexists _, _. split; [done|]. cbn [m_manager_data m_current_epoch].
      assert (m_parent_uuid old = m_parent_uuid entry) as Hpar' by tauto. destruct Hp as [Hb Hd].
      assert (∀ r, r ∈ <[i := touch (next_epoch s) entry]> (m_manager_data s) ↔
        r = touch (next_epoch s) entry ∨ r ∈ m_manager_data s ∧ m_temporary_uuid r ≠ m_temporary_uuid entry) as Hm.
      { intros r. rewrite !list_elem_of_lookup. assert (i < length (m_manager_data s)) by (by eapply lookup_lt_Some).
        split.
        - intros (j & Hj). destruct (decide (j = i)) as [->|Hji].
          + rewrite list_lookup_insert_eq in Hj by done. left. congruence.
          + rewrite list_lookup_insert_ne in Hj by done. right. split; [by eexists|]. intros E. apply Hji.
            eapply (NoDup_lookup _ j i (m_temporary_uuid entry) Hd); rewrite list_lookup_fmap;
              [by rewrite Hj, <- E|by rewrite Hi, <- Hu].
        - intros [->|[(j & Hj) Hne]].
          + exists i. by rewrite list_lookup_insert_eq.
          + exists j. rewrite list_lookup_insert_ne; [done|]. intros <-. congruence. }
      split_and!; [split|done| |done].
      * cbn [m_manager_data]. by apply Forall_insert.
      * cbn [m_manager_data]. rewrite list_fmap_insert. rewrite list_insert_id; [done|]. rewrite list_lookup_fmap, Hi. simpl. by rewrite Hu.
      * intros old' Hold E. by rewrite (plain_unique _ old' old (conj Hb Hd) Hold
          ltac:(by eapply list_elem_of_lookup_2) ltac:(congruence)).
  - right. eexists _, _. split; [done|]. cbn [m_manager_data m_current_epoch]. destruct Hp as [Hb Hd].
    split_and!; [split|done| |].
    + cbn [m_manager_data]. apply Forall_app. split; [done|]. apply Forall_cons_2; [done|apply Forall_nil_2].
    + cbn [m_manager_data]. rewrite fmap_app. apply list.NoDup_app. split_and!; [done| |apply NoDup_singleton].
      intros u (r & -> & Hr)%list_elem_of_fmap Hu. apply list_elem_of_singleton in Hu. by eapply H.
    + intros old Hold E. by destruct (H old Hold).
    + intros r. rewrite elem_of_app, list_elem_of_singleton. split.
      * intros [Hr| ->]; [right|by left]. split; [done|by apply H].
      * intros [-> |[Hr _]]; [by right|by left].
Qed.

Lemma plain_add_or_update_kept entry s :
  plain s → m_is_uuid_persistent entry = false → plain (add_or_update_entry compute_hash entry s).2.
Proof.
  intros Hp He. destruct (plain_add_or_update entry s Hp He) as [(old & s' & -> & Hd & _)|(st & s' & -> & Hp' & _)];
    [|done]. unfold plain. simpl. by rewrite Hd.
Qed.

End table.
(** ** One relation *)

Section relation.
Import ManyToMany.
Implicit Types (d : list IdPair) (x : IdPair).

(** No two agents hold the same pair. *)
Definition one_agent d : Prop :=
  ∀ x y, x ∈ d → y ∈ d → parent_of x = parent_of y → child_of x = child_of y → x = y.

Lemma elem_of_remove_one p c x d :
  NoDup d → one_agent d →
  x ∈ ManyToMany.remove_entry p c d ↔ x ∈ d ∧ ¬ (parent_of x = p ∧ child_of x = c).
Proof.
  induction 1 as [|y d Hy Hd IH]; intros Ho; cbn [ManyToMany.remove_entry].
  - split; [by intros ?%elem_of_nil|by intros [?%elem_of_nil _]].
  - assert (one_agent d) as Ho' by (intros a b Ha Hb; apply Ho; by apply list_elem_of_further).
    rewrite list.elem_of_cons. case_decide as E.
    + destruct E as [-> ->]. split.
      * intros Hx. split; [by right|]. intros [E1 E2]. apply Hy.
        rewrite <- (Ho x y); [done|by apply list_elem_of_further|apply list_elem_of_here|done|done].
      * intros [[->|Hx] Hne]; [by destruct Hne|done].
    + rewrite list.elem_of_cons, IH by done. split; [|tauto].
      intros [->|[Hx Hne]]; [|tauto]. split; [by left|]. intros [<- <-]. by apply E.
Qed.

Lemma foldl_remove_spec (key : uuid → uuid * uuid) us d :
  sorted d → one_agent d →
  let d' := foldl (λ d u, ManyToMany.remove_entry (key u).1 (key u).2 d) d us in
  sorted d' ∧ one_agent d' ∧ ∀ x, x ∈ d' ↔ x ∈ d ∧ (parent_of x, child_of x) ∉ (key <$> us).
Proof.
  revert d. induction us as [|u us IH]; intros d Hs Ho; cbn [foldl].
  - split_and!; [done|done|]. intros x. cbn. rewrite elem_of_nil. tauto.
  - assert (∀ x, x ∈ ManyToMany.remove_entry (key u).1 (key u).2 d ↔
      x ∈ d ∧ ¬ (parent_of x = (key u).1 ∧ child_of x = (key u).2)) as Hx.
    { intros x. apply elem_of_remove_one; [by apply sorted_NoDup|done]. }
    destruct (IH (ManyToMany.remove_entry (key u).1 (key u).2 d)) as (H1 & H2 & H3).
    + by apply sorted_remove_entry.
    + intros x y [Hx' _]%Hx [Hy' _]%Hx. by apply Ho.
    + split_and!; [done|done|]. intros x. rewrite H3, Hx. cbn [fmap list_fmap]. rewrite not_elem_of_cons.
      destruct (key u) as [a b]. cbn [fst snd]. split; [|intros (Ha & Hb & Hc)]; [intros [[Ha Hb] Hc]|];
        split_and!; try done; [intros [= <- <-]; by apply Hb|intros [<- <-]; by apply Hb].
Qed.

Lemma foldl_add_spec (entry : uuid → IdPair) us d :
  sorted d →
  let d' := foldl (λ d u, oinsert (entry u) d) d us in
  sorted d' ∧ ∀ x, x ∈ d' ↔ x ∈ d ∨ x ∈ entry <$> us.
Proof.
  revert d. induction us as [|u us IH]; intros d Hs; cbn [foldl].
  - split; [done|]. intros x. cbn. rewrite elem_of_nil. tauto.
  - destruct (IH (oinsert (entry u) d)) as [H1 H2]; [by apply sorted_oinsert|]. split; [done|].
    intros x. rewrite H2, elem_of_oinsert. cbn [fmap list_fmap]. rewrite list.elem_of_cons. tauto.
Qed.

Lemma elem_of_get_children p c d : c ∈ get_children p d ↔ ∃ a, (p, c, a) ∈ d.
Proof.
  unfold get_children. rewrite list_elem_of_fmap. split.
  - intros ([[p' c'] a] & -> & [-> Hx]%list_elem_of_filter). by exists a.
  - intros (a & Ha). exists (p, c, a). split; [done|]. by apply list_elem_of_filter.
Qed.

(** Bring the children of [p] up to date: the kept pairs keep their agent. *)
Lemma synchronised p g fetched d :
  sorted d → one_agent d →
  let to := what_to_add_what_to_remove fetched (get_children p d) in
  let d' := foldl (λ d u, ManyToMany.remove_entry p u d)
              (foldl (λ d u, ManyToMany.add_entry p u g d) d to.1) to.2 in
  sorted d' ∧ one_agent d' ∧
  ∀ x, x ∈ d' ↔
    (if decide (parent_of x = p)
     then child_of x ∈ fetched ∧ (x ∈ d ∨ agent_of x = g ∧ child_of x ∉ get_children p d)
     else x ∈ d).
Proof.
  intros Hs Ho to d'.
  set (entry := λ u : uuid, (p, u, g) : IdPair). set (key := λ u : uuid, (p, u)).
  destruct (foldl_add_spec entry to.1 d Hs) as [Hs1 Hx1].
  assert (∀ u, u ∈ to.1 ↔ u ∈ fetched ∧ u ∉ get_children p d) as Hadd.
  { intros u. cbn. rewrite list_elem_of_filter, !elem_of_oset. tauto. }
  assert (∀ u, u ∈ to.2 ↔ u ∈ get_children p d ∧ u ∉ fetched) as Hrem.
  { intros u. cbn. rewrite list_elem_of_filter, !elem_of_oset. tauto. }
  assert (∀ x, x ∈ entry <$> to.1 ↔ parent_of x = p ∧ agent_of x = g ∧ child_of x ∈ fetched ∧
      child_of x ∉ get_children p d) as Hent.
  { intros [[a b] c]. rewrite list_elem_of_fmap. cbn. split.
    - intros (u & [= -> -> ->] & Hu). apply Hadd in Hu. tauto.
    - intros (-> & -> & Hu). exists b. split; [done|]. by apply Hadd. }
  assert (∀ x, x ∈ d → parent_of x = p → child_of x ∈ get_children p d) as Hch.
  { intros [[a b] c] Hx Ha. apply elem_of_get_children. cbn in *. subst a. by exists c. }
  assert (one_agent (foldl (λ d u, oinsert (entry u) d) d to.1)) as Ho1.
  { intros x y Hx Hy Ep Ec. apply Hx1 in Hx as [Hx|Hx], Hy as [Hy|Hy]; [by apply Ho| | |].
    - apply Hent in Hy as (E1 & _ & _ & E2). destruct E2. rewrite <- Ec. apply Hch; [done|congruence].
    - apply Hent in Hx as (E1 & _ & _ & E2). destruct E2. rewrite Ec. apply Hch; [done|congruence].
    - apply Hent in Hx as (E1 & E2 & _), Hy as (E1' & E2' & _).
      destruct x as [[? ?] ?], y as [[? ?] ?]. cbn in *. congruence. }
  destruct (foldl_remove_spec key to.2 _ Hs1 Ho1) as (Hs2 & Ho2 & Hx2).
  split_and!; [exact Hs2|exact Ho2|]. intros x. etrans; [apply Hx2|]. rewrite Hx1, Hent.
  assert ((parent_of x, child_of x) ∈ key <$> to.2 ↔
    parent_of x = p ∧ child_of x ∈ get_children p d ∧ child_of x ∉ fetched) as Hk.
  { rewrite list_elem_of_fmap. split.
    - intros (u & [= -> ->] & Hu%Hrem). done.
    - intros (-> & Hu). exists (child_of x). split; [done|]. by apply Hrem. }
  rewrite Hk. destruct (decide (parent_of x = p)) as [Hp|Hp]; [|tauto].
  specialize (Hch x). destruct (decide (child_of x ∈ fetched)); [|tauto].
  destruct (decide (child_of x ∈ get_children p d)); tauto.
Qed.

End relation.

(** ** All tables *)

Section world.
Context {J : Type} `{EqDecision J} `{!ComponentUrl.MetricFields J} `{!ModelFields J}.
Context {Env Raw Ids : Type} `{Hsrv : !Service J Env Raw Ids}.
Implicit Types (w : @World J Env Ids).

Definition typed w : Prop := ∀ c, plain (tables w c).

Lemma preserves_modify_tables (f : World → World) :
  (∀ w, tables (f w) = tables w) → preserves typed (modify f).
Proof. intros Hf w Hw c. simpl. rewrite Hf. apply Hw. Qed.

Lemma preserves_zoom {S T A} (I : S → Prop) (proj : S → T) (inj : T → S → S) (m : M T A) :
  (∀ x s, I s → I (inj x s)) → preserves I (zoom proj inj m).
Proof. intros Hi s Hs. unfold zoom. destruct (m (proj s)). simpl. by apply Hi. Qed.

Lemma preserves_frame {S A} (proj : World → S) (inj : S → World → World) (m : M S A) :
  (∀ s w, tables (inj s w) = tables w) → preserves typed (zoom proj inj m).
Proof. intros Hf. apply preserves_zoom. intros s w Hw c. rewrite Hf. apply Hw. Qed.

Lemma preserves_on_table {A} h (m : M (@GenericManager.t J) A) :
  preserves plain m → preserves typed (on_table h m).
Proof.
  intros Hm w Hw c. unfold on_table, zoom. pose proof (Hm _ (Hw (model_of h))) as Hm'.
  destruct (m (tables w (model_of h))) as [r t]. simpl in *. unfold update_at. case_decide; [done|apply Hw].
Qed.

Lemma preserves_with_context {A} c (m : M World A) : preserves typed m → preserves typed (with_context c m).
Proof.
  intros Hm w Hw x. unfold with_context. pose proof (Hm (set_ctx c w) Hw) as Hm'.
  destruct (m (set_ctx c w)) as [r w']. apply Hm'.
Qed.

Lemma preserves_catch_all {A} (m : M World A) h :
  preserves typed m → (∀ e, preserves typed (h e)) → preserves typed (catch_all m h).
Proof. intros Hm Hh. apply preserves_try; [done|]. intros e. case_decide; [apply preserves_throw|apply Hh]. Qed.

Lemma preserves_decide {A} (P : Prop) `{Decision P} (m n : M World A) :
  preserves typed m → preserves typed n → preserves typed (if decide P then m else n).
Proof. by case_decide. Qed.

(** Take a method apart along its control flow. *)
Ltac walk :=
  repeat match goal with
  | |- preserves _ (mret _) => apply preserves_ret
  | |- preserves _ (throw _) => apply preserves_throw
  | |- preserves _ get => apply preserves_get
  | |- preserves _ (lift _) => apply preserves_lift
  | |- preserves _ (modify _) => apply preserves_modify_tables; reflexivity
  | |- preserves _ (modify_ctx _) => apply preserves_modify_tables; reflexivity
  | |- preserves _ (notify _) => apply preserves_modify_tables; reflexivity
  | |- preserves _ (on_env _) => apply preserves_frame; reflexivity
  | |- preserves _ (on_ids _) => apply preserves_frame; reflexivity
  | |- preserves _ (_ ≫= _) => apply preserves_bind; [|intros]
  | |- preserves _ (try_catch _ _) => apply preserves_try; [|intros]
  | |- preserves _ (catch_all _ _) => apply preserves_catch_all; [|intros]
  | |- preserves _ (for_each _ _) => apply preserves_for_each; intros
  | |- preserves _ (with_context _ _) => apply preserves_with_context
  | |- preserves _ (if decide _ then _ else _) => apply preserves_decide
  | |- preserves _ (match ?x with _ => _ end) => destruct x
  end; eauto 2 with handlers.

Create HintDb handlers.

Lemma add_event_typed c t u : preserves typed (add_event (Ids := Ids) (Env := Env) c t u).
Proof. unfold add_event. walk. Qed.
#[local] Hint Resolve add_event_typed : handlers.

Lemma remove_single_typed h u : preserves typed (remove_single h u).
Proof.
  unfold remove_single. walk. apply preserves_on_table. intros s Hs.
  by destruct (plain_remove u s Hs) as (s' & -> & Hs' & _).
Qed.
#[local] Hint Resolve remove_single_typed : handlers.

Lemma do_remove_within_typed fuel h u : preserves typed (do_remove_within fuel h u).
Proof. revert h u. induction fuel as [|fuel IH]; intros h u; cbn [do_remove_within]; walk. Qed.

Lemma do_remove_typed h u : preserves typed (do_remove h u).
Proof. apply do_remove_within_typed. Qed.
#[local] Hint Resolve do_remove_typed : handlers.

Lemma remove_agent_data_typed h g : preserves typed (remove_agent_data h g).
Proof. unfold remove_agent_data, clean_relations, base_remove_agent_data. walk. Qed.
#[local] Hint Resolve remove_agent_data_typed : handlers.

Lemma execute_typed {A} (f : Raw → result A) req : preserves typed (execute f req).
Proof.
  unfold execute, CallMethod, clean_resource_for_agent, manager_remove_agent_data, unregister_agent. walk.
Qed.
#[local] Hint Resolve execute_typed : handlers.

Lemma remove_untouched_typed h p e : preserves typed (remove_untouched h p e).
Proof. unfold remove_untouched. walk. Qed.
#[local] Hint Resolve remove_untouched_typed : handlers.

Lemma fetch_sibling_uuid_list_typed h p n : preserves typed (fetch_sibling_uuid_list h p n).
Proof. unfold fetch_sibling_uuid_list. walk. Qed.
#[local] Hint Resolve fetch_sibling_uuid_list_typed : handlers.

Lemma preserves_bind_post {A B} (m : M World A) (f : A → M World B) (P : A → Prop) :
  preserves typed m → (∀ w a w', m w = (Ok a, w') → P a) → (∀ a, P a → preserves typed (f a)) →
  preserves typed (m ≫= f).
Proof.
  intros Hm HP Hf w Hw. unfold mbind, M_bind. specialize (Hm w Hw). specialize (HP w).
  destruct (m w) as [[a|e] w1]; [|done]. apply Hf; [by eapply HP|done].
Qed.

(** What [fetch_entry] returns has the uuid and the parent that were asked for,
    and no persistent uuid. *)
Lemma fetch_entry_post h p u w r w' :
  fetch_entry h p u w = (Ok r, w') →
  m_is_uuid_persistent r = false ∧ m_temporary_uuid r = u ∧ m_parent_uuid r = p ∧
  m_parent_type r = get_parent_component (ctx w').
Proof.
  unfold fetch_entry. intros (e & w1 & _ & Hb)%bind_Ok_inv.
  apply bind_Ok_inv in Hb as (w2 & w3 & [= <- <-] & [= <- <-]). done.
Qed.

Lemma fetch_entry_typed h p u : preserves typed (fetch_entry h p u).
Proof. unfold fetch_entry. walk. Qed.
#[local] Hint Resolve fetch_entry_typed : handlers.

Lemma add_to_model_typed h entry :
  m_is_uuid_persistent entry = false → preserves typed (add_to_model h entry).
Proof.
  intros He. unfold add_to_model. apply preserves_bind.
  - apply preserves_on_table. intros s Hs. by apply plain_add_or_update_kept.
  - intros status. walk.
Qed.

Lemma fetch_typed h p u : preserves typed (fetch h p u).
Proof.
  unfold fetch. eapply preserves_bind_post; [walk|intros w a w' Hfe; apply fetch_entry_post in Hfe as [Hfe _]; exact Hfe|].
  intros e He. walk. by apply add_to_model_typed.
Qed.
#[local] Hint Resolve fetch_typed : handlers.

Lemma fetch_subcomponents_typed rec h p cs :
  (∀ h' p' u', preserves typed (rec h' p' u')) → preserves typed (fetch_subcomponents rec h p cs).
Proof.
  intros Hrec. unfold fetch_subcomponents.
  assert (∀ l es, preserves typed (fetch_collections rec h p l es)) as Hc.
  { induction l as [|[n s] l IH]; intros es; cbn [fetch_collections];
      unfold fetch_siblings, base_fetch_siblings, fetch_parent_children, fetch_acls_of_port,
        remember_sub_handler, rethrow_unreachable; walk.
    all: apply preserves_modify_tables; intros w; by destruct (what_to_add_what_to_remove _ _). }
  walk.
Qed.

Lemma add_typed fuel h p u b : preserves typed (add fuel h p u b).
Proof.
  revert h p u b. induction fuel as [|fuel IH]; intros h p u b; cbn [add]; walk;
    apply fetch_subcomponents_typed; auto.
Qed.
#[local] Hint Resolve add_typed : handlers.

Lemma load_siblings_typed fuel p cs es : preserves typed (load_siblings fuel p cs es).
Proof. revert es. induction cs as [|c cs IH]; intros es; cbn [load_siblings]; unfold do_load; walk. Qed.
#[local] Hint Resolve load_siblings_typed : handlers.

(** C23: the type of the resource tables.  Whatever the agent answers, and
    whether the operation returns or throws, every entry point of the handlers
    (an event, a poll, a load of a resource or of a collection, a removal, the
    removal of an agent's data) leaves every table without persistent uuids and
    without two entries under one uuid. *)
Theorem tables_keep_their_type fuel h event parent pc u recursively type g :
  preserves typed (handle fuel h event) ∧ preserves typed (poll fuel h parent pc u) ∧
  preserves typed (load fuel h parent pc u recursively) ∧
  preserves typed (load_collection fuel h parent pc type recursively) ∧
  preserves typed (remove h u) ∧ preserves typed (manager_remove_agent_data g).
Proof.
  split_and!.
  - unfold handle, update, do_load. walk.
  - unfold poll. walk.
  - unfold load, do_load. walk.
  - unfold load_collection. walk. apply fetch_subcomponents_typed. auto with handlers.
  - unfold remove. walk.
  - unfold manager_remove_agent_data. walk.
Qed.

(** ** Relations *)

(** C24: weak collections follow the agent.  When the agent answers with the list of a collection
    whose members are only related to the parent, and the relation is ordered and no
    pair of it is held by two agents, fetch_parent_children makes exactly the listed
    uuids the children of the parent in the relation: a listed child that was there
    keeps its pair with the agent that holds it, a new one gets this agent, no other
    pair is added, the children of other parents, the other relations and all tables
    stay as they are, and the relation is still ordered and without pairs of two agents. *)
Theorem relation_follows_the_agent h p name rel w fetched w1 :
  fetch_sibling_uuid_list h p name w = (Ok fetched, w1) →
  ManyToMany.sorted (relations w1 rel) → one_agent (relations w1 rel) →
  ∃ w', fetch_parent_children h p name rel w = (Ok tt, w') ∧
    ManyToMany.sorted (relations w' rel) ∧ one_agent (relations w' rel) ∧
    (∀ c, c ∈ ManyToMany.get_children p (relations w' rel) ↔ c ∈ fetched) ∧
    (∀ x, ManyToMany.parent_of x ≠ p → x ∈ relations w' rel ↔ x ∈ relations w1 rel) ∧
    (∀ c a, c ∈ fetched → (p, c, a) ∈ relations w1 rel → ∀ a', (p, c, a') ∈ relations w' rel ↔ a' = a) ∧
    (∀ c a', c ∈ fetched → c ∉ ManyToMany.get_children p (relations w1 rel) →
      (p, c, a') ∈ relations w' rel ↔ a' = gami_id) ∧
    (∀ rel', rel' ≠ rel → relations w' rel' = relations w1 rel') ∧
    tables w' = tables w1.
Proof.
  intros Hf Hs Ho. destruct (synchronised p gami_id fetched _ Hs Ho) as (Hs' & Ho' & Hx).
  unfold fetch_parent_children, mbind, M_bind. rewrite Hf. unfold modify.
  destruct (what_to_add_what_to_remove fetched _) as [to_add to_remove] eqn:E.
  cbn [fst snd] in *. eexists. split; [done|]. cbn [relations tables set_relations].
  unfold update_at. rewrite decide_True by done.
  set (d' := foldl _ _ to_remove) in *. set (d := relations w1 rel) in *.
  assert (∀ c a', (p, c, a') ∈ d' ↔
    c ∈ fetched ∧ ((p, c, a') ∈ d ∨ a' = gami_id ∧ c ∉ ManyToMany.get_children p d)) as Hp.
  { intros c a'. rewrite Hx. cbn [ManyToMany.parent_of ManyToMany.child_of ManyToMany.agent_of].
    by rewrite decide_True. }
  split_and!; [done|done| | | | | |done].
  - intros c. rewrite elem_of_get_children. split.
    + by intros (a & [Ha _]%Hp).
    + intros Hc. destruct (decide (c ∈ ManyToMany.get_children p d)) as [Hin|Hni].
      * apply elem_of_get_children in Hin as (a & Ha). exists a. apply Hp. tauto.
      * exists gami_id. apply Hp. tauto.
  - intros x Hne. rewrite Hx. by rewrite decide_False.
  - intros c a Hc Ha a'. rewrite Hp. split.
    + intros [_ [Ha'|[_ Hno]]].
      * pose proof (Ho _ _ Ha' Ha) as Heq. by injection (Heq eq_refl eq_refl).
      * destruct Hno. apply elem_of_get_children. by exists a.
    + intros ->. tauto.
  - intros c a' Hc Hno. rewrite Hp. split; [|tauto]. intros [_ [Ha'|[-> _]]]; [|done].
    destruct Hno. apply elem_of_get_children. by exists a'.
  - intros rel' Hr. by rewrite decide_False.
Qed.

(** ** The connection to the agent *)

(** A reply with an error. *)
Lemma execute_error_reply {A} (f : Raw → result A) req w code e :
  call req (env w) = (Throw (json_rpc_exception code), e) → code ≠ ERROR_CLIENT_CONNECTOR →
  ∃ status, execute f req w = (Throw (server_exception status), set_env e w).
Proof.
  intros Hc Hcode.
  assert (∃ status, CallMethod req w = (Throw (server_exception status), set_env e w)) as (status & Hm).
  { unfold CallMethod, try_catch, on_env, zoom. rewrite Hc. destruct (is_communication_error code); [by eexists|].
    rewrite decide_False by done. by eexists. }
  exists status. unfold execute, try_catch, mbind, M_bind. by rewrite Hm.
Qed.

(** No connection. *)
Lemma execute_unreachable {A} (f : Raw → result A) req w e t w' :
  call req (env w) = (Throw (json_rpc_exception ERROR_CLIENT_CONNECTOR), e) →
  m_connection_error_observed_at w = Some t →
  (REMOVE_AGENT_AFTER_SECONDS ≤ Z.quot (clock e - t) second)%Z →
  manager_remove_agent_data gami_id (set_env e w) = (Ok tt, w') →
  execute f req w = (Throw agent_unreachable, set_registered false w').
Proof.
  intros Hc Ht Hq Hr.
  assert (CallMethod req w = (Throw (json_rpc_exception ERROR_CLIENT_CONNECTOR), set_env e w)) as Hm.
  { unfold CallMethod, try_catch, on_env, zoom. by rewrite Hc. }
  unfold execute, try_catch. rewrite (bind_throw _ _ _ _ _ Hm). cbn [is_json_rpc negb].
  rewrite decide_True by done. unfold mbind, M_bind, get. cbn [env m_connection_error_observed_at set_env].
  rewrite Ht, decide_True by done. unfold clean_resource_for_agent. by rewrite Hr.
Qed.

(** An agent that answers can still be dropped as unreachable.  The time of
    the first connection error is forgotten only after a call that succeeds: a
    reply with an error leaves it, because CallMethod turns the error into a
    ServerException, which the catch clause of execute that would reset the time
    does not see.  So after one lost call, any number of answered calls and a
    second lost call more than 60 seconds later the agent's data is removed and
    the agent unregistered. *)
Theorem answering_agent_is_dropped {A} (f : Raw → result A) req req' w t code e e' w' :
  m_connection_error_observed_at w = Some t →
  call req (env w) = (Throw (json_rpc_exception code), e) → code ≠ ERROR_CLIENT_CONNECTOR →
  call req' e = (Throw (json_rpc_exception ERROR_CLIENT_CONNECTOR), e') →
  (t + REMOVE_AGENT_AFTER_SECONDS * second ≤ clock e')%Z →
  manager_remove_agent_data gami_id (set_env e' w) = (Ok tt, w') →
  ∃ status w1, execute f req w = (Throw (server_exception status), w1) ∧
    execute f req' w1 = (Throw agent_unreachable, set_registered false w').
Proof.
  intros Ht Hc Hcode Hc' Hclock Hr. destruct (execute_error_reply f req w code e Hc Hcode) as (status & He).
  exists status, (set_env e w). split; [done|].
  eapply execute_unreachable; [exact Hc'|exact Ht| |exact Hr].
  apply Z.quot_le_lower_bound; unfold second in *; lia.
Qed.

(** The handlers' own recovery is not reached either: an error reply to the
    request for a list is not turned into an empty list. *)
Lemma list_error_escapes h p name w code e :
  h ∉ [Component.Manager; Component.Task; Component.MetricDefinition; Component.Metric] →
  call (GetCollection p name) (env w) = (Throw (json_rpc_exception code), e) → code ≠ ERROR_CLIENT_CONNECTOR →
  ∃ status, fetch_sibling_uuid_list h p name w = (Throw (server_exception status), set_env e w).
Proof.
  intros Hh Hc Hcode. destruct (execute_error_reply uuids_from_json _ w code e Hc Hcode) as (status & He).
  exists status. unfold fetch_sibling_uuid_list, try_catch, mbind, M_bind, get.
  rewrite !not_elem_of_cons in Hh. destruct h; try (by rewrite He); tauto.
Qed.

(** ** Late events *)

(** No entry of the table has the uuid. *)
Definition unknown (u : uuid) (s : @GenericManager.t J) : Prop := find_if (has_any_uuid u) (m_manager_data s) = None.

Lemma unknown_entry u (s : @GenericManager.t J) : unknown u s → get_entry u s = Throw invalid_uuid.
Proof.
  unfold unknown, get_entry, find_entry. intros Hu%find_if_None.
  assert (find_if (has_key u) (m_manager_data s) = None) as ->; [|done].
  apply find_if_None. eapply list.Forall_impl; [exact Hu|]. intros r. unfold has_any_uuid, has_key.
  intros [-> ->]%orb_false_iff. by rewrite andb_false_r.
Qed.

Lemma unknown_url c u (db : @ComponentUrl.Tables J) :
  unknown u (db c) →
  ComponentUrl.get_component_url c u db = Throw invalid_uuid ∨ ComponentUrl.get_component_url c u db = Throw not_found.
Proof.
  intros Hu. pose proof (unknown_entry u _ Hu) as He.
  assert (uuid_to_rest_id u (db c) = Throw invalid_uuid) as Hi.
  { unfold uuid_to_rest_id, find_id_by_uuid. by rewrite Hu. }
  unfold ComponentUrl.get_component_url, ComponentUrl.url_fuel. generalize 7. intros n.
  destruct c; cbn [ComponentUrl.get_component_url_recursive];
    unfold ComponentUrl.build_parent_path, ComponentUrl.build_child_path, ComponentUrl.build_array_member_path,
      ComponentUrl.build_metric_path; rewrite ?He, ?Hi; tauto.
Qed.

Lemma remove_single_unknown h u w :
  get_component h = model_of h → unknown u (tables w (model_of h)) →
  remove_single h u w = (Throw invalid_uuid, w).
Proof.
  intros Hh Hu. unfold remove_single, add_event, mbind, M_bind, get. rewrite Hh.
  destruct (unknown_url _ _ _ Hu) as [-> | ->]; [done|]. unfold mret, M_ret, lift.
  by rewrite (unknown_entry _ _ Hu).
Qed.

Lemma for_each_nothing {A} (l : list A) (f : A → M World unit) w :
  (∀ x, x ∈ l → f x w = (Ok tt, w)) → for_each l f w = (Ok tt, w).
Proof.
  induction l as [|x l IH]; intros Hf; [done|]. cbn [for_each]. unfold mbind, M_bind.
  rewrite Hf by apply list_elem_of_here. apply IH. intros y Hy. apply Hf. by apply list_elem_of_further.
Qed.

(** A late notification of a removal.  When the agent reports the removal
    of a resource that is not in the model, and has no children there, handle
    returns false and no events: get_entry throws InvalidUuid, which is neither
    of the two exceptions that handle takes for this case before it returns
    true. *)
Theorem late_removal_fails fuel h u p w :
  h ≠ Component.Root → 0 < max_depth → unknown u (tables w (model_of h)) →
  (∀ c, c ∈ m_sub_components w h → c ∈ component_handlers) →
  (∀ c r, r ∈ m_manager_data (tables w c) → m_parent_uuid r ≠ u) →
  ∃ w', handle fuel h (mkEventData Notification.Remove u p) w = (Ok (false, []), w') ∧ tables w' = tables w.
Proof.
  intros Hh Hd Hu Hs Hc. unfold handle. rewrite decide_False by done.
  unfold mbind at 1, M_bind, get, with_context. cbn [notification ev_component ev_parent].
  set (w0 := set_ctx _ w).
  assert (do_remove h u w0 = (Throw invalid_uuid,
    set_relations (λ rel, unbind h (get_parent_component (ctx w0)) u rel (relations w0 rel)) w0)) as Hr.
  { unfold do_remove. destruct max_depth as [|n]; [lia|]. cbn [do_remove_within].
    unfold mbind at 1, M_bind, modify. set (w1 := set_relations _ w0). unfold mbind at 1, M_bind, get.
    unfold mbind at 1, M_bind. rewrite for_each_nothing.
    - apply remove_single_unknown; [by destruct h|done].
    - intros c Hin. unfold mbind, M_bind, lift, get_handler. rewrite decide_True by (by apply Hs). unfold get.
      assert (get_keys_of u (λ _, true) (tables w1 (model_of c)) = []) as ->; [|done].
      unfold get_keys_of, get_keys. apply elem_of_nil_inv. intros k (r & -> & [E Hr']%list_elem_of_filter)%list_elem_of_fmap.
      apply andb_true_iff in E as [E%bool_decide_eq_true _]. by eapply Hc. }
  unfold catch_all, try_catch. rewrite (bind_throw _ _ _ _ _ Hr).
  rewrite decide_False by (intros [|]; done). unfold throw. rewrite decide_False by done. by eexists.
Qed.

(** ** Relations that are not cleaned *)

(** The bindings of an agent's PCIe functions to processors survive the agent: the
    override that should clean them looks at the component on top of the
    context's stack, which is empty when an agent has disappeared.  Whatever
    the model holds and whether the removal succeeds, the relation between
    processors and functions is left as it was. *)
Theorem processor_functions_survive g w r w' :
  manager_remove_agent_data g w = (r, w') →
  relations w' ProcessorFunction = relations w ProcessorFunction.
Proof.
  set (I := λ x : @World J Env Ids, relations x ProcessorFunction = relations w ProcessorFunction ∧ stack (ctx x) = []).
  assert (∀ fuel h u, preserves I (do_remove_within fuel h u)) as Hd.
  { induction fuel as [|fuel IH]; intros h u; cbn [do_remove_within]; [apply preserves_throw|].
    apply preserves_bind; [|intros []; apply preserves_bind; [apply preserves_get|intros x; apply preserves_bind]].
    - apply preserves_modify. intros x [H1 H2]. split; [|done]. cbn [relations set_relations].
      unfold get_parent_component. rewrite H2. by destruct h.
    - apply preserves_for_each. intros c. apply preserves_bind; [apply preserves_lift|]. intros sub.
      apply preserves_bind; [apply preserves_get|]. intros y. apply preserves_for_each. auto.
    - intros []. unfold remove_single, add_event, on_table, on_ids, modify_ctx.
      repeat first [apply preserves_bind; [|intros]|apply preserves_get|apply preserves_lift
        |apply preserves_ret|apply preserves_throw|apply preserves_modify; intros ? [H1 H2]; exact (conj H1 H2)
        |match goal with |- preserves _ (match ?x with _ => _ end) => destruct x end
        |apply preserves_zoom; intros ? ? [H1 H2]; exact (conj H1 H2)]. }
  unfold manager_remove_agent_data, with_context. intros Hrun.
  assert (preserves I (for_each handlers_order (λ h, remove_agent_data h g);; x ← get; notify (events (ctx x)))) as Hp.
  { apply preserves_bind; [|intros []; apply preserves_bind; [apply preserves_get|intros x; by apply preserves_modify]].
    apply preserves_for_each. intros h. unfold remove_agent_data, base_remove_agent_data, clean_relations.
    assert (preserves I (modify (λ x : @World J Env Ids, set_relations (λ rel,
      if cleans h (get_parent_component (ctx x)) rel
      then ManyToMany.clean_resources_for_agent g (relations x rel) else relations x rel) x))) as Hc.
    { apply preserves_modify. intros x [H1 H2]. split; [|done]. cbn [relations set_relations].
      unfold get_parent_component. rewrite H2. by destruct h. }
    destruct (cleans_first h); repeat first [apply preserves_bind; [|intros]|exact Hc|apply preserves_get
      |apply preserves_for_each; intros; apply Hd]. }
  specialize (Hp (set_ctx (context0 Mode.AGENT_DISAPPEARED []) w)). cbn beta in Hp.
  match type of Hrun with context [let '(_, _) := ?m in _] => destruct m as [r1 w1] end. injection Hrun as <- <-. by apply Hp.
Qed.

End world.

(** ** A scripted agent *)

Inductive raw := Entry (r : @Resource Z) | Uuids (l : list uuid).

(** The answers to come, each with the time at which it arrives; then the
    connection is lost. *)
Record script := mkScript { answers : list (Z * result raw); time : Z }.

#[local] Instance sample_fields : ModelFields Z :=
  {| get_health := λ _, None; copy_messages := λ _ new, new; is_exception := λ _, false;
     messages_of_error := λ _ j, j |}.
#[local] Existing Instance ComponentUrl.sample_metric.

Definition connection_lost : result raw := Throw (json_rpc_exception ERROR_CLIENT_CONNECTOR).

#[local] Instance sample_service : Service Z script raw Z :=
  {| compute_hash := λ _, "";
     call := λ _ s, match answers s with
                    | (t, r) :: rest => (r, mkScript rest t)
                    | [] => (connection_lost, s)
                    end;
     clock := time;
     entry_from_json := λ j, match j with Entry r => Ok r | _ => Throw (json_rpc_exception (-1)) end;
     uuids_from_json := λ j, match j with Uuids l => Ok l | _ => Throw (json_rpc_exception (-1)) end;
     metrics_from_json := λ _, Throw (json_rpc_exception (-1));
     gami_id := "agent";
     policy_get_id := λ _ _ _ n, (Ok (n + 1)%Z, (n + 1)%Z);
     policy_purge := λ _ _ _ n, (Ok tt, n);
     max_depth := 10;
     handlers_order := component_handlers;
     tables_order := component_handlers |}.

Definition no_tables : @ComponentUrl.Tables Z := λ _, mkManager [] 1.

Definition sample_world (t : @ComponentUrl.Tables Z) (subs : Component.t → list Component.t)
    (rels : Relation → ManyToMany.t) (observed : option Z) (s : script) : @World Z script Z :=
  mkWorld t subs rels 0%Z s observed true [] (context0 Mode.EVENT []).

Definition entry (p : Component.t) (parent u : uuid) (cs : list Collection) : @Resource Z :=
  mkResource cs p u "" parent None false 1 "agent" 1 None 0%Z.

Lemma relation_follows_the_agent_witness :
  ∃ w', fetch_parent_children Component.Endpoint "zone" "Endpoints" ZoneEndpoint
      (sample_world no_tables (λ _, []) (λ _, [("zone", "e1", "agent"); ("zone", "e2", "other")]) None
        (mkScript [(1%Z, Ok (Uuids ["e2"; "e3"]))] 0)) = (Ok tt, w') ∧
    (∀ c, c ∈ ManyToMany.get_children "zone" (relations w' ZoneEndpoint) ↔ c ∈ ["e2"; "e3"]) ∧
    ("zone", "e2", "other") ∈ relations w' ZoneEndpoint ∧ ("zone", "e3", gami_id) ∈ relations w' ZoneEndpoint.
Proof.
  set (w := sample_world _ _ _ _ _).
  destruct (relation_follows_the_agent Component.Endpoint "zone" "Endpoints" ZoneEndpoint w ["e2"; "e3"]
    (fetch_sibling_uuid_list Component.Endpoint "zone" "Endpoints" w).2) as (w' & H1 & _ & _ & H2 & _ & H3 & H4 & _).
  - vm_compute. reflexivity.
  - assert (relations (fetch_sibling_uuid_list Component.Endpoint "zone" "Endpoints" w).2 ZoneEndpoint =
      ManyToMany.add_entry "zone" "e1" "agent" (ManyToMany.add_entry "zone" "e2" "other" [])) as ->
      by (vm_compute; reflexivity).
    apply sorted_oinsert, sorted_oinsert. constructor.
  - intros x y Hx Hy. repeat (apply list.elem_of_cons in Hx as [->|Hx]); try by apply elem_of_nil in Hx.
    all: repeat (apply list.elem_of_cons in Hy as [->|Hy]); try by apply elem_of_nil in Hy.
    all: done.
  - exists w'. split; [exact H1|]. split; [exact H2|]. split.
    + apply (H3 "e2" "other"); [set_solver| |done]. apply list_elem_of_further, list_elem_of_here.
    + apply H4; [set_solver| |done]. vm_compute. intros Hin.
      repeat (apply list.elem_of_cons in Hin as [Hin|Hin]); try discriminate. by apply elem_of_nil in Hin.
Defined.

Lemma answering_agent_is_dropped_witness :
  ∃ status w1, execute (λ _, Ok tt) GetManagersCollection
      (sample_world no_tables (λ _, []) (λ _, []) (Some 0%Z)
        (mkScript [(30000000000%Z, Throw (json_rpc_exception 14500)); (61000000000%Z, connection_lost)] 0)) =
      (Throw (server_exception status), w1) ∧
    registered (execute (λ _, Ok tt) GetManagersCollection w1).2 = false.
Proof.
  set (w := sample_world _ _ _ _ _).
  set (e' := mkScript [] 61000000000).
  destruct (answering_agent_is_dropped (λ _ : raw, Ok tt) GetManagersCollection GetManagersCollection w 0 14500
    (mkScript [(61000000000%Z, connection_lost)] 30000000000) e'
    (manager_remove_agent_data gami_id (set_env e' w)).2) as (status & w1 & H1 & H2).
  - reflexivity.
  - reflexivity.
  - done.
  - reflexivity.
  - vm_compute. discriminate.
  - etransitivity; [apply surjective_pairing|]. apply pair_equal_spec. split; [vm_compute|]; reflexivity.
  - exists status, w1. split; [exact H1|]. rewrite H2. reflexivity.
Defined.

Lemma late_removal_fails_witness :
  ∃ w', handle 3 Component.System (mkEventData Notification.Remove "s1" "")
    (sample_world no_tables (λ _, []) (λ _, []) None (mkScript [] 0)) = (Ok (false, []), w').
Proof.
  destruct (late_removal_fails 3 Component.System "s1" ""
    (sample_world no_tables (λ _, []) (λ _, []) None (mkScript [] 0))) as (w' & H & _).
  - done.
  - simpl. lia.
  - reflexivity.
  - intros c Hc. by apply elem_of_nil in Hc.
  - intros c r Hr. by apply elem_of_nil in Hr.
  - exists w'. exact H.
Defined.

Lemma processor_functions_survive_witness :
  relations (manager_remove_agent_data "agent"
    (sample_world no_tables (λ _, []) (λ _, [("cpu", "function", "agent")]) None (mkScript [] 0))).2
    ProcessorFunction = [("cpu", "function", "agent")].
Proof.
  set (w := sample_world _ _ _ _ _).
  apply (processor_functions_survive "agent" w (manager_remove_agent_data "agent" w).1
    (manager_remove_agent_data "agent" w).2). by destruct (manager_remove_agent_data "agent" w).
Defined.

(** ** Managers below managers *)

(** A manager with a manager and a chassis below it, as a chassis agent reports
    them. *)
Definition nested_managers : @World Z script Z :=
  sample_world (λ c,
      match c with
      | Component.Manager => mkManager [entry Component.None_ "" "drawer" []; entry Component.Manager "drawer" "sled" []] 2
      | Component.Chassis => mkManager [entry Component.None_ "" "other" []] 1
      | _ => mkManager [] 1
      end)
    (λ c, match c with Component.Manager => [Component.Chassis; Component.Manager] | _ => [] end)
    (λ _, []) None (mkScript [] 0).

(** The data of an agent with a manager below a manager, which the chassis
    agent reports, is not removed when the agent disappears: the uuids of both
    managers are collected first, the removal of the outer one removes the inner
    one too, and its own turn then throws InvalidUuid.  The removal stops there,
    the other resources of the agent stay, and no event is sent. *)
Theorem nested_managers_stop_removal :
  ∃ w', manager_remove_agent_data "agent" nested_managers = (Throw invalid_uuid, w') ∧
    get_keys (λ r, bool_decide (m_agent_id r = "agent")) (tables w' Component.Chassis) = ["other"] ∧
    notified w' = [].
Proof. eexists. vm_compute. split_and!; reflexivity. Qed.

(** ** A connection lost while a resource is added *)

Definition adding : @World Z script Z :=
  sample_world (λ c, match c with Component.Manager => mkManager [entry Component.None_ "" "m" []] 1
                                | _ => mkManager [] 1 end)
    (λ c, match c with Component.Manager => [Component.System] | _ => [] end) (λ _, []) None
    (mkScript [(1%Z, Ok (Entry (entry Component.None_ "" "" [mkCollection "Processors" CollectionType.Processors])));
               (2%Z, Ok (Uuids ["p1"; "p2"]));
               (3%Z, Ok (Entry (entry Component.None_ "" "" [])))] 0).

(** When the connection is lost while an added resource is read for the
    first time, the resource is removed again, but not all its descendants as
    the comment says: the handler has not yet learned which kinds of children it
    has, so the children that were read stay in the model without their
    parent. *)
Theorem lost_connection_leaves_orphans :
  ∃ w', handle 5 Component.System (mkEventData Notification.Add "s1" "m") adding = (Ok (false, []), w') ∧
    entry_exists "s1" (tables w' Component.System) = false ∧
    entry_exists "p1" (tables w' Component.Processor) = true.
Proof. eexists. vm_compute. split_and!; reflexivity. Qed.

End HandlerTables.
