(* ===== verification/HandlerRemoval.v ===== *)
(** Removal of resources ([Handlers.do_remove], [Handlers.remove]): in a model
    whose resources form a forest that the handlers know, the removal of a
    resource removes exactly it and its descendants and does not throw. *)

From Stdlib Require Import ZArith Lia Ascii.
From S2P Require Import Prelude.
From S2P Require Import OrdSet.
From S2P Require Import Enums.
From S2P Require Import ManyToMany.
From S2P Require Import GenericManager.
From S2P Require Import Mux.
From S2P Require Import Routes.
From S2P Require Import ComponentUrl.
From S2P Require Import Eventing.
From S2P Require Import Handlers.
From S2P Require Import HandlerTables.

Module HandlerRemoval.
Import GenericManager.
Import ComponentUrl.
Import Handlers.
Import HandlerTables.

Open Scope string_scope.
Open Scope nat_scope.

(** ** Links that can be built *)

(** The components whose URL continues that of their parent. *)
Definition parent_linked (c : Component.t) : bool :=
  match c with
  | Component.StorageSubsystem | Component.Drive | Component.Memory | Component.Processor
  | Component.NetworkInterface | Component.StorageController | Component.EthernetSwitchPort
  | Component.EthernetSwitchPortVlan | Component.Zone | Component.PcieFunction | Component.Port
  | Component.Switch | Component.Acl | Component.AclRule | Component.StaticMac | Component.Endpoint
  | Component.PowerZone | Component.ThermalZone | Component.NetworkDevice
  | Component.NetworkDeviceFunction | Component.PSU | Component.Fan | Component.TrustedModule
  | Component.Volume | Component.StoragePool | Component.LogService | Component.LogEntry => true
  | _ => false
  end.

(** How far below the collections of the service root a component is. *)
Definition depth (c : Component.t) : nat :=
  match c with
  | Component.StorageController | Component.EthernetSwitchPortVlan | Component.PcieFunction
  | Component.Port | Component.AclRule | Component.StaticMac | Component.NetworkDeviceFunction
  | Component.PSU | Component.Fan | Component.LogEntry => 2
  | Component.PcieDevice => 1
  | Component.Metric => 3
  | _ => if parent_linked c then 1 else 0
  end.

Section links.
Context {J : Type} `{EqDecision J} `{!MetricFields J}.
Implicit Types (r x : @Resource J) (db : @Tables J).

(** Every resource whose URL continues that of its parent has its parent in the
    model; no metric is about a metric. *)
Definition links_ok db : Prop :=
  ∀ c r, r ∈ m_manager_data (db c) →
    (parent_linked c = true →
       (∃ p, p ∈ m_manager_data (db (m_parent_type r)) ∧ m_temporary_uuid p = m_parent_uuid r) ∧
       depth (m_parent_type r) < depth c ∧
       (c = Component.PowerZone ∨ c = Component.ThermalZone → m_parent_type r = Component.Chassis)) ∧
    (c = Component.Metric → get_component_type (json_rest r) ≠ Component.Metric).

Definition present db (c : Component.t) (u : uuid) : Prop :=
  ∃ r, r ∈ m_manager_data (db c) ∧ m_temporary_uuid r = u.

(** A URL, or an exception that [add_event] takes. *)
Definition linkable db c u (res : result string) : Prop :=
  (∃ url, res = Ok url) ∨ res = Throw not_found ∨ res = Throw invalid_uuid ∧ ¬ present db c u.

Lemma rest_id_known s u : plain s → (∃ r : @Resource J, r ∈ m_manager_data s ∧ m_temporary_uuid r = u) →
  ∃ id, uuid_to_rest_id u s = Ok id.
Proof.
  intros _ (r & Hr & Hu). unfold uuid_to_rest_id, find_id_by_uuid.
  destruct (find_if _ _) as [[i r']|] eqn:E; [by eexists|]. apply find_if_None in E.
  rewrite list.Forall_forall in E. specialize (E r Hr). unfold has_any_uuid in E.
  apply orb_false_iff in E as [_ E%bool_decide_eq_false]. done.
Qed.

Lemma rest_id_linkable db c u (f : Z → string) :
  plain (db c) → linkable db c u (id ← uuid_to_rest_id u (db c); mret (f id)).
Proof.
  intros Hp. destruct (uuid_to_rest_id u (db c)) as [id|e] eqn:E; [left; by eexists|]. right; right.
  assert (e = invalid_uuid) as ->.
  { unfold uuid_to_rest_id, find_id_by_uuid in E. destruct (find_if _ _) as [[]|]; [done|by injection E]. }
  split; [done|]. intros Hpr. destruct (rest_id_known _ _ Hp Hpr) as (id & E'). by rewrite E' in E.
Qed.

Lemma get_entry_cases db c u : plain (db c) →
  (∃ r, get_entry u (db c) = Ok r ∧ r ∈ m_manager_data (db c) ∧ m_temporary_uuid r = u) ∨
  (get_entry u (db c) = Throw invalid_uuid ∧ ¬ present db c u).
Proof.
  intros Hp. destruct (get_entry u (db c)) as [r|e] eqn:E.
  - left. exists r. split; [done|]. by apply plain_get_entry.
  - right. split.
    + unfold get_entry in E. destruct (find_entry u (db c)) as [[]|]; [done|by injection E as <-].
    + intros (r & Hr). apply plain_get_entry in Hr; [|done]. by rewrite Hr in E.
Qed.

Lemma distance_to_lt u l : u ∈ l → distance_to u l < length l.
Proof.
  induction l as [|y l IH]; [by intros ?%elem_of_nil|]. cbn [distance_to length]. case_decide; [lia|].
  intros [->|Hu]%list.elem_of_cons; [done|]. specialize (IH Hu). lia.
Qed.

Lemma own_key s r : plain s → r ∈ m_manager_data s →
  m_temporary_uuid r ∈ get_keys_of (m_parent_uuid r) (λ _, true) s.
Proof.
  intros [Hb _] Hr. unfold get_keys_of, get_keys. apply list_elem_of_fmap. exists r.
  rewrite list.Forall_forall in Hb. split; [by rewrite get_uuid_plain by auto|].
  apply list_elem_of_filter. split; [|done]. by rewrite bool_decide_eq_true_2.
Qed.

Section recursion.
Variable db : @Tables J.
Hypothesis Hplain : ∀ c, plain (db c).
Hypothesis Hlinks : links_ok db.

Variable rec : string → Component.t → uuid → result string.
Variable n : nat.
Hypothesis Hrec : ∀ path c u, depth c < n → c ≠ Component.Metric → linkable db c u (rec path c u).

(** The walk up to a parent that is present. *)
Lemma rec_present path c u : depth c < n → c ≠ Component.Metric → present db c u →
  (∃ url, rec path c u = Ok url) ∨ rec path c u = Throw not_found.
Proof using Hrec. intros Hd Hm Hp. destruct (Hrec path c u Hd Hm) as [?|[?|[_ ?]]]; tauto. Qed.

Lemma parent_linkable path c r :
  parent_linked c = true → depth c ≤ n → r ∈ m_manager_data (db c) →
  (∃ url, rec path (m_parent_type r) (m_parent_uuid r) = Ok url) ∨
  rec path (m_parent_type r) (m_parent_uuid r) = Throw not_found.
Proof using Hrec Hlinks.
  intros Hc Hd Hr. destruct (Hlinks c r Hr) as [Hl _]. destruct (Hl Hc) as (Hp & Hdp & _).
  apply rec_present; [lia| |done]. intros E. rewrite E in Hdp. destruct c; cbn in Hdp; lia.
Qed.

Lemma child_path_linkable c path u lit :
  parent_linked c = true → depth c ≤ n → linkable db c u (build_child_path rec c path u lit db).
Proof using All.
  intros Hc Hd. unfold build_child_path.
  destruct (get_entry_cases db c u (Hplain c)) as [(r & -> & Hr & Hu)|[-> Hu]]; [|right; by right].
  cbn [mbind result_bind]. destruct (parent_linkable path c r Hc Hd Hr) as [[url ->]| ->];
    [left; by eexists|by right; left].
Qed.

Lemma array_path_linkable c path u name :
  parent_linked c = true → depth c ≤ n → linkable db c u (build_array_member_path rec c path u name db).
Proof using All.
  intros Hc Hd. unfold build_array_member_path.
  destruct (get_entry_cases db c u (Hplain c)) as [(r & -> & Hr & Hu)|[-> Hu]]; [|right; by right].
  cbn [mbind result_bind]. destruct (parent_linkable path c r Hc Hd Hr) as [[url ->]| ->]; [|by right; left].
  cbn [mbind result_bind]. rewrite decide_False; [left; by eexists|]. subst u.
  pose proof (distance_to_lt _ _ (own_key _ r (Hplain c) Hr)). lia.
Qed.

Lemma zone_path_linkable c path u (lit : string) :
  c = Component.PowerZone ∨ c = Component.ThermalZone → 1 ≤ n →
  linkable db c u (r ← get_entry u (db c); path' ← rec path Component.Chassis (m_parent_uuid r); mret (Mux.append lit path')).
Proof using All.
  intros Hc Hn. destruct (get_entry_cases db c u (Hplain c)) as [(r & -> & Hr & Hu)|[-> Hu]]; [|right; by right].
  cbn [mbind result_bind]. destruct (Hlinks c r Hr) as [Hl _].
  destruct Hl as (Hp & _ & Ht); [by destruct Hc as [-> | ->]|]. rewrite (Ht Hc) in Hp.
  destruct (rec_present path Component.Chassis (m_parent_uuid r)) as [[url ->]| ->];
    [cbn; lia|done|done|left; by eexists|by right; left].
Qed.

Lemma device_path_linkable path u :
  1 ≤ n →
  linkable db Component.PcieDevice u
    (d ← get_entry u (db Component.PcieDevice);
     match get_keys_of (m_parent_uuid d) (λ _, true) (db Component.Chassis) with
     | [chassis] => path' ← rec path Component.Chassis chassis;
                    mret (Mux.append (id_text (m_id d)) (Mux.append "PCIeDevices" path'))
     | _ => Ok path
     end).
Proof using All.
  intros Hn. destruct (get_entry_cases db Component.PcieDevice u (Hplain _)) as [(r & -> & Hr & Hu)|[-> Hu]];
    [|right; by right]. cbn [mbind result_bind].
  destruct (get_keys_of _ _ _) as [|k [|k' ks]] eqn:Ek; [left; by eexists| |left; by eexists].
  assert (present db Component.Chassis k) as Hk.
  { assert (k ∈ get_keys_of (m_parent_uuid r) (λ _, true) (db Component.Chassis)) as Hin
      by (rewrite Ek; apply list_elem_of_here).
    unfold get_keys_of, get_keys in Hin. apply list_elem_of_fmap in Hin as (r' & -> & [_ Hr']%list_elem_of_filter).
    exists r'. split; [done|]. destruct (Hplain Component.Chassis) as [Hb _]. rewrite list.Forall_forall in Hb.
    by rewrite get_uuid_plain by auto. }
  destruct (rec_present path Component.Chassis k) as [[url ->]| ->];
    [cbn; lia|done|done|left; by eexists|by right; left].
Qed.

End recursion.

Lemma url_linkable db n c u path :
  (∀ c, plain (db c)) → links_ok db → depth c < n → c ≠ Component.Metric →
  linkable db c u (get_component_url_recursive n db path c u).
Proof.
  intros Hp Hl. revert c u path. induction n as [|n IH]; intros c u path Hd Hm; [lia|].
  destruct c; cbn [get_component_url_recursive];
    first
      [ done
      | unfold build_parent_path; by apply rest_id_linkable
      | by right; left
      | apply (child_path_linkable db Hp Hl _ n); [intros; by apply IH|done|cbn in *; lia]
      | apply (array_path_linkable db Hp Hl _ n); [intros; by apply IH|done|cbn in *; lia]
      | apply (zone_path_linkable db Hp Hl _ n); [intros; by apply IH|tauto|cbn in *; lia]
      | apply (device_path_linkable db Hp Hl _ n); [intros; by apply IH|cbn in *; lia]
      | idtac ].
  destruct (get_entry_cases db Component.NetworkInterface u (Hp _)) as [(r & He & _)|[He Hu]]; rewrite He;
    [|right; by right]. cbn [mbind result_bind].
  repeat case_decide; [..|by right; left];
    (apply (child_path_linkable db Hp Hl _ n); [intros; by apply IH|done|cbn in *; lia]).
Qed.

Lemma url_rec_present db c r n path :
  (∀ c, plain (db c)) → links_ok db → r ∈ m_manager_data (db c) → 3 ≤ n →
  (∃ url, get_component_url_recursive (S n) db path c (m_temporary_uuid r) = Ok url) ∨
  get_component_url_recursive (S n) db path c (m_temporary_uuid r) = Throw not_found.
Proof.
  intros Hp Hl Hr Hn. assert (present db c (m_temporary_uuid r)) as Hpr by (by exists r).
  destruct (decide (c = Component.Metric)) as [->|Hc].
  - cbn [get_component_url_recursive].
    unfold build_metric_path. rewrite (proj2 (plain_get_entry _ _ r (Hp _)) (conj Hr eq_refl)).
    cbn [mbind result_bind]. destruct (Hl _ _ Hr) as [_ Hm]. specialize (Hm eq_refl).
    destruct (url_linkable db n (get_component_type (json_rest r)) (get_component_uuid (json_rest r)) path Hp Hl)
      as [[url ->]|[-> |[-> _]]]; [destruct (get_component_type _); cbn in *; (done || lia)|done| |by right|by right].
    assert (∃ i, find_metric_index r db = Ok i) as (i & ->).
    { unfold find_metric_index. rewrite decide_False; [by eexists|]. apply Nat.lt_nge, distance_to_lt.
      unfold get_keys. apply list_elem_of_fmap. exists r. split; [done|]. apply list_elem_of_filter.
      split; [|done]. by rewrite !bool_decide_eq_true_2. }
    cbn [mbind result_bind]. repeat case_decide; left; by eexists.
  - destruct (url_linkable db (S n) c (m_temporary_uuid r) path Hp Hl) as [?|[?|[_ ?]]];
      [destruct c; cbn; lia|done|by left|by right|done].
Qed.

(** [get_component_url] of a resource of the model gives a URL or NotFound. *)
Lemma url_of_present db c r :
  (∀ c, plain (db c)) → links_ok db → r ∈ m_manager_data (db c) →
  (∃ url, get_component_url c (m_temporary_uuid r) db = Ok url) ∨
  get_component_url c (m_temporary_uuid r) db = Throw not_found.
Proof. intros Hp Hl Hr. apply (url_rec_present db c r 7 Routes.ROOT_PATH Hp Hl Hr). lia. Qed.

(** ** Descendants *)

Definition holds db (c : Component.t) r : Prop := r ∈ m_manager_data (db c).

(** [v] is [u] or a descendant of it. *)
Inductive below db (u : uuid) : uuid → Prop :=
  | below_refl : below db u u
  | below_step c r : holds db c r → below db u (m_parent_uuid r) → below db u (m_temporary_uuid r).

(** What is left of [db] when everything below [ks] is taken away. *)
Definition pruned (ks : list uuid) db db' : Prop :=
  ∀ c r, holds db' c r ↔ holds db c r ∧ ∀ k, k ∈ ks → ¬ below db k (m_temporary_uuid r).

Lemma below_trans db a b c : below db a b → below db b c → below db a c.
Proof. intros Hab. induction 1 as [|x r Hr _ IH]; [done|]. by eapply below_step. Qed.

Lemma below_mono db db' a b : (∀ c r, holds db' c r → holds db c r) → below db' a b → below db a b.
Proof. intros Hs. induction 1 as [|x r Hr _ IH]; [constructor|]. eapply below_step; eauto. Qed.

Lemma below_pruned ks db db' a c r :
  pruned ks db db' → holds db' c r → below db a (m_temporary_uuid r) → below db' a (m_temporary_uuid r).
Proof.
  intros Hp Hr Hb. apply Hp in Hr as [_ Hr]. revert Hr. generalize dependent (m_temporary_uuid r). clear r c.
  intros v Hb. induction Hb as [|c r Hr Hb IH]; intros Hv; [constructor|].
  eapply below_step; [apply Hp; split; [exact Hr|done]|]. apply IH. intros k Hk Hbk. apply (Hv k Hk).
  by eapply below_step.
Qed.

Lemma pruned_nil db : pruned [] db db.
Proof. intros c r. split; [|by intros []]. intros Hr. split; [done|]. by intros k ?%elem_of_nil. Qed.

Lemma pruned_app ks ks' db db1 db2 :
  pruned ks db db1 → pruned ks' db1 db2 → pruned (ks ++ ks') db db2.
Proof.
  intros H1 H2 c r. rewrite (H2 c r). split.
  - intros [Hr Hk']. pose proof Hr as Hr1. apply H1 in Hr as [Hr Hk]. split; [done|].
    intros k [Hin|Hin]%elem_of_app; [by apply Hk|]. intros Hb. apply (Hk' k Hin). by eapply below_pruned.
  - intros [Hr Hk]. assert (holds db1 c r) as Hr1.
    { apply H1. split; [done|]. intros k Hin. apply Hk, elem_of_app. by left. }
    split; [done|]. intros k Hin Hb. apply (Hk k); [apply elem_of_app; by right|].
    eapply below_mono; [|exact Hb]. intros c' r' H'. by apply H1 in H' as [? _].
Qed.

(** A parent of what is left is left. *)
Lemma pruned_parent ks db db' c r p rp :
  pruned ks db db' → holds db' c r → holds db p rp → m_temporary_uuid rp = m_parent_uuid r → holds db' p rp.
Proof.
  intros Hpr Hr Hp E. apply Hpr in Hr as [Hr Hk]. apply Hpr. split; [done|]. intros k Hin Hb.
  apply (Hk k Hin). eapply below_step; [exact Hr|]. by rewrite <- E.
Qed.

Lemma links_ok_pruned ks db db' : pruned ks db db' → links_ok db → links_ok db'.
Proof.
  intros Hp Hl c r Hr. destruct (Hl c r) as [Hl1 Hl2]; [by apply Hp in Hr as [? _]|]. split; [|done].
  intros Hc. destruct (Hl1 Hc) as ((p & Hpp & E) & Hd & Hz). split; [|done].
  exists p. split; [|done]. by eapply (pruned_parent ks db db' c r).
Qed.

(** The children of [u], and what is below them, are all that is below it. *)
Lemma below_children db u v :
  below db u v → v = u ∨ ∃ c r, holds db c r ∧ m_parent_uuid r = u ∧ below db (m_temporary_uuid r) v.
Proof.
  induction 1 as [|c r Hr Hb [IH|(c' & r' & Hr' & Hp' & IH)]]; [by left|right..].
  - exists c, r. split_and!; [done|done|constructor].
  - exists c', r'. split_and!; [done|done|]. by eapply below_step.
Qed.

End links.

(** ** Forests *)

Section forest.
Context {J : Type} `{EqDecision J} `{Hmet : !MetricFields J} `{!ModelFields J}.
Context {Env Raw Ids : Type} `{Hsrv : !Service J Env Raw Ids}.
Implicit Types (w : @World J Env Ids) (r x : @Resource J).

(** [purge] of the id policies does not throw. *)
Definition purge_returns : Prop :=
  ∀ c u p i, ∃ i', policy_purge c u p i = (Ok tt, i').

Abbreviation has w := (holds (tables w)).

(** The resources form a forest: a uuid is in one table only; the children of a
    resource that is not [busy] (its children are not being read now) are of kinds
    that its handler has learned and that have handlers; [height] decreases from
    parents to children. *)
Record forest_but (busy : list uuid) (height : uuid → nat) w : Prop := {
  forest_typed : typed w;
  forest_links : links_ok (tables w);
  forest_global : ∀ c c' r r', has w c r → has w c' r' → m_temporary_uuid r = m_temporary_uuid r' → c = c';
  forest_known : ∀ c r p rp, has w c r → has w p rp → m_temporary_uuid rp = m_parent_uuid r →
    m_parent_uuid r ∉ busy → c ∈ m_sub_components w p;
  forest_handlers : ∀ p c, c ∈ m_sub_components w p → c ∈ component_handlers ∧ get_component c = c;
  forest_height : ∀ c r p rp, has w c r → has w p rp → m_temporary_uuid rp = m_parent_uuid r →
    height (m_temporary_uuid r) < height (m_temporary_uuid rp);
}.

#[global] Arguments forest_typed {_} _ _ _.
#[global] Arguments forest_links {_} _ _ _.
#[global] Arguments forest_global {_} _ _ _.
#[global] Arguments forest_known {_} _ _ _.
#[global] Arguments forest_handlers {_} _ _ _.
#[global] Arguments forest_height {_} _ _ _.

(** No resource is busy. *)
Abbreviation forest := (forest_but []).

(** What a removal leaves alone. *)
Record framed w w' : Prop := {
  framed_subs : m_sub_components w' = m_sub_components w;
  framed_env : env w' = env w;
  framed_observed : m_connection_error_observed_at w' = m_connection_error_observed_at w;
  framed_registered : registered w' = registered w;
  framed_notified : notified w' = notified w;
  framed_mode : mode (ctx w') = mode (ctx w);
  framed_stack : stack (ctx w') = stack (ctx w);
  framed_epoch c : m_current_epoch (tables w' c) = m_current_epoch (tables w c);
}.

#[global] Instance framed_refl : Reflexive framed.
Proof. by split. Qed.
#[global] Instance framed_trans : Transitive framed.
Proof. intros w1 w2 w3 [] []. split; [congruence..|]. intros c. congruence. Qed.

Lemma forest_pruned {busy} height ks w w' :
  forest_but busy height w → typed w' → pruned ks (tables w) (tables w') → m_sub_components w' = m_sub_components w →
  forest_but busy height w'.
Proof.
  intros [Ht Hl Hg Hk Hh Hhe] Ht' Hp Hs.
  assert (∀ c r, has w' c r → has w c r) as Hsub by (intros c r Hr; by apply Hp in Hr as [? _]).
  split; [done|by eapply links_ok_pruned|..]; rewrite ?Hs; eauto.
Qed.

Lemma height_below {busy} height w k c rk v :
  forest_but busy height w → has w c rk → m_temporary_uuid rk = k → below (tables w) k v →
  height v ≤ height k ∧ ∃ c' r, has w c' r ∧ m_temporary_uuid r = v.
Proof.
  intros Hf Hk E. induction 1 as [|c' r Hr _ (IH & p & rp & Hp & Ep)]; [split; [done|by eauto]|].
  pose proof (forest_height _ _ Hf _ _ _ _ Hr Hp Ep) as Hlt. rewrite Ep in Hlt. split; [lia|by eauto].
Qed.

(** A sibling is not below its sibling, nor a parent below its child. *)
Lemma not_below_sibling {busy} height w u cu ru c r c' r' :
  forest_but busy height w → has w cu ru → m_temporary_uuid ru = u →
  has w c r → m_parent_uuid r = u → has w c' r' → m_parent_uuid r' = u →
  m_temporary_uuid r' ≠ m_temporary_uuid r → ¬ below (tables w) (m_temporary_uuid r) (m_temporary_uuid r').
Proof.
  intros Hf Hu Eu Hr Er Hr' Er' Hne Hb. remember (m_temporary_uuid r') as v eqn:Ev.
  destruct Hb as [|c'' r'' Hr'' Hb]; [done|].
  assert (c'' = c') as -> by (by eapply (forest_global _ _ Hf)).
  assert (r'' = r') as -> by (eapply plain_unique; [apply (forest_typed _ _ Hf c')|done..]).
  rewrite Er' in Hb. destruct (height_below _ _ _ _ _ _ Hf Hr eq_refl Hb) as [Hle _].
  assert (m_temporary_uuid ru = m_parent_uuid r) as E by congruence.
  pose proof (forest_height _ _ Hf _ _ _ _ Hr Hu E) as Hlt. rewrite Eu in Hlt. lia.
Qed.

Lemma not_below_child {busy} height w u cu ru c r :
  forest_but busy height w → has w cu ru → m_temporary_uuid ru = u → has w c r → m_parent_uuid r = u →
  ¬ below (tables w) (m_temporary_uuid r) u.
Proof.
  intros Hf Hu Eu Hr Er Hb. destruct (height_below _ _ _ _ _ _ Hf Hr eq_refl Hb) as [Hle _].
  assert (m_temporary_uuid ru = m_parent_uuid r) as E by congruence.
  pose proof (forest_height _ _ Hf _ _ _ _ Hr Hu E) as Hlt. rewrite Eu in Hlt. lia.
Qed.

Lemma elem_of_children w u c k :
  typed w → k ∈ get_keys_of u (λ _, true) (tables w c) ↔
  ∃ r, has w c r ∧ m_parent_uuid r = u ∧ m_temporary_uuid r = k.
Proof.
  intros Ht. destruct (Ht c) as [Hb _]. rewrite list.Forall_forall in Hb.
  unfold get_keys_of, get_keys. rewrite list_elem_of_fmap. split.
  - intros (r & -> & [Hf Hr]%list_elem_of_filter). apply andb_true_iff in Hf as [E%bool_decide_eq_true _].
    exists r. split_and!; [done|done|]. by rewrite get_uuid_plain by auto.
  - intros (r & Hr & E & Ek). exists r. split; [by rewrite get_uuid_plain by auto|].
    apply list_elem_of_filter. split; [|done]. by rewrite bool_decide_eq_true_2.
Qed.

Lemma children_NoDup w u f c : typed w → NoDup (get_keys_of u f (tables w c)).
Proof.
  intros Ht. destruct (Ht c) as [Hb Hd]. unfold get_keys_of, get_keys.
  eapply sublist_NoDup; [exact Hd|].
  assert (get_uuid <$> filter (λ r, bool_decide (u = m_parent_uuid r) && f r = true) (m_manager_data (tables w c)) =
    m_temporary_uuid <$> filter (λ r, bool_decide (u = m_parent_uuid r) && f r = true) (m_manager_data (tables w c)))
    as ->.
  { apply list_fmap_ext. intros i r Hr%list_elem_of_lookup_2. apply list_elem_of_filter in Hr as [_ Hr].
    rewrite list.Forall_forall in Hb. apply get_uuid_plain. auto. }
  apply fmap_sublist, sublist_filter.
Qed.

(** ** One resource *)

Lemma add_event_present c t r w :
  typed w → links_ok (tables w) → has w c r →
  ∃ w', add_event c t (m_temporary_uuid r) w = (Ok tt, w') ∧ tables w' = tables w ∧ framed w w' ∧
    ids w' = ids w ∧ relations w' = relations w.
Proof.
  intros Ht Hl Hr. unfold add_event, mbind, M_bind, get.
  destruct (url_of_present _ _ _ Ht Hl Hr) as [[url ->]| ->]; eexists; (split; [done|]); by split_and!.
Qed.

Lemma remove_single_present h r w :
  purge_returns → typed w → links_ok (tables w) → get_component h = h → model_of h = h → has w h r →
  ∃ w', remove_single h (m_temporary_uuid r) w = (Ok tt, w') ∧ framed w w' ∧
    ∀ c x, has w' c x ↔ has w c x ∧ (c = h → m_temporary_uuid x ≠ m_temporary_uuid r).
Proof.
  intros Hpu Ht Hl Hc Hm Hr. unfold remove_single. rewrite Hc, Hm.
  destruct (add_event_present h Eventing.ResourceRemoved r w Ht Hl Hr) as (w1 & E1 & Et & Hf & _).
  rewrite (bind_run _ _ _ _ _ E1). unfold mbind at 1, M_bind, get. rewrite Et.
  pose proof (proj2 (plain_get_entry _ _ r (Ht h)) (conj Hr eq_refl)) as Eg.
  unfold mbind at 1, M_bind, lift at 1. rewrite Eg.
  destruct (rest_id_known _ (m_temporary_uuid r) (Ht h)) as (id & Eid); [by exists r|].
  unfold mbind at 1, M_bind, lift. rewrite Eid.
  destruct (plain_remove (m_temporary_uuid r) _ (Ht h)) as (s' & Es & _ & Hep & Hin).
  set (w2 := set_tables (update_at h s' (tables w1)) w1).
  assert (on_table h (remove_entry (m_temporary_uuid r) (λ _, Ok tt)) w1 = (Ok tt, w2)) as E2.
  { unfold w2, on_table, zoom. by rewrite Hm, Et, Es. }
  rewrite (bind_run _ _ _ _ _ E2). destruct (Hpu h (m_temporary_uuid r) (m_parent_uuid r) (ids w2)) as (i' & Ei).
  unfold on_ids, zoom. rewrite Ei. eexists. split; [done|]. split.
  - etrans; [exact Hf|]. split; try done. intros c. cbn. unfold update_at. case_decide; [|done].
    subst c. by rewrite Hep, Et.
  - intros c x. unfold holds. cbn [tables set_ids w2 set_tables]. unfold update_at. rewrite Et.
    case_decide as Ec; [subst c; rewrite Hin; tauto|tauto].
Qed.

(** ** Subtrees *)

Section subtree.
Context {busy : list uuid}.
Variable height : uuid → nat.
Hypothesis Hpurge : purge_returns.

Definition removes (ks : list uuid) w w' : Prop :=
  framed w w' ∧ pruned ks (tables w) (tables w') ∧ forest_but busy height w'.

(** Nothing below a resource is busy. *)
Definition idle w (u : uuid) : Prop := ∀ v, below (tables w) u v → v ∉ busy.

Lemma idle_mono w w' u : (∀ c r, has w' c r → has w c r) → idle w u → idle w' u.
Proof using Type. intros Hs Hi v Hv. apply Hi. by eapply below_mono. Qed.

(** A handler that is its own model's. *)
Definition proper (h : Component.t) : Prop := get_component h = h ∧ model_of h = h.

Lemma removes_app ks ks' w w1 w2 : removes ks w w1 → removes ks' w1 w2 → removes (ks ++ ks') w w2.
Proof using Type.
  intros (F1 & P1 & _) (F2 & P2 & H2). split_and!; [by etrans|by eapply pruned_app|done].
Qed.

Section loops.
(** An action that removes a subtree, on resources below a given height. *)
Variable fuel : nat.
Variable act : Component.t → uuid → M (@World J Env Ids) unit.
Hypothesis IH : ∀ h r w, forest_but busy height w → height (m_temporary_uuid r) < fuel → proper h → has w h r →
  idle w (m_temporary_uuid r) →
  ∃ w', act h (m_temporary_uuid r) w = (Ok tt, w') ∧ removes [m_temporary_uuid r] w w'.

(** Resources of one kind, none below another. *)
Lemma remove_list ks sub w :
  forest_but busy height w → proper sub → NoDup ks →
  (∀ k, k ∈ ks → height k < fuel ∧ idle w k ∧ ∃ r, has w sub r ∧ m_temporary_uuid r = k) →
  (∀ k k', k ∈ ks → k' ∈ ks → k ≠ k' → ¬ below (tables w) k k') →
  ∃ w', for_each ks (act sub) w = (Ok tt, w') ∧ removes ks w w'.
Proof using All.
  intros Hf Hs Hd. revert w Hf. induction Hd as [|k ks Hk Hd IHks]; intros w Hf Hks Hapart.
  - exists w. split; [done|]. split_and!; [done|apply pruned_nil|done].
  - destruct (Hks k) as (Hh & Hid & r & Hr & <-); [apply list_elem_of_here|].
    destruct (IH sub r w Hf Hh Hs Hr Hid) as (w1 & E1 & F1 & P1 & Hf1).
    assert (∀ k', k' ∈ ks → ¬ below (tables w) (m_temporary_uuid r) k') as Hnb.
    { intros k' Hk'. apply Hapart; [apply list_elem_of_here|by apply list_elem_of_further|]. intros <-. done. }
    destruct (IHks w1 Hf1) as (w2 & E2 & R2).
    + intros k' Hk'. destruct (Hks k') as (Hh' & Hid' & r' & Hr' & Ek'); [by apply list_elem_of_further|].
      split_and!; [done|eapply idle_mono; [|exact Hid']; intros c x Hx; by apply P1 in Hx as [? _]|]. exists r'. split; [|done]. apply P1. split; [done|].
      intros k ->%list_elem_of_singleton. rewrite Ek'. by apply Hnb.
    + intros k1 k2 H1 H2 Hne Hb. apply (Hapart k1 k2); [by apply list_elem_of_further..|done|].
      eapply below_mono; [|exact Hb]. intros c x Hx. by apply P1 in Hx as [? _].
    + exists w2. split; [cbn [for_each]; by rewrite (bind_run _ _ _ _ _ E1)|].
      by apply (removes_app [m_temporary_uuid r] ks w w1 w2).
Qed.

Lemma remove_keys ks sub u cu ru w :
  forest_but busy height w → proper sub → has w cu ru → m_temporary_uuid ru = u → NoDup ks → height u ≤ fuel → idle w u →
  (∀ k, k ∈ ks → ∃ r, has w sub r ∧ m_parent_uuid r = u ∧ m_temporary_uuid r = k) →
  ∃ w', for_each ks (act sub) w = (Ok tt, w') ∧ removes ks w w'.
Proof using All.
  intros Hf Hs Hu Eu Hd Hh Hid Hks. apply remove_list; [done..| |].
  - intros k (r & Hr & Er & <-)%Hks. split_and!; [| |by exists r].
    2: { intros v Hv. apply Hid. eapply below_trans; [|exact Hv]. eapply below_step; [exact Hr|]. rewrite Er. constructor. }
    assert (m_temporary_uuid ru = m_parent_uuid r) as E by congruence.
    pose proof (forest_height _ _ Hf _ _ _ _ Hr Hu E) as Hlt. rewrite Eu in Hlt. lia.
  - intros k k' (r & Hr & Er & <-)%Hks (r' & Hr' & Er' & <-)%Hks Hne.
    apply (not_below_sibling (busy := busy) height w u cu ru sub r sub r'); done.
Qed.

Lemma remove_kinds cs u cu ru w :
  forest_but busy height w → has w cu ru → m_temporary_uuid ru = u → height u ≤ fuel → idle w u →
  (∀ c, c ∈ cs → c ∈ component_handlers ∧ get_component c = c) →
  ∃ w' ks, for_each cs (λ component,
      sub ← lift (get_handler component);
      w' ← get;
      for_each (get_keys_of u (λ _, true) (tables w' (model_of sub))) (act sub)) w = (Ok tt, w') ∧
    removes ks w w' ∧ has w' cu ru ∧
    (∀ k, k ∈ ks → ∃ c r, has w c r ∧ m_parent_uuid r = u ∧ m_temporary_uuid r = k) ∧
    (∀ c r, c ∈ cs → has w' c r → m_parent_uuid r ≠ u).
Proof using All.
  intros Hf Hu Eu Hh Hid Hcs. revert w Hf Hu Hid. induction cs as [|c cs IHcs]; intros w Hf Hu Hid.
  - exists w, []. split; [done|]. split_and!; [split_and!; [done|apply pruned_nil|done]|done|..].
    + by intros k ?%elem_of_nil.
    + by intros c r ?%elem_of_nil.
  - destruct (Hcs c (list_elem_of_here _ _)) as [Hc1 Hc2].
    assert (model_of c = c) as Hm by (by destruct c).
    pose proof (forest_typed _ _ Hf) as Ht. set (ks := get_keys_of u (λ _, true) (tables w c)).
    destruct (remove_keys ks c u cu ru w Hf (conj Hc2 Hm) Hu Eu (children_NoDup w u _ c Ht) Hh Hid) as (w1 & E1 & R1).
    { intros k Hk. by apply elem_of_children. }
    destruct R1 as (F1 & P1 & Hf1).
    assert (has w1 cu ru) as Hu1.
    { apply P1. split; [done|]. intros k (r & Hr & Er & <-)%elem_of_children; [|done]. rewrite Eu.
      by apply (not_below_child (busy := busy) height w u cu ru c r). }
    assert (idle w1 u) as Hid1 by (eapply idle_mono; [|exact Hid]; intros c' x Hx; by apply P1 in Hx as [? _]).
    destruct (IHcs (λ c' H', Hcs c' (list_elem_of_further _ _ _ H')) w1 Hf1 Hu1 Hid1) as (w2 & ks2 & E2 & R2 & Hu2 & Hks & Hno).
    exists w2, (ks ++ ks2)%list. split_and!.
    + cbn [for_each].
      assert ((sub ← lift (get_handler c); w' ← get;
        for_each (get_keys_of u (λ _, true) (tables w' (model_of sub))) (act sub)) w = (Ok tt, w1)) as E.
      { unfold mbind, M_bind, lift, get, get_handler. rewrite decide_True by done. by rewrite Hm. }
      by rewrite (bind_run _ _ _ _ _ E).
    + by apply (removes_app ks ks2 w w1 w2).
    + done.
    + intros k [Hk|Hk]%elem_of_app; [apply elem_of_children in Hk as (r & ?); [by exists c, r|done]|].
      destruct (Hks k Hk) as (c' & r & Hr & ?). exists c', r. split; [|done]. by apply P1 in Hr as [? _].
    + intros c' r [->|Hin]%list.elem_of_cons Hr; [|by eapply Hno]. intros Er.
      destruct R2 as (_ & P2 & _). apply P2 in Hr as [Hr _]. apply P1 in Hr as [Hr Hk].
      apply (Hk (m_temporary_uuid r)); [|constructor]. apply elem_of_children; [done|]. by exists r.
Qed.

End loops.

Lemma do_remove_within_subtree fuel h r w :
  forest_but busy height w → height (m_temporary_uuid r) < fuel → proper h → has w h r → idle w (m_temporary_uuid r) →
  ∃ w', do_remove_within fuel h (m_temporary_uuid r) w = (Ok tt, w') ∧ removes [m_temporary_uuid r] w w'.
Proof using All.
  revert h r w. induction fuel as [|fuel IH]; intros h r w Hf Hh [Hc Hm] Hr Hid; [lia|].
  pose proof (do_remove_within_typed (S fuel) h (m_temporary_uuid r) w (forest_typed _ _ Hf)) as Ht'.
  cbn [do_remove_within] in *. set (u := m_temporary_uuid r) in *.
  set (w0 := set_relations (λ rel, unbind h (get_parent_component (ctx w)) u rel (relations w rel)) w).
  assert (forest_but busy height w0) as Hf0 by (by destruct Hf; split).
  assert (modify (λ w, set_relations (λ rel, unbind h (get_parent_component (ctx w)) u rel (relations w rel)) w) w
    = (Ok tt, w0)) as E0 by done.
  rewrite (bind_run _ _ _ _ _ E0), (bind_run get _ w0 w0 w0 eq_refl) in Ht' |- *.
  destruct (remove_kinds fuel (do_remove_within fuel) IH (m_sub_components w0 h) u h r w0 Hf0 Hr eq_refl ltac:(lia) Hid) as
    (w2 & ks & E2 & (F2 & P2 & Hf2) & Hr2 & Hks & Hno).
  { intros c. by apply (forest_handlers _ _ Hf0). }
  rewrite (bind_run _ _ _ _ _ E2) in Ht' |- *.
  destruct (remove_single_present h r w2 Hpurge (forest_typed _ _ Hf2) (forest_links _ _ Hf2) Hc Hm Hr2)
    as (w3 & E3 & F3 & H3).
  fold u in E3, H3. rewrite E3 in Ht' |- *. exists w3. split; [done|].
  assert (framed w w3) as F by (etrans; [|etrans; [exact F2|exact F3]]; by split).
  assert (pruned [u] (tables w) (tables w3)) as P.
  { intros c x. rewrite (H3 c x). split.
    - intros [Hx Hne]. pose proof Hx as Hx2. apply P2 in Hx as [Hx _]. split; [done|].
      intros k ->%list_elem_of_singleton Hb.
      apply (below_pruned ks (tables w0) (tables w2) u c x P2 Hx2) in Hb.
      apply below_children in Hb as [E|(c' & r' & Hr' & Er' & _)].
      + apply Hne; [|done]. by eapply (forest_global _ _ Hf).
      + apply (Hno c' r'); [|done|done]. rewrite <- (framed_subs _ _ F2).
        eapply (forest_known _ _ Hf2 c' r' h r); [done|done|by rewrite Er'|].
        rewrite Er'. apply Hid. constructor.
    - intros [Hx Hk]. specialize (Hk u). split.
      + apply P2. split; [done|]. intros k Hin Hb. destruct (Hks k Hin) as (c' & r' & Hr' & Er' & <-).
        apply Hk; [by apply list_elem_of_singleton|]. eapply below_trans; [|exact Hb].
        eapply below_step; [exact Hr'|]. rewrite Er'. constructor.
      + intros -> E. apply Hk; [by apply list_elem_of_singleton|]. rewrite E. constructor. }
  split_and!; [done|done|]. eapply forest_pruned; [exact Hf|exact Ht'|exact P|apply F].
Qed.

End subtree.

Lemma idle_nobody w u : idle (busy := []) w u.
Proof. intros v _. apply not_elem_of_nil. Qed.

(** C5: removal of a subtree.  In a forest of resources that the handlers know,
    do_remove of a resource returns and removes exactly the resource and its
    descendants, in all tables; what is left is again such a forest, and nothing
    else of the service changes but the relations, the identifiers and the
    collected events. *)
Theorem do_remove_removes_subtree height h r w :
  purge_returns → forest height w → height (m_temporary_uuid r) < max_depth → proper h → holds (tables w) h r →
  ∃ w', do_remove h (m_temporary_uuid r) w = (Ok tt, w') ∧ forest height w' ∧ framed w w' ∧
    ∀ c x, holds (tables w') c x ↔ holds (tables w) c x ∧ ¬ below (tables w) (m_temporary_uuid r) (m_temporary_uuid x).
Proof.
  intros Hpu Hf Hh Hp Hr.
  destruct (do_remove_within_subtree height Hpu max_depth h r w Hf Hh Hp Hr (idle_nobody w _)) as (w' & E & F & P & Hf').
  exists w'. split_and!; [done|done|done|]. intros c x. rewrite (P c x). split; intros [Hx Hk]; (split; [done|]).
  - apply Hk. by apply list_elem_of_singleton.
  - by intros k ->%list_elem_of_singleton.
Qed.

(** ** The data of an agent *)

(** No resource of the agent is below another one of its kind. *)
Definition not_nested (g : string) w : Prop :=
  ∀ c r r', has w c r → has w c r' → m_agent_id r = g → m_agent_id r' = g →
    below (tables w) (m_temporary_uuid r) (m_temporary_uuid r') → r = r'.

Lemma not_nested_pruned g ks w w' : pruned ks (tables w) (tables w') → not_nested g w → not_nested g w'.
Proof.
  intros Hp Hn c r r' Hr Hr' Ea Ea' Hb. assert (∀ c r, has w' c r → has w c r) as Hs by (intros ?? Hx; by apply Hp in Hx as [? _]).
  eapply Hn; eauto. by eapply below_mono.
Qed.

Lemma elem_of_agent_keys w c g k :
  typed w → k ∈ get_keys (λ r, bool_decide (m_agent_id r = g)) (tables w c) ↔
  ∃ r, has w c r ∧ m_agent_id r = g ∧ m_temporary_uuid r = k.
Proof.
  intros Ht. destruct (Ht c) as [Hb _]. rewrite list.Forall_forall in Hb. unfold get_keys.
  rewrite list_elem_of_fmap. split.
  - intros (r & -> & [E%bool_decide_eq_true Hr]%list_elem_of_filter). exists r. split_and!; [done|done|].
    by rewrite get_uuid_plain by auto.
  - intros (r & Hr & E & Ek). exists r. split; [by rewrite get_uuid_plain by auto|].
    apply list_elem_of_filter. by rewrite bool_decide_eq_true_2.
Qed.

Lemma agent_keys_NoDup w c g : typed w → NoDup (get_keys (λ r, bool_decide (m_agent_id r = g)) (tables w c)).
Proof.
  intros Ht. destruct (Ht c) as [Hb Hd]. unfold get_keys. eapply sublist_NoDup; [exact Hd|].
  assert (get_uuid <$> filter (λ r, bool_decide (m_agent_id r = g) = true) (m_manager_data (tables w c)) =
    m_temporary_uuid <$> filter (λ r, bool_decide (m_agent_id r = g) = true) (m_manager_data (tables w c))) as ->.
  { apply list_fmap_ext. intros i r Hr%list_elem_of_lookup_2. apply list_elem_of_filter in Hr as [_ Hr].
    rewrite list.Forall_forall in Hb. apply get_uuid_plain. auto. }
  apply fmap_sublist, sublist_filter.
Qed.

Section agent.
Variable height : uuid → nat.
Hypothesis Hpurge : purge_returns.
Variable g : string.

(** What one handler, or several, have done for the agent's data. *)
Definition cleaned (cs : list Component.t) w w' : Prop :=
  ∃ ks, removes (busy := []) height ks w w' ∧ (∀ k, k ∈ ks → ∃ c r, has w c r ∧ m_agent_id r = g ∧ m_temporary_uuid r = k) ∧
    ∀ c r, c ∈ cs → has w' c r → m_agent_id r ≠ g.

Lemma base_remove_agent_data_run h w :
  forest height w → not_nested g w → (∀ r, has w (model_of h) r → proper h ∧ height (m_temporary_uuid r) < max_depth) →
  ∃ w', base_remove_agent_data h g w = (Ok tt, w') ∧ cleaned [model_of h] w w'.
Proof using All.
  intros Hf Hn Hh. unfold base_remove_agent_data, mbind, M_bind, get.
  pose proof (forest_typed _ _ Hf) as Ht.
  set (ks := get_keys _ _). destruct (decide (m_manager_data (tables w (model_of h)) = [])) as [Hnil|Hne].
  - assert (ks = []) as -> by (unfold ks, get_keys; by rewrite Hnil). exists w. split; [done|].
    exists []. split_and!; [split_and!; [done|apply pruned_nil|done]|by intros k ?%elem_of_nil|].
    intros c r ->%list_elem_of_singleton Hr. unfold holds in Hr. rewrite Hnil in Hr. by apply elem_of_nil in Hr.
  - destruct (m_manager_data (tables w (model_of h))) as [|r0 l0] eqn:E0; [done|].
    destruct (Hh r0) as [[Hc Hm] _]; [unfold holds; rewrite E0; apply list_elem_of_here|].
    destruct (remove_list height Hpurge max_depth (do_remove_within max_depth)
      (do_remove_within_subtree height Hpurge max_depth) ks h w Hf (conj Hc Hm)) as (w' & E & F & P & Hf').
    + by apply agent_keys_NoDup.
    + intros k (r & Hr & Ea & <-)%elem_of_agent_keys; [|done]. destruct (Hh r Hr) as [_ Hlt].
      split_and!; [done|apply idle_nobody|]. exists r. split; [|done]. by rewrite <- Hm.
    + intros k k' (r & Hr & Ea & <-)%elem_of_agent_keys (r' & Hr' & Ea' & <-)%elem_of_agent_keys Hne' Hb; [|done..].
      apply Hne'. by rewrite (Hn _ r r' Hr Hr' Ea Ea' Hb).
    + exists w'. split; [exact E|]. exists ks. split_and!; [by split_and!| |].
      * intros k (r & Hr & Ea & Ek)%elem_of_agent_keys; [|done]. by exists (model_of h), r.
      * intros c r ->%list_elem_of_singleton Hr Ea. apply P in Hr as [Hr Hk].
        apply (Hk (m_temporary_uuid r)); [|constructor]. apply elem_of_agent_keys; [done|]. by exists r.
Qed.

Lemma set_relations_removes f w : forest height w → removes (busy := []) height [] w (set_relations f w).
Proof using Type. intros []. split_and!; [by split|apply pruned_nil|by split]. Qed.

Lemma cleaned_trans cs cs' w w1 w2 : cleaned cs w w1 → cleaned cs' w1 w2 → cleaned (cs ++ cs') w w2.
Proof using Type.
  intros (ks & R1 & K1 & N1) (ks' & R2 & K2 & N2). exists (ks ++ ks')%list. split_and!.
  - by eapply removes_app.
  - intros k [Hk|Hk]%elem_of_app; [by apply K1|]. destruct (K2 k Hk) as (c & r & Hr & ?). exists c, r.
    split; [|done]. destruct R1 as (_ & P1 & _). by apply P1 in Hr as [? _].
  - intros c r [Hc|Hc]%elem_of_app Hr; [|by eapply N2]. apply (N1 c r Hc).
    destruct R2 as (_ & P2 & _). by apply P2 in Hr as [? _].
Qed.

Lemma cleaned_relations h w : forest height w →
  ∃ w', clean_relations h g w = (Ok tt, w') ∧ cleaned [] w w'.
Proof using Type.
  intros Hf. eexists. split; [done|]. exists []. split_and!; [by apply set_relations_removes|..].
  - by intros k ?%elem_of_nil.
  - by intros c r ?%elem_of_nil.
Qed.

Lemma cleaned_keeps cs w w' : cleaned cs w w' → not_nested g w →
  forest height w' ∧ not_nested g w' ∧ (∀ c r, has w' c r → has w c r).
Proof using Type.
  intros (ks & (_ & P & Hf) & _) Hn. split_and!; [done|by eapply not_nested_pruned|].
  intros c r Hr. by apply P in Hr as [? _].
Qed.

Lemma remove_agent_data_run h w :
  forest height w → not_nested g w → (∀ r, has w (model_of h) r → proper h ∧ height (m_temporary_uuid r) < max_depth) →
  ∃ w', remove_agent_data h g w = (Ok tt, w') ∧ cleaned [model_of h] w w'.
Proof using All.
  intros Hf Hn Hh. unfold remove_agent_data. destruct (cleans_first h).
  - destruct (cleaned_relations h w Hf) as (w1 & E1 & C1). destruct (cleaned_keeps _ _ _ C1 Hn) as (Hf1 & Hn1 & Hs1).
    destruct (base_remove_agent_data_run h w1 Hf1 Hn1) as (w2 & E2 & C2); [by eauto|].
    exists w2. split; [by rewrite (bind_run _ _ _ _ _ E1)|]. by apply (cleaned_trans [] [model_of h] w w1 w2).
  - destruct (base_remove_agent_data_run h w Hf Hn Hh) as (w1 & E1 & C1).
    destruct (cleaned_keeps _ _ _ C1 Hn) as (Hf1 & _).
    destruct (cleaned_relations h w1 Hf1) as (w2 & E2 & C2).
    exists w2. split; [by rewrite (bind_run _ _ _ _ _ E1)|]. by apply (cleaned_trans [model_of h] [] w w1 w2).
Qed.

Lemma remove_agent_data_all hs w :
  forest height w → not_nested g w →
  (∀ h r, h ∈ hs → has w (model_of h) r → proper h ∧ height (m_temporary_uuid r) < max_depth) →
  ∃ w', for_each hs (λ h, remove_agent_data h g) w = (Ok tt, w') ∧ cleaned (model_of <$> hs) w w'.
Proof using All.
  revert w. induction hs as [|h hs IH]; intros w Hf Hn Hh.
  - exists w. split; [done|]. exists []. split_and!; [split_and!; [done|apply pruned_nil|done]|..].
    + by intros k ?%elem_of_nil.
    + by intros c r ?%elem_of_nil.
  - destruct (remove_agent_data_run h w Hf Hn) as (w1 & E1 & C1).
    { intros r. apply Hh, list_elem_of_here. }
    destruct (cleaned_keeps _ _ _ C1 Hn) as (Hf1 & Hn1 & Hs1).
    destruct (IH w1 Hf1 Hn1) as (w2 & E2 & C2).
    { intros h' r Hin Hr. eapply Hh; [by apply list_elem_of_further|by apply Hs1]. }
    exists w2. split; [cbn [for_each]; by rewrite (bind_run _ _ _ _ _ E1)|].
    exact (cleaned_trans [model_of h] (model_of <$> hs) w w1 w2 C1 C2).
Qed.

End agent.

(** C19: the data of a lost agent. The tables are a forest that the handlers know: every
    resource is of a kind with a proper handler in the order of removal, not deeper than
    the handlers recurse, and none is a remote ethernet switch; no resource of the agent
    is below another one of its kind, and purging an id returns. Then the removal of the
    agent's data returns; no resource of the agent is left in any table, and every
    resource that is not below one of the agent's is left as it was. *)
Theorem agent_data_is_removed height g w :
  purge_returns → forest height w → not_nested g w →
  (∀ c r, holds (tables w) c r → c ∈ handlers_order ∧ proper c ∧ height (m_temporary_uuid r) < max_depth ∧
     c ≠ Component.RemoteEthernetSwitch) →
  ∃ w', manager_remove_agent_data g w = (Ok tt, w') ∧
    (∀ c r, holds (tables w') c r → holds (tables w) c r ∧ m_agent_id r ≠ g) ∧
    (∀ c x, holds (tables w) c x →
       (∀ c' r, holds (tables w) c' r → m_agent_id r = g →
          ¬ below (tables w) (m_temporary_uuid r) (m_temporary_uuid x)) →
       holds (tables w') c x).
Proof.
  intros Hpu Hf Hn Hall. set (c0 := context0 Mode.AGENT_DISAPPEARED []).
  assert (forest height (set_ctx c0 w)) as Hf0 by (by destruct Hf; split).
  destruct (remove_agent_data_all height Hpu g handlers_order (set_ctx c0 w) Hf0 Hn) as (w1 & E1 & ks & (F & P & Hf1) & K & N).
  { intros h r Hh Hr. destruct (Hall _ _ Hr) as (_ & _ & Hlt & Hne). split; [|done].
    destruct (Hall _ _ Hr) as (_ & Hpr & _). destruct h; try done. }
  exists (set_ctx (ctx w) (set_notified (notified w1 ++ events (ctx w1))%list w1)). split_and!.
  - unfold manager_remove_agent_data, with_context. by rewrite (bind_run _ _ _ _ _ E1).
  - intros c r Hr. cbn in Hr. pose proof Hr as Hr1. apply P in Hr as [Hr _]. split; [done|].
    destruct (Hall _ _ Hr) as (Hin & [_ Hm] & _). apply (N c); [|done].
    rewrite <- Hm. by apply list_elem_of_fmap_2.
  - intros c x Hx Hnb. cbn. apply P. split; [done|]. intros k (c' & r & Hr & Ea & <-)%K. by eapply Hnb.
Qed.

End forest.

Abbreviation forest := (forest_but []).

(** ** Two systems, one with a processor *)

#[local] Existing Instance sample_metric.
#[local] Existing Instance sample_fields.
#[local] Existing Instance sample_service.

Definition owned (g : string) (p : Component.t) (parent u : uuid) : @Resource Z :=
  mkResource [] p u "" parent None false 1 g 1 None 0%Z.

Definition two_systems : @World Z script Z :=
  sample_world (λ c,
      match c with
      | Component.System => mkManager [owned "agent" Component.Manager "m" "s1"; owned "other" Component.Manager "n" "s2"] 2
      | Component.Processor => mkManager [owned "agent" Component.System "s1" "p1"; owned "other" Component.System "s2" "p2"] 2
      | _ => mkManager [] 1
      end)
    (λ c, match c with Component.System => [Component.Processor] | _ => [] end)
    (λ _, []) None (mkScript [] 0).

Definition sample_height (u : uuid) : nat := if decide (u = "s1" ∨ u = "s2") then 1 else 0.

Lemma sample_holds c r : holds (tables two_systems) c r →
  c = Component.System ∧ (r = owned "agent" Component.Manager "m" "s1" ∨ r = owned "other" Component.Manager "n" "s2") ∨
  c = Component.Processor ∧ (r = owned "agent" Component.System "s1" "p1" ∨ r = owned "other" Component.System "s2" "p2").
Proof.
  unfold holds. destruct c; cbn; try by intros ?%elem_of_nil.
  all: rewrite !list.elem_of_cons, elem_of_nil; tauto.
Qed.

Lemma sample_forest : forest sample_height two_systems.
Proof.
  split.
  - intros c. unfold plain, plain_list. destruct c; split; apply (bool_decide_eq_true_1 _); vm_compute; reflexivity.
  - intros c r Hr. destruct (sample_holds c r Hr) as [[-> Hr']|[-> Hr']]; (split; [|done]); [done|]. intros _.
    split_and!; [|destruct Hr' as [-> | ->]; cbn; lia|intros [|]; done].
    destruct Hr' as [-> | ->].
    + exists (owned "agent" Component.Manager "m" "s1"). split; [apply list_elem_of_here|done].
    + exists (owned "other" Component.Manager "n" "s2"). split; [apply list_elem_of_further, list_elem_of_here|done].
  - intros c c' r r' Hr%sample_holds Hr'%sample_holds E.
    destruct Hr as [[-> [-> | ->]]|[-> [-> | ->]]], Hr' as [[-> [-> | ->]]|[-> [-> | ->]]]; done.
  - intros c r p rp Hr%sample_holds Hp%sample_holds E _.
    destruct Hr as [[-> [-> | ->]]|[-> [-> | ->]]], Hp as [[-> [-> | ->]]|[-> [-> | ->]]]; try done;
      apply list_elem_of_here.
  - intros p c Hc. destruct p; cbn in Hc; try by apply elem_of_nil in Hc.
    apply list_elem_of_singleton in Hc as ->. split; [|done].
    apply (bool_decide_eq_true_1 _). vm_compute. reflexivity.
  - intros c r p rp Hr%sample_holds Hp%sample_holds E.
    destruct Hr as [[-> [-> | ->]]|[-> [-> | ->]]], Hp as [[-> [-> | ->]]|[-> [-> | ->]]]; try done; vm_compute; lia.
Qed.

Lemma do_remove_removes_subtree_witness :
  ∃ w', do_remove Component.System "s1" two_systems = (Ok tt, w') ∧ forest sample_height w'.
Proof.
  destruct (do_remove_removes_subtree sample_height Component.System
    (owned "agent" Component.Manager "m" "s1") two_systems) as (w' & H1 & H2 & _).
  - intros c u p i. exists i. reflexivity.
  - exact sample_forest.
  - vm_compute. lia.
  - split; reflexivity.
  - apply list_elem_of_here.
  - exists w'. split; [exact H1|exact H2].
Defined.

Lemma agent_data_is_removed_witness :
  ∃ w', manager_remove_agent_data "agent" two_systems = (Ok tt, w') ∧
    (∀ c r, holds (tables w') c r → m_agent_id r ≠ "agent").
Proof.
  destruct (agent_data_is_removed sample_height "agent" two_systems) as (w' & H1 & H2 & _).
  - intros c u p i. exists i. reflexivity.
  - exact sample_forest.
  - intros c r r' Hr%sample_holds Hr'%sample_holds Ea Ea' _.
    destruct Hr as [[-> [-> | ->]]|[-> [-> | ->]]], Hr' as [[? [-> | ->]]|[? [-> | ->]]]; done.
  - intros c r Hr%sample_holds. destruct Hr as [[-> [-> | ->]]|[-> [-> | ->]]].
    all: split_and!; [apply (bool_decide_eq_true_1 _); vm_compute; reflexivity|split; reflexivity|vm_compute; lia|done].
  - exists w'. split; [exact H1|]. intros c r Hr. by apply H2 in Hr as [_ ?].
Defined.

End HandlerRemoval.
