(* ===== verification/HandlerSync.v ===== *)
(** Reading of an agent ([Handlers.add], [Handlers.poll]): when the agent answers
    and does not change meanwhile, a poll leaves the resource tables with exactly
    what the agent has.

    What the agent has is given by its answers ([info], [lists]) and by the place
    of every resource in its tree ([kind_of], [pkind], [parent_of]).  The proof
    follows the recursion of [add]: [progress] says what reading some siblings
    has done, [inv] is the invariant of the tables meanwhile, in which the
    resources on the path to the current one are [busy]. *)

From Stdlib Require Import ZArith Lia.
From S2P Require Import Prelude.
From S2P Require Import OrdSet.
From S2P Require Import Enums.
From S2P Require Import ManyToMany.
From S2P Require Import GenericManager.
From S2P Require Import ComponentUrl.
From S2P Require Import Eventing.
From S2P Require Import Handlers.
From S2P Require Import HandlerTables.
From S2P Require Import HandlerRemoval.

Module HandlerSync.
Import GenericManager.
Import ComponentUrl.
Import Handlers.
Import HandlerTables.
Import HandlerRemoval.

Open Scope string_scope.
Open Scope nat_scope.

Section sync.
Context {J : Type} `{EqDecision J} `{Hmet : !MetricFields J} `{Hmod : !ModelFields J}.
Context {Env Raw Ids : Type} `{Hsrv : !Service J Env Raw Ids}.
Implicit Types (w : @World J Env Ids) (r x : @Resource J) (c k : Component.t) (u v a b : uuid).

Abbreviation has w := (holds (tables w)).
Abbreviation key := m_temporary_uuid.
Abbreviation epoch w c := (m_current_epoch (tables w c)).

(** ** The agent *)

(** Its answers. *)
Variable info : uuid → @Resource J.
Variable lists : Request → list uuid.

(** Its resources: kind, kind of the parent, parent. *)
Variable node : uuid → Prop.
Variable kind_of pkind : uuid → Component.t.
Variable parent_of : uuid → uuid.

(** Measures: the height of a subtree and the number of its resources. *)
Variable height : uuid → nat.
Variable cost : uuid → Z.

(** The states of its environment. *)
Variable good : Env → Prop.

Definition is_list (req : Request) : bool :=
  match req with
  | GetCollection _ _ | GetManagersCollection | GetTasksCollection | GetMetricDefinitionsCollection
  | GetMetrics None => true
  | _ => false
  end.

Record stable_agent : Prop := {
  stable_info u e : node u → good e →
    ∃ raw e', call (GetInfo (kind_of u) u) e = (Ok raw, e') ∧ good e' ∧ entry_from_json raw = Ok (info u);
  stable_lists req e : is_list req = true → good e →
    ∃ raw e', call req e = (Ok raw, e') ∧ good e' ∧ uuids_from_json raw = Ok (lists req);
}.

(** What [fetch_sibling_uuid_list] returns for a handler [c] and a parent [v] of
    kind [k]. *)
Definition listed c k v (name : string) : list uuid :=
  let at_root := λ n req, if decide (k = Component.None_ ∧ v = "" ∧ name = n) then lists req else [] in
  match c with
  | Component.Manager => lists (if decide (k = Component.None_) then GetManagersCollection else GetCollection v name)
  | Component.Task => at_root "Tasks" GetTasksCollection
  | Component.MetricDefinition => at_root "MetricDefinitions" GetMetricDefinitionsCollection
  | Component.Metric => at_root "Metrics" (GetMetrics None)
  | _ => lists (GetCollection v name)
  end.

(** The children that a collection adds to the model. *)
Definition members_of k v (h : string * Component.t) : list uuid :=
  match sibling_kind h.2 k with Strong => listed h.2 k v h.1 | _ => [] end.

Definition children_of (cs : list Collection) k v : list uuid := get_handlers cs ≫= members_of k v.

Definition child (cs : list Collection) k v c a : Prop :=
  ∃ name, (name, c) ∈ get_handlers cs ∧ a ∈ members_of k v (name, c).

Definition cost_of (l : list uuid) : Z := foldr (λ a z, (cost a + z)%Z) 0%Z l.

(** The kinds with the methods of [GenericHandler]. *)
Definition generic c : Prop :=
  c ∈ component_handlers ∧ proper c ∧ c ≠ Component.Metric ∧ c ≠ Component.Task ∧ c ≠ Component.None_.

(** The collections [cs] of [v] in a tree. *)
Record tree_at (cs : list Collection) k v : Prop := {
  at_handlers name c : (name, c) ∈ get_handlers cs → c ∈ component_handlers ∧ proper c;
  at_child c a : child cs k v c a →
    node a ∧ kind_of a = c ∧ pkind a = k ∧ parent_of a = v ∧ height a < height v ∧
    (parent_linked c = true → node v ∧ depth k < depth c ∧
      (c = Component.PowerZone ∨ c = Component.ThermalZone → k = Component.Chassis));
  at_cost : (cost_of (children_of cs k v) < cost v)%Z;
}.

Record agent_tree : Prop := {
  tree_generic u : node u → generic (kind_of u);
  tree_depth u : node u → height u < max_depth;
  tree_collections u : node u → tree_at (m_collections (info u)) (kind_of u) u;
  tree_cost u : (0 ≤ cost u)%Z;
}.

Hypothesis Hagent : stable_agent.
Hypothesis Htree : agent_tree.

(** [v] is [u] or a descendant in the tree of the agent. *)
Inductive desc u : uuid → Prop :=
  | desc_refl : desc u u
  | desc_step v c a : desc u v → child (m_collections (info v)) (kind_of v) v c a → desc u a.

Lemma desc_node u v : node u → desc u v → node v ∧ height v ≤ height u.
Proof using Htree.
  intros Hu. induction 1 as [|v c a _ [IH1 IH2] Hc]; [done|].
  destruct (at_child _ _ _ (tree_collections Htree v IH1) _ _ Hc) as (? & _ & _ & _ & ? & _). split; [done|lia].
Qed.

Lemma desc_parent u a : node u → desc u a → a = u ∨ desc u (parent_of a).
Proof using Htree.
  intros Hu [|v c a' Hd Hc]; [by left|]. right. destruct (desc_node u v Hu Hd) as [Hv _].
  by destruct (at_child _ _ _ (tree_collections Htree v Hv) _ _ Hc) as (_ & _ & _ & -> & _).
Qed.

Lemma desc_head u v :
  desc u v → v = u ∨ ∃ c a, child (m_collections (info u)) (kind_of u) u c a ∧ desc a v.
Proof using Type.
  induction 1 as [|v c a _ [-> |(c' & a' & Hc' & IH)] Hc]; [by left|right..].
  - exists c, a. split; [done|constructor].
  - exists c', a'. split; [done|]. by eapply desc_step.
Qed.

(** Siblings have no common descendants. *)
Lemma desc_sibling a b : node a → node b → parent_of a = parent_of b → height b < height (parent_of a) →
  height a < height (parent_of a) → desc a b → a = b.
Proof using Htree.
  intros Ha Hb E Hhb Hha Hd. destruct (desc_parent a b Ha Hd) as [->|Hp]; [done|].
  destruct (desc_node a (parent_of b) Ha Hp) as [_ Hle]. rewrite <- E in Hle. lia.
Qed.

Lemma desc_disjoint a b v : node a → node b → parent_of a = parent_of b → height b < height (parent_of a) →
  height a < height (parent_of a) → desc a v → desc b v → a = b.
Proof using Htree.
  intros Ha Hb E Hhb Hha. induction 1 as [|v c x Hv IH Hc]; intros Hd.
  - symmetry. apply desc_sibling; [done..|by rewrite <- E|by rewrite <- E|done].
  - destruct (desc_node a v Ha Hv) as [Nv _].
    destruct (at_child _ _ _ (tree_collections Htree v Nv) _ _ Hc) as (_ & _ & _ & Ep & _).
    destruct (desc_parent b x Hb Hd) as [->|Hp].
    + apply desc_sibling; [done..|]. by eapply desc_step.
    + apply IH. by rewrite <- Ep.
Qed.

(** ** The invariant *)

Record inv (busy : list uuid) w : Prop := {
  inv_forest : forest_but busy height w;
  inv_epoch c : (0 ≤ epoch w c)%Z;
  inv_touched c r : has w c r → (m_touched_at r ≤ epoch w c)%Z;
  inv_node c r : has w c r → node (key r) → c = kind_of (key r) ∧ m_parent_uuid r = parent_of (key r);
  inv_orphans c r : has w c r → node (m_parent_uuid r) →
    present (tables w) (kind_of (m_parent_uuid r)) (m_parent_uuid r);
  inv_height c r : has w c r → height (key r) < height (m_parent_uuid r) ∧ height (key r) < max_depth;
}.

Lemma below_height busy w b v : inv busy w → below (tables w) b v → height v ≤ height b.
Proof using Type.
  intros Hi. induction 1 as [|c r Hr _ IH]; [done|]. destruct (inv_height _ _ Hi _ _ Hr) as [Hlt _]. lia.
Qed.

(** What is in the tree below [a] is not below something of its height that is
    not in this tree. *)
Lemma not_below_cousin busy w a b v :
  inv busy w → node a → ¬ desc a b → height b < height (parent_of a) → desc a v → ¬ below (tables w) b v.
Proof using Htree.
  intros Hi Ha Hn Hh. induction 1 as [|v c x Hv IH Hc]; intros Hb.
  - remember a as a' eqn:Ea in Hb. destruct Hb as [|c r Hr Hb]; [subst; apply Hn; constructor|].
    destruct (inv_node _ _ Hi c r Hr) as [_ Ep]; [by rewrite Ea|]. rewrite Ep, Ea in Hb.
    apply (below_height _ _ _ _ Hi) in Hb. lia.
  - destruct (desc_node a v Ha Hv) as [Nv _].
    destruct (at_child _ _ _ (tree_collections Htree v Nv) _ _ Hc) as (Nx & _ & _ & Ep & _).
    assert (desc a x) as Hx by (by eapply desc_step). remember x as x' eqn:Ex in Hb.
    destruct Hb as [|c' r Hr Hb]; [by subst|].
    destruct (inv_node _ _ Hi c' r Hr) as [_ Ep']; [by rewrite Ex|]. apply IH. by rewrite <- Ep, <- Ex, <- Ep'.
Qed.

(** Below [b] is what was below it, when what is new is in the tree. *)
Lemma below_back busy busy' w w' b v :
  inv busy w → inv busy' w' → (∀ c r, has w' c r → has w c r ∨ node (key r)) →
  below (tables w') b v → (∃ c r, has w c r ∧ key r = v) ∨ v = b → below (tables w) b v.
Proof using Type.
  intros Hi Hi' Hnew. induction 1 as [|c r Hr Hb IH]; [constructor|]. intros Hp.
  destruct (decide (key r = b)) as [->|Hne]; [constructor|].
  assert (∃ c1 r1, has w c1 r1 ∧ key r1 = key r ∧ m_parent_uuid r1 = m_parent_uuid r) as (c1 & r1 & Hr1 & Ek & Ep).
  { destruct Hp as [(c1 & r1 & Hr1 & Ek)|?]; [|done]. destruct (Hnew c r Hr) as [Hold|Hn]; [by exists c, r|].
    exists c1, r1. split_and!; [done|done|].
    destruct (inv_node _ _ Hi' c r Hr Hn) as [_ ->].
    destruct (inv_node _ _ Hi c1 r1 Hr1) as [_ ->]; [by rewrite Ek|by rewrite Ek]. }
  rewrite <- Ek. eapply below_step; [exact Hr1|]. rewrite Ep. apply IH.
  destruct Hb as [|c2 r2 Hr2 Hb]; [by right|]. left.
  destruct (Hnew c2 r2 Hr2) as [Hold|Hn]; [by exists c2, r2|].
  destruct (inv_orphans _ _ Hi c1 r1 Hr1) as (rp & Hrp & Erp); [by rewrite Ep|]. rewrite Ep in Hrp, Erp. eauto.
Qed.

(** ** Calls of the agent *)

(** A call changes the environment and the connection state only. *)
Definition quiet w w' : Prop := ∃ e o, w' = set_observed o (set_env e w) ∧ good e.

Lemma execute_good {A} (f : Raw → result A) req w raw e' y :
  call req (env w) = (Ok raw, e') → f raw = Ok y → execute f req w = (Ok y, set_observed None (set_env e' w)).
Proof using Type.
  intros Hc Hf. unfold execute, CallMethod, on_env, zoom. run_monad. unfold try_catch. by rewrite Hc, Hf.
Qed.

Lemma list_request_good req h w :
  is_list req = true → good (env w) →
  ∃ w', try_catch (execute uuids_from_json req) h w = (Ok (lists req), w') ∧ quiet w w'.
Proof using Hagent.
  intros Hl Hg. destruct (stable_lists Hagent req (env w) Hl Hg) as (raw & e' & Hc & Hg' & Hu).
  unfold try_catch. rewrite (execute_good _ _ _ _ _ _ Hc Hu). eexists. split; [done|]. by eexists e', None.
Qed.

Lemma quiet_refl w : good (env w) → quiet w w.
Proof using Type. intros Hg. exists (env w), (m_connection_error_observed_at w). by destruct w. Qed.

Lemma fetch_list_good c v name w :
  good (env w) →
  ∃ w', fetch_sibling_uuid_list c v name w = (Ok (listed c (get_parent_component (ctx w)) v name), w') ∧ quiet w w'.
Proof using Hagent.
  intros Hg. unfold fetch_sibling_uuid_list. rewrite (bind_run get _ _ _ _ eq_refl).
  assert (∀ n req, is_list req = true → ∃ w',
    try_catch (if decide (get_parent_component (ctx w) = Component.None_ ∧ v = "" ∧ name = n)
               then execute uuids_from_json req else mret [])
      (λ e, if is_json_rpc e then mret [] else throw e) w =
      (Ok (if decide (get_parent_component (ctx w) = Component.None_ ∧ v = "" ∧ name = n) then lists req else []), w') ∧
    quiet w w') as Hroot.
  { intros n req Hl. case_decide; [by apply list_request_good|]. exists w. split; [done|by apply quiet_refl]. }
  unfold listed. destruct c; try (by apply list_request_good); try (by apply Hroot).
  case_decide; by apply list_request_good.
Qed.

(** The entry that is made of the answer for [u]. *)
Definition entry_of k p u (id : Z) : @Resource J :=
  set_agent_id gami_id (set_id id (set_parent_type k (set_uuid u (set_parent_uuid p (info u))))).

Lemma fetch_entry_good p u w :
  node u → good (env w) →
  ∃ w', fetch_entry (kind_of u) p u w =
      (Ok (set_parent_type (get_parent_component (ctx w)) (set_uuid u (set_parent_uuid p (info u)))), w') ∧ quiet w w'.
Proof using Hagent Htree.
  intros Hu Hg. destruct (stable_info Hagent u (env w) Hu Hg) as (raw & e' & Hc & Hg' & Hj).
  exists (set_observed None (set_env e' w)). split; [|by eexists e', None].
  destruct (tree_generic Htree u Hu) as (_ & [_ Hm] & Hn1 & Hn2 & _).
  assert (fetch_entry (kind_of u) p u =
    (element ← execute entry_from_json (GetInfo (model_of (kind_of u)) u);
     x ← get;
     mret (set_parent_type (get_parent_component (ctx x)) (set_uuid u (set_parent_uuid p element))))) as ->.
  { unfold fetch_entry. by destruct (kind_of u). }
  rewrite Hm. by rewrite (bind_run _ _ _ _ _ (execute_good _ _ _ _ _ _ Hc Hj)).
Qed.

(** ** One resource *)

(** A method that changes nothing but the events and the counters. *)
Definition silent {A} (m : M (@World J Env Ids) A) w : Prop :=
  ∀ w0, tables w0 = tables w → ∃ y w', m w0 = (Ok y, w') ∧ tables w' = tables w ∧ framed w0 w'.

Lemma silent_bind {A B} (m : M World A) (f : A → M World B) w :
  silent m w → (∀ y, silent (f y) w) → silent (m ≫= f) w.
Proof using All.
  intros Hm Hf w0 H0. destruct (Hm w0 H0) as (y & w1 & E1 & T1 & F1).
  destruct (Hf y w1 T1) as (z & w2 & E2 & T2 & F2). exists z, w2. rewrite (bind_run _ _ _ _ _ E1).
  split_and!; [done|done|by etrans].
Qed.

Lemma silent_ret {A} (y : A) w : silent (mret y) w.
Proof using All. intros w0 H0. by exists y, w0. Qed.

Lemma silent_count d1 d2 d3 d4 d5 w : silent (modify_ctx (count d1 d2 d3 d4 d5)) w.
Proof using All. intros w0 H0. eexists tt, _. split_and!; [done|done|by split]. Qed.

Lemma silent_event c t r w : typed w → links_ok (tables w) → has w c r → silent (add_event c t (key r)) w.
Proof using All.
  intros Ht Hl Hr w0 H0. destruct (add_event_present c t r w0) as (w' & E & T & F & _).
  - intros c'. rewrite H0. apply Ht.
  - by rewrite H0.
  - by rewrite H0.
  - exists tt, w'. split_and!; [done|by rewrite T|done].
Qed.

(** The entry takes the place of the one with its uuid, the others stay. *)
Definition replaced h (entry : @Resource J) w w' : Prop :=
  ∃ t, (∀ c x, has w' c x ↔ c = h ∧ x = touch t entry ∨ has w c x ∧ (c = h → key x ≠ key entry)) ∧
    t = next_epoch (tables w h) ∧ ∀ c, epoch w' c = if decide (c = h) then t else epoch w c.

Lemma add_to_model_good h entry w :
  proper h → typed w → m_is_uuid_persistent entry = false →
  (∀ old, has w h old → key old = key entry → m_parent_uuid old = m_parent_uuid entry) →
  (∀ w', replaced h entry w w' → typed w' → links_ok (tables w')) →
  ∃ status w', add_to_model h entry w = (Ok status, w') ∧ replaced h entry w w' ∧ typed w' ∧
    m_sub_components w' = m_sub_components w ∧ env w' = env w ∧ notified w' = notified w ∧
    registered w' = registered w ∧ mode (ctx w') = mode (ctx w) ∧ stack (ctx w') = stack (ctx w).
Proof using All.
  intros [Hc Hm] Ht He Hold Hlinks.
  destruct (plain_add_or_update compute_hash entry (tables w h) (Ht h) He) as
    [(old & s' & _ & _ & _ & Hin & Ek & Hne)|(status & s' & Ea & Hp & Hep & _ & Hdata)].
  { by destruct (Hne (Hold old Hin Ek)). }
  set (w1 := set_tables (update_at h s' (tables w)) w).
  assert (on_table h (add_or_update_entry compute_hash entry) w = (Ok status, w1)) as E1.
  { unfold on_table, zoom. rewrite Hm, Ea. done. }
  assert (replaced h entry w w1) as Hrep.
  { exists (next_epoch (tables w h)). split_and!; [|done|].
    - intros c x. unfold w1, holds. cbn [tables set_tables]. unfold update_at. case_decide; [|naive_solver].
      subst c. rewrite Hdata. naive_solver.
    - intros c. unfold w1. cbn [tables set_tables]. unfold update_at. by case_decide. }
  assert (typed w1) as Ht1.
  { intros c. unfold w1. cbn [tables set_tables]. unfold update_at. by case_decide. }
  pose proof (Hlinks w1 Hrep Ht1) as Hl1.
  assert (has w1 h (touch (next_epoch (tables w h)) entry)) as Hin.
  { destruct Hrep as (t & Hx & -> & _). apply Hx. by left. }
  assert (∀ t, silent (add_event h t (key entry)) w1) as Hev.
  { intros t. exact (silent_event h t _ w1 Ht1 Hl1 Hin). }
  unfold add_to_model. rewrite (bind_run _ _ _ _ _ E1), Hc, get_uuid_plain by done.
  match goal with |- context [?m w1] => assert (silent m w1) as Hs end.
  { apply silent_bind; [|intros; apply silent_ret].
    destruct status; repeat first [apply silent_bind; [|intros _]|apply Hev|apply silent_count|apply silent_ret|case_decide]. }
  destruct (Hs w1 eq_refl) as (y & w2 & E2 & T2 & F2).
  exists y, w2. split; [exact E2|]. destruct F2 as [Fs Fe _ Fr Fn Fm Fst Fep].
  split_and!; [|intros c; rewrite T2; apply Ht1|done|done|done|done|done|done].
  destruct Hrep as (t & Hx & Et & Hep'). exists t. split_and!; [by rewrite T2|done|]. intros c. by rewrite T2.
Qed.

Lemma present_replaced h entry w w' c v :
  replaced h entry w w' → present (tables w) c v → present (tables w') c v.
Proof using All.
  intros (t & Hx & _) (x & Hin & <-). destruct (decide (c = h ∧ key x = key entry)) as [[-> E]|Hne].
  - exists (touch t entry). split; [apply Hx; by left|done].
  - exists x. split; [|done]. apply Hx. right. split; [done|]. intros -> E. by apply Hne.
Qed.

(** Where [u] is read: the component on the stack is the kind of its parent, the
    parent is in the model if it is a resource, and the link of [u] can be
    built. *)
Record placed u w : Prop := {
  placed_stack : get_parent_component (ctx w) = pkind u;
  placed_parent : node (parent_of u) →
    pkind u = kind_of (parent_of u) ∧ present (tables w) (pkind u) (parent_of u);
  placed_linked : parent_linked (kind_of u) = true → node (parent_of u) ∧ depth (pkind u) < depth (kind_of u) ∧
    (kind_of u = Component.PowerZone ∨ kind_of u = Component.ThermalZone → pkind u = Component.Chassis);
}.

Lemma replaced_links u id w w' :
  links_ok (tables w) → node u → placed u w →
  replaced (kind_of u) (entry_of (pkind u) (parent_of u) u id) w w' → links_ok (tables w').
Proof using All.
  intros Hl Hu Hpl Hrep. pose proof Hrep as (t & Hx & _). intros c r [[-> ->]|[Hr _]]%Hx.
  - split; [|by destruct (tree_generic Htree u Hu) as (_ & _ & Hn & _)]. intros Hpa. cbn.
    destruct (placed_linked _ _ Hpl Hpa) as (Hn & Hd & Hz). split_and!; [|done|done].
    destruct (placed_parent _ _ Hpl Hn) as [_ Hp]. by apply (present_replaced _ _ _ _ _ _ Hrep) in Hp.
  - destruct (Hl c r Hr) as [H1 H2]. split; [|done]. intros Hpa. destruct (H1 Hpa) as (Hp & Hd & Hz).
    split_and!; [|done|done]. by apply (present_replaced _ _ _ _ (m_parent_type r) (m_parent_uuid r) Hrep) in Hp.
Qed.

Lemma replaced_inv busy u id w w' :
  inv busy w → node u → placed u w → parent_of u ∈ busy → (∀ b, b ∈ busy → height u < height b) →
  (epoch w (kind_of u) + 1 < 2 ^ 64)%Z → m_sub_components w' = m_sub_components w → typed w' →
  replaced (kind_of u) (entry_of (pkind u) (parent_of u) u id) w w' → inv (u :: busy) w'.
Proof using All.
  intros Hi Hu Hpl Hpb Hhb Hep Hsubs Ht Hrep. pose proof Hrep as (t & Hx & Et & Hce).
  destruct (inv_forest _ _ Hi) as [Hty Hl Hg Hk Hha _].
  assert (t = epoch w (kind_of u) + 1)%Z as Et'.
  { rewrite Et. unfold next_epoch. apply wrap_small. pose proof (inv_epoch _ _ Hi (kind_of u)). split; lia. }
  split.
  - split; [done|by eapply replaced_links| | | |].
    + intros c c' r r' [[-> ->]|[Hr Hne]]%Hx [[-> ->]|[Hr' Hne']]%Hx E; [done| | |by eapply Hg].
      * cbn in E. destruct (inv_node _ _ Hi c' r' Hr') as [-> _]; by rewrite <- E.
      * cbn in E. destruct (inv_node _ _ Hi c r Hr) as [-> _]; by rewrite E.
    + intros c r q rq [[-> ->]|[Hr Hne]]%Hx [[-> ->]|[Hq Hneq]]%Hx E [Hnu Hnb]%not_elem_of_cons.
      * by cbn in Hnb.
      * by cbn in Hnb.
      * cbn in E. by rewrite E in Hnu.
      * rewrite Hsubs. by eapply Hk.
    + rewrite Hsubs. done.
    + intros c r q rq Hr _ E. apply Hx in Hr as [[-> ->]|[Hr _]]; rewrite E; [|by destruct (inv_height _ _ Hi c r Hr)].
      cbn. by apply Hhb.
  - intros c. rewrite Hce. case_decide; [|apply Hi]. pose proof (inv_epoch _ _ Hi (kind_of u)). lia.
  - intros c r [[-> ->]|[Hr _]]%Hx; rewrite Hce; [by rewrite decide_True|].
    pose proof (inv_touched _ _ Hi c r Hr). case_decide; [subst c; lia|done].
  - intros c r [[-> ->]|[Hr _]]%Hx Hn; [done|by apply (inv_node _ _ Hi)].
  - intros c r [[-> ->]|[Hr _]]%Hx Hn; (eapply present_replaced; [exact Hrep|]).
    + cbn in *. destruct (placed_parent _ _ Hpl Hn) as [<- Hp]. done.
    + by apply (inv_orphans _ _ Hi c r).
  - intros c r [[-> ->]|[Hr _]]%Hx; [|by apply (inv_height _ _ Hi c)]. cbn.
    split; [by apply Hhb|by apply (tree_depth Htree)].
Qed.

(** ** What reading has done *)

Definition mirrored w v : Prop :=
  ∃ id t, has w (kind_of v) (touch t (entry_of (pkind v) (parent_of v) v id)).

(** The agent's resources under [v], of the kinds of its collections, are its
    children in the agent. *)
Definition clean_at (cs : list Collection) k v w : Prop :=
  ∀ c r, c ∈ (get_handlers cs).*2 → has w c r → m_parent_uuid r = v → m_agent_id r = gami_id →
    child cs k v c (key r).

Definition clean w v : Prop := clean_at (m_collections (info v)) (kind_of v) v w.

Record calm w w' : Prop := {
  calm_mode : mode (ctx w') = mode (ctx w);
  calm_stack : stack (ctx w') = stack (ctx w);
  calm_registered : registered w' = registered w;
  calm_notified : notified w' = notified w;
  calm_subs c k : c ∈ m_sub_components w k → c ∈ m_sub_components w' k;
}.

#[local] Instance calm_refl : Reflexive calm.
Proof using Type. by split. Qed.
#[local] Instance calm_trans : Transitive calm.
Proof using Type. intros w1 w2 w3 [] []. split; [congruence..|]. eauto. Qed.

Lemma framed_calm w w' : framed w w' → calm w w'.
Proof using Type. intros [Hs]. split; [done..|]. by rewrite Hs. Qed.

(** The resources [done] were read with all their descendants. *)
Record progress (busy : list uuid) w (done : list uuid) w' : Prop := {
  pr_inv : inv busy w';
  pr_calm : calm w w';
  pr_good : good (env w');
  pr_epoch c : (epoch w c ≤ epoch w' c ≤ epoch w c + cost_of done)%Z;
  pr_mirror a v : a ∈ done → desc a v → mirrored w' v;
  pr_clean a v : a ∈ done → desc a v → clean w' v;
  pr_kept c r : has w c r → (∀ a, a ∈ done → ¬ below (tables w) a (key r)) → has w' c r;
  pr_new c r : has w' c r → has w c r ∨ ∃ a, a ∈ done ∧ desc a (key r);
  pr_touched a : a ∈ done → ∃ r, has w' (kind_of a) r ∧ key r = a ∧ (epoch w (kind_of a) < m_touched_at r)%Z;
}.

(** [policy_get_id] and [policy_purge] return. *)
Definition ids_return : Prop := ∀ c u p i, ∃ id i', policy_get_id c u p i = (Ok id, i').
Hypothesis Hids : ids_return.
Hypothesis Hpurge : purge_returns.

Lemma fetch_good busy u w :
  inv busy w → good (env w) → node u → placed u w → parent_of u ∈ busy → (∀ b, b ∈ busy → height u < height b) →
  (epoch w (kind_of u) + 1 < 2 ^ 64)%Z →
  ∃ r id w', fetch (kind_of u) (parent_of u) u w = (Ok r, w') ∧ m_collections r = m_collections (info u) ∧
    replaced (kind_of u) (entry_of (pkind u) (parent_of u) u id) w w' ∧ inv (u :: busy) w' ∧ good (env w') ∧
    calm w w' ∧ m_sub_components w' = m_sub_components w.
Proof using All.
  intros Hi Hg Hu Hpl Hpb Hhb Hep. unfold fetch.
  destruct (fetch_entry_good (parent_of u) u w Hu Hg) as (w1 & E1 & e & o & -> & Hge).
  rewrite (bind_run _ _ _ _ _ E1). destruct (Hids (model_of (kind_of u)) u (parent_of u) (ids w)) as (id & i' & Eid).
  set (w2 := set_ids i' (set_observed o (set_env e w))).
  assert (on_ids (policy_get_id (model_of (kind_of u)) u (parent_of u)) (set_observed o (set_env e w)) = (Ok id, w2)) as E2.
  { unfold on_ids, zoom. cbn [ids set_observed set_env]. by rewrite Eid. }
  rewrite (bind_run _ _ _ _ _ E2), (placed_stack _ _ Hpl).
  fold (entry_of (pkind u) (parent_of u) u id). set (entry := entry_of _ _ _ _).
  destruct (tree_generic Htree u Hu) as (_ & Hpr & _).
  pose proof (inv_forest _ _ Hi) as Hf.
  destruct (add_to_model_good (kind_of u) entry w2 Hpr (forest_typed _ _ Hf)) as
    (status & w' & E3 & Hrep & Ht & Hs & He & Hn & Hre & Hm & Hst).
  - done.
  - intros old Hold Ek. destruct (inv_node _ _ Hi (kind_of u) old Hold) as [_ ->]; by rewrite Ek.
  - intros w' Hrep _. exact (replaced_links u id w w' (forest_links _ _ Hf) Hu Hpl Hrep).
  - exists entry, id, w'. rewrite (bind_run _ _ _ _ _ E3). split_and!; [done|done|exact Hrep| |by rewrite He| |done].
    + exact (replaced_inv busy u id w w' Hi Hu Hpl Hpb Hhb Hep Hs Ht Hrep).
    + split; [done..|]. by rewrite Hs.
Qed.

(** ** Siblings *)

Lemma cost_of_app l l' : cost_of (l ++ l') = (cost_of l + cost_of l')%Z.
Proof using Type.
  induction l as [|a l IH]; [done|]. change (cost a + cost_of (l ++ l') = cost a + cost_of l + cost_of l')%Z.
  rewrite IH. lia.
Qed.

Lemma cost_of_nonneg l : (0 ≤ cost_of l)%Z.
Proof using All.
  induction l as [|a l IH]; [done|]. pose proof (tree_cost Htree a). change (0 ≤ cost a + cost_of l)%Z. lia.
Qed.

Lemma progress_nil busy w : inv busy w → good (env w) → progress busy w [] w.
Proof using All.
  intros Hi Hg. split; [done|done|done|cbn; lia| | |done|by left|].
  - by intros a v ?%elem_of_nil.
  - by intros a v ?%elem_of_nil.
  - by intros a ?%elem_of_nil.
Qed.

Definition sibling v a : Prop := node a ∧ parent_of a = v ∧ height a < height v.

Lemma sibling_not_desc v a b : sibling v a → sibling v b → a ≠ b → ¬ desc a b.
Proof using All.
  intros (Na & Pa & Ha) (Nb & Pb & Hb) Hne Hd. apply Hne. apply desc_sibling; [done|done|congruence|congruence|congruence|done].
Qed.

Lemma sibling_not_below busy w v a b y :
  inv busy w → sibling v a → sibling v b → a ≠ b → desc a y → ¬ below (tables w) b y.
Proof using All.
  intros Hi Hsa Hsb Hne. apply (not_below_cousin busy); [done|by destruct Hsa|by apply (sibling_not_desc v)|].
  destruct Hsa as (_ & -> & _), Hsb as (_ & _ & Hb). done.
Qed.

(** What was read stays when siblings are read. *)
Lemma mirrored_kept busy v w d w' a y :
  inv busy w → (∀ b, b ∈ d → sibling v b) → sibling v a → a ∉ d → progress busy w d w' →
  desc a y → mirrored w y → mirrored w' y.
Proof using All.
  intros Hi Hd Ha Hna Hp Hy (id & t & Hin). exists id, t. apply (pr_kept _ _ _ _ Hp); [done|].
  intros b Hb. apply (sibling_not_below busy w v a b); [done|done|by apply Hd| |done]. intros ->. done.
Qed.

Lemma clean_kept busy v w d w' a y :
  (∀ b, b ∈ d → sibling v b) → sibling v a → a ∉ d → progress busy w d w' →
  desc a y → clean w y → clean w' y.
Proof using All.
  intros Hd Ha Hna Hp Hy Hc c r Hk Hr Er Ea. destruct (pr_new _ _ _ _ Hp c r Hr) as [Hold|(b & Hb & Hdb)]; [by apply Hc|].
  exfalso. destruct (Hd b Hb) as (Nb & Pb & Hhb). destruct (desc_node b (key r) Nb Hdb) as [Nr _].
  destruct (inv_node _ _ (pr_inv _ _ _ _ Hp) c r Hr Nr) as [_ Ep]. destruct Ha as (Na & Pa & Hha).
  destruct (desc_parent b (key r) Nb Hdb) as [E|Hpd].
  - rewrite E, Pb in Ep. rewrite <- Er, Ep in Hy. destruct (desc_node a v Na Hy) as [_ Hle]. lia.
  - rewrite <- Ep, Er in Hpd. apply Hna. rewrite (desc_disjoint a b y); [done|done|done|congruence|congruence|congruence|done|done].
Qed.

Lemma touched_kept busy v w d w' a (e : Z) :
  inv busy w → (∀ b, b ∈ d → sibling v b) → sibling v a → progress busy w d w' → (e ≤ epoch w (kind_of a))%Z →
  (∃ r, has w (kind_of a) r ∧ key r = a ∧ (e < m_touched_at r)%Z) →
  ∃ r, has w' (kind_of a) r ∧ key r = a ∧ (e < m_touched_at r)%Z.
Proof using All.
  intros Hi Hd Ha Hp He (r & Hr & Ek & Ht). destruct (decide (a ∈ d)) as [Hin|Hna].
  - destruct (pr_touched _ _ _ _ Hp a Hin) as (r' & Hr' & Ek' & Ht'). exists r'. split_and!; [done|done|lia].
  - exists r. split_and!; [|done|done]. apply (pr_kept _ _ _ _ Hp); [done|]. intros b Hb. rewrite Ek.
    apply (sibling_not_below busy w v a b a); [done|done|by apply Hd| |constructor]. intros ->. done.
Qed.

Lemma progress_app busy v w1 d1 w2 d2 w3 :
  inv busy w1 → (∀ a, a ∈ d1 → sibling v a) → (∀ a, a ∈ d2 → sibling v a) →
  progress busy w1 d1 w2 → progress busy w2 d2 w3 → progress busy w1 (d1 ++ d2) w3.
Proof using All.
  intros Hi H1 H2 P1 P2. pose proof (pr_inv _ _ _ _ P1) as Hi2.
  assert (∀ a, a ∈ (d1 ++ d2)%list → a ∈ d2 ∨ a ∈ d1 ∧ a ∉ d2) as Hcase.
  { intros a Ha. destruct (decide (a ∈ d2)); [by left|]. apply elem_of_app in Ha. tauto. }
  split; [apply P2|etrans; [apply P1|apply P2]|apply P2| | | | | |].
  - intros c. pose proof (pr_epoch _ _ _ _ P1 c). pose proof (pr_epoch _ _ _ _ P2 c). rewrite cost_of_app. lia.
  - intros a y [Ha|[Ha Hn]]%Hcase Hy; [by apply (pr_mirror _ _ _ _ P2 a)|].
    apply (mirrored_kept busy v w2 d2 w3 a y); eauto. by apply (pr_mirror _ _ _ _ P1 a).
  - intros a y [Ha|[Ha Hn]]%Hcase Hy; [by apply (pr_clean _ _ _ _ P2 a)|].
    apply (clean_kept busy v w2 d2 w3 a y); eauto. by apply (pr_clean _ _ _ _ P1 a).
  - intros c r Hr Hnb. assert (has w2 c r) as Hr2.
    { apply (pr_kept _ _ _ _ P1); [done|]. intros a Ha. apply Hnb, elem_of_app. by left. }
    apply (pr_kept _ _ _ _ P2); [done|]. intros b Hb Hbel. apply (Hnb b); [apply elem_of_app; by right|].
    apply (below_back busy busy w1 w2 b (key r)); [done|done| |done|left; by eauto].
    intros c' r' Hr'. destruct (pr_new _ _ _ _ P1 c' r' Hr') as [?|(a & Ha & Hd)]; [by left|right].
    destruct (H1 a Ha) as [Na _]. by destruct (desc_node a _ Na Hd).
  - intros c r Hr. destruct (pr_new _ _ _ _ P2 c r Hr) as [Hr2|(b & Hb & Hd)].
    + destruct (pr_new _ _ _ _ P1 c r Hr2) as [?|(a & Ha & Hd)]; [by left|right]. exists a.
      split; [apply elem_of_app; by left|done].
    + right. exists b. split; [apply elem_of_app; by right|done].
  - intros a [Ha|[Ha Hn]]%Hcase.
    + destruct (pr_touched _ _ _ _ P2 a Ha) as (r & Hr & Ek & Ht). exists r. split_and!; [done|done|].
      pose proof (pr_epoch _ _ _ _ P1 (kind_of a)). lia.
    + apply (touched_kept busy v w2 d2 w3 a); [done|done|by apply H1|done| |by apply (pr_touched _ _ _ _ P1)].
      pose proof (pr_epoch _ _ _ _ P1 (kind_of a)). lia.
Qed.

(** ** The loops *)

(** A child of [v] of kind [c] as [tree_at] has it. *)
Definition kid c k v a : Prop :=
  node a ∧ kind_of a = c ∧ pkind a = k ∧ parent_of a = v ∧ height a < height v ∧
  (parent_linked c = true → node v ∧ depth k < depth c ∧
    (c = Component.PowerZone ∨ c = Component.ThermalZone → k = Component.Chassis)).

Lemma kid_sibling c k v a : kid c k v a → sibling v a.
Proof using Type. intros (Na & _ & _ & Ep & Hh & _). by split_and!. Qed.

(** The parent [v] of kind [k] whose collections are being read. *)
Record site (busy : list uuid) k v w : Prop := {
  site_inv : inv busy w;
  site_good : good (env w);
  site_stack : get_parent_component (ctx w) = k;
  site_parent : node v → k = kind_of v ∧ present (tables w) k v;
  site_busy : v ∈ busy;
  site_path b : b ∈ busy → height v ≤ height b;
  site_mode : mode (ctx w) = Mode.POLLING ∨ mode (ctx w) = Mode.LOADING;
}.

Lemma same_inv busy w w' :
  tables w' = tables w → m_sub_components w' = m_sub_components w → inv busy w → inv busy w'.
Proof using All.
  intros Et Es [[]]. split; unfold present in *; rewrite ?Et; try done. split; unfold typed; rewrite ?Et, ?Es; done.
Qed.

Lemma same_progress busy w w' :
  tables w' = tables w → m_sub_components w' = m_sub_components w → ctx w' = ctx w → registered w' = registered w →
  notified w' = notified w → good (env w') → inv busy w → progress busy w [] w'.
Proof using All.
  intros Et Es Ec Er En Hg Hi. split; [by apply (same_inv busy w)| |done| | | | | |].
  - split; [by rewrite Ec..|done|done|by rewrite Es].
  - intros c. rewrite Et. cbn. lia.
  - by intros a v ?%elem_of_nil.
  - by intros a v ?%elem_of_nil.
  - intros c r Hr _. by rewrite Et.
  - intros c r. rewrite Et. by left.
  - by intros a ?%elem_of_nil.
Qed.

Lemma site_after busy k v w d w' :
  site busy k v w → (∀ a, a ∈ d → sibling v a) → progress busy w d w' → site busy k v w'.
Proof using All.
  intros [Hi Hg Hst Hp Hb Hpa Hm] Hd P. destruct (pr_calm _ _ _ _ P) as [Em Est _ _ _].
  split; [apply P|apply P| | |done|done|by rewrite Em].
  - unfold get_parent_component in *. by rewrite Est.
  - intros Hn. destruct (Hp Hn) as (Ek & r & Hr & Er). split; [done|]. exists r. split; [|done].
    apply (pr_kept _ _ _ _ P); [done|]. intros a Ha Hbel. destruct (Hd a Ha) as (_ & _ & Hlt).
    apply (below_height _ _ _ _ Hi) in Hbel. rewrite Er in Hbel. lia.
Qed.

Section loops.
Variable fuel : nat.

Record ready (busy : list uuid) a w : Prop := {
  ready_inv : inv busy w;
  ready_good : good (env w);
  ready_node : node a;
  ready_placed : placed a w;
  ready_parent : parent_of a ∈ busy;
  ready_path b : b ∈ busy → height a < height b;
  ready_mode : mode (ctx w) = Mode.POLLING ∨ mode (ctx w) = Mode.LOADING;
  ready_epoch c : (epoch w c + cost a < 2 ^ 64)%Z;
}.

Hypothesis IH : ∀ busy a w, ready busy a w → height a < fuel →
  ∃ id w', add fuel (kind_of a) (parent_of a) a true w = (Ok id, w') ∧ progress busy w [a] w'.

Abbreviation add_recursively := (λ h p u, add fuel h p u true).

Lemma siblings_good busy c k v l w :
  site busy k v w → (∀ a, a ∈ l → kid c k v a) → height v ≤ fuel → (∀ c, epoch w c + cost_of l < 2 ^ 64)%Z →
  ∃ w', for_each l (λ u, catch_all (add_recursively c v u;; mret tt) rethrow_unreachable) w = (Ok tt, w') ∧
    progress busy w l w'.
Proof using All.
  revert w. induction l as [|a l IHl]; intros w Hs Hl Hf He.
  - exists w. split; [done|]. by apply progress_nil; apply Hs.
  - pose proof (Hl a (list_elem_of_here _ _)) as Ha. pose proof Ha as (Na & Ek & Epk & Ep & Hlt & Hlk).
    assert (∀ c, (epoch w c + cost a + cost_of l < 2 ^ 64)%Z) as He'.
    { intros c'. specialize (He c'). change (cost_of (a :: l)) with (cost a + cost_of l)%Z in He. lia. }
    pose proof (cost_of_nonneg l) as Hnn.
    destruct (IH busy a w) as (id & w1 & E1 & P1); [|lia|].
    { destruct Hs as [Hi Hg Hst Hp Hb Hpa Hm]. split; [done|done|done| | | |done|].
      - split; rewrite ?Epk, ?Ep, ?Ek; done.
      - by rewrite Ep.
      - intros b Hin. specialize (Hpa b Hin). lia.
      - intros c'. specialize (He' c'). lia. }
    assert (∀ b, b ∈ [a] → sibling v b) as Hsib.
    { intros b ->%list_elem_of_singleton. by eapply kid_sibling. }
    pose proof (site_after busy k v w [a] w1 Hs Hsib P1) as Hs1.
    destruct (IHl w1 Hs1) as (w2 & E2 & P2); [by intros b Hb; apply Hl, list_elem_of_further|done| |].
    { intros c'. pose proof (pr_epoch _ _ _ _ P1 c') as Hc. specialize (He' c'). cbn in Hc. lia. }
    exists w2. split.
    + cbn [for_each]. rewrite Ek, Ep in E1. rewrite (bind_run _ _ _ tt w1); [done|].
      unfold catch_all, try_catch. by rewrite (bind_run _ _ _ _ _ E1).
    + apply (progress_app busy v w [a] w1 l w2); [apply Hs|done| |done|done].
      intros b Hb. eapply kid_sibling, Hl, list_elem_of_further, Hb.
Qed.

(** One collection. *)
Lemma fetch_siblings_good busy c k v name w :
  site busy k v w → (∀ a, a ∈ members_of k v (name, c) → kid c k v a) → height v ≤ fuel →
  (∀ c', epoch w c' + cost_of (members_of k v (name, c)) < 2 ^ 64)%Z →
  ∃ w', fetch_siblings add_recursively c v name w = (Ok tt, w') ∧ progress busy w (members_of k v (name, c)) w'.
Proof using All.
  intros Hs Hm Hf He. unfold fetch_siblings. rewrite (bind_run get _ _ _ _ eq_refl), (site_stack _ _ _ _ Hs).
  destruct (fetch_list_good c v name w (site_good _ _ _ _ Hs)) as (w1 & E1 & e & o & -> & Hge).
  rewrite (site_stack _ _ _ _ Hs) in E1. set (w1 := set_observed o (set_env e w)) in *.
  assert (progress busy w [] w1) as P1 by (apply same_progress; [done..|apply Hs]).
  assert (∀ a, a ∈ [] → sibling v a) as Hnil by (by intros a ?%elem_of_nil).
  unfold members_of in *. cbn [fst snd] in *. destruct (sibling_kind c k).
  - unfold base_fetch_siblings. rewrite (bind_run _ _ _ _ _ E1).
    destruct (siblings_good busy c k v (listed c k v name) w1) as (w2 & E2 & P2); [by eapply site_after|done|done|done|].
    exists w2. split; [done|].
    apply (progress_app busy v w [] w1 (listed c k v name) w2); [apply Hs|done| |done|done].
    intros a Ha. by eapply kid_sibling, Hm.
  - unfold fetch_parent_children. rewrite (bind_run _ _ _ _ _ E1). unfold modify.
    destruct (what_to_add_what_to_remove _ _) as [to_add to_remove]. eexists. split; [done|].
    apply same_progress; [done..|apply Hs].
  - unfold fetch_acls_of_port. rewrite (bind_run _ _ _ _ _ E1). unfold modify.
    destruct (what_to_add_what_to_remove _ _) as [to_add to_remove]. eexists. split; [done|].
    apply same_progress; [done..|apply Hs].
  - exists w. split; [done|]. apply progress_nil; apply Hs.
Qed.

Definition remembered h c w : @World J Env Ids :=
  set_sub_components (update_at h (oinsert c (m_sub_components w h)) (m_sub_components w)) w.

Lemma elem_of_remembered h c w c' k :
  c' ∈ m_sub_components (remembered h c w) k ↔ k = h ∧ c' = c ∨ c' ∈ m_sub_components w k.
Proof using All.
  unfold remembered. cbn [m_sub_components set_sub_components]. unfold update_at.
  case_decide as E; [|naive_solver]. subst k. rewrite elem_of_oinsert. naive_solver.
Qed.

Lemma remembered_inv busy h c w :
  inv busy w → c ∈ component_handlers → get_component c = c → inv busy (remembered h c w).
Proof using All.
  intros [[Ht Hl Hg Hk Hh Hhe] H1 H2 H3 H4 H5] Hc Hgc. split; [|done..]. split; [done|done|done| | |done].
  - intros c' r q rq Hr Hq E Hb. apply elem_of_remembered. right. by eapply Hk.
  - intros q c' [[-> ->]|Hin]%elem_of_remembered; [done|by eapply Hh].
Qed.

Lemma remembered_progress busy h c w d w' :
  progress busy w d w' → c ∈ component_handlers → get_component c = c → progress busy w d (remembered h c w').
Proof using All.
  intros [Hi [] Hg He Hm Hc Hk Hn Ht] Hch Hgc. split; [by apply remembered_inv| |done..].
  split; [done..|]. intros c' k Hin. apply elem_of_remembered. right. eauto.
Qed.

Lemma epoch_of_snoc c epochs c' e :
  epoch_of c (epochs ++ [(c', e)]) =
    if decide (c ∈ epochs.*1) then epoch_of c epochs else if decide (c = c') then e else 0%Z.
Proof using All.
  unfold epoch_of. induction epochs as [|[c1 e1] l IHl]; cbn.
  - rewrite (decide_False (P := c ∈ [])) by apply not_elem_of_nil.
    destruct (decide (c' = c)) as [->|Hne]; [by rewrite decide_True|by rewrite decide_False by done].
  - destruct (decide (c1 = c)) as [->|Hne].
    + by rewrite decide_True by (apply list_elem_of_here).
    + rewrite (decide_ext (c ∈ c1 :: l.*1) (c ∈ l.*1)) by (rewrite list.elem_of_cons; naive_solver).
      by destruct (list_find _ (l ++ _)) as [[i y]|], (list_find _ l) as [[j z]|].
Qed.

(** Some collections of [v] were read, one after the other. *)
Record collected (busy : list uuid) h w0 (epochs : list (Component.t * Z)) (done : list uuid) w : Prop := {
  co_progress : progress busy w0 done w;
  co_known a : a ∈ done → kind_of a ∈ m_sub_components w h;
  co_touched a : a ∈ done → kind_of a ∈ epochs.*1 ∧
    ∃ r, has w (kind_of a) r ∧ key r = a ∧ (epoch_of (kind_of a) epochs < m_touched_at r)%Z;
  co_epochs c : c ∈ epochs.*1 → (epoch w0 c ≤ epoch_of c epochs ≤ epoch w c)%Z;
}.

(** The epochs after the kind [c] was recorded at the epoch [e]. *)
Definition record_epoch c e (epochs : list (Component.t * Z)) : list (Component.t * Z) :=
  if decide (c ∈ epochs.*1) then epochs else (epochs ++ [(c, e)])%list.

Lemma record_epoch_spec c e epochs c' :
  (c' ∈ (record_epoch c e epochs).*1 ↔ c' = c ∨ c' ∈ epochs.*1) ∧
  (c' ∈ epochs.*1 → epoch_of c' (record_epoch c e epochs) = epoch_of c' epochs) ∧
  (c ∉ epochs.*1 → epoch_of c (record_epoch c e epochs) = e).
Proof using All.
  unfold record_epoch. case_decide as Hin; [naive_solver|]. rewrite fmap_app, elem_of_app, !epoch_of_snoc. cbn.
  rewrite list_elem_of_singleton. split_and!; [tauto|intros Hc; by rewrite decide_True|].
  intros _. rewrite decide_False by done. by rewrite decide_True.
Qed.

(** One more collection. *)
Lemma collected_step busy h k v w0 epochs done w c d w1 :
  collected busy h w0 epochs done w → site busy k v w0 → (∀ a, a ∈ done → sibling v a) →
  (∀ a, a ∈ d → kid c k v a) → c ∈ component_handlers → get_component c = c →
  progress busy w d w1 →
  collected busy h w0 (record_epoch c (epoch w c) epochs) (done ++ d) (remembered h c w1).
Proof using All.
  intros [P Hk Ht He] Hs Hdone Hd Hc Hgc P1.
  assert (∀ a, a ∈ d → sibling v a) as Hd' by (intros a Ha; by eapply kid_sibling, Hd).
  set (epochs' := record_epoch c (epoch w c) epochs).
  assert (∀ c', c' ∈ epochs'.*1 → (epoch w0 c' ≤ epoch_of c' epochs' ≤ epoch w c')%Z) as He'.
  { intros c' Hin. destruct (record_epoch_spec c (epoch w c) epochs c') as (H1 & H2 & H3).
    apply H1 in Hin. destruct (decide (c' ∈ epochs.*1)) as [Hc'|Hc']; [unfold epochs'; rewrite H2 by done; by apply He|].
    destruct Hin as [->|?]; [|done]. unfold epochs'. rewrite H3 by done.
    pose proof (pr_epoch _ _ _ _ P c). lia. }
  split.
  - apply (progress_app busy v w0 done w d); [apply Hs|done|done|done|by apply remembered_progress].
  - intros a Ha. apply elem_of_remembered. apply elem_of_app in Ha as [Ha|Ha].
    + right. apply (calm_subs _ _ (pr_calm _ _ _ _ P1)). by apply Hk.
    + left. split; [done|]. by destruct (Hd a Ha) as (_ & -> & _).
  - intros a [Ha|Ha]%elem_of_app.
    + destruct (Ht a Ha) as [Hin Hr]. destruct (record_epoch_spec c (epoch w c) epochs (kind_of a)) as (H1 & H2 & _).
      split; [apply H1; by right|]. unfold epochs'. rewrite H2 by done.
      apply (touched_kept busy v w d w1 a); [apply P|done|by apply Hdone|done| |done].
      destruct (He _ Hin). done.
    + destruct (Hd a Ha) as (_ & Ek & _). destruct (record_epoch_spec c (epoch w c) epochs c) as (H1 & _ & _).
      rewrite Ek. assert (c ∈ epochs'.*1) as Hin by (apply H1; by left). split; [done|].
      destruct (pr_touched _ _ _ _ P1 a Ha) as (r & Hr & Er & Htr). rewrite Ek in Hr, Htr.
      exists r. split_and!; [done|done|]. pose proof (He' c Hin). lia.
  - intros c' Hin. pose proof (He' c' Hin). pose proof (pr_epoch _ _ _ _ P1 c').
    change (epoch (remembered h c w1) c') with (epoch w1 c'). lia.
Qed.

Lemma collections_good busy h k v hs epochs done w0 w :
  collected busy h w0 epochs done w → site busy k v w0 → (∀ a, a ∈ done → sibling v a) → height v ≤ fuel →
  (∀ name c, (name, c) ∈ hs → c ∈ component_handlers ∧ proper c ∧ ∀ a, a ∈ members_of k v (name, c) → kid c k v a) →
  (∀ c, epoch w0 c + cost_of (done ++ (hs ≫= members_of k v)) < 2 ^ 64)%Z →
  ∃ epochs' w', fetch_collections add_recursively h v hs epochs w = (Ok epochs', w') ∧
    collected busy h w0 epochs' (done ++ (hs ≫= members_of k v)) w' ∧
    (∀ c, c ∈ hs.*2 ∨ c ∈ epochs.*1 → c ∈ epochs'.*1).
Proof using All.
  revert epochs done w. induction hs as [|[name c] hs IHhs]; intros epochs done w Hco Hs Hdone Hf Hhs He.
  - exists epochs, w. cbn. rewrite app_nil_r. split_and!; [done|done|]. intros c [H|H]; [by apply elem_of_nil in H|done].
  - destruct (Hhs name c (list_elem_of_here _ _)) as (Hc & [Hgc Hmc] & Hm).
    cbn [mbind list_bind] in He |- *. change (members_of k v (name, c) ++ mbind (members_of k v) hs)%list
      with (members_of k v (name, c) ++ (hs ≫= members_of k v))%list in He |- *.
    pose proof (co_progress _ _ _ _ _ _ Hco) as P.
    pose proof (site_after busy k v w0 done w Hs Hdone P) as Hsw.
    destruct (fetch_siblings_good busy c k v name w Hsw Hm Hf) as (w1 & E1 & P1).
    { intros c'. pose proof (pr_epoch _ _ _ _ P c') as Hc'. specialize (He c'). rewrite !cost_of_app in He.
      pose proof (cost_of_nonneg (hs ≫= members_of k v)). lia. }
    pose proof (collected_step busy h k v w0 epochs done w c _ w1 Hco Hs Hdone Hm Hc Hgc P1) as Hco1.
    destruct (IHhs _ _ _ Hco1 Hs) as (epochs' & w' & E2 & Hco2 & Hsub).
    + intros a [Ha|Ha]%elem_of_app; [by apply Hdone|by eapply kid_sibling, Hm].
    + done.
    + intros n c' Hin. apply Hhs. by apply list_elem_of_further.
    + intros c'. specialize (He c'). by rewrite <- app_assoc.
    + exists epochs', w'. rewrite <- app_assoc in Hco2. split_and!; [|done|].
      * cbn [fetch_collections]. rewrite (bind_run get _ _ _ _ eq_refl), Hgc, Hmc.
        rewrite (bind_run _ _ w tt (remembered h c w1)); [exact E2|].
        unfold catch_all, try_catch. rewrite (bind_run _ _ _ _ _ E1). unfold remember_sub_handler, modify. by rewrite Hgc.
      * intros c' Hin. apply Hsub. destruct (record_epoch_spec c (epoch w c) epochs c') as (H1 & _ & _).
        cbn in Hin. rewrite list.elem_of_cons in Hin. rewrite H1. tauto.
Qed.

End loops.

(** ** Removal of what was not read *)

Lemma elem_of_keys_of w u f c y :
  typed w → y ∈ get_keys_of u f (tables w c) ↔
  ∃ r, has w c r ∧ m_parent_uuid r = u ∧ key r = y ∧ f r = true.
Proof using All.
  intros Ht. destruct (Ht c) as [Hb _]. rewrite list.Forall_forall in Hb.
  unfold get_keys_of, get_keys. rewrite list_elem_of_fmap. split.
  - intros (r & -> & [Hf Hr]%list_elem_of_filter). apply andb_true_iff in Hf as [E%bool_decide_eq_true Hf].
    exists r. split_and!; [done|done| |done]. by rewrite get_uuid_plain by auto.
  - intros (r & Hr & E & Ek & Hf). exists r. split; [by rewrite get_uuid_plain by auto|].
    apply list_elem_of_filter. split; [|done]. by rewrite bool_decide_eq_true_2.
Qed.

Lemma remove_counted_good busy h r w :
  forest_but busy height w → height (key r) < max_depth → proper h → has w h r → idle (busy := busy) w (key r) →
  ∃ w', (do_remove h (key r);; modify_ctx (count 0 1 0 0 0)) w = (Ok tt, w') ∧
    removes (busy := busy) height [key r] w w'.
Proof using All.
  intros Hf Hh Hp Hr Hid.
  destruct (do_remove_within_subtree height Hpurge max_depth h r w Hf Hh Hp Hr Hid) as (w1 & E1 & F1 & P1 & Hf1).
  eexists. split; [by rewrite (bind_run _ _ _ _ _ E1)|]. split_and!; [etrans; [exact F1|by split]|done|].
  by destruct Hf1; split.
Qed.

(** What is left of the tables after a removal is still in order. *)
Lemma removes_inv busy ks w w' : inv busy w → removes (busy := busy) height ks w w' → inv busy w'.
Proof using All.
  intros Hi (F & P & Hf). assert (∀ c r, has w' c r → has w c r) as Hs by (intros c r Hr; by apply P in Hr as [? _]).
  split; [done| | | | |].
  - intros c. rewrite (framed_epoch _ _ F). apply Hi.
  - intros c r Hr. rewrite (framed_epoch _ _ F). by apply Hi, Hs.
  - intros c r Hr. by apply Hi, Hs.
  - intros c r Hr Hn. destruct (inv_orphans _ _ Hi c r (Hs _ _ Hr) Hn) as (rp & Hrp & Ep).
    exists rp. split; [|done]. by eapply (pruned_parent ks (tables w) (tables w') c r).
  - intros c r Hr. by eapply (inv_height _ _ Hi), Hs.
Qed.

(** All collections were read, and the handlers in [hs] have removed. *)
Record settled (busy : list uuid) h v w0 (epochs : list (Component.t * Z)) (done : list uuid)
    (hs : list Component.t) w : Prop := {
  se_inv : inv busy w;
  se_calm : calm w0 w;
  se_good : good (env w);
  se_epoch c : (epoch w0 c ≤ epoch w c ≤ epoch w0 c + cost_of done)%Z;
  se_mirror a y : a ∈ done → desc a y → mirrored w y;
  se_clean a y : a ∈ done → desc a y → clean w y;
  se_new c r : has w c r → has w0 c r ∨ ∃ a, a ∈ done ∧ desc a (key r);
  se_kept c r : has w0 c r → ¬ below (tables w0) v (key r) ∨ key r = v → has w c r;
  se_known a : a ∈ done → kind_of a ∈ m_sub_components w h;
  se_touched a : a ∈ done → ∃ r, has w (kind_of a) r ∧ key r = a ∧ (epoch_of (kind_of a) epochs < m_touched_at r)%Z;
  se_stale c r : c ∈ hs → has w c r → m_parent_uuid r = v → m_agent_id r = gami_id →
    (epoch_of c epochs < m_touched_at r)%Z;
}.

(** A child of [v] that was not read, or something else below [v] and not in
    what was read. *)
Definition stale v (done : list uuid) w y : Prop :=
  height y < height v ∧ (∀ a, a ∈ done → ¬ desc a y) ∧ ∃ c r, has w c r ∧ key r = y ∧ m_parent_uuid r = v.

Lemma removes_settled busy h v w0 epochs done hs w ks w' :
  settled busy h v w0 epochs done hs w → inv busy w0 → (∀ a, a ∈ done → sibling v a) →
  (∀ y, y ∈ ks → stale v done w y) → removes (busy := busy) height ks w w' →
  settled busy h v w0 epochs done hs w'.
Proof using All.
  intros [Hi Hc Hg He Hm Hcl Hn Hk Hkn Ht Hst] Hi0 Hd Hks R. pose proof (removes_inv _ _ _ _ Hi R) as Hi'.
  destruct R as (F & P & Hf).
  assert (∀ c r, has w' c r → has w c r) as Hs by (intros c r Hr; by apply P in Hr as [? _]).
  assert (∀ a y c r, a ∈ done → desc a y → has w c r → key r = y → has w' c r) as Hread.
  { intros a y c r Ha Hy Hr Er. apply P. split; [done|]. intros z Hz. destruct (Hks z Hz) as (Hhz & Hnz & _).
    destruct (Hd a Ha) as (Na & Pa & _). rewrite Er.
    apply (not_below_cousin busy w a z); [done|done|by apply Hnz|by rewrite Pa|done]. }
  assert (calm w0 w') as Hc' by (etrans; [exact Hc|by apply framed_calm]).
  split; [done|done|by rewrite (framed_env _ _ F)| | | | | | | |].
  - intros c. rewrite (framed_epoch _ _ F). apply He.
  - intros a y Ha Hy. destruct (Hm a y Ha Hy) as (id & t & Hin). exists id, t. by eapply Hread.
  - intros a y Ha Hy c r Hcs Hr. by apply (Hcl a y Ha Hy), Hs.
  - intros c r Hr. by apply Hn, Hs.
  - intros c r Hr Hnb. apply P. split; [by apply Hk|]. intros z Hz Hb.
    destruct (Hks z Hz) as (Hhz & _ & cz & rz & Hrz & Ez & Epz).
    destruct Hnb as [Hnb|E]; [|apply (below_height _ _ _ _ Hi) in Hb; rewrite E in Hb; lia].
    apply Hnb. apply (below_back busy busy w0 w v (key r) Hi0 Hi).
    + intros c' r' Hr'. destruct (Hn c' r' Hr') as [?|(a & Ha & Hdr)]; [by left|right].
      destruct (Hd a Ha) as [Na _]. by destruct (desc_node a _ Na Hdr).
    + eapply below_trans; [|exact Hb]. rewrite <- Ez. eapply below_step; [exact Hrz|]. rewrite Epz. constructor.
    + left. by exists c, r.
  - intros a Ha. rewrite (framed_subs _ _ F). by apply Hkn.
  - intros a Ha. destruct (Ht a Ha) as (r & Hr & Er & Htr). exists r. split_and!; [|done|done].
    eapply (Hread a a); [done|constructor|done|done].
  - intros c r Hin Hr. by apply Hst, Hs.
Qed.

Lemma untouched_stale busy h v w0 epochs done hs w c r :
  settled busy h v w0 epochs done hs w → (∀ a, a ∈ done → sibling v a) →
  has w c r → m_parent_uuid r = v → (m_touched_at r ≤ epoch_of c epochs)%Z → stale v done w (key r).
Proof using All.
  intros Hse Hd Hr Ep Ht. pose proof (se_inv _ _ _ _ _ _ _ _ Hse) as Hi.
  destruct (inv_height _ _ Hi c r Hr) as [Hh _]. rewrite Ep in Hh. split_and!; [done| |by exists c, r].
  intros a Ha Hda. destruct (Hd a Ha) as (Na & Pa & Hha). destruct (desc_node a (key r) Na Hda) as [Nr _].
  destruct (inv_node _ _ Hi c r Hr Nr) as [Ec Ep']. destruct (desc_parent a (key r) Na Hda) as [E|Hdp].
  - destruct (se_touched _ _ _ _ _ _ _ _ Hse a Ha) as (r' & Hr' & Er' & Ht'). rewrite <- E, <- Ec in Hr', Ht'.
    assert (r' = r) as ->; [|lia].
    eapply plain_unique; [apply (forest_typed _ _ (inv_forest _ _ Hi) c)|done|done|congruence].
  - rewrite <- Ep', Ep in Hdp. destruct (desc_node a v Na Hdp) as [_ Hle]. lia.
Qed.

Lemma remove_untouched_good busy h k v w0 epochs done hs w c :
  settled busy h v w0 epochs done hs w → site busy k v w0 → (∀ a, a ∈ done → sibling v a) → proper c →
  ∃ w', remove_untouched c v (epoch_of c epochs) w = (Ok tt, w') ∧ settled busy h v w0 epochs done (c :: hs) w'.
Proof using All.
  intros Hse Hs Hd Hp. pose proof (se_inv _ _ _ _ _ _ _ _ Hse) as Hi. pose proof (inv_forest _ _ Hi) as Hf.
  pose proof (forest_typed _ _ Hf) as Ht. destruct Hp as [Hgc Hmc].
  unfold remove_untouched. rewrite (bind_run get _ _ _ _ eq_refl), Hmc.
  rewrite (calm_mode _ _ (se_calm _ _ _ _ _ _ _ _ Hse)), decide_True by apply Hs.
  set (f := λ entry : @Resource J, bool_decide (m_agent_id entry = gami_id) && negb (was_touched_after (epoch_of c epochs) entry)).
  set (ks := get_keys_of v f (tables w c)).
  assert (∀ y, y ∈ ks → ∃ r, has w c r ∧ m_parent_uuid r = v ∧ key r = y ∧ stale v done w y) as Hks.
  { intros y (r & Hr & Ep & <- & Hfr)%elem_of_keys_of; [|done]. exists r. split_and!; [done|done|done|].
    eapply untouched_stale; [done..|]. apply andb_true_iff in Hfr as [_ Hfr%negb_true_iff].
    unfold was_touched_after in Hfr. apply bool_decide_eq_false in Hfr. lia. }
  destruct (remove_list (busy := busy) height Hpurge max_depth
    (λ h u, do_remove h u;; modify_ctx (count 0 1 0 0 0)) (remove_counted_good busy) ks c w Hf (conj Hgc Hmc))
    as (w' & E & R).
  - by apply children_NoDup.
  - intros y Hy. destruct (Hks y Hy) as (r & Hr & Ep & Ek & Hst). destruct (inv_height _ _ Hi c r Hr) as [_ Hlt].
    rewrite Ek in Hlt. split_and!; [done| |by exists r].
    intros z Hz Hb. apply (below_height _ _ _ _ Hi) in Hz. destruct Hst as [Hh _].
    pose proof (site_path _ _ _ _ Hs z Hb). lia.
  - intros y y' Hy Hy' Hne Hb. destruct (Hks y Hy) as (_ & _ & _ & _ & Hh & _).
    destruct (Hks y' Hy') as (r' & Hr' & Ep' & Ek' & _). destruct Hb as [|c2 r2 Hr2 Hb]; [done|].
    assert (c2 = c) as -> by (by eapply (forest_global _ _ Hf)).
    assert (r2 = r') as -> by (eapply plain_unique; [apply (Ht c)|done|done|done]).
    rewrite Ep' in Hb. apply (below_height _ _ _ _ Hi) in Hb. lia.
  - exists w'. split; [exact E|].
    pose proof (removes_settled busy h v w0 epochs done hs w ks w' Hse (site_inv _ _ _ _ Hs) Hd) as Hse'.
    specialize (Hse' ltac:(intros y Hy; by destruct (Hks y Hy) as (_ & _ & _ & _ & ?)) R).
    destruct Hse' as [H1 H2 H3 H4 H5 H6 H7 H8 H9 H10 H11]. split; [done..|].
    intros c' r [->|Hin]%list.elem_of_cons Hr Ep Ea; [|by apply H11].
    destruct (decide (epoch_of c epochs < m_touched_at r)%Z) as [|Hnt]; [done|exfalso].
    destruct R as (_ & P & _). apply P in Hr as [Hr Hnb]. apply (Hnb (key r)); [|constructor].
    apply elem_of_keys_of; [done|]. exists r. split_and!; [done|done|done|]. unfold f, was_touched_after.
    rewrite bool_decide_eq_true_2 by done. rewrite bool_decide_eq_false_2 by lia. done.
Qed.

Lemma remove_all_untouched_good busy h k v w0 epochs done l hs w :
  settled busy h v w0 epochs done hs w → site busy k v w0 → (∀ a, a ∈ done → sibling v a) →
  (∀ name c, (name, c) ∈ l → proper c) →
  ∃ w', for_each l (λ '((_, sub_handler) : string * Component.t),
      remove_untouched sub_handler v (epoch_of (get_component sub_handler) epochs)) w = (Ok tt, w') ∧
    settled busy h v w0 epochs done (rev (l.*2) ++ hs) w'.
Proof using All.
  revert hs w. induction l as [|[name c] l IHl]; intros hs w Hse Hs Hd Hl; [by exists w|].
  destruct (Hl name c (list_elem_of_here _ _)) as [Hgc Hmc].
  destruct (remove_untouched_good busy h k v w0 epochs done hs w c Hse Hs Hd (conj Hgc Hmc)) as (w1 & E1 & Hse1).
  destruct (IHl (c :: hs) w1 Hse1 Hs Hd) as (w2 & E2 & Hse2).
  { intros n c' Hin. eapply Hl. by apply list_elem_of_further. }
  exists w2. split; [cbn [for_each]; rewrite Hgc; by rewrite (bind_run _ _ _ _ _ E1)|].
  cbn. by rewrite <- app_assoc.
Qed.

(** ** All collections of a resource *)

Record finished (busy : list uuid) h (cs : list Collection) k v w w' : Prop := {
  fi_inv : inv busy w';
  fi_calm : calm w w';
  fi_good : good (env w');
  fi_epoch c : (epoch w c ≤ epoch w' c ≤ epoch w c + cost_of (children_of cs k v))%Z;
  fi_mirror c a y : child cs k v c a → desc a y → mirrored w' y;
  fi_clean c a y : child cs k v c a → desc a y → clean w' y;
  fi_clean_at : clean_at cs k v w';
  fi_new c r : has w' c r → has w c r ∨ ∃ c' a, child cs k v c' a ∧ desc a (key r);
  fi_kept c r : has w c r → ¬ below (tables w) v (key r) ∨ key r = v → has w' c r;
  fi_known c a : child cs k v c a → c ∈ m_sub_components w' h;
}.

Lemma elem_of_children_of cs k v a : a ∈ children_of cs k v ↔ ∃ c, child cs k v c a.
Proof using Type.
  unfold children_of, child. rewrite list_elem_of_bind. split.
  - intros ([name c] & Ha & Hin). by exists c, name.
  - intros (c & name & Hin & Ha). by exists (name, c).
Qed.

(** In the end only children that were read are left. *)
Lemma settled_clean busy h cs k v w0 epochs hs w :
  settled busy h v w0 epochs (children_of cs k v) hs w → inv busy w0 → tree_at cs k v →
  (∀ c, c ∈ (get_handlers cs).*2 → c ∈ hs ∧ (epoch w0 c ≤ epoch_of c epochs)%Z) → clean_at cs k v w.
Proof using All.
  intros Hse Hi0 Hat Hhs c r Hc Hr Ep Ea. destruct (Hhs c Hc) as [Hin He].
  pose proof (se_stale _ _ _ _ _ _ _ _ Hse c r Hin Hr Ep Ea) as Ht.
  destruct (se_new _ _ _ _ _ _ _ _ Hse c r Hr) as [Hold|(a & Ha & Hd)].
  - pose proof (inv_touched _ _ Hi0 c r Hold). lia.
  - apply elem_of_children_of in Ha as (c' & Ha).
    destruct (at_child _ _ _ Hat c' a Ha) as (Na & Ek & _ & Pa & Hlt & _).
    destruct (desc_node a (key r) Na Hd) as [Nr _].
    destruct (inv_node _ _ (se_inv _ _ _ _ _ _ _ _ Hse) c r Hr Nr) as [Ec Ep'].
    destruct (desc_parent a (key r) Na Hd) as [E|Hdp].
    + rewrite E in Ec |- *. rewrite Ec, Ek. done.
    + rewrite <- Ep', Ep in Hdp. destruct (desc_node a v Na Hdp) as [_ Hle]. lia.
Qed.

Lemma collected_settled busy h k v w0 epochs done w :
  collected busy h w0 epochs done w → site busy k v w0 → (∀ a, a ∈ done → sibling v a) →
  settled busy h v w0 epochs done [] w.
Proof using All.
  intros [P Hk Ht He] Hs Hd. pose proof (site_inv _ _ _ _ Hs) as Hi0.
  split; [apply P|apply P|apply P|apply P|apply P|apply P|apply P| |done| |].
  - intros c r Hr Hnb. apply (pr_kept _ _ _ _ P); [done|]. intros a Ha Hb.
    destruct (Hd a Ha) as (Na & Pa & Hlt).
    destruct Hnb as [Hnb|E]; [|apply (below_height _ _ _ _ Hi0) in Hb; rewrite E in Hb; lia].
    apply Hnb. eapply below_trans; [|exact Hb].
    assert (∃ ra, has w0 (kind_of a) ra ∧ key ra = a) as (ra & Hra & Ea).
    { destruct (below_children _ _ _ Hb) as [E|(c' & r' & Hr' & Ep' & _)].
      - exists r. split; [|done]. destruct (inv_node _ _ Hi0 c r Hr) as [Ec _]; [by rewrite E|]. by rewrite Ec, E in Hr.
      - destruct (inv_orphans _ _ Hi0 c' r' Hr') as (rp & Hrp & Erp); [by rewrite Ep'|]. rewrite Ep' in Hrp, Erp. eauto. }
    destruct (inv_node _ _ Hi0 _ ra Hra) as [_ Epa]; [by rewrite Ea|]. rewrite Ea, Pa in Epa.
    rewrite <- Ea. eapply below_step; [exact Hra|]. rewrite Epa. constructor.
  - intros a Ha. by destruct (Ht a Ha).
  - by intros c r ?%elem_of_nil.
Qed.

Lemma subcomponents_good fuel busy h cs k v w :
  (∀ busy a w, ready busy a w → height a < fuel →
     ∃ id w', add fuel (kind_of a) (parent_of a) a true w = (Ok id, w') ∧ progress busy w [a] w') →
  inv busy w → good (env w) → get_component h = k → (node v → k = kind_of v ∧ present (tables w) k v) →
  v ∈ busy → (∀ b, b ∈ busy → height v ≤ height b) →
  mode (ctx w) = Mode.POLLING ∨ mode (ctx w) = Mode.LOADING →
  tree_at cs k v → height v ≤ fuel → (∀ c, epoch w c + cost_of (children_of cs k v) < 2 ^ 64)%Z →
  ∃ w', fetch_subcomponents (λ h' p' u', add fuel h' p' u' true) h v cs w = (Ok tt, w') ∧ finished busy h cs k v w w'.
Proof using All.
  intros IH Hi Hg Hk Hp Hb Hpa Hm Hat Hf He. unfold fetch_subcomponents. rewrite Hk.
  set (w0 := set_ctx (set_stack (k :: stack (ctx w)) (ctx w)) w).
  assert (site busy k v w0) as Hs by (split; [by apply (same_inv busy w)|done..]).
  rewrite (bind_run _ _ w tt w0) by done.
  assert (∀ a, a ∈ children_of cs k v → sibling v a) as Hsib.
  { intros a (c & Ha)%elem_of_children_of. eapply kid_sibling. exact (at_child _ _ _ Hat c a Ha). }
  destruct (collections_good fuel IH busy h k v (get_handlers cs) [] [] w0 w0) as (epochs & w1 & E1 & Hco & Hep).
  - split; [apply progress_nil; apply Hs|by intros a ?%elem_of_nil..|by intros c ?%elem_of_nil].
  - done.
  - by intros a ?%elem_of_nil.
  - done.
  - intros name c Hin. destruct (at_handlers _ _ _ Hat name c Hin) as [Hc Hpr]. split_and!; [done|done|].
    intros a Ha. apply (at_child _ _ _ Hat c a). by exists name.
  - exact He.
  - rewrite (bind_run _ _ _ _ _ E1). cbn [app] in Hco.
    destruct (remove_all_untouched_good busy h k v w0 epochs _ (get_handlers cs) [] w1
      (collected_settled busy h k v w0 epochs _ w1 Hco Hs Hsib) Hs Hsib) as (w2 & E2 & Hse).
    { intros name c Hin. by destruct (at_handlers _ _ _ Hat name c Hin). }
    rewrite (bind_run _ _ _ _ _ E2).
    set (w3 := set_ctx (set_stack (tail (stack (ctx w2))) (ctx w2)) w2). exists w3. split; [done|].
    assert (clean_at cs k v w2) as Hcl.
    { eapply settled_clean; [exact Hse|apply Hs|done|]. intros c Hc. split.
      - rewrite app_nil_r. by rewrite list_elem_of_In, <- in_rev, <- list_elem_of_In.
      - apply (co_epochs _ _ _ _ _ _ Hco). apply Hep. by left. }
    destruct Hse as [S1 [C1 C2 C3 C4 C5] S3 S4 S5 S6 S7 S8 S9 _ _].
    assert (∀ c a, child cs k v c a → a ∈ children_of cs k v ∧ kind_of a = c) as Hch.
    { intros c a Ha. split; [apply elem_of_children_of; by exists c|].
      by destruct (at_child _ _ _ Hat c a Ha) as (_ & ? & _). }
    split; [by apply (same_inv busy w2)| |done|exact S4| | |exact Hcl| |exact S8|].
    + split; [exact C1| |exact C3|exact C4|exact C5]. cbn. by rewrite C2.
    + intros c a y [Ha _]%Hch Hy. by apply (S5 a).
    + intros c a y [Ha _]%Hch Hy. by apply (S6 a).
    + intros c r Hr. destruct (S7 c r Hr) as [?|(a & (c' & Ha)%elem_of_children_of & Hd)]; [by left|right]. by exists c', a.
    + intros c a [Ha <-]%Hch. by apply S9.
Qed.

(** ** A resource with its descendants *)

Lemma desc_cons u c a y : child (m_collections (info u)) (kind_of u) u c a → desc a y → desc u y.
Proof using All.
  intros Hc. induction 1 as [|v c' b _ IH Hb]; [eapply desc_step; [constructor|exact Hc]|by eapply desc_step].
Qed.

(** The parent is no longer busy when its children are known. *)
Lemma idle_again busy u w :
  inv (u :: busy) w → (∀ c r, has w c r → m_parent_uuid r = u → c ∈ m_sub_components w (kind_of u)) → node u →
  inv busy w.
Proof using All.
  intros Hi Hk Hu. pose proof (inv_node _ _ Hi) as Hnode. destruct Hi as [[Ht Hl Hg Hkn Hh Hhe] H1 H2 H3 H4 H5].
  split; [|done..]. split; [done|done|done| |done|done].
  intros c r q rq Hr Hq E Hb. destruct (decide (m_parent_uuid r = u)) as [Eu|Hne].
  - assert (q = kind_of u) as ->; [|by eapply Hk].
    destruct (Hnode q rq Hq) as [-> _]; rewrite E, Eu; done.
  - eapply Hkn; [done|done|done|]. by apply not_elem_of_cons.
Qed.

Lemma fetched_progress busy u w id w1 w2 :
  ready busy u w → replaced (kind_of u) (entry_of (pkind u) (parent_of u) u id) w w1 → inv (u :: busy) w1 →
  calm w w1 → finished (u :: busy) (kind_of u) (m_collections (info u)) (kind_of u) u w1 w2 →
  progress busy w [u] w2.
Proof using All.
  intros [Hi Hg Hu Hpl Hpb Hhb Hm He] Hrep Hi1 Hc1 Fi. pose proof (tree_collections Htree u Hu) as Hat.
  pose proof Hrep as (t & Hx & Et & Hce).
  assert (∀ c r, has w1 c r → has w c r ∨ key r = u) as Hnew1.
  { intros c r [[-> ->]|[Hr _]]%Hx; [by right|by left]. }
  assert (∀ c r, has w1 c r → has w c r ∨ node (key r)) as Hnode1.
  { intros c r Hr. destruct (Hnew1 c r Hr) as [?|E]; [by left|right; by rewrite E]. }
  assert (t = epoch w (kind_of u) + 1)%Z as Et'.
  { rewrite Et. unfold next_epoch. apply wrap_small. pose proof (inv_epoch _ _ Hi (kind_of u)).
    specialize (He (kind_of u)). pose proof (at_cost _ _ _ Hat). pose proof (cost_of_nonneg (children_of (m_collections (info u)) (kind_of u) u)).
    split; lia. }
  assert (has w2 (kind_of u) (touch t (entry_of (pkind u) (parent_of u) u id))) as Hown.
  { apply (fi_kept _ _ _ _ _ _ _ Fi); [apply Hx; by left|by right]. }
  split.
  - apply (idle_again busy u w2 (fi_inv _ _ _ _ _ _ _ Fi)); [|done]. intros c r Hr Ep.
    destruct (fi_new _ _ _ _ _ _ _ Fi c r Hr) as [Hr1|(c' & a & Ha & Hd)].
    + destruct (Hnew1 c r Hr1) as [Hr0|E].
      * apply (calm_subs _ _ (fi_calm _ _ _ _ _ _ _ Fi)), (calm_subs _ _ Hc1).
        destruct (inv_orphans _ _ Hi c r Hr0) as (rp & Hrp & Erp); [by rewrite Ep|]. rewrite Ep in Hrp, Erp.
        apply (forest_known _ _ (inv_forest _ _ Hi) c r _ rp); [done|done|congruence|]. rewrite Ep. intros Hb.
        specialize (Hhb u Hb). lia.
      * destruct (inv_height _ _ (fi_inv _ _ _ _ _ _ _ Fi) c r Hr) as [Hlt _]. rewrite E, Ep in Hlt. lia.
    + destruct (at_child _ _ _ Hat c' a Ha) as (Na & Ek & _ & Pa & Hlt & _).
      destruct (desc_node a (key r) Na Hd) as [Nr _].
      destruct (inv_node _ _ (fi_inv _ _ _ _ _ _ _ Fi) c r Hr Nr) as [Ec Ep'].
      destruct (desc_parent a (key r) Na Hd) as [E|Hdp].
      * rewrite Ec, E, Ek. by eapply (fi_known _ _ _ _ _ _ _ Fi).
      * rewrite <- Ep', Ep in Hdp. destruct (desc_node a u Na Hdp) as [_ Hle]. lia.
  - etrans; [exact Hc1|apply Fi].
  - apply Fi.
  - intros c. pose proof (fi_epoch _ _ _ _ _ _ _ Fi c) as Hc. rewrite Hce in Hc.
    pose proof (at_cost _ _ _ Hat). cbn. case_decide; [subst c|]; lia.
  - intros u' y ->%list_elem_of_singleton [->|(c & a & Ha & Hd)]%desc_head; [by exists id, t|].
    by eapply (fi_mirror _ _ _ _ _ _ _ Fi).
  - intros u' y ->%list_elem_of_singleton [->|(c & a & Ha & Hd)]%desc_head; [apply Fi|].
    by eapply (fi_clean _ _ _ _ _ _ _ Fi).
  - intros c r Hr Hnb. specialize (Hnb u (list_elem_of_here _ _)).
    assert (has w1 c r) as Hr1.
    { apply Hx. right. split; [done|]. intros _ E. apply Hnb. cbn in E. rewrite E. constructor. }
    apply (fi_kept _ _ _ _ _ _ _ Fi); [done|]. left. intros Hb. apply Hnb.
    apply (below_back busy (u :: busy) w w1 u (key r)); [done|done|done|done|left; by exists c, r].
  - intros c r Hr. destruct (fi_new _ _ _ _ _ _ _ Fi c r Hr) as [Hr1|(c' & a & Ha & Hd)].
    + destruct (Hnew1 c r Hr1) as [?|E]; [by left|right]. exists u. split; [apply list_elem_of_here|]. rewrite E. constructor.
    + right. exists u. split; [apply list_elem_of_here|]. by eapply desc_cons.
  - intros a ->%list_elem_of_singleton. eexists. split_and!; [exact Hown|done|]. cbn. lia.
Qed.

(** [add] reads a resource with its descendants. *)
Lemma add_good fuel busy u w :
  ready busy u w → height u < fuel →
  ∃ id w', add fuel (kind_of u) (parent_of u) u true w = (Ok id, w') ∧ progress busy w [u] w'.
Proof using All.
  revert busy u w. induction fuel as [|fuel IH]; intros busy u w Hrd Hh; [lia|].
  pose proof Hrd as [Hi Hg Hu Hpl Hpb Hhb Hm He]. pose proof (tree_collections Htree u Hu) as Hat.
  pose proof (at_cost _ _ _ Hat) as Hcost.
  pose proof (cost_of_nonneg (children_of (m_collections (info u)) (kind_of u) u)) as Hnn.
  destruct (tree_generic Htree u Hu) as (_ & [Hgc Hmc] & _).
  destruct (fetch_good busy u w Hi Hg Hu Hpl Hpb Hhb) as (r & id & w1 & E1 & Ecs & Hrep & Hi1 & Hg1 & Hc1 & Hs1).
  { specialize (He (kind_of u)). lia. }
  pose proof Hrep as (t & Hx & Et & Hce).
  destruct (subcomponents_good fuel (u :: busy) (kind_of u) (m_collections (info u)) (kind_of u) u w1 IH Hi1 Hg1 Hgc)
    as (w2 & E2 & Fi).
  - intros _. split; [done|]. eexists. split; [apply Hx; by left|done].
  - apply list_elem_of_here.
  - intros b [->|Hb]%list.elem_of_cons; [done|]. specialize (Hhb b Hb). lia.
  - by rewrite (calm_mode _ _ Hc1).
  - done.
  - lia.
  - intros c. rewrite Hce. specialize (He c). case_decide; [subst c|lia].
    rewrite Et. unfold next_epoch. rewrite wrap_small; [lia|]. pose proof (inv_epoch _ _ Hi (kind_of u)). split; lia.
  - exists (m_id r), w2. split; [|by eapply fetched_progress].
    cbn [add]. rewrite decide_False by (intros E; by rewrite E in Hgc).
    rewrite (bind_run _ _ _ _ _ E1), Ecs. by rewrite (bind_run _ _ _ _ _ E2).
Qed.

(** ** A poll *)

(** The resources that the agent has, from its root collections on. *)
Definition has_resource v : Prop := ∃ c a, child root_collections Component.None_ "" c a ∧ desc a v.


End sync.

(** ** An agent with a manager and a system *)

#[local] Existing Instance sample_metric.
#[local] Existing Instance sample_fields.

Definition agent_info (u : uuid) : @Resource Z :=
  entry Component.None_ "" "" (if decide (u = "m") then [mkCollection "Systems" CollectionType.Systems] else []).

Definition agent_lists (req : Request) : list uuid :=
  match req with
  | GetManagersCollection => ["m"]
  | GetCollection v _ => if decide (v = "m") then ["s"] else []
  | _ => []
  end.

#[local] Instance agent_service : Service Z unit raw Z :=
  {| compute_hash := λ _, "";
     call := λ req, mret (match req with GetInfo _ u => Entry (agent_info u) | _ => Uuids (agent_lists req) end);
     clock := λ _, 0%Z;
     entry_from_json := λ j, match j with Entry r => Ok r | _ => Throw (json_rpc_exception (-1)) end;
     uuids_from_json := λ j, match j with Uuids l => Ok l | _ => Throw (json_rpc_exception (-1)) end;
     metrics_from_json := λ _, Throw (json_rpc_exception (-1));
     gami_id := "agent";
     policy_get_id := λ _ _ _ n, (Ok (n + 1)%Z, (n + 1)%Z);
     policy_purge := λ _ _ _ n, (Ok tt, n);
     max_depth := 10;
     handlers_order := component_handlers;
     tables_order := component_handlers |}.

Definition agent_node (u : uuid) : Prop := u = "m" ∨ u = "s".
Definition agent_kind (u : uuid) : Component.t := if decide (u = "m") then Component.Manager else Component.System.
Definition agent_pkind (u : uuid) : Component.t := if decide (u = "m") then Component.None_ else Component.Manager.
Definition agent_parent (u : uuid) : uuid := if decide (u = "m") then "" else "m".
Definition agent_height (u : uuid) : nat := if decide (u = "") then 2 else if decide (u = "m") then 1 else 0.

(** In the model there is a system that the agent no longer has. *)
Definition old_world : @World Z unit Z :=
  mkWorld (λ c, match c with
                | Component.Manager => mkManager [entry Component.None_ "" "m" []] 1
                | Component.System => mkManager [entry Component.Manager "m" "old" []] 1
                | _ => mkManager [] 1
                end)
    (λ c, match c with Component.Manager => [Component.System] | _ => [] end)
    (λ _, []) 0%Z tt None true [] (context0 Mode.EVENT []).

Lemma old_holds c r : holds (tables old_world) c r →
  c = Component.Manager ∧ r = entry Component.None_ "" "m" [] ∨
  c = Component.System ∧ r = entry Component.Manager "m" "old" [].
Proof. unfold holds. destruct c; cbn; rewrite ?list_elem_of_singleton, ?elem_of_nil; tauto. Qed.

Lemma old_inv : inv agent_node agent_kind agent_parent agent_height [""] old_world.
Proof.
  split.
  - split.
    + intros c. unfold plain, plain_list. destruct c; split; apply (bool_decide_eq_true_1 _); vm_compute; reflexivity.
    + intros c r [[-> ->]|[-> ->]]%old_holds; by split.
    + intros c c' r r' [[-> ->]|[-> ->]]%old_holds [[-> ->]|[-> ->]]%old_holds; done.
    + intros c r q rq [[-> ->]|[-> ->]]%old_holds [[-> ->]|[-> ->]]%old_holds E _; try done. apply list_elem_of_here.
    + intros q c Hc. destruct q; cbn in Hc; try by apply elem_of_nil in Hc.
      apply list_elem_of_singleton in Hc as ->. split; [|done]. apply (bool_decide_eq_true_1 _). vm_compute. reflexivity.
    + intros c r q rq [[-> ->]|[-> ->]]%old_holds [[-> ->]|[-> ->]]%old_holds E; try done. vm_compute. lia.
  - intros []; vm_compute; discriminate.
  - intros c r [[-> ->]|[-> ->]]%old_holds; vm_compute; discriminate.
  - intros c r [[-> ->]|[-> ->]]%old_holds [E|E]; done.
  - intros c r [[-> ->]|[-> ->]]%old_holds [E|E]; try done.
    exists (entry Component.None_ "" "m" []). split; [apply list_elem_of_here|done].
  - intros c r [[-> ->]|[-> ->]]%old_holds; vm_compute; lia.
Qed.

Definition agent_cost (u : uuid) : Z := if decide (u = "") then 3 else if decide (u = "m") then 2 else 1.

Lemma agent_is_stable : stable_agent agent_info agent_lists agent_node agent_kind (λ _, True).
Proof.
  split.
  - intros u [] _ _. by exists (Entry (agent_info u)), tt.
  - intros req [] Hl _. exists (Uuids (agent_lists req)), tt. split_and!; [|done|done]. by destruct req.
Qed.

Lemma agent_child cs k v c a :
  (cs, k, v) ∈ [(root_collections, Component.None_, ""); (m_collections (agent_info "m"), Component.Manager, "m");
                (m_collections (agent_info "s"), Component.System, "s")] →
  child agent_lists cs k v c a → k = Component.None_ ∧ v = "" ∧ c = Component.Manager ∧ a = "m" ∨
    k = Component.Manager ∧ v = "m" ∧ c = Component.System ∧ a = "s".
Proof.
  intros Hin (name & Hc & Ha).
  assert (Forall (λ h, Forall (λ a, k = Component.None_ ∧ v = "" ∧ h.2 = Component.Manager ∧ a = "m" ∨
      k = Component.Manager ∧ v = "m" ∧ h.2 = Component.System ∧ a = "s") (members_of agent_lists k v h))
    (get_handlers cs)) as Hall.
  { rewrite !list.elem_of_cons, elem_of_nil in Hin. destruct Hin as [[= -> -> ->]|[[= -> -> ->]|[[= -> -> ->]|[]]]].
    all: apply (bool_decide_eq_true_1 _); vm_compute; reflexivity. }
  rewrite list.Forall_forall in Hall. specialize (Hall _ Hc). rewrite list.Forall_forall in Hall. exact (Hall _ Ha).
Qed.

Lemma agent_tree_at cs k v :
  (cs, k, v) ∈ [(root_collections, Component.None_, ""); (m_collections (agent_info "m"), Component.Manager, "m");
                (m_collections (agent_info "s"), Component.System, "s")] →
  tree_at agent_lists agent_node agent_kind agent_pkind agent_parent agent_height agent_cost cs k v.
Proof.
  intros Hin. split.
  - intros name c Hc. assert (Forall (λ h : string * Component.t, h.2 ∈ component_handlers ∧
      get_component h.2 = h.2 ∧ model_of h.2 = h.2) (get_handlers cs)) as Hall.
    { rewrite !list.elem_of_cons, elem_of_nil in Hin. destruct Hin as [[= -> -> ->]|[[= -> -> ->]|[[= -> -> ->]|[]]]].
      all: apply (bool_decide_eq_true_1 _); vm_compute; reflexivity. }
    rewrite list.Forall_forall in Hall. exact (Hall _ Hc).
  - intros c a Ha. destruct (agent_child _ _ _ _ _ Hin Ha) as [(-> & -> & -> & ->)|(-> & -> & -> & ->)].
    + split_and!; try done; [by left|vm_compute; lia].
    + split_and!; try done; [by right|vm_compute; lia].
  - rewrite !list.elem_of_cons, elem_of_nil in Hin. destruct Hin as [[= -> -> ->]|[[= -> -> ->]|[[= -> -> ->]|[]]]].
    all: vm_compute; reflexivity.
Qed.

Lemma agent_is_tree :
  agent_tree agent_info agent_lists agent_node agent_kind agent_pkind agent_parent agent_height agent_cost.
Proof.
  split.
  - intros u [->| ->]; split_and!; try done; [apply (bool_decide_eq_true_1 _); vm_compute; reflexivity|..].
    apply (bool_decide_eq_true_1 _). vm_compute. reflexivity.
  - intros u [->| ->]; vm_compute; lia.
  - intros u [->| ->]; apply agent_tree_at; [apply list_elem_of_further, list_elem_of_here|].
    apply list_elem_of_further, list_elem_of_further, list_elem_of_here.
  - intros u. unfold agent_cost. repeat case_decide; done.
Qed.


End HandlerSync.
