(* ===== verification/Watcher.v ===== *)
(** The watcher of the REST service (application/src/rest/model/watcher.cpp):
    one thread that runs periodic tasks and, while none is due, handles the
    notifications of the agents.

    This is the scheduler, against the interface [WatcherEnv] of the tasks, the
    clock and the queue of notifications; [WatcherTasks] implements it.  The vector [added_tasks] is
    a list, its back is the last element.  An iteration of the loop is
    [watch_iteration]; [watch] runs it while [m_running], which another thread may
    reset at any time, at most [fuel] times.  Times are in nanoseconds. *)

From Stdlib Require Import ZArith Lia Sorted.
From S2P Require Import Prelude.

Module Watcher.

Open Scope Z_scope.

(** ** Interface *)

(** [now] reads the steady clock; [wait_for_and_pop] waits for a notification for
    a second; [is_running] reads [m_running]. *)
Class WatcherEnv (S Task Notification : Type) := {
  now : M S Z;
  is_running : M S bool;
  wait_for_and_pop : M S (option Notification);
  process_notification : Notification → M S unit;
  get_interval : Task → Z;
  execute : Task → M S unit;
  started : Task → M S unit;
  stopped : Task → M S unit;
}.

(** What the theorems use of the clock: it returns and never goes back, whatever
    is done between two readings. *)
Class ClockLaws (S Task Notification : Type) `{!WatcherEnv S Task Notification} := {
  time : S → Z;
  now_reads s : ∃ v s', now s = (Ok v, s') ∧ time s ≤ v ≤ time s';
  execute_time t s : time s ≤ time (execute t s).2;
  stopped_time t s : time s ≤ time (stopped t s).2;
}.

Section watcher.
Context {S Task Notification : Type} `{!WatcherEnv S Task Notification}.

(** [std::sort] with a comparison. *)
Variable sort : ∀ A, (A → A → bool) → list A → list A.

Record Registration := mkRegistration { task : Task; next_run : Z; executed : Z }.

Record Watcher := mkWatcher { added_tasks : list Registration; env : S }.

Definition set_tasks (l : list Registration) (w : Watcher) : Watcher := mkWatcher l (env w).
Definition on_env {A} (m : M S A) : M Watcher A := zoom env (λ s w, mkWatcher (added_tasks w) s) m.

(** ** The operations *)

Fixpoint insert_sorted (reg : Registration) (l : list Registration) : list Registration :=
  match l with
  | [] => [reg]
  | it :: l' => if next_run it <=? next_run reg then reg :: l else it :: insert_sorted reg l'
  end.

Definition insert (reg : Registration) : M Watcher unit :=
  modify (λ w, set_tasks (insert_sorted reg (added_tasks w)) w).

Definition add_task (t : Task) : M Watcher unit :=
  r ← on_env is_running;
  (if (r : bool) then on_env (started t) else mret tt);;
  v ← on_env now;
  insert (mkRegistration t (v + get_interval t) 0).

(** The start of [watch]: the first loop and the sort. *)
Fixpoint start_tasks (l : list Registration) : M S (list Registration) :=
  match l with
  | [] => mret []
  | it :: l' =>
      v ← now;
      started (task it);;
      l'' ← start_tasks l';
      mret (mkRegistration (task it) (v + get_interval (task it)) (executed it) :: l'')
  end.

Definition start_watching : M Watcher unit :=
  w ← get;
  l ← on_env (start_tasks (added_tasks w));
  modify (set_tasks (sort _ (λ l r, next_run r <? next_run l) l)).

(** [added_tasks.back()] and [pop_back] *)
Definition pop_back (l : list Registration) : option (list Registration * Registration) :=
  match list.last l with Some r => Some (removelast l, r) | None => None end.

(** The run of a task that was taken from the queue: whether it is added back. *)
Definition run_task (t : Task) : M S bool :=
  try_catch (execute t;; mret true) (λ e,
    if decide (e = stop_watching) then stopped t;; mret false
    else if decide (e = out_of_fuel) then throw e else mret true).

(** The body of [while (m_running)]. *)
Definition watch_iteration : M Watcher unit :=
  w ← get;
  due ← match pop_back (added_tasks w) with
        | Some (rest, found) =>
            v ← on_env now;
            mret (if next_run found <=? v then Some (rest, found) else None)
        | None => mret None
        end;
  match due with
  | Some (rest, found) =>
      modify (set_tasks rest);;
      let found := mkRegistration (task found) (next_run found + get_interval (task found))
        (wrap 32 (executed found + 1)) in
      again ← on_env (run_task (task found));
      if (again : bool) then insert found else mret tt
  | None =>
      notification ← on_env wait_for_and_pop;
      r ← on_env is_running;
      match notification with
      | Some n => if (r : bool) then on_env (process_notification n) else mret tt
      | None => mret tt
      end
  end.

Fixpoint watch_loop (fuel : nat) : M Watcher unit :=
  r ← on_env is_running;
  if (r : bool) then
    match fuel with
    | O => throw out_of_fuel
    | Datatypes.S fuel' => watch_iteration;; watch_loop fuel'
    end
  else mret tt.

Definition watch (fuel : nat) : M Watcher unit :=
  start_watching;;
  watch_loop fuel;;
  w ← get;
  on_env (for_each (added_tasks w) (λ it, stopped (task it))).

(** ** The order of the queue *)

(** The registrations from the back of the vector: sorted by their next run. *)
Definition sorted (l : list Registration) : Prop := StronglySorted (λ x y, next_run y ≤ next_run x) l.

Lemma insert_sorted_split reg l :
  sorted l → ∃ l1 l2, l = l1 ++ l2 ∧ insert_sorted reg l = l1 ++ reg :: l2 ∧
    Forall (λ x, next_run reg < next_run x) l1 ∧ Forall (λ x, next_run x ≤ next_run reg) l2.
Proof.
  induction 1 as [|it l Hs IH Hit]; cbn [insert_sorted]; [by exists [], []|].
  destruct (next_run it <=? next_run reg) eqn:E.
  - apply Z.leb_le in E. exists [], (it :: l). split_and!; [done..|]. constructor; [done|].
    eapply list.Forall_impl; [exact Hit|]. cbn. lia.
  - apply Z.leb_gt in E. destruct IH as (l1 & l2 & -> & -> & H1 & H2).
    exists (it :: l1), l2. split_and!; [done|done|by constructor|done].
Qed.

Lemma sorted_app l1 l2 :
  sorted (l1 ++ l2) ↔ sorted l1 ∧ sorted l2 ∧ ∀ x y, x ∈ l1 → y ∈ l2 → next_run y ≤ next_run x.
Proof.
  unfold sorted. induction l1 as [|x l1 IH]; cbn [app].
  - split; [|tauto]. intros Hs. split_and!; [constructor|done|]. intros ? ? H. by apply not_elem_of_nil in H.
  - assert (∀ y l, StronglySorted (λ x y, next_run y ≤ next_run x) (y :: l) ↔
      StronglySorted (λ x y, next_run y ≤ next_run x) l ∧ Forall (λ z, next_run z ≤ next_run y) l) as Hc
      by (intros y l; split; [apply StronglySorted_inv|intros []; by constructor]).
    rewrite !Hc, IH, Forall_app, !list.Forall_forall. split.
    + intros ((H1 & H2 & H3) & H4 & H5). split_and!; [done..|].
      intros z y [->|Hz]%list.elem_of_cons Hy; [by apply H5|by apply H3].
    + intros ((H1 & H2) & H3 & H4). split_and!; [done|done| |done|].
      * intros z y Hz Hy. apply H4; [by apply list.elem_of_cons; right|done].
      * intros y Hy. apply H4; [by apply list.elem_of_cons; left|done].
Qed.

Lemma insert_sorted_sorted reg l : sorted l → sorted (insert_sorted reg l).
Proof.
  intros Hs. destruct (insert_sorted_split reg l Hs) as (l1 & l2 & -> & -> & H1 & H2).
  apply sorted_app in Hs as (S1 & S2 & S3). rewrite list.Forall_forall in H1, H2.
  apply sorted_app. split_and!; [done|constructor; [done|by apply list.Forall_forall]|].
  intros x y Hx [->|Hy]%list.elem_of_cons; [specialize (H1 _ Hx); lia|by apply S3].
Qed.

Lemma pop_back_snoc l x : pop_back (l ++ [x]) = Some (l, x).
Proof. unfold pop_back. by rewrite last_snoc, removelast_last. Qed.

(** ** One iteration *)

(** A registration after its task was run. *)
Definition rescheduled (x : Registration) : Registration :=
  mkRegistration (task x) (next_run x + get_interval (task x)) (wrap 32 (executed x + 1)).

Context `{Hlaws : !ClockLaws S Task Notification}.

Lemma run_task_time t s : time s ≤ time (run_task t s).2.
Proof using Type*.
  pose proof (execute_time t s) as He. unfold run_task, try_catch, mbind, M_bind.
  destruct (execute t s) as [[[]|e] s1]; cbn in He; [done|].
  case_decide; [|by case_decide].
  pose proof (stopped_time t s1) as Hs. destruct (stopped t s1) as [[[]|e'] s2]; cbn in *; lia.
Qed.

(** The task at the back of the vector is run once it is due, then put back. *)
Lemma iteration_due l x s b :
  next_run x ≤ time s →
  ∃ v s1, now s = (Ok v, s1) ∧ time s ≤ time s1 ∧
    (∀ s2, run_task (task x) s1 = (Ok b, s2) →
       watch_iteration (mkWatcher (l ++ [x]) s) =
         (Ok tt, mkWatcher (if b then insert_sorted (rescheduled x) l else l) s2)).
Proof using Type*.
  intros Hd. destruct (now_reads s) as (v & s1 & Hn & Hv). exists v, s1. split_and!; [done|lia|].
  intros s2 Hr. unfold watch_iteration. rewrite (bind_run get _ _ _ _ eq_refl). cbn [added_tasks].
  rewrite pop_back_snoc. unfold mbind at 1, M_bind. unfold mbind at 1, M_bind. unfold on_env at 1, zoom. cbn [env].
  rewrite Hn. cbn. rewrite (proj2 (Z.leb_le _ _)) by lia. run_monad. cbn [set_tasks env added_tasks].
  cbn [task]. unfold on_env, zoom. cbn [env set_tasks]. rewrite Hr. by destruct b.
Qed.

(** ** Tasks that are due are run *)

Fixpoint iterations (n : nat) : M Watcher unit :=
  match n with O => mret tt | Datatypes.S n' => watch_iteration;; iterations n' end.

(** How often a task is run before one that is due at [t]. *)
Definition runs_before (t : Z) (y : Registration) : nat :=
  if decide (next_run y ≤ t) then Z.to_nat ((t - next_run y) / get_interval (task y) + 1) else 0.

Definition overdue (t : Z) (l : list Registration) : nat := sum_list (runs_before t <$> l).

Lemma overdue_perm t l l' : l ≡ₚ l' → overdue t l = overdue t l'.
Proof using Type. intros Hp. unfold overdue. by rewrite Hp. Qed.

Lemma runs_before_rescheduled t y :
  0 < get_interval (task y) → next_run y ≤ t →
  runs_before t y = Datatypes.S (runs_before t (rescheduled y)).
Proof using Type.
  intros Hi Hy. unfold runs_before. rewrite decide_True by done. cbn [rescheduled next_run task].
  set (d := get_interval (task y)) in *.
  assert ((t - next_run y) / d = (t - (next_run y + d)) / d + 1) as E.
  { rewrite <- Z.div_add by lia. f_equal. lia. }
  case_decide.
  - rewrite E. assert (0 ≤ (t - (next_run y + d)) / d) by (apply Z.div_pos; lia). lia.
  - rewrite (Z.div_small (t - next_run y) d) by lia. done.
Qed.

(** A run of another task that is not later leaves [x] in the queue and closer to
    its turn. *)
Lemma overdue_decreases (b : bool) x y l1 l2 :
  0 < get_interval (task y) → Forall (λ y, 0 < get_interval (task y)) (l1 ++ l2) →
  sorted (l1 ++ x :: l2) → next_run y ≤ next_run x →
  ∃ m1 m2, (if b then insert_sorted (rescheduled y) (l1 ++ x :: l2) else l1 ++ x :: l2) = m1 ++ x :: m2 ∧
    (overdue (next_run x) (m1 ++ m2) < overdue (next_run x) (l1 ++ l2 ++ [y]))%nat ∧
    Forall (λ y, 0 < get_interval (task y)) (m1 ++ m2).
Proof using Type.
  intros Hi Hl Sl Hyx.
  rewrite (overdue_perm _ (l1 ++ l2 ++ [y]) (y :: l1 ++ l2))
    by (rewrite app_assoc; symmetry; apply Permutation_cons_append).
  unfold overdue at 2. cbn. rewrite runs_before_rescheduled by done.
  destruct b; [|exists l1, l2; split_and!; [done|unfold overdue; lia|done]].
  destruct (insert_sorted_split (rescheduled y) _ Sl) as (k1 & k2 & El & Ei & _). rewrite Ei.
  assert (∀ m1 m2, m1 ++ m2 ≡ₚ rescheduled y :: l1 ++ l2 →
    (overdue (next_run x) (m1 ++ m2) < Datatypes.S (runs_before (next_run x) (rescheduled y)) +
       sum_list (runs_before (next_run x) <$> l1 ++ l2))%nat ∧ Forall (λ y, 0 < get_interval (task y)) (m1 ++ m2)) as Hp.
  { intros m1 m2 Hp. rewrite (overdue_perm _ _ _ Hp). split; [unfold overdue; cbn; lia|].
    rewrite list.Forall_forall. intros z Hz. rewrite Hp in Hz. revert z Hz. apply list.Forall_forall. by constructor. }
  apply app_eq_inv in El as [(k & -> & ->)|(k & -> & Ek)].
  - exists (k1 ++ rescheduled y :: k), l2. rewrite <- app_assoc. split; [done|].
    apply Hp. rewrite <- !app_assoc. cbn [app]. symmetry. apply Permutation_middle.
  - destruct k as [|z k]; cbn in Ek.
    + subst k2. exists (l1 ++ [rescheduled y]), l2. rewrite app_nil_r, <- (app_assoc l1). split; [done|].
      apply Hp. rewrite <- app_assoc. cbn [app]. symmetry. apply Permutation_middle.
    + injection Ek as <- ->. exists l1, (k ++ rescheduled y :: k2). rewrite <- app_assoc. split; [done|].
      apply Hp. rewrite !app_assoc. symmetry. apply Permutation_middle.
Qed.

(** C35: a task that is due is run.  If no task has interval zero and no task
    hangs, then whatever the others do, after at most [overdue] more iterations
    (every other task [y] is run at most once per interval that it is late behind
    [x]) the registration [x] is the one the next iteration runs, and it is put
    back one interval later. *)
Theorem due_task_is_reached (I : S → Prop) n x l1 l2 s :
  Forall (λ y, 0 < get_interval (task y)) (l1 ++ l2) → (∀ t s, I s → ∃ b s', run_task t (now s).2 = (Ok b, s') ∧ I s') → I s →
  sorted (l1 ++ x :: l2) → next_run x ≤ time s → overdue (next_run x) (l1 ++ l2) = n →
  ∃ k l s', (k ≤ n)%nat ∧ iterations k (mkWatcher (l1 ++ x :: l2) s) = (Ok tt, mkWatcher (l ++ [x]) s') ∧
    ∃ v s1 b s2, now s' = (Ok v, s1) ∧ next_run x ≤ v ∧ run_task (task x) s1 = (Ok b, s2) ∧
      watch_iteration (mkWatcher (l ++ [x]) s') =
        (Ok tt, mkWatcher (if b then insert_sorted (rescheduled x) l else l) s2).
Proof using Type*.
  intros Hi Hr. revert l1 l2 s Hi. induction n as [n IH] using lt_wf_ind. intros l1 l2 s Hi HI Hs Hd Hn.
  destruct l2 as [|y l2 _] using rev_ind.
  - exists O, l1, s. split_and!; [lia|done|].
    destruct (now_reads s) as (v & s1 & Hv & Ht). destruct (Hr (task x) s HI) as (b & s2 & Hrun & HI').
    rewrite Hv in Hrun. cbn [snd] in Hrun.
    destruct (iteration_due l1 x s b Hd) as (v' & s1' & Hv' & _ & Hit).
    rewrite Hv in Hv'. simplify_eq. exists v', s1', b, s2. split_and!; [done|lia|done|by apply Hit].
  - rewrite app_comm_cons, app_assoc in Hs |- *. set (l := l1 ++ x :: l2) in *.
    apply sorted_app in Hs as (Sl & _ & Hy).
    assert (next_run y ≤ next_run x) as Hyx.
    { apply Hy; [apply elem_of_app; right|]; apply list_elem_of_here. }
    destruct (now_reads s) as (v & s1 & Hv & Ht). destruct (Hr (task y) s HI) as (b & s2 & Hrun & HI').
    rewrite Hv in Hrun. cbn [snd] in Hrun.
    destruct (iteration_due l y s b ltac:(lia)) as (v' & s1' & Hv' & Hle & Hit).
    rewrite Hv in Hv'. simplify_eq. specialize (Hit _ Hrun).
    pose proof (run_task_time (task y) s1') as Hrt. rewrite Hrun in Hrt. cbn in Hrt.
    rewrite app_assoc in Hi. apply Forall_app in Hi as [Hi [Hiy _]%list.Forall_cons].
    destruct (overdue_decreases b x y l1 l2 Hiy Hi Sl Hyx) as (m1 & m2 & Em & Hm & Him). fold l in Em.
    assert (sorted (m1 ++ x :: m2)) as Hsm.
    { rewrite <- Em. destruct b; [by apply insert_sorted_sorted|done]. }
    destruct (IH (overdue (next_run x) (m1 ++ m2)) ltac:(lia) m1 m2 s2 Him HI' Hsm ltac:(lia) eq_refl)
      as (k & l' & s' & Hk & Hrk & Hend).
    exists (Datatypes.S k), l', s'. split_and!; [lia| |done].
    cbn [iterations]. rewrite Em in Hit. by rewrite (bind_run _ _ _ _ _ Hit).
Qed.

(** ** Starvation *)

(** What [n] runs of a task with interval zero make of its registration. *)
Definition ran (n : nat) (z : Registration) : Registration := Nat.iter n rescheduled z.

(** A task with interval zero, such as a polling task whose
    configured poll-interval-sec is zero or missing, starves everything else.  Its next run never moves, so
    once it is due and first in the queue every iteration runs it again: no other
    task is ever run and no notification of an agent is ever taken from the
    queue, the environment changes only by the runs of this task. *)
Theorem zero_interval_starves (I : S → Prop) n l z s :
  get_interval (task z) = 0 → Forall (λ y, next_run z < next_run y) l → next_run z ≤ time s →
  I s → (∀ s, I s → ∃ s', run_task (task z) (now s).2 = (Ok true, s') ∧ I s') →
  iterations n (mkWatcher (l ++ [z]) s) =
    (Ok tt, mkWatcher (l ++ [ran n z]) (Nat.iter n (λ s, (run_task (task z) (now s).2).2) s)).
Proof using Type*.
  revert z s. induction n as [|n IH]; intros z s Hi Hl Hd HI Hr; [done|].
  destruct (iteration_due l z s true Hd) as (v & s1 & Hv & Ht & Hit). destruct (Hr s HI) as (s2 & Hrun & HI').
  rewrite Hv in Hrun. cbn [snd] in Hrun.
  pose proof (run_task_time (task z) s1) as Hrt. rewrite Hrun in Hrt. cbn in Hrt.
  assert (next_run (rescheduled z) = next_run z) as En by (cbn; lia).
  assert (insert_sorted (rescheduled z) l = l ++ [rescheduled z]) as Ei.
  { clear -En Hl. induction Hl as [|y l Hy _ IH]; [done|]. cbn [insert_sorted]. rewrite En, IH.
    by rewrite (proj2 (Z.leb_gt _ _)) by lia. }
  cbn [iterations]. rewrite (bind_run _ _ _ _ _ (Hit _ Hrun)), Ei, (IH (rescheduled z) s2); try done.
  - unfold ran. rewrite !Nat.iter_succ_r, Hv. cbn [snd]. by rewrite Hrun.
  - by rewrite En.
  - rewrite En. lia.
Qed.

End watcher.

(** ** Two tasks *)

(** A clock that every reading advances by one, and the runs of the tasks so far;
    a task is its interval.  A notification waits in the queue. *)
#[local] Instance sample_env : WatcherEnv (Z * list N) N unit :=
  {| now := λ s, (Ok s.1, (s.1 + 1, s.2)); is_running := mret true; wait_for_and_pop := mret (Some tt);
     process_notification := λ _, mret tt; get_interval := Z.of_N;
     execute := λ t, modify (λ s, (s.1, (s.2 ++ [t])%list)); started := λ _, mret tt; stopped := λ _, mret tt |}.

#[local] Instance sample_clock : ClockLaws (Z * list N) N unit.
Proof. exists fst; [intros []; eexists _, _; split; [done|cbn; lia]|done|done]. Defined.

Definition task_of (t : N) (next : Z) : @Registration N := mkRegistration t next 0.

Lemma due_task_is_reached_witness :
  ∃ k l s', (k ≤ 5)%nat ∧
    iterations k (mkWatcher [task_of 7 8; task_of 2 0] (9, [])) = (Ok tt, mkWatcher (l ++ [task_of 7 8]) s').
Proof.
  destruct (due_task_is_reached (λ _, True) 5 (task_of 7 8) [] [task_of 2 0] (9, [])) as (k & l & s' & Hk & Hr & _).
  - repeat constructor.
  - intros t s _. eexists _, _. done.
  - done.
  - repeat constructor; cbn; lia.
  - cbn. lia.
  - reflexivity.
  - by exists k, l, s'.
Defined.

Lemma zero_interval_starves_witness :
  iterations 3 (mkWatcher [task_of 7 8; task_of 0 7] (9, [])) =
    (Ok tt, mkWatcher [task_of 7 8; mkRegistration 0%N 7 3] (12, [0%N; 0%N; 0%N])).
Proof.
  refine (eq_trans (zero_interval_starves (λ _, True) 3 [task_of 7 8] (task_of 0 7) (9, []) _ _ _ _ _) _).
  - reflexivity.
  - repeat constructor; cbn; lia.
  - cbn. lia.
  - done.
  - intros s _. eexists. done.
  - vm_compute. reflexivity.
Defined.

End Watcher.
