(* ===== verification/WatcherTasks.v ===== *)
(** What the watcher runs (application/src/rest/model/watcher.cpp): the polling
    task, the retention task and the handling of the agents' notifications, on top
    of [AgentManager], [JsonAgent::execute_in_transaction]
    (application/src/core/agent), the handlers and the key database.

    The state [App] has the agents as objects: [agents] is the heap of the
    [JsonAgent]s, [m_agents] the references that the manager holds.  A call of a
    handler for an agent runs on the [World] of [Handlers] with the connection of
    this agent in it ([on_agent]).  The instance [app_env] of [WatcherEnv] closes
    the interface of the scheduler. *)

From Stdlib Require Import ZArith Lia.
From S2P Require Import Prelude.
From S2P Require Import Enums.
From S2P Require Import GenericManager.
From S2P Require Import ComponentUrl.
From S2P Require Import Eventing.
From S2P Require Import Handlers.
From S2P Require Import HandlerTables.
From S2P Require Import Database.
From S2P Require Import Watcher.

Module WatcherTasks.
Import ComponentUrl.
Import Handlers.

Open Scope string_scope.
Open Scope Z_scope.

Section tasks.
Context {J : Type} `{EqDecision J} `{!MetricFields J} `{!ModelFields J}.
Context {Env Raw Ids : Type}.

(** The service as an agent of the given id sees it. *)
Variable services : string → Service J Env Raw Ids.

(** The fuel of the recursion of [add]. *)
Variable depth : nat.

Abbreviation World := (@Handlers.World J Env Ids).

(** ** Agents *)

Record Agent := mkAgent {
  m_gami_id : string;
  m_capabilities : list string;
  connection : Env;
  observed_at : option Z;
  m_transaction_locked : bool;
  m_transaction_id : Z;
}.

Definition has_capability (name : string) (a : Agent) : bool := bool_decide (name ∈ m_capabilities a).

(** [ComponentNotification]: an event has the kind of its component. *)
Record ComponentNotification := mkNotification {
  n_gami_id : string;
  notifications : list (Component.t * EventData);
}.

Record App := mkApp {
  model : World;
  agents : list Agent;
  m_agents : list nat;
  dir : Database.Dir;
  steady_clock : Z;
  m_running : bool;
  queue : list ComponentNotification;
}.

Definition set_model (x : World) (s : App) : App :=
  mkApp x (agents s) (m_agents s) (dir s) (steady_clock s) (m_running s) (queue s).
Definition set_agents (x : list Agent) (s : App) : App :=
  mkApp (model s) x (m_agents s) (dir s) (steady_clock s) (m_running s) (queue s).
Definition set_m_agents (x : list nat) (s : App) : App :=
  mkApp (model s) (agents s) x (dir s) (steady_clock s) (m_running s) (queue s).
Definition set_dir (x : Database.Dir) (s : App) : App :=
  mkApp (model s) (agents s) (m_agents s) x (steady_clock s) (m_running s) (queue s).
Definition set_queue (x : list ComponentNotification) (s : App) : App :=
  mkApp (model s) (agents s) (m_agents s) (dir s) (steady_clock s) (m_running s) x.
Definition set_agent (i : nat) (a : Agent) (s : App) : App := set_agents (<[i := a]> (agents s)) s.

(** [agent->get_gami_id() == gami_id] of a referenced agent *)
Definition has_gami_id (g : string) (s : App) (i : nat) : bool :=
  match agents s !! i with Some a => bool_decide (m_gami_id a = g) | None => false end.

(** *** AgentManager *)

Definition get_agent (g : string) (s : App) : option nat :=
  snd <$> list_find (λ i, has_gami_id g s i = true) (m_agents s).

Definition add_agent (i : nat) : M App unit := modify (λ s, set_m_agents (m_agents s ++ [i])%list s).

Definition remove_agent (g : string) : M App unit :=
  modify (λ s, set_m_agents (filter (λ i, has_gami_id g s i = false) (m_agents s)) s).

Definition get_agents_by_capability (capability : string) (s : App) : list nat :=
  filter (λ i, match agents s !! i with Some a => has_capability capability a | None => false end = true) (m_agents s).

Definition get_agents (s : App) : list nat := m_agents s.

(** *** JsonAgent *)

(** A handler called for the agent at [i]. *)
Definition on_agent {A} (i : nat) (m : Service J Env Raw Ids → M World A) : M App A := λ s,
  match agents s !! i with
  | None => (Throw undefined_behaviour, s)
  | Some a =>
      let w := set_env (connection a) (set_observed (observed_at a) (set_registered true (model s))) in
      let '(r, w') := m (services (m_gami_id a)) w in
      let a' := mkAgent (m_gami_id a) (m_capabilities a) (env w') (m_connection_error_observed_at w')
        (m_transaction_locked a) (m_transaction_id a) in
      let s' := set_agent i a' (set_model w' s) in
      (r, if registered w' then s' else (remove_agent (m_gami_id a) s').2)
  end.

Definition set_lock (b : bool) (a : Agent) : Agent :=
  mkAgent (m_gami_id a) (m_capabilities a) (connection a) (observed_at a) b (m_transaction_id a).

Definition next_transaction (a : Agent) : Agent :=
  mkAgent (m_gami_id a) (m_capabilities a) (connection a) (observed_at a) (m_transaction_locked a)
    (wrap 64 (m_transaction_id a + 1)).

Definition modify_agent (i : nat) (f : Agent → Agent) (s : App) : App := set_agents (alter f i (agents s)) s.

(** The lock is released when the scope is left, by an exception too. *)
Definition execute_in_transaction {A} (i : nat) (function : M App A) : M App A := λ s,
  match agents s !! i with
  | None => (Throw undefined_behaviour, s)
  | Some a =>
      let s := modify_agent i next_transaction s in
      if m_transaction_locked a then (Throw (server_exception 503), s)
      else
        let '(r, s') := function (modify_agent i (set_lock true) s) in
        (r, modify_agent i (set_lock false) s')
  end.

(** ** Tasks *)

Inductive Task :=
  | PollingTask (interval : Z)
  | RetentionPolicyTask (interval outdated : Z).

Definition DEFAULT_INTERVAL_SECONDS : Z := 0.
Definition DEFAULT_OUTDATED_HOURS : Z := 24.

(** The constructors, on the numbers of the configuration; [None] where there is
    no unsigned number. *)
Definition make_polling (poll_interval_sec : option Z) : Task :=
  PollingTask (match poll_interval_sec with Some v => wrap 16 v | None => 0 end).

Definition make_retention (interval_value outdated_value : option Z) : Task :=
  RetentionPolicyTask
    (match interval_value with Some v => wrap 32 v | None => DEFAULT_INTERVAL_SECONDS end)
    (match outdated_value with Some v => wrap 32 v | None => DEFAULT_OUTDATED_HOURS * 3600 end).

Definition poll_agent (i : nat) : M App unit :=
  try_catch
    (execute_in_transaction i (on_agent i (λ srv, poll depth Component.Root "" Component.None_ "")))
    (λ e, if decide (e = agent_unreachable) then mret tt else throw e).

Definition execute_polling : M App unit :=
  s ← get;
  for_each (get_agents s) poll_agent.

Definition on_dir {A} (m : M Database.Dir A) : M App A := zoom dir set_dir m.

(** The time of the files of the database. *)
Variable file_clock : App → Z.

Definition execute_retention (interval outdated : Z) : M App unit :=
  if decide (interval = 0) then throw stop_watching
  else s ← get; on_dir (Database.remove_outdated (file_clock s) outdated);; mret tt.

Definition started_retention (outdated : Z) : M App unit :=
  s ← get; on_dir (Database.invalidate_all (file_clock s) outdated);; mret tt.

Definition stopped_retention (interval outdated : Z) : M App unit :=
  if decide (interval = 0) then mret tt else started_retention outdated.

(** ** Notifications *)

Fixpoint handle_notifications (i : nat) (l : list (Component.t * EventData)) (collected : list Event)
    : M App (list Event) :=
  match l with
  | [] => mret collected
  | (type, notification) :: l' =>
      handler ← lift (get_handler type);
      '(_, events_from_handling) ← on_agent i (λ srv, handle depth handler notification);
      handle_notifications i l' (collected ++ events_from_handling)%list
  end.

Definition process_notification (gami_notification : ComponentNotification) : M App unit :=
  if decide (notifications gami_notification = []) then mret tt else
  catch_all (
    s ← get;
    match get_agent (n_gami_id gami_notification) s with
    | None => mret tt
    | Some i =>
        collected ← execute_in_transaction i (handle_notifications i (notifications gami_notification) []);
        zoom model set_model (notify collected)
    end)
  (λ _, mret tt).

(** ** The instance *)

#[local] Instance app_env : Watcher.WatcherEnv App Task ComponentNotification :=
  {| Watcher.now := s ← get; mret (steady_clock s);
     Watcher.is_running := s ← get; mret (m_running s);
     Watcher.wait_for_and_pop :=
       s ← get;
       match queue s with [] => mret None | n :: q => put (set_queue q s);; mret (Some n) end;
     Watcher.process_notification := process_notification;
     Watcher.get_interval := λ t,
       second * match t with PollingTask interval | RetentionPolicyTask interval _ => interval end;
     Watcher.execute := λ t,
       match t with
       | PollingTask _ => execute_polling
       | RetentionPolicyTask interval outdated => execute_retention interval outdated
       end;
     Watcher.started := λ t,
       match t with PollingTask _ => mret tt | RetentionPolicyTask _ outdated => started_retention outdated end;
     Watcher.stopped := λ t,
       match t with
       | PollingTask _ => mret tt
       | RetentionPolicyTask interval outdated => stopped_retention interval outdated
       end |}.

(** [Watcher::Watcher] *)
Definition make_watcher (poll_interval retention_interval retention_outdated : option Z)
    : M (@Watcher.Watcher App Task) unit :=
  Watcher.add_task (make_polling poll_interval);;
  Watcher.add_task (make_retention retention_interval retention_outdated).

(** ** Transactions *)

(** The state in which the function of a transaction starts. *)
Definition begun (i : nat) (s : App) : App := modify_agent i (set_lock true) (modify_agent i next_transaction s).

Lemma transaction_busy {A} i (f : M App A) a s :
  agents s !! i = Some a → m_transaction_locked a = true →
  execute_in_transaction i f s = (Throw (server_exception 503), modify_agent i next_transaction s).
Proof using Type. intros Ha Hl. unfold execute_in_transaction. by rewrite Ha, Hl. Qed.

Lemma transaction_free {A} i (f : M App A) a s r s' :
  agents s !! i = Some a → m_transaction_locked a = false → f (begun i s) = (r, s') →
  execute_in_transaction i f s = (r, modify_agent i (set_lock false) s').
Proof using Type. intros Ha Hl Hf. unfold execute_in_transaction. rewrite Ha, Hl. by unfold begun in Hf; rewrite Hf. Qed.

(** A busy agent ends the polling round.  When the turn of an agent comes
    while a REST request holds its transaction, execute_in_transaction throws a
    ServerException, and the loop over the agents catches only AgentUnreachable:
    the agents after it are not polled in this run, and the watcher schedules the
    task again as if it had completed. *)
Theorem busy_agent_ends_round interval l1 i l2 a s s1 :
  get_agents s = (l1 ++ i :: l2)%list → for_each l1 poll_agent s = (Ok tt, s1) →
  agents s1 !! i = Some a → m_transaction_locked a = true →
  Watcher.run_task (PollingTask interval) s = (Ok true, modify_agent i next_transaction s1).
Proof using Type.
  intros Hg Hl Ha Hb. unfold Watcher.run_task, try_catch. cbn [Watcher.execute app_env].
  rewrite (bind_throw _ _ s (server_exception 503) (modify_agent i next_transaction s1)); [done|].
  unfold execute_polling. rewrite (bind_run get _ _ _ _ eq_refl), Hg, for_each_app, (bind_run _ _ _ _ _ Hl).
  cbn [for_each]. apply bind_throw. unfold poll_agent, try_catch. by rewrite (transaction_busy _ _ _ _ Ha Hb).
Qed.

(** ** Notifications *)

Lemma handle_notifications_app i l1 l2 c s c1 s1 :
  handle_notifications i l1 c s = (Ok c1, s1) →
  handle_notifications i (l1 ++ l2) c s = handle_notifications i l2 c1 s1.
Proof using Type.
  revert c s. induction l1 as [|[type n] l1 IH]; intros c s Hr; [by injection Hr as <- <-|].
  cbn [handle_notifications app] in *. apply bind_Ok_inv in Hr as (h & s2 & H1 & H2).
  rewrite (bind_run _ _ _ _ _ H1). apply bind_Ok_inv in H2 as ([b e] & s3 & H3 & H4).
  rewrite (bind_run _ _ _ _ _ H3). by apply IH.
Qed.

(** Notifications that are all handled are reported to the subscribers in one
    batch, in their order. *)
Lemma notifications_in_one_batch n i a s collected s1 :
  notifications n ≠ [] → get_agent (n_gami_id n) s = Some i → agents s !! i = Some a →
  m_transaction_locked a = false →
  handle_notifications i (notifications n) [] (begun i s) = (Ok collected, s1) →
  process_notification n s =
    (Ok tt, set_model (set_notified (notified (model s1) ++ collected)%list (model s1))
      (modify_agent i (set_lock false) s1)).
Proof using Type.
  intros Hn Hg Ha Hl Hh. unfold process_notification. rewrite decide_False by done.
  unfold catch_all, try_catch. rewrite (bind_run get _ _ _ _ eq_refl), Hg.
  by rewrite (bind_run _ _ _ _ _ (transaction_free _ _ _ _ _ _ Ha Hl Hh)).
Qed.

(** One notification of a kind without a handler loses the events of the
    whole batch.  The notifications before it are handled and stay in the model,
    but get_handler throws before their events reach the subscribers, the
    notifications after it are dropped, and process_notification returns
    normally. *)
Theorem unknown_kind_loses_events g l1 c e l2 i a s evs s1 :
  get_agent g s = Some i → agents s !! i = Some a → m_transaction_locked a = false →
  handle_notifications i l1 [] (begun i s) = (Ok evs, s1) → c ∉ component_handlers →
  process_notification (mkNotification g (l1 ++ (c, e) :: l2)) s = (Ok tt, modify_agent i (set_lock false) s1) ∧
  notified (model (process_notification (mkNotification g (l1 ++ (c, e) :: l2)) s).2) = notified (model s1).
Proof using Type.
  intros Hg Ha Hl Hh Hc.
  assert (process_notification (mkNotification g (l1 ++ (c, e) :: l2)) s =
    (Ok tt, modify_agent i (set_lock false) s1)) as Hp; [|by rewrite Hp].
  unfold process_notification. cbn [notifications n_gami_id]. rewrite decide_False by (by destruct l1).
  unfold catch_all, try_catch. rewrite (bind_run get _ _ _ _ eq_refl), Hg.
  assert (handle_notifications i (l1 ++ (c, e) :: l2) [] (begun i s) = (Throw invalid_value, s1)) as Ht.
  { rewrite (handle_notifications_app _ _ _ _ _ _ _ Hh). cbn [handle_notifications]. apply bind_throw.
    unfold get_handler, lift. by rewrite decide_False. }
  by rewrite (bind_throw _ _ _ _ _ (transaction_free _ _ _ _ _ _ Ha Hl Ht)).
Qed.

End tasks.

(** ** Two agents *)

#[local] Existing Instance sample_metric.
#[local] Existing Instance HandlerTables.sample_fields.

Definition sample_services (g : string) : Service Z HandlerTables.script HandlerTables.raw Z := HandlerTables.sample_service.

Definition sample_agent (g : string) (locked : bool) (l : list (Z * result HandlerTables.raw)) : Agent :=
  mkAgent g ["Compute"] (HandlerTables.mkScript l 0) None locked 0.

Definition sample_app (l : list Agent) : App :=
  mkApp (HandlerTables.sample_world HandlerTables.no_tables (λ _, []) (λ _, []) None (HandlerTables.mkScript [] 0))
    l (seq 0 (length l)) ∅ 0 true [].

Lemma busy_agent_ends_round_witness :
  (Watcher.run_task (WatcherEnv0 := app_env sample_services 9 (λ _, 0)) (PollingTask 10)
    (sample_app [sample_agent "a" false []; sample_agent "b" true []; sample_agent "c" false []])).1 = Ok true.
Proof.
  set (s := sample_app _).
  rewrite (busy_agent_ends_round sample_services 9 (λ _, 0) 10 [0%nat] 1 [2%nat] (sample_agent "b" true []) s
    (for_each [0%nat] (poll_agent sample_services 9) s).2).
  - reflexivity.
  - reflexivity.
  - etransitivity; [apply surjective_pairing|]. apply pair_equal_spec. split; vm_compute; reflexivity.
  - vm_compute. reflexivity.
  - reflexivity.
Defined.

(** An added manager, then a certificate, which has no handler. *)
Definition added_manager : Component.t * EventData := (Component.Manager, mkEventData Notification.Add "m" "").

Lemma unknown_kind_loses_events_witness :
  notified (model (process_notification sample_services 9
    (mkNotification "a" [added_manager; (Component.AuthorizationCertificate, mkEventData Notification.Add "x" "")])
    (sample_app [sample_agent "a" false [(1, Ok (HandlerTables.Entry (HandlerTables.entry Component.None_ "" "m" [])))]])).2) = [].
Proof.
  set (s := sample_app _).
  destruct (unknown_kind_loses_events sample_services 9 "a" [added_manager] Component.AuthorizationCertificate
    (mkEventData Notification.Add "x" "") [] 0 (sample_agent "a" false
      [(1, Ok (HandlerTables.Entry (HandlerTables.entry Component.None_ "" "m" [])))]) s
    [mkEvent Eventing.ResourceAdded "/redfish/v1/Managers/1"]
    (handle_notifications sample_services 9 0 [added_manager] [] (begun 0 s)).2) as [_ E].
  - reflexivity.
  - reflexivity.
  - reflexivity.
  - etransitivity; [apply surjective_pairing|]. apply pair_equal_spec. split; [vm_compute|]; reflexivity.
  - apply (bool_decide_eq_false_1 _). vm_compute. reflexivity.
  - etransitivity; [exact E|]. vm_compute. reflexivity.
Defined.

End WatcherTasks.
