(* ===== verification/Validators.v ===== *)
(** The request validators of the agent framework
    (common/agent-framework/src/validators): the checkers of one value, the
    variadic declaration of a procedure's fields, and ProcedureValidator::validate.

    A checker is handed the value of a field, or the marker NON_EXISTING_VALUE,
    which the code recognises by its address: [None] here.  A checker that is a
    null pointer accepts everything. *)

From Stdlib Require Import ZArith Lia Ascii.
From stdpp Require Import pretty.
From S2P Require Import Prelude.
From S2P Require Import Json.
From S2P Require Import Regex.

Open Scope string_scope.
Open Scope list_scope.
Open Scope Z_scope.

(** ** Errors *)

(** The members of [exceptions::ErrorCode] the validators throw. *)
Inductive ErrorCode :=
  | INVALID_FIELD | MISSING_FIELD | INVALID_FIELD_TYPE | INVALID_VALUE_FORMAT | INVALID_ENUM
  | UNEXPECTED_FIELD | DUPLICATED_FIELD.

#[global] Instance ErrorCode_eq_dec : EqDecision ErrorCode.
Proof. solve_decision. Defined.

(** [ValidityChecker::ValidationException] *)
Record ValidationException (J : Type) := {
  m_code : ErrorCode;
  m_message : string;
  m_field : string;
  m_field_value : J;
}.
Arguments m_code {J}.
Arguments m_message {J}.
Arguments m_field {J}.
Arguments m_field_value {J}.

(** [exceptions::GamiException] *)
Record GamiException (J : Type) := {
  g_code : ErrorCode;
  g_message : string;
  g_data : J;
}.
Arguments g_code {J}.
Arguments g_message {J}.
Arguments g_data {J}.

Inductive outcome (E : Type) :=
  | Valid
  | Invalid (ex : E).
Arguments Valid {E}.
Arguments Invalid {E}.

(** The second check is made when the first one passes. *)
Definition and_then {E} (o1 o2 : outcome E) : outcome E :=
  match o1 with Valid => o2 | Invalid ex => Invalid ex end.

(** [try { o } catch (ex) { throw f(ex) }] *)
Definition rethrow {E E'} (f : E → E') (o : outcome E) : outcome E' :=
  match o with Valid => Valid | Invalid ex => Invalid (f ex) end.

(** [if (c) throw ex] *)
Definition fail_if {E} (c : bool) (ex : E) : outcome E := if c then Invalid ex else Valid.

Infix "&;" := and_then (at level 85, right associativity).

(** [ValidationException::append] *)
Definition append_field {J} (field : string) (ex : ValidationException J) : ValidationException J :=
  {| m_code := m_code ex; m_message := m_message ex; m_field_value := m_field_value ex;
     m_field := (field +:+ (if decide (m_field ex = "") then "" else "/" +:+ m_field ex))%string |}.

(** ** The enumerations of ProcedureValidator *)

Inductive jsontype_t :=
  | JSON_STRING | JSON_BOOLEAN | JSON_INTEGER | JSON_REAL | JSON_OBJECT | JSON_ARRAY.

Inductive NumberType :=
  | TYPE_ANYTHING | TYPE_INT32 | TYPE_UINT32 | TYPE_INT64 | TYPE_UINT64 | TYPE_DOUBLE | WRONG_TYPE.

#[global] Instance NumberType_eq_dec : EqDecision NumberType.
Proof. solve_decision. Defined.

(** The enumeration [NumberType] by its values. *)
Definition number_type (t : Z) : NumberType :=
  match t with
  | 0 => TYPE_ANYTHING | 1 => TYPE_INT32 | 2 => TYPE_UINT32 | 3 => TYPE_INT64
  | 4 => TYPE_UINT64 | 5 => TYPE_DOUBLE | _ => WRONG_TYPE
  end.

(** ** Checkers *)

(** The members of a NumberValidityChecker.  A bound is an integer or, for
    TYPE_DOUBLE, a double. *)
Record number_checker := {
  n_type : NumberType;
  has_min : bool;
  has_max : bool;
  n_min : Z;
  n_max : Z;
  d_min : double;
  d_max : double;
}.

(** A field name: a [const char*], which the code compares by address. *)
Record cstring := { address : nat; text : string }.

#[global] Instance cstring_eq_dec : EqDecision cstring.
Proof. solve_decision. Defined.

(** The subclasses of ValidityChecker.  An AttributeValidityChecker points to
    the ProcedureValidator of the attribute. *)
Inductive checker :=
  | ValidityChecker
  | AlwaysFail (message : string)
  | ArrayOf (c : option checker) (min max : Z)
  | Attribute (validator : option (list (cstring * option checker)))
  | Composite (checker1 checker2 : option checker)
  | EnumOf (is_allowable_value : string → bool) (get_values : list string)
  | Jsonrpc (type : jsontype_t)
  | NullAllowed (c : option checker)
  | Number (n : number_checker)
  | OptionalField (c : option checker)
  | RegexOf (matching_regex : regex)
  | UuidOf.

Abbreviation ProcedureValidator := (list (cstring * option checker)).

(** What the conversion of an out-of-range double to an integer gives is
    undefined, and the text of a double is left open too: both are parameters. *)
Class Platform := {
  overflow_int64 : double → Z;
  overflow_uint64 : double → Z;
  double_to_string : double → string;
}.

Section validate.
Context `{Json J, Platform}.
Implicit Types v : option J.

Abbreviation outcome_of := (outcome (ValidationException J)).

Definition throw_ (code : ErrorCode) (message : string) (value : J) : ValidationException J :=
  {| m_code := code; m_message := message; m_field := ""; m_field_value := value |}.

(** The object a checker is handed: the marker is a null value. *)
Definition content v : J := default json_null v.

(** ValidityChecker::validate: the field is there and is not null. *)
Definition validate_present v : outcome_of :=
  match v with
  | None => Invalid (throw_ MISSING_FIELD "Mandatory field is not present." (content v))
  | Some value => fail_if (is_null value) (throw_ INVALID_FIELD_TYPE "Value null is not allowed." value)
  end.

(** JsonrpcValidityChecker::validate *)
Definition validate_jsonrpc (type : jsontype_t) v : outcome_of :=
  let value := content v in
  validate_present v &;
  match type with
  | JSON_STRING =>
      fail_if (negb (is_string value))
        (throw_ INVALID_FIELD_TYPE "Property value is not valid string type." value)
  | JSON_BOOLEAN =>
      fail_if (negb (is_boolean value))
        (throw_ INVALID_FIELD_TYPE "Property value is not valid boolean type." value)
  | JSON_INTEGER =>
      fail_if (negb (is_number_integer value))
        (throw_ INVALID_FIELD_TYPE "Property value is not valid integer type." value)
  | JSON_REAL =>
      fail_if (negb (is_number value))
        (throw_ INVALID_FIELD_TYPE "Property value is not valid real type." value)
  | JSON_OBJECT =>
      fail_if (negb (is_object value))
        (throw_ INVALID_FIELD_TYPE "Property value is not valid object type." value)
  | JSON_ARRAY =>
      fail_if (negb (is_array value))
        (throw_ INVALID_FIELD_TYPE "Property value is not valid array type." value)
  end.

(** ::join of enum_validity_checker.cpp: the delimiter follows every value. *)
Definition join_values (values : list string) : string :=
  foldr (λ s acc, s +:+ " " +:+ acc)%string "" values.

(** EnumValidityChecker::validate *)
Definition validate_enum (is_allowable_value : string → bool) (get_values : list string) v
  : outcome_of :=
  let value := content v in
  validate_present v &;
  fail_if (negb (is_string value))
    (throw_ INVALID_FIELD_TYPE "Property value is not valid string type." value) &;
  if negb (is_allowable_value (json_string value)) then
    if json_empty value then
      Invalid (throw_ INVALID_ENUM
        ("Empty value is not in constraint values: [ " +:+ join_values get_values +:+ "]")%string
        (json_of_string "<empty>"))
    else
      Invalid (throw_ INVALID_ENUM
        ("Value '" +:+ json_string value +:+ "' is not in constraint values: [ "
         +:+ join_values get_values +:+ "]")%string
        value)
  else Valid.

(** RegexValidityChecker::validate *)
Definition validate_regex (matching_regex : regex) v : outcome_of :=
  let value := content v in
  validate_present v &;
  fail_if (negb (is_string value))
    (throw_ INVALID_FIELD_TYPE "Property value is not valid string type." value) &;
  fail_if (negb (regex_match (json_string value) matching_regex))
    (throw_ INVALID_FIELD_TYPE "Value is malformed or does not match its expected form." value).

(** UuidValidityChecker::is_hex *)
Definition is_hex (c : Z) : bool :=
  ((code "0" <=? c) && (c <=? code "9")) || ((code "a" <=? c) && (c <=? code "f"))
  || ((code "A" <=? c) && (c <=? code "F")).

Definition uuid_pattern : string := "xxxxxxxx-xxxx-xxxx-xxxx-xxxxxxxxxxxx".

(** The loop of UuidValidityChecker::validate over the pattern and the text. *)
Fixpoint uuid_loop (value : J) (pattern sval : list Z) : outcome_of :=
  match pattern, sval with
  | p :: pattern', c :: sval' =>
      (if decide (p = code "x") then
         fail_if (negb (is_hex c)) (throw_ INVALID_VALUE_FORMAT "Invalid UUID hex number." value)
       else fail_if (negb (p =? c)) (throw_ INVALID_VALUE_FORMAT "Invalid UUID format." value)) &;
      uuid_loop value pattern' sval'
  | _, _ => Valid
  end.

(** UuidValidityChecker::validate *)
Definition validate_uuid v : outcome_of :=
  let value := content v in
  validate_present v &;
  fail_if (negb (is_string value))
    (throw_ INVALID_FIELD_TYPE "Property value is not valid string type." value) &;
  let sval := json_string value in
  fail_if (negb (String.length sval =? String.length uuid_pattern)%nat)
    (throw_ INVALID_VALUE_FORMAT "Incorrect UUID length." value) &;
  uuid_loop value (chars uuid_pattern) (chars sval).

(** *** Numbers *)

Definition to_int64 (z : Z) : Z := (z + 2 ^ 63) mod 2 ^ 64 - 2 ^ 63.

(** [value.get<double>()] *)
Definition get_double (value : J) : double :=
  if is_number_float value then json_double value else Double.of_integer (json_integer value).

(** [value.get<std::int64_t>()]: the stored number, converted as by a cast. *)
Definition get_int64 (value : J) : Z :=
  if is_number_float value then
    match json_double value with
    | finite m e =>
        let z := Double.trunc m e in
        if (- 2 ^ 63 <=? z) && (z <? 2 ^ 63) then z else overflow_int64 (finite m e)
    | d => overflow_int64 d
    end
  else to_int64 (json_integer value).

(** [value.get<std::uint64_t>()] *)
Definition get_uint64 (value : J) : Z :=
  if is_number_float value then
    match json_double value with
    | finite m e =>
        let z := Double.trunc m e in
        if (0 <=? z) && (z <? 2 ^ 64) then z else overflow_uint64 (finite m e)
    | d => overflow_uint64 d
    end
  else json_integer value mod 2 ^ 64.

(** ::get_out_of_range_message *)
Definition out_of_range_message (type min max : string) : string :=
  (type +:+ " value out of range [" +:+ min +:+ ", " +:+ max +:+ "].")%string.

(** The part of each integer case that looks at the form of the number.
    [modf] is applied to the value as a double. *)
Definition integer_form (value : J) (message : string) : outcome_of :=
  fail_if (negb (is_number value)) (throw_ INVALID_FIELD_TYPE message value) &;
  fail_if (is_number_float value && Double.has_fraction (get_double value))
    (throw_ INVALID_VALUE_FORMAT "Provided number value with a fractional part." value).

Definition not_boolean (value : J) : outcome_of :=
  fail_if (is_boolean value) (throw_ INVALID_FIELD_TYPE "Boolean value is not a number." value).

Definition not_negative (value : J) : outcome_of :=
  fail_if (Double.ltb (get_double value) (finite 0 0))
    (throw_ INVALID_VALUE_FORMAT "Property value is not valid a positive number." value).

(** The comparison with the declared bounds. *)
Definition in_bounds (n : number_checker) (z : Z) (name : string) (value : J) : outcome_of :=
  fail_if ((has_min n && (z <? n_min n)) || (has_max n && (n_max n <? z)))
    (throw_ INVALID_VALUE_FORMAT
       (out_of_range_message name (pretty (n_min n)) (pretty (n_max n))) value).

(** The comparison with the bounds of a 64-bit type, which are converted to
    the nearest doubles. *)
Definition in_type (min max : Z) (name : string) (value : J) : outcome_of :=
  fail_if (Double.ltb (get_double value) (Double.of_integer min)
           || Double.ltb (Double.of_integer max) (get_double value))
    (throw_ INVALID_VALUE_FORMAT (out_of_range_message name (pretty min) (pretty max)) value).

(** NumberValidityChecker::validate *)
Definition validate_number (n : number_checker) v : outcome_of :=
  let value := content v in
  validate_present v &;
  match n_type n with
  | TYPE_ANYTHING =>
      not_boolean value &;
      fail_if (negb (is_number value))
        (throw_ INVALID_FIELD_TYPE "Property value is not valid number type." value)
  | TYPE_INT32 =>
      integer_form value "Property value is not valid 32-bit integer type." &;
      in_bounds n (get_int64 value) "32-bit integer" value &;
      not_boolean value
  | TYPE_UINT32 =>
      integer_form value "Property value is not valid unsigned 32-bit number type." &;
      not_negative value &;
      in_bounds n (get_uint64 value) "Unsigned 32-bit integer" value &;
      not_boolean value
  | TYPE_INT64 =>
      integer_form value "Property value is not valid number type." &;
      not_boolean value &;
      in_type (- 2 ^ 63) (2 ^ 63 - 1) "64-bit integer" value &;
      in_bounds n (get_int64 value) "64-bit integer" value
  | TYPE_UINT64 =>
      integer_form value "Property value is not valid unsigned number type." &;
      not_negative value &;
      not_boolean value &;
      in_type 0 (2 ^ 64 - 1) "Unsigned 64-bit integer" value &;
      in_bounds n (get_uint64 value) "Unsigned 64-bit integer" value
  | TYPE_DOUBLE =>
      fail_if (negb (is_number value))
        (throw_ INVALID_FIELD_TYPE "Property value is not valid number type." value) &;
      fail_if ((has_min n && Double.ltb (get_double value) (d_min n))
               || (has_max n && Double.ltb (d_max n) (get_double value)))
        (throw_ INVALID_VALUE_FORMAT
           (out_of_range_message "Double precision number"
              (double_to_string (d_min n)) (double_to_string (d_max n))) value) &;
      not_boolean value
  | WRONG_TYPE => Invalid (throw_ INVALID_FIELD_TYPE "Not allowed number type." value)
  end.

(** *** Arrays and procedures *)

(** The loop over the elements of an array. *)
Definition check_elements (check : option J → outcome_of) : nat → list J → outcome_of :=
  fix go (index : nat) (l : list J) : outcome_of :=
    match l with
    | [] => Valid
    | x :: l' => rethrow (append_field (pretty index)) (check (Some x)) &; go (S index) l'
    end.

(** ProcedureValidator::remove_from: how many entries were removed, and the
    members that are left. *)
Definition remove_from (members : J) (name : string) : nat * J :=
  match json_count members name with
  | O => (0%nat, members)
  | n => (n, json_erase members name)
  end.

(** The loop of ProcedureValidator::validate over the declared fields; the
    result has the members no field has claimed. *)
Definition check_fields (check : checker → option J → outcome_of) (request : J)
    : ProcedureValidator → J → outcome_of * J :=
  fix go (validators : ProcedureValidator) (members : J) : outcome_of * J :=
    match validators with
    | [] => (Valid, members)
    | (name, validator) :: validators' =>
        let '(removed, members') := remove_from members (text name) in
        let value := default json_null (json_find request (text name)) in
        let checked :=
          match removed with
          | O => match validator with Some c => check c None | None => Valid end
          | S O => match validator with Some c => check c (Some value) | None => Valid end
          | _ => Invalid (throw_ DUPLICATED_FIELD "Duplicated field in JSON." value)
          end in
        match rethrow (append_field (text name)) checked with
        | Valid => go validators' members'
        | Invalid ex => (Invalid ex, members')
        end
    end.

(** The body of the try block of ProcedureValidator::validate. *)
Definition check_request (check : checker → option J → outcome_of)
    (validators : ProcedureValidator) (request : J) : outcome_of :=
  if is_null request && bool_decide (length validators = 0%nat) then Valid
  else
    fail_if (negb (is_null request) && negb (is_object request))
      (throw_ INVALID_FIELD "Request is not a JSON object." request) &;
    let '(checked, members) := check_fields check request validators request in
    checked &;
    let member := json_first_key members in
    fail_if (negb (json_empty members))
      {| m_code := UNEXPECTED_FIELD; m_message := "Unexpected field in json."; m_field := member;
         m_field_value :=
           json_of_string (json_dump (default json_null (json_find request member))) |}.

Definition FIELD_NAME : string := "fieldName".
Definition FIELD_VALUE : string := "fieldValue".

(** InvalidField::create_json_data_from_field *)
Definition create_json_data_from_field (field_name : string) (field_value : J) : J :=
  json_insert (json_insert json_null FIELD_NAME (json_of_string field_name)) FIELD_VALUE field_value.

(** InvalidField::get_field_name_from_json_data through GamiException::get_string_from_data *)
Definition get_field_name_from_json_data (data : J) : string :=
  match json_find data FIELD_NAME with Some v => json_string v | None => "" end.

(** InvalidField::get_field_value_as_json_from_json_data *)
Definition get_field_value_as_json_from_json_data (data : J) : J :=
  match json_find data FIELD_VALUE with Some v => v | None => json_null end.

(** The catch clause of ProcedureValidator::validate. *)
Definition to_gami (ex : ValidationException J) : GamiException J :=
  {| g_code := m_code ex; g_message := m_message ex;
     g_data := create_json_data_from_field (m_field ex) (m_field_value ex) |}.

(** The catch clause of AttributeValidityChecker::validate. *)
Definition of_gami (ex : GamiException J) : ValidationException J :=
  {| m_code := g_code ex; m_message := g_message ex;
     m_field_value := get_field_value_as_json_from_json_data (g_data ex);
     m_field := get_field_name_from_json_data (g_data ex) |}.

(** [if (checker) { checker->validate(value); }] *)
Definition check_ptr (check : checker → option J → outcome_of) (c : option checker) v : outcome_of :=
  match c with Some c' => check c' v | None => Valid end.

(** AlwaysFailValidityChecker::validate *)
Definition validate_always_fail (message : string) v : outcome_of :=
  Invalid (throw_ INVALID_FIELD message (content v)).

(** ArrayValidityChecker::validate *)
Definition validate_array (check : checker → option J → outcome_of) (element : option checker)
    (min max : Z) v : outcome_of :=
  let value := content v in
  validate_present v &;
  fail_if (negb (is_array value))
    (throw_ INVALID_FIELD_TYPE "Property value is not valid array type." value) &;
  if max <? min then Valid
  else if (min <=? Z.of_nat (json_size value)) && (Z.of_nat (json_size value) <=? max) then
    match element with
    | Some c => check_elements (check c) 0 (json_elements value)
    | None => Valid
    end
  else
    Invalid (throw_ INVALID_VALUE_FORMAT
      ("Invalid array size. Valid size range is <" +:+ pretty min +:+ "; "
       +:+ pretty max +:+ ">.")%string value).

(** AttributeValidityChecker::validate *)
Definition validate_attribute (check : checker → option J → outcome_of)
    (validator : option ProcedureValidator) v : outcome_of :=
  let value := content v in
  validate_present v &;
  fail_if (negb (is_object value))
    (throw_ INVALID_FIELD_TYPE "Property value is not valid object type." value) &;
  match validator with
  | Some validators => rethrow of_gami (rethrow to_gami (check_request check validators value))
  | None => Valid
  end.

(** CompositeValidityChecker::validate *)
Definition validate_composite (check : checker → option J → outcome_of)
    (checker1 checker2 : option checker) v : outcome_of :=
  check_ptr check checker1 v &; check_ptr check checker2 v.

(** NullAllowedValidityChecker::validate *)
Definition validate_null_allowed (check : checker → option J → outcome_of) (c : option checker) v
    : outcome_of :=
  if match v with Some x => is_null x | None => false end then Valid else check_ptr check c v.

(** OptionalValidityChecker::validate *)
Definition validate_optional (check : checker → option J → outcome_of) (c : option checker) v
    : outcome_of :=
  match v with None => Valid | Some _ => check_ptr check c v end.

(** The virtual method [validate]. *)
Fixpoint validate_checker (c : checker) v {struct c} : outcome_of :=
  match c with
  | ValidityChecker => validate_present v
  | AlwaysFail message => validate_always_fail message v
  | ArrayOf element min max => validate_array validate_checker element min max v
  | Attribute validator => validate_attribute validate_checker validator v
  | Composite checker1 checker2 => validate_composite validate_checker checker1 checker2 v
  | EnumOf is_allowable_value get_values => validate_enum is_allowable_value get_values v
  | Jsonrpc type => validate_jsonrpc type v
  | NullAllowed c' => validate_null_allowed validate_checker c' v
  | Number n => validate_number n v
  | OptionalField c' => validate_optional validate_checker c' v
  | RegexOf matching_regex => validate_regex matching_regex v
  | UuidOf => validate_uuid v
  end.

Abbreviation validate_ptr := (check_ptr validate_checker).

(** ProcedureValidator::validate *)
Definition validate (validators : ProcedureValidator) (request : J) : outcome (GamiException J) :=
  rethrow to_gami (check_request validate_checker validators request).

End validate.

(** ** Declarations

    The arguments of the variadic constructors.  Reading an argument of another
    type than the one passed is undefined behaviour, [None] below; [unsigned]
    and [uint32_t] are one type. *)

Inductive arg :=
  | ArgName (name : cstring)
  | ArgNullptr
  | ArgUnsigned (u : Z)
  | ArgInt32 (z : Z)
  | ArgInt64 (z : Z)
  | ArgUint64 (z : Z)
  | ArgDouble (d : double)
  | ArgEnum (is_allowable_value : string → bool) (get_values : list string)
  | ArgRegex (pattern : string)
  | ArgGetter (getter : option ProcedureValidator).

Definition OPTIONAL_FLAG : Z := 0x1000.
Definition NULLABLE_FLAG : Z := 0x2000.

Definition CONSTR_MIN : Z := 0x1100.
Definition CONSTR_MAX : Z := 0x1200.
Definition CONSTR_BOTH : Z := 0x1300.

(** A bound of a NumberValidityChecker, read from the arguments. *)
Definition take_int (type : NumberType) (args : list arg) : option (Z * list arg) :=
  match type, args with
  | TYPE_INT32, ArgInt32 z :: rest => Some (z, rest)
  | TYPE_UINT32, ArgUnsigned z :: rest => Some (z, rest)
  | TYPE_INT64, ArgInt64 z :: rest => Some (z, rest)
  | TYPE_UINT64, ArgUint64 z :: rest => Some (z, rest)
  | _, _ => None
  end.

Definition take_double (args : list arg) : option (double * list arg) :=
  match args with ArgDouble d :: rest => Some (d, rest) | _ => None end.

(** [if (has) { bound = va_arg(...); }], the bound being zero before. *)
Definition take_if {A} (has : bool) (zero : A) (take : list arg → option (A * list arg))
    (args : list arg) : option (A * list arg) :=
  if has then take args else Some (zero, args).

Definition zero_double : double := finite 0 0.

(** NumberValidityChecker::NumberValidityChecker(va_list&) *)
Definition create_number (args : list arg) : option (number_checker * list arg) :=
  match args with
  | ArgUnsigned t :: args1 =>
      let hmin := Z.land t CONSTR_MIN =? CONSTR_MIN in
      let hmax := Z.land t CONSTR_MAX =? CONSTR_MAX in
      let type := number_type (Z.land t (Z.lnot CONSTR_BOTH)) in
      match type with
      | TYPE_INT32 | TYPE_UINT32 | TYPE_INT64 | TYPE_UINT64 =>
          '(min, args2) ← take_if hmin 0 (take_int type) args1;
          '(max, args3) ← take_if hmax 0 (take_int type) args2;
          Some ({| n_type := type; has_min := hmin; has_max := hmax; n_min := min; n_max := max;
                   d_min := zero_double; d_max := zero_double |}, args3)
      | TYPE_DOUBLE =>
          '(min, args2) ← take_if hmin zero_double take_double args1;
          '(max, args3) ← take_if hmax zero_double take_double args2;
          Some ({| n_type := type; has_min := hmin; has_max := hmax; n_min := 0; n_max := 0;
                   d_min := min; d_max := max |}, args3)
      | TYPE_ANYTHING | WRONG_TYPE =>
          Some ({| n_type := WRONG_TYPE; has_min := hmin; has_max := hmax; n_min := 0; n_max := 0;
                   d_min := zero_double; d_max := zero_double |}, args1)
      end
  | _ => None
  end.

(** NumberValidityChecker::NumberValidityChecker() *)
Definition any_number : number_checker :=
  {| n_type := TYPE_ANYTHING; has_min := false; has_max := false; n_min := 0; n_max := 0;
     d_min := zero_double; d_max := zero_double |}.

Definition UINT32_MAX : Z := 2 ^ 32 - 1.

(** ProcedureValidator::create_validator.  The values of the enumeration
    Validators start with those of jsontype_t; a null pointer is [None] inside
    the result. *)
Fixpoint create_validator (fuel : nat) (type : Z) (args : list arg)
    : option (option checker * list arg) :=
  match fuel with
  | O => None
  | S fuel' =>
      if Z.land type OPTIONAL_FLAG =? OPTIONAL_FLAG then
        '(cond, rest) ← create_validator fuel' (Z.land type (Z.lnot OPTIONAL_FLAG)) args;
        Some (Some (OptionalField cond), rest)
      else if Z.land type NULLABLE_FLAG =? NULLABLE_FLAG then
        '(cond, rest) ← create_validator fuel' (Z.land type (Z.lnot NULLABLE_FLAG)) args;
        Some (Some (NullAllowed cond), rest)
      else
        match type with
        | 16 => Some (Some (AlwaysFail "This value is never valid."), args)
        | 15 => Some (None, args)
        | 0 => Some (Some ValidityChecker, args)
        | 1 => Some (Some (Jsonrpc JSON_STRING), args)
        | 2 => Some (Some (Jsonrpc JSON_BOOLEAN), args)
        | 3 => Some (Some (Jsonrpc JSON_INTEGER), args)
        | 4 => Some (Some (Jsonrpc JSON_REAL), args)
        | 5 => Some (Some (Jsonrpc JSON_OBJECT), args)
        | 6 => Some (Some (Jsonrpc JSON_ARRAY), args)
        | 13 =>
            match args with
            | ArgUnsigned type' :: args' =>
                '(cond, rest) ← create_validator fuel' type' args';
                Some (Some (ArrayOf cond 0 UINT32_MAX), rest)
            | _ => None
            end
        | 14 =>
            match args with
            | ArgUnsigned min :: ArgUnsigned max :: ArgUnsigned type' :: args' =>
                '(cond, rest) ← create_validator fuel' type' args';
                Some (Some (ArrayOf cond min max), rest)
            | _ => None
            end
        | 9 => Some (Some UuidOf, args)
        | 7 => Some (Some (Number any_number), args)
        | 8 => '(n, rest) ← create_number args; Some (Some (Number n), rest)
        | 10 =>
            match args with
            | ArgEnum is_allowable_value get_values :: rest =>
                Some (Some (EnumOf is_allowable_value get_values), rest)
            | _ => None
            end
        | 12 =>
            match args with
            | ArgRegex pattern :: rest => r ← parse pattern; Some (Some (RegexOf r), rest)
            | _ => None
            end
        | 11 =>
            match args with
            | ArgGetter getter :: rest => Some (Some (Attribute getter), rest)
            | _ => None
            end
        | _ => Some (Some (AlwaysFail "Unhandled validator type."), args)
        end
  end.

(** The loop of create_validators over the fields declared before: a field
    passed again, under the same address, is checked by both checkers. *)
Fixpoint merge_validator (validators : ProcedureValidator) (name : cstring) (second : option checker)
    : ProcedureValidator :=
  match validators with
  | [] => [(name, second)]
  | (name', first) :: validators' =>
      if decide (address name' = address name) then
        (name', Some (Composite first second)) :: validators'
      else (name', first) :: merge_validator validators' name second
  end.

(** ProcedureValidator::create_validators.  Each round takes at least the name
    and the type, and create_validator goes through the flags of a type at most
    twice for each argument it takes. *)
Fixpoint create_loop (fuel : nat) (validators : ProcedureValidator) (args : list arg)
    : option ProcedureValidator :=
  match fuel with
  | O => None
  | S fuel' =>
      match args with
      | ArgNullptr :: _ => Some validators
      | ArgName name :: ArgUnsigned type :: args' =>
          '(c, rest) ← create_validator (3 * S (length args')) type args';
          create_loop fuel' (merge_validator validators name c) rest
      | _ => None
      end
  end.

Definition create_validators (args : list arg) : option ProcedureValidator :=
  create_loop (length args) [] args.
