(* ===== verification/Schema.v ===== *)
(** The schemas the VALID_* macros of procedure_validator.hpp write down, and
    what it means that a document conforms to one.

    [expand] is the expansion of the macros into the arguments of the variadic
    constructor; [conforms] says which values a schema admits, without checkers,
    exceptions or the order of the checks.  The theorems relate the two through
    the code of Validators: the arguments are read back as intended
    ([create_declared]), the validator built from them accepts exactly the
    documents that conform ([accepts_conforming]), and the field and value of an
    error are the ones at fault ([error_locates_value]). *)

From Stdlib Require Import ZArith Lia Ascii.
From stdpp Require Import pretty.
From S2P Require Import Prelude.
From S2P Require Import Json.
From S2P Require Import Regex.
From S2P Require Import Validators.

Open Scope string_scope.
Open Scope list_scope.
Open Scope Z_scope.

(** A declared number: its type and the bounds that are given. *)
Inductive numeric :=
  | INT32 (min max : option Z)
  | UINT32 (min max : option Z)
  | INT64 (min max : option Z)
  | UINT64 (min max : option Z)
  | DOUBLE (min max : option double).

(** The VALID_* macros. *)
Inductive schema :=
  | VALID_ALWAYS
  | VALID_NEVER
  | VALID_JSON_ANY
  | VALID_JSON (t : jsontype_t)
  | VALID_UUID
  | VALID_NUMERIC
  | VALID_NUMERIC_TYPED (n : numeric)
  | VALID_ENUM (is_allowable_value : string → bool) (get_values : list string)
  | VALID_REGEX (pattern : string)
  | VALID_ATTRIBUTE (fields : list (cstring * schema))
  | VALID_ARRAY_OF (s : schema)
  | VALID_ARRAY_SIZE_OF (s : schema) (min max : Z)
  | VALID_OPTIONAL (s : schema)
  | VALID_NULLABLE (s : schema).

Abbreviation fields := (list (cstring * schema)).

(** Induction over a schema and the fields inside it. *)
Lemma schema_nested_ind (P : schema → Prop) :
  P VALID_ALWAYS → P VALID_NEVER → P VALID_JSON_ANY → (∀ t, P (VALID_JSON t)) → P VALID_UUID →
  P VALID_NUMERIC → (∀ n, P (VALID_NUMERIC_TYPED n)) → (∀ f vs, P (VALID_ENUM f vs)) →
  (∀ r, P (VALID_REGEX r)) →
  (∀ fs : fields, Forall (λ f, P f.2) fs → P (VALID_ATTRIBUTE fs)) →
  (∀ s, P s → P (VALID_ARRAY_OF s)) → (∀ s min max, P s → P (VALID_ARRAY_SIZE_OF s min max)) →
  (∀ s, P s → P (VALID_OPTIONAL s)) → (∀ s, P s → P (VALID_NULLABLE s)) →
  ∀ s, P s.
Proof.
  intros H1 H2 H3 H4 H5 H6 H7 H8 H9 Hattr Harr Hsize Hopt Hnull.
  fix IH 1. intros s. destruct s as [| | |t| | |n|f vs|r|fs|s|s min max|s|s];
    [exact H1|exact H2|exact H3|apply H4|exact H5|exact H6|apply H7|apply H8|apply H9|
    |apply Harr, IH|apply Hsize, IH|apply Hopt, IH|apply Hnull, IH].
  apply Hattr. induction fs as [|[n s] fs IHfs]; constructor; [apply IH|apply IHfs].
Qed.

(** ** The macros *)

Definition number_kind (n : numeric) : NumberType :=
  match n with
  | INT32 _ _ => TYPE_INT32 | UINT32 _ _ => TYPE_UINT32 | INT64 _ _ => TYPE_INT64
  | UINT64 _ _ => TYPE_UINT64 | DOUBLE _ _ => TYPE_DOUBLE
  end.

(** VALID_NUMERIC_TYPE(type, what): the type with NOTHING, MIN, MAX or BOTH. *)
Definition numeric_type (n : numeric) : Z :=
  let what {A} (min max : option A) :=
    match min, max with
    | None, None => 0x1000 | Some _, None => CONSTR_MIN
    | None, Some _ => CONSTR_MAX | Some _, Some _ => CONSTR_BOTH
    end in
  match n with
  | INT32 min max => Z.lor 1 (what min max)
  | UINT32 min max => Z.lor 2 (what min max)
  | INT64 min max => Z.lor 3 (what min max)
  | UINT64 min max => Z.lor 4 (what min max)
  | DOUBLE min max => Z.lor 5 (what min max)
  end.

(** The bounds that follow the type. *)
Definition numeric_bounds (n : numeric) : list arg :=
  let given {A} (mk : A → arg) (b : option A) := match b with Some x => [mk x] | None => [] end in
  match n with
  | INT32 min max => given ArgInt32 min ++ given ArgInt32 max
  | UINT32 min max => given ArgUnsigned min ++ given ArgUnsigned max
  | INT64 min max => given ArgInt64 min ++ given ArgInt64 max
  | UINT64 min max => given ArgUint64 min ++ given ArgUint64 max
  | DOUBLE min max => given ArgDouble min ++ given ArgDouble max
  end.

Definition json_code (t : jsontype_t) : Z :=
  match t with
  | JSON_STRING => 1 | JSON_BOOLEAN => 2 | JSON_INTEGER => 3
  | JSON_REAL => 4 | JSON_OBJECT => 5 | JSON_ARRAY => 6
  end.

(** The checker a number declaration stands for. *)
Definition declared_number (n : numeric) : number_checker :=
  let int min max :=
    {| n_type := number_kind n; has_min := bool_decide (is_Some min);
       has_max := bool_decide (is_Some max); n_min := default 0 min; n_max := default 0 max;
       d_min := zero_double; d_max := zero_double |} in
  match n with
  | INT32 min max | UINT32 min max | INT64 min max | UINT64 min max => int min max
  | DOUBLE min max =>
      {| n_type := TYPE_DOUBLE; has_min := bool_decide (is_Some min);
         has_max := bool_decide (is_Some max); n_min := 0; n_max := 0;
         d_min := default zero_double min; d_max := default zero_double max |}
  end.

(** A checker under the flags of a type; the flags are or-ed into one number,
    so their order and repetition do not show. *)
Definition wrap_flags (o n : bool) (c : option checker) : option checker :=
  let c1 := if n then Some (NullAllowed c) else c in
  if o then Some (OptionalField c1) else c1.

Definition regex_of (pattern : string) : regex := default Epsilon (parse pattern).

(** The validators the fields of a schema stand for.  The argument is the
    translation of the schemas inside. *)
Definition build_fields (build : schema → option checker) : fields → ProcedureValidator :=
  fix go (fs : fields) : ProcedureValidator :=
    match fs with
    | [] => []
    | (n, s) :: fs' => (n, build s) :: go fs'
    end.

Definition merge_all (vs : ProcedureValidator) : ProcedureValidator :=
  foldl (λ acc v, merge_validator acc v.1 v.2) [] vs.

(** The checker a schema stands for. *)
Fixpoint build (s : schema) : option checker :=
  match s with
  | VALID_ALWAYS => None
  | VALID_NEVER => Some (AlwaysFail "This value is never valid.")
  | VALID_JSON_ANY => Some ValidityChecker
  | VALID_JSON t => Some (Jsonrpc t)
  | VALID_UUID => Some UuidOf
  | VALID_NUMERIC => Some (Number any_number)
  | VALID_NUMERIC_TYPED n => Some (Number (declared_number n))
  | VALID_ENUM f vs => Some (EnumOf f vs)
  | VALID_REGEX p => Some (RegexOf (regex_of p))
  | VALID_ATTRIBUTE fs => Some (Attribute (Some (merge_all (build_fields build fs))))
  | VALID_ARRAY_OF s' => Some (ArrayOf (build s') 0 UINT32_MAX)
  | VALID_ARRAY_SIZE_OF s' min max => Some (ArrayOf (build s') min max)
  | VALID_OPTIONAL s' =>
      match build s' with
      | Some (OptionalField c) => Some (OptionalField c)
      | c => Some (OptionalField c)
      end
  | VALID_NULLABLE s' =>
      match build s' with
      | Some (OptionalField (Some (NullAllowed c))) => Some (OptionalField (Some (NullAllowed c)))
      | Some (OptionalField c) => Some (OptionalField (Some (NullAllowed c)))
      | Some (NullAllowed c) => Some (NullAllowed c)
      | c => Some (NullAllowed c)
      end
  end.

(** The arguments a macro expands to.  VALID_OPTIONAL and VALID_NULLABLE are
    or-ed into the number their argument starts with. *)
Fixpoint expand (s : schema) : list arg :=
  let flagged flag args :=
    match args with ArgUnsigned t :: rest => ArgUnsigned (Z.lor flag t) :: rest | _ => args end in
  match s with
  | VALID_ALWAYS => [ArgUnsigned 15]
  | VALID_NEVER => [ArgUnsigned 16]
  | VALID_JSON_ANY => [ArgUnsigned 0]
  | VALID_JSON t => [ArgUnsigned (json_code t)]
  | VALID_UUID => [ArgUnsigned 9]
  | VALID_NUMERIC => [ArgUnsigned 7]
  | VALID_NUMERIC_TYPED n => ArgUnsigned 8 :: ArgUnsigned (numeric_type n) :: numeric_bounds n
  | VALID_ENUM f vs => [ArgUnsigned 10; ArgEnum f vs]
  | VALID_REGEX p => [ArgUnsigned 12; ArgRegex p]
  | VALID_ATTRIBUTE fs => [ArgUnsigned 11; ArgGetter (Some (merge_all (build_fields build fs)))]
  | VALID_ARRAY_OF s' => ArgUnsigned 13 :: expand s'
  | VALID_ARRAY_SIZE_OF s' min max => ArgUnsigned 14 :: ArgUnsigned min :: ArgUnsigned max :: expand s'
  | VALID_OPTIONAL s' => flagged OPTIONAL_FLAG (expand s')
  | VALID_NULLABLE s' => flagged NULLABLE_FLAG (expand s')
  end.

(** The arguments of a constructor call: names and schemas, then nullptr. *)
Fixpoint declare (fs : fields) : list arg :=
  match fs with
  | [] => [ArgNullptr]
  | (n, s) :: fs' => ArgName n :: expand s ++ declare fs'
  end.

(** The validator of a declaration. *)
Definition procedure_of (fs : fields) : ProcedureValidator := merge_all (build_fields build fs).

(** ** The declaration is read back *)

(** Patterns are regular expressions, and sizes are unsigned. *)
Fixpoint well_formed (s : schema) : bool :=
  match s with
  | VALID_REGEX p => bool_decide (is_Some (parse p))
  | VALID_ATTRIBUTE fs =>
      (fix go (fs : fields) : bool :=
         match fs with [] => true | (_, s') :: fs' => well_formed s' && go fs' end) fs
  | VALID_ARRAY_OF s' | VALID_OPTIONAL s' | VALID_NULLABLE s' => well_formed s'
  | VALID_ARRAY_SIZE_OF s' min max =>
      bool_decide (0 ≤ min ≤ UINT32_MAX) && bool_decide (0 ≤ max ≤ UINT32_MAX) && well_formed s'
  | _ => true
  end.

Definition flags (o n : bool) (base : Z) : Z :=
  Z.lor (if o then OPTIONAL_FLAG else 0) (Z.lor (if n then NULLABLE_FLAG else 0) base).

Definition unflagged (c : option checker) : Prop :=
  match c with Some (OptionalField _) | Some (NullAllowed _) => False | _ => True end.

(** An expansion starts with a number that carries the flags; the rest of the
    type and of the arguments give the checker without them. *)
Definition expands_to (s : schema) (o n : bool) (base : Z) (tail : list arg) (c : option checker) :=
  expand s = ArgUnsigned (flags o n base) :: tail ∧ 0 ≤ base ≤ 16 ∧
  build s = wrap_flags o n c ∧ unflagged c ∧
  ∀ fuel rest, (S (3 * length tail) ≤ fuel)%nat →
    create_validator fuel base (tail ++ rest) = Some (c, rest).

Lemma flag_bits base : 0 ≤ base ≤ 16 →
  ∀ o n, Z.lor OPTIONAL_FLAG (flags o n base) = flags true n base ∧
  Z.lor NULLABLE_FLAG (flags o n base) = flags o true base ∧
  (Z.land (flags o n base) OPTIONAL_FLAG =? OPTIONAL_FLAG) = o ∧
  (Z.land (flags false n base) NULLABLE_FLAG =? NULLABLE_FLAG) = n ∧
  Z.land (flags true n base) (Z.lnot OPTIONAL_FLAG) = flags false n base ∧
  Z.land (flags false true base) (Z.lnot NULLABLE_FLAG) = flags false false base.
Proof.
  intros Hb o n. assert (base ∈ seqZ 0 17) as Hin by (apply elem_of_seqZ; lia).
  clear Hb. revert base Hin. apply list.Forall_forall.
  destruct o, n; apply (bool_decide_eq_true_1 _); vm_compute; reflexivity.
Qed.

Lemma create_flags s o n base tail c :
  expands_to s o n base tail c →
  ∀ fuel rest, (3 * S (length tail) ≤ fuel)%nat →
    create_validator fuel (flags o n base) (tail ++ rest) = Some (build s, rest).
Proof.
  intros (_ & Hb & -> & _ & Hc) fuel rest Hf.
  destruct (flag_bits base Hb o n) as (_ & _ & Eo & _ & Eo' & _).
  destruct (flag_bits base Hb false n) as (_ & _ & Eo2 & En & _ & En').
  assert (∀ fuel, (2 + 3 * length tail ≤ fuel)%nat →
    create_validator fuel (flags false n base) (tail ++ rest) =
    Some (wrap_flags false n c, rest)) as Hn.
  { intros [|f] Hle; [lia|]. destruct n; [|by apply Hc; lia].
    cbn [create_validator]. rewrite Eo2, En, En'. change (flags false false base) with base.
    by rewrite Hc by lia. }
  destruct o; [|apply Hn; lia]. destruct fuel as [|f]; [lia|].
  cbn [create_validator]. rewrite Eo, Eo', Hn by lia. done.
Qed.

Lemma create_declared_number n rest :
  create_number (ArgUnsigned (numeric_type n) :: numeric_bounds n ++ rest) =
  Some (declared_number n, rest).
Proof. by destruct n as [[] []|[] []|[] []|[] []|[] []]. Qed.

(** The element type of an array. *)
Lemma create_element s o n base tail c fuel rest :
  expands_to s o n base tail c → (3 * length (expand s) ≤ fuel)%nat →
  ∃ t args, expand s ++ rest = ArgUnsigned t :: args ∧
    create_validator fuel t args = Some (build s, rest).
Proof.
  intros Hs Hf. destruct Hs as (E & Hs'). rewrite E in *. exists (flags o n base), (tail ++ rest).
  split; [done|]. eapply create_flags; [by split|]. simpl in Hf. lia.
Qed.

Lemma expand_spec s : well_formed s = true → ∃ o n base tail c, expands_to s o n base tail c.
Proof.
  assert (∀ s base tail c,
    expand s = ArgUnsigned base :: tail → 0 ≤ base ≤ 16 → build s = c → unflagged c →
    (∀ fuel rest, (3 * length tail ≤ fuel)%nat →
      create_validator (S fuel) base (tail ++ rest) = Some (c, rest)) →
    ∃ o n base tail c, expands_to s o n base tail c) as leaf.
  { intros s' base tail c E Hb Hc Hu Hcr. exists false, false, base, tail, c.
    split_and!; [exact E|lia|lia|exact Hc|exact Hu|].
    intros [|fuel] rest Hf; [lia|]. apply Hcr. lia. }
  induction s as [| | |t| | |n|f vs|p|fs _|s IH|s min max IH|s IH|s IH] using schema_nested_ind;
    cbn [well_formed]; intros Hwf.
  - by eapply leaf.
  - by eapply leaf.
  - by eapply leaf.
  - by destruct t; eapply leaf.
  - by eapply leaf.
  - by eapply leaf.
  - eapply leaf; try done. intros fuel rest _.
    change (('(n0, rest0) ← create_number (ArgUnsigned (numeric_type n) :: numeric_bounds n ++ rest);
             Some (Some (Number n0), rest0)) = Some (build (VALID_NUMERIC_TYPED n), rest)).
    by rewrite create_declared_number.
  - by eapply leaf.
  - eapply leaf; try done. intros fuel rest _. apply bool_decide_eq_true in Hwf as [r Hr].
    change ((r ← parse p; Some (Some (RegexOf r), rest)) = Some (Some (RegexOf (regex_of p)), rest)).
    unfold regex_of. by rewrite Hr.
  - by eapply leaf.
  - destruct (IH Hwf) as (o & n & base & tail & c & Hs). eapply (leaf _ 13 (expand s)); [done|lia|done|done|].
    intros fuel rest Hf. destruct (create_element _ _ _ _ _ _ fuel rest Hs) as (t & args & E & Hc); [done|].
    rewrite E. cbn [create_validator]. change (Z.land 13 OPTIONAL_FLAG =? OPTIONAL_FLAG) with false.
    change (Z.land 13 NULLABLE_FLAG =? NULLABLE_FLAG) with false. cbn iota. by rewrite Hc.
  - apply andb_true_iff in Hwf as [_ Hwf].
    destruct (IH Hwf) as (o & n & base & tail & c & Hs). eapply (leaf _ 14 (ArgUnsigned min :: ArgUnsigned max :: expand s)); [done|lia|done|done|].
    intros fuel rest Hf. destruct (create_element _ _ _ _ _ _ fuel rest Hs) as (t & args & E & Hc).
    { simpl in Hf. lia. }
    cbn [app]. rewrite E. cbn [create_validator].
    change (Z.land 14 OPTIONAL_FLAG =? OPTIONAL_FLAG) with false.
    change (Z.land 14 NULLABLE_FLAG =? NULLABLE_FLAG) with false. cbn iota. by rewrite Hc.
  - destruct (IH Hwf) as (o & n & base & tail & c & E & Hb & Eb & Hu & Hc).
    exists true, n, base, tail, c. destruct (flag_bits base Hb o n) as (Eo & _).
    split_and!; [simpl; by rewrite E, Eo|lia|lia| |exact Hu|exact Hc]. simpl. rewrite Eb.
    destruct o, n; simpl; try done. by destruct c as [[]|].
  - destruct (IH Hwf) as (o & n & base & tail & c & E & Hb & Eb & Hu & Hc).
    exists o, true, base, tail, c. destruct (flag_bits base Hb o n) as (_ & En & _).
    split_and!; [simpl; by rewrite E, En|lia|lia| |exact Hu|exact Hc]. simpl. rewrite Eb.
    destruct o, n; simpl; try done; by destruct c as [[]|].
Qed.

Lemma create_loop_declared fs fuel vs :
  Forall (λ f, well_formed f.2 = true) fs → (length (declare fs) ≤ fuel)%nat →
  create_loop fuel vs (declare fs) =
  Some (foldl (λ acc v, merge_validator acc v.1 v.2) vs (build_fields build fs)).
Proof.
  intros Hwf. revert fuel vs. induction Hwf as [|[n s] fs Hs _ IH]; intros fuel vs Hf.
  { destruct fuel; [simpl in Hf; lia|done]. }
  destruct fuel as [|fuel]; [simpl in Hf; lia|]. cbn [declare create_loop].
  destruct (expand_spec s Hs) as (o & m & base & tail & c & Hx).
  pose proof Hx as (E & _). rewrite E. cbn [app].
  rewrite (create_flags _ _ _ _ _ _ Hx) by (rewrite length_app; lia).
  cbn [mbind option_bind]. rewrite IH; [done|].
  cbn [declare] in Hf. rewrite E in Hf. simpl in Hf. rewrite length_app in Hf. lia.
Qed.

Lemma create_declared fs :
  Forall (λ f, well_formed f.2 = true) fs → create_validators (declare fs) = Some (procedure_of fs).
Proof. intros Hwf. by apply create_loop_declared. Qed.

(** ** Conforming documents *)

Lemma append_nil_r (s : string) : (s +:+ "")%string = s.
Proof. induction s as [|a s IH]; [done|]. exact (f_equal (String.String a) IH). Qed.

Lemma length_chars (s : string) : length (chars s) = String.length s.
Proof. unfold chars. rewrite length_fmap. by induction s as [|a s IH]; simpl; [|rewrite IH]. Qed.

Section conforms.
Context `{JsonLaws J, Platform}.
Implicit Types v : option J.

Abbreviation outcome_of := (outcome (ValidationException J)).
Abbreviation validate_ptr := (check_ptr validate_checker).

Definition of_json_type (t : jsontype_t) (x : J) : bool :=
  match t with
  | JSON_STRING => is_string x
  | JSON_BOOLEAN => is_boolean x
  | JSON_INTEGER => is_number_integer x
  | JSON_REAL => is_number x
  | JSON_OBJECT => is_object x
  | JSON_ARRAY => is_array x
  end.

(** The 8-4-4-4-12 format. *)
Definition uuid_text (w : list Z) : Prop :=
  length w = 36%nat ∧
  ∀ i c, w !! i = Some c →
    if decide (i ∈ [8; 13; 18; 23]%nat) then c = code "-" else is_hex c = true.

(** *** Numbers *)

(** Between the bounds that are given. *)
Definition within (min max : option Z) (z : Z) : Prop :=
  (∀ m, min = Some m → m ≤ z) ∧ (∀ m, max = Some m → z ≤ m).

Definition within_double (min max : option double) (d : double) : Prop :=
  (∀ m, min = Some m → Double.ltb d m = false) ∧ (∀ m, max = Some m → Double.ltb m d = false).

(** A JSON integer, or a float without a fraction. *)
Definition whole (x : J) : Prop :=
  is_number_integer x = true ∨ is_number_float x = true ∧ Double.has_fraction (json_double x) = false.

Definition nonnegative (x : J) : Prop :=
  if is_number_float x then Double.ltb (json_double x) (finite 0 0) = false else 0 ≤ json_integer x.

(** The numbers a declaration of a number admits: whole ones for the integer types, without a
    sign for the unsigned ones, and such that the number lies between the declared
    bounds after a conversion to 64 bits (a cast: [get_int64], [get_uint64]).  The
    double of the number bounds the 64-bit types, up to 2^63 and 2^64 inclusive;
    nothing bounds the 32-bit types beyond the declared bounds. *)
Definition admits (n : numeric) (x : J) : Prop :=
  match n with
  | INT32 min max => whole x ∧ within min max (get_int64 x)
  | UINT32 min max => whole x ∧ nonnegative x ∧ within min max (get_uint64 x)
  | INT64 min max =>
      whole x ∧ within_double (Some (finite (-1) 63)) (Some (finite 1 63)) (get_double x) ∧
      within min max (get_int64 x)
  | UINT64 min max =>
      whole x ∧ nonnegative x ∧ within_double None (Some (finite 1 64)) (get_double x) ∧
      within min max (get_uint64 x)
  | DOUBLE min max => is_number x = true ∧ within_double min max (get_double x)
  end.

(** The fields are as declared, and there are no others. *)
Definition conforms_members (conforms : schema → option J → Prop) (fs : fields) (o : J) : Prop :=
  (fix go (fs : fields) : Prop :=
     match fs with
     | [] => True
     | (n, s) :: fs' => conforms s (json_find o (text n)) ∧ go fs'
     end) fs ∧
  ∀ k, is_Some (json_find o k) → k ∈ (λ f : cstring * schema, text f.1) <$> fs.

(** The values a schema admits for a field, [None] when the field is absent. *)
Fixpoint conforms (s : schema) v {struct s} : Prop :=
  match s with
  | VALID_ALWAYS => True
  | VALID_NEVER => False
  | VALID_JSON_ANY => ∃ x, v = Some x ∧ json_type x ≠ null
  | VALID_JSON t => ∃ x, v = Some x ∧ of_json_type t x = true
  | VALID_UUID => ∃ x, v = Some x ∧ is_string x = true ∧ uuid_text (chars (json_string x))
  | VALID_NUMERIC => ∃ x, v = Some x ∧ is_number x = true
  | VALID_NUMERIC_TYPED n => ∃ x, v = Some x ∧ admits n x
  | VALID_ENUM f _ => ∃ x, v = Some x ∧ is_string x = true ∧ f (json_string x) = true
  | VALID_REGEX p =>
      ∃ x, v = Some x ∧ is_string x = true ∧ regex_match (json_string x) (regex_of p) = true
  | VALID_ATTRIBUTE fs =>
      ∃ x, v = Some x ∧ is_object x = true ∧ conforms_members conforms fs x
  | VALID_ARRAY_OF s' =>
      ∃ x, v = Some x ∧ is_array x = true ∧ Z.of_nat (json_size x) ≤ UINT32_MAX ∧
        ∀ i y, json_elements x !! i = Some y → conforms s' (Some y)
  | VALID_ARRAY_SIZE_OF s' min max =>
      ∃ x, v = Some x ∧ is_array x = true ∧
        (max < min ∨ min ≤ Z.of_nat (json_size x) ≤ max ∧
           ∀ i y, json_elements x !! i = Some y → conforms s' (Some y))
  | VALID_OPTIONAL s' => v = None ∨ conforms s' v
  | VALID_NULLABLE s' => (∃ x, v = Some x ∧ is_null x = true) ∨ conforms s' v
  end.

(** A whole request: an object, or null when every field may be absent. *)
Definition conforms_request (fs : fields) (request : J) : Prop :=
  (is_object request = true ∨ is_null request = true) ∧ conforms_members conforms fs request.

(** *** Outcomes *)

Lemma rethrow_valid {E E'} (f : E → E') o : rethrow f o = Valid ↔ o = Valid.
Proof. by destruct o. Qed.

Lemma and_then_valid {E} (o1 o2 : outcome E) : (o1 &; o2) = Valid ↔ o1 = Valid ∧ o2 = Valid.
Proof. destruct o1; simpl; intuition congruence. Qed.

Lemma fail_if_valid {E} c (ex : E) : fail_if c ex = Valid ↔ c = false.
Proof. by destruct c. Qed.

Lemma validate_present_valid v :
  validate_present v = Valid ↔ ∃ x, v = Some x ∧ is_null x = false.
Proof.
  destruct v as [x|]; simpl; [rewrite fail_if_valid|]; [|by split; [|intros (?&?&?)]].
  split; [by exists x|]. by intros (y & [= <-] & Hy).
Qed.

(** A check of the present value. *)
Lemma present_and v (o : outcome_of) (P : J → Prop) :
  (∀ x, v = Some x → o = Valid ↔ P x) → (∀ x, P x → is_null x = false) →
  (validate_present v &; o) = Valid ↔ ∃ x, v = Some x ∧ P x.
Proof.
  intros Ho Hnn. rewrite and_then_valid, validate_present_valid. split.
  - intros [(x & -> & _) Hv]. exists x. split; [done|]. by apply Ho.
  - intros (x & -> & HP). split; [|by apply (Ho x)]. exists x. split; [done|by apply Hnn].
Qed.

Lemma not_null_of (x : J) t : json_type x = t → t ≠ null → is_null x = false.
Proof. intros <- Ht. unfold is_null. by apply bool_decide_eq_false. Qed.

Lemma typed_not_null x (t : jsontype_t) : of_json_type t x = true → is_null x = false.
Proof.
  unfold of_json_type, is_string, is_boolean, is_number, is_number_integer, is_number_float,
    is_object, is_array, is_number_integer, is_null. intros Ht. apply bool_decide_eq_false. intros E.
  by destruct t; rewrite E in Ht.
Qed.

Lemma validate_jsonrpc_valid t v :
  validate_jsonrpc t v = Valid ↔ ∃ x, v = Some x ∧ of_json_type t x = true.
Proof.
  unfold validate_jsonrpc. apply present_and; [|intros x; apply typed_not_null].
  intros x ->. destruct t; by rewrite fail_if_valid, negb_false_iff.
Qed.

Lemma validate_enum_valid f vs v :
  validate_enum f vs v = Valid ↔ ∃ x, v = Some x ∧ is_string x = true ∧ f (json_string x) = true.
Proof.
  unfold validate_enum. apply present_and; [|intros x [Hx _]; by apply (typed_not_null x JSON_STRING)].
  intros x ->. rewrite and_then_valid, fail_if_valid, negb_false_iff. simpl.
  destruct (f (json_string x)); simpl; [tauto|]. destruct (json_empty x); intuition done.
Qed.

Lemma validate_regex_valid r v :
  validate_regex r v = Valid ↔
  ∃ x, v = Some x ∧ is_string x = true ∧ regex_match (json_string x) r = true.
Proof.
  unfold validate_regex. apply present_and; [|intros x [Hx _]; by apply (typed_not_null x JSON_STRING)].
  intros x ->. by rewrite and_then_valid, !fail_if_valid, !negb_false_iff.
Qed.

Lemma uuid_loop_valid value p w :
  length p = length w →
  uuid_loop value p w = (Valid : outcome_of) ↔
  ∀ i a c, p !! i = Some a → w !! i = Some c →
    if decide (a = code "x") then is_hex c = true else c = a.
Proof.
  revert w. induction p as [|a p IH]; intros [|c w] Hl; try done.
  cbn [uuid_loop]. rewrite and_then_valid, IH by (simpl in Hl; lia). split.
  - intros [Hac Hrest] [|i] a' c' Ha Hc; [|by apply (Hrest i)]. simplify_eq/=. case_decide.
    + by rewrite fail_if_valid, negb_false_iff in Hac.
    + rewrite fail_if_valid, negb_false_iff in Hac. by apply Z.eqb_eq in Hac.
  - intros Hi. split; [|intros i; apply (Hi (S i))]. specialize (Hi 0%nat a c eq_refl eq_refl).
    case_decide; rewrite fail_if_valid, negb_false_iff; [done|]. by apply Z.eqb_eq.
Qed.

Lemma uuid_pattern_lookup i :
  (i < 36)%nat →
  chars uuid_pattern !! i = Some (if decide (i ∈ [8; 13; 18; 23]%nat) then code "-" else code "x").
Proof.
  intros Hi. assert (i ∈ seq 0 36) as Hin by (apply elem_of_seq; lia). clear Hi. revert i Hin.
  apply list.Forall_forall, (bool_decide_eq_true_1 _). vm_compute. reflexivity.
Qed.

Lemma validate_uuid_valid v :
  validate_uuid v = Valid ↔
  ∃ x, v = Some x ∧ is_string x = true ∧ uuid_text (chars (json_string x)).
Proof.
  unfold validate_uuid. apply present_and; [|intros x [Hx _]; by apply (typed_not_null x JSON_STRING)].
  intros x ->. rewrite !and_then_valid, !fail_if_valid, !negb_false_iff. change (content (Some x)) with x.
  apply and_iff_compat_l. unfold uuid_text. rewrite length_chars, Nat.eqb_eq.
  split; intros [Hl Hi]; (split; [done|]).
  - rewrite uuid_loop_valid in Hi by (by rewrite !length_chars, Hl).
    intros i c Hc. assert (i < 36)%nat as Hlt by (apply lookup_lt_Some in Hc; rewrite length_chars, Hl in Hc; done).
    specialize (Hi i _ c (uuid_pattern_lookup i Hlt) Hc). case_decide; by case_decide.
  - rewrite uuid_loop_valid by (by rewrite !length_chars, Hl). intros i a c Ha Hc.
    assert (i < 36)%nat as Hlt by (apply lookup_lt_Some in Hc; rewrite length_chars, Hl in Hc; done).
    rewrite uuid_pattern_lookup in Ha by done. simplify_eq. specialize (Hi i c Hc).
    case_decide; by case_decide.
Qed.

(** The check of a number *)

Lemma float_not_integer x : is_number_float x = true → is_number_integer x = false.
Proof.
  unfold is_number_float, is_number_integer. intros E%bool_decide_eq_true. by rewrite E.
Qed.

Lemma integer_form_valid x message : integer_form x message = Valid ↔ whole x.
Proof.
  unfold integer_form, whole, is_number, get_double. rewrite and_then_valid, !fail_if_valid, negb_false_iff.
  destruct (is_number_float x) eqn:Ef.
  - rewrite (float_not_integer x Ef). cbn. intuition done.
  - rewrite orb_false_r. cbn. intuition done.
Qed.

Lemma whole_number x : whole x → is_number x = true.
Proof. unfold whole, is_number. intros [-> |[-> _]]; [done|apply orb_true_r]. Qed.

Lemma number_not_boolean x : is_number x = true → is_boolean x = false.
Proof.
  unfold is_number, is_number_integer, is_number_float, is_boolean. intros Hx.
  apply bool_decide_eq_false. intros E. by rewrite E in Hx.
Qed.

Lemma not_boolean_number x : is_number x = true → not_boolean x = Valid.
Proof. intros Hx. by apply fail_if_valid, number_not_boolean. Qed.

Lemma not_negative_nonnegative x : not_negative x = Valid ↔ nonnegative x.
Proof.
  unfold not_negative, nonnegative, get_double. rewrite fail_if_valid.
  destruct (is_number_float x); [done|]. set (z := json_integer x).
  destruct (DoubleFacts.of_integer_bound z (Z.abs z)) as (m & e & -> & He & _ & Hs).
  { lia. } { apply Z.lt_le_incl, Z.pow_gt_lin_r; lia. }
  destruct (DoubleFacts.ltb_finite m e 0 He) as [-> _]. rewrite Z.ltb_ge.
  assert (0 < 2 ^ e) as Hp by (apply Z.pow_pos_nonneg; lia). split; nia.
Qed.

Lemma in_bounds_valid n z name (x : J) :
  in_bounds n z name x = Valid ↔
  (has_min n = true → n_min n ≤ z) ∧ (has_max n = true → z ≤ n_max n).
Proof.
  unfold in_bounds. rewrite fail_if_valid, orb_false_iff, !andb_false_iff, !Z.ltb_ge.
  destruct (has_min n), (has_max n); intuition congruence.
Qed.

Lemma declared_bounds n min max z name (x : J) :
  n = INT32 min max ∨ n = UINT32 min max ∨ n = INT64 min max ∨ n = UINT64 min max →
  in_bounds (declared_number n) z name x = Valid ↔ within min max z.
Proof.
  intros Hn. rewrite in_bounds_valid. unfold within.
  assert (has_min (declared_number n) = bool_decide (is_Some min) ∧
    has_max (declared_number n) = bool_decide (is_Some max) ∧
    n_min (declared_number n) = default 0 min ∧ n_max (declared_number n) = default 0 max) as (-> & -> & -> & ->).
  { by destruct Hn as [->|[->|[->| ->]]]. }
  destruct min as [lo|], max as [hi|]; simpl; intuition (congruence || idtac); simplify_eq; auto.
Qed.

Lemma in_type_within min max dmin dmax name (x : J) :
  (∀ d, Double.ltb d (Double.of_integer min) = Double.ltb d dmin) →
  (∀ d, Double.ltb (Double.of_integer max) d = Double.ltb dmax d) →
  in_type min max name x = Valid ↔ within_double (Some dmin) (Some dmax) (get_double x).
Proof.
  intros Hmin Hmax. unfold in_type, within_double. rewrite fail_if_valid, orb_false_iff, Hmin, Hmax. split.
  - intros [H1' H2]. split; intros m [= <-]; done.
  - intros [H1' H2]. split; [by apply H1'|by apply H2].
Qed.

(** The limits of the 64-bit types as doubles. *)
Lemma int64_limits d :
  Double.ltb d (Double.of_integer (- 2 ^ 63)) = Double.ltb d (finite (-1) 63) ∧
  Double.ltb (Double.of_integer (2 ^ 63 - 1)) d = Double.ltb (finite 1 63) d.
Proof.
  split; [exact (DoubleFacts.ltb_scale_r d (-1) 52 11 ltac:(lia))|exact (DoubleFacts.ltb_scale_l d 1 53 10 ltac:(lia))].
Qed.

Lemma uint64_limit d : Double.ltb (Double.of_integer (2 ^ 64 - 1)) d = Double.ltb (finite 1 64) d.
Proof. exact (DoubleFacts.ltb_scale_l d 1 53 11 ltac:(lia)). Qed.

Lemma in_type_uint64 name (x : J) :
  nonnegative x →
  in_type 0 (2 ^ 64 - 1) name x = Valid ↔ within_double None (Some (finite 1 64)) (get_double x).
Proof.
  intros Hx. rewrite (in_type_within _ _ (finite 0 0) (finite 1 64)); [|done|apply uint64_limit].
  apply not_negative_nonnegative in Hx. unfold not_negative in Hx. rewrite fail_if_valid in Hx.
  unfold within_double. split; intros [H1' H2]; (split; [|done]); intros m [= <-]. done.
Qed.

Lemma in_double_valid (min max : option double) (n : number_checker) (x : J) ex :
  n = declared_number (DOUBLE min max) →
  fail_if ((has_min n && Double.ltb (get_double x) (d_min n)) || (has_max n && Double.ltb (d_max n) (get_double x))) ex
    = (Valid : outcome_of) ↔ within_double min max (get_double x).
Proof.
  intros ->. rewrite fail_if_valid, orb_false_iff, !andb_false_iff. cbn [declared_number has_min has_max d_min d_max].
  unfold within_double. destruct min as [lo|], max as [hi|]; simpl; intuition (congruence || idtac); simplify_eq; auto.
Qed.

Lemma validate_number_valid n v :
  validate_number (declared_number n) v = Valid ↔ ∃ x, v = Some x ∧ admits n x.
Proof.
  unfold validate_number. apply present_and.
  2:{ intros x Hx. assert (is_number x = true) as Hn.
      { destruct n; destruct Hx as [Hx _]; (done || by apply whole_number). }
      by apply (typed_not_null x JSON_REAL). }
  intros x ->. change (content (Some x)) with x.
  destruct n as [min max|min max|min max|min max|min max]; cbn [declared_number n_type number_kind admits];
    rewrite !and_then_valid, ?integer_form_valid, ?not_negative_nonnegative.
  - rewrite (declared_bounds (INT32 min max) min max) by auto.
    split; [tauto|]. intros [Hw Hb]. split_and!; [done|done|]. by apply not_boolean_number, whole_number.
  - rewrite (declared_bounds (UINT32 min max) min max) by auto.
    split; [tauto|]. intros (Hw & Hp & Hb). split_and!; [done|done|done|]. by apply not_boolean_number, whole_number.
  - rewrite (declared_bounds (INT64 min max) min max) by auto.
    rewrite (in_type_within _ _ (finite (-1) 63) (finite 1 63)) by (intros d; apply int64_limits).
    split; [tauto|]. intros (Hw & Hd & Hb). split_and!; [done| |done|done]. by apply not_boolean_number, whole_number.
  - rewrite (declared_bounds (UINT64 min max) min max) by auto. split.
    + intros (Hw & Hp & _ & Hd & Hb). rewrite in_type_uint64 in Hd by done. tauto.
    + intros (Hw & Hp & Hd & Hb). rewrite in_type_uint64 by done. split_and!; try done.
      by apply not_boolean_number, whole_number.
  - rewrite fail_if_valid, negb_false_iff, (in_double_valid min max) by done.
    split; [tauto|]. intros [Hn Hb]. split_and!; [done|done|]. by apply not_boolean_number.
Qed.

(** *** Loops *)

Lemma check_elements_valid (check : option J → outcome_of) k l :
  check_elements check k l = Valid ↔ ∀ i y, l !! i = Some y → check (Some y) = Valid.
Proof.
  revert k. induction l as [|x l IH]; intros k; [done|].
  cbn [check_elements]. fold (check_elements check). rewrite and_then_valid, rethrow_valid, IH.
  split; [intros [Hx Hl] [|i] y Hy; [by simplify_eq/=|by apply (Hl i)]|].
  intros Hi. split; [by apply (Hi 0%nat)|intros i; apply (Hi (S i))].
Qed.

Definition texts (vs : ProcedureValidator) : list string := (λ f, text f.1) <$> vs.

(** The loop over the fields of a procedure whose names have different texts:
    each field is checked with its value in the request, and what is left are
    the members that are no field. *)
Lemma check_fields_spec check request vs members :
  NoDup (texts vs) → (∀ k, k ∈ texts vs → json_find members k = json_find request k) →
  match check_fields check request vs members with
  | (Valid, members') =>
      Forall (λ f, check_ptr check f.2 (json_find request (text f.1)) = Valid) vs ∧
      json_type members' = json_type members ∧
      ∀ k, json_find members' k = if decide (k ∈ texts vs) then None else json_find members k
  | (Invalid ex, _) =>
      ∃ f ex', f ∈ vs ∧ check_ptr check f.2 (json_find request (text f.1)) = Invalid ex' ∧
        ex = append_field (text f.1) ex'
  end.
Proof.
  revert members. induction vs as [|[n c] vs IH]; intros members Hnd Hm.
  { cbn [check_fields]. split_and!; [constructor|done|]. intros k.
    rewrite decide_False; [done|apply not_elem_of_nil]. }
  cbn [texts fmap list_fmap] in Hnd, Hm. fold (texts vs) in *. apply list.NoDup_cons in Hnd as [Hn Hnd].
  cbn [check_fields]. fold (check_fields check request). unfold remove_from, json_count.
  cbn [fst] in *. rewrite (Hm (text n)) by apply list_elem_of_here.
  set (members' := match json_find request (text n) with
                   | Some _ => json_erase members (text n) | None => members end).
  assert (∀ k, json_find members' k = if decide (k = text n) then None else json_find members k) as Hm'.
  { intros k. unfold members'. destruct (json_find request (text n)) eqn:E.
    - rewrite find_erase. by repeat case_decide; subst.
    - case_decide; [subst|done]. rewrite Hm; [done|apply list_elem_of_here]. }
  assert (json_type members' = json_type members) as Ht.
  { unfold members'. destruct (json_find request (text n)); [apply type_erase|done]. }
  specialize (IH members' Hnd).
  assert (∀ k, k ∈ texts vs → json_find members' k = json_find request k) as Hm2.
  { intros k Hk. rewrite Hm'. destruct (decide (k = text n)) as [->|_]; [done|].
    apply Hm. by apply list_elem_of_further. }
  specialize (IH Hm2).
  assert (∀ o : outcome_of, o = check_ptr check c (json_find request (text n)) →
    match match rethrow (append_field (text n)) o with
          | Valid => check_fields check request vs members' | Invalid ex => (Invalid ex, members') end with
    | (Valid, members'') =>
        Forall (λ f, check_ptr check f.2 (json_find request (text f.1)) = Valid) ((n, c) :: vs) ∧
        json_type members'' = json_type members ∧
        ∀ k, json_find members'' k =
          if decide (k ∈ text n :: texts vs) then None else json_find members k
    | (Invalid ex, _) =>
        ∃ f ex', f ∈ (n, c) :: vs ∧ check_ptr check f.2 (json_find request (text f.1)) = Invalid ex' ∧
          ex = append_field (text f.1) ex'
    end) as Hgo.
  { intros o Ho. destruct o as [|ex]; cbn [rethrow];
      [|exists (n, c), ex; split_and!; [apply list_elem_of_here|exact (eq_sym Ho)|done]].
    destruct (check_fields check request vs members') as [[|ex] members''].
    - destruct IH as (Hf & Ht' & Hk). split_and!; [by constructor|by rewrite Ht'|]. intros k. rewrite Hk, Hm'.
      repeat case_decide; try done; set_solver.
    - destruct IH as (f & ex' & Hf & Hrest). exists f, ex'. split; [by apply list_elem_of_further|done]. }
  unfold members' in *. cbn [texts fmap list_fmap fst]. fold (texts vs).
  destruct (json_find request (text n)) as [x|] eqn:E; cbn [default from_option id] in *; by apply Hgo.
Qed.

(** *** Fields passed more than once *)

(** Two field names have the same address when they have the same text: every
    name is passed as one static array. *)
Definition static (names : list cstring) : Prop :=
  ∀ n m, n ∈ names → m ∈ names → address n = address m ↔ text n = text m.

Section merge.
Context (check : checker → option J → outcome_of) (find : string → option J).
Hypothesis check_composite : ∀ a b v,
  check (Composite a b) v = Valid ↔ check_ptr check a v = Valid ∧ check_ptr check b v = Valid.

Abbreviation passes := (λ f : cstring * option checker, check_ptr check f.2 (find (text f.1)) = Valid).

Lemma merge_passes names vs n c :
  static names → n ∈ names → (∀ f, f ∈ vs → f.1 ∈ names) →
  Forall passes (merge_validator vs n c) ↔ Forall passes vs ∧ check_ptr check c (find (text n)) = Valid.
Proof using check_composite.
  intros Hs Hn. induction vs as [|[m d] vs IH]; intros Hvs; simpl.
  { rewrite list.Forall_singleton. simpl. split; [by split; [constructor|]|by intros [_ ?]]. }
  assert (m ∈ names) as Hm by (apply (Hvs (m, d)); apply list_elem_of_here).
  destruct (decide (address m = address n)) as [E|E].
  - apply (Hs m n) in E; [|done..]. rewrite !list.Forall_cons. cbn [fst snd check_ptr].
    rewrite check_composite, E. tauto.
  - rewrite !list.Forall_cons, IH; [tauto|]. intros f Hf. apply Hvs. by apply list_elem_of_further.
Qed.

Lemma merge_elem vs n c f : f ∈ merge_validator vs n c → f.1 = n ∨ f.1 ∈ vs.*1.
Proof.
  induction vs as [|[m d] vs IH]; simpl.
  { intros ->%list_elem_of_singleton. by left. }
  case_decide; intros [->|Hf]%list.elem_of_cons; simpl; try (right; apply list_elem_of_here).
  - right. apply list_elem_of_further. by apply list_elem_of_fmap_2.
  - apply IH in Hf as [?|Hf]; [by left|right]. by apply list_elem_of_further.
Qed.

Lemma merge_texts names vs n c :
  static names → n ∈ names → (∀ f, f ∈ vs → f.1 ∈ names) →
  ∀ k, k ∈ texts (merge_validator vs n c) ↔ k ∈ texts vs ∨ k = text n.
Proof.
  intros Hs Hn. induction vs as [|[m d] vs IH]; intros Hvs k; simpl.
  { set_solver. }
  assert (m ∈ names) as Hm by (apply (Hvs (m, d)); apply list_elem_of_here).
  destruct (decide (address m = address n)) as [E|E]; cbn [texts fmap list_fmap fst]; fold (texts vs).
  - apply (Hs m n) in E; [|done..]. rewrite !list.elem_of_cons, E. tauto.
  - fold (texts (merge_validator vs n c)). rewrite !list.elem_of_cons, IH; [tauto|].
    intros f Hf. apply Hvs. by apply list_elem_of_further.
Qed.

Lemma merge_NoDup names vs n c :
  static names → n ∈ names → (∀ f, f ∈ vs → f.1 ∈ names) →
  NoDup (texts vs) → NoDup (texts (merge_validator vs n c)).
Proof.
  intros Hs Hn. induction vs as [|[m d] vs IH]; intros Hvs; simpl.
  { intros _. apply NoDup_singleton. }
  cbn [texts fmap list_fmap fst]. fold (texts vs). intros [Hm Hnd]%list.NoDup_cons.
  assert (m ∈ names) as Hmn by (apply (Hvs (m, d)); apply list_elem_of_here).
  assert (∀ f, f ∈ vs → f.1 ∈ names) as Hvs'.
  { intros f Hf. apply Hvs. by apply list_elem_of_further. }
  destruct (decide (address m = address n)) as [E|E]; cbn [texts fmap list_fmap fst].
  - by apply list.NoDup_cons.
  - fold (texts (merge_validator vs n c)). apply list.NoDup_cons. split; [|by apply IH].
    rewrite (merge_texts names) by done. intros [?|Et]; [done|]. apply E. by apply (Hs m n).
Qed.

Lemma merge_all_spec names vs :
  static names → (∀ f, f ∈ vs → f.1 ∈ names) →
  (Forall passes (merge_all vs) ↔ Forall passes vs) ∧ NoDup (texts (merge_all vs)) ∧
  ∀ k, k ∈ texts (merge_all vs) ↔ k ∈ texts vs.
Proof using All.
  intros Hs. unfold merge_all.
  assert (∀ acc, (∀ f, f ∈ acc → f.1 ∈ names) → (∀ f, f ∈ vs → f.1 ∈ names) → NoDup (texts acc) →
    let res := foldl (λ acc f, merge_validator acc f.1 f.2) acc vs in
    (Forall passes res ↔ Forall passes acc ∧ Forall passes vs) ∧ NoDup (texts res) ∧
    ∀ k, k ∈ texts res ↔ k ∈ texts acc ∨ k ∈ texts vs) as Hgen.
  { induction vs as [|[n c] vs IH]; intros acc Hacc Hvs Hnd; simpl.
    { split_and!; [|done|]; [rewrite list.Forall_nil; tauto|set_solver]. }
    assert (n ∈ names) as Hn by (apply (Hvs (n, c)); apply list_elem_of_here).
    destruct (IH (merge_validator acc n c)) as (IH1 & IH2 & IH3).
    - intros f [->|Hf]%merge_elem; [done|].
      apply list_elem_of_fmap in Hf as (g & -> & Hg). by apply Hacc.
    - intros f Hf. apply Hvs. by apply list_elem_of_further.
    - by apply (merge_NoDup names).
    - split_and!; [|done|].
      + rewrite IH1, (merge_passes names), list.Forall_cons by done. simpl. tauto.
      + intros k. rewrite IH3, (merge_texts names) by done. cbn [texts fmap list_fmap fst].
        fold (texts vs). rewrite list.elem_of_cons. tauto. }
  intros Hvs. destruct (Hgen [] ltac:(by intros f ?%elem_of_nil) Hvs (NoDup_nil_2)) as (H1' & H2 & H3).
  split_and!; [|done|].
  - rewrite H1', list.Forall_nil. tauto.
  - intros k. rewrite H3. set_solver.
Qed.
End merge.

(** *** Acceptance *)

(** The names of the fields at every level of a schema. *)
Fixpoint static_names (s : schema) : Prop :=
  match s with
  | VALID_ATTRIBUTE fs =>
      static fs.*1 ∧
      (fix go (fs : fields) : Prop :=
         match fs with [] => True | (_, s') :: fs' => static_names s' ∧ go fs' end) fs
  | VALID_ARRAY_OF s' | VALID_ARRAY_SIZE_OF s' _ _ | VALID_OPTIONAL s' | VALID_NULLABLE s' =>
      static_names s'
  | _ => True
  end.

(** The names of a whole declaration. *)
Definition static_fields (fs : fields) : Prop := static_names (VALID_ATTRIBUTE fs).

(** The same conditions as a test, for the declarations of the program. *)
Definition staticb (names : list cstring) : bool :=
  forallb (λ n, forallb (λ m,
    Bool.eqb (bool_decide (address n = address m)) (bool_decide (text n = text m))) names) names.

Fixpoint static_namesb (s : schema) : bool :=
  match s with
  | VALID_ATTRIBUTE fs =>
      staticb fs.*1 &&
      (fix go (fs : fields) : bool :=
         match fs with [] => true | (_, s') :: fs' => static_namesb s' && go fs' end) fs
  | VALID_ARRAY_OF s' | VALID_ARRAY_SIZE_OF s' _ _ | VALID_OPTIONAL s' | VALID_NULLABLE s' =>
      static_namesb s'
  | _ => true
  end.

Definition checked (fs : fields) : bool :=
  forallb (λ f, well_formed f.2) fs && static_namesb (VALID_ATTRIBUTE fs).

Lemma staticb_sound names : staticb names = true → static names.
Proof.
  unfold staticb. rewrite forallb_forall. intros Hall n m Hn Hm.
  specialize (Hall n (proj1 (list_elem_of_In _ _) Hn)). rewrite forallb_forall in Hall.
  specialize (Hall m (proj1 (list_elem_of_In _ _) Hm)). apply eqb_prop in Hall.
  by rewrite <- (bool_decide_eq_true (address n = address m)), Hall, bool_decide_eq_true.
Qed.

Lemma static_namesb_sound s : static_namesb s = true → static_names s.
Proof.
  induction s as [| | |t| | |n|f vs|p|fs IH|s IH|s min max IH|s IH|s IH] using schema_nested_ind;
    try done. cbn. intros [Hs Hgo]%andb_true_iff. split; [by apply staticb_sound|].
  clear Hs. revert Hgo. induction IH as [|[n s] fs Hf _ IHfs]; [done|].
  intros [? ?]%andb_true_iff. split; [by apply Hf|by apply IHfs].
Qed.

Lemma checked_sound fs :
  checked fs = true → Forall (λ f, well_formed f.2 = true) fs ∧ static_fields fs.
Proof.
  intros [Hwf Hs]%andb_true_iff. split; [|by apply static_namesb_sound].
  apply list.Forall_forall. intros f Hf. rewrite forallb_forall in Hwf. by apply Hwf, list_elem_of_In.
Qed.

Lemma build_fields_names fs : (build_fields build fs).*1 = fs.*1.
Proof. induction fs as [|[n s] fs IH]; [done|]. cbn. f_equal. apply IH. Qed.

Lemma texts_fst vs : texts vs = text <$> vs.*1.
Proof. unfold texts. by rewrite <- list_fmap_compose. Qed.

(** A request against fields whose schemas are known to be checked exactly. *)
Lemma check_request_spec (fs : fields) request :
  static fs.*1 →
  Forall (λ f, ∀ v, validate_ptr (build f.2) v = Valid ↔ conforms f.2 v) fs →
  check_request validate_checker (procedure_of fs) request = Valid ↔ conforms_request fs request.
Proof.
  intros Hs IH.
  set (passes := λ f : cstring * option checker, validate_ptr f.2 (json_find request (text f.1)) = Valid).
  assert (static fs.*1 → (∀ f, f ∈ build_fields build fs → f.1 ∈ fs.*1) →
    (Forall passes (procedure_of fs) ↔ Forall passes (build_fields build fs)) ∧
    NoDup (texts (procedure_of fs)) ∧
    ∀ k, k ∈ texts (procedure_of fs) ↔ k ∈ texts (build_fields build fs)) as Hm.
  { apply (merge_all_spec validate_checker (json_find request)).
    intros a b v. cbn [validate_checker]. unfold validate_composite. by rewrite and_then_valid. }
  destruct Hm as (Hp & Hnd & Ht); [done| |].
  { intros f Hf. rewrite <- build_fields_names. by apply list_elem_of_fmap_2. }
  assert (Forall passes (build_fields build fs) ↔
    (fix go (fs : fields) : Prop :=
       match fs with
       | [] => True
       | (n, s) :: fs' => conforms s (json_find request (text n)) ∧ go fs'
       end) fs) as Hf.
  { clear Hs Hp Hnd Ht. induction IH as [|[n s] fs Hs _ IH]; [by split; [|constructor]|].
    cbn [build_fields]. fold (build_fields build). rewrite list.Forall_cons, IH. unfold passes at 1.
    cbn [fst snd] in *. by rewrite Hs. }
  assert (texts (build_fields build fs) = (λ f : cstring * schema, text f.1) <$> fs) as Htx.
  { by rewrite texts_fst, build_fields_names, <- list_fmap_compose. }
  unfold conforms_request, conforms_members. rewrite <- Hf, <- Hp, <- Htx. setoid_rewrite <- Ht.
  unfold check_request.
  pose proof (check_fields_spec validate_checker request (procedure_of fs) request Hnd
    ltac:(done)) as Hcf.
  destruct (is_null request) eqn:En; simpl.
  - apply bool_decide_eq_true in En.
    destruct (bool_decide (length (procedure_of fs) = 0%nat)) eqn:El.
    { apply bool_decide_eq_true, nil_length_inv in El. rewrite El. split; [|done]. intros _.
      split_and!; [by right|constructor|]. intros k [x Hx]. by rewrite find_null in Hx. }
    destruct (check_fields _ _ _ _) as [[|ex] members]; simpl.
    + destruct Hcf as (Hc & Htm & _). rewrite empty_null by (by rewrite Htm). split; [|done].
      intros _. split_and!; [by right|done|]. intros k [x Hx]. by rewrite find_null in Hx.
    + split; [done|]. intros (_ & Hc & _). destruct Hcf as (f & ex' & Hin & Hbad & _).
      rewrite list.Forall_forall in Hc. specialize (Hc f Hin). unfold passes in Hc.
      congruence.
  - destruct (is_object request) eqn:Eo; simpl; [|by split; [|intros [[]%or_comm _]]].
    apply bool_decide_eq_true in Eo.
    destruct (check_fields _ _ _ _) as [[|ex] members]; simpl.
    + destruct Hcf as (Hc & Htm & Hk). rewrite fail_if_valid, negb_false_iff.
      rewrite empty_object by (by rewrite Htm). split.
      * intros He. split_and!; [by left|done|]. intros k [x Hx]. specialize (He k). rewrite Hk in He.
        case_decide; [done|congruence].
      * intros (_ & _ & Hall) k. rewrite Hk. case_decide as Hd; [done|].
        destruct (json_find request k) eqn:Ek; [|done]. destruct Hd. apply Hall. by eexists.
    + split; [done|]. intros (_ & Hc & _). destruct Hcf as (f & ex' & Hin & Hbad & _).
      rewrite list.Forall_forall in Hc. specialize (Hc f Hin). unfold passes in Hc.
      congruence.
Qed.

Lemma build_optional s v :
  validate_ptr (build (VALID_OPTIONAL s)) v = Valid ↔ v = None ∨ validate_ptr (build s) v = Valid.
Proof.
  cbn [build]. destruct (build s) as [[]|]; simpl; destruct v as [x|]; simpl; intuition done.
Qed.

Lemma build_nullable s v :
  validate_ptr (build (VALID_NULLABLE s)) v = Valid ↔
  (∃ x, v = Some x ∧ is_null x = true) ∨ validate_ptr (build s) v = Valid.
Proof.
  assert (∀ c, validate_ptr (Some (NullAllowed c)) v = Valid ↔
    (∃ x, v = Some x ∧ is_null x = true) ∨ validate_ptr c v = Valid) as Hn.
  { intros c. cbn [check_ptr validate_checker]. unfold validate_null_allowed. destruct v as [x|].
    - destruct (is_null x) eqn:E; [by split; [left; exists x|]|].
      split; [by right|]. intros [(y & [= <-] & Hy)|?]; [congruence|done].
    - split; [by right|]. by intros [(y & [=] & _)|?]. }
  assert (∀ c, validate_ptr (Some (OptionalField (Some (NullAllowed c)))) v = Valid ↔
    (∃ x, v = Some x ∧ is_null x = true) ∨ validate_ptr (Some (OptionalField c)) v = Valid) as Ho.
  { intros c. specialize (Hn c). destruct v as [x|]; [exact Hn|]. simpl. by split; [right|]. }
  cbn [build].
  destruct (build s) as [[| | | | | | |c| |[[| | | | | | |c| | | |]|]| |]|]; try apply Hn; try apply Ho.
  - rewrite Hn. tauto.
  - rewrite Ho. cbn [check_ptr]. tauto.
Qed.

Lemma array_valid c min max (v : option J) :
  validate_checker (ArrayOf c min max) v = Valid ↔
  ∃ x, v = Some x ∧ is_array x = true ∧
    (max < min ∨ min ≤ Z.of_nat (json_size x) ≤ max ∧
       ∀ i y, json_elements x !! i = Some y → validate_ptr c (Some y) = Valid).
Proof.
  cbn [validate_checker]. unfold validate_array.
  apply present_and; [|intros x [Hx _]; by apply (typed_not_null x JSON_ARRAY)].
  intros x ->. change (content (Some x)) with x.
  rewrite and_then_valid, fail_if_valid, negb_false_iff. apply and_iff_compat_l.
  destruct (Z.ltb_spec max min) as [Hlt|Hle]; [intuition done|].
  destruct (Z.leb_spec min (Z.of_nat (json_size x))) as [H1'|H1']; [|by split; [|intros [?|[? _]]; lia]].
  destruct (Z.leb_spec (Z.of_nat (json_size x)) max) as [H2|H2]; [|by split; [|intros [?|[? _]]; lia]].
  simpl. destruct c as [c|]; [rewrite check_elements_valid|]; simpl; intuition (lia || done).
Qed.

(** A schema is checked exactly. *)
Lemma build_spec s v :
  static_names s → validate_ptr (build s) v = Valid ↔ conforms s v.
Proof.
  revert v. induction s as [| | |t| | |n|f vs|p|fs IH|s IH|s min max IH|s IH|s IH]
    using schema_nested_ind; intros v Hs; cbn [conforms].
  - done.
  - by split.
  - cbn [build check_ptr validate_checker]. rewrite validate_present_valid. unfold is_null.
    by setoid_rewrite bool_decide_eq_false.
  - apply validate_jsonrpc_valid.
  - apply validate_uuid_valid.
  - cbn [build check_ptr validate_checker]. unfold validate_number. cbn [n_type any_number].
    apply present_and; [|intros x; apply (typed_not_null x JSON_REAL)].
    intros x ->. unfold not_boolean. rewrite and_then_valid, !fail_if_valid, negb_false_iff.
    change (content (Some x)) with x. split; [by intros [_ ?]|]. intros Hx. split; [|done].
    unfold is_number, is_number_integer, is_number_float, is_boolean in *.
    apply bool_decide_eq_false. intros E. by rewrite E in Hx.
  - apply validate_number_valid.
  - apply validate_enum_valid.
  - apply validate_regex_valid.
  - cbn [build check_ptr validate_checker]. unfold validate_attribute. destruct Hs as [Hs Hss].
    apply present_and; [|intros x [Hx _]; by apply (typed_not_null x JSON_OBJECT)].
    intros x ->. change (content (Some x)) with x.
    rewrite and_then_valid, fail_if_valid, negb_false_iff, !rethrow_valid.
    fold (procedure_of fs). rewrite check_request_spec; [|done|].
    + unfold conforms_request. intuition.
    + clear Hs. revert Hss. induction IH as [|[n s] fs Hf _ IHfs]; intros Hss; [constructor|].
      destruct Hss as [Hn Hss]. constructor; [intros v; by apply Hf|by apply IHfs].
  - cbn [build check_ptr]. rewrite array_valid.
    split; intros (x & -> & Hx & Hrest); exists x; (split; [done|]); (split; [done|]).
    + destruct Hrest as [?|[? Hi]]; [done|]. split; [lia|]. intros i y Hy. apply IH; [done|]. by apply (Hi i).
    + destruct Hrest as [? Hi]. right. split; [lia|]. intros i y Hy. apply IH; [done|]. by apply (Hi i).
  - cbn [build check_ptr]. rewrite array_valid.
    split; intros (x & -> & Hx & Hrest); exists x; (split; [done|]); (split; [done|]);
      (destruct Hrest as [?|[? Hi]]; [by left|right]); (split; [done|]); intros i y Hy;
      (apply IH; [done|]); by apply (Hi i).
  - rewrite build_optional, IH; done.
  - rewrite build_nullable, IH; done.
Qed.

Lemma declared_accepts fs :
  Forall (λ f, well_formed f.2 = true) fs → static_fields fs →
  ∃ vs, create_validators (declare fs) = Some vs ∧
    ∀ request : J, validate vs request = Valid ↔ conforms_request fs request.
Proof.
  intros Hwf Hs. exists (procedure_of fs). split; [by apply create_declared|]. intros request.
  unfold validate. rewrite rethrow_valid. destruct Hs as [Hs Hss]. apply check_request_spec; [done|].
  clear Hwf Hs. revert Hss. induction fs as [|[n s] fs IH]; intros Hss; constructor.
  - intros v. apply build_spec, Hss.
  - apply IH, Hss.
Qed.

Lemma checked_accepts fs :
  checked fs = true →
  ∃ vs, create_validators (declare fs) = Some vs ∧
    ∀ request : J, validate vs request = Valid ↔ conforms_request fs request.
Proof. intros [Hwf Hs]%checked_sound. by apply declared_accepts. Qed.

(** C14: A declaration made with the VALID_* macros is read back by the variadic
    constructor without reading an argument as another type, and the validator it builds
    accepts a request exactly when the request conforms to the declaration: it is an
    object (or null) whose members are all declared and whose declared members all
    conform, a field declared twice to both declarations. The names of the fields at one
    level are the same array exactly when they have the same text ([static_fields]);
    add_ethernet_switch_port.hpp breaks this, and the class is shown to accept nothing. *)
Theorem accepts_conforming fs :
  Forall (λ f, well_formed f.2 = true) fs → static_fields fs →
  ∃ vs, create_validators (declare fs) = Some vs ∧
    ∀ request : J, validate vs request = Valid ↔ conforms_request fs request.
Proof. apply declared_accepts. Qed.

(** *** Errors *)

(** What an exception keeps through the conversion to a GamiException and back,
    at the boundary of an attribute. *)
Lemma of_to_gami (ex : ValidationException J) : of_gami (to_gami ex) = ex.
Proof.
  destruct ex as [c m f x]. unfold of_gami, to_gami, get_field_name_from_json_data,
    get_field_value_as_json_from_json_data, create_json_data_from_field. simpl.
  pose proof type_null as Hn.
  assert (json_type (json_insert (J:=J) json_null FIELD_NAME (json_of_string f)) = object) as Ho.
  { apply type_insert. by right. }
  rewrite !find_insert by auto. rewrite decide_False, decide_True, decide_True by done.
  by rewrite string_of_string.
Qed.

(** A place in a document. *)
Inductive place := Key (k : string) | Index (i : nat).

Definition follow_one (x : J) (p : place) : option J :=
  match p with Key k => json_find x k | Index i => json_elements x !! i end.

Fixpoint follow v (path : list place) : option J :=
  match path with
  | [] => v
  | p :: path' => follow (x ← v; follow_one x p) path'
  end.

Definition place_text (p : place) : string :=
  match p with Key k => k | Index i => pretty i end.

(** The text of a path, the names joined by a slash. *)
Fixpoint render (path : list place) : string :=
  match path with
  | [] => ""
  | p :: path' =>
      (place_text p +:+ (if decide (render path' = "") then "" else "/" +:+ render path'))%string
  end.

(** The field of an error is the text of a path, and the value of the error is
    the value found there, null when there is none; for a member that is not
    declared it is the text of that value. *)
Definition located v (ex : ValidationException J) : Prop :=
  m_code ex ≠ DUPLICATED_FIELD ∧
  ∃ path, m_field ex = render path ∧
    match follow v path with
    | Some x =>
        m_field_value ex = if decide (m_code ex = UNEXPECTED_FIELD)
                           then json_of_string (json_dump x) else x
    | None => m_field_value ex = json_null ∧ m_code ex ≠ UNEXPECTED_FIELD
    end.

Definition locates_errors (check : option J → outcome_of) : Prop :=
  ∀ v ex, check v = Invalid ex → located v ex.

Lemma located_here v code message :
  code ≠ DUPLICATED_FIELD → code ≠ UNEXPECTED_FIELD → located v (throw_ code message (content v)).
Proof.
  intros Hd Hu. split; [done|]. exists []. split; [done|]. simpl. destruct v; [|done].
  by rewrite decide_False.
Qed.

Lemma located_append v p ex :
  located (x ← v; follow_one x p) ex → located v (append_field (place_text p) ex).
Proof.
  intros [Hd (path & Hf & Hx)]. split; [done|]. exists (p :: path). simpl. by rewrite Hf.
Qed.

Lemma and_then_invalid {E} (o1 o2 : outcome E) ex :
  (o1 &; o2) = Invalid ex → o1 = Invalid ex ∨ o2 = Invalid ex.
Proof. destruct o1; simpl; auto. Qed.

Lemma fail_if_invalid {E} c (ex ex' : E) : fail_if c ex = Invalid ex' → ex' = ex.
Proof. destruct c; simpl; congruence. Qed.

(** Split an error of a sequence of checks into the check that failed. *)
Ltac failing H :=
  repeat match type of H with
  | (_ &; _) = Invalid _ => apply and_then_invalid in H; destruct H as [H|H]
  | fail_if _ _ = Invalid _ => apply fail_if_invalid in H; subst; by apply located_here
  | Invalid _ = Invalid _ => injection H as <-; by apply located_here
  | Valid = Invalid _ => discriminate H
  | (if ?b then _ else _) = Invalid _ => destruct b eqn:?
  end.

Lemma present_errors : locates_errors validate_present.
Proof.
  intros [x|] ex Hex; simpl in Hex.
  - apply fail_if_invalid in Hex as ->. by apply (located_here (Some x)).
  - injection Hex as <-. by apply (located_here None).
Qed.

Lemma jsonrpc_errors t : locates_errors (validate_jsonrpc t).
Proof.
  intros v ex Hex. unfold validate_jsonrpc in Hex. failing Hex; [by apply present_errors|].
  destruct t; failing Hex.
Qed.

(** A string value is never empty, so an enumeration error reports the value itself. *)
Lemma enum_errors f vs : locates_errors (validate_enum f vs).
Proof.
  intros v ex Hex. unfold validate_enum in Hex. apply and_then_invalid in Hex as [Hex|Hex].
  { by apply present_errors. }
  destruct (is_string (content v)) eqn:Es; simpl in Hex.
  - apply bool_decide_eq_true in Es. rewrite (empty_string _ Es) in Hex. failing Hex.
  - injection Hex as <-. by apply located_here.
Qed.

Lemma regex_errors r : locates_errors (validate_regex r).
Proof.
  intros v ex Hex. unfold validate_regex in Hex. failing Hex. by apply present_errors.
Qed.

Lemma uuid_errors : locates_errors validate_uuid.
Proof.
  intros v ex Hex. unfold validate_uuid in Hex. failing Hex; [by apply present_errors|].
  revert Hex. generalize (chars uuid_pattern), (chars (json_string (content v))).
  intros p. induction p as [|a p IH]; intros [|c w] Hex; try done. cbn [uuid_loop] in Hex.
  failing Hex. by eapply IH.
Qed.

Lemma number_errors n : locates_errors (validate_number n).
Proof.
  intros v ex Hex. unfold validate_number, integer_form, not_boolean, not_negative, in_bounds, in_type
    in Hex. failing Hex; [by apply present_errors|]. destruct (n_type n); failing Hex.
Qed.

Lemma elements_errors check x :
  locates_errors check →
  ∀ k l ex, drop k (json_elements x) = l → check_elements check k l = Invalid ex → located (Some x) ex.
Proof.
  intros Hc k l. revert k. induction l as [|y l IH]; intros k ex Hl; [done|].
  cbn [check_elements]. fold (check_elements check). intros [Hex|Hex]%and_then_invalid.
  - destruct (check (Some y)) as [|ex'] eqn:Ey; [done|]. injection Hex as <-.
    apply (located_append (Some x) (Index k)). apply Hc in Ey. simpl.
    assert (json_elements x !! k = Some y) as ->; [|done].
    by rewrite <- (Nat.add_0_r k), <- lookup_drop, Hl.
  - apply (IH (S k)); [|done]. by rewrite <- Nat.add_1_r, <- drop_drop, Hl.
Qed.

Lemma request_errors vs :
  NoDup (texts vs) → Forall (λ f, locates_errors (validate_ptr f.2)) vs →
  ∀ request ex, check_request validate_checker vs request = Invalid ex → located (Some request) ex.
Proof.
  intros Hnd Hvs request ex Hex. unfold check_request in Hex.
  destruct (is_null request && _); [done|].
  destruct (negb (is_null request) && negb (is_object request)) eqn:Et.
  { injection Hex as <-. by apply (located_here (Some request)). }
  cbn [fail_if and_then] in Hex.
  pose proof (check_fields_spec validate_checker request vs request Hnd ltac:(done)) as Hcf.
  destruct (check_fields _ _ _ _) as [[|ex'] members]; cbn [and_then] in Hex.
  - destruct Hcf as (_ & Ht & Hk). destruct (json_empty members) eqn:Ee; [done|].
    injection Hex as <-. split; [done|]. exists [Key (json_first_key members)].
    split; [by cbn; rewrite append_nil_r|].
    assert (json_type members = object) as Ho.
    { apply andb_false_iff in Et as [Et|Et]; apply negb_false_iff, bool_decide_eq_true in Et.
      - rewrite empty_null in Ee; [done|by rewrite Ht].
      - by rewrite Ht. }
    destruct (first_key_found members Ho Ee) as [x Hx]. rewrite Hk in Hx. case_decide; [done|].
    cbn. by rewrite Hx.
  - injection Hex as <-. destruct Hcf as (f & ex'' & Hf & Hbad & ->).
    apply (located_append (Some request) (Key (text f.1))). simpl.
    rewrite list.Forall_forall in Hvs. by apply (Hvs f Hf).
Qed.

Lemma merge_locates vs :
  Forall (λ f : cstring * option checker, locates_errors (validate_ptr f.2)) vs →
  Forall (λ f : cstring * option checker, locates_errors (validate_ptr f.2)) (merge_all vs).
Proof.
  unfold merge_all. assert (∀ acc n c,
    Forall (λ f : cstring * option checker, locates_errors (validate_ptr f.2)) acc →
    locates_errors (validate_ptr c) →
    Forall (λ f, locates_errors (validate_ptr f.2)) (merge_validator acc n c)) as Hm.
  { intros acc n c Hacc Hc. induction Hacc as [|[m d] acc Hd Hacc IH]; simpl.
    - by constructor.
    - case_decide; constructor; try done. intros v ex Hex. cbn [snd check_ptr] in *.
      cbn [validate_checker] in Hex. unfold validate_composite in Hex. apply and_then_invalid in Hex as [Hex|Hex]; [by apply Hd|by apply Hc]. }
  intros Hvs. assert (Forall (λ f : cstring * option checker, locates_errors (validate_ptr f.2)) [])
    as Hacc by constructor. revert Hacc. generalize (@nil (cstring * option checker)).
  induction Hvs as [|[n c] vs Hc _ IH]; intros acc Hacc; simpl; [done|]. apply IH. by apply Hm.
Qed.

Lemma fields_locate fs :
  static fs.*1 → Forall (λ f : cstring * schema, locates_errors (validate_ptr (build f.2))) fs →
  NoDup (texts (procedure_of fs)) ∧
  Forall (λ f, locates_errors (validate_ptr f.2)) (procedure_of fs).
Proof.
  intros Hs Hfs. split.
  - refine (proj1 (proj2 (merge_all_spec validate_checker (λ _, None) _ _ _ Hs _))).
    + intros a b v. cbn [validate_checker]. unfold validate_composite. by rewrite and_then_valid.
    + intros f Hf. rewrite <- build_fields_names. by apply list_elem_of_fmap_2.
  - apply merge_locates. induction Hfs as [|[n s] fs Hf _ IH]; constructor; [done|].
    apply IH. intros n' m' Hn Hm. apply Hs; by apply list_elem_of_further.
Qed.

Lemma build_errors s : static_names s → locates_errors (validate_ptr (build s)).
Proof.
  assert (∀ c, locates_errors (validate_ptr c) → locates_errors (validate_ptr (Some (NullAllowed c)))) as Hn.
  { intros c Hc v ex Hex. cbn [check_ptr validate_checker] in Hex.
    unfold validate_null_allowed in Hex.
    destruct (match v with Some x => is_null x | None => false end); [done|]. by apply Hc. }
  assert (∀ c, locates_errors (validate_ptr c) → locates_errors (validate_ptr (Some (OptionalField c)))) as Ho.
  { intros c Hc [x|] ex Hex; [|done]. by apply Hc. }
  assert (∀ c, locates_errors (validate_ptr (Some (OptionalField c))) →
    locates_errors (validate_ptr (Some (OptionalField (Some (NullAllowed c)))))) as Hon.
  { intros c Hc [x|] ex Hex; [|done]. cbn in Hex. unfold validate_null_allowed in Hex.
    destruct (is_null x); [done|]. by apply Hc. }
  assert (∀ c min max, locates_errors (validate_ptr c) →
    locates_errors (validate_ptr (Some (ArrayOf c min max)))) as Ha.
  { intros c min max Hc v ex Hex. cbn [check_ptr validate_checker] in Hex. unfold validate_array in Hex.
    destruct v as [x|]; [|injection Hex as <-; by apply (located_here None)].
    apply and_then_invalid in Hex as [Hex|Hex]; [by apply present_errors|]. failing Hex.
    destruct c as [c|]; [|done].
    by eapply (elements_errors _ x Hc 0). }
  induction s as [| | |t| | |n|f vs|p|fs IH|s IH|s min max IH|s IH|s IH] using schema_nested_ind;
    intros Hs; cbn [build]; try done.
  - intros v ex Hex. injection Hex as <-. by apply located_here.
  - apply present_errors.
  - apply jsonrpc_errors.
  - apply uuid_errors.
  - apply number_errors.
  - apply number_errors.
  - apply enum_errors.
  - apply regex_errors.
  - destruct Hs as [Hs Hss].
    assert (Forall (λ f : cstring * schema, locates_errors (validate_ptr (build f.2))) fs) as Hfs.
    { clear Hs. revert Hss. induction IH as [|[n s] fs Hf _ IHfs]; intros Hss; constructor.
      - by apply Hf, Hss.
      - by apply IHfs, Hss. }
    destruct (fields_locate fs Hs Hfs) as [Hnd Hloc]. intros v ex Hex.
    cbn [check_ptr validate_checker] in Hex. unfold validate_attribute in Hex.
    destruct v as [x|]; [|injection Hex as <-; by apply (located_here None)].
    apply and_then_invalid in Hex as [Hex|Hex]; [by apply present_errors|]. failing Hex.
    fold (procedure_of fs) in Hex. change (content (Some x)) with x in Hex.
    destruct (check_request validate_checker (procedure_of fs) x) as [|ex'] eqn:Ec; [done|].
    simpl in Hex. rewrite of_to_gami in Hex. injection Hex as <-. by eapply request_errors.
  - by apply Ha, IH.
  - by apply Ha, IH.
  - specialize (IH Hs). destruct (build s) as [[]|]; try (by apply Ho). exact IH.
  - specialize (IH Hs).
    destruct (build s) as [[| | | | | | |c| |[[| | | | | | |c| | | |]|]| |]|];
      try (by apply Hn); try exact IH; by apply Hon.
Qed.

Lemma rejection_located fs (request : J) ex :
  static_fields fs → validate (procedure_of fs) request = Invalid ex →
  g_code ex ≠ DUPLICATED_FIELD ∧
  ∃ path, get_field_name_from_json_data (g_data ex) = render path ∧
    let value := get_field_value_as_json_from_json_data (g_data ex) in
    match follow (Some request) path with
    | Some x => value = if decide (g_code ex = UNEXPECTED_FIELD)
                        then json_of_string (json_dump x) else x
    | None => value = json_null ∧ g_code ex ≠ UNEXPECTED_FIELD
    end.
Proof.
  intros [Hs Hss] Hex. unfold validate in Hex.
  destruct (check_request validate_checker (procedure_of fs) request) as [|ex'] eqn:E; [done|].
  injection Hex as <-.
  assert (Forall (λ f : cstring * schema, locates_errors (validate_ptr (build f.2))) fs) as Hfs.
  { clear Hs E. revert Hss. induction fs as [|[n s] fs IH]; intros Hss; constructor.
    - by apply build_errors, Hss.
    - by apply IH, Hss. }
  destruct (fields_locate fs Hs Hfs) as [Hnd Hloc].
  destruct (request_errors _ Hnd Hloc _ _ E) as [Hd Hrest].
  pose proof (of_to_gami ex') as Hg. split; [done|].
  change (get_field_name_from_json_data (g_data (to_gami ex'))) with (m_field (of_gami (to_gami ex'))).
  change (get_field_value_as_json_from_json_data (g_data (to_gami ex')))
    with (m_field_value (of_gami (to_gami ex'))).
  by rewrite Hg.
Qed.

(** When a request is rejected, the error names the place at fault: the
    field name in the error's data is the path to a value of the request, through
    objects and arrays joined by slashes, and the field value is the value found
    there (null when the field is missing, its text when the field is not
    declared).  The error code for duplicated fields never occurs. *)
Theorem error_locates_value fs (request : J) ex :
  static_fields fs → validate (procedure_of fs) request = Invalid ex →
  g_code ex ≠ DUPLICATED_FIELD ∧
  ∃ path, get_field_name_from_json_data (g_data ex) = render path ∧
    let value := get_field_value_as_json_from_json_data (g_data ex) in
    match follow (Some request) path with
    | Some x => value = if decide (g_code ex = UNEXPECTED_FIELD)
                        then json_of_string (json_dump x) else x
    | None => value = json_null ∧ g_code ex ≠ UNEXPECTED_FIELD
    end.
Proof. apply rejection_located. Qed.

End conforms.

(** ** Witnesses *)

Module SchemaExample.

#[export] Instance some_platform : Platform :=
  {| overflow_int64 := λ _, 0; overflow_uint64 := λ _, 0; double_to_string := λ _, "" |}.

Definition name_ : cstring := {| address := 1; text := "Name" |}.
Definition sizes : cstring := {| address := 2; text := "Sizes" |}.
Definition link : cstring := {| address := 3; text := "Link" |}.

(** A name, given twice, a list of sizes and an attribute that may be null. *)
Definition example_fields : fields :=
  [(name_, VALID_JSON JSON_STRING);
   (sizes, VALID_OPTIONAL (VALID_ARRAY_SIZE_OF (VALID_NUMERIC_TYPED (UINT32 None (Some 7))) 0 8));
   (link, VALID_OPTIONAL (VALID_NULLABLE (VALID_ATTRIBUTE [(name_, VALID_UUID)])));
   (name_, VALID_REGEX patterns.Common_NO_WHITESPACE_STRING)].

Definition good : Tree.t :=
  Tree.Object [("Link", Tree.Null); ("Name", Tree.String "eth0");
               ("Sizes", Tree.Array [Tree.Unsigned 3; Tree.Integer 7])].

Definition bad : Tree.t :=
  Tree.Object [("Link", Tree.Object [("Name", Tree.String "not a uuid")]); ("Name", Tree.String "eth0")].

Lemma example_static : static_fields example_fields.
Proof.
  cbn. split_and!; try done; intros n m; rewrite ?list.elem_of_cons, ?elem_of_nil; naive_solver.
Qed.

Lemma accepts_conforming_witness :
  ∃ vs, create_validators (declare example_fields) = Some vs ∧
    validate vs good = Valid ∧ validate vs bad ≠ Valid ∧ conforms_request example_fields good.
Proof.
  destruct (accepts_conforming (J:=Tree.t) example_fields) as (vs & Hvs & Hspec).
  - apply (bool_decide_eq_true_1 _). vm_compute. reflexivity.
  - exact example_static.
  - assert (vs = procedure_of example_fields) as ->.
    { vm_compute in Hvs. injection Hvs as <-. vm_compute. reflexivity. }
    exists (procedure_of example_fields). split_and!; [done| | |].
    + vm_compute. reflexivity.
    + vm_compute. discriminate.
    + apply Hspec. vm_compute. reflexivity.
Defined.

Lemma error_locates_value_witness :
  ∃ ex path, validate (procedure_of example_fields) bad = Invalid ex ∧
    get_field_name_from_json_data (g_data ex) = render path ∧
    get_field_name_from_json_data (g_data ex) = "Link/Name" ∧
    g_code ex ≠ DUPLICATED_FIELD.
Proof.
  destruct (validate (procedure_of example_fields) bad) as [|ex] eqn:E; [vm_compute in E; discriminate|].
  destruct (error_locates_value (J:=Tree.t) example_fields bad ex example_static E) as (Hd & path & Hp & _).
  exists ex, path. split_and!; [reflexivity|exact Hp| |exact Hd].
  vm_compute in E. injection E as <-. vm_compute. reflexivity.
Defined.

End SchemaExample.
