(* ===== verification/NumberCheck.v ===== *)
(** What NumberValidityChecker::validate
    (common/agent-framework/src/validators/checkers/number_validity_checker.cpp)
    accepts, in terms of the number a JSON value stands for. *)

From Stdlib Require Import ZArith Lia.
From stdpp Require Import pretty.
From S2P Require Import Prelude.
From S2P Require Import Json.
From S2P Require Import Validators.
From S2P Require Import Schema.

Open Scope list_scope.
Open Scope Z_scope.

(** ** Integral doubles *)

Module Integral.
Import Double.

(** A finite double without a fraction, scaled to a common exponent. *)
Lemma scale m e k :
  has_fraction (finite m e) = false → k ≤ e → k ≤ 0 → m * 2 ^ (e - k) = trunc m e * 2 ^ (- k).
Proof.
  unfold has_fraction, trunc. intros Hf Hk Hk0. destruct (Z.leb_spec 0 e) as [He|He].
  - by rewrite <- Z.mul_assoc, <- Z.pow_add_r by lia.
  - destruct (Z.ltb_spec e 0); [|lia]. apply negb_false_iff, Z.eqb_eq in Hf.
    rewrite (Z.quot_rem' m (2 ^ (- e))) at 1. rewrite Hf, Z.add_0_r.
    rewrite (Z.mul_comm (2 ^ (- e))), <- Z.mul_assoc, <- Z.pow_add_r by lia. do 2 f_equal. lia.
Qed.

(** Integral doubles compare as the integers they stand for. *)
Lemma ltb_integral m1 e1 m2 e2 :
  has_fraction (finite m1 e1) = false → has_fraction (finite m2 e2) = false →
  ltb (finite m1 e1) (finite m2 e2) = (trunc m1 e1 <? trunc m2 e2).
Proof.
  intros H1 H2. unfold ltb. set (e := Z.min e1 e2). set (k := Z.min e 0).
  pose proof (scale m1 e1 k H1 ltac:(lia) ltac:(lia)) as E1.
  pose proof (scale m2 e2 k H2 ltac:(lia) ltac:(lia)) as E2.
  assert (0 < 2 ^ (e - k)) by (apply Z.pow_pos_nonneg; lia).
  assert (0 < 2 ^ (- k)) by (apply Z.pow_pos_nonneg; lia).
  assert (2 ^ (e1 - k) = 2 ^ (e1 - e) * 2 ^ (e - k)) as P1 by (rewrite <- Z.pow_add_r by lia; f_equal; lia).
  assert (2 ^ (e2 - k) = 2 ^ (e2 - e) * 2 ^ (e - k)) as P2 by (rewrite <- Z.pow_add_r by lia; f_equal; lia).
  rewrite P1 in E1. rewrite P2 in E2. apply Bool.eq_true_iff_eq. rewrite !Z.ltb_lt. nia.
Qed.

(** The double of an integer is integral, has its sign and does not leave the
    interval between two powers of two. *)
Lemma of_integer_integral z k :
  0 ≤ k → Z.abs z ≤ 2 ^ k →
  ∃ m e, of_integer z = finite m e ∧ has_fraction (finite m e) = false ∧
    Z.abs (trunc m e) ≤ 2 ^ k ∧ Z.sgn (trunc m e) = Z.sgn z.
Proof.
  intros Hk Hz. destruct (DoubleFacts.of_integer_bound z k Hk Hz) as (m & e & E & He & Hm & Hs).
  exists m, e. split; [done|].
  assert (0 < 2 ^ e) as Hp by (apply Z.pow_pos_nonneg; lia).
  unfold has_fraction, trunc. destruct (Z.ltb_spec e 0), (Z.leb_spec 0 e); lia.
Qed.

End Integral.

(** ** The number of a value *)

Section number.
Context `{JsonLaws J, Platform}.
Implicit Types x : J.

(** The integer a JSON number stands for. *)
Definition integer_value x : option Z :=
  if is_number_integer x then Some (json_integer x)
  else if is_number_float x then Double.integral (json_double x)
  else None.

(** The numbers an integer declaration is meant for. *)
Definition admitted (n : numeric) (z : Z) : Prop :=
  match n with
  | INT32 min max | INT64 min max => within min max z
  | UINT32 min max | UINT64 min max => 0 ≤ z ∧ within min max z
  | DOUBLE _ _ => False
  end.

(** The integers that keep their value in the 64-bit type the check converts to. *)
Definition convertible (n : numeric) (z : Z) : Prop :=
  match n with
  | INT32 _ _ | INT64 _ _ => - 2 ^ 63 ≤ z < 2 ^ 63
  | UINT32 _ _ | UINT64 _ _ => - 2 ^ 63 ≤ z < 2 ^ 64
  | DOUBLE _ _ => False
  end.

Lemma integral_inv d z :
  Double.integral d = Some z →
  ∃ m e, d = finite m e ∧ Double.has_fraction (finite m e) = false ∧ z = Double.trunc m e.
Proof.
  destruct d as [m e| |]; try done. cbn [Double.integral].
  destruct (Double.has_fraction (finite m e)) eqn:Ef; [done|]. intros [= <-]. by exists m, e.
Qed.

(** The double the checks look at. *)
Lemma get_double_integral x z k :
  integer_value x = Some z → 0 ≤ k → Z.abs z ≤ 2 ^ k →
  ∃ m e, get_double x = finite m e ∧ Double.has_fraction (finite m e) = false ∧
    Z.abs (Double.trunc m e) ≤ 2 ^ k ∧ Z.sgn (Double.trunc m e) = Z.sgn z.
Proof.
  unfold integer_value, get_double. intros Hv Hk Hz.
  destruct (is_number_integer x) eqn:Ei.
  - assert (is_number_float x = false) as ->.
    { unfold is_number_integer, is_number_float in *. apply bool_decide_eq_false. intros E.
      by rewrite E in Ei. }
    injection Hv as <-. by apply Integral.of_integer_integral.
  - destruct (is_number_float x); [|done].
    apply integral_inv in Hv as (m & e & E & Hf & ->). by exists m, e.
Qed.

Lemma integer_is_number x z : integer_value x = Some z → is_number x = true.
Proof.
  unfold integer_value, is_number. destruct (is_number_integer x); [done|].
  by destruct (is_number_float x).
Qed.

Lemma number_not_null x : is_number x = true → is_null x = false.
Proof.
  unfold is_number, is_number_integer, is_number_float, is_null. intros Hx.
  apply bool_decide_eq_false. intros E. by rewrite E in Hx.
Qed.

Lemma get_int64_exact x z :
  integer_value x = Some z → - 2 ^ 63 ≤ z < 2 ^ 63 → get_int64 x = z.
Proof.
  unfold integer_value, get_int64. intros Hv Hz. destruct (is_number_integer x) eqn:Ei.
  - assert (is_number_float x = false) as ->.
    { unfold is_number_integer, is_number_float in *. apply bool_decide_eq_false. intros E.
      by rewrite E in Ei. }
    injection Hv as <-. unfold to_int64. rewrite Z.mod_small; lia.
  - destruct (is_number_float x); [|done]. apply integral_inv in Hv as (m & e & -> & Hf & ->).
    destruct (Z.leb_spec (- 2 ^ 63) (Double.trunc m e)), (Z.ltb_spec (Double.trunc m e) (2 ^ 63));
      try lia. done.
Qed.

Lemma get_uint64_exact x z :
  integer_value x = Some z → 0 ≤ z < 2 ^ 64 → get_uint64 x = z.
Proof.
  unfold integer_value, get_uint64. intros Hv Hz. destruct (is_number_integer x) eqn:Ei.
  - assert (is_number_float x = false) as ->.
    { unfold is_number_integer, is_number_float in *. apply bool_decide_eq_false. intros E.
      by rewrite E in Ei. }
    injection Hv as <-. by apply Z.mod_small.
  - destruct (is_number_float x); [|done]. apply integral_inv in Hv as (m & e & -> & Hf & ->).
    destruct (Z.leb_spec 0 (Double.trunc m e)), (Z.ltb_spec (Double.trunc m e) (2 ^ 64));
      try lia. done.
Qed.

(** *** The parts of the check *)

Lemma form_valid x z message : integer_value x = Some z → integer_form x message = Valid.
Proof.
  intros Hv. unfold integer_form. rewrite (integer_is_number x z Hv). cbn.
  apply fail_if_valid, andb_false_iff. unfold integer_value in Hv.
  destruct (is_number_integer x) eqn:Ei.
  - left. unfold is_number_integer, is_number_float in *. apply bool_decide_eq_false. intros E.
    by rewrite E in Ei.
  - destruct (is_number_float x) eqn:Ef; [|done]. right. unfold get_double. rewrite Ef.
    by apply integral_inv in Hv as (m & e & -> & Hf & ->).
Qed.

Lemma not_boolean_valid x z : integer_value x = Some z → not_boolean x = Valid.
Proof.
  intros Hv. apply fail_if_valid, number_not_boolean. by eapply integer_is_number.
Qed.

Lemma not_negative_valid x z :
  integer_value x = Some z → Z.abs z ≤ 2 ^ 64 → not_negative x = Valid ↔ 0 ≤ z.
Proof.
  intros Hv Hz. destruct (get_double_integral x z 64 Hv) as (m & e & E & Hf & _ & Hs); [lia|done|].
  unfold not_negative. rewrite fail_if_valid, E, Integral.ltb_integral by done.
  change (Double.trunc 0 0) with 0. rewrite Z.ltb_ge. lia.
Qed.

Lemma in_type_valid x z min max name bits :
  integer_value x = Some z → 0 ≤ bits → Z.abs z ≤ 2 ^ bits →
  (∃ m e, Double.of_integer max = finite m e ∧ Double.has_fraction (finite m e) = false ∧
     Double.trunc m e = 2 ^ bits) →
  (∃ m e, Double.of_integer min = finite m e ∧ Double.has_fraction (finite m e) = false ∧
     (Double.trunc m e = - 2 ^ bits ∨ Double.trunc m e = 0 ∧ 0 ≤ z)) →
  in_type min max name x = Valid.
Proof.
  intros Hv Hb Hz (m2 & e2 & E2 & Hf2 & Ht2) (m1 & e1 & E1 & Hf1 & Ht1).
  destruct (get_double_integral x z bits Hv) as (m & e & E & Hf & Ha & Hs); [lia|done|].
  unfold in_type. rewrite fail_if_valid, E, E1, E2, !Integral.ltb_integral by done.
  rewrite orb_false_iff, !Z.ltb_ge, Ht2. lia.
Qed.

Lemma number_exact n x z :
  integer_value x = Some z → convertible n z →
  validate_number (declared_number n) (Some x) = Valid ↔ admitted n z.
Proof.
  intros Hv Hc. pose proof (number_not_null x (integer_is_number x z Hv)) as Hnn.
  unfold validate_number. change (content (Some x)) with x.
  assert (validate_present (Some x) = Valid) as -> by (by apply fail_if_valid).
  destruct n as [min max|min max|min max|min max|min max]; cbn [declared_number n_type number_kind and_then admitted convertible] in *;
    try done; rewrite (form_valid x z _ Hv); cbn [and_then];
    rewrite (not_boolean_valid x z Hv).
  - rewrite and_then_valid, (declared_bounds (INT32 min max) min max), (get_int64_exact x z) by (done || auto).
    tauto.
  - rewrite !and_then_valid, (not_negative_valid x z Hv) by lia.
    rewrite (declared_bounds (UINT32 min max) min max) by auto. split.
    + intros (Hz & Hb & _). rewrite (get_uint64_exact x z) in Hb by (done || lia). done.
    + intros [Hz Hb]. rewrite (get_uint64_exact x z) by (done || lia). done.
  - cbn [and_then]. rewrite (in_type_valid x z _ _ _ 63); [|done|lia|lia| |].
    + cbn [and_then]. rewrite (declared_bounds (INT64 min max) min max), (get_int64_exact x z) by (done || auto).
      done.
    + eexists _, _. split; [vm_compute; reflexivity|]. split; [|vm_compute]; reflexivity.
    + eexists _, _. split; [vm_compute; reflexivity|]. split; [reflexivity|]. left. vm_compute. reflexivity.
  - rewrite and_then_valid, (not_negative_valid x z Hv) by lia. cbn [and_then].
    split.
    + intros [Hz Hb]. split; [done|]. apply and_then_valid in Hb as [_ Hb].
      rewrite (declared_bounds (UINT64 min max) min max), (get_uint64_exact x z) in Hb by (done || lia || auto).
      done.
    + intros [Hz Hb]. split; [done|]. rewrite (in_type_valid x z _ _ _ 64); [|done|lia|lia| |].
      * cbn [and_then]. rewrite (declared_bounds (UINT64 min max) min max), (get_uint64_exact x z) by (done || lia || auto).
        done.
      * eexists _, _. split; [vm_compute; reflexivity|]. split; [|vm_compute]; reflexivity.
      * eexists _, _. split; [vm_compute; reflexivity|]. split; [reflexivity|]. right. split; [reflexivity|lia].
Qed.

(** What [admits] of Schema, which goes by the converted number, means for the numbers that keep
    their value in the conversion. *)
Lemma admits_exact n x z : integer_value x = Some z → convertible n z → admits n x ↔ admitted n z.
Proof.
  intros Hv Hc. rewrite <- (number_exact n x z Hv Hc), validate_number_valid. split; [by exists x|].
  by intros (y & [= <-] & Ha).
Qed.

(** C17: For a declaration of an integer type, a JSON number that stands for an
    integer (also one written with a fraction or an exponent) within 64 bits is
    accepted exactly when it lies between the declared bounds and, for an
    unsigned type, is not negative; the width of a 32-bit type is not checked. *)
Theorem number_check_exact n x z :
  integer_value x = Some z → convertible n z →
  validate_number (declared_number n) (Some x) = Valid ↔ admitted n z.
Proof. apply number_exact. Qed.

(** A JSON integer from 2^63 on is converted to a negative number before
    it is compared with the bounds of a 32-bit signed declaration: the check
    accepts it exactly when the value minus 2^64 lies between the bounds, so
    18446744073709551615 passes for a number between -5 and 5. *)
Theorem large_unsigned_wraps x z min max :
  json_type x = number_unsigned → json_integer x = z → 2 ^ 63 ≤ z →
  validate_number (declared_number (INT32 min max)) (Some x) = Valid ↔ within min max (z - 2 ^ 64).
Proof.
  intros Ht Hz Hle. pose proof (unsigned_range x Ht) as Hr. rewrite Hz in Hr.
  assert (is_number_integer x = true) as Hi by (unfold is_number_integer; rewrite Ht; done).
  assert (integer_value x = Some z) as Hv by (unfold integer_value; rewrite Hi; congruence).
  unfold validate_number. change (content (Some x)) with x.
  assert (validate_present (Some x) = Valid) as ->.
  { apply fail_if_valid, number_not_null. by eapply integer_is_number. }
  cbn [declared_number n_type number_kind and_then].
  rewrite (form_valid x z _ Hv), (not_boolean_valid x z Hv). cbn [and_then].
  rewrite and_then_valid, (declared_bounds (INT32 min max) min max) by auto.
  assert (get_int64 x = z - 2 ^ 64) as ->; [|tauto].
  unfold get_int64. assert (is_number_float x = false) as -> by (unfold is_number_float; rewrite Ht; done).
  unfold to_int64. rewrite Hz.
  replace (z + 2 ^ 63) with (z - 2 ^ 63 + 1 * 2 ^ 64) by lia. rewrite Z.mod_add, Z.mod_small by lia. lia.
Qed.

End number.

Module NumberExample.
Import SchemaExample.

(** 1.5e1 for a number between 10 and 20. *)
Lemma number_check_exact_witness :
  integer_value (Tree.Float (finite 15 0)) = Some 15 ∧
  validate_number (declared_number (UINT32 (Some 10) (Some 20))) (Some (Tree.Float (finite 15 0))) = Valid ∧
  validate_number (declared_number (INT64 (Some 10) (Some 14))) (Some (Tree.Float (finite 15 0))) ≠ Valid.
Proof.
  split_and!; [reflexivity| |].
  - apply (number_check_exact (J:=Tree.t) (UINT32 (Some 10) (Some 20)) _ 15); [reflexivity|cbn; lia|].
    cbn. unfold within. split_and!; [lia| |]; intros m [= <-]; lia.
  - intros Hv. apply (number_check_exact (J:=Tree.t) (INT64 (Some 10) (Some 14)) _ 15) in Hv;
      [|reflexivity|cbn; lia]. destruct Hv as [_ Hmax]. specialize (Hmax 14 eq_refl). lia.
Defined.

Lemma large_unsigned_wraps_witness :
  validate_number (declared_number (INT32 (Some (-5)) (Some 5)))
    (Some (Tree.Unsigned (2 ^ 64 - 1))) = Valid.
Proof.
  apply (large_unsigned_wraps (J:=Tree.t) _ (2 ^ 64 - 1)); [reflexivity|reflexivity|lia|].
  split; intros m [= <-]; lia.
Defined.

End NumberExample.
