(* ===== verification/RestSchemas.v ===== *)
(** The schemas of the requests to the REST server
    (application/src/rest/validators/schemas): the declaration in each
    [get_procedure], and that the validators built from them accept exactly the
    documents they describe. *)

From Stdlib Require Import ZArith.
From S2P Require Import Prelude.
From S2P Require Import Json.
From S2P Require Import Regex.
From S2P Require Import Validators.
From S2P Require Import Schema.
From S2P Require Import SchemaEnums.

Open Scope string_scope.
Open Scope list_scope.
Open Scope Z_scope.

(** ** Field names

    The arrays of application/src/rest/constants/constants.cpp, each with an
    address of its own. *)

Abbreviation name_at a t := {| address := a; text := t |}.

Definition Acl_PORT := name_at 1 "Port".
Definition Chassis_GEO_TAG := name_at 2 "GeoTag".
Definition Chassis_LOCATION := name_at 3 "Location".
Definition Common_ASSET_TAG := name_at 4 "AssetTag".
Definition Common_CURRENT_CONFIGURATION_ID := name_at 5 "CurrentConfigurationId".
Definition Common_DURABLE_NAME := name_at 6 "DurableName".
Definition Common_DURABLE_NAME_FORMAT := name_at 7 "DurableNameFormat".
Definition Common_ID := name_at 8 "Id".
Definition Common_IDENTIFIERS := name_at 9 "Identifiers".
Definition Common_LINKS := name_at 10 "Links".
Definition Common_LUN := name_at 11 "LUN".
Definition Common_MAC_ADDRESS := name_at 12 "MACAddress".
Definition Common_MEMBER_ID := name_at 13 "MemberId".
Definition Common_NAME := name_at 14 "Name".
Definition Common_ODATA_ID := name_at 15 "@odata.id".
Definition Common_OEM := name_at 16 "Oem".
Definition Common_PERFORMANCE_CONFIGURATION := name_at 17 "PerformanceConfiguration".
Definition Common_RACKSCALE := name_at 18 "Intel_RackScale".
Definition Common_RESET_TYPE := name_at 19 "ResetType".
Definition Common_SERVICE_ENABLED := name_at 20 "ServiceEnabled".
Definition Common_STATE := name_at 21 "State".
Definition Data_ALLOCATED_BYTES := name_at 22 "AllocatedBytes".
Definition Data_DATA := name_at 23 "Data".
Definition Drive_DRIVE_ERASED := name_at 24 "DriveErased".
Definition Drive_LATENCY_TRACKING_ENABLED := name_at 25 "LatencyTrackingEnabled".
Definition Endpoint_AUTHENTICATION := name_at 26 "Authentication".
Definition Endpoint_CONNECTED_ENTITIES := name_at 27 "ConnectedEntities".
Definition Endpoint_ENDPOINT_PROTOCOL := name_at 28 "EndpointProtocol".
Definition Endpoint_ENTITY_LINK := name_at 29 "EntityLink".
Definition Endpoint_ENTITY_ROLE := name_at 30 "EntityRole".
Definition Endpoint_INTERFACES := name_at 31 "Interfaces".
Definition Endpoint_IPV4_ADDRESS := name_at 32 "IPv4Address".
Definition Endpoint_IPV6_ADDRESS := name_at 33 "IPv6Address".
Definition Endpoint_IP_TRANSPORT_DETAILS := name_at 34 "IPTransportDetails".
Definition Endpoint_PASSWORD := name_at 35 "Password".
Definition Endpoint_PORT := name_at 36 "Port".
Definition Endpoint_PORTS := name_at 37 "Ports".
Definition Endpoint_TRANSPORT_PROTOCOL := name_at 38 "TransportProtocol".
Definition Endpoint_USERNAME := name_at 39 "Username".
Definition EthernetSwitch_APPLICATION_PROTOCOL := name_at 40 "ApplicationProtocol".
Definition EthernetSwitch_BANDWIDTH_ALLOCATION := name_at 41 "BandwidthAllocation".
Definition EthernetSwitch_BANDWIDTH_PERCENT := name_at 42 "BandwidthPercent".
Definition EthernetSwitch_DCBX_ENABLED := name_at 43 "DCBXEnabled".
Definition EthernetSwitch_DCBX_SHARED_CONFIGURATION := name_at 44 "DCBXSharedConfiguration".
Definition EthernetSwitch_ETS_ENABLED := name_at 45 "ETSEnabled".
Definition EthernetSwitch_LLDP_ENABLED := name_at 46 "LLDPEnabled".
Definition EthernetSwitch_PFC_ENABLED := name_at 47 "PFCEnabled".
Definition EthernetSwitch_PORT := name_at 48 "Port".
Definition EthernetSwitch_PRIORITY := name_at 49 "Priority".
Definition EthernetSwitch_PRIORITY_GROUP := name_at 50 "PriorityGroup".
Definition EthernetSwitch_PRIORITY_TO_PRIORITY_GROUP_MAPPING := name_at 51 "PriorityToPriorityGroupMapping".
Definition EthernetSwitch_PROTOCOL := name_at 52 "Protocol".
Definition EthernetSwitchPort_ADMINISTRATIVE_STATE := name_at 53 "AdministrativeState".
Definition EthernetSwitchPort_AUTOSENSE := name_at 54 "Autosense".
Definition EthernetSwitchPort_DCBX_STATE := name_at 55 "DCBXState".
Definition EthernetSwitchPort_ENABLED := name_at 56 "Enabled".
Definition EthernetSwitchPort_ENABLED_PRIORITIES := name_at 57 "EnabledPriorities".
Definition EthernetSwitchPort_FRAME_SIZE := name_at 58 "FrameSize".
Definition EthernetSwitchPort_LINK_SPEED := name_at 59 "LinkSpeedMbps".
Definition EthernetSwitchPort_LLDP_ENABLED := name_at 60 "LLDPEnabled".
Definition EthernetSwitchPort_PORT_ID := name_at 61 "PortId".
Definition EthernetSwitchPort_PORT_MEMBERS := name_at 62 "PortMembers".
Definition EthernetSwitchPort_PORT_MODE := name_at 63 "PortMode".
Definition EthernetSwitchPort_PRIMARY_VLAN := name_at 64 "PrimaryVLAN".
Definition EthernetSwitchPort_PRIORITY_FLOW_CONTROL := name_at 65 "PriorityFlowControl".
Definition EventSubscription_CONTEXT := name_at 66 "Context".
Definition EventSubscription_DESTINATION := name_at 67 "Destination".
Definition EventSubscription_EVENT_TYPES := name_at 68 "EventTypes".
Definition EventSubscription_ORIGIN_RESOURCES := name_at 69 "OriginResources".
Definition EventSubscription_PROTOCOL := name_at 70 "Protocol".
Definition Fabric_ENDPOINTS := name_at 71 "Endpoints".
Definition Fpga_ERASED := name_at 72 "Erased".
Definition IpAddress_ADDRESS := name_at 73 "Address".
Definition IpAddress_ADDRESS_ORIGIN := name_at 74 "AddressOrigin".
Definition IpAddress_ADDRESS_STATE := name_at 75 "AddressState".
Definition IpAddress_GATEWAY := name_at 76 "Gateway".
Definition IpAddress_PREFIX_LENGTH := name_at 77 "PrefixLength".
Definition IpAddress_SUBNET_MASK := name_at 78 "SubnetMask".
Definition NetworkDeviceFunction_AUTHENTICATION_METHOD := name_at 79 "AuthenticationMethod".
Definition NetworkDeviceFunction_CHAP_SECRET := name_at 80 "CHAPSecret".
Definition NetworkDeviceFunction_CHAP_USERNAME := name_at 81 "CHAPUsername".
Definition NetworkDeviceFunction_ETHERNET := name_at 82 "Ethernet".
Definition NetworkDeviceFunction_INITIATOR_DEFAULT_GATEWAY := name_at 83 "InitiatorDefaultGateway".
Definition NetworkDeviceFunction_INITIATOR_IP_ADDRESS := name_at 84 "InitiatorIPAddress".
Definition NetworkDeviceFunction_INITIATOR_NAME := name_at 85 "InitiatorName".
Definition NetworkDeviceFunction_INITIATOR_NETMASK := name_at 86 "InitiatorNetmask".
Definition NetworkDeviceFunction_IP_ADDRESS_TYPE := name_at 87 "IPAddressType".
Definition NetworkDeviceFunction_IP_MASK_DNS_VIA_DHCP := name_at 88 "IPMaskDNSViaDHCP".
Definition NetworkDeviceFunction_ISCSI_BOOT := name_at 89 "iSCSIBoot".
Definition NetworkDeviceFunction_MUTUAL_CHAP_SECRET := name_at 90 "MutualCHAPSecret".
Definition NetworkDeviceFunction_MUTUAL_CHAP_USERNAME := name_at 91 "MutualCHAPUsername".
Definition NetworkDeviceFunction_PRIMARY_DNS := name_at 92 "PrimaryDNS".
Definition NetworkDeviceFunction_PRIMARY_LUN := name_at 93 "PrimaryLUN".
Definition NetworkDeviceFunction_PRIMARY_TARGET_IP_ADDRESS := name_at 94 "PrimaryTargetIPAddress".
Definition NetworkDeviceFunction_PRIMARY_TARGET_NAME := name_at 95 "PrimaryTargetName".
Definition NetworkDeviceFunction_PRIMARY_TARGET_TCP_PORT := name_at 96 "PrimaryTargetTCPPort".
Definition NetworkDeviceFunction_PRIMARY_VLAN_ENABLE := name_at 97 "PrimaryVLANEnable".
Definition NetworkDeviceFunction_PRIMARY_VLAN_ID := name_at 98 "PrimaryVLANId".
Definition NetworkDeviceFunction_ROUTER_ADVERTISEMENT_ENABLED := name_at 99 "RouterAdvertisementEnabled".
Definition NetworkDeviceFunction_SECONDARY_DNS := name_at 100 "SecondaryDNS".
Definition NetworkDeviceFunction_SECONDARY_LUN := name_at 101 "SecondaryLUN".
Definition NetworkDeviceFunction_SECONDARY_TARGET_IP_ADDRESS := name_at 102 "SecondaryTargetIPAddress".
Definition NetworkDeviceFunction_SECONDARY_TARGET_NAME := name_at 103 "SecondaryTargetName".
Definition NetworkDeviceFunction_SECONDARY_TARGET_TCP_PORT := name_at 104 "SecondaryTargetTCPPort".
Definition NetworkDeviceFunction_SECONDARY_VLAN_ENABLE := name_at 105 "SecondaryVLANEnable".
Definition NetworkDeviceFunction_SECONDARY_VLAN_ID := name_at 106 "SecondaryVLANId".
Definition NetworkDeviceFunction_TARGET_INFO_VIA_DHCP := name_at 107 "TargetInfoViaDHCP".
Definition Processor_FPGA := name_at 108 "FPGA".
Definition ReplicaInfo_REPLICA := name_at 109 "Replica".
Definition ReplicaInfo_REPLICA_TYPE := name_at 110 "ReplicaType".
Definition Rule_ACTION := name_at 111 "Action".
Definition Rule_CONDITION := name_at 112 "Condition".
Definition Rule_FORWARD_MIRROR_INTERFACE := name_at 113 "ForwardMirrorInterface".
Definition Rule_IP_ADDRESS := name_at 114 "IPv4Address".
Definition Rule_IP_DESTINATION := name_at 115 "IPDestination".
Definition Rule_IP_SOURCE := name_at 116 "IPSource".
Definition Rule_L4_DESTINATION_PORT := name_at 117 "L4DestinationPort".
Definition Rule_L4_PROTOCOL := name_at 118 "L4Protocol".
Definition Rule_L4_SOURCE_PORT := name_at 119 "L4SourcePort".
Definition Rule_MAC_DESTINATION := name_at 120 "MACDestination".
Definition Rule_MAC_SOURCE := name_at 121 "MACSource".
Definition Rule_MASK := name_at 122 "Mask".
Definition Rule_MIRROR_PORT_REGION := name_at 123 "MirrorPortRegion".
Definition Rule_MIRROR_TYPE := name_at 124 "MirrorType".
Definition Rule_PORT := name_at 125 "Port".
Definition Rule_RULE_ID := name_at 126 "RuleId".
Definition Rule_VLAN_ID := name_at 127 "VLANId".
Definition Session_PASSWORD := name_at 128 "Password".
Definition Session_USER_NAME := name_at 129 "UserName".
Definition SessionService_SESSION_TIMEOUT := name_at 130 "SessionTimeout".
Definition StaticMac_VLAN_ID := name_at 131 "VLANId".
Definition StorageSubsystem_ASSET_TAG := name_at 132 "AssetTag".
Definition Swordfish_ACCESS_CAPABILITIES := name_at 133 "AccessCapabilities".
Definition Swordfish_BLOCK_SIZE_BYTES := name_at 134 "BlockSizeBytes".
Definition Swordfish_BOOTABLE := name_at 135 "Bootable".
Definition Swordfish_CAPACITY := name_at 136 "Capacity".
Definition Swordfish_CAPACITY_BYTES := name_at 137 "CapacityBytes".
Definition Swordfish_CAPACITY_SOURCES := name_at 138 "CapacitySources".
Definition Swordfish_INITIALIZE_TYPE := name_at 139 "InitializeType".
Definition Swordfish_PROVIDING_DRIVES := name_at 140 "ProvidingDrives".
Definition Swordfish_PROVIDING_POOLS := name_at 141 "ProvidingPools".
Definition Swordfish_REPLICA_INFOS := name_at 142 "ReplicaInfos".
Definition System_BOOT := name_at 143 "Boot".
Definition System_BOOT_SOURCE_OVERRIDE_ENABLED := name_at 144 "BootSourceOverrideEnabled".
Definition System_BOOT_SOURCE_OVERRIDE_MODE := name_at 145 "BootSourceOverrideMode".
Definition System_BOOT_SOURCE_OVERRIDE_TARGET := name_at 146 "BootSourceOverrideTarget".
Definition System_CLEAR_OWNERSHIP := name_at 147 "ClearOwnership".
Definition System_DEVICE_ENABLED := name_at 148 "DeviceEnabled".
Definition System_ERASE_CONFIGURATION_KEYS := name_at 149 "EraseConfigurationKeys".
Definition System_INTERFACE_TYPE := name_at 150 "InterfaceType".
Definition System_RESET_CONFIGURATION := name_at 151 "ResetConfiguration".
Definition System_USER_MODE_ENABLED := name_at 152 "UserModeEnabled".
Definition ThermalZone_DESIRED_SPEED_PWM := name_at 153 "DesiredSpeedPwm".
Definition UpdateService_IMAGE_URI := name_at 154 "ImageURI".
Definition UpdateService_TARGETS := name_at 155 "Targets".
Definition UpdateService_TRANSFER_PROTOCOL := name_at 156 "TransferProtocol".
Definition Vlan_TAGGED := name_at 157 "Tagged".
Definition Vlan_VLAN_ENABLE := name_at 158 "VLANEnable".
Definition Vlan_VLAN_ID := name_at 159 "VLANId".
Definition Zone_INVOLVED_SWITCHES := name_at 160 "InvolvedSwitches".

(** ** The declarations *)

(** [SimpleObjectSchema::get_procedure] *)
Definition SimpleObjectSchema : fields :=
  [(Common_ODATA_ID, VALID_JSON JSON_STRING)].

(** [AclPostSchema::get_procedure] *)
Definition AclPostSchema : fields :=
  [(Acl_PORT, VALID_ATTRIBUTE SimpleObjectSchema)].

(** [ChangeTPMStatePostSchema::get_procedure] *)
Definition ChangeTPMStatePostSchema : fields :=
  [(System_DEVICE_ENABLED, VALID_NULLABLE (VALID_JSON JSON_BOOLEAN));
   (System_INTERFACE_TYPE, VALID_OPTIONAL (VALID_ENUM (is_allowable_value InterfaceType) InterfaceType));
   (System_CLEAR_OWNERSHIP, VALID_OPTIONAL (VALID_JSON JSON_BOOLEAN))].

(** [ChassisPatchSchema::OemSchema::RackScaleSchema::LocationSchema::get_procedure] *)
Definition ChassisPatchSchema_OemSchema_RackScaleSchema_LocationSchema : fields :=
  [(Common_ID, VALID_OPTIONAL (VALID_REGEX patterns.Chassis_LOCATION_ID))].

(** [ChassisPatchSchema::OemSchema::RackScaleSchema::get_procedure] *)
Definition ChassisPatchSchema_OemSchema_RackScaleSchema : fields :=
  [(Chassis_LOCATION, VALID_OPTIONAL (VALID_ATTRIBUTE ChassisPatchSchema_OemSchema_RackScaleSchema_LocationSchema));
   (Chassis_GEO_TAG, VALID_OPTIONAL (VALID_JSON JSON_STRING))].

(** [ChassisPatchSchema::OemSchema::get_procedure] *)
Definition ChassisPatchSchema_OemSchema : fields :=
  [(Common_RACKSCALE, VALID_OPTIONAL (VALID_ATTRIBUTE ChassisPatchSchema_OemSchema_RackScaleSchema))].

(** [ChassisPatchSchema::get_procedure] *)
Definition ChassisPatchSchema : fields :=
  [(Common_ASSET_TAG, VALID_OPTIONAL (VALID_JSON JSON_STRING));
   (Common_OEM, VALID_OPTIONAL (VALID_ATTRIBUTE ChassisPatchSchema_OemSchema))].

(** [IdentifierSchema::get_procedure] *)
Definition IdentifierSchema : fields :=
  [(Common_DURABLE_NAME_FORMAT, VALID_ENUM (is_allowable_value IdentifierType) IdentifierType);
   (Common_DURABLE_NAME, VALID_REGEX patterns.Common_EMPTY_OR_NO_WHITESPACE_STRING)].

(** [EmptyObjectSchema::get_procedure] *)
Definition EmptyObjectSchema : fields :=
  [].

(** [DrivePatchSchema::OemSchema::RackScaleSchema::get_procedure] *)
Definition DrivePatchSchema_OemSchema_RackScaleSchema : fields :=
  [(Drive_DRIVE_ERASED, VALID_OPTIONAL (VALID_JSON JSON_BOOLEAN));
   (Drive_LATENCY_TRACKING_ENABLED, VALID_OPTIONAL (VALID_JSON JSON_BOOLEAN))].

(** [DrivePatchSchema::OemSchema::get_procedure] *)
Definition DrivePatchSchema_OemSchema : fields :=
  [(Common_RACKSCALE, VALID_OPTIONAL (VALID_ATTRIBUTE DrivePatchSchema_OemSchema_RackScaleSchema))].

(** [DrivePatchSchema::get_procedure] *)
Definition DrivePatchSchema : fields :=
  [(Common_ASSET_TAG, VALID_OPTIONAL (VALID_JSON JSON_STRING));
   (Common_OEM, VALID_OPTIONAL (VALID_ATTRIBUTE DrivePatchSchema_OemSchema))].

(** [EndpointPatchSchema::OemSchema::RackScaleSchema::AuthSchema::get_procedure] *)
Definition EndpointPatchSchema_OemSchema_RackScaleSchema_AuthSchema : fields :=
  [(Endpoint_USERNAME, VALID_OPTIONAL (VALID_NULLABLE (VALID_REGEX patterns.Common_NO_WHITESPACE_STRING)));
   (Endpoint_PASSWORD, VALID_OPTIONAL (VALID_NULLABLE (VALID_REGEX patterns.Common_NO_WHITESPACE_STRING)))].

(** [EndpointPatchSchema::OemSchema::RackScaleSchema::get_procedure] *)
Definition EndpointPatchSchema_OemSchema_RackScaleSchema : fields :=
  [(Endpoint_AUTHENTICATION, VALID_OPTIONAL (VALID_ATTRIBUTE EndpointPatchSchema_OemSchema_RackScaleSchema_AuthSchema))].

(** [EndpointPatchSchema::OemSchema::get_procedure] *)
Definition EndpointPatchSchema_OemSchema : fields :=
  [(Common_RACKSCALE, VALID_OPTIONAL (VALID_ATTRIBUTE EndpointPatchSchema_OemSchema_RackScaleSchema))].

(** [EndpointPatchSchema::get_procedure] *)
Definition EndpointPatchSchema : fields :=
  [(Common_OEM, VALID_OPTIONAL (VALID_ATTRIBUTE EndpointPatchSchema_OemSchema))].

(** [EndpointsCollectionPostSchema::EntitySchema::OemSchema::RackScaleSchema::get_procedure] *)
Definition EndpointsCollectionPostSchema_EntitySchema_OemSchema_RackScaleSchema : fields :=
  [(Common_LUN, VALID_OPTIONAL (VALID_NUMERIC_TYPED (INT64 None None)))].

(** [EndpointsCollectionPostSchema::EntitySchema::OemSchema::get_procedure] *)
Definition EndpointsCollectionPostSchema_EntitySchema_OemSchema : fields :=
  [(Common_RACKSCALE, VALID_OPTIONAL (VALID_ATTRIBUTE EndpointsCollectionPostSchema_EntitySchema_OemSchema_RackScaleSchema))].

(** [EndpointsCollectionPostSchema::EntitySchema::get_procedure] *)
Definition EndpointsCollectionPostSchema_EntitySchema : fields :=
  [(Endpoint_ENTITY_LINK, VALID_OPTIONAL (VALID_NULLABLE (VALID_ATTRIBUTE SimpleObjectSchema)));
   (Endpoint_ENTITY_ROLE, VALID_ENUM (is_allowable_value EntityRole) EntityRole);
   (Common_IDENTIFIERS, VALID_OPTIONAL (VALID_NULLABLE (VALID_ARRAY_OF (VALID_ATTRIBUTE IdentifierSchema))));
   (Common_OEM, VALID_OPTIONAL (VALID_ATTRIBUTE EndpointsCollectionPostSchema_EntitySchema_OemSchema))].

(** [EndpointsCollectionPostSchema::OemSchema::RackScaleSchema::AuthSchema::get_procedure] *)
Definition EndpointsCollectionPostSchema_OemSchema_RackScaleSchema_AuthSchema : fields :=
  [(Endpoint_USERNAME, VALID_OPTIONAL (VALID_NULLABLE (VALID_REGEX patterns.Common_NO_WHITESPACE_STRING)));
   (Endpoint_PASSWORD, VALID_OPTIONAL (VALID_NULLABLE (VALID_REGEX patterns.Common_NO_WHITESPACE_STRING)))].

(** [EndpointsCollectionPostSchema::OemSchema::RackScaleSchema::get_procedure] *)
Definition EndpointsCollectionPostSchema_OemSchema_RackScaleSchema : fields :=
  [(Endpoint_AUTHENTICATION, VALID_OPTIONAL (VALID_ATTRIBUTE EndpointsCollectionPostSchema_OemSchema_RackScaleSchema_AuthSchema));
   (Endpoint_ENDPOINT_PROTOCOL, VALID_OPTIONAL (VALID_NULLABLE (VALID_ENUM (is_allowable_string OemProtocol) OemProtocol)))].

(** [EndpointsCollectionPostSchema::OemSchema::get_procedure] *)
Definition EndpointsCollectionPostSchema_OemSchema : fields :=
  [(Common_RACKSCALE, VALID_OPTIONAL (VALID_ATTRIBUTE EndpointsCollectionPostSchema_OemSchema_RackScaleSchema))].

(** [EndpointsCollectionPostSchema::IpTransportDetailSchema::IPv6Schema::get_procedure] *)
Definition EndpointsCollectionPostSchema_IpTransportDetailSchema_IPv6Schema : fields :=
  [(IpAddress_ADDRESS, VALID_REGEX patterns.IPv6Addresses_ADDRESS);
   (IpAddress_ADDRESS_ORIGIN, VALID_OPTIONAL (VALID_ENUM (is_allowable_value Ipv6AddressOrigin) Ipv6AddressOrigin));
   (IpAddress_PREFIX_LENGTH, VALID_OPTIONAL (VALID_NUMERIC_TYPED (INT32 None None)));
   (IpAddress_ADDRESS_STATE, VALID_OPTIONAL (VALID_ENUM (is_allowable_value Ipv6AddressState) Ipv6AddressState))].

(** [EndpointsCollectionPostSchema::IpTransportDetailSchema::IPv4Schema::get_procedure] *)
Definition EndpointsCollectionPostSchema_IpTransportDetailSchema_IPv4Schema : fields :=
  [(IpAddress_ADDRESS, VALID_REGEX patterns.IPAddresses_ADDRESS);
   (IpAddress_ADDRESS_ORIGIN, VALID_OPTIONAL (VALID_ENUM (is_allowable_value Ipv4AddressOrigin) Ipv4AddressOrigin));
   (IpAddress_GATEWAY, VALID_OPTIONAL (VALID_REGEX patterns.IPAddresses_GATEWAY));
   (IpAddress_SUBNET_MASK, VALID_OPTIONAL (VALID_REGEX patterns.IPAddresses_SUBNET_MASK))].

(** [EndpointsCollectionPostSchema::IpTransportDetailSchema::get_procedure] *)
Definition EndpointsCollectionPostSchema_IpTransportDetailSchema : fields :=
  [(Endpoint_IPV4_ADDRESS, VALID_OPTIONAL (VALID_ATTRIBUTE EndpointsCollectionPostSchema_IpTransportDetailSchema_IPv4Schema));
   (Endpoint_IPV6_ADDRESS, VALID_OPTIONAL (VALID_ATTRIBUTE EndpointsCollectionPostSchema_IpTransportDetailSchema_IPv6Schema));
   (Endpoint_PORT, VALID_OPTIONAL (VALID_NUMERIC_TYPED (INT32 None None)));
   (Endpoint_TRANSPORT_PROTOCOL, VALID_ENUM (is_allowable_value TransportProtocol) TransportProtocol)].

(** [EndpointsCollectionPostSchema::LinksSchema::OemSchema::RackScaleSchema::get_procedure] *)
Definition EndpointsCollectionPostSchema_LinksSchema_OemSchema_RackScaleSchema : fields :=
  [(Endpoint_INTERFACES, VALID_OPTIONAL (VALID_NULLABLE (VALID_ARRAY_OF (VALID_NULLABLE (VALID_ATTRIBUTE SimpleObjectSchema)))))].

(** [EndpointsCollectionPostSchema::LinksSchema::OemSchema::get_procedure] *)
Definition EndpointsCollectionPostSchema_LinksSchema_OemSchema : fields :=
  [(Common_RACKSCALE, VALID_OPTIONAL (VALID_ATTRIBUTE EndpointsCollectionPostSchema_LinksSchema_OemSchema_RackScaleSchema))].

(** [EndpointsCollectionPostSchema::LinksSchema::get_procedure] *)
Definition EndpointsCollectionPostSchema_LinksSchema : fields :=
  [(Common_OEM, VALID_OPTIONAL (VALID_ATTRIBUTE EndpointsCollectionPostSchema_LinksSchema_OemSchema));
   (Endpoint_PORTS, VALID_OPTIONAL (VALID_NULLABLE (VALID_ARRAY_OF (VALID_ATTRIBUTE SimpleObjectSchema))))].

(** [EndpointsCollectionPostSchema::get_procedure] *)
Definition EndpointsCollectionPostSchema : fields :=
  [(Endpoint_ENDPOINT_PROTOCOL, VALID_OPTIONAL (VALID_ENUM (is_allowable_value TransportProtocol) TransportProtocol));
   (Common_IDENTIFIERS, VALID_OPTIONAL (VALID_NULLABLE (VALID_ARRAY_OF (VALID_ATTRIBUTE IdentifierSchema))));
   (Endpoint_CONNECTED_ENTITIES, VALID_ARRAY_OF (VALID_ATTRIBUTE EndpointsCollectionPostSchema_EntitySchema));
   (Endpoint_IP_TRANSPORT_DETAILS, VALID_OPTIONAL (VALID_NULLABLE (VALID_ARRAY_OF (VALID_ATTRIBUTE EndpointsCollectionPostSchema_IpTransportDetailSchema))));
   (Common_LINKS, VALID_OPTIONAL (VALID_ATTRIBUTE EndpointsCollectionPostSchema_LinksSchema));
   (Common_OEM, VALID_OPTIONAL (VALID_ATTRIBUTE EndpointsCollectionPostSchema_OemSchema))].

(** [EthernetSwitchPatchSchema::QosApplicationProtocolSchema::get_procedure] *)
Definition EthernetSwitchPatchSchema_QosApplicationProtocolSchema : fields :=
  [(EthernetSwitch_PRIORITY, VALID_OPTIONAL (VALID_NUMERIC_TYPED (UINT32 None (Some 7))));
   (EthernetSwitch_PORT, VALID_OPTIONAL (VALID_NUMERIC_TYPED (UINT32 None (Some 65535))));
   (EthernetSwitch_PROTOCOL, VALID_OPTIONAL (VALID_ENUM (is_allowable_value TransportLayerProtocol) TransportLayerProtocol))].

(** [EthernetSwitchPatchSchema::QosPriorityMappingSchema::get_procedure] *)
Definition EthernetSwitchPatchSchema_QosPriorityMappingSchema : fields :=
  [(EthernetSwitch_PRIORITY, VALID_OPTIONAL (VALID_NUMERIC_TYPED (UINT32 None (Some 7))));
   (EthernetSwitch_PRIORITY_GROUP, VALID_OPTIONAL (VALID_NUMERIC_TYPED (UINT32 None (Some 15))))].

(** [EthernetSwitchPatchSchema::QosBandwidthAllocationSchema::get_procedure] *)
Definition EthernetSwitchPatchSchema_QosBandwidthAllocationSchema : fields :=
  [(EthernetSwitch_PRIORITY_GROUP, VALID_OPTIONAL (VALID_NUMERIC_TYPED (UINT32 None (Some 15))));
   (EthernetSwitch_BANDWIDTH_PERCENT, VALID_OPTIONAL (VALID_NUMERIC_TYPED (UINT32 None (Some 100))))].

(** [EthernetSwitchPatchSchema::DcbxSharedConfigurationSchema::get_procedure] *)
Definition EthernetSwitchPatchSchema_DcbxSharedConfigurationSchema : fields :=
  [(EthernetSwitch_APPLICATION_PROTOCOL, VALID_OPTIONAL (VALID_NULLABLE (VALID_ARRAY_OF (VALID_ATTRIBUTE EthernetSwitchPatchSchema_QosApplicationProtocolSchema))));
   (EthernetSwitch_PRIORITY_TO_PRIORITY_GROUP_MAPPING, VALID_OPTIONAL (VALID_NULLABLE (VALID_ARRAY_OF (VALID_ATTRIBUTE EthernetSwitchPatchSchema_QosPriorityMappingSchema))));
   (EthernetSwitch_BANDWIDTH_ALLOCATION, VALID_OPTIONAL (VALID_NULLABLE (VALID_ARRAY_OF (VALID_ATTRIBUTE EthernetSwitchPatchSchema_QosBandwidthAllocationSchema))))].

(** [EthernetSwitchPatchSchema::get_procedure] *)
Definition EthernetSwitchPatchSchema : fields :=
  [(EthernetSwitch_PFC_ENABLED, VALID_OPTIONAL (VALID_NULLABLE (VALID_JSON JSON_BOOLEAN)));
   (EthernetSwitch_LLDP_ENABLED, VALID_OPTIONAL (VALID_NULLABLE (VALID_JSON JSON_BOOLEAN)));
   (EthernetSwitch_ETS_ENABLED, VALID_OPTIONAL (VALID_NULLABLE (VALID_JSON JSON_BOOLEAN)));
   (EthernetSwitch_DCBX_ENABLED, VALID_OPTIONAL (VALID_NULLABLE (VALID_JSON JSON_BOOLEAN)));
   (EthernetSwitch_DCBX_SHARED_CONFIGURATION, VALID_OPTIONAL (VALID_ATTRIBUTE EthernetSwitchPatchSchema_DcbxSharedConfigurationSchema))].

(** [EthernetSwitchPortPatchSchema::LinksSchema::get_procedure] *)
Definition EthernetSwitchPortPatchSchema_LinksSchema : fields :=
  [(EthernetSwitchPort_PORT_MEMBERS, VALID_OPTIONAL (VALID_NULLABLE (VALID_ARRAY_OF (VALID_ATTRIBUTE SimpleObjectSchema))));
   (EthernetSwitchPort_PRIMARY_VLAN, VALID_OPTIONAL (VALID_ATTRIBUTE SimpleObjectSchema))].

(** [EthernetSwitchPortPatchSchema::PriorityFlowControlSchema::get_procedure] *)
Definition EthernetSwitchPortPatchSchema_PriorityFlowControlSchema : fields :=
  [(EthernetSwitchPort_ENABLED, VALID_OPTIONAL (VALID_NULLABLE (VALID_JSON JSON_BOOLEAN)));
   (EthernetSwitchPort_ENABLED_PRIORITIES, VALID_OPTIONAL (VALID_NULLABLE (VALID_ARRAY_SIZE_OF (VALID_NUMERIC_TYPED (UINT32 (Some 0) (Some 7))) 0 8)))].

(** [EthernetSwitchPortPatchSchema::get_procedure] *)
Definition EthernetSwitchPortPatchSchema : fields :=
  [(EthernetSwitchPort_ADMINISTRATIVE_STATE, VALID_OPTIONAL (VALID_ENUM (is_allowable_value AdministrativeState) AdministrativeState));
   (EthernetSwitchPort_LINK_SPEED, VALID_OPTIONAL (VALID_NUMERIC_TYPED (INT64 None None)));
   (EthernetSwitchPort_FRAME_SIZE, VALID_OPTIONAL (VALID_NUMERIC_TYPED (INT64 None None)));
   (EthernetSwitchPort_AUTOSENSE, VALID_OPTIONAL (VALID_JSON JSON_BOOLEAN));
   (EthernetSwitchPort_LLDP_ENABLED, VALID_OPTIONAL (VALID_JSON JSON_BOOLEAN));
   (EthernetSwitchPort_DCBX_STATE, VALID_OPTIONAL (VALID_ENUM (is_allowable_value DcbxState) DcbxState));
   (EthernetSwitchPort_PRIORITY_FLOW_CONTROL, VALID_OPTIONAL (VALID_ATTRIBUTE EthernetSwitchPortPatchSchema_PriorityFlowControlSchema));
   (Common_LINKS, VALID_OPTIONAL (VALID_ATTRIBUTE EthernetSwitchPortPatchSchema_LinksSchema))].

(** [EthernetSwitchPortCollectionPostSchema::LinksSchema::get_procedure] *)
Definition EthernetSwitchPortCollectionPostSchema_LinksSchema : fields :=
  [(EthernetSwitchPort_PORT_MEMBERS, VALID_ARRAY_OF (VALID_ATTRIBUTE SimpleObjectSchema))].

(** [EthernetSwitchPortCollectionPostSchema::get_procedure] *)
Definition EthernetSwitchPortCollectionPostSchema : fields :=
  [(EthernetSwitchPort_PORT_ID, VALID_JSON JSON_STRING);
   (EthernetSwitchPort_PORT_MODE, VALID_ENUM (is_allowable_value PortMode) PortMode);
   (Common_LINKS, VALID_ATTRIBUTE EthernetSwitchPortCollectionPostSchema_LinksSchema)].

(** [NetworkDeviceFunctionPatchSchema::EthernetObjectSchema::get_procedure] *)
Definition NetworkDeviceFunctionPatchSchema_EthernetObjectSchema : fields :=
  [(Common_MAC_ADDRESS, VALID_OPTIONAL (VALID_NULLABLE (VALID_JSON JSON_STRING)))].

(** [NetworkDeviceFunctionPatchSchema::IscsiBootObjectSchema::get_procedure] *)
Definition NetworkDeviceFunctionPatchSchema_IscsiBootObjectSchema : fields :=
  [(NetworkDeviceFunction_IP_ADDRESS_TYPE, VALID_OPTIONAL (VALID_NULLABLE (VALID_ENUM (is_allowable_value IPAddressType) IPAddressType)));
   (NetworkDeviceFunction_INITIATOR_IP_ADDRESS, VALID_OPTIONAL (VALID_NULLABLE (VALID_JSON JSON_STRING)));
   (NetworkDeviceFunction_INITIATOR_NAME, VALID_OPTIONAL (VALID_NULLABLE (VALID_JSON JSON_STRING)));
   (NetworkDeviceFunction_INITIATOR_DEFAULT_GATEWAY, VALID_OPTIONAL (VALID_NULLABLE (VALID_JSON JSON_STRING)));
   (NetworkDeviceFunction_INITIATOR_NETMASK, VALID_OPTIONAL (VALID_NULLABLE (VALID_JSON JSON_STRING)));
   (NetworkDeviceFunction_TARGET_INFO_VIA_DHCP, VALID_OPTIONAL (VALID_NULLABLE (VALID_JSON JSON_BOOLEAN)));
   (NetworkDeviceFunction_PRIMARY_TARGET_NAME, VALID_OPTIONAL (VALID_NULLABLE (VALID_JSON JSON_STRING)));
   (NetworkDeviceFunction_PRIMARY_TARGET_IP_ADDRESS, VALID_OPTIONAL (VALID_NULLABLE (VALID_JSON JSON_STRING)));
   (NetworkDeviceFunction_PRIMARY_TARGET_TCP_PORT, VALID_OPTIONAL (VALID_NULLABLE (VALID_NUMERIC_TYPED (UINT32 None None))));
   (NetworkDeviceFunction_PRIMARY_LUN, VALID_OPTIONAL (VALID_NULLABLE (VALID_NUMERIC_TYPED (INT64 (Some 0) None))));
   (NetworkDeviceFunction_PRIMARY_VLAN_ENABLE, VALID_OPTIONAL (VALID_NULLABLE (VALID_JSON JSON_BOOLEAN)));
   (NetworkDeviceFunction_PRIMARY_VLAN_ID, VALID_OPTIONAL (VALID_NULLABLE (VALID_NUMERIC_TYPED (UINT32 None None))));
   (NetworkDeviceFunction_PRIMARY_DNS, VALID_OPTIONAL (VALID_NULLABLE (VALID_JSON JSON_STRING)));
   (NetworkDeviceFunction_SECONDARY_TARGET_NAME, VALID_OPTIONAL (VALID_NULLABLE (VALID_JSON JSON_STRING)));
   (NetworkDeviceFunction_SECONDARY_TARGET_IP_ADDRESS, VALID_OPTIONAL (VALID_NULLABLE (VALID_JSON JSON_STRING)));
   (NetworkDeviceFunction_SECONDARY_TARGET_TCP_PORT, VALID_OPTIONAL (VALID_NULLABLE (VALID_NUMERIC_TYPED (UINT32 None None))));
   (NetworkDeviceFunction_SECONDARY_LUN, VALID_OPTIONAL (VALID_NULLABLE (VALID_NUMERIC_TYPED (INT64 (Some 0) None))));
   (NetworkDeviceFunction_SECONDARY_VLAN_ENABLE, VALID_OPTIONAL (VALID_NULLABLE (VALID_JSON JSON_BOOLEAN)));
   (NetworkDeviceFunction_SECONDARY_VLAN_ID, VALID_OPTIONAL (VALID_NULLABLE (VALID_NUMERIC_TYPED (UINT32 None None))));
   (NetworkDeviceFunction_SECONDARY_DNS, VALID_OPTIONAL (VALID_NULLABLE (VALID_JSON JSON_STRING)));
   (NetworkDeviceFunction_IP_MASK_DNS_VIA_DHCP, VALID_OPTIONAL (VALID_NULLABLE (VALID_JSON JSON_BOOLEAN)));
   (NetworkDeviceFunction_ROUTER_ADVERTISEMENT_ENABLED, VALID_OPTIONAL (VALID_NULLABLE (VALID_JSON JSON_BOOLEAN)));
   (NetworkDeviceFunction_AUTHENTICATION_METHOD, VALID_OPTIONAL (VALID_NULLABLE (VALID_ENUM (is_allowable_value FunctionAuthenticationMethod) FunctionAuthenticationMethod)));
   (NetworkDeviceFunction_CHAP_USERNAME, VALID_OPTIONAL (VALID_NULLABLE (VALID_JSON JSON_STRING)));
   (NetworkDeviceFunction_CHAP_SECRET, VALID_OPTIONAL (VALID_NULLABLE (VALID_JSON JSON_STRING)));
   (NetworkDeviceFunction_MUTUAL_CHAP_USERNAME, VALID_OPTIONAL (VALID_NULLABLE (VALID_JSON JSON_STRING)));
   (NetworkDeviceFunction_MUTUAL_CHAP_SECRET, VALID_OPTIONAL (VALID_NULLABLE (VALID_JSON JSON_STRING)))].

(** [NetworkDeviceFunctionPatchSchema::get_procedure] *)
Definition NetworkDeviceFunctionPatchSchema : fields :=
  [(NetworkDeviceFunction_ETHERNET, VALID_OPTIONAL (VALID_ATTRIBUTE NetworkDeviceFunctionPatchSchema_EthernetObjectSchema));
   (NetworkDeviceFunction_ISCSI_BOOT, VALID_OPTIONAL (VALID_ATTRIBUTE NetworkDeviceFunctionPatchSchema_IscsiBootObjectSchema))].

(** [PcieDevicePatchSchema::get_procedure] *)
Definition PcieDevicePatchSchema : fields :=
  [(Common_ASSET_TAG, VALID_OPTIONAL (VALID_JSON JSON_STRING))].

(** [ProcessorPatchSchema::OemSchema::RackScaleSchema::FpgaSchema::get_procedure] *)
Definition ProcessorPatchSchema_OemSchema_RackScaleSchema_FpgaSchema : fields :=
  [(Fpga_ERASED, VALID_OPTIONAL (VALID_JSON JSON_BOOLEAN))].

(** [ProcessorPatchSchema::OemSchema::RackScaleSchema::get_procedure] *)
Definition ProcessorPatchSchema_OemSchema_RackScaleSchema : fields :=
  [(Processor_FPGA, VALID_OPTIONAL (VALID_ATTRIBUTE ProcessorPatchSchema_OemSchema_RackScaleSchema_FpgaSchema))].

(** [ProcessorPatchSchema::OemSchema::get_procedure] *)
Definition ProcessorPatchSchema_OemSchema : fields :=
  [(Common_RACKSCALE, VALID_OPTIONAL (VALID_ATTRIBUTE ProcessorPatchSchema_OemSchema_RackScaleSchema))].

(** [ProcessorPatchSchema::get_procedure] *)
Definition ProcessorPatchSchema : fields :=
  [(Common_OEM, VALID_OPTIONAL (VALID_ATTRIBUTE ProcessorPatchSchema_OemSchema))].

(** [RequestStateChangePostSchema::get_procedure] *)
Definition RequestStateChangePostSchema : fields :=
  [(Common_STATE, VALID_ENUM (is_allowable_value State) State);
   (Common_MEMBER_ID, VALID_JSON JSON_STRING)].

(** [ResetPostSchema::get_procedure] *)
Definition ResetPostSchema : fields :=
  [(Common_RESET_TYPE, VALID_ENUM (is_allowable_value ResetType) ResetType)].

(** [RulePatchSchema::ConditionSchema::IpSchema::get_procedure] *)
Definition RulePatchSchema_ConditionSchema_IpSchema : fields :=
  [(Rule_IP_ADDRESS, VALID_JSON JSON_STRING);
   (Rule_MASK, VALID_OPTIONAL (VALID_NULLABLE (VALID_JSON JSON_STRING)))].

(** [RulePatchSchema::ConditionSchema::MacSchema::get_procedure] *)
Definition RulePatchSchema_ConditionSchema_MacSchema : fields :=
  [(Common_MAC_ADDRESS, VALID_JSON JSON_STRING);
   (Rule_MASK, VALID_OPTIONAL (VALID_NULLABLE (VALID_JSON JSON_STRING)))].

(** [RulePatchSchema::ConditionSchema::VlanIdSchema::get_procedure] *)
Definition RulePatchSchema_ConditionSchema_VlanIdSchema : fields :=
  [(Common_ID, VALID_NUMERIC_TYPED (UINT32 None None));
   (Rule_MASK, VALID_OPTIONAL (VALID_NULLABLE (VALID_NUMERIC_TYPED (UINT32 None None))))].

(** [RulePatchSchema::ConditionSchema::PortSchema::get_procedure] *)
Definition RulePatchSchema_ConditionSchema_PortSchema : fields :=
  [(Rule_PORT, VALID_NUMERIC_TYPED (UINT32 None None));
   (Rule_MASK, VALID_OPTIONAL (VALID_NULLABLE (VALID_NUMERIC_TYPED (UINT32 None None))))].

(** [RulePatchSchema::ConditionSchema::get_procedure] *)
Definition RulePatchSchema_ConditionSchema : fields :=
  [(Rule_IP_SOURCE, VALID_OPTIONAL (VALID_NULLABLE (VALID_ATTRIBUTE RulePatchSchema_ConditionSchema_IpSchema)));
   (Rule_IP_DESTINATION, VALID_OPTIONAL (VALID_NULLABLE (VALID_ATTRIBUTE RulePatchSchema_ConditionSchema_IpSchema)));
   (Rule_MAC_SOURCE, VALID_OPTIONAL (VALID_NULLABLE (VALID_ATTRIBUTE RulePatchSchema_ConditionSchema_MacSchema)));
   (Rule_MAC_DESTINATION, VALID_OPTIONAL (VALID_NULLABLE (VALID_ATTRIBUTE RulePatchSchema_ConditionSchema_MacSchema)));
   (Rule_VLAN_ID, VALID_OPTIONAL (VALID_NULLABLE (VALID_ATTRIBUTE RulePatchSchema_ConditionSchema_VlanIdSchema)));
   (Rule_L4_SOURCE_PORT, VALID_OPTIONAL (VALID_NULLABLE (VALID_ATTRIBUTE RulePatchSchema_ConditionSchema_PortSchema)));
   (Rule_L4_DESTINATION_PORT, VALID_OPTIONAL (VALID_NULLABLE (VALID_ATTRIBUTE RulePatchSchema_ConditionSchema_PortSchema)));
   (Rule_L4_PROTOCOL, VALID_OPTIONAL (VALID_NULLABLE (VALID_NUMERIC_TYPED (UINT32 None None))))].

(** [RulePatchSchema::get_procedure] *)
Definition RulePatchSchema : fields :=
  [(Rule_RULE_ID, VALID_OPTIONAL (VALID_NUMERIC_TYPED (UINT32 None None)));
   (Rule_ACTION, VALID_OPTIONAL (VALID_ENUM (is_allowable_value AclAction) AclAction));
   (Rule_FORWARD_MIRROR_INTERFACE, VALID_OPTIONAL (VALID_ATTRIBUTE SimpleObjectSchema));
   (Rule_MIRROR_PORT_REGION, VALID_OPTIONAL (VALID_NULLABLE (VALID_ARRAY_OF (VALID_ATTRIBUTE SimpleObjectSchema))));
   (Rule_MIRROR_TYPE, VALID_OPTIONAL (VALID_ENUM (is_allowable_value AclMirrorType) AclMirrorType));
   (Rule_CONDITION, VALID_OPTIONAL (VALID_ATTRIBUTE RulePatchSchema_ConditionSchema))].

(** [RulePostSchema::ConditionSchema::IpSchema::get_procedure] *)
Definition RulePostSchema_ConditionSchema_IpSchema : fields :=
  [(Rule_IP_ADDRESS, VALID_JSON JSON_STRING);
   (Rule_MASK, VALID_OPTIONAL (VALID_NULLABLE (VALID_JSON JSON_STRING)))].

(** [RulePostSchema::ConditionSchema::MacSchema::get_procedure] *)
Definition RulePostSchema_ConditionSchema_MacSchema : fields :=
  [(Common_MAC_ADDRESS, VALID_JSON JSON_STRING);
   (Rule_MASK, VALID_OPTIONAL (VALID_NULLABLE (VALID_JSON JSON_STRING)))].

(** [RulePostSchema::ConditionSchema::VlanIdSchema::get_procedure] *)
Definition RulePostSchema_ConditionSchema_VlanIdSchema : fields :=
  [(Common_ID, VALID_NUMERIC_TYPED (UINT32 None None));
   (Rule_MASK, VALID_OPTIONAL (VALID_NULLABLE (VALID_NUMERIC_TYPED (UINT32 None None))))].

(** [RulePostSchema::ConditionSchema::PortSchema::get_procedure] *)
Definition RulePostSchema_ConditionSchema_PortSchema : fields :=
  [(Rule_PORT, VALID_NUMERIC_TYPED (UINT32 None None));
   (Rule_MASK, VALID_OPTIONAL (VALID_NULLABLE (VALID_NUMERIC_TYPED (UINT32 None None))))].

(** [RulePostSchema::ConditionSchema::get_procedure] *)
Definition RulePostSchema_ConditionSchema : fields :=
  [(Rule_IP_SOURCE, VALID_OPTIONAL (VALID_NULLABLE (VALID_ATTRIBUTE RulePostSchema_ConditionSchema_IpSchema)));
   (Rule_IP_DESTINATION, VALID_OPTIONAL (VALID_NULLABLE (VALID_ATTRIBUTE RulePostSchema_ConditionSchema_IpSchema)));
   (Rule_MAC_SOURCE, VALID_OPTIONAL (VALID_NULLABLE (VALID_ATTRIBUTE RulePostSchema_ConditionSchema_MacSchema)));
   (Rule_MAC_DESTINATION, VALID_OPTIONAL (VALID_NULLABLE (VALID_ATTRIBUTE RulePostSchema_ConditionSchema_MacSchema)));
   (Rule_VLAN_ID, VALID_OPTIONAL (VALID_NULLABLE (VALID_ATTRIBUTE RulePostSchema_ConditionSchema_VlanIdSchema)));
   (Rule_L4_SOURCE_PORT, VALID_OPTIONAL (VALID_NULLABLE (VALID_ATTRIBUTE RulePostSchema_ConditionSchema_PortSchema)));
   (Rule_L4_DESTINATION_PORT, VALID_OPTIONAL (VALID_NULLABLE (VALID_ATTRIBUTE RulePostSchema_ConditionSchema_PortSchema)));
   (Rule_L4_PROTOCOL, VALID_OPTIONAL (VALID_NULLABLE (VALID_NUMERIC_TYPED (UINT32 None None))))].

(** [RulePostSchema::get_procedure] *)
Definition RulePostSchema : fields :=
  [(Rule_RULE_ID, VALID_OPTIONAL (VALID_NUMERIC_TYPED (UINT32 None None)));
   (Rule_ACTION, VALID_ENUM (is_allowable_value AclAction) AclAction);
   (Rule_FORWARD_MIRROR_INTERFACE, VALID_OPTIONAL (VALID_ATTRIBUTE SimpleObjectSchema));
   (Rule_MIRROR_PORT_REGION, VALID_OPTIONAL (VALID_NULLABLE (VALID_ARRAY_OF (VALID_ATTRIBUTE SimpleObjectSchema))));
   (Rule_MIRROR_TYPE, VALID_OPTIONAL (VALID_ENUM (is_allowable_value AclMirrorType) AclMirrorType));
   (Rule_CONDITION, VALID_ATTRIBUTE RulePostSchema_ConditionSchema)].

(** [SessionCollectionPostSchema::get_procedure] *)
Definition SessionCollectionPostSchema : fields :=
  [(Session_USER_NAME, VALID_NULLABLE (VALID_JSON JSON_STRING));
   (Session_PASSWORD, VALID_NULLABLE (VALID_JSON JSON_STRING))].

(** [SessionServicePatchSchema::get_procedure] *)
Definition SessionServicePatchSchema : fields :=
  [(Common_SERVICE_ENABLED, VALID_OPTIONAL (VALID_JSON JSON_BOOLEAN));
   (SessionService_SESSION_TIMEOUT, VALID_OPTIONAL (VALID_NUMERIC_TYPED (INT64 (Some 30) (Some 86400))))].

(** [SimpleUpdatePostSchema::get_procedure] *)
Definition SimpleUpdatePostSchema : fields :=
  [(UpdateService_IMAGE_URI, VALID_JSON JSON_STRING);
   (UpdateService_TRANSFER_PROTOCOL, VALID_OPTIONAL (VALID_ENUM (is_allowable_value TransferProtocol) TransferProtocol));
   (UpdateService_TARGETS, VALID_ARRAY_SIZE_OF (VALID_JSON JSON_STRING) 1 2147483647)].

(** [StaticMacPatchSchema::get_procedure] *)
Definition StaticMacPatchSchema : fields :=
  [(Common_MAC_ADDRESS, VALID_OPTIONAL (VALID_JSON JSON_STRING));
   (StaticMac_VLAN_ID, VALID_OPTIONAL (VALID_NUMERIC_TYPED (UINT32 None None)))].

(** [StaticMacCollectionPostSchema::get_procedure] *)
Definition StaticMacCollectionPostSchema : fields :=
  [(Common_MAC_ADDRESS, VALID_JSON JSON_STRING);
   (StaticMac_VLAN_ID, VALID_OPTIONAL (VALID_NULLABLE (VALID_NUMERIC_TYPED (UINT32 None None))))].

(** [StoragePoolPostSchema::CapacitySourceSchema::get_procedure] *)
Definition StoragePoolPostSchema_CapacitySourceSchema : fields :=
  [(Swordfish_PROVIDING_DRIVES, VALID_ARRAY_SIZE_OF (VALID_ATTRIBUTE SimpleObjectSchema) 1 4294967295)].

(** [StoragePoolPostSchema::get_procedure] *)
Definition StoragePoolPostSchema : fields :=
  [(Swordfish_BLOCK_SIZE_BYTES, VALID_NUMERIC_TYPED (UINT64 None None));
   (Swordfish_CAPACITY_SOURCES, VALID_ARRAY_SIZE_OF (VALID_ATTRIBUTE StoragePoolPostSchema_CapacitySourceSchema) 1 1)].

(** [StorageSubsystemPatchSchema::get_procedure] *)
Definition StorageSubsystemPatchSchema : fields :=
  [(StorageSubsystem_ASSET_TAG, VALID_OPTIONAL (VALID_JSON JSON_STRING))].

(** [SubscriptionCollectionPostSchema::get_procedure] *)
Definition SubscriptionCollectionPostSchema : fields :=
  [(Common_NAME, VALID_JSON JSON_STRING);
   (EventSubscription_DESTINATION, VALID_JSON JSON_STRING);
   (EventSubscription_EVENT_TYPES, VALID_ARRAY_OF (VALID_ENUM (is_allowable_value EventType) EventType));
   (EventSubscription_CONTEXT, VALID_JSON JSON_STRING);
   (EventSubscription_PROTOCOL, VALID_ENUM (is_allowable_value SubscriptionProtocol) SubscriptionProtocol);
   (EventSubscription_ORIGIN_RESOURCES, VALID_OPTIONAL (VALID_NULLABLE (VALID_ARRAY_OF (VALID_ATTRIBUTE SimpleObjectSchema))))].

(** [SwitchPatchSchema::get_procedure] *)
Definition SwitchPatchSchema : fields :=
  [(Common_ASSET_TAG, VALID_OPTIONAL (VALID_JSON JSON_STRING))].

(** [SystemPatchSchema::BootSchema::get_procedure] *)
Definition SystemPatchSchema_BootSchema : fields :=
  [(System_BOOT_SOURCE_OVERRIDE_ENABLED, VALID_OPTIONAL (VALID_ENUM (is_allowable_value BootOverride) BootOverride));
   (System_BOOT_SOURCE_OVERRIDE_TARGET, VALID_OPTIONAL (VALID_ENUM (is_allowable_value BootOverrideTarget) BootOverrideTarget));
   (System_BOOT_SOURCE_OVERRIDE_MODE, VALID_OPTIONAL (VALID_ENUM (is_allowable_value BootOverrideMode) BootOverrideMode))].

(** [SystemPatchSchema::OemSchema::RackScaleSchema::PerformanceConfigurationSchema::get_procedure] *)
Definition SystemPatchSchema_OemSchema_RackScaleSchema_PerformanceConfigurationSchema : fields :=
  [(Common_CURRENT_CONFIGURATION_ID, VALID_OPTIONAL (VALID_JSON JSON_INTEGER))].

(** [SystemPatchSchema::OemSchema::RackScaleSchema::get_procedure] *)
Definition SystemPatchSchema_OemSchema_RackScaleSchema : fields :=
  [(System_USER_MODE_ENABLED, VALID_OPTIONAL (VALID_JSON JSON_BOOLEAN));
   (Common_PERFORMANCE_CONFIGURATION, VALID_OPTIONAL (VALID_ATTRIBUTE SystemPatchSchema_OemSchema_RackScaleSchema_PerformanceConfigurationSchema))].

(** [SystemPatchSchema::OemSchema::get_procedure] *)
Definition SystemPatchSchema_OemSchema : fields :=
  [(Common_RACKSCALE, VALID_OPTIONAL (VALID_ATTRIBUTE SystemPatchSchema_OemSchema_RackScaleSchema))].

(** [SystemPatchSchema::get_procedure] *)
Definition SystemPatchSchema : fields :=
  [(System_BOOT, VALID_OPTIONAL (VALID_ATTRIBUTE SystemPatchSchema_BootSchema));
   (Common_OEM, VALID_OPTIONAL (VALID_ATTRIBUTE SystemPatchSchema_OemSchema));
   (Common_ASSET_TAG, VALID_OPTIONAL (VALID_JSON JSON_STRING))].

(** [SystemDcpmemSecureErasePostSchema::get_procedure] *)
Definition SystemDcpmemSecureErasePostSchema : fields :=
  [(System_RESET_CONFIGURATION, VALID_OPTIONAL (VALID_JSON JSON_BOOLEAN));
   (System_ERASE_CONFIGURATION_KEYS, VALID_OPTIONAL (VALID_JSON JSON_BOOLEAN))].

(** [ThermalPatchSchema::OemSchema::RackScaleSchema::get_procedure] *)
Definition ThermalPatchSchema_OemSchema_RackScaleSchema : fields :=
  [(ThermalZone_DESIRED_SPEED_PWM, VALID_OPTIONAL (VALID_NUMERIC_TYPED (UINT32 None None)))].

(** [ThermalPatchSchema::OemSchema::get_procedure] *)
Definition ThermalPatchSchema_OemSchema : fields :=
  [(Common_RACKSCALE, VALID_OPTIONAL (VALID_ATTRIBUTE ThermalPatchSchema_OemSchema_RackScaleSchema))].

(** [ThermalPatchSchema::get_procedure] *)
Definition ThermalPatchSchema : fields :=
  [(Common_OEM, VALID_OPTIONAL (VALID_ATTRIBUTE ThermalPatchSchema_OemSchema))].

(** [VlanNetworkInterfacePatchSchema::get_procedure] *)
Definition VlanNetworkInterfacePatchSchema : fields :=
  [(Vlan_VLAN_ID, VALID_OPTIONAL (VALID_NUMERIC_TYPED (INT64 (Some 0) (Some 4094))))].

(** [VlanNetworkInterfaceCollectionPostSchema::OemSchema::RackScaleSchema::get_procedure] *)
Definition VlanNetworkInterfaceCollectionPostSchema_OemSchema_RackScaleSchema : fields :=
  [(Vlan_TAGGED, VALID_JSON JSON_BOOLEAN)].

(** [VlanNetworkInterfaceCollectionPostSchema::OemSchema::get_procedure] *)
Definition VlanNetworkInterfaceCollectionPostSchema_OemSchema : fields :=
  [(Common_RACKSCALE, VALID_ATTRIBUTE VlanNetworkInterfaceCollectionPostSchema_OemSchema_RackScaleSchema)].

(** [VlanNetworkInterfaceCollectionPostSchema::get_procedure] *)
Definition VlanNetworkInterfaceCollectionPostSchema : fields :=
  [(Common_NAME, VALID_OPTIONAL (VALID_JSON JSON_STRING));
   (Common_OEM, VALID_ATTRIBUTE VlanNetworkInterfaceCollectionPostSchema_OemSchema);
   (Vlan_VLAN_ENABLE, VALID_JSON JSON_BOOLEAN);
   (Vlan_VLAN_ID, VALID_NUMERIC_TYPED (UINT32 None None))].

(** [VolumePostSchema::CapacitySourceSchema::get_procedure] *)
Definition VolumePostSchema_CapacitySourceSchema : fields :=
  [(Swordfish_PROVIDING_POOLS, VALID_OPTIONAL (VALID_NULLABLE (VALID_ARRAY_SIZE_OF (VALID_ATTRIBUTE SimpleObjectSchema) 0 1)))].

(** [VolumePostSchema::ReplicaInfoSchema::get_procedure] *)
Definition VolumePostSchema_ReplicaInfoSchema : fields :=
  [(ReplicaInfo_REPLICA_TYPE, VALID_NULLABLE (VALID_ENUM (is_allowable_value ReplicaType) ReplicaType));
   (ReplicaInfo_REPLICA, VALID_NULLABLE (VALID_ATTRIBUTE SimpleObjectSchema))].

(** [VolumePostSchema::OemSchema::RackScaleSchema::get_procedure] *)
Definition VolumePostSchema_OemSchema_RackScaleSchema : fields :=
  [(Swordfish_BOOTABLE, VALID_OPTIONAL (VALID_NULLABLE (VALID_JSON JSON_BOOLEAN)))].

(** [VolumePostSchema::OemSchema::get_procedure] *)
Definition VolumePostSchema_OemSchema : fields :=
  [(Common_RACKSCALE, VALID_OPTIONAL (VALID_ATTRIBUTE VolumePostSchema_OemSchema_RackScaleSchema))].

(** [VolumePostSchema::get_procedure] *)
Definition VolumePostSchema : fields :=
  [(Common_IDENTIFIERS, VALID_OPTIONAL (VALID_ARRAY_OF (VALID_ATTRIBUTE IdentifierSchema)));
   (Swordfish_CAPACITY_BYTES, VALID_NUMERIC_TYPED (INT64 (Some 0) (Some 9223372036854775807)));
   (Swordfish_CAPACITY_SOURCES, VALID_OPTIONAL (VALID_NULLABLE (VALID_ARRAY_SIZE_OF (VALID_ATTRIBUTE VolumePostSchema_CapacitySourceSchema) 0 1)));
   (Swordfish_ACCESS_CAPABILITIES, VALID_OPTIONAL (VALID_NULLABLE (VALID_ARRAY_OF (VALID_ENUM (is_allowable_value AccessCapability) AccessCapability))));
   (Swordfish_REPLICA_INFOS, VALID_OPTIONAL (VALID_NULLABLE (VALID_ARRAY_SIZE_OF (VALID_ATTRIBUTE VolumePostSchema_ReplicaInfoSchema) 0 1)));
   (Common_OEM, VALID_OPTIONAL (VALID_ATTRIBUTE VolumePostSchema_OemSchema))].

(** [VolumePatchSchema::OemSchema::RackScaleSchema::get_procedure] *)
Definition VolumePatchSchema_OemSchema_RackScaleSchema : fields :=
  [(Swordfish_BOOTABLE, VALID_OPTIONAL (VALID_NULLABLE (VALID_JSON JSON_BOOLEAN)))].

(** [VolumePatchSchema::OemSchema::get_procedure] *)
Definition VolumePatchSchema_OemSchema : fields :=
  [(Common_RACKSCALE, VALID_OPTIONAL (VALID_ATTRIBUTE VolumePatchSchema_OemSchema_RackScaleSchema))].

(** [VolumePatchSchema::CapacitySchema::DataSchema::get_procedure] *)
Definition VolumePatchSchema_CapacitySchema_DataSchema : fields :=
  [(Data_ALLOCATED_BYTES, VALID_OPTIONAL (VALID_NUMERIC_TYPED (INT64 (Some 0) (Some 9223372036854775807))))].

(** [VolumePatchSchema::CapacitySchema::get_procedure] *)
Definition VolumePatchSchema_CapacitySchema : fields :=
  [(Data_DATA, VALID_OPTIONAL (VALID_ATTRIBUTE VolumePatchSchema_CapacitySchema_DataSchema))].

(** [VolumePatchSchema::get_procedure] *)
Definition VolumePatchSchema : fields :=
  [(Swordfish_CAPACITY, VALID_OPTIONAL (VALID_ATTRIBUTE VolumePatchSchema_CapacitySchema));
   (Common_OEM, VALID_OPTIONAL (VALID_ATTRIBUTE VolumePatchSchema_OemSchema))].

(** [VolumeInitializePostSchema::get_procedure] *)
Definition VolumeInitializePostSchema : fields :=
  [(Swordfish_INITIALIZE_TYPE, VALID_OPTIONAL (VALID_ENUM (is_allowable_value VolumeInitializationType) VolumeInitializationType))].

(** [ZonePatchSchema::LinksSchema::get_procedure] *)
Definition ZonePatchSchema_LinksSchema : fields :=
  [(Fabric_ENDPOINTS, VALID_ARRAY_OF (VALID_ATTRIBUTE SimpleObjectSchema))].

(** [ZonePatchSchema::get_procedure] *)
Definition ZonePatchSchema : fields :=
  [(Common_LINKS, VALID_OPTIONAL (VALID_ATTRIBUTE ZonePatchSchema_LinksSchema))].

(** [ZonesCollectionPostSchema::LinksSchema::get_procedure] *)
Definition ZonesCollectionPostSchema_LinksSchema : fields :=
  [(Fabric_ENDPOINTS, VALID_ARRAY_OF (VALID_ATTRIBUTE SimpleObjectSchema));
   (Zone_INVOLVED_SWITCHES, VALID_OPTIONAL (VALID_NULLABLE (VALID_ARRAY_OF (VALID_ATTRIBUTE SimpleObjectSchema))))].

(** [ZonesCollectionPostSchema::get_procedure] *)
Definition ZonesCollectionPostSchema : fields :=
  [(Common_LINKS, VALID_OPTIONAL (VALID_ATTRIBUTE ZonesCollectionPostSchema_LinksSchema))].

(** Every declaration of the sources, by class. *)
Definition rest_schemas : list (string * fields) :=
  [("SimpleObjectSchema", SimpleObjectSchema); ("AclPostSchema", AclPostSchema);
   ("ChangeTPMStatePostSchema", ChangeTPMStatePostSchema);
   ("ChassisPatchSchema::OemSchema::RackScaleSchema::LocationSchema", ChassisPatchSchema_OemSchema_RackScaleSchema_LocationSchema);
   ("ChassisPatchSchema::OemSchema::RackScaleSchema", ChassisPatchSchema_OemSchema_RackScaleSchema);
   ("ChassisPatchSchema::OemSchema", ChassisPatchSchema_OemSchema);
   ("ChassisPatchSchema", ChassisPatchSchema); ("IdentifierSchema", IdentifierSchema);
   ("EmptyObjectSchema", EmptyObjectSchema);
   ("DrivePatchSchema::OemSchema::RackScaleSchema", DrivePatchSchema_OemSchema_RackScaleSchema);
   ("DrivePatchSchema::OemSchema", DrivePatchSchema_OemSchema);
   ("DrivePatchSchema", DrivePatchSchema);
   ("EndpointPatchSchema::OemSchema::RackScaleSchema::AuthSchema", EndpointPatchSchema_OemSchema_RackScaleSchema_AuthSchema);
   ("EndpointPatchSchema::OemSchema::RackScaleSchema", EndpointPatchSchema_OemSchema_RackScaleSchema);
   ("EndpointPatchSchema::OemSchema", EndpointPatchSchema_OemSchema);
   ("EndpointPatchSchema", EndpointPatchSchema);
   ("EndpointsCollectionPostSchema::EntitySchema::OemSchema::RackScaleSchema", EndpointsCollectionPostSchema_EntitySchema_OemSchema_RackScaleSchema);
   ("EndpointsCollectionPostSchema::EntitySchema::OemSchema", EndpointsCollectionPostSchema_EntitySchema_OemSchema);
   ("EndpointsCollectionPostSchema::EntitySchema", EndpointsCollectionPostSchema_EntitySchema);
   ("EndpointsCollectionPostSchema::OemSchema::RackScaleSchema::AuthSchema", EndpointsCollectionPostSchema_OemSchema_RackScaleSchema_AuthSchema);
   ("EndpointsCollectionPostSchema::OemSchema::RackScaleSchema", EndpointsCollectionPostSchema_OemSchema_RackScaleSchema);
   ("EndpointsCollectionPostSchema::OemSchema", EndpointsCollectionPostSchema_OemSchema);
   ("EndpointsCollectionPostSchema::IpTransportDetailSchema::IPv6Schema", EndpointsCollectionPostSchema_IpTransportDetailSchema_IPv6Schema);
   ("EndpointsCollectionPostSchema::IpTransportDetailSchema::IPv4Schema", EndpointsCollectionPostSchema_IpTransportDetailSchema_IPv4Schema);
   ("EndpointsCollectionPostSchema::IpTransportDetailSchema", EndpointsCollectionPostSchema_IpTransportDetailSchema);
   ("EndpointsCollectionPostSchema::LinksSchema::OemSchema::RackScaleSchema", EndpointsCollectionPostSchema_LinksSchema_OemSchema_RackScaleSchema);
   ("EndpointsCollectionPostSchema::LinksSchema::OemSchema", EndpointsCollectionPostSchema_LinksSchema_OemSchema);
   ("EndpointsCollectionPostSchema::LinksSchema", EndpointsCollectionPostSchema_LinksSchema);
   ("EndpointsCollectionPostSchema", EndpointsCollectionPostSchema);
   ("EthernetSwitchPatchSchema::QosApplicationProtocolSchema", EthernetSwitchPatchSchema_QosApplicationProtocolSchema);
   ("EthernetSwitchPatchSchema::QosPriorityMappingSchema", EthernetSwitchPatchSchema_QosPriorityMappingSchema);
   ("EthernetSwitchPatchSchema::QosBandwidthAllocationSchema", EthernetSwitchPatchSchema_QosBandwidthAllocationSchema);
   ("EthernetSwitchPatchSchema::DcbxSharedConfigurationSchema", EthernetSwitchPatchSchema_DcbxSharedConfigurationSchema);
   ("EthernetSwitchPatchSchema", EthernetSwitchPatchSchema);
   ("EthernetSwitchPortPatchSchema::LinksSchema", EthernetSwitchPortPatchSchema_LinksSchema);
   ("EthernetSwitchPortPatchSchema::PriorityFlowControlSchema", EthernetSwitchPortPatchSchema_PriorityFlowControlSchema);
   ("EthernetSwitchPortPatchSchema", EthernetSwitchPortPatchSchema);
   ("EthernetSwitchPortCollectionPostSchema::LinksSchema", EthernetSwitchPortCollectionPostSchema_LinksSchema);
   ("EthernetSwitchPortCollectionPostSchema", EthernetSwitchPortCollectionPostSchema);
   ("NetworkDeviceFunctionPatchSchema::EthernetObjectSchema", NetworkDeviceFunctionPatchSchema_EthernetObjectSchema);
   ("NetworkDeviceFunctionPatchSchema::IscsiBootObjectSchema", NetworkDeviceFunctionPatchSchema_IscsiBootObjectSchema);
   ("NetworkDeviceFunctionPatchSchema", NetworkDeviceFunctionPatchSchema);
   ("PcieDevicePatchSchema", PcieDevicePatchSchema);
   ("ProcessorPatchSchema::OemSchema::RackScaleSchema::FpgaSchema", ProcessorPatchSchema_OemSchema_RackScaleSchema_FpgaSchema);
   ("ProcessorPatchSchema::OemSchema::RackScaleSchema", ProcessorPatchSchema_OemSchema_RackScaleSchema);
   ("ProcessorPatchSchema::OemSchema", ProcessorPatchSchema_OemSchema);
   ("ProcessorPatchSchema", ProcessorPatchSchema);
   ("RequestStateChangePostSchema", RequestStateChangePostSchema);
   ("ResetPostSchema", ResetPostSchema);
   ("RulePatchSchema::ConditionSchema::IpSchema", RulePatchSchema_ConditionSchema_IpSchema);
   ("RulePatchSchema::ConditionSchema::MacSchema", RulePatchSchema_ConditionSchema_MacSchema);
   ("RulePatchSchema::ConditionSchema::VlanIdSchema", RulePatchSchema_ConditionSchema_VlanIdSchema);
   ("RulePatchSchema::ConditionSchema::PortSchema", RulePatchSchema_ConditionSchema_PortSchema);
   ("RulePatchSchema::ConditionSchema", RulePatchSchema_ConditionSchema);
   ("RulePatchSchema", RulePatchSchema);
   ("RulePostSchema::ConditionSchema::IpSchema", RulePostSchema_ConditionSchema_IpSchema);
   ("RulePostSchema::ConditionSchema::MacSchema", RulePostSchema_ConditionSchema_MacSchema);
   ("RulePostSchema::ConditionSchema::VlanIdSchema", RulePostSchema_ConditionSchema_VlanIdSchema);
   ("RulePostSchema::ConditionSchema::PortSchema", RulePostSchema_ConditionSchema_PortSchema);
   ("RulePostSchema::ConditionSchema", RulePostSchema_ConditionSchema);
   ("RulePostSchema", RulePostSchema);
   ("SessionCollectionPostSchema", SessionCollectionPostSchema);
   ("SessionServicePatchSchema", SessionServicePatchSchema);
   ("SimpleUpdatePostSchema", SimpleUpdatePostSchema);
   ("StaticMacPatchSchema", StaticMacPatchSchema);
   ("StaticMacCollectionPostSchema", StaticMacCollectionPostSchema);
   ("StoragePoolPostSchema::CapacitySourceSchema", StoragePoolPostSchema_CapacitySourceSchema);
   ("StoragePoolPostSchema", StoragePoolPostSchema);
   ("StorageSubsystemPatchSchema", StorageSubsystemPatchSchema);
   ("SubscriptionCollectionPostSchema", SubscriptionCollectionPostSchema);
   ("SwitchPatchSchema", SwitchPatchSchema);
   ("SystemPatchSchema::BootSchema", SystemPatchSchema_BootSchema);
   ("SystemPatchSchema::OemSchema::RackScaleSchema::PerformanceConfigurationSchema", SystemPatchSchema_OemSchema_RackScaleSchema_PerformanceConfigurationSchema);
   ("SystemPatchSchema::OemSchema::RackScaleSchema", SystemPatchSchema_OemSchema_RackScaleSchema);
   ("SystemPatchSchema::OemSchema", SystemPatchSchema_OemSchema);
   ("SystemPatchSchema", SystemPatchSchema);
   ("SystemDcpmemSecureErasePostSchema", SystemDcpmemSecureErasePostSchema);
   ("ThermalPatchSchema::OemSchema::RackScaleSchema", ThermalPatchSchema_OemSchema_RackScaleSchema);
   ("ThermalPatchSchema::OemSchema", ThermalPatchSchema_OemSchema);
   ("ThermalPatchSchema", ThermalPatchSchema);
   ("VlanNetworkInterfacePatchSchema", VlanNetworkInterfacePatchSchema);
   ("VlanNetworkInterfaceCollectionPostSchema::OemSchema::RackScaleSchema", VlanNetworkInterfaceCollectionPostSchema_OemSchema_RackScaleSchema);
   ("VlanNetworkInterfaceCollectionPostSchema::OemSchema", VlanNetworkInterfaceCollectionPostSchema_OemSchema);
   ("VlanNetworkInterfaceCollectionPostSchema", VlanNetworkInterfaceCollectionPostSchema);
   ("VolumePostSchema::CapacitySourceSchema", VolumePostSchema_CapacitySourceSchema);
   ("VolumePostSchema::ReplicaInfoSchema", VolumePostSchema_ReplicaInfoSchema);
   ("VolumePostSchema::OemSchema::RackScaleSchema", VolumePostSchema_OemSchema_RackScaleSchema);
   ("VolumePostSchema::OemSchema", VolumePostSchema_OemSchema);
   ("VolumePostSchema", VolumePostSchema);
   ("VolumePatchSchema::OemSchema::RackScaleSchema", VolumePatchSchema_OemSchema_RackScaleSchema);
   ("VolumePatchSchema::OemSchema", VolumePatchSchema_OemSchema);
   ("VolumePatchSchema::CapacitySchema::DataSchema", VolumePatchSchema_CapacitySchema_DataSchema);
   ("VolumePatchSchema::CapacitySchema", VolumePatchSchema_CapacitySchema);
   ("VolumePatchSchema", VolumePatchSchema);
   ("VolumeInitializePostSchema", VolumeInitializePostSchema);
   ("ZonePatchSchema::LinksSchema", ZonePatchSchema_LinksSchema);
   ("ZonePatchSchema", ZonePatchSchema);
   ("ZonesCollectionPostSchema::LinksSchema", ZonesCollectionPostSchema_LinksSchema);
   ("ZonesCollectionPostSchema", ZonesCollectionPostSchema)].

(** Every request schema of the REST server is sound: its declaration is
    read by the variadic constructor as it is meant, its patterns are regular
    expressions, and the validator accepts a document exactly when the document
    conforms to the declaration, at every level of nesting. *)
Theorem rest_schemas_exact `{JsonLaws J, Platform} :
  Forall (λ schema : string * fields, ∃ vs, create_validators (declare schema.2) = Some vs ∧
    ∀ request : J, validate vs request = Valid ↔ conforms_request schema.2 request) rest_schemas.
Proof.
  assert (forallb (λ schema, checked schema.2) rest_schemas = true) as Hall by (vm_compute; reflexivity).
  apply list.Forall_forall. intros schema Hin. apply checked_accepts. rewrite forallb_forall in Hall.
  by apply Hall, list_elem_of_In.
Qed.

Module RestSchemasExample.
Import SchemaExample.

(** The schema of a session, at the trees of Json. *)
Lemma rest_schemas_exact_witness :
  ∃ vs, create_validators (declare SessionCollectionPostSchema) = Some vs ∧
    ∀ request : Tree.t,
      validate vs request = Valid ↔
      conforms_request SessionCollectionPostSchema request.
Proof.
  pose proof (rest_schemas_exact (J:=Tree.t)) as Hall. rewrite list.Forall_forall in Hall.
  apply (Hall ("SessionCollectionPostSchema", SessionCollectionPostSchema)).
  repeat first [apply list_elem_of_here|apply list_elem_of_further].
Defined.

End RestSchemasExample.
