(* ===== verification/RequestSchemas.v ===== *)
(** The schemas of the requests to the agents
    (common/agent-framework/include/agent-framework/module/requests): the
    declaration in each [get_procedure], and which requests the validators built
    from them accept. *)

From Stdlib Require Import ZArith.
From S2P Require Import Prelude.
From S2P Require Import Json.
From S2P Require Import Regex.
From S2P Require Import Validators.
From S2P Require Import Schema.
From S2P Require Import SchemaEnums.

Open Scope string_scope.
Open Scope list_scope.
Open Scope Z_scope.

(** ** Field names

    The arrays of agent-framework/module/constants, each with an
    address of its own. *)

Abbreviation name_at a t := {| address := a; text := t |}.

Definition Acl_ACL := name_at 1 "acl".
Definition Acl_OEM := name_at 2 "oem".
Definition Acl_PORTS := name_at 3 "ports".
Definition Acl_SWITCH := name_at 4 "switch".
Definition AclRule_ACTION := name_at 5 "action".
Definition AclRule_DESTINATION_IP := name_at 6 "destinationIp".
Definition AclRule_DESTINATION_L4_PORT := name_at 7 "destinationL4Port".
Definition AclRule_DESTINATION_MAC := name_at 8 "destinationMac".
Definition AclRule_FORWARD_MIRROR_PORT := name_at 9 "forwardMirrorPort".
Definition AclRule_MIRRORED_PORTS := name_at 10 "mirroredPorts".
Definition AclRule_MIRROR_TYPE := name_at 11 "mirrorType".
Definition AclRule_OEM := name_at 12 "oem".
Definition AclRule_PROTOCOL := name_at 13 "protocol".
Definition AclRule_RULE := name_at 14 "rule".
Definition AclRule_RULE_ID := name_at 15 "ruleId".
Definition AclRule_SOURCE_IP := name_at 16 "sourceIp".
Definition AclRule_SOURCE_L4_PORT := name_at 17 "sourceL4Port".
Definition AclRule_SOURCE_MAC := name_at 18 "sourceMac".
Definition AclRule_VLAN_ID := name_at 19 "vlanId".
Definition Attach_CAPABILITIES := name_at 20 "capabilities".
Definition Attach_GAMI_ID := name_at 21 "gamiId".
Definition Attach_IPV4_ADDRESS := name_at 22 "ipv4address".
Definition Attach_PORT := name_at 23 "port".
Definition Attach_VENDOR := name_at 24 "vendor".
Definition Attach_VERSION := name_at 25 "version".
Definition AuthorizationCertificate_TYPE := name_at 26 "certificateType".
Definition Capacity_ALLOCATED_BYTES := name_at 27 "allocatedBytes".
Definition Capacity_CONSUMED_BYTES := name_at 28 "consumedBytes".
Definition Capacity_GUARANTEED_BYTES := name_at 29 "guaranteedBytes".
Definition Capacity_PROVISIONED_BYTES := name_at 30 "provisionedBytes".
Definition CapacitySource_PROVIDING_DRIVES := name_at 31 "providingDrives".
Definition CapacitySource_PROVIDING_POOLS := name_at 32 "providingPools".
Definition CapacitySource_PROVIDING_VOLUMES := name_at 33 "providingVolumes".
Definition Chassis_CHASSIS := name_at 34 "chassis".
Definition Collection_COMPONENT := name_at 35 "component".
Definition Collection_NAME := name_at 36 "name".
Definition Component_ATTRIBUTES := name_at 37 "attributes".
Definition Component_COMPONENT := name_at 38 "component".
Definition ComponentNotification_COMPONENT := name_at 39 "component".
Definition ComponentNotification_GAMI_ID := name_at 40 "gamiId".
Definition ComponentNotification_NOTIFICATION := name_at 41 "notification".
Definition ComponentNotification_NOTIFICATIONS := name_at 42 "notifications".
Definition ComponentNotification_PARENT := name_at 43 "parent".
Definition ComponentNotification_TYPE := name_at 44 "type".
Definition ConnectedEntity_ENTITY := name_at 45 "entity".
Definition ConnectedEntity_IDENTIFIERS := name_at 46 "identifiers".
Definition ConnectedEntity_LUN := name_at 47 "lun".
Definition ConnectedEntity_ROLE := name_at 48 "role".
Definition Drive_DRIVE := name_at 49 "drive".
Definition Endpoint_CONNECTED_ENTITIES := name_at 50 "connectedEntities".
Definition Endpoint_ENDPOINT := name_at 51 "endpoint".
Definition Endpoint_FABRIC := name_at 52 "fabric".
Definition Endpoint_IDENTIFIERS := name_at 53 "identifiers".
Definition Endpoint_IP_TRANSPORT_DETAILS := name_at 54 "ipTransportDetails".
Definition Endpoint_OEM := name_at 55 "oem".
Definition Endpoint_PASSWORD := name_at 56 "password".
Definition Endpoint_PORTS := name_at 57 "ports".
Definition Endpoint_USERNAME := name_at 58 "username".
Definition EthernetSwitch_SWITCH := name_at 59 "switch".
Definition EthernetSwitchPort_MEMBERS := name_at 60 "members".
Definition EthernetSwitchPort_MODE := name_at 61 "mode".
Definition EthernetSwitchPort_OEM := name_at 62 "oem".
Definition EthernetSwitchPort_PORT := name_at 63 "port".
Definition EthernetSwitchPort_PORT_IDENTIFIER := name_at 64 "portIdentifier".
Definition EthernetSwitchPort_SWITCH := name_at 65 "switch".
Definition EthernetSwitchPortVlan_OEM := name_at 66 "oem".
Definition EthernetSwitchPortVlan_PORT := name_at 67 "port".
Definition EthernetSwitchPortVlan_PORT_VLAN := name_at 68 "portVlan".
Definition EthernetSwitchPortVlan_TAGGED := name_at 69 "tagged".
Definition EthernetSwitchPortVlan_VLAN_ID := name_at 70 "vlanId".
Definition EthernetSwitchPortVlan_VLAN_NAME := name_at 71 "vlanName".
Definition Fabric_FABRIC := name_at 72 "fabric".
Definition Fan_FAN := name_at 73 "fan".
Definition HeartBeat_GAMI_ID := name_at 74 "gamiId".
Definition Identifier_DURABLE_NAME := name_at 75 "durableName".
Definition Identifier_DURABLE_NAME_FORMAT := name_at 76 "durableNameFormat".
Definition IpTransportDetail_INTERFACE := name_at 77 "interface".
Definition IpTransportDetail_IPV4_ADDRESS := name_at 78 "ipv4Address".
Definition IpTransportDetail_IPV6_ADDRESS := name_at 79 "ipv6Address".
Definition IpTransportDetail_PORT := name_at 80 "port".
Definition IpTransportDetail_PROTOCOL := name_at 81 "protocol".
Definition Ipv4Address_ADDRESS := name_at 82 "address".
Definition Ipv4Address_ADDRESS_ORIGIN := name_at 83 "addressOrigin".
Definition Ipv4Address_GATEWAY := name_at 84 "gateway".
Definition Ipv4Address_SUBNET_MASK := name_at 85 "subnetMask".
Definition Ipv6Address_ADDRESS := name_at 86 "address".
Definition Ipv6Address_ADDRESS_ORIGIN := name_at 87 "addressOrigin".
Definition Ipv6Address_ADDRESS_STATE := name_at 88 "addressState".
Definition Ipv6Address_PREFIX_LENGTH := name_at 89 "prefixLength".
Definition LogEntry_LOG_ENTRY := name_at 90 "entry".
Definition LogService_SERVICE := name_at 91 "service".
Definition Manager_MANAGER := name_at 92 "manager".
Definition Memory_MEMORY := name_at 93 "memory".
Definition MemoryChunks_MEMORY_CHUNKS := name_at 94 "memoryChunks".
Definition MemoryDomain_MEMORY_DOMAIN := name_at 95 "memoryDomain".
Definition Metric_COMPONENT := name_at 96 "component".
Definition Metric_METRIC := name_at 97 "metric".
Definition Metric_NAME := name_at 98 "name".
Definition MetricDefinition_METRIC_DEFINITION := name_at 99 "metricDefinition".
Definition NetworkDevice_DEVICE := name_at 100 "device".
Definition NetworkDeviceFunction_FUNCTION := name_at 101 "function".
Definition NetworkInterface_INTERFACE := name_at 102 "interface".
Definition PcieDevice_DEVICE := name_at 103 "device".
Definition PcieFunction_FUNCTION := name_at 104 "function".
Definition Port_PORT := name_at 105 "port".
Definition PowerZone_ZONE := name_at 106 "zone".
Definition Processor_PROCESSOR := name_at 107 "processor".
Definition Psu_PSU := name_at 108 "psu".
Definition RemoteEthernetSwitch_SWITCH := name_at 109 "switch".
Definition ReplicaInfo_REPLICA := name_at 110 "replica".
Definition ReplicaInfo_REPLICA_READ_ONLY_ACCESS := name_at 111 "replicaReadOnlyAccess".
Definition ReplicaInfo_REPLICA_ROLE := name_at 112 "replicaRole".
Definition ReplicaInfo_REPLICA_TYPE := name_at 113 "replicaType".
Definition StaticMac_ADDRESS := name_at 114 "macAddress".
Definition StaticMac_OEM := name_at 115 "oem".
Definition StaticMac_PORT := name_at 116 "port".
Definition StaticMac_STATIC_MAC := name_at 117 "staticMac".
Definition StaticMac_VLAN_ID := name_at 118 "vlanId".
Definition StorageController_CONTROLLER := name_at 119 "controller".
Definition StoragePool_BLOCK_SIZE_BYTES := name_at 120 "blockSizeBytes".
Definition StoragePool_CAPACITY_SOURCES := name_at 121 "capacitySources".
Definition StoragePool_OEM := name_at 122 "oem".
Definition StoragePool_STORAGE_POOL := name_at 123 "storagePool".
Definition StorageService_SERVICE := name_at 124 "service".
Definition StorageSubsystem_STORAGE := name_at 125 "storage".
Definition Switch_SWITCH := name_at 126 "switch".
Definition SwitchPortMembers_MEMBERS := name_at 127 "members".
Definition SwitchPortMembers_OEM := name_at 128 "oem".
Definition SwitchPortMembers_PORT := name_at 129 "port".
Definition System_SYSTEM := name_at 130 "system".
Definition Task_TASK := name_at 131 "task".
Definition ThermalZone_ZONE := name_at 132 "zone".
Definition TrustedModule_TRUSTED_MODULE := name_at 133 "trustedModule".
Definition Vlan_SWITCH := name_at 134 "switch".
Definition Vlan_VLAN := name_at 135 "vlan".
Definition Vlan_VLAN_ID := name_at 136 "vlanId".
Definition Vlan_VLAN_NAME := name_at 137 "vlanName".
Definition Volume_ACCESS_CAPABILITIES := name_at 138 "accessCapabilities".
Definition Volume_BOOTABLE := name_at 139 "bootable".
Definition Volume_CAPACITY_BYTES := name_at 140 "capacityBytes".
Definition Volume_CAPACITY_SOURCES := name_at 141 "capacitySources".
Definition Volume_IDENTIFIERS := name_at 142 "identifiers".
Definition Volume_OEM := name_at 143 "oem".
Definition Volume_REPLICA_INFOS := name_at 144 "replicaInfos".
Definition Volume_VOLUME := name_at 145 "volume".
Definition Volume_VOLUME_TYPE := name_at 146 "volumeType".
Definition Zone_ENDPOINTS := name_at 147 "endpoints".
Definition Zone_FABRIC := name_at 148 "fabric".
Definition Zone_OEM := name_at 149 "oem".
Definition Zone_ZONE := name_at 150 "zone".

(** ** The declarations *)

(** [GetAuthorizationCertificate::get_procedure] *)
Definition GetAuthorizationCertificate : fields :=
  [(AuthorizationCertificate_TYPE, VALID_JSON JSON_STRING)].

(** [AddEndpoint::IPv4AddressSchema::get_procedure] *)
Definition AddEndpoint_IPv4AddressSchema : fields :=
  [(Ipv4Address_ADDRESS, VALID_REGEX patterns.IPAddresses_ADDRESS);
   (Ipv4Address_SUBNET_MASK, VALID_NULLABLE (VALID_REGEX patterns.IPAddresses_ADDRESS));
   (Ipv4Address_ADDRESS_ORIGIN, VALID_NULLABLE (VALID_ENUM (is_allowable_value Ipv4AddressOrigin) Ipv4AddressOrigin));
   (Ipv4Address_GATEWAY, VALID_NULLABLE (VALID_REGEX patterns.IPAddresses_ADDRESS))].

(** [AddEndpoint::IPv6AddressSchema::get_procedure] *)
Definition AddEndpoint_IPv6AddressSchema : fields :=
  [(Ipv6Address_ADDRESS, VALID_NULLABLE (VALID_REGEX patterns.IPv6Addresses_ADDRESS));
   (Ipv6Address_PREFIX_LENGTH, VALID_NULLABLE (VALID_NUMERIC_TYPED (UINT32 None None)));
   (Ipv6Address_ADDRESS_ORIGIN, VALID_NULLABLE (VALID_ENUM (is_allowable_value Ipv6AddressOrigin) Ipv6AddressOrigin));
   (Ipv6Address_ADDRESS_STATE, VALID_NULLABLE (VALID_ENUM (is_allowable_value Ipv6AddressState) Ipv6AddressState))].

(** [AddEndpoint::IpTransportDetailSchema::get_procedure] *)
Definition AddEndpoint_IpTransportDetailSchema : fields :=
  [(IpTransportDetail_PROTOCOL, VALID_NULLABLE (VALID_ENUM (is_allowable_value TransportProtocol) TransportProtocol));
   (IpTransportDetail_IPV4_ADDRESS, VALID_NULLABLE (VALID_ATTRIBUTE AddEndpoint_IPv4AddressSchema));
   (IpTransportDetail_IPV6_ADDRESS, VALID_NULLABLE (VALID_ATTRIBUTE AddEndpoint_IPv6AddressSchema));
   (IpTransportDetail_PORT, VALID_NULLABLE (VALID_NUMERIC_TYPED (UINT32 None None)));
   (IpTransportDetail_INTERFACE, VALID_NULLABLE VALID_UUID)].

(** [AddEndpoint::IdentifierSchema::get_procedure] *)
Definition AddEndpoint_IdentifierSchema : fields :=
  [(Identifier_DURABLE_NAME, VALID_REGEX patterns.Common_EMPTY_OR_NO_WHITESPACE_STRING);
   (Identifier_DURABLE_NAME_FORMAT, VALID_ENUM (is_allowable_value IdentifierType) IdentifierType)].

(** [AddEndpoint::ConnectedEntitySchema::get_procedure] *)
Definition AddEndpoint_ConnectedEntitySchema : fields :=
  [(ConnectedEntity_ROLE, VALID_ENUM (is_allowable_value EntityRole) EntityRole);
   (ConnectedEntity_ENTITY, VALID_NULLABLE VALID_UUID);
   (ConnectedEntity_IDENTIFIERS, VALID_ARRAY_OF (VALID_ATTRIBUTE AddEndpoint_IdentifierSchema));
   (ConnectedEntity_LUN, VALID_NULLABLE (VALID_NUMERIC_TYPED (INT64 None None)))].

(** [AddEndpoint::get_procedure] *)
Definition AddEndpoint : fields :=
  [(Endpoint_FABRIC, VALID_UUID);
   (Endpoint_IP_TRANSPORT_DETAILS, VALID_ARRAY_OF (VALID_ATTRIBUTE AddEndpoint_IpTransportDetailSchema));
   (Endpoint_IDENTIFIERS, VALID_ARRAY_OF (VALID_ATTRIBUTE AddEndpoint_IdentifierSchema));
   (Endpoint_CONNECTED_ENTITIES, VALID_ARRAY_OF (VALID_ATTRIBUTE AddEndpoint_ConnectedEntitySchema));
   (Endpoint_USERNAME, VALID_NULLABLE (VALID_JSON JSON_STRING));
   (Endpoint_PASSWORD, VALID_NULLABLE (VALID_JSON JSON_STRING));
   (Endpoint_PORTS, VALID_OPTIONAL (VALID_NULLABLE (VALID_ARRAY_OF VALID_UUID)));
   (Endpoint_OEM, VALID_OPTIONAL (VALID_JSON JSON_OBJECT))].

(** [AddZone::get_procedure] *)
Definition AddZone : fields :=
  [(Zone_FABRIC, VALID_JSON JSON_STRING);
   (Zone_ENDPOINTS, VALID_JSON JSON_ARRAY);
   (Zone_OEM, VALID_JSON JSON_OBJECT)].

(** [AddZoneEndpoints::get_procedure] *)
Definition AddZoneEndpoints : fields :=
  [(Zone_ZONE, VALID_JSON JSON_STRING);
   (Zone_ENDPOINTS, VALID_JSON JSON_ARRAY);
   (Zone_OEM, VALID_JSON JSON_OBJECT)].

(** [DeleteDrive::get_procedure] *)
Definition DeleteDrive : fields :=
  [(Drive_DRIVE, VALID_UUID)].

(** [DeleteEndpoint::get_procedure] *)
Definition DeleteEndpoint : fields :=
  [(Endpoint_ENDPOINT, VALID_UUID)].

(** [DeleteTask::get_procedure] *)
Definition DeleteTask : fields :=
  [(Task_TASK, VALID_JSON JSON_STRING)].

(** [DeleteZone::get_procedure] *)
Definition DeleteZone : fields :=
  [(Zone_ZONE, VALID_UUID)].

(** [DeleteZoneEndpoints::get_procedure] *)
Definition DeleteZoneEndpoints : fields :=
  [(Zone_ZONE, VALID_JSON JSON_STRING);
   (Zone_ENDPOINTS, VALID_JSON JSON_ARRAY);
   (Zone_OEM, VALID_JSON JSON_OBJECT)].

(** [GetChassisInfo::get_procedure] *)
Definition GetChassisInfo : fields :=
  [(Chassis_CHASSIS, VALID_UUID)].

(** [GetCollection::get_procedure] *)
Definition GetCollection : fields :=
  [(Collection_COMPONENT, VALID_JSON JSON_STRING);
   (Collection_NAME, VALID_JSON JSON_STRING)].

(** [GetDriveInfo::get_procedure] *)
Definition GetDriveInfo : fields :=
  [(Drive_DRIVE, VALID_JSON JSON_STRING)].

(** [GetEndpointInfo::get_procedure] *)
Definition GetEndpointInfo : fields :=
  [(Endpoint_ENDPOINT, VALID_JSON JSON_STRING)].

(** [GetFabricInfo::get_procedure] *)
Definition GetFabricInfo : fields :=
  [(Fabric_FABRIC, VALID_JSON JSON_STRING)].

(** [GetLogEntryInfo::get_procedure] *)
Definition GetLogEntryInfo : fields :=
  [(LogEntry_LOG_ENTRY, VALID_UUID)].

(** [GetLogServiceInfo::get_procedure] *)
Definition GetLogServiceInfo : fields :=
  [(LogService_SERVICE, VALID_UUID)].

(** [GetManagerInfo::get_procedure] *)
Definition GetManagerInfo : fields :=
  [(Manager_MANAGER, VALID_UUID)].

(** [GetManagersCollection::get_procedure] *)
Definition GetManagersCollection : fields :=
  [].

(** [GetMetricDefinitionInfo::get_procedure] *)
Definition GetMetricDefinitionInfo : fields :=
  [(MetricDefinition_METRIC_DEFINITION, VALID_UUID)].

(** [GetMetricDefinitionsCollection::get_procedure] *)
Definition GetMetricDefinitionsCollection : fields :=
  [].

(** [GetMetrics::get_procedure] *)
Definition GetMetrics : fields :=
  [(Metric_METRIC, VALID_OPTIONAL (VALID_NULLABLE VALID_UUID));
   (Metric_COMPONENT, VALID_OPTIONAL (VALID_NULLABLE VALID_UUID));
   (MetricDefinition_METRIC_DEFINITION, VALID_OPTIONAL (VALID_NULLABLE VALID_UUID));
   (Metric_NAME, VALID_OPTIONAL (VALID_NULLABLE (VALID_JSON JSON_STRING)))].

(** [GetNetworkInterfaceInfo::get_procedure] *)
Definition GetNetworkInterfaceInfo : fields :=
  [(NetworkInterface_INTERFACE, VALID_JSON JSON_STRING)].

(** [GetPcieDeviceInfo::get_procedure] *)
Definition GetPcieDeviceInfo : fields :=
  [(PcieDevice_DEVICE, VALID_JSON JSON_STRING)].

(** [GetPcieFunctionInfo::get_procedure] *)
Definition GetPcieFunctionInfo : fields :=
  [(PcieFunction_FUNCTION, VALID_JSON JSON_STRING)].

(** [GetProcessorInfo::get_procedure] *)
Definition GetProcessorInfo : fields :=
  [(Processor_PROCESSOR, VALID_JSON JSON_STRING)].

(** [GetStorageSubsystemInfo::get_procedure] *)
Definition GetStorageSubsystemInfo : fields :=
  [(StorageSubsystem_STORAGE, VALID_JSON JSON_STRING)].

(** [GetSystemInfo::get_procedure] *)
Definition GetSystemInfo : fields :=
  [(System_SYSTEM, VALID_JSON JSON_STRING)].

(** [GetTaskInfo::get_procedure] *)
Definition GetTaskInfo : fields :=
  [(Task_TASK, VALID_UUID)].

(** [GetTaskResultInfo::get_procedure] *)
Definition GetTaskResultInfo : fields :=
  [(Task_TASK, VALID_JSON JSON_STRING)].

(** [GetTasksCollection::get_procedure] *)
Definition GetTasksCollection : fields :=
  [].

(** [GetZoneInfo::get_procedure] *)
Definition GetZoneInfo : fields :=
  [(Zone_ZONE, VALID_JSON JSON_STRING)].

(** [SetComponentAttributes::get_procedure] *)
Definition SetComponentAttributes : fields :=
  [(Component_COMPONENT, VALID_JSON JSON_STRING);
   (Component_ATTRIBUTES, VALID_JSON JSON_OBJECT)].

(** [GetMemoryChunksInfo::get_procedure] *)
Definition GetMemoryChunksInfo : fields :=
  [(MemoryChunks_MEMORY_CHUNKS, VALID_UUID)].

(** [GetMemoryDomainInfo::get_procedure] *)
Definition GetMemoryDomainInfo : fields :=
  [(MemoryDomain_MEMORY_DOMAIN, VALID_UUID)].

(** [GetMemoryInfo::get_procedure] *)
Definition GetMemoryInfo : fields :=
  [(Memory_MEMORY, VALID_JSON JSON_STRING)].

(** [GetNetworkDeviceFunctionInfo::get_procedure] *)
Definition GetNetworkDeviceFunctionInfo : fields :=
  [(NetworkDeviceFunction_FUNCTION, VALID_JSON JSON_STRING)].

(** [GetNetworkDeviceInfo::get_procedure] *)
Definition GetNetworkDeviceInfo : fields :=
  [(NetworkDevice_DEVICE, VALID_JSON JSON_STRING)].

(** [GetStorageControllerInfo::get_procedure] *)
Definition GetStorageControllerInfo : fields :=
  [(StorageController_CONTROLLER, VALID_JSON JSON_STRING)].

(** [GetTrustedModuleInfo::get_procedure] *)
Definition GetTrustedModuleInfo : fields :=
  [(TrustedModule_TRUSTED_MODULE, VALID_JSON JSON_STRING)].

(** [AddAcl::get_procedure] *)
Definition AddAcl : fields :=
  [(Acl_SWITCH, VALID_JSON JSON_STRING);
   (Acl_PORTS, VALID_JSON JSON_ARRAY);
   (Acl_OEM, VALID_JSON JSON_OBJECT)].

(** [AddAclPort::get_procedure] *)
Definition AddAclPort : fields :=
  [(Acl_ACL, VALID_JSON JSON_STRING);
   (Acl_PORTS, VALID_JSON JSON_ARRAY);
   (Acl_OEM, VALID_JSON JSON_OBJECT)].

(** [AddAclRule::get_procedure] *)
Definition AddAclRule : fields :=
  [(Acl_ACL, VALID_JSON JSON_STRING);
   (AclRule_RULE_ID, VALID_NULLABLE (VALID_OPTIONAL (VALID_JSON JSON_INTEGER)));
   (AclRule_ACTION, VALID_JSON JSON_STRING);
   (AclRule_FORWARD_MIRROR_PORT, VALID_NULLABLE (VALID_OPTIONAL (VALID_JSON JSON_STRING)));
   (AclRule_MIRRORED_PORTS, VALID_NULLABLE (VALID_OPTIONAL (VALID_JSON JSON_ARRAY)));
   (AclRule_MIRROR_TYPE, VALID_NULLABLE (VALID_OPTIONAL (VALID_JSON JSON_STRING)));
   (AclRule_VLAN_ID, VALID_NULLABLE (VALID_OPTIONAL (VALID_JSON JSON_OBJECT)));
   (AclRule_SOURCE_IP, VALID_NULLABLE (VALID_OPTIONAL (VALID_JSON JSON_OBJECT)));
   (AclRule_DESTINATION_IP, VALID_NULLABLE (VALID_OPTIONAL (VALID_JSON JSON_OBJECT)));
   (AclRule_SOURCE_MAC, VALID_NULLABLE (VALID_OPTIONAL (VALID_JSON JSON_OBJECT)));
   (AclRule_DESTINATION_MAC, VALID_NULLABLE (VALID_OPTIONAL (VALID_JSON JSON_OBJECT)));
   (AclRule_SOURCE_L4_PORT, VALID_NULLABLE (VALID_OPTIONAL (VALID_JSON JSON_OBJECT)));
   (AclRule_DESTINATION_L4_PORT, VALID_NULLABLE (VALID_OPTIONAL (VALID_JSON JSON_OBJECT)));
   (AclRule_PROTOCOL, VALID_NULLABLE (VALID_OPTIONAL (VALID_JSON JSON_INTEGER)));
   (AclRule_OEM, VALID_NULLABLE (VALID_OPTIONAL (VALID_JSON JSON_OBJECT)))].

(** [AddEthernetSwitchPort::get_procedure] *)
Definition AddEthernetSwitchPort : fields :=
  [(EthernetSwitchPort_SWITCH, VALID_JSON JSON_STRING);
   (EthernetSwitchPort_PORT_IDENTIFIER, VALID_JSON JSON_STRING);
   (EthernetSwitchPort_MODE, VALID_JSON JSON_STRING);
   (SwitchPortMembers_MEMBERS, VALID_JSON JSON_ARRAY);
   (EthernetSwitchPort_MEMBERS, VALID_JSON JSON_ARRAY);
   (EthernetSwitchPort_OEM, VALID_JSON JSON_OBJECT)].

(** [AddEthernetSwitchPortMembers::get_procedure] *)
Definition AddEthernetSwitchPortMembers : fields :=
  [(SwitchPortMembers_PORT, VALID_JSON JSON_STRING);
   (SwitchPortMembers_MEMBERS, VALID_JSON JSON_ARRAY);
   (SwitchPortMembers_OEM, VALID_JSON JSON_OBJECT)].

(** [AddPortStaticMac::get_procedure] *)
Definition AddPortStaticMac : fields :=
  [(StaticMac_PORT, VALID_JSON JSON_STRING);
   (StaticMac_ADDRESS, VALID_JSON JSON_STRING);
   (StaticMac_VLAN_ID, VALID_NULLABLE (VALID_OPTIONAL (VALID_JSON JSON_INTEGER)));
   (StaticMac_OEM, VALID_JSON JSON_OBJECT)].

(** [AddPortVlan::get_procedure] *)
Definition AddPortVlan : fields :=
  [(EthernetSwitchPortVlan_PORT, VALID_JSON JSON_STRING);
   (EthernetSwitchPortVlan_VLAN_ID, VALID_JSON JSON_INTEGER);
   (EthernetSwitchPortVlan_VLAN_NAME, VALID_NULLABLE (VALID_OPTIONAL (VALID_JSON JSON_STRING)));
   (EthernetSwitchPortVlan_TAGGED, VALID_JSON JSON_BOOLEAN);
   (EthernetSwitchPortVlan_OEM, VALID_JSON JSON_OBJECT)].

(** [AddVlan::get_procedure] *)
Definition AddVlan : fields :=
  [(Vlan_SWITCH, VALID_JSON JSON_STRING);
   (Vlan_VLAN_ID, VALID_JSON JSON_INTEGER);
   (Vlan_VLAN_NAME, VALID_JSON JSON_STRING)].

(** [DeleteAcl::get_procedure] *)
Definition DeleteAcl : fields :=
  [(Acl_ACL, VALID_JSON JSON_STRING);
   (Acl_OEM, VALID_JSON JSON_OBJECT)].

(** [DeleteAclPort::get_procedure] *)
Definition DeleteAclPort : fields :=
  [(Acl_ACL, VALID_JSON JSON_STRING);
   (Acl_PORTS, VALID_JSON JSON_ARRAY);
   (Acl_OEM, VALID_JSON JSON_OBJECT)].

(** [DeleteAclRule::get_procedure] *)
Definition DeleteAclRule : fields :=
  [(AclRule_RULE, VALID_UUID);
   (Acl_OEM, VALID_JSON JSON_OBJECT)].

(** [DeleteEthernetSwitchPort::get_procedure] *)
Definition DeleteEthernetSwitchPort : fields :=
  [(EthernetSwitchPort_PORT, VALID_JSON JSON_STRING);
   (EthernetSwitchPort_OEM, VALID_JSON JSON_OBJECT)].

(** [DeleteEthernetSwitchPortMembers::get_procedure] *)
Definition DeleteEthernetSwitchPortMembers : fields :=
  [(SwitchPortMembers_PORT, VALID_JSON JSON_STRING);
   (SwitchPortMembers_MEMBERS, VALID_JSON JSON_ARRAY);
   (SwitchPortMembers_OEM, VALID_JSON JSON_OBJECT)].

(** [DeletePortStaticMac::get_procedure] *)
Definition DeletePortStaticMac : fields :=
  [(StaticMac_STATIC_MAC, VALID_JSON JSON_STRING);
   (StaticMac_OEM, VALID_JSON JSON_OBJECT)].

(** [DeletePortVlan::get_procedure] *)
Definition DeletePortVlan : fields :=
  [(EthernetSwitchPortVlan_PORT_VLAN, VALID_JSON JSON_STRING);
   (EthernetSwitchPortVlan_OEM, VALID_JSON JSON_OBJECT)].

(** [DeleteVlan::get_procedure] *)
Definition DeleteVlan : fields :=
  [(Vlan_VLAN, VALID_JSON JSON_STRING)].

(** [GetAclInfo::get_procedure] *)
Definition GetAclInfo : fields :=
  [(Acl_ACL, VALID_JSON JSON_STRING)].

(** [GetAclRuleInfo::get_procedure] *)
Definition GetAclRuleInfo : fields :=
  [(AclRule_RULE, VALID_JSON JSON_STRING)].

(** [GetEthernetSwitchInfo::get_procedure] *)
Definition GetEthernetSwitchInfo : fields :=
  [(EthernetSwitch_SWITCH, VALID_UUID)].

(** [GetEthernetSwitchPortInfo::get_procedure] *)
Definition GetEthernetSwitchPortInfo : fields :=
  [(EthernetSwitchPort_PORT, VALID_UUID)].

(** [GetPortStaticMacInfo::get_procedure] *)
Definition GetPortStaticMacInfo : fields :=
  [(StaticMac_STATIC_MAC, VALID_JSON JSON_STRING)].

(** [GetPortVlanInfo::get_procedure] *)
Definition GetPortVlanInfo : fields :=
  [(EthernetSwitchPortVlan_PORT_VLAN, VALID_UUID)].

(** [GetRemoteEthernetSwitchInfo::get_procedure] *)
Definition GetRemoteEthernetSwitchInfo : fields :=
  [(RemoteEthernetSwitch_SWITCH, VALID_UUID)].

(** [GetVlanInfo::get_procedure] *)
Definition GetVlanInfo : fields :=
  [(Vlan_VLAN, VALID_JSON JSON_STRING)].

(** [GetPortInfo::get_procedure] *)
Definition GetPortInfo : fields :=
  [(Port_PORT, VALID_JSON JSON_STRING)].

(** [GetSwitchInfo::get_procedure] *)
Definition GetSwitchInfo : fields :=
  [(Switch_SWITCH, VALID_JSON JSON_STRING)].

(** [Attach::get_procedure] *)
Definition Attach : fields :=
  [(Attach_GAMI_ID, VALID_JSON JSON_STRING);
   (Attach_VERSION, VALID_JSON JSON_STRING);
   (Attach_VENDOR, VALID_JSON JSON_STRING);
   (Attach_IPV4_ADDRESS, VALID_JSON JSON_STRING);
   (Attach_PORT, VALID_JSON JSON_INTEGER);
   (Attach_CAPABILITIES, VALID_JSON JSON_ARRAY)].

(** [ComponentNotification::NotificationSchema::get_procedure] *)
Definition ComponentNotification_NotificationSchema : fields :=
  [(ComponentNotification_COMPONENT, VALID_UUID);
   (ComponentNotification_NOTIFICATION, VALID_ENUM (is_allowable_value Notification) Notification);
   (ComponentNotification_TYPE, VALID_ENUM (is_allowable_value Component) Component);
   (ComponentNotification_PARENT, VALID_JSON JSON_STRING)].

(** [ComponentNotification::get_procedure] *)
Definition ComponentNotification : fields :=
  [(ComponentNotification_GAMI_ID, VALID_JSON JSON_STRING);
   (ComponentNotification_NOTIFICATIONS, VALID_ARRAY_OF (VALID_ATTRIBUTE ComponentNotification_NotificationSchema))].

(** [HeartBeat::get_procedure] *)
Definition HeartBeat : fields :=
  [(HeartBeat_GAMI_ID, VALID_JSON JSON_STRING)].

(** [GetFanInfo::get_procedure] *)
Definition GetFanInfo : fields :=
  [(Fan_FAN, VALID_JSON JSON_STRING)].

(** [GetPowerZoneInfo::get_procedure] *)
Definition GetPowerZoneInfo : fields :=
  [(PowerZone_ZONE, VALID_JSON JSON_STRING)].

(** [GetPsuInfo::get_procedure] *)
Definition GetPsuInfo : fields :=
  [(Psu_PSU, VALID_JSON JSON_STRING)].

(** [GetThermalZoneInfo::get_procedure] *)
Definition GetThermalZoneInfo : fields :=
  [(ThermalZone_ZONE, VALID_JSON JSON_STRING)].

(** [AddStoragePool::CapacitySourceProcedure::get_procedure] *)
Definition AddStoragePool_CapacitySourceProcedure : fields :=
  [(CapacitySource_PROVIDING_DRIVES, VALID_ARRAY_OF VALID_UUID);
   (Capacity_CONSUMED_BYTES, VALID_NULLABLE (VALID_NUMERIC_TYPED (UINT64 None None)));
   (Capacity_ALLOCATED_BYTES, VALID_NULLABLE VALID_NEVER);
   (Capacity_GUARANTEED_BYTES, VALID_NULLABLE VALID_NEVER);
   (Capacity_PROVISIONED_BYTES, VALID_NULLABLE VALID_NEVER);
   (CapacitySource_PROVIDING_POOLS, VALID_NULLABLE (VALID_ARRAY_SIZE_OF VALID_UUID 0 0));
   (CapacitySource_PROVIDING_VOLUMES, VALID_NULLABLE (VALID_ARRAY_SIZE_OF VALID_UUID 0 0))].

(** [AddStoragePool::get_procedure] *)
Definition AddStoragePool : fields :=
  [(StoragePool_BLOCK_SIZE_BYTES, VALID_NUMERIC_TYPED (UINT64 None None));
   (StoragePool_CAPACITY_SOURCES, VALID_ARRAY_OF (VALID_ATTRIBUTE AddStoragePool_CapacitySourceProcedure));
   (StoragePool_OEM, VALID_JSON JSON_OBJECT)].

(** [AddVolume::IdentifierProcedure::get_procedure] *)
Definition AddVolume_IdentifierProcedure : fields :=
  [(Identifier_DURABLE_NAME, VALID_REGEX patterns.Common_EMPTY_OR_NO_WHITESPACE_STRING);
   (Identifier_DURABLE_NAME_FORMAT, VALID_ENUM (is_allowable_value IdentifierType) IdentifierType)].

(** [AddVolume::CapacitySourceProcedure::get_procedure] *)
Definition AddVolume_CapacitySourceProcedure : fields :=
  [(Capacity_CONSUMED_BYTES, VALID_NULLABLE (VALID_NUMERIC_TYPED (INT64 (Some 0) (Some 9223372036854775807))));
   (Capacity_ALLOCATED_BYTES, VALID_NULLABLE VALID_NEVER);
   (Capacity_GUARANTEED_BYTES, VALID_NULLABLE VALID_NEVER);
   (Capacity_PROVISIONED_BYTES, VALID_NULLABLE VALID_NEVER);
   (CapacitySource_PROVIDING_DRIVES, VALID_NULLABLE (VALID_ARRAY_SIZE_OF VALID_UUID 0 0));
   (CapacitySource_PROVIDING_POOLS, VALID_NULLABLE (VALID_ARRAY_SIZE_OF VALID_UUID 0 1));
   (CapacitySource_PROVIDING_VOLUMES, VALID_NULLABLE (VALID_ARRAY_SIZE_OF VALID_UUID 0 0))].

(** [AddVolume::ReplicaInfoProcedure::get_procedure] *)
Definition AddVolume_ReplicaInfoProcedure : fields :=
  [(ReplicaInfo_REPLICA_TYPE, VALID_NULLABLE (VALID_ENUM (is_allowable_value ReplicaType) ReplicaType));
   (ReplicaInfo_REPLICA, VALID_NULLABLE VALID_UUID);
   (ReplicaInfo_REPLICA_READ_ONLY_ACCESS, VALID_NULLABLE (VALID_ENUM (is_allowable_value ReplicaReadOnlyAccess) ReplicaReadOnlyAccess));
   (ReplicaInfo_REPLICA_ROLE, VALID_NULLABLE (VALID_ENUM (is_allowable_value ReplicaRole) ReplicaRole))].

(** [AddVolume::get_procedure] *)
Definition AddVolume : fields :=
  [(Volume_VOLUME_TYPE, VALID_NULLABLE (VALID_ENUM (is_allowable_value VolumeType) VolumeType));
   (Volume_IDENTIFIERS, VALID_ARRAY_OF (VALID_ATTRIBUTE AddVolume_IdentifierProcedure));
   (Volume_ACCESS_CAPABILITIES, VALID_ARRAY_OF (VALID_ENUM (is_allowable_value AccessCapability) AccessCapability));
   (Volume_BOOTABLE, VALID_NULLABLE (VALID_JSON JSON_BOOLEAN));
   (Volume_CAPACITY_BYTES, VALID_NUMERIC_TYPED (INT64 (Some 0) (Some 9223372036854775807)));
   (Volume_CAPACITY_SOURCES, VALID_ARRAY_SIZE_OF (VALID_ATTRIBUTE AddVolume_CapacitySourceProcedure) 0 1);
   (Volume_REPLICA_INFOS, VALID_ARRAY_SIZE_OF (VALID_ATTRIBUTE AddVolume_ReplicaInfoProcedure) 0 1);
   (Volume_OEM, VALID_JSON JSON_OBJECT)].

(** [DeleteStoragePool::get_procedure] *)
Definition DeleteStoragePool : fields :=
  [(StoragePool_STORAGE_POOL, VALID_UUID)].

(** [DeleteVolume::get_procedure] *)
Definition DeleteVolume : fields :=
  [(Volume_VOLUME, VALID_UUID)].

(** [GetStoragePoolInfo::get_procedure] *)
Definition GetStoragePoolInfo : fields :=
  [(StoragePool_STORAGE_POOL, VALID_UUID)].

(** [GetStorageServiceInfo::get_procedure] *)
Definition GetStorageServiceInfo : fields :=
  [(StorageService_SERVICE, VALID_JSON JSON_STRING)].

(** [GetVolumeInfo::get_procedure] *)
Definition GetVolumeInfo : fields :=
  [(Volume_VOLUME, VALID_UUID)].

(** Every declaration of the sources but that of AddEthernetSwitchPort, by class. *)
Definition request_schemas : list (string * fields) :=
  [("GetAuthorizationCertificate", GetAuthorizationCertificate);
   ("AddEndpoint::IPv4AddressSchema", AddEndpoint_IPv4AddressSchema);
   ("AddEndpoint::IPv6AddressSchema", AddEndpoint_IPv6AddressSchema);
   ("AddEndpoint::IpTransportDetailSchema", AddEndpoint_IpTransportDetailSchema);
   ("AddEndpoint::IdentifierSchema", AddEndpoint_IdentifierSchema);
   ("AddEndpoint::ConnectedEntitySchema", AddEndpoint_ConnectedEntitySchema);
   ("AddEndpoint", AddEndpoint); ("AddZone", AddZone); ("AddZoneEndpoints", AddZoneEndpoints);
   ("DeleteDrive", DeleteDrive); ("DeleteEndpoint", DeleteEndpoint); ("DeleteTask", DeleteTask);
   ("DeleteZone", DeleteZone); ("DeleteZoneEndpoints", DeleteZoneEndpoints);
   ("GetChassisInfo", GetChassisInfo); ("GetCollection", GetCollection);
   ("GetDriveInfo", GetDriveInfo); ("GetEndpointInfo", GetEndpointInfo);
   ("GetFabricInfo", GetFabricInfo); ("GetLogEntryInfo", GetLogEntryInfo);
   ("GetLogServiceInfo", GetLogServiceInfo); ("GetManagerInfo", GetManagerInfo);
   ("GetManagersCollection", GetManagersCollection);
   ("GetMetricDefinitionInfo", GetMetricDefinitionInfo);
   ("GetMetricDefinitionsCollection", GetMetricDefinitionsCollection); ("GetMetrics", GetMetrics);
   ("GetNetworkInterfaceInfo", GetNetworkInterfaceInfo); ("GetPcieDeviceInfo", GetPcieDeviceInfo);
   ("GetPcieFunctionInfo", GetPcieFunctionInfo); ("GetProcessorInfo", GetProcessorInfo);
   ("GetStorageSubsystemInfo", GetStorageSubsystemInfo); ("GetSystemInfo", GetSystemInfo);
   ("GetTaskInfo", GetTaskInfo); ("GetTaskResultInfo", GetTaskResultInfo);
   ("GetTasksCollection", GetTasksCollection); ("GetZoneInfo", GetZoneInfo);
   ("SetComponentAttributes", SetComponentAttributes);
   ("GetMemoryChunksInfo", GetMemoryChunksInfo); ("GetMemoryDomainInfo", GetMemoryDomainInfo);
   ("GetMemoryInfo", GetMemoryInfo);
   ("GetNetworkDeviceFunctionInfo", GetNetworkDeviceFunctionInfo);
   ("GetNetworkDeviceInfo", GetNetworkDeviceInfo);
   ("GetStorageControllerInfo", GetStorageControllerInfo);
   ("GetTrustedModuleInfo", GetTrustedModuleInfo); ("AddAcl", AddAcl); ("AddAclPort", AddAclPort);
   ("AddAclRule", AddAclRule); ("AddEthernetSwitchPortMembers", AddEthernetSwitchPortMembers);
   ("AddPortStaticMac", AddPortStaticMac); ("AddPortVlan", AddPortVlan); ("AddVlan", AddVlan);
   ("DeleteAcl", DeleteAcl); ("DeleteAclPort", DeleteAclPort); ("DeleteAclRule", DeleteAclRule);
   ("DeleteEthernetSwitchPort", DeleteEthernetSwitchPort);
   ("DeleteEthernetSwitchPortMembers", DeleteEthernetSwitchPortMembers);
   ("DeletePortStaticMac", DeletePortStaticMac); ("DeletePortVlan", DeletePortVlan);
   ("DeleteVlan", DeleteVlan); ("GetAclInfo", GetAclInfo); ("GetAclRuleInfo", GetAclRuleInfo);
   ("GetEthernetSwitchInfo", GetEthernetSwitchInfo);
   ("GetEthernetSwitchPortInfo", GetEthernetSwitchPortInfo);
   ("GetPortStaticMacInfo", GetPortStaticMacInfo); ("GetPortVlanInfo", GetPortVlanInfo);
   ("GetRemoteEthernetSwitchInfo", GetRemoteEthernetSwitchInfo); ("GetVlanInfo", GetVlanInfo);
   ("GetPortInfo", GetPortInfo); ("GetSwitchInfo", GetSwitchInfo); ("Attach", Attach);
   ("ComponentNotification::NotificationSchema", ComponentNotification_NotificationSchema);
   ("ComponentNotification", ComponentNotification); ("HeartBeat", HeartBeat);
   ("GetFanInfo", GetFanInfo); ("GetPowerZoneInfo", GetPowerZoneInfo); ("GetPsuInfo", GetPsuInfo);
   ("GetThermalZoneInfo", GetThermalZoneInfo);
   ("AddStoragePool::CapacitySourceProcedure", AddStoragePool_CapacitySourceProcedure);
   ("AddStoragePool", AddStoragePool);
   ("AddVolume::IdentifierProcedure", AddVolume_IdentifierProcedure);
   ("AddVolume::CapacitySourceProcedure", AddVolume_CapacitySourceProcedure);
   ("AddVolume::ReplicaInfoProcedure", AddVolume_ReplicaInfoProcedure); ("AddVolume", AddVolume);
   ("DeleteStoragePool", DeleteStoragePool); ("DeleteVolume", DeleteVolume);
   ("GetStoragePoolInfo", GetStoragePoolInfo); ("GetStorageServiceInfo", GetStorageServiceInfo);
   ("GetVolumeInfo", GetVolumeInfo)].

(** Every request schema of the agents but that of AddEthernetSwitchPort is
    sound: its declaration is read by the variadic constructor as it is meant, and
    the validator accepts a request exactly when the request conforms to the
    declaration, at every level of nesting. *)
Theorem request_schemas_exact `{JsonLaws J, Platform} :
  Forall (λ schema : string * fields, ∃ vs, create_validators (declare schema.2) = Some vs ∧
    ∀ request : J, validate vs request = Valid ↔ conforms_request schema.2 request) request_schemas.
Proof.
  assert (forallb (λ schema, checked schema.2) request_schemas = true) as Hall by (vm_compute; reflexivity).
  apply list.Forall_forall. intros schema Hin. apply checked_accepts. rewrite forallb_forall in Hall.
  by apply Hall, list_elem_of_In.
Qed.

(** ** A field with two addresses *)

Section twice.
Context `{JsonLaws J, Platform}.

Lemma remove_from_find (members : J) name k :
  json_find members k = None → json_find (remove_from members name).2 k = None.
Proof.
  intros Hk. unfold remove_from. destruct (json_count members name); [done|]. simpl.
  rewrite find_erase. by case_decide.
Qed.

Lemma remove_from_claims (members : J) name : json_find (remove_from members name).2 name = None.
Proof.
  unfold remove_from, json_count. destruct (json_find members name) eqn:E; [|done]. simpl.
  rewrite find_erase. by rewrite decide_True.
Qed.

(** A required field that an earlier one has claimed is missing. *)
Lemma claimed_field_fails check (request : J) vs n c members :
  (n, Some c) ∈ vs → json_find members (text n) = None → check c None ≠ Valid →
  (check_fields check request vs members).1 ≠ Valid.
Proof.
  intros Hin Hnone Hc. revert members Hnone. induction vs as [|[m d] vs IH]; intros members Hnone.
  { by apply not_elem_of_nil in Hin. }
  apply list.elem_of_cons in Hin. simpl.
  pose proof (remove_from_find members (text m) (text n) Hnone) as Hrest.
  destruct (remove_from members (text m)) as [removed members'] eqn:Er.
  destruct Hin as [[= <- <-]|Hin].
  - unfold remove_from, json_count in Er. rewrite Hnone in Er. injection Er as <- <-.
    by destruct (check c None).
  - case_match; simpl; [by apply (IH Hin)|done].
Qed.

Lemma claimed_twice_fails (request : J) vs n c vs' m d :
  (m, Some d) ∈ vs' → text m = text n → validate_checker (J:=J) d None ≠ Valid →
  validate (vs ++ (n, c) :: vs') request ≠ Valid.
Proof.
  intros Hin Htext Hd. unfold validate. rewrite rethrow_valid. unfold check_request.
  rewrite length_app. simpl. rewrite andb_comm, bool_decide_eq_false_2 by lia. cbn [andb].
  destruct (negb (is_null request) && negb (is_object request)); [done|].
  assert ((check_fields validate_checker request (vs ++ (n, c) :: vs') request).1 ≠ Valid) as Hf;
    [|destruct (check_fields _ _ _ _) as [[|] ?]; done].
  generalize request at 2 as members. induction vs as [|[k e] vs IH]; intros members; simpl.
  - pose proof (remove_from_claims members (text n)) as Hrest.
    destruct (remove_from members (text n)) as [removed members'].
    case_match; [|done]. rewrite <- Htext in Hrest. by eapply claimed_field_fails.
  - destruct (remove_from members (text k)) as [removed members'].
    case_match; [apply IH|done].
Qed.

(** AddEthernetSwitchPort declares the field "members" through two arrays
    with the same text.  Fields are told apart by address, so the declaration is
    read without an error but the two are not merged, the second finds the member
    already claimed by the first, and the validator accepts no request at all. *)
Theorem add_switch_port_rejects_all :
  ∃ vs, create_validators (declare AddEthernetSwitchPort) = Some vs ∧
    ∀ request : J, validate vs request ≠ Valid.
Proof.
  exists (procedure_of AddEthernetSwitchPort). split.
  - apply create_declared. apply (bool_decide_eq_true_1 _). vm_compute. reflexivity.
  - intros request.
    apply (claimed_twice_fails request
             (take 3 (procedure_of AddEthernetSwitchPort)) SwitchPortMembers_MEMBERS
             (Some (Jsonrpc JSON_ARRAY)) (drop 4 (procedure_of AddEthernetSwitchPort))
             EthernetSwitchPort_MEMBERS (Jsonrpc JSON_ARRAY)); [apply list_elem_of_here|done|done].
Qed.

End twice.

Module RequestSchemasExample.
Import SchemaExample.

(** No tree is accepted. *)
Lemma add_switch_port_rejects_all_witness :
  ∃ vs, create_validators (declare AddEthernetSwitchPort) = Some vs ∧
    ∀ request : Tree.t, validate vs request ≠ Valid.
Proof. apply (add_switch_port_rejects_all (J:=Tree.t)). Defined.

End RequestSchemasExample.
