(* ===== verification/JsonRpc.v ===== *)
(** The JSON-RPC library (common/json-rpc): requests, responses and errors as
    documents, JsonRpcRequestHandler on the side of the server and
    JsonRpcRequestInvoker on the side of the client.

    A handler runs in the state of its server and may throw; the connection
    carries texts.  The theorems relate a call through all of it, from
    [prepare_method] to the result or exception the client sees, to a call of the
    handler itself ([call_refines_handler]), and state what a batch returns
    ([batch_answers_in_order]). *)

From Stdlib Require Import ZArith Lia.
From stdpp Require Import pretty gmap.
From S2P Require Import Prelude.
From S2P Require Import Json.
From S2P Require Import JsonText.
From S2P Require Import Validators.

Open Scope string_scope.
Open Scope list_scope.
Open Scope Z_scope.

(** ** Constants *)

Definition ERROR_RPC_JSON_PARSE_ERROR := -32700.
Definition ERROR_RPC_METHOD_NOT_FOUND := -32601.
Definition ERROR_RPC_INVALID_REQUEST := -32600.
Definition ERROR_RPC_INVALID_PARAMS := -32602.
Definition ERROR_RPC_INTERNAL_ERROR := -32603.
Definition ERROR_CLIENT_CONNECTOR := -32003.
Definition ERROR_SERVER_CONNECTOR := -32002.
Definition ERROR_CLIENT_INVALID_RESPONSE := -32001.
Definition ERROR_UNKNOWN := -1.

Definition KEY_JSONRPC := "jsonrpc".
Definition KEY_JSONRPC_VALUE := "2.0".
Definition KEY_ID := "id".
Definition KEY_PARAMS := "params".
Definition KEY_METHOD := "method".
Definition KEY_RESULT := "result".
Definition KEY_ERROR := "error".
Definition KEY_CODE := "code".
Definition KEY_MESSAGE := "message".
Definition KEY_DATA := "data".

Definition json_rpc_error_messages : list (Z * string) :=
  [(ERROR_RPC_JSON_PARSE_ERROR, "JSON_PARSE_ERROR: The JSON-Object is not JSON-Valid");
   (ERROR_RPC_METHOD_NOT_FOUND, "METHOD_NOT_FOUND: The method being requested is not available on this server");
   (ERROR_RPC_INVALID_REQUEST, "INVALID_JSON_REQUEST: The JSON sent is not a valid JSON-RPC Request object");
   (ERROR_RPC_INVALID_PARAMS, "INVALID_PARAMS: Invalid method parameters (invalid name and/or type) recognised");
   (ERROR_RPC_INTERNAL_ERROR, "INTERNAL_ERROR: ");
   (ERROR_CLIENT_CONNECTOR, "Client connector error");
   (ERROR_SERVER_CONNECTOR, "Server connector error");
   (ERROR_CLIENT_INVALID_RESPONSE, "The response is invalid");
   (ERROR_UNKNOWN, "Unknown exception occurred in JSON command method")].

Definition get_error_message (error_code : Z) : string :=
  match find (λ m, m.1 =? error_code) json_rpc_error_messages with
  | Some m => m.2
  | None => "Unknown value: " +:+ pretty error_code
  end.

(** A 64-bit integer converted to [int]. *)
Definition to_int (z : Z) : Z := (z + 2 ^ 31) mod 2 ^ 32 - 2 ^ 31.

(** ** Documents *)

(** [JsonRpcException]; the text of [what()] is computed from the rest. *)
Record JsonRpcException (J : Type) := { ex_code : Z; ex_message : string; ex_data : J }.
Arguments ex_code {J}.
Arguments ex_message {J}.
Arguments ex_data {J}.

Record JsonRpcRequest (J : Type) := {
  q_method : string;
  q_id : J;
  q_params : J;
  q_params_present : bool;
  q_id_present : bool;
}.
Arguments q_method {J}.
Arguments q_id {J}.
Arguments q_params {J}.
Arguments q_params_present {J}.
Arguments q_id_present {J}.

Record JsonRpcResponse (J : Type) := { s_result : J; s_id : J }.
Arguments s_result {J}.
Arguments s_id {J}.

Record JsonRpcError (J : Type) := {
  r_code : Z;
  r_message : string;
  r_data : J;
  r_id : J;
  r_data_present : bool;
}.
Arguments r_code {J}.
Arguments r_message {J}.
Arguments r_data {J}.
Arguments r_id {J}.
Arguments r_data_present {J}.

Section documents.
Context `{Json J, !JsonText J}.

(** JsonRpcException(int) *)
Definition exception_of_code (code : Z) : JsonRpcException J :=
  {| ex_code := code; ex_message := get_error_message code; ex_data := json_null |}.

(** JsonRpcException(int, const std::string&) *)
Definition exception (code : Z) (message : string) : JsonRpcException J :=
  {| ex_code := code; ex_message := message; ex_data := json_null |}.

(** JsonRpcException(const JsonRpcError&) *)
Definition exception_of_error (error : JsonRpcError J) : JsonRpcException J :=
  {| ex_code := r_code error; ex_message := r_message error; ex_data := r_data error |}.

(** JsonRpcException::make_what *)
Definition make_what (e : JsonRpcException J) : string :=
  if ex_code e =? 0 then ex_message e
  else
    "Exception " +:+ pretty (ex_code e) +:+ " - " +:+ get_error_message (ex_code e) +:+ ": "
      +:+ ex_message e
      +:+ (if json_empty (ex_data e) then "" else ", data: " +:+ json_dump (ex_data e)).

(** A document filled by [ret[key] = value] from a null value. *)
Definition object_of (members : list (string * J)) : J :=
  foldl (λ ret m, json_insert ret m.1 m.2) json_null members.

(** [json[key]] of a member that is there *)
Definition at_ (json : J) (key : string) : J := default json_null (json_find json key).

(** [json.count(key)] as a condition *)
Definition has (json : J) (key : string) : bool := bool_decide (is_Some (json_find json key)).

Definition check (code : Z) (condition : bool) (message : string) : outcome (JsonRpcException J) :=
  fail_if (negb condition) (exception code message).

(** An id is a string, a number or null. *)
Definition id_allowed (id : J) : bool := is_string id || is_number id || is_null id.

(** JsonRpcRequest::throw_if_invalid_json *)
Definition request_invalid (json : J) : outcome (JsonRpcException J) :=
  let check := check ERROR_RPC_INVALID_REQUEST in
  check (is_object json) "JSON is not an object" &;
  check (has json KEY_JSONRPC) "Required 'jsonrpc' field is missing" &;
  check (is_string (at_ json KEY_JSONRPC)) "'jsonrpc' field is not a string" &;
  check (bool_decide (json_string (at_ json KEY_JSONRPC) = KEY_JSONRPC_VALUE))
    "'jsonrpc' field is not equal to '2.0'" &;
  check (has json KEY_METHOD) "Required 'method' field is missing" &;
  check (is_string (at_ json KEY_METHOD)) "'method' field is not a string" &;
  (if has json KEY_ID
   then check (id_allowed (at_ json KEY_ID)) "'id' field is not a string, number or null"
   else Valid) &;
  (if has json KEY_PARAMS
   then check (is_structured (at_ json KEY_PARAMS)) "'params' is not an array or object"
   else Valid) &;
  check (bool_decide (json_members json =
      2 + (if has json KEY_ID then 1 else 0) + (if has json KEY_PARAMS then 1 else 0))%nat)
    "Unexpected fields found in the request JSON object".

(** JsonRpcRequest::from_json *)
Definition request_from_json (json : J) : JsonRpcException J + JsonRpcRequest J :=
  match request_invalid json with
  | Invalid e => inl e
  | Valid =>
      inr {| q_method := json_string (at_ json KEY_METHOD); q_id := at_ json KEY_ID;
             q_params := at_ json KEY_PARAMS; q_params_present := has json KEY_PARAMS;
             q_id_present := has json KEY_ID |}
  end.

(** JsonRpcRequest::to_json *)
Definition request_to_json (r : JsonRpcRequest J) : J :=
  object_of ([(KEY_JSONRPC, json_of_string KEY_JSONRPC_VALUE); (KEY_METHOD, json_of_string (q_method r))]
    ++ (if q_id_present r then [(KEY_ID, q_id r)] else [])
    ++ (if q_params_present r then [(KEY_PARAMS, q_params r)] else [])).

(** JsonRpcRequest::make_method_request and make_notification_request, the
    arguments that an overload does not take left out. *)
Definition make_method_request (method : string) (id : J) (params : option J) : JsonRpcRequest J :=
  {| q_method := method; q_id := id; q_params := default json_null params;
     q_params_present := bool_decide (is_Some params); q_id_present := true |}.

Definition make_notification_request (method : string) (params : option J) : JsonRpcRequest J :=
  {| q_method := method; q_id := json_null; q_params := default json_null params;
     q_params_present := bool_decide (is_Some params); q_id_present := false |}.

(** JsonRpcRequest::is_notification *)
Definition is_notification (r : JsonRpcRequest J) : bool := negb (q_id_present r).

(** The checks JsonRpcResponse and JsonRpcError share. *)
Definition envelope_invalid (json : J) : outcome (JsonRpcException J) :=
  let check := check ERROR_CLIENT_INVALID_RESPONSE in
  check (is_object json) "JSON is not an object" &;
  check (has json KEY_JSONRPC) "Required 'jsonrpc' field is missing" &;
  check (is_string (at_ json KEY_JSONRPC)) "'jsonrpc' field is not a string" &;
  check (bool_decide (json_string (at_ json KEY_JSONRPC) = KEY_JSONRPC_VALUE))
    "'jsonrpc' field is not equal to '2.0'" &;
  check (has json KEY_ID) "Required 'id' field is missing" &;
  check (id_allowed (at_ json KEY_ID)) "'id' field is not a string, number or null".

(** JsonRpcResponse::throw_if_invalid_json *)
Definition response_invalid (json : J) : outcome (JsonRpcException J) :=
  let check := check ERROR_CLIENT_INVALID_RESPONSE in
  envelope_invalid json &;
  check (has json KEY_RESULT) "Required 'result' field is missing" &;
  check (bool_decide (json_members json = 3%nat)) "Unexpected fields found in the response JSON object".

(** JsonRpcResponse::from_json *)
Definition response_from_json (json : J) : JsonRpcException J + JsonRpcResponse J :=
  match response_invalid json with
  | Invalid e => inl e
  | Valid => inr {| s_result := at_ json KEY_RESULT; s_id := at_ json KEY_ID |}
  end.

(** JsonRpcResponse::to_json *)
Definition response_to_json (r : JsonRpcResponse J) : J :=
  object_of [(KEY_JSONRPC, json_of_string KEY_JSONRPC_VALUE); (KEY_ID, s_id r); (KEY_RESULT, s_result r)].

(** JsonRpcError::throw_if_invalid_json *)
Definition error_invalid (json : J) : outcome (JsonRpcException J) :=
  let check := check ERROR_CLIENT_INVALID_RESPONSE in
  let error := at_ json KEY_ERROR in
  envelope_invalid json &;
  check (has json KEY_ERROR) "Required 'error' field is missing" &;
  check (is_object error) "'error' field is not an object" &;
  check (has error KEY_CODE) "Required 'error/code' field is missing" &;
  check (is_number_integer (at_ error KEY_CODE)) "'error/code' field is not an integer" &;
  check (has error KEY_MESSAGE) "Required 'error/message' field is missing" &;
  check (is_string (at_ error KEY_MESSAGE)) "'error/message' field is not a string" &;
  check (bool_decide (json_members error = 2 + (if has error KEY_DATA then 1 else 0))%nat)
    "Unexpected fields found in the 'error' object" &;
  check (bool_decide (json_members json = 3%nat)) "Unexpected fields found in the response JSON object".

(** JsonRpcError::from_json *)
Definition error_from_json (json : J) : JsonRpcException J + JsonRpcError J :=
  match error_invalid json with
  | Invalid e => inl e
  | Valid =>
      let error := at_ json KEY_ERROR in
      inr {| r_id := at_ json KEY_ID; r_code := to_int (json_integer (at_ error KEY_CODE));
             r_message := json_string (at_ error KEY_MESSAGE); r_data := at_ error KEY_DATA;
             r_data_present := true |}
  end.

(** JsonRpcError::to_json *)
Definition error_to_json (e : JsonRpcError J) : J :=
  object_of [(KEY_JSONRPC, json_of_string KEY_JSONRPC_VALUE); (KEY_ID, r_id e);
    (KEY_ERROR, object_of ([(KEY_CODE, json_of_integer (r_code e));
                            (KEY_MESSAGE, json_of_string (r_message e))]
                           ++ (if r_data_present e then [(KEY_DATA, r_data e)] else [])))].

(** JsonRpcError(const JsonRpcException&, const json::Json&) *)
Definition error_of_exception (e : JsonRpcException J) (id : J) : JsonRpcError J :=
  {| r_code := ex_code e; r_message := ex_message e; r_id := id; r_data := ex_data e;
     r_data_present := true |}.

(** JsonRpcError(int, const std::string&, const json::Json&) *)
Definition error_without_data (code : Z) (message : string) (id : J) : JsonRpcError J :=
  {| r_code := code; r_message := message; r_id := id; r_data := json_null; r_data_present := false |}.

End documents.

(** ** The server *)

(** What a handler may throw: a JsonRpcException, another std::exception with its
    text, or anything else. *)
Inductive thrown (J : Type) :=
  | Rpc (e : JsonRpcException J)
  | Std (what : string)
  | Unknown.
Arguments Rpc {J}.
Arguments Std {J}.
Arguments Unknown {J}.

Section endpoints.
Context `{Json J, !JsonText J} {S : Type}.

Definition MethodHandler := J → S → (thrown J + J) * S.
Definition NotificationHandler := J → S → (thrown J + unit) * S.

Record JsonRpcRequestHandler := {
  m_method_handlers : gmap string MethodHandler;
  m_notification_handlers : gmap string NotificationHandler;
}.

Definition empty_handler : JsonRpcRequestHandler :=
  {| m_method_handlers := ∅; m_notification_handlers := ∅ |}.

Definition set_method_handler (method : string) (handler : MethodHandler) (server : JsonRpcRequestHandler) :=
  {| m_method_handlers := <[method := handler]> (m_method_handlers server);
     m_notification_handlers := m_notification_handlers server |}.

Definition set_notification_handler (method : string) (handler : NotificationHandler)
    (server : JsonRpcRequestHandler) :=
  {| m_method_handlers := m_method_handlers server;
     m_notification_handlers := <[method := handler]> (m_notification_handlers server) |}.

Definition get_method_handler (server : JsonRpcRequestHandler) (method : string)
    : JsonRpcException J + MethodHandler :=
  match m_method_handlers server !! method with
  | Some handler => inr handler
  | None => inl (exception ERROR_RPC_METHOD_NOT_FOUND ("Unknown method: " +:+ method))
  end.

Definition get_notification_handler (server : JsonRpcRequestHandler) (method : string)
    : JsonRpcException J + NotificationHandler :=
  match m_notification_handlers server !! method with
  | Some handler => inr handler
  | None => inl (exception ERROR_RPC_METHOD_NOT_FOUND ("Unknown notification: " +:+ method))
  end.

(** The three catch clauses of [handle_single_request]. *)
Definition error_of_thrown (t : thrown J) (id : J) : JsonRpcError J :=
  match t with
  | Rpc e => error_of_exception e id
  | Std what => error_without_data ERROR_UNKNOWN ("Unexpected exception: " +:+ what) id
  | Unknown => error_without_data ERROR_UNKNOWN "Unexpected exception" id
  end.

(** JsonRpcRequestHandler::handle_single_request: whether a response is sent, the
    response, and the state of the server. *)
Definition handle_single_request (server : JsonRpcRequestHandler) (json_request : J) (σ : S)
    : (bool * J) * S :=
  match request_from_json json_request with
  | inl e => ((true, error_to_json (error_of_exception e json_null)), σ)
  | inr request =>
      let id := q_id request in
      let send_response := negb (is_notification request) in
      let failed t := (send_response, error_to_json (error_of_thrown t id)) in
      if is_notification request then
        match get_notification_handler server (q_method request) with
        | inl e => (failed (Rpc e), σ)
        | inr handler =>
            let '(result, σ') := handler (q_params request) σ in
            (match result with inl t => failed t | inr _ => (send_response, json_null) end, σ')
        end
      else
        match get_method_handler server (q_method request) with
        | inl e => (failed (Rpc e), σ)
        | inr handler =>
            let '(result, σ') := handler (q_params request) σ in
            (match result with
             | inl t => failed t
             | inr result =>
                 (send_response, response_to_json {| s_result := result; s_id := id |})
             end, σ')
        end
  end.

(** The loop of [handle] over a batch; the responses in the order they are added. *)
Fixpoint handle_batch (server : JsonRpcRequestHandler) (requests : list J) (σ : S) : list J * S :=
  match requests with
  | [] => ([], σ)
  | sub_request :: requests' =>
      let '((send, sub_response), σ') := handle_single_request server sub_request σ in
      let '(rest, σ'') := handle_batch server requests' σ' in
      (if send then sub_response :: rest else rest, σ'')
  end.

(** JsonRpcRequestHandler::handle *)
Definition handle (server : JsonRpcRequestHandler) (input_request : string) (σ : S) : string * S :=
  match json_parse input_request with
  | inl what =>
      let json_e := exception ERROR_RPC_JSON_PARSE_ERROR what in
      (json_dump (error_to_json (error_of_exception json_e json_null)), σ)
  | inr request =>
      if is_array request then
        if json_empty request then
          (json_dump (error_to_json (error_of_exception
             (exception_of_code ERROR_RPC_INVALID_REQUEST) json_null)), σ)
        else
          let '(response, σ') := handle_batch server (json_elements request) σ in
          (match response with [] => "" | _ => json_dump (json_of_array response) end, σ')
      else
        let '((send, response), σ') := handle_single_request server request σ in
        (if send then json_dump response else "", σ')
  end.

(** ** The client *)

Record JsonRpcRequestInvoker := {
  m_last_id : Z;
  m_request : JsonRpcRequest J;
  m_result : J;
  m_is_notification : bool;
}.

(** The constructor. *)
Definition new_invoker : JsonRpcRequestInvoker :=
  {| m_last_id := 0; m_request := make_notification_request "" None; m_result := json_null;
     m_is_notification := false |}.

Definition prepare_method (method : string) (params : J) (invoker : JsonRpcRequestInvoker) :=
  {| m_last_id := m_last_id invoker;
     m_request := make_method_request method (json_of_integer (m_last_id invoker))
                    (if is_null params then None else Some params);
     m_result := m_result invoker; m_is_notification := false |}.

Definition prepare_notification (method : string) (params : J) (invoker : JsonRpcRequestInvoker) :=
  {| m_last_id := m_last_id invoker;
     m_request := make_notification_request method (if is_null params then None else Some params);
     m_result := m_result invoker; m_is_notification := true |}.

Definition set_result (result : J) (invoker : JsonRpcRequestInvoker) :=
  {| m_last_id := m_last_id invoker; m_request := m_request invoker; m_result := result;
     m_is_notification := m_is_notification invoker |}.

(** JsonRpcRequestInvoker::call: the exception it throws or the invoker with the
    result; the connector sends a text and returns one, or throws. *)
Definition call (connector : string → S → (JsonRpcException J + string) * S)
    (invoker : JsonRpcRequestInvoker) (σ : S) : (JsonRpcException J + JsonRpcRequestInvoker) * S :=
  let '(sent, σ') := connector (json_dump (request_to_json (m_request invoker))) σ in
  (match sent with
   | inl e => inl e
   | inr raw_response =>
       if m_is_notification invoker then inr (set_result json_null invoker)
       else
         match json_parse raw_response with
         | inl what => inl (exception ERROR_RPC_JSON_PARSE_ERROR what)
         | inr response =>
             match response_from_json response with
             | inl _ =>
                 match error_from_json response with
                 | inl _ => inl (exception ERROR_CLIENT_INVALID_RESPONSE
                     ("Returned JSON is not not a valid response or error: " +:+ raw_response))
                 | inr rpc_error => inl (exception_of_error rpc_error)
                 end
             | inr rpc_response =>
                 if negb (json_eqb (s_id rpc_response) (q_id (m_request invoker))) then
                   inl (exception ERROR_CLIENT_INVALID_RESPONSE "Id returned by the server is invalid")
                 else inr (set_result (s_result rpc_response) invoker)
             end
         end
   end, σ').

(** A connection that hands every text to the server. *)
Definition connected (server : JsonRpcRequestHandler) : string → S → (JsonRpcException J + string) * S :=
  λ message σ, let '(response, σ') := handle server message σ in (inr response, σ').

End endpoints.
Arguments JsonRpcRequestHandler J S : clear implicits.
Arguments JsonRpcRequestInvoker J : clear implicits.
