(* ===== verification/JsonRpcCall.v ===== *)
(** What a JSON-RPC call does: the documents of JsonRpc survive the connection,
    a call through the connection is a call of the handler, and a batch is
    answered request by request. *)

From Stdlib Require Import ZArith Lia.
From stdpp Require Import pretty gmap.
From S2P Require Import Prelude.
From S2P Require Import Json.
From S2P Require Import JsonText.
From S2P Require Import Validators.
From S2P Require Import JsonRpc.

Open Scope string_scope.
Open Scope list_scope.
Open Scope Z_scope.

(** The keys of a written object are different, and a member is one of its members. *)
Ltac distinct_keys := repeat constructor; set_solver.
Ltac member := repeat first [apply list_elem_of_here|apply list_elem_of_further].

Section documents.
Context `{JsonLaws J, !JsonText J, !JsonTextLaws J}.
Implicit Types (v x : J) (l : list (string * J)).

(** *** Objects *)

Lemma object_of_snoc l m : object_of (l ++ [m]) = json_insert (object_of l) m.1 m.2.
Proof. unfold object_of. by rewrite foldl_app. Qed.

Lemma object_of_type l : l ≠ [] → json_type (object_of l) = object.
Proof.
  induction l as [|m l IH] using rev_ind; [done|]. intros _. rewrite object_of_snoc. apply type_insert.
  destruct l; [right; apply type_null|left; by apply IH].
Qed.

Lemma object_of_ready l : json_type (object_of l) = object ∨ json_type (object_of l) = null.
Proof. destruct l; [right; apply type_null|left; by apply object_of_type]. Qed.

Lemma object_of_here l k x : NoDup l.*1 → (k, x) ∈ l → json_find (object_of l) k = Some x.
Proof.
  induction l as [|[j y] l IH] using rev_ind; intros Hd Hin; [by apply not_elem_of_nil in Hin|].
  rewrite object_of_snoc, find_insert by apply object_of_ready. simpl.
  rewrite fmap_app in Hd. apply list.NoDup_app in Hd as (Hd & Hnot & _).
  apply elem_of_app in Hin as [Hin|[= -> ->]%list_elem_of_singleton]; [|by rewrite decide_True].
  rewrite decide_False; [by apply IH|]. intros ->.
  apply (Hnot k); [|by apply list_elem_of_singleton]. apply (list_elem_of_fmap_2 fst) in Hin. exact Hin.
Qed.

Lemma object_of_nowhere l k : k ∉ l.*1 → json_find (object_of l) k = None.
Proof.
  induction l as [|[j y] l IH] using rev_ind; intros Hin.
  { apply find_null, type_null. }
  rewrite fmap_app in Hin. rewrite object_of_snoc, find_insert by apply object_of_ready. simpl.
  rewrite decide_False; [apply IH|]; set_solver.
Qed.

Lemma object_of_printable l :
  Forall (λ m, printable_string m.1 ∧ printable m.2) l → printable (object_of l).
Proof.
  induction l as [|m l IH] using rev_ind; intros Hl; [apply printable_null|].
  apply list.Forall_app in Hl as [Hl [[Hk Hx] _]%list.Forall_cons]. rewrite object_of_snoc.
  apply printable_insert; [apply object_of_ready|by apply IH|done|done].
Qed.

(** A document that was written as the members [l]. *)
Section written.
Context v l (Hv : v ≡ object_of l) (Hd : NoDup l.*1) (Hl : l ≠ []).

Lemma written_object : is_object v = true.
Proof using All. rewrite Hv. apply bool_decide_eq_true. by apply object_of_type. Qed.

Lemma written_at k x : (k, x) ∈ l → has v k = true ∧ at_ v k ≡ x.
Proof using All.
  intros Hin. pose proof (json_find_proper v (object_of l) Hv k k eq_refl) as E.
  rewrite (object_of_here _ _ _ Hd Hin) in E. unfold has, at_.
  apply Some_equiv_eq in E as (y & -> & Hy). split; [by apply bool_decide_eq_true|done].
Qed.

Lemma written_string k s :
  (k, json_of_string s) ∈ l → has v k = true ∧ is_string (at_ v k) = true ∧ json_string (at_ v k) = s.
Proof using All.
  intros [? E]%written_at. split_and!; [done| |by rewrite E, string_of_string].
  rewrite E. apply bool_decide_eq_true, type_of_string.
Qed.

Lemma written_not k : k ∉ l.*1 → has v k = false ∧ at_ v k = json_null.
Proof using All.
  intros Hin. pose proof (json_find_proper v (object_of l) Hv k k eq_refl) as E.
  rewrite (object_of_nowhere _ _ Hin) in E. unfold has, at_.
  apply None_equiv_eq in E. rewrite E. split; [|done]. apply bool_decide_eq_false. by intros [].
Qed.

Lemma written_members : json_members v = length l.
Proof using All.
  rewrite Hv, <- (length_fmap fst l). apply members_count; [by apply object_of_type|done|]. intros k. split.
  - intros Hk. apply dec_stable. intros Hn. rewrite (object_of_nowhere _ _ Hn) in Hk. by destruct Hk.
  - intros ([k' x] & -> & Hin)%list_elem_of_fmap. simpl. by rewrite (object_of_here _ k' x Hd Hin).
Qed.

End written.

(** *** Round trips *)

Lemma id_allowed_proper v v' : v ≡ v' → id_allowed v = id_allowed v'.
Proof. intros E. unfold id_allowed. by rewrite E. Qed.

Lemma null_id_allowed : id_allowed (J:=J) json_null = true.
Proof. unfold id_allowed, is_null. rewrite type_null. by rewrite orb_true_r. Qed.

(** Two requests with the same content. *)
Definition same_request (a b : JsonRpcRequest J) : Prop :=
  q_method a = q_method b ∧ q_id a ≡ q_id b ∧ q_params a ≡ q_params b ∧
  q_params_present a = q_params_present b ∧ q_id_present a = q_id_present b.

(** What the constructors of JsonRpcRequest make; the fields that are absent are null. *)
Definition proper_request (r : JsonRpcRequest J) : Prop :=
  (if q_id_present r then id_allowed (q_id r) = true else q_id r = json_null) ∧
  (if q_params_present r then is_structured (q_params r) = true else q_params r = json_null).

(** What the server reads of a request that was written; only the id and the
    parameters can still be refused. *)
Lemma request_fields r v :
  (q_id_present r = false → q_id r = json_null) →
  (q_params_present r = false → q_params r = json_null) → v ≡ request_to_json r →
  request_invalid v =
    ((if q_id_present r
      then check ERROR_RPC_INVALID_REQUEST (id_allowed (q_id r))
             "'id' field is not a string, number or null" else Valid) &;
     (if q_params_present r
      then check ERROR_RPC_INVALID_REQUEST (is_structured (q_params r))
             "'params' is not an array or object" else Valid)) ∧
  json_string (at_ v KEY_METHOD) = q_method r ∧
  has v KEY_ID = q_id_present r ∧ at_ v KEY_ID ≡ q_id r ∧
  has v KEY_PARAMS = q_params_present r ∧ at_ v KEY_PARAMS ≡ q_params r.
Proof.
  intros Hid Hpar Hv. unfold request_to_json in Hv.
  match type of Hv with _ ≡ object_of ?x => set (l := x) in * end.
  assert (NoDup l.*1) as Hd.
  { unfold l. destruct (q_id_present r), (q_params_present r); distinct_keys. }
  assert (l ≠ []) as Hl by done.
  pose proof (written_at v l Hv Hd Hl) as Hat. pose proof (written_not v l Hv Hd Hl) as Hnot.
  destruct (written_string v l Hv Hd Hl KEY_JSONRPC KEY_JSONRPC_VALUE) as (H1 & T1 & S1); [member|].
  destruct (written_string v l Hv Hd Hl KEY_METHOD (q_method r)) as (H2 & T2 & S2); [member|].
  assert (has v KEY_ID = q_id_present r ∧ at_ v KEY_ID ≡ q_id r) as [H3 E3].
  { destruct (q_id_present r) eqn:Eid.
    - apply Hat. unfold l. set_solver.
    - rewrite (Hid eq_refl). destruct (Hnot KEY_ID) as [? ->]; [|done].
      unfold l. destruct (q_params_present r); set_solver. }
  assert (has v KEY_PARAMS = q_params_present r ∧ at_ v KEY_PARAMS ≡ q_params r) as [H4 E4].
  { destruct (q_params_present r) eqn:Ep.
    - apply Hat. unfold l. set_solver.
    - rewrite (Hpar eq_refl). destruct (Hnot KEY_PARAMS) as [? ->]; [|done].
      unfold l. destruct (q_id_present r); set_solver. }
  split_and!; try done.
  unfold request_invalid. rewrite (written_object v l Hv Hd Hl), H1, T1, S1, H2, T2, H3, H4.
  rewrite (written_members v l Hv Hd Hl), (id_allowed_proper _ _ E3), (is_structured_proper _ _ E4).
  unfold l. destruct (q_id_present r), (q_params_present r); simpl;
    by destruct (id_allowed (q_id r)), (is_structured (q_params r)).
Qed.

Lemma request_roundtrip r v :
  proper_request r → v ≡ request_to_json r →
  ∃ r', request_from_json v = inr r' ∧ same_request r' r.
Proof.
  intros [Hid Hpar] Hv.
  destruct (request_fields r v) as (Hr & Hrest); [by intros E; rewrite E in Hid|by intros E; rewrite E in Hpar|done|].
  unfold request_from_json. eexists. assert (request_invalid v = Valid) as ->.
  { rewrite Hr. destruct (q_id_present r), (q_params_present r); by rewrite ?Hid, ?Hpar. }
  split; [done|]. unfold same_request. tauto.
Qed.

Lemma envelope_passes v l id :
  v ≡ object_of l → NoDup l.*1 → (KEY_JSONRPC, json_of_string KEY_JSONRPC_VALUE) ∈ l →
  (KEY_ID, id) ∈ l → id_allowed id = true → envelope_invalid v = Valid.
Proof.
  intros Hv Hd Hj Hi Hid. assert (l ≠ []) as Hl by (by intros ->; apply not_elem_of_nil in Hj).
  destruct (written_string v l Hv Hd Hl _ _ Hj) as (H1 & T1 & S1).
  destruct (written_at v l Hv Hd Hl _ _ Hi) as (H2 & E2).
  unfold envelope_invalid. rewrite (written_object v l Hv Hd Hl), H1, T1, S1, H2.
  by rewrite (id_allowed_proper _ _ E2), Hid.
Qed.

Lemma response_roundtrip r v :
  id_allowed (s_id r) = true → v ≡ response_to_json r →
  ∃ r', response_from_json v = inr r' ∧ s_result r' ≡ s_result r ∧ s_id r' ≡ s_id r.
Proof.
  intros Hid Hv. unfold response_to_json in Hv.
  match type of Hv with _ ≡ object_of ?x => set (l := x) in * end.
  assert (NoDup l.*1) as Hd by distinct_keys. assert (l ≠ []) as Hl by done.
  destruct (written_at v l Hv Hd Hl KEY_ID (s_id r)) as [H1 E1]; [member|].
  destruct (written_at v l Hv Hd Hl KEY_RESULT (s_result r)) as [H2 E2]; [member|].
  eexists. unfold response_from_json. assert (response_invalid v = Valid) as ->; [|done].
  unfold response_invalid. rewrite (envelope_passes v l (s_id r)), H2; [|done|done|member|member|done].
  by rewrite (written_members v l Hv Hd Hl).
Qed.

(** The error codes fit [int]. *)
Definition proper_error (e : JsonRpcError J) : Prop :=
  id_allowed (r_id e) = true ∧ - 2 ^ 31 ≤ r_code e < 2 ^ 31 ∧
  (r_data_present e = false → r_data e = json_null).

Lemma to_int_small z : - 2 ^ 31 ≤ z < 2 ^ 31 → to_int z = z.
Proof. intros Hz. unfold to_int. rewrite Z.mod_small; lia. Qed.

Lemma error_roundtrip e v :
  proper_error e → v ≡ error_to_json e →
  (∃ ex, response_from_json v = inl ex) ∧
  ∃ e', error_from_json v = inr e' ∧ r_code e' = r_code e ∧ r_message e' = r_message e ∧
    r_data e' ≡ r_data e.
Proof.
  intros (Hid & Hcode & Hdata) Hv. unfold error_to_json in Hv.
  match type of Hv with context [(KEY_ERROR, object_of ?x)] => set (m := x) in * end.
  match type of Hv with _ ≡ object_of ?x => set (l := x) in * end.
  assert (NoDup l.*1) as Hd by distinct_keys. assert (l ≠ []) as Hl by done.
  assert (envelope_invalid v = Valid) as Henv.
  { apply (envelope_passes v l (r_id e)); [done|done|member|member|done]. }
  split.
  { destruct (written_not v l Hv Hd Hl KEY_RESULT) as [Hres _]; [set_solver|]. eexists.
    unfold response_from_json, response_invalid. by rewrite Henv, Hres. }
  destruct (written_at v l Hv Hd Hl KEY_ERROR (object_of m)) as [H1 E1]; [member|].
  set (error := at_ v KEY_ERROR) in *.
  assert (NoDup m.*1) as Hdm by (unfold m; destruct (r_data_present e); distinct_keys).
  assert (m ≠ []) as Hm by done.
  destruct (written_at error m E1 Hdm Hm KEY_CODE (json_of_integer (r_code e))) as [H2 E2]; [member|].
  destruct (written_string error m E1 Hdm Hm KEY_MESSAGE (r_message e)) as (H3 & T3 & S3); [member|].
  assert (has error KEY_DATA = r_data_present e ∧ at_ error KEY_DATA ≡ r_data e) as [H4 E4].
  { destruct (r_data_present e) eqn:Ed; [apply (written_at error m E1 Hdm Hm); member|].
    rewrite (Hdata eq_refl). destruct (written_not error m E1 Hdm Hm KEY_DATA) as [? ->]; [set_solver|done]. }
  assert (is_number_integer (at_ error KEY_CODE) = true) as Hint.
  { rewrite E2. unfold is_number_integer. by rewrite type_of_integer. }
  eexists. unfold error_from_json. assert (error_invalid v = Valid) as ->.
  { unfold error_invalid. rewrite Henv, H1. fold error.
    rewrite (written_object error m E1 Hdm Hm), H2, Hint, H3, T3, H4.
    rewrite (written_members error m E1 Hdm Hm), (written_members v l Hv Hd Hl).
    unfold m. by destruct (r_data_present e). }
  split; [done|]. fold error. cbn. split_and!; [|done|done].
  rewrite (same_integer _ _ E2 Hint), integer_of_integer by lia. by apply to_int_small.
Qed.

End documents.

(** ** A call *)

Section calls.
Context `{JsonLaws J, !JsonText J, !JsonTextLaws J} {S : Type}.
Implicit Types (server : JsonRpcRequestHandler J S) (invoker : JsonRpcRequestInvoker J) (σ : S).

(** A call of the handler without a connection.  The parameters of a request are
    an object or an array, or left out. *)
Definition direct_call server (method : string) (params : J) σ : (thrown J + J) * S :=
  if negb (is_null params) && negb (is_structured params) then
    (inl (Rpc (exception ERROR_RPC_INVALID_REQUEST "'params' is not an array or object")), σ)
  else
    match get_method_handler server method with
    | inl e => (inl (Rpc e), σ)
    | inr handler => handler params σ
    end.

(** The exception the client sees for what the handler throws. *)
Definition seen (t : thrown J) : JsonRpcException J :=
  match t with
  | Rpc e => e
  | Std what => exception ERROR_UNKNOWN ("Unexpected exception: " +:+ what)
  | Unknown => exception ERROR_UNKNOWN "Unexpected exception"
  end.

Definition same_exception (a b : JsonRpcException J) : Prop :=
  ex_code a = ex_code b ∧ ex_message a = ex_message b ∧ ex_data a ≡ ex_data b.

(** The result or exception can be printed; an exception's code is an [int]. *)
Definition deliverable (out : thrown J + J) : Prop :=
  match out with
  | inr result => printable result
  | inl t => printable_string (ex_message (seen t)) ∧ printable (ex_data (seen t)) ∧
             - 2 ^ 31 ≤ ex_code (seen t) < 2 ^ 31
  end.

Ltac printable_members :=
  apply object_of_printable; repeat apply Forall_cons_2; try apply Forall_nil_2; simpl;
  (split; [by apply printable_ascii|]); try done;
  try apply printable_of_string; try apply printable_of_integer; try done;
  try (by apply printable_ascii).

Lemma printable_request (r : JsonRpcRequest J) :
  printable_string (q_method r) → (q_id_present r = true → printable (q_id r)) →
  (q_params_present r = true → printable (q_params r)) → printable (request_to_json r).
Proof.
  intros Hm Hi Hp. unfold request_to_json.
  destruct (q_id_present r), (q_params_present r); printable_members; auto.
Qed.

Lemma printable_response (r : JsonRpcResponse J) :
  printable (s_result r) → printable (s_id r) → printable (response_to_json r).
Proof. intros Hr Hi. unfold response_to_json. printable_members. Qed.

Lemma printable_error (e : JsonRpcError J) :
  printable_string (r_message e) → printable (r_data e) → printable (r_id e) →
  printable (error_to_json e).
Proof.
  intros Hm Hr Hi. unfold error_to_json. printable_members.
  destruct (r_data_present e); printable_members.
Qed.

(** The client reads the response of its own request. *)
Lemma call_gets_response connector invoker σ σ' response :
  m_is_notification invoker = false →
  connector (json_dump (request_to_json (m_request invoker))) σ =
    (inr (json_dump (response_to_json response)), σ') →
  printable (s_result response) → printable (q_id (m_request invoker)) →
  s_id response ≡ q_id (m_request invoker) → id_allowed (q_id (m_request invoker)) = true →
  ∃ invoker', call connector invoker σ = (inr invoker', σ') ∧ m_result invoker' ≡ s_result response.
Proof.
  intros Hn Hc Hr Hpi Hid Ha. unfold call. rewrite Hc, Hn.
  destruct (parse_dump (response_to_json response)) as (v & -> & Hv).
  { apply printable_response; [done|]. by rewrite Hid. }
  destruct (response_roundtrip response v) as (r & -> & Hres & Hrid);
    [by rewrite (id_allowed_proper _ _ Hid)|done|].
  rewrite eqb_same; [by eexists|done|]. by rewrite Hrid, Hid.
Qed.

(** The client throws the error it reads. *)
Lemma call_gets_error connector invoker σ σ' (error : JsonRpcError J) :
  m_is_notification invoker = false →
  connector (json_dump (request_to_json (m_request invoker))) σ =
    (inr (json_dump (error_to_json error)), σ') →
  proper_error error → printable_string (r_message error) → printable (r_data error) →
  printable (r_id error) →
  ∃ e, call connector invoker σ = (inl e, σ') ∧ same_exception e (exception_of_error error).
Proof.
  intros Hn Hc He Hm Hd Hi. unfold call. rewrite Hc, Hn.
  destruct (parse_dump (error_to_json error)) as (v & -> & Hv); [by apply printable_error|].
  destruct (error_roundtrip error v He Hv) as [[x ->] (e & -> & Hrest)].
  by eexists.
Qed.

(** The server hands a request that it can read to its handler. *)
Lemma connected_single server text v σ :
  json_parse text = inr v → is_object v = true →
  connected server text σ =
    let '((send, response), σ') := handle_single_request server v σ in
    (inr (if send then json_dump response else ""), σ').
Proof.
  intros Hp Ho. unfold connected, handle. rewrite Hp.
  assert (is_array v = false) as ->.
  { apply bool_decide_eq_true in Ho. apply bool_decide_eq_false. by rewrite Ho. }
  by destruct (handle_single_request server v σ) as [[[] response] σ'].
Qed.

Lemma error_of_thrown_seen t id :
  exception_of_error (error_of_thrown (J:=J) t id) = seen t ∧ r_id (error_of_thrown t id) = id ∧
  (r_data_present (error_of_thrown t id) = false → r_data (error_of_thrown t id) = json_null).
Proof. destruct t as [[]| |]; by split_and!. Qed.

(** An exception of the handler reaches the client. *)
Lemma call_throws server invoker σ σ' v t id :
  m_is_notification invoker = false → is_object v = true →
  json_parse (json_dump (request_to_json (m_request invoker))) = inr v →
  handle_single_request server v σ = ((true, error_to_json (error_of_thrown t id)), σ') →
  id_allowed id = true → printable id → deliverable (inl t) →
  ∃ e, call (connected server) invoker σ = (inl e, σ') ∧ same_exception e (seen t).
Proof.
  intros Hn Ho Hp Hh Hid Hpid (Hm & Hd & Hc).
  destruct (error_of_thrown_seen t id) as (Hs & Hi & Hnull).
  rewrite <- Hs in *. eapply call_gets_error; [done| | |done|done|by rewrite Hi].
  - by rewrite (connected_single _ _ v), Hh.
  - split_and!; [by rewrite Hi|by apply Hc|by apply Hc|done].
Qed.

(** What the server reads of a request that [prepare_method] made. *)
Lemma prepared_request invoker method params :
  printable params → printable_string method →
  let r := m_request (prepare_method method params invoker) in
  id_allowed (q_id r) = true ∧ printable (q_id r) ∧
  ∃ v, json_parse (json_dump (request_to_json r)) = inr v ∧ is_object v = true ∧
    json_string (at_ v KEY_METHOD) = method ∧ has v KEY_ID = true ∧ at_ v KEY_ID ≡ q_id r ∧
    at_ v KEY_PARAMS ≡ params ∧
    request_invalid v =
      check ERROR_RPC_INVALID_REQUEST (is_null params || is_structured params)
        "'params' is not an array or object".
Proof.
  intros Hp Hm r. assert (id_allowed (q_id r) = true) as Hid.
  { unfold id_allowed, is_number, is_number_integer. simpl. rewrite type_of_integer.
    by rewrite !orb_true_r. }
  assert (printable (q_id r)) as Hpid by apply printable_of_integer.
  assert (q_params_present r = negb (is_null params)) as Hpres by (simpl; by destruct (is_null params)).
  assert (q_params r ≡ params) as Hpar.
  { simpl. destruct (is_null params) eqn:En; [|done].
    symmetry. apply same_null. by apply bool_decide_eq_true in En. }
  split_and!; [done|done|]. destruct (parse_dump (request_to_json r)) as (v & Hparse & Hv).
  { apply printable_request; [done|done|]. by rewrite Hpar. }
  exists v. destruct (request_fields r v) as (Hinv & Hqm & Hqi & Eqi & Hqp & Eqp); [done| |done|].
  { intros Hn. simpl. simpl in Hn. by destruct (is_null params). }
  split_and!; try done.
  - rewrite Hv. by apply bool_decide_eq_true, object_of_type.
  - by rewrite Eqp.
  - rewrite Hinv, Hpres, Hid, (is_structured_proper _ _ Hpar). by destruct (is_null params).
Qed.

(** The server dispatches a request it can read to the handler of its method. *)
Lemma handle_method server v σ :
  request_invalid v = Valid → has v KEY_ID = true →
  handle_single_request server v σ =
    match get_method_handler server (json_string (at_ v KEY_METHOD)) with
    | inl e => ((true, error_to_json (error_of_thrown (Rpc e) (at_ v KEY_ID))), σ)
    | inr handler =>
        let '(result, σ') := handler (at_ v KEY_PARAMS) σ in
        ((true, match result with
                | inl t => error_to_json (error_of_thrown t (at_ v KEY_ID))
                | inr result => response_to_json {| s_result := result; s_id := at_ v KEY_ID |}
                end), σ')
    end.
Proof.
  intros Hok Hid. unfold handle_single_request, request_from_json. rewrite Hok.
  unfold is_notification. cbn [q_id_present q_method q_id q_params]. rewrite Hid. cbn [negb].
  destruct (get_method_handler server _) as [e|handler]; [done|].
  by destruct (handler _ _) as [[]].
Qed.

(** The state the server is left in by a call is that of the handler, and the
    client sees its result or its exception. *)
Definition call_agrees server invoker method params params' σ : Prop :=
  let '(out, σ') := direct_call server method params' σ in
  let '(got, σ'') := call (connected server) (prepare_method method params invoker) σ in
  σ'' = σ' ∧
  (deliverable out →
   match out, got with
   | inr result, inr invoker' => m_result invoker' ≡ result
   | inl t, inl e => same_exception e (seen t)
   | _, _ => False
   end).

Lemma call_state connector invoker σ :
  (call connector invoker σ).2 = (connector (json_dump (request_to_json (m_request invoker))) σ).2.
Proof. unfold call. by destruct (connector _ _). Qed.

Lemma call_agrees_always server invoker method params σ :
  printable params → printable_string method →
  ∃ params', params' ≡ params ∧ call_agrees server invoker method params params' σ.
Proof.
  intros Hp Hm. destruct (prepared_request invoker method params Hp Hm)
    as (Hid & Hpid & v & Hparse & Ho & Hqm & Hqi & Eqi & Eqp & Hinv).
  set (inv := prepare_method method params invoker) in *.
  exists (at_ v KEY_PARAMS). split; [done|]. unfold call_agrees, direct_call. fold inv.
  rewrite (is_null_proper _ _ Eqp), (is_structured_proper _ _ Eqp), <- negb_orb.
  pose proof (call_state (connected server) inv σ) as Hstate.
  rewrite (connected_single _ _ v) in Hstate by done.
  assert (∀ t id σ', handle_single_request server v σ =
      ((true, error_to_json (error_of_thrown t id)), σ') →
    id_allowed id = true → printable id →
    let '(got, σ'') := call (connected server) inv σ in
    σ'' = σ' ∧ (deliverable (inl t) →
      match got with inl e => same_exception e (seen t) | inr _ => False end)) as Hthrow.
  { intros t id σ' Hh Ha Hpr. rewrite Hh in Hstate.
    pose proof (call_throws server inv σ σ' v t id eq_refl Ho Hparse Hh Ha Hpr) as Ht.
    destruct (call _ _ _) as [got σ'']. split; [done|]. intros Hdel.
    by destruct (Ht Hdel) as (e & [= -> ->] & ?). }
  destruct (is_null params || is_structured params); cbn [negb].
  - pose proof (handle_method server v σ Hinv Hqi) as Hh. rewrite Hqm in Hh.
    assert (id_allowed (at_ v KEY_ID) = true) as Ha by (by rewrite (id_allowed_proper _ _ Eqi)).
    assert (printable (at_ v KEY_ID)) as Hpr by (by rewrite Eqi).
    destruct (get_method_handler server method) as [e|handler]; [by eapply Hthrow|].
    destruct (handler (at_ v KEY_PARAMS) σ) as [[t|result] σ']; [by eapply Hthrow|].
    pose proof (call_gets_response (connected server) inv σ σ'
      {| s_result := result; s_id := at_ v KEY_ID |} eq_refl) as Hres.
    rewrite (connected_single _ _ v), Hh in Hres by done. rewrite Hh in Hstate.
    destruct (call _ _ _) as [got σ'']. split; [done|]. intros Hdel.
    by destruct Hres as (? & [= -> ->] & ?).
  - eapply (Hthrow _ json_null); [|apply null_id_allowed|apply printable_null].
    unfold handle_single_request, request_from_json. by rewrite Hinv.
Qed.

(** C8: A method call over JSON-RPC is a call of the handler.  The request the
    invoker prints is parsed and dispatched by the server to the handler of the
    method, with the parameters it was prepared with; the state of the server
    afterwards is the one the handler leaves; and what the invoker returns or
    throws is what the handler returned or threw, an exception of another type
    turned into ERROR_UNKNOWN.  An unknown method and parameters that are neither
    an object nor an array are the errors the standard names, and reach no
    handler. *)
Theorem call_refines_handler server invoker method params σ :
  printable params → printable_string method →
  ∃ params', params' ≡ params ∧ call_agrees server invoker method params params' σ.
Proof. apply call_agrees_always. Qed.

(** ** A batch *)

(** Whether a request of a batch is answered, and under which id: a notification
    is not, and a request that cannot be read is answered under no id. *)
Definition expects_answer (q : J) : bool :=
  match request_from_json q with inl _ => true | inr r => q_id_present r end.

Definition answer_id (q : J) : J :=
  match request_from_json q with inl _ => json_null | inr r => q_id r end.

(** A response or an error under the id of the request. *)
Definition answers (q a : J) : Prop :=
  is_object a = true ∧ at_ a KEY_ID ≡ answer_id q ∧ has a KEY_RESULT = negb (has a KEY_ERROR).

Lemma response_answers q (result : J) :
  answers q (response_to_json {| s_result := result; s_id := answer_id q |}).
Proof.
  unfold answers, response_to_json.
  match goal with |- context [object_of ?x] => set (l := x) end.
  assert (NoDup l.*1) as Hd by distinct_keys. assert (l ≠ []) as Hl by done.
  destruct (written_at _ l ltac:(done) Hd Hl KEY_ID (answer_id q)) as [_ E1]; [member|].
  destruct (written_at _ l ltac:(done) Hd Hl KEY_RESULT result) as [H2 _]; [member|].
  destruct (written_not _ l ltac:(done) Hd Hl KEY_ERROR) as [H3 _]; [set_solver|].
  rewrite H2, H3. split_and!; [|exact E1|done]. by apply (written_object _ l).
Qed.

Lemma error_answers q (e : JsonRpcError J) : r_id e = answer_id q → answers q (error_to_json e).
Proof.
  intros Hid. unfold answers, error_to_json. rewrite Hid.
  match goal with |- context [(KEY_ERROR, object_of ?x)] => set (m := object_of x) end.
  match goal with |- context [object_of ?x] => set (l := x) end.
  assert (NoDup l.*1) as Hd by distinct_keys. assert (l ≠ []) as Hl by done.
  destruct (written_at _ l ltac:(done) Hd Hl KEY_ID (answer_id q)) as [_ E1]; [member|].
  destruct (written_at _ l ltac:(done) Hd Hl KEY_ERROR m) as [H2 _]; [member|].
  destruct (written_not _ l ltac:(done) Hd Hl KEY_RESULT) as [H3 _]; [set_solver|].
  rewrite H2, H3. split_and!; [|exact E1|done]. by apply (written_object _ l).
Qed.

Lemma single_answer server q σ :
  (handle_single_request server q σ).1.1 = expects_answer q ∧
  (expects_answer q = true → answers q (handle_single_request server q σ).1.2).
Proof.
  pose proof (error_answers q) as Herr. pose proof (response_answers q) as Hres.
  unfold handle_single_request, expects_answer, answer_id in *.
  destruct (request_from_json q) as [e|r]; [split; [done|intros _; by apply Herr]|].
  unfold is_notification. destruct (q_id_present r); simpl.
  - destruct (get_method_handler server (q_method r)) as [e|h]; simpl.
    { split; [done|intros _; by apply Herr]. }
    destruct (h (q_params r) σ) as [[t|result] σ']; simpl; (split; [done|intros _]); [|apply Hres].
    apply Herr. by destruct t.
  - destruct (get_notification_handler server (q_method r)) as [e|h]; simpl; [done|].
    by destruct (h (q_params r) σ) as [[t|[]] σ'].
Qed.

Lemma batch_answers server qs σ :
  Forall2 answers (filter (λ q, expects_answer q = true) qs) (handle_batch server qs σ).1.
Proof.
  revert σ. induction qs as [|q qs IH]; intros σ; [constructor|]. rewrite filter_cons. simpl.
  destruct (single_answer server q σ) as [Hs Ha].
  destruct (handle_single_request server q σ) as [[send a] σ1]. simpl in *. subst send.
  specialize (IH σ1). destruct (handle_batch server qs σ1) as [rest σ2]. simpl in *.
  case_decide as E; rewrite ?E; [by constructor; [apply Ha|]|].
  by apply not_true_is_false in E as ->.
Qed.

(** C18: A batch is answered request by request: the server runs the requests
    in order, and what it sends back is one array with one answer for each request
    that is not a notification, in the order of the requests, each a response or an
    error under the id of its request (no id when the request cannot be read).  When
    every request is a notification it sends nothing. *)
Theorem batch_answers_in_order server text v σ :
  json_parse text = inr v → is_array v = true → json_elements v ≠ [] →
  ∃ replies, handle server text σ =
      (if decide (filter (λ q, expects_answer q = true) (json_elements v) = [])
       then "" else json_dump (json_of_array replies),
       (handle_batch server (json_elements v) σ).2) ∧
    Forall2 answers (filter (λ q, expects_answer q = true) (json_elements v)) replies.
Proof.
  intros Hp Ha Hne. exists (handle_batch server (json_elements v) σ).1.
  pose proof (batch_answers server (json_elements v) σ) as Hall. split; [|done].
  unfold handle. rewrite Hp, Ha. apply bool_decide_eq_true in Ha.
  assert (json_empty v = false) as ->.
  { apply not_true_is_false. by intros ?%empty_array. }
  destruct (handle_batch server (json_elements v) σ) as [rest σ']. simpl in *.
  case_decide as E; [rewrite E in Hall; by inversion Hall|].
  by inversion Hall as [E'|]; [rewrite <- E' in E|].
Qed.

End calls.

(** ** Witnesses *)

Module RpcExample.
Import Tree.

(** A server whose only method adds a number to a counter. *)
Definition counting (params : t) (σ : Z) : (thrown t + t) * Z :=
  match json_find params "by" with
  | Some (Unsigned z) => (inr (Unsigned (σ + z)), σ + z)
  | _ => (inl (Rpc (exception 15500 "by is missing")), σ)
  end.

Definition server : JsonRpcRequestHandler t Z := set_method_handler "count" counting empty_handler.

Definition by_two : t := Object [("by", Unsigned 2)].

Lemma call_refines_handler_witness :
  ∃ params', params' = by_two ∧ call_agrees server new_invoker "count" by_two params' 40 ∧
    (call (connected server) (prepare_method "count" by_two new_invoker) 40).2 = 42.
Proof.
  destruct (call_refines_handler (J:=t) server new_invoker "count" by_two 40) as (p & Hp & Ha); [exact I|exact I|].
  exists p. split_and!; [exact Hp|exact Ha|]. vm_compute. reflexivity.
Defined.

(** A call, a notification and a value that is not a request. *)
Definition batch : t :=
  Array [request_to_json (make_method_request "count" (Unsigned 7) (Some by_two));
         request_to_json (make_notification_request "count" (Some by_two)); Null].

Lemma batch_answers_in_order_witness :
  ∃ replies, handle server (json_dump batch) 40 = (json_dump (Array replies), 42) ∧
    length replies = 2%nat.
Proof.
  destruct (batch_answers_in_order (J:=t) server (json_dump batch) batch 40) as (replies & Hh & Hall).
  - apply parse_of_dump.
  - reflexivity.
  - discriminate.
  - exists replies. split; [rewrite Hh|].
    + case_decide as E; [vm_compute in E; discriminate|]. f_equal.
    + apply Forall2_length in Hall. rewrite <- Hall. vm_compute. reflexivity.
Defined.

End RpcExample.
