(* ===== verification/Commands.v ===== *)
(** The commands of an agent: Command and ContextCommand with their registries,
    CommandServer and ContextCommandServer (common/agent-framework, command/).

    A server validates the parameters of a command before it runs it; the
    theorems say which command a call reaches ([server_dispatch]) and, composed
    with the JSON-RPC layer and the schemas, that the code of a command only ever
    runs on a request that conforms to its declaration
    ([command_runs_on_conforming]). *)

From Stdlib Require Import ZArith Lia.
From stdpp Require Import pretty gmap.
From S2P Require Import Prelude.
From S2P Require Import Json.
From S2P Require Import JsonText.
From S2P Require Import Validators.
From S2P Require Import Schema.
From S2P Require Import JsonRpc.
From S2P Require Import JsonRpcCall.

Open Scope string_scope.
Open Scope list_scope.
Open Scope Z_scope.

(** The numbers of the error codes the validators throw. *)
Definition error_code (code : ErrorCode) : Z :=
  match code with
  | INVALID_ENUM => 14300
  | INVALID_VALUE_FORMAT => 14400
  | INVALID_FIELD => 15000
  | DUPLICATED_FIELD => 15200
  | INVALID_FIELD_TYPE => 15300
  | UNEXPECTED_FIELD => 15400
  | MISSING_FIELD => 15500
  end.

(** GamiException is a JsonRpcException with the code, message and data. *)
Definition gami_exception {J} (ex : GamiException J) : JsonRpcException J :=
  {| ex_code := error_code (g_code ex); ex_message := g_message ex; ex_data := g_data ex |}.

Section commands.
Context `{Json J, !JsonText J, !Platform} {S : Type}.

(** ** CommandServer *)

(** CommandBase: [get_procedure], with its name, and the two methods. *)
Record CommandBase := {
  get_procedure_name : string;
  get_procedure : ProcedureValidator;
  method : J → S → (thrown J + J) * S;
  notification : J → S → (thrown J + unit) * S;
}.

(** Command<REQ, RSP>: the handler may change the response it is handed. *)
Section command.
Context {Request Response : Type}.
Context (from_json : J → thrown J + Request) (to_json : Response → J) (response0 : Response).
Context (m_handler : Request → Response → S → (thrown J + Response) * S).

Definition command_method (req : J) (σ : S) : (thrown J + J) * S :=
  match from_json req with
  | inl t => (inl t, σ)
  | inr request =>
      let '(handled, σ') := m_handler request response0 σ in
      (match handled with inl t => inl t | inr response => inr (to_json response) end, σ')
  end.

Definition command_notification (req : J) (σ : S) : (thrown J + unit) * S :=
  match from_json req with
  | inl t => (inl t, σ)
  | inr request =>
      let '(handled, σ') := m_handler request response0 σ in
      (match handled with inl t => inl t | inr response => inr tt end, σ')
  end.

Definition command (name : string) (procedure : ProcedureValidator) : CommandBase :=
  {| get_procedure_name := name; get_procedure := procedure;
     method := command_method; notification := command_notification |}.
End command.

(** Registry::add_handler *)
Definition add_handler (m_commands : list CommandBase) (c : CommandBase) : list CommandBase :=
  m_commands ++ [c].

(** CommandServer::method_wrapper *)
Definition method_wrapper (c : CommandBase) (input : J) (σ : S) : (thrown J + J) * S :=
  match validate (get_procedure c) input with
  | Invalid ex => (inl (Rpc (gami_exception ex)), σ)
  | Valid => method c input σ
  end.

(** CommandServer::notification_wrapper *)
Definition notification_wrapper (c : CommandBase) (input : J) (σ : S) : (thrown J + unit) * S :=
  match validate (get_procedure c) input with
  | Invalid ex => (inl (Rpc (gami_exception ex)), σ)
  | Valid => notification c input σ
  end.

(** The loop of CommandServer::add *)
Fixpoint add_loop (commands : list CommandBase) (registered_commands : list string)
    (m_handler : JsonRpcRequestHandler J S) : JsonRpcRequestHandler J S :=
  match commands with
  | [] => m_handler
  | c :: commands' =>
      let command_name := get_procedure_name c in
      if decide (command_name ∈ registered_commands) then add_loop commands' registered_commands m_handler
      else
        add_loop commands' (registered_commands ++ [command_name])
          (set_notification_handler command_name (notification_wrapper c)
             (set_method_handler command_name (method_wrapper c) m_handler))
  end.

Definition add (commands : list CommandBase) (m_handler : JsonRpcRequestHandler J S) :=
  add_loop commands [] m_handler.

(** ** ContextCommandServer

    The same server with a context that is passed to every command. *)

Record ContextCommandBase (CONTEXT : Type) := {
  ctx_procedure_name : string;
  ctx_procedure : ProcedureValidator;
  ctx_method : CONTEXT → J → S → (thrown J + J) * S;
  ctx_notification : CONTEXT → J → S → (thrown J + unit) * S;
}.

Section context.
Context {CONTEXT : Type} (m_context : CONTEXT).
Abbreviation ContextCommand := (ContextCommandBase CONTEXT).

(** ContextCommandServer::method_wrapper *)
Definition context_method_wrapper (ctx : CONTEXT) (c : ContextCommand) (input : J) (σ : S)
    : (thrown J + J) * S :=
  match validate (ctx_procedure _ c) input with
  | Invalid ex => (inl (Rpc (gami_exception ex)), σ)
  | Valid => ctx_method _ c ctx input σ
  end.

(** ContextCommandServer::notification_wrapper *)
Definition context_notification_wrapper (ctx : CONTEXT) (c : ContextCommand) (input : J) (σ : S)
    : (thrown J + unit) * S :=
  match validate (ctx_procedure _ c) input with
  | Invalid ex => (inl (Rpc (gami_exception ex)), σ)
  | Valid => ctx_notification _ c ctx input σ
  end.

(** The loop of ContextCommandServer::add *)
Fixpoint context_add_loop (commands : list ContextCommand) (registered_commands : list string)
    (m_handler : JsonRpcRequestHandler J S) : JsonRpcRequestHandler J S :=
  match commands with
  | [] => m_handler
  | c :: commands' =>
      let command_name := ctx_procedure_name _ c in
      if decide (command_name ∈ registered_commands)
      then context_add_loop commands' registered_commands m_handler
      else
        context_add_loop commands' (registered_commands ++ [command_name])
          (set_notification_handler command_name (context_notification_wrapper m_context c)
             (set_method_handler command_name (context_method_wrapper m_context c) m_handler))
  end.

(** A command of a context server with the context filled in. *)
Definition bind_context (c : ContextCommand) : CommandBase :=
  {| get_procedure_name := ctx_procedure_name _ c; get_procedure := ctx_procedure _ c;
     method := ctx_method _ c m_context; notification := ctx_notification _ c m_context |}.

Lemma context_add_bound commands registered handler :
  context_add_loop commands registered handler = add_loop (bind_context <$> commands) registered handler.
Proof.
  revert registered handler. induction commands as [|c commands IH]; intros registered handler; [done|].
  simpl. destruct (decide _); apply IH.
Qed.
End context.

(** ** Dispatch *)

(** The first command of a name. *)
Definition first_named (name : string) (commands : list CommandBase) : option CommandBase :=
  find (λ c, bool_decide (get_procedure_name c = name)) commands.

Lemma add_loop_registered commands registered handler name :
  name ∈ registered →
  m_method_handlers (add_loop commands registered handler) !! name = m_method_handlers handler !! name ∧
  m_notification_handlers (add_loop commands registered handler) !! name
    = m_notification_handlers handler !! name.
Proof.
  revert registered handler. induction commands as [|c commands IH]; intros registered handler Hin; [done|].
  simpl. case_decide as Hc; [by apply IH|].
  destruct (IH (registered ++ [get_procedure_name c])
    (set_notification_handler (get_procedure_name c) (notification_wrapper c)
       (set_method_handler (get_procedure_name c) (method_wrapper c) handler))) as [-> ->]; [set_solver|].
  simpl. by rewrite !lookup_insert_ne by set_solver.
Qed.

Lemma add_loop_lookup commands registered handler name :
  name ∉ registered →
  m_method_handlers (add_loop commands registered handler) !! name =
    match first_named name commands with
    | Some c => Some (method_wrapper c)
    | None => m_method_handlers handler !! name
    end.
Proof.
  revert registered handler. induction commands as [|c commands IH]; intros registered handler Hin; [done|].
  unfold first_named. simpl. fold (first_named name commands). case_bool_decide as En.
  - subst name. rewrite decide_False by done.
    set (handler' := set_notification_handler _ _ _).
    etransitivity; [apply (add_loop_registered commands (registered ++ [get_procedure_name c]));
      set_solver|]. simpl. by rewrite lookup_insert_eq.
  - case_decide; rewrite IH; [done|done| |set_solver]. by simpl; rewrite lookup_insert_ne.
Qed.

(** A method call reaches the first command that was registered under the name,
    and its code after the validator has accepted the parameters. *)
Lemma server_dispatch commands name params σ :
  is_null params || is_structured params = true →
  direct_call (add commands empty_handler) name params σ =
    match first_named name commands with
    | None => (inl (Rpc (exception ERROR_RPC_METHOD_NOT_FOUND ("Unknown method: " +:+ name))), σ)
    | Some c => method_wrapper c params σ
    end.
Proof.
  intros Hp. unfold direct_call. rewrite <- negb_orb, Hp. cbn [negb]. unfold get_method_handler, add.
  rewrite add_loop_lookup by apply not_elem_of_nil. by destruct (first_named name commands).
Qed.

End commands.

(** ** Calls of commands *)

Section calls.
Context `{JsonLaws J, !JsonText J, !JsonTextLaws J, !Platform} {S : Type}.

(** C9: A command of an agent runs only on a request that conforms to its
    declaration.  When a client calls a command, the first one registered under the
    name is reached; if the parameters conform to its declaration, its code runs on
    them and the client sees what it returns or throws; if they do not, its code
    does not run, the state of the agent is unchanged, and the client is thrown the
    validator's error with its code, message and data. *)
Theorem command_runs_on_conforming (commands : list (CommandBase (J:=J) (S:=S))) name c fs invoker params σ :
  first_named name commands = Some c → checked fs = true → get_procedure c = procedure_of fs →
  printable params → printable_string name → is_null params || is_structured params = true →
  ∃ params', params' ≡ params ∧
    let '(got, σ') :=
      call (connected (add commands empty_handler)) (prepare_method name params invoker) σ in
    (conforms_request fs params' →
     let '(out, σ'') := method c params' σ in
     σ' = σ'' ∧ (deliverable out →
       match out, got with
       | inr result, inr invoker' => m_result invoker' ≡ result
       | inl t, inl e => same_exception e (seen t)
       | _, _ => False
       end)) ∧
    (¬ conforms_request fs params' →
     σ' = σ ∧ ∃ ex, validate (get_procedure c) params' = Invalid ex ∧
       (deliverable (inl (Rpc (gami_exception ex))) →
        match got with inl e => same_exception e (gami_exception ex) | inr _ => False end)).
Proof.
  intros Hc Hfs Hproc Hp Hn Hs.
  destruct (call_agrees_always (add commands empty_handler) invoker name params σ Hp Hn)
    as (params' & Hsame & Hagree).
  exists params'. split; [done|].
  assert (is_null params' || is_structured params' = true) as Hs' by (by rewrite Hsame).
  unfold call_agrees in Hagree. rewrite (server_dispatch _ _ _ _ Hs'), Hc in Hagree.
  unfold method_wrapper in Hagree. rewrite Hproc in *.
  assert (validate (procedure_of fs) params' = Valid ↔ conforms_request fs params') as Hspec.
  { apply checked_sound in Hfs as Hok. destruct (declared_accepts fs (proj1 Hok) (proj2 Hok)) as (vs & Hvs & Ha).
    rewrite create_declared in Hvs by apply Hok. injection Hvs as <-. apply Ha. }
  destruct (validate (procedure_of fs) params') as [|ex].
  - destruct (method c params' σ) as [out σ'']. destruct (call _ _ _) as [got σ'].
    split; [by intros _|]. intros Hno. by destruct Hno; apply Hspec.
  - destruct (call _ _ _) as [got σ']. split; [by intros ?%Hspec|]. intros _.
    split; [apply Hagree|]. exists ex. split; [done|]. apply Hagree.
Qed.

End calls.

(** ** Witnesses *)

Module CommandExample.
Import SchemaExample.

(** A command that counts the requests it is handed. *)
Definition counter : CommandBase (J:=Tree.t) (S:=nat) :=
  command (λ req, inr req) (λ n : nat, Tree.Unsigned (Z.of_nat n)) 0%nat
    (λ _ _ σ, (inr σ, S σ)) "count" (procedure_of example_fields).

Lemma command_runs_on_conforming_witness :
  ∃ params', params' = good ∧
    let '(got, σ') :=
      call (connected (add [counter] empty_handler)) (prepare_method "count" good new_invoker) 5%nat in
    conforms_request example_fields params' → σ' = 6%nat.
Proof.
  destruct (command_runs_on_conforming [counter] "count" counter example_fields new_invoker good 5%nat)
    as (p & Hp & Hrest); try reflexivity; try exact I.
  exists p. split; [exact Hp|].
  destruct (call _ _ _) as [got σ']. intros Hc. by destruct (proj1 Hrest Hc).
Defined.

End CommandExample.
