(* ===== verification/RestErrors.v ===== *)
(** The errors of the REST server: ServerError, MessageObject and ErrorFactory
    (application/src/rest/server/error), the conversion of the exceptions of the
    agent framework into them, and Connector::handle, which turns every exception
    of a request into a response.

    The theorems state what a client is told: the document of an error
    ([gami_error_document]) and the answer to a request whose body does not
    conform to the schema of its endpoint ([rejected_body_answer]). *)

From Stdlib Require Import ZArith Lia Ascii.
From stdpp Require Import pretty gmap.
From S2P Require Import Prelude.
From S2P Require Import Json.
From S2P Require Import JsonText.
From S2P Require Import Validators.
From S2P Require Import Schema.
From S2P Require Import SchemaEnums.
From S2P Require Import JsonRpc.
From S2P Require Import JsonRpcCall.
From S2P Require Import Commands.

Open Scope string_scope.
Open Scope list_scope.
Open Scope Z_scope.

(** ** Constants *)

(** exceptions::ErrorCode; an error code that arrives from an agent may be any
    number. *)
Module codes.
Definition INVALID_PARAMETER : Z := -32602.
Definition METHOD_NOT_FOUND : Z := -32601.
Definition UNKNOWN_ERROR : Z := -1.
Definition NOT_FOUND : Z := 10000.
Definition NOT_IMPLEMENTED : Z := 11000.
Definition METHOD_NOT_ALLOWED : Z := 12000.
Definition METHOD_CONFLICT : Z := 13000.
Definition INVALID_VALUE : Z := 14000.
Definition UNSUPPORTED_VALUE : Z := 14100.
Definition INVALID_COLLECTION : Z := 14200.
Definition INVALID_ENUM : Z := 14300.
Definition INVALID_VALUE_FORMAT : Z := 14400.
Definition INVALID_UUID : Z := 14500.
Definition INVALID_FIELD : Z := 15000.
Definition UNSUPPORTED_FIELD : Z := 15100.
Definition DUPLICATED_FIELD : Z := 15200.
Definition INVALID_FIELD_TYPE : Z := 15300.
Definition UNEXPECTED_FIELD : Z := 15400.
Definition MISSING_FIELD : Z := 15500.
Definition COMPUTE : Z := 20000.
Definition IPMI : Z := 21000.
Definition NETWORK : Z := 30000.
Definition FM10000 : Z := 31000.
Definition STORAGE : Z := 40000.
Definition ISCSI : Z := 41000.
Definition LVM : Z := 42000.
Definition NVME : Z := 43000.
Definition SPDK : Z := 44000.
Definition PCIE_FABRIC : Z := 50000.
Definition CHASSIS : Z := 60000.
Definition CERTIFICATE : Z := 61000.
Definition FPGAOF : Z := 70000.
End codes.

(** The Redfish codes of server_error.hpp *)
Module ServerErrors.
Definition INTERNAL_ERROR := "Base.1.0.InternalError".
Definition RESOURCE_IN_USE := "Base.1.0.ResourceInUse".
Definition GENERAL_ERROR := "Base.1.0.GeneralError".
Definition MALFORMED_JSON := "Base.1.0.MalformedJSON".
Definition RESOURCE_ALREADY_EXISTS := "Base.1.0.ResourceAlreadyExists".
Definition RESOURCE_MISSING_AT_URI := "Base.1.0.ResourceMissingAtURI".
Definition RESOURCE_AT_URI_UNAUTHORIZED := "Base.1.0.ResourceAtUriUnauthorized".
Definition INSUFFICIENT_PRIVILEGE := "Base.1.0.InsufficientPrivilege".
Definition SERVICE_TEMPORARILY_UNAVAILABLE := "Base.1.0.ServiceTemporarilyUnavailable".
Definition PROPERTY_DUPLICATE := "Base.1.0.PropertyDuplicate".
Definition PROPERTY_VALUE_TYPE_ERROR := "Base.1.0.PropertyValueTypeError".
Definition PROPERTY_UNKNOWN := "Base.1.0.PropertyUnknown".
Definition PROPERTY_MISSING := "Base.1.0.PropertyMissing".
Definition PROPERTY_VALUE_NOT_IN_LIST := "Base.1.0.PropertyValueNotInList".
Definition PROPERTY_VALUE_FORMAT_ERROR := "Base.1.0.PropertyValueFormatError".
Definition PROPERTY_NOT_MODIFIABLE := "Intel_RackScale.1.0.0.PropertyNotModifiable".
Definition PROPERTY_VALUE_RESTRICTED := "Intel_RackScale.1.0.0.PropertyValueRestricted".
End ServerErrors.

(** The texts of error_factory.cpp *)
Module messages.
Definition GENERAL_ERROR_MESSAGE := "A general error has occurred. See ExtendedInfo for more information.".
Definition INTERNAL_ERROR_MESSAGE :=
  "The request failed due to an internal service error. The service is still operational.".
Definition INTERNAL_ERROR_RESOLUTION :=
  "Resubmit the request. If the problem persists, consider resetting the service.".
Definition RESOURCE_IN_USE_MESSAGE :=
  "The change to the requested resource failed because the resource is in use or in transition.".
Definition RESOURCE_IN_USE_RESOLUTION :=
  "Remove the condition and resubmit the request if the operation failed.".
Definition RESOURCE_ALREADY_EXISTS_MESSAGE := "The requested resource already exists.".
Definition RESOURCE_ALREADY_EXISTS_RESOLUTION :=
  "Do not repeat the create operation as the resource has already been created.".
Definition RESOURCE_MISSING_AT_URI_MESSAGE := "The resource at the URI %s was not found.".
Definition RESOURCE_MISSING_AT_URI_RESOLUTION :=
  "Place a valid resource at the URI or correct the URI and resubmit the request.".
Definition MALFORMED_JSON_MESSAGE :=
  "The request body submitted was malformed JSON and could not be parsed by the receiving service.".
Definition MALFORMED_JSON_RESOLUTION :=
  "Ensure that the request body is valid JSON and resubmit the request.".
Definition UNAUTHORIZED_MESSAGE :=
  "While accessing the resource at %s, the service received an authorization error.".
Definition UNAUTHORIZED_RESOLUTION :=
  "Ensure that the appropriate access is provided for the service in order for it to access the URI.".
Definition INSUFFICIENT_PRIVILEGE_MESSAGE :=
  "There are insufficient privileges for the account or credentials associated with the current session to perform the requested operation.".
Definition INSUFFICIENT_PRIVILEGE_RESOLUTION :=
  "Either abandon the operation or change the associated access rights and resubmit the request if the operation failed.".
Definition PROPERTY_DUPLICATE_MESSAGE := "The property %s was duplicated in the request.".
Definition PROPERTY_DUPLICATE_RESOLUTION :=
  "Remove the duplicate property from the request body and resubmit the request if the operation failed.".
Definition PROPERTY_UNKNOWN_MESSAGE :=
  "The property %s is not in the list of valid properties for the resource.".
Definition PROPERTY_UNKNOWN_RESOLUTION :=
  "Remove the unknown property from the request body and resubmit the request if the operation failed.".
Definition PROPERTY_MISSING_MESSAGE :=
  "The property %s is a required property and must be included in the request.".
Definition PROPERTY_MISSING_RESOLUTION :=
  "Ensure that the property is in the request body and has a valid value and resubmit the request if the operation failed.".
Definition PROPERTY_VALUE_TYPE_ERROR_MESSAGE :=
  "The value %s for the property %s is a different type than the property can accept.".
Definition PROPERTY_VALUE_TYPE_ERROR_RESOLUTION :=
  "Correct the value for the property in the request body and resubmit the request if the operation failed.".
Definition PROPERTY_VALUE_NOT_IN_LIST_MESSAGE :=
  "The value %s for the property %s is not in the list of acceptable values.".
Definition PROPERTY_VALUE_NOT_IN_LIST_RESOLUTION :=
  "Choose a value from the enumeration list that the implementation can support and resubmit the request if the operation failed.".
Definition PROPERTY_VALUE_FORMAT_ERROR_MESSAGE :=
  "The value %s for the property %s is a different format than the property can accept.".
Definition PROPERTY_VALUE_FORMAT_ERROR_RESOLUTION :=
  "Correct the value for the property in the request body and resubmit the request if the operation failed.".
Definition SERVICE_TEMPORARILY_UNAVAILABLE_MESSAGE :=
  "The service is temporarily unavailable. Retry in %d seconds.".
Definition SERVICE_TEMPORARILY_UNAVAILABLE_RESOLUTION :=
  "Wait for the indicated retry duration and retry the operation.".
Definition PROPERTY_NOT_MODIFIABLE_MESSAGE :=
  "The service is unable to modify the property %s even though metadata specifies it as writeable.".
Definition PROPERTY_NOT_MODIFIABLE_RESOLUTION :=
  "Remove the unmodifiable property from the request body and resubmit the request.".
Definition PROPERTY_VALUE_RESTRICTED_MESSAGE :=
  "The value %s for property %s is not within restrictions imposed by the Service.".
Definition PROPERTY_VALUE_RESTRICTED_RESOLUTION :=
  "Correct the value for the property in the request body and resubmit the request.".
End messages.

(** status.hpp *)
Definition BAD_REQUEST : Z := 400.
Definition UNAUTHORIZED : Z := 401.
Definition NOT_FOUND : Z := 404.
Definition METHOD_NOT_ALLOWED : Z := 405.
Definition CONFLICT : Z := 409.
Definition GONE : Z := 410.
Definition INTERNAL_SERVER_ERROR : Z := 500.
Definition NOT_IMPLEMENTED : Z := 501.
Definition SERVICE_UNAVAILABLE : Z := 503.

(** constants::ErrorMessage, constants::MessageObject and constants::Common *)
Module keys.
Definition ERROR := "error".
Definition CODE := "code".
Definition MESSAGE := "message".
Definition EXTENDED_INFO := "@Message.ExtendedInfo".
Definition JSON_POINTER_PREFIX := "#/".
Definition MESSAGE_ID := "MessageId".
Definition MESSAGE_TEXT := "Message".
Definition MESSAGE_ARGS := "MessageArgs".
Definition RELATED_PROPERTIES := "RelatedProperties".
Definition SEVERITY := "Severity".
Definition RESOLUTION := "Resolution".
Definition ODATA_TYPE := "@odata.type".
Definition URI := "uri".
Definition TASK := "task".
End keys.

(** The type of a message *)
Definition TYPE := "#Message.v1_0_0.Message".

(** ENUM(Severity, ...) *)
Inductive Severity := Critical | Warning | OK.

Definition severity_text (s : Severity) : string :=
  match s with Critical => "Critical" | Warning => "Warning" | OK => "OK" end.

(** [vsnprintf] for the conversions the formats use, the arguments as texts; a
    text is read up to its first NUL. *)
Fixpoint resolve_va_args (format : string) (args : list string) : string :=
  match format with
  | String "%" (String "s" rest) | String "%" (String "d" rest) =>
      match args with
      | a :: args' => c_str a +:+ resolve_va_args rest args'
      | [] => ""
      end
  | String c rest => String c (resolve_va_args rest args)
  | EmptyString => EmptyString
  end.

Section errors.
Context `{Json J, !JsonText J}.

(** ** MessageObject *)

Record MessageObject := {
  m_message_id : string;
  m_text : string;
  m_message_args : list string;
  m_severity : Severity;
  m_resolution : string;
  m_related_properties : list string;
}.

(** create_message_object, with the constructor and the setters it calls *)
Definition create_message_object (redfish_code message : string) (severity : Severity)
    (resolution : string) (related_properties : list string) : MessageObject :=
  {| m_message_id := redfish_code; m_text := message; m_message_args := []; m_severity := severity;
     m_resolution := resolution;
     m_related_properties := (λ p, keys.JSON_POINTER_PREFIX +:+ p) <$> related_properties |}.

(** MessageObject::add_related_property *)
Definition add_related_property (p : string) (m : MessageObject) : MessageObject :=
  {| m_message_id := m_message_id m; m_text := m_text m; m_message_args := m_message_args m;
     m_severity := m_severity m; m_resolution := m_resolution m;
     m_related_properties := m_related_properties m ++ [keys.JSON_POINTER_PREFIX +:+ p] |}.

(** MessageObject::operator json::Json *)
Definition message_json (m : MessageObject) : J :=
  object_of
    [(keys.ODATA_TYPE, json_of_string TYPE);
     (keys.MESSAGE_ID, json_of_string (m_message_id m));
     (keys.MESSAGE_TEXT, json_of_string (m_text m));
     (keys.RELATED_PROPERTIES, json_of_array (json_of_string <$> m_related_properties m));
     (keys.MESSAGE_ARGS, json_of_array (json_of_string <$> m_message_args m));
     (keys.RESOLUTION,
      if decide (m_resolution m = "") then json_null else json_of_string (m_resolution m));
     (keys.SEVERITY, json_of_string (severity_text (m_severity m)))].

(** ** ServerError *)

Record ServerError := { m_http_status_code : Z; m_error : J }.

(** [o[key][key'] = value] *)
Definition insert_in (o : J) (key key' : string) (value : J) : J :=
  json_insert o key (json_insert (at_ o key) key' value).

(** ServerError::ServerError *)
Definition new_error (status_code : Z) : ServerError :=
  {| m_http_status_code := status_code;
     m_error := insert_in (insert_in (insert_in json_null keys.ERROR keys.CODE json_null)
                  keys.ERROR keys.MESSAGE json_null)
                  keys.ERROR keys.EXTENDED_INFO (json_of_array []) |}.

Definition set_code (code : string) (e : ServerError) : ServerError :=
  {| m_http_status_code := m_http_status_code e;
     m_error := insert_in (m_error e) keys.ERROR keys.CODE (json_of_string code) |}.

Definition set_message (message : string) (e : ServerError) : ServerError :=
  {| m_http_status_code := m_http_status_code e;
     m_error := insert_in (m_error e) keys.ERROR keys.MESSAGE (json_of_string message) |}.

(** ServerError::get_extended_messages *)
Definition get_extended_messages (e : ServerError) : J := at_ (at_ (m_error e) keys.ERROR) keys.EXTENDED_INFO.

(** ServerError::add_extended_message *)
Definition add_extended_message (m : MessageObject) (e : ServerError) : ServerError :=
  {| m_http_status_code := m_http_status_code e;
     m_error := insert_in (m_error e) keys.ERROR keys.EXTENDED_INFO
       (json_of_array (json_elements (get_extended_messages e) ++ [message_json m])) |}.

(** ServerError::as_string *)
Definition as_string (e : ServerError) : string := json_dump (m_error e).

(** ** ErrorFactory *)

Definition create_error (code : Z) (redfish_code format : string) (args : list string) : ServerError :=
  set_message (resolve_va_args format args) (set_code redfish_code (new_error code)).

(** [if (!message.empty()) { server_error.add_extended_message(...); }] *)
Definition described (redfish_code message : string) (severity : Severity) (resolution : string)
    (related_properties : list string) (e : ServerError) : ServerError :=
  if decide (message = "") then e
  else add_extended_message
         (create_message_object redfish_code message severity resolution related_properties) e.

Definition create_internal_error (message : string) : ServerError :=
  described ServerErrors.INTERNAL_ERROR message Critical messages.INTERNAL_ERROR_RESOLUTION []
    (create_error INTERNAL_SERVER_ERROR ServerErrors.INTERNAL_ERROR messages.INTERNAL_ERROR_MESSAGE []).

Definition create_resource_in_use_error (message : string) : ServerError :=
  described ServerErrors.RESOURCE_IN_USE message Warning messages.RESOURCE_IN_USE_RESOLUTION []
    (create_error BAD_REQUEST ServerErrors.RESOURCE_IN_USE messages.RESOURCE_IN_USE_MESSAGE []).

Definition create_malformed_json_error (message : string) : ServerError :=
  described ServerErrors.MALFORMED_JSON message Critical messages.MALFORMED_JSON_RESOLUTION []
    (create_error BAD_REQUEST ServerErrors.MALFORMED_JSON messages.MALFORMED_JSON_MESSAGE []).

Definition create_resource_already_exists_error (message : string) : ServerError :=
  described ServerErrors.RESOURCE_ALREADY_EXISTS message Critical
    messages.RESOURCE_ALREADY_EXISTS_RESOLUTION []
    (create_error BAD_REQUEST ServerErrors.RESOURCE_ALREADY_EXISTS
       messages.RESOURCE_ALREADY_EXISTS_MESSAGE []).

Definition create_resource_missing_error (resource_uri message : string) : ServerError :=
  described ServerErrors.RESOURCE_MISSING_AT_URI message Critical
    messages.RESOURCE_MISSING_AT_URI_RESOLUTION []
    (create_error NOT_FOUND ServerErrors.RESOURCE_MISSING_AT_URI
       messages.RESOURCE_MISSING_AT_URI_MESSAGE [resource_uri]).

Definition create_resource_gone_error (resource_uri message : string) : ServerError :=
  described ServerErrors.RESOURCE_MISSING_AT_URI message Critical
    messages.RESOURCE_MISSING_AT_URI_RESOLUTION []
    (create_error GONE ServerErrors.RESOURCE_MISSING_AT_URI
       messages.RESOURCE_MISSING_AT_URI_MESSAGE [resource_uri]).

Definition create_method_not_allowed_error (message resolution : string) : ServerError :=
  described ServerErrors.GENERAL_ERROR message Critical resolution []
    (create_error METHOD_NOT_ALLOWED ServerErrors.GENERAL_ERROR messages.GENERAL_ERROR_MESSAGE []).

Definition create_unauthorized_error (resource_uri message : string) : ServerError :=
  described ServerErrors.RESOURCE_AT_URI_UNAUTHORIZED message Critical messages.UNAUTHORIZED_RESOLUTION []
    (create_error UNAUTHORIZED ServerErrors.RESOURCE_AT_URI_UNAUTHORIZED
       messages.UNAUTHORIZED_MESSAGE [resource_uri]).

Definition create_insufficient_privilege_error (message : string) : ServerError :=
  described ServerErrors.INSUFFICIENT_PRIVILEGE message Critical
    messages.INSUFFICIENT_PRIVILEGE_RESOLUTION []
    (create_error UNAUTHORIZED ServerErrors.INSUFFICIENT_PRIVILEGE
       messages.INSUFFICIENT_PRIVILEGE_MESSAGE []).

Definition create_property_duplicated_error (property message : string) : ServerError :=
  described ServerErrors.PROPERTY_DUPLICATE message Warning messages.PROPERTY_DUPLICATE_RESOLUTION []
    (create_error BAD_REQUEST ServerErrors.PROPERTY_DUPLICATE
       messages.PROPERTY_DUPLICATE_MESSAGE [property]).

Definition create_property_unknown_error (property message : string) : ServerError :=
  described ServerErrors.PROPERTY_UNKNOWN message Warning messages.PROPERTY_UNKNOWN_RESOLUTION []
    (create_error BAD_REQUEST ServerErrors.PROPERTY_UNKNOWN messages.PROPERTY_UNKNOWN_MESSAGE [property]).

Definition create_property_type_error (property property_value message : string) : ServerError :=
  described ServerErrors.PROPERTY_VALUE_TYPE_ERROR message Warning
    messages.PROPERTY_VALUE_TYPE_ERROR_RESOLUTION []
    (create_error BAD_REQUEST ServerErrors.PROPERTY_VALUE_TYPE_ERROR
       messages.PROPERTY_VALUE_TYPE_ERROR_MESSAGE [property_value; property]).

Definition create_property_missing_error (property message : string) (related_properties : list string)
    : ServerError :=
  described ServerErrors.PROPERTY_MISSING message Warning messages.PROPERTY_MISSING_RESOLUTION
    related_properties
    (create_error BAD_REQUEST ServerErrors.PROPERTY_MISSING messages.PROPERTY_MISSING_MESSAGE [property]).

Definition create_value_format_error (property property_value message : string) : ServerError :=
  described ServerErrors.PROPERTY_VALUE_FORMAT_ERROR message Warning
    messages.PROPERTY_VALUE_FORMAT_ERROR_RESOLUTION []
    (create_error BAD_REQUEST ServerErrors.PROPERTY_VALUE_FORMAT_ERROR
       messages.PROPERTY_VALUE_FORMAT_ERROR_MESSAGE [property_value; property]).

Definition create_value_not_in_list_error (property property_value message resolution : string)
    (related_properties : list string) : ServerError :=
  described ServerErrors.PROPERTY_VALUE_NOT_IN_LIST message Warning
    (if decide (resolution = "") then messages.PROPERTY_VALUE_NOT_IN_LIST_RESOLUTION else resolution)
    related_properties
    (create_error BAD_REQUEST ServerErrors.PROPERTY_VALUE_NOT_IN_LIST
       messages.PROPERTY_VALUE_NOT_IN_LIST_MESSAGE [property_value; property]).

Definition create_agent_unreachable_error (message : string) : ServerError :=
  described ServerErrors.SERVICE_TEMPORARILY_UNAVAILABLE message Critical
    messages.SERVICE_TEMPORARILY_UNAVAILABLE_RESOLUTION []
    (create_error SERVICE_UNAVAILABLE ServerErrors.SERVICE_TEMPORARILY_UNAVAILABLE
       messages.SERVICE_TEMPORARILY_UNAVAILABLE_MESSAGE [pretty 5%Z]).

Definition create_invalid_payload_error (message : string) (json_fields : list string)
    (resolution : string) : ServerError :=
  described ServerErrors.GENERAL_ERROR message Critical resolution json_fields
    (create_error BAD_REQUEST ServerErrors.GENERAL_ERROR messages.GENERAL_ERROR_MESSAGE []).

Definition create_error_for_not_allowable_value (message property_name property_value
    allowable_values_property_name : string) : ServerError :=
  create_value_not_in_list_error property_name property_value message
    (if decide (allowable_values_property_name = "") then ""
     else "Use one of the allowable values defined in " +:+ allowable_values_property_name +:+ " property.")
    [property_name].

Definition create_conflict_error (message resolution : string) : ServerError :=
  described ServerErrors.GENERAL_ERROR message Critical resolution []
    (create_error CONFLICT ServerErrors.GENERAL_ERROR messages.GENERAL_ERROR_MESSAGE []).

Definition create_not_implemented_error (message resolution : string) : ServerError :=
  described ServerErrors.GENERAL_ERROR message Critical resolution []
    (create_error NOT_IMPLEMENTED ServerErrors.GENERAL_ERROR messages.GENERAL_ERROR_MESSAGE []).

Definition create_property_not_modifiable_error (property message : string)
    (related_properties : list string) : ServerError :=
  described ServerErrors.PROPERTY_NOT_MODIFIABLE message Warning
    messages.PROPERTY_NOT_MODIFIABLE_RESOLUTION related_properties
    (create_error BAD_REQUEST ServerErrors.PROPERTY_NOT_MODIFIABLE
       messages.PROPERTY_NOT_MODIFIABLE_MESSAGE [property]).

Definition create_property_value_restricted_error (property property_value message : string)
    (related_properties : list string) : ServerError :=
  described ServerErrors.PROPERTY_VALUE_RESTRICTED message Warning
    messages.PROPERTY_VALUE_RESTRICTED_RESOLUTION related_properties
    (create_error BAD_REQUEST ServerErrors.PROPERTY_VALUE_RESTRICTED
       messages.PROPERTY_VALUE_RESTRICTED_MESSAGE [property_value; property]).

(** ** Exceptions of the agent framework *)

(** GamiException::get_string_from_data; [None] is the exception of the conversion
    of a value that is not a string. *)
Definition get_string_from_data (data : J) (field_key : string) : option string :=
  match json_find data field_key with
  | None => Some ""
  | Some v => if is_string v then Some (json_string v) else None
  end.

Definition NOT_SPECIFIED := "<not specified>".

Definition or_not_specified (should_return_empty : bool) (s : string) : string :=
  if decide (s = "") then (if should_return_empty then s else NOT_SPECIFIED) else s.

(** InvalidField::get_field_name_from_json_data *)
Definition get_field_name (data : J) (should_return_empty : bool) : option string :=
  or_not_specified should_return_empty <$> get_string_from_data data FIELD_NAME.

(** [field_value.erase(remove(LF)); replace(double quote by quote)] *)
Fixpoint restyle (s : string) : string :=
  match s with
  | EmptyString => EmptyString
  | String c s' =>
      if decide (c = "010"%char) then restyle s'
      else String (if decide (c = "034"%char) then "'"%char else c) (restyle s')
  end.

(** GamiException::get_styled_string_from_data *)
Definition get_styled_string_from_data (data : J) (field_key : string) : string :=
  match json_find data field_key with None => "" | Some v => restyle (json_dump v) end.

(** InvalidField::get_field_value_from_json_data *)
Definition get_field_value (data : J) (should_return_empty : bool) : string :=
  or_not_specified should_return_empty (get_styled_string_from_data data FIELD_VALUE).

(** NotFound::get_uri_from_json_data *)
Definition get_uri (data : J) (should_return_empty : bool) : option string :=
  or_not_specified should_return_empty <$> get_string_from_data data keys.URI.

(** NotFound(msg, uri) *)
Definition not_found (msg uri : string) : JsonRpcException J :=
  {| ex_code := codes.NOT_FOUND; ex_message := msg;
     ex_data := json_insert json_null keys.URI (json_of_string uri) |}.

(** MethodConflict::get_task_uuid; [value] throws unless the data is an object
    whose member is a string. *)
Definition get_task_uuid (data : J) : option string :=
  if is_object data then get_string_from_data data keys.TASK else None.

(** The switch of create_message_object_from_gami_code: code, message, severity,
    resolution, and whether the name of the field is read from the data. *)
Definition gami_message (code : Z) (gami_text : string) : string * string * Severity * string * bool :=
  if decide (code = codes.INVALID_UUID) then
    (ServerErrors.INTERNAL_ERROR, "Could not find one of the requested resources.", Critical,
     messages.INTERNAL_ERROR_RESOLUTION, false)
  else if decide (code ∈ [codes.INVALID_PARAMETER; codes.INVALID_COLLECTION]) then
    (ServerErrors.INTERNAL_ERROR, gami_text, Critical, "", false)
  else if decide (code ∈ [codes.COMPUTE; codes.IPMI; codes.NETWORK; codes.FM10000; codes.STORAGE;
      codes.ISCSI; codes.LVM; codes.NVME; codes.SPDK; codes.PCIE_FABRIC; codes.CHASSIS; codes.FPGAOF;
      codes.CERTIFICATE]) then
    (ServerErrors.INTERNAL_ERROR, gami_text, Critical, messages.INTERNAL_ERROR_RESOLUTION, false)
  else if decide (code ∈ [codes.METHOD_CONFLICT; codes.METHOD_NOT_FOUND; codes.NOT_IMPLEMENTED]) then
    (ServerErrors.GENERAL_ERROR, gami_text, Critical, "", false)
  else if decide (code = codes.METHOD_NOT_ALLOWED) then
    (ServerErrors.GENERAL_ERROR, gami_text, Critical, "", false)
  else if decide (code ∈ [codes.INVALID_FIELD; codes.UNSUPPORTED_FIELD]) then
    (ServerErrors.GENERAL_ERROR, gami_text, Critical, "", true)
  else if decide (code = codes.INVALID_FIELD_TYPE) then
    (ServerErrors.PROPERTY_VALUE_TYPE_ERROR, gami_text, Warning,
     messages.PROPERTY_VALUE_TYPE_ERROR_RESOLUTION, true)
  else if decide (code = codes.DUPLICATED_FIELD) then
    (ServerErrors.PROPERTY_DUPLICATE, gami_text, Warning, messages.PROPERTY_DUPLICATE_RESOLUTION, true)
  else if decide (code = codes.UNEXPECTED_FIELD) then
    (ServerErrors.PROPERTY_UNKNOWN, gami_text, Warning, messages.PROPERTY_UNKNOWN_RESOLUTION, true)
  else if decide (code = codes.MISSING_FIELD) then
    (ServerErrors.PROPERTY_MISSING, gami_text, Warning, messages.PROPERTY_MISSING_RESOLUTION, true)
  else if decide (code = codes.INVALID_ENUM) then
    (ServerErrors.PROPERTY_VALUE_NOT_IN_LIST, gami_text, Warning,
     messages.PROPERTY_VALUE_NOT_IN_LIST_RESOLUTION, true)
  else if decide (code = codes.INVALID_VALUE_FORMAT) then
    (ServerErrors.PROPERTY_VALUE_FORMAT_ERROR, gami_text, Warning,
     messages.PROPERTY_VALUE_FORMAT_ERROR_RESOLUTION, false)
  else if decide (code ∈ [codes.INVALID_VALUE; codes.UNSUPPORTED_VALUE]) then
    (ServerErrors.GENERAL_ERROR, gami_text, Critical, "", false)
  else if decide (code = codes.NOT_FOUND) then
    (ServerErrors.RESOURCE_MISSING_AT_URI, gami_text, Critical,
     messages.RESOURCE_MISSING_AT_URI_RESOLUTION, false)
  else (ServerErrors.GENERAL_ERROR, gami_text, Critical, "", false).

(** create_message_object_from_gami_code; [None] is the exception of the data. *)
Definition create_message_object_from_gami_code (code : Z) (gami_text : string) (data : J)
    : option MessageObject :=
  let '(redfish_code, message, severity, resolution, names_field) := gami_message code gami_text in
  property_name ← if names_field : bool then get_field_name data true else Some "";
  Some (create_message_object redfish_code message severity resolution
          (if decide (property_name = "") then [] else [property_name])).

(** The switch of create_error_from_gami_exception but for METHOD_CONFLICT. *)
Definition gami_error (code : Z) (data : J) : option ServerError :=
  let field := get_field_name data false in
  let value := get_field_value data false in
  if decide (code ∈ [codes.UNSUPPORTED_FIELD; codes.INVALID_FIELD; codes.UNSUPPORTED_VALUE;
      codes.INVALID_VALUE]) then Some (create_invalid_payload_error "" [] "")
  else if decide (code = codes.INVALID_ENUM) then
    (λ f, create_value_not_in_list_error f value "" "" []) <$> field
  else if decide (code = codes.INVALID_VALUE_FORMAT) then
    (λ f, create_value_format_error f value "") <$> field
  else if decide (code = codes.MISSING_FIELD) then
    (λ f, create_property_missing_error f "" []) <$> field
  else if decide (code = codes.UNEXPECTED_FIELD) then
    (λ f, create_property_unknown_error f "") <$> field
  else if decide (code = codes.INVALID_FIELD_TYPE) then
    (λ f, create_property_type_error f value "") <$> field
  else if decide (code = codes.DUPLICATED_FIELD) then
    (λ f, create_property_duplicated_error f "") <$> field
  else if decide (code ∈ [codes.NOT_IMPLEMENTED; codes.METHOD_NOT_FOUND]) then
    Some (create_not_implemented_error "" "")
  else if decide (code = codes.METHOD_NOT_ALLOWED) then Some (create_method_not_allowed_error "" "")
  else if decide (code = codes.NOT_FOUND) then
    (λ uri, create_resource_missing_error uri "") <$> get_uri data false
  else Some (create_internal_error "").

(** ErrorFactory::create_error_from_gami_exception.  [task_url] is
    get_component_url for a task, [None] when it throws NotFound; the result is
    [None] when the data makes the conversion throw. *)
Definition create_error_from_gami_exception (task_url : string → option string)
    (e : JsonRpcException J) : option ServerError :=
  if decide (ex_code e = codes.METHOD_CONFLICT) then
    task_uuid ← get_task_uuid (ex_data e);
    Some (create_conflict_error (ex_message e)
      (match task_url task_uuid with
       | Some url => "Please wait until task " +:+ url +:+ " is finished, then try again"
       | None => ""
       end))
  else
    server_error ← gami_error (ex_code e) (ex_data e);
    message ← create_message_object_from_gami_code (ex_code e) (ex_message e) (ex_data e);
    Some (add_extended_message message server_error).

(** GamiResultStatus *)
Record GamiResultStatus := { gs_attribute : string; gs_status_code : Z; gs_message : string }.

(** ErrorFactory::create_error_from_set_component_attributes_results *)
Definition create_error_from_set_component_attributes_results (statuses : list GamiResultStatus)
    (fields_map : gmap string string) : option ServerError :=
  foldl (λ acc status,
    error ← acc;
    message_object ← create_message_object_from_gami_code (gs_status_code status) (gs_message status) json_null;
    Some (add_extended_message
            (match fields_map !! gs_attribute status with
             | Some field => add_related_property field message_object
             | None => message_object
             end) error)) (Some (create_internal_error "")) statuses.

(** ** The client of an agent and the connector of the server *)

(** exceptions::is_communication_error *)
Definition is_communication_error (error_code : Z) : bool :=
  bool_decide (error_code ∈ [codes.INVALID_PARAMETER; codes.INVALID_FIELD; codes.DUPLICATED_FIELD;
    codes.UNEXPECTED_FIELD; codes.MISSING_FIELD]).

(** What reaches Connector::handle. *)
Inductive rest_exception :=
  | AgentUnreachable
  | NotFoundException (message : string)
  | GamiError (e : JsonRpcException J)
  | ServerException (error : ServerError)
  | RpcError (e : JsonRpcException J)
  | StdException
  | UnknownException.

(** The catch clause of RpcClient::CallMethod. *)
Definition rpc_client_rethrow (task_url : string → option string) (ex : JsonRpcException J)
    : rest_exception :=
  if is_communication_error (ex_code ex) then
    ServerException (create_internal_error "There were communication errors with underlying Agent.")
  else if decide (ex_code ex = ERROR_CLIENT_CONNECTOR) then RpcError ex
  else
    match create_error_from_gami_exception task_url ex with
    | Some error => ServerException error
    | None => StdException
    end.

Record Response := { m_status : Z; m_body : string }.

(** The catch clauses of Connector::handle; [None] is an exception that leaves a
    noexcept function. *)
Definition response_of_exception (task_url : string → option string) (url : string)
    (ex : rest_exception) : option Response :=
  let answer error := {| m_status := m_http_status_code error; m_body := as_string error |} in
  match ex with
  | AgentUnreachable => Some (answer (create_agent_unreachable_error "Could not connect to underlying agent."))
  | NotFoundException message =>
      answer <$> create_error_from_gami_exception task_url (not_found message url)
  | GamiError e => answer <$> create_error_from_gami_exception task_url e
  | ServerException error => Some (answer error)
  | RpcError _ | StdException | UnknownException => Some (answer (create_internal_error ""))
  end.

(** Connector::try_handle and Connector::handle *)
Definition connector_handle {S} (task_url : string → option string) (url : string)
    (access : bool) (callback : Response → S → (option rest_exception * Response) * S)
    (response : Response) (σ : S) : option Response * S :=
  if access then
    let '((thrown, response'), σ') := callback response σ in
    (match thrown with
     | None => Some response'
     | Some ex => response_of_exception task_url url ex
     end, σ')
  else
    (response_of_exception task_url url (ServerException (create_insufficient_privilege_error
       "Credentials do not have sufficient privileges for the requested operation.")), σ).

(** ** JsonValidator *)

(** JsonValidator::deserialize_json_from_request *)
Definition deserialize_json_from_request (body : string) : rest_exception + J :=
  match json_parse body with
  | inl what => inl (ServerException (create_malformed_json_error what))
  | inr json => inr json
  end.

(** JsonValidator::validate_request_body *)
Definition validate_request_body `{!Platform} (body : string) (schema : ProcedureValidator)
    : rest_exception + J :=
  match deserialize_json_from_request body with
  | inl ex => inl ex
  | inr json =>
      match validate schema json with
      | Invalid ex => inl (GamiError (gami_exception ex))
      | Valid => inr json
      end
  end.

(** JsonValidator::validate_empty_request; the schema is EmptyObjectSchema. *)
Definition validate_empty_request `{!Platform} (body : string) (schema : ProcedureValidator)
    : option rest_exception :=
  if decide (body = "") then None
  else match validate_request_body body schema with inl ex => Some ex | inr _ => None end.

End errors.

(** ** Documents *)

Section documents.
Context `{JsonLaws J, !JsonText J}.

(** The document of an error: its code, its message, and the messages in its
    extended information. *)
Definition document (e : ServerError) (code message : string) (extended : list J) : Prop :=
  ∃ error info, json_find (m_error e) keys.ERROR = Some error ∧
    json_find error keys.CODE = Some (json_of_string code) ∧
    json_find error keys.MESSAGE = Some (json_of_string message) ∧
    json_find error keys.EXTENDED_INFO = Some info ∧
    json_type info = array ∧ json_elements info = extended.

(** The members of the object an error document holds. *)
Definition error_members (o : J) (f : string → option J) : Prop :=
  ∃ error, json_find o keys.ERROR = Some error ∧ json_type error = object ∧ ∀ j, json_find error j = f j.

Lemma insert_in_members o f k v :
  error_members o f →
  error_members (insert_in o keys.ERROR k v) (λ j, if decide (k = j) then Some v else f j).
Proof.
  intros (error & Hk & Ht & Hf). unfold insert_in, at_. rewrite Hk. simpl.
  eexists. rewrite find_insert by (left; by eapply find_object). rewrite decide_True by done.
  split_and!; [done|apply type_insert; by left|]. intros j. rewrite find_insert by (by left).
  by rewrite Hf.
Qed.

Lemma insert_in_new k v :
  error_members (insert_in json_null keys.ERROR k v) (λ j, if decide (k = j) then Some v else None).
Proof.
  pose proof (type_null (J:=J)) as Hn. unfold insert_in, at_. rewrite (find_null json_null) by done. simpl.
  eexists. rewrite find_insert by (by right). rewrite decide_True by done.
  split_and!; [done|apply type_insert; by right|]. intros j. rewrite find_insert by (by right).
  by rewrite (find_null json_null).
Qed.

Lemma members_document e f code message info :
  error_members (m_error e) f → f keys.CODE = Some (json_of_string code) →
  f keys.MESSAGE = Some (json_of_string message) → f keys.EXTENDED_INFO = Some info →
  json_type info = array → document e code message (json_elements info).
Proof.
  intros (error & He & _ & Hf) Hc Hm Hi Ht. exists error, info. by rewrite !Hf.
Qed.

Lemma create_error_document status code format args :
  document (create_error status code format args) code (resolve_va_args format args) [].
Proof.
  rewrite <- (elements_of_array (J:=J) []) at 1. eapply members_document.
  - do 4 apply insert_in_members. apply insert_in_new.
  - done.
  - done.
  - done.
  - apply type_of_array.
Qed.

Lemma document_members e code message extended :
  document e code message extended →
  ∃ f, error_members (m_error e) f ∧ f keys.CODE = Some (json_of_string code) ∧
    f keys.MESSAGE = Some (json_of_string message) ∧ json_elements (get_extended_messages e) = extended.
Proof.
  intros (error & info & He & Hc & Hm & Hi & _ & Hel). exists (json_find error).
  split_and!; [|done|done|].
  - exists error. split_and!; [done|by eapply find_object|done].
  - unfold get_extended_messages, at_. rewrite He. simpl. by rewrite Hi.
Qed.

Lemma add_extended_document e code message extended m :
  document e code message extended →
  document (add_extended_message m e) code message (extended ++ [message_json m]).
Proof.
  intros (f & Hf & Hc & Hm & Hel)%document_members.
  rewrite <- (elements_of_array (J:=J) (extended ++ [message_json m])).
  eapply members_document; [by apply insert_in_members|done|done| |apply type_of_array].
  simpl. by rewrite Hel.
Qed.

Lemma described_document e code message extended redfish text severity resolution related :
  document e code message extended →
  document (described redfish text severity resolution related e) code message
    (extended ++ (if decide (text = "") then []
                  else [message_json (create_message_object redfish text severity resolution related)])).
Proof.
  intros Hd. unfold described. case_decide; [by rewrite app_nil_r|]. by apply add_extended_document.
Qed.

(** The error of a code before its extended message: one of six statuses. *)
Lemma gami_error_plain code data err :
  gami_error code data = Some err →
  ∃ status redfish format args, err = create_error status redfish format args ∧
    status ∈ [BAD_REQUEST; NOT_FOUND; METHOD_NOT_ALLOWED; INTERNAL_SERVER_ERROR; NOT_IMPLEMENTED].
Proof.
  unfold gami_error. intros Herr.
  repeat (case_decide; [first [injection Herr as <-
    |apply fmap_Some in Herr as (? & _ & ->)]; do 4 eexists; split; [reflexivity|]; set_solver|]).
  injection Herr as <-. do 4 eexists. split; [reflexivity|]. set_solver.
Qed.

Lemma gami_message_text code text :
  (gami_message code text).1.1.1.2 = text ∨ code = codes.INVALID_UUID.
Proof.
  unfold gami_message. case_decide; [by right|left].
  repeat (case_decide; [reflexivity|]). reflexivity.
Qed.

Lemma message_of_gami_code code text data m :
  create_message_object_from_gami_code code text data = Some m →
  m_text m = text ∨ code = codes.INVALID_UUID.
Proof.
  unfold create_message_object_from_gami_code. pose proof (gami_message_text code text) as Ht.
  destruct (gami_message code text) as [[[[redfish message] severity] resolution] names_field].
  intros (name & _ & [= <-])%bind_Some. exact Ht.
Qed.

(** An exception of the agent framework becomes a complete Redfish error.
    Whatever the code, message and data of the exception, when the conversion
    returns, the status is one of 400, 404, 405, 409, 500 and 501, and the document
    holds a code, a message and the extended information: one message object with
    the text of the exception (a fixed text for an invalid uuid), left out only for
    a conflict without a text. *)
Theorem gami_error_document task_url (e : JsonRpcException J) err :
  create_error_from_gami_exception task_url e = Some err →
  m_http_status_code err ∈ [BAD_REQUEST; NOT_FOUND; METHOD_NOT_ALLOWED; CONFLICT;
                            INTERNAL_SERVER_ERROR; NOT_IMPLEMENTED] ∧
  ∃ code text ms, document err code text (message_json <$> ms) ∧
    (ms = [] ∧ ex_code e = codes.METHOD_CONFLICT ∧ ex_message e = "" ∨
     ∃ m, ms = [m] ∧ (m_text m = ex_message e ∨ ex_code e = codes.INVALID_UUID)).
Proof.
  unfold create_error_from_gami_exception. case_decide as Ec.
  - intros (uuid & _ & [= <-])%bind_Some.
    set (resolution := match task_url uuid with Some _ => _ | None => _ end).
    split; [unfold create_conflict_error, described; case_decide; simpl; set_solver|].
    pose proof (described_document _ _ _ _ ServerErrors.GENERAL_ERROR (ex_message e) Critical resolution []
      (create_error_document CONFLICT ServerErrors.GENERAL_ERROR messages.GENERAL_ERROR_MESSAGE [])) as Hd.
    do 2 eexists. case_decide as Em.
    + exists []. split; [exact Hd|]. by left.
    + eexists [_]. split; [exact Hd|]. right. eexists. split; [reflexivity|]. by left.
  - intros (plain & Hp & (m & Hm & [= <-])%bind_Some)%bind_Some.
    apply gami_error_plain in Hp as (status & redfish & format & args & -> & Hs).
    split; [simpl; set_solver|]. exists redfish, (resolve_va_args format args), [m].
    split; [apply (add_extended_document _ _ _ []), create_error_document|].
    right. exists m. split; [done|]. by eapply message_of_gami_code.
Qed.

End documents.

(** ** Requests with a body *)

Section bodies.
Context `{JsonLaws J, !JsonText J, !Platform}.

(** The answer an error gives. *)
Definition answer_of (err : ServerError (J:=J)) : Response :=
  {| m_status := m_http_status_code err; m_body := as_string err |}.

(** The errors of the validator, as Redfish codes. *)
Definition redfish_code (code : ErrorCode) : string :=
  match code with
  | INVALID_FIELD => ServerErrors.GENERAL_ERROR
  | MISSING_FIELD => ServerErrors.PROPERTY_MISSING
  | INVALID_FIELD_TYPE => ServerErrors.PROPERTY_VALUE_TYPE_ERROR
  | INVALID_VALUE_FORMAT => ServerErrors.PROPERTY_VALUE_FORMAT_ERROR
  | INVALID_ENUM => ServerErrors.PROPERTY_VALUE_NOT_IN_LIST
  | UNEXPECTED_FIELD => ServerErrors.PROPERTY_UNKNOWN
  | DUPLICATED_FIELD => ServerErrors.PROPERTY_DUPLICATE
  end.

Lemma field_data_name (f : string) (v : J) :
  get_string_from_data (create_json_data_from_field f v) FIELD_NAME = Some f.
Proof.
  pose proof (type_null (J:=J)) as Hn. unfold get_string_from_data, create_json_data_from_field.
  rewrite find_insert by (left; apply type_insert; by right). rewrite decide_False by done.
  rewrite find_insert by (by right). rewrite decide_True by done.
  unfold is_string. by rewrite type_of_string, string_of_string.
Qed.

Lemma field_data_name' (f : string) (v : J) :
  get_field_name_from_json_data (create_json_data_from_field f v) = f.
Proof.
  pose proof (field_data_name f v) as Hf. unfold get_string_from_data in Hf.
  unfold get_field_name_from_json_data. destruct (json_find _ _) as [x|]; [|by injection Hf].
  destruct (is_string x); [by injection Hf|done].
Qed.

(** The error of a rejected body. *)
Lemma rejection_error task_url (ex : GamiException J) f v :
  g_data ex = create_json_data_from_field f v →
  ∃ err text m, create_error_from_gami_exception task_url (gami_exception ex) = Some err ∧
    m_http_status_code err = BAD_REQUEST ∧ document err (redfish_code (g_code ex)) text [message_json m] ∧
    m_text m = g_message ex ∧
    m_related_properties m =
      if decide (f = "" ∨ g_code ex = INVALID_VALUE_FORMAT) then []
      else [keys.JSON_POINTER_PREFIX +:+ f].
Proof.
  intros Hdata. unfold create_error_from_gami_exception, create_message_object_from_gami_code, get_field_name.
  assert (∀ status redfish format args m,
    document (add_extended_message m (create_error (J:=J) status redfish format args)) redfish
      (resolve_va_args format args) [message_json m]) as Hdoc.
  { intros. apply (add_extended_document _ _ _ []), create_error_document. }
  pose proof (field_data_name f v) as Hn.
  assert (or_not_specified true f = f) as Ho by (unfold or_not_specified; by case_decide).
  destruct (g_code ex) eqn:Ec; simpl; rewrite Ec, Hdata; simpl; unfold gami_error, get_field_name;
    simpl; rewrite ?Hn; simpl; do 3 eexists; (split_and!; [reflexivity|reflexivity|apply Hdoc|reflexivity|]);
    simpl; rewrite ?Ho; repeat case_decide; simpl; first [reflexivity|exfalso; naive_solver].
Qed.

Lemma validate_data vs (json : J) ex :
  validate vs json = Invalid ex → ∃ f v, g_data ex = create_json_data_from_field f v.
Proof.
  unfold validate. destruct (check_request _ _ _) as [|ex']; [done|]. intros [= <-]. by do 2 eexists.
Qed.

Lemma validate_conforms fs (json : J) :
  checked fs = true → validate (procedure_of fs) json = Valid ↔ conforms_request fs json.
Proof.
  intros [Hwf Hst]%checked_sound. destruct (declared_accepts (J:=J) fs Hwf Hst) as (vs & Hvs & Ha).
  rewrite create_declared in Hvs by done. injection Hvs as <-. apply Ha.
Qed.

Lemma malformed_answer task_url url fs body what :
  json_parse (J:=J) body = inl what →
  ∃ thrown err text ms, validate_request_body (J:=J) body (procedure_of fs) = inl thrown ∧
    response_of_exception task_url url thrown = Some (answer_of err) ∧
    m_http_status_code err = BAD_REQUEST ∧ document err ServerErrors.MALFORMED_JSON text ms.
Proof.
  intros Hb. unfold validate_request_body, deserialize_json_from_request. rewrite Hb.
  eexists _, _, _, _. split_and!; [reflexivity|reflexivity| |].
  - unfold create_malformed_json_error, described. by case_decide.
  - apply described_document, create_error_document.
Qed.

Lemma conforming_body fs body (json : J) :
  checked fs = true → json_parse body = inr json → conforms_request fs json →
  validate_request_body body (procedure_of fs) = inr json.
Proof.
  intros Hfs Hb Hc. unfold validate_request_body, deserialize_json_from_request.
  by rewrite Hb, (proj2 (validate_conforms fs json Hfs) Hc).
Qed.

Lemma refused_body task_url url fs body (json : J) :
  checked fs = true → json_parse body = inr json → ¬ conforms_request fs json →
  ∃ ex f v err text m, validate_request_body body (procedure_of fs) = inl (GamiError (gami_exception ex)) ∧
    response_of_exception task_url url (GamiError (gami_exception ex)) = Some (answer_of err) ∧
    validate (procedure_of fs) json = Invalid ex ∧ g_data ex = create_json_data_from_field f v ∧
    m_http_status_code err = BAD_REQUEST ∧ document err (redfish_code (g_code ex)) text [message_json m] ∧
    m_text m = g_message ex ∧
    m_related_properties m =
      (if decide (f = "" ∨ g_code ex = INVALID_VALUE_FORMAT) then [] else [keys.JSON_POINTER_PREFIX +:+ f]).
Proof.
  intros Hfs Hb Hc. rewrite <- validate_conforms in Hc by done.
  unfold validate_request_body, deserialize_json_from_request. rewrite Hb.
  destruct (validate (procedure_of fs) json) as [|ex] eqn:Ev; [done|].
  destruct (validate_data _ _ _ Ev) as (f & v & Hdata).
  destruct (rejection_error task_url ex f v Hdata) as (err & text & m & Herr & Hrest).
  exists ex, f, v, err, text, m. cbn [response_of_exception]. rewrite Herr. split_and!; try done; apply Hrest.
Qed.

(** C10: JsonValidator::validate_request_body, which the endpoints with a body call before they
    do anything else with it, returns a document only when the body is one and conforms to
    the schema.  Otherwise it throws, and the answer of Connector::handle to
    the exception is: for a body that is not JSON 400 and MalformedJSON; for a
    document that does not conform 400 with the Redfish code of the first error and one
    message.  The related property of the message is the pointer to a place of the
    document and the error was found with the value there, but no property is named for
    a value in a wrong format (a number out of its bounds, a text that does not match)
    and for the document as a whole.  The schema is [checked]: its declarations can
    be read back and the names of the fields at one level are the same array exactly when
    they have the same text, which holds for all schemas of the REST server. *)
Theorem rejected_body_answer task_url url fs body :
  checked fs = true →
  match json_parse body with
  | inl what => ∃ thrown err text ms, validate_request_body body (procedure_of fs) = inl thrown ∧
      response_of_exception task_url url thrown = Some (answer_of err) ∧
      m_http_status_code err = BAD_REQUEST ∧ document err ServerErrors.MALFORMED_JSON text ms
  | inr json =>
      (conforms_request fs json → validate_request_body body (procedure_of fs) = inr json) ∧
      (¬ conforms_request fs json →
       ∃ thrown err ex path text m, validate_request_body body (procedure_of fs) = inl thrown ∧
         response_of_exception task_url url thrown = Some (answer_of err) ∧
         validate (procedure_of fs) json = Invalid ex ∧
         m_http_status_code err = BAD_REQUEST ∧
         document err (redfish_code (g_code ex)) text [message_json m] ∧ m_text m = g_message ex ∧
         m_related_properties m =
           (if decide (render path = "" ∨ g_code ex = INVALID_VALUE_FORMAT) then []
            else [keys.JSON_POINTER_PREFIX +:+ render path]) ∧
         let value := get_field_value_as_json_from_json_data (g_data ex) in
         match follow (Some json) path with
         | Some x => value = if decide (g_code ex = UNEXPECTED_FIELD) then json_of_string (json_dump x) else x
         | None => value = json_null ∧ g_code ex ≠ UNEXPECTED_FIELD
         end)
  end.
Proof.
  intros Hfs. destruct (json_parse body) as [what|json] eqn:Hb; [by apply (malformed_answer _ _ _ _ what)|].
  split; [by apply conforming_body|]. intros Hc.
  destruct (refused_body task_url url fs body json Hfs Hb Hc)
    as (ex & f & v & err & text & m & E & Ha & Ev & Hdata & Hrest).
  destruct (rejection_located fs json ex (proj2 (checked_sound _ Hfs)) Ev) as (_ & path & Hpath & Hval).
  rewrite Hdata, field_data_name' in Hpath. subst f.
  exists (GamiError (gami_exception ex)), err, ex, path, text, m. split_and!; try done; apply Hrest.
Qed.

(** The answer of the REST server when the validator of an agent rejects a
    request of the server: four of the codes are hidden behind an internal error;
    the errors of types, formats and enumerations are passed on as errors of the
    client's request, with the name of the agent's field. *)
Lemma agent_rejection_answer task_url (ex : GamiException J) f v :
  g_data ex = create_json_data_from_field f v →
  ∃ err, rpc_client_rethrow task_url (gami_exception ex) = ServerException err ∧
    if decide (g_code ex ∈ [INVALID_FIELD_TYPE; INVALID_VALUE_FORMAT; INVALID_ENUM])
    then m_http_status_code err = BAD_REQUEST ∧ ∃ text m,
      document err (redfish_code (g_code ex)) text [message_json m] ∧
      m_related_properties m =
        if decide (f = "" ∨ g_code ex = INVALID_VALUE_FORMAT) then []
        else [keys.JSON_POINTER_PREFIX +:+ f]
    else err = create_internal_error "There were communication errors with underlying Agent.".
Proof.
  intros Hdata. destruct (rejection_error task_url ex f v Hdata) as (err & text & m & Herr & Hs & Hd & _ & Hr).
  unfold rpc_client_rethrow. rewrite Herr.
  destruct (g_code ex) eqn:Ec; simpl; rewrite Ec; simpl;
    solve [by eexists|exists err; split; [done|]; split; [done|]; by exists text, m].
Qed.

End bodies.

(** ** Witnesses *)

Module RestErrorsExample.
Import SchemaExample.

Lemma rejected_body_answer_witness :
  ∃ thrown err, validate_request_body (json_dump bad) (procedure_of example_fields) = inl thrown ∧
    response_of_exception (λ _, None) "/" thrown = Some (answer_of err) ∧ m_http_status_code err = 400.
Proof.
  pose proof (rejected_body_answer (J:=Tree.t) (λ _, None) "/" example_fields (json_dump bad)
    ltac:(reflexivity)) as Hall.
  change (json_parse (json_dump bad)) with (Tree.parse (Tree.dump bad)) in Hall.
  rewrite Tree.parse_of_dump in Hall. destruct Hall as [_ Hno].
  destruct Hno as (thrown & err & ex & path & text & m & Ht & Hans & _ & Hs & _).
  - intros Hc. destruct (declared_accepts (J:=Tree.t) example_fields) as (vs & Hvs & Hspec).
    + apply (bool_decide_eq_true_1 _). vm_compute. reflexivity.
    + exact example_static.
    + apply Hspec in Hc. vm_compute in Hvs. injection Hvs as <-. vm_compute in Hc. discriminate.
  - exists thrown, err. split; [exact Ht|]. split; [exact Hans|exact Hs].
Defined.

Definition lost : JsonRpcException Tree.t := not_found "No such drive." "/redfish/v1/Chassis/1".

Lemma gami_error_document_witness :
  ∃ err, create_error_from_gami_exception (λ _, None) lost = Some err ∧
    m_http_status_code err ∈ [400; 404; 405; 409; 500; 501].
Proof.
  destruct (create_error_from_gami_exception (λ _, None) lost) as [err|] eqn:E; [|vm_compute in E; discriminate].
  destruct (gami_error_document (λ _, None) lost err E) as [Hs _]. exists err. split; [reflexivity|exact Hs].
Defined.

End RestErrorsExample.
