(* ===== verification/SubscriptionPost.v ===== *)
(** The POST of a subscription: SubscriptionCollection::post
    (application/src/rest/endpoints/event_subscriptions_collection.cpp), from the text of
    the request to the subscriptions of the manager and the answer of the
    connector.

    [describes] says which JSON documents stand for a subscription.  The theorem
    [post_subscribes] ties the schema of the endpoint, the validator,
    Subscription::from_json and SubscriptionManager::add together: the documents that
    describe a subscription, and no others, create it.  The location header of the
    response is not modelled. *)

From Stdlib Require Import ZArith Lia Ascii.
From S2P Require Import Prelude.
From S2P Require Import Database.
From S2P Require Import Json.
From S2P Require Import JsonText.
From S2P Require Import SchemaEnums.
From S2P Require Import Eventing.
From S2P Require Import Validators.
From S2P Require Import Schema.
From S2P Require Import RestSchemas.
From S2P Require Import JsonRpc.
From S2P Require Import Commands.
From S2P Require Import RestErrors.

Open Scope string_scope.
Open Scope list_scope.
Open Scope Z_scope.

Module SubscriptionPost.
Import Eventing.

Definition CREATED : Z := 201.

Section post.
Context `{JsonLaws J, !JsonText J, !JsonTextLaws J, !Platform}.

(** Multiplexer::is_correct_endpoint_url *)
Context (is_correct_endpoint_url : Database.str → bool).

(** The text of the InvalidValue exception of [from_json], from the first origin that is no
    endpoint. *)
Definition invalid_origin (json : J) : string :=
  let urls := omap (λ v, json_find v ODATA_ID) (json_range (default json_null (json_find json ORIGIN_RESOURCES))) in
  match list_find (λ v, is_correct_endpoint_url (String.list_ascii_of_string (json_string v)) = false) urls with
  | Some (_, v) => "Origin resource '" +:+ json_string v +:+ "' is not a valid endpoint in /redfish/v1 namespace."
  | None => ""
  end.

(** SubscriptionCollection::post; the outer [Throw] is undefined behaviour. *)
Definition post (now : Z) (body : string) (response : Response) (m : SubscriptionManager)
    : result ((option (rest_exception (J:=J)) * Response) * SubscriptionManager) :=
  match validate_request_body body (procedure_of SubscriptionCollectionPostSchema) with
  | inl ex => Ok ((Some ex, response), m)
  | inr json =>
      match from_json is_correct_endpoint_url json true with
      | Throw undefined_behaviour => Throw undefined_behaviour
      | Throw invalid_value =>
          Ok ((Some (GamiError {| ex_code := codes.INVALID_VALUE; ex_message := invalid_origin json;
                                  ex_data := json_null |}), response), m)
      | Throw _ => Ok ((Some StdException, response), m)
      | Ok subscription =>
          match add_subscription J now subscription m with
          | (Ok _, m') => Ok ((None, {| m_status := CREATED; m_body := m_body response |}), m')
          | (Throw e, _) => Throw e
          end
      end
  end.

(** ** The documents of subscriptions *)

Definition string_member (json : J) (key : string) (s : Database.str) : Prop :=
  ∃ v, json_find json key = Some v ∧ is_string v = true ∧ String.list_ascii_of_string (json_string v) = s.

(** An array of at most 2^32 - 1 elements that stand for those of a list. *)
Definition array_member {A} (json : J) (key : string) (P : J → A → Prop) (l : list A) : Prop :=
  ∃ v, json_find json key = Some v ∧ is_array v = true ∧ Z.of_nat (json_size v) < 2 ^ 32 ∧
    Forall2 P (json_elements v) l.

(** The name of an enumerator, as far as a zero in it. *)
Definition names_type (v : J) (e : EventType) : Prop :=
  is_string v = true ∧ SchemaEnums.c_str (json_string v) = EventType_to_string e.

(** An object with a link and nothing else. *)
Definition links (v : J) (url : Database.str) : Prop :=
  is_object v = true ∧ string_member v "@odata.id" url ∧ ∀ k, is_Some (json_find v k) → k = "@odata.id".

(** The document stands for a subscription: six members at most, of which the origins may be
    left out or null. *)
Record describes (json : J) (s : Subscription) : Prop := {
  d_id : sub_id s = 0;
  d_object : is_object json = true;
  d_members k : is_Some (json_find json k) →
    k ∈ ["Name"; "Destination"; "EventTypes"; "Context"; "Protocol"; "OriginResources"];
  d_name : string_member json "Name" (sub_name s);
  d_destination : string_member json "Destination" (sub_destination s);
  d_context : string_member json "Context" (sub_context s);
  d_protocol : ∃ v, json_find json "Protocol" = Some v ∧ is_string v = true ∧
    SchemaEnums.c_str (json_string v) = "Redfish";
  d_types : array_member json "EventTypes" names_type (sub_event_types s);
  d_origins : array_member json "OriginResources" links (sub_origin_resources s) ∨
    sub_origin_resources s = [] ∧ ∀ v, json_find json "OriginResources" = Some v → is_null v = true;
}.

(** ** What the schema admits *)

Lemma choose_all {A B} (P : A → B → Prop) (l : list A) :
  (∀ i x, l !! i = Some x → ∃ y, P x y) → ∃ l', Forall2 P l l'.
Proof.
  induction l as [|x l IH]; intros Hl; [by exists []|]. destruct (Hl 0%nat x eq_refl) as [y Hy].
  destruct IH as [l' Hl']; [intros i; apply (Hl (S i))|]. exists (y :: l'). by constructor.
Qed.

Lemma names_type_allowable v :
  is_string v = true ∧ is_allowable_value SchemaEnums.EventType (json_string v) = true ↔ ∃ e, names_type v e.
Proof.
  unfold names_type. split.
  - intros [Hs Ha]. cbn in Ha. repeat case_decide; try done.
    + by exists Alert.
    + by exists ResourceAdded.
    + by exists ResourceRemoved.
    + by exists ResourceUpdated.
    + by exists StatusChange.
  - intros (e & Hs & He). split; [done|]. cbn. rewrite He. by destruct e.
Qed.

Lemma links_conform v : conforms (VALID_ATTRIBUTE SimpleObjectSchema) (Some v) ↔ ∃ url, links v url.
Proof.
  cbn [conforms]. unfold links, conforms_members, string_member. cbn. split.
  - intros (x & [= <-] & Hx & ((y & Hy & Hs) & _) & Hk). exists (String.list_ascii_of_string (json_string y)).
    split_and!; [done|by exists y|]. intros k Hkk. apply Hk in Hkk. by apply list_elem_of_singleton in Hkk.
  - intros (url & Hx & (y & Hy & Hs & _) & Hk). exists v. split_and!; [done|done|by exists y|done|].
    intros k Hkk. rewrite (Hk k Hkk). apply list_elem_of_here.
Qed.

Lemma array_admitted {A} (s : schema) (P : J → A → Prop) (json : J) key :
  (∀ v, conforms s (Some v) ↔ ∃ a, P v a) →
  conforms (VALID_ARRAY_OF s) (json_find json key) ↔ ∃ l, array_member json key P l.
Proof.
  intros Hs. cbn [conforms]. unfold array_member. split.
  - intros (v & Hv & Ha & Hn & Hall). destruct (choose_all P (json_elements v)) as [l Hl].
    { intros i y Hy. apply Hs, (Hall i y Hy). }
    exists l, v. split_and!; [done|done| |done]. unfold UINT32_MAX in Hn. lia.
  - intros (l & v & Hv & Ha & Hn & Hl). exists v. split_and!; [done|done|unfold UINT32_MAX; lia|].
    intros i y Hy. apply Hs. destruct (Forall2_lookup_l _ _ _ _ _ Hl Hy) as (a & _ & Hp). by exists a.
Qed.

Lemma string_admitted (json : J) key :
  conforms (VALID_JSON JSON_STRING) (json_find json key) ↔ ∃ s, string_member json key s.
Proof.
  cbn. unfold string_member. split.
  - intros (v & Hv & Hs). by exists (String.list_ascii_of_string (json_string v)), v.
  - intros (s & v & Hv & Hs & _). by exists v.
Qed.

Lemma null_object (json : J) key v : json_find json key = Some v → is_object json = true.
Proof. intros E%find_object. by apply bool_decide_eq_true. Qed.

(** The schema of the endpoint admits exactly the documents of subscriptions. *)
Lemma schema_describes (json : J) :
  conforms_request SubscriptionCollectionPostSchema json ↔ ∃ s, describes json s.
Proof.
  pose proof (array_admitted (VALID_ENUM (is_allowable_value SchemaEnums.EventType) SchemaEnums.EventType)
    names_type json "EventTypes") as Htypes.
  pose proof (array_admitted (VALID_ATTRIBUTE SimpleObjectSchema) links json "OriginResources" links_conform)
    as Horigins.
  assert (∀ v, conforms (VALID_ENUM (is_allowable_value SchemaEnums.EventType) SchemaEnums.EventType) (Some v) ↔
    ∃ e, names_type v e) as Henum.
  { intros v. rewrite <- names_type_allowable. cbn [conforms]. split; [by intros (x & [= <-] & ?)|by exists v]. }
  specialize (Htypes Henum). clear Henum.
  unfold conforms_request, conforms_members, SubscriptionCollectionPostSchema. cbn [fst text].
  split.
  - intros [Hobj [(Hname & Hdest & Ht & Hctx & Hprot & Hor & _) Hkeys]].
    apply string_admitted in Hname as [name Hname]. apply string_admitted in Hdest as [dest Hdest].
    apply string_admitted in Hctx as [ctx Hctx]. apply Htypes in Ht as [types Ht].
    assert (∃ origins, array_member json "OriginResources" links origins ∨
      origins = [] ∧ ∀ v, json_find json "OriginResources" = Some v → is_null v = true) as [origins Ho].
    { cbn [conforms] in Hor. change (text EventSubscription_ORIGIN_RESOURCES) with "OriginResources" in Hor.
      destruct Hor as [Hor|[(x & Hx & Hnull)|Hor]].
      - exists []. right. split; [done|]. intros v. by rewrite Hor.
      - exists []. right. split; [done|]. intros v. rewrite Hx. by intros [= <-].
      - apply Horigins in Hor as [l Hl]. exists l. by left. }
    exists (mkSubscription 0 name dest ctx Redfish types origins).
    split; try done.
    + destruct Hname as (v & Hv & _). by eapply null_object.
    + cbn in Hprot. destruct Hprot as (v & Hv & Hs & Ha). exists v. split_and!; [done|done|].
      by case_decide.
  - intros [s [_ Hobj Hk Hname Hdest Hctx (p & Hp & Hps & Hpr) Ht Ho]]. split; [by left|]. split; [|done].
    split_and!.
    + apply string_admitted. by eexists.
    + apply string_admitted. by eexists.
    + apply Htypes. by eexists.
    + apply string_admitted. by eexists.
    + exists p. split_and!; [done|done|]. cbn. by rewrite Hpr.
    + cbn [conforms]. change (text EventSubscription_ORIGIN_RESOURCES) with "OriginResources".
      destruct Ho as [Ho|[_ Ho]]; [right; right; apply Horigins; by eexists|].
      destruct (json_find json "OriginResources") as [v|]; [|by left]. right. left. exists v. split; [done|by apply Ho].
    + done.
Qed.

(** ** What [from_json] reads *)

Lemma string_member_read (json : J) key s : string_member json key s → (member json key ≫= get_string) = Ok s.
Proof.
  intros (v & Hv & Hs & <-). unfold member. rewrite Hv. cbn [mbind result_bind]. unfold get_string. by rewrite Hs.
Qed.

Lemma array_range_elements (v : J) : is_array v = true → json_range v = json_elements v ∧ is_null v = false.
Proof. unfold is_array, json_range, is_null. intros E%bool_decide_eq_true. by rewrite E. Qed.

Lemma collect_elements {A} (f : J → result A) (P : J → A → Prop) l xs :
  Forall2 P l xs → (∀ v x, P v x → f v = Ok x) → collect f l = Ok xs.
Proof.
  intros Hl Hf. induction Hl as [|v x l xs Hv _ IH]; [done|]. cbn [collect].
  rewrite (Hf v x Hv). cbn [mbind result_bind]. by rewrite IH.
Qed.

Lemma collect_checked {A} (f : J → result A) (P : J → A → Prop) (check : A → bool) e l xs :
  Forall2 P l xs → (∀ v x, P v x → f v = if check x then Ok x else Throw e) →
  collect f l = if forallb check xs then Ok xs else Throw e.
Proof.
  intros Hl Hf. induction Hl as [|v x l xs Hv _ IH]; [done|]. cbn [collect forallb].
  rewrite (Hf v x Hv). destruct (check x); [|done]. cbn [mbind result_bind]. rewrite IH. by destruct (forallb check xs).
Qed.

Lemma EventType_named v e :
  names_type v e → (s ← get_string v; EventType_from_string (String.string_of_list_ascii s)) = Ok e.
Proof.
  intros [Hs He]. unfold get_string. rewrite Hs. cbn [mbind result_bind].
  rewrite String.string_of_list_ascii_of_string.
  unfold EventType_from_string, enum_from_string. cbn [SchemaEnums.from_string SchemaEnums.EventType].
  rewrite He. by destruct e.
Qed.

Lemma from_json_describes (json : J) s :
  describes json s →
  from_json is_correct_endpoint_url json true =
    if forallb is_correct_endpoint_url (sub_origin_resources s) then Ok s else Throw invalid_value.
Proof.
  intros [Hid _ _ Hname Hdest Hctx (p & Hp & Hps & Hpr) (types & Ht & Hta & _ & Hte) Ho]. unfold from_json.
  change NAME with "Name". rewrite (string_member_read _ _ _ Hname).
  change DESTINATION with "Destination". rewrite (string_member_read _ _ _ Hdest).
  change CONTEXT with "Context". rewrite (string_member_read _ _ _ Hctx).
  change PROTOCOL with "Protocol". rewrite (string_member_read json "Protocol" (String.list_ascii_of_string (json_string p)))
    by (by exists p).
  change EVENT_TYPES with "EventTypes".
  assert (member json "EventTypes" = Ok types) as -> by (unfold member; by rewrite Ht).
  cbn [mbind result_bind].
  rewrite (proj1 (array_range_elements types Hta)), (collect_elements _ _ _ _ Hte EventType_named).
  cbn [mbind result_bind]. rewrite String.string_of_list_ascii_of_string.
  assert (SubscriptionProtocol_from_string (json_string p) = Ok (sub_protocol s)) as ->.
  { unfold SubscriptionProtocol_from_string, enum_from_string.
    cbn [SchemaEnums.from_string SchemaEnums.SubscriptionProtocol]. rewrite Hpr. by destruct (sub_protocol s). }
  cbn [mbind result_bind]. change ORIGIN_RESOURCES with "OriginResources".
  destruct s as [id name dest ctx prot tys origins].
  cbn [sub_id sub_name sub_destination sub_context sub_protocol sub_event_types sub_origin_resources] in Hid, Ho |- *.
  subst id.
  destruct Ho as [(v & Hv & Hva & _ & Hve)|[-> Ho]].
  - rewrite Hv. destruct (array_range_elements v Hva) as [-> ->].
    rewrite (collect_checked _ _ is_correct_endpoint_url invalid_value _ _ Hve).
    + by destruct (forallb _ _).
    + intros w o (_ & Hw%string_member_read & _). change ODATA_ID with "@odata.id". rewrite Hw.
      cbn. by destruct (is_correct_endpoint_url o).
  - destruct (json_find json "OriginResources") as [v|]; [|done]. by rewrite (Ho v eq_refl).
Qed.

Lemma added now s m :
  0 ≤ m_id m → m_id m + Z.of_nat (size (m_subscriptions m)) + 1 < 2 ^ 64 →
  ∃ id m', add_subscription J now s m = (Ok id, m') ∧ m_subscriptions m !! id = None ∧
    m_subscriptions m' = <[id := set_id id s]> (m_subscriptions m) ∧
    Database.content <$> m_dir m' !! sub_file id = Some (to_text (J:=J) (set_id id s)).
Proof.
  intros Hid Hb. unfold add_subscription. run_monad.
  destruct (next_free_run (m_subscriptions m) (S (size (m_subscriptions m))) (m_id m)) as (id & -> & Hrange & Hnone);
    [done|lia|done|].
  eexists id, _. split; [reflexivity|]. split_and!; [done|done|]. unfold Database.db_put, Database.save_file.
  rewrite sub_file_name by lia. run_monad. cbn [m_dir snd]. by rewrite lookup_insert_eq.
Qed.

Lemma conforms_or_not fs (json : J) : checked fs = true → conforms_request fs json ∨ ¬ conforms_request fs json.
Proof.
  intros Hfs. rewrite <- (validate_conforms fs json Hfs). destruct (validate _ json); [by left|by right].
Qed.

Lemma forallb_all {A} (f : A → bool) l : forallb f l = true ↔ Forall (λ x, f x = true) l.
Proof. rewrite forallb_forall, list.Forall_forall. by setoid_rewrite list_elem_of_In. Qed.

Lemma invalid_value_answer task_url url what :
  ∃ err, response_of_exception (J:=J) task_url url
      (GamiError {| ex_code := codes.INVALID_VALUE; ex_message := what; ex_data := json_null |}) =
      Some (answer_of err) ∧ m_http_status_code err = 400.
Proof. eexists. split; reflexivity. Qed.

(** C16: a POST to the subscription collection.  When the body is a document that describes a
    subscription ([describes]: the six members of their types, of which the origins may be
    left out or null, and no others) and all its origins are URLs of endpoints, the answer is
    201 and the manager holds the subscription, with every field of the document,
    under an id that was free, and its document in the database; the other
    subscriptions stay.  Every other body, one that is not JSON, a document that
    describes no subscription or one with an origin that is no endpoint, is answered
    with 400 and the manager stays as it was.  Ids must be left in 64 bits. *)
Theorem post_subscribes task_url url now body response m :
  0 ≤ m_id m → m_id m + Z.of_nat (size (m_subscriptions m)) + 1 < 2 ^ 64 →
  (∃ json s, json_parse body = inr json ∧ describes json s ∧
     Forall (λ o, is_correct_endpoint_url o = true) (sub_origin_resources s) ∧
     ∃ id m', post now body response m =
         Ok ((None, {| m_status := CREATED; m_body := m_body response |}), m') ∧
       m_subscriptions m !! id = None ∧ m_subscriptions m' = <[id := set_id id s]> (m_subscriptions m) ∧
       Database.content <$> m_dir m' !! sub_file id = Some (to_text (J:=J) (set_id id s))) ∨
  (∃ thrown err, post now body response m = Ok ((Some thrown, response), m) ∧
     response_of_exception task_url url thrown = Some (answer_of err) ∧ m_http_status_code err = 400 ∧
     ∀ json s, json_parse body = inr json → describes json s →
       ¬ Forall (λ o, is_correct_endpoint_url o = true) (sub_origin_resources s)).
Proof.
  intros Hid Hroom. unfold post. destruct (json_parse body) as [what|json] eqn:Hb.
  { right. destruct (malformed_answer task_url url SubscriptionCollectionPostSchema body what Hb)
      as (thrown & err & text & ms & -> & Ha & Hs & _). by exists thrown, err. }
  assert (checked SubscriptionCollectionPostSchema = true) as Hfs by (vm_compute; reflexivity).
  destruct (conforms_or_not SubscriptionCollectionPostSchema json Hfs) as [Hc|Hc].
  - rewrite (conforming_body _ _ _ Hfs Hb Hc). apply schema_describes in Hc as [s Hd].
    pose proof (from_json_describes json s Hd) as E. rewrite E.
    destruct (forallb is_correct_endpoint_url (sub_origin_resources s)) eqn:Ho.
    + left. exists json, s. destruct (added now s m Hid Hroom) as (id & m' & -> & Hrest).
      split_and!; [done|done|by apply forallb_all|]. by exists id, m'.
    + right. destruct (invalid_value_answer task_url url (invalid_origin json)) as (err & Ha & Hs).
      eexists _, err. split_and!; [reflexivity|done|done|]. intros ? s' [= <-] Hd' Hall.
      apply forallb_all in Hall. pose proof (from_json_describes json s' Hd') as E'. by rewrite E, Hall in E'.
  - right. destruct (refused_body task_url url _ _ _ Hfs Hb Hc) as (ex & f & v & err & text & ms & -> & Ha & _ & _ & Hs & _).
    eexists _, err. split_and!; [reflexivity|done|done|]. intros ? s [= <-] Hd. destruct Hc. apply schema_describes. by exists s.
Qed.

End post.

(** ** A subscription for alerts of one resource *)

Module Example.
Import SchemaExample.

Definition document : Tree.t :=
  Tree.Object [("Context", Tree.String "ctx"); ("Destination", Tree.String "http://here");
    ("EventTypes", Tree.Array [Tree.String "Alert"; Tree.String "StatusChange"]); ("Name", Tree.String "one");
    ("OriginResources", Tree.Array [Tree.Object [("@odata.id", Tree.String "/x")]]);
    ("Protocol", Tree.String "Redfish")].

Definition empty_manager : SubscriptionManager := mkManager ∅ 0 ∅.

Lemma document_describes : describes document (sample_subscription 0 (Database.lit "one")).
Proof.
  split; try reflexivity.
  - intros k. cbn [json_find Tree.tree_json document Tree.members Tree.assoc].
    repeat (case_decide; [subst k; intros _; apply (bool_decide_eq_true_1 _); reflexivity|]). by intros [].
  - by eexists.
  - by eexists.
  - by eexists.
  - by eexists.
  - eexists. split_and!; [reflexivity|reflexivity|done|]. by repeat constructor.
  - left. eexists. split_and!; [reflexivity|reflexivity|done|]. repeat constructor; [by eexists|].
    intros k. cbn [json_find Tree.tree_json Tree.members Tree.assoc]. case_decide as E; [done|]. by intros [].
Qed.

(** Described and with a known origin: created.  The same with an origin that is no endpoint:
    refused. *)
Lemma post_subscribes_witness :
  (∃ id m', post (J:=Tree.t) (λ _, true) 5 (json_dump document) {| m_status := 200; m_body := "" |} empty_manager =
      Ok ((None, {| m_status := 201; m_body := "" |}), m') ∧
    m_subscriptions m' = {[id := sample_subscription id (Database.lit "one")]}) ∧
  (∃ thrown, post (J:=Tree.t) (λ _, false) 5 (json_dump document) {| m_status := 200; m_body := "" |} empty_manager =
      Ok ((Some thrown, {| m_status := 200; m_body := "" |}), empty_manager)).
Proof.
  split.
  - destruct (post_subscribes (J:=Tree.t) (λ _, true) (λ _, None) "/" 5 (json_dump document)
      {| m_status := 200; m_body := "" |} empty_manager)
      as [(json & s & Hj & Hd & _ & id & m' & E & _ & Hm & _)|(thrown & err & _ & _ & _ & Hno)].
    + reflexivity.
    + vm_compute. reflexivity.
    + exists id, m'. split; [exact E|]. rewrite Hm.
      change (json_parse (json_dump document)) with (Tree.parse (Tree.dump document)) in Hj.
      rewrite Tree.parse_of_dump in Hj. injection Hj as <-.
      pose proof (from_json_describes (λ _, true) _ _ Hd) as E1.
      pose proof (from_json_describes (λ _, true) _ _ document_describes) as E2.
      rewrite E2 in E1. cbn [forallb sub_origin_resources sample_subscription] in E1.
      assert (∀ l : list Database.str, forallb (λ _, true) l = true) as Hall by (by induction l).
      rewrite Hall in E1. injection E1 as <-. reflexivity.
    + destruct (Hno document (sample_subscription 0 (Database.lit "one"))); [apply Tree.parse_of_dump|apply document_describes|].
      by repeat constructor.
  - destruct (post_subscribes (J:=Tree.t) (λ _, false) (λ _, None) "/" 5 (json_dump document)
      {| m_status := 200; m_body := "" |} empty_manager)
      as [(json & s & Hj & Hd & Hall & _)|(thrown & err & E & _)].
    + reflexivity.
    + vm_compute. reflexivity.
    + change (json_parse (json_dump document)) with (Tree.parse (Tree.dump document)) in Hj.
      rewrite Tree.parse_of_dump in Hj. injection Hj as <-.
      destruct Hd as [_ _ _ _ _ _ _ _ [(v & Hv & _ & _ & Hl)|[_ Hnull]]].
      * injection Hv as <-. inversion Hl as [|x o xs os Ho Hos E1 E2]. rewrite <- E2 in Hall.
        apply list.Forall_cons in Hall as [? _]. done.
      * by specialize (Hnull _ eq_refl).
    + exists thrown. exact E.
Defined.

End Example.

End SubscriptionPost.
