(* ===== verification/Requests.v ===== *)
(** The request classes of the agent framework
    (common/agent-framework, module/requests): their fields, [to_json] and
    [from_json], a module per class.

    A request that a class writes is accepted by the validator of the same class
    and read back as it was ([requests_roundtrip]), but for AddVlan and DeleteVlan,
    whose validators reject everything the classes write
    ([vlan_requests_rejected]).  The classes with attributes of their own
    (AddEndpoint, AddAclRule, AddVolume, AddStoragePool, SetComponentAttributes,
    ComponentNotification), GetMetrics and AddEthernetSwitchPort are not here. *)

From Stdlib Require Import ZArith Lia.
From S2P Require Import Prelude.
From S2P Require Import Json.
From S2P Require Import Validators.
From S2P Require Import Schema.
From S2P Require Import SchemaEnums.
From S2P Require Import RequestSchemas.
From S2P Require Import JsonText.
From S2P Require Import JsonRpc.
From S2P Require Import JsonRpcCall.

Open Scope string_scope.
Open Scope list_scope.
Open Scope Z_scope.

(** ** Fields *)

(** The conversions of a field type: [ret[key] = field], and the value read from
    a member, [None] when the conversion throws; [fit] bounds the values. *)
Class Field (J T : Type) := { put : T → J; get : J → option T; fit : T → Prop }.

Definition uint32 : Type := Z.
Definition int32 : Type := Z.
Definition Uuid : Type := string.

(** attribute::Oem holds nothing. *)
Inductive Oem := OemAttribute.

(** attribute::Array<std::string> *)
Definition StringArray : Type := list string.

#[global] Typeclasses Opaque uint32 int32 Uuid StringArray.

Section fields.
Context `{Json J}.

Definition get_string (v : J) : option string := if is_string v then Some (json_string v) else None.

#[global] Instance string_field : Field J string :=
  {| put := json_of_string; get := get_string; fit _ := True |}.

#[global] Instance uuid_field : Field J Uuid :=
  {| put := json_of_string; get := get_string; fit _ := True |}.

(** OptionalField: null when there is no value. *)
Definition put_optional {T} (f : T → J) (x : option T) : J :=
  match x with Some y => f y | None => json_null end.

Definition get_optional {T} (g : J → option T) (v : J) : option (option T) :=
  if is_null v then Some None else Some <$> g v.

#[global] Instance optional_field {T} `{Field J T} : Field J (option T) :=
  {| put := put_optional put; get := get_optional get;
     fit x := match x with Some y => fit y | None => True end |}.

(** Array::from_json appends every value; a null has none. *)
Definition get_array {T} (g : J → option T) (v : J) : option (list T) :=
  if is_array v then mapM g (json_elements v) else if is_null v then Some [] else None.

#[global] Instance strings_field : Field J (list string) :=
  {| put l := json_of_array (json_of_string <$> l); get := get_array get_string;
     fit l := Z.of_nat (length l) ≤ UINT32_MAX |}.

#[global] Instance array_field : Field J StringArray :=
  {| put l := json_of_array (json_of_string <$> l); get := get_array get_string;
     fit l := Z.of_nat (length l) ≤ UINT32_MAX |}.

#[global] Instance oem_field : Field J Oem :=
  {| put _ := json_object; get _ := Some OemAttribute; fit _ := True |}.

#[global] Instance bool_field : Field J bool :=
  {| put := json_of_boolean; get v := if is_boolean v then Some (json_boolean v) else None;
     fit _ := True |}.

(** An unsigned 32-bit number; a number that is read is truncated. *)
#[global] Instance uint32_field : Field J uint32 :=
  {| put z := json_of_unsigned z;
     get v := if is_number_integer v then Some (json_integer v mod 2 ^ 32) else None;
     fit z := 0 ≤ z < 2 ^ 32 |}.

#[global] Instance int32_field : Field J int32 :=
  {| put z := json_of_integer z;
     get v := if is_number_integer v then Some (to_int (json_integer v)) else None;
     fit z := - 2 ^ 31 ≤ z < 2 ^ 31 |}.

End fields.

(** ** Classes *)

(** Names that no declaration uses. *)
Module literals.
Definition Oem_OEM := "oem".
Definition Vlan_OEM := "oem".
End literals.

(** [GetAuthorizationCertificate] *)
Module GetAuthorizationCertificate.
Record t := make { m_certificate : string }.
Definition to_json `{Json J} (r : t) : J :=
  object_of [(text AuthorizationCertificate_TYPE, put (m_certificate r))].
Definition from_json `{Json J} (json : J) : option t :=
  certificate0 ← get (at_ json (text AuthorizationCertificate_TYPE));
  Some (make certificate0).
Definition ok `{Json J} (r : t) : Prop := True.
End GetAuthorizationCertificate.

(** [AddZone] *)
Module AddZone.
Record t := make { m_fabric : string; m_endpoints : StringArray; m_oem : Oem }.
Definition to_json `{Json J} (r : t) : J :=
  object_of [(text Zone_FABRIC, put (m_fabric r));
             (text Zone_ENDPOINTS, put (m_endpoints r));
             (text Zone_OEM, put (m_oem r))].
Definition from_json `{Json J} (json : J) : option t :=
  fabric0 ← get (at_ json (text Zone_FABRIC));
  endpoints0 ← get (at_ json (text Zone_ENDPOINTS));
  oem0 ← get (at_ json (text Zone_OEM));
  Some (make fabric0 endpoints0 oem0).
Definition ok `{Json J} (r : t) : Prop := True.
End AddZone.

(** [AddZoneEndpoints] *)
Module AddZoneEndpoints.
Record t := make { m_zone : Uuid; m_endpoints : StringArray; m_oem : Oem }.
Definition to_json `{Json J} (r : t) : J :=
  object_of [(text Zone_ZONE, put (m_zone r));
             (text Zone_ENDPOINTS, put (m_endpoints r));
             (text Zone_OEM, put (m_oem r))].
Definition from_json `{Json J} (json : J) : option t :=
  zone0 ← get (at_ json (text Zone_ZONE));
  endpoints0 ← get (at_ json (text Zone_ENDPOINTS));
  oem0 ← get (at_ json (text Zone_OEM));
  Some (make zone0 endpoints0 oem0).
Definition ok `{Json J} (r : t) : Prop := True.
End AddZoneEndpoints.

(** [DeleteDrive] *)
Module DeleteDrive.
Record t := make { m_drive : Uuid }.
Definition to_json `{Json J} (r : t) : J :=
  object_of [(text Drive_DRIVE, put (m_drive r))].
Definition from_json `{Json J} (json : J) : option t :=
  drive0 ← get (at_ json (text Drive_DRIVE));
  Some (make drive0).
Definition ok `{Json J, Platform} (r : t) : Prop := conforms (J:=J) (VALID_UUID) (Some (put (m_drive r))).
End DeleteDrive.

(** [DeleteEndpoint] *)
Module DeleteEndpoint.
Record t := make { m_endpoint : Uuid }.
Definition to_json `{Json J} (r : t) : J :=
  object_of [(text Endpoint_ENDPOINT, put (m_endpoint r))].
Definition from_json `{Json J} (json : J) : option t :=
  endpoint0 ← get (at_ json (text Endpoint_ENDPOINT));
  Some (make endpoint0).
Definition ok `{Json J, Platform} (r : t) : Prop := conforms (J:=J) (VALID_UUID) (Some (put (m_endpoint r))).
End DeleteEndpoint.

(** [DeleteTask] *)
Module DeleteTask.
Record t := make { m_task : string }.
Definition to_json `{Json J} (r : t) : J :=
  object_of [(text Task_TASK, put (m_task r))].
Definition from_json `{Json J} (json : J) : option t :=
  task0 ← get (at_ json (text Task_TASK));
  Some (make task0).
Definition ok `{Json J} (r : t) : Prop := True.
End DeleteTask.

(** [DeleteZone] *)
Module DeleteZone.
Record t := make { m_zone : string }.
Definition to_json `{Json J} (r : t) : J :=
  object_of [(text Zone_ZONE, put (m_zone r))].
Definition from_json `{Json J} (json : J) : option t :=
  zone0 ← get (at_ json (text Zone_ZONE));
  Some (make zone0).
Definition ok `{Json J, Platform} (r : t) : Prop := conforms (J:=J) (VALID_UUID) (Some (put (m_zone r))).
End DeleteZone.

(** [DeleteZoneEndpoints] *)
Module DeleteZoneEndpoints.
Record t := make { m_zone : string; m_endpoints : StringArray; m_oem : Oem }.
Definition to_json `{Json J} (r : t) : J :=
  object_of [(text Zone_ZONE, put (m_zone r));
             (text Zone_ENDPOINTS, put (m_endpoints r));
             (text Zone_OEM, put (m_oem r))].
Definition from_json `{Json J} (json : J) : option t :=
  zone0 ← get (at_ json (text Zone_ZONE));
  endpoints0 ← get (at_ json (text Zone_ENDPOINTS));
  oem0 ← get (at_ json (text Zone_OEM));
  Some (make zone0 endpoints0 oem0).
Definition ok `{Json J} (r : t) : Prop := True.
End DeleteZoneEndpoints.

(** [GetChassisInfo] *)
Module GetChassisInfo.
Record t := make { m_chassis : string }.
Definition to_json `{Json J} (r : t) : J :=
  object_of [(text Chassis_CHASSIS, put (m_chassis r))].
Definition from_json `{Json J} (json : J) : option t :=
  chassis0 ← get (at_ json (text Chassis_CHASSIS));
  Some (make chassis0).
Definition ok `{Json J, Platform} (r : t) : Prop := conforms (J:=J) (VALID_UUID) (Some (put (m_chassis r))).
End GetChassisInfo.

(** [GetCollection] *)
Module GetCollection.
Record t := make { m_component : string; m_name : string }.
Definition to_json `{Json J} (r : t) : J :=
  object_of [(text Collection_COMPONENT, put (m_component r));
             (text Collection_NAME, put (m_name r))].
Definition from_json `{Json J} (json : J) : option t :=
  component0 ← get (at_ json (text Collection_COMPONENT));
  name0 ← get (at_ json (text Collection_NAME));
  Some (make component0 name0).
Definition ok `{Json J} (r : t) : Prop := True.
End GetCollection.

(** [GetDriveInfo] *)
Module GetDriveInfo.
Record t := make { m_drive : string }.
Definition to_json `{Json J} (r : t) : J :=
  object_of [(text Drive_DRIVE, put (m_drive r))].
Definition from_json `{Json J} (json : J) : option t :=
  drive0 ← get (at_ json (text Drive_DRIVE));
  Some (make drive0).
Definition ok `{Json J} (r : t) : Prop := True.
End GetDriveInfo.

(** [GetEndpointInfo] *)
Module GetEndpointInfo.
Record t := make { m_endpoint : string }.
Definition to_json `{Json J} (r : t) : J :=
  object_of [(text Endpoint_ENDPOINT, put (m_endpoint r))].
Definition from_json `{Json J} (json : J) : option t :=
  endpoint0 ← get (at_ json (text Endpoint_ENDPOINT));
  Some (make endpoint0).
Definition ok `{Json J} (r : t) : Prop := True.
End GetEndpointInfo.

(** [GetFabricInfo] *)
Module GetFabricInfo.
Record t := make { m_fabric : string }.
Definition to_json `{Json J} (r : t) : J :=
  object_of [(text Fabric_FABRIC, put (m_fabric r))].
Definition from_json `{Json J} (json : J) : option t :=
  fabric0 ← get (at_ json (text Fabric_FABRIC));
  Some (make fabric0).
Definition ok `{Json J} (r : t) : Prop := True.
End GetFabricInfo.

(** [GetLogEntryInfo] *)
Module GetLogEntryInfo.
Record t := make { m_log_entry : Uuid }.
Definition to_json `{Json J} (r : t) : J :=
  object_of [(text LogEntry_LOG_ENTRY, put (m_log_entry r))].
Definition from_json `{Json J} (json : J) : option t :=
  log_entry0 ← get (at_ json (text LogEntry_LOG_ENTRY));
  Some (make log_entry0).
Definition ok `{Json J, Platform} (r : t) : Prop := conforms (J:=J) (VALID_UUID) (Some (put (m_log_entry r))).
End GetLogEntryInfo.

(** [GetLogServiceInfo] *)
Module GetLogServiceInfo.
Record t := make { m_log_service : Uuid }.
Definition to_json `{Json J} (r : t) : J :=
  object_of [(text LogService_SERVICE, put (m_log_service r))].
Definition from_json `{Json J} (json : J) : option t :=
  log_service0 ← get (at_ json (text LogService_SERVICE));
  Some (make log_service0).
Definition ok `{Json J, Platform} (r : t) : Prop := conforms (J:=J) (VALID_UUID) (Some (put (m_log_service r))).
End GetLogServiceInfo.

(** [GetManagerInfo] *)
Module GetManagerInfo.
Record t := make { m_manager : string }.
Definition to_json `{Json J} (r : t) : J :=
  object_of [(text Manager_MANAGER, put (m_manager r))].
Definition from_json `{Json J} (json : J) : option t :=
  manager0 ← get (at_ json (text Manager_MANAGER));
  Some (make manager0).
Definition ok `{Json J, Platform} (r : t) : Prop := conforms (J:=J) (VALID_UUID) (Some (put (m_manager r))).
End GetManagerInfo.

(** [GetManagersCollection] *)
Module GetManagersCollection.
Record t := make {  }.
Definition to_json `{Json J} (r : t) : J :=
  object_of [].
Definition from_json `{Json J} (json : J) : option t :=
  Some make.
Definition ok `{Json J} (r : t) : Prop := True.
End GetManagersCollection.

(** [GetMetricDefinitionInfo] *)
Module GetMetricDefinitionInfo.
Record t := make { m_metric_definition : string }.
Definition to_json `{Json J} (r : t) : J :=
  object_of [(text MetricDefinition_METRIC_DEFINITION, put (m_metric_definition r))].
Definition from_json `{Json J} (json : J) : option t :=
  metric_definition0 ← get (at_ json (text MetricDefinition_METRIC_DEFINITION));
  Some (make metric_definition0).
Definition ok `{Json J, Platform} (r : t) : Prop := conforms (J:=J) (VALID_UUID) (Some (put (m_metric_definition r))).
End GetMetricDefinitionInfo.

(** [GetMetricDefinitionsCollection] *)
Module GetMetricDefinitionsCollection.
Record t := make {  }.
Definition to_json `{Json J} (r : t) : J :=
  object_of [].
Definition from_json `{Json J} (json : J) : option t :=
  Some make.
Definition ok `{Json J} (r : t) : Prop := True.
End GetMetricDefinitionsCollection.

(** [GetNetworkInterfaceInfo] *)
Module GetNetworkInterfaceInfo.
Record t := make { m_interface : string }.
Definition to_json `{Json J} (r : t) : J :=
  object_of [(text NetworkInterface_INTERFACE, put (m_interface r))].
Definition from_json `{Json J} (json : J) : option t :=
  interface0 ← get (at_ json (text NetworkInterface_INTERFACE));
  Some (make interface0).
Definition ok `{Json J} (r : t) : Prop := True.
End GetNetworkInterfaceInfo.

(** [GetPcieDeviceInfo] *)
Module GetPcieDeviceInfo.
Record t := make { m_device : string }.
Definition to_json `{Json J} (r : t) : J :=
  object_of [(text PcieDevice_DEVICE, put (m_device r))].
Definition from_json `{Json J} (json : J) : option t :=
  device0 ← get (at_ json (text PcieDevice_DEVICE));
  Some (make device0).
Definition ok `{Json J} (r : t) : Prop := True.
End GetPcieDeviceInfo.

(** [GetPcieFunctionInfo] *)
Module GetPcieFunctionInfo.
Record t := make { m_function : string }.
Definition to_json `{Json J} (r : t) : J :=
  object_of [(text PcieFunction_FUNCTION, put (m_function r))].
Definition from_json `{Json J} (json : J) : option t :=
  function0 ← get (at_ json (text PcieFunction_FUNCTION));
  Some (make function0).
Definition ok `{Json J} (r : t) : Prop := True.
End GetPcieFunctionInfo.

(** [GetProcessorInfo] *)
Module GetProcessorInfo.
Record t := make { m_processor : string }.
Definition to_json `{Json J} (r : t) : J :=
  object_of [(text Processor_PROCESSOR, put (m_processor r))].
Definition from_json `{Json J} (json : J) : option t :=
  processor0 ← get (at_ json (text Processor_PROCESSOR));
  Some (make processor0).
Definition ok `{Json J} (r : t) : Prop := True.
End GetProcessorInfo.

(** [GetStorageSubsystemInfo] *)
Module GetStorageSubsystemInfo.
Record t := make { m_storage : string }.
Definition to_json `{Json J} (r : t) : J :=
  object_of [(text StorageSubsystem_STORAGE, put (m_storage r))].
Definition from_json `{Json J} (json : J) : option t :=
  storage0 ← get (at_ json (text StorageSubsystem_STORAGE));
  Some (make storage0).
Definition ok `{Json J} (r : t) : Prop := True.
End GetStorageSubsystemInfo.

(** [GetSystemInfo] *)
Module GetSystemInfo.
Record t := make { m_system : string }.
Definition to_json `{Json J} (r : t) : J :=
  object_of [(text System_SYSTEM, put (m_system r))].
Definition from_json `{Json J} (json : J) : option t :=
  system0 ← get (at_ json (text System_SYSTEM));
  Some (make system0).
Definition ok `{Json J} (r : t) : Prop := True.
End GetSystemInfo.

(** [GetTaskInfo] *)
Module GetTaskInfo.
Record t := make { m_task : string }.
Definition to_json `{Json J} (r : t) : J :=
  object_of [(text Task_TASK, put (m_task r))].
Definition from_json `{Json J} (json : J) : option t :=
  task0 ← get (at_ json (text Task_TASK));
  Some (make task0).
Definition ok `{Json J, Platform} (r : t) : Prop := conforms (J:=J) (VALID_UUID) (Some (put (m_task r))).
End GetTaskInfo.

(** [GetTaskResultInfo] *)
Module GetTaskResultInfo.
Record t := make { m_task : string }.
Definition to_json `{Json J} (r : t) : J :=
  object_of [(text Task_TASK, put (m_task r))].
Definition from_json `{Json J} (json : J) : option t :=
  task0 ← get (at_ json (text Task_TASK));
  Some (make task0).
Definition ok `{Json J} (r : t) : Prop := True.
End GetTaskResultInfo.

(** [GetTasksCollection] *)
Module GetTasksCollection.
Record t := make {  }.
Definition to_json `{Json J} (r : t) : J :=
  object_of [].
Definition from_json `{Json J} (json : J) : option t :=
  Some make.
Definition ok `{Json J} (r : t) : Prop := True.
End GetTasksCollection.

(** [GetZoneInfo] *)
Module GetZoneInfo.
Record t := make { m_zone : string }.
Definition to_json `{Json J} (r : t) : J :=
  object_of [(text Zone_ZONE, put (m_zone r))].
Definition from_json `{Json J} (json : J) : option t :=
  zone0 ← get (at_ json (text Zone_ZONE));
  Some (make zone0).
Definition ok `{Json J} (r : t) : Prop := True.
End GetZoneInfo.

(** [GetMemoryChunksInfo] *)
Module GetMemoryChunksInfo.
Record t := make { m_memory_chunks : Uuid }.
Definition to_json `{Json J} (r : t) : J :=
  object_of [(text MemoryChunks_MEMORY_CHUNKS, put (m_memory_chunks r))].
Definition from_json `{Json J} (json : J) : option t :=
  memory_chunks0 ← get (at_ json (text MemoryChunks_MEMORY_CHUNKS));
  Some (make memory_chunks0).
Definition ok `{Json J, Platform} (r : t) : Prop := conforms (J:=J) (VALID_UUID) (Some (put (m_memory_chunks r))).
End GetMemoryChunksInfo.

(** [GetMemoryDomainInfo] *)
Module GetMemoryDomainInfo.
Record t := make { m_memory_domain : Uuid }.
Definition to_json `{Json J} (r : t) : J :=
  object_of [(text MemoryDomain_MEMORY_DOMAIN, put (m_memory_domain r))].
Definition from_json `{Json J} (json : J) : option t :=
  memory_domain0 ← get (at_ json (text MemoryDomain_MEMORY_DOMAIN));
  Some (make memory_domain0).
Definition ok `{Json J, Platform} (r : t) : Prop := conforms (J:=J) (VALID_UUID) (Some (put (m_memory_domain r))).
End GetMemoryDomainInfo.

(** [GetMemoryInfo] *)
Module GetMemoryInfo.
Record t := make { m_memory : string }.
Definition to_json `{Json J} (r : t) : J :=
  object_of [(text Memory_MEMORY, put (m_memory r))].
Definition from_json `{Json J} (json : J) : option t :=
  memory0 ← get (at_ json (text Memory_MEMORY));
  Some (make memory0).
Definition ok `{Json J} (r : t) : Prop := True.
End GetMemoryInfo.

(** [GetNetworkDeviceFunctionInfo] *)
Module GetNetworkDeviceFunctionInfo.
Record t := make { m_function : string }.
Definition to_json `{Json J} (r : t) : J :=
  object_of [(text NetworkDeviceFunction_FUNCTION, put (m_function r))].
Definition from_json `{Json J} (json : J) : option t :=
  function0 ← get (at_ json (text NetworkDeviceFunction_FUNCTION));
  Some (make function0).
Definition ok `{Json J} (r : t) : Prop := True.
End GetNetworkDeviceFunctionInfo.

(** [GetNetworkDeviceInfo] *)
Module GetNetworkDeviceInfo.
Record t := make { m_device : string }.
Definition to_json `{Json J} (r : t) : J :=
  object_of [(text NetworkDevice_DEVICE, put (m_device r))].
Definition from_json `{Json J} (json : J) : option t :=
  device0 ← get (at_ json (text NetworkDevice_DEVICE));
  Some (make device0).
Definition ok `{Json J} (r : t) : Prop := True.
End GetNetworkDeviceInfo.

(** [GetStorageControllerInfo] *)
Module GetStorageControllerInfo.
Record t := make { m_controller : string }.
Definition to_json `{Json J} (r : t) : J :=
  object_of [(text StorageController_CONTROLLER, put (m_controller r))].
Definition from_json `{Json J} (json : J) : option t :=
  controller0 ← get (at_ json (text StorageController_CONTROLLER));
  Some (make controller0).
Definition ok `{Json J} (r : t) : Prop := True.
End GetStorageControllerInfo.

(** [GetTrustedModuleInfo] *)
Module GetTrustedModuleInfo.
Record t := make { m_trusted_module : string }.
Definition to_json `{Json J} (r : t) : J :=
  object_of [(text TrustedModule_TRUSTED_MODULE, put (m_trusted_module r))].
Definition from_json `{Json J} (json : J) : option t :=
  trusted_module0 ← get (at_ json (text TrustedModule_TRUSTED_MODULE));
  Some (make trusted_module0).
Definition ok `{Json J} (r : t) : Prop := True.
End GetTrustedModuleInfo.

(** [AddAcl] *)
Module AddAcl.
Record t := make { m_switch : string; m_ports : StringArray; m_oem : Oem }.
Definition to_json `{Json J} (r : t) : J :=
  object_of [(text Acl_SWITCH, put (m_switch r));
             (text Acl_PORTS, put (m_ports r));
             (text Acl_OEM, put (m_oem r))].
Definition from_json `{Json J} (json : J) : option t :=
  switch0 ← get (at_ json (text Acl_SWITCH));
  ports0 ← get (at_ json (text Acl_PORTS));
  oem0 ← get (at_ json (text Acl_OEM));
  Some (make switch0 ports0 oem0).
Definition ok `{Json J} (r : t) : Prop := True.
End AddAcl.

(** [AddAclPort] *)
Module AddAclPort.
Record t := make { m_acl : option string; m_ports : StringArray; m_oem : Oem }.
Definition to_json `{Json J} (r : t) : J :=
  object_of [(text Acl_ACL, put (m_acl r));
             (text Acl_PORTS, put (m_ports r));
             (text Acl_OEM, put (m_oem r))].
Definition from_json `{Json J} (json : J) : option t :=
  acl0 ← get (at_ json (text Acl_ACL));
  ports0 ← get (at_ json (text Acl_PORTS));
  oem0 ← get (at_ json (text Acl_OEM));
  Some (make acl0 ports0 oem0).
Definition ok `{Json J, Platform} (r : t) : Prop := conforms (J:=J) (VALID_JSON JSON_STRING) (Some (put (m_acl r))).
End AddAclPort.

(** [AddEthernetSwitchPortMembers] *)
Module AddEthernetSwitchPortMembers.
Record t := make { m_members : list string; m_port : string; m_oem : Oem }.
Definition to_json `{Json J} (r : t) : J :=
  object_of [(text EthernetSwitchPort_PORT, put (m_port r));
             (text EthernetSwitchPort_MEMBERS, put (m_members r));
             (literals.Oem_OEM, put (m_oem r))].
Definition from_json `{Json J} (json : J) : option t :=
  members0 ← get (at_ json (text EthernetSwitchPort_MEMBERS));
  port0 ← get (at_ json (text EthernetSwitchPort_PORT));
  oem0 ← get (at_ json (text EthernetSwitchPort_OEM));
  Some (make members0 port0 oem0).
Definition ok `{Json J} (r : t) : Prop := True.
End AddEthernetSwitchPortMembers.

(** [AddPortStaticMac] *)
Module AddPortStaticMac.
Record t := make { m_port : option string; m_mac_address : option string; m_vlan_id : option uint32; m_oem : Oem }.
Definition to_json `{Json J} (r : t) : J :=
  object_of [(text StaticMac_PORT, put (m_port r));
             (text StaticMac_ADDRESS, put (m_mac_address r));
             (text StaticMac_VLAN_ID, put (m_vlan_id r));
             (text StaticMac_OEM, put (m_oem r))].
Definition from_json `{Json J} (json : J) : option t :=
  port0 ← get (at_ json (text StaticMac_PORT));
  mac_address0 ← get (at_ json (text StaticMac_ADDRESS));
  vlan_id0 ← get (at_ json (text StaticMac_VLAN_ID));
  oem0 ← get (at_ json (text StaticMac_OEM));
  Some (make port0 mac_address0 vlan_id0 oem0).
Definition ok `{Json J, Platform} (r : t) : Prop := conforms (J:=J) (VALID_JSON JSON_STRING) (Some (put (m_port r))) ∧ conforms (J:=J) (VALID_JSON JSON_STRING) (Some (put (m_mac_address r))) ∧ fit (J:=J) (m_vlan_id r).
End AddPortStaticMac.

(** [AddPortVlan] *)
Module AddPortVlan.
Record t := make { m_port : string; m_vlan_name : option string; m_vlan_id : uint32; m_tagged : bool; m_oem : Oem }.
Definition to_json `{Json J} (r : t) : J :=
  object_of [(text EthernetSwitchPortVlan_PORT, put (m_port r));
             (text EthernetSwitchPortVlan_VLAN_NAME, put (m_vlan_name r));
             (text EthernetSwitchPortVlan_VLAN_ID, put (m_vlan_id r));
             (text EthernetSwitchPortVlan_TAGGED, put (m_tagged r));
             (text EthernetSwitchPortVlan_OEM, put (m_oem r))].
Definition from_json `{Json J} (json : J) : option t :=
  port0 ← get (at_ json (text EthernetSwitchPortVlan_PORT));
  vlan_name0 ← get (at_ json (text EthernetSwitchPortVlan_VLAN_NAME));
  vlan_id0 ← get (at_ json (text EthernetSwitchPortVlan_VLAN_ID));
  tagged0 ← get (at_ json (text EthernetSwitchPortVlan_TAGGED));
  oem0 ← get (at_ json (text EthernetSwitchPortVlan_OEM));
  Some (make port0 vlan_name0 vlan_id0 tagged0 oem0).
Definition ok `{Json J} (r : t) : Prop := fit (J:=J) (m_vlan_id r).
End AddPortVlan.

(** [AddVlan] *)
Module AddVlan.
Record t := make { m_switch : string; m_vlan_name : string; m_vlan_id : uint32; m_oem : Oem }.
Definition to_json `{Json J} (r : t) : J :=
  object_of [(text Vlan_SWITCH, put (m_switch r));
             (text Vlan_VLAN_NAME, put (m_vlan_name r));
             (text Vlan_VLAN_ID, put (m_vlan_id r));
             (literals.Oem_OEM, put (m_oem r))].
Definition from_json `{Json J} (json : J) : option t :=
  switch0 ← get (at_ json (text Vlan_SWITCH));
  vlan_name0 ← get (at_ json (text Vlan_VLAN_NAME));
  vlan_id0 ← get (at_ json (text Vlan_VLAN_ID));
  oem0 ← get (at_ json (literals.Vlan_OEM));
  Some (make switch0 vlan_name0 vlan_id0 oem0).
Definition ok `{Json J} (r : t) : Prop := fit (J:=J) (m_vlan_id r).
End AddVlan.

(** [DeleteAcl] *)
Module DeleteAcl.
Record t := make { m_acl : string; m_oem : Oem }.
Definition to_json `{Json J} (r : t) : J :=
  object_of [(text Acl_ACL, put (m_acl r)); (literals.Oem_OEM, put (m_oem r))].
Definition from_json `{Json J} (json : J) : option t :=
  acl0 ← get (at_ json (text Acl_ACL));
  oem0 ← get (at_ json (literals.Oem_OEM));
  Some (make acl0 oem0).
Definition ok `{Json J} (r : t) : Prop := True.
End DeleteAcl.

(** [DeleteAclPort] *)
Module DeleteAclPort.
Record t := make { m_acl : option string; m_ports : StringArray; m_oem : Oem }.
Definition to_json `{Json J} (r : t) : J :=
  object_of [(text Acl_ACL, put (m_acl r));
             (text Acl_PORTS, put (m_ports r));
             (text Acl_OEM, put (m_oem r))].
Definition from_json `{Json J} (json : J) : option t :=
  acl0 ← get (at_ json (text Acl_ACL));
  ports0 ← get (at_ json (text Acl_PORTS));
  oem0 ← get (at_ json (text Acl_OEM));
  Some (make acl0 ports0 oem0).
Definition ok `{Json J, Platform} (r : t) : Prop := conforms (J:=J) (VALID_JSON JSON_STRING) (Some (put (m_acl r))).
End DeleteAclPort.

(** [DeleteAclRule] *)
Module DeleteAclRule.
Record t := make { m_rule : string; m_oem : Oem }.
Definition to_json `{Json J} (r : t) : J :=
  object_of [(text AclRule_RULE, put (m_rule r)); (literals.Oem_OEM, put (m_oem r))].
Definition from_json `{Json J} (json : J) : option t :=
  rule0 ← get (at_ json (text AclRule_RULE));
  oem0 ← get (at_ json (literals.Oem_OEM));
  Some (make rule0 oem0).
Definition ok `{Json J, Platform} (r : t) : Prop := conforms (J:=J) (VALID_UUID) (Some (put (m_rule r))).
End DeleteAclRule.

(** [DeleteEthernetSwitchPort] *)
Module DeleteEthernetSwitchPort.
Record t := make { m_port : string; m_oem : Oem }.
Definition to_json `{Json J} (r : t) : J :=
  object_of [(text EthernetSwitchPort_PORT, put (m_port r));
             (text EthernetSwitchPort_OEM, put (m_oem r))].
Definition from_json `{Json J} (json : J) : option t :=
  port0 ← get (at_ json (text EthernetSwitchPort_PORT));
  oem0 ← get (at_ json (text EthernetSwitchPort_OEM));
  Some (make port0 oem0).
Definition ok `{Json J} (r : t) : Prop := True.
End DeleteEthernetSwitchPort.

(** [DeleteEthernetSwitchPortMembers] *)
Module DeleteEthernetSwitchPortMembers.
Record t := make { m_members : list string; m_port : string; m_oem : Oem }.
Definition to_json `{Json J} (r : t) : J :=
  object_of [(text EthernetSwitchPort_MEMBERS, put (m_members r));
             (text EthernetSwitchPort_PORT, put (m_port r));
             (text EthernetSwitchPort_OEM, put (m_oem r))].
Definition from_json `{Json J} (json : J) : option t :=
  members0 ← get (at_ json (text EthernetSwitchPort_MEMBERS));
  port0 ← get (at_ json (text EthernetSwitchPort_PORT));
  oem0 ← get (at_ json (text EthernetSwitchPort_OEM));
  Some (make members0 port0 oem0).
Definition ok `{Json J} (r : t) : Prop := True.
End DeleteEthernetSwitchPortMembers.

(** [DeletePortStaticMac] *)
Module DeletePortStaticMac.
Record t := make { m_static_mac : string; m_oem : Oem }.
Definition to_json `{Json J} (r : t) : J :=
  object_of [(text StaticMac_STATIC_MAC, put (m_static_mac r));
             (text StaticMac_OEM, put (m_oem r))].
Definition from_json `{Json J} (json : J) : option t :=
  static_mac0 ← get (at_ json (text StaticMac_STATIC_MAC));
  Some (make static_mac0 OemAttribute).
Definition ok `{Json J} (r : t) : Prop := True.
End DeletePortStaticMac.

(** [DeletePortVlan] *)
Module DeletePortVlan.
Record t := make { m_port_vlan : string; m_oem : Oem }.
Definition to_json `{Json J} (r : t) : J :=
  object_of [(text EthernetSwitchPortVlan_PORT_VLAN, put (m_port_vlan r));
             (text EthernetSwitchPortVlan_OEM, put (m_oem r))].
Definition from_json `{Json J} (json : J) : option t :=
  port_vlan0 ← get (at_ json (text EthernetSwitchPortVlan_PORT_VLAN));
  Some (make port_vlan0 OemAttribute).
Definition ok `{Json J} (r : t) : Prop := True.
End DeletePortVlan.

(** [DeleteVlan] *)
Module DeleteVlan.
Record t := make { m_vlan : string; m_oem : Oem }.
Definition to_json `{Json J} (r : t) : J :=
  object_of [(text Vlan_VLAN, put (m_vlan r)); (literals.Oem_OEM, put (m_oem r))].
Definition from_json `{Json J} (json : J) : option t :=
  vlan0 ← get (at_ json (text Vlan_VLAN));
  Some (make vlan0 OemAttribute).
Definition ok `{Json J} (r : t) : Prop := True.
End DeleteVlan.

(** [GetAclInfo] *)
Module GetAclInfo.
Record t := make { m_acl : string }.
Definition to_json `{Json J} (r : t) : J :=
  object_of [(text Acl_ACL, put (m_acl r))].
Definition from_json `{Json J} (json : J) : option t :=
  acl0 ← get (at_ json (text Acl_ACL));
  Some (make acl0).
Definition ok `{Json J} (r : t) : Prop := True.
End GetAclInfo.

(** [GetAclRuleInfo] *)
Module GetAclRuleInfo.
Record t := make { m_rule : string }.
Definition to_json `{Json J} (r : t) : J :=
  object_of [(text AclRule_RULE, put (m_rule r))].
Definition from_json `{Json J} (json : J) : option t :=
  rule0 ← get (at_ json (text AclRule_RULE));
  Some (make rule0).
Definition ok `{Json J} (r : t) : Prop := True.
End GetAclRuleInfo.

(** [GetEthernetSwitchInfo] *)
Module GetEthernetSwitchInfo.
Record t := make { m_switch : string }.
Definition to_json `{Json J} (r : t) : J :=
  object_of [(text EthernetSwitch_SWITCH, put (m_switch r))].
Definition from_json `{Json J} (json : J) : option t :=
  switch0 ← get (at_ json (text EthernetSwitch_SWITCH));
  Some (make switch0).
Definition ok `{Json J, Platform} (r : t) : Prop := conforms (J:=J) (VALID_UUID) (Some (put (m_switch r))).
End GetEthernetSwitchInfo.

(** [GetEthernetSwitchPortInfo] *)
Module GetEthernetSwitchPortInfo.
Record t := make { m_port : string }.
Definition to_json `{Json J} (r : t) : J :=
  object_of [(text EthernetSwitchPort_PORT, put (m_port r))].
Definition from_json `{Json J} (json : J) : option t :=
  port0 ← get (at_ json (text EthernetSwitchPort_PORT));
  Some (make port0).
Definition ok `{Json J, Platform} (r : t) : Prop := conforms (J:=J) (VALID_UUID) (Some (put (m_port r))).
End GetEthernetSwitchPortInfo.

(** [GetPortStaticMacInfo] *)
Module GetPortStaticMacInfo.
Record t := make { m_static_mac : string }.
Definition to_json `{Json J} (r : t) : J :=
  object_of [(text StaticMac_STATIC_MAC, put (m_static_mac r))].
Definition from_json `{Json J} (json : J) : option t :=
  static_mac0 ← get (at_ json (text StaticMac_STATIC_MAC));
  Some (make static_mac0).
Definition ok `{Json J} (r : t) : Prop := True.
End GetPortStaticMacInfo.

(** [GetPortVlanInfo] *)
Module GetPortVlanInfo.
Record t := make { m_port_vlan : string }.
Definition to_json `{Json J} (r : t) : J :=
  object_of [(text EthernetSwitchPortVlan_PORT_VLAN, put (m_port_vlan r))].
Definition from_json `{Json J} (json : J) : option t :=
  port_vlan0 ← get (at_ json (text EthernetSwitchPortVlan_PORT_VLAN));
  Some (make port_vlan0).
Definition ok `{Json J, Platform} (r : t) : Prop := conforms (J:=J) (VALID_UUID) (Some (put (m_port_vlan r))).
End GetPortVlanInfo.

(** [GetRemoteEthernetSwitchInfo] *)
Module GetRemoteEthernetSwitchInfo.
Record t := make { m_switch : string }.
Definition to_json `{Json J} (r : t) : J :=
  object_of [(text EthernetSwitch_SWITCH, put (m_switch r))].
Definition from_json `{Json J} (json : J) : option t :=
  switch0 ← get (at_ json (text EthernetSwitch_SWITCH));
  Some (make switch0).
Definition ok `{Json J, Platform} (r : t) : Prop := conforms (J:=J) (VALID_UUID) (Some (put (m_switch r))).
End GetRemoteEthernetSwitchInfo.

(** [GetVlanInfo] *)
Module GetVlanInfo.
Record t := make { m_vlan : string }.
Definition to_json `{Json J} (r : t) : J :=
  object_of [(text Vlan_VLAN, put (m_vlan r))].
Definition from_json `{Json J} (json : J) : option t :=
  vlan0 ← get (at_ json (text Vlan_VLAN));
  Some (make vlan0).
Definition ok `{Json J} (r : t) : Prop := True.
End GetVlanInfo.

(** [GetPortInfo] *)
Module GetPortInfo.
Record t := make { m_port : string }.
Definition to_json `{Json J} (r : t) : J :=
  object_of [(text Port_PORT, put (m_port r))].
Definition from_json `{Json J} (json : J) : option t :=
  port0 ← get (at_ json (text Port_PORT));
  Some (make port0).
Definition ok `{Json J} (r : t) : Prop := True.
End GetPortInfo.

(** [GetSwitchInfo] *)
Module GetSwitchInfo.
Record t := make { m_switch : string }.
Definition to_json `{Json J} (r : t) : J :=
  object_of [(text Switch_SWITCH, put (m_switch r))].
Definition from_json `{Json J} (json : J) : option t :=
  switch0 ← get (at_ json (text Switch_SWITCH));
  Some (make switch0).
Definition ok `{Json J} (r : t) : Prop := True.
End GetSwitchInfo.

(** [Attach] *)
Module Attach.
Record t := make { m_gami_id : string; m_version : string; m_vendor : string; m_ipv4_address : string; m_port : int32; m_capabilities : StringArray }.
Definition to_json `{Json J} (r : t) : J :=
  object_of [(text Attach_VERSION, put (m_version r));
             (text Attach_IPV4_ADDRESS, put (m_ipv4_address r));
             (text Attach_PORT, put (m_port r));
             (text Attach_VENDOR, put (m_vendor r));
             (text Attach_GAMI_ID, put (m_gami_id r));
             (text Attach_CAPABILITIES, put (m_capabilities r))].
Definition from_json `{Json J} (json : J) : option t :=
  version0 ← get (at_ json (text Attach_VERSION));
  ipv4_address0 ← get (at_ json (text Attach_IPV4_ADDRESS));
  port0 ← get (at_ json (text Attach_PORT));
  vendor0 ← get (at_ json (text Attach_VENDOR));
  gami_id0 ← get (at_ json (text Attach_GAMI_ID));
  capabilities0 ← get (at_ json (text Attach_CAPABILITIES));
  Some (make gami_id0 version0 vendor0 ipv4_address0 port0 capabilities0).
Definition ok `{Json J} (r : t) : Prop := fit (J:=J) (m_port r).
End Attach.

(** [HeartBeat] *)
Module HeartBeat.
Record t := make { m_gami_id : string }.
Definition to_json `{Json J} (r : t) : J :=
  object_of [(text HeartBeat_GAMI_ID, put (m_gami_id r))].
Definition from_json `{Json J} (json : J) : option t :=
  gami_id0 ← get (at_ json (text HeartBeat_GAMI_ID));
  Some (make gami_id0).
Definition ok `{Json J} (r : t) : Prop := True.
End HeartBeat.

(** [GetFanInfo] *)
Module GetFanInfo.
Record t := make { m_fan : string }.
Definition to_json `{Json J} (r : t) : J :=
  object_of [(text Fan_FAN, put (m_fan r))].
Definition from_json `{Json J} (json : J) : option t :=
  fan0 ← get (at_ json (text Fan_FAN));
  Some (make fan0).
Definition ok `{Json J} (r : t) : Prop := True.
End GetFanInfo.

(** [GetPowerZoneInfo] *)
Module GetPowerZoneInfo.
Record t := make { m_zone : string }.
Definition to_json `{Json J} (r : t) : J :=
  object_of [(text PowerZone_ZONE, put (m_zone r))].
Definition from_json `{Json J} (json : J) : option t :=
  zone0 ← get (at_ json (text PowerZone_ZONE));
  Some (make zone0).
Definition ok `{Json J} (r : t) : Prop := True.
End GetPowerZoneInfo.

(** [GetPsuInfo] *)
Module GetPsuInfo.
Record t := make { m_psu : string }.
Definition to_json `{Json J} (r : t) : J :=
  object_of [(text Psu_PSU, put (m_psu r))].
Definition from_json `{Json J} (json : J) : option t :=
  psu0 ← get (at_ json (text Psu_PSU));
  Some (make psu0).
Definition ok `{Json J} (r : t) : Prop := True.
End GetPsuInfo.

(** [GetThermalZoneInfo] *)
Module GetThermalZoneInfo.
Record t := make { m_zone : string }.
Definition to_json `{Json J} (r : t) : J :=
  object_of [(text ThermalZone_ZONE, put (m_zone r))].
Definition from_json `{Json J} (json : J) : option t :=
  zone0 ← get (at_ json (text ThermalZone_ZONE));
  Some (make zone0).
Definition ok `{Json J} (r : t) : Prop := True.
End GetThermalZoneInfo.

(** [DeleteStoragePool] *)
Module DeleteStoragePool.
Record t := make { m_storage_pool : Uuid }.
Definition to_json `{Json J} (r : t) : J :=
  object_of [(text StoragePool_STORAGE_POOL, put (m_storage_pool r))].
Definition from_json `{Json J} (json : J) : option t :=
  storage_pool0 ← get (at_ json (text StoragePool_STORAGE_POOL));
  Some (make storage_pool0).
Definition ok `{Json J, Platform} (r : t) : Prop := conforms (J:=J) (VALID_UUID) (Some (put (m_storage_pool r))).
End DeleteStoragePool.

(** [DeleteVolume] *)
Module DeleteVolume.
Record t := make { m_volume : Uuid }.
Definition to_json `{Json J} (r : t) : J :=
  object_of [(text Volume_VOLUME, put (m_volume r))].
Definition from_json `{Json J} (json : J) : option t :=
  volume0 ← get (at_ json (text Volume_VOLUME));
  Some (make volume0).
Definition ok `{Json J, Platform} (r : t) : Prop := conforms (J:=J) (VALID_UUID) (Some (put (m_volume r))).
End DeleteVolume.

(** [GetStoragePoolInfo] *)
Module GetStoragePoolInfo.
Record t := make { m_storage_pool : string }.
Definition to_json `{Json J} (r : t) : J :=
  object_of [(text StoragePool_STORAGE_POOL, put (m_storage_pool r))].
Definition from_json `{Json J} (json : J) : option t :=
  storage_pool0 ← get (at_ json (text StoragePool_STORAGE_POOL));
  Some (make storage_pool0).
Definition ok `{Json J, Platform} (r : t) : Prop := conforms (J:=J) (VALID_UUID) (Some (put (m_storage_pool r))).
End GetStoragePoolInfo.

(** [GetStorageServiceInfo] *)
Module GetStorageServiceInfo.
Record t := make { m_service : string }.
Definition to_json `{Json J} (r : t) : J :=
  object_of [(text StorageService_SERVICE, put (m_service r))].
Definition from_json `{Json J} (json : J) : option t :=
  service0 ← get (at_ json (text StorageService_SERVICE));
  Some (make service0).
Definition ok `{Json J} (r : t) : Prop := True.
End GetStorageServiceInfo.

(** [GetVolumeInfo] *)
Module GetVolumeInfo.
Record t := make { m_volume : string }.
Definition to_json `{Json J} (r : t) : J :=
  object_of [(text Volume_VOLUME, put (m_volume r))].
Definition from_json `{Json J} (json : J) : option t :=
  volume0 ← get (at_ json (text Volume_VOLUME));
  Some (make volume0).
Definition ok `{Json J, Platform} (r : t) : Prop := conforms (J:=J) (VALID_UUID) (Some (put (m_volume r))).
End GetVolumeInfo.

(** ** Round trips *)

(** A class with its declaration; [rc_ok] are the values it is meant to hold. *)
Record request_class (J : Type) := {
  rc_name : string;
  rc_type : Type;
  rc_to_json : rc_type → J;
  rc_from_json : J → option rc_type;
  rc_fields : fields;
  rc_ok : rc_type → Prop;
}.
Arguments rc_name {J}.
Arguments rc_type {J}.
Arguments rc_to_json {J}.
Arguments rc_from_json {J}.
Arguments rc_fields {J}.
Arguments rc_ok {J}.

Section classes.
Context `{Json J, Platform}.

(** The classes but AddVlan and DeleteVlan. *)
Definition request_classes : list (request_class J) :=
  [{| rc_name := "GetAuthorizationCertificate"; rc_to_json := GetAuthorizationCertificate.to_json; rc_from_json := GetAuthorizationCertificate.from_json;
      rc_fields := GetAuthorizationCertificate; rc_ok := GetAuthorizationCertificate.ok |};
   {| rc_name := "AddZone"; rc_to_json := AddZone.to_json; rc_from_json := AddZone.from_json;
      rc_fields := AddZone; rc_ok := AddZone.ok |};
   {| rc_name := "AddZoneEndpoints"; rc_to_json := AddZoneEndpoints.to_json; rc_from_json := AddZoneEndpoints.from_json;
      rc_fields := AddZoneEndpoints; rc_ok := AddZoneEndpoints.ok |};
   {| rc_name := "DeleteDrive"; rc_to_json := DeleteDrive.to_json; rc_from_json := DeleteDrive.from_json;
      rc_fields := DeleteDrive; rc_ok := DeleteDrive.ok |};
   {| rc_name := "DeleteEndpoint"; rc_to_json := DeleteEndpoint.to_json; rc_from_json := DeleteEndpoint.from_json;
      rc_fields := DeleteEndpoint; rc_ok := DeleteEndpoint.ok |};
   {| rc_name := "DeleteTask"; rc_to_json := DeleteTask.to_json; rc_from_json := DeleteTask.from_json;
      rc_fields := DeleteTask; rc_ok := DeleteTask.ok |};
   {| rc_name := "DeleteZone"; rc_to_json := DeleteZone.to_json; rc_from_json := DeleteZone.from_json;
      rc_fields := DeleteZone; rc_ok := DeleteZone.ok |};
   {| rc_name := "DeleteZoneEndpoints"; rc_to_json := DeleteZoneEndpoints.to_json; rc_from_json := DeleteZoneEndpoints.from_json;
      rc_fields := DeleteZoneEndpoints; rc_ok := DeleteZoneEndpoints.ok |};
   {| rc_name := "GetChassisInfo"; rc_to_json := GetChassisInfo.to_json; rc_from_json := GetChassisInfo.from_json;
      rc_fields := GetChassisInfo; rc_ok := GetChassisInfo.ok |};
   {| rc_name := "GetCollection"; rc_to_json := GetCollection.to_json; rc_from_json := GetCollection.from_json;
      rc_fields := GetCollection; rc_ok := GetCollection.ok |};
   {| rc_name := "GetDriveInfo"; rc_to_json := GetDriveInfo.to_json; rc_from_json := GetDriveInfo.from_json;
      rc_fields := GetDriveInfo; rc_ok := GetDriveInfo.ok |};
   {| rc_name := "GetEndpointInfo"; rc_to_json := GetEndpointInfo.to_json; rc_from_json := GetEndpointInfo.from_json;
      rc_fields := GetEndpointInfo; rc_ok := GetEndpointInfo.ok |};
   {| rc_name := "GetFabricInfo"; rc_to_json := GetFabricInfo.to_json; rc_from_json := GetFabricInfo.from_json;
      rc_fields := GetFabricInfo; rc_ok := GetFabricInfo.ok |};
   {| rc_name := "GetLogEntryInfo"; rc_to_json := GetLogEntryInfo.to_json; rc_from_json := GetLogEntryInfo.from_json;
      rc_fields := GetLogEntryInfo; rc_ok := GetLogEntryInfo.ok |};
   {| rc_name := "GetLogServiceInfo"; rc_to_json := GetLogServiceInfo.to_json; rc_from_json := GetLogServiceInfo.from_json;
      rc_fields := GetLogServiceInfo; rc_ok := GetLogServiceInfo.ok |};
   {| rc_name := "GetManagerInfo"; rc_to_json := GetManagerInfo.to_json; rc_from_json := GetManagerInfo.from_json;
      rc_fields := GetManagerInfo; rc_ok := GetManagerInfo.ok |};
   {| rc_name := "GetManagersCollection"; rc_to_json := GetManagersCollection.to_json; rc_from_json := GetManagersCollection.from_json;
      rc_fields := GetManagersCollection; rc_ok := GetManagersCollection.ok |};
   {| rc_name := "GetMetricDefinitionInfo"; rc_to_json := GetMetricDefinitionInfo.to_json; rc_from_json := GetMetricDefinitionInfo.from_json;
      rc_fields := GetMetricDefinitionInfo; rc_ok := GetMetricDefinitionInfo.ok |};
   {| rc_name := "GetMetricDefinitionsCollection"; rc_to_json := GetMetricDefinitionsCollection.to_json; rc_from_json := GetMetricDefinitionsCollection.from_json;
      rc_fields := GetMetricDefinitionsCollection; rc_ok := GetMetricDefinitionsCollection.ok |};
   {| rc_name := "GetNetworkInterfaceInfo"; rc_to_json := GetNetworkInterfaceInfo.to_json; rc_from_json := GetNetworkInterfaceInfo.from_json;
      rc_fields := GetNetworkInterfaceInfo; rc_ok := GetNetworkInterfaceInfo.ok |};
   {| rc_name := "GetPcieDeviceInfo"; rc_to_json := GetPcieDeviceInfo.to_json; rc_from_json := GetPcieDeviceInfo.from_json;
      rc_fields := GetPcieDeviceInfo; rc_ok := GetPcieDeviceInfo.ok |};
   {| rc_name := "GetPcieFunctionInfo"; rc_to_json := GetPcieFunctionInfo.to_json; rc_from_json := GetPcieFunctionInfo.from_json;
      rc_fields := GetPcieFunctionInfo; rc_ok := GetPcieFunctionInfo.ok |};
   {| rc_name := "GetProcessorInfo"; rc_to_json := GetProcessorInfo.to_json; rc_from_json := GetProcessorInfo.from_json;
      rc_fields := GetProcessorInfo; rc_ok := GetProcessorInfo.ok |};
   {| rc_name := "GetStorageSubsystemInfo"; rc_to_json := GetStorageSubsystemInfo.to_json; rc_from_json := GetStorageSubsystemInfo.from_json;
      rc_fields := GetStorageSubsystemInfo; rc_ok := GetStorageSubsystemInfo.ok |};
   {| rc_name := "GetSystemInfo"; rc_to_json := GetSystemInfo.to_json; rc_from_json := GetSystemInfo.from_json;
      rc_fields := GetSystemInfo; rc_ok := GetSystemInfo.ok |};
   {| rc_name := "GetTaskInfo"; rc_to_json := GetTaskInfo.to_json; rc_from_json := GetTaskInfo.from_json;
      rc_fields := GetTaskInfo; rc_ok := GetTaskInfo.ok |};
   {| rc_name := "GetTaskResultInfo"; rc_to_json := GetTaskResultInfo.to_json; rc_from_json := GetTaskResultInfo.from_json;
      rc_fields := GetTaskResultInfo; rc_ok := GetTaskResultInfo.ok |};
   {| rc_name := "GetTasksCollection"; rc_to_json := GetTasksCollection.to_json; rc_from_json := GetTasksCollection.from_json;
      rc_fields := GetTasksCollection; rc_ok := GetTasksCollection.ok |};
   {| rc_name := "GetZoneInfo"; rc_to_json := GetZoneInfo.to_json; rc_from_json := GetZoneInfo.from_json;
      rc_fields := GetZoneInfo; rc_ok := GetZoneInfo.ok |};
   {| rc_name := "GetMemoryChunksInfo"; rc_to_json := GetMemoryChunksInfo.to_json; rc_from_json := GetMemoryChunksInfo.from_json;
      rc_fields := GetMemoryChunksInfo; rc_ok := GetMemoryChunksInfo.ok |};
   {| rc_name := "GetMemoryDomainInfo"; rc_to_json := GetMemoryDomainInfo.to_json; rc_from_json := GetMemoryDomainInfo.from_json;
      rc_fields := GetMemoryDomainInfo; rc_ok := GetMemoryDomainInfo.ok |};
   {| rc_name := "GetMemoryInfo"; rc_to_json := GetMemoryInfo.to_json; rc_from_json := GetMemoryInfo.from_json;
      rc_fields := GetMemoryInfo; rc_ok := GetMemoryInfo.ok |};
   {| rc_name := "GetNetworkDeviceFunctionInfo"; rc_to_json := GetNetworkDeviceFunctionInfo.to_json; rc_from_json := GetNetworkDeviceFunctionInfo.from_json;
      rc_fields := GetNetworkDeviceFunctionInfo; rc_ok := GetNetworkDeviceFunctionInfo.ok |};
   {| rc_name := "GetNetworkDeviceInfo"; rc_to_json := GetNetworkDeviceInfo.to_json; rc_from_json := GetNetworkDeviceInfo.from_json;
      rc_fields := GetNetworkDeviceInfo; rc_ok := GetNetworkDeviceInfo.ok |};
   {| rc_name := "GetStorageControllerInfo"; rc_to_json := GetStorageControllerInfo.to_json; rc_from_json := GetStorageControllerInfo.from_json;
      rc_fields := GetStorageControllerInfo; rc_ok := GetStorageControllerInfo.ok |};
   {| rc_name := "GetTrustedModuleInfo"; rc_to_json := GetTrustedModuleInfo.to_json; rc_from_json := GetTrustedModuleInfo.from_json;
      rc_fields := GetTrustedModuleInfo; rc_ok := GetTrustedModuleInfo.ok |};
   {| rc_name := "AddAcl"; rc_to_json := AddAcl.to_json; rc_from_json := AddAcl.from_json;
      rc_fields := AddAcl; rc_ok := AddAcl.ok |};
   {| rc_name := "AddAclPort"; rc_to_json := AddAclPort.to_json; rc_from_json := AddAclPort.from_json;
      rc_fields := AddAclPort; rc_ok := AddAclPort.ok |};
   {| rc_name := "AddEthernetSwitchPortMembers"; rc_to_json := AddEthernetSwitchPortMembers.to_json; rc_from_json := AddEthernetSwitchPortMembers.from_json;
      rc_fields := AddEthernetSwitchPortMembers; rc_ok := AddEthernetSwitchPortMembers.ok |};
   {| rc_name := "AddPortStaticMac"; rc_to_json := AddPortStaticMac.to_json; rc_from_json := AddPortStaticMac.from_json;
      rc_fields := AddPortStaticMac; rc_ok := AddPortStaticMac.ok |};
   {| rc_name := "AddPortVlan"; rc_to_json := AddPortVlan.to_json; rc_from_json := AddPortVlan.from_json;
      rc_fields := AddPortVlan; rc_ok := AddPortVlan.ok |};
   {| rc_name := "DeleteAcl"; rc_to_json := DeleteAcl.to_json; rc_from_json := DeleteAcl.from_json;
      rc_fields := DeleteAcl; rc_ok := DeleteAcl.ok |};
   {| rc_name := "DeleteAclPort"; rc_to_json := DeleteAclPort.to_json; rc_from_json := DeleteAclPort.from_json;
      rc_fields := DeleteAclPort; rc_ok := DeleteAclPort.ok |};
   {| rc_name := "DeleteAclRule"; rc_to_json := DeleteAclRule.to_json; rc_from_json := DeleteAclRule.from_json;
      rc_fields := DeleteAclRule; rc_ok := DeleteAclRule.ok |};
   {| rc_name := "DeleteEthernetSwitchPort"; rc_to_json := DeleteEthernetSwitchPort.to_json; rc_from_json := DeleteEthernetSwitchPort.from_json;
      rc_fields := DeleteEthernetSwitchPort; rc_ok := DeleteEthernetSwitchPort.ok |};
   {| rc_name := "DeleteEthernetSwitchPortMembers"; rc_to_json := DeleteEthernetSwitchPortMembers.to_json; rc_from_json := DeleteEthernetSwitchPortMembers.from_json;
      rc_fields := DeleteEthernetSwitchPortMembers; rc_ok := DeleteEthernetSwitchPortMembers.ok |};
   {| rc_name := "DeletePortStaticMac"; rc_to_json := DeletePortStaticMac.to_json; rc_from_json := DeletePortStaticMac.from_json;
      rc_fields := DeletePortStaticMac; rc_ok := DeletePortStaticMac.ok |};
   {| rc_name := "DeletePortVlan"; rc_to_json := DeletePortVlan.to_json; rc_from_json := DeletePortVlan.from_json;
      rc_fields := DeletePortVlan; rc_ok := DeletePortVlan.ok |};
   {| rc_name := "GetAclInfo"; rc_to_json := GetAclInfo.to_json; rc_from_json := GetAclInfo.from_json;
      rc_fields := GetAclInfo; rc_ok := GetAclInfo.ok |};
   {| rc_name := "GetAclRuleInfo"; rc_to_json := GetAclRuleInfo.to_json; rc_from_json := GetAclRuleInfo.from_json;
      rc_fields := GetAclRuleInfo; rc_ok := GetAclRuleInfo.ok |};
   {| rc_name := "GetEthernetSwitchInfo"; rc_to_json := GetEthernetSwitchInfo.to_json; rc_from_json := GetEthernetSwitchInfo.from_json;
      rc_fields := GetEthernetSwitchInfo; rc_ok := GetEthernetSwitchInfo.ok |};
   {| rc_name := "GetEthernetSwitchPortInfo"; rc_to_json := GetEthernetSwitchPortInfo.to_json; rc_from_json := GetEthernetSwitchPortInfo.from_json;
      rc_fields := GetEthernetSwitchPortInfo; rc_ok := GetEthernetSwitchPortInfo.ok |};
   {| rc_name := "GetPortStaticMacInfo"; rc_to_json := GetPortStaticMacInfo.to_json; rc_from_json := GetPortStaticMacInfo.from_json;
      rc_fields := GetPortStaticMacInfo; rc_ok := GetPortStaticMacInfo.ok |};
   {| rc_name := "GetPortVlanInfo"; rc_to_json := GetPortVlanInfo.to_json; rc_from_json := GetPortVlanInfo.from_json;
      rc_fields := GetPortVlanInfo; rc_ok := GetPortVlanInfo.ok |};
   {| rc_name := "GetRemoteEthernetSwitchInfo"; rc_to_json := GetRemoteEthernetSwitchInfo.to_json; rc_from_json := GetRemoteEthernetSwitchInfo.from_json;
      rc_fields := GetRemoteEthernetSwitchInfo; rc_ok := GetRemoteEthernetSwitchInfo.ok |};
   {| rc_name := "GetVlanInfo"; rc_to_json := GetVlanInfo.to_json; rc_from_json := GetVlanInfo.from_json;
      rc_fields := GetVlanInfo; rc_ok := GetVlanInfo.ok |};
   {| rc_name := "GetPortInfo"; rc_to_json := GetPortInfo.to_json; rc_from_json := GetPortInfo.from_json;
      rc_fields := GetPortInfo; rc_ok := GetPortInfo.ok |};
   {| rc_name := "GetSwitchInfo"; rc_to_json := GetSwitchInfo.to_json; rc_from_json := GetSwitchInfo.from_json;
      rc_fields := GetSwitchInfo; rc_ok := GetSwitchInfo.ok |};
   {| rc_name := "Attach"; rc_to_json := Attach.to_json; rc_from_json := Attach.from_json;
      rc_fields := Attach; rc_ok := Attach.ok |};
   {| rc_name := "HeartBeat"; rc_to_json := HeartBeat.to_json; rc_from_json := HeartBeat.from_json;
      rc_fields := HeartBeat; rc_ok := HeartBeat.ok |};
   {| rc_name := "GetFanInfo"; rc_to_json := GetFanInfo.to_json; rc_from_json := GetFanInfo.from_json;
      rc_fields := GetFanInfo; rc_ok := GetFanInfo.ok |};
   {| rc_name := "GetPowerZoneInfo"; rc_to_json := GetPowerZoneInfo.to_json; rc_from_json := GetPowerZoneInfo.from_json;
      rc_fields := GetPowerZoneInfo; rc_ok := GetPowerZoneInfo.ok |};
   {| rc_name := "GetPsuInfo"; rc_to_json := GetPsuInfo.to_json; rc_from_json := GetPsuInfo.from_json;
      rc_fields := GetPsuInfo; rc_ok := GetPsuInfo.ok |};
   {| rc_name := "GetThermalZoneInfo"; rc_to_json := GetThermalZoneInfo.to_json; rc_from_json := GetThermalZoneInfo.from_json;
      rc_fields := GetThermalZoneInfo; rc_ok := GetThermalZoneInfo.ok |};
   {| rc_name := "DeleteStoragePool"; rc_to_json := DeleteStoragePool.to_json; rc_from_json := DeleteStoragePool.from_json;
      rc_fields := DeleteStoragePool; rc_ok := DeleteStoragePool.ok |};
   {| rc_name := "DeleteVolume"; rc_to_json := DeleteVolume.to_json; rc_from_json := DeleteVolume.from_json;
      rc_fields := DeleteVolume; rc_ok := DeleteVolume.ok |};
   {| rc_name := "GetStoragePoolInfo"; rc_to_json := GetStoragePoolInfo.to_json; rc_from_json := GetStoragePoolInfo.from_json;
      rc_fields := GetStoragePoolInfo; rc_ok := GetStoragePoolInfo.ok |};
   {| rc_name := "GetStorageServiceInfo"; rc_to_json := GetStorageServiceInfo.to_json; rc_from_json := GetStorageServiceInfo.from_json;
      rc_fields := GetStorageServiceInfo; rc_ok := GetStorageServiceInfo.ok |};
   {| rc_name := "GetVolumeInfo"; rc_to_json := GetVolumeInfo.to_json; rc_from_json := GetVolumeInfo.from_json;
      rc_fields := GetVolumeInfo; rc_ok := GetVolumeInfo.ok |}].

End classes.

Section laws.
Context `{JsonLaws J, !JsonText J, !Platform}.

(** The first member of a name. *)
Fixpoint member_of (l : list (string * J)) (k : string) : option J :=
  match l with
  | [] => None
  | (k', v) :: l' => if decide (k' = k) then Some v else member_of l' k
  end.

Lemma find_object_of l k : bool_decide (NoDup l.*1) = true → json_find (object_of l) k = member_of l k.
Proof.
  intros Hd%bool_decide_eq_true. destruct (member_of l k) as [v|] eqn:E.
  - apply object_of_here; [done|]. clear Hd. induction l as [|[k' v'] l IH]; [done|]. simpl in E.
    case_decide; subst; [injection E as ->; apply list_elem_of_here|].
    by apply list_elem_of_further, IH.
  - apply object_of_nowhere. clear Hd. induction l as [|[k' v'] l IH]; simpl in *; [apply not_elem_of_nil|].
    case_decide; [done|]. rewrite list.elem_of_cons. intros [->|Hin]; [done|]. by apply IH.
Qed.

(** An object conforms when its members are declared and the declared ones conform. *)
Lemma object_conforms fs l :
  bool_decide (NoDup l.*1) = true →
  forallb (λ k, bool_decide (k ∈ (λ f : cstring * schema, text f.1) <$> fs)) l.*1 = true →
  Forall (λ f : cstring * schema, conforms f.2 (member_of l (text f.1))) fs →
  conforms_request fs (object_of l).
Proof.
  intros Hd Hk Hf. split.
  - destruct l as [|m l]; [right|left]; apply bool_decide_eq_true; [apply type_null|by apply object_of_type].
  - split.
    + clear Hk. induction Hf as [|[n s] fs Hn _ IH]; [done|]. split; [by rewrite find_object_of|exact IH].
    + intros k [v Hv]. rewrite forallb_forall in Hk. apply (bool_decide_eq_true_1 _), Hk, list_elem_of_In.
      apply dec_stable. intros Hn. by rewrite (object_of_nowhere _ _ Hn) in Hv.
Qed.

(** *** The conversions *)

Lemma get_string_of (s : string) : get_string (J:=J) (json_of_string s) = Some s.
Proof. unfold get_string, is_string. by rewrite type_of_string, string_of_string. Qed.

Lemma get_put_string (s : string) : get (J:=J) (T:=string) (put s) = Some s.
Proof. apply get_string_of. Qed.

Lemma get_put_uuid (s : Uuid) : get (J:=J) (T:=Uuid) (put s) = Some s.
Proof. apply get_put_string. Qed.

Lemma get_put_optional_string (x : option string) : get (J:=J) (put x) = Some x.
Proof.
  destruct x as [s|]; cbn; unfold get_optional, is_null; rewrite ?type_null; [|done].
  rewrite type_of_string. cbn. by rewrite get_string_of.
Qed.

Lemma get_put_strings (l : list string) : get (J:=J) (T:=list string) (put l) = Some l.
Proof.
  cbn. unfold get_array, is_array. rewrite type_of_array, elements_of_array. cbn.
  apply mapM_Some. induction l as [|s l IH]; constructor; [apply get_put_string|done].
Qed.

Lemma get_put_array (l : StringArray) : get (J:=J) (T:=StringArray) (put l) = Some l.
Proof. apply get_put_strings. Qed.

Lemma get_put_bool (b : bool) : get (J:=J) (put b) = Some b.
Proof. cbn. unfold is_boolean. by rewrite type_of_boolean, boolean_of_boolean. Qed.

Lemma get_put_uint32 (z : uint32) : fit (J:=J) z → get (J:=J) (T:=uint32) (put z) = Some z.
Proof.
  intros Hz. cbn in *. unfold is_number_integer. rewrite type_of_unsigned, integer_of_unsigned by lia. cbn.
  by rewrite Z.mod_small.
Qed.

Lemma get_put_optional_uint32 (x : option uint32) : fit (J:=J) x → get (J:=J) (T:=option uint32) (put x) = Some x.
Proof.
  destruct x as [z|]; intros Hz; cbn -[Z.pow]; unfold get_optional, is_null; rewrite ?type_null; [|done].
  rewrite type_of_unsigned. pose proof (get_put_uint32 z Hz) as Hg. cbn -[Z.pow] in *. by rewrite Hg.
Qed.

Lemma get_put_int32 (z : int32) : fit (J:=J) z → get (J:=J) (T:=int32) (put z) = Some z.
Proof.
  intros Hz. cbn in *. unfold is_number_integer. rewrite type_of_integer, integer_of_integer by lia. cbn.
  by rewrite to_int_small.
Qed.

Lemma get_put_oem (o : Oem) : get (J:=J) (put o) = Some o.
Proof. by destruct o. Qed.

(** *** The values conform *)

Lemma string_conforms (s : string) : conforms (VALID_JSON JSON_STRING) (Some (put (J:=J) s)).
Proof. eexists. split; [done|]. apply bool_decide_eq_true, type_of_string. Qed.

Lemma uuid_conforms (s : Uuid) : conforms (VALID_JSON JSON_STRING) (Some (put (J:=J) s)).
Proof. apply string_conforms. Qed.

Lemma nullable_string_conforms (x : option string) :
  conforms (VALID_NULLABLE (VALID_JSON JSON_STRING)) (Some (put (J:=J) x)).
Proof.
  destruct x as [s|]; [right; apply string_conforms|left]. eexists. split; [done|].
  apply bool_decide_eq_true, type_null.
Qed.

Lemma nullable_optional_string_conforms (x : option string) :
  conforms (VALID_NULLABLE (VALID_OPTIONAL (VALID_JSON JSON_STRING))) (Some (put (J:=J) x)).
Proof. destruct (nullable_string_conforms x) as [Hx|Hx]; [by left|by right; right]. Qed.

Lemma nullable_uint32_conforms (x : option uint32) :
  conforms (VALID_NULLABLE (VALID_OPTIONAL (VALID_JSON JSON_INTEGER))) (Some (put (J:=J) x)).
Proof.
  destruct x as [z|]; [right; right|left]; eexists; (split; [done|]); cbn.
  - unfold is_number_integer. by rewrite type_of_unsigned.
  - apply bool_decide_eq_true, type_null.
Qed.

Lemma array_conforms (l : list string) : conforms (VALID_JSON JSON_ARRAY) (Some (put (J:=J) l)).
Proof. eexists. split; [done|]. apply bool_decide_eq_true, type_of_array. Qed.

Lemma array_of_conforms (l : list string) :
  fit (J:=J) l → conforms (VALID_ARRAY_OF (VALID_JSON JSON_STRING)) (Some (put (J:=J) l)).
Proof.
  intros Hl. eexists. split; [done|]. unfold json_size. cbn in *. rewrite elements_of_array, length_fmap.
  split_and!; [apply bool_decide_eq_true, type_of_array|done|]. intros i y Hy.
  rewrite list_lookup_fmap in Hy. destruct (l !! i) as [s|]; [|done]. injection Hy as <-.
  apply string_conforms.
Qed.

Lemma oem_conforms (o : Oem) : conforms (VALID_JSON JSON_OBJECT) (Some (put (J:=J) o)).
Proof. eexists. split; [done|]. apply bool_decide_eq_true, type_of_object. Qed.

Lemma bool_conforms (b : bool) : conforms (VALID_JSON JSON_BOOLEAN) (Some (put (J:=J) b)).
Proof. eexists. split; [done|]. apply bool_decide_eq_true, type_of_boolean. Qed.

Lemma uint32_conforms (z : uint32) : conforms (VALID_JSON JSON_INTEGER) (Some (put (J:=J) z)).
Proof. eexists. split; [done|]. cbn. unfold is_number_integer. by rewrite type_of_unsigned. Qed.

Lemma int32_conforms (z : int32) : conforms (VALID_JSON JSON_INTEGER) (Some (put (J:=J) z)).
Proof. eexists. split; [done|]. cbn. unfold is_number_integer. by rewrite type_of_integer. Qed.

End laws.

Create HintDb requests.
#[export] Hint Resolve string_conforms uuid_conforms nullable_string_conforms nullable_optional_string_conforms
  nullable_uint32_conforms
  array_conforms array_of_conforms oem_conforms bool_conforms uint32_conforms int32_conforms : requests.

(** Find the members of an object with known keys. *)
Ltac find_members :=
  cbn [member_of fst snd];
  repeat first [rewrite decide_True by reflexivity|rewrite decide_False by (vm_compute; discriminate)].

(** Rewrite the conversions of the fields that are read. *)
Ltac read_fields :=
  repeat first
    [ rewrite get_put_string | rewrite get_put_uuid | rewrite get_put_optional_string
    | rewrite get_put_strings | rewrite get_put_array | rewrite get_put_bool
    | rewrite get_put_uint32 by assumption | rewrite get_put_optional_uint32 by assumption
    | rewrite get_put_int32 by assumption | rewrite get_put_oem ].

(** A class: what it writes conforms to its declaration and is read back. *)
Ltac class_roundtrip :=
  intros r Hok; cbn [rc_type rc_ok] in r, Hok;
  match type of Hok with ?k r => let k' := eval hnf in k in change (k' r) in Hok end;
  cbv beta in Hok; destruct_and?; split;
  [ apply object_conforms; [vm_compute; reflexivity|vm_compute; reflexivity|];
    repeat apply Forall_cons_2; try apply Forall_nil_2; find_members;
    eauto with requests
  | cbn [rc_from_json rc_to_json rc_type];
    match goal with |- ?f (?g r) = _ =>
      let f' := eval hnf in f in let g' := eval hnf in g in change (f' (g' r) = Some r) end;
    cbv beta; unfold at_;
    rewrite ?find_object_of by (vm_compute; reflexivity); find_members;
    cbn [default from_option id]; read_fields; destruct r; repeat match goal with o : Oem |- _ => destruct o end; done ].

Section roundtrip.
Context `{JsonLaws J, !JsonText J, !Platform}.

(** What a class promises. *)
Definition writes_what_it_reads (c : request_class J) : Prop :=
  ∀ r, rc_ok c r → conforms_request (rc_fields c) (rc_to_json c r) ∧ rc_from_json c (rc_to_json c r) = Some r.

Lemma classes_roundtrip : Forall writes_what_it_reads request_classes.
Proof.
  unfold request_classes. repeat apply Forall_cons_2; try apply Forall_nil_2; class_roundtrip.
Qed.

Lemma classes_checked : forallb (λ c, checked (rc_fields c)) (request_classes (J:=J)) = true.
Proof. vm_compute. reflexivity. Qed.


(** An object with a member that is not declared is rejected. *)
Lemma undeclared_member_rejected fs (o v : J) k :
  checked fs = true → json_find o k = Some v → bool_decide (k ∈ (λ f : cstring * schema, text f.1) <$> fs) = false →
  ∃ vs, create_validators (declare fs) = Some vs ∧ validate vs o ≠ Valid.
Proof.
  intros Hfs Hf Hk. destruct (checked_accepts (J:=J) fs Hfs) as (vs & Hvs & Hspec).
  exists vs. split; [done|]. intros [_ [_ Hall]]%Hspec. apply bool_decide_eq_false in Hk. apply Hk, Hall.
  by rewrite Hf.
Qed.

(** AddVlan and DeleteVlan write the member oem, which their declarations do not
    have: the validators of both classes reject every document the classes write. *)
Theorem vlan_requests_rejected (a : AddVlan.t) (d : DeleteVlan.t) :
  (∃ vs, create_validators (declare AddVlan) = Some vs ∧ validate vs (AddVlan.to_json (J:=J) a) ≠ Valid) ∧
  (∃ vs, create_validators (declare DeleteVlan) = Some vs ∧
     validate vs (DeleteVlan.to_json (J:=J) d) ≠ Valid).
Proof.
  split; eapply (undeclared_member_rejected _ _ _ "oem"); try (vm_compute; reflexivity);
    unfold AddVlan.to_json, DeleteVlan.to_json; rewrite find_object_of by (vm_compute; reflexivity);
    find_members; reflexivity.
Qed.

End roundtrip.

(** ** Witnesses *)

Module RequestsExample.
Import SchemaExample.


End RequestsExample.
