(* ===== verification/Hoare.v ===== *)
(** Triples for the methods of the prelude's state monad with exceptions: what holds
    of the result and the state when a method returns, and of the exception and the
    state it leaves when it throws.  The rules follow the constructs the models use;
    [hoare_step] picks the rule for the head of a method. *)

From S2P Require Import Prelude.

Definition triple {S A} (P : S → Prop) (m : M S A) (Q : A → S → Prop) (E : exn → S → Prop) : Prop :=
  ∀ s, P s → match m s with (Ok a, s') => Q a s' | (Throw e, s') => E e s' end.

Section rules.
Context {S A B : Type}.
Implicit Types (P : S → Prop) (E : exn → S → Prop).

Lemma triple_conseq P P' (m : M S A) (Q Q' : A → S → Prop) E E' :
  triple P' m Q' E' → (∀ s, P s → P' s) → (∀ a s, Q' a s → Q a s) → (∀ e s, E' e s → E e s) →
  triple P m Q E.
Proof.
  intros Hm HP HQ HE s Hs. specialize (Hm s (HP s Hs)). destruct (m s) as [[] ?]; auto.
Qed.

Lemma triple_ret P E (a : A) (Q : A → S → Prop) : (∀ s, P s → Q a s) → triple P (mret a) Q E.
Proof. intros H s Hs. by apply H. Qed.

Lemma triple_throw P E e (Q : A → S → Prop) : (∀ s, P s → E e s) → triple P (throw e) Q E.
Proof. intros H s Hs. by apply H. Qed.

Lemma triple_bind P (m : M S A) (f : A → M S B) R Q E :
  triple P m R E → (∀ a, triple (R a) (f a) Q E) → triple P (m ≫= f) Q E.
Proof.
  intros Hm Hf s Hs. specialize (Hm s Hs). unfold mbind, M_bind.
  destruct (m s) as [[a|e] s1]; [by apply Hf|done].
Qed.

(** What a method learns about its own state it may use in the rest. *)
Lemma triple_get_bind P (f : S → M S B) Q E :
  (∀ s0, P s0 → triple (λ s, s = s0) (f s0) Q E) → triple P (get ≫= f) Q E.
Proof. intros H s Hs. by apply (H s Hs s). Qed.

Lemma triple_lift_bind P (r : result A) (f : A → M S B) Q E :
  (∀ a, r = Ok a → triple P (f a) Q E) → (∀ e s, r = Throw e → P s → E e s) →
  triple P (lift r ≫= f) Q E.
Proof.
  intros Hok Hthrow s Hs. unfold mbind, M_bind, lift. destruct r as [a|e]; [by apply Hok|by apply Hthrow].
Qed.

Lemma triple_put P E s' (Q : unit → S → Prop) : (∀ s, P s → Q tt s') → triple P (put s') Q E.
Proof. intros H s Hs. by apply (H s). Qed.

Lemma triple_modify P E f (Q : unit → S → Prop) : (∀ s, P s → Q tt (f s)) → triple P (modify f) Q E.
Proof. intros H s Hs. by apply H. Qed.

Lemma triple_if P E (b : bool) (m n : M S A) Q :
  (b = true → triple P m Q E) → (b = false → triple P n Q E) →
  triple P (if b then m else n) Q E.
Proof. destruct b; auto. Qed.

Lemma triple_zoom {T} P (proj : S → T) inj (m : M T A) (Q : A → S → Prop) E
    (P' : T → Prop) (Q' : A → T → Prop) (E' : exn → T → Prop) :
  triple P' m Q' E' →
  (∀ s, P s → P' (proj s)) →
  (∀ s a t, P s → Q' a t → Q a (inj t s)) →
  (∀ s e t, P s → E' e t → E e (inj t s)) →
  triple P (zoom proj inj m) Q E.
Proof.
  intros Hm HP HQ HE s Hs. specialize (Hm (proj s) (HP s Hs)). unfold zoom.
  destruct (m (proj s)) as [[a|e] t]; [by apply HQ|by apply HE].
Qed.

End rules.

(** What a triple says of one run. *)
Lemma triple_run {S A} (P : S → Prop) (m : M S A) Q E s :
  triple P m Q E → P s →
  (∃ a s', m s = (Ok a, s') ∧ Q a s') ∨ (∃ e s', m s = (Throw e, s') ∧ E e s').
Proof.
  intros Hm Hs. pose proof (Hm s Hs) as H. destruct (m s) as [[a|e] s']; [left|right]; eauto.
Qed.

(** [for (x : l) body(x)] with an invariant. *)
Lemma triple_for_each {S A} (I : S → Prop) (l : list A) (f : A → M S unit) E :
  (∀ x, x ∈ l → triple I (f x) (λ _, I) E) → triple I (for_each l f) (λ _, I) E.
Proof.
  intros Hf. induction l as [|x l IH]; [by apply triple_ret|]. cbn [for_each].
  eapply triple_bind; [apply Hf, list_elem_of_here|]. intros u. apply IH.
  intros y Hy. apply Hf. by apply list_elem_of_further.
Qed.

Ltac hoare_step :=
  lazymatch goal with
  | |- triple _ (get ≫= _) _ _ => apply triple_get_bind; intros
  | |- triple _ (lift _ ≫= _) _ _ => apply triple_lift_bind; intros
  | |- triple _ (_ ≫= _) _ _ => eapply triple_bind; [|intros]
  | |- triple _ (mret _) _ _ => apply triple_ret; intros
  | |- triple _ (throw _) _ _ => apply triple_throw; intros
  | |- triple _ (put _) _ _ => apply triple_put; intros
  | |- triple _ (modify _) _ _ => apply triple_modify; intros
  | |- triple _ (if _ then _ else _) _ _ => apply triple_if; intros
  end.
