(* ===== verification/Fru.v ===== *)
(** The parser of FRU EEPROM blobs (PSME/common/fru_eeprom): the common header, the
    chassis, board and product areas and their length-prefixed fields.

    The blob is a list of bytes; areas and offsets are [uint8_t] and wrap, a pointer
    that leaves the blob gives [undefined_behaviour].  [strncpy_s] comes from the safe
    string library, which is not part of the sources: it is the class [SafeString],
    what its documentation promises the class [SafeStringLaws].

    Shown here: a blob laid out as the IPMI platform management specification says is
    read back field by field, wherever its areas are ([parse_laid_out]); a blob of 567
    bytes is never left, whatever the bytes are ([parse_in_bounds]), the blobs of 192
    bytes the agents pass may be ([parse_leaves_blob]); a fresh parser checks the sum
    of the common header only ([fresh_crc_error]). *)

From Stdlib Require Import ZArith Lia.
From S2P Require Import Prelude Hoare.

Local Open Scope Z_scope.

(** * Data *)

(** ** utils.hpp *)

Module Fru.

Definition AREA_NOT_USED : Z := 0x00.
Definition AREA_FIELD_LENGTH_MASK : Z := 0x3f.
Definition MULTIPLIER_BY_8_SHIFT : Z := 3.
Definition AREA_FORMAT_VERSION_1 : Z := 0x01.

Definition AREA_FORMAT_OFFSET : Z := 0x00.
Definition AREA_LENGTH_OFFSET : Z := 0x01.

Definition AREA_FIELD_MAX_SIZE : nat := 64.

Definition AREA_COMMON_HEADER_FORMAT_OFFSET : Z := 0.
Definition AREA_COMMON_HEADER_INTERNAL_USE_OFFSET : Z := 1.
Definition AREA_COMMON_HEADER_CHASSIS_INFO_OFFSET : Z := 2.
Definition AREA_COMMON_HEADER_BOARD_OFFSET : Z := 3.
Definition AREA_COMMON_HEADER_PRODUCT_INFO_OFFSET : Z := 4.
Definition AREA_COMMON_HEADER_MULTIRECORD_OFFSET : Z := 5.
Definition AREA_COMMON_HEADER_PAD_OFFSET : Z := 6.
Definition AREA_COMMON_HEADER_CRC_OFFSET : Z := 7.

Definition AREA_CHASSIS_INFO_TYPE_OFFSET : Z := 2.
Definition AREA_CHASSIS_INFO_PARAMETERS_OFFSET : Z := 3.

Definition AREA_BOARD_PARAMETERS_OFFSET : Z := 6.
Definition AREA_BOARD_LANG_CODE_OFFSET : Z := 2.
Definition AREA_BOARD_DATA_TIME_0_OFFSET : Z := 3.
Definition AREA_BOARD_DATA_TIME_1_OFFSET : Z := 4.
Definition AREA_BOARD_DATA_TIME_2_OFFSET : Z := 5.

Definition AREA_PRODUCT_INFO_PARAMETERS_OFFSET : Z := 3.
Definition AREA_PRODUCT_INFO_LANG_CODE_OFFSET : Z := 2.

(** [data] is the array of [AREA_FIELD_MAX_SIZE] characters. *)
Record Field := mkField { data_len : Z; size : Z; data : list Z }.

Definition Field_init : Field := mkField 0 0 (replicate AREA_FIELD_MAX_SIZE 0).

Definition to_area_length (length : Z) : Z := wrap 8 (Z.shiftl length MULTIPLIER_BY_8_SHIFT).
Definition to_field_length (length : Z) : Z := wrap 8 (Z.land length AREA_FIELD_LENGTH_MASK).
Definition to_offset (offset : Z) : Z := wrap 8 (Z.shiftl offset MULTIPLIER_BY_8_SHIFT).

(** ** Areas *)

Record CommonHeaderArea := mkCommonHeader {
  format : Z;
  internal_use_area_offset : Z;
  chassis_info_area_offset : Z;
  board_area_offset : Z;
  product_info_area_offset : Z;
  multirecord_area_offset : Z;
  pad : Z;
  crc : Z;
}.

(** What [parse_area_header] fills in of an area. *)
Record AreaHeader := mkAreaHeader { area_format : Z; area_length : Z }.

(** [type] is the underlying byte of [SystemEnclosureOrChassisType]. *)
Record ChassisInfoArea := mkChassis {
  chassis_header : AreaHeader;
  type : Z;
  chassis_part_number : Field;
  chassis_serial_number : Field;
  chassis_checksum : Z;
}.

Record BoardArea := mkBoard {
  board_header : AreaHeader;
  board_code : Z;
  data_time : Z * Z * Z;
  board_manufacturer : Field;
  board_product_name : Field;
  board_serial_number : Field;
  board_part_number : Field;
  board_fru_file_id : Field;
  board_crc : Z;
}.

Record ProductInfoArea := mkProduct {
  product_header : AreaHeader;
  product_code : Z;
  product_manufacturer : Field;
  product_product_name : Field;
  product_model_number : Field;
  product_version : Field;
  product_serial_number : Field;
  product_asset_tag : Field;
  product_fru_file_id : Field;
  product_crc : Z;
}.

Record FruEepromParser := mkParser {
  m_buffer : list Z;
  m_common_header : CommonHeaderArea;
  m_chassis_info : ChassisInfoArea;
  m_board : BoardArea;
  m_product_info : ProductInfoArea;
}.

(** ** Updates of one member *)

Definition set_common_header (h : CommonHeaderArea) (s : FruEepromParser) : FruEepromParser :=
  mkParser (m_buffer s) h (m_chassis_info s) (m_board s) (m_product_info s).
Definition set_chassis_info (c : ChassisInfoArea) (s : FruEepromParser) : FruEepromParser :=
  mkParser (m_buffer s) (m_common_header s) c (m_board s) (m_product_info s).
Definition set_board (b : BoardArea) (s : FruEepromParser) : FruEepromParser :=
  mkParser (m_buffer s) (m_common_header s) (m_chassis_info s) b (m_product_info s).
Definition set_product_info (p : ProductInfoArea) (s : FruEepromParser) : FruEepromParser :=
  mkParser (m_buffer s) (m_common_header s) (m_chassis_info s) (m_board s) p.

Definition set_format v (h : CommonHeaderArea) := let 'mkCommonHeader _ b c d e f g i := h in mkCommonHeader v b c d e f g i.
Definition set_internal v (h : CommonHeaderArea) := let 'mkCommonHeader a _ c d e f g i := h in mkCommonHeader a v c d e f g i.
Definition set_chassis_offset v (h : CommonHeaderArea) := let 'mkCommonHeader a b _ d e f g i := h in mkCommonHeader a b v d e f g i.
Definition set_board_offset v (h : CommonHeaderArea) := let 'mkCommonHeader a b c _ e f g i := h in mkCommonHeader a b c v e f g i.
Definition set_product_offset v (h : CommonHeaderArea) := let 'mkCommonHeader a b c d _ f g i := h in mkCommonHeader a b c d v f g i.
Definition set_multirecord v (h : CommonHeaderArea) := let 'mkCommonHeader a b c d e _ g i := h in mkCommonHeader a b c d e v g i.
Definition set_pad v (h : CommonHeaderArea) := let 'mkCommonHeader a b c d e f _ i := h in mkCommonHeader a b c d e f v i.
Definition set_crc v (h : CommonHeaderArea) := let 'mkCommonHeader a b c d e f g _ := h in mkCommonHeader a b c d e f g v.

Definition set_chassis_header v (c : ChassisInfoArea) := let 'mkChassis _ t p s k := c in mkChassis v t p s k.
Definition set_type v (c : ChassisInfoArea) := let 'mkChassis h _ p s k := c in mkChassis h v p s k.
Definition set_chassis_part_number v (c : ChassisInfoArea) := let 'mkChassis h t _ s k := c in mkChassis h t v s k.
Definition set_chassis_serial_number v (c : ChassisInfoArea) := let 'mkChassis h t p _ k := c in mkChassis h t p v k.

Definition set_board_header v (b : BoardArea) := let 'mkBoard _ c t m n s p f k := b in mkBoard v c t m n s p f k.
Definition set_board_code v (b : BoardArea) := let 'mkBoard h _ t m n s p f k := b in mkBoard h v t m n s p f k.
Definition set_data_time v (b : BoardArea) := let 'mkBoard h c _ m n s p f k := b in mkBoard h c v m n s p f k.
Definition set_data_time_0 v (b : BoardArea) := let '(_, y, z) := data_time b in set_data_time (v, y, z) b.
Definition set_data_time_1 v (b : BoardArea) := let '(x, _, z) := data_time b in set_data_time (x, v, z) b.
Definition set_data_time_2 v (b : BoardArea) := let '(x, y, _) := data_time b in set_data_time (x, y, v) b.
Definition set_board_manufacturer v (b : BoardArea) := let 'mkBoard h c t _ n s p f k := b in mkBoard h c t v n s p f k.
Definition set_board_product_name v (b : BoardArea) := let 'mkBoard h c t m _ s p f k := b in mkBoard h c t m v s p f k.
Definition set_board_serial_number v (b : BoardArea) := let 'mkBoard h c t m n _ p f k := b in mkBoard h c t m n v p f k.
Definition set_board_part_number v (b : BoardArea) := let 'mkBoard h c t m n s _ f k := b in mkBoard h c t m n s v f k.
Definition set_board_fru_file_id v (b : BoardArea) := let 'mkBoard h c t m n s p _ k := b in mkBoard h c t m n s p v k.

Definition set_product_header v (a : ProductInfoArea) := let 'mkProduct _ c m n o w s t f k := a in mkProduct v c m n o w s t f k.
Definition set_product_code v (a : ProductInfoArea) := let 'mkProduct h _ m n o w s t f k := a in mkProduct h v m n o w s t f k.
Definition set_product_manufacturer v (a : ProductInfoArea) := let 'mkProduct h c _ n o w s t f k := a in mkProduct h c v n o w s t f k.
Definition set_product_product_name v (a : ProductInfoArea) := let 'mkProduct h c m _ o w s t f k := a in mkProduct h c m v o w s t f k.
Definition set_product_model_number v (a : ProductInfoArea) := let 'mkProduct h c m n _ w s t f k := a in mkProduct h c m n v w s t f k.
Definition set_product_version v (a : ProductInfoArea) := let 'mkProduct h c m n o _ s t f k := a in mkProduct h c m n o v s t f k.
Definition set_product_serial_number v (a : ProductInfoArea) := let 'mkProduct h c m n o w _ t f k := a in mkProduct h c m n o w v t f k.
Definition set_product_asset_tag v (a : ProductInfoArea) := let 'mkProduct h c m n o w s _ f k := a in mkProduct h c m n o w s v f k.
Definition set_product_fru_file_id v (a : ProductInfoArea) := let 'mkProduct h c m n o w s t _ k := a in mkProduct h c m n o w s t v k.

(** ** The safe string library *)

Definition EOK : Z := 0.

(** What stands before the first null of [s], of at most [n] characters. *)
Fixpoint c_string (n : nat) (s : list Z) : list Z :=
  match n, s with
  | S n', c :: s' => if c =? 0 then [] else c :: c_string n' s'
  | _, _ => []
  end.

(** Reading at most [n] characters of [s], up to a null, stays inside [s]. *)
Definition readable (n : nat) (s : list Z) : bool := (n <=? length s)%nat || bool_decide (0 ∈ s).

(** [errno_t strncpy_s(char* dest, rsize_t dmax, const char* src, rsize_t slen)]: the
    return value and the new contents of [dest]. *)
Class SafeString := strncpy_s : list Z → Z → list Z → Z → Z * list Z.

(** Documented: at most [slen] characters of [src] are copied, up to a null; the copy is
    terminated; [EOK] is returned when [dmax] is above [slen] and both are within the
    limits; nothing is written past [dmax]. *)
Class SafeStringLaws (C : SafeString) : Prop := {
  strncpy_s_ok dest dmax src slen :
    0 < slen < dmax → dmax <= 4096 → dmax <= Z.of_nat (length dest) →
    readable (Z.to_nat slen) src = true →
    (strncpy_s dest dmax src slen).1 = EOK;
  strncpy_s_copies dest dmax src slen :
    0 < slen < dmax → dmax <= 4096 → dmax <= Z.of_nat (length dest) →
    readable (Z.to_nat slen) src = true →
    let str := c_string (Z.to_nat slen) src in
    take (S (length str)) (strncpy_s dest dmax src slen).2 = str ++ [0];
  strncpy_s_length dest dmax src slen :
    length (strncpy_s dest dmax src slen).2 = length dest;
}.

(** * Operations *)

Section parser.
Context {C : SafeString}.

Definition FruEepromException (what : string) : exn :=
  runtime_error ("FRU EEPROM parser - " ++ what).

(** [None] is the null pointer. *)
Definition FruEepromParser_new (buffer : option (list Z)) : result FruEepromParser :=
  match buffer with
  | None => Throw (FruEepromException "Invalid FRU EEPROM blob pointer")
  | Some b =>
      Ok (mkParser b (mkCommonHeader 0 0 0 0 0 0 0 0)
            (mkChassis (mkAreaHeader 0 0) 0 Field_init Field_init 0)
            (mkBoard (mkAreaHeader 0 0) 0 (0, 0, 0)
               Field_init Field_init Field_init Field_init Field_init 0)
            (mkProduct (mkAreaHeader 0 0) 0
               Field_init Field_init Field_init Field_init Field_init Field_init Field_init 0))
  end.

(** [&m_buffer[0] + n], one past the end at most. *)
Definition pointer (buf : list Z) (n : Z) : result nat :=
  if n <=? Z.of_nat (length buf) then Ok (Z.to_nat n) else Throw undefined_behaviour.

Definition read_byte (buf : list Z) (area offset : Z) : result Z :=
  p ← pointer buf (area + offset);
  index buf p.

(** [std::accumulate(buffer, buffer + size, 0)] reduced to [uint8_t]. *)
Definition check_crc (buf : list Z) (start size : Z) : result unit :=
  p ← pointer buf start;
  e ← pointer buf (start + size);
  let sum := wrap 8 (foldl Z.add 0 (slice p (e - p) buf)) in
  if 0 =? sum then mret tt else Throw (FruEepromException "Invalid CRC sum").

Definition is_area_format_valid (format : Z) : bool := AREA_FORMAT_VERSION_1 =? format.

(** The method of a [Field] that [read_field] is. *)
Definition read_field (buf : list Z) (area offset : Z) : M Field Z :=
  b ← lift (read_byte buf area offset);
  let len := to_field_length b in
  if (0 =? len) || (0xc1 =? len) then
    (* Field is empty or end of fields area. *)
    modify (λ f, mkField 0 1 (data f));;
    f ← get;
    mret (wrap 8 (offset + size f))
  else
    src ← lift (pointer buf (area + offset + 1));
    f ← get;
    (if readable (Z.to_nat len) (drop src buf) then mret tt else throw undefined_behaviour);;
    let '(ret, dest) := strncpy_s (data f) (len + 1) (drop src buf) len in
    put (mkField (data_len f) (size f) dest);;
    (if EOK =? ret then mret tt else throw (FruEepromException "Cannot copy data field"));;
    f ← get;
    (if len <? Z.of_nat (length (data f)) then mret tt else throw undefined_behaviour);;
    put (mkField len (wrap 8 (len + 1)) (<[Z.to_nat len := 0]> (data f)));;
    f ← get;
    mret (wrap 8 (offset + size f)).

Definition parse_area_header (buf : list Z) (offset : Z) : M AreaHeader unit :=
  if AREA_NOT_USED =? offset then mret tt
  else
    b ← lift (read_byte buf offset AREA_FORMAT_OFFSET);
    modify (λ a, mkAreaHeader b (area_length a));;
    (if is_area_format_valid b then mret tt
     else throw (FruEepromException "Invalid Chassis Info area format"));;
    l ← lift (read_byte buf offset AREA_LENGTH_OFFSET);
    modify (λ a, mkAreaHeader (area_format a) (to_area_length l));;
    when (0 =? to_area_length l)
      (throw (FruEepromException "Chassis info area defined but not populated")).

Definition header_byte (buf : list Z) (offset : Z) (set : Z → CommonHeaderArea → CommonHeaderArea)
    (convert : Z → Z) : M CommonHeaderArea unit :=
  b ← lift (read_byte buf 0 offset);
  modify (set (convert b)).

Definition parse_common_header_area (buf : list Z) : M CommonHeaderArea unit :=
  lift (check_crc buf 0 8);;
  header_byte buf AREA_COMMON_HEADER_FORMAT_OFFSET set_format id;;
  h ← get;
  (if is_area_format_valid (format h) then mret tt
   else throw (FruEepromException "Invalid FRU EEPROM format"));;
  header_byte buf AREA_COMMON_HEADER_INTERNAL_USE_OFFSET set_internal to_offset;;
  header_byte buf AREA_COMMON_HEADER_CHASSIS_INFO_OFFSET set_chassis_offset to_offset;;
  header_byte buf AREA_COMMON_HEADER_BOARD_OFFSET set_board_offset to_offset;;
  header_byte buf AREA_COMMON_HEADER_PRODUCT_INFO_OFFSET set_product_offset to_offset;;
  header_byte buf AREA_COMMON_HEADER_MULTIRECORD_OFFSET set_multirecord to_offset;;
  header_byte buf AREA_COMMON_HEADER_PAD_OFFSET set_pad to_offset;;
  header_byte buf AREA_COMMON_HEADER_CRC_OFFSET set_crc id.

Definition parse_chassis_info_area (buf : list Z) (area : Z) : M ChassisInfoArea unit :=
  c ← get;
  lift (check_crc buf area (area_length (chassis_header c)));;
  zoom chassis_header set_chassis_header (parse_area_header buf area);;
  t ← lift (read_byte buf area AREA_CHASSIS_INFO_TYPE_OFFSET);
  modify (set_type t);;
  let offset := AREA_CHASSIS_INFO_PARAMETERS_OFFSET in
  offset ← zoom chassis_part_number set_chassis_part_number (read_field buf area offset);
  offset ← zoom chassis_serial_number set_chassis_serial_number (read_field buf area offset);
  mret tt.

Definition parse_board_area (buf : list Z) (area : Z) : M BoardArea unit :=
  b ← get;
  lift (check_crc buf area (area_length (board_header b)));;
  zoom board_header set_board_header (parse_area_header buf area);;
  c ← lift (read_byte buf area AREA_BOARD_LANG_CODE_OFFSET);
  modify (set_board_code c);;
  let offset := AREA_BOARD_PARAMETERS_OFFSET in
  t ← lift (read_byte buf area AREA_BOARD_DATA_TIME_0_OFFSET);
  modify (set_data_time_0 t);;
  t ← lift (read_byte buf area AREA_BOARD_DATA_TIME_1_OFFSET);
  modify (set_data_time_1 t);;
  t ← lift (read_byte buf area AREA_BOARD_DATA_TIME_2_OFFSET);
  modify (set_data_time_2 t);;
  offset ← zoom board_manufacturer set_board_manufacturer (read_field buf area offset);
  offset ← zoom board_product_name set_board_product_name (read_field buf area offset);
  offset ← zoom board_serial_number set_board_serial_number (read_field buf area offset);
  offset ← zoom board_part_number set_board_part_number (read_field buf area offset);
  offset ← zoom board_fru_file_id set_board_fru_file_id (read_field buf area offset);
  mret tt.

Definition parse_product_info_area (buf : list Z) (area : Z) : M ProductInfoArea unit :=
  p ← get;
  lift (check_crc buf area (area_length (product_header p)));;
  zoom product_header set_product_header (parse_area_header buf area);;
  c ← lift (read_byte buf area AREA_PRODUCT_INFO_LANG_CODE_OFFSET);
  modify (set_product_code c);;
  let offset := AREA_PRODUCT_INFO_PARAMETERS_OFFSET in
  offset ← zoom product_manufacturer set_product_manufacturer (read_field buf area offset);
  offset ← zoom product_product_name set_product_product_name (read_field buf area offset);
  offset ← zoom product_model_number set_product_model_number (read_field buf area offset);
  offset ← zoom product_version set_product_version (read_field buf area offset);
  offset ← zoom product_serial_number set_product_serial_number (read_field buf area offset);
  offset ← zoom product_asset_tag set_product_asset_tag (read_field buf area offset);
  offset ← zoom product_fru_file_id set_product_fru_file_id (read_field buf area offset);
  mret tt.

(** The three areas that the hardware does not implement. *)
Definition parse_internal_area : M FruEepromParser unit :=
  s ← get;
  if AREA_NOT_USED =? internal_use_area_offset (m_common_header s) then mret tt else mret tt.
Definition parse_multirecord_area : M FruEepromParser unit :=
  s ← get;
  if AREA_NOT_USED =? multirecord_area_offset (m_common_header s) then mret tt else mret tt.
Definition parse_pad_area : M FruEepromParser unit :=
  s ← get;
  if AREA_NOT_USED =? pad (m_common_header s) then mret tt else mret tt.

Definition parse : M FruEepromParser unit :=
  s ← get;
  zoom m_common_header set_common_header (parse_common_header_area (m_buffer s));;
  parse_internal_area;;
  s ← get;
  zoom m_chassis_info set_chassis_info
    (parse_chassis_info_area (m_buffer s) (chassis_info_area_offset (m_common_header s)));;
  s ← get;
  zoom m_board set_board
    (parse_board_area (m_buffer s) (board_area_offset (m_common_header s)));;
  s ← get;
  zoom m_product_info set_product_info
    (parse_product_info_area (m_buffer s) (product_info_area_offset (m_common_header s)));;
  parse_multirecord_area;;
  parse_pad_area.

End parser.

(** * No read outside the blob *)

(** The exceptions of [parse]. *)
Definition crc_error : exn := FruEepromException "Invalid CRC sum".
Definition area_errors : list exn :=
  [FruEepromException "Invalid Chassis Info area format";
   FruEepromException "Chassis info area defined but not populated"].
Definition parse_errors : list exn :=
  crc_error :: FruEepromException "Invalid FRU EEPROM format" :: area_errors.

(** Members of a parser hold what their types and the shifts allow. *)
Definition wf_field (f : Field) : Prop := length (data f) = AREA_FIELD_MAX_SIZE.
Definition wf_offset (o : Z) : Prop := 0 <= o <= 248.
Definition wf_area (a : AreaHeader) : Prop := 0 <= area_length a <= 248.
Definition wf_header (h : CommonHeaderArea) : Prop :=
  wf_offset (chassis_info_area_offset h) ∧ wf_offset (board_area_offset h) ∧
  wf_offset (product_info_area_offset h).
Definition wf_chassis (c : ChassisInfoArea) : Prop :=
  wf_area (chassis_header c) ∧ wf_field (chassis_part_number c) ∧ wf_field (chassis_serial_number c).
Definition wf_board (b : BoardArea) : Prop :=
  wf_area (board_header b) ∧ wf_field (board_manufacturer b) ∧ wf_field (board_product_name b) ∧
  wf_field (board_serial_number b) ∧ wf_field (board_part_number b) ∧ wf_field (board_fru_file_id b).
Definition wf_product (p : ProductInfoArea) : Prop :=
  wf_area (product_header p) ∧ wf_field (product_manufacturer p) ∧ wf_field (product_product_name p) ∧
  wf_field (product_model_number p) ∧ wf_field (product_version p) ∧
  wf_field (product_serial_number p) ∧ wf_field (product_asset_tag p) ∧ wf_field (product_fru_file_id p).
Definition wf (s : FruEepromParser) : Prop :=
  wf_header (m_common_header s) ∧ wf_chassis (m_chassis_info s) ∧ wf_board (m_board s) ∧
  wf_product (m_product_info s).

Lemma to_offset_wf b : wf_offset (to_offset b).
Proof.
  unfold wf_offset, to_offset, wrap, MULTIPLIER_BY_8_SHIFT.
  rewrite Z.shiftl_mul_pow2 by lia. zpow. dlia.
Qed.

Lemma to_area_length_wf b : 0 <= to_area_length b <= 248.
Proof. apply to_offset_wf. Qed.

Lemma to_field_length_range b : 0 <= to_field_length b <= 63.
Proof.
  unfold to_field_length, AREA_FIELD_LENGTH_MASK. change (Z.land b 0x3f) with (Z.land b (Z.ones 6)).
  rewrite Z.land_ones by lia. pose proof (Z.mod_pos_bound b (2 ^ 6)).
  rewrite wrap_small; unfold in_range; zpow; lia.
Qed.

Lemma parse_internal_area_run s : parse_internal_area s = (Ok tt, s).
Proof. unfold parse_internal_area. run_monad. by destruct (_ =? _). Qed.
Lemma parse_multirecord_area_run s : parse_multirecord_area s = (Ok tt, s).
Proof. unfold parse_multirecord_area. run_monad. by destruct (_ =? _). Qed.
Lemma parse_pad_area_run s : parse_pad_area s = (Ok tt, s).
Proof. unfold parse_pad_area. run_monad. by destruct (_ =? _). Qed.

Definition the_sum (buf : list Z) (start size : Z) : Z :=
  wrap 8 (foldl Z.add 0 (slice (Z.to_nat start) (Z.to_nat size) buf)).

Section bounds.
Context {C : SafeString} {HC : SafeStringLaws C}.
Variable buf : list Z.
Hypothesis long : 567 <= Z.of_nat (length buf).

Lemma pointer_ok n : 0 <= n <= 567 → pointer buf n = Ok (Z.to_nat n).
Proof. intros Hn. unfold pointer. destruct (Z.leb_spec n (Z.of_nat (length buf))); [done|lia]. Qed.

Lemma read_byte_ok area offset : 0 <= area → 0 <= offset → area + offset < 567 →
  ∃ b, read_byte buf area offset = Ok b.
Proof.
  intros Ha Ho Hs. unfold read_byte. rewrite pointer_ok by lia. cbn.
  unfold index. destruct (buf !! Z.to_nat (area + offset)) as [b|] eqn:E; [by exists b|].
  apply lookup_ge_None in E. lia.
Qed.

Lemma check_crc_run start size : 0 <= start → 0 <= size → start + size <= 567 →
  check_crc buf start size = if 0 =? the_sum buf start size then Ok tt else Throw crc_error.
Proof.
  intros Hs Hz Hl. unfold check_crc, the_sum. rewrite !pointer_ok by lia. cbn.
  by replace (Z.to_nat (start + size) - Z.to_nat start)%nat with (Z.to_nat size) by lia.
Qed.

(** A field never throws and gives back an offset. *)
Lemma read_field_safe area offset : wf_offset area → 0 <= offset <= 255 →
  triple wf_field (read_field buf area offset) (λ o f, wf_field f ∧ 0 <= o <= 255) (λ _ _, False).
Proof.
  intros Ha Ho f Hf. unfold wf_offset in Ha.
  destruct (read_byte_ok area offset) as [b Hb]; [lia..|]. unfold read_field. run_monad.
  rewrite Hb. pose proof (to_field_length_range b) as Hl.
  destruct (_ || _) eqn:Ez.
  { split; [done|]. cbn. unfold wrap. zpow. dlia. }
  apply orb_false_iff in Ez as [Ez _]. apply Z.eqb_neq in Ez.
  rewrite pointer_ok by lia. unfold wf_field, AREA_FIELD_MAX_SIZE in *.
  assert (readable (Z.to_nat (to_field_length b)) (drop (Z.to_nat (area + offset + 1)) buf) = true) as Hr.
  { apply orb_true_iff. left. apply Nat.leb_le. rewrite length_drop. lia. }
  rewrite Hr. destruct (strncpy_s _ _ _ _) as [ret dest] eqn:Ecpy.
  assert (ret = EOK) as ->.
  { replace ret with (ret, dest).1 by done. rewrite <- Ecpy. apply strncpy_s_ok; [lia..|done]. }
  assert (length dest = 64%nat) as Hd.
  { replace dest with (EOK, dest).2 by done. rewrite <- Ecpy, strncpy_s_length. done. }
  cbn. rewrite Hd, (proj2 (Z.ltb_lt _ _)) by lia. cbn. rewrite length_insert. split; [done|]. unfold wrap. zpow. dlia.
Qed.

Lemma parse_area_header_safe area : wf_offset area →
  triple wf_area (parse_area_header buf area) (λ _, wf_area) (λ e a, wf_area a ∧ e ∈ area_errors).
Proof.
  intros Ha a Hwf. unfold wf_offset in Ha.
  destruct (read_byte_ok area AREA_FORMAT_OFFSET) as [b Hb]; [unfold AREA_FORMAT_OFFSET; lia..|].
  destruct (read_byte_ok area AREA_LENGTH_OFFSET) as [l Hl]; [unfold AREA_LENGTH_OFFSET; lia..|].
  unfold parse_area_header, when. run_monad. destruct (AREA_NOT_USED =? area); [done|].
  rewrite Hb. destruct (is_area_format_valid b); [|split; [done|apply list_elem_of_here]].
  rewrite Hl. pose proof (to_area_length_wf l). destruct (0 =? to_area_length l); [|done].
  split; [done|apply list_elem_of_further, list_elem_of_here].
Qed.

(** What an area may throw: an error of its header, or the sum over the length the
    parser remembers from before. *)
Definition area_throws (area len0 : Z) (e : exn) : Prop :=
  e ∈ area_errors ∨ e = crc_error ∧ the_sum buf area len0 ≠ 0.

Section area.
Context {T : Type} (I : T → Prop) (area len0 : Z).
Hypothesis area_wf : wf_offset area.
Let E (e : exn) (s : T) : Prop := I s ∧ area_throws area len0 e.

Lemma byte_step offset set (f : unit → M T unit) Q :
  0 <= offset <= 255 → (∀ s b, I s → I (set b s)) → (∀ u, triple I (f u) Q E) →
  triple I (b ← lift (read_byte buf area offset); modify (set b) ≫= f) Q E.
Proof.
  intros Ho Hset Hf. unfold wf_offset in *. destruct (read_byte_ok area offset) as [b Hb]; [lia..|].
  apply triple_lift_bind; rewrite Hb; [intros ? [= <-]|done].
  eapply (triple_bind _ _ _ (λ _, I)); [apply triple_modify; auto|done].
Qed.

Lemma field_step proj set offset (f : Z → M T unit) Q :
  (∀ s, I s → wf_field (proj s)) → (∀ s fld, I s → wf_field fld → I (set fld s)) →
  0 <= offset <= 255 → (∀ o, 0 <= o <= 255 → triple I (f o) Q E) →
  triple I (zoom proj set (read_field buf area offset) ≫= f) Q E.
Proof.
  intros Hproj Hset Ho Hf. eapply (triple_bind _ _ _ (λ o s, I s ∧ 0 <= o <= 255)).
  - eapply triple_zoom; [by apply read_field_safe|done| |done]. intros s o fld Hs [??]. auto.
  - intros o s [Hs Hr]. by apply (Hf o Hr).
Qed.

Lemma header_step proj set (f : unit → M T unit) Q :
  (∀ s, I s → wf_area (proj s)) → (∀ s a, I s → wf_area a → I (set a s)) →
  (∀ u, triple I (f u) Q E) → triple I (zoom proj set (parse_area_header buf area) ≫= f) Q E.
Proof.
  intros Hproj Hset Hf. eapply (triple_bind _ _ _ (λ _, I)); [|done].
  eapply triple_zoom; [by apply parse_area_header_safe|done| |]; [auto|].
  intros s e a Hs [Ha He]. split; [auto|by left].
Qed.

Lemma crc_step proj (f : unit → M T unit) Q :
  (∀ s, I s → wf_area (proj s)) → (∀ u, triple I (f u) Q E) →
  triple (λ s, I s ∧ area_length (proj s) = len0)
    (s ← get; lift (check_crc buf area (area_length (proj s))) ≫= f) Q E.
Proof.
  intros Hproj Hf. apply triple_get_bind. intros s [Hs Hlen].
  pose proof (Hproj s Hs) as Ha. unfold wf_area, wf_offset in *.
  rewrite check_crc_run by lia. rewrite Hlen.
  destruct (Z.eqb_spec 0 (the_sum buf area len0)); apply triple_lift_bind; try done.
  - intros [] _ ? ->. by apply Hf.
  - intros ? ? [= <-] ->. split; [done|right; split; [done|lia]].
Qed.
End area.

(** Steps of an area against its well-formedness. *)
Ltac wf_tac :=
  unfold wf_chassis, wf_board, wf_product;
  match goal with
  | |- ∀ s : BoardArea, _ => intros [? ? ((?,?),?) ? ? ? ? ? ?]
  | |- ∀ s, _ => intros []
  end; intros; simpl in *; tauto.
Ltac offset_tac := first [lia | by vm_compute].
Ltac area_step :=
  first
    [ apply crc_step; [done|wf_tac|intros ?]
    | apply header_step; [done|wf_tac|wf_tac|intros ?]
    | apply byte_step; [done|offset_tac|wf_tac|intros ?]
    | apply field_step; [done|wf_tac|wf_tac|offset_tac|intros ??]
    | by apply triple_ret ].

Lemma parse_chassis_info_area_safe area len0 : wf_offset area →
  triple (λ c, wf_chassis c ∧ area_length (chassis_header c) = len0) (parse_chassis_info_area buf area)
    (λ _, wf_chassis) (λ e c, wf_chassis c ∧ area_throws area len0 e).
Proof.
  intros Ha. unfold parse_chassis_info_area. repeat area_step.
Qed.

Lemma parse_board_area_safe area len0 : wf_offset area →
  triple (λ c, wf_board c ∧ area_length (board_header c) = len0) (parse_board_area buf area)
    (λ _, wf_board) (λ e c, wf_board c ∧ area_throws area len0 e).
Proof.
  intros Ha. unfold parse_board_area. repeat area_step.
Qed.

Lemma parse_product_info_area_safe area len0 : wf_offset area →
  triple (λ c, wf_product c ∧ area_length (product_header c) = len0) (parse_product_info_area buf area)
    (λ _, wf_product) (λ e c, wf_product c ∧ area_throws area len0 e).
Proof.
  intros Ha. unfold parse_product_info_area. repeat area_step.
Qed.

Lemma header_byte_safe offset set convert E :
  0 <= offset <= 7 → (∀ s b, wf_header s → wf_header (set (convert b) s)) →
  triple wf_header (header_byte buf offset set convert) (λ _, wf_header) E.
Proof.
  intros Ho Hset. destruct (read_byte_ok 0 offset) as [b Hb]; [lia..|]. unfold header_byte. rewrite Hb.
  apply triple_lift_bind; [intros ? [= <-]|done]. apply triple_modify. auto.
Qed.

Definition header_throws (e : exn) : Prop :=
  e = FruEepromException "Invalid FRU EEPROM format" ∨ e = crc_error ∧ the_sum buf 0 8 ≠ 0.

Lemma parse_common_header_area_safe :
  triple wf_header (parse_common_header_area buf) (λ _, wf_header)
    (λ e h, wf_header h ∧ header_throws e).
Proof.
  pose proof to_offset_wf as Hwf. unfold parse_common_header_area. rewrite check_crc_run by lia.
  destruct (Z.eqb_spec 0 (the_sum buf 0 8)).
  2:{ apply triple_lift_bind; [done|]. intros ? ? [= <-] ?. split; [done|]. right. split; [done|lia]. }
  apply triple_lift_bind; [intros _ _|done].
  eapply triple_bind; [apply header_byte_safe; [by vm_compute|by intros [] ? ?]|intros u].
  apply triple_get_bind. intros h Hh. eapply (triple_bind _ _ _ (λ _, wf_header)).
  { apply triple_if; intros _; [by apply triple_ret; intros ? ->|].
    apply triple_throw. intros ? ->. split; [done|by left]. }
  intros u'.
  repeat (eapply triple_bind;
    [apply header_byte_safe; [by vm_compute|intros [] ? (?&?&?); unfold wf_header; cbn; auto]|intros ?]).
  apply header_byte_safe; [by vm_compute|by intros [] ? (?&?&?)].
Qed.

(** ** The whole parser *)

(** The lengths that the three areas have from an earlier run. *)
Definition remembered (s : FruEepromParser) : list Z :=
  [area_length (chassis_header (m_chassis_info s)); area_length (board_header (m_board s));
   area_length (product_header (m_product_info s))].

Definition parse_throws (s : FruEepromParser) (e : exn) : Prop :=
  header_throws e ∨ ∃ area len0, len0 ∈ remembered s ∧ area_throws area len0 e.

Lemma triple_skip {S B} (P : S → Prop) (m : M S unit) (f : unit → M S B) Q E :
  (∀ s, m s = (Ok tt, s)) → triple P (f tt) Q E → triple P (m ≫= f) Q E.
Proof. intros Hm Hf s Hs. unfold mbind, M_bind. rewrite Hm. by apply Hf. Qed.

Section whole.
Variable s0 : FruEepromParser.
Let Q (_ : unit) (s : FruEepromParser) : Prop := wf s ∧ m_buffer s = buf.
Let E (e : exn) (s : FruEepromParser) : Prop := wf s ∧ m_buffer s = buf ∧ parse_throws s0 e.

Lemma area_safe {T} (proj : FruEepromParser → T) set
    (m : list Z → Z → M T unit) hdr wfT off (R R' : FruEepromParser → Prop) f :
  (∀ area len0, wf_offset area →
     triple (λ c, wfT c ∧ area_length (hdr c) = len0) (m buf area)
       (λ _, wfT) (λ e c, wfT c ∧ area_throws area len0 e)) →
  (∀ s, R s → m_buffer s = buf ∧ wf_offset (off s) ∧ wfT (proj s) ∧
              area_length (hdr (proj s)) ∈ remembered s0) →
  (∀ s t, R s → wfT t → R' (set t s)) →
  (∀ s t, R s → wfT t → wf (set t s) ∧ m_buffer (set t s) = buf) →
  (∀ u, triple R' (f u) Q E) →
  triple R (s ← get; zoom proj set (m (m_buffer s) (off s)) ≫= f) Q E.
Proof.
  intros Hm HR HR' Hwf Hf. apply triple_get_bind. intros s Hs.
  destruct (HR s Hs) as (-> & Hoff & Hproj & Hlen).
  eapply (triple_bind _ _ _ (λ _, R')); [|exact Hf].
  eapply triple_zoom; [apply (Hm _ (area_length (hdr (proj s))) Hoff)|..].
  - by intros ? ->.
  - intros ? ? t -> Ht. auto.
  - intros ? e t -> [Ht He]. destruct (Hwf s t Hs Ht). split_and!; try done. right. eauto.
Qed.

(** What is left to parse is as it was. *)
Let R3 (s : FruEepromParser) : Prop := wf s ∧ m_buffer s = buf.
Let R2 (s : FruEepromParser) : Prop := R3 s ∧ m_product_info s = m_product_info s0.
Let R1 (s : FruEepromParser) : Prop := R2 s ∧ m_board s = m_board s0.
Let R0 (s : FruEepromParser) : Prop := R1 s ∧ m_chassis_info s = m_chassis_info s0.

Ltac rest_tac :=
  intros [?????]; unfold R0, R1, R2, R3, wf, wf_header, remembered; cbn; intros;
  destruct_and?; subst; split_and?; set_solver.

Lemma parse_safe : m_buffer s0 = buf → triple (λ s, s = s0 ∧ wf s) parse Q E.
Proof.
  intros Hbuf. unfold parse. apply triple_get_bind. intros s [-> Hs]. rewrite Hbuf.
  eapply (triple_bind _ _ _ (λ _, R0)).
  { destruct Hs as (?&?&?&?). eapply triple_zoom; [apply parse_common_header_area_safe|..].
    - by intros ? ->.
    - intros ? ? h -> Hh. unfold R0, R1, R2, R3, wf. cbn. tauto.
    - intros ? e h -> [Hh He]. split_and!; try done. by left. }
  intros u. apply triple_skip; [apply parse_internal_area_run|].
  apply area_safe with (hdr := chassis_header) (wfT := wf_chassis) (R' := R1);
    [apply parse_chassis_info_area_safe|rest_tac..|intros u1].
  apply area_safe with (hdr := board_header) (wfT := wf_board) (R' := R2);
    [apply parse_board_area_safe|rest_tac..|intros u2].
  apply area_safe with (hdr := product_header) (wfT := wf_product) (R' := R3);
    [apply parse_product_info_area_safe|rest_tac..|intros u3].
  apply triple_skip; [apply parse_multirecord_area_run|].
  intros s HR. by rewrite parse_pad_area_run.
Qed.
End whole.

End bounds.

(** A parser whose blob has at least 567 bytes never reads outside it, whatever the
    bytes are: [parse] returns or throws one of its four documented errors, copying a
    field never fails, and the parser stays well-formed, so it may be run again. *)
Theorem parse_in_bounds {C : SafeString} {HC : SafeStringLaws C} s :
  wf s → 567 <= Z.of_nat (length (m_buffer s)) →
  wf (parse s).2 ∧ m_buffer (parse s).2 = m_buffer s ∧
  match (parse s).1 with Ok _ => True | Throw e => e ∈ parse_errors end.
Proof.
  intros Hwf Hlong. pose proof (parse_safe (m_buffer s) Hlong s eq_refl s (conj eq_refl Hwf)) as H.
  destruct (parse s) as [[[]|e] s']; cbn in *; [tauto|]. destruct H as (?&?&Ht). split_and!; [done..|].
  unfold parse_errors. destruct Ht as [[->|[-> _]]|(?&?&_&[He|[-> _]])]; set_solver.
Qed.

(** ** A fresh parser *)

Lemma new_wf b s : FruEepromParser_new (Some b) = Ok s → wf s ∧ m_buffer s = b ∧ remembered s = [0; 0; 0].
Proof. intros [= <-]. by repeat split. Qed.

Lemma the_sum_0 buf area : the_sum buf area 0 = 0.
Proof. done. Qed.

Lemma parse_common_header_crc buf h :
  567 <= Z.of_nat (length buf) → the_sum buf 0 8 ≠ 0 →
  parse_common_header_area buf h = (Throw crc_error, h).
Proof.
  intros Hl Hs. unfold parse_common_header_area. rewrite check_crc_run by (done || lia). run_monad.
  by destruct (Z.eqb_spec 0 (the_sum buf 0 8)).
Qed.

(** A fresh parser reports a wrong sum exactly when the sum of the eight bytes of the
    common header is wrong: the lengths of the areas are still zero when their sums
    are taken, so the checksums of the areas are not looked at. *)
Theorem fresh_crc_error {C : SafeString} {HC : SafeStringLaws C} buf s :
  FruEepromParser_new (Some buf) = Ok s → 567 <= Z.of_nat (length buf) →
  (parse s).1 = Throw crc_error ↔ the_sum buf 0 8 ≠ 0.
Proof.
  intros Hnew Hlong. destruct (new_wf _ _ Hnew) as (Hwf & Hbuf & Hrem). split.
  - pose proof (parse_safe buf Hlong s Hbuf s (conj eq_refl Hwf)) as H.
    destruct (parse s) as [[[]|e] s']; [done|]. intros [= ->]. destruct H as (_&_&Ht).
    destruct Ht as [[[=]|[_ ?]]|(area&len0&Hin&Ha)]; [done|]. rewrite Hrem in Hin.
    assert (len0 = 0) as -> by set_solver.
    destruct Ha as [Ha|[_ Ha]]; [|by rewrite the_sum_0 in Ha].
    apply (bool_decide_eq_true_2 _) in Ha. by vm_compute in Ha.
  - intros Hs. unfold parse. run_monad. by rewrite Hbuf, parse_common_header_crc.
Qed.

(** ** The library function as documented, and blobs *)

#[export] Instance safe_string : SafeString := λ dest dmax src slen,
  if (0 <? slen) && (slen <? dmax) && (dmax <=? Z.of_nat (length dest)) then
    let str := c_string (Z.to_nat slen) src in
    (EOK, splice 0 (str ++ replicate (Z.to_nat dmax - length str) 0) dest)
  else (22, dest).

Lemma length_c_string n s : (length (c_string n s) ≤ n)%nat.
Proof.
  revert s. induction n as [|n IH]; intros [|c s]; cbn; try lia.
  destruct (c =? 0); cbn; [lia|]. specialize (IH s). lia.
Qed.

#[export] Instance safe_string_laws : SafeStringLaws safe_string.
Proof.
  assert (∀ dest dmax src slen, 0 < slen < dmax → dmax <= Z.of_nat (length dest) →
    safe_string dest dmax src slen = (EOK, splice 0 (c_string (Z.to_nat slen) src ++
      replicate (Z.to_nat dmax - length (c_string (Z.to_nat slen) src)) 0) dest)) as Hrun.
  { intros dest dmax src slen Hs Hd. unfold safe_string.
    by rewrite (proj2 (Z.ltb_lt 0 slen)), (proj2 (Z.ltb_lt slen dmax)), (proj2 (Z.leb_le dmax _)) by lia. }
  split.
  - intros. unfold strncpy_s. by rewrite Hrun.
  - intros dest dmax src slen Hs _ Hd _. unfold strncpy_s. rewrite Hrun by done. cbn zeta.
    pose proof (length_c_string (Z.to_nat slen) src) as Hlen. cbn [snd].
    generalize dependent (c_string (Z.to_nat slen) src). intros str Hlen. unfold splice.
    replace (Z.to_nat dmax - length str)%nat with (S (Z.to_nat dmax - length str - 1)) by lia.
    rewrite take_0, app_nil_l, <- app_assoc, take_app, (take_ge str) by lia.
    by replace (S (length str) - length str)%nat with 1%nat by lia.
  - intros dest dmax src slen. unfold strncpy_s, safe_string.
    destruct (0 <? slen) eqn:E1, (slen <? dmax) eqn:E2, (dmax <=? _) eqn:E3; try done. cbn.
    pose proof (length_c_string (Z.to_nat slen) src). apply length_splice.
    rewrite length_app, length_replicate. lia.
Qed.

(** * Blobs laid out as the specification says *)

(** [xs] stands at [p] in the blob. *)
Definition placed (buf : list Z) (p : Z) (xs : list Z) : Prop :=
  0 <= p ∧ slice (Z.to_nat p) (length xs) buf = xs.

Lemma placed_app buf p xs ys :
  placed buf p (xs ++ ys) ↔ placed buf p xs ∧ placed buf (p + Z.of_nat (length xs)) ys.
Proof.
  unfold placed. rewrite length_app, slice_app_split.
  split.
  - intros [Hp H]. replace (Z.to_nat (p + Z.of_nat (length xs))) with (Z.to_nat p + length xs)%nat by lia.
    assert (length (slice (Z.to_nat p) (length xs) buf) ≤ length xs)%nat as Hle
      by (unfold slice; len).
    assert (length (slice (Z.to_nat p + length xs) (length ys) buf) ≤ length ys)%nat as Hle'
      by (unfold slice; len).
    pose proof (f_equal length H) as Hlen. rewrite !length_app in Hlen.
    apply app_inj_1 in H as [??]; [|lia]. split_and!; auto; lia.
  - intros [[Hp Hx] [_ Hy]].
    replace (Z.to_nat (p + Z.of_nat (length xs))) with (Z.to_nat p + length xs)%nat in Hy by lia.
    by rewrite Hx, Hy.
Qed.

Lemma placed_inside buf p x xs : placed buf p (x :: xs) →
  p + 1 + Z.of_nat (length xs) <= Z.of_nat (length buf).
Proof.
  intros [Hp H]. apply (f_equal length) in H. unfold slice in H.
  rewrite length_take, length_drop in H. cbn [length] in H. lia.
Qed.

Lemma placed_read buf area offset b xs : placed buf (area + offset) (b :: xs) → read_byte buf area offset = Ok b.
Proof.
  intros Hpl. pose proof (placed_inside _ _ _ _ Hpl) as Hin. destruct Hpl as [Hp H].
  unfold read_byte, pointer. rewrite (proj2 (Z.leb_le _ _)) by lia. cbn. unfold index.
  assert (buf !! Z.to_nat (area + offset) = Some b) as ->; [|done].
  assert (slice (Z.to_nat (area + offset)) (length (b :: xs)) buf !! 0%nat = Some b) as H0 by by rewrite H.
  rewrite slice_lookup in H0 by (cbn; lia). by rewrite Nat.add_0_r in H0.
Qed.

(** A field: its type code and its characters. *)
Definition enc_field (f : Z * list Z) : list Z := (f.1 * 64 + Z.of_nat (length f.2)) :: f.2.
Definition field_ok (f : Z * list Z) : Prop :=
  0 <= f.1 < 4 ∧ (length f.2 < 64)%nat ∧ Forall (λ c, c ≠ 0) f.2.
Definition holds (fld : Field) (f : Z * list Z) : Prop :=
  data_len fld = Z.of_nat (length f.2) ∧ take (length f.2) (data fld) = f.2 ∧ wf_field fld.

Lemma c_string_full bs rest : Forall (λ c, c ≠ 0) bs → c_string (length bs) (bs ++ rest) = bs.
Proof.
  induction 1 as [|c bs Hc Hbs IH]; [done|]. cbn. rewrite IH.
  by destruct (Z.eqb_spec c 0).
Qed.

Lemma to_field_length_enc f : field_ok f →
  to_field_length (f.1 * 64 + Z.of_nat (length f.2)) = Z.of_nat (length f.2).
Proof.
  intros (Ht & Hl & _). unfold to_field_length, AREA_FIELD_LENGTH_MASK.
  change (Z.land ?x 0x3f) with (Z.land x (Z.ones 6)). rewrite Z.land_ones by lia.
  assert ((f.1 * 64 + Z.of_nat (length f.2)) mod 2 ^ 6 = Z.of_nat (length f.2)) as -> by (zpow; dlia).
  apply wrap_small. unfold in_range. zpow. lia.
Qed.

(** What a blob says: fixed bytes and fields of the three areas. *)
Record Contents := mkContents {
  x_type : Z;
  x_chassis : (Z * list Z) * (Z * list Z);
  x_board_code : Z;
  x_time : Z * Z * Z;
  x_board : (Z * list Z) * (Z * list Z) * (Z * list Z) * (Z * list Z) * (Z * list Z);
  x_product_code : Z;
  x_product : (Z * list Z) * (Z * list Z) * (Z * list Z) * (Z * list Z) * (Z * list Z) *
              (Z * list Z) * (Z * list Z);
}.

Definition chassis_fields (x : Contents) : list (Z * list Z) := let '(a, b) := x_chassis x in [a; b].
Definition board_fields (x : Contents) : list (Z * list Z) :=
  let '(a, b, c, d, e) := x_board x in [a; b; c; d; e].
Definition product_fields (x : Contents) : list (Z * list Z) :=
  let '(a, b, c, d, e, f, g) := x_product x in [a; b; c; d; e; f; g].

Definition enc_area (len8 : Z) (fixed : list Z) (fs : list (Z * list Z)) : list Z :=
  1 :: len8 :: fixed ++ concat (enc_field <$> fs).
Definition chassis_bytes (len8 : Z) (x : Contents) : list Z :=
  enc_area len8 [x_type x] (chassis_fields x).
Definition board_bytes (len8 : Z) (x : Contents) : list Z :=
  let '(t0, t1, t2) := x_time x in enc_area len8 [x_board_code x; t0; t1; t2] (board_fields x).
Definition product_bytes (len8 : Z) (x : Contents) : list Z :=
  enc_area len8 [x_product_code x] (product_fields x).

(** An area of [8 * len8] bytes at [8 * off8]. *)
Definition area_placed (buf : list Z) (off8 len8 : Z) (bytes : list Z) : Prop :=
  0 < off8 < 32 ∧ 0 < len8 < 32 ∧ Z.of_nat (length bytes) <= 8 * len8 ∧ placed buf (8 * off8) bytes.

Definition chassis_holds (c : ChassisInfoArea) (len8 : Z) (x : Contents) : Prop :=
  chassis_header c = mkAreaHeader 1 (8 * len8) ∧ type c = x_type x ∧
  Forall2 holds [chassis_part_number c; chassis_serial_number c] (chassis_fields x).
Definition board_holds (b : BoardArea) (len8 : Z) (x : Contents) : Prop :=
  board_header b = mkAreaHeader 1 (8 * len8) ∧ board_code b = x_board_code x ∧ data_time b = x_time x ∧
  Forall2 holds [board_manufacturer b; board_product_name b; board_serial_number b;
                 board_part_number b; board_fru_file_id b] (board_fields x).
Definition product_holds (p : ProductInfoArea) (len8 : Z) (x : Contents) : Prop :=
  product_header p = mkAreaHeader 1 (8 * len8) ∧ product_code p = x_product_code x ∧
  Forall2 holds [product_manufacturer p; product_product_name p; product_model_number p;
                 product_version p; product_serial_number p; product_asset_tag p;
                 product_fru_file_id p] (product_fields x).

Section layout.
Context {C : SafeString} {HC : SafeStringLaws C}.

(** Copying a field's characters out of the blob. *)
Lemma copy_field dest cs rest :
  length dest = AREA_FIELD_MAX_SIZE → (0 < length cs < 64)%nat → Forall (λ c, c ≠ 0) cs →
  ∃ dest', strncpy_s dest (Z.of_nat (length cs) + 1) (cs ++ rest) (Z.of_nat (length cs)) = (EOK, dest') ∧
           length dest' = AREA_FIELD_MAX_SIZE ∧ take (length cs) dest' = cs.
Proof.
  intros Hd Hl Hnz. unfold AREA_FIELD_MAX_SIZE in *.
  assert (readable (Z.to_nat (Z.of_nat (length cs))) (cs ++ rest) = true) as Hr.
  { apply orb_true_iff. left. apply Nat.leb_le. len. }
  pose proof (strncpy_s_ok dest (Z.of_nat (length cs) + 1) (cs ++ rest) (Z.of_nat (length cs))
    ltac:(lia) ltac:(lia) ltac:(lia) Hr) as Hok.
  pose proof (strncpy_s_copies dest (Z.of_nat (length cs) + 1) (cs ++ rest) (Z.of_nat (length cs))
    ltac:(lia) ltac:(lia) ltac:(lia) Hr) as Hcp.
  pose proof (strncpy_s_length dest (Z.of_nat (length cs) + 1) (cs ++ rest) (Z.of_nat (length cs))) as Hln.
  rewrite Nat2Z.id, c_string_full in Hcp by done. destruct (strncpy_s _ _ _ _) as [ret dest'].
  cbn [fst snd] in *. subst ret. exists dest'. split_and!; [done|lia|].
  apply (f_equal (take (length cs))) in Hcp. rewrite take_take, Nat.min_l in Hcp by lia.
  by rewrite take_app_length in Hcp.
Qed.

Lemma read_field_placed buf area offset fld f :
  wf_field fld → field_ok f → 0 <= offset → offset + Z.of_nat (length (enc_field f)) < 256 →
  placed buf (area + offset) (enc_field f) →
  ∃ fld', read_field buf area offset fld = (Ok (offset + Z.of_nat (length (enc_field f))), fld') ∧
          holds fld' f.
Proof.
  intros Hfld Hok Ho Hend Hpl. pose proof (placed_inside _ _ _ _ Hpl) as Hin.
  unfold read_field. run_monad. rewrite (placed_read _ _ _ _ _ Hpl), to_field_length_enc by done.
  destruct Hok as (Ht & Hl & Hnz). cbn [length enc_field] in *.
  destruct f as [tc [|c bs]]; cbn [fst snd] in *.
  { exists (mkField 0 1 (data fld)). split; [|by repeat split].
    cbn. rewrite wrap_small by (unfold in_range; zpow; lia). done. }
  remember (c :: bs) as cs eqn:Ecs. assert (0 < length cs)%nat by (subst; cbn; lia).
  replace (0 =? Z.of_nat (length cs)) with false by (symmetry; apply Z.eqb_neq; lia).
  replace (0xc1 =? Z.of_nat (length cs)) with false by (symmetry; apply Z.eqb_neq; lia).
  cbn [orb]. unfold pointer. rewrite (proj2 (Z.leb_le _ _)) by lia.
  apply (placed_app _ _ [_] cs) in Hpl as [_ [Hp Hpl]]. cbn [length] in *.
  assert (∃ rest, drop (Z.to_nat (area + offset + 1)) buf = cs ++ rest) as [rest Hrest].
  { exists (drop (length cs) (drop (Z.to_nat (area + offset + 1)) buf)).
    rewrite <- Hpl at 1. unfold slice. rewrite take_drop. done. }
  rewrite Hrest. destruct (copy_field (data fld) cs rest) as (dest & Hcpy & Hdl & Htake); [done..|].
  unfold AREA_FIELD_MAX_SIZE in Hdl. rewrite Hcpy, Nat2Z.id.
  replace (readable (length cs) (cs ++ rest)) with true
    by (symmetry; apply orb_true_iff; left; apply Nat.leb_le; len).
  cbn -[Z.of_nat]. rewrite Hdl, (proj2 (Z.ltb_lt _ _)) by lia. cbn -[Z.of_nat].
  rewrite (wrap_small 8 (Z.of_nat (length cs) + 1)) by (unfold in_range; zpow; lia).
  rewrite wrap_small by (unfold in_range; zpow; lia).
  eexists. split; [f_equal; f_equal; lia|]. split_and!; [done| |].
  - cbn. by rewrite take_insert_ge by lia.
  - unfold wf_field. cbn. by rewrite length_insert.
Qed.
Lemma read_byte_fixed buf area offset pre b post :
  placed buf area (pre ++ b :: post) → offset = Z.of_nat (length pre) → read_byte buf area offset = Ok b.
Proof. intros Hpl ->. apply placed_app in Hpl as [_ Hpl]. by eapply placed_read. Qed.

(** The area header, before the fields. *)
Lemma parse_area_header_placed buf area len8 body a :
  0 < area → 0 < len8 < 32 → placed buf area (1 :: len8 :: body) →
  parse_area_header buf area a = (Ok tt, mkAreaHeader 1 (8 * len8)).
Proof.
  intros Ha Hl Hpl. unfold parse_area_header, when. run_monad.
  replace (AREA_NOT_USED =? area) with false by (symmetry; apply Z.eqb_neq; unfold AREA_NOT_USED; lia).
  rewrite (read_byte_fixed _ _ AREA_FORMAT_OFFSET [] 1 (len8 :: body)) by done.
  rewrite (read_byte_fixed _ _ AREA_LENGTH_OFFSET [1] len8 body) by done. change (is_area_format_valid 1) with true. cbv iota beta.
  assert (to_area_length len8 = 8 * len8) as ->.
  { unfold to_area_length, MULTIPLIER_BY_8_SHIFT. rewrite Z.shiftl_mul_pow2 by lia.
    rewrite wrap_small; [lia|]. unfold in_range. zpow. lia. }
  destruct (Z.eqb_spec 0 (8 * len8)); [lia|done].
Qed.

Lemma check_crc_empty buf area x xs : placed buf area (x :: xs) → check_crc buf area 0 = Ok tt.
Proof.
  intros Hpl. pose proof (placed_inside _ _ _ _ Hpl). destruct Hpl as [Hp _].
  unfold check_crc, pointer. rewrite Z.add_0_r, (proj2 (Z.leb_le _ _)) by lia. cbn.
  by rewrite Nat.sub_diag.
Qed.

(** Consecutive fields are read one after the other. *)
Lemma field_run {T} (proj : T → Field) set buf area offset fs f (k : Z → M T unit) t :
  placed buf (area + offset) (concat (enc_field <$> f :: fs)) → Forall field_ok (f :: fs) →
  0 <= offset → offset + Z.of_nat (length (concat (enc_field <$> f :: fs))) < 256 →
  wf_field (proj t) →
  ∃ fld offset', holds fld f ∧
    (zoom proj set (read_field buf area offset) ≫= k) t = k offset' (set fld t) ∧
    offset' = offset + Z.of_nat (length (enc_field f)) ∧
    placed buf (area + offset') (concat (enc_field <$> fs)) ∧ Forall field_ok fs ∧
    0 <= offset' ∧ offset' + Z.of_nat (length (concat (enc_field <$> fs))) < 256.
Proof.
  intros Hpl Hok Ho Hlen Hwf. rewrite fmap_cons in *. cbn [concat] in *. rewrite length_app in Hlen.
  apply placed_app in Hpl as [Hf Hfs]. apply list.Forall_cons in Hok as [Hok Hoks].
  destruct (read_field_placed buf area offset (proj t) f) as (fld & Hrun & Hholds); [done..|lia|done|].
  exists fld, (offset + Z.of_nat (length (enc_field f))). split; [done|]. split.
  { unfold mbind, M_bind, zoom. by rewrite Hrun. }
  rewrite Z.add_assoc. split_and!; try done; lia.
Qed.

Ltac run_field :=
  match goal with
  | Hpl : placed ?buf (?area + ?offset) (concat (enc_field <$> ?f :: ?fs)),
    Hok : Forall field_ok (?f :: ?fs), Ho : 0 <= ?offset, Hl : ?offset + _ < 256
    |- context [(zoom ?proj ?set (read_field ?buf ?area ?offset) ≫= ?k) ?t] =>
      let fld := fresh "fld" in let o := fresh "o" in let Hrun := fresh "Hrun" in
      destruct (field_run proj set buf area offset fs f k t) as (fld & o & ? & Hrun & ? & ? & ? & ? & ?);
        [exact Hpl|exact Hok|exact Ho|exact Hl|cbn; done|];
      rewrite Hrun; clear Hrun Hpl Hok Ho Hl
  end.

Lemma prefix_run {T} (hdr : T → AreaHeader) set buf off8 len8 body (k : M T unit) t :
  placed buf (8 * off8) (1 :: len8 :: body) → 0 < off8 < 32 → 0 < len8 < 32 →
  area_length (hdr t) = 0 →
  (s ← get; lift (check_crc buf (8 * off8) (area_length (hdr s)));;
   zoom hdr set (parse_area_header buf (8 * off8));; k) t
  = k (set (mkAreaHeader 1 (8 * len8)) t).
Proof.
  intros Hpl Ho Hl H0. rewrite (bind_run _ _ _ t t) by done. rewrite H0.
  erewrite bind_run by (unfold lift; erewrite check_crc_empty by exact Hpl; done).
  by erewrite bind_run
    by (unfold zoom; erewrite parse_area_header_placed by (done || lia || exact Hpl); done).
Qed.

Lemma byte_run {T} (set : Z → T → T) buf area offset pre b post (k : M T unit) t :
  placed buf area (pre ++ b :: post) → offset = Z.of_nat (length pre) →
  (c ← lift (read_byte buf area offset); modify (set c);; k) t = k (set b t).
Proof.
  intros Hpl Ho. erewrite bind_run by (unfold lift; erewrite read_byte_fixed by done; done).
  by erewrite bind_run by done.
Qed.

(** The room that the area leaves for its fields. *)
Lemma fields_room buf area len8 fixed fs offset :
  placed buf area (enc_area len8 fixed fs) → 0 < len8 < 32 →
  Z.of_nat (length (enc_area len8 fixed fs)) <= 8 * len8 → offset = 2 + Z.of_nat (length fixed) →
  placed buf (area + offset) (concat (enc_field <$> fs)) ∧ 0 <= offset ∧
  offset + Z.of_nat (length (concat (enc_field <$> fs))) < 256.
Proof.
  intros Hpl Hl Hlen ->. unfold enc_area in *. apply (placed_app _ _ (1 :: len8 :: fixed)) in Hpl as [_ Hpl].
  cbn [length] in *. rewrite length_app in Hlen.
  replace (2 + Z.of_nat (length fixed)) with (Z.of_nat (S (S (length fixed)))) by lia.
  split_and!; [done|lia..].
Qed.

Lemma parse_chassis_placed buf off8 len8 x c :
  area_placed buf off8 len8 (chassis_bytes len8 x) → Forall field_ok (chassis_fields x) →
  wf_chassis c → area_length (chassis_header c) = 0 →
  ∃ c', parse_chassis_info_area buf (8 * off8) c = (Ok tt, c') ∧ chassis_holds c' len8 x.
Proof.
  intros (Ho & Hl & Hlen & Hpl) Hok (Hw & Hw1 & Hw2) Hz. unfold parse_chassis_info_area, chassis_bytes in *.
  rewrite (prefix_run _ _ _ _ _ _ _ _ Hpl Ho Hl Hz), (byte_run _ _ _ _ [1; len8] _ _ _ _ Hpl) by done.
  destruct (fields_room _ _ _ _ _ AREA_CHASSIS_INFO_PARAMETERS_OFFSET Hpl Hl Hlen) as (Hf&Hoff&Hend); [done|].
  clear Hlen Hpl Hz. unfold chassis_holds, chassis_fields in *.
  destruct c, x as [? [??]]; cbn [x_type x_chassis set_chassis_header set_type] in *. cbv zeta.
  do 2 run_field. eexists. split_and!; [done..|].
  repeat (apply Forall2_cons; [done|]). apply Forall2_nil.
Qed.

Lemma parse_board_placed buf off8 len8 x b :
  area_placed buf off8 len8 (board_bytes len8 x) → Forall field_ok (board_fields x) →
  wf_board b → area_length (board_header b) = 0 →
  ∃ b', parse_board_area buf (8 * off8) b = (Ok tt, b') ∧ board_holds b' len8 x.
Proof.
  intros (Ho & Hl & Hlen & Hpl) Hok (Hw & ? & ? & ? & ? & ?) Hz. unfold parse_board_area, board_bytes in *.
  destruct b as [? ? [[??]?]], x as [? ? ? [[t0 t1] t2] [[[[??]?]?]?]]; cbn [x_time x_board_code] in *.
  rewrite (prefix_run _ _ _ _ _ _ _ _ Hpl Ho Hl Hz), (byte_run _ _ _ _ [1; len8] _ _ _ _ Hpl) by done.
  cbv zeta. rewrite (byte_run _ _ _ _ [1; len8; _] _ _ _ _ Hpl) by done.
  rewrite (byte_run _ _ _ _ [1; len8; _; _] _ _ _ _ Hpl) by done.
  rewrite (byte_run _ _ _ _ [1; len8; _; _; _] _ _ _ _ Hpl) by done.
  destruct (fields_room _ _ _ _ _ AREA_BOARD_PARAMETERS_OFFSET Hpl Hl Hlen) as (Hf&Hoff&Hend); [done|].
  clear Hlen Hpl Hz. unfold board_holds, board_fields in *. cbn [x_time x_board_code x_board] in *.
  do 5 run_field. eexists. split_and!; [done..|].
  repeat (apply Forall2_cons; [done|]). apply Forall2_nil.
Qed.

Lemma parse_product_placed buf off8 len8 x p :
  area_placed buf off8 len8 (product_bytes len8 x) → Forall field_ok (product_fields x) →
  wf_product p → area_length (product_header p) = 0 →
  ∃ p', parse_product_info_area buf (8 * off8) p = (Ok tt, p') ∧ product_holds p' len8 x.
Proof.
  intros (Ho & Hl & Hlen & Hpl) Hok (Hw & ? & ? & ? & ? & ? & ? & ?) Hz.
  unfold parse_product_info_area, product_bytes in *.
  rewrite (prefix_run _ _ _ _ _ _ _ _ Hpl Ho Hl Hz), (byte_run _ _ _ _ [1; len8] _ _ _ _ Hpl) by done.
  destruct (fields_room _ _ _ _ _ AREA_PRODUCT_INFO_PARAMETERS_OFFSET Hpl Hl Hlen) as (Hf&Hoff&Hend); [done|].
  clear Hlen Hpl Hz. unfold product_holds, product_fields in *.
  destruct p, x as [? ? ? ? ? ? [[[[[[??]?]?]?]?]?]]; cbn [x_product x_product_code] in *. cbv zeta.
  do 7 run_field. eexists. split_and!; [done..|].
  repeat (apply Forall2_cons; [done|]). apply Forall2_nil.
Qed.

Lemma header_byte_run buf offset set convert pre b post (k : M CommonHeaderArea unit) h :
  placed buf 0 (pre ++ b :: post) → offset = Z.of_nat (length pre) →
  (header_byte buf offset set convert;; k) h = k (set (convert b) h) ∧
  header_byte buf offset set convert h = (Ok tt, set (convert b) h).
Proof.
  intros Hpl Ho. unfold header_byte. run_monad. by rewrite (read_byte_fixed _ _ _ _ _ _ Hpl Ho).
Qed.

Lemma parse_common_header_placed buf iu oc ob op mr pd cs h :
  placed buf 0 [1; iu; oc; ob; op; mr; pd; cs] → wrap 8 (1 + iu + oc + ob + op + mr + pd + cs) = 0 →
  parse_common_header_area buf h =
    (Ok tt, mkCommonHeader 1 (to_offset iu) (to_offset oc) (to_offset ob) (to_offset op) (to_offset mr)
              (to_offset pd) cs).
Proof.
  intros Hpl Hsum. pose proof (placed_inside _ _ _ _ Hpl) as Hin. cbn [length] in Hin.
  unfold parse_common_header_area, check_crc, pointer.
  rewrite !(proj2 (Z.leb_le _ _)) by lia. cbn [mbind result_bind].
  pose proof Hpl as Hp. destruct Hpl as [_ Hpl]. cbn [length] in Hpl.
  change (Z.to_nat (0 + 8) - Z.to_nat 0)%nat with 8%nat. rewrite Hpl. cbn [foldl].
  rewrite Z.add_0_l, Hsum. rewrite (bind_run _ _ _ tt h) by done. destruct h.
  rewrite (proj1 (header_byte_run _ _ _ _ [] _ _ _ _ Hp eq_refl)).
  rewrite (bind_run get _ _ _ _ eq_refl). cbn [set_format format].
  change (is_area_format_valid (id 1)) with true. cbv iota. rewrite (bind_run (mret tt) _ _ _ _ eq_refl).
  rewrite (proj1 (header_byte_run _ _ _ _ [_] _ _ _ _ Hp eq_refl)).
  rewrite (proj1 (header_byte_run _ _ _ _ [_; _] _ _ _ _ Hp eq_refl)).
  rewrite (proj1 (header_byte_run _ _ _ _ [_; _; _] _ _ _ _ Hp eq_refl)).
  rewrite (proj1 (header_byte_run _ _ _ _ [_; _; _; _] _ _ _ _ Hp eq_refl)).
  rewrite (proj1 (header_byte_run _ _ _ _ [_; _; _; _; _] _ _ _ _ Hp eq_refl)).
  rewrite (proj1 (header_byte_run _ _ _ _ [_; _; _; _; _; _] _ _ _ _ Hp eq_refl)).
  by rewrite (proj2 (header_byte_run _ _ _ _ [_; _; _; _; _; _; _] _ _ (mret tt) _ Hp eq_refl)).
Qed.

Lemma zoom_run {S T A} (proj : S → T) inj (m : M T A) s a t :
  m (proj s) = (Ok a, t) → zoom proj inj m s = (Ok a, inj t s).
Proof. intros Hm. unfold zoom. by rewrite Hm. Qed.

Lemma to_offset_small o : 0 <= o < 32 → to_offset o = 8 * o.
Proof.
  intros Ho. unfold to_offset, MULTIPLIER_BY_8_SHIFT. rewrite Z.shiftl_mul_pow2 by lia.
  rewrite wrap_small; [lia|]. unfold in_range. zpow. lia.
Qed.

End layout.

(** A blob laid out as the specification says - a common header with a right sum,
    then the chassis, board and product areas wherever the header says they are - is read
    back by a fresh parser: it returns, and every field has the bytes that were laid out,
    whatever their type codes. *)
Theorem parse_laid_out {C : SafeString} {HC : SafeStringLaws C} buf s x iu oc ob op mr pd cs lc lb lp :
  FruEepromParser_new (Some buf) = Ok s →
  placed buf 0 [1; iu; oc; ob; op; mr; pd; cs] → wrap 8 (1 + iu + oc + ob + op + mr + pd + cs) = 0 →
  area_placed buf oc lc (chassis_bytes lc x) → area_placed buf ob lb (board_bytes lb x) →
  area_placed buf op lp (product_bytes lp x) →
  Forall field_ok (chassis_fields x ++ board_fields x ++ product_fields x) →
  ∃ s', parse s = (Ok tt, s') ∧ chassis_holds (m_chassis_info s') lc x ∧
        board_holds (m_board s') lb x ∧ product_holds (m_product_info s') lp x.
Proof.
  intros Hnew Hh Hsum Hc Hb Hp Hok. destruct (new_wf _ _ Hnew) as ((_&Hwc&Hwb&Hwp) & Hbuf & Hrem).
  unfold remembered in Hrem. injection Hrem as Hlc Hlb Hlp.
  apply list.Forall_app in Hok as [Hokc Hok]. apply list.Forall_app in Hok as [Hokb Hokp].
  destruct (parse_chassis_placed buf oc lc x (m_chassis_info s)) as (c' & Hc' & ?); [done..|].
  destruct (parse_board_placed buf ob lb x (m_board s)) as (b' & Hb' & ?); [done..|].
  destruct (parse_product_placed buf op lp x (m_product_info s)) as (p' & Hp' & ?); [done..|].
  rewrite <- (to_offset_small oc) in Hc' by (unfold area_placed in *; lia).
  rewrite <- (to_offset_small ob) in Hb' by (unfold area_placed in *; lia).
  rewrite <- (to_offset_small op) in Hp' by (unfold area_placed in *; lia).
  destruct s; cbn in Hbuf, Hc', Hb', Hp'; subst. unfold parse.
  rewrite (bind_run get _ _ _ _ eq_refl). cbn [m_buffer].
  rewrite (bind_run _ _ _ _ _ (zoom_run _ _ _ _ _ _ (parse_common_header_placed _ _ _ _ _ _ _ _ _ Hh Hsum))).
  rewrite (bind_run _ _ _ _ _ (parse_internal_area_run _)), (bind_run get _ _ _ _ eq_refl).
  cbv [set_common_header set_chassis_info set_board m_buffer m_common_header m_chassis_info m_board
       m_product_info chassis_info_area_offset board_area_offset product_info_area_offset].
  rewrite (bind_run _ _ _ _ _ (zoom_run m_chassis_info _ _ (mkParser _ _ _ _ _) _ _ Hc')), (bind_run get _ _ _ _ eq_refl).
  cbv [set_common_header set_chassis_info set_board m_buffer m_common_header m_chassis_info m_board
       m_product_info chassis_info_area_offset board_area_offset product_info_area_offset].
  rewrite (bind_run _ _ _ _ _ (zoom_run m_board _ _ (mkParser _ _ _ _ _) _ _ Hb')), (bind_run get _ _ _ _ eq_refl).
  cbv [set_common_header set_chassis_info set_board m_buffer m_common_header m_chassis_info m_board
       m_product_info chassis_info_area_offset board_area_offset product_info_area_offset].
  rewrite (bind_run _ _ _ _ _ (zoom_run m_product_info _ _ (mkParser _ _ _ _ _) _ _ Hp')).
  rewrite (bind_run _ _ _ _ _ (parse_multirecord_area_run _)), parse_pad_area_run. eauto.
Qed.

(** The layout as one statement about the blob. *)
Definition laid_out (buf : list Z) (x : Contents) : Prop :=
  ∃ iu oc ob op mr pd cs lc lb lp,
    placed buf 0 [1; iu; oc; ob; op; mr; pd; cs] ∧ wrap 8 (1 + iu + oc + ob + op + mr + pd + cs) = 0 ∧
    area_placed buf oc lc (chassis_bytes lc x) ∧ area_placed buf ob lb (board_bytes lb x) ∧
    area_placed buf op lp (product_bytes lp x) ∧
    Forall field_ok (chassis_fields x ++ board_fields x ++ product_fields x).

Lemma parse_laid_out_board {C : SafeString} {HC : SafeStringLaws C} buf s x :
  FruEepromParser_new (Some buf) = Ok s → laid_out buf x →
  ∃ s' lb, parse s = (Ok tt, s') ∧ board_holds (m_board s') lb x.
Proof.
  intros Hs (iu & oc & ob & op & mr & pd & cs & lc & lb & lp & H1 & H2 & H3 & H4 & H5 & H6).
  destruct (parse_laid_out _ _ _ _ _ _ _ _ _ _ _ _ _ Hs H1 H2 H3 H4 H5 H6) as (s' & ? & _ & ? & _). eauto.
Qed.

(** ** Blobs of the agents *)

Definition pad_to (n : nat) (l : list Z) : list Z := l ++ replicate (n - length l) 0.

Definition sample : Contents :=
  mkContents 0x17 ((3, chars "ABCD"), (3, chars "EFGH")) 25 (1, 2, 3)
    ((3, chars "Company"), (3, []), (3, chars "A"), (3, chars "P1"), (0, []))
    25 ((3, chars "Company"), (3, chars "Chassis"), (3, []), (3, []), (3, chars "S0"), (3, chars "Tag"), (0, [])).

(** Three areas of a blob of 192 bytes; the checksums of the areas are not set. *)
Definition sample_blob : list Z :=
  pad_to 192 (pad_to 64 (pad_to 32 ([1; 0; 1; 4; 8; 0; 0; 242] ++ chassis_bytes 3 sample)
    ++ board_bytes 4 sample) ++ product_bytes 5 sample).

Lemma sample_laid_out : laid_out sample_blob sample.
Proof.
  exists 0, 1, 4, 8, 0, 0, 242, 3, 4, 5. split_and!; [by vm_compute|done|by vm_compute..|].
  apply (bool_decide_unpack _). by vm_compute.
Qed.

Lemma parse_in_bounds_witness :
  ∃ s, FruEepromParser_new (Some (pad_to 567 sample_blob)) = Ok s ∧
       match (parse s).1 with Ok _ => True | Throw e => e ∈ parse_errors end.
Proof.
  eexists. split; [done|]. apply parse_in_bounds; [|by vm_compute].
  by apply (new_wf (pad_to 567 sample_blob)).
Defined.

(** The blobs that the agents read have 192 bytes, and a length byte in them may send the
    parser outside. *)
Theorem parse_leaves_blob :
  ∃ buf s, length buf = 192%nat ∧ Forall is_byte buf ∧ FruEepromParser_new (Some buf) = Ok s ∧
           (parse s).1 = Throw undefined_behaviour.
Proof.
  exists (pad_to 184 ([1; 0; 1; 1; 23; 0; 0; 230] ++ [1; 1; 2]) ++ [1; 1; 25; 0xff; 65; 65; 65; 65]).
  eexists. split; [done|]. split.
  - apply (bool_decide_unpack _). by vm_compute.
  - split; [reflexivity|]. by vm_compute.
Qed.

(** Parsing the same blob again checks the sums of the areas, which the first run did
    not. *)
Theorem second_parse_checks :
  ∃ s s', FruEepromParser_new (Some sample_blob) = Ok s ∧ parse s = (Ok tt, s') ∧
          (parse s').1 = Throw crc_error.
Proof. eexists _, _. split; [reflexivity|]. split; [vm_compute; reflexivity|]. by vm_compute. Qed.

End Fru.
