(* ===== verification/Ipmi.v ===== *)
(** The IPMI library (PSME/common/ipmi): the byte buffer helpers, messages, the checks a
    response goes through before it is unpacked with the errors its completion code
    gives, the factory that shares interfaces between controllers, and
    [IpmiController::send].

    A response class is a record: its name, its message header, the length it needs, its
    own completion codes and its [unpack].  What an interface does on the wire is the
    class [Bus] over a world [W].  Components that send commands are written against the
    class [IpmiLink]; what they may rely on is [Faithful], a link that hands every
    request to a device and its bytes to [do_unpack].  [controller_faithful] shows that
    the controller with the shared interfaces is such a link, also after a response was
    rejected. *)

From Stdlib Require Import ZArith Lia.
From S2P Require Import Prelude Hoare.

Local Open Scope Z_scope.

(** * Byte buffers *)

Module IpmiBytes.

(** [data.at(pos)] *)
Definition at_ (data : list Z) (pos : nat) : result Z :=
  match data !! pos with Some b => Ok b | None => Throw out_of_range end.

Definition get_uint8 (data : list Z) (pos : nat) : result Z := at_ data pos.

Definition get_uint16 (data : list Z) (pos : nat) : result Z :=
  b0 ← at_ data pos;
  b1 ← at_ data (pos + 1);
  mret (wrap 16 (Z.lor b0 (Z.shiftl b1 8))).

Definition get_uint32 (data : list Z) (pos : nat) : result Z :=
  b0 ← at_ data pos;
  b1 ← at_ data (pos + 1);
  b2 ← at_ data (pos + 2);
  b3 ← at_ data (pos + 3);
  mret (wrap 32 (Z.lor (Z.lor (Z.lor b0 (Z.shiftl b1 8)) (Z.shiftl b2 16)) (Z.shiftl b3 24))).

(** [for (size_t i = 0; i < sizeof(std::uint64_t); i += 8)], as it is written. *)
Fixpoint get_uint64_loop (fuel : nat) (data : list Z) (pos i : nat) (ret : Z) : result Z :=
  match fuel with
  | O => Throw out_of_fuel
  | S fuel' =>
      if (i <? 8)%nat then
        b ← at_ data (pos + i / 8);
        get_uint64_loop fuel' data pos (i + 8) (Z.lor ret (wrap 64 (Z.shiftl b (Z.of_nat i))))
      else mret ret
  end.
Definition get_uint64 (data : list Z) (pos : nat) : result Z := get_uint64_loop 9 data pos 0 0.

Definition is_bit_set (data : list Z) (pos : nat) (bit : Z) : result bool :=
  b ← at_ data pos;
  mret (Z.land b (Z.shiftl 1 bit) =? Z.shiftl 1 bit).

(** [data.at(pos) = b] *)
Definition set_at (data : list Z) (pos : nat) (b : Z) : result (list Z) :=
  if (pos <? length data)%nat then Ok (<[pos := b]> data) else Throw out_of_range.

Definition byte_of (val k : Z) : Z := wrap 8 (Z.land (Z.shiftr val k) 0xff).

Definition put_uint8 (data : list Z) (pos : nat) (val : Z) : result (list Z) :=
  if (length data =? pos)%nat then mret (data ++ [byte_of val 0])
  else set_at data pos (byte_of val 0).

Definition put_uint16 (data : list Z) (pos : nat) (val : Z) : result (list Z) :=
  if (length data =? pos)%nat then mret (data ++ [byte_of val 0; byte_of val 8])
  else
    data ← set_at data pos (byte_of val 0);
    set_at data (pos + 1) (byte_of val 8).

Definition put_uint32 (data : list Z) (pos : nat) (val : Z) : result (list Z) :=
  if (length data =? pos)%nat then
    mret (data ++ [byte_of val 0; byte_of val 8; byte_of val 16; byte_of val 24])
  else
    data ← set_at data pos (byte_of val 0);
    data ← set_at data (pos + 1) (byte_of val 8);
    data ← set_at data (pos + 2) (byte_of val 16);
    set_at data (pos + 3) (byte_of val 24).

Definition put_uint64 (data : list Z) (pos : nat) (val : Z) : result (list Z) :=
  if (length data =? pos)%nat then
    mret (data ++ [byte_of val 0; byte_of val 8; byte_of val 16; byte_of val 24;
                   byte_of val 32; byte_of val 40; byte_of val 48; byte_of val 56])
  else
    data ← set_at data pos (byte_of val 0);
    data ← set_at data (pos + 1) (byte_of val 8);
    data ← set_at data (pos + 2) (byte_of val 16);
    data ← set_at data (pos + 3) (byte_of val 24);
    data ← set_at data (pos + 1) (byte_of val 32);
    data ← set_at data (pos + 2) (byte_of val 40);
    data ← set_at data (pos + 3) (byte_of val 48);
    set_at data (pos + 3) (byte_of val 56).

(** ** What is put is what is got *)

Lemma at_app data xs i : at_ (data ++ xs) (length data + i) = at_ xs i.
Proof. unfold at_. rewrite lookup_app_r by lia. by replace (length data + i - length data)%nat with i by lia. Qed.

Lemma at_app_0 data x xs : at_ (data ++ x :: xs) (length data) = Ok x.
Proof. rewrite <- (Nat.add_0_r (length data)). by rewrite at_app. Qed.

Lemma byte_of_val val k : 0 <= k → byte_of val k = (val / 2 ^ k) mod 256.
Proof.
  intros Hk. unfold byte_of, wrap. rewrite (Z.land_ones _ 8) by lia.
  rewrite Z.shiftr_div_pow2 by lia. rewrite Z.mod_mod by lia. done.
Qed.

Lemma byte_of_range val k : 0 <= k → 0 <= byte_of val k < 256.
Proof. intros Hk. rewrite byte_of_val by done. apply Z.mod_pos_bound. lia. Qed.

(** Overwriting [n] bytes in place. *)
Lemma set_at_ok data pos b : (pos < length data)%nat → set_at data pos b = Ok (<[pos := b]> data).
Proof. intros Hp. unfold set_at. by rewrite (proj2 (Nat.ltb_lt _ _)). Qed.

Lemma get_uint16_bytes data pos val :
  in_range 16 val → at_ data pos = Ok (byte_of val 0) → at_ data (pos + 1) = Ok (byte_of val 8) →
  get_uint16 data pos = Ok val.
Proof.
  intros Hv H0 H1. unfold get_uint16, in_range in *. rewrite H0, H1. cbn [mbind result_bind].
  pose proof (byte_of_range val 0 ltac:(lia)).
  rewrite lor_shiftl_add by (zpow; lia). rewrite !byte_of_val in * by lia. zpow.
  unfold mret, result_ret, wrap. zpow. f_equal. dlia.
Qed.

Lemma get_uint32_bytes data pos val :
  in_range 32 val → at_ data pos = Ok (byte_of val 0) → at_ data (pos + 1) = Ok (byte_of val 8) →
  at_ data (pos + 2) = Ok (byte_of val 16) → at_ data (pos + 3) = Ok (byte_of val 24) →
  get_uint32 data pos = Ok val.
Proof.
  intros Hv H0 H1 H2 H3. unfold get_uint32, in_range in *. rewrite H0, H1, H2, H3. cbn [mbind result_bind].
  pose proof (byte_of_range val 0 ltac:(lia)). pose proof (byte_of_range val 8 ltac:(lia)).
  pose proof (byte_of_range val 16 ltac:(lia)).
  rewrite (lor_shiftl_add 8) by (zpow; lia). rewrite (lor_shiftl_add 16) by (zpow; lia).
  rewrite (lor_shiftl_add 24) by (zpow; lia). rewrite !byte_of_val in * by lia. zpow.
  unfold mret, result_ret, wrap. zpow. f_equal. dlia.
Qed.

(** A 16 or 32-bit number put at the end, or over bytes that are there, is got back and
    nothing before it changes. *)
Theorem put_get_uint16 data pos val :
  in_range 16 val → pos = length data ∨ (pos + 1 < length data)%nat →
  ∃ data', put_uint16 data pos val = Ok data' ∧ get_uint16 data' pos = Ok val ∧ take pos data' = take pos data.
Proof.
  intros Hv [->|Hp]; unfold put_uint16.
  - rewrite Nat.eqb_refl. eexists. split; [done|]. split.
    + apply get_uint16_bytes; [done| |]; [apply at_app_0|]. by rewrite at_app.
    + by rewrite take_app_length, firstn_all.
  - rewrite (proj2 (Nat.eqb_neq _ _)) by lia. rewrite set_at_ok by lia. cbn.
    rewrite set_at_ok by len. eexists. split; [done|]. split.
    + apply get_uint16_bytes; [done| |]; unfold at_.
      * rewrite list_lookup_insert_ne, list_lookup_insert_eq by lia. done.
      * rewrite list_lookup_insert_eq by len. done.
    + by rewrite !take_insert_ge by lia.
Qed.

(** The loop of [get_uint64] steps by 8 up to the size in bytes, so it runs once: the
    value is the byte at the position. *)
Theorem get_uint64_is_one_byte data pos :
  Forall is_byte data → get_uint64 data pos = get_uint8 data pos.
Proof.
  intros Hb. unfold get_uint64, get_uint8. cbn. rewrite Nat.add_0_r.
  unfold at_. destruct (data !! pos) as [b|] eqn:E; [|done]. cbn.
  rewrite Forall_lookup in Hb. specialize (Hb _ _ E). unfold is_byte in Hb.
  rewrite Z.shiftl_0_r, wrap_small; [done|]. unfold in_range. zpow. lia.
Qed.

End IpmiBytes.

(** * Messages *)

Module Ipmi.

Definition CFG_LUN_DEFAULT : Z := 0x00.

Record Message := mkMessage { network_function : Z; command_code : Z; lun : Z }.

#[export] Instance Message_eq_dec : EqDecision Message.
Proof. solve_decision. Defined.

Definition Message_new (fn cmd : Z) : Message := mkMessage fn cmd CFG_LUN_DEFAULT.
Definition set_network_function (fn : Z) (m : Message) : Message := mkMessage fn (command_code m) (lun m).
Definition set_command (cmd : Z) (m : Message) : Message := mkMessage (network_function m) cmd (lun m).
Definition set_lun (l : Z) (m : Message) : Message := mkMessage (network_function m) (command_code m) l.

(** A request: its header and its [pack]. *)
Record Request := mkRequest { request_message : Message; pack : list Z → result (list Z) }.

Definition do_pack (r : Request) : result (list Z) := pack r [].

(** ** Completion codes *)

(** The classes of response_error.hpp with their completion codes. *)
Definition NodeBusyError := response_error "NodeBusyError" 0xC0.
Definition InvalidCommandError := response_error "InvalidCommandError" 0xC1.
Definition TimeOutError := response_error "TimeOutError" 0xC3.
Definition OutOfSpaceError := response_error "OutOfSpaceError" 0xC4.
Definition RequestedRecordNotPresentError := response_error "RequestedRecordNotPresentError" 0xCB.
Definition InvalidDataFieldError := response_error "InvalidDataFieldError" 0xCC.
Definition DestinationUnavailableError := response_error "DestinationUnavailableError" 0xD3.
Definition CommandNotSupportedInPresentStateError :=
  response_error "CommandNotSupportedInPresentStateError" 0xD5.
Definition RequestDataLengthInvalidError := response_error "RequestDataLengthInvalidError" 0xC7.
Definition RequestDataTruncatedError := response_error "RequestDataTruncatedError" 0xC6.
Definition ReservationError := response_error "ReservationError" 0xC5.
Definition UnspecifiedError := response_error "UnspecifiedError" 0xFF.
Definition ParameterNotSupportedError := response_error "ParameterNotSupportedError" 0x80.
Definition UpdateInProgressError := response_error "UpdateInProgressError" 0x81.
Definition IncorrectResponseVersionError := response_error "IncorrectResponseVersionError" 0x82.
Definition SelEraseInProgressError := response_error "SelEraseInProgressError" 0x81.
Definition WrongEntityError := response_error "WrongEntityError" 0x80.
Definition ResponseLengthError := response_error "ResponseLengthError" 0.
Definition ResponseError (code : Z) := response_error "ResponseError" code.

(** [Response::throw_error_on_completion_code] *)
Definition throw_error_on_completion_code (completion_code : Z) : exn :=
  if completion_code =? 0xC0 then NodeBusyError
  else if completion_code =? 0xC1 then InvalidCommandError
  else if completion_code =? 0xC3 then TimeOutError
  else if completion_code =? 0xC4 then OutOfSpaceError
  else if completion_code =? 0xCB then RequestedRecordNotPresentError
  else if completion_code =? 0xCC then InvalidDataFieldError
  else if completion_code =? 0xD3 then DestinationUnavailableError
  else if completion_code =? 0xD5 then CommandNotSupportedInPresentStateError
  else if completion_code =? 0xC7 then RequestDataLengthInvalidError
  else if completion_code =? 0xC6 then RequestDataTruncatedError
  else if completion_code =? 0xC5 then ReservationError
  else if completion_code =? 0xFF then UnspecifiedError
  else if completion_code =? 0x80 then ParameterNotSupportedError
  else if completion_code =? 0x81 then UpdateInProgressError
  else ResponseError completion_code.

(** What [catch (const std::runtime_error&)] and [catch (const ResponseError&)] catch. *)
Definition is_response_error (e : exn) : bool :=
  match e with response_error _ _ => true | _ => false end.
Definition is_runtime_error (e : exn) : bool :=
  match e with runtime_error _ | response_error _ _ => true | _ => false end.

(** ** Responses *)

Definition OFFSET_COMPLETION_CODE : nat := 0.

(** A response class: [own_error] is its override of [throw_error_on_completion_code],
    [None] where it returns or leaves the code to the base class; [unpack] gives the
    members it fills in. *)
Record Response (A : Type) := mkResponse {
  response_message : Message;
  minimal_response_length : nat;
  own_error : Z → option exn;
  unpack : list Z → result A;
}.
Global Arguments mkResponse {A} _ _ _ _.
Global Arguments response_message {A} _.
Global Arguments minimal_response_length {A} _.
Global Arguments own_error {A} _ _.
Global Arguments unpack {A} _ _.

Definition validate_completion_code {A} (r : Response A) (data : list Z) : result unit :=
  match data !! OFFSET_COMPLETION_CODE with
  | None => Throw ResponseLengthError
  | Some completion_code =>
      if completion_code =? 0 then mret tt
      else match own_error r completion_code with
           | Some e => Throw e
           | None => Throw (throw_error_on_completion_code completion_code)
           end
  end.

Definition validate_response_size {A} (r : Response A) (data : list Z) : result unit :=
  if (length data <? minimal_response_length r)%nat then Throw ResponseLengthError else mret tt.

Definition do_unpack {A} (r : Response A) (data : list Z) : result A :=
  validate_completion_code r data;;
  validate_response_size r data;;
  unpack r data.

(** What reaches [unpack]. *)
Lemma do_unpack_Ok {A} (r : Response A) data a :
  do_unpack r data = Ok a →
  data !! 0%nat = Some 0 ∧ (minimal_response_length r ≤ length data)%nat ∧ unpack r data = Ok a.
Proof.
  unfold do_unpack, validate_completion_code, validate_response_size, OFFSET_COMPLETION_CODE.
  destruct (data !! 0%nat) as [c|]; [|done]. destruct (Z.eqb_spec c 0) as [->|].
  - cbn [mbind result_bind mret result_ret].
    destruct (Nat.ltb_spec (length data) (minimal_response_length r)); [done|]. auto.
  - by destruct (own_error r c).
Qed.

Lemma do_unpack_run {A} (r : Response A) data :
  (minimal_response_length r ≤ length data)%nat → data !! 0%nat = Some 0 → do_unpack r data = unpack r data.
Proof.
  intros Hl H0. unfold do_unpack, validate_completion_code, validate_response_size, OFFSET_COMPLETION_CODE.
  rewrite H0. cbn [mbind result_bind Z.eqb]. by rewrite (proj2 (Nat.ltb_ge _ _)).
Qed.

(** A non-zero completion code is always an error, and the base classes report the code
    they got. *)
Lemma throw_error_code c : ∃ kind, throw_error_on_completion_code c = response_error kind c.
Proof.
  unfold throw_error_on_completion_code.
  repeat match goal with |- context [c =? ?n] => destruct (Z.eqb_spec c n) as [->|]; [by eexists|] end.
  by eexists.
Qed.

Lemma do_unpack_code {A} (r : Response A) c data :
  c ≠ 0 → own_error r c = None → ∃ kind, do_unpack r (c :: data) = Throw (response_error kind c).
Proof.
  intros Hc Hown. unfold do_unpack, validate_completion_code, OFFSET_COMPLETION_CODE. cbn [lookup list_lookup].
  rewrite (proj2 (Z.eqb_neq _ _)), Hown by done. cbn.
  destruct (throw_error_code c) as [kind ->]. by eexists.
Qed.

(** * Bridges *)

Inductive Level := DIRECT | SINGLE_BRIDGE | DUAL_BRIDGE.

#[export] Instance Level_eq_dec : EqDecision Level.
Proof. solve_decision. Defined.

Record BridgeInfo := mkBridgeInfo {
  level : Level;
  transit_address : Z;
  transit_channel : Z;
  target_address : Z;
  target_channel : Z;
}.

Definition BridgeInfo_new : BridgeInfo := mkBridgeInfo DIRECT 0 0 0 0.
Definition BridgeInfo_single (address channel : Z) : BridgeInfo :=
  mkBridgeInfo SINGLE_BRIDGE 0 0 address channel.
Definition BridgeInfo_dual (transit_a transit_c target_a target_c : Z) : BridgeInfo :=
  mkBridgeInfo DUAL_BRIDGE transit_a transit_c target_a target_c.

(** [None] where the source returns [false] and leaves the arguments alone. *)
Definition get_target (b : BridgeInfo) : option (Z * Z) :=
  if bool_decide (level b = DIRECT) then None else Some (target_address b, target_channel b).
Definition set_target (address channel : Z) (b : BridgeInfo) : bool * BridgeInfo :=
  if bool_decide (level b = DIRECT) then (false, b)
  else (true, mkBridgeInfo (level b) (transit_address b) (transit_channel b) address channel).
Definition set_target_channel (channel : Z) (b : BridgeInfo) : bool * BridgeInfo :=
  if bool_decide (level b = DIRECT) then (false, b)
  else (true, mkBridgeInfo (level b) (transit_address b) (transit_channel b) (target_address b) channel).
Definition get_transit (b : BridgeInfo) : option (Z * Z) :=
  if bool_decide (level b ≠ DUAL_BRIDGE) then None else Some (transit_address b, transit_channel b).
Definition set_transit (address channel : Z) (b : BridgeInfo) : bool * BridgeInfo :=
  if bool_decide (level b ≠ DUAL_BRIDGE) then (false, b)
  else (true, mkBridgeInfo (level b) address channel (target_address b) (target_channel b)).
Definition set_transit_channel (channel : Z) (b : BridgeInfo) : bool * BridgeInfo :=
  if bool_decide (level b ≠ DUAL_BRIDGE) then (false, b)
  else (true, mkBridgeInfo (level b) (transit_address b) channel (target_address b) (target_channel b)).

(** * Interfaces and controllers *)

(** [ConnectionData] with the two tests of an interface that was built from other
    connection data. *)
Class ConnectionData (CD : Type) := {
  get_interface_type : CD → string;
  matches : CD → CD → bool;
  config_equals : CD → CD → bool;
}.

(** ipmitool/lan_connection_data.hpp, with the tests of [LanIpmiInterface]. *)
Record LanConnectionData := mkLan { ip : string; port : Z; username : string; password : string }.
Definition LAN_INTF_TYPE : string := "lan".
Definition lan_matches (data other : LanConnectionData) : bool :=
  bool_decide (ip other = ip data) && (port other =? port data) && bool_decide (username other = username data).
Definition lan_config_equals (data other : LanConnectionData) : bool :=
  bool_decide (password other = password data).

#[export] Instance lan_connection_data : ConnectionData LanConnectionData := {
  get_interface_type _ := LAN_INTF_TYPE;
  matches := lan_matches;
  config_equals := lan_config_equals;
}.

(** What an interface does to the world: being made and sending. *)
Class Bus (W CD : Type) := {
  has_builder : string → bool;
  build_interface : CD → M W unit;
  interface_send : CD → Message → BridgeInfo → list Z → M W (list Z);
}.

Section controller.
Context {W CD : Type} `{!ConnectionData CD} `{!Bus W CD}.

(** An interface that the factory made: [holders] counts its shared pointers, so the
    factory's weak pointer to it has expired at zero. *)
Record Interface := mkInterface { handle : nat; interface_data : CD; holders : nat }.

(** The factory with the world its interfaces work on. *)
Record Env := mkEnv { interfaces : list Interface; next_handle : nat; world : W }.

Record IpmiController := mkController {
  connection_data : CD;
  check_interface : bool;
  interface : option nat;
}.

Record System := mkSystem { controller : IpmiController; env : Env }.

Definition set_interfaces (l : list Interface) (e : Env) : Env := mkEnv l (next_handle e) (world e).
Definition set_world (w : W) (e : Env) : Env := mkEnv (interfaces e) (next_handle e) w.
Definition set_env (e : Env) (s : System) : System := mkSystem (controller s) e.
Definition set_check (b : bool) (s : System) : System :=
  mkSystem (mkController (connection_data (controller s)) b (interface (controller s))) (env s).
Definition set_interface (i : option nat) (s : System) : System :=
  mkSystem (mkController (connection_data (controller s)) (check_interface (controller s)) i) (env s).

(** ** IpmiInterfaceFactory *)

Definition acquire (h : nat) (i : Interface) : Interface :=
  if bool_decide (handle i = h) then mkInterface (handle i) (interface_data i) (S (holders i)) else i.
Definition reset (h : nat) (i : Interface) : Interface :=
  if bool_decide (handle i = h) then mkInterface (handle i) (interface_data i) (pred (holders i)) else i.
Definition expired (i : Interface) : Prop := holders i = 0%nat.
#[local] Instance expired_dec i : Decision (expired i) := decide (holders i = 0%nat).

Definition get_interface (cd : CD) : M Env (option nat) :=
  e ← get;
  (* search in already created interfaces *)
  match list_find (λ i, ¬ expired i ∧ matches (interface_data i) cd = true) (interfaces e) with
  | Some (_, i) =>
      modify (set_interfaces (acquire (handle i) <$> interfaces e));;
      mret (Some (handle i))
  | None =>
      (* build new one *)
      if has_builder (get_interface_type cd) then
        zoom world set_world (build_interface cd);;
        e ← get;
        let h := next_handle e in
        put (mkEnv (interfaces e ++ [mkInterface h cd 1]) (S h) (world e));;
        mret (Some h)
      else mret None
  end.

Definition release_interface (intf : option nat) : M Env unit :=
  modify (λ e, set_interfaces
    (filter (λ i, ¬ expired i)
       (match intf with Some h => reset h <$> interfaces e | None => interfaces e end)) e).

(** ** IpmiController *)

Definition find_interface (h : nat) (e : Env) : option Interface :=
  snd <$> list_find (λ i, handle i = h) (interfaces e).

(** [interface->...] of the pointer the controller holds. *)
Definition the_interface : M System Interface :=
  s ← get;
  match interface (controller s) with
  | None => throw undefined_behaviour
  | Some h => match find_interface h (env s) with
              | None => throw undefined_behaviour
              | Some i => mret i
              end
  end.

(** [release_interface(std::move(interface))] *)
Definition release_own : M System unit :=
  s ← get;
  zoom env set_env (release_interface (interface (controller s)));;
  modify (set_interface None).

Definition check_interface_refresh : M System unit :=
  s ← get;
  let cd := connection_data (controller s) in
  if check_interface (controller s) then
    (* if "primary" data was changed, new interface is to be get *)
    match interface (controller s) with
    | Some _ => i ← the_interface; if matches (interface_data i) cd then mret tt else release_own
    | None => mret tt
    end;;
    (* get new interface *)
    s ← get;
    match interface (controller s) with
    | Some _ => mret tt
    | None =>
        i ← zoom env set_env (get_interface cd);
        modify (set_interface i);;
        if bool_decide (i = None)
        then throw (runtime_error ("Interface " ++ get_interface_type cd ++ " cannot be built!"))
        else mret tt
    end;;
    (* Interface matches the connection data, config settings for both must match *)
    i ← the_interface;
    if config_equals (interface_data i) cd then modify (set_check false)
    else
      release_own;;
      throw (runtime_error ("Interface " ++ get_interface_type cd ++ " with different config!"))
  else mret tt.

Definition zoom_world {A} (m : M W A) : M System A :=
  zoom (λ s, world (env s)) (λ w s, set_env (set_world w (env s)) s) m.

Definition do_send {A} (request : Request) (via : BridgeInfo) (response : Response A) : M System A :=
  check_interface_refresh;;
  try_catch
    (req_buffer ← lift (do_pack request);
     i ← the_interface;
     resp_buffer ← zoom_world (interface_send (interface_data i) (request_message request) via req_buffer);
     lift (do_unpack response resp_buffer))
    (λ e, modify (set_check true);; throw e).

(** The two overloads of [send]. *)
Definition send_via {A} (request : Request) (via : BridgeInfo) (response : Response A) : M System A :=
  do_send request via response.
Definition send {A} (request : Request) (response : Response A) : M System A :=
  do_send request BridgeInfo_new response.

Definition close : M System unit :=
  release_own;;
  modify (set_check true).

(** [data_to_modify()] and what the caller does to the data. *)
Definition modify_data (f : CD → CD) : M System unit :=
  modify (λ s, mkSystem (mkController (f (connection_data (controller s))) true (interface (controller s))) (env s)).

End controller.

(** ** Invariants *)

Class ConnectionDataLaws (CD : Type) `{!ConnectionData CD} : Prop := {
  matches_refl (cd : CD) : matches cd cd = true;
  config_equals_refl (cd : CD) : config_equals cd cd = true;
}.

#[export] Instance lan_laws : ConnectionDataLaws LanConnectionData.
Proof.
  split; intros [? ? ? ?]; cbn; unfold lan_matches, lan_config_equals; cbn.
  - by rewrite !bool_decide_eq_true_2, Z.eqb_refl.
  - by rewrite bool_decide_eq_true_2.
Qed.

#[export] Existing Instance expired_dec.

Section invariants.
Context {W CD : Type} `{!ConnectionData CD} `{!ConnectionDataLaws CD} `{!Bus W CD}.
Implicit Types (e : @Env W CD) (s : @System W CD) (i : @Interface CD).

(** The factory: handles are distinct, every interface is held by someone, and no
    interface matches the data of a later one, so controllers with matching data share
    one interface. *)
Definition factory_inv e : Prop :=
  NoDup (handle <$> interfaces e) ∧
  Forall (λ h, (h < next_handle e)%nat) (handle <$> interfaces e) ∧
  Forall (λ i, ¬ expired i) (interfaces e) ∧
  pairwise (λ c d, matches c d = false) (interface_data <$> interfaces e).

Definition has e (h : nat) (cd : CD) : Prop :=
  ∃ i, i ∈ interfaces e ∧ handle i = h ∧ interface_data i = cd.

(** The controller: its pointer is to an interface of the factory, and unless a check is
    due, that interface is for its connection data. *)
Definition sys_inv s : Prop :=
  factory_inv (env s) ∧
  (∀ h, interface (controller s) = Some h → ∃ cd, has (env s) h cd) ∧
  (check_interface (controller s) = false →
   ∃ h cd, interface (controller s) = Some h ∧ has (env s) h cd ∧
           matches cd (connection_data (controller s)) = true ∧
           config_equals cd (connection_data (controller s)) = true).

Lemma find_interface_has e h cd :
  NoDup (handle <$> interfaces e) → has e h cd →
  ∃ i, find_interface h e = Some i ∧ interface_data i = cd.
Proof.
  intros Hnd (i & Hi & Hh & Hcd). unfold find_interface.
  destruct (list_find _ (interfaces e)) as [[k j]|] eqn:E.
  - apply list_find_Some in E as (Hj & Hjh & _). exists j. split; [done|].
    apply list_elem_of_lookup in Hi as [k' Hk'].
    assert (k = k') as ->.
    { eapply (NoDup_lookup (handle <$> interfaces e)); [done| |]; rewrite list_lookup_fmap;
        [rewrite Hj|rewrite Hk']; cbn; [by rewrite Hjh|by rewrite Hh]. }
    congruence.
  - apply list_find_None in E. rewrite list.Forall_forall in E. by destruct (E i Hi).
Qed.

Lemma the_interface_run s h cd :
  factory_inv (env s) → interface (controller s) = Some h → has (env s) h cd →
  ∃ i, the_interface s = (Ok i, s) ∧ interface_data i = cd.
Proof.
  intros (Hnd & _) Hint Hhas. destruct (find_interface_has _ _ _ Hnd Hhas) as (i & Hf & Hcd).
  exists i. split; [|done]. unfold the_interface. run_monad. by rewrite Hint, Hf.
Qed.

Lemma pairwise_sublist {A} (R : A → A → Prop) l k : sublist l k → pairwise R k → pairwise R l.
Proof.
  induction 1 as [|x l k Hlk IH|x l k Hlk IH]; [done| |by intros [_ ?]; auto].
  intros [Hx Hk]. split; [|auto]. by eapply Forall_sublist.
Qed.

(** Dropping pointers and forgetting the interfaces nobody holds. *)
Lemma release_inv intf e : factory_inv e → factory_inv (release_interface intf e).2.
Proof.
  intros (Hnd & Hlt & Hall & Hpw). unfold release_interface, modify, factory_inv. cbn.
  set (l := match intf with Some h => reset h <$> interfaces e | None => interfaces e end).
  assert (handle <$> l = handle <$> interfaces e) as Hh.
  { destruct intf as [h|]; [|done]. unfold l. rewrite <- list_fmap_compose.
    apply list_fmap_ext; intros; cbn; unfold reset; by case_bool_decide. }
  assert (interface_data <$> l = interface_data <$> interfaces e) as Hd.
  { destruct intf as [h|]; [|done]. unfold l. rewrite <- list_fmap_compose.
    apply list_fmap_ext; intros; cbn; unfold reset; by case_bool_decide. }
  pose proof (sublist_filter (λ i : Interface, ¬ expired i) l) as Hsub.
  rewrite <- Hh in Hnd, Hlt. rewrite <- Hd in Hpw. split_and!.
  - eapply sublist_NoDup; [done|]. by apply fmap_sublist.
  - eapply Forall_sublist; [|done]. by apply fmap_sublist.
  - apply list.Forall_forall. by intros i [? _]%list_elem_of_filter.
  - eapply pairwise_sublist; [|done]. by apply fmap_sublist.
Qed.

(** Getting an interface: the factory gives one that matches, old pointers stay good. *)
Lemma get_interface_inv cd :
  triple factory_inv (get_interface cd)
    (λ r e', factory_inv e' ∧
             match r with Some h => ∃ cd', has e' h cd' ∧ matches cd' cd = true | None => True end)
    (λ _, factory_inv).
Proof.
  intros e Hinv. pose proof Hinv as (Hnd & Hlt & Hall & Hpw). unfold get_interface. run_monad.
  destruct (list_find _ _) as [[k i]|] eqn:E.
  - apply list_find_Some in E as (Hi & (_ & Hm) & _). cbn.
    assert (handle <$> (acquire (handle i) <$> interfaces e) = handle <$> interfaces e) as Hh.
    { rewrite <- list_fmap_compose. apply list_fmap_ext; intros; cbn; unfold acquire; by case_bool_decide. }
    assert (interface_data <$> (acquire (handle i) <$> interfaces e) = interface_data <$> interfaces e) as Hd.
    { rewrite <- list_fmap_compose. apply list_fmap_ext; intros; cbn; unfold acquire; by case_bool_decide. }
    split.
    + unfold factory_inv. cbn. rewrite Hh, Hd. split_and!; try done.
      apply Forall_fmap. eapply list.Forall_impl; [exact Hall|]. intros j Hj. unfold acquire, expired in *. cbn.
      by case_bool_decide.
    + exists (interface_data i). split; [|done]. exists (acquire (handle i) i). split_and!.
      * apply list_elem_of_fmap_2. by eapply list_elem_of_lookup_2.
      * unfold acquire. by rewrite bool_decide_eq_true_2.
      * unfold acquire. by rewrite bool_decide_eq_true_2.
  - destruct (has_builder _); [|done]. destruct (build_interface cd (world e)) as [[[]|x] w]; [|done].
    cbn. apply list_find_None in E. split.
    + unfold factory_inv. cbn. rewrite !fmap_app. cbn. split_and!.
      * apply list.NoDup_app. split_and!; [done| |apply NoDup_singleton].
        intros h Hh ->%list_elem_of_singleton. rewrite list.Forall_forall in Hlt. specialize (Hlt _ Hh). lia.
      * apply list.Forall_app. split; [|apply Forall_singleton; lia].
        eapply list.Forall_impl; [exact Hlt|]. cbn. lia.
      * apply list.Forall_app. split; [done|]. apply Forall_singleton. unfold expired. cbn. lia.
      * apply pairwise_app. split_and!; [done|by split; [apply Forall_nil_2|]|]. apply Forall_fmap, list.Forall_forall. intros j Hj. cbn.
        rewrite list.Forall_forall in E, Hall. apply Forall_singleton.
        destruct (matches _ _) eqn:Em; [|done]. destruct (E j Hj). split; [by apply Hall|done].
    + exists cd. split; [|apply matches_refl]. exists (mkInterface (next_handle e) cd 1). split; [|done].
      apply elem_of_app. right. by apply list_elem_of_singleton.
Qed.

Definition the_data s : CD := connection_data (controller s).
Definition due s : Prop := check_interface (controller s) = true.

(** Between the steps of a refresh the check is still due. *)
Definition refreshing (cd : CD) (I : option nat → Prop) s : Prop :=
  factory_inv (env s) ∧ due s ∧ the_data s = cd ∧ I (interface (controller s)).

Lemma release_own_run s : factory_inv (env s) →
  ∃ s', release_own s = (Ok tt, s') ∧ factory_inv (env s') ∧ interface (controller s') = None ∧
        the_data s' = the_data s ∧ check_interface (controller s') = check_interface (controller s).
Proof.
  intros Hinv. eexists. split; [done|]. cbn. split_and!; try done. by apply release_inv.
Qed.

(** ... the pointer that no longer matches is dropped ... *)
Lemma drop_stale cd s : sys_inv s → due s → the_data s = cd →
  ∃ s', (match interface (controller s) with
         | Some _ => i ← the_interface; if matches (interface_data i) cd then mret tt else release_own
         | None => mret tt
         end) s = (Ok tt, s') ∧ factory_inv (env s') ∧ due s' ∧ the_data s' = cd ∧
        (∀ h, interface (controller s') = Some h → ∃ d, has (env s') h d ∧ matches d cd = true).
Proof.
  intros (Hf & Hh & _) Hdue Hcd. destruct (interface (controller s)) as [h|] eqn:Eh.
  - destruct (Hh h eq_refl) as [d Hd]. destruct (the_interface_run s h d Hf Eh Hd) as (i & Hi & Hid).
    rewrite (bind_run _ _ _ _ _ Hi). destruct (matches (interface_data i) cd) eqn:Em.
    + exists s. split_and!; try done. intros h' [= <-]%(eq_trans (eq_sym Eh)). exists d. by rewrite <- Hid at 2.
    + destruct (release_own_run s Hf) as (s' & Hs' & ? & Hn & ? & Hc). exists s'. split_and!; try done.
      * unfold due. by rewrite Hc.
      * congruence.
      * intros h'. by rewrite Hn.
  - exists s. split_and!; try done. by rewrite Eh.
Qed.

(** ... a new one is got where there is none ... *)
Lemma get_new cd s :
  factory_inv (env s) → due s → the_data s = cd →
  (∀ h, interface (controller s) = Some h → ∃ d, has (env s) h d ∧ matches d cd = true) →
  match (match interface (controller s) with
         | Some _ => mret tt
         | None =>
             i ← zoom env set_env (get_interface cd);
             modify (set_interface i);;
             if bool_decide (i = None)
             then throw (runtime_error ("Interface " ++ get_interface_type cd ++ " cannot be built!"))
             else mret tt
         end) s with
  | (Ok _, s') => factory_inv (env s') ∧ due s' ∧ the_data s' = cd ∧
                  ∃ h d, interface (controller s') = Some h ∧ has (env s') h d ∧ matches d cd = true
  | (Throw _, s') => sys_inv s' ∧ due s' ∧ the_data s' = cd
  end.
Proof.
  intros Hf Hdue Hcd Hh. unfold due, the_data in *. destruct (interface (controller s)) as [h|] eqn:Eh.
  { destruct (Hh h eq_refl) as (d & ? & ?). cbn. eauto 10. }
  unfold mbind, M_bind, zoom. pose proof (get_interface_inv cd (env s) Hf) as Hg.
  destruct (get_interface cd (env s)) as [[[h|]|x] e']; cbn in *.
  - destruct Hg as (? & d & ? & ?). eauto 10.
  - destruct Hg as [? _]. split; [|done]. split; [done|]. cbn. split; intros; congruence.
  - split; [|done]. split; [done|]. cbn. split; intros; congruence.
Qed.

(** ... and the configuration decides. *)
Lemma refresh_spec s : sys_inv s →
  match check_interface_refresh s with
  | (Ok _, s') => sys_inv s' ∧ check_interface (controller s') = false ∧ the_data s' = the_data s
  | (Throw _, s') => sys_inv s' ∧ due s' ∧ the_data s' = the_data s
  end.
Proof.
  intros Hinv. unfold check_interface_refresh. rewrite (bind_run get _ _ _ _ eq_refl). cbv zeta.
  destruct (check_interface (controller s)) eqn:Ec; [|done].
  fold (the_data s). destruct (drop_stale (the_data s) s Hinv Ec eq_refl) as (s1 & H1 & Hf1 & Hd1 & Hc1 & Hh1).
  rewrite (bind_run _ _ _ _ _ H1), (bind_run get _ _ _ _ eq_refl).
  pose proof (get_new (the_data s) s1 Hf1 Hd1 Hc1 Hh1) as H2. unfold mbind at 1, M_bind at 1.
  destruct (match interface (controller s1) with _ => _ end s1) as [[[]|x] s2]; [|done].
  destruct H2 as (Hf2 & Hd2 & Hc2 & h & d & Hint & Hhas & Hm).
  destruct (the_interface_run s2 h d Hf2 Hint Hhas) as (i & Hi & Hid). rewrite (bind_run _ _ _ _ _ Hi).
  destruct (config_equals (interface_data i) (the_data s)) eqn:Econf.
  - cbn. split; [|done]. split; [done|]. split.
    + intros h' Hh'. cbn in *. assert (h' = h) as -> by congruence. eauto.
    + intros _. cbn. exists h, d. unfold the_data in *. rewrite Hc2. subst d. done.
  - destruct (release_own_run s2 Hf2) as (s3 & H3 & Hf3 & Hn3 & Hc3 & Hk3).
    rewrite (bind_run _ _ _ _ _ H3). unfold due in *. split; [|split; congruence].
    split; [done|]. split; intros; congruence.
Qed.

(** ** Sending *)

Lemma set_check_inv s : sys_inv s → sys_inv (set_check true s).
Proof. intros (Hf & Hh & _). split; [done|]. by split. Qed.

Lemma set_world_inv w s : sys_inv s → sys_inv (set_env (set_world w (env s)) s).
Proof. done. Qed.

(** C37: [IpmiController::send] keeps the controller and the shared interfaces
    well-formed.  When it returns, the value was unpacked from bytes that an interface
    for the controller's own connection data and configuration gave to the packed
    request, and no check is due; whenever it throws, the next send checks the interface
    again. *)
Theorem do_send_outcome {A} request via (response : Response A) s :
  sys_inv s →
  match do_send request via response s with
  | (Ok a, s') =>
      sys_inv s' ∧ check_interface (controller s') = false ∧
      ∃ cd req bytes w, do_pack request = Ok req ∧
        matches cd (the_data s) = true ∧ config_equals cd (the_data s) = true ∧
        interface_send cd (request_message request) via req w = (Ok bytes, world (env s')) ∧
        do_unpack response bytes = Ok a
  | (Throw _, s') => sys_inv s' ∧ check_interface (controller s') = true
  end.
Proof.
  intros Hinv. unfold do_send. pose proof (refresh_spec s Hinv) as Hr.
  unfold mbind at 1, M_bind at 1. destruct (check_interface_refresh s) as [[[]|x] s1]; [|naive_solver].
  destruct Hr as (Hinv1 & Hk & Hd). unfold try_catch.
  destruct (do_pack request) as [req|x] eqn:Ep; [|split; [by apply set_check_inv|done]].
  rewrite (bind_run (lift _) _ s1 req s1 eq_refl).
  destruct Hinv1 as (Hf & Hh & Hset). destruct (Hset Hk) as (h & cd & Hint & Hhas & Hm & Hc).
  destruct (the_interface_run s1 h cd Hf Hint Hhas) as (i & Hi & Hid). rewrite (bind_run _ _ _ _ _ Hi), Hid.
  unfold zoom_world, zoom, mbind, M_bind.
  destruct (interface_send cd _ via req (world (env s1))) as [[bytes|x] w] eqn:Es;
    [|split; [by apply set_check_inv|done]].
  unfold lift. destruct (do_unpack response bytes) as [a|x] eqn:Eu; [|split; [by apply set_check_inv|done]].
  split; [done|]. split; [done|]. unfold the_data in *. rewrite <- Hd. by exists cd, req, bytes, (world (env s1)).
Qed.

Lemma close_inv s : sys_inv s → sys_inv (close s).2 ∧ interface (controller (close s).2) = None.
Proof.
  intros (Hf & _). unfold close. destruct (release_own_run s Hf) as (s' & Hs' & Hf' & Hn & _).
  rewrite (bind_run _ _ _ _ _ Hs'). cbn. split; [|done]. split; [done|]. cbn. rewrite Hn. by split.
Qed.

Lemma modify_data_inv f s : sys_inv s → sys_inv (modify_data f s).2.
Proof. intros (Hf & Hh & _). split; [done|]. by split. Qed.

End invariants.

(** * Links to a device *)

(** What components that send commands use: [ipmi->send(request, via, response)]. *)
Class IpmiLink (W : Type) := link_send : ∀ A, Request → BridgeInfo → Response A → M W A.
Arguments link_send {W _} {A} request via response.

(** A device answers the packed request with bytes. *)
Class Device (D : Type) := respond : Message → BridgeInfo → list Z → D → list Z * D.

(** A link that is up hands the packed request to the device and unpacks its answer,
    and stays up. *)
Class Faithful (W D : Type) {L : IpmiLink W} {V : Device D} (up : W → Prop) (dev : W → D) : Prop :=
  faithful_send A request via (response : Response A) w bytes :
    up w → do_pack request = Ok bytes →
    ∃ w', link_send request via response w
            = (do_unpack response (respond (request_message request) via bytes (dev w)).1, w') ∧
          up w' ∧ dev w' = (respond (request_message request) via bytes (dev w)).2.

(** The device itself is a link. *)
#[export] Instance device_link (D : Type) `{V : Device D} : IpmiLink D := λ A request via response d,
  match do_pack request with
  | Ok bytes => let '(answer, d') := respond (request_message request) via bytes d in
                (do_unpack response answer, d')
  | Throw e => (Throw e, d)
  end.

#[export] Instance device_faithful (D : Type) `{V : Device D} : Faithful D D (λ _, True) id.
Proof.
  intros A request via response d bytes _ Hp. unfold link_send, device_link. rewrite Hp. cbn.
  destruct (respond _ _ _ d) as [answer d'] eqn:E. by exists d'.
Qed.

Section controller_link.
Context {W CD D : Type} `{!ConnectionData CD} `{!ConnectionDataLaws CD} `{!Bus W CD} `{!Device D}.
Variable bus_up : W → Prop.
Variable bus_dev : W → D.

(** A bus whose interfaces reach the device. *)
Hypothesis bus_sends : ∀ (cd : CD) m via bytes w, bus_up w →
  ∃ w', interface_send cd m via bytes w = (Ok (respond m via bytes (bus_dev w)).1, w') ∧
        bus_up w' ∧ bus_dev w' = (respond m via bytes (bus_dev w)).2.

#[local] Instance controller_link : IpmiLink (@System W CD) := λ A, do_send.

(** The controller has an interface for its data. *)
Definition connected (s : @System W CD) : Prop :=
  sys_inv s ∧ bus_up (world (env s)) ∧
  ∃ h cd, interface (controller s) = Some h ∧ has (env s) h cd ∧
          matches cd (the_data s) = true ∧ config_equals cd (the_data s) = true.

Lemma refresh_connected s : connected s → check_interface_refresh s = (Ok tt, set_check false s).
Proof.
  intros ((Hf & _) & _ & h & cd & Hint & Hhas & Hm & Hc). unfold check_interface_refresh, the_data in *.
  rewrite (bind_run get _ _ _ _ eq_refl). cbv zeta. destruct (check_interface (controller s)) eqn:Ek.
  - destruct (the_interface_run s h cd Hf Hint Hhas) as (i & Hi & Hid).
    rewrite (bind_run _ _ s tt s) by (rewrite Hint, (bind_run _ _ _ _ _ Hi), Hid, Hm; done).
    rewrite (bind_run get _ _ _ _ eq_refl), (bind_run _ _ s tt s) by by rewrite Hint.
    by rewrite (bind_run _ _ _ _ _ Hi), Hid, Hc.
  - destruct s as [[??] e]. cbn in *. by subst.
Qed.

Lemma connected_check b s : connected s → connected (set_check b s).
Proof.
  intros ((Hf & Hh & Hs) & Hup & Hc). split; [|done]. split; [done|]. split; [done|]. by intros _.
Qed.

Lemma connected_world w s : connected s → bus_up w → connected (set_env (set_world w (env s)) s).
Proof. intros (Hi & _ & Hc) Hup. by split. Qed.

(** The controller is a faithful link as long as its interface is for its data, also
    after a response that was rejected. *)
#[export] Instance controller_faithful : Faithful (@System W CD) D connected (λ s, bus_dev (world (env s))).
Proof.
  intros A request via response s bytes Hcon Hp. unfold link_send, controller_link, do_send.
  rewrite (bind_run _ _ _ _ _ (refresh_connected s Hcon)). apply (connected_check false) in Hcon.
  change (world (env s)) with (world (env (set_check false s))).
  generalize dependent (set_check false s). clear s. intros s Hcon.
  pose proof Hcon as ((Hf & _) & Hup & h & cd & Hint & Hhas & _).
  destruct (the_interface_run s h cd Hf Hint Hhas) as (i & Hi & Hid).
  destruct (bus_sends cd (request_message request) via bytes (world (env s)) Hup) as (w & Hw & Hupw & Hdw).
  unfold try_catch. rewrite Hp, (bind_run (lift _) _ s bytes s eq_refl), (bind_run _ _ _ _ _ Hi), Hid.
  unfold zoom_world, zoom, mbind, M_bind. rewrite Hw. unfold lift.
  pose proof (connected_world w s Hcon Hupw) as Hcw.
  destruct (do_unpack _ _) as [a|x].
  - eexists. split; [done|]. split; [exact Hcw|exact Hdw].
  - eexists. split; [done|]. split; [exact (connected_check true _ Hcw)|exact Hdw].
Qed.

End controller_link.

(** ** A bus straight to a device *)

#[export] Instance device_bus (D : Type) `{V : Device D} : Bus D LanConnectionData := {
  has_builder type := bool_decide (type = LAN_INTF_TYPE);
  build_interface _ := mret tt;
  interface_send _ m via bytes d := let '(answer, d') := respond m via bytes d in (Ok answer, d');
}.

(** A controller that has not sent anything yet, and an empty factory. *)
Definition fresh {W CD} (cd : CD) (w : W) : System := mkSystem (mkController cd true None) (mkEnv [] 0 w).

Lemma fresh_inv {W CD} `{!ConnectionData CD} (cd : CD) (w : W) : sys_inv (fresh cd w).
Proof. split; [|done]. split_and!; [apply NoDup_nil_2|apply Forall_nil_2|apply Forall_nil_2|done]. Qed.

(** A device that answers every request with a completion code and its own bytes. *)
Definition echo : Device unit := λ _ _ bytes d, (0 :: bytes, d).

Lemma do_send_outcome_witness :
  let s := fresh (mkLan "10.0.0.1" 623 "root" "pw") tt in
  match @do_send unit _ _ (device_bus unit (V := echo)) (list Z)
          (mkRequest (Message_new 10 17) (λ data, Ok (data ++ [7]))) BridgeInfo_new
          (mkResponse (Message_new 10 17) 2 (λ _, None) (λ data, Ok (drop 1 data))) s with
  | (Ok a, s') => a = [7] ∧ check_interface (controller s') = false
  | (Throw _, _) => False
  end.
Proof.
  intros s. pose proof (@do_send_outcome unit _ _ _ (device_bus unit (V := echo)) (list Z)
    (mkRequest (Message_new 10 17) (λ data, Ok (data ++ [7]))) BridgeInfo_new
    (mkResponse (Message_new 10 17) 2 (λ _, None) (λ data, Ok (drop 1 data))) s (fresh_inv _ _)) as H.
  destruct (do_send _ _ _ s) as [[a|x] s'] eqn:E; vm_compute in E; [|done].
  injection E as <- _. destruct H as (_ & Hk & _). split; [done|exact Hk].
Defined.

End Ipmi.
