(* ===== verification/FruReader.v ===== *)
(** Reading the FRU information of a device over IPMI: the commands Get FRU Inventory
    Area Info and Read FRU Data (PSME/common/ipmi) and [FruReader] of the RMM agent
    (PSME/agent/rmm/src/utils/fru_reader.cpp), which reads the blob in chunks with
    retries and hands it to the FRU parser.

    [read_and_parse] is written against [IpmiLink]; [fru_is_read] shows that over a
    faithful link (the IPMI controller is one) to a device with a laid out blob it
    returns [true] and holds the device's own strings.  The outer loop of
    [read_fru_data] has no bound of its own: [dead_device_never_ends] shows that it does
    not end when the device keeps failing, so the loop has fuel, and
    [read_fru_data_reads] says how much is enough. *)

From Stdlib Require Import ZArith Lia.
From S2P Require Import Prelude Hoare Fru Ipmi.
Import Ipmi.

Local Open Scope Z_scope.

Module FruReader.

(** * Commands *)

Definition NetFn_STORAGE : Z := 0x0A.
Definition Cmd_GET_FRU_INVENTORY_AREA_INFO : Z := 0x10.
Definition Cmd_READ_FRU_DATA : Z := 0x11.

Inductive FruAccessMode := BYTE | WORD.

#[export] Instance FruAccessMode_eq_dec : EqDecision FruAccessMode.
Proof. solve_decision. Defined.

(** [request::GetFruInventoryAreaInfo] *)
Definition GetFruInventoryAreaInfo_req (device_id : Z) : Request :=
  mkRequest (Message_new NetFn_STORAGE Cmd_GET_FRU_INVENTORY_AREA_INFO) (λ data, mret (data ++ [device_id])).

(** [response::GetFruInventoryAreaInfo]: the size and the access mode. *)
Definition GetFruInventoryAreaInfo_rsp : Response (Z * FruAccessMode) :=
  mkResponse (Message_new NetFn_STORAGE Cmd_GET_FRU_INVENTORY_AREA_INFO) 4 (λ _, None) (λ data,
    lsb ← index data 1;
    msb ← index data 2;
    mode ← index data 3;
    mret (wrap 16 (lsb + Z.shiftl msb 8), if Z.land mode 1 =? 0 then BYTE else WORD)).

(** [request::ReadFruData] *)
Definition ReadFruData_req (device_id offset count : Z) : Request :=
  mkRequest (Message_new NetFn_STORAGE Cmd_READ_FRU_DATA) (λ data,
    mret (data ++ [device_id; wrap 8 (Z.land offset 0xFF); wrap 8 (Z.shiftr offset 8); count])).

(** [for (i = 0; i < count; ++i) m_data.push_back(data[OFFSET_DATA + i])] *)
Fixpoint read_bytes (count i : nat) (data : list Z) : result (list Z) :=
  match count with
  | O => mret []
  | S count' =>
      b ← index data (2 + i);
      rest ← read_bytes count' (S i) data;
      mret (b :: rest)
  end.

(** [response::ReadFruData] *)
Definition ReadFruData_rsp : Response (list Z) :=
  mkResponse (Message_new NetFn_STORAGE Cmd_READ_FRU_DATA) 2 (λ _, None) (λ data,
    count ← index data 1;
    read_bytes (Z.to_nat count) 0 data).

(** * FruReader *)

Record FruReader := mkFruReader {
  m_data : list Z;
  m_serial_number : list Z;
  m_part_number : list Z;
  m_model : list Z;
  m_manufacturer : list Z;
}.

Definition FruReader_new : FruReader := mkFruReader [] [] [] [] [].

Definition set_data (d : list Z) (r : FruReader) : FruReader :=
  mkFruReader d (m_serial_number r) (m_part_number r) (m_model r) (m_manufacturer r).

(** Characters and strings. *)
Definition space : Z := 32.

Fixpoint drop_spaces (s : list Z) : list Z :=
  match s with
  | c :: s' => if c =? space then drop_spaces s' else s
  | [] => []
  end.

(** From the first character that is not a space to the last. *)
Definition strip_spaces (str : list Z) : list Z := reverse (drop_spaces (reverse (drop_spaces str))).

(** [data[i]] for [i < size], the zero bytes left out. *)
Definition get_null_terminated_string (data : list Z) (size : Z) : result (list Z) :=
  if (Z.to_nat size <=? length data)%nat
  then mret (strip_spaces (filter (λ c, c ≠ 0) (take (Z.to_nat size) data)))
  else Throw undefined_behaviour.

Definition MAX_BYTES_TO_READ : Z := 0x1C.
Definition MAX_TRIES : nat := 5.

Section reader.
Context {W : Type} `{!IpmiLink W} `{!Fru.SafeString}.

Definition get_fru_size (bridge_info : BridgeInfo) (device_id : Z) : M W Z :=
  '(size, mode) ← link_send (GetFruInventoryAreaInfo_req device_id) bridge_info GetFruInventoryAreaInfo_rsp;
  if bool_decide (mode ≠ BYTE) then throw (runtime_error "Invalid alignment of the fru info offsets")
  else mret size.

(** The reader with the controller it was given. *)
Record State := mkState { reader : FruReader; ipmi : W }.

Definition set_reader (r : FruReader) (s : State) : State := mkState r (ipmi s).
Definition set_ipmi (w : W) (s : State) : State := mkState (reader s) w.

(** One try of a chunk: what [bytes_read] is after it. *)
Definition try_chunk (bridge_info : BridgeInfo) (device_id bytes_read count : Z) : M State Z :=
  read_data ← zoom ipmi set_ipmi (link_send (ReadFruData_req device_id bytes_read count) bridge_info ReadFruData_rsp);
  modify (λ s, set_reader (set_data (m_data (reader s) ++ read_data) (reader s)) s);;
  mret (wrap 16 (bytes_read + Z.of_nat (length read_data))).

(** [for (i = 0; i < MAX_TRIES; ++i)]: a runtime error is logged and tried again. *)
Fixpoint chunk_tries (n : nat) (bridge_info : BridgeInfo) (device_id bytes_read count : Z) : M State Z :=
  match n with
  | O => mret bytes_read
  | S n' =>
      try_catch (try_chunk bridge_info device_id bytes_read count)
        (λ e, if is_runtime_error e then chunk_tries n' bridge_info device_id bytes_read count else throw e)
  end.

(** [while (bytes_read < total_bytes)] *)
Fixpoint read_loop (fuel : nat) (bridge_info : BridgeInfo) (device_id total_bytes bytes_read bytes_to_read : Z)
    : M State unit :=
  match fuel with
  | O => throw out_of_fuel
  | S fuel' =>
      if bytes_read <? total_bytes then
        let bytes_to_read :=
          if bytes_to_read >? total_bytes - bytes_read then wrap 16 (total_bytes - bytes_read)
          else bytes_to_read in
        bytes_read ← chunk_tries MAX_TRIES bridge_info device_id bytes_read (wrap 8 bytes_to_read);
        read_loop fuel' bridge_info device_id total_bytes bytes_read bytes_to_read
      else mret tt
  end.

Definition read_fru_data (fuel : nat) (bridge_info : BridgeInfo) (device_id total_bytes : Z) : M State unit :=
  modify (λ s, set_reader (set_data [] (reader s)) s);;
  read_loop fuel bridge_info device_id total_bytes 0 MAX_BYTES_TO_READ.

Definition parse_fru_data : M FruReader unit :=
  r ← get;
  _ ← lift (index (m_data r) 0);
  parser ← lift (Fru.FruEepromParser_new (Some (m_data r)));
  let '(outcome, parser) := Fru.parse parser in
  lift outcome;;
  let board := Fru.m_board parser in
  let string_of f := get_null_terminated_string (Fru.data f) (Fru.data_len f) in
  serial ← lift (string_of (Fru.board_serial_number board));
  modify (λ r, mkFruReader (m_data r) serial (m_part_number r) (m_model r) (m_manufacturer r));;
  part ← lift (string_of (Fru.board_part_number board));
  modify (λ r, mkFruReader (m_data r) (m_serial_number r) part (m_model r) (m_manufacturer r));;
  model ← lift (string_of (Fru.board_product_name board));
  modify (λ r, mkFruReader (m_data r) (m_serial_number r) (m_part_number r) model (m_manufacturer r));;
  manufacturer ← lift (string_of (Fru.board_manufacturer board));
  modify (λ r, mkFruReader (m_data r) (m_serial_number r) (m_part_number r) (m_model r) manufacturer).

(** [catch (...)]: what is not an exception of the program goes through. *)
Definition is_exception (e : exn) : bool :=
  match e with undefined_behaviour | out_of_fuel => false | _ => true end.

Definition read_and_parse (fuel : nat) (bridge_info : BridgeInfo) (device_id : Z) : M State bool :=
  try_catch
    (fru_size ← zoom ipmi set_ipmi (get_fru_size bridge_info device_id);
     read_fru_data fuel bridge_info device_id fru_size;;
     zoom reader set_reader parse_fru_data;;
     mret true)
    (λ e, if is_exception e then mret false else throw e).

End reader.

(** * A device with FRU information *)

(** The device answers the two commands from its blob. *)
Definition fru_device {D} `{Device D} (blob : list Z) (device_id : Z) (via : BridgeInfo) (d : D) : Prop :=
  respond (Message_new NetFn_STORAGE Cmd_GET_FRU_INVENTORY_AREA_INFO) via [device_id] d
    = ([0; Z.of_nat (length blob) mod 256; Z.of_nat (length blob) / 256; 0], d) ∧
  ∀ offset count : nat, (0 < count ≤ 28)%nat → (offset + count ≤ length blob)%nat →
    respond (Message_new NetFn_STORAGE Cmd_READ_FRU_DATA) via
      [device_id; Z.of_nat offset mod 256; Z.of_nat offset / 256; Z.of_nat count] d
    = (0 :: Z.of_nat count :: slice offset count blob, d).

Lemma read_bytes_slice n i data :
  (2 + i + n ≤ length data)%nat → read_bytes n i data = Ok (slice (2 + i) n data).
Proof.
  revert i. induction n as [|n IH]; intros i Hl; [done|]. cbn [read_bytes].
  destruct (lookup_lt_is_Some_2 data (2 + i)) as [b Hb]; [lia|].
  unfold index. rewrite Hb. cbn [mbind result_bind]. rewrite IH by lia.
  unfold slice. by rewrite (drop_S data b (2 + i) Hb).
Qed.

Lemma offset_bytes n : (Z.of_nat n < 65536) →
  wrap 8 (Z.land (Z.of_nat n) 0xFF) = Z.of_nat n mod 256 ∧ wrap 8 (Z.shiftr (Z.of_nat n) 8) = Z.of_nat n / 256.
Proof.
  intros Hn. change 0xFF with (Z.ones 8). rewrite Z.land_ones, Z.shiftr_div_pow2 by lia.
  unfold wrap. zpow. split; dlia.
Qed.

Lemma drop_spaces_nil s : Forall (λ c, c = space) s → drop_spaces s = [].
Proof. induction 1 as [|c s -> Hs IH]; [done|]. by rewrite <- IH. Qed.

Section correct.
Context {W D : Type} {L : IpmiLink W} {V : Device D} {up : W → Prop} {dev : W → D}.
Context {HF : Faithful W D up dev} {C : Fru.SafeString} {HC : Fru.SafeStringLaws C}.
Variables (blob : list Z) (device_id : Z) (via : BridgeInfo).
Hypothesis short : Z.of_nat (length blob) < 65536.

Definition ready (s : State) : Prop := up (ipmi s) ∧ fru_device blob device_id via (dev (ipmi s)).

Lemma get_fru_size_run s : ready s →
  ∃ w', get_fru_size via device_id (ipmi s) = (Ok (Z.of_nat (length blob)), w') ∧ ready (set_ipmi w' s).
Proof.
  intros [Hup [Hsize Hread]]. unfold get_fru_size.
  destruct (faithful_send _ (GetFruInventoryAreaInfo_req device_id) via GetFruInventoryAreaInfo_rsp
    (ipmi s) [device_id] Hup eq_refl) as (w' & Hw & Hup' & Hdev).
  cbn [request_message GetFruInventoryAreaInfo_req] in Hw, Hdev. rewrite Hsize in Hw, Hdev.
  exists w'. split; [|split; [done|]; cbn; rewrite Hdev; done].
  rewrite (bind_run _ _ _ _ _ Hw). change (Z.land 0 1 =? 0) with true. cbv iota.
  rewrite bool_decide_eq_false_2 by naive_solver. unfold mret, M_ret. do 2 f_equal.
  rewrite Z.shiftl_mul_pow2 by lia. unfold wrap. zpow. dlia.
Qed.

Lemma try_chunk_run s offset count :
  ready s → (0 < count ≤ 28)%nat → (offset + count ≤ length blob)%nat →
  ∃ s', try_chunk via device_id (Z.of_nat offset) (Z.of_nat count) s = (Ok (Z.of_nat (offset + count)), s') ∧
        ready s' ∧ reader s' = set_data (m_data (reader s) ++ slice offset count blob) (reader s).
Proof.
  intros [Hup Hdev] Hc Ho. pose proof Hdev as [_ Hread].
  destruct (offset_bytes offset) as [Hlo Hhi]; [lia|]. unfold try_chunk.
  edestruct (faithful_send _ (ReadFruData_req device_id (Z.of_nat offset) (Z.of_nat count)) via ReadFruData_rsp
    (ipmi s)) as (w' & Hw & Hup' & Hd'); [exact Hup|by cbn; rewrite Hlo, Hhi|].
  cbn [request_message ReadFruData_req] in Hw, Hd'. rewrite Hread in Hw, Hd' by done.
  pose proof (length_slice offset count blob Ho) as Hlen.
  cbn [fst snd] in Hw, Hd'. rewrite do_unpack_run in Hw by (cbn; lia || done).
  change (unpack ReadFruData_rsp (0 :: ?c :: ?xs))
    with (read_bytes (Z.to_nat c) 0 (0 :: c :: xs)) in Hw.
  rewrite Nat2Z.id, read_bytes_slice in Hw by (cbn [length]; lia).
  assert (slice (2 + 0) count (0 :: Z.of_nat count :: slice offset count blob) = slice offset count blob) as Hsl.
  { unfold slice at 1. cbn [drop Nat.add]. apply take_ge. lia. }
  rewrite Hsl in Hw. unfold zoom, mbind, M_bind. rewrite Hw. cbn. eexists. split; [|split].
  - rewrite Hlen, wrap_small; [by rewrite Nat2Z.inj_add|]. unfold in_range. zpow. lia.
  - split; [done|]. cbn. by rewrite Hd'.
  - done.
Qed.

(** The loop reads the rest of the blob, chunk after chunk. *)
Lemma read_loop_run fuel : ∀ s (n b : nat),
  ready s → m_data (reader s) = take n blob → (n ≤ length blob)%nat → (0 < b ≤ 28)%nat →
  (length blob - n < fuel)%nat →
  ∃ s', read_loop fuel via device_id (Z.of_nat (length blob)) (Z.of_nat n) (Z.of_nat b) s = (Ok tt, s') ∧
        ready s' ∧ reader s' = set_data blob (reader s).
Proof.
  induction fuel as [|fuel IH]; intros s n b Hs Hd Hn Hb Hfuel; [lia|]. cbn [read_loop].
  destruct (Z.ltb_spec (Z.of_nat n) (Z.of_nat (length blob))) as [Hlt|Hge].
  - pose (c := Nat.min b (length blob - n)).
    assert ((if Z.of_nat b >? Z.of_nat (length blob) - Z.of_nat n
             then wrap 16 (Z.of_nat (length blob) - Z.of_nat n) else Z.of_nat b) = Z.of_nat c) as ->.
    { destruct (Z.gtb_spec (Z.of_nat b) (Z.of_nat (length blob) - Z.of_nat n)); [|lia].
      rewrite wrap_small; [lia|]. unfold in_range. zpow. lia. }
    cbv zeta. rewrite (wrap_small 8 (Z.of_nat c)) by (unfold in_range; zpow; lia).
    destruct (try_chunk_run s n c Hs) as (s1 & Hrun & Hs1 & Hr1); [lia..|].
    assert (chunk_tries MAX_TRIES via device_id (Z.of_nat n) (Z.of_nat c) s = (Ok (Z.of_nat (n + c)), s1)) as Ht.
    { cbn [chunk_tries MAX_TRIES]. unfold try_catch. by rewrite Hrun. }
    rewrite (bind_run _ _ _ _ _ Ht).
    destruct (IH s1 (n + c)%nat c) as (s' & Hrun' & Hs' & Hr'); [done| |lia..|].
    { rewrite Hr1. cbn. rewrite Hd. apply slice_take_app. lia. }
    exists s'. split; [done|]. split; [done|]. rewrite Hr', Hr1. done.
  - exists s. split; [done|]. split; [done|]. destruct s as [[] w]. cbn in *. unfold set_data. cbn.
    f_equal. rewrite Hd. rewrite take_ge by lia. done.
Qed.

Lemma read_fru_data_reads fuel s :
  ready s → (length blob < fuel)%nat →
  ∃ s', read_fru_data fuel via device_id (Z.of_nat (length blob)) s = (Ok tt, s') ∧ ready s' ∧
        reader s' = set_data blob (reader s).
Proof.
  intros Hs Hf. unfold read_fru_data.
  destruct (read_loop_run fuel (set_reader (set_data [] (reader s)) s) 0 28) as (s' & Hrun & Hs' & Hr);
    [done..|lia|lia|lia|].
  exists s'. split; [|done]. by erewrite bind_run by done.
Qed.

(** The strings that the reader shows. *)
Lemma string_of_held fld f : Fru.field_ok f → Fru.holds fld f →
  get_null_terminated_string (Fru.data fld) (Fru.data_len fld) = Ok (strip_spaces f.2).
Proof.
  intros (_ & Hl & Hnz) (Hlen & Htake & Hwf). unfold get_null_terminated_string. rewrite Hlen, Nat2Z.id.
  unfold Fru.wf_field, Fru.AREA_FIELD_MAX_SIZE in Hwf.
  rewrite (proj2 (Nat.leb_le _ _)) by lia. by rewrite Htake, filter_all.
Qed.

Lemma parse_fru_data_run r x :
  m_data r = blob → Fru.laid_out blob x →
  let '(manufacturer, product, serial, part, _) := Fru.x_board x in
  parse_fru_data r = (Ok tt, mkFruReader blob (strip_spaces serial.2) (strip_spaces part.2)
                               (strip_spaces product.2) (strip_spaces manufacturer.2)).
Proof.
  intros Hr Hlaid. pose proof Hlaid as (iu & oc & ob & op & mr & pd & cs & lc & lb' & lp & Hh & _ & _ & _ & _ & Hok).
  apply list.Forall_app in Hok as [_ Hok]. apply list.Forall_app in Hok as [Hok _].
  unfold parse_fru_data. run_monad. rewrite Hr.
  assert (∃ b, index blob 0 = Ok b) as [b ->].
  { pose proof (Fru.placed_inside _ _ _ _ Hh) as Hin. unfold index.
    destruct blob as [|b ?]; [cbn in Hin; lia|]. by exists b. }
  destruct (Fru.FruEepromParser_new (Some blob)) as [p|] eqn:Hp; [|done].
  destruct (Fru.parse_laid_out_board blob p x Hp Hlaid) as (p' & lb & -> & _ & _ & _ & Hf).
  unfold Fru.board_fields in *. destruct (Fru.x_board x) as [[[[m n] sn] pn] fi].
  rewrite !list.Forall_cons in Hok. destruct Hok as (Hk1 & Hk2 & Hk3 & Hk4 & _).
  rewrite !list.Forall2_cons in Hf. destruct Hf as (Hf1 & Hf2 & Hf3 & Hf4 & _).
  rewrite (string_of_held _ _ Hk3 Hf3), (string_of_held _ _ Hk4 Hf4), (string_of_held _ _ Hk2 Hf2).
  rewrite (string_of_held _ _ Hk1 Hf1).
  cbn. by rewrite Hr.
Qed.

(** The composition of the link, the commands, the loop and the parser. *)
Lemma read_and_parse_run fuel s x :
  ready s → Fru.laid_out blob x → (length blob < fuel)%nat →
  let '(manufacturer, product, serial, part, _) := Fru.x_board x in
  ∃ s', read_and_parse fuel via device_id s = (Ok true, s') ∧
        reader s' = mkFruReader blob (strip_spaces serial.2) (strip_spaces part.2)
                      (strip_spaces product.2) (strip_spaces manufacturer.2).
Proof.
  intros Hs Hx Hf. destruct (Fru.x_board x) as [[[[m n] sn] pn] fi] eqn:Ex.
  destruct (get_fru_size_run s Hs) as (w & Hw & Hs1).
  destruct (read_fru_data_reads fuel _ Hs1 Hf) as (s2 & H2 & _ & Hr2).
  pose proof (parse_fru_data_run (reader s2) x ltac:(by rewrite Hr2) Hx) as H3. rewrite Ex in H3.
  unfold read_and_parse, try_catch. rewrite (bind_run _ _ _ _ _ (Fru.zoom_run _ _ _ _ _ _ Hw)).
  rewrite (bind_run _ _ _ _ _ H2), (bind_run _ _ _ _ _ (Fru.zoom_run _ _ _ _ _ _ H3)).
  eexists. split; [done|]. done.
Qed.

End correct.

(** C36: over a faithful link to a device whose FRU information is laid out as
    [Fru.laid_out] says, [FruReader::read_and_parse] ends, returns true, and holds the
    whole blob and the serial number, part number, model and manufacturer of the board
    area, with the spaces around them removed; enough fuel is one more than the bytes of
    the blob. The layout is that of the specification with all of the chassis, board and
    product areas present, each at an offset and of a length below 256 bytes: the parser
    keeps both in eight bits and misreads areas beyond. *)
Theorem fru_is_read {W D : Type} {L : IpmiLink W} {V : Device D} (up : W → Prop) (dev : W → D)
    {HF : Faithful W D up dev} {C : Fru.SafeString} {HC : Fru.SafeStringLaws C}
    blob device_id via fuel s x :
  up (ipmi s) → fru_device blob device_id via (dev (ipmi s)) → Z.of_nat (length blob) < 65536 →
  Fru.laid_out blob x → (length blob < fuel)%nat →
  let '(manufacturer, product, serial, part, _) := Fru.x_board x in
  ∃ s', read_and_parse fuel via device_id s = (Ok true, s') ∧
        reader s' = mkFruReader blob (strip_spaces serial.2) (strip_spaces part.2)
                      (strip_spaces product.2) (strip_spaces manufacturer.2).
Proof. intros Hup Hdev Hshort Hx Hf. apply (read_and_parse_run (up := up) (dev := dev)); done. Qed.

(** ** A device made of its blob, behind the controller *)

Definition blob_device : Device (list Z) := λ m _ bytes blob,
  match bytes with
  | [_] => ([0; Z.of_nat (length blob) mod 256; Z.of_nat (length blob) / 256; 0], blob)
  | [_; lo; hi; count] => (0 :: count :: slice (Z.to_nat (lo + 256 * hi)) (Z.to_nat count) blob, blob)
  | _ => ([0xC1], blob)
  end.

Lemma blob_device_ok blob device_id via : @fru_device _ blob_device blob device_id via blob.
Proof.
  split; [done|]. intros offset count _ _. unfold respond, blob_device. do 3 f_equal.
  rewrite Nat2Z.id. f_equal. rewrite <- (Nat2Z.id offset) at 3. f_equal. dlia.
Qed.

Definition sample_lan : LanConnectionData := mkLan "10.0.0.1" 623 "root" "pw".

(** A controller that holds an interface to the device with the sample blob. *)
Definition sample_state : State :=
  mkState FruReader_new
    (mkSystem (mkController sample_lan true (Some 0%nat)) (mkEnv [mkInterface 0 sample_lan 1] 1 Fru.sample_blob)).

Lemma fru_is_read_witness :
  ∃ s', @read_and_parse _ (@controller_link _ _ _ (device_bus _ (V := blob_device))) Fru.safe_string
          193 BridgeInfo_new 0 sample_state = (Ok true, s') ∧
        m_manufacturer (reader s') = chars "Company".
Proof.
  pose (bus := device_bus (list Z) (V := blob_device)).
  assert (∀ (cd : LanConnectionData) m via bytes (w : list Z), True →
    ∃ w', interface_send cd m via bytes w = (Ok (@respond _ blob_device m via bytes w).1, w') ∧
          True ∧ w' = (@respond _ blob_device m via bytes w).2) as Hbus.
  { intros cd m via bytes w _. cbn. destruct (respond m via bytes w) as [a d]. by exists d. }
  pose proof (@controller_faithful (list Z) LanConnectionData (list Z) _ bus blob_device
    (λ _, True) id Hbus) as HF.
  destruct (@fru_is_read _ _ _ blob_device _ _ HF Fru.safe_string Fru.safe_string_laws
    Fru.sample_blob 0 BridgeInfo_new 193 sample_state Fru.sample) as (s' & Hs' & Hr).
  - split; [|split; [done|]].
    + split; [|split].
      * split_and!; [apply NoDup_singleton|apply Forall_singleton; cbn; lia|by apply Forall_singleton|].
        by split; [apply Forall_nil_2|].
      * intros h [= <-]. exists sample_lan, (mkInterface 0 sample_lan 1). by split; [apply list_elem_of_here|].
      * done.
    + exists 0%nat, sample_lan. split; [done|]. split; [|by split].
      exists (mkInterface 0 sample_lan 1). by split; [apply list_elem_of_here|].
  - apply blob_device_ok.
  - by vm_compute.
  - apply Fru.sample_laid_out.
  - vm_compute. lia.
  - exists s'. split; [exact Hs'|]. rewrite Hr. reflexivity.
Defined.

(** ** No bound on the tries *)

Section dead.
Context {W : Type} {L : IpmiLink W}.
Variables (via : BridgeInfo) (device_id : Z).
Hypothesis dead : ∀ offset count w, ∃ e w',
  link_send (ReadFruData_req device_id offset count) via ReadFruData_rsp w = (Throw e, w') ∧
  is_runtime_error e = true.

Lemma dead_tries n offset count s : ∃ s', chunk_tries n via device_id offset count s = (Ok offset, s').
Proof.
  revert s. induction n as [|n IH]; intros s; [by eexists|]. cbn [chunk_tries].
  destruct (dead offset count (ipmi s)) as (e & w & He & Hr).
  assert (try_chunk via device_id offset count s = (Throw e, set_ipmi w s)) as Ht.
  { unfold try_chunk. apply bind_throw. unfold zoom. by rewrite He. }
  unfold try_catch. rewrite Ht, Hr. apply IH.
Qed.

(** The tries of a chunk are counted, the chunks that failed are not: when the device
    keeps failing, the loop of [read_fru_data] does not end. *)
Theorem dead_device_never_ends fuel total s :
  0 < total → (read_fru_data fuel via device_id total s).1 = Throw out_of_fuel.
Proof.
  intros Ht. unfold read_fru_data. erewrite bind_run by done.
  generalize (set_reader (set_data [] (reader s)) s), MAX_BYTES_TO_READ.
  induction fuel as [|fuel IH]; intros s' b; [done|]. cbn [read_loop].
  rewrite (proj2 (Z.ltb_lt _ _)) by done. cbv zeta.
  destruct (dead_tries MAX_TRIES 0 (wrap 8 (if b >? total - 0 then wrap 16 (total - 0) else b)) s') as (s1 & H1).
  rewrite (bind_run _ _ _ _ _ H1). apply IH.
Qed.
End dead.

End FruReader.
