(* ===== verification/SelRecord.v ===== *)
(** Records of the IPMI system event log (PSME/common/ipmi/src/sel_record.cpp and
    [Sel::build]): how the sixteen bytes of a record are decoded into a record object,
    and the 64-bit patterns that the telemetry code matches events against.

    Shown here: a sensor event is decoded from exactly its bytes ([build_generic]); a
    pattern made by [event_sensor_type] matches a record exactly when the fields that the
    pattern sets agree ([is_of_type_exact]); a pattern with a mask compares the masked
    definition with the unmasked data, so [for_cpu] misses its own processor's events
    ([for_cpu_misses]). *)

From Stdlib Require Import ZArith Lia Btauto.
From S2P Require Import Prelude Ipmi.
Import Ipmi IpmiBytes.

Local Open Scope Z_scope.

Module SelRecord.

Definition OEM_RECORDS_FAMILY : Z := 0xC0.
Definition NON_TIMESTAMPED_OEM_RECORDS_FAMILY : Z := 0xE0.
Definition RECORD_ID_POS : nat := 0.
Definition RECORD_TYPE_POS : nat := 2.
Definition RECORD_TIMESTAMP_POS : nat := 3.

Definition get_id (record : list Z) : result Z := get_uint16 record RECORD_ID_POS.
Definition get_type (record : list Z) : result Z := get_uint8 record RECORD_TYPE_POS.
Definition get_timestamp (record : list Z) : result Z := get_uint32 record RECORD_TIMESTAMP_POS.
Definition has_timestamp (record : list Z) : result bool :=
  t ← get_type record; mret (t <? NON_TIMESTAMPED_OEM_RECORDS_FAMILY).
Definition is_oem (record : list Z) : result bool :=
  t ← get_type record; mret (OEM_RECORDS_FAMILY <=? t).

(** ** Event records *)

Definition RECORD_SIZE : nat := 14.
Definition EVENT_MESSAGE_REVISION_POS : nat := 9.
Definition EVENT_MESSAGE_REVISION_1_5 : Z := 0x04.
Definition EVENT_SENSOR_TYPE_POS : nat := 10.
Definition EVENT_SENSOR_NUMBER_POS : nat := 11.
Definition EVENT_DIR_POS : nat := 12.
Definition ASSERTION_EVENT_BIT : Z := 7.
Definition EVENT_TYPE_POS : nat := 12.
Definition EVENT_DATA_OFFSET_POS : nat := 13.

Definition EVENT_SENSOR_MASK : Z := 0xff.
Definition EVENT_TYPE_MASK : Z := 0x7f.
Definition EVENT_DATA_OFFSET_MASK : Z := 0x0f.
Definition SENSOR_TYPE_MASK : Z := 0xff.
Definition UNDEFINED_OFFSET : Z := 0x0f.
Definition UNDEFINED_SENSOR_NUMBER : Z := 0x00.
Definition EVENT_DATA_AVAILABLE_MASK : Z := 0x0300.
Definition EVENT_DATA_AVAILABLE_OEM : Z := 0x0200.
Definition EVENT_DATA_PLAIN_VALUE_MASK : Z := 0x00ff.
Definition EVENT_DATA_VALUE_MASK : Z := 0x03ff.
Definition EVENT_DATA_NOT_PRESENT : Z := 0x00ff.

(** The members of [SelRecordGeneric]. *)
Record Event := mkEvent {
  sensor_type : Z;
  sensor_number : Z;
  asserted : bool;
  event_type : Z;
  event_offset : Z;
  evm_revision : Z;
  event_data1 : Z;
  event_data2 : Z;
  event_data3 : Z;
}.

Definition get_event_type (record : list Z) : result Z :=
  b ← get_uint8 record EVENT_TYPE_POS; mret (Z.land b EVENT_TYPE_MASK).

Definition is_valid (record : list Z) : result unit :=
  evm_version ← get_uint8 record EVENT_MESSAGE_REVISION_POS;
  if negb (evm_version =? EVENT_MESSAGE_REVISION_1_5) then Throw (runtime_error "Invalid version")
  else if (length record <? RECORD_SIZE)%nat then Throw (runtime_error "Offset field not in the record")
  else mret tt.

Definition get_event_data (record : list Z) (pos : nat) : result Z :=
  (* if data is not available in the record, appropriate data availability should be 00b.. *)
  if (length record <? EVENT_DATA_OFFSET_POS + pos)%nat then mret EVENT_DATA_NOT_PRESENT
  else
    let shift := match pos with 2%nat => 8 - 6 | 3%nat => 8 - 4 | _ => 0 end in
    b ← get_uint8 record EVENT_DATA_OFFSET_POS;
    let data1 := wrap 16 (Z.land (Z.shiftl b shift) EVENT_DATA_AVAILABLE_MASK) in
    if data1 =? 0 then mret EVENT_DATA_NOT_PRESENT
    else
      d ← get_uint8 record (EVENT_DATA_OFFSET_POS + pos - 1);
      mret (wrap 16 (Z.lor d data1)).

Definition Event_new (record : list Z) : result Event :=
  is_valid record;;
  sensor_type ← get_uint8 record EVENT_SENSOR_TYPE_POS;
  sensor_number ← get_uint8 record EVENT_SENSOR_NUMBER_POS;
  deasserted ← is_bit_set record EVENT_DIR_POS ASSERTION_EVENT_BIT;
  event_type ← get_event_type record;
  offset ← get_uint8 record EVENT_DATA_OFFSET_POS;
  evm_revision ← get_uint8 record EVENT_MESSAGE_REVISION_POS;
  event_data1 ← get_uint8 record EVENT_DATA_OFFSET_POS;
  event_data2 ← get_event_data record 2;
  event_data3 ← get_event_data record 3;
  mret (mkEvent sensor_type sensor_number (negb deasserted) event_type
          (Z.land offset EVENT_DATA_OFFSET_MASK) evm_revision event_data1 event_data2 event_data3).

(** ** Record objects *)

(** The subclasses of [SelRecord]. *)
Inductive Body :=
  | SelRecordOem (buffer : list Z)
  | SelRecordUnspecified
  | SelRecordThreshold (e : Event)
  | SelRecordDiscrete (e : Event)
  | SelRecordSensor (e : Event)
  | SelRecordGenericOEM (e : Event).

Record SelRecord := mkSelRecord {
  id : Z;
  type : Z;
  timestamp : Z;
  only_in_memory : bool;
  body : Body;
}.

(** The constructor of the base class, before that of the subclass. *)
Definition SelRecord_new (record : list Z) (b : result Body) : result SelRecord :=
  id ← get_id record;
  type ← get_type record;
  timed ← has_timestamp record;
  timestamp ← (if timed : bool then get_timestamp record else mret 0);
  b ← b;
  mret (mkSelRecord id type timestamp false b).

Definition set_only_in_memory (r : SelRecord) : SelRecord :=
  mkSelRecord (id r) (type r) (timestamp r) true (body r).

(** [Sel::build] *)
Definition build (record : list Z) : result SelRecord :=
  oem ← is_oem record;
  if oem : bool then SelRecord_new record (mret (SelRecordOem record))
  else
    t ← get_event_type record;
    if t =? 0x00 then SelRecord_new record (mret SelRecordUnspecified)
    else if t =? 0x01 then SelRecord_new record (SelRecordThreshold <$> Event_new record)
    else if (0x02 <=? t) && (t <=? 0x0c) then SelRecord_new record (SelRecordDiscrete <$> Event_new record)
    else if t =? 0x6f then SelRecord_new record (SelRecordSensor <$> Event_new record)
    else if (0x70 <=? t) && (t <=? 0x7f) then SelRecord_new record (SelRecordGenericOEM <$> Event_new record)
    else SelRecord_new record (mret (SelRecordOem record)).

(** ** Patterns *)

Definition DATA2_BIT_POS : Z := 0.
Definition DATA3_BIT_POS : Z := 10.
Definition OFFSET_BIT_POS : Z := 20.
Definition SENSOR_TYPE_BIT_POS : Z := 24.
Definition EVENT_TYPE_BIT_POS : Z := 32.
Definition SENSOR_NUMBER_BIT_POS : Z := 40.
Definition DATA2_MASK_POS : Z := 48.
Definition DATA3_MASK_POS : Z := 56.

Definition bits (v mask pos : Z) : Z := wrap 64 (Z.shiftl (Z.land v mask) pos).

(** The four overloads of [event_sensor_type] differ in what they leave undefined. *)
Definition event_sensor_type_5 (code sensor offset data2 data3 : Z) : Z :=
  Z.lor (Z.lor (Z.lor (Z.lor (bits code EVENT_TYPE_MASK EVENT_TYPE_BIT_POS)
    (bits sensor SENSOR_TYPE_MASK SENSOR_TYPE_BIT_POS))
    (bits offset EVENT_DATA_OFFSET_MASK OFFSET_BIT_POS))
    (bits data2 EVENT_DATA_VALUE_MASK DATA2_BIT_POS))
    (bits data3 EVENT_DATA_VALUE_MASK DATA3_BIT_POS).
Definition event_sensor_type_4 (code sensor offset data2 : Z) : Z :=
  event_sensor_type_5 code sensor offset data2 EVENT_DATA_NOT_PRESENT.
Definition event_sensor_type_3 (code sensor offset : Z) : Z :=
  event_sensor_type_5 code sensor offset EVENT_DATA_NOT_PRESENT EVENT_DATA_NOT_PRESENT.
Definition event_sensor_type_2 (code sensor : Z) : Z :=
  event_sensor_type_5 code sensor UNDEFINED_OFFSET EVENT_DATA_NOT_PRESENT EVENT_DATA_NOT_PRESENT.

Definition lnot64 (x : Z) : Z := wrap 64 (Z.lnot x).

Definition oem_data (data : Z) : Z :=
  Z.land (if Z.land data EVENT_DATA_PLAIN_VALUE_MASK =? EVENT_DATA_NOT_PRESENT then EVENT_DATA_NOT_PRESENT
          else if Z.land data EVENT_DATA_AVAILABLE_MASK =? 0 then Z.lor EVENT_DATA_AVAILABLE_OEM data
          else data) EVENT_DATA_VALUE_MASK.

Definition mask_data3 (base mask : Z) : Z :=
  Z.lor (Z.land base (lnot64 (wrap 64 (Z.shiftl EVENT_DATA_PLAIN_VALUE_MASK DATA3_MASK_POS))))
    (wrap 64 (Z.shiftl (Z.land (lnot64 mask) EVENT_DATA_PLAIN_VALUE_MASK) DATA3_MASK_POS)).

Definition for_oem_data3 (base data3 : Z) : Z :=
  Z.lor (Z.land base (lnot64 (wrap 64 (Z.shiftl EVENT_DATA_VALUE_MASK DATA3_BIT_POS))))
    (wrap 64 (Z.shiftl (oem_data data3) DATA3_BIT_POS)).

Definition for_cpu (base cpu : Z) : Z :=
  mask_data3 (for_oem_data3 base (wrap 16 (Z.shiftl (Z.land cpu 0x07) 5))) 0xe0.

Definition event_data_match (definition checked : Z) : bool :=
  if negb (definition =? EVENT_DATA_NOT_PRESENT) then
    if Z.land definition EVENT_DATA_AVAILABLE_MASK =? 0
    then definition =? Z.land checked EVENT_DATA_PLAIN_VALUE_MASK
    else definition =? Z.land checked EVENT_DATA_VALUE_MASK
  else true.

Definition is_of_type (e : Event) (se_type : Z) : bool :=
  let event := wrap 8 (Z.land (Z.shiftr se_type EVENT_TYPE_BIT_POS) EVENT_TYPE_MASK) in
  let sensor := wrap 8 (Z.land (Z.shiftr se_type SENSOR_TYPE_BIT_POS) SENSOR_TYPE_MASK) in
  let sensor_num := wrap 8 (Z.land (Z.shiftr se_type SENSOR_NUMBER_BIT_POS) EVENT_SENSOR_MASK) in
  let offset := wrap 8 (Z.land (Z.shiftr se_type OFFSET_BIT_POS) EVENT_DATA_OFFSET_MASK) in
  let data2 := wrap 16 (Z.land (Z.shiftr se_type DATA2_BIT_POS) EVENT_DATA_VALUE_MASK) in
  let mask2 := wrap 16 (Z.land (Z.shiftr se_type DATA2_MASK_POS) EVENT_DATA_PLAIN_VALUE_MASK) in
  let data3 := wrap 16 (Z.land (Z.shiftr se_type DATA3_BIT_POS) EVENT_DATA_VALUE_MASK) in
  let mask3 := wrap 16 (Z.land (Z.shiftr se_type DATA3_MASK_POS) EVENT_DATA_PLAIN_VALUE_MASK) in
  if negb (event =? event_type e) then false
  else if negb (sensor =? sensor_type e) then false
  else if negb (sensor_num =? UNDEFINED_SENSOR_NUMBER) && negb (sensor_num =? sensor_number e) then false
  else if negb (offset =? UNDEFINED_OFFSET) && negb (offset =? event_offset e) then false
  else if negb (event_data_match (wrap 16 (Z.land data2 (Z.lnot mask2))) (event_data2 e)) then false
  else if negb (event_data_match (wrap 16 (Z.land data3 (Z.lnot mask3))) (event_data3 e)) then false
  else true.

(** * What is decoded *)

(** A sensor event of fourteen bytes and maybe more, in the current format. *)
Definition event_bytes (id0 id1 rtype t0 t1 t2 t3 g0 g1 stype snum dir d1 : Z) (rest : list Z) : list Z :=
  id0 :: id1 :: rtype :: t0 :: t1 :: t2 :: t3 :: g0 :: g1 :: EVENT_MESSAGE_REVISION_1_5 :: stype :: snum ::
  dir :: d1 :: rest.

(** Event data that the record has and whose availability bits are set. *)
Definition data_of (d1 shift : Z) (d : option Z) : Z :=
  let available := Z.land (Z.shiftl d1 shift) EVENT_DATA_AVAILABLE_MASK in
  match d with
  | Some v => if available =? 0 then EVENT_DATA_NOT_PRESENT else Z.lor v available
  | None => EVENT_DATA_NOT_PRESENT
  end.

Lemma land_mask x k m : 0 <= k → m = Z.ones k → Z.land x m = x mod 2 ^ k.
Proof. intros Hk ->. by apply Z.land_ones. Qed.

(** A fact about bytes that all 256 of them have. *)
Lemma byte_check (P : Z → bool) b : is_byte b → forallb P (Z.of_nat <$> seq 0 256) = true → P b = true.
Proof.
  intros Hb Hall. unfold is_byte in Hb. rewrite List.forallb_forall in Hall. apply Hall.
  apply list_elem_of_In, list_elem_of_fmap. exists (Z.to_nat b). split; [lia|].
  apply elem_of_seq. lia.
Qed.

Lemma get_uint16_le data pos b0 b1 :
  is_byte b0 → is_byte b1 → at_ data pos = Ok b0 → at_ data (pos + 1) = Ok b1 →
  get_uint16 data pos = Ok (le_val [b0; b1]).
Proof.
  intros H0 H1 E0 E1. unfold get_uint16, is_byte in *. rewrite E0, E1. cbn [mbind result_bind].
  rewrite lor_shiftl_add by (zpow; lia). cbn [le_val].
  rewrite wrap_small; [unfold mret, result_ret; f_equal; zpow; lia|unfold in_range; zpow; lia].
Qed.

Lemma get_uint32_le data pos b0 b1 b2 b3 :
  is_byte b0 → is_byte b1 → is_byte b2 → is_byte b3 →
  at_ data pos = Ok b0 → at_ data (pos + 1) = Ok b1 → at_ data (pos + 2) = Ok b2 → at_ data (pos + 3) = Ok b3 →
  get_uint32 data pos = Ok (le_val [b0; b1; b2; b3]).
Proof.
  intros H0 H1 H2 H3 E0 E1 E2 E3. unfold get_uint32, is_byte in *. rewrite E0, E1, E2, E3.
  cbn [mbind result_bind]. rewrite (lor_shiftl_add 8) by (zpow; lia).
  rewrite (lor_shiftl_add 16) by (zpow; lia). rewrite (lor_shiftl_add 24) by (zpow; lia). cbn [le_val].
  rewrite wrap_small; [unfold mret, result_ret; f_equal; zpow; lia|unfold in_range; zpow; lia].
Qed.

Lemma available_small x : wrap 16 (Z.land x EVENT_DATA_AVAILABLE_MASK) = Z.land x EVENT_DATA_AVAILABLE_MASK.
Proof.
  unfold wrap, EVENT_DATA_AVAILABLE_MASK. rewrite <- Z.land_ones by lia. rewrite <- Z.land_assoc. done.
Qed.

Lemma lor_available_small v x : is_byte v →
  wrap 16 (Z.lor v (Z.land x EVENT_DATA_AVAILABLE_MASK)) = Z.lor v (Z.land x EVENT_DATA_AVAILABLE_MASK).
Proof.
  intros Hv. unfold wrap. rewrite <- Z.land_ones by lia. rewrite Z.land_lor_distr_l.
  rewrite (Z.land_ones v) by lia. rewrite (Z.mod_small v); [|unfold is_byte in Hv; zpow; lia].
  unfold EVENT_DATA_AVAILABLE_MASK. by rewrite <- Z.land_assoc.
Qed.

Lemma Event_new_run id0 id1 rtype t0 t1 t2 t3 g0 g1 stype snum dir d1 rest :
  Forall is_byte rest →
  Event_new (event_bytes id0 id1 rtype t0 t1 t2 t3 g0 g1 stype snum dir d1 rest) =
  Ok (mkEvent stype snum (negb (Z.land dir 128 =? 128)) (Z.land dir EVENT_TYPE_MASK)
        (Z.land d1 EVENT_DATA_OFFSET_MASK) EVENT_MESSAGE_REVISION_1_5 d1
        (data_of d1 2 (rest !! 0%nat)) (data_of d1 4 (rest !! 1%nat))).
Proof.
  intros Hrest. unfold Event_new, data_of, get_event_data, event_bytes.
  destruct rest as [|r0 [|r1 rest]]; cbn -[Z.land Z.lor Z.shiftl wrap Z.eqb]; rewrite ?available_small;
    change (8 - 6) with 2; change (8 - 4) with 4; change (Z.shiftl 1 ASSERTION_EVENT_BIT) with 128.
  - done.
  - apply list.Forall_cons in Hrest as [H0 _]. rewrite lor_available_small by done.
    by destruct (_ =? 0).
  - apply list.Forall_cons in Hrest as [H0 [H1 _]%list.Forall_cons].
    rewrite !lor_available_small by done.
    by destruct (Z.land (Z.shiftl d1 2) _ =? 0), (Z.land (Z.shiftl d1 4) _ =? 0).
Qed.

(** A system event record (sixteen bytes, event message revision 4, a generic
    discrete event type) becomes a discrete record with the id, time, sensor, direction,
    type, offset and the event data bytes whose availability bits the first data byte
    sets. *)
Theorem build_discrete id0 id1 rtype t0 t1 t2 t3 g0 g1 stype snum dir d1 d2 d3 :
  Forall is_byte [id0; id1; rtype; t0; t1; t2; t3; g0; g1; stype; snum; dir; d1; d2; d3] →
  rtype < OEM_RECORDS_FAMILY → 0x02 <= dir mod 128 <= 0x0c →
  build (event_bytes id0 id1 rtype t0 t1 t2 t3 g0 g1 stype snum dir d1 [d2; d3]) =
  Ok (mkSelRecord (le_val [id0; id1]) rtype (le_val [t0; t1; t2; t3]) false
        (SelRecordDiscrete (mkEvent stype snum (dir <? 128) (dir mod 128) (d1 mod 16)
           EVENT_MESSAGE_REVISION_1_5 d1 (data_of d1 2 (Some d2)) (data_of d1 4 (Some d3))))).
Proof.
  rewrite !list.Forall_cons. intros (Hi0 & Hi1 & Hr & Ht0 & Ht1 & Ht2 & Ht3 & _ & _ & _ & _ & Hdir & Hd1 & Hd2 & Hd3 & _)
    Htype Hev. set (record := event_bytes _ _ _ _ _ _ _ _ _ _ _ _ _ _).
  assert (get_type record = Ok rtype) as Hgt by done.
  unfold build, is_oem. rewrite Hgt. cbn [mbind result_bind mret result_ret].
  rewrite (proj2 (Z.leb_gt _ _)) by done.
  assert (get_event_type record = Ok (dir mod 128)) as ->.
  { unfold get_event_type, record. cbn -[Z.land Z.modulo].
    by rewrite (land_mask dir 7). }
  cbn [mbind result_bind]. rewrite !(proj2 (Z.eqb_neq _ _)), !(proj2 (Z.leb_le _ _)) by lia. cbn [andb].
  unfold SelRecord_new, has_timestamp, get_id, get_timestamp. rewrite Hgt.
  rewrite (get_uint16_le record _ id0 id1), (get_uint32_le record _ t0 t1 t2 t3) by done.
  cbn [mbind result_bind mret result_ret]. unfold OEM_RECORDS_FAMILY in Htype.
  rewrite (proj2 (Z.ltb_lt _ _)) by (unfold NON_TIMESTAMPED_OEM_RECORDS_FAMILY; lia).
  cbn [mbind result_bind mret result_ret]. unfold record.
  rewrite Event_new_run by (repeat (apply Forall_cons_2; [done|]); apply Forall_nil_2).
  cbn -[Z.land Z.modulo le_val data_of Z.ltb Z.eqb]. do 5 f_equal.
  - apply (byte_check (λ b, Bool.eqb (negb (Z.land b 128 =? 128)) (b <? 128))) in Hdir; [|done].
    by apply Bool.eqb_prop.
  - by rewrite (land_mask dir 7).
  - by rewrite (land_mask d1 4).
Qed.

(** ** What a pattern matches *)

Lemma lor_reverse a b c d e :
  Z.lor (Z.lor (Z.lor (Z.lor a b) c) d) e = Z.lor (Z.lor (Z.lor (Z.lor d e) c) b) a.
Proof. apply Z.bits_inj'. intros n _. rewrite !Z.lor_spec. btauto. Qed.

(** A pattern is its fields side by side. *)
Lemma event_sensor_type_sum code sensor offset data2 data3 :
  0 <= code < 128 → 0 <= sensor < 256 → 0 <= offset < 16 → 0 <= data2 < 1024 → 0 <= data3 < 1024 →
  event_sensor_type_5 code sensor offset data2 data3 =
  data2 + data3 * 2 ^ 10 + offset * 2 ^ 20 + sensor * 2 ^ 24 + code * 2 ^ 32.
Proof.
  intros Hc Hs Ho H2 H3. unfold event_sensor_type_5, bits, EVENT_TYPE_BIT_POS, SENSOR_TYPE_BIT_POS,
    OFFSET_BIT_POS, DATA2_BIT_POS, DATA3_BIT_POS.
  rewrite (land_mask code 7), (land_mask sensor 8), (land_mask offset 4), (land_mask data2 10),
    (land_mask data3 10) by done.
  rewrite !Z.mod_small by (zpow; lia).
  rewrite !wrap_small by (unfold in_range; rewrite Z.shiftl_mul_pow2 by lia; zpow; lia).
  rewrite Z.shiftl_0_r.
  rewrite lor_reverse, (lor_shiftl_add 10) by (zpow; lia). rewrite (lor_shiftl_add 20) by (zpow; lia).
  rewrite (lor_shiftl_add 24) by (zpow; lia). by rewrite (lor_shiftl_add 32) by (zpow; lia).
Qed.

Lemma field_of x k m w : 0 <= k → 0 <= w → m = Z.ones w → Z.land (Z.shiftr x k) m = (x / 2 ^ k) mod 2 ^ w.
Proof. intros Hk Hw ->. by rewrite Z.land_ones, Z.shiftr_div_pow2. Qed.

(** A pattern of [event_sensor_type] matches an event exactly when the type and the
    sensor type agree, the offset agrees or is left undefined, and the event data that
    the pattern gives are the record's. *)
Theorem is_of_type_exact e code sensor offset data2 data3 :
  0 <= code < 128 → 0 <= sensor < 256 → 0 <= offset < 16 → 0 <= data2 < 1024 → 0 <= data3 < 1024 →
  is_of_type e (event_sensor_type_5 code sensor offset data2 data3) = true ↔
  event_type e = code ∧ sensor_type e = sensor ∧ (offset = UNDEFINED_OFFSET ∨ event_offset e = offset) ∧
  event_data_match data2 (event_data2 e) = true ∧ event_data_match data3 (event_data3 e) = true.
Proof.
  intros Hc Hs Ho H2 H3. rewrite event_sensor_type_sum by done. unfold is_of_type.
  set (x := data2 + _ + _ + _ + _).
  unfold EVENT_TYPE_BIT_POS, SENSOR_TYPE_BIT_POS, SENSOR_NUMBER_BIT_POS, OFFSET_BIT_POS, DATA2_BIT_POS,
    DATA2_MASK_POS, DATA3_BIT_POS, DATA3_MASK_POS.
  rewrite (field_of x 32 _ 7), (field_of x 24 _ 8), (field_of x 40 _ 8), (field_of x 20 _ 4),
    (field_of x 0 _ 10), (field_of x 48 _ 8), (field_of x 10 _ 10), (field_of x 56 _ 8) by done.
  assert (x / 2 ^ 32 = code) as -> by (unfold x; zpow; dlia).
  assert (x / 2 ^ 40 = 0) as -> by (unfold x; zpow; dlia).
  assert (x / 2 ^ 48 = 0) as -> by (unfold x; zpow; dlia).
  assert (x / 2 ^ 56 = 0) as -> by (unfold x; zpow; dlia).
  assert ((x / 2 ^ 24) mod 2 ^ 8 = sensor) as -> by (unfold x; zpow; dlia).
  assert ((x / 2 ^ 20) mod 2 ^ 4 = offset) as -> by (unfold x; zpow; dlia).
  assert ((x / 2 ^ 10) mod 2 ^ 10 = data3) as -> by (unfold x; zpow; dlia).
  assert ((x / 2 ^ 0) mod 2 ^ 10 = data2) as -> by (unfold x; zpow; dlia).
  rewrite (Z.mod_small code), !Z.mod_0_l by (zpow; lia). change (wrap 16 0) with 0.
  change (Z.lnot 0) with (-1). rewrite !Z.land_m1_r. change (wrap 8 0 =? UNDEFINED_SENSOR_NUMBER) with true.
  rewrite !(wrap_small 16 data2), !(wrap_small 16 data3), (wrap_small 8 code), (wrap_small 8 sensor),
    (wrap_small 8 offset) by (unfold in_range; zpow; lia). cbn [negb andb].
  destruct (Z.eqb_spec code (event_type e)), (Z.eqb_spec sensor (sensor_type e)),
    (Z.eqb_spec offset UNDEFINED_OFFSET), (Z.eqb_spec offset (event_offset e)),
    (event_data_match data2 (event_data2 e)), (event_data_match data3 (event_data3 e)); cbn [negb andb]; naive_solver.
Qed.

(** The mask of a pattern is taken off the definition, not off the event's data: a
    pattern for the second processor does not match an event of that processor whose
    other bits are set, although the mask says they do not matter. *)
Theorem for_cpu_misses :
  ∃ e, event_data3 e = 0x200 + 0x20 + 0x04 ∧
       Z.land (event_data3 e) 0xe0 = 1 * 0x20 ∧
       is_of_type e (for_cpu (event_sensor_type_3 0x6f 0x07 0x00) 1) = false ∧
       is_of_type e (event_sensor_type_3 0x6f 0x07 0x00) = true.
Proof. exists (mkEvent 0x07 1 true 0x6f 0 4 0x20 0 (0x200 + 0x20 + 0x04)). by vm_compute. Qed.

End SelRecord.
