(* ===== verification/Sel.v ===== *)
(** The system event log of the IPMI library (PSME/common/ipmi/src/sel.cpp) with the
    commands it sends: reading the log incrementally, removing and purging records.

    [process_records] is written against [IpmiLink].  [first_run_mirrors_log] shows that
    a fresh log object over a faithful link to a device ends up with exactly the device's
    records, in order.  Two theorems show where the code does not do what it means to:
    the next run reads the last record again and keeps it twice
    ([second_run_duplicates]), and the response to Delete SEL Entry is read past its
    end, so a deletion that the device did is reported as an exception
    ([remove_record_fails]). *)

From Stdlib Require Import ZArith Lia.
From S2P Require Import Prelude Hoare Ipmi SelRecord.
Import Ipmi IpmiBytes SelRecord.

Local Open Scope Z_scope.

Module Sel.

(** * Commands *)

Definition NetFn_APP : Z := 0x06.
Definition NetFn_STORAGE : Z := 0x0A.
Definition GET_SEL_INFO : Z := 0x40.
Definition RESERVE_SEL : Z := 0x42.
Definition GET_SEL_ENTRY : Z := 0x43.
Definition DELETE_SEL_ENTRY : Z := 0x46.
Definition GET_SEL_TIME : Z := 0x48.

(** 81h is the completion code of a log that is being erased. *)
Definition erase_error (completion_code : Z) : option exn :=
  if completion_code =? 0x81 then Some SelEraseInProgressError else None.

Definition GetSelTime_req : Request := mkRequest (Message_new NetFn_STORAGE GET_SEL_TIME) mret.
Definition GetSelTime_rsp : Response Z :=
  mkResponse (Message_new NetFn_APP GET_SEL_TIME) 5 (λ _, None) (λ data, get_uint32 data 1).

Record SelInfo := mkSelInfo {
  entries_count : Z;
  free_space : Z;
  last_add_timestamp : Z;
  last_erase_timestamp : Z;
  info_reserve_supported : bool;
  delete_supported : bool;
  overflow : bool;
}.

Definition IPMI_2_0_SEL_VERSION : Z := 0x51.

Definition GetSelInfo_req : Request := mkRequest (Message_new NetFn_STORAGE GET_SEL_INFO) mret.
Definition GetSelInfo_rsp : Response SelInfo :=
  mkResponse (Message_new NetFn_STORAGE GET_SEL_INFO) 15 erase_error (λ data,
    version ← index data 1;
    if negb (version =? IPMI_2_0_SEL_VERSION) then Throw IncorrectResponseVersionError
    else
      entries_count ← get_uint16 data 2;
      free_space ← get_uint16 data 4;
      last_add_timestamp ← get_uint32 data 6;
      last_erase_timestamp ← get_uint32 data 10;
      reserve_supported ← is_bit_set data 14 1;
      delete_supported ← is_bit_set data 14 3;
      overflow ← is_bit_set data 14 7;
      mret (mkSelInfo entries_count free_space last_add_timestamp last_erase_timestamp
              reserve_supported delete_supported overflow)).

Definition ReserveSel_req : Request := mkRequest (Message_new NetFn_STORAGE RESERVE_SEL) mret.
Definition ReserveSel_rsp : Response Z :=
  mkResponse (Message_new NetFn_STORAGE RESERVE_SEL) 3 erase_error (λ data, get_uint16 data 1).

Definition GetSelEntry_req (entry_id reservation_id record_offset to_read : Z) : Request :=
  mkRequest (Message_new NetFn_STORAGE GET_SEL_ENTRY) (λ data,
    data ← put_uint16 data 0 reservation_id;
    data ← put_uint16 data 2 entry_id;
    data ← put_uint8 data 4 record_offset;
    put_uint8 data 5 to_read).

(** The next entry's id and the record's bytes. *)
Definition GetSelEntry_rsp : Response (Z * list Z) :=
  mkResponse (Message_new NetFn_STORAGE GET_SEL_ENTRY) 2 erase_error (λ data,
    next_entry_id ← get_uint16 data 1;
    if (3 <=? length data)%nat then mret (next_entry_id, drop 3 data) else Throw undefined_behaviour).

Definition is_last_record (next_entry_id : Z) : bool := next_entry_id =? 0xffff.

Definition DeleteSelEntry_req (entry_id reservation_id : Z) : Request :=
  mkRequest (Message_new NetFn_STORAGE DELETE_SEL_ENTRY) (λ data,
    data ← put_uint16 data 0 reservation_id;
    put_uint16 data 2 entry_id).

Definition DeleteSelEntry_rsp : Response Z :=
  mkResponse (Message_new NetFn_APP GET_SEL_INFO) 3
    (λ c, if c =? 0x80 then Some WrongEntityError else erase_error c)
    (λ data, get_uint16 data 3).

(** * The log *)

Definition FIRST_ENTRY : Z := 0.

Record Sel := mkSel {
  sel_time : Z;
  first_run : bool;
  previous_failed : bool;
  last_add : Z;
  last_erase : Z;
  reserve_supported : bool;
  last_read_record : Z;
  records : list SelRecord;
}.

Definition Sel_new : Sel := mkSel 0 true false 0 0 false FIRST_ENTRY [].

Definition set_time t (s : Sel) := let 'mkSel _ b c d e f g h := s in mkSel t b c d e f g h.
Definition set_first_run t (s : Sel) := let 'mkSel a _ c d e f g h := s in mkSel a t c d e f g h.
Definition set_failed t (s : Sel) := let 'mkSel a b _ d e f g h := s in mkSel a b t d e f g h.
Definition set_last_add t (s : Sel) := let 'mkSel a b c _ e f g h := s in mkSel a b c t e f g h.
Definition set_last_erase t (s : Sel) := let 'mkSel a b c d _ f g h := s in mkSel a b c d t f g h.
Definition set_reserve t (s : Sel) := let 'mkSel a b c d e _ g h := s in mkSel a b c d e t g h.
Definition set_last_read t (s : Sel) := let 'mkSel a b c d e f _ h := s in mkSel a b c d e f t h.
Definition set_records t (s : Sel) := let 'mkSel a b c d e f g _ := s in mkSel a b c d e f g t.

Section sel.
Context {W : Type} `{!IpmiLink W}.

(** The log with the controller it refers to. *)
Record State := mkState { sel : Sel; controller : W }.

Definition set_sel (s : Sel) (st : State) : State := mkState s (controller st).
Definition set_controller (w : W) (st : State) : State := mkState (sel st) w.
Definition update (f : Sel → Sel) : M State unit := modify (λ st, set_sel (f (sel st)) st).

(** [controller.send(request, response)] *)
Definition ctrl_send {A} (request : Request) (response : Response A) : M State A :=
  zoom controller set_controller (link_send request BridgeInfo_new response).

Definition get_reservation : M State Z :=
  st ← get;
  if negb (reserve_supported (sel st)) then mret 0 else ctrl_send ReserveSel_req ReserveSel_rsp.

Definition get_sel_entry (record_id reservation : Z) : M State (Z * list Z) :=
  ctrl_send (GetSelEntry_req record_id reservation 0 0xff) GetSelEntry_rsp.

(** How the reading loop is left. *)
Inductive Reading := Cleared | Stopped.

(** One entry: how the loop goes on. *)
Inductive Step := Leave (r : Reading) | Next (record_id : Z).

(** [try { m }]: the exception as a value, for the handlers that follow. *)
Definition attempt {A} (m : M State A) : M State (result A) := λ st, let '(r, st') := m st in (Ok r, st').

Definition read_entry (record_id reservation : Z) : M State Step :=
  r ← attempt (get_sel_entry record_id reservation);
  match r with
  | Throw e =>
      if bool_decide (e = RequestedRecordNotPresentError) then
        (* SEL content was cleared, last record does not exist *)
        update (set_last_read FIRST_ENTRY);;
        update (set_records []);;
        mret (Leave Cleared)
      else if is_response_error e then
        (* All read data should be processed, it should continue from the last read one *)
        update (set_failed true);;
        mret (Leave Stopped)
      else throw e
  | Ok (next_entry_id, entry) =>
      record_id ← (if record_id =? FIRST_ENTRY then lift (get_id entry) else mret record_id);
      record ← lift (build entry);
      update (λ s, set_records (records s ++ [record]) s);;
      (* in next loop last record must be read to get appropriate next record id.. *)
      update (set_last_read record_id);;
      if is_last_record next_entry_id then
        update (set_failed false);;
        mret (Leave Stopped)
      else mret (Next next_entry_id)
  end.

(** [for (;;)] *)
Fixpoint read_entries (fuel : nat) (record_id reservation : Z) : M State Reading :=
  match fuel with
  | O => throw out_of_fuel
  | S fuel' =>
      step ← read_entry record_id reservation;
      match step with
      | Leave r => mret r
      | Next record_id => read_entries fuel' record_id reservation
      end
  end.

(** The records from the first one with the id on; all of them if there is none. *)
Definition rolled (record_id : Z) (rs : list SelRecord) : list SelRecord :=
  match list_find (λ r, id r = record_id) rs with
  | Some (i, _) => drop i rs
  | None => rs
  end.

(** remove all rolled-out records *)
Definition remove_rolled_out (reservation : Z) : M State unit :=
  st ← get;
  match records (sel st) with
  | front :: _ =>
      if negb (previous_failed (sel st)) then
        (* read very first record in the SEL *)
        r ← attempt (e ← get_sel_entry FIRST_ENTRY reservation; lift (get_id e.2));
        record_id ← match r with
                    | Ok record_id => mret record_id
                    | Throw e => if is_response_error e then mret (id front) else throw e
                    end;
        update (λ s, set_records (rolled record_id (records s)) s)
      else mret tt
  | [] => mret tt
  end.

Definition process_records (fuel : nat) : M State bool :=
  t ← ctrl_send GetSelTime_req GetSelTime_rsp;
  update (set_time t);;
  (* get SEL configuration *)
  info ← ctrl_send GetSelInfo_req GetSelInfo_rsp;
  st ← get;
  let unchanged := negb (first_run (sel st)) && negb (previous_failed (sel st)) &&
    (last_add_timestamp info =? last_add (sel st)) && (last_erase_timestamp info =? last_erase (sel st)) in
  (if first_run (sel st) then
     update (set_reserve (info_reserve_supported info));;
     update (set_first_run false)
   else mret tt);;
  if unchanged then (* nothing has changed in the SEL *) mret false
  else
    update (set_last_add (last_add_timestamp info));;
    update (set_last_erase (last_erase_timestamp info));;
    reservation ← get_reservation;
    st ← get;
    outcome ← read_entries fuel (last_read_record (sel st)) reservation;
    match outcome with
    | Cleared => mret true
    | Stopped => remove_rolled_out reservation;; mret true
    end.

Definition get_records (filter : option (SelRecord → bool)) (s : Sel) : list SelRecord :=
  match filter with
  | Some f => base.filter (λ r, f r = true) (records s)
  | None => records s
  end.

Definition get_record (i : Z) (s : Sel) : option SelRecord := snd <$> list_find (λ r, id r = i) (records s).

Definition remove_record (i : Z) : M State bool :=
  st ← get;
  match list_find (λ r, id r = i) (records (sel st)) with
  | None => (* record doesn't exist locally, cannot remove *) mret false
  | Some (k, r) =>
      (* record already removed *)
      if only_in_memory r then mret true
      else
        (* send delete command with proper reservation *)
        reservation ← get_reservation;
        _ ← ctrl_send (DeleteSelEntry_req i reservation) DeleteSelEntry_rsp;
        update (λ s, set_records (alter set_only_in_memory k (records s)) s);;
        mret true
  end.

Definition purge_record (i : Z) : M State bool :=
  removed ← remove_record i;
  if removed : bool then
    st ← get;
    match list_find (λ r, id r = i) (records (sel st)) with
    | Some (k, _) => update (λ s, set_records (delete k (records s)) s);; mret true
    | None => mret false
    end
  else mret false.

End sel.

(** * A device with a log *)

(** A log entry: sixteen bytes that start with its id. *)
Definition entry_id (e : list Z) : Z := le_val (take 2 e).

Definition entry_ok (e : list Z) : Prop :=
  length e = 16%nat ∧ Forall is_byte e ∧ 0 < entry_id e < 0xffff ∧ ∃ r, build e = Ok r.

(** The id that follows the entry at [i]. *)
Definition next_id (es : list (list Z)) (i : nat) : Z :=
  match es !! S i with Some e => entry_id e | None => 0xffff end.

(** The device answers the four commands from its entries. *)
Definition sel_device {D} `{Device D} (es : list (list Z)) (info : list Z) (reservation : Z) (d : D) : Prop :=
  let ask cmd bytes answer := respond (Message_new NetFn_STORAGE cmd) BridgeInfo_new bytes d = (answer, d) in
  (∃ t, ask GET_SEL_TIME [] (0 :: le_bytes 4 t)) ∧
  ask GET_SEL_INFO [] (0 :: IPMI_2_0_SEL_VERSION :: info) ∧
  ask RESERVE_SEL [] (0 :: le_bytes 2 reservation) ∧
  (∀ r e, es !! 0%nat = Some e →
     ask GET_SEL_ENTRY (le_bytes 2 r ++ [0; 0; 0; 0xff]) (0 :: le_bytes 2 (next_id es 0) ++ e)) ∧
  (∀ r i e, es !! i = Some e →
     ask GET_SEL_ENTRY (le_bytes 2 r ++ le_bytes 2 (entry_id e) ++ [0; 0xff])
       (0 :: le_bytes 2 (next_id es i) ++ e)).

(** ** The bytes of the commands *)

Lemma le_bytes_2 v : le_bytes 2 v = [byte_of v 0; byte_of v 8].
Proof. rewrite !byte_of_val by lia. cbn. rewrite Z.div_1_r. done. Qed.

Lemma put_uint16_end data v : put_uint16 data (length data) v = Ok (data ++ le_bytes 2 v).
Proof. unfold put_uint16. by rewrite Nat.eqb_refl, le_bytes_2. Qed.

Lemma GetSelEntry_pack i r :
  do_pack (GetSelEntry_req i r 0 0xff) = Ok (le_bytes 2 r ++ le_bytes 2 i ++ [0; 0xff]).
Proof.
  unfold do_pack, GetSelEntry_req. cbn [pack]. rewrite (put_uint16_end []). cbn [mbind result_bind app].
  change 2%nat with (length (le_bytes 2 r)) at 3. rewrite put_uint16_end. cbn [mbind result_bind].
  rewrite !le_bytes_2. done.
Qed.

Lemma DeleteSelEntry_pack i r : do_pack (DeleteSelEntry_req i r) = Ok (le_bytes 2 r ++ le_bytes 2 i).
Proof.
  unfold do_pack, DeleteSelEntry_req. cbn [pack]. rewrite (put_uint16_end []). cbn [mbind result_bind app].
  change 2%nat with (length (le_bytes 2 r)) at 3. by rewrite put_uint16_end.
Qed.

Lemma GetSelEntry_unpack n e :
  0 <= n < 65536 → length e = 16%nat →
  do_unpack GetSelEntry_rsp (0 :: le_bytes 2 n ++ e) = Ok (n, e).
Proof.
  intros Hn He. rewrite do_unpack_run by (rewrite ?le_bytes_2; cbn; lia || done).
  cbn [unpack GetSelEntry_rsp]. rewrite (get_uint16_bytes _ _ n); [|done|by rewrite le_bytes_2..].
  cbn [mbind result_bind]. rewrite le_bytes_2. cbn [app length]. rewrite He. done.
Qed.

Lemma get_id_entry e : entry_ok e → get_id e = Ok (entry_id e).
Proof.
  intros (Hl & Hb & _). destruct e as [|b0 [|b1 e]]; [done..|].
  apply list.Forall_cons in Hb as [H0 [H1 _]%list.Forall_cons]. unfold get_id. by apply get_uint16_le.
Qed.

Lemma SelRecord_new_id e b r : SelRecord_new e b = Ok r → get_id e = Ok (id r).
Proof.
  unfold SelRecord_new. destruct (get_id e) as [i|]; [|done]. cbn [mbind result_bind].
  intros H. bind_inv H. by injection H as <-.
Qed.

Lemma build_id e r : build e = Ok r → get_id e = Ok (id r).
Proof.
  unfold build. intros H. bind_inv H. destruct v; [by eapply SelRecord_new_id|].
  bind_inv H. repeat (case_match; [by eapply SelRecord_new_id|]). by eapply SelRecord_new_id.
Qed.

(** ** Reading the log *)

Section mirror.
Context {W D : Type} {L : IpmiLink W} {V : Device D} {up : W → Prop} {dev : W → D} {HF : Faithful W D up dev}.
Variables (es : list (list Z)) (info : list Z) (reservation : Z).
Hypothesis entries_ok : Forall entry_ok es.

Definition ready (st : State) : Prop :=
  up (controller st) ∧ sel_device es info reservation (dev (controller st)).

(** The record objects of the entries. *)
Definition mirrors (rs : list SelRecord) (l : list (list Z)) : Prop := Forall2 (λ r e, build e = Ok r) rs l.

Lemma ctrl_send_run {A} request (response : Response A) bytes answer st :
  ready st → do_pack request = Ok bytes →
  respond (request_message request) BridgeInfo_new bytes (dev (controller st)) = (answer, dev (controller st)) →
  ∃ st', ctrl_send request response st = (do_unpack response answer, st') ∧ ready st' ∧ sel st' = sel st ∧
         dev (controller st') = dev (controller st).
Proof.
  intros [Hup Hdev] Hp Hr.
  destruct (faithful_send _ request BridgeInfo_new response (controller st) bytes Hup Hp) as (w & Hw & Hupw & Hdw).
  rewrite Hr in Hw, Hdw. exists (set_controller w st). unfold ctrl_send, zoom. rewrite Hw.
  split; [done|]. split; [|by split]. split; [done|]. cbn. by rewrite Hdw.
Qed.

Lemma next_id_range i : 0 <= next_id es i < 65536.
Proof.
  unfold next_id. destruct (es !! S i) as [e|] eqn:E; [|lia].
  rewrite Forall_lookup in entries_ok. destruct (entries_ok _ _ E) as (_ & _ & ? & _). lia.
Qed.

(** What the device says to the id that the loop asks for. *)
Lemma get_sel_entry_run st i e rid r :
  ready st → es !! i = Some e → rid = entry_id e ∨ (rid = FIRST_ENTRY ∧ i = 0%nat) →
  ∃ st', get_sel_entry rid r st = (Ok (next_id es i, e), st') ∧ ready st' ∧ sel st' = sel st.
Proof.
  intros Hst Hi Hrid. pose proof Hst as [_ (_ & _ & _ & Hfirst & Hall)].
  assert (length e = 16%nat) as Hlen.
  { rewrite Forall_lookup in entries_ok. by destruct (entries_ok _ _ Hi). }
  rewrite <- (GetSelEntry_unpack _ _ (next_id_range i) Hlen).
  edestruct (ctrl_send_run (GetSelEntry_req rid r 0 0xff) GetSelEntry_rsp) as (st' & Hrun & ? & ? & _);
    [done|apply GetSelEntry_pack| |by exists st'].
  destruct Hrid as [->|[-> ->]]; [by apply Hall|]. by apply (Hfirst r e).
Qed.

(** One entry is appended and its id remembered. *)
Lemma read_entry_run st i e rid r :
  ready st → es !! i = Some e → rid = entry_id e ∨ (rid = FIRST_ENTRY ∧ i = 0%nat) →
  ∃ st' rec, build e = Ok rec ∧ ready st' ∧
    records (sel st') = records (sel st) ++ [rec] ∧ last_read_record (sel st') = entry_id e ∧
    match es !! S i with
    | None => read_entry rid r st = (Ok (Leave Stopped), st') ∧ previous_failed (sel st') = false
    | Some e' => read_entry rid r st = (Ok (Next (entry_id e')), st')
    end.
Proof.
  intros Hst Hi Hrid. destruct (get_sel_entry_run st i e rid r Hst Hi Hrid) as (st1 & H1 & Hst1 & Hsel1).
  assert (entry_ok e) as Hok by (by rewrite Forall_lookup in entries_ok; eauto).
  pose proof (get_id_entry e Hok) as Hid. destruct Hok as (_ & _ & Hr & rec & Hrec).
  unfold read_entry. rewrite (bind_run _ _ st (Ok (next_id es i, e)) st1) by (unfold attempt; by rewrite H1).
  assert ((if rid =? FIRST_ENTRY then lift (get_id e) else mret rid) st1 = (Ok (entry_id e), st1)) as Hrid1.
  { destruct Hrid as [->|[-> _]]; [|by rewrite Hid]. unfold FIRST_ENTRY. by rewrite (proj2 (Z.eqb_neq _ _)) by lia. }
  rewrite (bind_run _ _ _ _ _ Hrid1), Hrec, (bind_run (lift _) _ st1 rec st1 eq_refl).
  unfold next_id. destruct (es !! S i) as [e'|] eqn:Ei.
  - assert (is_last_record (entry_id e') = false) as Hlast.
    { rewrite Forall_lookup in entries_ok. destruct (entries_ok _ _ Ei) as (_ & _ & ? & _).
      apply Z.eqb_neq. lia. }
    exists (set_sel (set_last_read (entry_id e) (set_records (records (sel st1) ++ [rec]) (sel st1))) st1), rec.
    rewrite <- Hsel1. destruct st1 as [[] w]. split_and!; try done. unfold update. run_monad. by rewrite Hlast.
  - exists (set_sel (set_failed false (set_last_read (entry_id e)
      (set_records (records (sel st1) ++ [rec]) (sel st1)))) st1), rec.
    rewrite <- Hsel1. destruct st1 as [[] w]. by split_and!.
Qed.

(** The loop mirrors the entries from [i] on. *)
Lemma read_entries_run fuel : ∀ st i e rid r,
  ready st → es !! i = Some e → rid = entry_id e ∨ (rid = FIRST_ENTRY ∧ i = 0%nat) →
  (length es - i ≤ fuel)%nat →
  ∃ st' rs, read_entries fuel rid r st = (Ok Stopped, st') ∧ ready st' ∧ mirrors rs (drop i es) ∧
    records (sel st') = records (sel st) ++ rs ∧ previous_failed (sel st') = false.
Proof.
  induction fuel as [|fuel IH]; intros st i e rid r Hst Hi Hrid Hf.
  { apply lookup_lt_Some in Hi. lia. }
  destruct (read_entry_run st i e rid r Hst Hi Hrid) as (st1 & rec & Hrec & Hst1 & Hrs1 & _ & Hstep).
  rewrite (drop_S _ _ _ Hi). cbn [read_entries]. destruct (es !! S i) as [e'|] eqn:Ei.
  - rewrite (bind_run _ _ _ _ _ Hstep).
    destruct (IH st1 (S i) e' (entry_id e') r Hst1 Ei) as (st' & rs & Hrun & Hst' & Hm & Hrs & Hpf); [by left|lia|].
    exists st', (rec :: rs). split_and!; try done.
    + by apply Forall2_cons.
    + by rewrite Hrs, Hrs1, <- app_assoc.
  - destruct Hstep as [Hrun Hpf]. rewrite (bind_run _ _ _ _ _ Hrun). exists st1, [rec]. split_and!; try done.
    rewrite drop_ge by (apply lookup_ge_None in Ei; lia). apply Forall2_cons; [done|]. apply Forall2_nil.
Qed.

(** Nothing has rolled out when the first record is the first entry. *)
Lemma remove_rolled_out_run st rs r :
  ready st → mirrors rs es → es ≠ [] → records (sel st) = rs →
  ∃ st', remove_rolled_out r st = (Ok tt, st') ∧ ready st' ∧ records (sel st') = rs.
Proof.
  intros Hst Hm Hne Hrs.
  assert (∃ e, es !! 0%nat = Some e) as [e H0].
  { apply lookup_lt_is_Some_2. destruct (length es) eqn:E; [|lia]. by apply nil_length_inv in E. }
  destruct (Forall2_lookup_r _ _ _ _ _ Hm H0) as (rec & Hrec0 & Hrec).
  destruct rs as [|rec' rs']; [done|]. injection Hrec0 as ->.
  unfold remove_rolled_out. rewrite (bind_run get _ _ _ _ eq_refl), Hrs.
  destruct (previous_failed (sel st)); [by exists st|]. cbn [negb].
  destruct (get_sel_entry_run st 0 e FIRST_ENTRY r Hst H0) as (st1 & H1 & Hst1 & Hsel1); [by right|].
  rewrite (bind_run _ _ st (Ok (id rec)) st1).
  2:{ unfold attempt. rewrite (bind_run _ _ _ _ _ H1). cbn [snd]. by rewrite (build_id _ _ Hrec). }
  rewrite (bind_run (mret _) _ st1 (id rec) st1 eq_refl).
  exists (set_sel (set_records (rolled (id rec) (records (sel st1))) (sel st1)) st1).
  split; [done|]. split; [done|]. rewrite Hsel1, Hrs. destruct (sel st). cbn. unfold rolled. cbn.
  by rewrite decide_True.
Qed.

Lemma GetSelInfo_unpack l : length l = 13%nat →
  ∃ i, do_unpack GetSelInfo_rsp (0 :: IPMI_2_0_SEL_VERSION :: l) = Ok i.
Proof. intros Hl. do 13 (destruct l as [|? l]; [done|]). by eexists. Qed.

Lemma GetSelTime_unpack t : ∃ v, do_unpack GetSelTime_rsp (0 :: le_bytes 4 t) = Ok v.
Proof. by eexists. Qed.

Lemma ReserveSel_unpack r : ∃ v, do_unpack ReserveSel_rsp (0 :: le_bytes 2 r) = Ok v.
Proof. by eexists. Qed.

Lemma get_reservation_run st : ready st →
  ∃ r st', get_reservation st = (Ok r, st') ∧ ready st' ∧ sel st' = sel st ∧
           dev (controller st') = dev (controller st).
Proof.
  intros Hst. unfold get_reservation. rewrite (bind_run get _ _ _ _ eq_refl).
  destruct (reserve_supported (sel st)); [|by exists 0, st]. pose proof Hst as [_ (_ & _ & Hres & _)].
  destruct (ReserveSel_unpack reservation) as [v Hv].
  destruct (ctrl_send_run ReserveSel_req ReserveSel_rsp [] _ st Hst eq_refl Hres) as (st' & Hrun & ?).
  exists v, st'. cbn [negb]. by rewrite Hrun, Hv.
Qed.

Lemma update_ready f st : ready st → ready (update f st).2.
Proof. done. Qed.

Lemma process_records_first fuel st :
  ready st → sel st = Sel_new → length info = 13%nat → es ≠ [] → (length es ≤ fuel)%nat →
  ∃ st', process_records fuel st = (Ok true, st') ∧ ready st' ∧ mirrors (records (sel st')) es.
Proof.
  intros Hst Hsel Hinfo Hne Hf. pose proof Hst as [_ ((t & Ht) & _)].
  destruct (GetSelTime_unpack t) as [v Hv].
  destruct (ctrl_send_run GetSelTime_req GetSelTime_rsp [] _ st Hst eq_refl Ht) as (st1 & H1 & Hst1 & Hs1 & _).
  rewrite Hv in H1. unfold process_records. rewrite (bind_run _ _ _ _ _ H1), (bind_run (update _) _ _ _ _ eq_refl).
  set (st2 := set_sel _ _). assert (ready st2) as Hst2 by done. pose proof Hst2 as [_ (_ & Hi & _)].
  destruct (GetSelInfo_unpack info Hinfo) as [i Hiv].
  destruct (ctrl_send_run GetSelInfo_req GetSelInfo_rsp [] _ st2 Hst2 eq_refl Hi) as (st3 & H3 & Hst3 & Hs3 & _).
  rewrite Hiv in H3. rewrite (bind_run _ _ _ _ _ H3), (bind_run get _ _ _ _ eq_refl).
  assert (sel st3 = set_time v Sel_new) as E3 by (rewrite Hs3; unfold st2; cbn; by rewrite Hs1, Hsel).
  rewrite E3. cbn [first_run set_time Sel_new negb andb]. cbv zeta.
  rewrite (bind_run _ _ st3 tt (set_sel (set_first_run false (set_reserve (info_reserve_supported i) (sel st3))) st3))
    by done.
  rewrite !(bind_run (update _) _ _ _ _ eq_refl). set (st4 := set_sel _ _).
  assert (ready st4) as Hst4 by done.
  assert (records (sel st4) = [] ∧ last_read_record (sel st4) = FIRST_ENTRY) as [Hr4 Hl4]
    by (unfold st4; cbn; by rewrite E3).
  destruct (get_reservation_run st4 Hst4) as (r & st5 & H5 & Hst5 & Hs5 & _).
  rewrite (bind_run _ _ _ _ _ H5), (bind_run get _ _ _ _ eq_refl), Hs5, Hl4.
  assert (∃ e, es !! 0%nat = Some e) as [e H0].
  { apply lookup_lt_is_Some_2. destruct (length es) eqn:E; [|lia]. by apply nil_length_inv in E. }
  destruct (read_entries_run fuel st5 0 e FIRST_ENTRY r Hst5 H0) as (st6 & rs & H6 & Hst6 & Hm & Hrs & Hpf);
    [by right|lia|].
  rewrite (bind_run _ _ _ _ _ H6). rewrite Hs5, Hr4 in Hrs.
  destruct (remove_rolled_out_run st6 rs r Hst6 Hm Hne Hrs) as (st7 & H7 & Hst7 & Hr7).
  rewrite (bind_run _ _ _ _ _ H7). exists st7. split; [done|]. split; [done|]. by rewrite Hr7.
Qed.

(** Removing a record, at a device that deletes it and says so as the specification asks:
    the id of the deleted record after the completion code. *)
Lemma remove_record_run st i rec k d' :
  ready st → list_find (λ r, id r = i) (records (sel st)) = Some (k, rec) → only_in_memory rec = false →
  (∀ r, respond (Message_new NetFn_STORAGE DELETE_SEL_ENTRY) BridgeInfo_new (le_bytes 2 r ++ le_bytes 2 i)
          (dev (controller st)) = (0 :: le_bytes 2 i, d')) →
  ∃ st', remove_record i st = (Throw out_of_range, st') ∧ sel st' = sel st ∧ dev (controller st') = d'.
Proof.
  intros Hst Hfind Hmem Hdel. unfold remove_record.
  rewrite (bind_run get _ _ _ _ eq_refl), Hfind, Hmem.
  destruct (get_reservation_run st Hst) as (r & st1 & H1 & Hst1 & Hs1 & Hd1).
  rewrite (bind_run _ _ _ _ _ H1). rewrite <- Hd1 in Hdel.
  destruct (faithful_send _ (DeleteSelEntry_req i r) BridgeInfo_new DeleteSelEntry_rsp (controller st1)
    _ (proj1 Hst1) (DeleteSelEntry_pack i r)) as (w & Hw & _ & Hdw).
  cbn [request_message DeleteSelEntry_req] in Hw, Hdw. rewrite Hdel in Hw, Hdw.
  exists (set_controller w st1). split; [|done].
  apply bind_throw. unfold ctrl_send, zoom. by rewrite Hw.
Qed.

End mirror.

(** C38: over a faithful link to a device with a log, the first [process_records] of a
    log object ends, returns true, and leaves exactly one record object per entry of the
    device, in the device's order; as many steps of the loop as the log has entries are
    enough. *)
Theorem first_run_mirrors_log {W D : Type} {L : IpmiLink W} {V : Device D} (up : W → Prop) (dev : W → D)
    {HF : Faithful W D up dev} es info reservation fuel w :
  up w → sel_device es info reservation (dev w) → length info = 13%nat → Forall entry_ok es → es ≠ [] →
  (length es ≤ fuel)%nat →
  ∃ st', process_records fuel (mkState Sel_new w) = (Ok true, st') ∧
         Forall2 (λ r e, build e = Ok r) (records (sel st')) es.
Proof.
  intros Hup Hdev Hinfo Hok Hne Hf.
  destruct (process_records_first (up := up) (dev := dev) es info reservation Hok fuel (mkState Sel_new w))
    as (st' & ? & _ & ?); [by split|done..|]. eauto.
Qed.

(** The response to Delete SEL Entry is read past its end: at a device that deletes the
    record and answers with its id, [remove_record] throws and does not mark the record. *)
Theorem remove_record_fails {W D : Type} {L : IpmiLink W} {V : Device D} (up : W → Prop) (dev : W → D)
    {HF : Faithful W D up dev} es info reservation st i rec k d' :
  up (controller st) → sel_device es info reservation (dev (controller st)) →
  list_find (λ r, id r = i) (records (sel st)) = Some (k, rec) → only_in_memory rec = false →
  (∀ r, respond (Message_new NetFn_STORAGE DELETE_SEL_ENTRY) BridgeInfo_new (le_bytes 2 r ++ le_bytes 2 i)
          (dev (controller st)) = (0 :: le_bytes 2 i, d')) →
  ∃ st', remove_record i st = (Throw out_of_range, st') ∧ sel st' = sel st ∧ dev (controller st') = d'.
Proof.
  intros Hup Hdev Hfind Hmem Hdel.
  exact (remove_record_run (up := up) es info reservation st i rec k d' (conj Hup Hdev) Hfind Hmem Hdel).
Qed.

(** ** A device made of its entries *)

Definition log_device : Device (list (list Z)) := λ m _ bytes es,
  let cmd := command_code m in
  if cmd =? GET_SEL_TIME then (0 :: le_bytes 4 100, es)
  else if cmd =? GET_SEL_INFO then
    (0 :: IPMI_2_0_SEL_VERSION :: le_bytes 2 (Z.of_nat (length es)) ++ le_bytes 2 1000
       ++ le_bytes 4 (Z.of_nat (length es)) ++ le_bytes 4 0 ++ [0], es)
  else if cmd =? RESERVE_SEL then (0 :: le_bytes 2 1, es)
  else if cmd =? GET_SEL_ENTRY then
    let i := le_val (slice 2 2 bytes) in
    match (if i =? 0 then (λ e, (0%nat, e)) <$> es !! 0%nat else list_find (λ e, entry_id e = i) es) with
    | Some (k, e) => (0 :: le_bytes 2 (next_id es k) ++ e, es)
    | None => ([0xCB], es)
    end
  else ([0xC1], es).

(** Two discrete events. *)
Definition entry_1 : list Z := event_bytes 1 0 2 10 0 0 0 0x20 0 0x0d 5 0x03 1 [0xff; 0xff].
Definition entry_2 : list Z := event_bytes 2 0 2 20 0 0 0 0x20 0 0x0d 5 0x03 0 [0xff; 0xff].

Lemma first_run_mirrors_log_witness :
  ∃ st', @process_records _ (device_link _ (V := log_device)) 2 (mkState Sel_new [entry_1; entry_2]) = (Ok true, st') ∧
         Forall2 (λ r e, build e = Ok r) (records (sel st')) [entry_1; entry_2].
Proof.
  apply (@first_run_mirrors_log _ _ _ log_device (λ _, True) Datatypes.id (device_faithful _ (V := log_device))
    [entry_1; entry_2] (le_bytes 2 2 ++ le_bytes 2 1000 ++ le_bytes 4 2 ++ le_bytes 4 0 ++ [0]) 1).
  - done.
  - split_and!; [by exists 100|done|done| |].
    + intros r e [= <-]. unfold respond, log_device. rewrite le_bytes_2. done.
    + intros r [|[|i]] e [= <-]; unfold respond, log_device; by rewrite le_bytes_2.
  - done.
  - repeat (apply Forall_cons_2; [split_and!; [done|by apply (bool_decide_unpack _)|done|done|by eexists]|]).
    apply Forall_nil_2.
  - done.
  - done.
Defined.

(** After the log has grown by one entry the last record read before is read again and
    kept twice. *)
Theorem second_run_duplicates :
  ∃ st st' rec_1 rec_2,
    @process_records _ (device_link _ (V := log_device)) 2 (mkState Sel_new [entry_1]) = (Ok true, st) ∧
    records (sel st) = [rec_1] ∧
    @process_records _ (device_link _ (V := log_device)) 3 (set_controller [entry_1; entry_2] st) = (Ok true, st') ∧
    records (sel st') = [rec_1; rec_1; rec_2] ∧ id rec_1 = 1 ∧ id rec_2 = 2.
Proof.
  eexists _, _, _, _. split; [vm_compute; reflexivity|]. split; [reflexivity|].
  split; [vm_compute; reflexivity|]. by repeat split.
Qed.

End Sel.
