(* ===== verification/MdrRegion.v ===== *)
(** Reading and writing the managed data regions of a BMC over IPMI: the MDR commands
    (PSME/common/ipmi/src/command/sdv, with the variants of the rsd directory) and the
    region accessors of PSME/common/ipmi/src/utils/sdv with their opportunistic lock.

    The accessors are written against [IpmiLink].  What the firmware of a BMC promises of
    a region is the class [MdrDevice]: a region has contents, a capacity, a validity and,
    while it is locked, what has been written in the session.  Against it
    [get_mdr_region_outcome] gives the result of a read on every branch,
    [write_mdr_region_run] the effect of a write, and [written_region_is_read] their
    composition.  The reading loop has no bound of its own, since it goes on until the
    device has sent enough bytes ([empty_answers_never_end]), so it has fuel; one step
    per byte is enough.

    Three theorems show where the code does not do what it means to: the lock of a
    region that is in use is not tried again ([busy_region_is_not_retried]), and the two
    answers of the rsd commands are read one byte past the length that was checked
    ([short_status_overread], [short_read_overread]). *)

From Stdlib Require Import ZArith Lia.
From S2P Require Import Prelude Ipmi.
Import Ipmi.

Local Open Scope Z_scope.

Module MdrRegion.

(** * Commands *)

Definition RACKSCALE : Z := 0x3A.
Definition GROUP_EXTENSION : Z := 0x2C.
Definition GroupExtension_RACKSCALE : Z := 0x04.

Definition GET_MDR_DATA_REGION_STATUS : Z := 0x20.
Definition MDR_REGION_UPDATE_COMPLETE : Z := 0x21.
Definition MDR_REGION_READ : Z := 0x22.
Definition MDR_REGION_WRITE : Z := 0x23.
Definition MDR_REGION_LOCK : Z := 0x24.

(** [DataRegionId] *)
Definition SMBIOS_TABLE : Z := 0x1.
Definition ACPI_TABLE : Z := 0x2.
Definition ISCSI_BOOT_OPTIONS : Z := 0x4.

(** [DataValidation], [LockStatus] and [LockType] *)
Definition VALID : Z := 0x1.
Definition UNLOCKED : Z := 0x0.
Definition LockType_PREEMPTIBLE_LOCK : Z := 0x2.

Definition InvalidMdrRegion := response_error "InvalidMdrRegion" 0xC9.
Definition MdrRegionInUse := response_error "MdrRegionInUse" 0x81.
Definition MdrRegionLocked := response_error "MdrRegionLocked" 0xD5.
Definition MdrRegionNotLocked := response_error "MdrRegionNotLocked" 0xD5.
Definition MdrDataLengthError := response_error "MdrDataLengthError" 0xC7.
Definition MdrInvalidPayloadSize := response_error "MdrInvalidPayloadSize" 0xC4.
Definition MdrDataRegionLockedError := response_error "MdrDataRegionLockedError" 0.
Definition MdrDataRegionInvalidError := response_error "MdrDataRegionInvalidError" 0.
Definition MdrDataRegionEmptyError := response_error "MdrDataRegionEmptyError" 0.

(** [uint16_t((data[offset + 1] << 8) | data[offset])] *)
Definition uint16_at (data : list Z) (offset : nat) : result Z :=
  hi ← index data (offset + 1);
  lo ← index data offset;
  mret (wrap 16 (Z.lor (Z.shiftl hi 8) lo)).

(** [{it, it + m_length}] from [offset]. *)
Definition range_at (data : list Z) (offset : nat) (m_length : Z) : result (list Z) :=
  if (offset + Z.to_nat m_length <=? length data)%nat then mret (slice offset (Z.to_nat m_length) data)
  else Throw undefined_behaviour.

(** [std::uint8_t(m_offset), std::uint8_t(m_offset >> 8)] *)
Definition offset_bytes (offset : Z) : list Z := [wrap 8 offset; wrap 8 (Z.shiftr offset 8)].

(** ** Status *)

Record MdrDataRegionStatus := mkStatus {
  mdr_version : Z;
  data_region_id : Z;
  data_validation : Z;
  data_update_count : Z;
  lock_status : Z;
  region_size : Z;
  region_size_used : Z;
  region_checksum : Z;
}.

(** The members, in the order of the response from [offset] on. *)
Definition status_at (data : list Z) (offset : nat) : result MdrDataRegionStatus :=
  version ← index data offset;
  region ← index data (offset + 1);
  validation ← index data (offset + 2);
  update_count ← index data (offset + 3);
  lock ← index data (offset + 4);
  size ← uint16_at data (offset + 5);
  used ← uint16_at data (offset + 7);
  checksum ← index data (offset + 9);
  mret (mkStatus version region validation update_count lock size used checksum).

(** [sdv::request::GetMdrDataRegionStatus] and its response *)
Definition GetMdrDataRegionStatus_req (region_id : Z) : Request :=
  mkRequest (Message_new RACKSCALE GET_MDR_DATA_REGION_STATUS) (λ data, mret (data ++ [region_id])).

Definition STATUS_RESPONSE_SIZE : nat := 11.

Definition GetMdrDataRegionStatus_rsp : Response MdrDataRegionStatus :=
  mkResponse (Message_new (RACKSCALE + 1) GET_MDR_DATA_REGION_STATUS) STATUS_RESPONSE_SIZE (λ _, None)
    (λ data, status_at data 1).

(** [sdv::rsd::request::GetMdrDataRegionStatus]; the response gets its length from the
    constructor of the class it is derived from.  [m_is_rackscale_extension_byte_present]
    is left out. *)
Definition Rsd_GetMdrDataRegionStatus_req (region_id : Z) : Request :=
  mkRequest (Message_new GROUP_EXTENSION GET_MDR_DATA_REGION_STATUS) (λ data,
    mret (data ++ [GroupExtension_RACKSCALE; region_id])).

Definition Rsd_GetMdrDataRegionStatus_rsp : Response MdrDataRegionStatus :=
  mkResponse (Message_new (GROUP_EXTENSION + 1) GET_MDR_DATA_REGION_STATUS) STATUS_RESPONSE_SIZE (λ _, None)
    (λ data, _ ← index data 1; status_at data 2).

(** ** Read *)

Definition READ_MAX_DATA_COUNT : Z := 255.
Definition OFFSET_DATA : nat := 3.

(** [sdv::request::MdrRegionRead] and its response *)
Definition MdrRegionRead_req (region_id data_length offset : Z) : Request :=
  mkRequest (Message_new RACKSCALE MDR_REGION_READ) (λ data,
    mret (data ++ [region_id; data_length] ++ offset_bytes offset)).

Definition MdrRegionRead_rsp (data_length : Z) : Response (list Z) :=
  mkResponse (Message_new (RACKSCALE + 1) MDR_REGION_READ) (Z.to_nat data_length + OFFSET_DATA) (λ _, None)
    (λ data, m_length ← index data 1; _ ← index data 2; range_at data 3 m_length).

(** [sdv::rsd::response::MdrRegionRead::throw_error_on_completion_code] *)
Definition rsd_read_error (completion_code : Z) : option exn :=
  if completion_code =? 0xC9 then Some InvalidMdrRegion
  else if completion_code =? 0x81 then Some MdrRegionInUse
  else if completion_code =? 0xD5 then Some MdrRegionNotLocked
  else if completion_code =? 0xC7 then Some MdrDataLengthError
  else if completion_code =? 0xC4 then Some MdrInvalidPayloadSize
  else None.

Definition Rsd_MdrRegionRead_req (region_id data_length offset : Z) : Request :=
  mkRequest (Message_new GROUP_EXTENSION MDR_REGION_READ) (λ data,
    mret (data ++ [GroupExtension_RACKSCALE; region_id; data_length] ++ offset_bytes offset)).

Definition Rsd_MdrRegionRead_rsp (data_length : Z) : Response (list Z) :=
  mkResponse (Message_new (GROUP_EXTENSION + 1) MDR_REGION_READ) (Z.to_nat data_length + OFFSET_DATA) rsd_read_error
    (λ data, _ ← index data 1; m_length ← index data 2; _ ← index data 3; range_at data 4 m_length).

(** ** Lock, write and completion *)

(** [response::MdrRegionLock::throw_error_on_completion_code] *)
Definition lock_error (completion_code : Z) : option exn :=
  if completion_code =? 0xC9 then Some InvalidMdrRegion
  else if completion_code =? 0x81 then Some InvalidMdrRegion
  else if completion_code =? 0xD5 then Some InvalidMdrRegion
  else None.

Definition MdrRegionLock_req (session_lock_handle region_id lock_type timeout : Z) : Request :=
  mkRequest (Message_new GROUP_EXTENSION MDR_REGION_LOCK) (λ data,
    mret (data ++ [GroupExtension_RACKSCALE; session_lock_handle; region_id; lock_type] ++ offset_bytes timeout)).

(** The session lock handle. *)
Definition MdrRegionLock_rsp : Response Z :=
  mkResponse (Message_new (GROUP_EXTENSION + 1) MDR_REGION_LOCK) 3 lock_error
    (λ data, _ ← index data 1; index data 2).

Definition DEFAULT_TIMEOUT_MS : Z := 1000.
Definition DEFAULT_RETRIES : Z := 3.

(** [response::MdrRegionWrite::throw_error_on_completion_code] *)
Definition write_error (completion_code : Z) : option exn :=
  if completion_code =? 0xC9 then Some InvalidMdrRegion
  else if completion_code =? 0x81 then Some MdrRegionInUse
  else if completion_code =? 0xD5 then Some MdrRegionNotLocked
  else if completion_code =? 0xC7 then Some MdrDataLengthError
  else None.

Definition WRITE_MAX_DATA_COUNT : Z := 120.

Definition MdrRegionWrite_req (session_lock_handle region_id data_length data_offset : Z) (m_data : list Z)
    : Request :=
  mkRequest (Message_new GROUP_EXTENSION MDR_REGION_WRITE) (λ data,
    mret (data ++ [GroupExtension_RACKSCALE; session_lock_handle; region_id; data_length]
               ++ offset_bytes data_offset ++ m_data)).

Record MdrRegionWriteResponse := mkWriteResponse {
  write_region_id : Z;
  write_data_validation : Z;
  write_lock_status : Z;
  max_region_length : Z;
  size_of_region_used : Z;
}.

Definition MdrRegionWrite_rsp : Response MdrRegionWriteResponse :=
  mkResponse (Message_new (GROUP_EXTENSION + 1) MDR_REGION_WRITE) 9 write_error (λ data,
    _ ← index data 1;
    region ← index data 2;
    validation ← index data 3;
    lock ← index data 4;
    max_length ← uint16_at data 5;
    used ← uint16_at data 7;
    mret (mkWriteResponse region validation lock max_length used)).

(** [response::MdrRegionUpdateComplete::throw_error_on_completion_code] *)
Definition complete_error (completion_code : Z) : option exn :=
  if completion_code =? 0xC9 then Some InvalidMdrRegion
  else if completion_code =? 0x81 then Some MdrRegionInUse
  else if completion_code =? 0xD5 then Some MdrRegionNotLocked
  else None.

Definition MdrRegionUpdateComplete_req (session_lock_handle region_id : Z) : Request :=
  mkRequest (Message_new GROUP_EXTENSION MDR_REGION_UPDATE_COMPLETE) (λ data,
    mret (data ++ [GroupExtension_RACKSCALE; session_lock_handle; region_id])).

Definition MdrRegionUpdateComplete_rsp : Response unit :=
  mkResponse (Message_new (GROUP_EXTENSION + 1) MDR_REGION_UPDATE_COMPLETE) 2 complete_error
    (λ data, _ ← index data 1; mret tt).

(** * Accessors *)

(** The requests and responses that the templates of [MdrRegionAccessor] are
    instantiated with. *)
Record Commands := mkCommands {
  status_request : Z → Request;
  status_response : Response MdrDataRegionStatus;
  read_request : Z → Z → Z → Request;
  read_response : Z → Response (list Z);
}.

Definition grantley : Commands :=
  mkCommands GetMdrDataRegionStatus_req GetMdrDataRegionStatus_rsp MdrRegionRead_req MdrRegionRead_rsp.
Definition purley : Commands :=
  mkCommands Rsd_GetMdrDataRegionStatus_req Rsd_GetMdrDataRegionStatus_rsp
    Rsd_MdrRegionRead_req Rsd_MdrRegionRead_rsp.

(** [MdrRegionGuard]: the handle and the tries that are left. *)
Record MdrRegionGuard := mkGuard { m_handle : Z; m_retries : Z }.

(** [catch (const MdrRegionInUse&)] and [catch (const MdrRegionLocked&)] *)
Definition try_again (e : exn) : bool := bool_decide (e = MdrRegionInUse ∨ e = MdrRegionLocked).

Section accessor.
Context {W : Type} `{!IpmiLink W}.
Variable m_region_id : Z.

Definition send_command {A} (request : Request) (response : Response A) : M W A :=
  link_send request BridgeInfo_new response.

Definition get_mdr_region_status (C : Commands) : M W MdrDataRegionStatus :=
  send_command (status_request C m_region_id) (status_response C).

Definition check_mdr_region_unlocked_and_valid (s : MdrDataRegionStatus) : M W unit :=
  if negb (lock_status s =? UNLOCKED) then throw MdrDataRegionLockedError
  else if negb (data_validation s =? VALID) then throw MdrDataRegionInvalidError
  else if region_size_used s =? 0 then throw MdrDataRegionEmptyError
  else mret tt.

(** [while (remaining > 0)] *)
Fixpoint read_loop (fuel : nat) (C : Commands) (bytes_to_read remaining : Z) (mdr_region_data : list Z)
    : M W (list Z) :=
  match fuel with
  | O => throw out_of_fuel
  | S fuel' =>
      if 0 <? remaining then
        let to_read := wrap 8 (Z.min READ_MAX_DATA_COUNT remaining) in
        response_data ← send_command (read_request C m_region_id to_read (wrap 16 (bytes_to_read - remaining)))
                          (read_response C to_read);
        read_loop fuel' C bytes_to_read (wrap 16 (remaining - Z.of_nat (length response_data)))
          (mdr_region_data ++ response_data)
      else mret mdr_region_data
  end.

Definition read_mdr_region (fuel : nat) (C : Commands) (bytes_to_read : Z) : M W (list Z) :=
  read_loop fuel C bytes_to_read bytes_to_read [].

(** The status of a region that can be read. *)
Definition readable_status (C : Commands) : M W MdrDataRegionStatus :=
  status ← get_mdr_region_status C;
  check_mdr_region_unlocked_and_valid status;;
  mret status.

Definition get_mdr_region_size_to_read (C : Commands) : M W Z := status ← readable_status C; mret (region_size_used status).
Definition get_mdr_region_checksum (C : Commands) : M W Z := status ← readable_status C; mret (region_checksum status).
(** [PurleyMdrRegionAccessor::get_mdr_region_update_count]; the other accessor throws. *)
Definition get_mdr_region_update_count : M W Z := status ← readable_status purley; mret (data_update_count status).

Definition get_mdr_region (fuel : nat) (C : Commands) : M W (list Z) :=
  bytes_to_read ← get_mdr_region_size_to_read C;
  read_mdr_region fuel C bytes_to_read.

Definition lock_mdr_region (lock_type timeout_ms handle : Z) : M W Z :=
  send_command (MdrRegionLock_req handle m_region_id lock_type timeout_ms) MdrRegionLock_rsp.

(** [while (remaining > 0)], [iter] is the rest of the buffer. *)
Fixpoint write_loop (fuel : nat) (buffer_size : Z) (handle remaining : Z) (iter : list Z) : M W unit :=
  match fuel with
  | O => throw out_of_fuel
  | S fuel' =>
      if 0 <? remaining then
        let to_write := wrap 8 (Z.min WRITE_MAX_DATA_COUNT remaining) in
        if (length iter <? Z.to_nat to_write)%nat then throw undefined_behaviour
        else
          send_command (MdrRegionWrite_req handle m_region_id to_write (wrap 16 (buffer_size - remaining))
                          (take (Z.to_nat to_write) iter)) MdrRegionWrite_rsp;;
          write_loop fuel' buffer_size handle (wrap 16 (remaining - to_write)) (drop (Z.to_nat to_write) iter)
      else mret tt
  end.

Definition write_mdr_region_impl (buffer : list Z) (mdr_capacity handle : Z) : M W unit :=
  if mdr_capacity <? Z.of_nat (length buffer) then throw (runtime_error "Too much data to write to the MDR region")
  else write_loop (S (length buffer)) (Z.of_nat (length buffer)) handle (Z.of_nat (length buffer)) buffer.

Definition complete_mdr_update (handle : Z) : M W unit :=
  send_command (MdrRegionUpdateComplete_req handle m_region_id) MdrRegionUpdateComplete_rsp.

(** One round of [MdrRegionGuard::lock]: the new handle, [None] to try again. *)
Definition try_lock (duration : Z) (g : MdrRegionGuard) : M W (option Z) :=
  try_catch (handle ← lock_mdr_region LockType_PREEMPTIBLE_LOCK duration (m_handle g); mret (Some handle))
    (λ e, if try_again e then mret None else throw e).

(** [do ... while (m_retries-- > 0)]: [tries] is [m_retries] as a number. *)
Fixpoint lock_tries (tries : nat) (duration : Z) (g : MdrRegionGuard) : M W MdrRegionGuard :=
  got ← try_lock duration g;
  match got with
  | Some handle => mret (mkGuard handle (m_retries g))
  | None =>
      match tries with
      | O => throw (runtime_error "Unable to obtain MDR lock")
      | S tries' => lock_tries tries' duration (mkGuard (m_handle g) (m_retries g - 1))
      end
  end.

Definition lock (duration : Z) (g : MdrRegionGuard) : M W MdrRegionGuard :=
  lock_tries (Z.to_nat (m_retries g)) duration g.

Definition unlock_except (g : MdrRegionGuard) : M W unit :=
  if m_handle g =? 0 then mret tt else complete_mdr_update (m_handle g).

(** [PurleyMdrRegionAccessor::write_mdr_region] *)
Definition purley_write_mdr_region (buffer : list Z) : M W unit :=
  status ← get_mdr_region_status purley;
  let bytes_to_write := region_size status in
  guard ← lock DEFAULT_TIMEOUT_MS (mkGuard 0 DEFAULT_RETRIES);
  write_mdr_region_impl buffer bytes_to_write (m_handle guard);;
  unlock_except guard.

(** [GrantleyMdrRegionAccessor::write_mdr_region] *)
Definition grantley_write_mdr_region (buffer : list Z) : M W unit :=
  throw (runtime_error "GrantleyMdrRegionAccessor::write_mdr_region not implemented").

End accessor.

(** ** The factory *)

Definition PRODUCT_ID_INTEL_XEON_BDC_R : Z := 0x2041.
Definition PRODUCT_ID_INTEL_XEON_PURLEY : Z := 0x3038.

(** [MdrRegionAccessor]: the class and the region it was made for. *)
Inductive MdrRegionAccessor :=
  | PurleyMdrRegionAccessor (region_id : Z)
  | GrantleyMdrRegionAccessor (region_id : Z).

Definition create (platform_id region_id : Z) : result MdrRegionAccessor :=
  if platform_id =? PRODUCT_ID_INTEL_XEON_PURLEY then mret (PurleyMdrRegionAccessor region_id)
  else if platform_id =? PRODUCT_ID_INTEL_XEON_BDC_R then mret (GrantleyMdrRegionAccessor region_id)
  else Throw (runtime_error "Unsupported platform").

Section virtual.
Context {W : Type} `{!IpmiLink W}.

Definition accessor_get_mdr_region (fuel : nat) (a : MdrRegionAccessor) : M W (list Z) :=
  match a with
  | PurleyMdrRegionAccessor r => get_mdr_region r fuel purley
  | GrantleyMdrRegionAccessor r => get_mdr_region r fuel grantley
  end.

Definition accessor_write_mdr_region (a : MdrRegionAccessor) (buffer : list Z) : M W unit :=
  match a with
  | PurleyMdrRegionAccessor r => purley_write_mdr_region r buffer
  | GrantleyMdrRegionAccessor _ => grantley_write_mdr_region buffer
  end.

Definition accessor_get_mdr_region_checksum (a : MdrRegionAccessor) : M W Z :=
  match a with
  | PurleyMdrRegionAccessor r => get_mdr_region_checksum r purley
  | GrantleyMdrRegionAccessor r => get_mdr_region_checksum r grantley
  end.

Definition accessor_get_mdr_region_update_count (a : MdrRegionAccessor) : M W Z :=
  match a with
  | PurleyMdrRegionAccessor r => get_mdr_region_update_count r
  | GrantleyMdrRegionAccessor _ =>
      throw (runtime_error "GrantleyMdrRegionAccessor::get_mdr_region_update_count not implemented")
  end.
End virtual.

(** * What a BMC promises of a region *)

(** A region; [session] is the handle of the lock and what has been written under it. *)
Record Region := mkRegion {
  contents : list Z;
  capacity : Z;
  update_count : Z;
  checksum : Z;
  is_valid : bool;
  session : option (Z * list Z);
}.

Definition set_session (s : option (Z * list Z)) (R : Region) : Region :=
  mkRegion (contents R) (capacity R) (update_count R) (checksum R) (is_valid R) s.

(** The sizes of a region are 16-bit numbers. *)
Definition wf_region (R : Region) : Prop :=
  in_range 16 (capacity R) ∧ Z.of_nat (length (contents R)) <= capacity R.

(** The dialect of a platform. *)
Definition region_of (a : MdrRegionAccessor) : Z :=
  match a with PurleyMdrRegionAccessor r | GrantleyMdrRegionAccessor r => r end.
Definition commands_of (a : MdrRegionAccessor) : Commands :=
  match a with PurleyMdrRegionAccessor _ => purley | GrantleyMdrRegionAccessor _ => grantley end.
Definition net_fn (a : MdrRegionAccessor) : Z :=
  match a with PurleyMdrRegionAccessor _ => GROUP_EXTENSION | GrantleyMdrRegionAccessor _ => RACKSCALE end.
Definition extension (a : MdrRegionAccessor) : list Z :=
  match a with PurleyMdrRegionAccessor _ => [GroupExtension_RACKSCALE] | GrantleyMdrRegionAccessor _ => [] end.

(** The status of a region and the data of an unlocked, valid one. *)
Class MdrDevice (D : Type) `{!Device D} (a : MdrRegionAccessor) (view : D → Region) : Prop := {
  region_wf d : wf_region (view d);
  region_status d : ∃ version lock d',
    respond (Message_new (net_fn a) GET_MDR_DATA_REGION_STATUS) BridgeInfo_new (extension a ++ [region_of a]) d =
      (0 :: extension a ++ [version; region_of a; if is_valid (view d) then 1 else 0; update_count (view d); lock]
         ++ le_bytes 2 (capacity (view d)) ++ le_bytes 2 (Z.of_nat (length (contents (view d))))
         ++ [checksum (view d)], d') ∧
    (lock = 0 ↔ session (view d) = None) ∧ view d' = view d;
  region_read d (offset count : nat) :
    session (view d) = None → is_valid (view d) = true →
    (0 < count ≤ 255)%nat → (offset + count ≤ length (contents (view d)))%nat →
    ∃ d', respond (Message_new (net_fn a) MDR_REGION_READ) BridgeInfo_new
            (extension a ++ [region_of a; Z.of_nat count] ++ le_bytes 2 (Z.of_nat offset)) d =
      (0 :: extension a ++ [Z.of_nat count; update_count (view d)] ++ slice offset count (contents (view d)), d') ∧
      view d' = view d;
}.

(** A lock opens a session with a handle that is not zero; data written in the session
    from where it ends is added to it; its completion makes it the contents. *)
Class MdrWritable (D : Type) `{!Device D} (r : Z) (view : D → Region) : Prop := {
  region_lock d timeout :
    session (view d) = None →
    ∃ handle d', respond (Message_new GROUP_EXTENSION MDR_REGION_LOCK) BridgeInfo_new
        ([GroupExtension_RACKSCALE; 0; r; LockType_PREEMPTIBLE_LOCK] ++ le_bytes 2 timeout) d =
      ([0; GroupExtension_RACKSCALE; handle], d') ∧
      0 < handle < 256 ∧ view d' = set_session (Some (handle, [])) (view d);
  region_write d handle staged data :
    session (view d) = Some (handle, staged) → (0 < length data ≤ 120)%nat →
    Z.of_nat (length (staged ++ data)) <= capacity (view d) →
    ∃ status d', respond (Message_new GROUP_EXTENSION MDR_REGION_WRITE) BridgeInfo_new
        ([GroupExtension_RACKSCALE; handle; r; Z.of_nat (length data)]
           ++ le_bytes 2 (Z.of_nat (length staged)) ++ data) d =
      (0 :: GroupExtension_RACKSCALE :: status, d') ∧
      length status = 7%nat ∧ view d' = set_session (Some (handle, staged ++ data)) (view d);
  region_complete d handle staged :
    session (view d) = Some (handle, staged) →
    ∃ d', respond (Message_new GROUP_EXTENSION MDR_REGION_UPDATE_COMPLETE) BridgeInfo_new
        [GroupExtension_RACKSCALE; handle; r] d = ([0; GroupExtension_RACKSCALE], d') ∧
      contents (view d') = staged ∧ is_valid (view d') = true ∧ session (view d') = None ∧
      capacity (view d') = capacity (view d);
}.

(** ** Codecs *)

Lemma offset_bytes_le v : offset_bytes v = le_bytes 2 v.
Proof.
  unfold offset_bytes, wrap. cbn [le_bytes]. rewrite Z.shiftr_div_pow2 by lia. done.
Qed.

Lemma uint16_combine v : in_range 16 v → wrap 16 (Z.lor (Z.shiftl (v / 256 mod 256) 8) (v mod 256)) = v.
Proof.
  unfold in_range, wrap. intros Hv. rewrite Z.lor_comm, lor_shiftl_add by (zpow; dlia). zpow. dlia.
Qed.

(** A status as it stands in an answer. *)
Lemma status_unpack a version valid count lk cap used sum :
  in_range 16 cap → in_range 16 used →
  do_unpack (status_response (commands_of a))
    (0 :: extension a ++ [version; region_of a; valid; count; lk] ++ le_bytes 2 cap ++ le_bytes 2 used ++ [sum]) =
  Ok (mkStatus version (region_of a) valid count lk cap used sum).
Proof.
  intros Hc Hu. rewrite do_unpack_run; [|destruct a; cbn; unfold STATUS_RESPONSE_SIZE; lia|done].
  destruct a; cbn; by rewrite !uint16_combine.
Qed.

Lemma range_at_app pre n xs : length xs = n → range_at (pre ++ xs) (length pre) (Z.of_nat n) = Ok xs.
Proof.
  intros <-. unfold range_at. rewrite Nat2Z.id, length_app, Nat.leb_refl. unfold slice.
  by rewrite drop_app_length, take_ge.
Qed.

Lemma read_unpack a n count xs :
  length xs = n →
  do_unpack (read_response (commands_of a) (Z.of_nat n)) (0 :: extension a ++ [Z.of_nat n; count] ++ xs) = Ok xs.
Proof.
  intros Hn. rewrite do_unpack_run; [|destruct a; cbn; unfold OFFSET_DATA; rewrite Hn, Nat2Z.id; lia|done].
  destruct a.
  - apply (range_at_app [0; GroupExtension_RACKSCALE; Z.of_nat n; count] n xs Hn).
  - apply (range_at_app [0; Z.of_nat n; count] n xs Hn).
Qed.

(** ** One command over a faithful link *)

Lemma send_run {W D : Type} {L : IpmiLink W} {V : Device D} {up : W → Prop} {dev : W → D}
    {HF : Faithful W D up dev} {A} request (response : Response A) w bytes m answer d' :
  up w → respond m BridgeInfo_new bytes (dev w) = (answer, d') →
  do_pack request = Ok bytes → request_message request = m →
  ∃ w', send_command request response w = (do_unpack response answer, w') ∧ up w' ∧ dev w' = d'.
Proof.
  intros Hup Hr Hp <-.
  destruct (faithful_send _ request BridgeInfo_new response w bytes Hup Hp) as (w' & Hw & Hup' & Hd').
  rewrite Hr in Hw, Hd'. by exists w'.
Qed.

(** * Reading *)

Section reading.
Context {W D : Type} {L : IpmiLink W} {V : Device D} {up : W → Prop} {dev : W → D}.
Context {HF : Faithful W D up dev} {a : MdrRegionAccessor} {view : D → Region} {HD : MdrDevice D a view}.
Implicit Types w : W.

(** What the region of the device is. *)
Definition region w : Region := view (dev w).

Lemma status_run w : up w → ∃ status w',
  get_mdr_region_status (region_of a) (commands_of a) w = (Ok status, w') ∧ up w' ∧ region w' = region w ∧
  region_size status = capacity (region w) ∧
  region_size_used status = Z.of_nat (length (contents (region w))) ∧
  data_validation status = (if is_valid (region w) then 1 else 0) ∧
  (lock_status status = 0 ↔ session (region w) = None).
Proof using HF HD.
  intros Hup. destruct (region_status (dev w)) as (version & lk & d' & Hd & Hlk & Hv).
  destruct (region_wf (dev w)) as [Hcap Hlen].
  destruct (send_run (status_request (commands_of a) (region_of a)) (status_response (commands_of a)) w
    _ _ _ _ Hup Hd) as (w' & Hw & Hup' & Hd'); [by destruct a..|].
  rewrite status_unpack in Hw; [|done|unfold in_range in *; zpow; lia].
  eexists _, w'. split; [exact Hw|]. split; [done|]. unfold region. rewrite Hd'. done.
Qed.

Lemma read_run w (offset count : nat) :
  up w → session (region w) = None → is_valid (region w) = true →
  (0 < count ≤ 255)%nat → (offset + count ≤ length (contents (region w)))%nat →
  ∃ w', send_command (read_request (commands_of a) (region_of a) (Z.of_nat count) (Z.of_nat offset))
          (read_response (commands_of a) (Z.of_nat count)) w = (Ok (slice offset count (contents (region w))), w') ∧
        up w' ∧ region w' = region w.
Proof using HF HD.
  intros Hup Hs Hv Hc Ho. destruct (region_read (dev w) offset count Hs Hv Hc Ho) as (d' & Hd & Hview).
  destruct (send_run (read_request (commands_of a) (region_of a) (Z.of_nat count) (Z.of_nat offset))
    (read_response (commands_of a) (Z.of_nat count)) w _ _ _ _ Hup Hd) as (w' & Hw & Hup' & Hd'); [|by destruct a|].
  { destruct a; unfold do_pack; cbn -[le_bytes offset_bytes]; by rewrite offset_bytes_le. }
  rewrite read_unpack in Hw by (apply length_slice; done).
  exists w'. split; [exact Hw|]. split; [done|]. unfold region. by rewrite Hd'.
Qed.

(** The loop reads the rest of the contents, chunk after chunk. *)
Lemma region_read_loop_run fuel : ∀ w (n : nat),
  up w → session (region w) = None → is_valid (region w) = true →
  (n ≤ length (contents (region w)))%nat → (length (contents (region w)) - n < fuel)%nat →
  ∃ w', read_loop (region_of a) fuel (commands_of a) (Z.of_nat (length (contents (region w))))
          (Z.of_nat (length (contents (region w)) - n)) (take n (contents (region w))) w
        = (Ok (contents (region w)), w') ∧ up w' ∧ region w' = region w.
Proof using HF HD.
  induction fuel as [|fuel IH]; intros w n Hup Hs Hv Hn Hf; [lia|]. cbn [read_loop].
  destruct (region_wf (dev w)) as [Hcap Hlen]. change (view (dev w)) with (region w) in *.
  unfold in_range in Hcap. change (2 ^ 16) with 65536 in Hcap.
  set (c := contents (region w)) in *.
  destruct (Z.ltb_spec 0 (Z.of_nat (length c - n))) as [Hlt|Hge].
  - pose (k := Nat.min 255 (length c - n)).
    assert (wrap 8 (Z.min READ_MAX_DATA_COUNT (Z.of_nat (length c - n))) = Z.of_nat k) as ->.
    { unfold READ_MAX_DATA_COUNT. rewrite wrap_small; [lia|]. unfold in_range. zpow. lia. }
    assert (wrap 16 (Z.of_nat (length c) - Z.of_nat (length c - n)) = Z.of_nat n) as ->.
    { rewrite wrap_small; [lia|]. unfold in_range. zpow. lia. }
    destruct (read_run w n k Hup Hs Hv) as (w1 & H1 & Hup1 & Hr1); [lia|fold c; lia|].
    fold c in H1. cbv zeta. rewrite (bind_run _ _ _ _ _ H1).
    rewrite length_slice by lia.
    assert (wrap 16 (Z.of_nat (length c - n) - Z.of_nat k) = Z.of_nat (length c - (n + k))) as ->.
    { rewrite wrap_small; [lia|]. unfold in_range. zpow. lia. }
    rewrite slice_take_app by lia.
    destruct (IH w1 (n + k)%nat) as (w' & Hw & Hup' & Hr'); rewrite ?Hr1; [done..|fold c; lia|fold c; lia|].
    rewrite Hr1 in Hw. exists w'. split; [exact Hw|]. split; [done|]. by rewrite Hr'.
  - exists w. split; [|done]. rewrite take_ge by lia. done.
Qed.

(** The result of a read on every branch. *)
Definition read_outcome (R : Region) : result (list Z) :=
  if bool_decide (session R ≠ None) then Throw MdrDataRegionLockedError
  else if negb (is_valid R) then Throw MdrDataRegionInvalidError
  else if bool_decide (contents R = []) then Throw MdrDataRegionEmptyError
  else Ok (contents R).

Lemma get_mdr_region_run fuel w :
  up w → (length (contents (region w)) < fuel)%nat →
  ∃ w', accessor_get_mdr_region fuel a w = (read_outcome (region w), w') ∧ up w' ∧ region w' = region w.
Proof using HF HD.
  intros Hup Hf. destruct (status_run w Hup) as (st & w1 & H1 & Hup1 & Hr1 & _ & Hused & Hvalid & Hlock).
  assert (accessor_get_mdr_region fuel a w = get_mdr_region (region_of a) fuel (commands_of a) w) as ->
    by by destruct a.
  unfold get_mdr_region, get_mdr_region_size_to_read, readable_status, read_outcome.
  unfold mbind at 1 2 3, M_bind at 1 2 3. rewrite H1. unfold check_mdr_region_unlocked_and_valid, UNLOCKED, VALID.
  destruct (session (region w)) as [s|] eqn:Es.
  { rewrite (proj2 (Z.eqb_neq _ _)) by (intros E; by apply Hlock in E). cbn. by exists w1. }
  rewrite (proj2 Hlock), Z.eqb_refl by done. rewrite bool_decide_eq_false_2 by auto. cbn [negb].
  rewrite Hvalid. destruct (is_valid (region w)) eqn:Ev; cbn [negb Z.eqb Pos.eqb]; [|by exists w1].
  rewrite Hused. destruct (Z.eqb_spec (Z.of_nat (length (contents (region w)))) 0) as [E|E].
  { rewrite bool_decide_eq_true_2 by (apply length_zero_iff_nil; lia). by exists w1. }
  rewrite bool_decide_eq_false_2 by (intros El; by rewrite El in E).
  cbn [mbind M_bind mret M_ret]. unfold read_mdr_region.
  destruct (region_read_loop_run fuel w1 0) as (w' & Hw & Hup' & Hr'); [done|by rewrite Hr1..|rewrite Hr1; lia|rewrite Hr1; lia|].
  rewrite Hr1, Nat.sub_0_r in Hw. cbn [take] in Hw. exists w'. split; [by rewrite <- Hw, <- Hused|].
  split; [done|]. by rewrite Hr'.
Qed.
End reading.

(** * Writing *)

Section writing.
Context {W D : Type} {L : IpmiLink W} {V : Device D} {up : W → Prop} {dev : W → D}.
Context {HF : Faithful W D up dev} {r : Z} {view : D → Region}.
Context {HD : MdrDevice D (PurleyMdrRegionAccessor r) view} {HW : MdrWritable D r view}.
Implicit Types w : W.

Notation region := (region (dev := dev) (view := view)).

Lemma lock_run w : up w → session (region w) = None → ∃ handle w',
  lock r DEFAULT_TIMEOUT_MS (mkGuard 0 DEFAULT_RETRIES) w = (Ok (mkGuard handle DEFAULT_RETRIES), w') ∧
  up w' ∧ 0 < handle < 256 ∧ region w' = set_session (Some (handle, [])) (region w).
Proof using HF HW.
  intros Hup Hs. destruct (region_lock (dev w) DEFAULT_TIMEOUT_MS Hs) as (handle & d' & Hd & Hh & Hv).
  destruct (send_run (MdrRegionLock_req 0 r LockType_PREEMPTIBLE_LOCK DEFAULT_TIMEOUT_MS) MdrRegionLock_rsp w
    _ _ _ _ Hup Hd) as (w' & Hw & Hup' & Hd'); [done..|].
  exists handle, w'. unfold MdrRegion.region. rewrite Hd'. split; [|done].
  assert (try_lock r DEFAULT_TIMEOUT_MS (mkGuard 0 DEFAULT_RETRIES) w = (Ok (Some handle), w')) as Hl.
  { unfold try_lock, try_catch, lock_mdr_region. cbn [m_handle]. by erewrite bind_run by exact Hw. }
  unfold lock. change (Z.to_nat (m_retries (mkGuard 0 DEFAULT_RETRIES))) with 3%nat. cbn [lock_tries].
  by rewrite (bind_run _ _ _ _ _ Hl).
Qed.

Lemma write_loop_run fuel : ∀ w handle staged rest,
  up w → session (region w) = Some (handle, staged) →
  Z.of_nat (length (staged ++ rest)) <= capacity (region w) → (length rest < fuel)%nat →
  ∃ w', write_loop r fuel (Z.of_nat (length (staged ++ rest))) handle (Z.of_nat (length rest)) rest w = (Ok tt, w') ∧
        up w' ∧ region w' = set_session (Some (handle, staged ++ rest)) (region w).
Proof using HF HD HW.
  induction fuel as [|fuel IH]; intros w handle staged rest Hup Hs Hc Hf; [lia|]. cbn [write_loop].
  destruct (region_wf (dev w)) as [Hcap _]. change (view (dev w)) with (region w) in Hcap.
  unfold in_range in Hcap. change (2 ^ 16) with 65536 in Hcap.
  destruct (Z.ltb_spec 0 (Z.of_nat (length rest))) as [Hlt|Hge].
  - pose (k := Nat.min 120 (length rest)). rewrite length_app in *.
    assert (wrap 8 (Z.min WRITE_MAX_DATA_COUNT (Z.of_nat (length rest))) = Z.of_nat k) as ->.
    { unfold WRITE_MAX_DATA_COUNT. rewrite wrap_small; [lia|]. unfold in_range. zpow. lia. }
    assert (wrap 16 (Z.of_nat (length staged + length rest) - Z.of_nat (length rest)) = Z.of_nat (length staged)) as ->.
    { rewrite wrap_small; [lia|]. unfold in_range. zpow. lia. }
    cbv zeta. rewrite Nat2Z.id, (proj2 (Nat.ltb_ge _ _)) by lia.
    assert (length (take k rest) = k) as Hk by (rewrite length_take; lia).
    destruct (region_write (dev w) handle staged (take k rest)) as (status & d' & Hd & Hst & Hv);
      [done|lia|rewrite length_app, Hk; change (view (dev w)) with (region w); lia|].
    rewrite Hk in Hd.
    destruct (send_run (MdrRegionWrite_req handle r (Z.of_nat k) (Z.of_nat (length staged)) (take k rest))
      MdrRegionWrite_rsp w _ _ _ _ Hup Hd) as (w1 & Hw & Hup1 & Hd1);
      [unfold do_pack; cbn -[le_bytes offset_bytes take]; by rewrite offset_bytes_le|done|].
    do 7 (destruct status as [|? status]; [done|]). destruct status; [|done]. cbn in Hw.
    rewrite (bind_run _ _ _ _ _ Hw).
    assert (wrap 16 (Z.of_nat (length rest) - Z.of_nat k) = Z.of_nat (length (drop k rest))) as ->.
    { rewrite length_drop, wrap_small; [lia|]. unfold in_range. zpow. lia. }
    assert (region w1 = set_session (Some (handle, staged ++ take k rest)) (region w)) as Hr1
      by (unfold MdrRegion.region; by rewrite Hd1).
    destruct (IH w1 handle (staged ++ take k rest) (drop k rest)) as (w' & Hw' & Hup' & Hr'); [done|by rewrite Hr1|..].
    { rewrite Hr1, <- app_assoc, take_drop, length_app. cbn. lia. }
    { rewrite length_drop. lia. }
    rewrite <- app_assoc, take_drop, length_app in Hw'. exists w'. split; [exact Hw'|]. split; [done|].
    rewrite Hr', Hr1, <- app_assoc, take_drop. done.
  - destruct rest; [|cbn in Hge; lia]. exists w. rewrite app_nil_r. split; [done|]. split; [done|].
    revert Hs. unfold set_session. destruct (region w). cbn. by intros ->.
Qed.

(** A buffer that fits becomes the contents of the region; one that does not leaves the
    region locked. *)
Lemma write_mdr_region_run w buffer : up w → session (region w) = None →
  ∃ w', up w' ∧ capacity (region w') = capacity (region w) ∧
  if bool_decide (Z.of_nat (length buffer) <= capacity (region w)) then
    purley_write_mdr_region r buffer w = (Ok tt, w') ∧
    contents (region w') = buffer ∧ is_valid (region w') = true ∧ session (region w') = None
  else
    purley_write_mdr_region r buffer w = (Throw (runtime_error "Too much data to write to the MDR region"), w') ∧
    contents (region w') = contents (region w) ∧ ∃ handle, session (region w') = Some (handle, []).
Proof using HF HD HW.
  intros Hup Hs.
  destruct (status_run (a := PurleyMdrRegionAccessor r) w Hup) as (st & w1 & H1 & Hup1 & Hr1 & Hsize & _).
  cbn [region_of commands_of] in H1.
  destruct (lock_run w1 Hup1) as (handle & w2 & H2 & Hup2 & Hh & Hr2); [by rewrite Hr1|]. rewrite Hr1 in Hr2.
  unfold purley_write_mdr_region. rewrite (bind_run _ _ _ _ _ H1). cbv zeta. rewrite (bind_run _ _ _ _ _ H2).
  cbn [m_handle]. unfold write_mdr_region_impl. rewrite Hsize.
  destruct (Z.leb_spec (Z.of_nat (length buffer)) (capacity (region w))) as [Hfit|Hbig].
  - rewrite (proj2 (Z.ltb_ge _ _)), bool_decide_eq_true_2 by lia.
    destruct (write_loop_run (S (length buffer)) w2 handle [] buffer) as (w3 & H3 & Hup3 & Hr3);
      [done|by rewrite Hr2|by rewrite Hr2|lia|].
    cbn [app] in H3, Hr3. rewrite (bind_run _ _ _ _ _ H3). unfold unlock_except. cbn [m_handle].
    rewrite (proj2 (Z.eqb_neq _ _)) by lia.
    destruct (region_complete (dev w3) handle buffer) as (d' & Hd & Hc & Hv & Hn & Hcap).
    { change (view (dev w3)) with (region w3). by rewrite Hr3. }
    destruct (send_run (MdrRegionUpdateComplete_req handle r) MdrRegionUpdateComplete_rsp w3 _ _ _ _ Hup3 Hd)
      as (w4 & Hw & Hup4 & Hd4); [done..|].
    exists w4. split; [done|]. unfold MdrRegion.region in *. rewrite Hd4, Hcap, Hr3, Hr2. done.
  - rewrite (proj2 (Z.ltb_lt _ _)), bool_decide_eq_false_2 by lia.
    exists w2. split; [done|]. rewrite Hr2. split; [done|]. split; [done|]. split; [done|]. by exists handle.
Qed.

End writing.

Section round_trip.
Context {W D : Type} {L : IpmiLink W} {V : Device D} {up : W → Prop} {dev : W → D}.
Context {HF : Faithful W D up dev} {r : Z} {view : D → Region}.
Context {HD : MdrDevice D (PurleyMdrRegionAccessor r) view} {HW : MdrWritable D r view}.

(** A write and a read after it. *)
Lemma write_then_read fuel (w : W) buffer :
  up w → session (view (dev w)) = None → buffer ≠ [] →
  Z.of_nat (length buffer) <= capacity (view (dev w)) → (length buffer < fuel)%nat →
  ∃ w1 w2, accessor_write_mdr_region (PurleyMdrRegionAccessor r) buffer w = (Ok tt, w1) ∧
           accessor_get_mdr_region fuel (PurleyMdrRegionAccessor r) w1 = (Ok buffer, w2) ∧
           up w2 ∧ contents (view (dev w2)) = buffer ∧ session (view (dev w2)) = None.
Proof using HF HD HW.
  intros Hup Hs Hne Hfit Hf. destruct (write_mdr_region_run w buffer Hup Hs) as (w1 & Hup1 & _ & Hw).
  unfold region in Hw. rewrite bool_decide_eq_true_2 in Hw by done. destruct Hw as (H1 & Hc & Hv & Hn).
  destruct (get_mdr_region_run fuel w1) as (w2 & H2 & Hup2 & Hr2); [done|unfold region; by rewrite Hc|].
  exists w1, w2. unfold region in *. split; [exact H1|]. split; [|by rewrite Hr2].
  rewrite H2. unfold read_outcome. by rewrite Hn, Hv, Hc, !bool_decide_eq_false_2 by auto.
Qed.
End round_trip.

(** C39: over a faithful link to a BMC, what [write_mdr_region] of a Purley accessor wrote into
    an unlocked region is what the next [get_mdr_region] returns, byte for byte, whatever the
    length: the chunks of both loops, the lock, the completion and the checks of the status fit
    together.  One step of the reading loop per byte is enough. *)
Theorem written_region_is_read {W D : Type} {L : IpmiLink W} {V : Device D} {up : W → Prop} {dev : W → D}
    {HF : Faithful W D up dev} {r : Z} {view : D → Region}
    {HD : MdrDevice D (PurleyMdrRegionAccessor r) view} {HW : MdrWritable D r view} fuel (w : W) buffer :
  up w → session (view (dev w)) = None → buffer ≠ [] →
  Z.of_nat (length buffer) <= capacity (view (dev w)) → (length buffer < fuel)%nat →
  ∃ w1 w2, accessor_write_mdr_region (PurleyMdrRegionAccessor r) buffer w = (Ok tt, w1) ∧
           accessor_get_mdr_region fuel (PurleyMdrRegionAccessor r) w1 = (Ok buffer, w2).
Proof.
  intros Hup Hs Hne Hfit Hf. destruct (write_then_read fuel w buffer Hup Hs Hne Hfit Hf) as (w1 & w2 & ? & ? & _).
  by exists w1, w2.
Qed.

(** The outcome of a read of either platform's accessor depends on the region alone: a
    locked, invalid or empty region is refused, in that order, otherwise the result is
    its contents. *)
Theorem get_mdr_region_outcome {W D : Type} {L : IpmiLink W} {V : Device D} {up : W → Prop} {dev : W → D}
    {HF : Faithful W D up dev} {a : MdrRegionAccessor} {view : D → Region} {HD : MdrDevice D a view} fuel (w : W) :
  up w → (length (contents (view (dev w))) < fuel)%nat →
  (accessor_get_mdr_region fuel a w).1 = read_outcome (view (dev w)).
Proof. intros Hup Hf. destruct (get_mdr_region_run fuel w Hup Hf) as (w' & -> & _). done. Qed.

(** ** Where the code differs from what it means to do *)

(** The guard waits and tries again after [MdrRegionInUse] and [MdrRegionLocked], but
    the response of the lock turns both completion codes into [InvalidMdrRegion]: one
    answer that the region is in use or locked ends the write, although three tries
    are left. *)
Theorem busy_region_is_not_retried {W D : Type} {L : IpmiLink W} {V : Device D} {up : W → Prop} {dev : W → D}
    {HF : Faithful W D up dev} {r : Z} code rest d' (w : W) :
  up w → code = 0x81 ∨ code = 0xD5 →
  respond (Message_new GROUP_EXTENSION MDR_REGION_LOCK) BridgeInfo_new
    ([GroupExtension_RACKSCALE; 0; r; LockType_PREEMPTIBLE_LOCK] ++ le_bytes 2 DEFAULT_TIMEOUT_MS) (dev w)
    = (code :: rest, d') →
  ∃ w', lock r DEFAULT_TIMEOUT_MS (mkGuard 0 DEFAULT_RETRIES) w = (Throw InvalidMdrRegion, w') ∧ dev w' = d'.
Proof.
  intros Hup Hcode Hd.
  destruct (send_run (MdrRegionLock_req 0 r LockType_PREEMPTIBLE_LOCK DEFAULT_TIMEOUT_MS) MdrRegionLock_rsp w
    _ _ _ _ Hup Hd) as (w' & Hw & _ & Hd'); [done..|].
  exists w'. split; [|done].
  assert (do_unpack MdrRegionLock_rsp (code :: rest) = Throw InvalidMdrRegion) as E by by destruct Hcode as [->| ->].
  rewrite E in Hw. unfold lock. change (Z.to_nat (m_retries (mkGuard 0 DEFAULT_RETRIES))) with 3%nat. cbn [lock_tries].
  apply bind_throw. unfold try_lock, try_catch, lock_mdr_region. cbn [m_handle]. by rewrite (bind_throw _ _ _ _ _ Hw).
Qed.

(** The rsd status needs twelve bytes, but the length that is checked is that of the
    other platform: an answer of eleven bytes is accepted and read past its end. *)
Theorem short_status_overread rest :
  length rest = 10%nat → do_unpack Rsd_GetMdrDataRegionStatus_rsp (0 :: rest) = Throw undefined_behaviour.
Proof.
  intros Hl. rewrite do_unpack_run; [|cbn; unfold STATUS_RESPONSE_SIZE; lia|done].
  do 10 (destruct rest as [|? rest]; [done|]). by destruct rest.
Qed.

(** The same for the data of a region: an answer one byte short is accepted. *)
Theorem short_read_overread n count xs :
  (length xs + 1 = n)%nat →
  do_unpack (Rsd_MdrRegionRead_rsp (Z.of_nat n)) (0 :: GroupExtension_RACKSCALE :: Z.of_nat n :: count :: xs) =
    Throw undefined_behaviour.
Proof.
  intros Hl. rewrite do_unpack_run; [|cbn; unfold OFFSET_DATA; rewrite Nat2Z.id; lia|done].
  cbn. unfold range_at. rewrite Nat2Z.id. cbn [length].
  by rewrite (proj2 (Nat.leb_gt _ _)) by lia.
Qed.

(** A device that answers every read with no data keeps the loop running. *)
Theorem empty_answers_never_end {W : Type} {L : IpmiLink W} r C fuel bytes_to_read data (w : W) :
  0 < bytes_to_read < 65536 →
  (∀ n offset w, ∃ w', send_command (read_request C r n offset) (read_response C n) w = (Ok [], w')) →
  (read_loop r fuel C bytes_to_read bytes_to_read data w).1 = Throw out_of_fuel.
Proof.
  intros Hb Hdev. revert data w. induction fuel as [|fuel IH]; intros data w; [done|]. cbn [read_loop].
  rewrite (proj2 (Z.ltb_lt _ _)) by lia. cbv zeta.
  destruct (Hdev (wrap 8 (Z.min READ_MAX_DATA_COUNT bytes_to_read)) (wrap 16 (bytes_to_read - bytes_to_read)) w)
    as (w' & Hw).
  rewrite (bind_run _ _ _ _ _ Hw). cbn [length]. rewrite Z.sub_0_r, wrap_small; [apply IH|].
  unfold in_range. zpow. lia.
Qed.

(** ** A BMC to try the theorems on *)

(** A region of 1024 bytes: its data, whether it is valid, and the session. *)
Record Bmc := mkBmc { bmc_data : list Z; bmc_valid : bool; bmc_session : option (Z * list Z) }.

Definition BMC_CAPACITY : nat := 1024.
Definition bmc_view (b : Bmc) : Region :=
  mkRegion (take BMC_CAPACITY (bmc_data b)) (Z.of_nat BMC_CAPACITY) 0 0 (bmc_valid b)
    ((λ '(handle, staged), (handle, take BMC_CAPACITY staged)) <$> bmc_session b).

Definition bmc_device : Device Bmc := λ m _ bytes b,
  let cmd := command_code m in
  let R := bmc_view b in
  if cmd =? GET_MDR_DATA_REGION_STATUS then
    (0 :: GroupExtension_RACKSCALE
       :: [2; nth 1 bytes 0; if is_valid R then 1 else 0; 0; if session R is Some _ then 2 else 0]
       ++ le_bytes 2 (capacity R) ++ le_bytes 2 (Z.of_nat (length (contents R))) ++ [0], b)
  else if cmd =? MDR_REGION_READ then
    let count := nth 2 bytes 0 in
    (0 :: GroupExtension_RACKSCALE :: [count; 0]
       ++ slice (Z.to_nat (le_val (slice 3 2 bytes))) (Z.to_nat count) (contents R), b)
  else if cmd =? MDR_REGION_LOCK then
    if session R is Some _ then ([0x81], b)
    else ([0; GroupExtension_RACKSCALE; 7], mkBmc (bmc_data b) (bmc_valid b) (Some (7, [])))
  else if cmd =? MDR_REGION_WRITE then
    if session R is Some (handle, staged)
    then (0 :: GroupExtension_RACKSCALE :: [nth 2 bytes 0; 0; 2; 0; 4; 0; 0],
          mkBmc (bmc_data b) (bmc_valid b) (Some (handle, staged ++ drop 6 bytes)))
    else ([0xD5], b)
  else if cmd =? MDR_REGION_UPDATE_COMPLETE then
    if session R is Some (_, staged) then ([0; GroupExtension_RACKSCALE], mkBmc staged true None)
    else ([0xD5], b)
  else ([0xC1], b).

Lemma bmc_mdr_device r : @MdrDevice Bmc bmc_device (PurleyMdrRegionAccessor r) bmc_view.
Proof.
  split.
  - intros b. split; [done|]. cbn -[BMC_CAPACITY]. rewrite length_take. lia.
  - intros b. eexists 2, _, b. split; [reflexivity|]. split; [|done]. cbn. by destruct (bmc_session b) as [[]|].
  - intros b offset count _ _ Hc Ho. exists b. split; [|done].
    assert (le_val (le_bytes 2 (Z.of_nat offset)) = Z.of_nat offset) as E.
    { rewrite le_val_bytes. cbn [contents bmc_view] in Ho. rewrite length_take in Ho.
      unfold BMC_CAPACITY in Ho. rewrite Z.mod_small; [done|]. change (2 ^ (8 * Z.of_nat 2)) with 65536. lia. }
    unfold respond, bmc_device. cbn [command_code Message_new]. change (slice 3 2 ?l) with (le_bytes 2 (Z.of_nat offset)).
    cbn -[slice bmc_view le_bytes le_val Z.to_nat]. rewrite E, !Nat2Z.id. done.
Qed.

Lemma bmc_mdr_writable r : @MdrWritable Bmc bmc_device r bmc_view.
Proof.
  split.
  - intros b timeout Hs. exists 7. eexists. split; [|split; [lia|]].
    + unfold respond, bmc_device. cbn [command_code Message_new]. cbn -[bmc_view le_bytes]. by rewrite Hs.
    + done.
  - intros b handle staged data Hs Hl Hc. eexists _, _. split; [|split].
    + unfold respond, bmc_device. cbn [command_code Message_new]. cbn -[bmc_view le_bytes]. by rewrite Hs.
    + done.
    + cbn -[take BMC_CAPACITY] in *. unfold set_session, bmc_view. cbn -[take BMC_CAPACITY]. do 3 f_equal.
      apply take_ge. lia.
  - intros b handle staged Hs. eexists. split.
    + unfold respond, bmc_device. cbn [command_code Message_new]. cbn -[bmc_view le_bytes]. by rewrite Hs.
    + cbn -[take BMC_CAPACITY] in *. split; [|done]. apply take_ge.
      destruct (bmc_session b) as [[]|]; [|done]. cbn -[take] in Hs. injection Hs as <- <-.
      rewrite length_take. lia.
Qed.

Lemma written_region_is_read_witness :
  let link := device_link Bmc (V := bmc_device) in
  ∃ b1 b2, accessor_write_mdr_region (PurleyMdrRegionAccessor ISCSI_BOOT_OPTIONS) (replicate 300 5) (mkBmc [] false None)
             = (Ok tt, b1) ∧
           accessor_get_mdr_region 301 (PurleyMdrRegionAccessor ISCSI_BOOT_OPTIONS) b1 = (Ok (replicate 300 5), b2).
Proof.
  cbv zeta.
  apply (@written_region_is_read Bmc Bmc _ bmc_device (λ _, True) id (device_faithful Bmc (V := bmc_device))
    ISCSI_BOOT_OPTIONS bmc_view (bmc_mdr_device _) (bmc_mdr_writable _)); [done|done|done|vm_compute; congruence|].
  rewrite length_replicate. lia.
Defined.

End MdrRegion.
