(* ===== verification/Iscsi.v ===== *)
(** The iSCSI boot options of a system in their MDR region (PSME/common/iscsi): the
    structures of the region, the builder that the compute agent writes the region with,
    and the parser that discovery reads it with, an instance of the generic parser of
    [Mdr].  With them the parts the builder uses: putting addresses into a byte buffer
    (PSME/common/ipmi/src/utils/byte_buffer.cpp) and the attributes of a network device
    function (PSME/common/agent-framework) with their conversion
    (PSME/agent/compute/src/utils/compute_conversions.cpp).

    [build_lays_out] shows that the builder writes exactly the structures the parser
    reads, [build_parse] their composition.  The functions of the C library that convert
    addresses are the class [Inet].  [ipv6_address_is_repeated] shows that an IPv6
    address is written sixteen times, which no parser of the format can read back. *)

From Stdlib Require Import ZArith Lia.
From S2P Require Import Prelude Mdr Ipmi.
Import Mdr IpmiBytes.

Local Open Scope Z_scope.

Module Iscsi.

(** * Attributes of the model *)

(** [enums::IPAddressType] and [enums::FunctionAuthenticationMethod] *)
Inductive IPAddressType := IPv4 | IPv6.
Inductive FunctionAuthenticationMethod := NoAuthentication | CHAP | MutualCHAP.

(** [attribute::IscsiBoot]; an [OptionalField] is an [option], a string is the list of
    its characters. *)
Record IscsiBoot := mkBoot {
  ip_address_type : IPAddressType;
  initiator_address : list Z;
  initiator_name : list Z;
  initiator_default_gateway : option (list Z);
  initiator_netmask : list Z;
  target_info_via_dhcp : bool;
  ip_mask_dns_via_dhcp : bool;
  router_advertisement_enabled : bool;
  primary_target_address : option (list Z);
  primary_target_name : option (list Z);
  primary_target_port : option Z;
  primary_lun : option Z;
  primary_vlan_enable : bool;
  primary_vlan_id : option Z;
  primary_dns : option (list Z);
  secondary_target_address : option (list Z);
  secondary_target_name : option (list Z);
  secondary_target_port : option Z;
  secondary_lun : option Z;
  secondary_vlan_enable : option bool;
  secondary_vlan_id : option Z;
  secondary_dns : option (list Z);
  authentication_method : FunctionAuthenticationMethod;
  chap_username : option (list Z);
  chap_secret : option (list Z);
  mutual_chap_username : option (list Z);
  mutual_chap_secret : option (list Z);
}.

Definition IscsiBoot_new : IscsiBoot :=
  mkBoot IPv4 [] [] None [] false false false None None None None false None None
    None None None None None None None NoAuthentication None None None None.

(** The members of [NetworkDeviceFunction] that iSCSI uses; [state_enabled] tells whether
    the state of its status is Enabled. *)
Record NetworkDeviceFunction := mkFunction {
  device_enabled : bool;
  mac_address : option (list Z);
  iscsi_boot : IscsiBoot;
  state_enabled : bool;
}.

Definition set_device_enabled (b : bool) (f : NetworkDeviceFunction) :=
  mkFunction b (mac_address f) (iscsi_boot f) (state_enabled f).
Definition set_mac_address (m : option (list Z)) (f : NetworkDeviceFunction) :=
  mkFunction (device_enabled f) m (iscsi_boot f) (state_enabled f).
Definition set_iscsi_boot (b : IscsiBoot) (f : NetworkDeviceFunction) :=
  mkFunction (device_enabled f) (mac_address f) b (state_enabled f).
Definition set_state_enabled (b : bool) (f : NetworkDeviceFunction) :=
  mkFunction (device_enabled f) (mac_address f) (iscsi_boot f) b.

(** * Structures of the region *)

Definition IP_ADDRESS_SIZE : nat := 16.
Definition MAC_ADDRESS_SIZE : nat := 6.

(** [MdrStructType] *)
Definition VERSION : Z := 0x1.
Definition INITIATOR : Z := 0x2.
Definition TARGET : Z := 0x3.
Definition ATTEMPT : Z := 0x4.

Record ISCSI_MDR_HEADER := mkHeader { parameter_id : Z; hlength : Z; handle : Z }.

#[global] Instance ISCSI_MDR_HEADER_type : HeaderType ISCSI_MDR_HEADER := {
  sizeof_header := 5;
  header_of bs := mkHeader (le_val (slice 0 1 bs)) (le_val (slice 1 2 bs)) (le_val (slice 3 2 bs));
  header_length := hlength;
}.

Definition ISCSI_MDR_VERSION : Struct := mkStruct VERSION [u8 "major_version"; u8 "minor_version"].

Definition ISCSI_MDR_INITIATOR : Struct := mkStruct INITIATOR
  [u8 "initiator_dhcp_enabled"; u8 "initiator_name"; u8 "ip_address_type";
   bytes IP_ADDRESS_SIZE "initiator_ip_address"; bytes IP_ADDRESS_SIZE "initiator_subnet_mask";
   bytes IP_ADDRESS_SIZE "initiator_gateway"; bytes IP_ADDRESS_SIZE "initiator_primary_dns";
   bytes IP_ADDRESS_SIZE "initiator_secondary_dns"; bytes MAC_ADDRESS_SIZE "nic_mac_address"].

Definition ISCSI_MDR_TARGET : Struct := mkStruct TARGET
  [u8 "target_dhcp_enabled"; u8 "target_name"; u8 "ip_address_type"; bytes IP_ADDRESS_SIZE "target_ip_address";
   u16 "target_port"; u16 "target_lun"; u8 "vlan_enabled"; u16 "vlan_id"; u8 "router_advertisement";
   u8 "authentication_method"; u8 "chap_user_name"; u8 "chap_secret"; u8 "mutual_chap_name";
   u8 "mutual_chap_secret"].

Definition ISCSI_MDR_ATTEMPT : Struct := mkStruct ATTEMPT
  [u16 "initiator_handle"; u16 "target_handle"; u16 "connection_wait_time"; u8 "connection_retry_count"].

(** [iscsi::structs::IpAddressType] and [AuthenticationMethod] *)
Definition ip_AUTO : Z := 0x0.
Definition ip_IPv4 : Z := 0x1.
Definition ip_IPv6 : Z := 0x2.
Definition auth_NO_CHAP : Z := 0x0.
Definition auth_CHAP : Z := 0x1.
Definition auth_MUTUAL_CHAP : Z := 0x2.

(** ** [IscsiMdrConverter] *)

Definition to_ip_type (at_ : IPAddressType) : Z := match at_ with IPv4 => ip_IPv4 | IPv6 => ip_IPv6 end.
(** [get_dhcp_enabled], [get_vlan_enabled] and [get_router_advertisment] *)
Definition to_enabled (enabled : bool) : Z := if enabled then 1 else 0.
Definition to_authentication_method (am : FunctionAuthenticationMethod) : Z :=
  match am with NoAuthentication => auth_NO_CHAP | MutualCHAP => auth_MUTUAL_CHAP | CHAP => auth_CHAP end.

Definition from_authentication_method (am : Z) : result FunctionAuthenticationMethod :=
  if am =? auth_NO_CHAP then mret NoAuthentication
  else if am =? auth_MUTUAL_CHAP then mret MutualCHAP
  else if am =? auth_CHAP then mret CHAP
  else Throw (runtime_error "IscsiMdrConverter: Invalid authentication method.").

Definition from_ip_type (at_ : Z) : result IPAddressType :=
  if at_ =? ip_IPv4 then mret IPv4
  else if at_ =? ip_IPv6 then mret IPv6
  else Throw (runtime_error "IscsiMdrConverter: Invalid IP type.").

(** * Addresses *)

(** The C library: [inet_pton] and [inet_ntop] for the two families and [ether_aton], with
    the bytes of an address in their order in memory. *)
Class Inet := {
  inet_pton4 : list Z → option (list Z);
  inet_pton6 : list Z → option (list Z);
  inet_ntop4 : list Z → option (list Z);
  inet_ntop6 : list Z → option (list Z);
  ether_aton : list Z → option (list Z);
}.

(** An address has the bytes of its family. *)
Class InetLaws `(I : Inet) : Prop := {
  pton4_bytes s bs : inet_pton4 s = Some bs → length bs = 4%nat ∧ Forall is_byte bs;
  pton6_bytes s bs : inet_pton6 s = Some bs → length bs = 16%nat ∧ Forall is_byte bs;
  aton_bytes s bs : ether_aton s = Some bs → length bs = 6%nat ∧ Forall is_byte bs;
}.

(** [std::swap_ranges] over the bytes from [pos], or appending at the end. *)
Definition put_bytes (data : list Z) (pos : nat) (output : list Z) : result (list Z) :=
  if (length data =? pos)%nat then mret (data ++ output)
  else if (pos + length output <=? length data)%nat then mret (splice pos output data)
  else Throw undefined_behaviour.

Section addresses.
Context `{I : Inet}.

(** [ByteBuffer::put_ip]; [ipv4_address.s_addr] is the number with these bytes on a
    little-endian machine. *)
Definition put_ip (data : list Z) (pos : nat) (val : list Z) (ip_size : nat) : result (list Z) :=
  output ← match val with
           | [] => mret (replicate ip_size 0)
           | _ =>
               match inet_pton4 val with
               | Some ipv4_address =>
                   output ← put_uint32 [] 0 (le_val ipv4_address);
                   mret (output ++ replicate (ip_size - 4) 0)
               | None =>
                   match inet_pton6 val with
                   | Some ipv6_address => mret (concat (replicate ip_size (take ip_size ipv6_address)))
                   | None => mret []
                   end
               end
           end;
  match output with
  | [] => Throw (runtime_error "Attempted to serialize an invalid IP address!")
  | _ => put_bytes data pos output
  end.

Definition colon : Z := 58.
Definition dash : Z := 45.
Definition replace_dashes (val : list Z) : list Z := (λ c, if c =? dash then colon else c) <$> val.

(** [ByteBuffer::put_mac] *)
Definition put_mac (data : list Z) (pos : nat) (val : list Z) (mac_size : nat) : result (list Z) :=
  match val with
  | [] => mret (data ++ replicate mac_size 0)
  | _ =>
      match ether_aton (replace_dashes val) with
      | None => Throw (runtime_error "Attempted to serialize an invalid MAC address!")
      | Some address =>
          if (mac_size <=? length address)%nat then put_bytes data pos (take mac_size address)
          else Throw undefined_behaviour
      end
  end.

(** [mdr::print_ip] *)
Definition print_ip (address : list Z) : list Z :=
  match inet_ntop4 (take 4 address) with
  | Some str => str
  | None =>
      match inet_ntop6 (take 16 address) with
      | Some str => str
      | None => chars "Invalid IP Address"
      end
  end.
End addresses.

(** [std::hex], two digits *)
Definition hex_digit (d : Z) : Z := if d <? 10 then 48 + d else 87 + d.
Definition hex_byte (b : Z) : list Z := [hex_digit (b / 16); hex_digit (b mod 16)].

(** [mdr::print_mac] of the first six bytes. *)
Definition print_mac (address : list Z) : result (list Z) :=
  a0 ← index address 0; a1 ← index address 1; a2 ← index address 2;
  a3 ← index address 3; a4 ← index address 4; a5 ← index address 5;
  mret (hex_byte a0 ++ [colon] ++ hex_byte a1 ++ [colon] ++ hex_byte a2 ++ [colon]
          ++ hex_byte a3 ++ [colon] ++ hex_byte a4 ++ [colon] ++ hex_byte a5).

(** * Parser *)

Definition header_type_equal (T : Struct) (h : ISCSI_MDR_HEADER) (_ : option Z) : bool :=
  (ID T =? parameter_id h) && (hlength h =? Z.of_nat (sizeof T)).

Abbreviation StructEnhanced := (BufferBasedStruct ISCSI_MDR_HEADER).

#[global] Instance IscsiMdrTraits : Traits ISCSI_MDR_HEADER StructEnhanced := {
  table_length := hlength;
  Mdr.header_type_equal := header_type_equal;
  parse_struct_of := parse_struct;
}.

(** [IscsiMdr10EntryPoint]: the bytes of the version structure and the length. *)
Record IscsiMdr10EntryPoint := mkEntryPoint { m_version : list Z; m_region_length : Z }.

Definition SUPPORTED_MAJOR : Z := 1.
Definition SUPPORTED_MINOR : Z := 0.

Definition entry_error (what : string) : exn := runtime_error ("iSCSI MDR entry point - " +:+ what).

Definition get_major_version (e : IscsiMdr10EntryPoint) : result Z := index (m_version e) 5.
Definition get_minor_version (e : IscsiMdr10EntryPoint) : result Z := index (m_version e) 6.

(** The constructor. *)
Definition IscsiMdr10EntryPoint_new (b : list Z) : result IscsiMdr10EntryPoint :=
  let e := mkEntryPoint (take (sizeof ISCSI_MDR_VERSION) b) (wrap 32 (size b)) in
  if size b <? Z.of_nat (sizeof ISCSI_MDR_VERSION) then Throw (entry_error "ISCSI MDR blob size is too small")
  else
    major ← get_major_version e;
    minor ← get_minor_version e;
    if negb (major =? SUPPORTED_MAJOR) && negb (minor =? SUPPORTED_MINOR)
    then Throw (entry_error "iSCSI MDR version mismatch")
    else mret e.

(** [IscsiMdrEntryPoint::create] *)
Definition create (b : list Z) : result IscsiMdr10EntryPoint :=
  if size b <? Z.of_nat (sizeof ISCSI_MDR_VERSION) then Throw (entry_error "Unable to determine iSCSI MDR version")
  else IscsiMdr10EntryPoint_new b.

#[global] Instance IscsiMdr10EntryPoint_ops : EntryPoint IscsiMdr10EntryPoint := {
  get_struct_table_address _ := 0;
  get_struct_table_end_address := m_region_length;
  get_table_data_offset _ _ := Throw (entry_error "Method not implemented: get_table_data_offset()");
  get_table_data_end_offset _ _ := Throw (entry_error "Method not implemented: get_table_data_end_offset()");
  set_struct_table_address _ _ := Throw (entry_error "Method not implemented: set_struct_table_address()");
  set_struct_table_end_address _ _ := Throw (entry_error "Method not implemented: set_struct_table_end_address()");
}.

(** The constructor of the parser; [None] is the null pointer. *)
Definition IscsiMdrParser (_buf : option (list Z)) : result (GenericParser IscsiMdr10EntryPoint) :=
  match _buf with
  | None => Throw (runtime_error "iSCSI MDR parser - Invalid iSCSI MDR blob pointer")
  | Some b => e ← create b; mret (mkParser b true e)
  end.

(** The [while] of the dump, the text it writes left out. *)
Fixpoint print_loop (fuel : nat) (p : GenericParser IscsiMdr10EntryPoint) (offset : Z) : result unit :=
  match fuel with
  | O => Throw out_of_fuel
  | S fuel' =>
      if wrap 64 (offset + Z.of_nat sizeof_header) <? size (buf p) then
        h ← header_at (buf p) offset;
        if size (buf p) <? wrap 64 (offset + hlength h) then
          Throw (runtime_error "iSCSI MDR parser - Unexpectedly reached end of iSCSI MDR blob")
        else
          let known T := '(_, offset) ← read_struct (H := ISCSI_MDR_HEADER) p T offset; mret offset in
          offset ← (if parameter_id h =? ATTEMPT then known ISCSI_MDR_ATTEMPT
                    else if parameter_id h =? INITIATOR then known ISCSI_MDR_INITIATOR
                    else if parameter_id h =? TARGET then known ISCSI_MDR_TARGET
                    else if parameter_id h =? VERSION then known ISCSI_MDR_VERSION
                    else skip_strings (buf p) (wrap 64 (offset + hlength h)));
          print_loop fuel' p offset
      else mret tt
  end.

(** * Builder *)

(** The buffer, the counter of handles and, within a structure, the strings and the
    counter of their indices. *)
Record Builder := mkBuilder {
  buffer : list Z;
  current_handle : Z;
  strings : list (list Z);
  string_index : Z;
}.

Definition set_buffer (d : list Z) (b : Builder) : Builder :=
  mkBuilder d (current_handle b) (strings b) (string_index b).

(** A function of [ipmi::ByteBuffer] at the end of the buffer. *)
Definition put_end (f : list Z → nat → result (list Z)) : M Builder unit :=
  b ← get;
  data ← lift (f (buffer b) (length (buffer b)));
  modify (set_buffer data).

Definition push_uint8 (val : Z) : M Builder unit := put_end (λ data pos, put_uint8 data pos val).
Definition push_uint16 (val : Z) : M Builder unit := put_end (λ data pos, put_uint16 data pos val).
(** The overload for an [OptionalField<std::uint32_t>]. *)
Definition push_uint16_field (val : option Z) : M Builder unit :=
  push_uint16 (match val with Some v => wrap 16 v | None => 0 end).

(** [handle()] *)
Definition handle_inc : M Builder Z :=
  b ← get;
  modify (λ b, mkBuilder (buffer b) (wrap 16 (current_handle b + 1)) (strings b) (string_index b));;
  mret (current_handle b).

Definition push_string (str : list Z) : M Builder unit :=
  match str with
  | [] => push_uint8 0
  | _ =>
      b ← get;
      push_uint8 (string_index b);;
      modify (λ b, mkBuilder (buffer b) (current_handle b) (strings b ++ [str]) (wrap 8 (string_index b + 1)))
  end.
(** The overload for an [OptionalField<std::string>]. *)
Definition push_string_field (str : option (list Z)) : M Builder unit := push_string (default [] str).

Definition append_strings (ss : list (list Z)) : M Builder unit :=
  modify (λ b, set_buffer (buffer b ++ match ss with
                                       | [] => [0; 0]
                                       | _ => concat ((λ s, s ++ [0]) <$> ss) ++ [0]
                                       end) b).

(** The local variables at the start of [append_structure]. *)
Definition start_structure : M Builder unit :=
  modify (λ b, mkBuilder (buffer b) (current_handle b) [] 1).

(** The strings of the structure at its end. *)
Definition end_structure : M Builder unit := b ← get; append_strings (strings b).

(** [IscsiVersionBuilder::append_structure] *)
Definition append_version : M Builder unit :=
  push_uint8 VERSION;;
  push_uint16 (wrap 16 (Z.of_nat (sizeof ISCSI_MDR_VERSION)));;
  push_uint16 0;;
  push_uint8 1;;
  push_uint8 0;;
  append_strings [].

(** [IscsiAttemptBuilder::append_structure] *)
Definition append_attempt (initiator target timeout retries : Z) : M Builder unit :=
  push_uint8 ATTEMPT;;
  push_uint16 (wrap 16 (Z.of_nat (sizeof ISCSI_MDR_ATTEMPT)));;
  handle ← handle_inc;
  push_uint16 handle;;
  push_uint16 initiator;;
  push_uint16 target;;
  push_uint16 timeout;;
  push_uint8 retries;;
  append_strings [].

Section builder.
Context `{I : Inet}.

Definition push_ip (ip : list Z) (ip_size : nat) : M Builder unit := put_end (λ data pos, put_ip data pos ip ip_size).
Definition push_ip_field (ip : option (list Z)) (ip_size : nat) : M Builder unit := push_ip (default [] ip) ip_size.
Definition push_mac_field (mac : option (list Z)) (mac_size : nat) : M Builder unit :=
  put_end (λ data pos, put_mac data pos (default [] mac) mac_size).

(** [IscsiInitiatorBuilder::append_structure] *)
Definition append_initiator (ctx : NetworkDeviceFunction) : M Builder unit :=
  let boot := iscsi_boot ctx in
  start_structure;;
  push_uint8 INITIATOR;;
  push_uint16 (wrap 16 (Z.of_nat (sizeof ISCSI_MDR_INITIATOR)));;
  handle ← handle_inc;
  push_uint16 handle;;
  push_uint8 (to_enabled (ip_mask_dns_via_dhcp boot));;
  push_string (initiator_name boot);;
  push_uint8 (to_ip_type (ip_address_type boot));;
  push_ip (initiator_address boot) IP_ADDRESS_SIZE;;
  push_ip (initiator_netmask boot) IP_ADDRESS_SIZE;;
  push_ip_field (initiator_default_gateway boot) IP_ADDRESS_SIZE;;
  push_ip_field (primary_dns boot) IP_ADDRESS_SIZE;;
  push_ip_field (secondary_dns boot) IP_ADDRESS_SIZE;;
  push_mac_field (mac_address ctx) MAC_ADDRESS_SIZE;;
  end_structure.

(** [IscsiTargetBuilder::append_structure] *)
Definition append_target (ctx : NetworkDeviceFunction) : M Builder unit :=
  let boot := iscsi_boot ctx in
  start_structure;;
  push_uint8 TARGET;;
  push_uint16 (wrap 16 (Z.of_nat (sizeof ISCSI_MDR_TARGET)));;
  handle ← handle_inc;
  push_uint16 handle;;
  push_uint8 (to_enabled (target_info_via_dhcp boot));;
  push_string_field (primary_target_name boot);;
  push_uint8 (to_ip_type (ip_address_type boot));;
  push_ip_field (primary_target_address boot) IP_ADDRESS_SIZE;;
  push_uint16_field (primary_target_port boot);;
  push_uint16_field (primary_lun boot);;
  push_uint8 (to_enabled (primary_vlan_enable boot));;
  push_uint16_field (primary_vlan_id boot);;
  push_uint8 (to_enabled (router_advertisement_enabled boot));;
  push_uint8 (to_authentication_method (authentication_method boot));;
  push_string_field (chap_username boot);;
  push_string_field (chap_secret boot);;
  push_string_field (mutual_chap_username boot);;
  push_string_field (mutual_chap_secret boot);;
  end_structure.

(** A loop over the contexts that records the handle each structure gets. *)
Fixpoint append_all (append : NetworkDeviceFunction → M Builder unit) (ctxs : list NetworkDeviceFunction)
    : M Builder (list Z) :=
  match ctxs with
  | [] => mret []
  | ctx :: ctxs' =>
      b ← get;
      append ctx;;
      handles ← append_all append ctxs';
      mret (current_handle b :: handles)
  end.

(** [for (i = 0; i < ctx_container.size(); i++)]; the two lists have an entry per
    context. *)
Fixpoint append_attempts (initiator_handles target_handles : list Z) (conn_wait retry_count : Z) : M Builder unit :=
  match initiator_handles, target_handles with
  | i :: is', t :: ts' =>
      append_attempt i t conn_wait retry_count;;
      append_attempts is' ts' conn_wait retry_count
  | _, _ => mret tt
  end.

Definition build_structures (ctxs : list NetworkDeviceFunction) (conn_wait retry_count : Z) : M Builder unit :=
  append_version;;
  initiator_handles ← append_all append_initiator ctxs;
  target_handles ← append_all append_target ctxs;
  append_attempts initiator_handles target_handles conn_wait retry_count.

(** [IscsiMdrBuilder::build] and [clear]: the buffer they leave. *)
Definition build (data : list Z) (ctxs : list NetworkDeviceFunction) (conn_wait retry_count : Z) : result (list Z) :=
  let '(outcome, b) := build_structures ctxs conn_wait retry_count (mkBuilder data 1 [] 1) in
  outcome;; mret (buffer b).

Definition clear (data : list Z) : result (list Z) :=
  let '(outcome, b) := append_version (mkBuilder data 1 [] 1) in
  outcome;; mret (buffer b).

End builder.

(** * The traits keep the promises of the generic parser *)

Lemma iscsi_type_equal_sizeof T h w :
  header_type_equal T h w = true → ID T = parameter_id h ∧ hlength h = Z.of_nat (sizeof T).
Proof. unfold header_type_equal. rewrite andb_true_iff, !Z.eqb_eq. tauto. Qed.

#[global] Instance IscsiMdrTraits_laws : TraitsLaws ISCSI_MDR_HEADER StructEnhanced.
Proof.
  split; [simpl; lia|simpl; lia| |done|].
  - intros bs Hb. cbn. pose proof (le_val_bound (slice 1 2 bs) (Forall_slice _ _ _ _ Hb)) as [H0 H1].
    split; [done|]. eapply Z.lt_le_trans; [exact H1|]. apply Z.pow_le_mono_r; [lia|].
    unfold slice. rewrite length_take. lia.
  - cbn [parse_struct_of IscsiMdrTraits Mdr.header_type_equal]. intros T b o w aux h _ Hsz Ho Hh He Hlen.
    apply iscsi_type_equal_sizeof in He as [_ He].
    destruct (parse_struct_ok T b o aux h) as (ss & o' & -> & ?); [done..| |done|eauto].
    cbn [header_length ISCSI_MDR_HEADER_type]. lia.
Qed.

#[global] Program Instance ISCSI_MDR_HEADER_layout : HeaderLayout ISCSI_MDR_HEADER := {
  header_bytes h := le_bytes 1 (parameter_id h) ++ le_bytes 2 (hlength h) ++ le_bytes 2 (handle h);
  wf_header h := in_range 8 (parameter_id h) ∧ in_range 16 (hlength h) ∧ in_range 16 (handle h);
}.
Next Obligation. done. Qed.
Next Obligation.
  intros [ty n k] (Ht & Hn & Hk).
  transitivity (mkHeader (le_val (le_bytes 1 ty)) (le_val (le_bytes 2 n)) (le_val (le_bytes 2 k))); [reflexivity|].
  rewrite !le_val_bytes. unfold in_range in *. cbn [parameter_id hlength handle] in *. by rewrite !Z.mod_small.
Qed.

Definition enhance (T : Struct) (s : Laid ISCSI_MDR_HEADER) : StructEnhanced :=
  mkBufferBasedStruct (laid_header s) (take (sizeof_data T) (laid_body s)) (laid_strings s).

#[global] Program Instance IscsiMdrTraits_layout : LayoutLaws ISCSI_MDR_HEADER StructEnhanced := {
  Mdr.enhance := enhance;
}.
Next Obligation.
  cbn [parse_struct_of IscsiMdrTraits Mdr.header_type_equal].
  intros T aux s w pre post Hsz Hw He. apply iscsi_type_equal_sizeof in He as [_ He].
  rewrite parse_struct_laid; [done|done|done|]. cbn [header_length ISCSI_MDR_HEADER_type]. lia.
Qed.

(** The end of the structures is the end of the blob. *)
Lemma create_length b e : create b = Ok e → m_region_length e = wrap 32 (size b).
Proof.
  unfold create, IscsiMdr10EntryPoint_new. destruct (_ <? _); [done|]. intros He. bind_inv He.
  destruct (_ && _); [done|]. by injection He as <-.
Qed.

(** Reading structures of any type from any accepted blob returns or throws the
    parser's exception, and never leaves the blob. *)
Theorem iscsi_parse_safe blob p T wanted :
  Forall is_byte blob → size blob < 2 ^ 32 → IscsiMdrParser (Some blob) = Ok p → parsed (get_all p T wanted).
Proof.
  intros Hb Hsz. unfold IscsiMdrParser. intros Hp. bind_inv Hp. injection Hp as <-.
  apply create_length in E. apply get_all_safe; cbn; [done|szlia| |lia].
  rewrite E, wrap_small; [done|]. split; [szlia|done].
Qed.

(** * What the builder lays out *)

(** ** Strings and their indices *)

Definition add_string (ss : list (list Z)) (s : list Z) : list (list Z) := if s is [] then ss else ss ++ [s].
Definition string_ref (ss : list (list Z)) (s : list Z) : Z := if s is [] then 0 else size ss + 1.

Lemma add_string_prefix ss s : ss `prefix_of` add_string ss s.
Proof. destruct s; [done|]. by apply prefix_app_r. Qed.

(** A string is found under the index it was given, whatever was added after it. *)
Lemma get_string_ref {H} (b : BufferBasedStruct H) ss s :
  add_string ss s `prefix_of` Mdr.strings b → get_string b (string_ref ss s) = s.
Proof.
  intros [more Hmore]. unfold get_string, string_ref, add_string in *. destruct s as [|c s]; [done|].
  rewrite Hmore, (proj2 (Z.ltb_lt _ _)), (proj2 (Z.leb_le _ _)) by szlia. cbn [andb].
  replace (Z.to_nat (size ss + 1 - 1)) with (length ss) by (unfold size; lia).
  rewrite lookup_app_l by (rewrite length_app; cbn; lia). by rewrite lookup_app_r, Nat.sub_diag by lia.
Qed.

Lemma aux_bytes_concat ss : aux_bytes ss = match ss with [] => [0; 0] | _ => concat ((λ s, s ++ [0]) <$> ss) ++ [0] end.
Proof.
  induction ss as [|s ss IH]; [done|]. cbn [aux_bytes]. destruct ss as [|s' ss]; [cbn; by rewrite app_nil_r, <- app_assoc|].
  rewrite IH. cbn [fmap list_fmap concat]. by rewrite <- !app_assoc.
Qed.

(** ** Runs of the pushes *)

Lemma byte_of_le_2 v : [byte_of v 0; byte_of v 8] = le_bytes 2 v.
Proof. rewrite !byte_of_val by lia. cbn [le_bytes]. by rewrite Z.div_1_r. Qed.

Lemma byte_of_small v : in_range 8 v → byte_of v 0 = v.
Proof. intros Hv. rewrite byte_of_val, Z.div_1_r by lia. by apply Z.mod_small. Qed.

Lemma put_end_run f d d' h ss i : f d (length d) = Ok d' → put_end f (mkBuilder d h ss i) = (Ok tt, mkBuilder d' h ss i).
Proof. intros Hf. unfold put_end. run_monad. cbn [buffer]. by rewrite Hf. Qed.

Lemma push_uint8_run v d h ss i : in_range 8 v →
  push_uint8 v (mkBuilder d h ss i) = (Ok tt, mkBuilder (d ++ [v]) h ss i).
Proof. intros Hv. apply put_end_run. unfold put_uint8. by rewrite Nat.eqb_refl, byte_of_small. Qed.

Lemma push_uint16_run v d h ss i : push_uint16 v (mkBuilder d h ss i) = (Ok tt, mkBuilder (d ++ le_bytes 2 v) h ss i).
Proof. apply put_end_run. unfold put_uint16. by rewrite Nat.eqb_refl, byte_of_le_2. Qed.

Lemma handle_inc_run d h ss i :
  handle_inc (mkBuilder d h ss i) = (Ok h, mkBuilder d (wrap 16 (h + 1)) ss i).
Proof. done. Qed.

Lemma push_string_run str d h ss : size ss < 200 →
  push_string str (mkBuilder d h ss (size ss + 1)) =
    (Ok tt, mkBuilder (d ++ [string_ref ss str]) h (add_string ss str) (size (add_string ss str) + 1)).
Proof.
  intros Hs. unfold push_string, string_ref, add_string. destruct str as [|c str]; [by apply push_uint8_run|].
  rewrite (bind_run get _ _ _ _ eq_refl). cbn [string_index].
  rewrite (bind_run _ _ _ _ _ (push_uint8_run (size ss + 1) d h ss (size ss + 1) ltac:(unfold in_range; zpow; szlia))).
  unfold modify. cbn [buffer current_handle strings string_index]. do 2 f_equal.
  rewrite wrap_small; [szlia|]. unfold in_range. zpow. szlia.
Qed.

Lemma end_structure_run d h ss i :
  end_structure (mkBuilder d h ss i) = (Ok tt, mkBuilder (d ++ aux_bytes ss) h ss i).
Proof. unfold end_structure, append_strings, modify. run_monad. cbn. by rewrite aux_bytes_concat. Qed.

(** ** Addresses *)

Section layout.
Context `{I : Inet} `{HI : !InetLaws I}.

(** An address field that is not set, or holds an IPv4 address. *)
Definition ipv4_or_unset (val : list Z) : Prop := val = [] ∨ is_Some (inet_pton4 val).
Definition mac_or_unset (val : list Z) : Prop := val = [] ∨ is_Some (ether_aton (replace_dashes val)).

Definition ip_bytes (val : list Z) : list Z :=
  if val is [] then replicate 16 0 else default [] (inet_pton4 val) ++ replicate 12 0.
Definition mac_bytes (val : list Z) : list Z :=
  if val is [] then replicate 6 0 else default [] (ether_aton (replace_dashes val)).

Lemma put_uint32_bytes bs : length bs = 4%nat → Forall is_byte bs → put_uint32 [] 0 (le_val bs) = Ok bs.
Proof using Type.
  intros Hl Hb. unfold put_uint32. cbn [length Nat.eqb app]. unfold mret, result_ret. f_equal.
  rewrite <- (le_bytes_val bs Hb) at 5. rewrite Hl. rewrite !byte_of_val by lia. cbn [le_bytes].
  rewrite Z.div_1_r, !Z.div_div by lia. done.
Qed.

Lemma put_bytes_end d xs : put_bytes d (length d) xs = Ok (d ++ xs).
Proof using Type. unfold put_bytes. by rewrite Nat.eqb_refl. Qed.

Lemma put_ip_run d val : ipv4_or_unset val → put_ip d (length d) val IP_ADDRESS_SIZE = Ok (d ++ ip_bytes val).
Proof using HI.
  intros Hval. unfold put_ip, ip_bytes. destruct val as [|c val]; [apply put_bytes_end|].
  destruct Hval as [|[bs Hbs]]; [done|]. rewrite Hbs. destruct (pton4_bytes _ _ Hbs) as [Hl Hb].
  rewrite put_uint32_bytes by done. cbn [mbind result_bind default].
  destruct bs as [|b bs]; [done|]. apply put_bytes_end.
Qed.

Lemma put_mac_run d val : mac_or_unset val → put_mac d (length d) val MAC_ADDRESS_SIZE = Ok (d ++ mac_bytes val).
Proof using HI.
  intros Hval. unfold put_mac, mac_bytes. destruct val as [|c val]; [done|].
  destruct Hval as [|[bs Hbs]]; [done|]. rewrite Hbs. destruct (aton_bytes _ _ Hbs) as [Hl _].
  rewrite Hl. cbn [MAC_ADDRESS_SIZE Nat.leb default]. rewrite take_ge by (unfold MAC_ADDRESS_SIZE; lia). apply put_bytes_end.
Qed.

Lemma length_ip_bytes val : ipv4_or_unset val → length (ip_bytes val) = 16%nat.
Proof using HI.
  intros Hval. unfold ip_bytes. destruct val; [done|]. destruct Hval as [|[bs Hbs]]; [done|].
  rewrite Hbs. destruct (pton4_bytes _ _ Hbs) as [Hl _]. rewrite length_app. cbn. lia.
Qed.

Lemma length_mac_bytes val : mac_or_unset val → length (mac_bytes val) = 6%nat.
Proof using HI.
  intros Hval. unfold mac_bytes. destruct val; [done|]. destruct Hval as [|[bs Hbs]]; [done|].
  rewrite Hbs. by destruct (aton_bytes _ _ Hbs).
Qed.

(** ** Structures *)

(** The options that can be written: IPv4 addresses, a proper MAC address, and strings
    without a null. *)
Definition no_null (s : list Z) : Prop := Forall (λ c, c ≠ 0) s.

Record wf_ctx (ctx : NetworkDeviceFunction) : Prop := {
  wf_mac : mac_or_unset (default [] (mac_address ctx));
  wf_initiator_address : ipv4_or_unset (initiator_address (iscsi_boot ctx));
  wf_netmask : ipv4_or_unset (initiator_netmask (iscsi_boot ctx));
  wf_gateway : ipv4_or_unset (default [] (initiator_default_gateway (iscsi_boot ctx)));
  wf_primary_dns : ipv4_or_unset (default [] (primary_dns (iscsi_boot ctx)));
  wf_secondary_dns : ipv4_or_unset (default [] (secondary_dns (iscsi_boot ctx)));
  wf_target_address : ipv4_or_unset (default [] (primary_target_address (iscsi_boot ctx)));
  wf_initiator_name : no_null (initiator_name (iscsi_boot ctx));
  wf_target_name : no_null (default [] (primary_target_name (iscsi_boot ctx)));
  wf_chap_username : no_null (default [] (chap_username (iscsi_boot ctx)));
  wf_chap_secret : no_null (default [] (chap_secret (iscsi_boot ctx)));
  wf_mutual_chap_username : no_null (default [] (mutual_chap_username (iscsi_boot ctx)));
  wf_mutual_chap_secret : no_null (default [] (mutual_chap_secret (iscsi_boot ctx)));
}.

Definition number (v : option Z) : Z := if v is Some v then wrap 16 v else 0.

(** The fields of an initiator and of a target, and the strings after them. *)
Definition initiator_fields (ctx : NetworkDeviceFunction) : list (list Z) :=
  let boot := iscsi_boot ctx in
  [[to_enabled (ip_mask_dns_via_dhcp boot)]; [string_ref [] (initiator_name boot)]; [to_ip_type (ip_address_type boot)];
   ip_bytes (initiator_address boot); ip_bytes (initiator_netmask boot);
   ip_bytes (default [] (initiator_default_gateway boot)); ip_bytes (default [] (primary_dns boot));
   ip_bytes (default [] (secondary_dns boot)); mac_bytes (default [] (mac_address ctx))].

Definition initiator_strings (boot : IscsiBoot) : list (list Z) := add_string [] (initiator_name boot).

(** The strings of a target before its first, second, ... string. *)
Definition target_strings_1 (boot : IscsiBoot) := add_string [] (default [] (primary_target_name boot)).
Definition target_strings_2 (boot : IscsiBoot) := add_string (target_strings_1 boot) (default [] (chap_username boot)).
Definition target_strings_3 (boot : IscsiBoot) := add_string (target_strings_2 boot) (default [] (chap_secret boot)).
Definition target_strings_4 (boot : IscsiBoot) :=
  add_string (target_strings_3 boot) (default [] (mutual_chap_username boot)).
Definition target_strings (boot : IscsiBoot) :=
  add_string (target_strings_4 boot) (default [] (mutual_chap_secret boot)).

Definition target_fields (ctx : NetworkDeviceFunction) : list (list Z) :=
  let boot := iscsi_boot ctx in
  [[to_enabled (target_info_via_dhcp boot)]; [string_ref [] (default [] (primary_target_name boot))];
   [to_ip_type (ip_address_type boot)]; ip_bytes (default [] (primary_target_address boot));
   le_bytes 2 (number (primary_target_port boot)); le_bytes 2 (number (primary_lun boot));
   [to_enabled (primary_vlan_enable boot)]; le_bytes 2 (number (primary_vlan_id boot));
   [to_enabled (router_advertisement_enabled boot)]; [to_authentication_method (authentication_method boot)];
   [string_ref (target_strings_1 boot) (default [] (chap_username boot))];
   [string_ref (target_strings_2 boot) (default [] (chap_secret boot))];
   [string_ref (target_strings_3 boot) (default [] (mutual_chap_username boot))];
   [string_ref (target_strings_4 boot) (default [] (mutual_chap_secret boot))]].

Definition laid_struct (T : Struct) (h : Z) (fs ss : list (list Z)) : Laid ISCSI_MDR_HEADER :=
  mkLaid (mkHeader (ID T) (Z.of_nat (sizeof T)) h) (concat fs) ss.

Definition version_laid : Laid ISCSI_MDR_HEADER := laid_struct ISCSI_MDR_VERSION 0 [[1]; [0]] [].
Definition initiator_laid (h : Z) (ctx : NetworkDeviceFunction) : Laid ISCSI_MDR_HEADER :=
  laid_struct ISCSI_MDR_INITIATOR h (initiator_fields ctx) (initiator_strings (iscsi_boot ctx)).
Definition target_laid (h : Z) (ctx : NetworkDeviceFunction) : Laid ISCSI_MDR_HEADER :=
  laid_struct ISCSI_MDR_TARGET h (target_fields ctx) (target_strings (iscsi_boot ctx)).
Definition attempt_laid (wait retries : Z) (h i t : Z) : Laid ISCSI_MDR_HEADER :=
  laid_struct ISCSI_MDR_ATTEMPT h [le_bytes 2 i; le_bytes 2 t; le_bytes 2 wait; [retries]] [].

(** ** Runs of the builder *)

Lemma push_ip_run val d h ss i : ipv4_or_unset val →
  push_ip val IP_ADDRESS_SIZE (mkBuilder d h ss i) = (Ok tt, mkBuilder (d ++ ip_bytes val) h ss i).
Proof using HI. intros Hv. by apply put_end_run, put_ip_run. Qed.

Lemma push_mac_run mac d h ss i : mac_or_unset (default [] mac) →
  push_mac_field mac MAC_ADDRESS_SIZE (mkBuilder d h ss i)
    = (Ok tt, mkBuilder (d ++ mac_bytes (default [] mac)) h ss i).
Proof using HI. intros Hv. by apply put_end_run, put_mac_run. Qed.

Lemma push_number_run v d h ss i :
  push_uint16_field v (mkBuilder d h ss i) = (Ok tt, mkBuilder (d ++ le_bytes 2 (number v)) h ss i).
Proof using Type. apply push_uint16_run. Qed.

Lemma to_enabled_range b : in_range 8 (to_enabled b).
Proof using Type. by destruct b. Qed.
Lemma to_ip_type_range t : in_range 8 (to_ip_type t).
Proof using Type. by destruct t. Qed.
Lemma to_authentication_method_range t : in_range 8 (to_authentication_method t).
Proof using Type. by destruct t. Qed.

Lemma size_add_string ss s n : size ss <= n → size (add_string ss s) <= n + 1.
Proof using Type. intros H. unfold add_string. destruct s; szlia. Qed.

Lemma laid_struct_bytes T h fs ss :
  laid_bytes true (laid_struct T h fs ss) =
    le_bytes 1 (ID T) ++ le_bytes 2 (Z.of_nat (sizeof T)) ++ le_bytes 2 h ++ concat fs ++ aux_bytes ss.
Proof using Type. unfold laid_bytes. cbn [header_bytes ISCSI_MDR_HEADER_layout laid_struct laid_header aux_part]. by rewrite <- !app_assoc. Qed.

Lemma append_version_run d h ss i :
  append_version (mkBuilder d h ss i) = (Ok tt, mkBuilder (d ++ laid_bytes true version_laid) h ss i).
Proof using Type.
  unfold append_version. rewrite (bind_run _ _ _ _ _ (push_uint8_run VERSION d h ss i ltac:(done))).
  rewrite !(bind_run _ _ _ _ _ (push_uint16_run _ _ h ss i)).
  rewrite (bind_run _ _ _ _ _ (push_uint8_run 1 _ h ss i ltac:(done))).
  rewrite (bind_run _ _ _ _ _ (push_uint8_run 0 _ h ss i ltac:(done))).
  unfold append_strings, modify, set_buffer. cbn [buffer current_handle strings string_index].
  by rewrite <- !app_assoc.
Qed.

Lemma append_attempt_run initiator target wait retries d h ss i : in_range 8 retries →
  append_attempt initiator target wait retries (mkBuilder d h ss i) =
    (Ok tt, mkBuilder (d ++ laid_bytes true (attempt_laid wait retries h initiator target)) (wrap 16 (h + 1)) ss i).
Proof using Type.
  intros Hr. unfold append_attempt. rewrite (bind_run _ _ _ _ _ (push_uint8_run ATTEMPT d h ss i ltac:(done))).
  rewrite (bind_run _ _ _ _ _ (push_uint16_run _ _ h ss i)), (bind_run _ _ _ _ _ (handle_inc_run _ h ss i)).
  rewrite !(bind_run _ _ _ _ _ (push_uint16_run _ _ _ ss i)).
  rewrite (bind_run _ _ _ _ _ (push_uint8_run retries _ _ ss i Hr)).
  unfold append_strings, modify, set_buffer. cbn [buffer current_handle strings string_index].
  unfold attempt_laid. rewrite laid_struct_bytes. cbn [concat]. by rewrite app_nil_r, <- !app_assoc.
Qed.

(** What an [append_structure] of a context does: it appends a structure with the next
    handle. *)
Definition appends (append : NetworkDeviceFunction → M Builder unit)
    (laid : Z → NetworkDeviceFunction → Laid ISCSI_MDR_HEADER) (ctx : NetworkDeviceFunction) : Prop :=
  ∀ b, ∃ b', append ctx b = (Ok tt, b') ∧ buffer b' = buffer b ++ laid_bytes true (laid (current_handle b) ctx) ∧
             current_handle b' = wrap 16 (current_handle b + 1).

Lemma append_initiator_run ctx : wf_ctx ctx → appends append_initiator initiator_laid ctx.
Proof using HI.
  intros Hwf [d h ss i]. eexists. split; [|split; [cbn [buffer current_handle]|]].
  - unfold append_initiator. cbv zeta.
    rewrite (bind_run start_structure _ (mkBuilder d h ss i) tt (mkBuilder d h [] (size (@nil (list Z)) + 1)) eq_refl).
    rewrite (bind_run _ _ _ _ _ (push_uint8_run INITIATOR _ _ _ _ ltac:(done))).
    rewrite (bind_run _ _ _ _ _ (push_uint16_run _ _ _ _ _)), (bind_run _ _ _ _ _ (handle_inc_run _ _ _ _)).
    rewrite (bind_run _ _ _ _ _ (push_uint16_run _ _ _ _ _)).
    rewrite (bind_run _ _ _ _ _ (push_uint8_run _ _ _ _ _ (to_enabled_range _))).
    rewrite (bind_run _ _ _ _ _ (push_string_run _ _ _ [] ltac:(done))).
    rewrite (bind_run _ _ _ _ _ (push_uint8_run _ _ _ _ _ (to_ip_type_range _))).
    rewrite (bind_run _ _ _ _ _ (push_ip_run _ _ _ _ _ (wf_initiator_address _ Hwf))).
    rewrite (bind_run _ _ _ _ _ (push_ip_run _ _ _ _ _ (wf_netmask _ Hwf))).
    rewrite (bind_run _ _ _ _ _ (push_ip_run _ _ _ _ _ (wf_gateway _ Hwf))).
    rewrite (bind_run _ _ _ _ _ (push_ip_run _ _ _ _ _ (wf_primary_dns _ Hwf))).
    rewrite (bind_run _ _ _ _ _ (push_ip_run _ _ _ _ _ (wf_secondary_dns _ Hwf))).
    rewrite (bind_run _ _ _ _ _ (push_mac_run _ _ _ _ _ (wf_mac _ Hwf))).
    apply end_structure_run.
  - unfold initiator_laid. rewrite laid_struct_bytes. unfold initiator_fields. cbn [concat].
    by rewrite app_nil_r, <- !app_assoc.
  - done.
Qed.

Lemma append_target_run ctx : wf_ctx ctx → appends append_target target_laid ctx.
Proof using HI.
  intros Hwf [d h ss i]. eexists. split; [|split; [cbn [buffer current_handle]|]].
  - unfold append_target, push_string_field. cbv zeta.
    rewrite (bind_run start_structure _ (mkBuilder d h ss i) tt (mkBuilder d h [] (size (@nil (list Z)) + 1)) eq_refl).
    rewrite (bind_run _ _ _ _ _ (push_uint8_run TARGET _ _ _ _ ltac:(done))).
    rewrite (bind_run _ _ _ _ _ (push_uint16_run _ _ _ _ _)), (bind_run _ _ _ _ _ (handle_inc_run _ _ _ _)).
    rewrite (bind_run _ _ _ _ _ (push_uint16_run _ _ _ _ _)).
    rewrite (bind_run _ _ _ _ _ (push_uint8_run _ _ _ _ _ (to_enabled_range _))).
    rewrite (bind_run _ _ _ _ _ (push_string_run _ _ _ [] ltac:(done))).
    rewrite (bind_run _ _ _ _ _ (push_uint8_run _ _ _ _ _ (to_ip_type_range _))).
    rewrite (bind_run _ _ _ _ _ (push_ip_run _ _ _ _ _ (wf_target_address _ Hwf))).
    rewrite (bind_run _ _ _ _ _ (push_number_run _ _ _ _ _)), (bind_run _ _ _ _ _ (push_number_run _ _ _ _ _)).
    rewrite (bind_run _ _ _ _ _ (push_uint8_run _ _ _ _ _ (to_enabled_range _))).
    rewrite (bind_run _ _ _ _ _ (push_number_run _ _ _ _ _)).
    rewrite (bind_run _ _ _ _ _ (push_uint8_run _ _ _ _ _ (to_enabled_range _))).
    rewrite (bind_run _ _ _ _ _ (push_uint8_run _ _ _ _ _ (to_authentication_method_range _))).
    pose proof (size_add_string [] (default [] (primary_target_name (iscsi_boot ctx))) 0 ltac:(done)) as H1.
    pose proof (size_add_string _ (default [] (chap_username (iscsi_boot ctx))) _ H1) as H2.
    pose proof (size_add_string _ (default [] (chap_secret (iscsi_boot ctx))) _ H2) as H3.
    pose proof (size_add_string _ (default [] (mutual_chap_username (iscsi_boot ctx))) _ H3) as H4.
    erewrite bind_run by (apply push_string_run; lia).
    erewrite bind_run by (apply push_string_run; lia).
    erewrite bind_run by (apply push_string_run; lia).
    erewrite bind_run by (apply push_string_run; lia).
    apply end_structure_run.
  - unfold target_laid. rewrite laid_struct_bytes. unfold target_fields. cbn [concat].
    by rewrite app_nil_r, <- !app_assoc.
  - done.
Qed.

(** ** The whole blob *)

(** [n] handles from [h] on. *)
Fixpoint handles_from (h : Z) (n : nat) : list Z :=
  match n with
  | O => []
  | S n' => h :: handles_from (h + 1) n'
  end.

Lemma append_all_run append laid ctxs : Forall (appends append laid) ctxs → ∀ b,
  0 <= current_handle b → current_handle b + Z.of_nat (length ctxs) < 65536 →
  ∃ b', append_all append ctxs b = (Ok (handles_from (current_handle b) (length ctxs)), b') ∧
        buffer b' = buffer b ++
          concat (laid_bytes true <$> zip_with laid (handles_from (current_handle b) (length ctxs)) ctxs) ∧
        current_handle b' = current_handle b + Z.of_nat (length ctxs).
Proof using Type.
  induction 1 as [|ctx ctxs Hctx _ IH]; intros b H0 Hb; cbn [length] in Hb.
  { exists b. cbn. rewrite app_nil_r. split; [done|]. split; [done|lia]. }
  destruct (Hctx b) as (b1 & H1 & Hbuf1 & Hh1). rewrite wrap_small in Hh1 by (unfold in_range; zpow; lia).
  destruct (IH b1) as (b2 & H2 & Hbuf2 & Hh2); [lia..|]. rewrite Hh1 in *.
  exists b2. cbn [append_all length handles_from zip_with fmap list_fmap concat].
  rewrite (bind_run get _ _ _ _ eq_refl), (bind_run _ _ _ _ _ H1), (bind_run _ _ _ _ _ H2).
  split; [done|]. split; [by rewrite Hbuf2, Hbuf1, <- app_assoc|lia].
Qed.

Fixpoint attempts_laid (wait retries h : Z) (initiators ts : list Z) : list (Laid ISCSI_MDR_HEADER) :=
  match initiators, ts with
  | i :: hs, t :: ts' => attempt_laid wait retries h i t :: attempts_laid wait retries (h + 1) hs ts'
  | _, _ => []
  end.

Lemma append_attempts_run wait retries initiators : in_range 8 retries → ∀ ts b,
  0 <= current_handle b → current_handle b + Z.of_nat (length initiators) < 65536 →
  ∃ b', append_attempts initiators ts wait retries b = (Ok tt, b') ∧
        buffer b' = buffer b ++ concat (laid_bytes true <$> attempts_laid wait retries (current_handle b) initiators ts).
Proof using Type.
  intros Hr. induction initiators as [|i hs IH]; intros [|t ts] [d h ss k] H0 Hb; cbn [append_attempts];
    try (eexists; split; [done|]; cbn; by rewrite app_nil_r).
  cbn [length current_handle buffer] in *.
  rewrite (bind_run _ _ _ _ _ (append_attempt_run i t wait retries d h ss k Hr)).
  rewrite (wrap_small 16 (h + 1)) by (unfold in_range; zpow; lia).
  destruct (IH ts (mkBuilder (d ++ laid_bytes true (attempt_laid wait retries h i t)) (h + 1) ss k))
    as (b' & Hb' & Hbuf); [cbn; lia..|].
  exists b'. split; [done|]. rewrite Hbuf. cbn [buffer current_handle attempts_laid fmap list_fmap concat].
  by rewrite <- app_assoc.
Qed.

(** The structures of a list of contexts. *)
Definition structures (ctxs : list NetworkDeviceFunction) (wait retries : Z) : list (Laid ISCSI_MDR_HEADER) :=
  let n := length ctxs in
  version_laid ::
  zip_with initiator_laid (handles_from 1 n) ctxs ++
  zip_with target_laid (handles_from (1 + Z.of_nat n) n) ctxs ++
  attempts_laid wait retries (1 + Z.of_nat n + Z.of_nat n) (handles_from 1 n) (handles_from (1 + Z.of_nat n) n).

Lemma length_handles_from h n : length (handles_from h n) = n.
Proof using Type. revert h. induction n as [|n IH]; intros h; [done|]. cbn. by rewrite IH. Qed.

(** What [build] appends to its buffer is the version, an initiator and a target per
    context, and an attempt per pair. *)
Lemma build_lays_out data ctxs wait retries :
  Forall wf_ctx ctxs → Z.of_nat (length ctxs) < 20000 → in_range 8 retries →
  build data ctxs wait retries = Ok (data ++ concat (laid_bytes true <$> structures ctxs wait retries)).
Proof using HI.
  intros Hwf Hn Hr. unfold build, build_structures.
  rewrite (bind_run _ _ _ _ _ (append_version_run data 1 [] 1)).
  destruct (append_all_run append_initiator initiator_laid ctxs) with
    (b := mkBuilder (data ++ laid_bytes true version_laid) 1 [] 1) as (b1 & H1 & Hbuf1 & Hh1);
    [eapply list.Forall_impl; [exact Hwf|apply append_initiator_run]|cbn [current_handle]; lia|cbn [current_handle]; lia|].
  cbn [current_handle buffer] in *. rewrite (bind_run _ _ _ _ _ H1).
  destruct (append_all_run append_target target_laid ctxs) with (b := b1) as (b2 & H2 & Hbuf2 & Hh2);
    [eapply list.Forall_impl; [exact Hwf|apply append_target_run]|lia|lia|].
  rewrite (bind_run _ _ _ _ _ H2). rewrite Hh1 in *.
  destruct (append_attempts_run wait retries (handles_from 1 (length ctxs)) Hr
    (handles_from (1 + Z.of_nat (length ctxs)) (length ctxs)) b2) as (b3 & H3 & Hbuf3);
    [lia|rewrite length_handles_from; lia|].
  rewrite H3. cbn [mbind result_bind]. rewrite Hbuf3, Hbuf2, Hbuf1, Hh2. unfold structures.
  cbn [fmap list_fmap concat]. unfold mret, result_ret. f_equal.
  fold (fmap (M:=list) (laid_bytes true (H:=ISCSI_MDR_HEADER))).
  rewrite !fmap_app, !concat_app, <- !app_assoc. done.
Qed.

(** ** The structures can be read *)

(** The fields of a structure have the sizes its type declares. *)
Definition fits (T : Struct) (fs : list (list Z)) : Prop := Forall2 (λ f c, length c = f.2) (fields T) fs.

Lemma length_fits T fs : fits T fs → length (concat fs) = sizeof_data T.
Proof using Type.
  unfold fits, sizeof_data. generalize (fields T). intros fds. induction 1 as [|f c fds fs Hc _ IH]; [done|].
  cbn [concat fmap list_fmap sum_list]. by rewrite length_app, Hc, IH.
Qed.

Lemma initiator_fits ctx : wf_ctx ctx → fits ISCSI_MDR_INITIATOR (initiator_fields ctx).
Proof using HI.
  intros [].
  repeat (apply Forall2_cons; [by rewrite ?length_ip_bytes, ?length_mac_bytes|]). apply Forall2_nil.
Qed.

Lemma target_fits ctx : wf_ctx ctx → fits ISCSI_MDR_TARGET (target_fields ctx).
Proof using HI.
  intros []. repeat (apply Forall2_cons; [by rewrite ?length_ip_bytes|]). apply Forall2_nil.
Qed.

Lemma add_string_wf ss s : Forall wf_string ss → no_null s → Forall wf_string (add_string ss s).
Proof using Type.
  intros Hss Hs. destruct s as [|c s]; [done|]. apply list.Forall_app. split; [done|].
  apply Forall_singleton. by split.
Qed.

Lemma laid_struct_wf T h fs ss :
  in_range 8 (ID T) → in_range 16 (Z.of_nat (sizeof T)) → in_range 16 h → fits T fs → Forall wf_string ss →
  wf_laid true (laid_struct T h fs ss).
Proof using Type.
  intros HT HS Hh Hf Hss. split; [done|]. split; [|done].
  cbn [laid_struct laid_header header_length ISCSI_MDR_HEADER_type laid_body hlength]. unfold size.
  rewrite (length_fits T fs Hf). unfold sizeof. cbn [sizeof_header ISCSI_MDR_HEADER_type]. lia.
Qed.

Lemma initiator_laid_wf h ctx : wf_ctx ctx → in_range 16 h → wf_laid true (initiator_laid h ctx).
Proof using HI.
  intros Hwf Hh. apply laid_struct_wf; [done|done|done|by apply initiator_fits|].
  apply add_string_wf; [done|by apply wf_initiator_name].
Qed.

Lemma target_laid_wf h ctx : wf_ctx ctx → in_range 16 h → wf_laid true (target_laid h ctx).
Proof using HI.
  intros Hwf Hh. apply laid_struct_wf; [done|done|done|by apply target_fits|].
  destruct Hwf. unfold target_strings, target_strings_4, target_strings_3, target_strings_2, target_strings_1.
  by repeat apply add_string_wf.
Qed.

Lemma attempt_laid_wf wait retries h i t : in_range 16 h → wf_laid true (attempt_laid wait retries h i t).
Proof using Type.
  intros Hh. apply laid_struct_wf; [done|done|done| |done].
  repeat (apply Forall2_cons; [done|]). apply Forall2_nil.
Qed.

Lemma handles_from_range h n : 0 <= h → h + Z.of_nat n <= 65536 → Forall (in_range 16) (handles_from h n).
Proof using Type.
  revert h. induction n as [|n IH]; intros h H0 Hn; [done|]. cbn [handles_from]. apply Forall_cons_2.
  - unfold in_range. zpow. lia.
  - apply IH; lia.
Qed.

Lemma Forall_zip_with {A B C} (f : A → B → C) (P : A → Prop) (Q : B → Prop) (R : C → Prop) l k :
  (∀ a b, P a → Q b → R (f a b)) → Forall P l → Forall Q k → Forall R (zip_with f l k).
Proof using Type.
  intros Hf Hl. revert k. induction Hl as [|a l Ha _ IH]; intros k Hk; [done|].
  destruct Hk as [|b k Hb Hk]; [done|]. apply Forall_cons_2; auto.
Qed.

Lemma attempts_laid_wf wait retries h hs ts :
  0 <= h → h + Z.of_nat (length hs) <= 65536 → Forall (wf_laid true) (attempts_laid wait retries h hs ts).
Proof using Type.
  revert h ts. induction hs as [|i hs IH]; intros h [|t ts] H0 Hn; try done. cbn [attempts_laid length] in *.
  apply Forall_cons_2; [apply attempt_laid_wf; unfold in_range; zpow; lia|apply IH; lia].
Qed.

Lemma structures_wf ctxs wait retries :
  Forall wf_ctx ctxs → Z.of_nat (length ctxs) < 20000 → Forall (wf_laid true) (structures ctxs wait retries).
Proof using HI.
  intros Hwf Hn. unfold structures. apply Forall_cons_2; [|apply list.Forall_app; split; [|apply list.Forall_app; split]].
  - apply laid_struct_wf; try done. repeat (apply Forall2_cons; [done|]). apply Forall2_nil.
  - eapply Forall_zip_with; [|apply handles_from_range; lia|exact Hwf]. intros a b Ha Hb. by apply initiator_laid_wf.
  - eapply Forall_zip_with; [|apply handles_from_range; lia|exact Hwf]. intros a b Ha Hb. by apply target_laid_wf.
  - apply attempts_laid_wf; [lia|]. rewrite length_handles_from. lia.
Qed.

(** ** What the parser finds *)

Lemma wanted_app T (l k : list (Laid ISCSI_MDR_HEADER)) : wanted T None (l ++ k) = wanted T None l ++ wanted T None k.
Proof using Type.
  induction l as [|s l IH]; [done|]. cbn [app]. rewrite !wanted_cons, IH. by destruct (Mdr.header_type_equal _ _ _).
Qed.

Lemma wanted_same T (l : list (Laid ISCSI_MDR_HEADER)) :
  Forall (λ s, header_type_equal T (laid_header s) None = true) l → wanted T None l = enhance T <$> l.
Proof using Type. intros Hl. unfold wanted. by rewrite filter_all. Qed.

Lemma wanted_other T (l : list (Laid ISCSI_MDR_HEADER)) :
  Forall (λ s, header_type_equal T (laid_header s) None = false) l → wanted T None l = [].
Proof using Type.
  induction 1 as [|s l Hs _ IH]; [done|]. rewrite wanted_cons. cbn [Mdr.header_type_equal IscsiMdrTraits].
  by rewrite Hs.
Qed.

Lemma Forall_zip_with_always {A B C} (f : A → B → C) (R : C → Prop) l k : (∀ a b, R (f a b)) → Forall R (zip_with f l k).
Proof using Type. intros Hf. revert k. induction l as [|a l IH]; intros [|b k]; try done. by apply Forall_cons_2. Qed.

Lemma Forall_attempts (R : Laid ISCSI_MDR_HEADER → Prop) wait retries hs : (∀ h i t, R (attempt_laid wait retries h i t)) →
  ∀ h ts, Forall R (attempts_laid wait retries h hs ts).
Proof using Type.
  intros HR. induction hs as [|i hs IH]; intros h [|t ts]; try done. by apply Forall_cons_2.
Qed.

(** What a call of [get_all] finds for each type of structure. *)
Lemma structures_wanted ctxs wait retries :
  let n := length ctxs in
  wanted ISCSI_MDR_VERSION None (structures ctxs wait retries) = [enhance ISCSI_MDR_VERSION version_laid] ∧
  wanted ISCSI_MDR_INITIATOR None (structures ctxs wait retries) =
    enhance ISCSI_MDR_INITIATOR <$> zip_with initiator_laid (handles_from 1 n) ctxs ∧
  wanted ISCSI_MDR_TARGET None (structures ctxs wait retries) =
    enhance ISCSI_MDR_TARGET <$> zip_with target_laid (handles_from (1 + Z.of_nat n) n) ctxs ∧
  wanted ISCSI_MDR_ATTEMPT None (structures ctxs wait retries) =
    enhance ISCSI_MDR_ATTEMPT <$> attempts_laid wait retries (1 + Z.of_nat n + Z.of_nat n)
      (handles_from 1 n) (handles_from (1 + Z.of_nat n) n).
Proof using Type.
  intros n. unfold structures. change (version_laid :: ?l) with ([version_laid] ++ l).
  split_and!; rewrite !wanted_app;
    repeat match goal with
    | |- context [wanted ?T None (zip_with ?f ?l ?k)] =>
        first [rewrite (wanted_same T (zip_with f l k)) by (apply Forall_zip_with_always; done)
              |rewrite (wanted_other T (zip_with f l k)) by (apply Forall_zip_with_always; done)]
    | |- context [wanted ?T None (attempts_laid ?a ?b ?c ?d ?e)] =>
        first [rewrite (wanted_same T (attempts_laid a b c d e)) by (apply Forall_attempts; done)
              |rewrite (wanted_other T (attempts_laid a b c d e)) by (apply Forall_attempts; done)]
    end; rewrite ?app_nil_r; done.
Qed.

Lemma Ok_inj {A} (x y : A) : Ok x = Ok y → x = y.
Proof using Type. by intros [= ->]. Qed.

(** The parser accepts what [build] wrote and finds its structures. *)
Lemma build_parse ctxs wait retries blob :
  Forall wf_ctx ctxs → Z.of_nat (length ctxs) < 20000 → in_range 8 retries → size blob < 2 ^ 32 →
  build [] ctxs wait retries = Ok blob →
  ∃ p, IscsiMdrParser (Some blob) = Ok p ∧ ∀ T, get_all p T None = Ok (wanted T None (structures ctxs wait retries)).
Proof using HI.
  intros Hwf Hn Hr Hsz Hb. rewrite build_lays_out in Hb by done. apply Ok_inj in Hb. change ([] ++ ?x) with x in Hb.
  assert (∃ rest, blob = [1; 7; 0; 0; 0; 1; 0; 0; 0] ++ rest) as [rest Hrest]
    by (eexists; rewrite <- Hb; unfold structures; cbn [fmap list_fmap concat]; reflexivity).
  assert (create blob = Ok (mkEntryPoint [1; 7; 0; 0; 0; 1; 0] (wrap 32 (size blob)))) as Hc.
  { unfold create, IscsiMdr10EntryPoint_new. change (sizeof ISCSI_MDR_VERSION) with 7%nat.
    rewrite (proj2 (Z.ltb_ge _ _)) by (rewrite Hrest; unfold size; rewrite length_app; cbn [length]; lia).
    assert (take 7 blob = [1; 7; 0; 0; 0; 1; 0]) as -> by by rewrite Hrest. done. }
  eexists. unfold IscsiMdrParser. rewrite Hc. split; [done|]. intros T.
  pose proof (get_all_laid_out true (mkEntryPoint [1; 7; 0; 0; 0; 1; 0] (wrap 32 (size blob))) T None
    (structures ctxs wait retries) [] []) as Hg.
  change ([] ++ ?x) with x in Hg. rewrite app_nil_r, Hb in Hg. rewrite Hg; [done|lia| |done|].
  - by apply structures_wf.
  - cbn. apply wrap_small. split; [unfold size; lia|done].
Qed.

(** ** Fields of a structure that was read *)

(** The part of [cs] that is field [name]. *)
Fixpoint chunk_of (fds : list (string * nat)) (cs : list (list Z)) (name : string) : option (list Z) :=
  match fds, cs with
  | (f, _) :: fds', c :: cs' => if bool_decide (f = name) then Some c else chunk_of fds' cs' name
  | _, _ => None
  end.

Lemma offsetof_chunk fds cs name : Forall2 (λ f c, length c = f.2) fds cs → ∀ pre,
  (offsetof fds name (length pre) ≫= λ '(p, n), Some (slice p n (pre ++ concat cs))) = chunk_of fds cs name.
Proof using Type.
  induction 1 as [|[f n] c fds cs Hc _ IH]; intros pre; [done|]. cbn [offsetof chunk_of concat].
  destruct (bool_decide (f = name)).
  - cbn [mbind option_bind]. unfold slice. rewrite drop_app_length. cbn in Hc. by rewrite <- Hc, take_app_length.
  - specialize (IH (pre ++ c)). rewrite length_app, <- app_assoc in IH. cbn in Hc. rewrite Hc in IH. exact IH.
Qed.

Lemma field_bytes_chunk T h fs ss name : fits T fs →
  field_bytes (fields T) name (data (enhance T (laid_struct T h fs ss))) = chunk_of (fields T) fs name.
Proof using Type.
  intros Hf. cbn [enhance laid_struct data laid_body].
  rewrite take_ge by (rewrite (length_fits T fs Hf); done). unfold field_bytes.
  by rewrite <- (offsetof_chunk (fields T) fs name Hf []).
Qed.

End layout.

(** ** IPv6 addresses *)

(** An IPv6 address takes [ip_size] times its bytes: 256 bytes in a field of 16. *)
Theorem ipv6_address_is_repeated `{I : Inet} `{!InetLaws I} d val bs :
  val ≠ [] → inet_pton4 val = None → inet_pton6 val = Some bs →
  put_ip d (length d) val IP_ADDRESS_SIZE = Ok (d ++ concat (replicate 16 bs)) ∧
  length (concat (replicate 16 bs)) = 256%nat.
Proof.
  intros Hne H4 H6. destruct (pton6_bytes _ _ H6) as [Hl _]. unfold put_ip, IP_ADDRESS_SIZE.
  destruct val as [|c val]; [done|]. rewrite H4, H6, take_ge by lia.
  destruct bs as [|b bs]; [done|]. split; [apply put_bytes_end|].
  do 16 (destruct bs as [|? bs]; [done|]). all: try done.
Qed.

End Iscsi.
