(* ===== verification/IscsiOob.v ===== *)
(** iSCSI out-of-band boot options in the compute agent: writing the options of a network
    device function into the MDR region of the BMC
    (PSME/agent/compute/src/command/set_network_device_function_attributes.cpp), reading
    the regions ([GenericDiscoverer::read_mdr]) and taking the options back from them
    ([GenericDiscoverer::discover_network_device_function] with
    [NetworkDeviceFunctionBuilder]).

    [boot_options_survive] composes the command, the builder, the region accessor, the
    parser and the discovery: what was set is what is discovered.  [as_discovered] says
    what becomes of options that are not set.  [unknown_structure_crashes] and
    [failed_write_stays_enabled] show where the code does not do what it means to. *)

From Stdlib Require Import ZArith Lia.
From S2P Require Import Prelude Mdr Ipmi MdrRegion Iscsi Smbios Acpi.
Import Ipmi MdrRegion Iscsi.

Local Open Scope Z_scope.

Module IscsiOob.

(** * The model of the agent *)

(** [enums::PlatformType] *)
Inductive PlatformType := BDCR | EDK | MF3 | GRANTLEY | PURLEY | UNKNOWN.

#[export] Instance PlatformType_eq_dec : EqDecision PlatformType.
Proof. solve_decision. Defined.

(** A resource of a manager: its uuid, the uuid of its parent and its attributes.  The
    managers themselves are in [GenericManager]; here a resource has one uuid. *)
Record Entry (A : Type) := mkEntry { uuid : string; parent_uuid : string; attributes : A }.
Global Arguments mkEntry {A} _ _ _.
Global Arguments uuid {A} _.
Global Arguments parent_uuid {A} _.
Global Arguments attributes {A} _.

Definition get_entry {A} (u : string) (t : list (Entry A)) : result (Entry A) :=
  match list_find (λ e, uuid e = u) t with Some (_, e) => Ok e | None => Throw invalid_uuid end.

Definition get_entries {A} (parent : string) (t : list (Entry A)) : list (Entry A) :=
  filter (λ e, parent_uuid e = parent) t.

Definition get_keys {A} (parent : string) (t : list (Entry A)) : list string := uuid <$> get_entries parent t.

(** Changing an entry through a reference. *)
Definition update_entry {A} (u : string) (f : A → A) (t : list (Entry A)) : list (Entry A) :=
  (λ e, if bool_decide (uuid e = u) then mkEntry (uuid e) (parent_uuid e) (f (attributes e)) else e) <$> t.

(** The managers: systems have the uuid of their chassis and network interfaces their
    MAC address. *)
Record Model := mkModel {
  network_devices : list (Entry unit);
  network_interfaces : list (Entry (option (list Z)));
  network_device_functions : list (Entry NetworkDeviceFunction);
  systems : list (Entry string);
  chassis : list (Entry PlatformType);
}.

Definition set_functions (t : list (Entry NetworkDeviceFunction)) (m : Model) : Model :=
  mkModel (network_devices m) (network_interfaces m) t (systems m) (chassis m).

(** [IpmiError] and [IscsiError] *)
Definition IpmiError : exn := json_rpc_exception 21000.
Definition IscsiError : exn := json_rpc_exception 41000.

(** * Setting the options *)

Definition get_platform_from_chassis (network_device_uuid : string) (m : Model) : result PlatformType :=
  device ← get_entry network_device_uuid (network_devices m);
  system ← get_entry (parent_uuid device) (systems m);
  ch ← get_entry (attributes system) (chassis m);
  mret (attributes ch).

(** The loop over the network interfaces that have a MAC address. *)
Definition contexts_of_interfaces (f : NetworkDeviceFunction) (interfaces : list (Entry (option (list Z))))
    : list NetworkDeviceFunction :=
  omap (λ e, match attributes e with Some mac => Some (set_mac_address (Some mac) f) | None => None end) interfaces.

Definition get_ndf_context_vector (f : Entry NetworkDeviceFunction) (m : Model) : result (list NetworkDeviceFunction) :=
  ret ← (if mac_address (attributes f) is Some _ then mret [attributes f]
         else
           ndf_parent ← get_entry (parent_uuid f) (network_devices m);
           mret (contexts_of_interfaces (attributes f) (get_entries (parent_uuid ndf_parent) (network_interfaces m))));
  match ret with [] => Throw IpmiError | _ => mret ret end.

Definition PURLEY_DEFAULT_WAIT_TIME : Z := 200.
Definition DEFAULT_RETRY_COUNT : Z := 16.

Section agent.
Context {W : Type} `{!IpmiLink W} `{!Inet}.

Record Agent := mkAgent { model : Model; link : W }.

Definition set_model (m : Model) (a : Agent) : Agent := mkAgent m (link a).
Definition set_link (w : W) (a : Agent) : Agent := mkAgent (model a) w.

(** [accessor->write_mdr_region(data)] in its [try]. *)
Definition write_iscsi_region (data : list Z) : M Agent unit :=
  try_catch
    (accessor ← lift (MdrRegion.create PRODUCT_ID_INTEL_XEON_PURLEY ISCSI_BOOT_OPTIONS);
     zoom link set_link (accessor_write_mdr_region accessor data))
    (λ e, if is_runtime_error e then throw IscsiError else throw e).

Definition send_iscsi_oob_parameters (f : Entry NetworkDeviceFunction) : M Agent unit :=
  a ← get;
  platform ← lift (get_platform_from_chassis (parent_uuid f) (model a));
  if bool_decide (platform = PURLEY) then
    ctxs ← lift (get_ndf_context_vector f (model a));
    data ← lift (build [] ctxs PURLEY_DEFAULT_WAIT_TIME DEFAULT_RETRY_COUNT);
    write_iscsi_region data
  else throw invalid_value.

Definition send_clear_iscsi_oob_parameters (f : Entry NetworkDeviceFunction) : M Agent unit :=
  a ← get;
  platform ← lift (get_platform_from_chassis (parent_uuid f) (model a));
  if bool_decide (platform = PURLEY) then
    _ ← lift (get_ndf_context_vector f (model a));
    data ← lift (clear []);
    write_iscsi_region data
  else throw invalid_value.

(** The only network device function of a system. *)
Definition the_function (system : string) (m : Model) : result (Entry NetworkDeviceFunction) :=
  match get_keys system (network_devices m) with
  | [device] =>
      match get_keys device (network_device_functions m) with
      | [function] => get_entry function (network_device_functions m)
      | _ => Throw invalid_uuid
      end
  | _ => Throw invalid_uuid
  end.

(** [function.set_device_enabled(enabled)] through the reference. *)
Definition enable_function (f : Entry NetworkDeviceFunction) (enabled : bool) : M Agent unit :=
  modify (λ a, set_model (set_functions (update_entry (uuid f) (set_device_enabled enabled)
                            (network_device_functions (model a))) (model a)) a).

Definition set_iscsi_oob_parameters (system : string) : M Agent unit :=
  a ← get;
  function ← lift (the_function system (model a));
  if negb (device_enabled (attributes function)) then
    enable_function function true;;
    send_iscsi_oob_parameters
      (mkEntry (uuid function) (parent_uuid function) (set_device_enabled true (attributes function)))
  else mret tt.

Definition clear_iscsi_oob_parameters (system : string) : M Agent unit :=
  a ← get;
  function ← lift (the_function system (model a));
  if device_enabled (attributes function) then
    enable_function function false;;
    send_clear_iscsi_oob_parameters
      (mkEntry (uuid function) (parent_uuid function) (set_device_enabled false (attributes function)))
  else mret tt.

Definition get_iscsi_enabled (system : string) (m : Model) : result bool :=
  match get_keys system (network_devices m) with
  | [device] =>
      match get_keys device (network_device_functions m) with
      | [function] => f ← get_entry function (network_device_functions m); mret (device_enabled (attributes f))
      | _ => mret false
      end
  | _ => mret false
  end.

(** * Discovery *)

(** [GenericDiscoverer]: the parsers and the management controller. *)
Record Discoverer := mkDiscoverer {
  m_smbios_parser : option (Mdr.GenericParser Smbios.SmbiosEntryPoint);
  m_acpi_parser : option (Mdr.GenericParser Acpi.AcpiTableEntryPoint);
  m_iscsi_parser : option (Mdr.GenericParser Iscsi.IscsiMdr10EntryPoint);
  m_management_controller : W;
}.

Definition set_controller (w : W) (d : Discoverer) : Discoverer :=
  mkDiscoverer (m_smbios_parser d) (m_acpi_parser d) (m_iscsi_parser d) w.
Definition set_smbios_parser p (d : Discoverer) : Discoverer :=
  mkDiscoverer (Some p) (m_acpi_parser d) (m_iscsi_parser d) (m_management_controller d).
Definition set_acpi_parser p (d : Discoverer) : Discoverer :=
  mkDiscoverer (m_smbios_parser d) (Some p) (m_iscsi_parser d) (m_management_controller d).
Definition set_iscsi_parser p (d : Discoverer) : Discoverer :=
  mkDiscoverer (m_smbios_parser d) (m_acpi_parser d) (Some p) (m_management_controller d).

(** [catch (const std::exception&)] *)
Definition is_exception (e : exn) : bool :=
  match e with undefined_behaviour | out_of_fuel => false | _ => true end.

(** One [try] of [read_mdr]: the region is read and given to its parser. *)
Definition read_region (fuel : nat) (platform_id region_id : Z) (set_up : list Z → M Discoverer unit)
    : M Discoverer unit :=
  try_catch
    (accessor ← lift (MdrRegion.create platform_id region_id);
     data ← zoom m_management_controller set_controller (accessor_get_mdr_region fuel accessor);
     set_up data)
    (λ e, if is_exception e then mret tt else throw e).

Definition set_up_smbios_data (data : list Z) : M Discoverer unit :=
  p ← lift (Smbios.SmbiosParser (Some data) true); modify (set_smbios_parser p).
Definition set_up_acpi_data (fuel : nat) (data : list Z) : M Discoverer unit :=
  p ← lift (Acpi.AcpiParser fuel (Some data) false); modify (set_acpi_parser p).
Definition set_up_iscsi_data (data : list Z) : M Discoverer unit :=
  p ← lift (Iscsi.IscsiMdrParser (Some data)); modify (set_iscsi_parser p).

(** [read_mdr]: [fuel] bounds the reading loops and [tables] the walk over the tables. *)
Definition read_mdr (fuel tables : nat) (platform_id : Z) : M Discoverer unit :=
  read_region fuel platform_id SMBIOS_TABLE set_up_smbios_data;;
  read_region fuel platform_id ISCSI_BOOT_OPTIONS set_up_iscsi_data;;
  read_region fuel platform_id ACPI_TABLE (set_up_acpi_data tables).

End agent.

(** ** Fields of a structure *)

Definition raw (T : Mdr.Struct) (name : string) (s : StructEnhanced) : list Z :=
  default [] (Mdr.field_bytes (Mdr.fields T) name (Mdr.data s)).
Definition num (T : Mdr.Struct) (name : string) (s : StructEnhanced) : Z := le_val (raw T name s).
(** [s.get_string(s.data.name)] *)
Definition str (T : Mdr.Struct) (name : string) (s : StructEnhanced) : list Z := Mdr.get_string s (num T name s).

Section discovery.
Context `{!Inet}.

(** [static_cast<bool>] *)
Definition to_bool (v : Z) : bool := negb (v =? 0).

Definition update_iscsi_mdr_data (initiator target : StructEnhanced) : M NetworkDeviceFunction unit :=
  let I := ISCSI_MDR_INITIATOR in
  let T := ISCSI_MDR_TARGET in
  mac ← lift (print_mac (raw I "nic_mac_address" initiator));
  modify (set_mac_address (Some mac));;
  auth ← lift (from_authentication_method (num T "authentication_method" target));
  ip_type ← lift (from_ip_type (num T "ip_address_type" target));
  let vlan_id := num T "vlan_id" target in
  modify (set_iscsi_boot (mkBoot
    ip_type
    (print_ip (raw I "initiator_ip_address" initiator))
    (str I "initiator_name" initiator)
    (Some (print_ip (raw I "initiator_gateway" initiator)))
    (print_ip (raw I "initiator_subnet_mask" initiator))
    (to_bool (num T "target_dhcp_enabled" target))
    (to_bool (num I "initiator_dhcp_enabled" initiator))
    (to_bool (num T "router_advertisement" target))
    (Some (print_ip (raw T "target_ip_address" target)))
    (Some (str T "target_name" target))
    (Some (num T "target_port" target))
    (Some (num T "target_lun" target))
    (to_bool (num T "vlan_enabled" target))
    (if (1 <=? vlan_id) && (vlan_id <=? 4094) then Some vlan_id else None)
    (Some (print_ip (raw I "initiator_primary_dns" initiator)))
    None None None None None None
    (Some (print_ip (raw I "initiator_secondary_dns" initiator)))
    auth
    (Some (str T "chap_user_name" target))
    (Some (str T "chap_secret" target))
    (Some (str T "mutual_chap_name" target))
    (Some (str T "mutual_chap_secret" target)))).

Definition clear_iscsi_mdr_data : M NetworkDeviceFunction unit :=
  modify (λ f, set_iscsi_boot IscsiBoot_new (set_mac_address None f)).

(** The loop over the attempts: false when both handles of one differ. *)
Fixpoint handles_match (attempts initiators targets : list StructEnhanced) : bool :=
  match attempts, initiators, targets with
  | a :: attempts', i :: initiators', t :: targets' =>
      if negb (num ISCSI_MDR_ATTEMPT "initiator_handle" a =? handle (Mdr.header i)) &&
         negb (num ISCSI_MDR_ATTEMPT "target_handle" a =? handle (Mdr.header t))
      then false else handles_match attempts' initiators' targets'
  | _, _, _ => true
  end.

(** [v.front()] *)
Definition front {A} (l : list A) : result A := index l 0.

(** [parser->get_all<T>()] *)
Definition get_all (p : Mdr.GenericParser IscsiMdr10EntryPoint) (T : Mdr.Struct) : result (list StructEnhanced) :=
  Mdr.get_all p T None.

(** The body of the [try]; [false] is an early return. *)
Definition discover_from (p : Mdr.GenericParser IscsiMdr10EntryPoint) : M NetworkDeviceFunction bool :=
  initiators ← lift (get_all p ISCSI_MDR_INITIATOR);
  targets ← lift (get_all p ISCSI_MDR_TARGET);
  attempts ← lift (get_all p ISCSI_MDR_ATTEMPT);
  versions ← lift (get_all p ISCSI_MDR_VERSION);
  modify (set_device_enabled false);;
  if (length initiators =? 0)%nat && (length targets =? 0)%nat && (length attempts =? 0)%nat
     && (length versions =? 1)%nat
  then clear_iscsi_mdr_data;; mret true
  else if negb (length initiators =? length targets)%nat || negb (length targets =? length attempts)%nat
  then mret false
  else if negb (handles_match attempts initiators targets) then mret false
  else
    initiator ← lift (front initiators);
    target ← lift (front targets);
    update_iscsi_mdr_data initiator target;;
    (if (length initiators =? 1)%nat then mret tt else modify (set_mac_address None));;
    modify (set_device_enabled true);;
    mret true.

Definition discover_network_device_function (parser : option (Mdr.GenericParser IscsiMdr10EntryPoint))
    : M NetworkDeviceFunction bool :=
  match parser with
  | None => mret false
  | Some p =>
      found ← try_catch (discover_from p) (λ e, if is_exception e then mret false else throw e);
      if found : bool then modify (set_state_enabled true);; mret true else mret false
  end.

End discovery.

(** [NetworkDeviceFunctionBuilder::build_default] *)
Definition build_default : NetworkDeviceFunction := mkFunction false None IscsiBoot_new false.

(** * What is set is what is discovered *)

Section round_trip.
Context `{I : Inet} `{HI : !InetLaws I}.

(** An address that is not set, or is written as the C library prints it. *)
Definition canonical_ip (val : list Z) : Prop :=
  val = [] ∨ ∃ bs, inet_pton4 val = Some bs ∧ inet_ntop4 bs = Some val.
Definition canonical_mac (val : list Z) : Prop :=
  val ≠ [] ∧ ∃ bs, ether_aton (replace_dashes val) = Some bs ∧ print_mac bs = Ok val.

Record canonical_boot (boot : IscsiBoot) : Prop := {
  canonical_initiator_address : canonical_ip (initiator_address boot);
  canonical_netmask : canonical_ip (initiator_netmask boot);
  canonical_gateway : canonical_ip (default [] (initiator_default_gateway boot));
  canonical_primary_dns : canonical_ip (default [] (primary_dns boot));
  canonical_secondary_dns : canonical_ip (default [] (secondary_dns boot));
  canonical_target_address : canonical_ip (default [] (primary_target_address boot));
  no_null_initiator_name : no_null (initiator_name boot);
  no_null_target_name : no_null (default [] (primary_target_name boot));
  no_null_chap_username : no_null (default [] (chap_username boot));
  no_null_chap_secret : no_null (default [] (chap_secret boot));
  no_null_mutual_chap_username : no_null (default [] (mutual_chap_username boot));
  no_null_mutual_chap_secret : no_null (default [] (mutual_chap_secret boot));
}.

(** A context of the builder: the options with the MAC address of an interface. *)
Definition context_of (boot : IscsiBoot) (ctx : NetworkDeviceFunction) : Prop :=
  iscsi_boot ctx = boot ∧ ∃ mac, mac_address ctx = Some mac ∧ canonical_mac mac.

Lemma canonical_ip_wf val : canonical_ip val → ipv4_or_unset val.
Proof using Type. intros [->|(bs & Hbs & _)]; [by left|right; by exists bs]. Qed.

Lemma context_wf boot ctx : canonical_boot boot → context_of boot ctx → wf_ctx ctx.
Proof using Type.
  intros [] (Hb & mac & Hm & _ & bs & Hbs & _). split; rewrite ?Hb, ?Hm; auto using canonical_ip_wf.
  right. by exists bs.
Qed.

(** How an address comes back. *)
Definition discovered_ip (val : list Z) : list Z := if val is [] then print_ip (replicate 16 0) else val.

Lemma print_ip_bytes val : canonical_ip val → print_ip (ip_bytes val) = discovered_ip val.
Proof using HI.
  intros Hval. unfold ip_bytes, discovered_ip. destruct val as [|c val]; [done|].
  destruct Hval as [|(bs & Hbs & Hp)]; [done|]. rewrite Hbs. destruct (pton4_bytes _ _ Hbs) as [Hl _].
  unfold print_ip. cbn [default]. change (default [] (Some bs)) with bs.
  by rewrite (take_app_length' bs _ 4), Hp by lia.
Qed.

Lemma print_mac_bytes val : canonical_mac val → print_mac (mac_bytes val) = Ok val.
Proof using Type.
  intros (Hne & bs & Hbs & Hp). unfold mac_bytes. destruct val; [done|]. by rewrite Hbs.
Qed.

(** The options after a restart: what was not set comes back as the empty value of its
    field, numbers are cut to 16 bits, a VLAN number outside 1..4094 is dropped, and the
    secondary target is not kept. *)
Definition as_discovered (b : IscsiBoot) : IscsiBoot := mkBoot
  (ip_address_type b)
  (discovered_ip (initiator_address b))
  (initiator_name b)
  (Some (discovered_ip (default [] (initiator_default_gateway b))))
  (discovered_ip (initiator_netmask b))
  (target_info_via_dhcp b)
  (ip_mask_dns_via_dhcp b)
  (router_advertisement_enabled b)
  (Some (discovered_ip (default [] (primary_target_address b))))
  (Some (default [] (primary_target_name b)))
  (Some (number (primary_target_port b)))
  (Some (number (primary_lun b)))
  (primary_vlan_enable b)
  (if (1 <=? number (primary_vlan_id b)) && (number (primary_vlan_id b) <=? 4094)
   then Some (number (primary_vlan_id b)) else None)
  (Some (discovered_ip (default [] (primary_dns b))))
  None None None None None None
  (Some (discovered_ip (default [] (secondary_dns b))))
  (authentication_method b)
  (Some (default [] (chap_username b)))
  (Some (default [] (chap_secret b)))
  (Some (default [] (mutual_chap_username b)))
  (Some (default [] (mutual_chap_secret b))).

(** All options of the primary target are given, with numbers in range, and there is no secondary
    target: such options come back as they were. *)
Definition complete (b : IscsiBoot) : Prop :=
  initiator_address b ≠ [] ∧ initiator_netmask b ≠ [] ∧
  (∃ s, initiator_default_gateway b = Some s ∧ s ≠ []) ∧ (∃ s, primary_dns b = Some s ∧ s ≠ []) ∧
  (∃ s, secondary_dns b = Some s ∧ s ≠ []) ∧ (∃ s, primary_target_address b = Some s ∧ s ≠ []) ∧
  is_Some (primary_target_name b) ∧ (∃ v, primary_target_port b = Some v ∧ in_range 16 v) ∧
  (∃ v, primary_lun b = Some v ∧ in_range 16 v) ∧ (∃ v, primary_vlan_id b = Some v ∧ 1 <= v <= 4094) ∧
  is_Some (chap_username b) ∧ is_Some (chap_secret b) ∧ is_Some (mutual_chap_username b) ∧
  is_Some (mutual_chap_secret b) ∧
  secondary_target_address b = None ∧ secondary_target_name b = None ∧ secondary_target_port b = None ∧
  secondary_lun b = None ∧ secondary_vlan_enable b = None ∧ secondary_vlan_id b = None.

Lemma as_discovered_complete b : complete b → as_discovered b = b.
Proof using Type.
  destruct b. unfold complete, as_discovered. cbn -[discovered_ip number].
  intros (Ha & Hm & (g & -> & Hg) & (d1 & -> & Hd1) & (d2 & -> & Hd2) & (t & -> & Ht) & [n ->] & (p & -> & Hp) &
          (l & -> & Hl) & (v & -> & Hv) & [cu ->] & [cs ->] & [mu ->] & [ms ->] & -> & -> & -> & -> & -> & ->).
  assert (∀ s, s ≠ [] → discovered_ip s = s) as Hip by by intros [].
  assert (∀ u, in_range 16 u → number (Some u) = u) as Hnum by (intros u; apply wrap_small).
  change (default [] (Some ?x)) with x. rewrite !Hip, (Hnum p), (Hnum l), (Hnum v) by (done || (unfold in_range; zpow; lia)).
  rewrite (proj2 (Z.leb_le 1 v)), (proj2 (Z.leb_le v 4094)) by lia. done.
Qed.

(** ** Fields of the structures that were built *)

Lemma raw_chunk T h fs ss name c :
  fits T fs → chunk_of (Mdr.fields T) fs name = Some c → raw T name (enhance T (laid_struct T h fs ss)) = c.
Proof using Type. intros Hf Hc. unfold raw. by rewrite field_bytes_chunk, Hc. Qed.

Lemma num_byte T h fs ss name b :
  fits T fs → chunk_of (Mdr.fields T) fs name = Some [b] → num T name (enhance T (laid_struct T h fs ss)) = b.
Proof using Type. intros Hf Hc. unfold num. rewrite (raw_chunk _ _ _ _ _ _ Hf Hc). cbn. lia. Qed.

Lemma num_u16 T h fs ss name v :
  fits T fs → chunk_of (Mdr.fields T) fs name = Some (le_bytes 2 v) → in_range 16 v →
  num T name (enhance T (laid_struct T h fs ss)) = v.
Proof using Type.
  intros Hf Hc Hv. unfold num. rewrite (raw_chunk _ _ _ _ _ _ Hf Hc), le_val_bytes. by apply Z.mod_small.
Qed.

Lemma str_ref T h fs ss name pre x :
  fits T fs → chunk_of (Mdr.fields T) fs name = Some [string_ref pre x] → add_string pre x `prefix_of` ss →
  str T name (enhance T (laid_struct T h fs ss)) = x.
Proof using Type. intros Hf Hc Hp. unfold str. rewrite (num_byte _ _ _ _ _ _ Hf Hc). by apply get_string_ref. Qed.

Lemma number_range v : in_range 16 (number v).
Proof using Type. destruct v; [by apply wrap_range|done]. Qed.

Lemma to_bool_enabled b : to_bool (to_enabled b) = b.
Proof using Type. by destruct b. Qed.
Lemma authentication_roundtrip am : from_authentication_method (to_authentication_method am) = Ok am.
Proof using Type. by destruct am. Qed.
Lemma ip_type_roundtrip t : from_ip_type (to_ip_type t) = Ok t.
Proof using Type. by destruct t. Qed.

(** The strings of a target that come first are a prefix of all of them. *)
Lemma target_strings_prefix boot :
  target_strings_1 boot `prefix_of` target_strings boot ∧ target_strings_2 boot `prefix_of` target_strings boot ∧
  target_strings_3 boot `prefix_of` target_strings boot ∧ target_strings_4 boot `prefix_of` target_strings boot.
Proof using Type.
  assert (target_strings_4 boot `prefix_of` target_strings boot) as H4 by apply add_string_prefix.
  assert (target_strings_3 boot `prefix_of` target_strings boot) as H3 by (etrans; [apply add_string_prefix|exact H4]).
  assert (target_strings_2 boot `prefix_of` target_strings boot) as H2 by (etrans; [apply add_string_prefix|exact H3]).
  split; [|done]. etrans; [apply add_string_prefix|exact H2].
Qed.

(** The builder of the model undoes the builder of the region. *)
Lemma update_iscsi_mdr_data_run boot ctx h h' ndf :
  canonical_boot boot → context_of boot ctx →
  update_iscsi_mdr_data (enhance ISCSI_MDR_INITIATOR (initiator_laid h ctx))
    (enhance ISCSI_MDR_TARGET (target_laid h' ctx)) ndf
  = (Ok tt, set_iscsi_boot (as_discovered boot) (set_mac_address (mac_address ctx) ndf)).
Proof using HI.
  intros Hcan Hctx. pose proof (context_wf _ _ Hcan Hctx) as Hwf.
  pose proof (initiator_fits ctx Hwf) as Hi. pose proof (target_fits ctx Hwf) as Ht.
  destruct Hctx as (Hb & mac & Hm & Hmac). destruct Hcan. subst boot.
  destruct (target_strings_prefix (iscsi_boot ctx)) as (P1 & P2 & P3 & P4).
  unfold update_iscsi_mdr_data, initiator_laid, target_laid, as_discovered. cbv zeta.
  rewrite (raw_chunk _ _ _ _ "nic_mac_address" (mac_bytes mac) Hi) by (cbn; by rewrite Hm).
  rewrite print_mac_bytes by done. rewrite (bind_run (lift (Ok mac)) _ ndf mac ndf eq_refl).
  rewrite (bind_run (modify _) _ _ _ _ eq_refl).
  rewrite (num_byte _ _ _ _ "authentication_method" _ Ht eq_refl), authentication_roundtrip.
  rewrite (bind_run (lift (Ok _)) _ _ _ _ eq_refl).
  rewrite (num_byte _ _ _ _ "ip_address_type" _ Ht eq_refl), ip_type_roundtrip.
  rewrite (bind_run (lift (Ok _)) _ _ _ _ eq_refl).
  rewrite (num_byte _ _ _ _ "initiator_dhcp_enabled" _ Hi eq_refl), (num_byte _ _ _ _ "target_dhcp_enabled" _ Ht eq_refl),
    (num_byte _ _ _ _ "router_advertisement" _ Ht eq_refl), (num_byte _ _ _ _ "vlan_enabled" _ Ht eq_refl).
  rewrite (num_u16 _ _ _ _ "vlan_id" _ Ht eq_refl), (num_u16 _ _ _ _ "target_port" _ Ht eq_refl),
    (num_u16 _ _ _ _ "target_lun" _ Ht eq_refl) by apply number_range.
  rewrite (raw_chunk _ _ _ _ "initiator_ip_address" _ Hi eq_refl), (raw_chunk _ _ _ _ "initiator_subnet_mask" _ Hi eq_refl),
    (raw_chunk _ _ _ _ "initiator_gateway" _ Hi eq_refl), (raw_chunk _ _ _ _ "initiator_primary_dns" _ Hi eq_refl),
    (raw_chunk _ _ _ _ "initiator_secondary_dns" _ Hi eq_refl), (raw_chunk _ _ _ _ "target_ip_address" _ Ht eq_refl).
  rewrite !print_ip_bytes by done. rewrite !to_bool_enabled.
  rewrite (str_ref _ _ _ _ "initiator_name" [] _ Hi eq_refl) by done.
  rewrite (str_ref _ _ _ _ "target_name" [] _ Ht eq_refl) by done.
  rewrite (str_ref _ _ _ _ "chap_user_name" _ _ Ht eq_refl) by done.
  rewrite (str_ref _ _ _ _ "chap_secret" _ _ Ht eq_refl) by done.
  rewrite (str_ref _ _ _ _ "mutual_chap_name" _ _ Ht eq_refl) by done.
  rewrite (str_ref _ _ _ _ "mutual_chap_secret" _ _ Ht eq_refl) by done.
  by rewrite Hm.
Qed.

(** ** Discovery of a region that was built *)

Lemma attempt_fits wait retries i t :
  fits ISCSI_MDR_ATTEMPT [le_bytes 2 i; le_bytes 2 t; le_bytes 2 wait; [retries]].
Proof using Type. repeat (apply Forall2_cons; [done|]). apply Forall2_nil. Qed.

Lemma handles_match_built wait retries ctxs : ∀ h i t,
  0 <= i → i + Z.of_nat (length ctxs) <= 65536 →
  handles_match
    (enhance ISCSI_MDR_ATTEMPT <$> attempts_laid wait retries h (handles_from i (length ctxs)) (handles_from t (length ctxs)))
    (enhance ISCSI_MDR_INITIATOR <$> zip_with initiator_laid (handles_from i (length ctxs)) ctxs)
    (enhance ISCSI_MDR_TARGET <$> zip_with target_laid (handles_from t (length ctxs)) ctxs) = true.
Proof using Type.
  induction ctxs as [|c ctxs IH]; intros h i t Hi Hn; [done|].
  cbn [length handles_from attempts_laid zip_with fmap list_fmap handles_match] in *.
  unfold attempt_laid at 1 2.
  rewrite (num_u16 _ _ _ _ "initiator_handle" i (attempt_fits wait retries i t) eq_refl)
    by (unfold in_range; zpow; lia).
  cbn [Mdr.header enhance Mdr.laid_header initiator_laid laid_struct handle]. rewrite Z.eqb_refl. cbn [negb andb].
  apply IH; lia.
Qed.

Lemma length_zip_handles {A} (f : Z → NetworkDeviceFunction → A) h (ctxs : list NetworkDeviceFunction) :
  length (zip_with f (handles_from h (length ctxs)) ctxs) = length ctxs.
Proof using Type. rewrite length_zip_with, length_handles_from. lia. Qed.

Lemma length_attempts wait retries n : ∀ h i t,
  length (attempts_laid wait retries h (handles_from i n) (handles_from t n)) = n.
Proof using Type. induction n as [|n IH]; intros h i t; [done|]. cbn. by rewrite IH. Qed.

(** One interface gives its MAC address back; several stand for an address that is not
    set. *)
Definition discovered_mac (ctxs : list NetworkDeviceFunction) : option (list Z) :=
  if ctxs is [c] then mac_address c else None.

Lemma discover_built boot ctxs wait retries p ndf :
  canonical_boot boot → Forall (context_of boot) ctxs → ctxs ≠ [] → Z.of_nat (length ctxs) < 20000 →
  (∀ T, get_all p T = Ok (Mdr.wanted T None (structures ctxs wait retries))) →
  discover_network_device_function (Some p) ndf =
    (Ok true, mkFunction true (discovered_mac ctxs) (as_discovered boot) true).
Proof using HI.
  intros Hcan Hctxs Hne Hn Hp. unfold discover_network_device_function.
  destruct (structures_wanted ctxs wait retries) as (Hv & Hi & Ht & Ha).
  assert (discover_from p ndf = (Ok true, set_device_enabled true
    (set_mac_address (discovered_mac ctxs) (set_iscsi_boot (as_discovered boot) ndf)))) as Hd.
  { unfold discover_from. rewrite (Hp ISCSI_MDR_INITIATOR), (Hp ISCSI_MDR_TARGET), (Hp ISCSI_MDR_ATTEMPT), (Hp ISCSI_MDR_VERSION).
    rewrite Hv, Hi, Ht, Ha.
    rewrite !(bind_run (lift (Ok _)) _ _ _ _ eq_refl), (bind_run (modify _) _ _ _ _ eq_refl).
    rewrite !length_fmap, !length_zip_handles, length_attempts.
    rewrite handles_match_built by lia.
    destruct ctxs as [|c ctxs]; [done|]. cbn [length Nat.eqb andb].
    apply list.Forall_cons in Hctxs as [Hc _].
    cbn [handles_from zip_with fmap list_fmap].
    rewrite Nat.eqb_refl. cbn [negb orb].
    rewrite !(bind_run (lift (front (_ :: _))) _ _ _ _ eq_refl).
    rewrite (bind_run _ _ _ _ _ (update_iscsi_mdr_data_run boot c _ _ _ Hcan Hc)).
    by destruct ctxs. }
  unfold try_catch. unfold mbind at 1, M_bind at 1. rewrite Hd. by destruct ndf.
Qed.

(** ** The command and the discovery *)

Section compose.
Context {W D : Type} {L : IpmiLink W} {V : Device D} {up : W → Prop} {dev : W → D}.
Context {HF : Faithful W D up dev} {view : D → Region}.
Context {HD : MdrDevice D (PurleyMdrRegionAccessor ISCSI_BOOT_OPTIONS) view}.
Context {HW : MdrWritable D ISCSI_BOOT_OPTIONS view}.

(** The MAC addresses a function can be written with. *)
Definition canonical_macs (f : NetworkDeviceFunction) (m : Model) : Prop :=
  (∀ mac, mac_address f = Some mac → canonical_mac mac) ∧
  ∀ e mac, e ∈ network_interfaces m → attributes e = Some mac → canonical_mac mac.

Lemma contexts_ok f m ctxs :
  canonical_macs (attributes f) m → get_ndf_context_vector f m = Ok ctxs →
  Forall (context_of (iscsi_boot (attributes f))) ctxs ∧ ctxs ≠ [].
Proof using Type.
  intros [Hown Hifs]. unfold get_ndf_context_vector. intros H. bind_inv H.
  destruct v as [|c v]; [done|]. injection H as <-. split; [|done].
  destruct (mac_address (attributes f)) as [mac|] eqn:Em.
  { injection E as <- <-. apply Forall_singleton. split; [done|]. exists mac. auto. }
  bind_inv E. injection E as E. rewrite <- E. apply list.Forall_forall. intros x Hx.
  unfold contexts_of_interfaces in Hx. apply list_elem_of_omap in Hx as (e & He & Hx).
  unfold get_entries in He. apply list_elem_of_filter in He as [_ He].
  destruct (attributes e) as [mac|] eqn:Ea; [|done]. injection Hx as <-. split; [done|].
  exists mac. split; [done|]. by eapply Hifs.
Qed.

Lemma purley_created r : MdrRegion.create PRODUCT_ID_INTEL_XEON_PURLEY r = Ok (PurleyMdrRegionAccessor r).
Proof using Type. done. Qed.

(** Setting the options of a function on a Purley system. *)
Lemma send_options_run (f : Entry NetworkDeviceFunction) (a : Agent) ctxs data :
  up (link a) → session (view (dev (link a))) = None →
  get_platform_from_chassis (parent_uuid f) (model a) = Ok PURLEY →
  get_ndf_context_vector f (model a) = Ok ctxs →
  build [] ctxs PURLEY_DEFAULT_WAIT_TIME DEFAULT_RETRY_COUNT = Ok data → data ≠ [] →
  Z.of_nat (length data) <= capacity (view (dev (link a))) →
  ∃ w, send_iscsi_oob_parameters f a = (Ok tt, set_link w a) ∧ up w ∧
       ∀ fuel, (length data < fuel)%nat →
         ∃ w', accessor_get_mdr_region fuel (PurleyMdrRegionAccessor ISCSI_BOOT_OPTIONS) w = (Ok data, w').
Proof using HF HD HW.
  intros Hup Hs Hp Hc Hb Hne Hfit.
  destruct (write_mdr_region_run (r := ISCSI_BOOT_OPTIONS) (link a) data Hup Hs) as (w & Hupw & _ & Hw).
  unfold region in Hw. rewrite bool_decide_eq_true_2 in Hw by done. destruct Hw as (Hw & Hcon & Hv & Hn).
  exists w. split; [|split; [done|]].
  - unfold send_iscsi_oob_parameters. rewrite (bind_run get _ _ _ _ eq_refl), Hp.
    rewrite (bind_run (lift (Ok _)) _ _ _ _ eq_refl), bool_decide_eq_true_2 by done.
    rewrite Hc, (bind_run (lift (Ok _)) _ _ _ _ eq_refl), Hb, (bind_run (lift (Ok _)) _ _ _ _ eq_refl).
    unfold write_iscsi_region, try_catch.
    rewrite purley_created, (bind_run (lift (Ok _)) _ _ _ _ eq_refl).
    unfold zoom, accessor_write_mdr_region. by rewrite Hw.
  - intros fuel Hf. destruct (get_mdr_region_run (a := PurleyMdrRegionAccessor ISCSI_BOOT_OPTIONS) fuel w)
      as (w' & Hr & _); [done|unfold region; by rewrite Hcon|].
    exists w'. rewrite Hr. unfold read_outcome, region. by rewrite Hn, Hv, Hcon, !bool_decide_eq_false_2 by auto.
Qed.

(** Reading the region into the parser. *)
Lemma read_iscsi_run fuel (d : Discoverer) data w' p :
  accessor_get_mdr_region fuel (PurleyMdrRegionAccessor ISCSI_BOOT_OPTIONS) (m_management_controller d) = (Ok data, w') →
  IscsiMdrParser (Some data) = Ok p →
  read_region fuel PRODUCT_ID_INTEL_XEON_PURLEY ISCSI_BOOT_OPTIONS set_up_iscsi_data d =
    (Ok tt, set_iscsi_parser p (set_controller w' d)).
Proof using Type.
  intros Hr Hp. unfold read_region, try_catch.
  rewrite purley_created, (bind_run (lift (Ok _)) _ _ _ _ eq_refl).
  unfold mbind at 1, M_bind at 1, zoom. rewrite Hr. unfold set_up_iscsi_data. by rewrite Hp.
Qed.

Lemma set_then_discover fuel system (a : Agent) f ctxs data :
  up (link a) → session (view (dev (link a))) = None →
  the_function system (model a) = Ok f → device_enabled (attributes f) = false →
  get_platform_from_chassis (parent_uuid f) (model a) = Ok PURLEY →
  canonical_boot (iscsi_boot (attributes f)) → canonical_macs (attributes f) (model a) →
  get_ndf_context_vector (mkEntry (uuid f) (parent_uuid f) (set_device_enabled true (attributes f))) (model a) = Ok ctxs →
  Z.of_nat (length ctxs) < 20000 →
  build [] ctxs PURLEY_DEFAULT_WAIT_TIME DEFAULT_RETRY_COUNT = Ok data →
  Z.of_nat (length data) <= capacity (view (dev (link a))) → (length data < fuel)%nat →
  ∃ a', set_iscsi_oob_parameters system a = (Ok tt, a') ∧
    ∀ d, m_management_controller d = link a' →
    ∃ d', read_region fuel PRODUCT_ID_INTEL_XEON_PURLEY ISCSI_BOOT_OPTIONS set_up_iscsi_data d = (Ok tt, d') ∧
      discover_network_device_function (m_iscsi_parser d') build_default =
        (Ok true, mkFunction true (discovered_mac ctxs) (as_discovered (iscsi_boot (attributes f))) true).
Proof using HF HD HW HI.
  intros Hup Hs Hfun Hen Hpl Hboot Hmacs Hctx Hn Hb Hfit Hfuel.
  destruct (contexts_ok (mkEntry (uuid f) (parent_uuid f) (set_device_enabled true (attributes f))) (model a) ctxs)
    as [Hall Hne]; [done..|]. cbn [attributes] in Hall.
  assert (Forall wf_ctx ctxs) as Hwf.
  { eapply list.Forall_impl; [exact Hall|]. intros c. by apply context_wf. }
  destruct (region_wf (dev (link a))) as [Hcap _]. unfold in_range in Hcap. change (2 ^ 16) with 65536 in Hcap.
  destruct (build_parse ctxs PURLEY_DEFAULT_WAIT_TIME DEFAULT_RETRY_COUNT data) as (p & Hp & Hget);
    [done|done|done|unfold Mdr.size; zpow; lia|done|].
  set (a1 := set_model (set_functions (update_entry (uuid f) (set_device_enabled true)
                          (network_device_functions (model a))) (model a)) a).
  assert (data ≠ []) as Hd by (intros ->; done).
  destruct (send_options_run (mkEntry (uuid f) (parent_uuid f) (set_device_enabled true (attributes f))) a1 ctxs data)
    as (w & Hsend & Hupw & Hread); [done..|].
  eexists. split.
  - unfold set_iscsi_oob_parameters. rewrite (bind_run get _ _ _ _ eq_refl), Hfun.
    rewrite (bind_run (lift (Ok _)) _ _ _ _ eq_refl), Hen. cbn [negb].
    rewrite (bind_run (enable_function f true) _ a tt a1 eq_refl). exact Hsend.
  - intros d Hctl. cbn [link set_link] in Hctl. destruct (Hread fuel Hfuel) as (w' & Hr). rewrite <- Hctl in Hr.
    eexists. split; [by eapply read_iscsi_run|]. cbn [m_iscsi_parser set_iscsi_parser].
    by eapply discover_built.
Qed.

End compose.

End round_trip.


(** ** The C library on a few addresses *)

Definition dot : Z := 46.

Fixpoint split_at (c : Z) (s : list Z) : list (list Z) :=
  match s with
  | [] => [[]]
  | x :: s' => if x =? c then [] :: split_at c s'
               else match split_at c s' with p :: ps => (x :: p) :: ps | [] => [[x]] end
  end.

Definition octet (s : list Z) : option Z :=
  let v := foldl (λ v c, v * 10 + (c - 48)) 0 s in
  if (0 <? length s)%nat && (length s <=? 3)%nat && forallb (λ c, (48 <=? c) && (c <=? 57)) s
     && (0 <=? v) && (v <=? 255)
  then Some v else None.

Definition decimal (v : Z) : list Z :=
  if v <? 10 then [48 + v]
  else if v <? 100 then [48 + v / 10; 48 + v mod 10]
  else [48 + v / 100; 48 + v / 10 mod 10; 48 + v mod 10].

Definition hex_value (c : Z) : option Z :=
  if (48 <=? c) && (c <=? 57) then Some (c - 48)
  else if (97 <=? c) && (c <=? 102) then Some (c - 87) else None.

Definition hex_pair (s : list Z) : option Z :=
  match s with [h; l] => h ← hex_value h; l ← hex_value l; Some (h * 16 + l) | _ => None end.

Definition sample_inet : Inet := {|
  inet_pton4 s := let os := split_at dot s in if (length os =? 4)%nat then mapM octet os else None;
  inet_pton6 s := if bool_decide (s = chars "::1") then Some (replicate 15 0 ++ [1]) else None;
  inet_ntop4 bs := match bs with
                   | [a; b; c; d] => Some (decimal a ++ [dot] ++ decimal b ++ [dot] ++ decimal c ++ [dot] ++ decimal d)
                   | _ => None
                   end;
  inet_ntop6 bs := None;
  ether_aton s := let os := split_at colon s in if (length os =? 6)%nat then mapM hex_pair os else None;
|}.

Lemma octet_byte s v : octet s = Some v → is_byte v.
Proof.
  unfold octet. intros H. destruct (_ && _) eqn:E; [|done]. injection H as <-.
  apply andb_true_iff in E as [E H1]. apply andb_true_iff in E as [_ H0].
  apply Z.leb_le in H0, H1. unfold is_byte. lia.
Qed.

Lemma hex_value_range c v : hex_value c = Some v → 0 <= v < 16.
Proof.
  unfold hex_value.
  destruct (Z.leb_spec 48 c), (Z.leb_spec c 57), (Z.leb_spec 97 c), (Z.leb_spec c 102); cbn; intros [= <-]; lia.
Qed.

Lemma hex_pair_byte s v : hex_pair s = Some v → is_byte v.
Proof.
  destruct s as [|h [|l [|]]]; cbn; try done. destruct (hex_value h) as [x|] eqn:Hx; [|done]. cbn.
  destruct (hex_value l) as [y|] eqn:Hy; [|done]. intros [= <-].
  apply hex_value_range in Hx, Hy. unfold is_byte. lia.
Qed.

Lemma mapM_bytes (f : list Z → option Z) os n bs :
  (∀ s v, f s = Some v → is_byte v) → (if (length os =? n)%nat then mapM f os else None) = Some bs →
  length bs = n ∧ Forall is_byte bs.
Proof.
  intros Hf. destruct (Nat.eqb_spec (length os) n) as [<-|]; [|done]. intros H. split.
  - symmetry. by eapply length_mapM.
  - apply mapM_Some in H. induction H; constructor; eauto.
Qed.

Lemma sample_inet_laws : InetLaws sample_inet.
Proof.
  split.
  - intros s bs H. eapply mapM_bytes; [apply octet_byte|exact H].
  - intros s bs H. cbn in H. destruct (bool_decide _); [|done]. injection H as <-.
    split; [done|]. repeat (apply Forall_cons_2; [unfold is_byte; lia|]). apply Forall_nil_2.
  - intros s bs H. eapply mapM_bytes; [apply hex_pair_byte|exact H].
Qed.

(** A system with two network interfaces and a function without a MAC address. *)
Definition sample_boot : IscsiBoot :=
  mkBoot IPv4 (chars "10.0.0.7") (chars "iqn.initiator") (Some (chars "10.0.0.1")) (chars "255.255.255.0")
    false false false (Some (chars "10.0.0.9")) (Some (chars "iqn.target")) (Some 3260) (Some 1) true (Some 100)
    None None None None None None None None CHAP (Some (chars "user")) (Some (chars "secret")) None None.

Definition sample_function : NetworkDeviceFunction := mkFunction false None sample_boot false.

Definition sample_model (f : NetworkDeviceFunction) (platform : PlatformType) : Model :=
  mkModel [mkEntry "device" "system" tt]
    [mkEntry "eth0" "system" (Some (chars "00:25:90:aa:bb:01")); mkEntry "eth1" "system" (Some (chars "00:25:90:aa:bb:02"))]
    [mkEntry "function" "device" f] [mkEntry "system" "manager" "chassis"] [mkEntry "chassis" "manager" platform].

Definition sample_contexts : list NetworkDeviceFunction :=
  [set_mac_address (Some (chars "00:25:90:aa:bb:01")) (set_device_enabled true sample_function);
   set_mac_address (Some (chars "00:25:90:aa:bb:02")) (set_device_enabled true sample_function)].

Lemma sample_boot_canonical : @canonical_boot sample_inet sample_boot.
Proof.
  split; try (right; eexists; split; vm_compute; reflexivity); try (left; reflexivity);
    try apply Forall_nil_2; unfold no_null; vm_compute; repeat (apply Forall_cons_2; [discriminate|]); apply Forall_nil_2.
Qed.

Lemma sample_macs_canonical : @canonical_macs sample_inet sample_function (sample_model sample_function PURLEY).
Proof.
  split; [done|]. intros e mac He. cbn in He.
  repeat (apply list.elem_of_cons in He as [->|He]; [intros [= <-]; split; [done|]; eexists; split; vm_compute; reflexivity|]).
  by apply elem_of_nil in He.
Qed.

Definition sample_agent : Agent := mkAgent (sample_model sample_function PURLEY) (MdrRegion.mkBmc [] false None).


(** ** Where the code differs from what it means to do *)

(** A region that passes the check of the version but holds no structure the parser
    knows crashes discovery: [front()] of an empty vector. *)
Theorem unknown_structure_crashes {I : Inet} ndf :
  ∃ p, IscsiMdrParser (Some [9; 7; 0; 0; 0; 1; 0; 0; 0]) = Ok p ∧
       (discover_network_device_function (Some p) ndf).1 = Throw undefined_behaviour.
Proof. by eexists. Qed.

(** A write that fails leaves the function enabled, so that the next request to boot
    from the remote drive returns without writing anything. *)
Theorem failed_write_stays_enabled {I : Inet} {W : Type} {L : IpmiLink W} (w : W) :
  let a := mkAgent (sample_model sample_function GRANTLEY) w in
  let '(outcome, a') := set_iscsi_oob_parameters "system" a in
  outcome = Throw invalid_value ∧ get_iscsi_enabled "system" (model a') = Ok true ∧
  set_iscsi_oob_parameters "system" a' = (Ok tt, a').
Proof. done. Qed.

(** With an IPv6 address of the target the region cannot be read back: the address is
    written sixteen times, the structure is longer than its header says, and discovery
    gives up. *)
Theorem ipv6_target_is_lost :
  let boot := mkBoot IPv6 (chars "10.0.0.7") (chars "iqn.initiator") None (chars "255.255.255.0") false false false
    (Some (chars "::1")) (Some (chars "iqn.target")) (Some 3260) (Some 1) false None
    None None None None None None None None NoAuthentication None None None None in
  (data ← @build sample_inet [] [mkFunction true (Some (chars "00:25:90:aa:bb:01")) boot false]
            PURLEY_DEFAULT_WAIT_TIME DEFAULT_RETRY_COUNT;
   p ← IscsiMdrParser (Some data);
   (@discover_network_device_function sample_inet (Some p) build_default).1) = Ok false.
Proof. vm_compute. reflexivity. Qed.

End IscsiOob.
