(* ===== verification/Net.v ===== *)
(** Addresses and network interfaces (PSME/common/net: ipaddress.cpp, socket_address.cpp and
    network_interface.cpp).

    An IP address is its family with the bytes of [m_addr] in their order in memory, which is
    network order; the bitwise operators of the code work on words of these bytes.  A socket
    address is an IP address with a port or the path of a UNIX socket.  The texts of addresses
    are those of [inet_pton] and [inet_ntop], the class [InetText]; [getifaddrs],
    [if_nametoindex] and the ioctl behind the MTU are the class [IfAddrs].

    Theorems: the operators keep addresses well formed; [prefix_length] of a mask is the number
    of its leading ones ([prefix_length_mask]), and [same_subnet] under such a mask compares
    exactly the leading bits ([and_mask_prefix]); printing and reading a socket address is the
    identity ([socket_address_roundtrip]). *)

From Stdlib Require Import ZArith Lia Ascii.
From S2P Require Import Prelude Database.
Import Database.

Local Open Scope Z_scope.

Module Net.

(** * IP addresses *)

Inductive AddressFamily := IPv4 | IPv6 | UNIX_LOCAL.

#[export] Instance AddressFamily_eq_dec : EqDecision AddressFamily.
Proof. solve_decision. Defined.

Definition NetException (what : string) : exn := runtime_error what.

Record IpAddress := mkIp { m_family : AddressFamily; m_addr : list Z }.

#[export] Instance IpAddress_eq_dec : EqDecision IpAddress.
Proof. solve_decision. Defined.

(** The default address, 0.0.0.0. *)
Definition IpAddress_new : IpAddress := mkIp IPv4 [0; 0; 0; 0].

Definition in6addr_any : list Z := replicate 16 0.

Definition length_ (a : IpAddress) : result Z :=
  match m_family a with
  | IPv4 => mret 4
  | IPv6 => mret 16
  | UNIX_LOCAL => Throw (NetException "Invalid address")
  end.

(** The value of bytes in network order, [ntohl] for four of them. *)
Definition be_val (bs : list Z) : Z := foldl (λ acc b, acc * 256 + b) 0 bs.

(** [memcmp]: below zero, zero or above. *)
Fixpoint memcmp (xs ys : list Z) : Z :=
  match xs, ys with
  | x :: xs', y :: ys' => if x <? y then -1 else if y <? x then 1 else memcmp xs' ys'
  | _, _ => 0
  end.

Definition ip_eq (a b : IpAddress) : bool :=
  if negb (bool_decide (m_family a = m_family b)) then false
  else if bool_decide (m_family a = UNIX_LOCAL) then false
  else memcmp (m_addr a) (m_addr b) =? 0.

Definition ip_lt (a b : IpAddress) : bool :=
  if negb (bool_decide (m_family a = m_family b)) then
    bool_decide (m_family a = IPv4) && bool_decide (m_family b = IPv6)
  else match m_family a with
  | IPv4 => be_val (m_addr a) <? be_val (m_addr b)
  | IPv6 => memcmp (m_addr a) (m_addr b) <? 0
  | UNIX_LOCAL => false
  end.

Definition ip_gt (a b : IpAddress) : bool := negb (ip_eq a b) && negb (ip_lt a b).

(** The operators [&], [|] and [^]. *)
Definition bitwise (op : Z → Z → Z) (a b : IpAddress) : result IpAddress :=
  if bool_decide (m_family a = m_family b) then
    match m_family a with
    | IPv4 | IPv6 => mret (mkIp (m_family a) (zip_with op (m_addr a) (m_addr b)))
    | UNIX_LOCAL => Throw (NetException "Incompatible addresses.")
    end
  else Throw (NetException "Incompatible addresses.").

Definition ip_and := bitwise Z.land.
Definition ip_or := bitwise Z.lor.
Definition ip_xor := bitwise Z.lxor.

Definition ip_not (a : IpAddress) : result IpAddress :=
  match m_family a with
  | IPv4 | IPv6 => mret (mkIp (m_family a) ((λ b, Z.lxor b 255) <$> m_addr a))
  | UNIX_LOCAL => Throw (NetException "Invalid address")
  end.

(** [for (count = 0; val; ++count) val >>= 1] on a number of 32 bits *)
Fixpoint count_shifts (fuel : nat) (val : Z) (count : Z) : Z :=
  match fuel with
  | O => count
  | S fuel' => if val =? 0 then count else count_shifts fuel' (Z.shiftr val 1) (count + 1)
  end.

(** [mask_bits] of a word of [size] bits. *)
Definition mask_bits (val size : Z) : Z :=
  let count :=
    if negb (val =? 0) then
      count_shifts (Z.to_nat size) (Z.shiftr (Z.lxor val (wrap size (val - 1))) 1) 0
    else size in
  size - count.

(** The loop over the words of an IPv6 address, from the last one. *)
Fixpoint prefix_words (words : list (list Z)) (bit_pos : Z) : Z :=
  match words with
  | [] => 0
  | w :: words' =>
      let bits := mask_bits (be_val w) 32 in
      if negb (bits =? 0) then bit_pos - (32 - bits) else prefix_words words' (bit_pos - 32)
  end.

Definition words (bs : list Z) : list (list Z) := [slice 12 4 bs; slice 8 4 bs; slice 4 4 bs; slice 0 4 bs].

Definition prefix_length (a : IpAddress) : result Z :=
  match m_family a with
  | IPv4 => mret (mask_bits (be_val (m_addr a)) 32)
  | IPv6 => mret (prefix_words (words (m_addr a)) 128)
  | UNIX_LOCAL => Throw (NetException "Invalid address")
  end.

Definition is_any_address (a : IpAddress) : result bool :=
  match m_family a with
  | IPv4 => mret (be_val (m_addr a) =? 0)
  | IPv6 => mret (ip_eq a (mkIp IPv6 in6addr_any))
  | UNIX_LOCAL => Throw (NetException "Invalid address")
  end.

(** The C library: texts of addresses of the two families. *)
Class InetText := {
  inet_pton : AddressFamily → str → option (list Z);
  inet_ntop : AddressFamily → list Z → option str;
}.

Definition ip_to_string `{InetText} (a : IpAddress) : str :=
  match m_family a with
  | UNIX_LOCAL => []
  | f => default [] (inet_ntop f (m_addr a))
  end.

Definition from_string `{InetText} (address : str) : result IpAddress :=
  match inet_pton IPv4 address with
  | Some bs => mret (mkIp IPv4 bs)
  | None =>
      match inet_pton IPv6 address with
      | Some bs => mret (mkIp IPv6 bs)
      | None => Throw (NetException "Invalid address")
      end
  end.

(** * Socket addresses *)

Inductive SocketAddress :=
  | IpSocket (host : IpAddress) (port : Z)
  | UnixSocket (path : str).

#[export] Instance SocketAddress_eq_dec : EqDecision SocketAddress.
Proof. solve_decision. Defined.

(** [SocketAddress::init] of an address and a port *)
Definition SocketAddress_new (address : IpAddress) (port : Z) : result SocketAddress :=
  match m_family address with
  | IPv4 | IPv6 => mret (IpSocket address (wrap 16 port))
  | UNIX_LOCAL => Throw (NetException "Unsupported IP address family.")
  end.

Definition get_host (s : SocketAddress) : result IpAddress :=
  match s with
  | IpSocket host _ => mret host
  | UnixSocket _ => Throw (NetException "Cannot retrieve IP address")
  end.

Definition get_port (s : SocketAddress) : result Z :=
  match s with
  | IpSocket _ port => mret port
  | UnixSocket _ => Throw (NetException "Cannot retrieve port number")
  end.

Definition family (s : SocketAddress) : AddressFamily :=
  match s with IpSocket host _ => m_family host | UnixSocket _ => UNIX_LOCAL end.

Definition socket_to_string `{InetText} (s : SocketAddress) : str :=
  match s with
  | IpSocket host port =>
      match m_family host with
      | IPv6 => "["%char :: ip_to_string host ++ "]"%char :: ":"%char :: to_string port
      | _ => ip_to_string host ++ ":"%char :: to_string port
      end
  | UnixSocket path => path
  end.

Definition parse_port (port_str : str) : result Z :=
  match stoul port_str with
  | Ok port => if port <=? 0xFFFF then mret port else Throw (NetException "Invalid port number.")
  | Throw _ => Throw (NetException "Invalid port number.")
  end.

(** [while (it != end && p( *it )) text += *it++] *)
Fixpoint span (p : ascii → bool) (s : str) : str * str :=
  match s with
  | c :: s' => if p c then (c :: (span p s').1, (span p s').2) else ([], s)
  | [] => ([], [])
  end.

Definition isnt (c : ascii) : ascii → bool := λ d, negb (bool_decide (d = c)).

(** [sun_path] has 108 bytes and [strncpy_s] copies a C string with the end of the text. *)
Definition c_str (s : str) : str := (span (isnt "000"%char) s).1.

Definition init_unix_local (path : str) : result SocketAddress :=
  if (length (c_str path) <? 108)%nat then mret (UnixSocket (c_str path))
  else Throw (NetException "Failed to initialize unix socket address.").

(** [SocketAddress::init] of a text *)
Definition init `{InetText} (sock_name : str) : result SocketAddress :=
  match sock_name with
  | [] => Throw (NetException "Invalid socket name.")
  | c :: it =>
      if bool_decide (c = "/"%char) then init_unix_local sock_name
      else
        split ← (if bool_decide (c = "["%char) then
                   let '(address, it) := span (isnt "]") it in
                   match it with
                   | [] => Throw (NetException "Malformed IPv6 address")
                   | _ :: it => mret (address, it)
                   end
                 else mret (span (isnt ":") sock_name));
        let '(address, it) := split in
        match it with
        | ":"%char :: port =>
            host ← from_string address;
            number ← parse_port port;
            SocketAddress_new host number
        | _ => Throw (NetException "Missing port number")
        end
  end.

Definition socket_eq `{InetText} (a b : SocketAddress) : result bool :=
  if bool_decide (family a = UNIX_LOCAL) then mret (bool_decide (socket_to_string a = socket_to_string b))
  else
    h1 ← get_host a; h2 ← get_host b;
    if negb (ip_eq h1 h2) then mret false
    else p1 ← get_port a; p2 ← get_port b; mret (p1 =? p2).

(** * Network interfaces *)

Inductive InterfaceType :=
  ETHERNET_CSMACD | ISO88025_TOKENRING | FRAMERELAY | PPP | SOFTWARE_LOOPBACK | ATM | IEEE80211 | TUNNEL
| IEEE1394 | OTHER.

(** The address, the subnet mask and the broadcast address. *)
Definition AddressTuple : Type := IpAddress * IpAddress * IpAddress.

Definition ip_address (t : AddressTuple) : IpAddress := t.1.1.
Definition subnet_mask (t : AddressTuple) : IpAddress := t.1.2.
Definition broadcast_address (t : AddressTuple) : IpAddress := t.2.

Definition NO_INDEX : Z := 0xFFFFFFFF.

Record NetworkInterface := mkInterface {
  m_name : str;
  m_address_list : list AddressTuple;
  m_index : Z;
  m_broadcast : bool;
  m_loopback : bool;
  m_multicast : bool;
  m_p2p : bool;
  m_up : bool;
  m_running : bool;
  m_mtu : Z;
  m_type : InterfaceType;
  m_hwaddr : list Z;
}.

Definition NetworkInterface_new : NetworkInterface :=
  mkInterface [] [] NO_INDEX false false false false false false 0 OTHER [].

Definition supports (f : AddressFamily) (i : NetworkInterface) : bool :=
  existsb (λ t, bool_decide (m_family (ip_address t) = f)) (m_address_list i).

Definition supports_ipv4 := supports IPv4.
Definition supports_ipv6 := supports IPv6.
Definition supports_ip (i : NetworkInterface) : bool := supports_ipv4 i || supports_ipv6 i.

Definition not_found_error : exn := NetException "IpAddress of NetworkInterface not found".

Fixpoint first_address (f : AddressFamily) (l : list AddressTuple) : result IpAddress :=
  match l with
  | [] => Throw not_found_error
  | t :: l' => if bool_decide (m_family (ip_address t) = f) then mret (ip_address t) else first_address f l'
  end.

Definition get_first_address (f : AddressFamily) (i : NetworkInterface) : result IpAddress :=
  first_address f (m_address_list i).

Definition has_address (a : IpAddress) (i : NetworkInterface) : bool :=
  existsb (λ t, ip_eq a (ip_address t)) (m_address_list i).

(** [get_address], [get_subnet_mask], [get_broadcast_address] and [get_dest_address] *)
Definition tuple_at (i : NetworkInterface) (index : nat) : result AddressTuple :=
  match m_address_list i !! index with Some t => mret t | None => Throw not_found_error end.

Definition get_address (i : NetworkInterface) (index : nat) : result IpAddress := ip_address <$> tuple_at i index.
Definition get_subnet_mask (i : NetworkInterface) (index : nat) : result IpAddress := subnet_mask <$> tuple_at i index.
Definition get_broadcast_address (i : NetworkInterface) (index : nat) : result IpAddress :=
  broadcast_address <$> tuple_at i index.
Definition get_dest_address (i : NetworkInterface) (index : nat) : result IpAddress :=
  if negb (m_p2p i) then Throw (NetException "Unsupported operation") else broadcast_address <$> tuple_at i index.

Definition add_address (t : AddressTuple) (i : NetworkInterface) : NetworkInterface :=
  mkInterface (m_name i) (m_address_list i ++ [t]) (m_index i) (m_broadcast i) (m_loopback i) (m_multicast i)
    (m_p2p i) (m_up i) (m_running i) (m_mtu i) (m_type i) (m_hwaddr i).

(** The flags of <net/if.h>. *)
Definition IFF_UP : Z := 0x1.
Definition IFF_BROADCAST : Z := 0x2.
Definition IFF_LOOPBACK : Z := 0x8.
Definition IFF_POINTOPOINT : Z := 0x10.
Definition IFF_RUNNING : Z := 0x40.
Definition IFF_MULTICAST : Z := 0x1000.

Definition flag (flags mask : Z) : bool := negb (Z.land flags mask =? 0).

Definition from_arp_hw_type (arp_hw_type : Z) : InterfaceType :=
  if arp_hw_type =? 1 then ETHERNET_CSMACD
  else if arp_hw_type =? 6 then ISO88025_TOKENRING
  else if arp_hw_type =? 15 then FRAMERELAY
  else if arp_hw_type =? 512 then PPP
  else if arp_hw_type =? 772 then SOFTWARE_LOOPBACK
  else if arp_hw_type =? 19 then ATM
  else if arp_hw_type =? 801 then IEEE80211
  else if (arp_hw_type =? 768) || (arp_hw_type =? 769) then TUNNEL
  else if arp_hw_type =? 24 then IEEE1394
  else OTHER.

(** [struct sockaddr] of an interface: a link layer address with its hardware type, an IP
    address or something else. *)
Inductive sockaddr :=
  | AF_PACKET (hatype : Z) (bytes : list Z)
  | AF_IP (address : IpAddress)
  | AF_OTHER.

Definition from_sockaddr (s : sockaddr) : result IpAddress :=
  match s with AF_IP a => mret a | _ => Throw (NetException "Invalid address") end.

(** [struct ifaddrs] *)
Record ifaddr := mkIfaddr {
  ifa_name : str;
  ifa_flags : Z;
  ifa_addr : option sockaddr;
  ifa_netmask : option sockaddr;
  ifa_broadaddr : option sockaddr;
}.

(** The system: [getifaddrs], [if_nametoindex] and the ioctl SIOCGIFMTU. *)
Class IfAddrs := {
  getifaddrs : option (list ifaddr);
  if_nametoindex : str → Z;
  get_mtu : str → result Z;
}.

Definition iface_from_ifaddrs `{IfAddrs} (index : Z) (i : ifaddr) (a : sockaddr) : result NetworkInterface :=
  let flags := ifa_flags i in
  mtu ← get_mtu (ifa_name i);
  let '(type, hwaddr) :=
    match a with AF_PACKET hatype bytes => (from_arp_hw_type hatype, bytes) | _ => (OTHER, []) end in
  mret (mkInterface (ifa_name i) [] index (flag flags IFF_BROADCAST) (flag flags IFF_LOOPBACK)
          (flag flags IFF_MULTICAST) (flag flags IFF_POINTOPOINT) (flag flags IFF_UP) (flag flags IFF_RUNNING)
          mtu type hwaddr).

(** [ifa_dstaddr] is another name of [ifa_broadaddr]; a missing netmask is a null pointer. *)
Definition address_from_ifaddrs (i : ifaddr) (a : sockaddr) : result AddressTuple :=
  match a with
  | AF_IP address =>
      mask ← match ifa_netmask i with Some m => from_sockaddr m | None => Throw undefined_behaviour end;
      broadcast ← match ifa_broadaddr i with
                  | Some b => if flag (ifa_flags i) IFF_BROADCAST || flag (ifa_flags i) IFF_POINTOPOINT
                              then from_sockaddr b else mret IpAddress_new
                  | None => mret IpAddress_new
                  end;
      mret (address, mask, broadcast)
  | _ => mret (IpAddress_new, IpAddress_new, IpAddress_new)
  end.

(** One entry of [getifaddrs]. *)
Definition add_ifaddr `{IfAddrs} (i : ifaddr) (result_ : gmap Z NetworkInterface) : result (gmap Z NetworkInterface) :=
  match ifa_addr i with
  | None | Some AF_OTHER => mret result_
  | Some a =>
      let index := if_nametoindex (ifa_name i) in
      iface ← match result_ !! index with Some iface => mret iface | None => iface_from_ifaddrs index i a end;
      match a with
      | AF_PACKET _ _ => mret (<[index := iface]> result_)
      | _ => t ← address_from_ifaddrs i a; mret (<[index := add_address t iface]> result_)
      end
  end.

Fixpoint add_ifaddrs `{IfAddrs} (l : list ifaddr) (result_ : gmap Z NetworkInterface) : result (gmap Z NetworkInterface) :=
  match l with
  | [] => mret result_
  | i :: l' => r ← add_ifaddr i result_; add_ifaddrs l' r
  end.

Definition get_interfaces_map `{IfAddrs} : result (gmap Z NetworkInterface) :=
  match getifaddrs with
  | Some l => add_ifaddrs l ∅
  | None => Throw (NetException "Cannot retrieve network interface list")
  end.

(** * Addresses are well formed *)

Definition size_of (f : AddressFamily) : nat := match f with IPv4 => 4 | IPv6 => 16 | UNIX_LOCAL => 0 end.

Definition wf_ip (a : IpAddress) : Prop :=
  m_family a ≠ UNIX_LOCAL ∧ length (m_addr a) = size_of (m_family a) ∧ Forall is_byte (m_addr a).

(** A fact about all bytes is checked on each of them. *)
Definition all_bytes : list Z := Z.of_nat <$> seq 0 256.

Lemma all_bytes_in b : is_byte b → b ∈ all_bytes.
Proof.
  unfold is_byte. intros Hb. apply list_elem_of_fmap. exists (Z.to_nat b). split; [lia|]. apply elem_of_seq. lia.
Qed.

Lemma byte_forall (P : Z → bool) b : is_byte b → forallb P all_bytes = true → P b = true.
Proof. intros Hb%all_bytes_in%list_elem_of_In HP. rewrite forallb_forall in HP. by apply HP. Qed.

Definition closed (op : Z → Z → Z) : bool :=
  forallb (λ x, forallb (λ y, (0 <=? op x y) && (op x y <? 256)) all_bytes) all_bytes.

Lemma bitwise_wf op a b c : closed op = true → wf_ip a → wf_ip b → bitwise op a b = Ok c → wf_ip c.
Proof.
  intros Hop (Hfa & Hla & Hba) (Hfb & Hlb & Hbb) Hc. unfold bitwise in Hc. case_bool_decide as Hf; [|done].
  assert (c = mkIp (m_family a) (zip_with op (m_addr a) (m_addr b))) as -> by (unfold mret, result_ret in Hc; destruct (m_family a); congruence).
  unfold wf_ip. cbn [m_family m_addr]. split_and!; [done|rewrite length_zip_with, Hla, Hlb, Hf; lia|].
  clear Hla Hlb Hc. revert Hbb. generalize (m_addr b) as ys. induction Hba as [|x xs Hx _ IH]; intros ys Hys; [constructor|].
  destruct Hys as [|y ys Hy Hys]; [constructor|]. cbn [zip_with]. constructor; [|by apply IH].
  pose proof (byte_forall _ x Hx Hop) as Hop'. cbv beta in Hop'. pose proof (byte_forall _ y Hy Hop') as Hxy.
  cbv beta in Hxy. unfold is_byte. lia.
Qed.

Lemma closed_land : closed Z.land = true.
Proof. vm_compute. reflexivity. Qed.
Lemma closed_lor : closed Z.lor = true.
Proof. vm_compute. reflexivity. Qed.
Lemma closed_lxor : closed Z.lxor = true.
Proof. vm_compute. reflexivity. Qed.

Lemma ip_not_wf a c : wf_ip a → ip_not a = Ok c → wf_ip c.
Proof.
  intros (Hf & Hl & Hba) Hc. unfold ip_not in Hc.
  assert (c = mkIp (m_family a) ((λ b, Z.lxor b 255) <$> m_addr a)) as -> by (unfold mret, result_ret in Hc; destruct (m_family a); congruence).
  unfold wf_ip. cbn [m_family m_addr]. split_and!; [done|by rewrite length_fmap|].
  apply Forall_fmap. eapply list.Forall_impl; [exact Hba|]. intros x Hx. unfold compose, is_byte.
  pose proof (byte_forall (λ x, (0 <=? Z.lxor x 255) && (Z.lxor x 255 <? 256)) x Hx ltac:(vm_compute; reflexivity)) as Hb.
  cbv beta in Hb. lia.
Qed.

(** The bitwise operators keep addresses well formed. *)
Theorem operators_wf a b c : wf_ip a → wf_ip b →
  ip_and a b = Ok c ∨ ip_or a b = Ok c ∨ ip_xor a b = Ok c ∨ ip_not a = Ok c → wf_ip c.
Proof.
  intros Ha Hb [Hc|[Hc|[Hc|Hc]]].
  - by apply (bitwise_wf Z.land a b c closed_land).
  - by apply (bitwise_wf Z.lor a b c closed_lor).
  - by apply (bitwise_wf Z.lxor a b c closed_lxor).
  - apply (ip_not_wf a); done.
Qed.

(** * Subnets *)

Definition bits (bs : list Z) : list bool :=
  b ← bs; [Z.testbit b 7; Z.testbit b 6; Z.testbit b 5; Z.testbit b 4; Z.testbit b 3; Z.testbit b 2; Z.testbit b 1;
           Z.testbit b 0].

(** The mask of [k] ones of a family. *)
Definition mask (f : AddressFamily) (k : nat) : IpAddress :=
  let n := Z.of_nat (8 * size_of f) in
  mkIp f (reverse (le_bytes (size_of f) (2 ^ n - 2 ^ (n - Z.of_nat k)))).

Definition mask_ok (f : AddressFamily) (k : nat) : bool :=
  bool_decide (prefix_length (mask f k) = Ok (Z.of_nat k)) &&
  bool_decide (bits (m_addr (mask f k)) = replicate k true ++ replicate (8 * size_of f - k) false).

Lemma mask_checked f k : f ≠ UNIX_LOCAL → (k ≤ 8 * size_of f)%nat → mask_ok f k = true.
Proof.
  intros Hf Hk.
  assert (forallb (mask_ok f) (seq 0 (S (8 * size_of f))) = true) as Hall by (destruct f; [vm_compute; reflexivity..|done]).
  rewrite forallb_forall in Hall. apply Hall, list_elem_of_In, elem_of_seq. lia.
Qed.

(** [prefix_length] of a mask is the number of its ones. *)
Theorem prefix_length_mask f k : f ≠ UNIX_LOCAL → (k ≤ 8 * size_of f)%nat → prefix_length (mask f k) = Ok (Z.of_nat k).
Proof. intros Hf Hk. pose proof (mask_checked f k Hf Hk) as [H _]%andb_prop. by apply bool_decide_eq_true in H. Qed.

Lemma bits_mask f k : f ≠ UNIX_LOCAL → (k ≤ 8 * size_of f)%nat →
  bits (m_addr (mask f k)) = replicate k true ++ replicate (8 * size_of f - k) false.
Proof. intros Hf Hk. pose proof (mask_checked f k Hf Hk) as [_ H]%andb_prop. by apply bool_decide_eq_true in H. Qed.

Lemma bits_land xs : ∀ ys, bits (zip_with Z.land xs ys) = zip_with andb (bits xs) (bits ys).
Proof.
  induction xs as [|x xs IH]; intros [|y ys]; [done..|]. unfold bits in *. cbn [zip_with mbind list_bind app].
  rewrite !Z.land_spec. cbn [zip_with app]. by rewrite <- IH.
Qed.

Lemma bits_inj xs : ∀ ys, length xs = length ys → Forall is_byte xs → Forall is_byte ys → bits xs = bits ys → xs = ys.
Proof.
  induction xs as [|x xs IH]; intros [|y ys] Hl Hx Hy; [done..|].
  apply list.Forall_cons in Hx as [Hx Hxs]. apply list.Forall_cons in Hy as [Hy Hys].
  unfold bits in *. cbn [mbind list_bind app]. intros [= H7 H6 H5 H4 H3 H2 H1 H0 Hrest].
  f_equal; [|by apply IH; [injection Hl|..]].
  apply Z.bits_inj'. intros n Hn. destruct (Z_lt_le_dec n 8) as [Hlt|Hge].
  - assert (n = 0 ∨ n = 1 ∨ n = 2 ∨ n = 3 ∨ n = 4 ∨ n = 5 ∨ n = 6 ∨ n = 7) as Hcases by lia.
    naive_solver.
  - assert (∀ b, is_byte b → Z.testbit b n = false) as Hz.
    { intros b Hb. rewrite <- (Z.mod_small b (2 ^ 8)) by (unfold is_byte in Hb; lia).
      apply Z.mod_pow2_bits_high. lia. }
    by rewrite !Hz.
Qed.

Lemma length_bits xs : length (bits xs) = (8 * length xs)%nat.
Proof. induction xs as [|x xs IH]; [done|]. unfold bits in *. cbn [mbind list_bind app length]. rewrite IH. lia. Qed.

Lemma zip_and_mask xs k : (k ≤ length xs)%nat →
  zip_with andb xs (replicate k true ++ replicate (length xs - k) false) =
    take k xs ++ replicate (length xs - k) false.
Proof.
  revert k. induction xs as [|x xs IH]; intros k Hk; [by destruct k|].
  destruct k as [|k]; cbn [length] in *.
  - rewrite Nat.sub_0_r. cbn [replicate app take zip_with]. rewrite andb_false_r. f_equal.
    specialize (IH 0%nat ltac:(lia)). by rewrite Nat.sub_0_r in IH.
  - cbn [replicate app take zip_with]. rewrite andb_true_r. f_equal. rewrite Nat.sub_succ. apply IH. lia.
Qed.

Lemma memcmp_eq xs : ∀ ys, length xs = length ys → (memcmp xs ys =? 0) = bool_decide (xs = ys).
Proof.
  induction xs as [|x xs IH]; intros [|y ys] Hl; [done..|]. cbn [memcmp].
  destruct (Z.ltb_spec x y); [by rewrite bool_decide_false by naive_solver lia|].
  destruct (Z.ltb_spec y x); [by rewrite bool_decide_false by naive_solver lia|].
  rewrite IH by naive_solver. assert (x = y) as -> by lia. apply bool_decide_ext. naive_solver.
Qed.

Lemma ip_eq_spec a b : wf_ip a → wf_ip b → ip_eq a b = bool_decide (a = b).
Proof.
  intros (Hfa & Hla & _) (Hfb & Hlb & _). unfold ip_eq. destruct a as [f xs], b as [g ys]; cbn [m_family m_addr] in *.
  destruct (bool_decide_reflect (f = g)) as [->|]; cbn [negb]; [|by rewrite bool_decide_false by naive_solver].
  rewrite (bool_decide_false (g = UNIX_LOCAL)) by done. rewrite memcmp_eq by congruence.
  apply bool_decide_ext. naive_solver.
Qed.

(** [same_subnet] of ssdp_service_impl.cpp *)
Definition same_subnet (peer nic_ip mask : IpAddress) : result bool :=
  a ← ip_and peer mask;
  b ← ip_and nic_ip mask;
  mret (ip_eq a b).

(** Two addresses are in the same subnet of a mask with [k] ones exactly when their first [k]
    bits agree. *)
Theorem same_subnet_prefix f k xs ys :
  wf_ip (mkIp f xs) → wf_ip (mkIp f ys) → (k ≤ 8 * size_of f)%nat →
  same_subnet (mkIp f xs) (mkIp f ys) (mask f k) = Ok (bool_decide (take k (bits xs) = take k (bits ys))).
Proof.
  intros Hx Hy Hk. pose proof Hx as (Hf & Hlx & _). pose proof Hy as (_ & Hly & _). cbn [m_family m_addr] in *.
  assert (wf_ip (mask f k)) as Hm.
  { unfold wf_ip, mask. cbn [m_family m_addr]. split_and!; [done|by rewrite length_reverse, length_le_bytes|].
    apply Forall_reverse, le_bytes_byte. }
  pose proof (bits_mask f k Hf Hk) as Hbm. unfold mask in Hbm. cbn [m_addr] in Hbm.
  set (ms := reverse _) in Hbm.
  assert (∀ zs, ip_and (mkIp f zs) (mask f k) = Ok (mkIp f (zip_with Z.land zs ms))) as Hand.
  { intros zs. unfold ip_and, bitwise, mask. cbn [m_family m_addr]. rewrite bool_decide_true by done. by destruct f. }
  unfold same_subnet. rewrite !Hand. cbn.
  assert (wf_ip (mkIp f (zip_with Z.land xs ms))) as Hwx by (eapply operators_wf; [exact Hx|exact Hm|left; apply Hand]).
  assert (wf_ip (mkIp f (zip_with Z.land ys ms))) as Hwy by (eapply operators_wf; [exact Hy|exact Hm|left; apply Hand]).
  rewrite ip_eq_spec by done. f_equal. apply bool_decide_ext.
  destruct Hwx as (_ & Hl1 & Hb1), Hwy as (_ & Hl2 & Hb2). cbn [m_family m_addr] in *.
  assert (∀ zs, length zs = size_of f →
    bits (zip_with Z.land zs ms) = take k (bits zs) ++ replicate (8 * size_of f - k) false) as Hbits.
  { intros zs Hz. rewrite bits_land, Hbm. rewrite <- Hz, <- length_bits. apply zip_and_mask. rewrite length_bits. lia. }
  split.
  - intros [= Heq]. apply (f_equal bits) in Heq. rewrite !Hbits in Heq by done. by apply app_inv_tail in Heq.
  - intros Heq. f_equal. apply bits_inj; [congruence|done..|]. rewrite !Hbits by done. by rewrite Heq.
Qed.

(** * Texts *)

Definition is_digit (c : ascii) : bool := match digit_value c with Some _ => true | None => false end.

Definition is_hex (c : ascii) : bool :=
  let n := Z.of_N (N_of_ascii c) in is_digit c || ((97 <=? n) && (n <=? 102)).

(** The characters of the text of an address: no blanks, brackets, slashes or other delimiters of
    URIs and headers. *)
Definition address_char (f : AddressFamily) (c : ascii) : bool :=
  match f with
  | IPv4 => is_digit c || bool_decide (c = "."%char)
  | IPv6 => is_hex c || bool_decide (c = "."%char) || bool_decide (c = ":"%char)
  | UNIX_LOCAL => false
  end.

(** What is documented of [inet_ntop] and [inet_pton]: a text for every address, which is read
    back, in the notation of its family. *)
Class InetTextLaws `(I : InetText) : Prop := {
  ntop_text f bs : wf_ip (mkIp f bs) →
    ∃ s, inet_ntop f bs = Some s ∧ inet_pton f s = Some bs ∧ s ≠ [] ∧ Forall (λ c, address_char f c = true) s;
  ntop6_colon bs s : wf_ip (mkIp IPv6 bs) → inet_ntop IPv6 bs = Some s → ":"%char ∈ s;
  pton4_chars s bs : inet_pton IPv4 s = Some bs → Forall (λ c, address_char IPv4 c = true) s;
}.

Lemma span_app p xs ys : Forall (λ c, p c = true) xs → (∀ c ys', ys = c :: ys' → p c = false) →
  span p (xs ++ ys) = (xs, ys).
Proof.
  induction 1 as [|x xs Hx _ IH]; intros Hy; cbn [span app].
  - destruct ys as [|y ys']; [done|]. cbn [span]. by rewrite (Hy y ys').
  - rewrite Hx, IH by done. done.
Qed.

Lemma span_all p xs : Forall (λ c, p c = true) xs → span p xs = (xs, []).
Proof. intros Hx. rewrite <- (app_nil_r xs) at 1. by apply span_app. Qed.

Lemma span_eq p s : (span p s).1 ++ (span p s).2 = s.
Proof. induction s as [|c s IH]; [done|]. cbn [span]. destruct (p c); [|done]. cbn [fst snd app]. by rewrite IH. Qed.

Lemma span_taken p s : Forall (λ c, p c = true) (span p s).1.
Proof.
  induction s as [|c s IH]; [constructor|]. cbn [span]. destruct (p c) eqn:Hc; constructor; done.
Qed.

Lemma span_stop p s c s' : (span p s).2 = c :: s' → p c = false.
Proof.
  induction s as [|d s IH]; [done|]. cbn [span]. destruct (p d) eqn:Hd; [exact IH|]. cbn [snd]. by intros [= -> _].
Qed.

Lemma address_char_isnt f c d : address_char f c = true → address_char f d = false → isnt d c = true.
Proof. intros Hc Hd. unfold isnt. rewrite bool_decide_false; [done|]. intros ->. congruence. Qed.

Lemma stoul_port port : 0 <= port < 65536 → parse_port (to_string port) = Ok port.
Proof.
  intros Hp. unfold parse_port. rewrite stoul_to_string by lia. by rewrite (proj2 (Z.leb_le _ _)) by lia.
Qed.

(** A property of the ten digits holds of the text of a number. *)
Definition decimal_free (p : ascii → bool) : Prop := ∀ d, 0 <= d < 10 → p (digit_char d) = true.

Lemma to_string_chars p v : decimal_free p → 0 <= v < 2 ^ 64 → Forall (λ c, p c = true) (to_string v).
Proof.
  intros Hp Hv. unfold to_string. destruct (digits_spec 20 v []) as (ds & -> & Hds & _); [simpl; lia|lia|].
  rewrite app_nil_r. apply list.Forall_fmap. eapply list.Forall_impl; [exact Hds|]. intros d Hd. by apply Hp.
Qed.

(** The ten digits are checked one by one. *)
Lemma digits_free p : forallb (λ d, p (digit_char d)) [0; 1; 2; 3; 4; 5; 6; 7; 8; 9] = true → decimal_free p.
Proof.
  intros Hall d Hd. rewrite forallb_forall in Hall. apply Hall, list_elem_of_In.
  assert (d = 0 ∨ d = 1 ∨ d = 2 ∨ d = 3 ∨ d = 4 ∨ d = 5 ∨ d = 6 ∨ d = 7 ∨ d = 8 ∨ d = 9) by lia. set_solver.
Qed.

Section texts.
Context {I : InetText} {HI : InetTextLaws I}.

Lemma ip_text a : wf_ip a → inet_pton (m_family a) (ip_to_string a) = Some (m_addr a) ∧ ip_to_string a ≠ [] ∧
  Forall (λ c, address_char (m_family a) c = true) (ip_to_string a).
Proof.
  intros Ha. destruct a as [f bs]. pose proof Ha as (Hf & _). destruct (ntop_text f bs Ha) as (s & Hs & Hp & Hne & Hc).
  unfold ip_to_string. cbn [m_family m_addr] in *. destruct f; [by rewrite Hs..|done].
Qed.

(** An address is read back from its text. *)
Lemma from_ip_string a : wf_ip a → from_string (ip_to_string a) = Ok a.
Proof.
  intros Ha. destruct (ip_text a Ha) as (Hp & _ & _). destruct a as [f bs]. pose proof Ha as (Hf & _).
  unfold from_string. cbn [m_family m_addr] in *. destruct f; [by rewrite Hp| |done].
  destruct (inet_pton IPv4 _) as [bs'|] eqn:H4; [|by rewrite Hp].
  exfalso. apply pton4_chars in H4. destruct (ntop_text IPv6 bs Ha) as (s & Hs & _).
  unfold ip_to_string in H4. cbn [m_family m_addr] in H4. rewrite Hs in H4. cbn [default] in H4.
  apply ntop6_colon in Hs; [|done]. rewrite list.Forall_forall in H4. by apply H4 in Hs.
Qed.

(** A socket address of an IP address is read back from its text. *)
Theorem socket_address_roundtrip host port : wf_ip host → 0 <= port < 65536 →
  init (socket_to_string (IpSocket host port)) = Ok (IpSocket host port).
Proof.
  intros Hh Hp. pose proof (ip_text host Hh) as (_ & Hne & Hc). pose proof Hh as (Hf & _).
  assert (SocketAddress_new host port = Ok (IpSocket host port)) as Hnew.
  { unfold SocketAddress_new. rewrite wrap_small by (unfold in_range; zpow; lia). by destruct (m_family host). }
  destruct (ip_to_string host) as [|c text] eqn:Htext; [done|].
  pose proof Hc as [Hc0 _]%list.Forall_cons.
  assert (from_string (c :: text) = Ok host) as Hfrom by (rewrite <- Htext; by apply from_ip_string).
  unfold init, socket_to_string. destruct (m_family host) eqn:Hfam; [| |done]; rewrite Htext.
  - cbn [app]. rewrite (bool_decide_false (c = "/"%char)), (bool_decide_false (c = "["%char)) by (by intros ->).
    cbn [mbind mret result_bind result_ret].
    rewrite (app_comm_cons text), (span_app (isnt ":")).
    + cbn beta iota. rewrite Hfrom. cbn [mbind result_bind]. rewrite stoul_port by done. exact Hnew.
    + eapply list.Forall_impl; [exact Hc|]. intros d Hd. by apply (address_char_isnt IPv4).
    + by intros d ys' [= <- _].
  - rewrite (bool_decide_false ("["%char = "/"%char)), (bool_decide_true ("["%char = "["%char)) by done.
    rewrite (span_app (isnt "]") (c :: text)).
    + cbn [mbind mret result_bind result_ret]. rewrite Hfrom. cbn [mbind result_bind]. rewrite stoul_port by done. exact Hnew.
    + eapply list.Forall_impl; [exact Hc|]. intros d Hd. by apply (address_char_isnt IPv6).
    + by intros d ys' [= <- _].
Qed.

End texts.

(** * A C library

    Dotted decimals, and groups of four hexadecimal digits without abbreviation: an instance of the
    laws. *)
Fixpoint join (sep : ascii) (parts : list str) : str :=
  match parts with
  | [] => []
  | [p] => p
  | p :: parts' => p ++ sep :: join sep parts'
  end.

Fixpoint split (fuel : nat) (sep : ascii) (s : str) : list str :=
  match fuel with
  | O => [s]
  | S fuel' =>
      match span (isnt sep) s with
      | (p, _ :: s') => p :: split fuel' sep s'
      | (p, []) => [p]
      end
  end.

Lemma split_join sep parts fuel : parts ≠ [] → Forall (Forall (λ c, isnt sep c = true)) parts →
  (length parts ≤ fuel)%nat → split fuel sep (join sep parts) = parts.
Proof.
  intros Hne Hp. revert fuel. induction Hp as [|p parts Hp Hps IH]; intros fuel Hf; [done|].
  destruct fuel as [|fuel]; [simpl in Hf; lia|].
  destruct parts as [|q parts]; cbn [join split]; [by rewrite span_all|].
  rewrite span_app; [|done|].
  - f_equal. apply IH; [done|simpl in *; lia].
  - intros c ys [= <- _]. unfold isnt. by rewrite bool_decide_true.
Qed.

Lemma join_split sep fuel : ∀ s, join sep (split fuel sep s) = s.
Proof.
  induction fuel as [|fuel IH]; intros s; [done|]. cbn [split].
  pose proof (span_eq (isnt sep) s) as Heq. pose proof (span_stop (isnt sep) s) as Hstop.
  destruct (span (isnt sep) s) as [p [|c s']]; cbn [fst snd] in *; [by rewrite app_nil_r in Heq|].
  assert (c = sep) as ->.
  { specialize (Hstop c s' eq_refl). unfold isnt in Hstop. by apply negb_false_iff, bool_decide_eq_true in Hstop. }
  specialize (IH s'). cbn [join]. destruct (split fuel sep s') as [|q qs] eqn:Hq; [|by rewrite IH].
  destruct fuel as [|fuel]; [done|]. cbn [split] in Hq. by destruct (span (isnt sep) s') as [? [|? ?]].
Qed.

(** The value whose text is [s]. *)
Definition read_with (print : Z → str) (s : str) : option Z :=
  snd <$> list_find (λ b, print b = s) all_bytes.

Definition good_print (print : Z → str) : bool :=
  forallb (λ b, bool_decide (read_with print (print b) = Some b)) all_bytes.

Lemma read_print print b : good_print print = true → is_byte b → read_with print (print b) = Some b.
Proof. intros Hg Hb. pose proof (byte_forall _ b Hb Hg) as H. cbv beta in H. by apply bool_decide_eq_true in H. Qed.

Lemma read_with_inv print s b : read_with print s = Some b → print b = s ∧ is_byte b.
Proof.
  unfold read_with. intros ([i b'] & (Hi & Hb & _)%list_find_Some & ->)%fmap_Some. split; [done|].
  apply list_elem_of_lookup_2, list_elem_of_fmap in Hi as (n & -> & Hn%elem_of_seq). cbn [snd]. unfold is_byte. lia.
Qed.

Definition hex_digit (v : Z) : ascii := ascii_of_N (Z.to_N (if v <? 10 then 48 + v else 87 + v)).
Definition hex_byte (b : Z) : str := [hex_digit (b / 16); hex_digit (b mod 16)].

Lemma good_octet : good_print to_string = true.
Proof. vm_compute. reflexivity. Qed.
Lemma good_hex : good_print hex_byte = true.
Proof. vm_compute. reflexivity. Qed.

Fixpoint hex_groups (bs : list Z) : list str :=
  match bs with
  | b1 :: b2 :: bs' => (hex_byte b1 ++ hex_byte b2) :: hex_groups bs'
  | _ => []
  end.

Fixpoint read_groups (groups : list str) : option (list Z) :=
  match groups with
  | [] => Some []
  | g :: groups' =>
      b1 ← read_with hex_byte (take 2 g);
      b2 ← read_with hex_byte (drop 2 g);
      rest ← read_groups groups';
      Some (b1 :: b2 :: rest)
  end.

Definition right_size (f : AddressFamily) (bs : list Z) : option (list Z) :=
  if bool_decide (length bs = size_of f) then Some bs else None.

#[export] Instance plain_inet : InetText := {|
  inet_pton f s :=
    match f with
    | IPv4 => bs ← mapM (read_with to_string) (split 4 "." s); right_size IPv4 bs
    | IPv6 => bs ← read_groups (split 8 ":" s); right_size IPv6 bs
    | UNIX_LOCAL => None
    end;
  inet_ntop f bs :=
    match f with
    | IPv4 => Some (join "." (to_string <$> bs))
    | IPv6 => Some (join ":" (hex_groups bs))
    | UNIX_LOCAL => None
    end;
|}.

Definition octet_ok (b : Z) : bool :=
  forallb (λ c, address_char IPv4 c && isnt "." c) (to_string b) && negb (bool_decide (to_string b = [])).

Definition hex_ok (b : Z) : bool := forallb (λ c, address_char IPv6 c && isnt ":" c) (hex_byte b).

Lemma octet_chars b : is_byte b →
  Forall (λ c, address_char IPv4 c = true ∧ isnt "." c = true) (to_string b) ∧ to_string b ≠ [].
Proof.
  intros Hb. pose proof (byte_forall octet_ok b Hb ltac:(vm_compute; reflexivity)) as [H1 H2]%andb_prop.
  split; [|by apply negb_true_iff, bool_decide_eq_false in H2].
  apply Is_true_true, forallb_True in H1. eapply list.Forall_impl; [exact H1|]. intros c Hc%Is_true_true%andb_prop. done.
Qed.

Lemma hex_chars b : is_byte b → Forall (λ c, address_char IPv6 c = true ∧ isnt ":" c = true) (hex_byte b).
Proof.
  intros Hb. pose proof (byte_forall hex_ok b Hb ltac:(vm_compute; reflexivity)) as H1.
  apply Is_true_true, forallb_True in H1. eapply list.Forall_impl; [exact H1|]. intros c Hc%Is_true_true%andb_prop. done.
Qed.

Lemma Forall_join (P : ascii → Prop) sep parts : P sep → Forall (Forall P) parts → Forall P (join sep parts).
Proof.
  intros Hsep. induction 1 as [|p parts Hp Hps IH]; [constructor|]. cbn [join].
  destruct parts; [done|]. apply Forall_app_2; [done|]. by constructor.
Qed.

Lemma read_groups_hex bs : ∀ n, length bs = (2 * n)%nat → Forall is_byte bs → read_groups (hex_groups bs) = Some bs.
Proof.
  intros n. revert bs. induction n as [|n IH]; intros bs Hl Hb; [by destruct bs|].
  destruct bs as [|b1 [|b2 bs]]; [simpl in Hl; lia..|].
  apply list.Forall_cons in Hb as [H1 Hb]. apply list.Forall_cons in Hb as [H2 Hb].
  change (hex_groups (b1 :: b2 :: bs)) with ((hex_byte b1 ++ hex_byte b2) :: hex_groups bs). cbn [read_groups].
  change (take 2 (hex_byte b1 ++ hex_byte b2)) with (hex_byte b1).
  change (drop 2 (hex_byte b1 ++ hex_byte b2)) with (hex_byte b2).
  rewrite !(read_print hex_byte) by (done || apply good_hex). cbn [mbind option_bind].
  rewrite IH; [done|simpl in Hl; lia|done].
Qed.

Lemma hex_groups_chars bs : Forall is_byte bs →
  Forall (Forall (λ c, address_char IPv6 c = true ∧ isnt ":" c = true)) (hex_groups bs).
Proof.
  intros Hb. remember (length bs) as n eqn:Hn. assert (length bs ≤ n)%nat as Hle by lia. clear Hn. revert bs Hb Hle.
  induction n as [|n IH]; intros [|b1 [|b2 bs]] Hb Hle; try (constructor; simpl in Hle; lia).
  apply list.Forall_cons in Hb as [H1 Hb]. apply list.Forall_cons in Hb as [H2 Hb].
  cbn [hex_groups]. constructor; [apply Forall_app_2; by apply hex_chars|]. apply IH; [done|simpl in Hle; lia].
Qed.

Lemma plain_ntop4 bs : length bs = 4%nat → Forall is_byte bs →
  mapM (read_with to_string) (split 4 "." (join "." (to_string <$> bs))) = Some bs ∧
  join "." (to_string <$> bs) ≠ [] ∧ Forall (λ c, address_char IPv4 c = true) (join "." (to_string <$> bs)).
Proof.
  intros Hl Hb.
  assert (Forall (Forall (λ c, address_char IPv4 c = true ∧ isnt "." c = true)) (to_string <$> bs)) as Hc.
  { apply list.Forall_fmap. eapply list.Forall_impl; [exact Hb|]. intros b ?. by apply octet_chars. }
  split_and!.
  - rewrite split_join; [| | |rewrite length_fmap; lia].
    + apply mapM_fmap_Forall_Some. eapply list.Forall_impl; [exact Hb|]. intros b Hb'. by apply read_print, Hb'; apply good_octet.
    + by destruct bs.
    + eapply list.Forall_impl; [exact Hc|]. intros p Hp. eapply list.Forall_impl; [exact Hp|]. naive_solver.
  - destruct Hb as [|b bs Hb _]; [done|]. cbn [fmap list_fmap join]. pose proof (proj2 (octet_chars b Hb)) as Hne.
    destruct (to_string <$> bs); [done|]. by destruct (to_string b).
  - apply Forall_join; [done|]. eapply list.Forall_impl; [exact Hc|]. intros p Hp.
    eapply list.Forall_impl; [exact Hp|]. naive_solver.
Qed.

Lemma length_hex_groups bs n : length bs = (2 * n)%nat → length (hex_groups bs) = n.
Proof.
  revert bs. induction n as [|n IH]; intros [|b1 [|b2 bs]] Hl; simpl in Hl; try lia; [done|].
  cbn [hex_groups length]. by rewrite IH by lia.
Qed.

Lemma plain_ntop6 bs : length bs = 16%nat → Forall is_byte bs →
  read_groups (split 8 ":" (join ":" (hex_groups bs))) = Some bs ∧
  join ":" (hex_groups bs) ≠ [] ∧ Forall (λ c, address_char IPv6 c = true) (join ":" (hex_groups bs)).
Proof.
  intros Hl Hb. pose proof (hex_groups_chars bs Hb) as Hc. pose proof (length_hex_groups bs 8 Hl) as Hg.
  split_and!.
  - rewrite split_join; [by apply (read_groups_hex bs 8)| | |lia].
    + by destruct (hex_groups bs).
    + eapply list.Forall_impl; [exact Hc|]. intros p Hp. eapply list.Forall_impl; [exact Hp|]. naive_solver.
  - destruct bs as [|b1 [|b2 bs]]; [done..|]. cbn [hex_groups join]. by destruct (hex_groups bs).
  - apply Forall_join; [done|]. eapply list.Forall_impl; [exact Hc|]. intros p Hp.
    eapply list.Forall_impl; [exact Hp|]. naive_solver.
Qed.

#[export] Instance plain_inet_laws : InetTextLaws plain_inet.
Proof.
  split.
  - intros [] bs (Hf & Hl & Hb); cbn [m_family m_addr size_of] in *; [| |done].
    + destruct (plain_ntop4 bs Hl Hb) as (H1 & H2 & H3). exists (join "." (to_string <$> bs)).
      cbn [inet_pton inet_ntop plain_inet]. rewrite H1. cbn [mbind option_bind]. unfold right_size.
      by rewrite bool_decide_true.
    + destruct (plain_ntop6 bs Hl Hb) as (H1 & H2 & H3). exists (join ":" (hex_groups bs)).
      cbn [inet_pton inet_ntop plain_inet]. rewrite H1. cbn [mbind option_bind]. unfold right_size.
      by rewrite bool_decide_true.
  - intros bs s (_ & Hl & _). cbn [inet_ntop plain_inet m_addr size_of m_family] in *. intros [= <-].
    destruct bs as [|b1 [|b2 [|b3 [|b4 bs]]]]; [done..|]. cbn [hex_groups join].
    apply elem_of_app. right. apply list_elem_of_here.
  - intros s bs. cbn [inet_pton plain_inet].
    destruct (mapM _ _) as [bs'|] eqn:Hm; [|done]. intros _.
    apply mapM_Some_1 in Hm. rewrite <- (join_split "." 4 s). apply Forall_join; [done|].
    apply (Forall2_Forall_l _ _ _ _ Hm). apply list.Forall_forall. intros b _ p Hp.
    apply read_with_inv in Hp as [<- Hb]. eapply list.Forall_impl; [exact (proj1 (octet_chars b Hb))|]. naive_solver.
Qed.

(** * The interfaces of the system *)

(** Every interface of the map has its own index. *)
Theorem interfaces_have_their_index `{IfAddrs} m : get_interfaces_map = Ok m → map_Forall (λ i iface, m_index iface = i) m.
Proof.
  assert (∀ l m m', map_Forall (λ i iface, m_index iface = i) m → add_ifaddrs l m = Ok m' →
    map_Forall (λ i iface, m_index iface = i) m') as Hall.
  { induction l as [|i l IH]; intros m0 m' Hm Hadd; cbn [add_ifaddrs] in Hadd; [by injection Hadd as <-|].
    bind_inv Hadd. eapply IH; [|exact Hadd]. unfold add_ifaddr in E.
    destruct (ifa_addr i) as [a|]; [|by injection E as <-].
    assert (∀ iface, match m0 !! if_nametoindex (ifa_name i) with
      | Some iface => mret iface | None => iface_from_ifaddrs (if_nametoindex (ifa_name i)) i a end = Ok iface →
      m_index iface = if_nametoindex (ifa_name i)) as Hidx.
    { intros iface. destruct (m0 !! _) as [iface0|] eqn:Hlook; [intros [= ->]; by apply Hm|].
      unfold iface_from_ifaddrs. destruct (get_mtu _); [|done]. cbn. destruct a; by intros [= <-]. }
    destruct a; [| |by injection E as <-]; bind_inv E; injection E as <-; apply map_Forall_insert_2; try done;
      cbn [add_address m_index]; by apply Hidx. }
  unfold get_interfaces_map. destruct getifaddrs as [l|]; [|done]. apply Hall. apply map_Forall_empty.
Qed.

End Net.
