(* ===== verification/Uri.v ===== *)
(** URIs of the SSDP service (PSME/common/ssdp/src/uri.cpp).

    Iterators over a text are the rest of the text.  [getservbyname] is the class [Services].

    Theorems: a URI with a host is read back from its text ([uri_roundtrip]), so that replacing
    the host of a URI changes nothing else ([uri_set_host]); a relative reference is dropped
    ([relative_reference_is_dropped]). *)

From Stdlib Require Import ZArith Lia Ascii.
From S2P Require Import Prelude Database Net.
Import Database Net.

Local Open Scope Z_scope.

Module Uri.

(** [getservbyname] with its port in host order. *)
Class Services := { getservbyname : str → option Z }.

Record URI := mkUri {
  m_scheme : str;
  m_userInfo : str;
  m_host : str;
  m_port : Z;
  m_path_and_query : str;
}.

#[export] Instance URI_eq_dec : EqDecision URI.
Proof. solve_decision. Defined.

Section uri.
Context {S : Services}.

Definition get_port_from_scheme (scheme : str) : Z :=
  if bool_decide (scheme = lit "http") then 80
  else if bool_decide (scheme = lit "https") then 443
  else match getservbyname scheme with Some port => wrap 16 port | None => 0 end.

Definition try_parse_unsigned (num_str : str) : option Z :=
  match stoul num_str with Ok num => Some num | Throw _ => None end.

Definition set_scheme (scheme : str) (u : URI) : URI :=
  mkUri scheme (m_userInfo u) (m_host u)
    (if m_port u =? 0 then get_port_from_scheme scheme else m_port u) (m_path_and_query u).

Definition set_user_info (user_info : str) (u : URI) : URI :=
  mkUri (m_scheme u) user_info (m_host u) (m_port u) (m_path_and_query u).

Definition set_host (host : str) (u : URI) : URI :=
  mkUri (m_scheme u) (m_userInfo u) host (m_port u) (m_path_and_query u).

Definition set_port (port : Z) (u : URI) : URI :=
  mkUri (m_scheme u) (m_userInfo u) (m_host u) port (m_path_and_query u).

Definition get_port (u : URI) : Z := if m_port u =? 0 then get_port_from_scheme (m_scheme u) else m_port u.

Definition get_authority (u : URI) : str :=
  (if bool_decide (m_userInfo u = []) then [] else m_userInfo u ++ ["@"%char]) ++
  (if bool_decide (":"%char ∈ m_host u) then "["%char :: m_host u ++ ["]"%char] else m_host u) ++
  (if m_port u =? 0 then [] else ":"%char :: to_string (m_port u)).

Definition uri_to_string (u : URI) : str :=
  let auth := get_authority u in
  m_scheme u ++ ":"%char ::
  (if negb (bool_decide (auth = [])) || bool_decide (m_scheme u = lit "file") then lit "//" ++ auth else []) ++
  match m_path_and_query u with
  | [] => []
  | c :: _ => (if negb (bool_decide (auth = [])) && negb (bool_decide (c = "/"%char)) then ["/"%char] else []) ++
              m_path_and_query u
  end.

Definition empty (u : URI) : bool :=
  bool_decide (m_scheme u = []) && bool_decide (m_host u = []) && bool_decide (m_path_and_query u = []).

Definition parse_path (it : str) (u : URI) : URI :=
  mkUri (m_scheme u) (m_userInfo u) (m_host u) (m_port u) it.

(** The port behind a colon. *)
Definition parse_port_text (port : str) (u : URI) : result Z :=
  if negb (bool_decide (port = [])) then
    match try_parse_unsigned port with
    | Some nport =>
        if (0 <? nport) && (nport <? 65536) then mret (wrap 16 nport) else Throw (runtime_error "Invalid port number")
    | None => Throw (runtime_error "Invalid port number")
    end
  else mret (get_port_from_scheme (m_scheme u)).

Definition parse_host_and_port (it : str) (u : URI) : result URI :=
  match it with
  | [] => mret u
  | c :: it' =>
      split ← (if bool_decide (c = "["%char) then
                 let '(host, rest) := span (isnt "]") it' in
                 match rest with
                 | [] => Throw (runtime_error "Unterminated IPv6 address")
                 | _ :: rest => mret (host, rest)
                 end
               else mret (span (isnt ":") it));
      let '(host, rest) := split in
      port ← match rest with
             | ":"%char :: port => parse_port_text port u
             | _ => mret (get_port_from_scheme (m_scheme u))
             end;
      mret (set_host host (set_port port u))
  end.

(** The loop over the authority: what was before the last at sign and what is after it. *)
Fixpoint split_user (it userInfo part : str) : str * str :=
  match it with
  | [] => (userInfo, part)
  | c :: it' => if bool_decide (c = "@"%char) then split_user it' part [] else split_user it' userInfo (part ++ [c])
  end.

Definition in_authority (c : ascii) : bool := isnt "/" c && isnt "?" c && isnt "#" c.

(** [parse_authority]: the URI and where the authority ends. *)
Definition parse_authority (it : str) (u : URI) : result (URI * str) :=
  let '(authority, rest) := span in_authority it in
  let '(userInfo, part) := split_user authority [] [] in
  u ← parse_host_and_port part u;
  mret (set_user_info userInfo u, rest).

Definition set_authority (authority : str) (u : URI) : result URI :=
  r ← parse_authority authority (set_user_info [] (set_host [] (set_port 0 u)));
  mret r.1.

Definition in_scheme (c : ascii) : bool := isnt ":" c && in_authority c.

Definition parse (uri : str) (u : URI) : result URI :=
  match uri with
  | [] => mret u
  | c :: _ =>
      if negb (isnt "/" c && isnt "." c && isnt "?" c && isnt "#" c) then mret u
      else
        let '(scheme, it) := span in_scheme uri in
        match it with
        | ":"%char :: it =>
            match it with
            | [] => Throw (runtime_error "URI scheme must be followed by authority or path")
            | "/"%char :: "/"%char :: rest =>
                r ← parse_authority rest (set_scheme scheme u);
                mret (parse_path r.2 r.1)
            | _ => mret (parse_path it (set_scheme scheme u))
            end
        | _ => mret (parse_path uri u)
        end
  end.

Definition URI_new (uri : str) : result URI := parse uri (mkUri [] [] [] 0 []).

End uri.

(** * Reading back *)

Definition host_char (c : ascii) : bool := in_authority c && isnt "@" c && isnt "]" c && isnt "[" c.

Record wf_uri `{Services} (u : URI) : Prop := {
  wf_scheme : m_scheme u ≠ [] ∧ Forall (λ c, in_scheme c && isnt "." c = true) (m_scheme u);
  wf_user : Forall (λ c, in_authority c && isnt "@" c = true) (m_userInfo u);
  wf_host : m_host u ≠ [] ∧ Forall (λ c, host_char c = true) (m_host u);
  wf_port : 0 <= m_port u < 65536 ∧ (m_port u = 0 → get_port_from_scheme (m_scheme u) = 0);
  wf_path : m_path_and_query u = [] ∨ ∃ p, m_path_and_query u = "/"%char :: p;
}.

(** The authority without the user. *)
Definition host_port (u : URI) : str :=
  (if bool_decide (":"%char ∈ m_host u) then "["%char :: m_host u ++ ["]"%char] else m_host u) ++
  (if m_port u =? 0 then [] else ":"%char :: to_string (m_port u)).

Lemma split_user_plain it : ∀ userInfo part, Forall (λ c, isnt "@" c = true) it → split_user it userInfo part = (userInfo, part ++ it).
Proof.
  induction it as [|c it IH]; intros userInfo part Hit; cbn [split_user]; [by rewrite app_nil_r|].
  apply list.Forall_cons in Hit as [Hc Hit]. unfold isnt in Hc. apply negb_true_iff in Hc. rewrite Hc, IH by done.
  by rewrite <- app_assoc.
Qed.

Lemma split_user_at user it part : Forall (λ c, isnt "@" c = true) user → Forall (λ c, isnt "@" c = true) it →
  split_user (user ++ "@"%char :: it) [] part = (part ++ user, it).
Proof.
  intros Hu. revert part. induction Hu as [|c user Hc Hu IH]; intros part Hit; cbn [app split_user].
  - rewrite bool_decide_true by done. rewrite split_user_plain by done. by rewrite app_nil_r.
  - unfold isnt in Hc. apply negb_true_iff in Hc. rewrite Hc, IH by done. by rewrite <- app_assoc.
Qed.

Lemma Forall_and {A} (p q r : A → bool) l : (∀ c, p c = true → q c = true ∧ r c = true) → Forall (λ c, p c = true) l →
  Forall (λ c, q c = true) l ∧ Forall (λ c, r c = true) l.
Proof. intros Hpq Hl. split; (eapply list.Forall_impl; [exact Hl|]); intros c Hc; by apply Hpq in Hc as [? ?]. Qed.

Lemma isnt_false c d : isnt c d = false ↔ d = c.
Proof. unfold isnt. by rewrite negb_false_iff, bool_decide_eq_true. Qed.

Lemma isnt_true c d : isnt c d = true ↔ d ≠ c.
Proof. unfold isnt. by rewrite negb_true_iff, bool_decide_eq_false. Qed.

Section roundtrip.
Context {S : Services}.
Implicit Types u : URI.

Lemma host_port_chars u : wf_uri u → Forall (λ c, in_authority c && isnt "@" c = true) (host_port u).
Proof.
  intros [_ _ [_ Hh] [Hp _] _]. unfold host_port.
  assert (Forall (λ c, in_authority c && isnt "@" c = true) (m_host u)) as Hhost.
  { eapply list.Forall_impl; [exact Hh|]. unfold host_char. intros c [[Hc _]%andb_prop _]%andb_prop. exact Hc. }
  apply Forall_app_2.
  - case_bool_decide; [|done]. constructor; [done|]. apply Forall_app_2; [done|]. by repeat constructor.
  - destruct (m_port u =? 0); [constructor|]. constructor; [done|].
    apply to_string_chars; [|lia]. by apply digits_free.
Qed.

(** [parse_host_and_port] reads the host and the port. *)
Lemma parse_host_port u v : wf_uri u → m_scheme v = m_scheme u →
  parse_host_and_port (host_port u) v = Ok (set_host (m_host u) (set_port (m_port u) v)).
Proof.
  intros [_ _ [Hne Hh] [Hp Hp0] _] Hs.
  set (port_text := if m_port u =? 0 then [] else ":"%char :: to_string (m_port u)).
  assert (match port_text with
    | ":"%char :: port => parse_port_text port v
    | _ => mret (get_port_from_scheme (m_scheme v)) end = Ok (m_port u)) as Hport.
  { unfold port_text. destruct (Z.eqb_spec (m_port u) 0) as [E|E]; [rewrite Hs, Hp0 by done; by rewrite E|].
    unfold parse_port_text. rewrite bool_decide_false by (apply to_string_ne; lia). cbn [negb].
    unfold try_parse_unsigned. rewrite stoul_to_string by lia.
    rewrite (proj2 (Z.ltb_lt 0 _)), (proj2 (Z.ltb_lt _ 65536)) by lia. cbn [andb].
    by rewrite wrap_small by (unfold in_range; zpow; lia). }
  unfold host_port. fold port_text. case_bool_decide as Hc.
  - cbn [app]. unfold parse_host_and_port. rewrite bool_decide_true by done.
    rewrite <- app_assoc. cbn [app]. rewrite (span_app (isnt "]")).
    + cbn [mbind result_bind mret result_ret]. by rewrite Hport.
    + eapply list.Forall_impl; [exact Hh|]. unfold host_char. intros c Hc'. apply andb_prop in Hc' as [Hc' _].
      by apply andb_prop in Hc' as [_ ?].
    + by intros c ys [= <- _].
  - destruct (m_host u) as [|c host] eqn:Hhost; [done|]. cbn [app]. unfold parse_host_and_port.
    rewrite (bool_decide_false (c = "["%char)).
    2: { apply isnt_true. apply list.Forall_cons in Hh as [Hc0 _]. unfold host_char in Hc0. by apply andb_prop in Hc0 as [_ ?]. }
    change (c :: host ++ port_text) with ((c :: host) ++ port_text). rewrite (span_app (isnt ":")).
    + cbn [mbind result_bind mret result_ret]. by rewrite Hport.
    + apply list.Forall_forall. intros d Hd. apply isnt_true. by intros ->.
    + unfold port_text. intros d ys. destruct (m_port u =? 0); [done|]. by intros [= <- _].
Qed.

Lemma get_authority_eq u :
  get_authority u = (if bool_decide (m_userInfo u = []) then [] else m_userInfo u ++ ["@"%char]) ++ host_port u.
Proof. done. Qed.

Lemma host_port_ne u : m_host u ≠ [] → host_port u ≠ [].
Proof. intros Hne. unfold host_port. case_bool_decide; [done|]. by destruct (m_host u). Qed.

Lemma parse_authority_run u v : wf_uri u → m_scheme v = m_scheme u →
  parse_authority (get_authority u ++ m_path_and_query u) v =
    Ok (set_user_info (m_userInfo u) (set_host (m_host u) (set_port (m_port u) v)), m_path_and_query u).
Proof.
  intros Hu Hs. pose proof Hu as [_ Huser _ _ Hpath]. pose proof (host_port_chars u Hu) as Hhp.
  destruct (Forall_and _ in_authority (isnt "@") _ (λ c, andb_prop _ _) Huser) as [Hua Hut].
  destruct (Forall_and _ in_authority (isnt "@") _ (λ c, andb_prop _ _) Hhp) as [Hha Hht].
  unfold parse_authority. rewrite get_authority_eq, span_app.
  - assert (split_user ((if bool_decide (m_userInfo u = []) then [] else m_userInfo u ++ ["@"%char]) ++ host_port u) [] []
      = (m_userInfo u, host_port u)) as ->.
    { case_bool_decide as Hempty; [rewrite Hempty; by apply split_user_plain|].
      rewrite <- app_assoc. cbn [app]. by rewrite split_user_at. }
    by rewrite parse_host_port.
  - apply Forall_app_2; [|done]. case_bool_decide; [constructor|]. apply Forall_app_2; [done|]. by repeat constructor.
  - intros c ys E. destruct Hpath as [Hp|[p Hp]]; rewrite Hp in E; [done|]. by injection E as <- _.
Qed.

(** A URI with a host is read back from its text. *)
Theorem uri_roundtrip u : wf_uri u → URI_new (uri_to_string u) = Ok u.
Proof.
  intros Hu. pose proof Hu as [[Hne Hs] _ [Hh _] [_ Hp0] Hpath].
  destruct (Forall_and _ in_scheme (isnt ".") _ (λ c, andb_prop _ _) Hs) as [Hin Hdot].
  assert (get_authority u ≠ []) as Ha.
  { rewrite get_authority_eq. pose proof (host_port_ne u Hh). case_bool_decide; [done|]. by destruct (m_userInfo u). }
  assert (uri_to_string u = m_scheme u ++ ":"%char :: "/"%char :: "/"%char :: get_authority u ++ m_path_and_query u) as ->.
  { unfold uri_to_string. rewrite bool_decide_false by done. cbn [negb orb andb].
    destruct Hpath as [->|[p ->]]; cbn [app]; [done|]. by rewrite bool_decide_true. }
  unfold URI_new, parse. destruct (m_scheme u) as [|c scheme] eqn:Hsch; [done|]. cbn [app].
  assert (isnt "/" c && isnt "." c && isnt "?" c && isnt "#" c = true) as ->.
  { apply list.Forall_cons in Hin as [Hc _]. apply list.Forall_cons in Hdot as [Hd _].
    unfold in_scheme, in_authority in Hc. rewrite Hd. by destruct (isnt "/" c), (isnt "?" c), (isnt "#" c), (isnt ":" c). }
  cbn [negb]. change (c :: scheme ++ ?r) with ((c :: scheme) ++ r). rewrite span_app; [|done|by intros d ys [= <- _]].
  rewrite parse_authority_run; [|done|by rewrite Hsch].
  cbn [mbind result_bind mret result_ret fst snd]. f_equal. destruct u; cbn in *. by subst.
Qed.

(** Replacing the host of a URI changes nothing else of what is read back. *)
Lemma uri_set_host u host : wf_uri u → host ≠ [] → Forall (λ c, host_char c = true) host →
  URI_new (uri_to_string (set_host host u)) = Ok (set_host host u).
Proof. intros [? ? ? ? ?] Hne Hh. by apply uri_roundtrip. Qed.

(** A reference that starts with a path is dropped: the URI stays empty. *)
Theorem relative_reference_is_dropped path : URI_new ("/"%char :: path) = Ok (mkUri [] [] [] 0 []).
Proof. done. Qed.

End roundtrip.

End Uri.
