(* ===== verification/SsdpPacket.v ===== *)
(** SSDP packets (PSME/common/ssdp): ssdp_packet.cpp, ssdp_packet_parser.hpp and .cpp,
    ssdp_packet_validator.cpp and ssdp_packet_factory_impl.cpp.

    The parser runs over a container with iterators [m_current] and [m_end]: the state is the
    position of [m_current], and reading at a position outside of the container is undefined.  Its
    loops have fuel, [S (length container)], since every iteration advances; the loop that unfolds
    header lines does not end on a blank behind the end of the data.

    Theorems: a packet is read back from its text ([packet_roundtrip]); over a buffer with a
    terminating zero, which is what [receive_packet] passes for every datagram shorter than the
    buffer, the parser equals a function on the text ([parse_reference]) and returns or throws its
    own exception ([packet_parse_safe]); a datagram that fills the buffer is read past the end
    ([full_buffer_overread]); [set_header] keeps the names distinct and is read back; the packets
    of the factory are valid and survive the wire ([factory_packets_valid]); what the validators
    accept ([validate_exact]). *)

From Stdlib Require Import ZArith Lia Ascii.
From S2P Require Import Prelude Database Net.
Import Database Net.

Local Open Scope Z_scope.

Module SsdpPacket.

(** * Packets *)

Definition AL : str := lit "AL".
Definition HOST : str := lit "Host".
Definition LOCATION : str := lit "Location".
Definition CACHE_CONTROL : str := lit "Cache-Control".
Definition SERVER : str := lit "Server".
Definition NT : str := lit "NT".
Definition NTS : str := lit "NTS".
Definition SSDP_ALIVE_STR : str := lit "ssdp:alive".
Definition SSDP_BYEBYE_STR : str := lit "ssdp:byebye".
Definition USN : str := lit "USN".
Definition ST : str := lit "ST".
Definition MAN : str := lit "MAN".
Definition quote : ascii := ascii_of_N 34.
Definition SSDP_DISCOVER : str := quote :: lit "ssdp:discover" ++ [quote].
Definition MX : str := lit "MX".
Definition EXT : str := lit "Ext".

Definition HTTP_VERSION : str := lit "HTTP/1.1".
Definition CR : ascii := "013".
Definition LF : ascii := "010".
Definition CRLF : str := [CR; LF].
Definition TAB : ascii := "009".

Inductive Type_ := NOTIFY | SEARCH_REQUEST | SEARCH_RESPONSE | UNKNOWN.

#[export] Instance Type_eq_dec : EqDecision Type_.
Proof. solve_decision. Defined.

Definition ssdp_packet_type_strings_array : list (Type_ * str * str) :=
  [(NOTIFY, lit "NOTIFY", lit "NOTIFY"); (SEARCH_REQUEST, lit "M-SEARCH", lit "SEARCH_REQUEST");
   (SEARCH_RESPONSE, lit "HTTP/1.1", lit "SEARCH_RESPONSE"); (UNKNOWN, lit "UNKNOWN", lit "UNKNOWN")].

Definition from_request_line_string (s : str) : Type_ :=
  match list_find (λ e, e.1.2 = s) ssdp_packet_type_strings_array with
  | Some (_, e) => e.1.1
  | None => UNKNOWN
  end.

Definition type_index (t : Type_) : nat :=
  match t with NOTIFY => 0 | SEARCH_REQUEST => 1 | SEARCH_RESPONSE => 2 | UNKNOWN => 3 end.

Definition type_strings (t : Type_) : Type_ * str * str :=
  default (UNKNOWN, [], []) (ssdp_packet_type_strings_array !! type_index t).

Definition to_request_line_string (t : Type_) : str := (type_strings t).1.2.
Definition type_to_string (t : Type_) : str := (type_strings t).2.

Record SsdpPacket := mkPacket { m_type : Type_; m_headers : list (str * str) }.

#[export] Instance SsdpPacket_eq_dec : EqDecision SsdpPacket.
Proof. solve_decision. Defined.

Definition SsdpPacket_new (t : Type_) : SsdpPacket := mkPacket t [].

Definition code (c : ascii) : Z := Z.of_N (N_of_ascii c).

Definition tolower (c : ascii) : ascii :=
  if (65 <=? code c) && (code c <=? 90) then ascii_of_N (Z.to_N (code c + 32)) else c.

Fixpoint icompare (str1 str2 : str) : Z :=
  match str1, str2 with
  | c1 :: s1, c2 :: s2 =>
      if code (tolower c1) <? code (tolower c2) then -1
      else if code (tolower c2) <? code (tolower c1) then 1
      else icompare s1 s2
  | [], [] => 0
  | [], _ :: _ => -1
  | _ :: _, [] => 1
  end.

(** [Headers::find]: the position of the first header with the name. *)
Fixpoint find (key : str) (headers : list (str * str)) : option nat :=
  match headers with
  | [] => None
  | (name, _) :: headers' => if icompare name key =? 0 then Some O else S <$> find key headers'
  end.

Definition set_header (name value : str) (p : SsdpPacket) : SsdpPacket :=
  mkPacket (m_type p)
    match find name (m_headers p) with
    | Some i => alter (λ h, (h.1, value)) i (m_headers p)
    | None => m_headers p ++ [(name, value)]
    end.

Definition lookup_header (name : str) (p : SsdpPacket) : option str :=
  i ← find name (m_headers p); snd <$> m_headers p !! i.

Definition get_header (name : str) (p : SsdpPacket) : result str :=
  match lookup_header name p with Some value => mret value | None => Throw (runtime_error "not found") end.

Definition has_header (name : str) (p : SsdpPacket) : bool :=
  match find name (m_headers p) with Some _ => true | None => false end.

Definition is_search_request (p : SsdpPacket) : bool := bool_decide (m_type p = SEARCH_REQUEST).

Definition get_request_line (t : Type_) : str :=
  to_request_line_string t ++
  match t with
  | SEARCH_REQUEST | NOTIFY => lit " * " ++ HTTP_VERSION
  | SEARCH_RESPONSE => lit " 200 OK"
  | UNKNOWN => []
  end ++ CRLF.

Definition header_text (h : str * str) : str := h.1 ++ ":"%char :: h.2 ++ CRLF.

Definition packet_to_string (p : SsdpPacket) : str :=
  get_request_line (m_type p) ++ concat (header_text <$> m_headers p) ++ CRLF.

(** * The parser *)

Definition PacketParserException (msg : string) : exn := runtime_error msg.

(** [trim_right] *)
Fixpoint trim_right (s : str) : str :=
  match s with
  | [] => []
  | c :: s' => match trim_right s' with [] => if is_space c then [] else [c] | t => c :: t end
  end.

Section parser.
Context (container : str) (m_end : nat).

(** [ *m_current ] *)
Definition deref : M nat ascii := cur ← get; lift (index container cur).

Definition advance : M nat unit := modify S.

(** [for (; m_current != m_end && p( *m_current ); ++m_current) text += *m_current];
    [std::isspace] of a byte from 128 on is taken as false, as the C library has it. *)
Fixpoint take_while (fuel : nat) (p : ascii → bool) (text : str) : M nat str :=
  match fuel with
  | O => throw out_of_fuel
  | S fuel' =>
      cur ← get;
      if (cur =? m_end)%nat then mret text
      else
        c ← deref;
        if p c then advance;; take_while fuel' p (text ++ [c]) else mret text
  end.

Definition the_fuel : nat := S (length container).

Definition next_token : M nat str := take_while the_fuel (λ c, negb (is_space c)) [].
Definition skip_spaces : M nat unit := take_while the_fuel is_space [];; mret tt.

Definition parse_request_line : M nat SsdpPacket :=
  skip_spaces;;
  method_or_resp ← next_token;
  skip_spaces;;
  next_token;;
  skip_spaces;;
  next_token;;
  skip_spaces;;
  mret (SsdpPacket_new (from_request_line_string method_or_resp)).

(** The end of a line of a header. *)
Definition end_of_line : M nat unit :=
  c ← deref;
  when (bool_decide (c = CR)) advance;;
  c ← deref;
  if bool_decide (c = LF) then advance
  else
    cur ← get;
    if negb (cur =? m_end)%nat then throw (PacketParserException "No CRLF found") else mret tt.

Definition line_char (c : ascii) : bool := isnt CR c && isnt LF c.

(** The lines that continue a header. *)
Fixpoint folding (fuel : nat) (value : str) : M nat str :=
  match fuel with
  | O => throw out_of_fuel
  | S fuel' =>
      c ← deref;
      if bool_decide (c = " "%char) || bool_decide (c = TAB) then
        value ← take_while the_fuel line_char value;
        end_of_line;;
        folding fuel' value
      else mret value
  end.

(** One round of the loop over the headers; [None] for a line without a colon. *)
Definition parse_header : M nat (option (str * str)) :=
  name ← take_while the_fuel (λ c, isnt ":" c && isnt LF c) [];
  c ← deref;
  if bool_decide (c = LF) then advance;; mret None
  else if negb (bool_decide (c = ":"%char)) then throw (PacketParserException "No colon found")
  else
    cur ← get;
    when (negb (cur =? m_end)%nat) advance;;
    take_while the_fuel (λ c, is_space c && line_char c) [];;
    value ← take_while the_fuel line_char [];
    end_of_line;;
    value ← folding the_fuel value;
    mret (Some (name, trim_right value)).

Fixpoint parse_headers_loop (fuel : nat) (packet : SsdpPacket) : M nat SsdpPacket :=
  match fuel with
  | O => throw out_of_fuel
  | S fuel' =>
      cur ← get;
      if (cur =? m_end)%nat then mret packet
      else
        c ← deref;
        if line_char c then
          h ← parse_header;
          parse_headers_loop fuel' match h with Some (name, value) => set_header name value packet | None => packet end
        else mret packet
  end.

Definition parse_headers (packet : SsdpPacket) : M nat SsdpPacket :=
  packet ← parse_headers_loop the_fuel packet;
  take_while the_fuel (isnt LF) [];;
  mret packet.

Definition parse : M nat SsdpPacket := packet ← parse_request_line; parse_headers packet.

End parser.

(** [SsdpPacketParser(container, length).parse()] *)
Definition parse_packet (container : str) (length_ : nat) : result SsdpPacket :=
  if (length container <? length_)%nat then Throw (PacketParserException "Length out of range")
  else (parse container length_ 0%nat).1.

(** * Validators *)

Record SsdpPacketKey := mkKey { key_type : Type_; key_sub_type : str }.

#[export] Instance SsdpPacketKey_eq_dec : EqDecision SsdpPacketKey.
Proof. solve_decision. Defined.

(** [SsdpPacketKey(packet)] *)
Definition key_of (p : SsdpPacket) : SsdpPacketKey := mkKey (m_type p) (default [] (lookup_header NTS p)).

Definition SsdpNotifyPacketValidator (validate_subtype : SsdpPacket → result bool) (p : SsdpPacket) : result bool :=
  if negb (bool_decide (m_type p = NOTIFY)) then mret false
  else if negb (has_header HOST p) || negb (has_header NT p) || negb (has_header NTS p) || negb (has_header USN p)
  then mret false
  else validate_subtype p.

Definition SsdpAlivePacketValidator : SsdpPacket → result bool :=
  SsdpNotifyPacketValidator (λ p,
    nts ← get_header NTS p;
    mret (bool_decide (SSDP_ALIVE_STR = nts) && has_header CACHE_CONTROL p && (has_header AL p || has_header LOCATION p))).

Definition SsdpByeByePacketValidator : SsdpPacket → result bool :=
  SsdpNotifyPacketValidator (λ p, nts ← get_header NTS p; mret (bool_decide (SSDP_BYEBYE_STR = nts))).

Definition SsdpSearchRequestPacketValidator (p : SsdpPacket) : result bool :=
  if bool_decide (SEARCH_REQUEST = m_type p) then
    if negb (has_header HOST p) || negb (has_header ST p) || negb (has_header MAN p) || negb (has_header MX p)
    then mret false
    else
      man ← get_header MAN p;
      mret (negb (negb (bool_decide (man = SSDP_DISCOVER))))
  else mret false.

Definition SsdpSearchResponsePacketValidator (p : SsdpPacket) : result bool :=
  if bool_decide (SEARCH_RESPONSE = m_type p) then
    if negb (has_header CACHE_CONTROL p) || negb (has_header ST p) ||
       negb (has_header AL p || has_header LOCATION p) || negb (has_header USN p)
    then mret false
    else mret true
  else mret false.

Definition create_validators_map : list (SsdpPacketKey * (SsdpPacket → result bool)) :=
  [(mkKey NOTIFY SSDP_ALIVE_STR, SsdpAlivePacketValidator);
   (mkKey NOTIFY SSDP_BYEBYE_STR, SsdpByeByePacketValidator);
   (mkKey SEARCH_REQUEST [], SsdpSearchRequestPacketValidator);
   (mkKey SEARCH_RESPONSE [], SsdpSearchResponsePacketValidator)].

Definition validate_ssdp_packet (p : SsdpPacket) : result bool :=
  match list_find (λ e, e.1 = key_of p) create_validators_map with
  | Some (_, (_, is_valid)) => is_valid p
  | None => mret false
  end.

(** * The factory *)

Record SsdpServiceConfig := mkConfig {
  m_ssdp_service_enabled : bool;
  m_service_uuid : str;
  m_service_urn : str;
  m_service_url : str;
  m_ttl : Z;
  m_announce_interval : Z;
  m_nic_names : list str;
}.

Definition SsdpServiceConfig_new : SsdpServiceConfig :=
  mkConfig false [] (lit "urn:dmtf-org:service:redfish-rest:1") [] 2 0 [].

Definition is_announcement_enabled (c : SsdpServiceConfig) : bool := 0 <? m_announce_interval c.

Definition build_usn (c : SsdpServiceConfig) : str := lit "uuid:" ++ m_service_uuid c ++ lit "::" ++ m_service_urn c.

(** [std::to_string] of a signed number. *)
Definition to_string_signed (v : Z) : str := if v <? 0 then "-"%char :: to_string (- v) else to_string v.

Definition build_cache_control (c : SsdpServiceConfig) : str :=
  lit "max-age=" ++ to_string_signed (Z.shiftl (m_announce_interval c) 1).

(** [SSDP_MCAST_ADDRESS] of ssdp_service.cpp *)
Definition SSDP_MCAST_ADDRESS : SocketAddress := IpSocket (mkIp IPv4 [239; 255; 255; 250]) 1900.

Section factory.
Context {I : InetText} (config : SsdpServiceConfig).

Definition create_ssdp_alive : SsdpPacket :=
  set_header EXT [] (set_header AL (m_service_url config) (set_header USN (build_usn config)
    (set_header NTS SSDP_ALIVE_STR (set_header NT (m_service_urn config)
    (set_header CACHE_CONTROL (build_cache_control config)
    (set_header HOST (socket_to_string SSDP_MCAST_ADDRESS) (SsdpPacket_new NOTIFY))))))).

Definition create_ssdp_search_reply : SsdpPacket :=
  set_header EXT [] (set_header AL (m_service_url config) (set_header USN (build_usn config)
    (set_header ST (m_service_urn config) (set_header CACHE_CONTROL (build_cache_control config)
    (SsdpPacket_new SEARCH_RESPONSE))))).

Definition create_ssdp_byebye : SsdpPacket :=
  set_header USN (build_usn config) (set_header NTS SSDP_BYEBYE_STR (set_header NT (m_service_urn config)
    (set_header HOST (socket_to_string SSDP_MCAST_ADDRESS) (SsdpPacket_new NOTIFY)))).

Definition create_ssdp_search_request : SsdpPacket :=
  set_header MX (lit "3") (set_header MAN SSDP_DISCOVER (set_header ST (m_service_urn config)
    (set_header HOST (socket_to_string SSDP_MCAST_ADDRESS) (SsdpPacket_new SEARCH_REQUEST)))).

(** [m_prototypes] *)
Definition prototypes : list (SsdpPacketKey * SsdpPacket) :=
  [(mkKey NOTIFY [], create_ssdp_alive);
   (mkKey NOTIFY SSDP_ALIVE_STR, create_ssdp_alive);
   (mkKey NOTIFY SSDP_BYEBYE_STR, create_ssdp_byebye);
   (mkKey SEARCH_REQUEST [], create_ssdp_search_request);
   (mkKey SEARCH_RESPONSE [], create_ssdp_search_reply)].

Definition create_ssdp_packet (key : SsdpPacketKey) : result SsdpPacket :=
  match list_find (λ e, e.1 = key) prototypes with Some (_, (_, p)) => mret p | None => Throw out_of_range end.

End factory.

(** * Headers *)

Definition same_name (a b : str) : Prop := icompare a b = 0.

Lemma code_inj c d : code c = code d → c = d.
Proof.
  unfold code. intros H%N2Z.inj. rewrite <- (ascii_N_embedding c), <- (ascii_N_embedding d). by rewrite H.
Qed.

Lemma icompare_eq a : ∀ b, icompare a b = 0 ↔ tolower <$> a = tolower <$> b.
Proof.
  induction a as [|c a IH]; intros [|d b]; cbn [icompare fmap list_fmap]; [done..|].
  destruct (Z.ltb_spec (code (tolower c)) (code (tolower d))) as [H1|H1]; [split; [done|intros [= E _]; rewrite E in H1; lia]|].
  destruct (Z.ltb_spec (code (tolower d)) (code (tolower c))) as [H2|H2]; [split; [done|intros [= E _]; rewrite E in H2; lia]|].
  rewrite IH. assert (tolower c = tolower d) as -> by (apply code_inj; lia). split; [by intros ->|by intros [= ->]].
Qed.

#[export] Instance same_name_equivalence : Equivalence same_name.
Proof.
  split; unfold same_name.
  - intros a. by apply icompare_eq.
  - intros a b. by rewrite !icompare_eq.
  - intros a b c. rewrite !icompare_eq. by intros -> ->.
Qed.

(** No two headers with the same name. *)
Definition distinct (hs : list (str * str)) : Prop := pairwise (λ a b, icompare a b ≠ 0) hs.*1.

Lemma find_None key hs : find key hs = None ↔ Forall (λ n, icompare n key ≠ 0) hs.*1.
Proof.
  induction hs as [|[n v] hs IH]; cbn [find fmap list_fmap fst]; [done|].
  rewrite list.Forall_cons. destruct (Z.eqb_spec (icompare n key) 0); [naive_solver|].
  rewrite fmap_None, IH. naive_solver.
Qed.

Lemma find_Some key hs i : find key hs = Some i → ∃ n v, hs !! i = Some (n, v) ∧ icompare n key = 0.
Proof.
  revert i. induction hs as [|[n v] hs IH]; intros i; cbn [find]; [done|].
  destruct (Z.eqb_spec (icompare n key) 0); [intros [= <-]; by exists n, v|].
  intros (j & Hj & ->)%fmap_Some. apply IH, Hj.
Qed.

Lemma alter_names i v hs : (alter (λ h : str * str, (h.1, v)) i hs).*1 = hs.*1.
Proof. revert i. induction hs as [|h hs IH]; intros [|i]; cbn; [done..|]. f_equal. apply IH. Qed.

(** [set_header] keeps the names distinct. *)
Lemma set_header_distinct name value p : distinct (m_headers p) → distinct (m_headers (set_header name value p)).
Proof.
  unfold distinct, set_header. intros Hd. cbn [m_headers]. destruct (find name (m_headers p)) as [i|] eqn:Hf.
  - by rewrite alter_names.
  - rewrite fmap_app. cbn [fmap list_fmap fst]. apply pairwise_app. split_and!; [done|by repeat constructor|].
    apply find_None in Hf. eapply list.Forall_impl; [exact Hf|]. intros n Hn. by repeat constructor.
Qed.

Lemma find_alter key i v hs : find key (alter (λ h : str * str, (h.1, v)) i hs) = find key hs.
Proof.
  revert i. induction hs as [|[n w] hs IH]; intros [|i]; cbn; [done..|].
  change (list_alter _ i hs) with (alter (λ h : str * str, (h.1, v)) i hs). by rewrite IH.
Qed.

Lemma find_app key hs n v : find key hs = None → find key (hs ++ [(n, v)]) = if icompare n key =? 0 then Some (length hs) else None.
Proof.
  induction hs as [|[m w] hs IH]; cbn [find app length]; [by destruct (icompare n key =? 0)|].
  destruct (Z.eqb_spec (icompare m key) 0); [done|]. intros Hf%fmap_None. rewrite IH by done. by destruct (icompare n key =? 0).
Qed.

Lemma find_app_l key hs ks i : find key hs = Some i → find key (hs ++ ks) = Some i.
Proof.
  revert i. induction hs as [|[m w] hs IH]; intros i; cbn [find app]; [done|].
  destruct (icompare m key =? 0); [done|]. intros (j & Hj & ->)%fmap_Some. by rewrite (IH j).
Qed.

Lemma find_same a b hs : same_name a b → find a hs = find b hs.
Proof.
  unfold same_name. intros Hab%icompare_eq. induction hs as [|[n v] hs IH]; cbn [find]; [done|].
  assert ((icompare n a =? 0) = (icompare n b =? 0)) as ->; [|by rewrite IH].
  apply eq_true_iff_eq. by rewrite !Z.eqb_eq, !icompare_eq, Hab.
Qed.

(** What was set is what is found, under every spelling of the name, and nothing else changes. *)
Theorem lookup_set_header name value key p :
  lookup_header key (set_header name value p) = if icompare name key =? 0 then Some value else lookup_header key p.
Proof.
  unfold lookup_header, set_header. cbn [m_headers].
  destruct (find name (m_headers p)) as [i|] eqn:Hf.
  - rewrite find_alter. destruct (find_Some _ _ _ Hf) as (n & v & Hi & Hn).
    destruct (Z.eqb_spec (icompare name key) 0) as [E|E].
    + rewrite <- (find_same name key) by done. rewrite Hf. cbn [mbind option_bind].
      by rewrite list_lookup_alter_eq, Hi.
    + destruct (find key (m_headers p)) as [j|] eqn:Hj; [|done]. cbn [mbind option_bind].
      rewrite list_lookup_alter_ne; [done|]. intros ->.
      destruct (find_Some _ _ _ Hj) as (n' & v' & Hj' & Hn'). rewrite Hi in Hj'. injection Hj' as <- <-.
      apply E. apply icompare_eq. apply icompare_eq in Hn, Hn'. by rewrite <- Hn, <- Hn'.
  - destruct (find key (m_headers p)) as [j|] eqn:Hj.
    + rewrite (find_app_l _ _ _ _ Hj). cbn [mbind option_bind].
      destruct (find_Some _ _ _ Hj) as (n' & v' & Hj' & Hn'). rewrite (lookup_app_l_Some _ _ _ _ Hj'), Hj'.
      destruct (Z.eqb_spec (icompare name key) 0) as [E|E]; [|done].
      rewrite (find_same name key), Hj in Hf; done.
    + rewrite find_app by done. destruct (Z.eqb_spec (icompare name key) 0); [|done]. cbn [mbind option_bind].
      by rewrite list_lookup_middle.
Qed.

Lemma has_header_lookup name p : has_header name p = bool_decide (is_Some (lookup_header name p)).
Proof.
  unfold has_header, lookup_header. destruct (find name (m_headers p)) as [i|] eqn:Hf; cbn [mbind option_bind].
  - destruct (find_Some _ _ _ Hf) as (n & v & -> & _). rewrite bool_decide_true; [done|by eexists].
  - by rewrite bool_decide_false by (by intros [? ?]).
Qed.

(** * The parser as a function of the text *)

Definition lf_text (s : str) : result str :=
  match s with
  | [] => mret []
  | c :: s' => if bool_decide (c = LF) then mret s' else Throw (PacketParserException "No CRLF found")
  end.

Definition eol_text (s : str) : result str :=
  lf_text match s with c :: s' => if bool_decide (c = CR) then s' else s | [] => [] end.

Definition is_blank (c : ascii) : bool := bool_decide (c = " "%char) || bool_decide (c = TAB).

Fixpoint folding_text (fuel : nat) (value s : str) : result (str * str) :=
  match fuel with
  | O => Throw out_of_fuel
  | S fuel' =>
      match s with
      | c :: _ =>
          if is_blank c then
            rest ← eol_text (span line_char s).2;
            folding_text fuel' (value ++ (span line_char s).1) rest
          else mret (value, s)
      | [] => mret (value, [])
      end
  end.

(** A header from its line, and the rest of the text. *)
Definition header_line (fuel : nat) (s : str) : result (option (str * str) * str) :=
  let '(name, rest) := span (λ c, isnt ":" c && isnt LF c) s in
  match rest with
  | [] => Throw (PacketParserException "No colon found")
  | c :: rest =>
      if bool_decide (c = LF) then mret (None, rest)
      else
        let '(_, rest) := span (λ c, is_space c && line_char c) rest in
        let '(value, rest) := span line_char rest in
        rest ← eol_text rest;
        r ← folding_text fuel value rest;
        mret (Some (name, trim_right r.1), r.2)
  end.

Fixpoint headers_text (fuel : nat) (s : str) (p : SsdpPacket) : result SsdpPacket :=
  match fuel with
  | O => Throw out_of_fuel
  | S fuel' =>
      match s with
      | [] => mret p
      | c :: _ =>
          if line_char c then
            r ← header_line fuel' s;
            headers_text fuel' r.2 match r.1 with Some (name, value) => set_header name value p | None => p end
          else mret p
      end
  end.

Definition skip (s : str) : str := (span is_space s).2.
Definition token (s : str) : str * str := span (λ c, negb (is_space c)) s.

(** The packet of a text. *)
Definition packet_text (s : str) : result SsdpPacket :=
  let '(method_or_resp, s1) := token (skip s) in
  let s2 := skip (token (skip (token (skip s1)).2)).2 in
  headers_text (S (length s2)) s2 (SsdpPacket_new (from_request_line_string method_or_resp)).

Definition ZERO : ascii := "000".

Lemma span_length p s : length (span p s).2 = (length s - length (span p s).1)%nat.
Proof. pose proof (f_equal length (span_eq p s)) as H. rewrite length_app in H. lia. Qed.

Lemma eol_text_length s r : eol_text s = Ok r → (length r ≤ length s)%nat.
Proof.
  unfold eol_text, lf_text. destruct s as [|c [|d s]]; repeat case_bool_decide; intros Heq; try discriminate; injection Heq as <-; simpl; lia.
Qed.

Lemma span_pos p c s : p c = true → (0 < length (span p (c :: s)).1)%nat.
Proof. intros Hc. cbn [span]. rewrite Hc. simpl. lia. Qed.

Lemma blank_line c : is_blank c = true → line_char c = true.
Proof. unfold is_blank. by repeat case_bool_decide; subst. Qed.

Lemma folding_text_enough fuel value s : (length s < fuel)%nat →
  folding_text fuel value s ≠ Throw out_of_fuel ∧ folding_text fuel value s ≠ Throw undefined_behaviour ∧
  ∀ r, folding_text fuel value s = Ok r → (length r.2 ≤ length s)%nat.
Proof.
  revert value s. induction fuel as [|fuel IH]; intros value s Hf; [lia|]. cbn [folding_text].
  destruct s as [|c s]; [split_and!; [done..|by intros r [= <-]]|].
  destruct (is_blank c) eqn:Hb; [|split_and!; [done..|by intros r [= <-]]].
  pose proof (span_pos line_char c s (blank_line c Hb)) as Hpos. pose proof (span_length line_char (c :: s)) as Hlen.
  destruct (eol_text _) as [rest|e] eqn:He; cbn [mbind result_bind].
  - apply eol_text_length in He. destruct (IH (value ++ (span line_char (c :: s)).1) rest) as (H1 & H2 & H3); [simpl in *; lia|].
    split_and!; [done..|]. intros r Hr. specialize (H3 r Hr). simpl in *. lia.
  - split_and!; try done; intros [= ->]; revert He; unfold eol_text, lf_text; by repeat case_match.
Qed.

Lemma eol_text_throws s e : eol_text s = Throw e → e = PacketParserException "No CRLF found".
Proof. unfold eol_text, lf_text. repeat case_match; intros Heq; try discriminate; by injection Heq. Qed.

(** The fuel of the unfolding does not matter once it is more than the text. *)
Lemma folding_text_fuel f1 : ∀ f2 value s, (length s < f1)%nat → (length s < f2)%nat →
  folding_text f1 value s = folding_text f2 value s.
Proof.
  induction f1 as [|f1 IH]; intros [|f2] value s H1 H2; [lia..|]. cbn [folding_text].
  destruct s as [|c s]; [done|]. destruct (is_blank c) eqn:Hb; [|done].
  pose proof (span_pos line_char c s (blank_line c Hb)). pose proof (span_length line_char (c :: s)).
  destruct (eol_text _) as [rest|e] eqn:He; [|done]. apply eol_text_length in He. cbn [mbind result_bind].
  apply IH; simpl in *; lia.
Qed.

(** What a header line does: it never runs out of fuel, and it takes something of the text. *)
Lemma header_line_spec fuel c s : (length (c :: s) ≤ fuel)%nat → line_char c = true →
  match header_line fuel (c :: s) with
  | Ok r => (length r.2 < length (c :: s))%nat
  | Throw e => e = PacketParserException "No colon found" ∨ e = PacketParserException "No CRLF found"
  end.
Proof.
  intros Hf Hc. unfold header_line.
  pose proof (span_length (λ c, isnt ":" c && isnt LF c) (c :: s)) as Hlen.
  destruct (span (λ c, isnt ":" c && isnt LF c) (c :: s)) as [name rest] eqn:Hspan. cbn [fst snd] in Hlen.
  destruct rest as [|d rest]; [by left|]. case_bool_decide; [cbn; simpl in *; lia|].
  pose proof (span_length (λ c, is_space c && line_char c) rest) as Hlen1.
  destruct (span (λ c, is_space c && line_char c) rest) as [blanks rest1]. cbn [fst snd] in Hlen1.
  pose proof (span_length line_char rest1) as Hlen2.
  destruct (span line_char rest1) as [value rest2]. cbn [fst snd] in Hlen2.
  destruct (eol_text rest2) as [rest3|e] eqn:He; cbn [mbind result_bind].
  - apply eol_text_length in He. destruct (folding_text_enough fuel value rest3) as (H1 & H2 & H3); [simpl in *; lia|].
    destruct (folding_text fuel value rest3) as [r|e] eqn:Hfold; cbn [mbind result_bind mret result_ret snd].
    + specialize (H3 r eq_refl). simpl in *. lia.
    + right. clear -Hfold H1. revert value rest3 Hfold H1. induction fuel as [|fuel IH]; intros value rest3; cbn [folding_text];
        [by intros [= <-]|].
      destruct rest3 as [|c rest3]; [done|]. destruct (is_blank c); [|done].
      destruct (eol_text _) eqn:He; cbn [mbind result_bind]; [apply IH|]. intros [= <-] _. by apply eol_text_throws in He.
  - right. by apply eol_text_throws in He.
Qed.

Lemma header_line_fuel f1 f2 s : (length s ≤ f1)%nat → (length s ≤ f2)%nat → header_line f1 s = header_line f2 s.
Proof.
  intros H1 H2. unfold header_line.
  pose proof (span_length (λ c, isnt ":" c && isnt LF c) s) as Hlen.
  destruct (span (λ c, isnt ":" c && isnt LF c) s) as [name [|d rest]]; [done|]. cbn [fst snd] in Hlen.
  case_bool_decide; [done|].
  pose proof (span_length (λ c, is_space c && line_char c) rest) as Hlen1.
  destruct (span (λ c, is_space c && line_char c) rest) as [blanks rest1]. cbn [fst snd] in Hlen1.
  pose proof (span_length line_char rest1) as Hlen2.
  destruct (span line_char rest1) as [value rest2]. cbn [fst snd] in Hlen2.
  destruct (eol_text rest2) as [rest3|e] eqn:He; [|done]. apply eol_text_length in He. cbn [mbind result_bind].
  rewrite (folding_text_fuel f1 f2); [done|simpl in *; lia..].
Qed.

Definition parser_error (e : exn) : Prop :=
  e = PacketParserException "No colon found" ∨ e = PacketParserException "No CRLF found".

Lemma headers_text_safe fuel : ∀ s p, (length s < fuel)%nat →
  match headers_text fuel s p with Ok _ => True | Throw e => parser_error e end.
Proof.
  induction fuel as [|fuel IH]; intros s p Hf; [lia|]. cbn [headers_text]. destruct s as [|c s]; [done|].
  destruct (line_char c) eqn:Hc; [|done]. pose proof (header_line_spec fuel c s ltac:(simpl in *; lia) Hc) as Hline.
  destruct (header_line fuel (c :: s)) as [r|e]; [|exact Hline]. cbn [mbind result_bind]. apply IH. simpl in *. lia.
Qed.

(** * The parser over a buffer that ends with a zero *)

Section sentinel.
Context (container tail : str) (m_end : nat).

(** [m_current] stands before the text [s], and a zero stands behind the end of the data. *)
Definition at_text (cur : nat) (s : str) : Prop :=
  drop cur container = s ++ ZERO :: tail ∧ (cur + length s = m_end)%nat.

Lemma at_length cur s : at_text cur s → (length s < length container)%nat.
Proof. intros [Hd _]. apply (f_equal length) in Hd. rewrite length_drop, length_app in Hd. simpl in Hd. lia. Qed.

Lemma deref_at cur s : at_text cur s → deref container cur = (Ok (hd ZERO s), cur).
Proof.
  intros [Hd _]. unfold deref, get, lift, mbind, M_bind, index. f_equal.
  assert (container !! cur = Some (hd ZERO s)) as ->; [|done].
  rewrite <- (Nat.add_0_r cur), <- lookup_drop, Hd. by destruct s.
Qed.

Lemma end_at cur s : at_text cur s → (cur =? m_end)%nat = bool_decide (s = []).
Proof.
  intros [_ He]. destruct s as [|c s]; simpl in He.
  - rewrite bool_decide_true by done. apply Nat.eqb_eq. lia.
  - rewrite bool_decide_false by done. apply Nat.eqb_neq. lia.
Qed.

Lemma advance_at cur c s : at_text cur (c :: s) → at_text (S cur) s.
Proof.
  intros [Hd He]. split; [|simpl in He; lia]. rewrite <- Nat.add_1_r, <- drop_drop, Hd. done.
Qed.

Lemma take_while_at fuel p : ∀ text cur s, at_text cur s → (length s < fuel)%nat →
  ∃ cur', take_while container m_end fuel p text cur = (Ok (text ++ (span p s).1), cur') ∧ at_text cur' (span p s).2.
Proof.
  induction fuel as [|fuel IH]; intros text cur s Hat Hf; [lia|]. cbn [take_while].
  rewrite (bind_run get _ _ _ _ eq_refl), (end_at cur s) by done.
  destruct s as [|c s]; [exists cur; by rewrite bool_decide_true, app_nil_r|].
  rewrite bool_decide_false by done. rewrite (bind_run _ _ _ _ _ (deref_at cur (c :: s) Hat)). cbn [hd span].
  destruct (p c); [|exists cur; by rewrite app_nil_r].
  rewrite (bind_run advance _ _ _ _ eq_refl).
  destruct (IH (text ++ [c]) (S cur) s) as (cur' & Hrun & Hat'); [by apply (advance_at cur c)|simpl in Hf; lia|].
  exists cur'. rewrite Hrun. by rewrite <- app_assoc.
Qed.

Lemma the_fuel_at p text cur s : at_text cur s →
  ∃ cur', take_while container m_end (the_fuel container) p text cur = (Ok (text ++ (span p s).1), cur') ∧
          at_text cur' (span p s).2.
Proof. intros Hat. apply take_while_at; [done|]. apply at_length in Hat. unfold the_fuel. lia. Qed.

(** A step of the parser is the same step on the text. *)
Definition follows {A} (m : M nat A) (cur : nat) (r : result (A * str)) : Prop :=
  match r with
  | Ok (a, rest) => ∃ cur', m cur = (Ok a, cur') ∧ at_text cur' rest
  | Throw e => (m cur).1 = Throw e
  end.

(** The line feed of [end_of_line]. *)
Definition line_feed : M nat unit :=
  c ← deref container;
  if bool_decide (c = LF) then advance
  else cur ← get; if negb (cur =? m_end)%nat then throw (PacketParserException "No CRLF found") else mret tt.

Lemma line_feed_at cur s : at_text cur s → follows line_feed cur (pair tt <$> lf_text s).
Proof.
  intros Hat. unfold follows, line_feed, lf_text. rewrite (bind_run _ _ _ _ _ (deref_at cur s Hat)).
  destruct s as [|c s]; cbn [hd].
  - rewrite bool_decide_false by done. rewrite (bind_run get _ _ _ _ eq_refl), (end_at cur []) by done. by exists cur.
  - case_bool_decide; [exists (S cur); split; [done|by apply (advance_at cur c)]|].
    rewrite (bind_run get _ _ _ _ eq_refl), (end_at cur (c :: s)) by done. done.
Qed.

Lemma end_of_line_at cur s : at_text cur s → follows (end_of_line container m_end) cur (pair tt <$> eol_text s).
Proof.
  intros Hat. unfold follows, end_of_line. rewrite (bind_run _ _ _ _ _ (deref_at cur s Hat)).
  unfold eol_text. destruct s as [|c s]; cbn [hd].
  - rewrite bool_decide_false by done. exact (line_feed_at cur [] Hat).
  - case_bool_decide; [|exact (line_feed_at cur (c :: s) Hat)].
    exact (line_feed_at (S cur) s (advance_at cur c s Hat)).
Qed.

Lemma folding_at fuel : ∀ value cur s, at_text cur s →
  follows (folding container m_end fuel value) cur (folding_text fuel value s).
Proof.
  induction fuel as [|fuel IH]; intros value cur s Hat; [done|]. cbn [folding folding_text]. unfold follows.
  rewrite (bind_run _ _ _ _ _ (deref_at cur s Hat)).
  destruct s as [|c s]; cbn [hd]; [by exists cur|]. fold (is_blank c). destruct (is_blank c) eqn:Hb; [|by exists cur].
  destruct (the_fuel_at line_char value cur (c :: s) Hat) as (cur1 & Hrun & Hat1).
  rewrite (bind_run _ _ _ _ _ Hrun). pose proof (end_of_line_at cur1 _ Hat1) as Heol.
  destruct (eol_text _) as [rest|e]; cbn [fmap result_fmap mbind result_bind mret result_ret] in *; unfold follows in Heol.
  - destruct Heol as (cur2 & Hrun2 & Hat2). rewrite (bind_run _ _ _ _ _ Hrun2). apply IH, Hat2.
  - destruct (end_of_line container m_end cur1) as [o cur2] eqn:Ho. cbn [fst] in Heol. subst o.
    by rewrite (bind_throw _ _ _ _ _ Ho).
Qed.

Lemma parse_header_at cur s : at_text cur s →
  follows (parse_header container m_end) cur (header_line (the_fuel container) s).
Proof.
  intros Hat. unfold parse_header, header_line.
  destruct (the_fuel_at (λ c, isnt ":" c && isnt LF c) [] cur s Hat) as (cur1 & Hrun & Hat1).
  pose proof (span_stop (λ c, isnt ":" c && isnt LF c) s) as Hstop.
  destruct (span (λ c, isnt ":" c && isnt LF c) s) as [name rest]. cbn [fst snd app] in *.
  unfold follows. rewrite (bind_run _ _ _ _ _ Hrun), (bind_run _ _ _ _ _ (deref_at cur1 rest Hat1)).
  destruct rest as [|c rest]; cbn [hd]; [done|].
  case_bool_decide as Hlf; [exists (S cur1); split; [done|by apply (advance_at cur1 c)]|].
  assert (c = ":"%char) as ->.
  { specialize (Hstop c rest eq_refl). cbv beta in Hstop. apply andb_false_iff in Hstop as [H|H]; unfold isnt in H;
      apply negb_false_iff, bool_decide_eq_true in H; done. }
  rewrite bool_decide_true by done. cbn [negb].
  rewrite (bind_run get _ _ _ _ eq_refl), (end_at cur1 (":"%char :: rest)) by done.
  rewrite (bool_decide_false (_ :: _ = [])) by done. cbn [negb]. rewrite (bind_run (when true advance) _ _ _ _ eq_refl).
  apply advance_at in Hat1.
  destruct (the_fuel_at (λ c, is_space c && line_char c) [] (S cur1) rest Hat1) as (cur2 & Hrun2 & Hat2).
  destruct (span (λ c, is_space c && line_char c) rest) as [blanks rest2]. cbn [fst snd app] in *.
  rewrite (bind_run _ _ _ _ _ Hrun2).
  destruct (the_fuel_at line_char [] cur2 rest2 Hat2) as (cur3 & Hrun3 & Hat3).
  destruct (span line_char rest2) as [value rest3]. cbn [fst snd app] in *.
  rewrite (bind_run _ _ _ _ _ Hrun3). pose proof (end_of_line_at cur3 rest3 Hat3) as Heol.
  destruct (eol_text rest3) as [rest4|e]; cbn [fmap result_fmap mbind result_bind mret result_ret] in *; unfold follows in Heol.
  - destruct Heol as (cur4 & Hrun4 & Hat4). rewrite (bind_run _ _ _ _ _ Hrun4).
    pose proof (folding_at (the_fuel container) value cur4 rest4 Hat4) as Hfold.
    destruct (folding_text _ value rest4) as [[value' rest5]|e]; cbn [mbind result_bind mret result_ret] in *; unfold follows in Hfold.
    + destruct Hfold as (cur5 & Hrun5 & Hat5). exists cur5. by rewrite (bind_run _ _ _ _ _ Hrun5).
    + destruct (folding _ _ _ value cur4) as [o cur5] eqn:Ho. cbn [fst] in Hfold. subst o. by rewrite (bind_throw _ _ _ _ _ Ho).
  - destruct (end_of_line container m_end cur3) as [o cur4] eqn:Ho. cbn [fst] in Heol. subst o.
    by rewrite (bind_throw _ _ _ _ _ Ho).
Qed.

Lemma parse_headers_at fuel : ∀ f2 cur s p, at_text cur s → (length s < fuel)%nat → (length s < f2)%nat →
  match headers_text f2 s p with
  | Ok p' => ∃ cur' rest, parse_headers_loop container m_end fuel p cur = (Ok p', cur') ∧ at_text cur' rest
  | Throw e => (parse_headers_loop container m_end fuel p cur).1 = Throw e
  end.
Proof.
  induction fuel as [|fuel IH]; intros [|f2] cur s p Hat H1 H2; [lia..|]. cbn [parse_headers_loop headers_text].
  rewrite (bind_run get _ _ _ _ eq_refl), (end_at cur s) by done.
  destruct s as [|c s]; [rewrite bool_decide_true by done; by exists cur, []|].
  rewrite bool_decide_false by done. rewrite (bind_run _ _ _ _ _ (deref_at cur (c :: s) Hat)). cbn [hd].
  destruct (line_char c) eqn:Hc; [|by exists cur, (c :: s)].
  pose proof (parse_header_at cur (c :: s) Hat) as Hline. pose proof (at_length _ _ Hat) as Hle.
  rewrite (header_line_fuel (the_fuel container) f2) in Hline by (unfold the_fuel; simpl in *; lia).
  pose proof (header_line_spec f2 c s ltac:(simpl in *; lia) Hc) as Hspec.
  destruct (header_line f2 (c :: s)) as [[h rest]|e]; cbn [mbind result_bind fst snd] in *; unfold follows in Hline.
  - destruct Hline as (cur1 & Hrun & Hat1). rewrite (bind_run _ _ _ _ _ Hrun). apply IH; [done|simpl in *; lia..].
  - destruct (parse_header container m_end cur) as [o cur1] eqn:Ho. cbn [fst] in Hline. subst o.
    by rewrite (bind_throw _ _ _ _ _ Ho).
Qed.

Lemma skip_at cur s : at_text cur s → ∃ cur', skip_spaces container m_end cur = (Ok tt, cur') ∧ at_text cur' (skip s).
Proof.
  intros Hat. destruct (the_fuel_at is_space [] cur s Hat) as (cur' & Hrun & Hat'). exists cur'.
  unfold skip_spaces. by rewrite (bind_run _ _ _ _ _ Hrun).
Qed.

Lemma token_at cur s : at_text cur s →
  ∃ cur', next_token container m_end cur = (Ok (token s).1, cur') ∧ at_text cur' (token s).2.
Proof. intros Hat. apply (the_fuel_at (λ c, negb (is_space c)) [] cur s Hat). Qed.

Lemma parse_at s : at_text 0 s → (parse container m_end 0%nat).1 = packet_text s.
Proof.
  intros Hat. unfold parse, packet_text.
  assert (parse_request_line container m_end 0%nat =
    (Ok (SsdpPacket_new (from_request_line_string (token (skip s)).1)), (parse_request_line container m_end 0%nat).2) ∧
    at_text (parse_request_line container m_end 0%nat).2 (skip (token (skip (token (skip (token (skip s)).2)).2)).2)) as [Hline Hat'].
  { unfold parse_request_line.
    destruct (skip_at _ _ Hat) as (c1 & R1 & A1). rewrite (bind_run _ _ _ _ _ R1).
    destruct (token_at _ _ A1) as (c2 & R2 & A2). rewrite (bind_run _ _ _ _ _ R2).
    destruct (skip_at _ _ A2) as (c3 & R3 & A3). rewrite (bind_run _ _ _ _ _ R3).
    destruct (token_at _ _ A3) as (c4 & R4 & A4). rewrite (bind_run _ _ _ _ _ R4).
    destruct (skip_at _ _ A4) as (c5 & R5 & A5). rewrite (bind_run _ _ _ _ _ R5).
    destruct (token_at _ _ A5) as (c6 & R6 & A6). rewrite (bind_run _ _ _ _ _ R6).
    destruct (skip_at _ _ A6) as (c7 & R7 & A7). rewrite (bind_run _ _ _ _ _ R7). done. }
  rewrite (bind_run _ _ _ _ _ Hline). destruct (token (skip s)) as [method s1]. cbn [fst snd] in *.
  set (s2 := skip _) in Hat'. set (p := SsdpPacket_new _). unfold parse_headers.
  pose proof (at_length _ _ Hat') as Hle.
  pose proof (parse_headers_at (the_fuel container) (S (length s2)) _ s2 p Hat' ltac:(unfold the_fuel; lia) ltac:(lia)) as H.
  fold s2. destruct (headers_text _ s2 p) as [p'|e].
  - destruct H as (cur' & rest & Hrun & Hat''). rewrite (bind_run _ _ _ _ _ Hrun).
    destruct (the_fuel_at (isnt LF) [] cur' rest Hat'') as (cur'' & Hrun2 & _). by rewrite (bind_run _ _ _ _ _ Hrun2).
  - destruct (parse_headers_loop _ _ _ p _) as [o cur'] eqn:Ho. cbn [fst] in H. subst o. by rewrite (bind_throw _ _ _ _ _ Ho).
Qed.

End sentinel.

(** Over data that a zero follows in the buffer the parser is a function of the data. *)
Theorem parse_reference data tail :
  parse_packet (data ++ ZERO :: tail) (length data) = packet_text data.
Proof.
  unfold parse_packet. rewrite (proj2 (Nat.ltb_ge _ _)) by (rewrite length_app; lia).
  by apply (parse_at _ tail).
Qed.

Lemma packet_text_safe data : match packet_text data with Ok _ => True | Throw e => parser_error e end.
Proof. unfold packet_text. destruct (token (skip data)) as [m s1]. apply headers_text_safe. lia. Qed.

(** C40: whatever a datagram holds, as long as it is shorter than the buffer that [receive_packet]
    filled with zeros, the parser returns a packet or throws its own exception: it does not read
    past the buffer and it ends. *)
Theorem packet_parse_safe data tail :
  match parse_packet (data ++ ZERO :: tail) (length data) with Ok _ => True | Throw e => parser_error e end.
Proof. rewrite parse_reference. apply packet_text_safe. Qed.

(** A datagram of the size of the buffer is read past its end. *)
Theorem full_buffer_overread :
  let data := lit "NOTIFY * HTTP/1.1" ++ CRLF ++ lit "NTS" in
  parse_packet data (length data) = Throw undefined_behaviour.
Proof. vm_compute. reflexivity. Qed.

(** A blank behind the end of the data keeps the parser in the loop over folded lines. *)
Theorem blank_behind_end_never_ends container m_end fuel value :
  container !! m_end = Some " "%char → folding container m_end fuel value m_end = (Throw out_of_fuel, m_end).
Proof.
  intros Hc. assert (deref container m_end = (Ok " "%char, m_end)) as Hd.
  { unfold deref, get, lift, mbind, M_bind, index. by rewrite Hc. }
  induction fuel as [|fuel IH]; [done|]. cbn [folding]. rewrite (bind_run _ _ _ _ _ Hd).
  assert (take_while container m_end (the_fuel container) line_char value m_end = (Ok value, m_end)) as Ht.
  { unfold the_fuel. cbn [take_while]. rewrite (bind_run get _ _ _ _ eq_refl). by rewrite Nat.eqb_refl. }
  cbn [orb bool_decide]. change (bool_decide (" "%char = " "%char) || _) with true. cbn iota.
  rewrite (bind_run _ _ _ _ _ Ht).
  assert (end_of_line container m_end m_end = (Ok tt, m_end)) as He.
  { unfold end_of_line. rewrite (bind_run _ _ _ _ _ Hd).
    change (when (bool_decide (" "%char = CR)) advance) with (mret tt : M nat unit).
    rewrite (bind_run (mret tt) _ _ _ _ eq_refl), (bind_run _ _ _ _ _ Hd).
    change (bool_decide (" "%char = LF)) with false. cbn iota.
    rewrite (bind_run get _ _ _ _ eq_refl). by rewrite Nat.eqb_refl. }
  by rewrite (bind_run _ _ _ _ _ He).
Qed.

(** * Reading back *)

Definition name_char (c : ascii) : bool := isnt ":" c && isnt LF c.

Definition starts_plain (s : str) : Prop := ∀ c s', s = c :: s' → is_space c = false.

Definition wf_header (h : str * str) : Prop :=
  (h.1 ≠ [] ∧ starts_plain h.1 ∧ Forall (λ c, name_char c = true) h.1) ∧
  starts_plain h.2 ∧ Forall (λ c, line_char c = true) h.2 ∧ trim_right h.2 = h.2.

Record wf_packet (p : SsdpPacket) : Prop := {
  wf_known : m_type p ≠ UNKNOWN;
  wf_distinct : distinct (m_headers p);
  wf_headers : Forall wf_header (m_headers p);
}.

Lemma span_none p c s : p c = false → span p (c :: s) = ([], c :: s).
Proof. intros Hc. cbn [span]. by rewrite Hc. Qed.

Lemma plain_not_blank c : is_space c = false → is_blank c = false.
Proof. unfold is_blank. intros Hc. repeat case_bool_decide; by subst. Qed.

Lemma plain_line_char c : is_space c = false → line_char c = true.
Proof. unfold line_char. intros Hc. apply andb_true_iff. split; unfold isnt; (rewrite bool_decide_false; [done|by intros ->]). Qed.

Lemma header_line_text fuel h rest : (0 < fuel)%nat → wf_header h → (∀ c s', rest = c :: s' → is_blank c = false) →
  header_line fuel (header_text h ++ rest) = Ok (Some h, rest).
Proof.
  intros Hf ((Hne & Hplain & Hname) & Hstart & Hline & Htrim) Hrest. destruct h as [n v]. cbn [fst snd] in *.
  unfold header_line, header_text. cbn [fst snd]. rewrite <- !app_assoc. cbn [app]. rewrite <- !app_assoc.
  rewrite (span_app (λ c, isnt ":" c && isnt LF c)); [|done|by intros c ys [= <- _]].
  rewrite bool_decide_false by done.
  assert (span (λ c, is_space c && line_char c) (v ++ CRLF ++ rest) = ([], v ++ CRLF ++ rest)) as ->.
  { destruct v as [|c v]; [by apply span_none|]. cbn [app]. apply span_none. by rewrite (Hstart c v). }
  rewrite (span_app line_char v); [|done|by intros c ys [= <- _]].
  cbn [CRLF app]. unfold eol_text, lf_text. rewrite (bool_decide_true (CR = CR)), (bool_decide_true (LF = LF)) by done.
  cbn [mbind result_bind mret result_ret]. destruct fuel as [|fuel]; [lia|]. cbn [folding_text].
  destruct rest as [|c rest]; [|rewrite (Hrest c rest eq_refl)]; cbn [mbind result_bind mret result_ret fst snd]; by rewrite Htrim.
Qed.

Lemma headers_text_run hs : ∀ fuel p, (length hs < fuel)%nat → Forall wf_header hs → distinct (m_headers p ++ hs) →
  headers_text fuel (concat (header_text <$> hs) ++ CRLF) p = Ok (mkPacket (m_type p) (m_headers p ++ hs)).
Proof.
  induction hs as [|h hs IH]; intros fuel p Hf Hwf Hd; destruct fuel as [|fuel]; [simpl in Hf; lia..| |simpl in Hf; lia|].
  - cbn. rewrite app_nil_r. by destruct p.
  - apply list.Forall_cons in Hwf as [Hh Hwf]. pose proof Hh as ((Hne & Hplain & _) & _).
    cbn [fmap list_fmap concat]. rewrite <- app_assoc.
    assert (∃ c s, header_text h ++ concat (header_text <$> hs) ++ CRLF = c :: s ∧ line_char c = true) as (c & s & Hcs & Hc).
    { unfold header_text. destruct (h.1) as [|c n] eqn:Hn; [done|]. do 2 eexists. split; [reflexivity|].
      by apply plain_line_char, (Hplain c n). }
    cbn [headers_text]. rewrite Hcs, Hc, <- Hcs. rewrite header_line_text; [|simpl in Hf; lia|done|].
    + cbn [mbind result_bind fst snd]. destruct h as [n v].
      assert (set_header n v p = mkPacket (m_type p) (m_headers p ++ [(n, v)])) as Hset.
      { unfold set_header. unfold distinct in Hd. rewrite fmap_app in Hd. apply pairwise_app in Hd as (_ & _ & Hd).
        assert (find n (m_headers p) = None) as ->; [|done]. apply find_None. eapply list.Forall_impl; [exact Hd|].
        intros m Hm. by apply list.Forall_cons in Hm as [? _]. }
      rewrite Hset, IH; [|simpl in Hf; lia|done|by cbn [m_headers]; rewrite <- app_assoc].
      cbn [m_type m_headers]. by rewrite <- app_assoc.
    + intros d s' E. destruct hs as [|h' hs']; [by injection E as <- _|].
      apply list.Forall_cons in Hwf as [((Hne' & Hplain' & _) & _) _]. unfold header_text in E. cbn [fmap list_fmap concat] in E.
      destruct (h'.1) as [|c' n'] eqn:Hn'; [done|]. injection E as <- _. by apply plain_not_blank, (Hplain' c' n').
Qed.

Lemma skip_plain c s : is_space c = false → skip (c :: s) = c :: s.
Proof. intros Hc. unfold skip. by rewrite span_none. Qed.

Lemma length_headers hs : Forall wf_header hs → (length hs ≤ length (concat (header_text <$> hs)))%nat.
Proof.
  induction 1 as [|h hs Hh _ IH]; [done|]. cbn [fmap list_fmap concat length]. rewrite length_app. unfold header_text at 1.
  rewrite length_app. simpl. lia.
Qed.

(** A text is read back to the packet that was printed. *)
Lemma packet_text_to_string p : wf_packet p → packet_text (packet_to_string p) = Ok p.
Proof.
  intros [Ht Hd Hh]. destruct p as [t hs]. cbn [m_type m_headers] in *.
  assert (packet_text (packet_to_string (mkPacket t hs)) =
    headers_text (S (length (skip (concat (header_text <$> hs) ++ CRLF)))) (skip (concat (header_text <$> hs) ++ CRLF))
      (SsdpPacket_new t)) as -> by (by destruct t).
  destruct hs as [|h hs]; [done|].
  assert (skip (concat (header_text <$> h :: hs) ++ CRLF) = concat (header_text <$> h :: hs) ++ CRLF) as ->.
  { pose proof Hh as [((Hne & Hplain & _) & _) _]%list.Forall_cons. cbn [fmap list_fmap concat]. unfold header_text at 1 3.
    destruct (h.1) as [|c n] eqn:Hn; [done|]. cbn [app]. by apply skip_plain, (Hplain c n). }
  rewrite headers_text_run; [done| |done|done]. rewrite length_app. pose proof (length_headers _ Hh). lia.
Qed.

(** A packet that was printed into a datagram shorter than the buffer is parsed back: the same
    type and the same headers in the same order. *)
Theorem packet_roundtrip p tail : wf_packet p →
  parse_packet (packet_to_string p ++ ZERO :: tail) (length (packet_to_string p)) = Ok p.
Proof. intros Hp. rewrite parse_reference. by apply packet_text_to_string. Qed.

(** * What the validators accept *)

Definition valid (p : SsdpPacket) : bool :=
  let has := λ name, bool_decide (is_Some (lookup_header name p)) in
  let located := has AL || has LOCATION in
  match m_type p with
  | NOTIFY =>
      has HOST && has NT && has USN &&
      (bool_decide (lookup_header NTS p = Some SSDP_ALIVE_STR) && has CACHE_CONTROL && located
       || bool_decide (lookup_header NTS p = Some SSDP_BYEBYE_STR))
  | SEARCH_REQUEST =>
      bool_decide (default [] (lookup_header NTS p) = []) && has HOST && has ST && has MX &&
      bool_decide (lookup_header MAN p = Some SSDP_DISCOVER)
  | SEARCH_RESPONSE =>
      bool_decide (default [] (lookup_header NTS p) = []) && has CACHE_CONTROL && has ST && has USN && located
  | UNKNOWN => false
  end.

(** The validator of a packet is chosen by its type and its NTS header; it accepts exactly the
    packets with the headers of their kind and it does not throw. *)
Theorem validate_exact p : validate_ssdp_packet p = Ok (valid p).
Proof.
  unfold validate_ssdp_packet, key_of, valid, create_validators_map.
  destruct p as [t hs]. cbn [m_type]. set (p := mkPacket t hs).
  assert (∀ n, has_header n p = bool_decide (is_Some (lookup_header n p))) as Hhas by (intros n; apply has_header_lookup).
  destruct t.
  - cbn [list_find fst]. destruct (lookup_header NTS p) as [nts|] eqn:Hnts; cbn [default from_option id].
    + destruct (decide (nts = SSDP_ALIVE_STR)) as [->|Ha]; [|destruct (decide (nts = SSDP_BYEBYE_STR)) as [->|Hb]].
      * rewrite decide_True by done. unfold SsdpAlivePacketValidator, SsdpNotifyPacketValidator, get_header.
        rewrite !Hhas, Hnts. cbn. by repeat case_bool_decide.
      * rewrite decide_False, decide_True by done. cbn [fmap option_fmap option_map prod_map id fst snd].
        unfold SsdpByeByePacketValidator, SsdpNotifyPacketValidator, get_header. rewrite !Hhas, Hnts. cbn. by repeat case_bool_decide.
      * rewrite !decide_False by congruence. cbn [fmap option_fmap option_map prod_map id fst snd].
        rewrite !(bool_decide_false (Some nts = _)) by congruence. cbn [andb orb]. by rewrite andb_false_r.
    + rewrite !decide_False by done. cbn [fmap option_fmap option_map prod_map id fst snd].
      rewrite !(bool_decide_false (None = _)) by done. cbn [andb orb]. by rewrite andb_false_r.
  - cbn [list_find fst]. rewrite !(decide_False (P := mkKey NOTIFY _ = _)) by done.
    destruct (decide (default [] (lookup_header NTS p) = [])) as [E|E].
    + rewrite E, decide_True by done. cbn [fmap option_fmap option_map prod_map id fst snd]. rewrite (bool_decide_true ([] = [])) by done.
      unfold SsdpSearchRequestPacketValidator, get_header. rewrite !Hhas. cbn [m_type p].
      rewrite (bool_decide_true (SEARCH_REQUEST = SEARCH_REQUEST)) by done.
      destruct (lookup_header MAN p) as [man|].
      * destruct (bool_decide (is_Some (lookup_header HOST p))), (bool_decide (is_Some (lookup_header ST p))),
          (bool_decide (is_Some (lookup_header MX p))); cbn; repeat case_bool_decide; naive_solver.
      * rewrite (bool_decide_false (is_Some None)) by (by intros [? ?]). rewrite (bool_decide_false (None = _)) by done.
        rewrite !andb_false_r. by rewrite orb_true_r.
    + rewrite (bool_decide_false (_ = [])) by done. rewrite !decide_False by congruence. done.
  - cbn [list_find fst]. rewrite !(decide_False (P := mkKey NOTIFY _ = _)) by done.
    rewrite (decide_False (P := mkKey SEARCH_REQUEST _ = _)) by done.
    destruct (decide (default [] (lookup_header NTS p) = [])) as [E|E].
    + rewrite E, decide_True by done. cbn [fmap option_fmap option_map prod_map id fst snd]. rewrite (bool_decide_true ([] = [])) by done.
      unfold SsdpSearchResponsePacketValidator. rewrite !Hhas. cbn [m_type p].
      rewrite (bool_decide_true (SEARCH_RESPONSE = SEARCH_RESPONSE)) by done.
      destruct (bool_decide (is_Some (lookup_header CACHE_CONTROL p))), (bool_decide (is_Some (lookup_header ST p))),
        (bool_decide (is_Some (lookup_header USN p))), (bool_decide (is_Some (lookup_header AL p))),
        (bool_decide (is_Some (lookup_header LOCATION p))); done.
    + rewrite (bool_decide_false (_ = [])) by done. rewrite !decide_False by congruence. done.
  - cbn [list_find fst]. by rewrite !decide_False.
Qed.

(** * The packets of the factory *)

Definition plain (s : str) : Prop := Forall (λ c, is_space c = false) s.

Lemma trim_right_plain s : plain s → trim_right s = s.
Proof.
  induction 1 as [|c s Hc Hs IH]; [done|]. cbn [trim_right]. rewrite IH. destruct s; [by rewrite Hc|done].
Qed.

Lemma plain_header n v : n ≠ [] → plain n → Forall (λ c, name_char c = true) n → plain v → wf_header (n, v).
Proof.
  intros Hne Hn Hname Hv. split; [split_and!; [done| |done]|split_and!].
  - cbn [fst]. intros c s' E. rewrite E in Hn. by apply list.Forall_cons in Hn as [? _].
  - cbn [snd]. intros c s' E. rewrite E in Hv. by apply list.Forall_cons in Hv as [? _].
  - eapply list.Forall_impl; [exact Hv|]. intros c. apply plain_line_char.
  - by apply trim_right_plain.
Qed.

Lemma set_header_wf n v p : wf_header (n, v) → wf_packet p → wf_packet (set_header n v p).
Proof.
  intros Hh [Hk Hd Hw]. split; [done|by apply set_header_distinct|].
  unfold set_header. cbn [m_headers]. destruct (find n (m_headers p)) as [i|].
  - apply Forall_alter; [done|]. intros [m w] _ (Hm & _). split; [exact Hm|apply Hh].
  - apply Forall_app_2; [done|]. by apply Forall_singleton.
Qed.

Lemma plain_app s1 s2 : plain s1 → plain s2 → plain (s1 ++ s2).
Proof. apply Forall_app_2. Qed.

Definition plainb (s : str) : bool := forallb (λ c, negb (is_space c)) s.

Lemma plainb_plain s : plainb s = true → plain s.
Proof.
  intros H. apply Is_true_true, forallb_True in H. eapply list.Forall_impl; [exact H|].
  intros c Hc%Is_true_true%negb_true_iff. done.
Qed.

(** The names of the headers of the program are checked one by one. *)
Definition good_name (n : str) : bool := negb (bool_decide (n = [])) && plainb n && forallb name_char n.

Lemma named_header n v : good_name n = true → plain v → wf_header (n, v).
Proof.
  intros [[Hne Hn]%andb_prop Hc]%andb_prop Hv. apply plain_header; [|by apply plainb_plain| |done].
  - by apply negb_true_iff, bool_decide_eq_false in Hne.
  - apply Is_true_true, forallb_True in Hc. eapply list.Forall_impl; [exact Hc|]. intros c Hc'. by apply Is_true_true.
Qed.

Lemma to_string_plain v : 0 <= v < 2 ^ 64 → plain (to_string v).
Proof.
  intros Hv. eapply list.Forall_impl.
  - apply (to_string_chars (λ c, negb (is_space c))); [by apply digits_free|exact Hv].
  - by intros c Hc%negb_true_iff.
Qed.

Lemma address_char_plain f c : address_char f c = true → is_space c = false.
Proof.
  destruct c as [b0 b1 b2 b3 b4 b5 b6 b7], f, b0, b1, b2, b3, b4, b5, b6, b7; try done; vm_compute; intros; congruence.
Qed.

Lemma ip_text_plain `{HI : InetTextLaws} a : wf_ip a → plain (ip_to_string a).
Proof.
  intros Ha. destruct (ip_text a Ha) as (_ & _ & Hc). eapply list.Forall_impl; [exact Hc|].
  intros c. apply address_char_plain.
Qed.

Record wf_config (c : SsdpServiceConfig) : Prop := {
  wf_uuid : plain (m_service_uuid c);
  wf_urn : plain (m_service_urn c);
  wf_url : plain (m_service_url c);
  wf_interval : 0 <= m_announce_interval c < 2 ^ 62;
}.

Lemma wf_new t : t ≠ UNKNOWN → wf_packet (SsdpPacket_new t).
Proof. intros Ht. split; [done|done|constructor]. Qed.

Section factory_laws.
Context {I : InetText} {HI : InetTextLaws I} (config : SsdpServiceConfig) (Hconfig : wf_config config).

Lemma usn_plain : plain (build_usn config).
Proof. destruct Hconfig. unfold build_usn. repeat apply plain_app; try done; by apply plainb_plain. Qed.

Lemma cache_control_plain : plain (build_cache_control config).
Proof.
  destruct Hconfig as [_ _ _ Hi]. unfold build_cache_control. apply plain_app; [by apply plainb_plain|].
  rewrite Z.shiftl_mul_pow2 by lia. unfold to_string_signed. rewrite (proj2 (Z.ltb_ge _ _)) by lia.
  apply to_string_plain. lia.
Qed.

Lemma mcast_plain : plain (socket_to_string SSDP_MCAST_ADDRESS).
Proof.
  unfold socket_to_string, SSDP_MCAST_ADDRESS. cbn [m_family]. apply plain_app.
  - apply ip_text_plain. split_and!; [done|done|]. by repeat constructor.
  - constructor; [done|]. apply to_string_plain. lia.
Qed.

Lemma prototypes_wf : Forall (λ e, wf_packet e.2) (prototypes config).
Proof.
  pose proof usn_plain. pose proof cache_control_plain. pose proof mcast_plain. destruct Hconfig.
  assert (∀ s, plainb s = true → plain s) by apply plainb_plain.
  unfold prototypes. repeat first [apply Forall_nil_2 | apply Forall_cons_2]; cbn [snd]; unfold create_ssdp_alive, create_ssdp_byebye,
    create_ssdp_search_request, create_ssdp_search_reply;
    repeat (apply set_header_wf; [apply named_header; [reflexivity|by auto]|]); by apply wf_new.
Qed.

(** Every packet the factory creates is well formed, so it survives the wire, and valid. *)
Theorem factory_packets_valid key p : create_ssdp_packet config key = Ok p →
  wf_packet p ∧ validate_ssdp_packet p = Ok true.
Proof.
  unfold create_ssdp_packet. destruct (list_find _ _) as [[i [k q]]|] eqn:Hf; [|done]. intros [= <-].
  apply list_find_Some in Hf as (Hi & _ & _). split.
  - pose proof prototypes_wf as Hall. apply (Forall_lookup_1 _ _ _ _ Hall Hi).
  - rewrite validate_exact. f_equal. apply list_elem_of_lookup_2 in Hi. unfold prototypes in Hi.
    rewrite !elem_of_cons, elem_of_nil in Hi. by destruct_or! Hi; simplify_eq.
Qed.

End factory_laws.

End SsdpPacket.
