(* ===== verification/SsdpQueue.v ===== *)
(** The queue of scheduled messages and the notifications of the SSDP service
    (PSME/common/ssdp: message_queue.hpp, message_queue.cpp and notification.cpp).

    The sockets of the process and the steady clock, in milliseconds, are the class [Sockets] over
    a world [W].  A socket is named by a number.  The queue is a [std::multimap], a list sorted by
    time in which a new entry comes after the entries of the same time.

    Theorems: every operation keeps the queue sorted; a run of [send_ready_messages] completes or
    keeps every message, and only completes messages that were ready ([send_ready_accounts]);
    [select_ready_messages] followed by it sends, over reliable sockets, exactly the messages that
    are due, in the order of their times ([due_messages_are_sent]), and gives a timeout that does
    not sleep over the next message ([select_timeout]); notifications are read back from their
    bytes ([network_change_roundtrip]) and an overlong number is undefined ([overlong_number]). *)

From Stdlib Require Import ZArith Lia Ascii Sorted.
From S2P Require Import Prelude Database Net.
Import Database Net.

Local Open Scope Z_scope.

Module SsdpQueue.

(** * Sockets *)

Inductive send_outcome := Sent (bytes : Z) | NetError (code : Z).

Definition EINTR : Z := 4.
Definition EAGAIN : Z := 11.
Definition EWOULDBLOCK : Z := 11.

Class Sockets (W : Type) := {
  send_to : nat → str → SocketAddress → W → send_outcome * W;
  now : W → Z;
}.

(** * Messages *)

Inductive State := READY_TO_SEND | WAIT_READY | SCHEDULED.

#[export] Instance State_eq_dec : EqDecision State.
Proof. solve_decision. Defined.

Record ScheduledMessage := mkMessage {
  m_state : State;
  m_sender : nat;
  m_receiver : SocketAddress;
  m_payload : str;
}.

(** The constructor: a message starts as scheduled. *)
Definition ScheduledMessage_new (sender : nat) (receiver : SocketAddress) (payload : str) : ScheduledMessage :=
  mkMessage SCHEDULED sender receiver payload.

Definition update_state (s : State) (m : ScheduledMessage) : ScheduledMessage :=
  mkMessage s (m_sender m) (m_receiver m) (m_payload m).

Definition is_ready_to_send (writable : list nat) (m : ScheduledMessage) : bool :=
  bool_decide (m_state m = READY_TO_SEND) ||
  (bool_decide (m_state m = WAIT_READY) && bool_decide (m_sender m ∈ writable)).

Definition is_scheduled (m : ScheduledMessage) : bool := bool_decide (m_state m = SCHEDULED).

(** [MessageQueue::m_scheduled_msgs] *)
Abbreviation Queue := (list (Z * ScheduledMessage)).

(** [multimap::emplace] *)
Fixpoint emplace (k : Z) (m : ScheduledMessage) (q : Queue) : Queue :=
  match q with
  | [] => [(k, m)]
  | (k', m') :: q' => if k <? k' then (k, m) :: q else (k', m') :: emplace k m q'
  end.

Section queue.
Context {W : Type} {S : Sockets W}.

(** [try_send]: the result, the message with its new state and the world. *)
Definition try_send (m : ScheduledMessage) (w : W) : Z * ScheduledMessage * W :=
  match send_to (m_sender m) (m_payload m) (m_receiver m) w with
  | (Sent bytes, w') => (bytes, m, w')
  | (NetError code, w') =>
      if (EWOULDBLOCK =? code) || (EAGAIN =? code) then (0, update_state WAIT_READY m, w')
      else if EINTR =? code then (0, update_state READY_TO_SEND m, w')
      else (-1, m, w')
  end.

Definition enqueue (msg : ScheduledMessage) (delay : Z) (s : Queue * W) : Queue * W :=
  (emplace (now s.2 + delay) msg s.1, s.2).

Definition send_or_enqueue (msg : ScheduledMessage) (delay : Z) (s : Queue * W) : Queue * W :=
  if delay =? 0 then
    let '(rc, msg, w) := try_send msg s.2 in
    if negb (rc =? 0) then (s.1, w) else enqueue msg delay (s.1, w)
  else enqueue msg delay s.

(** The entries up to [upper_bound(now)] and the others. *)
Definition due (time : Z) (q : Queue) : Queue := filter (λ e, e.1 <= time) q.
Definition later (time : Z) (q : Queue) : Queue := filter (λ e, ¬ e.1 <= time) q.

Fixpoint up_to (time : Z) (q : Queue) : Queue * Queue :=
  match q with
  | [] => ([], [])
  | e :: q' => if e.1 <=? time then (e :: (up_to time q').1, (up_to time q').2) else ([], q)
  end.

(** The update of one entry that is due: its sender if it waits for it. *)
Definition ready (e : Z * ScheduledMessage) : Z * ScheduledMessage :=
  if bool_decide (m_state e.2 = WAIT_READY) then e else (e.1, update_state READY_TO_SEND e.2).

Definition waiting (q : Queue) : list nat := (λ e, m_sender e.2) <$> filter (λ e, m_state e.2 = WAIT_READY) q.

(** [select_ready_messages]: the queue, the writable sockets and the timeout. *)
Definition select_ready_messages (writable : list nat) (time timeout : Z) (q : Queue) : Queue * list nat * Z :=
  match q with
  | [] => ([], writable, timeout)
  | _ :: _ =>
      let '(front, back) := up_to time q in
      let timeout :=
        match front, back with
        | _ :: _, _ => 0
        | [], e :: _ => if e.1 - time <? timeout then e.1 - time else timeout
        | [], [] => timeout
        end in
      ((ready <$> front) ++ back, writable ++ waiting front, timeout)
  end.

Fixpoint send_ready_messages (writable : list nat) (q : Queue) (w : W) : Queue * W :=
  match q with
  | [] => ([], w)
  | (k, msg) :: q' =>
      if is_ready_to_send writable msg then
        let '(rc, msg, w) := try_send msg w in
        let '(q', w) := send_ready_messages writable q' w in
        if negb (rc =? 0) then (q', w) else ((k, msg) :: q', w)
      else if is_scheduled msg then (q, w)
      else let '(q', w) := send_ready_messages writable q' w in ((k, msg) :: q', w)
  end.

End queue.

(** * Notifications *)

Definition VALUE_BITS : Z := 7.
Definition VALUE_MASK : Z := 0x7F.
Definition NEXT_BYTE_FLAG : Z := 0x80.

(** [encode_int] of a [uint32_t], whose five groups of seven bits bound the loop. *)
Fixpoint encode_loop (fuel : nat) (value : Z) (output : list Z) : list Z :=
  match fuel with
  | O => output ++ [Z.land value VALUE_MASK]
  | S fuel' =>
      if VALUE_MASK <? value then
        encode_loop fuel' (Z.shiftr value VALUE_BITS) (output ++ [Z.lor (Z.land value VALUE_MASK) NEXT_BYTE_FLAG])
      else output ++ [Z.land value VALUE_MASK]
  end.

Definition encode_int (value : Z) (output : list Z) : list Z := encode_loop 4 value output.

(** [decode_int]: the value and the number of bytes; a shift of an [int] by its width or more is
    undefined. *)
Fixpoint decode_loop (input : list Z) (i : Z) (value : Z) : result (Z * Z) :=
  match input with
  | [] => mret (value, i)
  | b :: input' =>
      if 32 <=? VALUE_BITS * i then Throw undefined_behaviour
      else
        let value := Z.lor value (wrap 32 (Z.shiftl (Z.land b VALUE_MASK) (VALUE_BITS * i))) in
        if Z.land b NEXT_BYTE_FLAG =? 0 then mret (value, i + 1) else decode_loop input' (i + 1) value
  end.

Definition decode_int (input : list Z) : result (Z * Z) := decode_loop input 0 0.

Definition NETWORK_CHANGE : Z := 0.
Definition SHUT_DOWN : Z := 1.
Definition MAX_SERIALIZED_SIZE : nat := 255.

(** [net::NetworkChangeNotifier::ChangeType] by its value. *)
Definition ChangeType : Type := Z.

Definition deserialization_error : exn := runtime_error "Notification deserialization failed.".

Definition ShutDownNotification_serialize : list Z := [SHUT_DOWN].

Definition ShutDownNotification_deserialize (bytes : list Z) (length_ : nat) : result unit :=
  match bytes with
  | [] => Throw deserialization_error
  | b :: _ =>
      if (length bytes <? length_)%nat || negb (b =? SHUT_DOWN) then Throw deserialization_error else mret tt
  end.

Definition NetworkChangeNotification_serialize (iface_index : Z) (change_type : ChangeType) : list Z :=
  encode_int iface_index [NETWORK_CHANGE] ++ [change_type].

Definition NetworkChangeNotification_deserialize (bytes : list Z) (length_ : nat) : result (Z * ChangeType) :=
  match bytes with
  | [] => Throw deserialization_error
  | b :: _ =>
      if (length bytes <? length_)%nat || negb (b =? NETWORK_CHANGE) then Throw deserialization_error
      else if (length_ <=? 1)%nat then Throw deserialization_error
      else
        r ← decode_int (slice 1 (length_ - 1) bytes);
        let idx := (1 + Z.to_nat r.2)%nat in
        if (length_ <=? idx)%nat then Throw deserialization_error
        else change_type ← index bytes idx; mret (r.1, change_type)
  end.

(** * The queue stays sorted *)

Definition before (a b : Z * ScheduledMessage) : Prop := a.1 <= b.1.

Abbreviation sorted := (StronglySorted before).

Lemma emplace_perm k m q : emplace k m q ≡ₚ (k, m) :: q.
Proof.
  induction q as [|[k' m'] q IH]; cbn [emplace]; [done|]. destruct (k <? k'); [done|]. rewrite IH. apply Permutation_swap.
Qed.

Lemma emplace_sorted k m q : sorted q → sorted (emplace k m q).
Proof.
  induction 1 as [|[k' m'] q Hq IH Hall]; cbn [emplace]; [by repeat constructor|].
  destruct (Z.ltb_spec k k').
  - constructor; [by constructor|]. constructor; [unfold before; simpl; lia|].
    eapply list.Forall_impl; [exact Hall|]. unfold before. simpl. lia.
  - constructor; [done|]. rewrite emplace_perm. constructor; [unfold before; simpl; lia|done].
Qed.

(** The same message, whatever its state. *)
Definition core (e : Z * ScheduledMessage) : Z * nat * SocketAddress * str :=
  (e.1, m_sender e.2, m_receiver e.2, m_payload e.2).

Lemma sorted_core q q' : core <$> q = core <$> q' → sorted q → sorted q'.
Proof.
  intros Hc Hq. revert q' Hc. induction Hq as [|e q Hq IH Hall]; intros [|e' q'] Hc; [constructor|done..|].
  cbn [fmap list_fmap] in Hc. injection Hc as Hk Hs Hr Hp Hc. constructor; [by apply IH|].
  apply list.Forall_forall. intros x Hx. assert (core x ∈ core <$> q) as (y & Hy & Hyq)%list_elem_of_fmap
    by (rewrite Hc; by apply list_elem_of_fmap_2).
  rewrite list.Forall_forall in Hall. specialize (Hall y Hyq). unfold before in *. unfold core in Hy.
  injection Hy as Hy _ _ _. by rewrite <- Hk, Hy.
Qed.

Lemma sorted_sublist q q' : sublist q q' → sorted q' → sorted q.
Proof.
  induction 1 as [|e q q' Hs IH|e q q' Hs IH]; intros Hq; [done| |].
  - apply StronglySorted_inv in Hq as [Hq Hall]. constructor; [by apply IH|].
    eapply Forall_sublist; [exact Hs|exact Hall].
  - apply StronglySorted_inv in Hq as [Hq _]. by apply IH.
Qed.

Lemma up_to_sorted time q : sorted q → up_to time q = (due time q, later time q).
Proof.
  induction 1 as [|e q Hq IH Hall]; [done|]. cbn [up_to]. unfold due, later in *. rewrite !filter_cons.
  destruct (Z.leb_spec e.1 time) as [Hle|Hgt].
  - rewrite IH. rewrite decide_True, decide_False by lia. done.
  - rewrite decide_False, decide_True by lia.
    assert (Forall (λ x, ¬ x.1 <= time) q) as Hlate.
    { eapply list.Forall_impl; [exact Hall|]. unfold before. intros x Hx. lia. }
    by rewrite (filter_nothing (λ x, x.1 <= time)), (filter_all (λ x, ¬ x.1 <= time)).
Qed.

Lemma due_later time q : sorted q → due time q ++ later time q = q.
Proof.
  induction 1 as [|e q Hq IH Hall]; [done|]. unfold due, later in *. rewrite !filter_cons.
  destruct (decide (e.1 <= time)) as [Hle|Hgt].
  - rewrite decide_False by tauto. cbn [app]. by rewrite IH.
  - rewrite decide_True by done.
    assert (Forall (λ x, ¬ x.1 <= time) q) as Hlate.
    { eapply list.Forall_impl; [exact Hall|]. unfold before. intros x Hx. lia. }
    by rewrite (filter_nothing (λ x, x.1 <= time)), (filter_all (λ x, ¬ x.1 <= time)).
Qed.

Lemma ready_core (q : Queue) : core <$> (ready <$> q) = core <$> q.
Proof.
  rewrite <- list_fmap_compose. apply list_fmap_ext. intros _ e _. unfold compose, ready. by case_bool_decide.
Qed.

(** [select_ready_messages] only changes states. *)
Lemma select_core writable time timeout q : sorted q →
  core <$> (select_ready_messages writable time timeout q).1.1 = core <$> q.
Proof.
  intros Hq. unfold select_ready_messages. destruct q as [|e q]; [done|]. rewrite up_to_sorted by done.
  cbn [fst snd]. rewrite fmap_app, ready_core, <- fmap_app. by rewrite due_later.
Qed.

(** The timeout of [select]: nothing if a message is due, and not longer than until the next one. *)
Theorem select_timeout writable time timeout q : sorted q →
  (select_ready_messages writable time timeout q).2 =
    if bool_decide (due time q = []) then
      match later time q with e :: _ => Z.min timeout (e.1 - time) | [] => timeout end
    else 0.
Proof.
  intros Hq. unfold select_ready_messages. destruct q as [|e q]; [done|]. rewrite up_to_sorted by done.
  pose proof (due_later time (e :: q) Hq) as Hsplit.
  destruct (due time (e :: q)) as [|d ds]; cbn [snd]; [|done].
  destruct (later time (e :: q)) as [|l ls]; [done|]. cbn. destruct (Z.ltb_spec (l.1 - time) timeout); lia.
Qed.

Section sending.
Context {W : Type} {S : Sockets W}.

Lemma try_send_core m (w : W) k : core (k, (try_send m w).1.2) = core (k, m).
Proof. unfold try_send. destruct (send_to _ _ _ w) as [[n|c] w']; [done|]. by repeat case_match. Qed.

(** A run of [send_ready_messages] drops some messages, all of which were ready, and keeps the
    others in their order; nothing is lost and nothing is sent twice. *)
Theorem send_ready_accounts writable q : ∀ (w : W) q' w',
  send_ready_messages writable q w = (q', w') →
  ∃ completed, core <$> q ≡ₚ (core <$> completed) ++ (core <$> q') ∧
    Forall (λ e, is_ready_to_send writable e.2 = true) completed ∧ sublist (core <$> q') (core <$> q).
Proof.
  induction q as [|[k m] q IH]; intros w q' w'; cbn [send_ready_messages]; [intros [= <- <-]; by exists []|].
  destruct (is_ready_to_send writable m) eqn:Hready.
  - pose proof (try_send_core m w k) as Hcore. destruct (try_send m w) as [[rc m1] w1]. cbn [fst snd] in Hcore.
    destruct (send_ready_messages writable q w1) as [q1 w2] eqn:Hrun. destruct (IH w1 q1 w2 Hrun) as (done_ & Hp & Hr & Hs).
    destruct (negb (rc =? 0)); intros [= <- <-].
    + exists ((k, m) :: done_). cbn [fmap list_fmap app]. split_and!; [by rewrite Hp|by constructor|by constructor].
    + exists done_. cbn [fmap list_fmap]. rewrite Hcore. split_and!; [rewrite Hp; apply Permutation_middle|done|by constructor].
  - destruct (is_scheduled m); [intros [= <- <-]; by exists []|].
    destruct (send_ready_messages writable q w) as [q1 w2] eqn:Hrun. destruct (IH w q1 w2 Hrun) as (done_ & Hp & Hr & Hs).
    intros [= <- <-]. exists done_. cbn [fmap list_fmap]. split_and!; [rewrite Hp; apply Permutation_middle|done|by constructor].
Qed.

End sending.

(** * Reliable sockets *)

(** Sockets that take every datagram, with the log of what was sent. *)
Class Reliable (W : Type) {S : Sockets W} (log : W → list (nat * SocketAddress * str)) : Prop := {
  reliable_send s payload receiver (w : W) :
    ∃ w', send_to s payload receiver w = (Sent (Z.of_nat (length payload)), w') ∧
          log w' = log w ++ [(s, receiver, payload)];
}.

Definition datagram (e : Z * ScheduledMessage) : nat * SocketAddress * str := (m_sender e.2, m_receiver e.2, m_payload e.2).

Section reliable.
Context {W : Type} {S : Sockets W} {log : W → list (nat * SocketAddress * str)} {HR : Reliable W log}.

Lemma try_send_reliable m (w : W) : m_payload m ≠ [] →
  ∃ rc w', try_send m w = (rc, m, w') ∧ rc ≠ 0 ∧ log w' = log w ++ [(m_sender m, m_receiver m, m_payload m)].
Proof.
  intros Hp. destruct (reliable_send (m_sender m) (m_payload m) (m_receiver m) w) as (w' & Hs & Hl).
  exists (Z.of_nat (length (m_payload m))), w'. unfold try_send. rewrite Hs. split_and!; [done| |done].
  destruct (m_payload m); [done|]. simpl. lia.
Qed.

(** Messages that are ready are sent in their order, up to the first one that is scheduled. *)
Lemma send_ready_run writable front back : ∀ w : W,
  Forall (λ e, is_ready_to_send writable e.2 = true ∧ m_payload e.2 ≠ []) front →
  Forall (λ e, m_state e.2 = SCHEDULED) back →
  ∃ w', send_ready_messages writable (front ++ back) w = (back, w') ∧ log w' = log w ++ (datagram <$> front).
Proof.
  induction front as [|[k m] front IH]; intros w Hf Hb.
  - exists w. cbn [app fmap list_fmap]. rewrite app_nil_r. split; [|done].
    destruct back as [|[k m] back]; [done|]. apply list.Forall_cons in Hb as [Hm _]. cbn [snd] in Hm. cbn [send_ready_messages].
    assert (is_ready_to_send writable m = false) as ->.
    { unfold is_ready_to_send. rewrite Hm. by rewrite !bool_decide_false by done. }
    unfold is_scheduled. by rewrite Hm, bool_decide_true.
  - apply list.Forall_cons in Hf as [[Hr Hp] Hf]. cbn [snd] in *. cbn [app send_ready_messages]. rewrite Hr.
    destruct (try_send_reliable m w Hp) as (rc & w1 & -> & Hrc & Hl1). destruct (IH w1 Hf Hb) as (w2 & -> & Hl2).
    exists w2. rewrite (proj2 (Z.eqb_neq _ _) Hrc). cbn [negb]. split; [done|].
    rewrite Hl2, Hl1. cbn [fmap list_fmap]. by rewrite <- app_assoc.
Qed.

(** Over sockets that take every datagram, [select_ready_messages] followed by
    [send_ready_messages] sends exactly the messages whose time has come, in the order of their
    times, and keeps exactly the others. *)
Theorem due_messages_are_sent time timeout q (w : W) :
  sorted q → Forall (λ e, m_payload e.2 ≠ []) q → Forall (λ e, time < e.1 → m_state e.2 = SCHEDULED) q →
  let '(q1, writable, _) := select_ready_messages [] time timeout q in
  ∃ w', send_ready_messages writable q1 w = (later time q, w') ∧ log w' = log w ++ (datagram <$> due time q).
Proof.
  intros Hq Hp Hs. unfold select_ready_messages. destruct q as [|e0 q0] eqn:Eq; [exists w; cbn; by rewrite app_nil_r|].
  rewrite <- Eq in *. clear e0 q0 Eq. rewrite up_to_sorted by done. cbn [app].
  destruct (send_ready_run (waiting (due time q)) (ready <$> due time q) (later time q) w) as (w' & Hrun & Hlog).
  - apply list.Forall_fmap, list.Forall_forall. intros e He. unfold compose.
    split; [|rewrite list.Forall_forall in Hp; apply list_elem_of_filter in He as [_ He]; specialize (Hp e He);
      unfold ready; by case_bool_decide].
    unfold ready. destruct (bool_decide_reflect (m_state e.2 = WAIT_READY)) as [Hw|Hw]; [|done]. unfold is_ready_to_send.
    rewrite Hw. rewrite (bool_decide_true (WAIT_READY = WAIT_READY)) by done.
    rewrite (bool_decide_true (_ ∈ _)); [by rewrite orb_true_r|].
    unfold waiting. apply list_elem_of_fmap. exists e. split; [done|]. by apply list_elem_of_filter.
  - apply list.Forall_forall. intros e [Hlate He]%list_elem_of_filter. rewrite list.Forall_forall in Hs. apply Hs; [done|lia].
  - exists w'. rewrite Hrun, Hlog. split; [done|]. f_equal. rewrite <- list_fmap_compose. apply list_fmap_ext.
    intros _ e _. unfold compose, ready, datagram. by case_bool_decide.
Qed.

End reliable.

(** * Notifications are read back *)

(** The bytes of a number. *)
Fixpoint groups (fuel : nat) (v : Z) : list Z :=
  match fuel with
  | O => [Z.land v VALUE_MASK]
  | S fuel' =>
      if VALUE_MASK <? v then Z.lor (Z.land v VALUE_MASK) NEXT_BYTE_FLAG :: groups fuel' (Z.shiftr v VALUE_BITS)
      else [Z.land v VALUE_MASK]
  end.

Lemma encode_loop_groups fuel : ∀ v out, encode_loop fuel v out = out ++ groups fuel v.
Proof.
  induction fuel as [|fuel IH]; intros v out; cbn [encode_loop groups]; [done|]. destruct (VALUE_MASK <? v); [|done].
  by rewrite IH, <- app_assoc.
Qed.

(** Seven bits with and without the flag. *)
Definition group_ok (x : Z) : bool :=
  (Z.land (Z.lor x NEXT_BYTE_FLAG) VALUE_MASK =? x) && negb (Z.land (Z.lor x NEXT_BYTE_FLAG) NEXT_BYTE_FLAG =? 0) &&
  (Z.land x VALUE_MASK =? x) && (Z.land x NEXT_BYTE_FLAG =? 0).

Lemma group_checked x : 0 <= x < 128 → group_ok x = true.
Proof.
  intros Hx. assert (forallb group_ok (Z.of_nat <$> seq 0 128) = true) as Hall by (vm_compute; reflexivity).
  rewrite forallb_forall in Hall. apply Hall, list_elem_of_In, list_elem_of_fmap. exists (Z.to_nat x).
  split; [lia|]. apply elem_of_seq. lia.
Qed.

Lemma land_mask_mod v : Z.land v VALUE_MASK = v mod 128.
Proof. unfold VALUE_MASK. change 127 with (Z.ones 7). by rewrite Z.land_ones by lia. Qed.

(** One group is added to the value. *)
Lemma add_group value x i : 0 <= i → 0 <= value < 2 ^ (7 * i) → 0 <= x → x * 2 ^ (7 * i) < 2 ^ 32 →
  Z.lor value (wrap 32 (Z.shiftl x (VALUE_BITS * i))) = value + x * 2 ^ (7 * i).
Proof.
  intros Hi Hv Hx Hb. unfold VALUE_BITS. rewrite (wrap_small 32).
  - by apply lor_shiftl_add; [lia|].
  - rewrite Z.shiftl_mul_pow2 by lia. unfold in_range. nia.
Qed.

Lemma decode_groups fuel rest : ∀ v i value, 0 <= v < 2 ^ (7 * (Z.of_nat fuel + 1)) → 0 <= i → 7 * i < 32 →
  0 <= value < 2 ^ (7 * i) → v * 2 ^ (7 * i) < 2 ^ 32 →
  decode_loop (groups fuel v ++ rest) i value =
    Ok (value + v * 2 ^ (7 * i), i + Z.of_nat (length (groups fuel v))).
Proof.
  assert (∀ v i value tail, 0 <= v < 128 → 0 <= i → 7 * i < 32 → 0 <= value < 2 ^ (7 * i) → v * 2 ^ (7 * i) < 2 ^ 32 →
    decode_loop (Z.land v VALUE_MASK :: tail) i value = Ok (value + v * 2 ^ (7 * i), i + 1)) as Hlast.
  { intros v i value tail Hv Hi Hi2 Hval Hb. cbn [decode_loop].
    rewrite (proj2 (Z.leb_gt _ _)) by (unfold VALUE_BITS; lia).
    pose proof (group_checked v Hv) as [[[_ _]%andb_prop H3]%andb_prop H4]%andb_prop. apply Z.eqb_eq in H3.
    rewrite H3, H3, H4. rewrite add_group by lia. done. }
  induction fuel as [|fuel IH]; intros v i value Hv Hi Hi2 Hval Hb; cbn [groups app length].
  - apply Hlast; [zpow; simpl in Hv; lia|done..].
  - destruct (Z.ltb_spec VALUE_MASK v) as [Hbig|Hsmall]; [|apply Hlast; [unfold VALUE_MASK in Hsmall; lia|done..]].
    unfold VALUE_MASK in Hbig. cbn [app decode_loop length].
    pose proof (Z.mod_pos_bound v 128 ltac:(lia)) as Hm.
    assert (2 ^ (7 * (i + 1)) = 128 * 2 ^ (7 * i)) as Hpow.
    { replace (7 * (i + 1)) with (7 + 7 * i) by lia. rewrite Z.pow_add_r by lia. done. }
    pose proof (Z.pow_pos_nonneg 2 (7 * i) ltac:(lia) ltac:(lia)) as Hpos.
    pose proof (Z.div_mod v 128 ltac:(lia)) as Hdm.
    assert (7 * (i + 1) < 32) as Hi3.
    { apply (Z.pow_lt_mono_r_iff 2); [lia|lia|]. nia. }
    rewrite (proj2 (Z.leb_gt _ _)) by (unfold VALUE_BITS; lia). rewrite land_mask_mod.
    pose proof (group_checked (v mod 128) Hm) as [[[H1 H2]%andb_prop _]%andb_prop _]%andb_prop.
    apply Z.eqb_eq in H1. apply negb_true_iff in H2. rewrite H1, H2.
    rewrite add_group; [|lia|lia|lia|nia].
    unfold VALUE_BITS at 1 2. rewrite Z.shiftr_div_pow2 by lia. change (2 ^ 7) with 128.
    rewrite IH; [f_equal; f_equal; [rewrite Hpow; nia|lia]|split; [apply Z.div_pos; lia|]|lia|lia|nia|nia].
    apply Z.div_lt_upper_bound; [lia|]. destruct Hv as [_ Hv].
    replace (7 * (Z.of_nat (S fuel) + 1)) with (7 + 7 * (Z.of_nat fuel + 1)) in Hv by lia.
    rewrite Z.pow_add_r in Hv by lia. exact Hv.
Qed.

Lemma length_groups fuel : ∀ v, (1 ≤ length (groups fuel v) ≤ S fuel)%nat.
Proof.
  induction fuel as [|fuel IH]; intros v; cbn [groups length]; [lia|]. destruct (VALUE_MASK <? v); cbn [length]; [|lia].
  specialize (IH (Z.shiftr v VALUE_BITS)). lia.
Qed.

(** A change of an interface is read back from its bytes, whatever follows them in the buffer; it
    takes at most seven bytes of the 255. *)
Theorem network_change_roundtrip iface_index change_type tail : in_range 32 iface_index →
  let bytes := NetworkChangeNotification_serialize iface_index change_type in
  (length bytes ≤ 7)%nat ∧
  NetworkChangeNotification_deserialize (bytes ++ tail) (length bytes) = Ok (iface_index, change_type).
Proof.
  intros Hi. unfold NetworkChangeNotification_serialize, encode_int. rewrite encode_loop_groups.
  set (g := groups 4 iface_index). pose proof (length_groups 4 iface_index) as Hg. fold g in Hg. cbn [app length].
  rewrite length_app. cbn [length]. split; [lia|]. cbn [NetworkChangeNotification_deserialize app].
  rewrite (proj2 (Nat.ltb_ge _ _)) by (cbn [length]; rewrite !length_app; simpl; lia). cbn [orb negb Z.eqb NETWORK_CHANGE].
  rewrite (proj2 (Nat.leb_gt _ _)) by lia.
  assert (slice 1 (S (length g + 1) - 1) (NETWORK_CHANGE :: (g ++ [change_type]) ++ tail) = g ++ [change_type]) as ->.
  { unfold slice. cbn [drop]. replace (S (length g + 1) - 1)%nat with (length (g ++ [change_type])) by (rewrite length_app; simpl; lia).
    apply take_app_length. }
  unfold decode_int, g. rewrite decode_groups by (unfold in_range in Hi; zpow; simpl; lia). fold g.
  cbn [mbind result_bind fst snd]. rewrite Z.add_0_l, Nat2Z.id.
  rewrite (proj2 (Nat.leb_gt _ _)) by lia. unfold index.
  change ((NETWORK_CHANGE :: (g ++ [change_type]) ++ tail) !! (1 + length g)%nat) with (((g ++ [change_type]) ++ tail) !! length g).
  rewrite <- app_assoc. cbn [app]. rewrite list_lookup_middle by done. cbn. f_equal. f_equal. lia.
Qed.

(** A number of more than five bytes shifts an [int] by more than its width. *)
Theorem overlong_number : decode_int [0x80; 0x80; 0x80; 0x80; 0x80; 0x01] = Throw undefined_behaviour.
Proof. reflexivity. Qed.

End SsdpQueue.
