(* ===== verification/SsdpService.v ===== *)
(** The SSDP service (PSME/common/ssdp/src/ssdp_service_impl.cpp): it announces the REST service on
    the configured interfaces, answers searches and follows the changes of the network.

    The operating system is the class [Network] over a world [W]: sockets, the list of interfaces,
    [select], [rand] and the clock.  A notify socket is its number with the address it is bound to.
    [m_network_interfaces] is an unordered map; the order in which it is walked is the order of the
    model's map, and no theorem depends on it.  The loop of [execute] is run for a given number of
    rounds.

    Theorems: a search that is valid and asks for this service, from a peer in the subnet of one of
    the interfaces, is answered twice within the time it allows, with a packet that the peer
    reads as valid and whose URL is that of the service at the address in the peer's subnet
    ([search_is_answered]); everything else is ignored ([search_is_ignored]); the delay
    ([calculate_delay_bound]); the sockets follow the interfaces ([change_keeps_tracking]); a
    notification of a change reaches its interface ([notification_is_delivered]). *)

From Stdlib Require Import ZArith Lia Ascii.
From S2P Require Import Prelude Database Net Uri SsdpPacket SsdpQueue.
Import Database Net Uri SsdpPacket SsdpQueue.

Local Open Scope Z_scope.

Module SsdpService.

Definition SSDP_ALL_STR : str := lit "ssdp:all".
Definition PACKET_SIZE : nat := 1536.
Definition MAX_MX : Z := 5.
Definition DELAY_INCREMENT : Z := 50.
Definition SCHEDULED_DELAY : Z := 250.
Definition RAND_MAX : Z := 2147483647.

(** The operating system.  [select_fds] is the call of [select] with its repetition when it is
    interrupted: its result and the descriptors that stay in the two sets. *)
Class Network (W : Type) := {
  net_sockets :: Sockets W;
  rand : W → Z * W;
  interfaces : W → IfAddrs;
  open_ssdp_listen_socket : Z → W → result nat * W;
  open_ssdp_notify_socket : Z → NetworkInterface → IpAddress → W → result nat * W;
  join_group : IpAddress → NetworkInterface → W → result unit * W;
  leave_group : IpAddress → NetworkInterface → W → result unit * W;
  receive_from : nat → W → result (str * SocketAddress) * W;
  send_bytes : list Z → W → W;
  receive_bytes : nat → W → result (list Z) * W;
  select_fds : list nat → list nat → Z → W → result (Z * list nat * list nat) * W;
}.

(** [last_announce_time] is a local variable of [execute]. *)
Record Service (W : Type) := mkService {
  m_is_running : bool;
  m_network_interfaces : gmap Z NetworkInterface;
  m_notify_sockets : list (nat * IpAddress);
  m_listen_socket : nat;
  m_notification_socket : nat;
  m_queue : Queue;
  last_announce_time : Z;
  world : W;
}.
Arguments mkService {W}.
Arguments m_is_running {W}.
Arguments m_network_interfaces {W}.
Arguments m_notify_sockets {W}.
Arguments m_listen_socket {W}.
Arguments m_notification_socket {W}.
Arguments m_queue {W}.
Arguments last_announce_time {W}.
Arguments world {W}.

Section updates.
Context {W : Type}.
Implicit Types s : Service W.

Definition set_running (b : bool) s : Service W :=
  mkService b (m_network_interfaces s) (m_notify_sockets s) (m_listen_socket s) (m_notification_socket s) (m_queue s) (last_announce_time s) (world s).
Definition set_interfaces (m : gmap Z NetworkInterface) s : Service W :=
  mkService (m_is_running s) m (m_notify_sockets s) (m_listen_socket s) (m_notification_socket s) (m_queue s) (last_announce_time s) (world s).
Definition set_sockets (l : list (nat * IpAddress)) s : Service W :=
  mkService (m_is_running s) (m_network_interfaces s) l (m_listen_socket s) (m_notification_socket s) (m_queue s) (last_announce_time s) (world s).
Definition set_listen (n : nat) s : Service W :=
  mkService (m_is_running s) (m_network_interfaces s) (m_notify_sockets s) n (m_notification_socket s) (m_queue s) (last_announce_time s) (world s).
Definition set_queue (q : Queue) s : Service W :=
  mkService (m_is_running s) (m_network_interfaces s) (m_notify_sockets s) (m_listen_socket s) (m_notification_socket s) q (last_announce_time s) (world s).
Definition set_announced (time : Z) s : Service W :=
  mkService (m_is_running s) (m_network_interfaces s) (m_notify_sockets s) (m_listen_socket s) (m_notification_socket s) (m_queue s) time (world s).
Definition set_world (w : W) s : Service W :=
  mkService (m_is_running s) (m_network_interfaces s) (m_notify_sockets s) (m_listen_socket s) (m_notification_socket s) (m_queue s) (last_announce_time s) w.

(** A call of the system. *)
Definition sys {A} (f : W → result A * W) : M (Service W) A := λ s, let '(r, w) := f (world s) in (r, set_world w s).

(** A call of the queue. *)
Definition queued (f : Queue * W → Queue * W) : M (Service W) unit :=
  modify (λ s, let '(q, w) := f (m_queue s, world s) in set_queue q (set_world w s)).
End updates.

Definition supports_mcast_address (ssdp_address : SocketAddress) (iface : NetworkInterface) : bool :=
  match Net.family ssdp_address with
  | IPv4 => supports_ipv4 iface
  | IPv6 => supports_ipv6 iface
  | UNIX_LOCAL => false
  end.

(** [calculate_delay] with the number [std::rand] gave; the seconds the search allows are taken if
    they are between one and four. *)
Definition mx_of (mx_str : str) : Z :=
  match stoul mx_str with
  | Ok mx_val => if (0 <? mx_val) && (mx_val <? MAX_MX) then mx_val else 1
  | Throw _ => 1
  end.

Definition calculate_delay (mx_str : str) (random : Z) : Z := random / (1 + RAND_MAX / (1000 * mx_of mx_str)).

(** In milliseconds. *)
Definition get_check_interval (config : SsdpServiceConfig) : Z :=
  if 0 <? m_announce_interval config then m_announce_interval config * 1000 else 30 * 60 * 1000.

Definition is_iface_ignored (iface_names : list str) (name : str) : bool := negb (bool_decide (name ∈ iface_names)).

(** [std::set<IpAddress>]: sorted by [operator<], without equivalent elements. *)
Definition equivalent (a b : IpAddress) : bool := negb (ip_lt a b) && negb (ip_lt b a).

Fixpoint set_emplace (a : IpAddress) (l : list IpAddress) : list IpAddress :=
  match l with
  | [] => [a]
  | b :: l' => if ip_lt a b then a :: l else if ip_lt b a then b :: set_emplace a l' else l
  end.

Definition set_has (a : IpAddress) (l : list IpAddress) : bool := existsb (equivalent a) l.

Definition get_addresses_for_mcast (mcast_address : SocketAddress) (iface : NetworkInterface) : list IpAddress :=
  foldl (λ acc t, if bool_decide (Net.family mcast_address = m_family (ip_address t)) then set_emplace (ip_address t) acc
                  else acc) [] (m_address_list iface).

(** [std::set_difference] *)
Definition set_difference (a b : list IpAddress) : list IpAddress := List.filter (λ x, negb (set_has x b)) a.

(** The addresses that were added and removed. *)
Definition addresses_difference (cached updated : NetworkInterface) : list IpAddress * list IpAddress :=
  let cached_addresses := get_addresses_for_mcast SSDP_MCAST_ADDRESS cached in
  let updated_addresses := get_addresses_for_mcast SSDP_MCAST_ADDRESS updated in
  (set_difference updated_addresses cached_addresses, set_difference cached_addresses updated_addresses).

Section service.
Context {I : InetText} {Sv : Services} {W : Type} {N : Network W} (config : SsdpServiceConfig).

Definition leave_or_join_mcast_group (ssdp_address : SocketAddress) (cached_iface updated_iface : NetworkInterface)
    : M (Service W) unit :=
  let is_joined := supports_mcast_address ssdp_address cached_iface in
  let should_join := supports_mcast_address ssdp_address updated_iface in
  host ← lift (get_host ssdp_address);
  if negb is_joined && should_join then sys (join_group host updated_iface)
  else if is_joined && negb should_join then sys (leave_group host cached_iface)
  else mret tt.

Definition open_notify (ttl : Z) (iface : NetworkInterface) (address : IpAddress) : M (Service W) unit :=
  fd ← sys (open_ssdp_notify_socket ttl iface address);
  modify (λ s, set_sockets (m_notify_sockets s ++ [(fd, address)]) s).

Definition update_mcast_notify_sockets_list (cached_iface updated_iface : NetworkInterface) (ttl : Z) : M (Service W) unit :=
  let diff := addresses_difference cached_iface updated_iface in
  modify (λ s, set_sockets (List.filter (λ socket, negb (set_has socket.2 diff.2)) (m_notify_sockets s)) s);;
  for_each diff.1 (open_notify ttl updated_iface).

(** [find_lan_of_peer]: the first address of an interface in whose subnet the peer is. *)
Fixpoint lan_in (peer : IpAddress) (addresses : list AddressTuple) : result (option IpAddress) :=
  match addresses with
  | [] => mret None
  | t :: addresses' =>
      if bool_decide (m_family peer = m_family (ip_address t)) then
        same ← same_subnet peer (ip_address t) (subnet_mask t);
        if (same : bool) then mret (Some (ip_address t)) else lan_in peer addresses'
      else lan_in peer addresses'
  end.

Fixpoint find_lan (peer : IpAddress) (ifaces : list NetworkInterface) : result IpAddress :=
  match ifaces with
  | [] => mret IpAddress_new
  | iface :: ifaces' =>
      found ← lan_in peer (m_address_list iface);
      match found with Some a => mret a | None => find_lan peer ifaces' end
  end.

Definition find_lan_of_peer (peer : IpAddress) : M (Service W) IpAddress :=
  s ← get; lift (find_lan peer (map_to_list (m_network_interfaces s)).*2).

Definition process_ssdp_m_search (packet : SsdpPacket) (sender : SocketAddress) (lan_address : IpAddress)
    : M (Service W) unit :=
  st_header ← lift (get_header ST packet);
  if bool_decide (st_header = SSDP_ALL_STR) || bool_decide (st_header = m_service_urn config) then
    mx ← lift (get_header MX packet);
    random ← sys (λ w, let '(r, w) := rand w in (Ok r, w));
    let delay := calculate_delay mx random in
    search_response ← lift (create_ssdp_packet config (mkKey SEARCH_RESPONSE []));
    service_uri ← lift (URI_new (m_service_url config));
    let service_uri := set_host (ip_to_string lan_address) service_uri in
    let search_response := set_header AL (uri_to_string service_uri) search_response in
    s ← get;
    let msg := ScheduledMessage_new (m_listen_socket s) sender (packet_to_string search_response) in
    queued (send_or_enqueue msg delay);;
    queued (send_or_enqueue msg (delay + DELAY_INCREMENT))
  else mret tt.

(** One socket of [send_alive]; the packet keeps the header of the previous one. *)
Fixpoint alive_loop (sockets : list (nat * IpAddress)) (packet : SsdpPacket) (uri : URI) : M (Service W) unit :=
  match sockets with
  | [] => mret tt
  | (fd, address) :: sockets' =>
      let uri := set_host (ip_to_string address) uri in
      let packet := set_header AL (uri_to_string uri) packet in
      let msg := ScheduledMessage_new fd SSDP_MCAST_ADDRESS (packet_to_string packet) in
      queued (send_or_enqueue msg 0);;
      queued (send_or_enqueue msg SCHEDULED_DELAY);;
      alive_loop sockets' packet uri
  end.

Definition send_alive : M (Service W) unit :=
  s ← get;
  if negb (is_announcement_enabled config) || bool_decide (m_notify_sockets s = []) then mret tt
  else
    packet ← lift (create_ssdp_packet config (mkKey NOTIFY []));
    al ← lift (get_header AL packet);
    service_uri ← lift (URI_new al);
    alive_loop (m_notify_sockets s) packet service_uri.

(** One message of [send_byebye], sent without the queue. *)
Definition bye (payload : str) (socket : nat * IpAddress) : M (Service W) unit :=
  modify (λ s, set_world (try_send (ScheduledMessage_new socket.1 SSDP_MCAST_ADDRESS payload) (world s)).2 s).

Definition send_byebye : M (Service W) unit :=
  s ← get;
  if negb (is_announcement_enabled config) || bool_decide (m_notify_sockets s = []) then mret tt
  else
    try_catch
      (packet ← lift (create_ssdp_packet config (mkKey NOTIFY SSDP_BYEBYE_STR));
       for_each (m_notify_sockets s) (bye (packet_to_string packet));;
       for_each (m_notify_sockets s) (bye (packet_to_string packet)))
      (λ _, mret tt).

(** [receive_packet]: the datagram at the start of a buffer of zeros. *)
Definition receive_packet : M (Service W) (SsdpPacket * SocketAddress) :=
  s ← get;
  r ← sys (receive_from (m_listen_socket s));
  let data := take PACKET_SIZE r.1 in
  packet ← lift (parse_packet (data ++ replicate (PACKET_SIZE - length data) ZERO) (length data));
  mret (packet, r.2).

Definition process_ssdp_request : M (Service W) unit :=
  try_catch
    (r ← receive_packet;
     let '(packet, sender) := r in
     host ← lift (get_host sender);
     lan_address ← find_lan_of_peer host;
     any ← lift (is_any_address lan_address);
     if (any : bool) then mret tt
     else
       valid ← lift (validate_ssdp_packet packet);
       if negb valid then mret tt
       else if negb (is_search_request packet) then mret tt
       else process_ssdp_m_search packet sender lan_address)
    (λ _, mret tt).

(** [link_update] of the entry with the index. *)
Definition link_update (it : option Z) (updated_iface : NetworkInterface) : M (Service W) unit :=
  match it with
  | None => mret tt
  | Some i =>
      s ← get;
      match m_network_interfaces s !! i with
      | None => throw undefined_behaviour
      | Some cached_iface =>
          when (is_announcement_enabled config)
            (update_mcast_notify_sockets_list cached_iface updated_iface (m_ttl config));;
          leave_or_join_mcast_group SSDP_MCAST_ADDRESS cached_iface updated_iface;;
          modify (λ s, set_interfaces (<[i := updated_iface]> (m_network_interfaces s)) s)
      end
  end.

Definition link_remove (it : option Z) : M (Service W) unit :=
  match it with
  | None => mret tt
  | Some i =>
      link_update it NetworkInterface_new;;
      modify (λ s, set_interfaces (delete i (m_network_interfaces s)) s)
  end.

Definition link_insert_or_update (it : option Z) (updated_iface : NetworkInterface) : M (Service W) unit :=
  match it with
  | Some i => link_update (Some i) updated_iface
  | None =>
      let i := Net.m_index updated_iface in
      modify (λ s, match m_network_interfaces s !! i with
                   | Some _ => s
                   | None => set_interfaces (<[i := NetworkInterface_new]> (m_network_interfaces s)) s
                   end);;
      link_update (Some i) updated_iface
  end.

Definition get_interfaces : M (Service W) (gmap Z NetworkInterface) :=
  s ← get; lift (@get_interfaces_map (interfaces (world s))).

(** [m_network_interfaces.find(iface_index)] *)
Definition find_interface (iface_index : Z) (s : Service W) : option Z :=
  match m_network_interfaces s !! iface_index with Some _ => Some iface_index | None => None end.

Definition on_network_change (iface_index : Z) : M (Service W) unit :=
  s ← get;
  let cached_iface := find_interface iface_index s in
  ifaces ← get_interfaces;
  match ifaces !! iface_index with
  | None => link_remove cached_iface
  | Some updated_iface =>
      if is_iface_ignored (m_nic_names config) (Net.m_name updated_iface) then mret tt
      else if negb (Net.m_up updated_iface && Net.m_running updated_iface) then link_remove cached_iface
      else link_insert_or_update cached_iface updated_iface
  end.

Definition init : M (Service W) unit :=
  port ← lift (Net.get_port SSDP_MCAST_ADDRESS);
  fd ← sys (open_ssdp_listen_socket port);
  modify (set_listen fd);;
  try_catch
    (ifaces ← get_interfaces;
     for_each (map_to_list ifaces).*2 (λ iface,
       if negb (is_iface_ignored (m_nic_names config) (Net.m_name iface)) && Net.m_up iface && Net.m_running iface
       then try_catch (link_insert_or_update None iface) (λ _, mret tt)
       else mret tt))
    (λ _, mret tt).

Definition post_notification (bytes : list Z) : M (Service W) unit :=
  s ← get; when (m_is_running s) (sys (λ w, (Ok tt, send_bytes bytes w))).

Definition process_notification : M (Service W) unit :=
  received ← sys (receive_bytes MAX_SERIALIZED_SIZE);
  let received := take MAX_SERIALIZED_SIZE received in
  let bytes := received ++ replicate (MAX_SERIALIZED_SIZE - length received) 0 in
  let n := length received in
  notification_type ← lift (index bytes 0);
  if notification_type =? SHUT_DOWN then
    lift (ShutDownNotification_deserialize bytes n);;
    modify (set_running false)
  else if notification_type =? NETWORK_CHANGE then
    r ← lift (NetworkChangeNotification_deserialize bytes n);
    on_network_change r.1
  else mret tt.

(** [Socket::select]: the result and the two lists.  The list of writable sockets is rebuilt from the
    readable ones. *)
Definition Socket_select (read_list write_list : list nat) (timeout : Z) (w : W) : result (Z * list nat * list nat) * W :=
  if (list_max (read_list ++ write_list) =? 0)%nat then (Ok (0, read_list, write_list), w)
  else
    match select_fds read_list write_list timeout w with
    | (Ok (rc, read_set, write_set), w) =>
        let read_ready := List.filter (λ fd, bool_decide (fd ∈ read_set)) read_list in
        let write_ready := List.filter (λ fd, bool_decide (fd ∈ write_set)) read_ready in
        (Ok (rc, read_ready, write_ready), w)
    | (Throw e, w) => (Throw e, w)
    end.

(** A socket that can be read. *)
Definition process_readable (fd : nat) : M (Service W) unit :=
  s ← get;
  if (fd =? m_listen_socket s)%nat then process_ssdp_request
  else if (fd =? m_notification_socket s)%nat then process_notification
  else mret tt.

(** One round of the loop of [execute]. *)
Definition serve (check_interval : Z) : M (Service W) unit :=
  s ← get;
  let time := now (world s) in
  let elapsed := time - last_announce_time s in
  timeout ← (if check_interval <=? elapsed then
               send_alive;; modify (λ s, set_announced (last_announce_time s + elapsed) s);; mret check_interval
             else mret (check_interval - elapsed));
  s ← get;
  let '(q, writable, timeout) := select_ready_messages [] time timeout (m_queue s) in
  modify (set_queue q);;
  s ← get;
  sel ← sys (Socket_select [m_listen_socket s; m_notification_socket s] writable timeout);
  let '(rc, readable, writable) := sel in
  when (negb (rc =? 0)) (for_each readable process_readable);;
  modify (λ s, let '(q, w) := send_ready_messages writable (m_queue s) (world s) in set_queue q (set_world w s)).

Fixpoint serve_loop (rounds : nat) (check_interval : Z) : M (Service W) unit :=
  match rounds with
  | O => mret tt
  | S rounds' =>
      s ← get;
      if m_is_running s then
        try_catch (serve check_interval) (λ _, mret tt);;
        serve_loop rounds' check_interval
      else send_byebye
  end.

Definition execute (rounds : nat) : M (Service W) unit :=
  started ← try_catch (init;; mret true) (λ _, mret false);
  if (started : bool) then
    let check_interval := get_check_interval config in
    modify (λ s, set_announced (now (world s) - check_interval) s);;
    serve_loop rounds check_interval
  else mret tt.

Definition stop : M (Service W) unit :=
  s ← get;
  when (m_is_running s) (post_notification ShutDownNotification_serialize;; modify (set_running false)).

End service.

(** * The delay of an answer *)

Lemma mx_of_range mx_str : 1 <= mx_of mx_str <= 4.
Proof.
  unfold mx_of, MAX_MX. destruct (stoul mx_str) as [v|]; [|lia]. destruct (Z.ltb_spec 0 v), (Z.ltb_spec v 5); simpl; lia.
Qed.

(** An answer is sent within the seconds that the search allows, at most four. *)
Theorem calculate_delay_bound mx_str random : 0 <= random <= RAND_MAX →
  0 <= calculate_delay mx_str random < 1000 * mx_of mx_str.
Proof.
  intros Hr. unfold calculate_delay. pose proof (mx_of_range mx_str) as Hmx.
  pose proof (Z.mul_succ_div_gt RAND_MAX (1000 * mx_of mx_str) ltac:(lia)) as Hgt.
  assert (0 <= RAND_MAX / (1000 * mx_of mx_str)) as Hq by (apply Z.div_pos; [done|lia]).
  split; [apply Z.div_pos; lia|]. apply Z.div_lt_upper_bound; lia.
Qed.

(** * The subnet of a peer *)

Definition wf_tuple (t : AddressTuple) : Prop :=
  wf_ip (ip_address t) ∧ wf_ip (subnet_mask t) ∧ m_family (subnet_mask t) = m_family (ip_address t) ∧
  is_any_address (ip_address t) = Ok false.

Definition wf_iface (i : NetworkInterface) : Prop := Forall wf_tuple (m_address_list i).

(** The peer is in the subnet of an address. *)
Definition near (peer : IpAddress) (t : AddressTuple) : Prop :=
  m_family peer = m_family (ip_address t) ∧ same_subnet peer (ip_address t) (subnet_mask t) = Ok true.

Lemma same_subnet_total peer t : wf_ip peer → wf_tuple t → m_family peer = m_family (ip_address t) →
  ∃ b, same_subnet peer (ip_address t) (subnet_mask t) = Ok b.
Proof.
  intros (Hp & _) ((Ha & _) & (Hm & _) & Hfm & _) Hf. unfold same_subnet, ip_and, bitwise.
  rewrite !bool_decide_true by congruence.
  destruct (m_family peer) eqn:E1, (m_family (ip_address t)) eqn:E2; try done; cbn; by eexists.
Qed.

Lemma lan_in_spec peer l : wf_ip peer → Forall wf_tuple l →
  (∃ t, t ∈ l ∧ near peer t ∧ lan_in peer l = Ok (Some (ip_address t))) ∨
  (Forall (λ t, ¬ near peer t) l ∧ lan_in peer l = Ok None).
Proof.
  intros Hp. induction 1 as [|t l Ht _ IH]; cbn [lan_in]; [by right|].
  destruct (bool_decide_reflect (m_family peer = m_family (ip_address t))) as [Hf|Hf].
  - destruct (same_subnet_total peer t Hp Ht Hf) as ([] & Hs); rewrite Hs; cbn [mbind result_bind].
    + left. exists t. split_and!; [apply list_elem_of_here|done|done].
    + destruct IH as [(t' & Hin & Hn & E)|[Hall E]]; [left; exists t'; split_and!; [by apply list_elem_of_further|done..]|].
      right. split; [|done]. constructor; [|done]. intros [_ Hn]. congruence.
  - destruct IH as [(t' & Hin & Hn & E)|[Hall E]]; [left; exists t'; split_and!; [by apply list_elem_of_further|done..]|].
    right. split; [|done]. constructor; [|done]. by intros [Hn _].
Qed.

(** [find_lan_of_peer]: an address in whose subnet the peer is, the default address without one. *)
Lemma find_lan_spec peer ifaces : wf_ip peer → Forall wf_iface ifaces →
  (∃ i t, i ∈ ifaces ∧ t ∈ m_address_list i ∧ near peer t ∧ find_lan peer ifaces = Ok (ip_address t)) ∨
  (Forall (λ i, Forall (λ t, ¬ near peer t) (m_address_list i)) ifaces ∧ find_lan peer ifaces = Ok IpAddress_new).
Proof.
  intros Hp. induction 1 as [|i ifaces Hi _ IH]; cbn [find_lan]; [by right|].
  destruct (lan_in_spec peer (m_address_list i) Hp Hi) as [(t & Ht & Hn & ->)|[Hall ->]]; cbn [mbind result_bind].
  - left. exists i, t. split_and!; [apply list_elem_of_here|done..].
  - destruct IH as [(i' & t & Hi' & Ht & Hn & E)|[Hall' E]]; [left; exists i', t; split_and!; [by apply list_elem_of_further|done..]|].
    right. split; [by constructor|done].
Qed.

(** * Answers *)

Lemma lookup_get name p v : lookup_header name p = Some v → get_header name p = Ok v.
Proof. intros H. unfold get_header. by rewrite H. Qed.

Lemma host_char_address f c : address_char f c = true → host_char c = true.
Proof.
  destruct c as [b0 b1 b2 b3 b4 b5 b6 b7], f, b0, b1, b2, b3, b4, b5, b6, b7; try done; vm_compute; intros; congruence.
Qed.

(** No blanks in a URI. *)
Definition plain_uri (u : URI) : Prop := plain (m_scheme u) ∧ plain (m_userInfo u) ∧ plain (m_path_and_query u).

Section answers.
Context {I : InetText} {HI : InetTextLaws I} {Sv : Services} {W : Type} {N : Network W}.
Context (config : SsdpServiceConfig) (Hconfig : wf_config config).
Context (uri : URI) (Huri : URI_new (m_service_url config) = Ok uri) (Hwf : wf_uri uri) (Hplain : plain_uri uri).

(** The answer for an address. *)
Definition answer (lan : IpAddress) : SsdpPacket :=
  set_header AL (uri_to_string (set_host (ip_to_string lan) uri)) (create_ssdp_search_reply config).

Lemma answer_url lan : wf_ip lan → URI_new (uri_to_string (set_host (ip_to_string lan) uri)) = Ok (set_host (ip_to_string lan) uri).
Proof.
  intros Hl. destruct (ip_text lan Hl) as (_ & Hne & Hc). apply uri_set_host; [done|done|].
  eapply list.Forall_impl; [exact Hc|]. intros c. apply host_char_address.
Qed.

Lemma answer_url_plain lan : wf_ip lan → plain (uri_to_string (set_host (ip_to_string lan) uri)).
Proof.
  intros Hl. pose proof (ip_text_plain lan Hl) as Hip. pose proof Hwf as [_ _ _ [Hport _] _].
  destruct Hplain as (Hs & Hu & Hp).
  assert (plain (get_authority (set_host (ip_to_string lan) uri))) as Ha.
  { unfold get_authority. cbn [m_userInfo m_host m_port set_host]. apply plain_app; [|apply plain_app].
    - case_bool_decide; [constructor|]. apply plain_app; [done|by apply plainb_plain].
    - case_bool_decide; [|done]. constructor; [done|]. apply plain_app; [done|by apply plainb_plain].
    - destruct (m_port uri =? 0); [constructor|]. constructor; [done|]. apply to_string_plain. lia. }
  unfold uri_to_string. cbn [m_scheme m_path_and_query set_host]. apply plain_app; [done|]. constructor; [done|].
  apply plain_app; [by case_match; [apply plain_app; [by apply plainb_plain|]|constructor]|].
  destruct (m_path_and_query uri) as [|c path]; [constructor|]. apply plain_app; [|done].
  case_match; [by apply plainb_plain|constructor].
Qed.

(** The answer is a packet that survives the wire and that its receiver accepts; it names this
    service and its URL at the address. *)
Lemma answer_wf lan : wf_ip lan →
  wf_packet (answer lan) ∧ validate_ssdp_packet (answer lan) = Ok true ∧
  lookup_header ST (answer lan) = Some (m_service_urn config) ∧
  lookup_header USN (answer lan) = Some (build_usn config) ∧
  lookup_header AL (answer lan) = Some (uri_to_string (set_host (ip_to_string lan) uri)).
Proof.
  intros Hl.
  destruct (factory_packets_valid config Hconfig (mkKey SEARCH_RESPONSE []) (create_ssdp_search_reply config)) as [Hw _]; [done|].
  split_and!; [|by rewrite validate_exact|done..].
  apply set_header_wf; [|done]. apply named_header; [done|by apply answer_url_plain].
Qed.

Lemma process_ssdp_m_search_run packet sender lan st mx (s : Service W) random w :
  lookup_header ST packet = Some st → lookup_header MX packet = Some mx →
  st = SSDP_ALL_STR ∨ st = m_service_urn config →
  rand (world s) = (random, w) →
  let msg := ScheduledMessage_new (m_listen_socket s) sender (packet_to_string (answer lan)) in
  let delay := calculate_delay mx random in
  let '(q', w') := send_or_enqueue msg (delay + DELAY_INCREMENT) (send_or_enqueue msg delay (m_queue s, w)) in
  process_ssdp_m_search config packet sender lan s = (Ok tt, set_queue q' (set_world w' s)).
Proof.
  intros Hst Hmx Hmatch Hrand msg delay. unfold process_ssdp_m_search.
  rewrite (lookup_get _ _ _ Hst), (lookup_get _ _ _ Hmx). rewrite (bind_run (lift (Ok _)) _ _ _ _ eq_refl).
  assert (bool_decide (st = SSDP_ALL_STR) || bool_decide (st = m_service_urn config) = true) as ->.
  { destruct Hmatch as [Hm|Hm]; rewrite (bool_decide_true _ Hm); [done|by rewrite orb_true_r]. }
  rewrite (bind_run (lift (Ok _)) _ _ _ _ eq_refl).
  assert (sys (λ w, let '(r, w) := rand w in (Ok r, w)) s = (Ok random, set_world w s)) as Hsys by (unfold sys; by rewrite Hrand).
  rewrite (bind_run _ _ _ _ _ Hsys).
  rewrite (bind_run (lift (create_ssdp_packet config (mkKey SEARCH_RESPONSE []))) _ _ (create_ssdp_search_reply config) _ eq_refl).
  rewrite Huri, (bind_run (lift (Ok _)) _ _ _ _ eq_refl). fold (answer lan).
  rewrite (bind_run get _ _ _ _ eq_refl). fold delay. cbn [m_listen_socket set_world]. fold msg.
  unfold queued. rewrite (bind_run (modify _) _ _ _ _ eq_refl). cbn [m_queue world set_world set_queue].
  destruct (send_or_enqueue msg delay (m_queue s, w)) as [q1 w1] eqn:H1.
  unfold modify. cbn [m_queue world set_world set_queue].
  destruct (send_or_enqueue msg (delay + DELAY_INCREMENT) (q1, w1)) as [q2 w2]. done.
Qed.

End answers.

Section requests.
Context {I : InetText} {Sv : Services} {W : Type} {N : Network W}.
Implicit Types s : Service W.

(** A datagram that is shorter than the buffer is parsed as its text. *)
Lemma receive_packet_run s data sender w : receive_from (m_listen_socket s) (world s) = (Ok (data, sender), w) →
  (length data < PACKET_SIZE)%nat →
  receive_packet s = (packet ← packet_text data; mret (packet, sender), set_world w s).
Proof.
  intros Hr Hl. unfold receive_packet. rewrite (bind_run get _ _ _ _ eq_refl).
  assert (sys (receive_from (m_listen_socket s)) s = (Ok (data, sender), set_world w s)) as Hsys by (unfold sys; by rewrite Hr).
  rewrite (bind_run _ _ _ _ _ Hsys). cbn [fst snd]. rewrite take_ge by lia.
  replace (PACKET_SIZE - length data)%nat with (S (PACKET_SIZE - length data - 1)) by lia. cbn [replicate].
  rewrite parse_reference. by destruct (packet_text data).
Qed.

Lemma find_lan_of_peer_run s peer : find_lan_of_peer peer s = (find_lan peer (map_to_list (m_network_interfaces s)).*2, s).
Proof. done. Qed.

End requests.

(** C13: a search is answered. When a peer in the subnet of an interface sends a valid
    search for all services or for this one, in a datagram shorter than the buffer,
    [process_ssdp_request] schedules the same answer twice: first after a delay below a
    thousand milliseconds times the MX of the search, which [mx_of] takes as it is from
    1 to 4 and as 1 otherwise, and again 50 ms after the first (so the second one may
    come after the seconds of the search); the answer goes to the sender, its text is
    parsed by the peer as a valid search response that names this service, and its URL
    is the configured one at the interface's address in the peer's subnet. *)
Theorem search_is_answered {I : InetText} {HI : InetTextLaws I} {Sv : Services} {W : Type} {N : Network W}
    config uri (s : Service W) packet peer port st mx w random w1 tail :
  wf_config config → URI_new (m_service_url config) = Ok uri → wf_uri uri → plain_uri uri →
  Forall wf_iface (map_to_list (m_network_interfaces s)).*2 → wf_ip peer →
  Exists (λ i, Exists (near peer) (m_address_list i)) (map_to_list (m_network_interfaces s)).*2 →
  wf_packet packet → is_search_request packet = true → valid packet = true →
  lookup_header ST packet = Some st → st = SSDP_ALL_STR ∨ st = m_service_urn config →
  lookup_header MX packet = Some mx →
  receive_from (m_listen_socket s) (world s) = (Ok (packet_to_string packet, IpSocket peer port), w) →
  (length (packet_to_string packet) < PACKET_SIZE)%nat →
  rand w = (random, w1) → 0 <= random <= RAND_MAX →
  ∃ i t payload response delay,
    i ∈ (map_to_list (m_network_interfaces s)).*2 ∧ t ∈ m_address_list i ∧ near peer t ∧
    0 <= delay < 1000 * mx_of mx ∧
    (let msg := ScheduledMessage_new (m_listen_socket s) (IpSocket peer port) payload in
     let '(q', w') := send_or_enqueue msg (delay + DELAY_INCREMENT) (send_or_enqueue msg delay (m_queue s, w1)) in
     process_ssdp_request config s = (Ok tt, set_queue q' (set_world w' s))) ∧
    parse_packet (payload ++ ZERO :: tail) (length payload) = Ok response ∧
    m_type response = SEARCH_RESPONSE ∧ validate_ssdp_packet response = Ok true ∧
    lookup_header ST response = Some (m_service_urn config) ∧ lookup_header USN response = Some (build_usn config) ∧
    ∃ al, lookup_header AL response = Some al ∧ URI_new al = Ok (set_host (ip_to_string (ip_address t)) uri).
Proof.
  intros Hconfig Huri Hwf Hplain Hifaces Hpeer Hnear Hpacket Hsearch Hvalid Hst Hmatch Hmx Hrecv Hlen Hrand Hrange.
  destruct (find_lan_spec peer _ Hpeer Hifaces) as [(i & t & Hi & Ht & Hnt & Hfind)|[Hall _]].
  2: { exfalso. apply list.Exists_exists in Hnear as (i & Hi & (t & Ht & Hn)%list.Exists_exists).
       rewrite list.Forall_forall in Hall. specialize (Hall i Hi). rewrite list.Forall_forall in Hall. by apply (Hall t Ht). }
  assert (wf_tuple t) as (Hip & _ & _ & Hany).
  { rewrite list.Forall_forall in Hifaces. specialize (Hifaces i Hi). unfold wf_iface in Hifaces.
    rewrite list.Forall_forall in Hifaces. by apply Hifaces. }
  destruct (answer_wf config Hconfig uri Hwf Hplain (ip_address t) Hip) as (Hw & Hv & Hast & Hausn & Hal).
  exists i, t, (packet_to_string (answer config uri (ip_address t))), (answer config uri (ip_address t)), (calculate_delay mx random).
  split_and!; [done|done|done|apply calculate_delay_bound, Hrange|apply calculate_delay_bound, Hrange| | |done|done|done|done|].
  - pose proof (process_ssdp_m_search_run config uri Huri packet (IpSocket peer port) (ip_address t) st mx (set_world w s)
      random w1 Hst Hmx Hmatch Hrand) as Hrun. cbn [m_listen_socket m_queue set_world] in Hrun. cbv zeta in *.
    destruct (send_or_enqueue _ _ (send_or_enqueue _ _ _)) as [q' w'].
    unfold process_ssdp_request, try_catch.
    pose proof (receive_packet_run s _ _ _ Hrecv Hlen) as Hreceive. rewrite packet_text_to_string in Hreceive by done.
    cbn [mbind result_bind mret result_ret] in Hreceive.
    rewrite (bind_run _ _ _ _ _ Hreceive). rewrite (bind_run (lift (get_host (IpSocket peer port))) _ _ peer _ eq_refl).
    assert (find_lan_of_peer peer (set_world w s) = (Ok (ip_address t), set_world w s)) as Hlan
      by (rewrite find_lan_of_peer_run; cbn [m_network_interfaces set_world]; by rewrite Hfind).
    rewrite (bind_run _ _ _ _ _ Hlan), Hany, (bind_run (lift (Ok _)) _ _ _ _ eq_refl).
    rewrite validate_exact, Hvalid, (bind_run (lift (Ok _)) _ _ _ _ eq_refl). cbn [negb]. rewrite Hsearch. cbn [negb].
    rewrite Hrun. by destruct s.
  - rewrite parse_reference. by apply packet_text_to_string.
  - exists (uri_to_string (set_host (ip_to_string (ip_address t)) uri)). split; [done|]. by apply answer_url.
Qed.

(** A datagram that is not a packet, or not a valid search, is ignored: [process_ssdp_request] returns
    and nothing changes but that the datagram was read. *)
Theorem search_is_ignored {I : InetText} {Sv : Services} {W : Type} {N : Network W} config (s : Service W) data sender w :
  receive_from (m_listen_socket s) (world s) = (Ok (data, sender), w) → (length data < PACKET_SIZE)%nat →
  (∀ p, packet_text data = Ok p → valid p && is_search_request p = false) →
  process_ssdp_request config s = (Ok tt, set_world w s).
Proof.
  intros Hrecv Hlen Hinvalid. unfold process_ssdp_request, try_catch.
  pose proof (receive_packet_run s _ _ _ Hrecv Hlen) as Hreceive.
  destruct (packet_text data) as [p|e]; cbn [mbind result_bind mret result_ret] in Hreceive;
    [|by rewrite (bind_throw _ _ _ _ _ Hreceive)].
  specialize (Hinvalid p eq_refl). rewrite (bind_run _ _ _ _ _ Hreceive).
  destruct sender as [peer port|path]; [|done]. rewrite (bind_run (lift (get_host (IpSocket peer port))) _ _ peer _ eq_refl).
  pose proof (find_lan_of_peer_run (set_world w s) peer) as Hlan.
  destruct (find_lan peer _) as [lan|e]; [|by rewrite (bind_throw _ _ _ _ _ Hlan)]. rewrite (bind_run _ _ _ _ _ Hlan).
  destruct (is_any_address lan) as [[]|e]; [done| |done]. rewrite (bind_run (lift (Ok _)) _ _ _ _ eq_refl).
  rewrite validate_exact, (bind_run (lift (Ok _)) _ _ _ _ eq_refl). destruct (valid p); [|done]. cbn [negb andb] in *.
  by rewrite Hinvalid.
Qed.

(** * Messages that wait for a socket *)

Lemma waiting_message_kept {W : Type} {S : Sockets W} writable q : ∀ (w : W) k m,
  (k, m) ∈ q → m_state m = WAIT_READY → m_sender m ∉ writable → (k, m) ∈ (send_ready_messages writable q w).1.
Proof.
  induction q as [|[k' m'] q IH]; intros w k m Hin Hm Hs; [by apply elem_of_nil in Hin|]. cbn [send_ready_messages].
  apply elem_of_cons in Hin as [[= <- <-]|Hin].
  - assert (is_ready_to_send writable m = false) as ->.
    { unfold is_ready_to_send. rewrite Hm, (bool_decide_false (_ ∈ _)) by done. done. }
    unfold is_scheduled. rewrite Hm, bool_decide_false by done. destruct (send_ready_messages writable q w) as [q' w'].
    apply list_elem_of_here.
  - destruct (is_ready_to_send writable m').
    + destruct (try_send m' w) as [[rc m1] w1]. specialize (IH w1 k m Hin Hm Hs).
      destruct (send_ready_messages writable q w1) as [q' w']. destruct (negb (rc =? 0)); [done|by apply list_elem_of_further].
    + destruct (is_scheduled m'); [by apply list_elem_of_further|]. specialize (IH w k m Hin Hm Hs).
      destruct (send_ready_messages writable q w) as [q' w']. by apply list_elem_of_further.
Qed.

(** A message that was postponed on a notify socket is never sent: [Socket::select] rebuilds the list of
    writable sockets from the readable ones, so the socket is not in it whatever the system reports;
    the message stays in the queue, and since it is due the timeout of every round is zero. *)
Theorem postponed_message_is_stuck {W : Type} {N : Network W} (w : W) read_list time timeout q k m :
  sorted q → (k, m) ∈ q → k <= time → m_state m = WAIT_READY → m_sender m ∉ read_list →
  list_max read_list ≠ 0%nat →
  let '(q1, writable, timeout') := select_ready_messages [] time timeout q in
  timeout' = 0 ∧ (k, m) ∈ q1 ∧
  ∀ rc readable writable' w', Socket_select read_list writable timeout' w = (Ok (rc, readable, writable'), w') →
    (k, m) ∈ (send_ready_messages writable' q1 w').1.
Proof.
  intros Hq Hin Hk Hm Hs Hmax. pose proof (select_timeout [] time timeout q Hq) as Htime.
  assert ((k, m) ∈ due time q) as Hdue by (by apply list_elem_of_filter).
  rewrite bool_decide_false in Htime by (intros E; rewrite E in Hdue; by apply elem_of_nil in Hdue).
  assert ((k, m) ∈ (select_ready_messages [] time timeout q).1.1) as Hin1.
  { unfold select_ready_messages. destruct q as [|e q0]; [by apply elem_of_nil in Hin|]. rewrite up_to_sorted by done.
    cbn [fst]. apply elem_of_app. left. apply list_elem_of_fmap. exists (k, m). split; [|done].
    unfold ready. cbn [snd]. by rewrite bool_decide_true. }
  destruct (select_ready_messages [] time timeout q) as [[q1 writable] timeout']. cbn [fst snd] in *.
  split_and!; [done|done|]. intros rc readable writable' w' Hsel. apply waiting_message_kept; [done|done|].
  unfold Socket_select in Hsel. rewrite list_max_app in Hsel.
  assert ((Nat.max (list_max read_list) (list_max writable) =? 0)%nat = false) as E by (apply Nat.eqb_neq; lia).
  rewrite E in Hsel. destruct (select_fds read_list writable timeout' w) as [[[[rc' rs] ws]|e] w1]; [|done].
  injection Hsel as <- <- <- <-. intros [Hr _]%list_elem_of_In%filter_In. apply filter_In in Hr as [Hr _].
  by apply Hs, list_elem_of_In.
Qed.

(** * Notifications *)

(** A change of an interface that is posted is the change that is processed. *)
Theorem notification_is_delivered {I : InetText} {W : Type} {N : Network W} config (s : Service W) iface_index change_type w :
  in_range 32 iface_index →
  receive_bytes MAX_SERIALIZED_SIZE (world s) = (Ok (NetworkChangeNotification_serialize iface_index change_type), w) →
  process_notification config s = on_network_change config iface_index (set_world w s).
Proof.
  intros Hi Hr. unfold process_notification.
  assert (sys (receive_bytes MAX_SERIALIZED_SIZE) s =
    (Ok (NetworkChangeNotification_serialize iface_index change_type), set_world w s)) as Hsys by (unfold sys; by rewrite Hr).
  rewrite (bind_run _ _ _ _ _ Hsys). set (bytes := NetworkChangeNotification_serialize iface_index change_type).
  destruct (network_change_roundtrip iface_index change_type (replicate (MAX_SERIALIZED_SIZE - length bytes) 0) Hi) as [Hl Hd].
  fold bytes in Hl, Hd. rewrite take_ge by (unfold MAX_SERIALIZED_SIZE; lia).
  assert (index (bytes ++ replicate (MAX_SERIALIZED_SIZE - length bytes) 0) 0 = Ok NETWORK_CHANGE) as ->.
  { unfold bytes, NetworkChangeNotification_serialize, encode_int. by rewrite encode_loop_groups. }
  rewrite (bind_run (lift (Ok _)) _ _ _ _ eq_refl). change (NETWORK_CHANGE =? SHUT_DOWN) with false.
  change (NETWORK_CHANGE =? NETWORK_CHANGE) with true. cbn iota. rewrite Hd. by rewrite (bind_run (lift (Ok _)) _ _ _ _ eq_refl).
Qed.

(** * The sockets follow the interfaces *)

Definition wf4 (a : IpAddress) : Prop := wf_ip a ∧ m_family a = IPv4.

Lemma be_val_inj xs ys : length xs = 4%nat → length ys = 4%nat → Forall is_byte xs → Forall is_byte ys →
  be_val xs = be_val ys → xs = ys.
Proof.
  intros Hx Hy Bx By. destruct xs as [|x1 [|x2 [|x3 [|x4 [|]]]]]; try done. destruct ys as [|y1 [|y2 [|y3 [|y4 [|]]]]]; try done.
  rewrite !list.Forall_cons in Bx, By. unfold is_byte in *. unfold be_val. simpl. intros E.
  assert (x1 = y1 ∧ x2 = y2 ∧ x3 = y3 ∧ x4 = y4) as (-> & -> & -> & ->) by lia. done.
Qed.

Lemma lt4 a b : wf4 a → wf4 b → ip_lt a b = (be_val (m_addr a) <? be_val (m_addr b)).
Proof. intros [_ Ha] [_ Hb]. unfold ip_lt. rewrite Ha, Hb. by rewrite bool_decide_true. Qed.

Lemma equal4 a b : wf4 a → wf4 b → be_val (m_addr a) = be_val (m_addr b) → a = b.
Proof.
  intros [(_ & La & Ba) Fa] [(_ & Lb & Bb) Fb] E. destruct a as [f xs], b as [g ys]. cbn [m_family m_addr] in *. subst f g.
  f_equal. by apply be_val_inj.
Qed.

Lemma equivalent4 a b : wf4 a → wf4 b → equivalent a b = bool_decide (a = b).
Proof.
  intros Ha Hb. unfold equivalent. rewrite !lt4 by done.
  destruct (bool_decide_reflect (a = b)) as [->|Hne]; [by rewrite Z.ltb_irrefl|].
  destruct (Z.ltb_spec (be_val (m_addr a)) (be_val (m_addr b))), (Z.ltb_spec (be_val (m_addr b)) (be_val (m_addr a))); try done.
  exfalso. apply Hne, equal4; [done..|lia].
Qed.

Lemma set_has4 a l : wf4 a → Forall wf4 l → set_has a l = bool_decide (a ∈ l).
Proof.
  intros Ha. induction 1 as [|b l Hb _ IH]; [by rewrite bool_decide_false by apply not_elem_of_nil|].
  unfold set_has in *. cbn [existsb]. rewrite IH, equivalent4 by done.
  repeat case_bool_decide; try done; set_solver.
Qed.

Definition ascending (l : list IpAddress) : Prop := pairwise (λ a b, ip_lt a b = true) l.

Lemma set_emplace_in a l : wf4 a → Forall wf4 l → ∀ x, x ∈ set_emplace a l ↔ x = a ∨ x ∈ l.
Proof.
  intros Ha. induction 1 as [|b l Hb Hl IH]; intros x; cbn [set_emplace]; [set_solver|].
  destruct (ip_lt a b) eqn:E1; [set_solver|]. destruct (ip_lt b a) eqn:E2; [rewrite elem_of_cons, IH; set_solver|].
  assert (a = b) as ->; [|set_solver]. rewrite lt4 in E1, E2 by done. apply equal4; [done..|lia].
Qed.

Lemma set_emplace_ascending a l : wf4 a → Forall wf4 l → ascending l → ascending (set_emplace a l) ∧ Forall wf4 (set_emplace a l).
Proof.
  intros Ha Hl Hs. split.
  - revert Hs. induction Hl as [|b l Hb Hl IH]; intros Hs; cbn [set_emplace]; [by repeat constructor|].
    destruct Hs as [Hall Hs]. destruct (ip_lt a b) eqn:E1.
    + split; [|by split]. constructor; [done|]. apply list.Forall_forall. intros x Hx.
      rewrite list.Forall_forall in Hall, Hl. specialize (Hall x Hx). rewrite lt4 in * by (done || by apply Hl).
      apply Z.ltb_lt in E1, Hall. apply Z.ltb_lt. lia.
    + destruct (ip_lt b a) eqn:E2; [|by split]. split; [|by apply IH]. apply list.Forall_forall. intros x Hx.
      apply set_emplace_in in Hx as [->|Hx]; [done| |done|done]. rewrite list.Forall_forall in Hall. by apply Hall.
  - apply list.Forall_forall. intros x Hx. apply set_emplace_in in Hx as [->|Hx]; [done| |done|done].
    rewrite list.Forall_forall in Hl. by apply Hl.
Qed.

Lemma ascending_NoDup l : Forall wf4 l → ascending l → NoDup l.
Proof.
  induction 1 as [|a l Ha Hl IH]; intros Hs; [constructor|]. destruct Hs as [Hall Hs]. constructor; [|by apply IH].
  intros Hin. rewrite list.Forall_forall in Hall. specialize (Hall a Hin). rewrite lt4, Z.ltb_irrefl in Hall; done.
Qed.

(** The addresses a service announces on an interface. *)
Definition addrs (i : NetworkInterface) : list IpAddress := get_addresses_for_mcast SSDP_MCAST_ADDRESS i.

Lemma addrs_spec i : wf_iface i → NoDup (addrs i) ∧ Forall wf4 (addrs i) ∧
  ∀ x, x ∈ addrs i ↔ ∃ t, t ∈ m_address_list i ∧ ip_address t = x ∧ m_family x = IPv4.
Proof.
  intros Hi. unfold addrs, get_addresses_for_mcast. change (Net.family SSDP_MCAST_ADDRESS) with IPv4.
  assert (∀ l acc, Forall wf_tuple l → ascending acc → Forall wf4 acc →
    let r := foldl (λ acc t, if bool_decide (IPv4 = m_family (ip_address t)) then set_emplace (ip_address t) acc else acc) acc l in
    ascending r ∧ Forall wf4 r ∧ ∀ x, x ∈ r ↔ x ∈ acc ∨ ∃ t, t ∈ l ∧ ip_address t = x ∧ m_family x = IPv4) as Hfold.
  { induction l as [|t l IH]; intros acc Hl Hs Hacc; [split_and!; [done..|]; set_solver|].
    apply list.Forall_cons in Hl as [(Ht & _) Hl]. cbn [foldl]. case_bool_decide as Hf.
    - assert (wf4 (ip_address t)) as Ht4 by done. destruct (set_emplace_ascending _ _ Ht4 Hacc Hs) as [Hs' Hw'].
      destruct (IH _ Hl Hs' Hw') as (H1 & H2 & H3). split_and!; [done..|]. intros x. rewrite H3, set_emplace_in by done.
      split; [intros [[->|?]|(t' & ? & ?)]|intros [?|(t' & Ht' & E & ?)]].
      + right. exists t. split_and!; [apply list_elem_of_here|done..].
      + by left.
      + right. exists t'. split; [by apply list_elem_of_further|done].
      + by left; right.
      + apply elem_of_cons in Ht' as [->|Ht']; [by left; left|]. right. by exists t'.
    - destruct (IH acc Hl Hs Hacc) as (H1 & H2 & H3). split_and!; [done..|]. intros x. rewrite H3.
      split; (intros [?|(t' & Ht' & E & ?)]; [by left|]).
      + right. exists t'. split; [by apply list_elem_of_further|done].
      + apply elem_of_cons in Ht' as [->|Ht']; [exfalso; apply Hf; congruence|]. right. by exists t'. }
  destruct (Hfold (m_address_list i) []) as (H1 & H2 & H3); [done|done|constructor|].
  split_and!; [by apply ascending_NoDup|done|]. intros x. rewrite H3. split; [intros [H%elem_of_nil|?]; done|by right].
Qed.

Lemma difference_in a b x : Forall wf4 a → Forall wf4 b → x ∈ set_difference a b ↔ x ∈ a ∧ x ∉ b.
Proof.
  intros Ha Hb. unfold set_difference. rewrite list_elem_of_In, filter_In, <- list_elem_of_In.
  rewrite list.Forall_forall in Ha. split; intros [H1 H2]; (split; [done|]).
  - rewrite set_has4 in H2 by auto. by apply negb_true_iff, bool_decide_eq_false in H2.
  - rewrite set_has4 by auto. by rewrite bool_decide_false.
Qed.

(** The system opens every socket and joins every group it is asked for. *)
Class Cooperative (W : Type) {N : Network W} : Prop := {
  opens ttl iface address (w : W) : ∃ fd w', open_ssdp_notify_socket ttl iface address w = (Ok fd, w');
  joins host iface (w : W) : ∃ w', join_group host iface w = (Ok tt, w');
  leaves host iface (w : W) : ∃ w', leave_group host iface w = (Ok tt, w');
}.

(** One socket for every address of an interface that is followed. *)
Definition tracks {W} (s : Service W) : Prop :=
  NoDup (m_notify_sockets s).*2 ∧
  ∀ x, x ∈ (m_notify_sockets s).*2 ↔ ∃ j f, m_network_interfaces s !! j = Some f ∧ x ∈ addrs f.

(** No address on two interfaces. *)
Definition separate (m : gmap Z NetworkInterface) : Prop :=
  ∀ j k f g x, m !! j = Some f → m !! k = Some g → x ∈ addrs f → x ∈ addrs g → j = k.

Section tracking.
Context {I : InetText} {W : Type} {N : Network W} {HC : Cooperative W} (config : SsdpServiceConfig).
Implicit Types s : Service W.

Lemma open_all ttl iface l : ∀ s, ∃ s' fds, for_each l (open_notify ttl iface) s = (Ok tt, s') ∧
  m_network_interfaces s' = m_network_interfaces s ∧ m_notify_sockets s' = m_notify_sockets s ++ fds ∧ fds.*2 = l.
Proof.
  induction l as [|a l IH]; intros s; cbn [for_each]; [exists s, []; by rewrite app_nil_r|].
  destruct (opens ttl iface a (world s)) as (fd & w & Ho).
  assert (open_notify ttl iface a s = (Ok tt, set_sockets (m_notify_sockets s ++ [(fd, a)]) (set_world w s))) as Hopen.
  { unfold open_notify. rewrite (bind_run _ _ s fd (set_world w s)); [done|]. unfold sys. by rewrite Ho. }
  rewrite (bind_run _ _ _ _ _ Hopen). destruct (IH (set_sockets (m_notify_sockets s ++ [(fd, a)]) (set_world w s))) as (s' & fds & H1 & H2 & H3 & H4).
  exists s', ((fd, a) :: fds). split_and!; [done|done| |by cbn; rewrite H4]. rewrite H3. cbn [m_notify_sockets set_sockets].
  by rewrite <- app_assoc.
Qed.

Lemma group_step cached updated s : ∃ w, leave_or_join_mcast_group SSDP_MCAST_ADDRESS cached updated s = (Ok tt, set_world w s).
Proof.
  unfold leave_or_join_mcast_group. rewrite (bind_run (lift (get_host SSDP_MCAST_ADDRESS)) _ _ _ _ eq_refl).
  destruct (negb _ && _).
  - destruct (joins (mkIp IPv4 [239; 255; 255; 250]) updated (world s)) as [w Hw]. exists w. unfold sys. by rewrite Hw.
  - destruct (_ && negb _).
    + destruct (leaves (mkIp IPv4 [239; 255; 255; 250]) cached (world s)) as [w Hw]. exists w. unfold sys. by rewrite Hw.
    + exists (world s). by destruct s.
Qed.

(** The sockets of an interface are replaced by those of its new addresses. *)
Definition follows_ifaces (sockets : list (nat * IpAddress)) (m : gmap Z NetworkInterface) : Prop :=
  NoDup sockets.*2 ∧ ∀ x, x ∈ sockets.*2 ↔ ∃ j f, m !! j = Some f ∧ x ∈ addrs f.

Lemma kept_in (sockets : list (nat * IpAddress)) removed x : (∀ x, x ∈ sockets.*2 → wf4 x) → Forall wf4 removed →
  x ∈ (List.filter (λ socket, negb (set_has socket.2 removed)) sockets).*2 ↔ x ∈ sockets.*2 ∧ x ∉ removed.
Proof.
  intros Hw Hr. rewrite !list_elem_of_fmap. split.
  - intros ([fd a] & -> & Hin%list_elem_of_In). apply filter_In in Hin as [Hin Hn]. apply list_elem_of_In in Hin. cbn [snd] in *.
    assert (a ∈ sockets.*2) as Ha by (apply list_elem_of_fmap; by exists (fd, a)).
    rewrite set_has4 in Hn by auto. apply negb_true_iff, bool_decide_eq_false in Hn. split; [by exists (fd, a)|done].
  - intros [([fd a] & -> & Hin) Hn]. cbn [snd] in *. exists (fd, a). split; [done|]. apply list_elem_of_In, filter_In.
    split; [by apply list_elem_of_In|]. cbn [snd]. rewrite set_has4; [by rewrite bool_decide_false| |done].
    apply Hw, list_elem_of_fmap. by exists (fd, a).
Qed.

Lemma filter_sublist {A} (f : A → bool) l : sublist (List.filter f l) l.
Proof. induction l as [|x l IH]; [done|]. cbn [List.filter]. destruct (f x); by constructor. Qed.

Lemma sockets_replaced sockets fds m i cached updated :
  follows_ifaces sockets m → m !! i = Some cached → wf_iface updated → map_Forall (λ _, wf_iface) m →
  separate m → separate (<[i := updated]> m) → fds.*2 = set_difference (addrs updated) (addrs cached) →
  follows_ifaces (List.filter (λ socket, negb (set_has socket.2 (set_difference (addrs cached) (addrs updated)))) sockets ++ fds)
    (<[i := updated]> m).
Proof.
  intros [Hnd Htr] Hi Hu Hall Hsep Hsep' Hfds.
  destruct (addrs_spec cached (Hall i cached Hi)) as (_ & Hwc & _). destruct (addrs_spec updated Hu) as (Hndu & Hwu & _).
  assert (∀ x, x ∈ sockets.*2 → wf4 x) as Hw4.
  { intros x (j & f & Hj & Hx)%Htr. destruct (addrs_spec f (Hall j f Hj)) as (_ & Hf & _). rewrite list.Forall_forall in Hf. by apply Hf. }
  assert (Forall wf4 (set_difference (addrs cached) (addrs updated))) as Hwr.
  { apply list.Forall_forall. intros x Hx%difference_in; [|done..]. rewrite list.Forall_forall in Hwc. apply Hwc, Hx. }
  assert (∀ j f x, m !! j = Some f → j ≠ i → x ∈ addrs f → x ∉ addrs cached ∧ x ∉ addrs updated) as Hother.
  { intros j f x Hj Hne Hx. split; intros Hx'.
    - apply Hne. by apply (Hsep j i f cached x).
    - apply Hne. apply (Hsep' j i f updated x); [by rewrite lookup_insert_ne|by rewrite lookup_insert_eq|done..]. }
  unfold follows_ifaces. rewrite fmap_app, Hfds. split.
  - apply list.NoDup_app. split_and!.
    + eapply sublist_NoDup; [exact Hnd|]. apply fmap_sublist, filter_sublist.
    + intros x [Hx Hnr]%kept_in Hadd; [|done..]. apply difference_in in Hadd as [Hxu Hxc]; [|done..].
      apply Htr in Hx as (j & f & Hj & Hx). destruct (decide (j = i)) as [->|Hne]; [congruence|]. by apply (Hother j f x).
    + eapply sublist_NoDup; [exact Hndu|]. apply filter_sublist.
  - intros x. rewrite elem_of_app, kept_in, Htr, !difference_in by done. split.
    + intros [[(j & f & Hj & Hx) Hnr]|[Hxu Hxc]]; [|exists i, updated; by rewrite lookup_insert_eq].
      destruct (decide (j = i)) as [->|Hne]; [|exists j, f; split; [by rewrite lookup_insert_ne|done]].
      exists i, updated. rewrite lookup_insert_eq. split; [done|].
      destruct (decide (x ∈ addrs updated)); [done|]. exfalso. apply Hnr. split; [congruence|done].
    + intros (j & f & Hj & Hx). destruct (decide (j = i)) as [->|Hne].
      * rewrite lookup_insert_eq in Hj. injection Hj as <-. destruct (decide (x ∈ addrs cached)); [|by right].
        left. split; [by exists i, cached|]. by intros [_ ?].
      * rewrite lookup_insert_ne in Hj by done. left. split; [by exists j, f|]. intros [Hx' _]. exact (proj1 (Hother j f x Hj Hne Hx) Hx').
Qed.

(** [link_update] replaces the sockets of one interface. *)
Lemma link_update_tracks i cached updated s :
  is_announcement_enabled config = true → tracks s → m_network_interfaces s !! i = Some cached →
  wf_iface updated → map_Forall (λ _, wf_iface) (m_network_interfaces s) →
  separate (m_network_interfaces s) → separate (<[i := updated]> (m_network_interfaces s)) →
  ∃ s', link_update config (Some i) updated s = (Ok tt, s') ∧
    m_network_interfaces s' = <[i := updated]> (m_network_interfaces s) ∧ tracks s'.
Proof.
  intros Hann Htr Hi Hu Hall Hsep Hsep'. unfold link_update. rewrite (bind_run get _ _ _ _ eq_refl), Hi, Hann.
  set (removed := set_difference (addrs cached) (addrs updated)). set (added := set_difference (addrs updated) (addrs cached)).
  set (s1 := set_sockets (List.filter (λ socket, negb (set_has socket.2 removed)) (m_notify_sockets s)) s).
  destruct (open_all (m_ttl config) updated added s1) as (s2 & fds & Hopen & Hi2 & Hs2 & Hfds).
  assert (when true (update_mcast_notify_sockets_list cached updated (m_ttl config)) s = (Ok tt, s2)) as Hupd by exact Hopen.
  rewrite (bind_run _ _ _ _ _ Hupd). destruct (group_step cached updated s2) as [w Hg]. rewrite (bind_run _ _ _ _ _ Hg).
  exists (set_interfaces (<[i := updated]> (m_network_interfaces s2)) (set_world w s2)). split; [done|].
  cbn [m_network_interfaces set_interfaces set_world]. rewrite Hi2. split; [done|].
  change (follows_ifaces (m_notify_sockets s2) (<[i := updated]> (m_network_interfaces s))). rewrite Hs2.
  by apply (sockets_replaced (m_notify_sockets s) fds (m_network_interfaces s) i cached).
Qed.

Lemma not_in_new x : x ∉ addrs NetworkInterface_new.
Proof. apply not_elem_of_nil. Qed.

Lemma separate_empty i m : separate m → separate (<[i := NetworkInterface_new]> m).
Proof.
  intros Hm j k f g x. rewrite !lookup_insert. intros Hj Hk Hf Hg.
  repeat case_decide; simplify_eq; first [done | by apply not_in_new in Hf | by apply not_in_new in Hg | by apply (Hm j k f g x)].
Qed.

Lemma link_remove_tracks i s :
  is_announcement_enabled config = true → tracks s →
  map_Forall (λ _, wf_iface) (m_network_interfaces s) → separate (m_network_interfaces s) →
  ∃ s', link_remove config (find_interface i s) s = (Ok tt, s') ∧
    m_network_interfaces s' = delete i (m_network_interfaces s) ∧ tracks s'.
Proof.
  intros Hann Htr Hall Hsep. unfold find_interface. destruct (m_network_interfaces s !! i) as [cached|] eqn:Hi.
  - destruct (link_update_tracks i cached NetworkInterface_new s) as (s1 & Hrun & Hi1 & Hnd & Htr1); [done..|constructor|done|done|by apply separate_empty|].
    unfold link_remove. rewrite (bind_run _ _ _ _ _ Hrun).
    exists (set_interfaces (delete i (m_network_interfaces s1)) s1). split; [done|].
    cbn [m_network_interfaces set_interfaces]. rewrite Hi1, delete_insert_eq. split; [done|].
    split; [done|]. intros x. cbn [m_notify_sockets m_network_interfaces set_interfaces]. rewrite Htr1, Hi1.
    split; intros (j & f & Hj & Hx).
    + destruct (decide (j = i)) as [->|Hne]; [rewrite lookup_insert_eq in Hj; injection Hj as <-; by apply not_in_new in Hx|].
      exists j, f. rewrite lookup_insert_ne in Hj by done. by rewrite lookup_delete_ne.
    + destruct (decide (j = i)) as [->|Hne]; [by rewrite lookup_delete_eq in Hj|].
      exists j, f. rewrite lookup_delete_ne in Hj by done. by rewrite lookup_insert_ne.
  - exists s. split; [done|]. split; [|done]. symmetry. by apply delete_id.
Qed.

Lemma link_insert_tracks i updated s :
  is_announcement_enabled config = true → tracks s → Net.m_index updated = i →
  wf_iface updated → map_Forall (λ _, wf_iface) (m_network_interfaces s) → separate (m_network_interfaces s) →
  separate (<[i := updated]> (m_network_interfaces s)) →
  ∃ s', link_insert_or_update config (find_interface i s) updated s = (Ok tt, s') ∧
    m_network_interfaces s' = <[i := updated]> (m_network_interfaces s) ∧ tracks s'.
Proof.
  intros Hann Htr Hidx Hu Hall Hsep Hsep'. unfold find_interface.
  destruct (m_network_interfaces s !! i) as [cached|] eqn:Hi; [by apply (link_update_tracks i cached)|].
  set (s1 := set_interfaces (<[i := NetworkInterface_new]> (m_network_interfaces s)) s).
  assert (link_insert_or_update config None updated s = link_update config (Some i) updated s1) as ->.
  { unfold link_insert_or_update, s1. rewrite Hidx. unfold mbind, M_bind, modify. by rewrite Hi. }
  destruct (link_update_tracks i NetworkInterface_new updated s1) as (s' & H1 & H2 & H3).
  - done.
  - destruct Htr as [Hnd Htr]. split; [done|]. intros x. unfold s1. cbn [m_notify_sockets m_network_interfaces set_interfaces].
    rewrite Htr. split; intros (j & f & Hj & Hx).
    + exists j, f. rewrite lookup_insert_ne; [done|]. intros <-. congruence.
    + destruct (decide (j = i)) as [->|Hne]; [rewrite lookup_insert_eq in Hj; injection Hj as <-; by apply not_in_new in Hx|].
      exists j, f. by rewrite lookup_insert_ne in Hj by done.
  - unfold s1. cbn [m_network_interfaces set_interfaces]. by rewrite lookup_insert_eq.
  - done.
  - unfold s1. cbn [m_network_interfaces set_interfaces]. apply map_Forall_insert_2; [constructor|done].
  - by apply separate_empty.
  - unfold s1. cbn [m_network_interfaces set_interfaces]. by rewrite insert_insert_eq.
  - exists s'. split_and!; [done| |done]. rewrite H2. unfold s1. cbn [m_network_interfaces set_interfaces].
    by rewrite insert_insert_eq.
Qed.

End tracking.

(** What becomes of the followed interfaces when one changes; one whose name is not configured is
    left as it was. *)
Definition expected (config : SsdpServiceConfig) (system : gmap Z NetworkInterface) (i : Z) (m : gmap Z NetworkInterface)
    : gmap Z NetworkInterface :=
  match system !! i with
  | None => delete i m
  | Some iface =>
      if is_iface_ignored (m_nic_names config) (Net.m_name iface) then m
      else if Net.m_up iface && Net.m_running iface then <[i := iface]> m
      else delete i m
  end.

Lemma expected_lookup config system i m j :
  expected config system i m !! j =
    if decide (j = i) then
      match system !! i with
      | None => None
      | Some iface =>
          if is_iface_ignored (m_nic_names config) (Net.m_name iface) then m !! i
          else if Net.m_up iface && Net.m_running iface then Some iface else None
      end
    else m !! j.
Proof.
  unfold expected. destruct (decide (j = i)) as [->|Hj].
  - destruct (system !! i) as [iface|]; [|by rewrite lookup_delete_eq].
    destruct (is_iface_ignored _ _); [done|]. destruct (_ && _); [by rewrite lookup_insert_eq|by rewrite lookup_delete_eq].
  - destruct (system !! i) as [iface|]; [|by rewrite lookup_delete_ne].
    destruct (is_iface_ignored _ _); [done|]. destruct (_ && _); [by rewrite lookup_insert_ne|by rewrite lookup_delete_ne].
Qed.

Lemma change_run {I : InetText} {W : Type} {N : Network W} {HC : Cooperative W} config (s : Service W) i system :
  is_announcement_enabled config = true → tracks s →
  @get_interfaces_map (interfaces (world s)) = Ok system →
  map_Forall (λ _, wf_iface) system → map_Forall (λ _, wf_iface) (m_network_interfaces s) →
  separate (m_network_interfaces s) → separate (expected config system i (m_network_interfaces s)) →
  ∃ s', on_network_change config i s = (Ok tt, s') ∧
    m_network_interfaces s' = expected config system i (m_network_interfaces s) ∧ tracks s'.
Proof.
  intros Hann Htr Hsys Hwf Hall Hsep Hsep'. unfold on_network_change. rewrite (bind_run get _ _ _ _ eq_refl).
  assert (get_interfaces s = (Ok system, s)) as Hget.
  { unfold get_interfaces. rewrite (bind_run get _ _ _ _ eq_refl). unfold lift. by rewrite Hsys. }
  rewrite (bind_run _ _ _ _ _ Hget). unfold expected in *.
  destruct (system !! i) as [iface|] eqn:Hi; [|by apply link_remove_tracks].
  destruct (is_iface_ignored _ _); [by exists s|].
  destruct (Net.m_up iface && Net.m_running iface); cbn [negb]; [|by apply link_remove_tracks].
  apply link_insert_tracks; [done|done| |by apply (Hwf i)|done|done|done].
  pose proof (interfaces_have_their_index system Hsys) as Hidx. by apply (Hidx i).
Qed.

(** C20: the sockets follow the interfaces.  If announcements are enabled, every socket can be
    opened, no address is on two followed interfaces before or after, and there is one notify
    socket for every IPv4 address of the followed interfaces, then [on_network_change] of an
    interface returns and this is still so.  Of the followed interfaces only the one that
    changed is touched: it is followed as the system reports it when it is configured, up and
    running, it is not followed when it is gone, or configured but not up and running, and when
    its name is not among the configured ones it stays followed or not as it was. *)
Theorem change_keeps_tracking {I : InetText} {W : Type} {N : Network W} {HC : Cooperative W} config (s : Service W) i system :
  is_announcement_enabled config = true → tracks s →
  @get_interfaces_map (interfaces (world s)) = Ok system →
  map_Forall (λ _, wf_iface) system → map_Forall (λ _, wf_iface) (m_network_interfaces s) →
  separate (m_network_interfaces s) → separate (expected config system i (m_network_interfaces s)) →
  ∃ s', on_network_change config i s = (Ok tt, s') ∧ tracks s' ∧
    (∀ j, j ≠ i → m_network_interfaces s' !! j = m_network_interfaces s !! j) ∧
    (system !! i = None → m_network_interfaces s' !! i = None) ∧
    (∀ iface, system !! i = Some iface →
      (Net.m_name iface ∈ m_nic_names config →
         m_network_interfaces s' !! i = if Net.m_up iface && Net.m_running iface then Some iface else None) ∧
      (Net.m_name iface ∉ m_nic_names config → m_network_interfaces s' !! i = m_network_interfaces s !! i)).
Proof.
  intros Hann Htr Hsys Hwf Hall Hsep Hsep'.
  destruct (change_run config s i system Hann Htr Hsys Hwf Hall Hsep Hsep') as (s' & E & Em & Ht).
  exists s'. rewrite Em. split_and!; [done|done| | |].
  - intros j Hj. rewrite expected_lookup. by rewrite decide_False.
  - intros Hi. rewrite expected_lookup, Hi. by rewrite decide_True.
  - intros iface Hi. rewrite expected_lookup, Hi, decide_True by done. unfold is_iface_ignored.
    split; intros Hin; [by rewrite bool_decide_eq_true_2|by rewrite bool_decide_eq_false_2].
Qed.

(** * An example *)

Module Example.

(** A host with two interfaces and a peer that searches. *)
Definition eth (index : Z) (name : str) (a : list Z) : NetworkInterface :=
  mkInterface name [(mkIp IPv4 a, mkIp IPv4 [255; 255; 255; 0], mkIp IPv4 [10; 0; index; 255])] index true false true false
    true true 1500 ETHERNET_CSMACD [].

Definition an_ifaddr (name : str) (a : list Z) : ifaddr :=
  mkIfaddr name (IFF_UP + IFF_RUNNING + IFF_BROADCAST) (Some (AF_IP (mkIp IPv4 a)))
    (Some (AF_IP (mkIp IPv4 [255; 255; 255; 0]))) (Some (AF_IP (mkIp IPv4 [10; 0; 1; 255]))).

Definition search : SsdpPacket :=
  set_header MX (lit "3") (set_header MAN SSDP_DISCOVER (set_header ST SSDP_ALL_STR
    (set_header HOST (lit "239.255.255.250:1900") (SsdpPacket_new SEARCH_REQUEST)))).

Definition peer : IpAddress := mkIp IPv4 [10; 0; 2; 77].

#[export] Instance no_services : Services := {| getservbyname := λ _, None |}.

Definition host_sockets : Sockets Z := {|
  send_to fd payload receiver w := (Sent (Z.of_nat (length payload)), w);
  now w := w;
|}.

#[export] Instance host_network : Network Z := {|
  net_sockets := host_sockets;
  rand w := (1000000000, w);
  interfaces w := {|
    getifaddrs := Some [an_ifaddr (lit "eth1") [10; 0; 1; 5]; an_ifaddr (lit "eth2") [10; 0; 2; 5]];
    if_nametoindex name := if bool_decide (name = lit "eth1") then 1 else 2;
    get_mtu name := Ok 1500;
  |};
  open_ssdp_listen_socket port w := (Ok 3%nat, w);
  open_ssdp_notify_socket ttl iface a w := (Ok 4%nat, w);
  join_group host iface w := (Ok tt, w);
  leave_group host iface w := (Ok tt, w);
  receive_from fd w := (Ok (packet_to_string search, IpSocket peer 5000), w);
  send_bytes bytes w := w;
  receive_bytes n w := (Ok [], w);
  select_fds reads writes timeout w := (Ok (0, [], []), w);
|}.

#[export] Instance host_cooperative : Cooperative Z.
Proof. split; intros; by repeat eexists. Qed.

Definition config : SsdpServiceConfig :=
  mkConfig true (lit "1234") (lit "urn:dmtf-org:service:redfish-rest:1") (lit "https://localhost:8443/redfish/v1") 2 60
    [lit "eth1"; lit "eth2"].

Definition uri : URI := mkUri (lit "https") [] (lit "localhost") 8443 (lit "/redfish/v1").

Definition service : Service Z :=
  mkService true {[1 := eth 1 (lit "eth1") [10; 0; 1; 5]; 2 := eth 2 (lit "eth2") [10; 0; 2; 5]]}
    [(4%nat, mkIp IPv4 [10; 0; 1; 5]); (4%nat, mkIp IPv4 [10; 0; 2; 5])] 3 7 [] 0 1000.

Lemma config_wf : wf_config config.
Proof. split; [by apply plainb_plain..|vm_compute; split; congruence]. Qed.

Lemma uri_wf : wf_uri uri.
Proof.
  split; cbn [m_scheme m_userInfo m_host m_port m_path_and_query uri].
  - split; [done|]. by repeat (apply Forall_cons_2; [reflexivity|]).
  - constructor.
  - split; [done|]. by repeat (apply Forall_cons_2; [reflexivity|]).
  - split; [lia|done].
  - right. by eexists.
Qed.

Lemma eth_wf i n a b c d : is_byte a → is_byte b → is_byte c → is_byte d → be_val [a; b; c; d] ≠ 0 →
  wf_iface (eth i n [a; b; c; d]).
Proof.
  intros Ha Hb Hc Hd Hne. apply Forall_cons_2; [|constructor]. split_and!; cbn [ip_address subnet_mask fst snd].
  - split_and!; [done|done|]. cbn [m_addr]. by repeat (apply Forall_cons_2; [done|]).
  - split_and!; [done|done|]. cbn [m_addr]. by repeat (apply Forall_cons_2; [unfold is_byte; lia|]).
  - done.
  - unfold is_any_address. cbn [m_family m_addr]. by rewrite (proj2 (Z.eqb_neq _ _) Hne).
Qed.

Lemma ifaces_list : (map_to_list (m_network_interfaces service)).*2 = [eth 2 (lit "eth2") [10; 0; 2; 5]; eth 1 (lit "eth1") [10; 0; 1; 5]].
Proof. vm_compute. reflexivity. Qed.

Lemma ifaces_wf : Forall wf_iface (map_to_list (m_network_interfaces service)).*2.
Proof.
  rewrite ifaces_list. apply Forall_cons_2; [|apply Forall_cons_2; [|apply Forall_nil_2]];
    (apply eth_wf; unfold is_byte; [lia..|done]).
Qed.

Lemma search_is_answered_witness :
  ∃ i t payload response delay,
    i ∈ (map_to_list (m_network_interfaces service)).*2 ∧ t ∈ m_address_list i ∧ near peer t ∧
    0 <= delay < 1000 * mx_of (lit "3") ∧
    (let msg := ScheduledMessage_new (m_listen_socket service) (IpSocket peer 5000) payload in
     let '(q', w') := send_or_enqueue msg (delay + DELAY_INCREMENT) (send_or_enqueue msg delay (m_queue service, 1000)) in
     process_ssdp_request config service = (Ok tt, set_queue q' (set_world w' service))) ∧
    parse_packet (payload ++ ZERO :: []) (length payload) = Ok response ∧
    m_type response = SEARCH_RESPONSE ∧ validate_ssdp_packet response = Ok true ∧
    lookup_header ST response = Some (m_service_urn config) ∧ lookup_header USN response = Some (build_usn config) ∧
    ∃ al, lookup_header AL response = Some al ∧ URI_new al = Ok (set_host (ip_to_string (ip_address t)) uri).
Proof.
  apply (search_is_answered config uri service search peer 5000 SSDP_ALL_STR (lit "3") 1000 1000000000 1000 []).
  - exact config_wf.
  - vm_compute. reflexivity.
  - exact uri_wf.
  - split_and!; by apply plainb_plain.
  - exact ifaces_wf.
  - split_and!; [done|done|]. by repeat (apply Forall_cons_2; [unfold is_byte; lia|]).
  - rewrite ifaces_list. apply Exists_cons_hd, Exists_cons_hd. split; [done|vm_compute; reflexivity].
  - unfold search. repeat (apply set_header_wf; [apply named_header; [reflexivity|by apply plainb_plain]|]). by apply wf_new.
  - reflexivity.
  - vm_compute. reflexivity.
  - reflexivity.
  - by left.
  - reflexivity.
  - reflexivity.
  - vm_compute. lia.
  - reflexivity.
  - vm_compute. split; congruence.
Defined.

Definition system : gmap Z NetworkInterface :=
  {[1 := mkInterface (lit "eth1") [(mkIp IPv4 [10; 0; 1; 5], mkIp IPv4 [255; 255; 255; 0], mkIp IPv4 [10; 0; 1; 255])] 1
           true false false false true true 1500 OTHER [];
    2 := mkInterface (lit "eth2") [(mkIp IPv4 [10; 0; 2; 5], mkIp IPv4 [255; 255; 255; 0], mkIp IPv4 [10; 0; 1; 255])] 2
           true false false false true true 1500 OTHER []]}.

(** A service that has only started to follow the first interface. *)
Definition started : Service Z :=
  mkService true {[1 := eth 1 (lit "eth1") [10; 0; 1; 5]]} [(4%nat, mkIp IPv4 [10; 0; 1; 5])] 3 7 [] 0 1000.

Lemma change_keeps_tracking_witness :
  ∃ s', on_network_change config 2 started = (Ok tt, s') ∧ tracks s' ∧
    is_Some (m_network_interfaces s' !! 2) ∧ m_network_interfaces s' !! 1 = m_network_interfaces started !! 1.
Proof.
  assert (addrs (eth 1 (lit "eth1") [10; 0; 1; 5]) = [mkIp IPv4 [10; 0; 1; 5]]) as Ha by reflexivity.
  destruct (change_keeps_tracking config started 2 system) as (s' & E & Htr & Hother & _ & Hi).
  - reflexivity.
  - split; [apply NoDup_singleton|]. intros x. cbn [started m_notify_sockets m_network_interfaces fmap list_fmap snd]. split.
    + intros ->%list_elem_of_singleton. exists 1, (eth 1 (lit "eth1") [10; 0; 1; 5]). split; [reflexivity|].
      rewrite Ha. by apply list_elem_of_singleton.
    + intros (j & f & [<- <-]%lookup_singleton_Some & Hx). by rewrite Ha in Hx.
  - vm_compute. reflexivity.
  - apply map_Forall_insert_2; [|apply map_Forall_singleton].
    all: apply Forall_cons_2; [|constructor]; split_and!; cbn [ip_address subnet_mask fst snd];
      try reflexivity; split_and!; try done; cbn [m_addr]; by repeat (apply Forall_cons_2; [unfold is_byte; lia|]).
  - apply map_Forall_singleton. apply eth_wf; unfold is_byte; [lia..|done].
  - intros j k f g x. cbn [started m_network_interfaces]. by intros [<- <-]%lookup_singleton_Some [<- <-]%lookup_singleton_Some.
  - change (expected config system 2 (m_network_interfaces started)) with
      (<[2 := mkInterface (lit "eth2") [(mkIp IPv4 [10; 0; 2; 5], mkIp IPv4 [255; 255; 255; 0], mkIp IPv4 [10; 0; 1; 255])] 2
           true false false false true true 1500 OTHER []]> ({[1 := eth 1 (lit "eth1") [10; 0; 1; 5]]} : gmap Z NetworkInterface)).
    intros j k f g x [[<- <-]|[? [<- <-]%lookup_singleton_Some]]%lookup_insert_Some
      [[<- <-]|[? [<- <-]%lookup_singleton_Some]]%lookup_insert_Some; try done; intros Hf Hg;
      apply list_elem_of_singleton in Hf, Hg; rewrite Hf in Hg; vm_compute in Hg; congruence.
  - exists s'. split; [exact E|]. split; [exact Htr|]. split; [|by apply Hother].
    destruct (Hi _ eq_refl) as [Hup _]. rewrite Hup; [by eexists|]. apply (bool_decide_eq_true_1 _). vm_compute. reflexivity.
Defined.

End Example.

End SsdpService.
