(* ===== verification/PncModel.v ===== *)
(** The resource model of the pnc agent and how its resources get persistent uuids:
    [get_manager<T>()] and [get_m2m_manager<P, C>()]
    (agent-framework module/managers/utils/manager_utils.hpp), the class templates
    [TreeStabilizer] and [Stabilizer] (agent-framework tree_stability), and
    [PncKeyGenerator] (PSME/agent/pnc/src/tree_stability/pnc_key_generator.cpp).

    The tables are indexed by the type of their resources: a resource is the
    [Resource] of GenericManager.v whose JSON form is replaced by the record of the
    fields of its type that the stabilizer reads or writes.  [make_v5_uuid] with the
    uuid of the service, and the identifier of the agent, are variables.  Log output
    is left out. *)

From Stdlib Require Import ZArith Lia.
From Stdlib Require Import Eqdep_dec.
From S2P Require Import Prelude.
From S2P Require Import OrdSet.
From S2P Require Import Enums.
From S2P Require Import ManyToMany.
From S2P Require Import GenericManager.
From S2P Require Import Database.
Import GenericManager.

Module PncModel.

(** ** Resources *)

(** [enums::EntityRole] *)
Inductive EntityRole := Initiator | Target | Both.

Definition role_to_string (r : EntityRole) : string :=
  match r with Initiator => "Initiator" | Target => "Target" | Both => "Both" end.

(** [attribute::ConnectedEntity] *)
Record ConnectedEntity := mkEntity { entity_role : option EntityRole; entity : option uuid }.

Record DriveFields := mkDriveF { drive_serial : option string; drive_dsp_port_uuids : list uuid }.
Record SwitchFields := mkSwitchF { switch_serial : option string; switch_chassis : option uuid }.
Record PortFields := mkPortF { port_id : option string }.
Record ZoneFields := mkZoneF { zone_id : option Z; zone_switch_uuid : uuid }.
Record EndpointFields := mkEndpointF {
  endpoint_identifiers : list (option string);
  endpoint_connected_entities : list ConnectedEntity;
}.
Record SystemFields := mkSystemF { system_chassis : option uuid }.
Record DeviceFields := mkDeviceF { device_serial : option string; device_chassis : option uuid }.
Record FunctionFields := mkFunctionF { functional_device : option uuid; dsp_port_uuid : uuid }.
Record ProcessorFields := mkProcessorF { processor_serial : option string }.
Record MetricFields := mkMetricF { component_uuid : uuid }.
Record MetricDefinitionFields := mkMetricDefinitionF { metric_jsonptr : string; definition_name : option string }.

Definition Fields (c : Component.t) : Type :=
  match c with
  | Component.Drive => DriveFields
  | Component.Switch => SwitchFields
  | Component.Port => PortFields
  | Component.Zone => ZoneFields
  | Component.Endpoint => EndpointFields
  | Component.System => SystemFields
  | Component.PcieDevice => DeviceFields
  | Component.PcieFunction => FunctionFields
  | Component.Processor => ProcessorFields
  | Component.Metric => MetricFields
  | Component.MetricDefinition => MetricDefinitionFields
  | _ => unit
  end.

Abbreviation Res c := (@Resource (Fields c)).
Definition table (c : Component.t) : Type := @GenericManager.t (Fields c).

(** [get_m2m_manager<Zone, Endpoint>()] and the others *)
Inductive Relation :=
  ZoneEndpoint | EndpointPort | DriveFunction | ProcessorFunction | SubsystemDrive.

#[global] Instance Relation_eq_dec : EqDecision Relation.
Proof. solve_decision. Defined.

Record Model := mkModel {
  tables : ∀ c, table c;
  relations : Relation → ManyToMany.t;
}.

(** ** Access *)

Definition set_table (c : Component.t) (t : table c) (s : Model) : Model :=
  mkModel (λ c', match decide (c = c') with
                 | left e => eq_rect c table t c' e
                 | right _ => tables s c'
                 end) (relations s).

Definition set_relation (r : Relation) (d : ManyToMany.t) (s : Model) : Model :=
  mkModel (tables s) (λ r', if decide (r = r') then d else relations s r').

Definition data (s : Model) (c : Component.t) : list (Res c) := m_manager_data (tables s c).

(** The fields of the type of a resource. *)
Definition fields {c} (r : Res c) : Fields c := json_rest r.

Definition set_fields {c} (f : Fields c) (r : Res c) : Res c :=
  mkResource (m_collections r) (m_parent_type r) (m_temporary_uuid r) (m_persistent_uuid r)
    (m_parent_uuid r) (m_unique_key r) (m_is_uuid_persistent r) (m_id r) (m_agent_id r)
    (m_touched_at r) (json_status r) f.

(** [Resource::set_unique_key] *)
Definition set_unique_key {c} (key : option string) (r : Res c) : Res c :=
  mkResource (m_collections r) (m_parent_type r) (m_temporary_uuid r) (m_persistent_uuid r)
    (m_parent_uuid r) key (m_is_uuid_persistent r) (m_id r) (m_agent_id r)
    (m_touched_at r) (json_status r) (json_rest r).

(** [get_manager<T>().get_entry(u)] *)
Definition get_entry (c : Component.t) (u : uuid) : M Model (Res c) :=
  s ← get; lift (GenericManager.get_entry u (tables s c)).

(** [get_manager<T>().get_keys(filter)] *)
Definition get_keys (c : Component.t) (flt : Res c → bool) : M Model (list uuid) :=
  s ← get; mret (GenericManager.get_keys flt (tables s c)).

(** [get_manager<T>().get_keys(parent)] *)
Definition get_keys_of (c : Component.t) (parent : uuid) : M Model (list uuid) :=
  s ← get; mret (GenericManager.get_keys_of parent (λ _, true) (tables s c)).

(** Replace the entry at a position of a table. *)
Definition set_entry (c : Component.t) (i : nat) (r : Res c) (s : Model) : Model :=
  set_table c (mkManager (<[i := r]> (data s c)) (m_current_epoch (tables s c))) s.

(** Write through [get_manager<T>().get_entry_reference(u)]; the entry as written. *)
Definition write (c : Component.t) (u : uuid) (f : Res c → Res c) : M Model (Res c) :=
  s ← get;
  i ← lift (GenericManager.get_entry_reference u (tables s c));
  match data s c !! i with
  | Some r => put (set_entry c i (f r) s);; mret (f r)
  | None => throw undefined_behaviour
  end.

(** [OptionalField::value()], [operator T()] *)
Definition value {S A} (o : option A) : M S A :=
  match o with Some a => mret a | None => throw (logic_error "bad optional access") end.

(** [update_parent], [update_child] of a relation *)
Definition update_relation (r : Relation) (p : ManyToMany.position) (old_id new_id : uuid) : M Model unit :=
  s ← get;
  match ManyToMany.update_entry p old_id new_id (relations s r) with
  | Some d => put (set_relation r d s)
  | None => throw out_of_fuel
  end.

(** [catch (const KeyValueMissingError&) { log_key_value_missing(...); }] *)
Definition catch_missing {A} (a : A) (m : M Model A) : M Model A :=
  try_catch m (λ e, match e with key_value_missing _ => mret a | _ => throw e end).

(** ** TreeStabilizer and Stabilizer *)

Section stabilizer.
Variable make_v5_uuid : string → uuid.

Definition make_stable {c} (key : string) (r : Res c) : Res c :=
  make_persistent_uuid make_v5_uuid (set_unique_key (Some key) r).

Definition stabilize_single_resource (c : Component.t) (u : uuid) (unique_key : string) : M Model uuid :=
  r ← write c u (make_stable unique_key);
  mret (get_uuid r).

(** [Stabilizer::dry_stabilize], on the copy it is given *)
Definition dry_stabilize {c} (generate_key : Res c → result string) (resource : Res c) : result uuid :=
  key ← generate_key resource;
  mret (get_uuid (make_stable key resource)).

(** [Stabilizer::stabilize]: the result and the resource it leaves *)
Definition stabilize_resource {c} (generate_key : Res c → result string) (resource : Res c) :
    result uuid * Res c :=
  match generate_key resource with
  | Ok key => (Ok (get_uuid (make_stable key resource)), make_stable key resource)
  | Throw (key_value_missing _) => (Ok (get_uuid resource), resource)
  | Throw e => (Throw e, resource)
  end.
End stabilizer.

(** ** PncKeyGenerator *)

(** [m_keys_base_map] *)
Definition m_keys_base_map (c : Component.t) : option string :=
  match c with
  | Component.Manager => Some "_PCIeModule_"
  | Component.PcieDevice => Some "_PCIeDevice_"
  | Component.PcieFunction => Some "_PCIeFunction_"
  | Component.Chassis => Some "_PCIeChassis_"
  | Component.Drive => Some "_PCIeDrive_"
  | Component.Fabric => Some "_PCIeFabric_"
  | Component.Switch => Some "_PCIeSwitch_"
  | Component.Port => Some "_PCIePort_"
  | Component.Zone => Some "_PCIeZone_"
  | Component.Endpoint => Some "_PCIeEndpoint_"
  | Component.System => Some "_PCIeSystem_"
  | Component.StorageSubsystem => Some "PCIeStorageSubsystem_"
  | Component.Processor => Some "_PCIeProcessor_"
  | _ => None
  end%string.

(** [std::sort] on up to sixteen elements, with a comparison that may throw: the
    library inserts one element after the other, in front of the first one if it is
    less, and else from the back. *)
Section sort.
Context {A : Type} (lt : A → A → result bool).

(** The elements before the inserted one, last first. *)
Fixpoint insert_back (x : A) (before : list A) : result (list A) :=
  match before with
  | [] => Ok [x]
  | y :: before' =>
      b ← lt x y;
      if (b : bool) then (λ l, y :: l) <$> insert_back x before' else Ok (x :: y :: before')
  end.

Definition insert_step (x : A) (sorted : list A) : result (list A) :=
  match sorted with
  | [] => Ok [x]
  | first :: _ =>
      b ← lt x first;
      if (b : bool) then Ok (x :: sorted) else reverse <$> insert_back x (reverse sorted)
  end.

Fixpoint std_sort (sorted l : list A) : result (list A) :=
  match l with
  | [] => Ok sorted
  | x :: l' => s ← insert_step x sorted; std_sort s l'
  end.
End sort.

(** [operator<] of [OptionalField<std::string>] *)
Definition optional_lt (a b : option string) : bool :=
  match a, b with
  | _, None => false
  | None, Some _ => true
  | Some x, Some y => bool_decide (olt x y)
  end.

Definition port_lexicographical_compare (lhs rhs : Res Component.Port) : result bool :=
  Ok (optional_lt (m_unique_key lhs) (m_unique_key rhs)).

Definition entity_lexicographical_compare (lhs rhs : ConnectedEntity) : result bool :=
  match entity lhs, entity rhs with
  | Some _, Some _ =>
      match entity_role lhs, entity_role rhs with
      | Some l, Some r => Ok (bool_decide (olt (role_to_string l) (role_to_string r)))
      | _, _ => Throw (logic_error "bad optional access")
      end
  | l, r => Ok (optional_lt l r)
  end.

Section keys.
Variable m_agent_id : string.

(** [m_keys_base_map.at(...)] *)
Definition generate_key_base (c : Component.t) : result string :=
  match m_keys_base_map c with
  | Some base => Ok (m_agent_id +:+ base)%string
  | None => Throw out_of_range
  end.

(** The base of a type and a suffix, or KeyValueMissingError. *)
Definition key_of (c : Component.t) (suffix : option string) (missing : string) : result string :=
  match suffix with
  | Some x => base ← generate_key_base c; Ok (base +:+ x)%string
  | None => Throw (key_value_missing missing)
  end.

Definition key_Manager (manager : Res Component.Manager) (pcie_switch : Res Component.Switch) : result string :=
  key_of Component.Manager (switch_serial (fields pcie_switch)) "Switch serial number is missing.".

Definition key_PcieDevice (device : Res Component.PcieDevice) : result string :=
  key_of Component.PcieDevice (device_serial (fields device)) "Device serial number is missing.".

Definition key_PcieDevice_external (device : Res Component.PcieDevice) (device_unique_key : string) : result string :=
  base ← generate_key_base Component.PcieDevice; Ok (base +:+ device_unique_key)%string.

Definition key_PcieFunction (function : Res Component.PcieFunction) (device : Res Component.PcieDevice) :
    result string :=
  key_of Component.PcieFunction (device_serial (fields device)) "Parent device serial number is missing.".

Definition key_PcieFunction_external (function : Res Component.PcieFunction) (device_unique_key : string) :
    result string :=
  base ← generate_key_base Component.PcieFunction; Ok (base +:+ device_unique_key)%string.

Definition key_Chassis (chassis : Res Component.Chassis) (pcie_switch : Res Component.Switch) : result string :=
  key_of Component.Chassis (switch_serial (fields pcie_switch)) "No serial number found.".

Definition key_Drive (drive : Res Component.Drive) : result string :=
  key_of Component.Drive (drive_serial (fields drive)) "Serial number is missing.".

Definition key_Fabric (fabric : Res Component.Fabric) : result string := generate_key_base Component.Fabric.

Definition key_Switch (pcie_switch : Res Component.Switch) : result string :=
  key_of Component.Switch (switch_serial (fields pcie_switch)) "Serial number is missing.".

Definition key_Port (port : Res Component.Port) (pcie_switch : Res Component.Switch) : result string :=
  match switch_serial (fields pcie_switch) with
  | None => Throw (key_value_missing "Switch serial number is missing.")
  | Some _ => key_of Component.Port (port_id (fields port)) "Port ID is missing."
  end.

(** [std::to_string(static_cast<unsigned int>(zone_id))] *)
Definition number_text (n : Z) : string := String.string_of_list_ascii (Database.to_string n).

Definition key_Zone (zone : Res Component.Zone) (pcie_switch : Res Component.Switch) : result string :=
  match switch_serial (fields pcie_switch) with
  | None => Throw (key_value_missing "Switch serial number is missing.")
  | Some _ => key_of Component.Zone (number_text <$> zone_id (fields zone)) "Zone ID is missing."
  end.

(** What an entity adds to the key. *)
Definition entity_data (e : ConnectedEntity) : string :=
  (default EmptyString (entity e) +:+ from_option role_to_string EmptyString (entity_role e))%string.

Definition key_Endpoint (endpoint : Res Component.Endpoint) (in_endpoint_ports : list (Res Component.Port)) :
    result string :=
  let connected_entities := endpoint_connected_entities (fields endpoint) in
  match connected_entities with
  | [] =>
      match in_endpoint_ports with
      | [] => Throw (key_value_missing "No connected entities and unique key ports.")
      | _ => Throw (key_value_missing "No connected entities.")
      end
  | _ =>
      endpoint_ports ← std_sort port_lexicographical_compare [] in_endpoint_ports;
      entities ← std_sort entity_lexicographical_compare [] connected_entities;
      base ← generate_key_base Component.Endpoint;
      Ok (base +:+ foldr (λ e s, entity_data e +:+ s) EmptyString entities
               +:+ foldr (λ p s, default EmptyString (m_unique_key p) +:+ s) EmptyString endpoint_ports)%string
  end.

Definition key_System (system : Res Component.System) : result string := generate_key_base Component.System.

Definition key_StorageSubsystem (subsystem : Res Component.StorageSubsystem) : result string :=
  generate_key_base Component.StorageSubsystem.

Definition key_MetricDefinition (definition : Res Component.MetricDefinition) : result string :=
  Ok (Component.to_string Component.MetricDefinition +:+ metric_jsonptr (fields definition)
      +:+ default EmptyString (definition_name (fields definition)))%string.

Definition key_Processor (processor : Res Component.Processor) : result string :=
  key_of Component.Processor (processor_serial (fields processor)) "Processor serial number is missing.".
End keys.

End PncModel.
