(* ===== verification/PncStabilizer.v ===== *)
(** [agent::pnc::PncTreeStabilizer]
    (PSME/agent/pnc/src/tree_stability/pnc_tree_stabilizer.cpp and
    include/tree_stability/pnc_tree_stabilizer.hpp) and the helpers that replace the
    uuid of a resource wherever the model refers to it
    (src/tree_stability/helpers/update_relations.cpp).

    Every method works on the model of PncModel.v.  The loops go over the keys as they
    were when the loop started, as the range-based loops over returned vectors do. *)

From Stdlib Require Import ZArith Lia.
From S2P Require Import Prelude.
From S2P Require Import OrdSet.
From S2P Require Import Enums.
From S2P Require Import ManyToMany.
From S2P Require Import GenericManager.
From S2P Require Import PncModel.
Import GenericManager PncModel.

Module PncStabilizer.

(** ** update_relations.cpp *)

(** [for (key : keys) get_entry_reference(key)->set(...)] *)
Definition write_all (c : Component.t) (f : Res c → Res c) (keys : list uuid) : M Model unit :=
  for_each keys (λ key, write c key f;; mret tt).

Definition replace (t p u : uuid) : uuid := if decide (u = t) then p else u.

Definition update_pcie_switch_in_relations (t p : uuid) : M Model unit :=
  zone_keys ← get_keys Component.Zone (λ zone, bool_decide (zone_switch_uuid (fields zone) = t));
  write_all Component.Zone (λ r, set_fields (c := Component.Zone) (mkZoneF (zone_id (fields r)) p) r) zone_keys.

Definition update_pcie_endpoint_in_relations (t p : uuid) : M Model unit :=
  update_relation ZoneEndpoint ManyToMany.P1 t p;;
  update_relation EndpointPort ManyToMany.P0 t p;;
  endpoint ← get_entry Component.Endpoint p;
  let identifiers := (λ i, if decide (i = Some t) then Some p else i) <$> endpoint_identifiers (fields (c := Component.Endpoint) endpoint) in
  write Component.Endpoint p (λ r, set_fields (c := Component.Endpoint)
    (mkEndpointF identifiers (endpoint_connected_entities (fields r))) r);;
  mret tt.

Definition update_pcie_zone_in_relations (t p : uuid) : M Model unit :=
  update_relation ZoneEndpoint ManyToMany.P0 t p.

Definition update_pcie_port_in_relations (t p : uuid) : M Model unit :=
  functions_keys ← get_keys Component.PcieFunction (λ f, bool_decide (dsp_port_uuid (fields f) = t));
  drives_keys ← get_keys Component.Drive (λ d, bool_decide (t ∈ drive_dsp_port_uuids (fields d)));
  write_all Component.PcieFunction (λ r, set_fields (c := Component.PcieFunction)
    (mkFunctionF (functional_device (fields r)) p) r) functions_keys;;
  write_all Component.Drive (λ r, set_fields (c := Component.Drive)
    (mkDriveF (drive_serial (fields r)) (replace t p <$> drive_dsp_port_uuids (fields r))) r) drives_keys;;
  update_relation EndpointPort ManyToMany.P1 t p.

Definition update_chassis_in_relations (t p : uuid) : M Model unit :=
  switch_keys ← get_keys Component.Switch (λ r, bool_decide (switch_chassis (fields r) = Some t));
  system_keys ← get_keys Component.System (λ r, bool_decide (system_chassis (fields r) = Some t));
  device_keys ← get_keys Component.PcieDevice (λ r, bool_decide (device_chassis (fields r) = Some t));
  write_all Component.Switch (λ r, set_fields (c := Component.Switch)
    (mkSwitchF (switch_serial (fields r)) (Some p)) r) switch_keys;;
  write_all Component.System (λ r, set_fields (c := Component.System) (mkSystemF (Some p)) r) system_keys;;
  write_all Component.PcieDevice (λ r, set_fields (c := Component.PcieDevice)
    (mkDeviceF (device_serial (fields r)) (Some p)) r) device_keys.

(** The loop over the connected entities of an endpoint: [get_entity().value()] of an
    entity without one throws. *)
Fixpoint replace_entities (t p : uuid) (l : list ConnectedEntity) : result (list ConnectedEntity) :=
  match l with
  | [] => Ok []
  | e :: l' =>
      match entity e with
      | None => Throw (logic_error "bad optional access")
      | Some u =>
          (λ k, (if decide (u = t) then mkEntity (entity_role e) (Some p) else e) :: k) <$> replace_entities t p l'
      end
  end.

Definition refers_to_entity (t : uuid) (e : ConnectedEntity) : bool := bool_decide (entity e = Some t).

(** The common first part of [update_pcie_drive_in_relations] and
    [update_processor_in_relations]. *)
Definition update_device_in_endpoints (t p : uuid) : M Model unit :=
  endpoints_keys ← get_keys Component.Endpoint (λ r, existsb (refers_to_entity t) (endpoint_connected_entities (fields r)));
  for_each endpoints_keys (λ key,
    s ← get;
    i ← lift (GenericManager.get_entry_reference key (tables s Component.Endpoint));
    match data s Component.Endpoint !! i with
    | None => throw undefined_behaviour
    | Some r =>
        connected_entities ← lift (replace_entities t p (endpoint_connected_entities (fields r)));
        put (set_entry Component.Endpoint i (set_fields (c := Component.Endpoint)
          (mkEndpointF (endpoint_identifiers (fields r)) connected_entities) r) s)
    end).

(** Their common second part. *)
Definition update_device_in_functions (t p : uuid) : M Model unit :=
  function_keys ← get_keys Component.PcieFunction (λ f, bool_decide (functional_device (fields f) = Some t));
  write_all Component.PcieFunction (λ r, set_fields (c := Component.PcieFunction)
    (mkFunctionF (Some p) (dsp_port_uuid (fields r))) r) function_keys.

Definition update_pcie_drive_in_relations (t p : uuid) : M Model unit :=
  update_device_in_endpoints t p;;
  update_device_in_functions t p;;
  update_relation DriveFunction ManyToMany.P0 t p;;
  update_relation SubsystemDrive ManyToMany.P1 t p.

Definition update_processor_in_relations (t p : uuid) : M Model unit :=
  update_device_in_endpoints t p;;
  update_device_in_functions t p;;
  update_relation ProcessorFunction ManyToMany.P0 t p.

Definition update_storage_subsystem_in_relations (t p : uuid) : M Model unit :=
  update_relation SubsystemDrive ManyToMany.P0 t p.

(** [update_pcie_function_in_relations<Device>]: the relation is
    [get_m2m_manager<Device, PcieFunction>()]. *)
Definition update_pcie_function_in_relations (device : Relation) (t p : uuid) : M Model unit :=
  update_relation device ManyToMany.P1 t p.

(** ** PncTreeStabilizer *)

Section stabilizer.
Variable make_v5_uuid : string → uuid.
Variable m_agent_id : string.

(** [get_entry_reference(u)->set_parent_uuid(p)] *)
Definition set_parent (c : Component.t) (u p : uuid) : M Model unit :=
  write c u (set_parent_uuid p);; mret tt.

(** The fields behind [get_entry_reference(u)]. *)
Definition read (c : Component.t) (u : uuid) : M Model (Res c) :=
  s ← get;
  i ← lift (GenericManager.get_entry_reference u (tables s c));
  lift (index (data s c) i).

Definition stabilize_storage_subsystem (u : uuid) : M Model uuid :=
  subsystem ← get_entry Component.StorageSubsystem u;
  catch_missing u (
    key ← lift (key_StorageSubsystem m_agent_id subsystem);
    p ← stabilize_single_resource make_v5_uuid Component.StorageSubsystem u key;
    update_storage_subsystem_in_relations u p;;
    mret p).

Definition stabilize_system (u : uuid) : M Model uuid :=
  system ← get_entry Component.System u;
  catch_missing u (
    key ← lift (key_System m_agent_id system);
    keys ← get_keys_of Component.StorageSubsystem u;
    storage_subsystem_uuid ← lift (index keys 0);
    p ← stabilize_single_resource make_v5_uuid Component.System u key;
    set_parent Component.StorageSubsystem storage_subsystem_uuid p;;
    stabilize_storage_subsystem storage_subsystem_uuid;;
    mret p).

(** [stabilize_pcie_function<Device>(u)] *)
Definition stabilize_pcie_function (device : Relation) (u : uuid) : M Model uuid :=
  function ← get_entry Component.PcieFunction u;
  parent_device ← get_entry Component.PcieDevice (m_parent_uuid function);
  catch_missing u (
    key ← lift (key_PcieFunction m_agent_id function parent_device);
    p ← stabilize_single_resource make_v5_uuid Component.PcieFunction u key;
    update_pcie_function_in_relations device u p;;
    mret p).

(** [stabilize_pcie_function<Device>(u, external_device_unique_key)] *)
Definition stabilize_pcie_function_external (device : Relation) (u : uuid) (external_device_unique_key : string) :
    M Model uuid :=
  function ← get_entry Component.PcieFunction u;
  catch_missing u (
    key ← lift (key_PcieFunction_external m_agent_id function external_device_unique_key);
    p ← stabilize_single_resource make_v5_uuid Component.PcieFunction u key;
    update_pcie_function_in_relations device u p;;
    mret p).

(** One function of a device. *)
Definition stabilize_function_of_device (p : uuid) (function_uuid : uuid) : M Model unit :=
  set_parent Component.PcieFunction function_uuid p;;
  function ← read Component.PcieFunction function_uuid;
  match functional_device (fields (c := Component.PcieFunction) function) with
  | None => throw (key_value_missing "")
  | Some functional_device_uuid =>
      s ← get;
      if entry_exists functional_device_uuid (tables s Component.Processor) then
        processor ← get_entry Component.Processor functional_device_uuid;
        unique_key ← value (processor_serial (fields (c := Component.Processor) processor));
        stabilize_pcie_function_external ProcessorFunction function_uuid unique_key;; mret tt
      else
        stabilize_pcie_function DriveFunction function_uuid;; mret tt
  end.

(** A KeyValueMissingError from the loop is caught after [device_uuid] was assigned. *)
Definition stabilize_pcie_device (u : uuid) : M Model uuid :=
  device ← get_entry Component.PcieDevice u;
  catch_missing u (
    key ← lift (key_PcieDevice m_agent_id device);
    p ← stabilize_single_resource make_v5_uuid Component.PcieDevice u key;
    catch_missing tt (
      function_keys ← get_keys_of Component.PcieFunction u;
      for_each function_keys (stabilize_function_of_device p));;
    mret p).

(** [stabilize_pcie_device<Device>(u, external_device_unique_key)] *)
Definition stabilize_pcie_device_external (device_relation : Relation) (u : uuid) (external_device_unique_key : string) :
    M Model uuid :=
  device ← get_entry Component.PcieDevice u;
  catch_missing u (
    key ← lift (key_PcieDevice_external m_agent_id device external_device_unique_key);
    p ← stabilize_single_resource make_v5_uuid Component.PcieDevice u key;
    function_keys ← get_keys_of Component.PcieFunction u;
    for_each function_keys (λ function_uuid,
      set_parent Component.PcieFunction function_uuid p;;
      stabilize_pcie_function_external device_relation function_uuid external_device_unique_key;; mret tt);;
    mret p).

Definition stabilize_drive (u : uuid) : M Model uuid :=
  drive ← get_entry Component.Drive u;
  catch_missing u (
    key ← lift (key_Drive m_agent_id drive);
    p ← stabilize_single_resource make_v5_uuid Component.Drive u key;
    update_pcie_drive_in_relations u p;;
    mret p).

Definition stabilize_chassis (u : uuid) : M Model uuid :=
  chassis ← get_entry Component.Chassis u;
  switch_keys ← get_keys Component.Switch (λ r, bool_decide (switch_chassis (fields r) = Some (get_uuid chassis)));
  match switch_keys with
  | [] => throw (runtime_error "No switch found.")
  | front :: _ =>
      catch_missing u (
        pcie_switch ← get_entry Component.Switch front;
        key ← lift (key_Chassis m_agent_id chassis pcie_switch);
        p ← stabilize_single_resource make_v5_uuid Component.Chassis u key;
        update_chassis_in_relations u p;;
        drive_keys ← get_keys_of Component.Drive u;
        for_each drive_keys (λ drive_uuid,
          set_parent Component.Drive drive_uuid p;;
          stabilize_drive drive_uuid;; mret tt);;
        mret p)
  end.

Definition stabilize_port_metric (u p : uuid) : M Model unit :=
  keys ← get_keys Component.Metric (λ r, bool_decide (component_uuid (fields r) = u));
  match keys with
  | [key] =>
      write Component.Metric key (λ r,
        make_stable make_v5_uuid p (set_fields (c := Component.Metric) (mkMetricF p) r));; mret tt
  | _ => mret tt
  end.

Definition stabilize_port (u : uuid) : M Model uuid :=
  port ← get_entry Component.Port u;
  parent_switch ← get_entry Component.Switch (m_parent_uuid port);
  catch_missing u (
    key ← lift (key_Port m_agent_id port parent_switch);
    p ← stabilize_single_resource make_v5_uuid Component.Port u key;
    update_pcie_port_in_relations u p;;
    stabilize_port_metric u p;;
    mret p).

Definition stabilize_pcie_switch (u : uuid) : M Model uuid :=
  pcie_switch ← get_entry Component.Switch u;
  catch_missing u (
    key ← lift (key_Switch m_agent_id pcie_switch);
    p ← stabilize_single_resource make_v5_uuid Component.Switch u key;
    update_pcie_switch_in_relations u p;;
    port_keys ← get_keys_of Component.Port u;
    for_each port_keys (λ port_uuid,
      set_parent Component.Port port_uuid p;;
      stabilize_port port_uuid;; mret tt);;
    mret p).

Definition stabilize_pcie_zone (u : uuid) : M Model uuid :=
  zone ← get_entry Component.Zone u;
  parent_switch ← get_entry Component.Switch (zone_switch_uuid (fields zone));
  catch_missing u (
    key ← lift (key_Zone m_agent_id zone parent_switch);
    p ← stabilize_single_resource make_v5_uuid Component.Zone u key;
    update_pcie_zone_in_relations u p;;
    mret p).

(** The ports of an endpoint, in the order of the relation. *)
Fixpoint get_entries_for (c : Component.t) (l : list uuid) : M Model (list (Res c)) :=
  match l with
  | [] => mret []
  | u :: l' => r ← get_entry c u; rs ← get_entries_for c l'; mret (r :: rs)
  end.

Definition stabilize_pcie_endpoint (u : uuid) : M Model uuid :=
  endpoint ← get_entry Component.Endpoint u;
  catch_missing u (
    s ← get;
    endpoint_ports ← get_entries_for Component.Port (ManyToMany.get_children u (relations s EndpointPort));
    key ← lift (key_Endpoint m_agent_id endpoint endpoint_ports);
    p ← stabilize_single_resource make_v5_uuid Component.Endpoint u key;
    update_pcie_endpoint_in_relations u p;;
    mret p).

Definition stabilize_fabric (u : uuid) : M Model uuid :=
  fabric ← get_entry Component.Fabric u;
  catch_missing u (
    key ← lift (key_Fabric m_agent_id fabric);
    p ← stabilize_single_resource make_v5_uuid Component.Fabric u key;
    switch_keys ← get_keys_of Component.Switch u;
    for_each switch_keys (λ k, set_parent Component.Switch k p;; stabilize_pcie_switch k;; mret tt);;
    zone_keys ← get_keys_of Component.Zone u;
    for_each zone_keys (λ k, set_parent Component.Zone k p;; stabilize_pcie_zone k;; mret tt);;
    endpoint_keys ← get_keys_of Component.Endpoint u;
    for_each endpoint_keys (λ k, set_parent Component.Endpoint k p;; stabilize_pcie_endpoint k;; mret tt);;
    mret p).

(** The functional devices of the functions, or [None] if one has none. *)
Fixpoint functional_devices (l : list (Res Component.PcieFunction)) : option (list uuid) :=
  match l with
  | [] => Some []
  | f :: l' => d ← functional_device (fields f); ds ← functional_devices l'; Some (d :: ds)
  end.

(** [std::unique] moves the elements and leaves the size of the vector as it is; the
    first element stays the first. *)
Definition try_stabilize_pcie_device_using_oob_model (u : uuid) : M Model uuid :=
  s ← get;
  match functional_devices (get_entries_of u (λ _, true) (tables s Component.PcieFunction)) with
  | None => mret u
  | Some [functional_device_uuid] =>
      if entry_exists functional_device_uuid (tables s Component.Processor) then
        processor ← get_entry Component.Processor functional_device_uuid;
        unique_key ← value (processor_serial (fields (c := Component.Processor) processor));
        stabilize_pcie_device_external ProcessorFunction u unique_key
      else stabilize_pcie_device u
  | Some _ => mret u
  end.

(** One device of the module. *)
Definition stabilize_device_of_module (p : uuid) (device_uuid : uuid) : M Model unit :=
  set_parent Component.PcieDevice device_uuid p;;
  device ← read Component.PcieDevice device_uuid;
  match device_serial (fields (c := Component.PcieDevice) device) with
  | Some _ => stabilize_pcie_device device_uuid;; mret tt
  | None => try_stabilize_pcie_device_using_oob_model device_uuid;; mret tt
  end.

Definition stabilize (u : uuid) : M Model uuid :=
  manager ← get_entry Component.Manager u;
  catch_missing u (
    switch_keys ← get_keys Component.Switch (λ _, true);
    match switch_keys with
    | [switch_key] =>
        managed_switch ← get_entry Component.Switch switch_key;
        key ← lift (key_Manager m_agent_id manager managed_switch);
        p ← stabilize_single_resource make_v5_uuid Component.Manager u key;
        chassis_keys ← get_keys_of Component.Chassis u;
        for_each chassis_keys (λ k, set_parent Component.Chassis k p;; stabilize_chassis k;; mret tt);;
        fabric_keys ← get_keys_of Component.Fabric u;
        for_each fabric_keys (λ k, set_parent Component.Fabric k p;; stabilize_fabric k;; mret tt);;
        system_keys ← get_keys_of Component.System u;
        for_each system_keys (λ k, set_parent Component.System k p;; stabilize_system k;; mret tt);;
        device_keys ← get_keys_of Component.PcieDevice u;
        for_each device_keys (stabilize_device_of_module p);;
        mret p
    | _ => throw (runtime_error "No managed switch found.")
    end).

Definition stabilize_metric_definition (u : uuid) : M Model uuid :=
  definition ← get_entry Component.MetricDefinition u;
  catch_missing u (
    key ← lift (key_MetricDefinition definition);
    stabilize_single_resource make_v5_uuid Component.MetricDefinition u key).

Definition stabilize_processor (u : uuid) : M Model uuid :=
  processor ← get_entry Component.Processor u;
  catch_missing u (
    key ← lift (key_Processor m_agent_id processor);
    p ← stabilize_single_resource make_v5_uuid Component.Processor u key;
    update_processor_in_relations u p;;
    mret p).
End stabilizer.

End PncStabilizer.
