(* ===== verification/PncReferences.v ===== *)
(** The references of the pnc agent's resource model: where a resource names another one
    by its uuid, when such a reference is up to date, and how the primitive steps of the
    stabilizer (a write through a reference to an entry, the renaming in a relation)
    change the references.

    A reference is up to date if it is the uuid that a resource of the right type
    reports, the persistent one if it has one: this is what the agent shows to its
    clients.  While the stabilizer works its way through the tree, references to a
    resource it has just renamed are out of date; [ok] says that all the others are up
    to date. *)

From Stdlib Require Import ZArith Lia.
From Stdlib Require Import Eqdep_dec.
From S2P Require Import Prelude.
From S2P Require Import OrdSet.
From S2P Require Import Enums.
From S2P Require Import ManyToMany.
From S2P Require Import GenericManager.
From S2P Require Import PncModel.
From S2P Require Import PncStabilizer.
Import GenericManager PncModel PncStabilizer.

Module PncReferences.

(** ** Tables after a write *)

Lemma tables_set_table_eq c t s : tables (set_table c t s) c = t.
Proof.
  cbn. destruct (decide (c = c)) as [e|]; [|done]. symmetry.
  apply eq_rect_eq_dec. intros x y. apply (decide (x = y)).
Qed.

Lemma tables_set_table_ne c c' t s : c ≠ c' → tables (set_table c t s) c' = tables s c'.
Proof. intros H. cbn. by destruct (decide (c = c')). Qed.

Lemma data_set_entry_eq c i r s : data (set_entry c i r s) c = <[i := r]> (data s c).
Proof. unfold data at 1, set_entry. by rewrite tables_set_table_eq. Qed.

Lemma data_set_entry_ne c c' i r s : c ≠ c' → data (set_entry c i r s) c' = data s c'.
Proof. intros H. unfold data, set_entry. by rewrite tables_set_table_ne. Qed.

(** [s'] is [s] with the table of [c] mapped. *)
Definition mapped (c : Component.t) (g : Res c → Res c) (s s' : Model) : Prop :=
  data s' c = g <$> data s c ∧ (∀ c', c' ≠ c → tables s' c' = tables s c') ∧ relations s' = relations s.

(** ** References *)

Inductive field :=
  | SwitchChassis | SystemChassis | DeviceChassis | ZoneSwitch
  | FunctionPort | FunctionDevice | DrivePorts | EndpointEntities.

Inductive source :=
  | Parent (c : Component.t)
  | Field (f : field)
  | Side (r : Relation) (p : ManyToMany.position).

(** A plain string is empty when there is no reference. *)
Definition named (u : uuid) : list uuid := if decide (u = ""%string) then [] else [u].

Definition reads (f : field) (c : Component.t) : Fields c → list uuid :=
  match f, c with
  | SwitchChassis, Component.Switch => λ x, option_list (switch_chassis x)
  | SystemChassis, Component.System => λ x, option_list (system_chassis x)
  | DeviceChassis, Component.PcieDevice => λ x, option_list (device_chassis x)
  | ZoneSwitch, Component.Zone => λ x, [zone_switch_uuid x]
  | FunctionPort, Component.PcieFunction => λ x, named (dsp_port_uuid x)
  | FunctionDevice, Component.PcieFunction => λ x, option_list (functional_device x)
  | DrivePorts, Component.Drive => λ x, drive_dsp_port_uuids x
  | EndpointEntities, Component.Endpoint => λ x, omap entity (endpoint_connected_entities x)
  | _, _ => λ _, []
  end.

(** The source [src] of the entry at position [i] names [u]. *)
Definition refs (s : Model) (src : source) (i : nat) (u : uuid) : Prop :=
  match src with
  | Parent c => ∃ r, data s c !! i = Some r ∧ m_parent_uuid r = u
  | Field f => ∃ c r, data s c !! i = Some r ∧ u ∈ reads f c (fields r)
  | Side rl p => ∃ x, x ∈ relations s rl ∧ ManyToMany.component p x = u
  end.

(** The sources that name resources of a type. *)
Definition aimed (c : Component.t) : list source :=
  match c with
  | Component.Manager => Parent <$> [Component.Chassis; Component.Fabric; Component.System; Component.PcieDevice]
  | Component.Chassis => [Field SwitchChassis; Field SystemChassis; Field DeviceChassis; Parent Component.Drive]
  | Component.Drive =>
      [Field EndpointEntities; Field FunctionDevice; Side DriveFunction ManyToMany.P0;
       Side SubsystemDrive ManyToMany.P1]
  | Component.Fabric => Parent <$> [Component.Switch; Component.Zone; Component.Endpoint]
  | Component.Switch => [Field ZoneSwitch; Parent Component.Port]
  | Component.Port => [Field FunctionPort; Field DrivePorts; Side EndpointPort ManyToMany.P1]
  | Component.Zone => [Side ZoneEndpoint ManyToMany.P0]
  | Component.Endpoint => [Side ZoneEndpoint ManyToMany.P1; Side EndpointPort ManyToMany.P0]
  | Component.System => [Parent Component.StorageSubsystem]
  | Component.StorageSubsystem => [Side SubsystemDrive ManyToMany.P0]
  | Component.PcieDevice => [Parent Component.PcieFunction]
  | Component.PcieFunction => [Side DriveFunction ManyToMany.P1; Side ProcessorFunction ManyToMany.P1]
  | Component.Processor =>
      [Field EndpointEntities; Field FunctionDevice; Side ProcessorFunction ManyToMany.P0]
  | _ => []
  end.

Definition keys (s : Model) (c : Component.t) : list uuid := get_uuid <$> data s c.

Definition tracked (src : source) : Prop := ∃ c, src ∈ aimed c.

Definition current (s : Model) (src : source) (u : uuid) : Prop := ∃ c, src ∈ aimed c ∧ u ∈ keys s c.

(** Every reference of the model is the uuid of a resource. *)
Definition up_to_date (s : Model) : Prop := ∀ src i u, tracked src → refs s src i u → current s src u.

(** All references are up to date but the parents that [X] allows, and those to [w] in
    the sources [L]. *)
Definition ok (X : Component.t → nat → uuid → Prop) (L : list source) (w : uuid) (s : Model) : Prop :=
  ∀ src i u, tracked src → refs s src i u →
    current s src u ∨ (∃ c, src = Parent c ∧ X c i u) ∨ (src ∈ L ∧ u = w).

Definition nowhere (c : Component.t) (i : nat) (u : uuid) : Prop := False.

Lemma ok_up_to_date w s : ok nowhere [] w s ↔ up_to_date s.
Proof.
  split; intros H src i u Ht Hr; [|left; by eapply H].
  destruct (H src i u Ht Hr) as [?|[(?&?&[])|[[]%elem_of_nil ?]]]; done.
Qed.

Lemma ok_any X w w' s : ok X [] w s → ok X [] w' s.
Proof. intros H src i u Ht Hr. destruct (H src i u Ht Hr) as [?|[?|[[]%elem_of_nil ?]]]; auto. Qed.

Lemma ok_same X L w s s' :
  (∀ c, data s' c = data s c) → relations s' = relations s → ok X L w s → ok X L w s'.
Proof.
  intros Hd Hr Hok src i u Ht Hu.
  assert (refs s src i u) as Hu'.
  { destruct src; simpl in *; rewrite ?Hr in Hu; [by rewrite Hd in Hu| |done].
    destruct Hu as (c & r & Hi & Hin). rewrite Hd in Hi. eauto. }
  destruct (Hok src i u Ht Hu') as [(c & Hc & Hk)|?]; [|by right].
  left. exists c. split; [done|]. unfold keys in *. by rewrite Hd.
Qed.

(** ** Renaming an entry *)

Section rename.
Context (make_v5_uuid : string → uuid).

Lemma get_uuid_make_stable {c} key (r : Res c) : get_uuid (make_stable make_v5_uuid key r) = make_v5_uuid key.
Proof. done. Qed.

Lemma keys_set_entry s c i (r r' : Res c) u :
  data s c !! i = Some r → u ∈ keys s c → u ≠ get_uuid r → u ∈ keys (set_entry c i r' s) c.
Proof.
  intros Hi Hu Hne. unfold keys in *. rewrite data_set_entry_eq. apply list_elem_of_fmap in Hu as (x & -> & Hx).
  apply list_elem_of_lookup in Hx as (j & Hj). apply list_elem_of_fmap. exists x. split; [done|].
  apply list_elem_of_lookup. exists j. rewrite list_lookup_insert_ne; [done|]. intros ->. rewrite Hi in Hj.
  by injection Hj as <-.
Qed.

Lemma keys_set_entry_new s c i (r r' : Res c) :
  data s c !! i = Some r → get_uuid r' ∈ keys (set_entry c i r' s) c.
Proof.
  intros Hi. unfold keys. rewrite data_set_entry_eq. apply list_elem_of_fmap. exists r'. split; [done|].
  apply list_elem_of_lookup. exists i. apply list_lookup_insert_eq. by eapply lookup_lt_Some.
Qed.

Lemma keys_set_entry_ne s c c' i (r' : Res c) : c ≠ c' → keys (set_entry c i r' s) c' = keys s c'.
Proof. intros H. unfold keys. by rewrite data_set_entry_ne. Qed.

(** A write that keeps the parent and the fields of the entry keeps the references. *)
Lemma refs_set_entry s c i (r r' : Res c) src j u :
  data s c !! i = Some r → m_parent_uuid r' = m_parent_uuid r → fields r' = fields r →
  refs (set_entry c i r' s) src j u → refs s src j u.
Proof.
  intros Hi Hp Hf.
  assert (∀ c' x, data (set_entry c i r' s) c' !! j = Some x →
    ∃ x', data s c' !! j = Some x' ∧ m_parent_uuid x' = m_parent_uuid x ∧ fields x' = fields x) as Hx.
  { intros c' x. destruct (decide (c = c')) as [<-|Hc].
    - rewrite data_set_entry_eq. intros [[<- [-> _]]|[_ ?]]%list_lookup_insert_Some; eauto.
    - rewrite data_set_entry_ne by done. eauto. }
  destruct src as [c'|f|rl p]; simpl.
  - intros (x & Hj & <-). destruct (Hx _ _ Hj) as (x' & ? & ? & _). eauto.
  - intros (c' & x & Hj & Hu). destruct (Hx _ _ Hj) as (x' & ? & _ & Hf'). exists c', x'. by rewrite Hf'.
  - done.
Qed.

Lemma rename_ok X s c i (r r' : Res c) w :
  data s c !! i = Some r → get_uuid r = w → m_parent_uuid r' = m_parent_uuid r → fields r' = fields r →
  ok X [] w s → ok X (aimed c) w (set_entry c i r' s).
Proof.
  intros Hi <- Hp Hf Hok src j u Ht Hr.
  apply (refs_set_entry s c i r) in Hr; [|done..].
  destruct (Hok src j u Ht Hr) as [(c' & Hc' & Hk)|[?|[[]%elem_of_nil _]]]; [|by right; left].
  destruct (decide (c = c')) as [<-|Hne].
  - destruct (decide (u = get_uuid r)) as [->|Hu]; [by right; right|].
    left. exists c. split; [done|]. by eapply keys_set_entry.
  - left. exists c'. by rewrite keys_set_entry_ne.
Qed.

End rename.

(** The references of one source replaced. *)
Lemma fix_ok X src L w p s s' :
  (∀ c, keys s' c = keys s c) →
  (∀ src' i u, src' ≠ src → refs s' src' i u → refs s src' i u) →
  (∀ i u, refs s' src i u → u = p ∨ (u ≠ w ∧ refs s src i u)) →
  current s src p → ok X (src :: L) w s → ok X L w s'.
Proof.
  intros Hk Ho Hs Hp Hok src' i u Ht Hr.
  assert (∀ v u', current s v u' → current s' v u') as Hc.
  { intros v u' (c & ? & ?). exists c. by rewrite Hk. }
  assert (src' ≠ src ∨ src' = src ∧ u ≠ w → refs s src' i u → current s' src' u ∨
    (∃ c, src' = Parent c ∧ X c i u) ∨ src' ∈ L ∧ u = w) as Hold.
  { intros Hcase Hr'. destruct (Hok src' i u Ht Hr') as [?|[?|[[->|Hin]%elem_of_cons ->]]]; auto.
    by destruct Hcase as [|[]]. }
  assert (src' = src ∨ src' ≠ src) as [->|Hne].
  { destruct src', src; try (by right; congruence).
    - destruct (decide (c = c0)); [left|right]; congruence.
    - destruct f, f0; ((by left) || (by right)).
    - destruct (decide (r = r0)); [|right; congruence]. destruct p0, p1; subst; ((by left) || (by right)). }
  - destruct (Hs i u Hr) as [->|[Hu Hr']]; [left; auto|apply Hold; auto].
  - apply Hold; [by left|]. by apply Ho.
Qed.

(** [update_relation] replaces one side of the relation. *)
Lemma update_relation_run rl p w w' s :
  ManyToMany.sorted (relations s rl) →
  ∃ d, update_relation rl p w w' s = (Ok tt, set_relation rl d s) ∧ ManyToMany.sorted d ∧
    ∀ y, y ∈ d ↔ ManyToMany.renamed p w w' (relations s rl) y.
Proof.
  intros Hd. destruct (ManyToMany.update_entry_spec p w w' _ Hd) as (d & Hr & Hs & Hy). exists d.
  split_and!; [|done|done]. unfold update_relation. run_monad. by rewrite Hr.
Qed.

Lemma relations_set_relation_eq rl d s : relations (set_relation rl d s) rl = d.
Proof. cbn. by rewrite decide_True. Qed.

Lemma relations_set_relation_ne rl rl' d s : rl ≠ rl' → relations (set_relation rl d s) rl' = relations s rl'.
Proof. intros H. cbn. by rewrite decide_False. Qed.

Lemma fix_side X rl p L w w' d s :
  (∀ y, y ∈ d ↔ ManyToMany.renamed p w w' (relations s rl) y) →
  current s (Side rl p) w' →
  ok X (Side rl p :: L) w s → ok X L w (set_relation rl d s).
Proof.
  intros Hd. apply fix_ok; [done| |].
  - intros [c|f|rl' p'] i u Hne; [done|done|]. simpl. intros (x & Hx & <-).
    destruct (decide (rl = rl')) as [<-|?]; [|eauto]. apply Hd in Hx as (y & Hy & ->). exists y. split; [done|].
    case_decide as Hc; [|done]. destruct p, p'; try done.
  - intros i u (x & Hx & <-). rewrite relations_set_relation_eq in Hx. apply Hd in Hx as (y & Hy & ->).
    case_decide as Hc; [left; apply ManyToMany.component_set|]. right. split; [congruence|]. simpl. eauto.
Qed.

(** A field replaced in the whole table of its holder. *)
Lemma fix_field X f L w p s s' c (h : Fields c → Fields c) (g : Res c → Res c) :
  mapped c g s s' →
  (∀ r, get_uuid (g r) = get_uuid r ∧ m_parent_uuid (g r) = m_parent_uuid r ∧ fields (g r) = h (fields r)) →
  (∀ f' x, f' ≠ f → reads f' c (h x) = reads f' c x) →
  (∀ x u, u ∈ reads f c (h x) → u = p ∨ (u ≠ w ∧ u ∈ reads f c x)) →
  (∀ c' x, c' ≠ c → reads f c' x = []) →
  current s (Field f) p →
  ok X (Field f :: L) w s → ok X L w s'.
Proof.
  intros (Hd & Hother & Hrel) Hg Ho Hr Hemp.
  assert (∀ c', c' ≠ c → data s' c' = data s c') as Hother' by (intros; unfold data; by rewrite Hother).
  assert (∀ c' i x, data s' c' !! i = Some x → ∃ x', data s c' !! i = Some x' ∧
    m_parent_uuid x' = m_parent_uuid x ∧ (∀ f', f' ≠ f → reads f' c' (fields x) = reads f' c' (fields x')) ∧
    ∀ u, u ∈ reads f c' (fields x) → u = p ∨ (u ≠ w ∧ u ∈ reads f c' (fields x'))) as Hx.
  { intros c' i x Hi. destruct (decide (c' = c)) as [->|Hne].
    - rewrite Hd, list_lookup_fmap in Hi. destruct (data s c !! i) as [y|]; [|done]. injection Hi as <-.
      destruct (Hg y) as (_ & -> & ->). exists y. eauto 6.
    - rewrite Hother' in Hi by done. exists x. split_and!; try done. rewrite (Hemp c') by done. by intros u ?%elem_of_nil. }
  apply fix_ok.
  - intros c'. unfold keys. destruct (decide (c' = c)) as [->|Hne]; [|by rewrite Hother'].
    rewrite Hd, <- list_fmap_compose. apply list_fmap_ext. intros ? r _. apply Hg.
  - intros [c'|f'|rl p'] i u Hne; simpl; [| |by rewrite Hrel].
    + intros (x & Hi & <-). destruct (Hx _ _ _ Hi) as (x' & ? & ? & _). eauto.
    + intros (c' & x & Hi & Hu). destruct (Hx _ _ _ Hi) as (x' & ? & _ & Hf & _). exists c', x'. split; [done|].
      rewrite <- Hf; [done|]. congruence.
  - intros i u (c' & x & Hi & Hu). destruct (Hx _ _ _ Hi) as (x' & ? & _ & _ & Hf).
    destruct (Hf u Hu) as [->|[? ?]]; [by left|]. right. split; [done|]. by exists c', x'.
Qed.

End PncReferences.
