(* ===== verification/PncInvariant.v ===== *)
(** The invariant of the pnc agent's model under which its stabilizer works, and the
    steps of the stabilizer in terms of it: writes through references to entries, the
    replacement of a field in a table, the renaming of one resource and the loops over
    the children of a resource. *)

From Stdlib Require Import ZArith Lia.
From S2P Require Import Prelude.
From S2P Require Import OrdSet.
From S2P Require Import Enums.
From S2P Require Import ManyToMany.
From S2P Require Import GenericManager.
From S2P Require Import PncModel.
From S2P Require Import PncStabilizer.
From S2P Require Import PncReferences.
Import GenericManager PncModel PncStabilizer PncReferences.

Module PncInvariant.

(** ** Runs that return *)

Definition runs {S A} (m : M S A) (s : S) (Q : A → S → Prop) : Prop := ∃ a s', m s = (Ok a, s') ∧ Q a s'.

Section runs.
Context {S : Type}.

Lemma runs_ret {A} (a : A) (s : S) (Q : A → S → Prop) : Q a s → runs (mret a) s Q.
Proof. intros H. by exists a, s. Qed.

Lemma runs_bind {A B} (m : M S A) (f : A → M S B) s Q :
  runs m s (λ a s', runs (f a) s' Q) → runs (m ≫= f) s Q.
Proof.
  intros (a & s1 & Hm & b & s2 & Hf & HQ). exists b, s2. split; [|done]. by rewrite (bind_run _ _ _ _ _ Hm).
Qed.

Lemma runs_conseq {A} (m : M S A) s (Q Q' : A → S → Prop) :
  runs m s Q → (∀ a s', Q a s' → Q' a s') → runs m s Q'.
Proof. intros (a & s1 & Hm & HQ) Himp. exists a, s1. auto. Qed.

Lemma runs_get_bind {B} (f : S → M S B) s Q : runs (f s) s Q → runs (get ≫= f) s Q.
Proof. done. Qed.

Lemma runs_lift_bind {A B} (r : result A) a (f : A → M S B) s Q :
  r = Ok a → runs (f a) s Q → runs (lift r ≫= f) s Q.
Proof. by intros ->. Qed.

Lemma runs_put (s' : S) (s : S) (Q : unit → S → Prop) : Q tt s' → runs (put s') s Q.
Proof. intros H. by exists tt, s'. Qed.

End runs.

Lemma runs_catch {A} (a : A) m s Q : runs m s Q → runs (catch_missing a m) s Q.
Proof. intros (b & s' & Hm & HQ). exists b, s'. split; [|done]. unfold catch_missing, try_catch. by rewrite Hm. Qed.

Lemma runs_catch_missing {A} (a : A) m what s (Q : A → Model → Prop) :
  m s = (Throw (key_value_missing what), s) → Q a s → runs (catch_missing a m) s Q.
Proof. intros Hm HQ. exists a, s. split; [|done]. unfold catch_missing, try_catch. by rewrite Hm. Qed.

(** ** Entries *)

(** What a write of fields leaves as it is. *)
Definition skel {J} (r : @Resource J) : uuid * uuid * bool * uuid :=
  (m_temporary_uuid r, m_persistent_uuid r, m_is_uuid_persistent r, m_parent_uuid r).

Lemma skel_uuid {J} (r r' : @Resource J) : skel r' = skel r → get_uuid r' = get_uuid r.
Proof. unfold skel, get_uuid. by intros [= -> -> -> _]. Qed.

Lemma skel_any {J} u (r r' : @Resource J) : skel r' = skel r → has_any_uuid u r' = has_any_uuid u r.
Proof. unfold skel, has_any_uuid. by intros [= -> -> _ _]. Qed.

Lemma has_any_own {J} (r : @Resource J) : has_any_uuid (get_uuid r) r = true.
Proof.
  unfold has_any_uuid, get_uuid. apply orb_true_iff. rewrite !bool_decide_eq_true.
  destruct (m_is_uuid_persistent r); auto.
Qed.

Lemma has_key_any {J} u (r : @Resource J) : has_key u r = true → has_any_uuid u r = true.
Proof. unfold has_key, has_any_uuid. rewrite !orb_true_iff, andb_true_iff. tauto. Qed.

Lemma find_if_unique {J} (f : @Resource J → bool) l i r :
  l !! i = Some r → f r = true → (∀ j r', l !! j = Some r' → f r' = true → j = i) → find_if f l = Some (i, r).
Proof.
  intros Hi Hf Hu. destruct (find_if f l) as [[j r']|] eqn:E.
  - apply find_if_Some in E as (Hj & Hf' & _). rewrite <- (Hu j r' Hj Hf'), Hj in *. congruence.
  - apply find_if_None in E. rewrite list.Forall_forall in E.
    rewrite (E r) in Hf; [done|]. by eapply list_elem_of_lookup_2.
Qed.

(** The entry at position [i] is the only one that [w] finds. *)
Definition uniq (s : Model) (c : Component.t) (w : uuid) (i : nat) (r : Res c) : Prop :=
  data s c !! i = Some r ∧ get_uuid r = w ∧ ∀ j r', data s c !! j = Some r' → has_any_uuid w r' = true → j = i.

Lemma write_run s c w i r f : uniq s c w i r → write c w f s = (Ok (f r), set_entry c i (f r) s).
Proof.
  intros (Hi & Hw & Hu). unfold write, GenericManager.get_entry_reference. run_monad.
  rewrite (find_if_unique _ _ i r); [|done| |done].
  - by rewrite Hi.
  - rewrite <- Hw. apply has_any_own.
Qed.

Lemma get_entry_run s c w i r : uniq s c w i r → get_entry c w s = (Ok r, s).
Proof.
  intros (Hi & Hw & Hu). unfold get_entry, GenericManager.get_entry, find_entry. run_monad.
  rewrite (find_if_unique _ _ i r); [done|done| |].
  - rewrite <- Hw. apply has_key_own.
  - intros j r' Hj Hk. apply (Hu j r'); [done|]. by apply has_key_any.
Qed.

Lemma entry_read_run s c w i r : uniq s c w i r → read c w s = (Ok r, s).
Proof.
  intros (Hi & Hw & Hu). unfold read, GenericManager.get_entry_reference. run_monad.
  rewrite (find_if_unique _ _ i r); [|done| |done].
  - unfold index. by rewrite Hi.
  - rewrite <- Hw. apply has_any_own.
Qed.

Lemma get_entry_known s c w : w ∈ keys s c → ∃ i r, data s c !! i = Some r ∧ get_entry c w s = (Ok r, s).
Proof.
  intros (r & -> & Hr)%list_elem_of_fmap. unfold get_entry, GenericManager.get_entry, find_entry. run_monad.
  destruct (find_if (has_key (get_uuid r)) (m_manager_data (tables s c))) as [[i x]|] eqn:E.
  - apply find_if_Some in E as (Hi & _). eauto.
  - apply find_if_None in E. rewrite list.Forall_forall in E. specialize (E r Hr). by rewrite has_key_own in E.
Qed.

Lemma write_known s c w f :
  w ∈ keys s c → ∃ i r, data s c !! i = Some r ∧ write c w f s = (Ok (f r), set_entry c i (f r) s).
Proof.
  intros (r & -> & Hr)%list_elem_of_fmap. unfold write, GenericManager.get_entry_reference. run_monad.
  destruct (find_if (has_any_uuid (get_uuid r)) (m_manager_data (tables s c))) as [[i x]|] eqn:E.
  - apply find_if_Some in E as (Hi & _). exists i, x. unfold data. by rewrite Hi.
  - apply find_if_None in E. rewrite list.Forall_forall in E. specialize (E r Hr). by rewrite has_any_own in E.
Qed.

(** Every uuid of the table finds the entry that reports it. *)
Definition all_uniq (s : Model) (c : Component.t) : Prop :=
  ∀ i j r r', data s c !! i = Some r → data s c !! j = Some r' → has_any_uuid (get_uuid r) r' = true → j = i.

(** ** The replacement of a field in a table *)

Section replacement.
Context (c : Component.t) (f : Res c → Res c) (flt : Res c → bool) (body : uuid → M Model unit).
Context (P : Res c → Prop).
Hypothesis f_skel : ∀ r, skel (f r) = skel r.
Hypothesis body_run : ∀ s w i r, uniq s c w i r → P r → body w s = (Ok tt, set_entry c i (f r) s).

Let g (r : Res c) : Res c := if flt r then f r else r.

Lemma skel_replaced r : skel (g r) = skel r.
Proof. unfold g. by destruct (flt r). Qed.

Lemma replace_loop (s : Model) (todo : list (Res c)) :
  all_uniq s c → Forall P todo → ∀ (done : list (Res c)) (s1 : Model),
  data s c = done ++ todo → data s1 c = (g <$> done) ++ todo →
  (∀ c', c' ≠ c → tables s1 c' = tables s c') → relations s1 = relations s →
  runs (for_each (get_uuid <$> filter (λ r, flt r = true) todo) body) s1 (λ _ s', mapped c g s s').
Proof.
  intros Hu HP. induction HP as [|r todo Hr HP IH]; intros done s1 Hd Hd1 Ho Hrel.
  { apply runs_ret. split_and!; [|done|done]. by rewrite Hd1, Hd, !app_nil_r. }
  rewrite filter_cons. case_decide as Hflt.
  - cbn [fmap list_fmap for_each]. fold (get_uuid <$> filter (λ r, flt r = true) todo).
    assert (uniq s1 c (get_uuid r) (length done) r) as Hur.
    { split_and!; [|done|].
      - rewrite Hd1. apply list_lookup_middle. by rewrite length_fmap.
      - intros j r' Hj Hany.
        assert (∃ r0, data s c !! j = Some r0 ∧ skel r' = skel r0) as (r0 & Hj0 & Hs).
        { rewrite Hd1, lookup_app, list_lookup_fmap, length_fmap in Hj. rewrite Hd, lookup_app.
          destruct (done !! j) as [x|]; simpl in *; [|eauto]. injection Hj as <-. exists x.
          split; [done|]. apply skel_replaced. }
        rewrite (skel_any _ _ _ Hs) in Hany. eapply (Hu (length done)); [|exact Hj0|exact Hany].
        rewrite Hd. by apply list_lookup_middle. }
    apply runs_bind. exists tt, (set_entry c (length done) (f r) s1). split; [by apply body_run|].
    apply (IH (done ++ [r])).
    + by rewrite Hd, <- app_assoc.
    + rewrite data_set_entry_eq, Hd1, insert_app_r_alt by (by rewrite length_fmap).
      rewrite length_fmap, Nat.sub_diag, fmap_app, <- app_assoc. simpl.
      assert (g r = f r) as -> by (unfold g; by rewrite Hflt). done.
    + intros c' Hc'. unfold set_entry. rewrite tables_set_table_ne by done. by apply Ho.
    + done.
  - apply (IH (done ++ [r])); [by rewrite Hd, <- app_assoc| |done|done].
    rewrite Hd1, fmap_app, <- app_assoc. simpl.
    assert (g r = r) as -> by (unfold g; by destruct (flt r)). done.
Qed.

Lemma replace_run s :
  all_uniq s c → Forall P (data s c) →
  runs (for_each (GenericManager.get_keys flt (tables s c)) body) s (λ _ s', mapped c g s s').
Proof. intros Hu HP. by apply (replace_loop s (data s c) Hu HP []). Qed.

End replacement.

Lemma write_all_run c f flt s :
  (∀ r, skel (f r) = skel r) → all_uniq s c →
  runs (write_all c f (GenericManager.get_keys flt (tables s c))) s
    (λ _ s', mapped c (λ r, if flt r then f r else r) s s').
Proof.
  intros Hf Hu. apply (replace_run c f flt _ (λ _, True)); [done| |done|by apply list.Forall_true].
  intros s1 w i r Hr _. rewrite (bind_run _ _ _ _ _ (write_run _ _ _ _ _ _ Hr)). done.
Qed.

(** ** The invariant *)

(** Types the pnc agent has one resource of. *)
Definition single (c : Component.t) : bool :=
  match c with
  | Component.Manager | Component.Chassis | Component.Fabric | Component.Switch
  | Component.System | Component.StorageSubsystem => true
  | _ => false
  end.

Section stable.
Context (make_v5_uuid : string → uuid) (m_agent_id : string).
(** The uuids that [make_v1_uuid] makes, and the table of processors, which does not
    change while the tree is stabilized. *)
Context (is_temp : uuid → Prop) (procs : table Component.Processor).

(** The persistent uuid of a drive with a serial number. *)
Definition drive_uuid (serial : string) : uuid :=
  make_v5_uuid ((m_agent_id +:+ "_PCIeDrive_") +:+ serial)%string.

Definition is_processor (u : uuid) : bool := entry_exists u procs.

Definition drive_ok (r : Res Component.Drive) : Prop :=
  is_processor (m_temporary_uuid r) = false ∧
  (∀ x, drive_serial (fields r) = Some x → is_processor (drive_uuid x) = false) ∧
  if m_is_uuid_persistent r then ∃ x, drive_serial (fields r) = Some x ∧ m_persistent_uuid r = drive_uuid x
  else m_persistent_uuid r = ""%string.

(** What holds of an entry of each type besides its uuids. *)
Definition type_ok (c : Component.t) : Res c → Prop :=
  match c with
  | Component.Drive => drive_ok
  | Component.PcieFunction => λ r,
      is_Some (functional_device (fields (c := Component.PcieFunction) r)) ∧
      (m_is_uuid_persistent r = true → ¬ is_temp (m_parent_uuid r))
  | Component.Endpoint => λ r,
      Forall (λ e, is_Some (entity e) ∧ is_Some (entity_role e))
        (endpoint_connected_entities (fields (c := Component.Endpoint) r))
  | Component.Switch => λ r, is_Some (switch_chassis (fields (c := Component.Switch) r))
  | _ => λ _, True
  end.

Definition entry_ok (c : Component.t) (r : Res c) : Prop :=
  is_temp (m_temporary_uuid r) ∧ ¬ is_temp (m_persistent_uuid r) ∧ type_ok c r.

Definition serial_of (c : Component.t) : Fields c → option string :=
  match c with Component.Drive => drive_serial | _ => λ _, None end.

(** A function that has no persistent uuid yet is related to processors if its device is
    one, and else to drives. *)
Definition function_ok (s : Model) (r : Res Component.PcieFunction) : Prop :=
  m_is_uuid_persistent r = false → ∀ x d, functional_device (fields r) = Some d →
    ManyToMany.child_of x = m_temporary_uuid r →
    (x ∈ relations s ProcessorFunction → is_processor d = true) ∧
    (x ∈ relations s DriveFunction → is_processor d = false).

Record Inv (s : Model) : Prop := {
  inv_entry c i (r : Res c) : data s c !! i = Some r → entry_ok c r;
  inv_temp c i j (r r' : Res c) : data s c !! i = Some r → data s c !! j = Some r' →
    m_temporary_uuid r = m_temporary_uuid r' → i = j;
  inv_serial i j r r' x y : data s Component.Drive !! i = Some r → data s Component.Drive !! j = Some r' →
    serial_of Component.Drive (fields r) = Some x → serial_of Component.Drive (fields r') = Some y →
    drive_uuid x = drive_uuid y → i = j;
  inv_single c : single c = true → length (data s c) ≤ 1;
  inv_switch : length (data s Component.Switch) = 1;
  inv_subsystem : length (data s Component.System) ≤ length (data s Component.StorageSubsystem);
  inv_sorted rl : ManyToMany.sorted (relations s rl);
  inv_procs : tables s Component.Processor = procs;
  inv_function i r : data s Component.PcieFunction !! i = Some r → function_ok s r;
}.

Hypothesis v5_not_temp : ∀ key, ¬ is_temp (make_v5_uuid key).
Hypothesis v5_named : ∀ key, make_v5_uuid key ≠ ""%string.

(** ** What keeps the invariant *)

(** How a step may change the functional device of a function. *)
Definition device_kept (c : Component.t) : Res c → Res c → Prop :=
  match c with
  | Component.PcieFunction => λ r r', m_is_uuid_persistent r' = false → m_is_uuid_persistent r = false ∧
      ∀ d', functional_device (fields (c := Component.PcieFunction) r') = Some d' →
        ∃ d, functional_device (fields (c := Component.PcieFunction) r) = Some d ∧ is_processor d = is_processor d'
  | _ => λ _ _, True
  end.

Definition changes (c : Component.t) (r r' : Res c) : Prop :=
  m_temporary_uuid r' = m_temporary_uuid r ∧ serial_of c (fields r') = serial_of c (fields r) ∧
  entry_ok c r' ∧ device_kept c r r'.

Lemma changes_refl c r : entry_ok c r → changes c r r.
Proof. intros H. split_and!; try done. unfold device_kept. destruct c; try done. eauto. Qed.

Lemma Inv_change s s' :
  Inv s → (∀ c, length (data s' c) = length (data s c)) →
  (∀ c i r', data s' c !! i = Some r' → ∃ r, data s c !! i = Some r ∧ changes c r r') →
  relations s' = relations s → tables s' Component.Processor = tables s Component.Processor → Inv s'.
Proof.
  intros HI Hl Hc Hrel Hp. split.
  - intros c i r Hi. by destruct (Hc _ _ _ Hi) as (? & ? & ? & ? & ? & ?).
  - intros c i j r r' Hi Hj E. destruct (Hc _ _ _ Hi) as (r0 & Hi0 & Ht & _), (Hc _ _ _ Hj) as (r0' & Hj0 & Ht' & _).
    eapply (inv_temp s HI); [exact Hi0|exact Hj0|]. congruence.
  - intros i j r r' x y Hi Hj Hx Hy E. destruct (Hc _ _ _ Hi) as (r0 & Hi0 & _ & Ht & _).
    destruct (Hc _ _ _ Hj) as (r0' & Hj0 & _ & Ht' & _).
    eapply (inv_serial s HI); [exact Hi0|exact Hj0|by rewrite <- Ht|by rewrite <- Ht'|done].
  - intros c Hs. rewrite Hl. by apply (inv_single s HI).
  - rewrite Hl. apply (inv_switch s HI).
  - rewrite !Hl. apply (inv_subsystem s HI).
  - intros rl. rewrite Hrel. apply (inv_sorted s HI).
  - rewrite Hp. apply (inv_procs s HI).
  - intros i r' Hi Hflag x d' Hd' Hx. destruct (Hc _ _ _ Hi) as (r & Hi0 & Ht & _ & _ & Hk).
    destruct (Hk Hflag) as (Hflag0 & Hdev). destruct (Hdev d' Hd') as (d & Hd & Hpd). rewrite Hrel.
    destruct (inv_function s HI i r Hi0 Hflag0 x d Hd) as [H1 H2]; [congruence|]. rewrite Hpd in *. done.
Qed.

Lemma Inv_set_entry s c i r r' :
  Inv s → data s c !! i = Some r → c ≠ Component.Processor → changes c r r' → Inv (set_entry c i r' s).
Proof.
  intros HI Hi Hc Hch. apply (Inv_change s); [done| | |done|].
  - intros c'. destruct (decide (c = c')) as [<-|]; [by rewrite data_set_entry_eq, length_insert|].
    by rewrite data_set_entry_ne.
  - intros c' j x. destruct (decide (c = c')) as [<-|].
    + rewrite data_set_entry_eq. intros [[<- [-> _]]|[_ Hj]]%list_lookup_insert_Some; [eauto|].
      exists x. split; [done|]. apply changes_refl. by eapply (inv_entry s HI).
    + rewrite data_set_entry_ne by done. intros Hj. exists x. split; [done|]. apply changes_refl.
      by eapply (inv_entry s HI).
  - unfold set_entry. by rewrite tables_set_table_ne.
Qed.

Lemma Inv_mapped s s' c g :
  Inv s → mapped c g s s' → c ≠ Component.Processor → (∀ r, entry_ok c r → changes c r (g r)) → Inv s'.
Proof.
  intros HI (Hd & Ho & Hrel) Hc Hg. apply (Inv_change s); [done| | |done|by rewrite Ho].
  - intros c'. destruct (decide (c' = c)) as [->|]; [by rewrite Hd, length_fmap|]. unfold data. by rewrite Ho.
  - intros c' j x. destruct (decide (c' = c)) as [->|].
    + rewrite Hd, list_lookup_fmap. destruct (data s c !! j) as [r|] eqn:E; [|done]. intros [= <-].
      exists r. split; [done|]. apply Hg. by eapply (inv_entry s HI).
    + unfold data. rewrite Ho by done. intros Hj. exists x. split; [done|]. apply changes_refl.
      by eapply (inv_entry s HI).
Qed.

Lemma Inv_set_relation s rl d :
  Inv s → ManyToMany.sorted d →
  (∀ y, y ∈ d → is_temp (ManyToMany.child_of y) →
     ∃ x, x ∈ relations s rl ∧ ManyToMany.child_of x = ManyToMany.child_of y) →
  Inv (set_relation rl d s).
Proof.
  intros HI Hd Hc.
  assert (∀ rl' y, y ∈ relations (set_relation rl d s) rl' → is_temp (ManyToMany.child_of y) →
    ∃ x, x ∈ relations s rl' ∧ ManyToMany.child_of x = ManyToMany.child_of y) as Hc'.
  { intros rl' y. cbn. destruct (decide (rl = rl')) as [<-|]; eauto. }
  split; try apply HI.
  - intros rl'. cbn. case_decide; [done|]. apply (inv_sorted s HI).
  - intros i r Hi Hflag y dv Hdv Hy. pose proof (inv_function s HI i r Hi Hflag) as Hf.
    pose proof (proj1 (inv_entry s HI _ _ _ Hi)) as Ht. rewrite <- Hy in Ht.
    split; intros Hin; destruct (Hc' _ _ Hin Ht) as (x & Hx & Hxy); rewrite Hy in Hxy;
      by apply (Hf x dv Hdv Hxy).
Qed.

(** ** Frames *)

(** The steps from [s] to [s'] kept the uuids and parents of all entries but those
    [Ch] names. *)
Definition frame (Ch : Component.t → nat → Prop) (s s' : Model) : Prop :=
  ∀ c, length (data s' c) = length (data s c) ∧
    ∀ i r, ¬ Ch c i → data s c !! i = Some r → ∃ r', data s' c !! i = Some r' ∧ skel r' = skel r.

Lemma frame_refl Ch s : frame Ch s s.
Proof. intros c. split; [done|]. eauto. Qed.

Lemma frame_trans Ch s1 s2 s3 : frame Ch s1 s2 → frame Ch s2 s3 → frame Ch s1 s3.
Proof.
  intros H1 H2 c. destruct (H1 c) as [L1 F1], (H2 c) as [L2 F2]. split; [congruence|].
  intros i r Hn Hi. destruct (F1 i r Hn Hi) as (r1 & Hi1 & E1), (F2 i r1 Hn Hi1) as (r2 & Hi2 & E2).
  exists r2. split; [done|congruence].
Qed.

Lemma frame_mono (Ch Ch' : Component.t → nat → Prop) s s' :
  frame Ch s s' → (∀ c i, Ch c i → Ch' c i) → frame Ch' s s'.
Proof. intros H Hm c. destruct (H c) as [L F]. split; [done|]. intros i r Hn. apply F. intros ?. by apply Hn, Hm. Qed.

Lemma frame_data Ch s s' : (∀ c, data s' c = data s c) → frame Ch s s'.
Proof. intros H c. rewrite H. split; [done|]. eauto. Qed.

Lemma frame_set_entry s c i r' : frame (λ c' j, c' = c ∧ j = i) s (set_entry c i r' s).
Proof.
  intros c'. destruct (decide (c = c')) as [<-|].
  - rewrite data_set_entry_eq, length_insert. split; [done|]. intros j r Hn Hj. exists r.
    rewrite list_lookup_insert_ne; [done|]. intros ->. by apply Hn.
  - rewrite data_set_entry_ne by done. split; [done|]. eauto.
Qed.

Lemma frame_mapped Ch s s' c g : mapped c g s s' → (∀ r, skel (g r) = skel r) → frame Ch s s'.
Proof.
  intros (Hd & Ho & _) Hg c'. destruct (decide (c' = c)) as [->|].
  - rewrite Hd, length_fmap. split; [done|]. intros i r _ Hi. exists (g r). by rewrite list_lookup_fmap, Hi.
  - unfold data. rewrite Ho by done. split; [done|]. eauto.
Qed.

(** Keys and persistence of a type the steps left alone. *)
Lemma frame_keys Ch s s' c : frame Ch s s' → (∀ i, ¬ Ch c i) → keys s' c = keys s c.
Proof.
  intros H Hn. destruct (H c) as [L F]. unfold keys. apply list_eq. intros i. rewrite !list_lookup_fmap.
  destruct (data s c !! i) as [r|] eqn:E.
  - destruct (F i r (Hn i) E) as (r' & -> & Hs). simpl. f_equal. by apply skel_uuid.
  - apply lookup_ge_None in E. rewrite (proj2 (lookup_ge_None (data s' c) i)); [done|]. lia.
Qed.

Definition fresh (s : Model) (c : Component.t) : Prop :=
  ∀ i r, data s c !! i = Some r → m_is_uuid_persistent r = false.

Lemma frame_fresh Ch s s' c : frame Ch s s' → (∀ i, ¬ Ch c i) → fresh s c → fresh s' c.
Proof.
  intros H Hn Hf i r' Hi'. destruct (H c) as [L F].
  destruct (lookup_lt_is_Some_2 (data s c) i) as [r Hi]; [rewrite <- L; by eapply lookup_lt_Some|].
  destruct (F i r (Hn i) Hi) as (r2 & Hi2 & [= _ _ Hflag _]). rewrite Hi' in Hi2. injection Hi2 as <-.
  rewrite Hflag. by eapply Hf.
Qed.

(** ** Unique entries *)

Lemma temp_any s c i (r : Res c) w :
  Inv s → data s c !! i = Some r → is_temp w → has_any_uuid w r = true → m_temporary_uuid r = w.
Proof.
  intros HI Hi Hw. unfold has_any_uuid. rewrite orb_true_iff, !bool_decide_eq_true. intros [<-|]; [|done].
  by destruct (inv_entry s HI _ _ _ Hi) as (_ & [] & _).
Qed.

Definition child_ok (s : Model) (c : Component.t) (i : nat) (w : uuid) (r : Res c) : Prop :=
  data s c !! i = Some r ∧ get_uuid r = w ∧ (m_is_uuid_persistent r = false ∨ single c = true).

Lemma child_uniq s c i w r : Inv s → child_ok s c i w r → uniq s c w i r.
Proof.
  intros HI (Hi & Hw & Hcase). split_and!; [done|done|]. intros j r' Hj Hany. destruct Hcase as [Hf|Hl].
  - unfold get_uuid in Hw. rewrite Hf in Hw. apply (temp_any s c j r' w HI Hj) in Hany.
    + eapply (inv_temp s HI); [exact Hj|exact Hi|]. congruence.
    + rewrite <- Hw. by destruct (inv_entry s HI _ _ _ Hi).
  - apply (inv_single s HI) in Hl. apply lookup_lt_Some in Hi, Hj. lia.
Qed.

Lemma fresh_uniq s c : Inv s → fresh s c → all_uniq s c.
Proof.
  intros HI Hf i j r r' Hi Hj Hany. eapply (child_uniq s c i (get_uuid r) r); [done| |exact Hj|exact Hany].
  split_and!; [done|done|]. left. by eapply Hf.
Qed.

Lemma single_uniq s c : Inv s → single c = true → all_uniq s c.
Proof.
  intros HI Hs i j r r' Hi Hj _. pose proof (inv_single s HI c Hs). apply lookup_lt_Some in Hi, Hj. lia.
Qed.

Lemma drive_uniq s : Inv s → all_uniq s Component.Drive.
Proof.
  intros HI i j r r' Hi Hj Hany. destruct (m_is_uuid_persistent r) eqn:Hflag.
  - destruct (inv_entry s HI _ _ _ Hi) as (_ & _ & _ & _ & Hd). rewrite Hflag in Hd.
    destruct Hd as (x & Hx & Hper). unfold get_uuid in Hany. rewrite Hflag, Hper in Hany.
    unfold has_any_uuid in Hany. rewrite orb_true_iff, !bool_decide_eq_true in Hany.
    destruct (inv_entry s HI _ _ _ Hj) as (Ht' & _ & _ & _ & Hd'). destruct Hany as [E|E].
    + destruct (m_is_uuid_persistent r').
      * destruct Hd' as (y & Hy & Hper'). symmetry. eapply (inv_serial s HI); [exact Hi|exact Hj|exact Hx|exact Hy|].
        congruence.
      * rewrite Hd' in E. unfold drive_uuid in E. by destruct (v5_named _ (eq_sym E)).
    + rewrite E in Ht'. by destruct (v5_not_temp _ Ht').
  - eapply (child_uniq s); [done| |exact Hj|exact Hany]. split_and!; [done|done|by left].
Qed.

End stable.

End PncInvariant.
