(* ===== verification/PncStable.v ===== *)
(** The pnc tree stabilizer keeps the references of the model up to date.

    The steps of the stabilizer, each with the references it leaves out of date and the
    entries it changes; then the methods of [PncTreeStabilizer] from the leaves of the
    tree to [stabilize]. *)

From Stdlib Require Import ZArith Lia.
From S2P Require Import Prelude.
From S2P Require Import OrdSet.
From S2P Require Import Enums.
From S2P Require Import ManyToMany.
From S2P Require Import GenericManager.
From S2P Require Import PncModel.
From S2P Require Import PncStabilizer.
From S2P Require Import PncReferences.
From S2P Require Import PncInvariant.
Import GenericManager PncModel PncStabilizer PncReferences PncInvariant.

Module PncStable.

Section stable.
Context (make_v5_uuid : string → uuid) (m_agent_id : string).
Context (is_temp : uuid → Prop) (procs : table Component.Processor).
Hypothesis v5_not_temp : ∀ key, ¬ is_temp (make_v5_uuid key).
Hypothesis v5_named : ∀ key, make_v5_uuid key ≠ ""%string.
Hypothesis procs_serial : Forall (λ r, is_Some (processor_serial (fields (c := Component.Processor) r))) (m_manager_data procs).

Abbreviation Inv := (PncInvariant.Inv make_v5_uuid m_agent_id is_temp procs).
Abbreviation entry_ok := (PncInvariant.entry_ok make_v5_uuid m_agent_id is_temp procs).
Abbreviation changes := (PncInvariant.changes make_v5_uuid m_agent_id is_temp procs).
Abbreviation type_ok := (PncInvariant.type_ok make_v5_uuid m_agent_id is_temp procs).

(** Only the entry at position [i] of a table. *)
Abbreviation only c i := (λ (c' : Component.t) (j : nat), c' = c ∧ j = i).

(** The uuids and parents of all entries are kept. *)
Abbreviation quiet s s' := (∀ Ch, frame Ch s s').

Lemma quiet_keys s s' c : quiet s s' → keys s' c = keys s c.
Proof. intros H. apply (frame_keys (λ _ _, False)); auto. Qed.

Lemma quiet_current s s' src u : quiet s s' → current s src u → current s' src u.
Proof. intros H (c & Hc & Hu). exists c. by rewrite (quiet_keys s s'). Qed.

Lemma quiet_trans s1 s2 s3 : quiet s1 s2 → quiet s2 s3 → quiet s1 s3.
Proof. intros H1 H2 Ch. by eapply frame_trans. Qed.

(** Membership in lists of types, by evaluation. *)
Ltac not_in := intros; cbv beta; by apply (bool_decide_eq_true_1 _).

(** ** Steps *)

Lemma side_run X rl p L w w' s :
  p ≠ ManyToMany.P2 → ¬ is_temp w' → Inv s → current s (Side rl p) w' → ok X (Side rl p :: L) w s →
  runs (update_relation rl p w w') s (λ _ s', Inv s' ∧ ok X L w s' ∧ quiet s s').
Proof.
  intros Hp Hw' HI Hcur Hok. destruct (update_relation_run rl p w w' s) as (d & Hrun & Hd & Hy); [apply HI|].
  exists tt, (set_relation rl d s). split_and!; [done| | |intros Ch; by apply frame_data].
  - apply Inv_set_relation; [done|done|]. intros y (x & Hx & ->)%Hy. case_decide; [|eauto].
    destruct p; [|done|done]. intros _. exists x. done.
  - by eapply fix_side.
Qed.

(** No entry of the relation names [w]. *)
Lemma drop_side X rl p L w s :
  (∀ x, x ∈ relations s rl → ManyToMany.component p x ≠ w) → ok X (Side rl p :: L) w s → ok X L w s.
Proof.
  intros Hno Hok src i u Ht Hr. destruct (Hok src i u Ht Hr) as [?|[?|[[->|?]%elem_of_cons ->]]]; auto.
  destruct Hr as (x & Hx & E). by destruct (Hno x Hx).
Qed.

(** A field replaced where [t] holds. *)
Lemma field_mapped X fd L w p s s' c (t : Fields c → bool) (h : Fields c → Fields c) :
  mapped c (λ r, if t (fields r) then set_fields (h (fields r)) r else r) s s' →
  c ≠ Component.Processor → Inv s →
  (∀ r, entry_ok c r → t (fields r) = true → changes c r (set_fields (h (fields r)) r)) →
  (∀ f' x, f' ≠ fd → reads f' c (h x) = reads f' c x) →
  (∀ x u, u ∈ reads fd c (h x) → u = p ∨ (u ≠ w ∧ u ∈ reads fd c x)) →
  (∀ x, t x = false → w ∉ reads fd c x) →
  (∀ c' x, c' ≠ c → reads fd c' x = []) →
  current s (Field fd) p → ok X (Field fd :: L) w s →
  Inv s' ∧ ok X L w s' ∧ (∀ Ch, frame Ch s s').
Proof.
  intros Hm Hc HI Hch Ho Hr Hno Hemp Hcur Hok. split_and!.
  - eapply Inv_mapped; [done|done|done|]. intros r Hr'. cbv beta. destruct (t (fields r)) eqn:E; [auto|by apply changes_refl].
  - apply (fix_field X fd L w p s s' c (λ x, if t x then h x else x) _ Hm); try done.
    + intros r. cbv beta. by destruct (t (fields r)).
    + intros f' x Hf'. destruct (t x); auto.
    + intros x u. destruct (t x) eqn:E; [apply Hr|]. intros Hu. right. split; [|done].
      intros ->. by destruct (Hno x E).
  - intros Ch. eapply frame_mapped; [done|]. intros r. cbv beta. by destruct (t (fields r)).
Qed.

Lemma replace_field_run X fd L w p s c (t : Fields c → bool) (h : Fields c → Fields c) :
  all_uniq s c → c ≠ Component.Processor → Inv s →
  (∀ r, entry_ok c r → t (fields r) = true → changes c r (set_fields (h (fields r)) r)) →
  (∀ f' x, f' ≠ fd → reads f' c (h x) = reads f' c x) →
  (∀ x u, u ∈ reads fd c (h x) → u = p ∨ (u ≠ w ∧ u ∈ reads fd c x)) →
  (∀ x, t x = false → w ∉ reads fd c x) →
  (∀ c' x, c' ≠ c → reads fd c' x = []) →
  current s (Field fd) p → ok X (Field fd :: L) w s →
  runs (write_all c (λ r, set_fields (h (fields r)) r) (GenericManager.get_keys (λ r, t (fields r)) (tables s c))) s
    (λ _ s', Inv s' ∧ ok X L w s' ∧ (∀ Ch, frame Ch s s') ∧ ∀ c', c' ≠ c → tables s' c' = tables s c').
Proof.
  intros Hu Hc HI Hch Ho Hr Hno Hemp Hcur Hok.
  eapply runs_conseq; [by apply write_all_run|]. intros ? s' Hm.
  destruct (field_mapped X fd L w p s s' c t h) as (? & ? & ?); [done..|]. split_and!; try done. apply Hm.
Qed.

(** A write of fields that name the same resources. *)
Lemma same_fields_ok X L w s c i (r r' : Res c) :
  data s c !! i = Some r → skel r' = skel r → (∀ f, reads f c (fields r') = reads f c (fields r)) →
  ok X L w s → ok X L w (set_entry c i r' s).
Proof.
  intros Hi Hs Hf Hok.
  assert (∀ c' j x, data (set_entry c i r' s) c' !! j = Some x → ∃ x', data s c' !! j = Some x' ∧
    skel x = skel x' ∧ ∀ f, reads f c' (fields x) = reads f c' (fields x')) as Hx.
  { intros c' j x. destruct (decide (c = c')) as [<-|].
    - rewrite data_set_entry_eq. intros [[<- [-> _]]|[_ ?]]%list_lookup_insert_Some; eauto.
    - rewrite data_set_entry_ne by done. eauto. }
  assert (∀ c', keys (set_entry c i r' s) c' = keys s c') as Hk.
  { intros c'. unfold keys. destruct (decide (c = c')) as [<-|]; [|by rewrite data_set_entry_ne].
    rewrite data_set_entry_eq, list_fmap_insert. apply list_insert_id. rewrite list_lookup_fmap, Hi. simpl.
    f_equal. symmetry. by apply skel_uuid. }
  intros src j u Ht Hr.
  assert (refs s src j u) as Hr'.
  { destruct src as [c'|f|rl p]; simpl in *; [| |done].
    - destruct Hr as (x & Hj & <-). destruct (Hx _ _ _ Hj) as (x' & ? & [= _ _ _ ->] & _). eauto.
    - destruct Hr as (c' & x & Hj & Hu). destruct (Hx _ _ _ Hj) as (x' & ? & _ & Hfx). exists c', x'. by rewrite <- Hfx. }
  destruct (Hok src j u Ht Hr') as [(c' & ? & ?)|?]; [|by right]. left. exists c'. by rewrite Hk.
Qed.

(** ** Renaming a resource *)

Definition stable_key (c : Component.t) (key : string) : Res c → Prop :=
  match c with
  | Component.Drive => λ r, ∃ x, drive_serial (fields (c := Component.Drive) r) = Some x ∧
      make_v5_uuid key = drive_uuid make_v5_uuid m_agent_id x
  | Component.PcieFunction => λ r, ¬ is_temp (m_parent_uuid r)
  | _ => λ _, True
  end.

Lemma stable_changes c key r : entry_ok c r → stable_key c key r → changes c r (make_stable make_v5_uuid key r).
Proof.
  intros (Ht & _ & Hty) Hk. split_and!; [done|done| |].
  - split_and!; [done|apply v5_not_temp|]. destruct c; try done.
    + destruct Hty as (H1 & H2 & _). split_and!; [done|done|]. exact Hk.
    + destruct Hty as (H1 & _). by split.
  - by destruct c.
Qed.

Lemma single_run X c key w i r s :
  c ≠ Component.Processor → Inv s → ok X [] w s → child_ok s c i w r → stable_key c key r →
  runs (stabilize_single_resource make_v5_uuid c w key) s (λ p s',
    p = make_v5_uuid key ∧ s' = set_entry c i (make_stable make_v5_uuid key r) s ∧ Inv s' ∧
    ok X (aimed c) w s' ∧ p ∈ keys s' c ∧ frame (only c i) s s').
Proof.
  intros Hc HI Hok Hch Hk. pose proof (child_uniq _ _ _ _ _ _ _ _ _ HI Hch) as Hu. destruct Hch as (Hi & Hw & _).
  unfold stabilize_single_resource. apply runs_bind. eexists _, _. split; [by apply write_run|].
  apply runs_ret. split_and!; [done|done| | | |].
  - eapply Inv_set_entry; [done|done|done|]. apply stable_changes; [by eapply inv_entry|done].
  - by eapply rename_ok.
  - by eapply keys_set_entry_new.
  - apply frame_set_entry.
Qed.

(** ** Leaves of the tree *)

Definition good (X : Component.t → nat → uuid → Prop) (s : Model) : Prop := Inv s ∧ ok X [] ""%string s.

(** What a method that renames one resource leaves. *)
Definition renamed_only (X : Component.t → nat → uuid → Prop) (c : Component.t) (i : nat) (s s' : Model) : Prop :=
  good X s' ∧ frame (only c i) s s'.

Lemma renamed_nothing X c i s : good X s → renamed_only X c i s s.
Proof. intros H. split; [done|apply frame_refl]. Qed.

Ltac here := cbn; repeat first [apply list_elem_of_here | apply list_elem_of_further].
Ltac is_current := match goal with |- current _ _ _ => eexists; split; [|eassumption]; here end.

Lemma subsystem_run X w i r s :
  good X s → child_ok s Component.StorageSubsystem i w r →
  runs (stabilize_storage_subsystem make_v5_uuid m_agent_id w) s
    (λ _ s', renamed_only X Component.StorageSubsystem i s s').
Proof.
  intros [HI Hok] Hch. pose proof (child_uniq _ _ _ _ _ _ _ _ _ HI Hch) as Hu.
  unfold stabilize_storage_subsystem. apply runs_bind. exists r, s. split; [by eapply get_entry_run|].
  apply runs_catch. eapply runs_lift_bind; [reflexivity|]. apply runs_bind.
  eapply runs_conseq; [eapply single_run; [done|done|by eapply ok_any|done|done]|].
  intros p s1 (Hp & -> & HI1 & Hok1 & Hin & Hf). apply runs_bind.
  eapply runs_conseq; [eapply side_run; [done|rewrite Hp; apply v5_not_temp|done|is_current|done]|].
  intros ? s2 (HI2 & Hok2 & Hd). apply runs_ret. split; [split; [done|by eapply ok_any]|].
  by eapply frame_trans.
Qed.

Lemma key_of_missing c o what e :
  m_keys_base_map c ≠ None → key_of m_agent_id c o what = Throw e → ∃ m, e = key_value_missing m.
Proof.
  unfold key_of, generate_key_base. destruct (m_keys_base_map c); [|done]. intros _.
  destruct o; [done|]. intros [= <-]. eauto.
Qed.

(** A reference in a field is always up to date. *)
Lemma field_current X s f c i (r : Res c) u :
  good X s → tracked (Field f) → data s c !! i = Some r → u ∈ reads f c (fields r) → current s (Field f) u.
Proof.
  intros [_ Hok] Ht Hi Hu. destruct (Hok (Field f) i u Ht) as [?|[(? & [=] & _)|[[]%elem_of_nil _]]]; [|done].
  exists c, r. done.
Qed.

Ltac aimed_at H c := destruct c; cbn in H; rewrite ?elem_of_cons, ?elem_of_nil in H; intuition congruence.

Lemma zone_run X w i r s :
  good X s → child_ok s Component.Zone i w r →
  runs (stabilize_pcie_zone make_v5_uuid m_agent_id w) s (λ _ s', renamed_only X Component.Zone i s s').
Proof.
  intros [HI Hok] Hch. pose proof (child_uniq _ _ _ _ _ _ _ _ _ HI Hch) as Hu.
  unfold stabilize_pcie_zone. apply runs_bind. exists r, s. split; [by eapply get_entry_run|].
  assert (zone_switch_uuid (fields r) ∈ keys s Component.Switch) as Hsw.
  { destruct (field_current X s ZoneSwitch _ i r (zone_switch_uuid (fields r))) as (c & Hc & Hk);
      [by split|exists Component.Switch; here|apply Hch|here|].
    assert (c = Component.Switch) as -> by (aimed_at Hc c). done. }
  destruct (get_entry_known _ _ _ Hsw) as (j & sw & Hj & Hget).
  apply runs_bind. exists sw, s. split; [done|].
  destruct (key_Zone m_agent_id r sw) as [key|e] eqn:Ek.
  - apply runs_catch. eapply runs_lift_bind; [done|]. apply runs_bind.
    eapply runs_conseq; [eapply single_run; [done|done|by eapply ok_any|done|done]|].
    intros p s1 (Hp & -> & HI1 & Hok1 & Hin & Hf). apply runs_bind.
    eapply runs_conseq; [eapply side_run; [done|rewrite Hp; apply v5_not_temp|done|is_current|done]|].
    intros ? s2 (HI2 & Hok2 & Hd). apply runs_ret. split; [split; [done|by eapply ok_any]|].
    by eapply frame_trans.
  - assert (∃ m, e = key_value_missing m) as [m ->].
    { unfold key_Zone in Ek. destruct (switch_serial _); [|injection Ek as <-; eauto]. by eapply key_of_missing in Ek. }
    eapply runs_catch_missing; [done|]. by apply renamed_nothing.
Qed.

(** ** Drives *)

Definition replace_entity (t p : uuid) (e : ConnectedEntity) : ConnectedEntity :=
  if decide (entity e = Some t) then mkEntity (entity_role e) (Some p) else e.

Lemma replace_entities_Ok t p l :
  Forall (λ e, is_Some (entity e) ∧ is_Some (entity_role e)) l →
  replace_entities t p l = Ok (replace_entity t p <$> l).
Proof.
  induction 1 as [|e l [[u Hu] _] _ IH]; [done|]. cbn. rewrite Hu, IH. cbn. unfold replace_entity. rewrite Hu.
  repeat case_decide; congruence.
Qed.

Lemma endpoints_run X L w p s :
  fresh s Component.Endpoint → Inv s → current s (Field EndpointEntities) p →
  ok X (Field EndpointEntities :: L) w s →
  runs (update_device_in_endpoints w p) s (λ _ s', Inv s' ∧ ok X L w s' ∧ (∀ Ch, frame Ch s s') ∧
    ∀ c', c' ≠ Component.Endpoint → tables s' c' = tables s c').
Proof.
  intros Hfr HI Hcur Hok. unfold update_device_in_endpoints, get_keys. apply runs_bind, runs_get_bind, runs_ret.
  set (h := λ x, mkEndpointF (endpoint_identifiers x) (replace_entity w p <$> endpoint_connected_entities x)).
  set (t := λ x, existsb (refers_to_entity w) (endpoint_connected_entities x)).
  eapply runs_conseq.
  - eapply (replace_run Component.Endpoint (λ r, set_fields (c := Component.Endpoint) (h (fields r)) r)
      (λ r, t (fields r)) _ (λ r, Forall (λ e, is_Some (entity e) ∧ is_Some (entity_role e))
        (endpoint_connected_entities (fields (c := Component.Endpoint) r)))).
    + done.
    + intros s1 u i r (Hi & <- & Hu) Hr. unfold GenericManager.get_entry_reference. run_monad.
      rewrite (find_if_unique _ _ i r); [|done|apply has_any_own|done]. rewrite Hi.
      by rewrite replace_entities_Ok.
    + by eapply fresh_uniq.
    + apply list.Forall_forall. intros r [i Hi]%list_elem_of_lookup. by destruct (inv_entry _ _ _ _ _ HI _ _ _ Hi) as (_ & _ & ?).
  - intros ? s' Hm. destruct (field_mapped X EndpointEntities L w p s s' Component.Endpoint t h) as (? & ? & ?);
      try done; [| | | | |split_and!; try done; apply Hm].
    + intros r (? & ? & Hr) _. split_and!; try done. split_and!; try done. cbn in *.
      apply list.Forall_fmap. eapply list.Forall_impl; [done|]. intros e [? ?]. unfold replace_entity. cbn.
      by case_decide.
    + by intros [].
    + cbn. intros x u (e & He & Hu)%list_elem_of_omap. apply list_elem_of_fmap in He as (e0 & -> & He0).
      unfold replace_entity in Hu. case_decide as Hd; [left; by injection Hu|]. right. split; [congruence|].
      apply list_elem_of_omap. eauto.
    + cbn. unfold t. intros x Hx (e & He & Hu)%list_elem_of_omap. apply not_true_iff_false in Hx. apply Hx.
      apply existsb_exists. exists e. split; [by apply list_elem_of_In|]. by apply bool_decide_eq_true_2.
    + by intros [].
Qed.

Lemma functions_run X L w p s :
  fresh s Component.PcieFunction → is_processor procs w = false → is_processor procs p = false →
  Inv s → current s (Field FunctionDevice) p → ok X (Field FunctionDevice :: L) w s →
  runs (update_device_in_functions w p) s (λ _ s', Inv s' ∧ ok X L w s' ∧ (∀ Ch, frame Ch s s') ∧
    ∀ c', c' ≠ Component.PcieFunction → tables s' c' = tables s c').
Proof.
  intros Hfr Hw Hp HI Hcur Hok. unfold update_device_in_functions, get_keys. apply runs_bind, runs_get_bind, runs_ret.
  set (t := λ x : FunctionFields, bool_decide (functional_device x = Some w)).
  apply (replace_field_run X FunctionDevice L w p s Component.PcieFunction t
    (λ x, mkFunctionF (Some p) (dsp_port_uuid x))); try done.
  - by eapply fresh_uniq.
  - intros r (? & ? & ? & ?) Hd%bool_decide_eq_true. split; [done|]. split; [done|]. split.
    + split; [done|]. split; [done|]. split; [by eexists|done].
    + intros ?. split; [done|]. cbn. intros d' [= <-]. exists w. by rewrite Hw, Hp.
  - by intros [].
  - cbn. intros x u ->%list_elem_of_singleton. by left.
  - cbn. intros x Hx%bool_decide_eq_false Hin. apply Hx. destruct (functional_device x); cbn in Hin.
    + apply list_elem_of_singleton in Hin. by subst.
    + by apply elem_of_nil in Hin.
  - by intros [].
Qed.

Lemma drive_run X w i r s :
  good X s → child_ok s Component.Drive i w r → fresh s Component.Endpoint → fresh s Component.PcieFunction →
  runs (stabilize_drive make_v5_uuid m_agent_id w) s (λ _ s', renamed_only X Component.Drive i s s').
Proof.
  intros [HI Hok] Hch HfE HfF. pose proof (child_uniq _ _ _ _ _ _ _ _ _ HI Hch) as Hu.
  unfold stabilize_drive. apply runs_bind. exists r, s. split; [by eapply get_entry_run|].
  destruct Hch as (Hi & Hw & Hcase). destruct (inv_entry _ _ _ _ _ HI _ _ _ Hi) as (Htemp & _ & Hnp & Hserial & _).
  assert (m_is_uuid_persistent r = false) as Hflag by (by destruct Hcase).
  assert (is_processor procs w = false) as Hwp by (rewrite <- Hw; unfold get_uuid; by rewrite Hflag).
  destruct (drive_serial (fields r)) as [x|] eqn:Ex.
  - apply runs_catch. eapply runs_lift_bind; [unfold key_Drive; rewrite Ex; reflexivity|]. apply runs_bind.
    eapply runs_conseq; [eapply single_run; [done|done|by eapply ok_any|done|by exists x]|].
    intros p s1 (Hp & Hs1 & HI1 & Hok1 & Hin & Hf). clear Hs1.
    assert (is_processor procs p = false) as Hpp by (rewrite Hp; by apply Hserial).
    assert (¬ is_temp p) as Hpt by (rewrite Hp; apply v5_not_temp).
    unfold update_pcie_drive_in_relations. do 2 apply runs_bind.
    eapply runs_conseq; [eapply endpoints_run; [|done|is_current|exact Hok1]|].
    { eapply frame_fresh; [exact Hf| |done]. by intros ? []. }
    intros ? s2 (HI2 & Hok2 & Hf2 & _). apply runs_bind.
    assert (p ∈ keys s2 Component.Drive) as Hin2 by (by rewrite (quiet_keys s1)).
    eapply runs_conseq; [eapply functions_run; [|done|done|done|is_current|exact Hok2]|].
    { eapply frame_fresh; [eapply frame_trans; [exact Hf|apply Hf2]| |done]. by intros ? []. }
    intros ? s3 (HI3 & Hok3 & Hf3 & _).
    assert (p ∈ keys s3 Component.Drive) as Hin3 by (by rewrite (quiet_keys s2)).
    apply runs_bind. eapply runs_conseq; [eapply side_run; [done|done|done|is_current|exact Hok3]|].
    intros ? s4 (HI4 & Hok4 & Hf4).
    assert (p ∈ keys s4 Component.Drive) as Hin4 by (by rewrite (quiet_keys s3)).
    eapply runs_conseq; [eapply side_run; [done|done|done|is_current|exact Hok4]|].
    intros ? s5 (HI5 & Hok5 & Hf5). apply runs_ret. split; [split; [done|by eapply ok_any]|].
    eapply frame_trans; [exact Hf|]. eapply frame_trans; [apply Hf2|]. eapply frame_trans; [apply Hf3|].
    by eapply frame_trans.
  - eapply runs_catch_missing; [unfold key_Drive; by rewrite Ex|]. by apply renamed_nothing.
Qed.

(** ** Ports *)

(** A table nothing refers to. *)
Lemma unreferenced_ok X L w s c i (r r' : Res c) :
  data s c !! i = Some r → m_parent_uuid r' = m_parent_uuid r → aimed c = [] → (∀ f x, reads f c x = []) →
  ok X L w s → ok X L w (set_entry c i r' s).
Proof.
  intros Hi Hp Ha Hf Hok.
  assert (∀ src j u, refs (set_entry c i r' s) src j u → refs s src j u) as Hrefs.
  { intros [c'|f|rl p] j u; simpl; [| |done].
    - destruct (decide (c = c')) as [<-|]; [|by rewrite data_set_entry_ne]. rewrite data_set_entry_eq.
      intros (x & [[<- [-> _]]|[_ ?]]%list_lookup_insert_Some & <-); eauto.
    - intros (c' & x & Hx & Hu). destruct (decide (c = c')) as [<-|].
      + rewrite Hf in Hu. by apply elem_of_nil in Hu.
      + rewrite data_set_entry_ne in Hx by done. eauto. }
  intros src j u Ht Hr. destruct (Hok src j u Ht (Hrefs _ _ _ Hr)) as [(c' & Hc & Hk)|?]; [|by right].
  left. exists c'. split; [done|]. rewrite keys_set_entry_ne; [done|]. intros <-. rewrite Ha in Hc.
  by apply elem_of_nil in Hc.
Qed.

Lemma metric_run X w p s :
  good X s → runs (stabilize_port_metric make_v5_uuid w p) s
    (λ _ s', good X s' ∧ frame (λ c _, c = Component.Metric) s s').
Proof.
  intros [HI Hok]. unfold stabilize_port_metric, get_keys. apply runs_bind, runs_get_bind, runs_ret.
  set (flt := λ r : Res Component.Metric, bool_decide (component_uuid (fields r) = w)).
  destruct (GenericManager.get_keys flt (tables s Component.Metric)) as [|key [|]] eqn:Ek;
    [apply runs_ret; split; [by split|apply frame_refl]| |apply runs_ret; split; [by split|apply frame_refl]].
  assert (key ∈ keys s Component.Metric) as Hin.
  { assert (key ∈ GenericManager.get_keys flt (tables s Component.Metric)) as Hk by (rewrite Ek; here).
    apply list_elem_of_fmap in Hk as (r & -> & [_ Hr]%list_elem_of_filter). apply list_elem_of_fmap. by exists r. }
  match goal with |- runs (write ?c ?k ?f ≫= _) _ _ => destruct (write_known s c k f Hin) as (i & r & Hi & Hw) end.
  apply runs_bind. eexists _, _. split; [exact Hw|]. apply runs_ret. split; [split|].
  - eapply Inv_set_entry; [done|exact Hi|done|]. destruct (inv_entry _ _ _ _ _ HI _ _ _ Hi) as (? & _).
    split; [done|]. split; [done|]. split; [|done]. split; [done|]. split; [apply v5_not_temp|done].
  - eapply unreferenced_ok; [exact Hi|done|done|by intros []|done].
  - eapply frame_mono; [apply frame_set_entry|]. by intros c j [-> _].
Qed.

Lemma port_function_run X L w p s :
  fresh s Component.PcieFunction → Inv s → current s (Field FunctionPort) p → ok X (Field FunctionPort :: L) w s →
  runs (write_all Component.PcieFunction (λ r, set_fields (c := Component.PcieFunction)
      (mkFunctionF (functional_device (fields r)) p) r)
    (GenericManager.get_keys (λ f, bool_decide (dsp_port_uuid (fields (c := Component.PcieFunction) f) = w))
      (tables s Component.PcieFunction))) s
    (λ _ s', Inv s' ∧ ok X L w s' ∧ quiet s s' ∧ ∀ c', c' ≠ Component.PcieFunction → tables s' c' = tables s c').
Proof.
  intros Hfr HI Hcur Hok. set (t := λ x : FunctionFields, bool_decide (dsp_port_uuid x = w)).
  apply (replace_field_run X FunctionPort L w p s Component.PcieFunction t
    (λ x, mkFunctionF (functional_device x) p)); try done.
  - by eapply fresh_uniq.
  - intros r (? & ? & ? & ?) _. split; [done|]. split; [done|]. split; [done|]. intros ?. split; [done|]. eauto.
  - by intros [].
  - cbn. unfold named. intros x u. case_decide; [by intros ?%elem_of_nil|]. intros ->%list_elem_of_singleton. by left.
  - cbn. unfold named. intros x Hx%bool_decide_eq_false. case_decide; [by intros ?%elem_of_nil|].
    by intros ?%list_elem_of_singleton.
  - by intros [].
Qed.

Lemma port_drive_run X L w p s :
  Inv s → current s (Field DrivePorts) p → ok X (Field DrivePorts :: L) w s →
  runs (write_all Component.Drive (λ r, set_fields (c := Component.Drive)
      (mkDriveF (drive_serial (fields r)) (replace w p <$> drive_dsp_port_uuids (fields r))) r)
    (GenericManager.get_keys (λ d, bool_decide (w ∈ drive_dsp_port_uuids (fields (c := Component.Drive) d)))
      (tables s Component.Drive))) s
    (λ _ s', Inv s' ∧ ok X L w s' ∧ quiet s s' ∧ ∀ c', c' ≠ Component.Drive → tables s' c' = tables s c').
Proof.
  intros HI Hcur Hok. set (t := λ x : DriveFields, bool_decide (w ∈ drive_dsp_port_uuids x)).
  apply (replace_field_run X DrivePorts L w p s Component.Drive t
    (λ x, mkDriveF (drive_serial x) (replace w p <$> drive_dsp_port_uuids x))); try done.
  - by eapply drive_uniq.
  - by intros [].
  - cbn. intros x u (v & -> & Hv)%list_elem_of_fmap. unfold replace. case_decide; [by left|by right].
  - cbn. by intros x Hx%bool_decide_eq_false.
  - by intros [].
Qed.

(** The port itself, and the metrics. *)
Abbreviation port_frame i := (λ (c : Component.t) (j : nat), (c = Component.Port ∧ j = i) ∨ c = Component.Metric).

Lemma port_relations_run X w p s :
  fresh s Component.PcieFunction → ¬ is_temp p → p ∈ keys s Component.Port → Inv s →
  ok X (aimed Component.Port) w s →
  runs (update_pcie_port_in_relations w p) s (λ _ s', good X s' ∧ quiet s s').
Proof.
  intros Hfr Hpt Hin HI Hok. unfold update_pcie_port_in_relations, get_keys.
  apply runs_bind, runs_get_bind, runs_ret, runs_bind, runs_get_bind, runs_ret.
  apply runs_bind. eapply runs_conseq; [eapply port_function_run; [done|done|is_current|exact Hok]|].
  intros ? s2 (HI2 & Hok2 & Hf2 & Ht2).
  assert (p ∈ keys s2 Component.Port) as Hin2 by (by rewrite (quiet_keys s)).
  rewrite <- (Ht2 Component.Drive) by done.
  apply runs_bind. eapply runs_conseq; [eapply port_drive_run; [done|is_current|exact Hok2]|].
  intros ? s3 (HI3 & Hok3 & Hf3 & _).
  assert (p ∈ keys s3 Component.Port) as Hin3 by (by rewrite (quiet_keys s2)).
  eapply runs_conseq; [eapply side_run; [done|done|done|is_current|exact Hok3]|].
  intros ? s4 (HI4 & Hok4 & Hf4). split; [split; [done|by eapply ok_any]|].
  eapply quiet_trans; [exact Hf2|]. by eapply quiet_trans.
Qed.

Lemma port_run X w i r s :
  good X s → child_ok s Component.Port i w r → m_parent_uuid r ∈ keys s Component.Switch →
  fresh s Component.PcieFunction →
  runs (stabilize_port make_v5_uuid m_agent_id w) s (λ _ s', good X s' ∧ frame (port_frame i) s s').
Proof.
  intros [HI Hok] Hch Hsw HfF. pose proof (child_uniq _ _ _ _ _ _ _ _ _ HI Hch) as Hu.
  unfold stabilize_port. apply runs_bind. exists r, s. split; [by eapply get_entry_run|].
  destruct (get_entry_known _ _ _ Hsw) as (j & sw & Hj & Hget).
  apply runs_bind. exists sw, s. split; [done|].
  destruct (key_Port m_agent_id r sw) as [key|e] eqn:Ek.
  - apply runs_catch. eapply runs_lift_bind; [done|]. apply runs_bind.
    eapply runs_conseq; [eapply single_run; [done|done|by eapply ok_any|done|done]|].
    intros p s1 (Hp & Hs1 & HI1 & Hok1 & Hin & Hf). clear Hs1. apply runs_bind.
    eapply runs_conseq; [eapply port_relations_run; [|rewrite Hp; apply v5_not_temp|done|done|exact Hok1]|].
    { eapply frame_fresh; [exact Hf| |done]. by intros ? []. }
    intros ? s2 (Hg2 & Hf2). apply runs_bind.
    eapply runs_conseq; [by apply metric_run|]. intros ? s3 (Hg3 & Hf3). apply runs_ret. split; [done|].
    eapply frame_trans; [eapply frame_mono; [exact Hf|]|]; [by left|].
    eapply frame_trans; [apply Hf2|]. eapply frame_mono; [exact Hf3|]. by right.
  - assert (∃ m, e = key_value_missing m) as [m ->].
    { unfold key_Port in Ek. destruct (switch_serial _); [|injection Ek as <-; eauto]. by eapply key_of_missing in Ek. }
    eapply runs_catch_missing; [done|]. split; [done|apply frame_refl].
Qed.

(** ** Endpoints *)

Lemma get_entries_for_run c l s : Forall (λ u, u ∈ keys s c) l → ∃ rs, get_entries_for c l s = (Ok rs, s).
Proof.
  induction 1 as [|u l Hu _ [rs IH]]; [by exists []|]. destruct (get_entry_known _ _ _ Hu) as (i & r & _ & Hr).
  exists (r :: rs). cbn [get_entries_for]. rewrite (bind_run _ _ _ _ _ Hr). by rewrite (bind_run _ _ _ _ _ IH).
Qed.

Section sort.
Context {A : Type} (lt : A → A → result bool) (P : A → Prop).
Hypothesis lt_Ok : ∀ x y, P x → P y → ∃ b, lt x y = Ok b.

Lemma insert_back_Ok x l : P x → Forall P l → ∃ k, insert_back lt x l = Ok k ∧ Forall P k.
Proof.
  intros Hx. induction 1 as [|y l Hy Hl IH]; cbn; [eauto|]. destruct (lt_Ok x y Hx Hy) as [b ->]. cbn. destruct b.
  - destruct IH as (k & -> & Hk). cbn. eauto.
  - eauto 6.
Qed.

Lemma std_sort_Ok l : Forall P l → ∀ k, Forall P k → ∃ r, std_sort lt k l = Ok r.
Proof.
  induction 1 as [|x l Hx _ IH]; intros k Hk; cbn; [eauto|].
  assert (∃ k', insert_step lt x k = Ok k' ∧ Forall P k') as (k' & -> & Hk'); [|by apply IH].
  unfold insert_step. destruct Hk as [|y k Hy Hk]; [eauto|]. destruct (lt_Ok x y Hx Hy) as [b ->].
  unfold mbind, result_bind. destruct b.
  - eauto 7.
  - destruct (insert_back_Ok x (reverse (y :: k))) as (m & -> & Hm); [done|apply Forall_reverse; by constructor|].
    eexists. split; [done|]. by apply Forall_reverse.
Qed.
End sort.

Lemma key_Endpoint_total (r : Res Component.Endpoint) ports :
  Forall (λ e, is_Some (entity e) ∧ is_Some (entity_role e)) (endpoint_connected_entities (fields r)) →
  (∃ key, key_Endpoint m_agent_id r ports = Ok key) ∨
  (∃ m, key_Endpoint m_agent_id r ports = Throw (key_value_missing m)).
Proof.
  intros He. unfold key_Endpoint.
  destruct (endpoint_connected_entities (fields r)) as [|e l] eqn:E; [right; destruct ports; eauto|left].
  destruct (std_sort_Ok port_lexicographical_compare (λ _, True)) with (l := ports) (k := @nil (Res Component.Port))
    as [ps Hps]; [unfold port_lexicographical_compare; eauto|by apply list.Forall_true|done|].
  destruct (std_sort_Ok entity_lexicographical_compare (λ e, is_Some (entity e) ∧ is_Some (entity_role e)))
    with (l := e :: l) (k := @nil ConnectedEntity) as [es Hes]; [|done|done|].
  { intros x y [[? Hx] [? Hx']] [[? Hy] [? Hy']]. unfold entity_lexicographical_compare. rewrite Hx, Hy, Hx', Hy'. eauto. }
  rewrite Hps. cbn [mbind result_bind]. rewrite Hes. cbn. eauto.
Qed.

(** The identifiers of an endpoint are not references. *)
Lemma identifiers_run X L w p s :
  p ∈ keys s Component.Endpoint → Inv s → ok X L w s →
  runs (endpoint ← get_entry Component.Endpoint p;
        let identifiers := (λ i, if decide (i = Some w) then Some p else i)
          <$> endpoint_identifiers (fields (c := Component.Endpoint) endpoint) in
        write Component.Endpoint p (λ r, set_fields (c := Component.Endpoint)
          (mkEndpointF identifiers (endpoint_connected_entities (fields r))) r);;
        mret tt) s (λ _ s', Inv s' ∧ ok X L w s' ∧ quiet s s').
Proof.
  intros Hp HI Hok. destruct (get_entry_known _ _ _ Hp) as (i & r & _ & Hr). apply runs_bind. exists r, s.
  split; [done|]. cbv zeta.
  match goal with |- runs (write ?c ?k ?f ≫= _) _ _ => destruct (write_known s c k f Hp) as (j & x & Hj & Hw) end.
  apply runs_bind. eexists _, _. split; [exact Hw|]. apply runs_ret. split_and!.
  - eapply Inv_set_entry; [done|exact Hj|done|]. destruct (inv_entry _ _ _ _ _ HI _ _ _ Hj) as (? & ? & ?). done.
  - eapply same_fields_ok; [exact Hj|done|by intros []|done].
  - intros Ch c. destruct (decide (Component.Endpoint = c)) as [<-|].
    + rewrite data_set_entry_eq, length_insert. split; [done|]. intros k y _ Hk. destruct (decide (j = k)) as [<-|].
      * rewrite list_lookup_insert_eq by (by eapply lookup_lt_Some). eexists. split; [done|].
        rewrite Hj in Hk. by injection Hk as <-.
      * rewrite list_lookup_insert_ne by done. eauto.
    + rewrite data_set_entry_ne by done. split; [done|]. eauto.
Qed.

Lemma endpoint_run X w i r s :
  good X s → child_ok s Component.Endpoint i w r →
  runs (stabilize_pcie_endpoint make_v5_uuid m_agent_id w) s (λ _ s', renamed_only X Component.Endpoint i s s').
Proof.
  intros [HI Hok] Hch. pose proof (child_uniq _ _ _ _ _ _ _ _ _ HI Hch) as Hu.
  unfold stabilize_pcie_endpoint. apply runs_bind. exists r, s. split; [by eapply get_entry_run|].
  assert (Forall (λ u, u ∈ keys s Component.Port) (ManyToMany.get_children w (relations s EndpointPort))) as Hports.
  { apply list.Forall_forall. intros u (x & -> & [_ Hx]%list_elem_of_filter)%list_elem_of_fmap.
    destruct (Hok (Side EndpointPort ManyToMany.P1) 0 (ManyToMany.child_of x)) as [(c & Hc & Hk)|[(? & [=] & _)|[[]%elem_of_nil _]]];
      [exists Component.Port; here|by exists x|].
    assert (c = Component.Port) as -> by (aimed_at Hc c). done. }
  destruct (get_entries_for_run _ _ _ Hports) as [ports Hget].
  destruct (key_Endpoint_total r ports) as [[key Hkey]|[m Hkey]].
  { destruct Hch as (Hi & _). by destruct (inv_entry _ _ _ _ _ HI _ _ _ Hi) as (_ & _ & ?). }
  - apply runs_catch, runs_get_bind, runs_bind. exists ports, s. split; [done|].
    eapply runs_lift_bind; [exact Hkey|]. apply runs_bind.
    eapply runs_conseq; [eapply single_run; [done|done|by eapply ok_any|done|done]|].
    intros p s1 (Hp & Hs1 & HI1 & Hok1 & Hin & Hf). clear Hs1.
    assert (¬ is_temp p) as Hpt by (rewrite Hp; apply v5_not_temp).
    unfold update_pcie_endpoint_in_relations. do 2 apply runs_bind.
    eapply runs_conseq; [eapply side_run; [done|done|done|is_current|exact Hok1]|].
    intros ? s2 (HI2 & Hok2 & Hf2).
    assert (p ∈ keys s2 Component.Endpoint) as Hin2 by (by rewrite (quiet_keys s1)).
    apply runs_bind. eapply runs_conseq; [eapply side_run; [done|done|done|is_current|exact Hok2]|].
    intros ? s3 (HI3 & Hok3 & Hf3).
    assert (p ∈ keys s3 Component.Endpoint) as Hin3 by (by rewrite (quiet_keys s2)).
    eapply runs_conseq; [by eapply identifiers_run|]. intros ? s4 (HI4 & Hok4 & Hf4).
    apply runs_ret. split; [split; [done|by eapply ok_any]|].
    eapply frame_trans; [exact Hf|]. eapply frame_trans; [apply Hf2|]. by eapply frame_trans.
  - eapply runs_catch_missing; [|by apply renamed_nothing]. unfold mbind at 1, M_bind at 1, get at 1.
    rewrite (bind_run _ _ _ _ _ Hget). by rewrite Hkey.
Qed.

(** ** Functions *)

Lemma ok_reorder X L L' w s : (∀ src, src ∈ L → src ∈ L') → ok X L w s → ok X L' w s.
Proof. intros HL Hok src i u Ht Hr. destruct (Hok src i u Ht Hr) as [?|[?|[? ?]]]; auto. Qed.

Definition device_relation (is_proc : bool) : Relation := if is_proc then ProcessorFunction else DriveFunction.

(** What both variants do once they have a key. *)
Lemma function_rename X key w i (r : Res Component.PcieFunction) d s :
  good X s → child_ok s Component.PcieFunction i w r → ¬ is_temp (m_parent_uuid r) →
  functional_device (fields r) = Some d →
  runs (p ← stabilize_single_resource make_v5_uuid Component.PcieFunction w key;
        update_pcie_function_in_relations (device_relation (is_processor procs d)) w p;;
        mret p) s (λ _ s', renamed_only X Component.PcieFunction i s s').
Proof.
  intros [HI Hok] Hch Hpar Hd. assert (Hch' := Hch). destruct Hch' as (Hi & Hw & [Hflag|]); [|done].
  pose proof (inv_function _ _ _ _ _ HI _ _ Hi Hflag) as Hfun.
  apply runs_bind. eapply runs_conseq; [eapply single_run; [done|done|by eapply ok_any|done|done]|].
  intros p s1 (Hp & Hs1 & HI1 & Hok1 & Hin & Hf).
  assert (ok X [Side (device_relation (is_processor procs d)) ManyToMany.P1] w s1) as Hok1'.
  { apply (drop_side X (device_relation (negb (is_processor procs d))) ManyToMany.P1).
    - rewrite Hs1. cbn [relations set_entry set_table]. intros x Hx Hxw.
      unfold get_uuid in Hw. rewrite Hflag in Hw. destruct (Hfun x d Hd) as [H1 H2]; [by rewrite Hw|].
      destruct (is_processor procs d); [by discriminate (H2 Hx)|by discriminate (H1 Hx)].
    - eapply ok_reorder; [|exact Hok1]. intros src Hsrc.
      destruct (is_processor procs d); cbn in *; rewrite !elem_of_cons in *; tauto. }
  assert (current s1 (Side (device_relation (is_processor procs d)) ManyToMany.P1) p) as Hcur.
  { exists Component.PcieFunction. split; [|done]. destruct (is_processor procs d); here. }
  apply runs_bind. eapply runs_conseq; [eapply side_run; [done|rewrite Hp; apply v5_not_temp|done|exact Hcur|exact Hok1']|].
  intros ? s2 (HI2 & Hok2 & Hf2). apply runs_ret. split; [split; [done|by eapply ok_any]|]. by eapply frame_trans.
Qed.

(** ** Loops over the children of a resource *)

(** The entries at the positions [J] of the table of [kc] may still name [w] as their
    parent. *)
Definition allow (kc : Component.t) (J : nat → Prop) (w : uuid) (X : Component.t → nat → uuid → Prop)
    (c : Component.t) (i : nat) (u : uuid) : Prop := X c i u ∨ (c = kc ∧ J i ∧ u = w).

(** All entries of the types [ks] may. *)
Definition pend (ks : list Component.t) (w : uuid) (X : Component.t → nat → uuid → Prop)
    (c : Component.t) (i : nat) (u : uuid) : Prop := X c i u ∨ (c ∈ ks ∧ u = w).

Lemma ok_weaken (X X' : Component.t → nat → uuid → Prop) s :
  (∀ c i u, X c i u → X' c i u) → ok X [] ""%string s → ok X' [] ""%string s.
Proof.
  intros HX Hok src i u Ht Hr. destruct (Hok src i u Ht Hr) as [?|[(c & ? & ?)|?]]; [by left|right; left|by right; right].
  exists c. auto.
Qed.

(** After a renaming the parents of the children are out of date. *)
Lemma ok_pend X ks w s : ok X (Parent <$> ks) w s → ok (pend ks w X) [] ""%string s.
Proof.
  intros Hok src i u Ht Hr. destruct (Hok src i u Ht Hr) as [?|[(c & ? & ?)|[Hin ->]]]; [by left|..]; right; left.
  - exists c. split; [done|]. by left.
  - apply list_elem_of_fmap in Hin as (c & -> & Hc). exists c. split; [done|]. by right.
Qed.

Lemma pend_nil X w s : ok (pend [] w X) [] ""%string s → ok X [] ""%string s.
Proof. apply ok_weaken. intros c i u [?|[?%elem_of_nil _]]; done. Qed.

Lemma set_parent_run X kc kp j k r w p s :
  kc ≠ Component.Processor → Inv s → ok (allow kc (eq j) w X) [] ""%string s → child_ok s kc j k r →
  Parent kc ∈ aimed kp → p ∈ keys s kp → ¬ is_temp p →
  runs (set_parent kc k p) s (λ _ s', s' = set_entry kc j (set_parent_uuid p r) s ∧ good X s' ∧
    child_ok s' kc j k (set_parent_uuid p r) ∧ frame (only kc j) s s').
Proof.
  intros Hkc HI Hok Hch Haim Hp Hpt. pose proof (child_uniq _ _ _ _ _ _ _ _ _ HI Hch) as Hu.
  destruct Hch as (Hj & Hk & Hcase). unfold set_parent. apply runs_bind. eexists _, _.
  split; [by apply write_run|]. apply runs_ret.
  assert (∀ c, keys (set_entry kc j (set_parent_uuid p r) s) c = keys s c) as Hkeys.
  { intros c. unfold keys. destruct (decide (kc = c)) as [<-|]; [|by rewrite data_set_entry_ne].
    rewrite data_set_entry_eq, list_fmap_insert. apply list_insert_id. by rewrite list_lookup_fmap, Hj. }
  split; [done|]. split; [split|split; [split|apply frame_set_entry]].
  - eapply Inv_set_entry; [done|exact Hj|done|]. destruct (inv_entry _ _ _ _ _ HI _ _ _ Hj) as (Ht & Hnt & Hty).
    split; [done|]. split; [done|]. split; [|by destruct kc; try done; intros ?; eauto].
    split; [done|]. split; [done|]. destruct kc; try done. destruct Hty as [? _]. by split.
  - intros src i u Ht Hr.
    assert (src = Parent kc ∧ i = j ∧ u = p ∨ (src ≠ Parent kc ∨ i ≠ j) ∧ refs s src i u) as [(-> & -> & ->)|[Hne Hr']].
    { destruct src as [c|f|rl q]; simpl in *; [| |by right; split; [left|]].
      - destruct Hr as (x & Hx & <-). destruct (decide (kc = c)) as [<-|Hc].
        + rewrite data_set_entry_eq in Hx. apply list_lookup_insert_Some in Hx as [(-> & <- & _)|[? ?]]; [by left|].
          right. split; [by right|eauto].
        + rewrite data_set_entry_ne in Hx by done. right. split; [left; congruence|eauto].
      - right. split; [by left|]. destruct Hr as (c & x & Hx & Hu'). destruct (decide (kc = c)) as [<-|Hc].
        + rewrite data_set_entry_eq in Hx. apply list_lookup_insert_Some in Hx as [(-> & <- & _)|[? ?]]; eauto.
        + rewrite data_set_entry_ne in Hx by done. eauto. }
    + left. exists kp. by rewrite Hkeys.
    + destruct (Hok src i u Ht Hr') as [(c & ? & ?)|[(c & -> & [?|(-> & <- & _)])|[[]%elem_of_nil _]]].
      * left. exists c. by rewrite Hkeys.
      * right. left. eauto.
      * by destruct Hne.
  - rewrite data_set_entry_eq. apply list_lookup_insert_eq. by eapply lookup_lt_Some.
  - split; [done|]. exact Hcase.
Qed.

Section loop.
Context (kc : Component.t) (w : uuid) (body : uuid → M Model unit) (Pre : Model → Prop) (Ch : Component.t → Prop).
Hypothesis body_runs : ∀ X s j k r,
  Inv s → ok (allow kc (eq j) w X) [] ""%string s → child_ok s kc j k r → Pre s →
  m_parent_uuid r = w →
  runs (body k) s (λ _ s', good X s' ∧ Pre s' ∧ frame (λ c i, (c = kc ∧ i = j) ∨ Ch c) s s').
Hypothesis kc_kept : ¬ Ch kc.

Lemma loop_run X J ks s :
  NoDup J → Forall2 (λ j k, ∃ r, child_ok s kc j k r ∧ m_parent_uuid r = w) J ks →
  Inv s → ok (allow kc (.∈ J) w X) [] ""%string s → Pre s →
  runs (for_each ks body) s (λ _ s', good X s' ∧ Pre s' ∧ frame (λ c _, c = kc ∨ Ch c) s s').
Proof.
  intros HJ HF. revert s HF HJ. revert ks.
  induction J as [|j J IH]; intros ks s HF HJ HI Hok HP; apply Forall2_cons_inv_l in HF || (apply Forall2_nil_inv_l in HF as ->).
  { apply runs_ret. split; [split; [done|]|split; [done|apply frame_refl]].
    eapply ok_weaken; [|exact Hok]. intros c i u [?|(_ & ?%elem_of_nil & _)]; done. }
  destruct HF as (k & ks' & (r & Hch & Hw) & HF' & ->). apply list.NoDup_cons in HJ as [HjJ HJ]. cbn [for_each]. apply runs_bind. eapply runs_conseq.
  { eapply (body_runs (allow kc (.∈ J) w X) s j k r); [done| |done|done|done]. eapply ok_weaken; [|exact Hok].
    intros c i u [?|(-> & [->|?]%elem_of_cons & ->)]; [by left; left|by right|by left; right]. }
  intros ? s1 ([HI1 Hok1] & HP1 & Hf1). eapply runs_conseq.
  { apply IH; [|done|done|exact Hok1|done].
    apply Forall2_same_length_lookup. split; [by eapply Forall2_length|]. intros n j' k' Hnj Hnk.
    assert (j' ∈ J) as Hj' by (by eapply list_elem_of_lookup_2).
    destruct (Forall2_lookup_lr _ _ _ n j' k' HF' Hnj Hnk) as (r' & (Hi' & Hk' & Hc') & Hw'). destruct (Hf1 kc) as [_ Hkeep].
    destruct (Hkeep j' r') as (r1 & Hi1 & Hs); [intros [[_ ->]|?]; done|done|]. exists r1.
    split; [split; [done|]|by injection Hs as _ _ _ ->]. split; [rewrite <- Hk'; by apply skel_uuid|].
    by injection Hs as _ _ -> _. }
  intros ? s2 (Hg2 & HP2 & Hf2). split; [done|]. split; [done|].
  eapply frame_trans; [|exact Hf2]. eapply frame_mono; [exact Hf1|]. intros c i [[-> _]|?]; auto.
Qed.
End loop.

(** The children of a resource that has been renamed: their positions, and the parents
    that are out of date. *)
Lemma children_positions kc w X ks s :
  ok (pend (kc :: ks) w X) [] ""%string s →
  (∀ j r, data s kc !! j = Some r → m_parent_uuid r = w → m_is_uuid_persistent r = false ∨ single kc = true) →
  ∃ J, NoDup J ∧
    Forall2 (λ j k, ∃ r, child_ok s kc j k r ∧ m_parent_uuid r = w) J
      (GenericManager.get_keys_of w (λ _, true) (tables s kc)) ∧
    ok (allow kc (.∈ J) w (pend ks w X)) [] ""%string s.
Proof.
  intros Hok Hcase.
  destruct (filter_positions (λ r : Res kc, bool_decide (w = m_parent_uuid r) && true = true) (data s kc))
    as (J & HJ & HF & Hin).
  exists J. split; [done|]. split.
  - unfold GenericManager.get_keys_of, GenericManager.get_keys. apply Forall2_fmap_r.
    eapply list.Forall2_impl; [exact HF|]. cbn.
    intros j r [Hj Hr]. rewrite andb_true_r in Hr. apply bool_decide_eq_true in Hr. exists r. split; [|done].
    split; [done|]. split; [done|]. by eapply Hcase.
  - intros src i u Ht Hr. destruct (Hok src i u Ht Hr) as [?|[(c & -> & [?|[[->|Hc]%elem_of_cons ->]])|?]];
      [by left|..|by right; right]; right; left.
    + exists c. split; [done|]. by left; left.
    + exists kc. split; [done|]. right. split_and!; [done| |done]. destruct Hr as (r & Hi & Hp).
      apply (Hin i r); [done|]. by rewrite bool_decide_eq_true_2.
    + exists c. split; [done|]. left. by right.
Qed.

(** [for (child : get_keys(w)) ...]: afterwards the parents of these children are up to
    date again. *)
Lemma children_run kc w body Pre Ch X ks s :
  (∀ X s j k r, Inv s → ok (allow kc (eq j) w X) [] ""%string s → child_ok s kc j k r → Pre s →
    m_parent_uuid r = w →
    runs (body k) s (λ _ s', good X s' ∧ Pre s' ∧ frame (λ c i, (c = kc ∧ i = j) ∨ Ch c) s s')) →
  ¬ Ch kc → Inv s → ok (pend (kc :: ks) w X) [] ""%string s → Pre s →
  (∀ j r, data s kc !! j = Some r → m_parent_uuid r = w → m_is_uuid_persistent r = false ∨ single kc = true) →
  runs (for_each (GenericManager.get_keys_of w (λ _, true) (tables s kc)) body) s
    (λ _ s', good (pend ks w X) s' ∧ Pre s' ∧ frame (λ c _, c = kc ∨ Ch c) s s').
Proof.
  intros Hbody HCh HI Hok HP Hcase. destruct (children_positions _ _ _ _ _ Hok Hcase) as (J & HJ & HF & Hok').
  by eapply (loop_run kc w body Pre Ch Hbody HCh _ J).
Qed.

(** The same for a type with one resource. *)
Lemma only_child_run kc w body Ch X ks s :
  single kc = true → Inv s → ok (pend (kc :: ks) w X) [] ""%string s →
  (∀ j k r, ok (allow kc (eq j) w (pend ks w X)) [] ""%string s → child_ok s kc j k r →
    runs (body k) s (λ _ s', good (pend ks w X) s' ∧ frame Ch s s')) →
  runs (for_each (GenericManager.get_keys_of w (λ _, true) (tables s kc)) body) s
    (λ _ s', good (pend ks w X) s' ∧ frame Ch s s').
Proof.
  intros Hs HI Hok Hbody. destruct (children_positions kc w X ks s Hok) as (J & HJ & HF & Hok'); [by right|].
  destruct J as [|j J].
  - apply Forall2_nil_inv_l in HF as ->. apply runs_ret. split; [split; [done|]|apply frame_refl].
    eapply ok_weaken; [|exact Hok']. intros c i u [?|(_ & ?%elem_of_nil & _)]; done.
  - apply Forall2_cons_inv_l in HF as (k & ks' & (r & Hch & Hw) & HF & ->).
    assert (J = []) as ->.
    { destruct J as [|j' J]; [done|]. apply Forall2_cons_inv_l in HF as (k' & ks'' & (r' & Hch' & _) & _).
      apply list.NoDup_cons in HJ as [[]%not_elem_of_cons _]. pose proof (inv_single _ _ _ _ _ HI kc Hs).
      destruct Hch as (Hj%lookup_lt_Some & _), Hch' as (Hj'%lookup_lt_Some & _). lia. }
    apply Forall2_nil_inv_l in HF as ->. cbn [for_each]. apply runs_bind.
    eapply runs_conseq; [eapply Hbody; [|done]|].
    + eapply ok_weaken; [|exact Hok']. intros c i u [?|(-> & ->%list_elem_of_singleton & ->)]; [by left|by right].
    + intros ? s1 [Hg1 Hf1]. by apply runs_ret.
Qed.

(** The loop over the children that sets their parents and stabilizes them, for
    children that have no persistent uuid yet.  [fr] are types that [stab] expects without
    persistent uuids, [Ch] the types it changes besides. *)
Lemma stabilize_children_run kc kp w p stab fr Ch X ks s :
  (∀ X s j k r, good X s → child_ok s kc j k r → m_parent_uuid r ∈ keys s kp → Forall (fresh s) fr →
    runs (stab k) s (λ (_ : uuid) s', good X s' ∧ frame (λ c i, (c = kc ∧ i = j) ∨ Ch c) s s')) →
  kc ≠ Component.Processor → Parent kc ∈ aimed kp → kp ≠ kc → ¬ Ch kc → ¬ Ch kp →
  Forall (λ c, c ≠ kc ∧ ¬ Ch c) fr → ¬ is_temp p → p ∈ keys s kp → Forall (fresh s) fr → fresh s kc →
  Inv s → ok (pend (kc :: ks) w X) [] ""%string s →
  runs (for_each (GenericManager.get_keys_of w (λ _, true) (tables s kc))
      (λ k, set_parent kc k p;; stab k;; mret tt)) s
    (λ _ s', good (pend ks w X) s' ∧ frame (λ c _, c = kc ∨ Ch c) s s').
Proof.
  intros Hstab Hkc Haim Hne HCh HChp Hfrs Hpt Hin Hfr Hfresh HI Hok.
  eapply runs_conseq; [eapply (children_run kc w _ (λ s, p ∈ keys s kp ∧ Forall (fresh s) fr) Ch X ks);
    [|done|done|exact Hok|done|by left; eapply Hfresh]|by intros ? s' (? & _ & ?)].
  intros X' s' j k r HI' Hok' Hch' [Hp' Hfr'] _. apply runs_bind.
  assert (∀ s1 s2, frame (λ c i, (c = kc ∧ i = j) ∨ Ch c) s1 s2 → p ∈ keys s1 kp ∧ Forall (fresh s1) fr →
    p ∈ keys s2 kp ∧ Forall (fresh s2) fr) as Hkeep.
  { intros s1 s2 Hf [H1 H2]. split; [by rewrite (frame_keys _ s1 s2 _ Hf); [|by intros ? [[]|]]|].
    apply list.Forall_forall. intros c Hc. rewrite list.Forall_forall in H2, Hfrs. destruct (Hfrs c Hc) as [Hc1 Hc2].
    eapply frame_fresh; [exact Hf| |by apply H2]. by intros ? [[]|]. }
  eapply runs_conseq; [by eapply set_parent_run|]. intros ? s1 (_ & Hg1 & Hch1 & Hf1).
  assert (frame (λ c i, (c = kc ∧ i = j) ∨ Ch c) s' s1) as Hf1' by (eapply frame_mono; [exact Hf1|by left]).
  destruct (Hkeep _ _ Hf1' (conj Hp' Hfr')) as [Hp1 Hfr1]. apply runs_bind.
  eapply runs_conseq; [by eapply Hstab|]. intros ? s2 [Hg2 Hf2]. apply runs_ret. split; [done|].
  split; [by eapply Hkeep|]. by eapply frame_trans.
Qed.

(** The same loop for a type with one resource; [K] are the other types it changes. *)
Lemma stabilize_only_child_run kc kp w p stab fr K X ks s :
  single kc = true →
  (∀ s' j k r, good (pend ks w X) s' → child_ok s' kc j k r → Forall (fresh s') fr →
    runs (stab k) s' (λ (_ : uuid) s'', good (pend ks w X) s'' ∧ frame (λ c _, c ∈ kc :: K) s' s'')) →
  Parent kc ∈ aimed kp → kp ∉ kc :: K → Forall (λ c, c ≠ kc) fr →
  ¬ is_temp p → p ∈ keys s kp → Forall (fresh s) fr → Inv s → ok (pend (kc :: ks) w X) [] ""%string s →
  runs (for_each (GenericManager.get_keys_of w (λ _, true) (tables s kc))
      (λ k, set_parent kc k p;; stab k;; mret tt)) s
    (λ _ s', good (pend ks w X) s' ∧ p ∈ keys s' kp ∧ frame (λ c _, c ∈ kc :: K) s s').
Proof.
  intros Hs Hstab Haim Hkp Hfrs Hpt Hin Hfr HI Hok.
  eapply runs_conseq; [eapply (only_child_run kc w _ (λ c _, c ∈ kc :: K) X ks); [done|done|exact Hok|]|].
  - intros j k r Hok' Hch. apply runs_bind. assert (kc ≠ Component.Processor) as Hkc by (by intros ->).
    eapply runs_conseq; [by eapply set_parent_run|]. intros ? s1 (_ & Hg1 & Hch1 & Hf1). apply runs_bind.
    eapply runs_conseq; [eapply Hstab; [done|done|]|].
    + apply list.Forall_forall. intros c Hc. rewrite list.Forall_forall in Hfr, Hfrs.
      eapply frame_fresh; [exact Hf1| |by apply Hfr]. intros ? [? _]. by destruct (Hfrs c Hc).
    + intros ? s2 [Hg2 Hf2]. apply runs_ret. split; [done|]. eapply frame_trans; [|exact Hf2].
      eapply frame_mono; [exact Hf1|]. intros c i [-> _]. apply list_elem_of_here.
  - intros ? s' [Hg Hf]. split; [done|]. split; [|done]. by rewrite (frame_keys _ s s' _ Hf).
Qed.

(** Resources that nothing else is renamed with. *)
Lemma renamed_only_frame X c i s s' (Ch : Component.t → Prop) :
  renamed_only X c i s s' → good X s' ∧ frame (λ c' j, (c' = c ∧ j = i) ∨ Ch c') s s'.
Proof. intros [Hg Hf]. split; [done|]. eapply frame_mono; [exact Hf|]. by left. Qed.

Ltac each := repeat (apply list.Forall_cons; split); try apply Forall_nil_2; try done.

(** ** Devices and their functions *)

Lemma child_temp s c i w r : Inv s → child_ok s c i w r → single c = false → m_is_uuid_persistent r = false ∧ is_temp w.
Proof.
  intros HI (Hi & <- & Hcase) Hs. destruct Hcase as [Hf|]; [|congruence]. split; [done|].
  unfold get_uuid. rewrite Hf. by destruct (inv_entry _ _ _ _ _ HI _ _ _ Hi).
Qed.

Lemma processor_run s d :
  Inv s → is_processor procs d = true →
  ∃ pr x, get_entry Component.Processor d s = (Ok pr, s) ∧
    processor_serial (fields (c := Component.Processor) pr) = Some x.
Proof.
  intros HI Hd. unfold get_entry, GenericManager.get_entry. run_monad. rewrite (inv_procs _ _ _ _ _ HI).
  apply bool_decide_eq_true in Hd as [[i pr] Hpr]. rewrite Hpr. apply find_if_Some in Hpr as (Hi & _).
  eapply (Forall_lookup_1 _ _ _ _ procs_serial) in Hi as [x Hx]. eauto.
Qed.

Lemma function_external_run X key w i (r : Res Component.PcieFunction) d s :
  good X s → child_ok s Component.PcieFunction i w r → ¬ is_temp (m_parent_uuid r) →
  functional_device (fields r) = Some d → is_processor procs d = true →
  runs (stabilize_pcie_function_external make_v5_uuid m_agent_id ProcessorFunction w key) s
    (λ _ s', renamed_only X Component.PcieFunction i s s').
Proof.
  intros Hg Hch Hpar Hd Hproc. assert (Hg' := Hg). destruct Hg' as [HI Hok].
  pose proof (child_uniq _ _ _ _ _ _ _ _ _ HI Hch) as Hu. unfold stabilize_pcie_function_external.
  apply runs_bind. exists r, s. split; [by eapply get_entry_run|]. apply runs_catch.
  eapply runs_lift_bind; [reflexivity|]. pose proof (λ k, function_rename X k w i r d s Hg Hch Hpar Hd) as H.
  rewrite Hproc in H. apply H.
Qed.

Lemma function_drive_run X w i (r : Res Component.PcieFunction) d s :
  good X s → child_ok s Component.PcieFunction i w r → ¬ is_temp (m_parent_uuid r) →
  m_parent_uuid r ∈ keys s Component.PcieDevice →
  functional_device (fields r) = Some d → is_processor procs d = false →
  runs (stabilize_pcie_function make_v5_uuid m_agent_id DriveFunction w) s
    (λ _ s', renamed_only X Component.PcieFunction i s s').
Proof.
  intros Hg Hch Hpar Hdev Hd Hproc. assert (Hg' := Hg). destruct Hg' as [HI Hok].
  pose proof (child_uniq _ _ _ _ _ _ _ _ _ HI Hch) as Hu. unfold stabilize_pcie_function.
  apply runs_bind. exists r, s. split; [by eapply get_entry_run|].
  destruct (get_entry_known _ _ _ Hdev) as (j & dev & _ & Hget).
  apply runs_bind. exists dev, s. split; [done|].
  destruct (key_PcieFunction m_agent_id r dev) as [key|e] eqn:Ek.
  - apply runs_catch. eapply runs_lift_bind; [done|].
    pose proof (function_rename X key w i r d s Hg Hch Hpar Hd) as H. rewrite Hproc in H. apply H.
  - apply key_of_missing in Ek as [m ->]; [|done]. eapply runs_catch_missing; [done|]. by apply renamed_nothing.
Qed.

Lemma function_of_device_run p w X s j k r :
  ¬ is_temp p → Inv s → ok (allow Component.PcieFunction (eq j) w X) [] ""%string s →
  child_ok s Component.PcieFunction j k r → p ∈ keys s Component.PcieDevice →
  runs (stabilize_function_of_device make_v5_uuid m_agent_id p k) s (λ _ s', good X s' ∧
    p ∈ keys s' Component.PcieDevice ∧ frame (λ c i, (c = Component.PcieFunction ∧ i = j) ∨ False) s s').
Proof.
  intros Hpt HI Hok Hch Hp. unfold stabilize_function_of_device. apply runs_bind.
  eapply runs_conseq; [eapply set_parent_run; [|done|exact Hok|exact Hch| |exact Hp|done]|]; [done|here|].
  intros ? s1 (_ & Hg1 & Hch1 & Hf1). assert (Hg1' := Hg1). destruct Hg1' as [HI1 _].
  pose proof (child_uniq _ _ _ _ _ _ _ _ _ HI1 Hch1) as Hu1.
  assert (p ∈ keys s1 Component.PcieDevice) as Hp1 by (by rewrite (frame_keys _ s s1 _ Hf1); [|by intros ? []]).
  apply runs_bind. eexists _, _. split; [by eapply entry_read_run|].
  destruct (inv_entry _ _ _ _ _ HI1 _ _ _ (proj1 Hch1)) as (_ & _ & [d Hd] & _). rewrite Hd.
  assert (∀ s', renamed_only X Component.PcieFunction j s1 s' → good X s' ∧ p ∈ keys s' Component.PcieDevice ∧
    frame (λ c i, (c = Component.PcieFunction ∧ i = j) ∨ False) s s') as Hpost.
  { intros s' [? Hf]. split; [done|]. split; [by rewrite (frame_keys _ s1 s' _ Hf); [|by intros ? []]|].
    eapply frame_mono; [eapply frame_trans; [exact Hf1|exact Hf]|]. by left. }
  apply runs_get_bind. rewrite (inv_procs _ _ _ _ _ HI1). destruct (entry_exists d procs) eqn:Eproc.
  - destruct (processor_run s1 d HI1 Eproc) as (pr & x & Hpr & Hx). apply runs_bind. exists pr, s1. split; [done|].
    rewrite Hx. apply runs_bind, runs_ret. apply runs_bind.
    eapply runs_conseq; [by eapply function_external_run|]. intros ? s2 H2. apply runs_ret. auto.
  - apply runs_bind. eapply runs_conseq; [eapply function_drive_run; [done|done|done| |done|done]|]; [done|].
    intros ? s2 H2. apply runs_ret. auto.
Qed.

(** A device and the functions. *)
Abbreviation device_frame i :=
  (λ (c : Component.t) (j : nat), (c = Component.PcieDevice ∧ j = i) ∨ c = Component.PcieFunction).

(** A function with a persistent uuid has a parent with one. *)
Lemma function_children s w j r :
  Inv s → is_temp w → data s Component.PcieFunction !! j = Some r → m_parent_uuid r = w →
  m_is_uuid_persistent r = false.
Proof.
  intros HI Hw Hj <-. destruct (inv_entry _ _ _ _ _ HI _ _ _ Hj) as (_ & _ & _ & Hp).
  destruct (m_is_uuid_persistent r); [|done]. by destruct (Hp eq_refl).
Qed.

Lemma device_run X w i r s :
  good X s → child_ok s Component.PcieDevice i w r →
  runs (stabilize_pcie_device make_v5_uuid m_agent_id w) s (λ _ s', good X s' ∧ frame (device_frame i) s s').
Proof.
  intros [HI Hok] Hch. pose proof (child_uniq _ _ _ _ _ _ _ _ _ HI Hch) as Hu.
  destruct (child_temp _ _ _ _ _ HI Hch eq_refl) as [_ Hwt]. unfold stabilize_pcie_device.
  apply runs_bind. exists r, s. split; [by eapply get_entry_run|].
  destruct (key_PcieDevice m_agent_id r) as [key|e] eqn:Ek.
  - apply runs_catch. eapply runs_lift_bind; [done|]. apply runs_bind.
    eapply runs_conseq; [eapply single_run; [done|done|by eapply ok_any|done|done]|].
    intros p s1 (Hp & Hs1 & HI1 & Hok1 & Hin & Hf). clear Hs1.
    assert (¬ is_temp p) as Hpt by (rewrite Hp; apply v5_not_temp).
    apply runs_bind. apply runs_catch. unfold get_keys_of. apply runs_bind, runs_get_bind, runs_ret.
    eapply runs_conseq; [eapply (children_run Component.PcieFunction w _
      (λ s, p ∈ keys s Component.PcieDevice) (λ _, False) X [])|].
    + intros X' s' j k r' HI' Hok' Hch' HP' _. by eapply function_of_device_run.
    + tauto.
    + done.
    + by apply (ok_pend X [Component.PcieFunction]).
    + done.
    + intros j r' Hj Hw. left. by eapply function_children.
    + intros ? s2 ([HI2 Hok2] & _ & Hf2). apply runs_ret. split; [split; [done|by eapply pend_nil]|].
      eapply frame_trans; [eapply frame_mono; [exact Hf|]|eapply frame_mono; [exact Hf2|]]; [by left|].
      intros c j [->|[]]. by right.
  - apply key_of_missing in Ek as [m ->]; [|done]. eapply runs_catch_missing; [done|]. split; [done|apply frame_refl].
Qed.

Lemma functional_devices_single l d :
  functional_devices l = Some [d] → ∃ f, l = [f] ∧ functional_device (fields (c := Component.PcieFunction) f) = Some d.
Proof.
  destruct l as [|f l]; [done|]. cbn. destruct (functional_device (fields f)) as [d'|] eqn:Ef; [|done]. cbn.
  destruct (functional_devices l) as [ds|] eqn:El; [|done]. cbn. intros [= -> ->]. exists f. split; [|done].
  f_equal. destruct l as [|g l]; [done|]. cbn in El. destruct (functional_device (fields g)); [|done]. cbn in El.
  by destruct (functional_devices l).
Qed.

Lemma device_external_run X w i r d key s :
  good X s → child_ok s Component.PcieDevice i w r →
  functional_devices (get_entries_of w (λ _, true) (tables s Component.PcieFunction)) = Some [d] →
  is_processor procs d = true →
  runs (stabilize_pcie_device_external make_v5_uuid m_agent_id ProcessorFunction w key) s
    (λ _ s', good X s' ∧ frame (device_frame i) s s').
Proof.
  intros [HI Hok] Hch Hds Hproc. pose proof (child_uniq _ _ _ _ _ _ _ _ _ HI Hch) as Hu.
  destruct (child_temp _ _ _ _ _ HI Hch eq_refl) as [_ Hwt]. unfold stabilize_pcie_device_external.
  apply runs_bind. exists r, s. split; [by eapply get_entry_run|].
  apply runs_catch. eapply runs_lift_bind; [reflexivity|]. apply runs_bind.
  eapply runs_conseq; [eapply single_run; [done|done|by eapply ok_any|done|done]|].
  intros p s1 (Hp & Hs1 & HI1 & Hok1 & Hin & Hf).
  assert (¬ is_temp p) as Hpt by (rewrite Hp; apply v5_not_temp).
  assert (tables s1 Component.PcieFunction = tables s Component.PcieFunction) as Ht1.
  { rewrite Hs1. unfold set_entry. by rewrite tables_set_table_ne. }
  destruct (functional_devices_single _ _ Hds) as (f & Hfs & Hd).
  destruct (filter_positions (λ r : Res Component.PcieFunction, bool_decide (w = m_parent_uuid r) && true = true)
    (data s1 Component.PcieFunction)) as (J & _ & HF & HJ).
  unfold data in HF. rewrite Ht1 in HF. unfold get_entries_of, get_entries in Hfs. rewrite Hfs in HF.
  apply Forall2_cons_inv_r in HF as (j & J' & [Hj Hjw] & HF & ->). apply Forall2_nil_inv_r in HF as ->.
  rewrite andb_true_r in Hjw. apply bool_decide_eq_true in Hjw.
  rewrite <- Ht1 in Hj. change (data s1 Component.PcieFunction !! j = Some f) in Hj.
  assert (child_ok s1 Component.PcieFunction j (get_uuid f) f) as Hchf.
  { split; [done|]. split; [done|]. left. by eapply function_children. }
  assert (ok (allow Component.PcieFunction (eq j) w X) [] ""%string s1) as Hok1'.
  { apply ok_pend with (ks := [Component.PcieFunction]) in Hok1. intros src k u Ht Hr.
    destruct (Hok1 src k u Ht Hr) as [?|[(c & -> & [?|[->%list_elem_of_singleton ->]])|?]]; [by left|..|by right; right];
      right; left; eexists; (split; [done|]); [by left|]. right. split_and!; [done| |done].
    destruct Hr as (x & Hk & Hx). symmetry. apply list_elem_of_singleton, (HJ k x Hk).
    by rewrite bool_decide_eq_true_2. }
  unfold get_keys_of. apply runs_bind, runs_get_bind, runs_ret. rewrite Ht1.
  unfold GenericManager.get_keys_of, GenericManager.get_keys. rewrite Hfs. cbn [fmap list_fmap for_each].
  do 3 apply runs_bind. eapply runs_conseq; [eapply set_parent_run; [|done|exact Hok1'|exact Hchf| |exact Hin|done]|];
    [done|here|].
  intros ? s2 (_ & Hg2 & Hch2 & Hf2). apply runs_bind.
  eapply runs_conseq; [by eapply function_external_run|]. intros ? s3 [Hg3 Hf3].
  do 3 apply runs_ret. split; [done|].
  eapply frame_trans; [eapply frame_mono; [exact Hf|]|]; [by left|].
  eapply frame_mono; [eapply frame_trans; [exact Hf2|exact Hf3]|]. intros c k [-> _]. by right.
Qed.

Lemma device_oob_run X w i r s :
  good X s → child_ok s Component.PcieDevice i w r →
  runs (try_stabilize_pcie_device_using_oob_model make_v5_uuid m_agent_id w) s
    (λ _ s', good X s' ∧ frame (device_frame i) s s').
Proof.
  intros Hg Hch. assert (Hg' := Hg). destruct Hg' as [HI _].
  unfold try_stabilize_pcie_device_using_oob_model. apply runs_get_bind.
  assert (runs (mret w) s (λ _ s', good X s' ∧ frame (device_frame i) s s')) as Hret.
  { apply runs_ret. split; [done|apply frame_refl]. }
  destruct (functional_devices _) as [[|d [|]]|] eqn:Eds; [exact Hret| |exact Hret|exact Hret].
  rewrite (inv_procs _ _ _ _ _ HI). destruct (entry_exists d procs) eqn:Eproc; [|by eapply device_run].
  destruct (processor_run s d HI Eproc) as (pr & x & Hpr & Hx). apply runs_bind. exists pr, s. split; [done|].
  rewrite Hx. apply runs_bind, runs_ret. by eapply device_external_run.
Qed.

Lemma device_of_module_run p w X s j k r :
  ¬ is_temp p → Inv s → ok (allow Component.PcieDevice (eq j) w X) [] ""%string s →
  child_ok s Component.PcieDevice j k r → p ∈ keys s Component.Manager →
  runs (stabilize_device_of_module make_v5_uuid m_agent_id p k) s (λ _ s', good X s' ∧
    p ∈ keys s' Component.Manager ∧
    frame (λ c i, (c = Component.PcieDevice ∧ i = j) ∨ c = Component.PcieFunction) s s').
Proof.
  intros Hpt HI Hok Hch Hp. unfold stabilize_device_of_module. apply runs_bind.
  eapply runs_conseq; [eapply set_parent_run; [|done|exact Hok|exact Hch| |exact Hp|done]|]; [done|here|].
  intros ? s1 (_ & Hg1 & Hch1 & Hf1). assert (Hg1' := Hg1). destruct Hg1' as [HI1 _].
  pose proof (child_uniq _ _ _ _ _ _ _ _ _ HI1 Hch1) as Hu1.
  apply runs_bind. eexists _, _. split; [by eapply entry_read_run|].
  assert (∀ s', good X s' ∧ frame (device_frame j) s1 s' → good X s' ∧ p ∈ keys s' Component.Manager ∧
    frame (device_frame j) s s') as Hpost.
  { intros s' [? Hf]. assert (frame (device_frame j) s s') as Hfs.
    { eapply frame_trans; [eapply frame_mono; [exact Hf1|]|exact Hf]. by left. }
    split; [done|]. split; [|done]. by rewrite (frame_keys _ s s' _ Hfs); [|by intros ? [[]|]]. }
  destruct (device_serial _) as [x|].
  - apply runs_bind. eapply runs_conseq; [by eapply device_run|]. intros ? s2 H2. apply runs_ret. auto.
  - apply runs_bind. eapply runs_conseq; [by eapply device_oob_run|]. intros ? s2 H2. apply runs_ret. auto.
Qed.

(** ** Systems *)

Lemma system_run X w i r s :
  good X s → (∀ j u, ¬ X Component.StorageSubsystem j u) → child_ok s Component.System i w r →
  runs (stabilize_system make_v5_uuid m_agent_id w) s (λ _ s', good X s' ∧
    frame (λ c j, (c = Component.System ∧ j = i) ∨ c = Component.StorageSubsystem) s s').
Proof.
  intros [HI Hok] HX Hch. pose proof (child_uniq _ _ _ _ _ _ _ _ _ HI Hch) as Hu. unfold stabilize_system.
  apply runs_bind. exists r, s. split; [by eapply get_entry_run|]. apply runs_catch.
  eapply runs_lift_bind; [reflexivity|].
  (* there is one subsystem, and it belongs to the system *)
  assert (∃ sub, data s Component.StorageSubsystem = [sub] ∧ m_parent_uuid sub = w) as (sub & Hsub & Hpar).
  { assert (Hch' := Hch). destruct Hch' as (Hi & Hw & _). pose proof (inv_single _ _ _ _ _ HI Component.System eq_refl) as Hs1.
    pose proof (inv_single _ _ _ _ _ HI Component.StorageSubsystem eq_refl) as Hs2.
    pose proof (inv_subsystem _ _ _ _ _ HI) as Hs3. apply lookup_lt_Some in Hi as Hlt.
    destruct (data s Component.StorageSubsystem) as [|sub [|]] eqn:Esub;
      cbn [length] in *; [lia| |lia].
    exists sub. split; [done|]. destruct (Hok (Parent Component.StorageSubsystem) 0 (m_parent_uuid sub))
      as [(c & Hc & Hk)|[(c & [= <-] & ?%HX)|[[]%elem_of_nil _]]]; [exists Component.System; here|exists sub; by rewrite Esub| |done].
    assert (c = Component.System) as -> by (aimed_at Hc c). apply list_elem_of_fmap in Hk as (x & Hx & [j Hj]%list_elem_of_lookup).
    apply lookup_lt_Some in Hj as Hlt'. assert (j = i) as -> by lia. rewrite Hi in Hj. injection Hj as <-. congruence. }
  assert (GenericManager.get_keys_of w (λ _, true) (tables s Component.StorageSubsystem) = [get_uuid sub]) as Hkeys.
  { unfold GenericManager.get_keys_of, GenericManager.get_keys. unfold data in Hsub. rewrite Hsub.
    rewrite filter_cons_True; [done|]. by rewrite Hpar, bool_decide_eq_true_2. }
  unfold get_keys_of. apply runs_bind, runs_get_bind, runs_ret. rewrite Hkeys.
  eapply runs_lift_bind; [reflexivity|]. apply runs_bind.
  eapply runs_conseq; [eapply single_run; [done|done|by eapply ok_any|done|done]|].
  intros p s1 (Hp & Hs1 & HI1 & Hok1 & Hin & Hf).
  assert (data s1 Component.StorageSubsystem = [sub]) as Hsub1 by (rewrite Hs1; by rewrite data_set_entry_ne).
  assert (child_ok s1 Component.StorageSubsystem 0 (get_uuid sub) sub) as Hchs.
  { split; [by rewrite Hsub1|]. split; [done|]. by right. }
  assert (ok (allow Component.StorageSubsystem (eq 0) w X) [] ""%string s1) as Hok1'.
  { apply ok_pend with (ks := [Component.StorageSubsystem]) in Hok1. intros src k u Ht Hr.
    destruct (Hok1 src k u Ht Hr) as [?|[(c & -> & [?|[->%list_elem_of_singleton ->]])|?]]; [by left|..|by right; right];
      right; left; eexists; (split; [done|]); [by left|]. right. split_and!; [done| |done].
    destruct Hr as (x & Hk & _). rewrite Hsub1 in Hk. by destruct k. }
  apply runs_bind. eapply runs_conseq; [eapply set_parent_run; [|done|exact Hok1'|exact Hchs| |exact Hin|]|];
    [done|here|rewrite Hp; apply v5_not_temp|].
  intros ? s2 (_ & Hg2 & Hch2 & Hf2). apply runs_bind.
  eapply runs_conseq; [by eapply subsystem_run|]. intros ? s3 [Hg3 Hf3]. apply runs_ret. split; [done|].
  eapply frame_trans; [eapply frame_mono; [exact Hf|]|]; [by left|].
  eapply frame_mono; [eapply frame_trans; [exact Hf2|exact Hf3]|]. intros c k [-> _]. by right.
Qed.

(** ** Switches and fabrics *)

Lemma zone_switch_run X L w p s :
  fresh s Component.Zone → Inv s → current s (Field ZoneSwitch) p → ok X (Field ZoneSwitch :: L) w s →
  runs (update_pcie_switch_in_relations w p) s (λ _ s', Inv s' ∧ ok X L w s' ∧ quiet s s').
Proof.
  intros Hfr HI Hcur Hok. unfold update_pcie_switch_in_relations, get_keys. apply runs_bind, runs_get_bind, runs_ret.
  set (t := λ x : ZoneFields, bool_decide (zone_switch_uuid x = w)).
  eapply runs_conseq; [apply (replace_field_run X ZoneSwitch L w p s Component.Zone t
    (λ x, mkZoneF (zone_id x) p)); try done|by intros ? s' (? & ? & ? & _)].
  - by eapply fresh_uniq.
  - by intros [].
  - cbn. intros x u ->%list_elem_of_singleton. by left.
  - cbn. by intros x Hx%bool_decide_eq_false ?%list_elem_of_singleton.
  - by intros [].
Qed.

Abbreviation switch_frame i :=
  (λ (c : Component.t) (j : nat), (c = Component.Switch ∧ j = i) ∨ c = Component.Port ∨ c = Component.Metric).

Lemma switch_run X w i r s :
  good X s → child_ok s Component.Switch i w r →
  fresh s Component.Zone → fresh s Component.Port → fresh s Component.PcieFunction →
  runs (stabilize_pcie_switch make_v5_uuid m_agent_id w) s (λ _ s', good X s' ∧ frame (switch_frame i) s s').
Proof.
  intros [HI Hok] Hch HfZ HfP HfF. pose proof (child_uniq _ _ _ _ _ _ _ _ _ HI Hch) as Hu.
  unfold stabilize_pcie_switch. apply runs_bind. exists r, s. split; [by eapply get_entry_run|].
  destruct (key_Switch m_agent_id r) as [key|e] eqn:Ek.
  - apply runs_catch. eapply runs_lift_bind; [done|]. apply runs_bind.
    eapply runs_conseq; [eapply single_run; [done|done|by eapply ok_any|done|done]|].
    intros p s1 (Hp & Hs1 & HI1 & Hok1 & Hin & Hf). clear Hs1.
    assert (¬ is_temp p) as Hpt by (rewrite Hp; apply v5_not_temp). apply runs_bind.
    eapply runs_conseq; [eapply zone_switch_run; [|done|is_current|exact Hok1]|].
    { eapply frame_fresh; [exact Hf| |done]. by intros ? []. }
    intros ? s2 (HI2 & Hok2 & Hf2). unfold get_keys_of. apply runs_bind, runs_get_bind, runs_ret. apply runs_bind.
    assert (frame (only Component.Switch i) s s2) as Hf12 by (eapply frame_trans; [exact Hf|apply Hf2]).
    assert (∀ c, c ≠ Component.Switch → fresh s c → fresh s2 c) as Hfr.
    { intros c Hc. eapply frame_fresh; [exact Hf12|]. by intros ? []. }
    eapply runs_conseq; [eapply (stabilize_children_run Component.Port Component.Switch w p _ [Component.PcieFunction]
      (λ c, c = Component.Metric) X []); try done|].
    + intros X' s' j k r' Hg' Hch' Hp' [HfF' _]%list.Forall_cons. by eapply port_run.
    + here.
    + each.
    + by rewrite (quiet_keys s1).
    + each. auto.
    + auto.
    + by apply (ok_pend X [Component.Port]).
    + intros ? s3 ([HI3 Hok3] & Hf3). apply runs_ret. split; [split; [done|by eapply pend_nil]|].
      eapply frame_trans; [eapply frame_mono; [exact Hf12|]|eapply frame_mono; [exact Hf3|]]; [by left|].
      intros c j [->| ->]; auto.
  - apply key_of_missing in Ek as [m ->]; [|done]. eapply runs_catch_missing; [done|]. split; [done|apply frame_refl].
Qed.

(** Everything below a fabric. *)
Definition in_fabric (c : Component.t) : Prop :=
  c ∈ [Component.Fabric; Component.Switch; Component.Port; Component.Metric; Component.Zone; Component.Endpoint].

Ltac outside := let H := fresh in intros ? H; unfold in_fabric in *; cbn in *;
  rewrite ?elem_of_cons, ?elem_of_nil in H; intuition congruence.

Lemma fabric_run X w i r s :
  good X s → child_ok s Component.Fabric i w r →
  fresh s Component.Zone → fresh s Component.Port → fresh s Component.PcieFunction → fresh s Component.Endpoint →
  runs (stabilize_fabric make_v5_uuid m_agent_id w) s (λ _ s', good X s' ∧ frame (λ c _, in_fabric c) s s').
Proof.
  intros [HI Hok] Hch HfZ HfP HfF HfE. pose proof (child_uniq _ _ _ _ _ _ _ _ _ HI Hch) as Hu.
  unfold stabilize_fabric. apply runs_bind. exists r, s. split; [by eapply get_entry_run|].
  apply runs_catch. eapply runs_lift_bind; [reflexivity|]. apply runs_bind.
  eapply runs_conseq; [eapply single_run; [done|done|by eapply ok_any|done|done]|].
  intros p s1 (Hp & Hs1 & HI1 & Hok1 & Hin & Hf). clear Hs1.
  assert (¬ is_temp p) as Hpt by (rewrite Hp; apply v5_not_temp).
  apply (ok_pend X [Component.Switch; Component.Zone; Component.Endpoint]) in Hok1.
  assert (∀ c, c ≠ Component.Fabric → fresh s c → fresh s1 c) as Hfr1.
  { intros c Hc. eapply frame_fresh; [exact Hf|]. by intros ? []. }
  unfold get_keys_of. apply runs_bind, runs_get_bind, runs_ret, runs_bind.
  eapply runs_conseq; [eapply (stabilize_only_child_run Component.Switch Component.Fabric w p _
    [Component.Zone; Component.Port; Component.PcieFunction] [Component.Port; Component.Metric] X
    [Component.Zone; Component.Endpoint]); each; auto|].
  { intros s' j k r' Hg' Hch' [HfZ' [HfP' [HfF' _]%list.Forall_cons]%list.Forall_cons]%list.Forall_cons.
    eapply runs_conseq; [by eapply switch_run|]. intros ? s'' [Hg'' Hf'']. split; [done|].
    eapply frame_mono; [exact Hf''|]. intros c q [[-> _]|[->| ->]]; here. }
  { here. }
  { not_in. }
  intros ? s2 ([HI2 Hok2] & Hin2 & Hf2).
  assert (fresh s2 Component.Zone) as HfZ2 by (eapply frame_fresh; [exact Hf2|outside|auto]).
  assert (fresh s2 Component.Endpoint) as HfE2 by (eapply frame_fresh; [exact Hf2|outside|auto]).
  apply runs_bind, runs_get_bind, runs_ret, runs_bind.
  eapply runs_conseq; [eapply (stabilize_children_run Component.Zone Component.Fabric w p _ [] (λ _, False) X);
    each; [|here|by intros []|by intros []]|].
  { intros X' s' j k r' Hg' Hch' _ _. eapply runs_conseq; [by eapply zone_run|]. intros ? s''. apply renamed_only_frame. }
  intros ? s3 ([HI3 Hok3] & Hf3).
  assert (p ∈ keys s3 Component.Fabric) as Hin3 by (by rewrite (frame_keys _ s2 s3 _ Hf3); [|by intros ? []]).
  assert (fresh s3 Component.Endpoint) as HfE3 by (eapply frame_fresh; [exact Hf3|by intros ? [|]|done]).
  apply runs_bind, runs_get_bind, runs_ret, runs_bind.
  eapply runs_conseq; [eapply (stabilize_children_run Component.Endpoint Component.Fabric w p _ [] (λ _, False) X);
    each; [|here|by intros []|by intros []]|].
  { intros X' s' j k r' Hg' Hch' _ _. eapply runs_conseq; [by eapply endpoint_run|]. intros ? s''. apply renamed_only_frame. }
  intros ? s4 ([HI4 Hok4] & Hf4). apply runs_ret. split; [split; [done|by eapply pend_nil]|].
  unfold in_fabric. eapply frame_trans; [|eapply frame_trans; [|eapply frame_trans]]; eapply frame_mono;
    [exact Hf| |exact Hf2| |exact Hf3| |exact Hf4|].
  - intros c j [-> _]. here.
  - intros c j Hc. rewrite !elem_of_cons in *. tauto.
  - intros c j [->|[]]. here.
  - intros c j [->|[]]. here.
Qed.

(** ** Chassis *)

(** The replacement of an optional reference to a chassis. *)
Lemma chassis_field_run X fd L w p s c (chassis : Fields c → option uuid) (h : Fields c → Fields c) :
  all_uniq s c → c ≠ Component.Processor → Inv s →
  (∀ r, entry_ok c r → changes c r (set_fields (h (fields r)) r)) →
  (∀ f' x, f' ≠ fd → reads f' c (h x) = reads f' c x) →
  (∀ x, reads fd c x = option_list (chassis x)) → (∀ x, chassis (h x) = Some p) →
  (∀ c' x, c' ≠ c → reads fd c' x = []) →
  current s (Field fd) p → ok X (Field fd :: L) w s →
  runs (write_all c (λ r, set_fields (h (fields r)) r)
      (GenericManager.get_keys (λ r, bool_decide (chassis (fields r) = Some w)) (tables s c))) s
    (λ _ s', Inv s' ∧ ok X L w s' ∧ quiet s s' ∧ ∀ c', c' ≠ c → tables s' c' = tables s c').
Proof.
  intros Hu Hc HI Hch Ho Hr Hh Hemp Hcur Hok. set (t := λ x, bool_decide (chassis x = Some w)).
  apply (replace_field_run X fd L w p s c t h); try done.
  - intros r Hr' _. by apply Hch.
  - intros x u. rewrite Hr, Hh. cbn. intros ->%list_elem_of_singleton. by left.
  - intros x Hx%bool_decide_eq_false. rewrite Hr. destruct (chassis x); cbn; [|by intros ?%elem_of_nil].
    intros ->%list_elem_of_singleton. done.
Qed.

Lemma chassis_relations_run X L w p s :
  fresh s Component.PcieDevice → p ∈ keys s Component.Chassis → Inv s →
  ok X (Field SwitchChassis :: Field SystemChassis :: Field DeviceChassis :: L) w s →
  runs (update_chassis_in_relations w p) s (λ _ s', Inv s' ∧ ok X L w s' ∧ quiet s s').
Proof.
  intros HfD Hin HI Hok. unfold update_chassis_in_relations, get_keys.
  do 3 apply runs_bind, runs_get_bind, runs_ret. apply runs_bind.
  eapply runs_conseq; [apply (chassis_field_run X SwitchChassis (Field SystemChassis :: Field DeviceChassis :: L) w p s
    Component.Switch switch_chassis (λ x, mkSwitchF (switch_serial x) (Some p))); try done|].
  { by eapply single_uniq. }
  { intros r (? & ? & ?). split_and!; try done. split_and!; try done. by eexists. }
  { by intros []. }
  { by intros []. }
  { is_current. }
  intros ? s2 (HI2 & Hok2 & Hf2 & Ht2).
  assert (p ∈ keys s2 Component.Chassis) as Hin2 by (by rewrite (quiet_keys s)).
  rewrite <- (Ht2 Component.System), <- (Ht2 Component.PcieDevice) by done. apply runs_bind.
  eapply runs_conseq; [apply (chassis_field_run X SystemChassis (Field DeviceChassis :: L) w p s2
    Component.System system_chassis (λ x, mkSystemF (Some p))); try done|].
  { by eapply single_uniq. }
  { by intros []. }
  { by intros []. }
  { is_current. }
  intros ? s3 (HI3 & Hok3 & Hf3 & Ht3).
  assert (p ∈ keys s3 Component.Chassis) as Hin3 by (by rewrite (quiet_keys s2)).
  rewrite <- (Ht3 Component.PcieDevice) by done.
  eapply runs_conseq; [apply (chassis_field_run X DeviceChassis L w p s3
    Component.PcieDevice device_chassis (λ x, mkDeviceF (device_serial x) (Some p))); try done|].
  { eapply fresh_uniq; [done|]. apply (frame_fresh (λ _ _, False) s2); [apply Hf3|tauto|].
    by apply (frame_fresh (λ _ _, False) s); [apply Hf2|tauto|]. }
  { by intros []. }
  { by intros []. }
  { is_current. }
  intros ? s4 (HI4 & Hok4 & Hf4 & _). split_and!; [done|done|]. eapply quiet_trans; [exact Hf2|]. by eapply quiet_trans.
Qed.

(** The switch belongs to the chassis. *)
Lemma switch_of_chassis X w i r s :
  good X s → child_ok s Component.Chassis i w r →
  ∃ sw : Res Component.Switch, GenericManager.get_keys (λ r', bool_decide (switch_chassis (fields (c := Component.Switch) r') = Some (get_uuid r)))
      (tables s Component.Switch) = [get_uuid sw] ∧ get_uuid sw ∈ keys s Component.Switch.
Proof.
  intros Hg (Hi & Hw & _). assert (Hg' := Hg). destruct Hg' as [HI Hok]. pose proof (inv_switch _ _ _ _ _ HI) as Hl.
  destruct (data s Component.Switch) as [|sw [|]] eqn:Esw; cbn [length] in Hl; [lia| |lia].
  assert (data s Component.Switch !! 0 = Some sw) as H0 by (by rewrite Esw).
  destruct (inv_entry _ _ _ _ _ HI _ _ _ H0) as (_ & _ & [u Hu]).
  destruct (field_current X s SwitchChassis _ 0 sw u) as (c & Hc & Hk); [done|exists Component.Chassis; here|done| |].
  { cbn. rewrite Hu. apply list_elem_of_here. }
  assert (c = Component.Chassis) as -> by (aimed_at Hc c).
  apply list_elem_of_fmap in Hk as (x & -> & [j Hj]%list_elem_of_lookup).
  assert (j = i) as ->.
  { pose proof (inv_single _ _ _ _ _ HI Component.Chassis eq_refl). apply lookup_lt_Some in Hi, Hj. lia. }
  rewrite Hi in Hj. injection Hj as <-. exists sw. split.
  - unfold GenericManager.get_keys. unfold data in Esw. rewrite Esw. rewrite filter_cons_True; [done|].
    by rewrite bool_decide_eq_true_2.
  - unfold keys. rewrite Esw. here.
Qed.

Lemma chassis_run X w i r s :
  good X s → child_ok s Component.Chassis i w r →
  fresh s Component.Drive → fresh s Component.Endpoint → fresh s Component.PcieFunction → fresh s Component.PcieDevice →
  runs (stabilize_chassis make_v5_uuid m_agent_id w) s (λ _ s', good X s' ∧
    frame (λ c _, c ∈ [Component.Chassis; Component.Drive]) s s').
Proof.
  intros Hg Hch HfD HfE HfF HfP. assert (Hg' := Hg). destruct Hg' as [HI Hok].
  pose proof (child_uniq _ _ _ _ _ _ _ _ _ HI Hch) as Hu.
  unfold stabilize_chassis. apply runs_bind. exists r, s. split; [by eapply get_entry_run|].
  destruct (switch_of_chassis X w i r s Hg Hch) as (sw & Hsw & Hswk).
  unfold get_keys. apply runs_bind, runs_get_bind, runs_ret. rewrite Hsw.
  destruct (get_entry_known _ _ _ Hswk) as (j & sw' & _ & Hget).
  destruct (key_Chassis m_agent_id r sw') as [key|e] eqn:Ek.
  - apply runs_catch. apply runs_bind. exists sw', s. split; [done|]. eapply runs_lift_bind; [done|]. apply runs_bind.
    eapply runs_conseq; [eapply single_run; [done|done|by eapply ok_any|done|done]|].
    intros p s1 (Hp & Hs1 & HI1 & Hok1 & Hin & Hf). clear Hs1.
    assert (¬ is_temp p) as Hpt by (rewrite Hp; apply v5_not_temp).
    apply runs_bind. eapply runs_conseq; [eapply chassis_relations_run; [|done|done|exact Hok1]|].
    { eapply frame_fresh; [exact Hf|by intros ? []|done]. }
    intros ? s2 (HI2 & Hok2 & Hf2). unfold get_keys_of. apply runs_bind, runs_get_bind, runs_ret, runs_bind.
    assert (frame (only Component.Chassis i) s s2) as Hf12 by (eapply frame_trans; [exact Hf|apply Hf2]).
    assert (∀ c, c ≠ Component.Chassis → fresh s c → fresh s2 c) as Hfr.
    { intros c Hc. eapply frame_fresh; [exact Hf12|]. by intros ? []. }
    eapply runs_conseq; [eapply (stabilize_children_run Component.Drive Component.Chassis w p _
      [Component.Endpoint; Component.PcieFunction] (λ _, False) X []); try done|].
    + intros X' s' k' k r' Hg' Hch' _ [HfE' [HfF' _]%list.Forall_cons]%list.Forall_cons.
      eapply runs_conseq; [by eapply drive_run|]. intros ? s''. apply renamed_only_frame.
    + here.
    + by intros [].
    + by intros [].
    + each; (split; [done|by intros []]).
    + by rewrite (quiet_keys s1).
    + each; auto.
    + auto.
    + by apply (ok_pend X [Component.Drive]).
    + intros ? s3 ([HI3 Hok3] & Hf3). apply runs_ret. split; [split; [done|by eapply pend_nil]|].
      eapply frame_trans; eapply frame_mono; [exact Hf12| |exact Hf3|].
      * intros c k [-> _]. here.
      * intros c k [->|[]]. here.
  - pose proof Ek as Ek'. apply key_of_missing in Ek' as [m ->]; [|done]. eapply runs_catch_missing; [|split; [done|apply frame_refl]].
    rewrite (bind_run _ _ _ _ _ Hget). by rewrite Ek.
Qed.

(** ** The module *)

(** The types with several resources, before they are stabilized. *)
Definition discovered : list Component.t :=
  [Component.Drive; Component.Endpoint; Component.PcieFunction; Component.PcieDevice; Component.Zone; Component.Port].

(** The persistent uuid of the module. *)
Definition module_uuid (w : uuid) (sw : Res Component.Switch) : uuid :=
  match switch_serial (fields sw) with
  | Some serial => make_v5_uuid ((m_agent_id +:+ "_PCIeModule_") +:+ serial)%string
  | None => w
  end.

Lemma children_of_module_run X w p s :
  ¬ is_temp p → p ∈ keys s Component.Manager → Inv s → Forall (fresh s) discovered →
  (∀ j u, ¬ X Component.StorageSubsystem j u) →
  ok (pend [Component.Chassis; Component.Fabric; Component.System; Component.PcieDevice] w X) [] ""%string s →
  runs (
    chassis_keys ← get_keys_of Component.Chassis w;
    for_each chassis_keys (λ k, set_parent Component.Chassis k p;; stabilize_chassis make_v5_uuid m_agent_id k;; mret tt);;
    fabric_keys ← get_keys_of Component.Fabric w;
    for_each fabric_keys (λ k, set_parent Component.Fabric k p;; stabilize_fabric make_v5_uuid m_agent_id k;; mret tt);;
    system_keys ← get_keys_of Component.System w;
    for_each system_keys (λ k, set_parent Component.System k p;; stabilize_system make_v5_uuid m_agent_id k;; mret tt);;
    device_keys ← get_keys_of Component.PcieDevice w;
    for_each device_keys (stabilize_device_of_module make_v5_uuid m_agent_id p);;
    mret p) s (λ p' s', p' = p ∧ good X s' ∧ p ∈ keys s' Component.Manager).
Proof.
  intros Hpt Hin HI Hfr HX Hok. assert (∀ c, c ∈ discovered → fresh s c) as Hfresh by (by apply list.Forall_forall).
  unfold get_keys_of. apply runs_bind, runs_get_bind, runs_ret, runs_bind.
  eapply runs_conseq; [eapply (stabilize_only_child_run Component.Chassis Component.Manager w p _
    [Component.Drive; Component.Endpoint; Component.PcieFunction; Component.PcieDevice] [Component.Drive] X);
    each; [|here|not_in|apply Hfresh; here..]|].
  { intros s' j k r' Hg' Hch' [? [? [? [? _]%list.Forall_cons]%list.Forall_cons]%list.Forall_cons]%list.Forall_cons.
    by eapply chassis_run. }
  intros ? s2 ([HI2 Hok2] & Hin2 & Hf2).
  assert (∀ c, c ∈ discovered → c ∉ [Component.Chassis; Component.Drive] → fresh s2 c) as Hfresh2.
  { intros c Hc Hn. eapply frame_fresh; [exact Hf2|done|by apply Hfresh]. }
  apply runs_bind, runs_get_bind, runs_ret, runs_bind.
  eapply runs_conseq; [eapply (stabilize_only_child_run Component.Fabric Component.Manager w p _
    [Component.Zone; Component.Port; Component.PcieFunction; Component.Endpoint]
    [Component.Switch; Component.Port; Component.Metric; Component.Zone; Component.Endpoint] X);
    each; [|here|not_in|apply Hfresh2; [here|not_in]..]|].
  { intros s' j k r' Hg' Hch' [? [? [? [? _]%list.Forall_cons]%list.Forall_cons]%list.Forall_cons]%list.Forall_cons.
    by eapply fabric_run. }
  intros ? s3 ([HI3 Hok3] & Hin3 & Hf3).
  apply runs_bind, runs_get_bind, runs_ret, runs_bind.
  eapply runs_conseq; [eapply (stabilize_only_child_run Component.System Component.Manager w p _ []
    [Component.StorageSubsystem] X); each; [|here|not_in]|].
  { intros s' j k r' Hg' Hch' _. eapply runs_conseq; [eapply system_run; [done| |done]|].
    - intros ? ? [?%HX|[?%list_elem_of_singleton _]]; done.
    - intros ? s'' [Hg'' Hf'']. split; [done|]. eapply frame_mono; [exact Hf''|]. intros c q [[-> _]| ->]; here. }
  intros ? s4 ([HI4 Hok4] & Hin4 & Hf4).
  assert (fresh s4 Component.PcieDevice) as HfD.
  { eapply frame_fresh; [exact Hf4|not_in|].
    eapply frame_fresh; [exact Hf3|not_in|].
    apply Hfresh2; [here|not_in]. }
  apply runs_bind, runs_get_bind, runs_ret, runs_bind.
  eapply runs_conseq; [eapply (children_run Component.PcieDevice w _ (λ s, p ∈ keys s Component.Manager)
    (λ c, c = Component.PcieFunction) X []); [|done|done|exact Hok4|done|by left; eapply HfD]|].
  { intros X' s' j k r' HI' Hok' Hch' Hp' _. by eapply device_of_module_run. }
  intros ? s5 ([HI5 Hok5] & Hin5 & _). apply runs_ret. split_and!; [done|split; [done|by eapply pend_nil]|done].
Qed.

Lemma module_run X w i r s :
  good X s → (∀ j u, ¬ X Component.StorageSubsystem j u) → child_ok s Component.Manager i w r →
  Forall (fresh s) discovered →
  ∃ sw, data s Component.Switch = [sw] ∧
    runs (stabilize make_v5_uuid m_agent_id w) s (λ p s', p = module_uuid w sw ∧ good X s' ∧ p ∈ keys s' Component.Manager).
Proof.
  intros [HI Hok] HX Hch Hfr. pose proof (child_uniq _ _ _ _ _ _ _ _ _ HI Hch) as Hu.
  pose proof (inv_switch _ _ _ _ _ HI) as Hl.
  destruct (data s Component.Switch) as [|sw [|]] eqn:Esw; cbn [length] in Hl; [lia| |lia].
  exists sw. split; [done|]. unfold stabilize. apply runs_bind. exists r, s. split; [by eapply get_entry_run|].
  assert (GenericManager.get_keys (λ _, true) (tables s Component.Switch) = [get_uuid sw]) as Hkeys.
  { unfold GenericManager.get_keys. unfold data in Esw. by rewrite Esw. }
  assert (get_entry Component.Switch (get_uuid sw) s = (Ok sw, s)) as Hget.
  { eapply (get_entry_run _ _ _ 0), child_uniq; [done|]. split; [by rewrite Esw|]. split; [done|by right]. }
  unfold module_uuid. destruct (switch_serial (fields sw)) as [x|] eqn:Ex.
  - apply runs_catch. unfold get_keys. apply runs_bind, runs_get_bind, runs_ret. rewrite Hkeys.
    apply runs_bind. exists sw, s. split; [done|].
    eapply runs_lift_bind; [unfold key_Manager; rewrite Ex; reflexivity|]. apply runs_bind.
    eapply runs_conseq; [eapply single_run; [done|done|by eapply ok_any|done|done]|].
    intros p s1 (Hp & Hs1 & HI1 & Hok1 & Hin & Hf). clear Hs1.
    eapply runs_conseq; [eapply (children_of_module_run X w p s1); [rewrite Hp; apply v5_not_temp|done|done| |done|]|].
    + apply list.Forall_forall. intros c Hc. rewrite list.Forall_forall in Hfr.
      eapply frame_fresh; [exact Hf| |by apply Hfr]. intros ? [-> _]. revert Hc. change (Component.Manager ∉ discovered). not_in.
    + by apply (ok_pend X [Component.Chassis; Component.Fabric; Component.System; Component.PcieDevice]).
    + by intros p' s' (-> & ? & ?).
  - eapply runs_catch_missing.
    + unfold get_keys. run_monad. rewrite Hkeys, Hget. unfold key_Manager. by rewrite Ex.
    + split_and!; [done|by split|]. destruct Hch as (Hi & <- & _). apply list_elem_of_fmap. exists r.
      split; [done|]. by eapply list_elem_of_lookup_2.
Qed.

End stable.

End PncStable.
