(* ===== verification/PncTree.v ===== *)
(** What the tree stabilizer of the pnc agent promises, an example of it at work, and the
    places where it does not do what it means to. *)

From Stdlib Require Import ZArith Lia.
From S2P Require Import Prelude.
From S2P Require Import OrdSet.
From S2P Require Import Enums.
From S2P Require Import ManyToMany.
From S2P Require Import GenericManager.
From S2P Require Import PncModel.
From S2P Require Import PncStabilizer.
From S2P Require Import PncReferences.
From S2P Require Import PncInvariant.
From S2P Require Import PncStable.
Import GenericManager PncModel PncStabilizer PncReferences PncInvariant PncStable.

Module PncTree.

(** ** References after stabilization *)

(** C11: [PncTreeStabilizer::stabilize], run on a model as the discovery leaves it,
    returns: none of its many look-ups by uuid fails.  It gives the module the
    persistent uuid made from the serial number of the switch (or leaves it alone if the
    switch has none), and afterwards every reference of [aimed] names a resource by the
    uuid that this resource now reports: the parents of chassis, fabrics, systems,
    devices, drives, switches, zones, endpoints, ports, subsystems and functions, the
    chassis of switches, systems and devices, the switches of zones, the ports of
    functions and drives, the devices of functions, the entities of endpoints, and both
    sides of the five relations.  Not among these are the components that metrics belong
    to, and the parents and ports of processors, of which metrics and these ports are not
    modelled: the table of processors is not touched, so its parents are the uuids the
    systems had before.  The model is one with
    one manager, chassis, fabric, switch, system and subsystem, where temporary uuids are
    distinct from each other and from generated ones, drives do not collide, processors have
    serial numbers, endpoints have entities and roles, functions have devices, the
    references of [aimed] name resources, and the resources of which there are several have
    no persistent uuid yet. *)
Theorem stabilize_keeps_references make_v5_uuid m_agent_id is_temp procs s w :
  (∀ key, ¬ is_temp (make_v5_uuid key)) →
  (∀ key, make_v5_uuid key ≠ ""%string) →
  Forall (λ r, is_Some (processor_serial (fields (c := Component.Processor) r))) (m_manager_data procs) →
  Inv make_v5_uuid m_agent_id is_temp procs s →
  Forall (fresh s) discovered →
  w ∈ keys s Component.Manager →
  up_to_date s →
  ∃ sw s', data s Component.Switch = [sw] ∧
    stabilize make_v5_uuid m_agent_id w s = (Ok (module_uuid make_v5_uuid m_agent_id w sw), s') ∧
    up_to_date s' ∧ Inv make_v5_uuid m_agent_id is_temp procs s' ∧
    module_uuid make_v5_uuid m_agent_id w sw ∈ keys s' Component.Manager ∧
    tables s' Component.Processor = tables s Component.Processor.
Proof.
  intros Hv5 Hnamed Hserial HI Hfr Hw Hup.
  apply list_elem_of_fmap in Hw as (r & Hw & [i Hi]%list_elem_of_lookup).
  destruct (module_run make_v5_uuid m_agent_id is_temp procs Hv5 Hnamed Hserial nowhere w i r s)
    as (sw & Hsw & p & s' & Hrun & -> & [HI' Hok'] & Hin); [|by intros ? ? []| |done|].
  - split; [done|]. by apply ok_up_to_date.
  - split; [done|]. split; [done|]. by right.
  - exists sw, s'. split_and!; try done; [by eapply ok_up_to_date|].
    by rewrite (inv_procs _ _ _ _ _ HI'), (inv_procs _ _ _ _ _ HI).
Qed.

(** ** A small model *)

Module Example.

Definition v5 (key : string) : uuid := ("5" +:+ key)%string.

(** Temporary uuids of the example start with a [t]. *)
Definition temp (u : uuid) : Prop := String.prefix "t" u = true.

Definition entry {c} (u parent : uuid) (f : Fields c) : Res c :=
  mkResource [] Component.None_ u "" parent None false 0 "" 1 None f.

Definition procs : table Component.Processor :=
  mkManager [entry (c := Component.Processor) "tproc" "tsys" (mkProcessorF (Some "P1"))] 1.

Definition demo_tables (c : Component.t) : table c :=
  match c with
  | Component.Manager => mkManager [entry (c := Component.Manager) "tman" "" tt] 1
  | Component.Chassis => mkManager [entry (c := Component.Chassis) "tcha" "tman" tt] 1
  | Component.Fabric => mkManager [entry (c := Component.Fabric) "tfab" "tman" tt] 1
  | Component.Switch =>
      mkManager [entry (c := Component.Switch) "tswi" "tfab" (mkSwitchF (Some "S1") (Some "tcha"))] 1
  | Component.System => mkManager [entry (c := Component.System) "tsys" "tman" (mkSystemF (Some "tcha"))] 1
  | Component.StorageSubsystem => mkManager [entry (c := Component.StorageSubsystem) "tsub" "tsys" tt] 1
  | Component.Drive =>
      mkManager [entry (c := Component.Drive) "tdri" "tcha" (mkDriveF (Some "D1") ["tprt2"])] 1
  | Component.Port =>
      mkManager [entry (c := Component.Port) "tprt1" "tswi" (mkPortF (Some "1"));
                 entry (c := Component.Port) "tprt2" "tswi" (mkPortF (Some "2"))] 1
  | Component.Zone => mkManager [entry (c := Component.Zone) "tzon" "tfab" (mkZoneF (Some 4%Z) "tswi")] 1
  | Component.Endpoint =>
      mkManager [entry (c := Component.Endpoint) "tend" "tfab"
        (mkEndpointF [Some "tend"] [mkEntity (Some Target) (Some "tdri")])] 1
  | Component.PcieDevice =>
      mkManager [entry (c := Component.PcieDevice) "tdev1" "tman" (mkDeviceF (Some "E1") (Some "tcha"));
                 entry (c := Component.PcieDevice) "tdev2" "tman" (mkDeviceF None (Some "tcha"))] 1
  | Component.PcieFunction =>
      mkManager [entry (c := Component.PcieFunction) "tfun1" "tdev1" (mkFunctionF (Some "tdri") "tprt2");
                 entry (c := Component.PcieFunction) "tfun2" "tdev2" (mkFunctionF (Some "tproc") "")] 1
  | Component.Processor => procs
  | Component.Metric => mkManager [entry (c := Component.Metric) "tmet" "" (mkMetricF "tprt1")] 1
  | _ => mkManager [] 1
  end.

Definition demo_relations (r : Relation) : ManyToMany.t :=
  match r with
  | ZoneEndpoint => [("tzon", "tend", "")]
  | EndpointPort => [("tend", "tprt2", "")]
  | DriveFunction => [("tdri", "tfun1", "")]
  | ProcessorFunction => [("tproc", "tfun2", "")]
  | SubsystemDrive => [("tsub", "tdri", "")]
  end%string.

Definition demo : Model := mkModel demo_tables demo_relations.

(** The entries of the example, by type and position. *)
Ltac entries c i :=
  destruct c; cbn; try (by destruct i);
  destruct i as [|[|i]]; cbn; try done.

Lemma demo_entries c i (r : Res c) : data demo c !! i = Some r → entry_ok v5 "A" temp procs c r.
Proof.
  entries c i; intros [= <-]; repeat split; try done; try (by eexists).
  apply list.Forall_cons. split; [split; by eexists|apply Forall_nil_2].
Qed.

Lemma demo_fresh c : fresh demo c.
Proof. intros i r. entries c i; intros [= <-]; reflexivity. Qed.

Lemma demo_functions i r : data demo Component.PcieFunction !! i = Some r → function_ok procs demo r.
Proof.
  destruct i as [|[|i]]; [| |by destruct i]; intros [= <-] _ x d [= <-] Hx;
    (split; intros ->%list_elem_of_singleton); done.
Qed.

Lemma demo_inv : Inv v5 "A" temp procs demo.
Proof.
  split.
  - apply demo_entries.
  - intros c i j r r'. entries c i; destruct j as [|[|j]]; cbn; try done; by intros [= <-] [= <-].
  - intros [|i] [|j] r r' x y Hi Hj _ _ _; [done|by destruct j|by destruct i|by destruct i].
  - intros c. destruct c; cbn; try done; lia.
  - done.
  - cbn. lia.
  - intros rl. destruct rl; repeat constructor.
  - done.
  - apply demo_functions.
Qed.

(** A reference of the example is found among the keys of some type, or is not one that
    is kept up to date. *)
Ltac at_type k := exists k; split; solve [cbn; repeat first [apply list_elem_of_here | apply list_elem_of_further]].
Ltac referenced :=
  first [at_type Component.Manager | at_type Component.Chassis | at_type Component.Fabric | at_type Component.Switch
        | at_type Component.System | at_type Component.StorageSubsystem | at_type Component.Drive
        | at_type Component.Port | at_type Component.Zone | at_type Component.Endpoint
        | at_type Component.PcieDevice | at_type Component.PcieFunction | at_type Component.Processor].
Ltac untracked H := let c := fresh in let Hc := fresh in
  exfalso; destruct H as [c Hc]; destruct c; cbn in Hc; rewrite ?elem_of_cons, ?elem_of_nil in Hc; intuition congruence.

Lemma demo_up_to_date : up_to_date demo.
Proof.
  intros src i u Ht Hr. destruct src as [c|f|rl p].
  - destruct Hr as (r & Hi & <-). revert Hi. entries c i; intros [= <-]; first [by referenced | untracked Ht].
  - destruct Hr as (c & r & Hi & Hu). revert Hi Hu. entries c i; intros [= <-] Hu; destruct f; cbn in Hu;
      repeat (apply elem_of_cons in Hu as [->|Hu]); try (by apply elem_of_nil in Hu); by referenced.
  - destruct Hr as (x & Hx & <-). destruct rl; apply list_elem_of_singleton in Hx as ->; destruct p; cbn;
      first [by referenced | untracked Ht].
Qed.

Lemma stabilize_keeps_references_witness :
  ∃ s', stabilize v5 "A" "tman" demo = (Ok "5A_PCIeModule_S1"%string, s') ∧ up_to_date s' ∧
    keys s' Component.PcieFunction = ["5A_PCIeFunction_E1"; "5A_PCIeFunction_P1"]%string ∧
    relations s' DriveFunction = [("5A_PCIeDrive_D1", "5A_PCIeFunction_E1", "")]%string.
Proof.
  destruct (stabilize_keeps_references v5 "A" temp procs demo "tman") as (sw & s' & Hsw & Hrun & Hup & _ & _ & _).
  - intros key. unfold temp, v5. cbn. discriminate.
  - intros key. unfold v5. discriminate.
  - apply list.Forall_cons. split; [by eexists|apply Forall_nil_2].
  - exact demo_inv.
  - apply list.Forall_forall. intros c _. apply demo_fresh.
  - apply list_elem_of_here.
  - exact demo_up_to_date.
  - injection Hsw as <-. exists s'. split; [exact Hrun|]. split; [exact Hup|].
    assert (s' = (stabilize v5 "A" "tman" demo).2) as -> by (by rewrite Hrun). split; vm_compute; reflexivity.
Defined.

(** ** What the stabilizer gets wrong *)

(** The key of a function is made from the serial number of its device only: two
    functions of one device end up with the same persistent uuid, and so do the
    entries of the relation that name them. *)
Definition two_functions (c : Component.t) : table c :=
  match c with
  | Component.PcieFunction =>
      mkManager [entry (c := Component.PcieFunction) "tfun1" "tdev1" (mkFunctionF (Some "tdri") "tprt2");
                 entry (c := Component.PcieFunction) "tfun2" "tdev1" (mkFunctionF (Some "tdri") "tprt2")] 1
  | Component.PcieDevice =>
      mkManager [entry (c := Component.PcieDevice) "tdev1" "tman" (mkDeviceF (Some "E1") (Some "tcha"))] 1
  | c => demo_tables c
  end.

Theorem functions_collide :
  let s := mkModel two_functions (λ r, match r with
    | DriveFunction => [("tdri", "tfun1", ""); ("tdri", "tfun2", "")] | r => demo_relations r end)%string in
  let s' := (stabilize v5 "A" "tman" s).2 in
  keys s Component.PcieFunction = ["tfun1"; "tfun2"]%string ∧
  keys s' Component.PcieFunction = ["5A_PCIeFunction_E1"; "5A_PCIeFunction_E1"]%string ∧
  length (relations s' DriveFunction) = 1.
Proof. vm_compute. done. Qed.

(** The parent of a processor is the system it was discovered in.  [stabilize_system]
    renames the system and updates the parents of its subsystems only, so the processor
    keeps a parent that no system has. *)
Theorem processor_keeps_old_parent :
  let s' := (stabilize v5 "A" "tman" demo).2 in
  m_parent_uuid <$> data demo Component.Processor = keys demo Component.System ∧
  m_parent_uuid <$> data s' Component.Processor = ["tsys"]%string ∧
  keys s' Component.System = ["5A_PCIeSystem_"]%string.
Proof. vm_compute. done. Qed.

(** A function without a functional device ends the loop over the functions of its
    device: the device has its new uuid, and the parent of the function after it is
    still the old one. *)
Theorem later_functions_keep_old_parent :
  let s := mkModel (λ c, match c with
    | Component.PcieFunction =>
        mkManager [entry (c := Component.PcieFunction) "tfun1" "tdev1" (mkFunctionF None "tprt2");
                   entry (c := Component.PcieFunction) "tfun2" "tdev1" (mkFunctionF (Some "tdri") "tprt2")] 1
    | c => two_functions c end) demo_relations in
  let '(r, s') := stabilize_pcie_device v5 "A" "tdev1" s in
  r = Ok "5A_PCIeDevice_E1"%string ∧ keys s' Component.PcieDevice = ["5A_PCIeDevice_E1"]%string ∧
  m_parent_uuid <$> data s' Component.PcieFunction = ["5A_PCIeDevice_E1"; "tdev1"]%string.
Proof. vm_compute. done. Qed.

End Example.

(** [std::unique] does not shrink the vector: a device without serial number whose
    functions all belong to the same processor is not stabilized unless it has exactly
    one function. *)
Theorem several_functions_not_stabilized make_v5_uuid m_agent_id u s d d' ds :
  functional_devices (get_entries_of u (λ _, true) (tables s Component.PcieFunction)) = Some (d :: d' :: ds) →
  try_stabilize_pcie_device_using_oob_model make_v5_uuid m_agent_id u s = (Ok u, s).
Proof. intros H. unfold try_stabilize_pcie_device_using_oob_model. run_monad. by rewrite H. Qed.

(** The endpoints that name a drive are found with a test that skips entities without a
    uuid, but the loop that replaces the uuid reads every entity: one without a uuid
    throws, and the other endpoints, the functions and the relations keep the old
    uuid. *)
Theorem missing_entity_throws t p e es :
  entity e = None → replace_entities t p (mkEntity (Some Target) (Some t) :: e :: es) =
    Throw (logic_error "bad optional access").
Proof. intros He. cbn. by rewrite He. Qed.

End PncTree.
